(* ===== verification/_CoqProject ===== *)
-Q . S2P
Prelude.v
Tensor.v
Layout.v
PagedKV.v
PagedKVProofs.v
Unicode.v
UnicodeProofs.v
Admission.v
AdmissionProofs.v
Capacity.v
CapacityProofs.v
Contract.v
Output.v
OutputProofs.v
Utf8Proofs.v
OutputTheorems.v
Tokenizer.v
TokenizerProofs.v
TokenizerLoad.v
ToolCalls.v
ToolCallsProofs.v
PrefixIdentity.v
Digest.v
DigestProofs.v
ChatTemplate.v
ChatTemplateProofs.v
ToolRoundTrip.v
ResponseStore.v
ResponseStoreProofs.v
MediaCache.v
MediaCacheProofs.v
Artifact.v
ArtifactProofs.v
BinderProofs.v
Materialize.v
LoaderProofs.v
MaterializeProofs.v
Processor.v
PlaceholderProofs.v
PositionProofs.v
Preparation.v
VisionControl.v
ProgramState.v
Weights.v
WeightsProofs.v
Model27.v
Model27Proofs.v
RequestPlan.v
Program.v
ProgramDecode.v
ProgramLanes.v
ProgramSample.v
PlanProofs.v
PreparationProofs.v
Requests.v
RequestsProofs.v
Serving.v
ServingProofs.v
Responses.v
ResponsesProofs.v
ResponsesHttp.v
ResponsesHttpProofs.v
ResponsesClient.v
ResponsesStream.v
ProgramBundle.v
ProgramInvariant.v
ProgramPrefill.v
ProgramRounds.v
ProgramBatches.v
ProgramResolve.v
ProgramTheorems.v
Executor.v
ExecutorProofs.v
ExecutorTheorems.v
