(* ===== verification/Prelude.v ===== *)
(** * NInfer core: a verification development

    NInfer is a C++/CUDA inference engine for Qwen3.6 models.  Clients submit requests; one worker
    thread admits them to the lanes of a model target, runs prefill and decode rounds on the GPU and
    feeds the licensed tokens to an output session, which turns them into published text.  This
    development models the engine's own sequential logic as Rocq functions and proves what makes it
    correct.  The arithmetic of the GPU kernels is outside: a round's tokens are values the target
    returns.

    ** The files

    - [Prelude]: exceptions ([exn], [result]), computations on a mutable object ([M], with the state
      kept when an exception is thrown), checked and wrapping machine integers ([is_u32], [align_up],
      ...), generic lemmas.
    - [Tensor]: [src/core/dtype], [src/core/tensor].
    - [Layout]: [src/core/layout], [src/core/arena]: planning offsets and the bump arena.
    - [PagedKV], [PagedKVProofs]: [src/core/paged_kv_cache]: pools of page groups, allocations,
      bundles.  A [focus] is one allocation with its pool and device memory; a [store] is the heap.
    - [Unicode], [UnicodeProofs]: [src/text/unicode] and the two UTF-8 functions of
      [third_party/utf8proc] it rests on; utf8proc's tables are the class [CharacterTables].
    - [Admission], [AdmissionProofs]: [src/runtime/engine/admission_policy].
    - [Capacity], [CapacityProofs]: [src/runtime/engine/kv_capacity], [request_memory],
      [src/runtime/generation/generation_budget].
    - [Contract]: [src/runtime/contract]: the values exchanged, and the interfaces [Target],
      [OutputSession], [Environment] with their laws, against which the executor is proved.
    - [Output], [OutputProofs], [Utf8Proofs], [OutputTheorems]: the output sessions of
      [targets/qwen3_6/impl/frontend/frontend.cpp]; they are an instance of [OutputSession] and
      satisfy [OutputSessionLaws].
    - [Tokenizer], [TokenizerProofs], [TokenizerLoad]:
      [targets/qwen3_6/impl/frontend/tokenizer.cpp], from the parsed JSON files on.
    - [ToolCalls], [ToolCallsProofs]: [src/serve/tool_call_parser]: the tool calls that end an answer, and
      the filter that publishes an answer while it may still turn out to end in tool calls.
    - [PrefixIdentity]: [targets/qwen3_6/impl/runtime/prefix_identity.cpp] and the prompt it describes
      ([prepared_prompt.h]): what a lane remembers of the tokens it has processed.
    - [Digest], [DigestProofs]: [impl/frontend/digest.cpp]: SHA-256.
    - [ChatTemplate], [ChatTemplateProofs]: [impl/frontend/chat_template]: rendering conversations, and
      the rewrite checkpoint.  [ToolRoundTrip]: rendered tool calls against the server's parser.
    - [ResponseStore], [ResponseStoreProofs]: [src/serve/response_store]: the bounded store of responses.
    - [Requests], [RequestsProofs]: [src/serve/request.h], [openai_schema.cpp], [anthropic_schema.cpp]: from the parsed
      body of a request to a [GenerationRequest].  [Serving], [ServingProofs]: [src/serve/translate.cpp],
      [generation_service.cpp], [src/runtime/contract/sampling.cpp]: from there to a conversation and options, and
      back to what a client is sent; the server's environment is the class [ServiceEnvironment].
    - [Responses], [ResponsesProofs]: [src/serve/responses_schema.cpp]: requests of the Responses API, the objects of
      its responses and the encoder of their events.  [ResponsesHttp], [ResponsesHttpProofs]: [src/serve/responses_http.cpp]:
      its endpoints.  [ResponsesClient]: a client that follows the events of a response; [ResponsesStream]: it can follow
      what the encoder and the handler of streams send.
    - [MediaCache], [MediaCacheProofs]: [impl/frontend/media_cache] and [src/core/host_worker_pool]: prepared
      media by content, built once for concurrent requests; a step relation over critical sections.
    - [Artifact], [ArtifactProofs], [BinderProofs]: [src/artifact]: opening a weights file, the sizes of its
      tensors, and the binder that plans where its objects go.  [Materialize], [LoaderProofs],
      [MaterializeProofs]: [src/artifact/materializer]: loading a plan through staging slots and a CUDA stream; the
      system, the driver and the pace of the device are the class [LoadHost].
    - [Weights], [WeightsProofs]: [src/artifact/typed_binding], [Weight] of [core/tensor.h] and what the models share
      ([impl/frontend/resources.cpp], [impl/vision/bindings.cpp]): naming tensors, and the views of loaded ones.
      [Model27], [Model27Proofs]: [targets/qwen3_6_27b/impl/load]: the binding and the views of the 27B models.
    - [Processor], [PlaceholderProofs], [PositionProofs]: [impl/frontend/processor.cpp]: from a conversation with
      media to tokens, their types and positions, and vision items.  [Preparation]: the frontend of
      [impl/frontend/frontend.cpp]: its construction from the model's files, and the preparation of prompts.
      [PreparationProofs]: what it prepares against the checks of the runtime.
    - [VisionControl]: [targets/qwen3_6/impl/vision/control.cpp]: spans and segments of vision items.
    - [ProgramState]: the state of the model program ([program.h]): a sequence, a KV bundle and a request
      per lane, decode graphs, and the class [Device] of the GPU work it enqueues.
    - [RequestPlan], [PlanProofs]: [targets/qwen3_6/impl/runtime/request_plan_impl.h].
    - [Program], [ProgramDecode]: [targets/qwen3_6/impl/runtime/program_impl.h]: KV bundles, admission,
      prefill; decode rounds with each speculative backend, and their resolution.
    - [ProgramLanes]: weakest preconditions of an operation on one lane ([lwp]): what it does to the
      lane's view (its sequence, request and allocations), with the frame that the other lanes keep.
      [ProgramBundle]: the rules of the KV operations.  [ProgramInvariant]: what each stage of a
      request's life means.  [ProgramPrefill], [ProgramRounds]: prefill, rounds and resolution keep it
      on a lane; [ProgramBatches], [ProgramResolve]: on batches of distinct lanes.  [ProgramTheorems]:
      all operations as a step relation.  [ProgramSample]: a small program.
    - [Executor], [ExecutorProofs], [ExecutorTheorems]: [src/runtime/engine/concurrent_executor.h].

    The executor calls a target only through [Target]; the model program is modelled on its own, as the
    operations that implement a target, and its theorems take the device ([DeviceLaws]: it reports
    failures by exceptions and a prefill chunk's counts are unsigned) and the configuration
    ([ProgramConfigLaws]: what the constructor checks) as hypotheses.

    Definitions keep the names of the source; a trailing underscore is the source's own (a member)
    or avoids a Rocq keyword.

    ** Conventions

    Machine integers are [Z] within the range of their type; where the code checks for overflow so
    does the model, and where it wraps the wrap is written out.  Strings are lists of bytes.  Hash
    maps are [gmap]s, JSON objects are association lists in key order.  Objects shared by pointer
    (requests, pools, allocations) live in an explicit heap.  Exceptions carry their dynamic type,
    not the text of [what()].  A destructor is run where the C++ scope ends.

    ** What the theorems show

    - Executor: whatever the target, the sessions, the clock and the clients do, in every reachable
      state each accepted request is in exactly one place, the lanes agree with their requests and
      the reserved capacity is the sum of what the residents reserved; an exception in a unit of work
      is contained or completes every request; stopping completes every request.  Loops of the worker
      carry a measure: one admission pass ends because every round of it removes a waiting request.
    - Admission: backfilling never takes the room the head of the queue waits for, and the donors are
      the shortest completion prefix that makes this room.
    - Capacity: the automatic capacity is the largest that fits; request regions stay in the arena.
    - Paged KV: pages are partitioned between the free list and the allocations, block tables in
      device memory name the pages of the allocation bound to the row, an allocation can always take
      the pages it is entitled to, and the operations on bundles either happen or change nothing.
    - Program: whatever the operations, their failures and the device's, in every reachable program
      each lane is in the state that the stage of its request describes: ledger, frontiers, prefix
      identity, mapped pages, entitlements and table rows agree.  An operation touches only its own
      lanes and an exception empties them or leaves them alone.  What a resolution commits is what the
      round showed.  A prefill ends.  A plan made for a lane is accepted by it, and a prompt is taken to
      continue a lane exactly when it agrees with what the lane has processed.
    - Output: the text published by a session is a function of the bytes generated, however they are
      cut into tokens and rounds; a stop string is found exactly when it occurs.  At the end of an
      output, text held back as a possible end of reasoning and the replacement of an incomplete
      UTF-8 sequence are published without looking for stop strings in them, as in the code.
    - Tokenizer: encoding partitions the text, byte-pair merging computes the merge of lowest rank
      first, decoding gives the normalized text back; loading gives a consistent tokenizer.
    - Prompts: the text up to the rewrite checkpoint of a rendered conversation survives the turns that
      follow; rendered tool calls are parsed back, and what is published of a streamed answer is what
      its parser leaves; digests are those of the standard.
    - Response store: within its limits whatever happens, with the most recently used responses.
    - Server requests: any body is parsed to a well-formed request or is an error of the client; the conversation
      shows what was sent; the options are ones that the planner accepts, over every model's defaults; the count of
      requests is kept on every path; a streaming client is sent the answer, byte for byte, however it was cut.
    - Responses: the items of an input and those of an output can be sent again, and stand for the turns they stood
      for.  A streaming client can follow the events whatever fails, and at the end has the output that is stored; a
      stored response is continued with the dialogue it answered; the items of its input are listed page by page.
    - Media cache: its byte counts are exact and bounded, a medium is built once at a time, and every flight
      ends.
    - Media in prompts: each placeholder is expanded by the tokens of its medium; the positions are those of
      a reference definition of multimodal rotary embedding; what the processor prepares passes the checks
      of the request plan and gives the vision control.
    - Artifacts: a file is opened exactly when it is one by a reference description; what a binder plans is
      complete, disjoint and within the capacity; a load puts every planned byte in its place although slots
      are reused while copies are queued, and fails only with a call of the system.
    - Models: when binding accepts an artifact, the model can be made of what is loaded; its tensors and weights
      lie in the objects of the plan, the planes of a weight in order, and it has the parts that are asked for.
    - Tensors and layouts: strided elements are where the contiguous reference puts them, planned
      regions are disjoint, in bounds and aligned, and a dry run of an arena is sufficient.

    ** Fuel

    Loops whose bound is in the code are structural recursions on it.  [fuel] occurs where the code
    loops on a changing state: scanning text ([length + 1] of the bytes left, each round consumes at
    least one), the runs of equal token types (their tokens), byte-pair merging
    (the number of symbols, each round removes one), the worker's admission pass (the number of waiting
    requests), the chunks of a span of a weights file (its bytes over those of a slot).  [prefill_loop] steps a
    prefill as its caller does: the tokens left are enough.  The termination theorems, and those that give the
    result of these loops, show that this is enough.

    ** Not modelled

    CUDA kernels, their launchers and plans ([src/ops]) and the schedules that call them (a schedule is
    a [Command] that the program enqueues, with its arguments); the construction of the model program
    and of its CUDA graphs, its timings and memory peaks; the bindings of the 35B model and the sizes and
    schedules of the variants; mapping a weights file, which is given by its bytes; media acquisition and
    decoding (FFmpeg); image resampling (what the media cache gives for a medium is an argument of the
    processor); the HTTP server's transport and the bodies and events of its other protocols; the CLI; logs
    and statistics.  Locks and condition variables of the executor are not modelled as such: its critical
    sections are atomic and interleave with the client operations. *)
From stdpp Require Export base numbers list sets gmap sorting.
From Stdlib Require Export ZArith Lia.
From Stdlib Require Import Znumtheory.
#[local] Open Scope Z_scope.

(** ** Errors: the C++ exception classes the modelled code throws *)

(** [include/ninfer/types.h]: the kind a [RequestError] carries. *)
Inductive RequestErrorKind : Set :=
| ContextLengthExceeded | MediaBudgetExceeded | Overloaded | QueueTimeout | Cancelled_
| Unavailable.

(** The dynamic type of a thrown exception.  The text of [what()] is not modelled. *)
Inductive exn : Set :=
| InvalidArgument | OverflowError | OutOfRange | LogicError | BadAlloc | RuntimeError
| RequestError (kind : RequestErrorKind)
| ArtifactError | ApiError
| JsonException                (**r [nlohmann::json::exception] *)
| ProcessorError               (**r of the media processor: a budget is exceeded *)
| DecodeError (budget_exceeded : bool)   (**r [media::decode::Error] *)
| ClientDisconnected           (**r of the HTTP server *)
| Abort_.                      (**r [std::abort] / [std::terminate] *)

#[export] Instance RequestErrorKind_eq_dec : EqDecision RequestErrorKind.
Proof. solve_decision. Defined.
#[export] Instance exn_eq_dec : EqDecision exn.
Proof. solve_decision. Defined.

Inductive result (A : Type) : Type :=
| Ok (a : A)
| Err (e : exn).
Arguments Ok {A} _.
Arguments Err {A} _.

#[export] Instance result_eq_dec `{EqDecision A} : EqDecision (result A).
Proof. solve_decision. Defined.

(** Computations without state: a value or an exception. *)
Definition rbind {A B} (m : result A) (k : A -> result B) : result B :=
  match m with Ok a => k a | Err e => Err e end.

(** [if (b) { throw e; }] *)
Definition throw_if (b : bool) (e : exn) : result unit := if b then Err e else Ok tt.

Definition is_ok {A} (m : result A) : bool := match m with Ok _ => true | Err _ => false end.

(** Computations on a mutable object: as in C++, an exception leaves the object in the state it
    had when the exception was thrown. *)
Definition M (S A : Type) : Type := S -> result A * S.

Definition mret_ {S A} (a : A) : M S A := fun s => (Ok a, s).
Definition mthrow {S A} (e : exn) : M S A := fun s => (Err e, s).
Definition mbind_ {S A B} (m : M S A) (k : A -> M S B) : M S B :=
  fun s => match m s with
           | (Ok a, s') => k a s'
           | (Err e, s') => (Err e, s')
           end.
Definition mget {S} : M S S := fun s => (Ok s, s).
Definition mgets {S A} (f : S -> A) : M S A := fun s => (Ok (f s), s).
Definition mput {S} (s' : S) : M S unit := fun _ => (Ok tt, s').
Definition mmodify {S} (f : S -> S) : M S unit := fun s => (Ok tt, f s).
Definition mlift {S A} (r : result A) : M S A := fun s => (r, s).
Definition mthrow_if {S} (b : bool) (e : exn) : M S unit := mlift (throw_if b e).

Declare Scope ninfer_scope.
Delimit Scope ninfer_scope with ninfer.
Notation "'let*' x ':=' c1 'in' c2" := (rbind c1 (fun x => c2))
  (at level 10, x pattern, c1 at level 100, c2 at level 200) : ninfer_scope.
Notation "'do*' c1 ';' c2" := (rbind c1 (fun _ : unit => c2))
  (at level 10, c1 at level 100, c2 at level 200) : ninfer_scope.
Notation "'let!' x ':=' c1 'in' c2" := (mbind_ c1 (fun x => c2))
  (at level 10, x pattern, c1 at level 100, c2 at level 200) : ninfer_scope.
Notation "'do!' c1 ';' c2" := (mbind_ c1 (fun _ : unit => c2))
  (at level 10, c1 at level 100, c2 at level 200) : ninfer_scope.
#[global] Open Scope ninfer_scope.

Fixpoint rmapM {A B} (f : A -> result B) (l : list A) : result (list B) :=
  match l with
  | [] => Ok []
  | x :: l' => let* y := f x in let* ys := rmapM f l' in Ok (y :: ys)
  end.

(** A loop that may throw. *)
Fixpoint rfoldl {A B} (f : A -> B -> result A) (acc : A) (l : list B) : result A :=
  match l with
  | [] => Ok acc
  | x :: l' => let* acc := f acc x in rfoldl f acc l'
  end.

Fixpoint mmapM {S A B} (f : A -> M S B) (l : list A) : M S (list B) :=
  match l with
  | [] => mret_ []
  | x :: l' => let! y := f x in let! ys := mmapM f l' in mret_ (y :: ys)
  end.

(** [try { m } catch (...) { h }]; [std::abort] is not caught. *)
Definition mtry {S A} (m : M S A) (h : exn -> M S A) : M S A := fun s =>
  match m s with
  | (Err Abort_, s') => (Err Abort_, s')
  | (Err e, s') => h e s'
  | ok => ok
  end.

Fixpoint miter {S A} (f : A -> M S unit) (l : list A) : M S unit :=
  match l with
  | [] => mret_ tt
  | x :: l' => do! f x; miter f l'
  end.

(** [if (c) m] *)
Definition mwhen {S} (c : bool) (m : M S unit) : M S unit := if c then m else mret_ tt.

(** Dereference of a pointer or an optional: undefined behaviour when empty. *)
Definition mderef {S A} (o : option A) : M S A :=
  match o with Some a => mret_ a | None => mthrow Abort_ end.

Fixpoint riter {A} (f : A -> result unit) (l : list A) : result unit :=
  match l with
  | [] => Ok tt
  | x :: l' => do* f x; riter f l'
  end.

Lemma rbind_Ok {A B} (m : result A) (k : A -> result B) b :
  rbind m k = Ok b <-> exists a, m = Ok a /\ k a = Ok b.
Proof. destruct m as [a|e]; cbn; naive_solver. Qed.

Lemma rbind_assoc {A B C} (m : result A) (k : A -> result B) (h : B -> result C) :
  rbind (rbind m k) h = rbind m (fun a => rbind (k a) h).
Proof. by destruct m. Qed.

Lemma throw_if_Ok b e u : throw_if b e = Ok u <-> b = false.
Proof. destruct b, u; cbn; naive_solver. Qed.

Lemma throw_if_Err b e e' : throw_if b e = Err e' <-> b = true /\ e = e'.
Proof. destruct b; cbn; naive_solver. Qed.

Lemma mbind_Ok {S A B} (m : M S A) (k : A -> M S B) s b s' :
  mbind_ m k s = (Ok b, s') <-> exists a s1, m s = (Ok a, s1) /\ k a s1 = (Ok b, s').
Proof. unfold mbind_. destruct (m s) as [[a|e] s1]; naive_solver. Qed.

Lemma mbind_Err {S A B} (m : M S A) (k : A -> M S B) s e s' :
  mbind_ m k s = (Err e, s') <->
  m s = (Err e, s') \/ exists a s1, m s = (Ok a, s1) /\ k a s1 = (Err e, s').
Proof. unfold mbind_. destruct (m s) as [[a|e1] s1]; naive_solver. Qed.

(** ** Weakest preconditions

    What holds after a computation, whether it returns or throws. *)
Definition wp {S A} (m : M S A) (Q : A -> S -> Prop) (E : exn -> S -> Prop) (s : S) : Prop :=
  match m s with (Ok a, s') => Q a s' | (Err e, s') => E e s' end.
#[global] Arguments wp : simpl never.

Section Wp.
Context {S : Type}.
Implicit Types (s : S) (E : exn -> S -> Prop).

Lemma wp_ret {A} (a : A) (Q : A -> S -> Prop) E s : Q a s -> wp (mret_ a) Q E s.
Proof. done. Qed.
Lemma wp_throw {A} e (Q : A -> S -> Prop) E s : E e s -> wp (mthrow e) Q E s.
Proof. done. Qed.
Lemma wp_bind {A B} (m : M S A) (k : A -> M S B) Q E s :
  wp m (fun a s' => wp (k a) Q E s') E s -> wp (mbind_ m k) Q E s.
Proof. unfold wp, mbind_. by destruct (m s) as [[a|e] s']. Qed.
Lemma wp_get (Q : S -> S -> Prop) E s : Q s s -> wp mget Q E s.
Proof. done. Qed.
Lemma wp_gets {A} (f : S -> A) (Q : A -> S -> Prop) E s : Q (f s) s -> wp (mgets f) Q E s.
Proof. done. Qed.
Lemma wp_put s' (Q : unit -> S -> Prop) E s : Q tt s' -> wp (mput s') Q E s.
Proof. done. Qed.
Lemma wp_modify f (Q : unit -> S -> Prop) E s : Q tt (f s) -> wp (mmodify f) Q E s.
Proof. done. Qed.
Lemma wp_throw_if (b : bool) e (Q : unit -> S -> Prop) E s :
  (b = true -> E e s) -> (b = false -> Q tt s) -> wp (mthrow_if b e) Q E s.
Proof. unfold wp, mthrow_if, mlift, throw_if. destruct b; auto. Qed.
Lemma wp_lift {A} (r : result A) (Q : A -> S -> Prop) E s :
  (forall a, r = Ok a -> Q a s) -> (forall e, r = Err e -> E e s) -> wp (mlift r) Q E s.
Proof. unfold wp, mlift. destruct r; auto. Qed.
Lemma wp_deref {A} (o : option A) (Q : A -> S -> Prop) E s :
  (forall a, o = Some a -> Q a s) -> (o = None -> E Abort_ s) -> wp (mderef o) Q E s.
Proof. destruct o; unfold wp; cbn; auto. Qed.
Lemma wp_when (c : bool) m (Q : unit -> S -> Prop) E s :
  (c = true -> wp m Q E s) -> (c = false -> Q tt s) -> wp (mwhen c m) Q E s.
Proof. unfold mwhen. destruct c; [auto|]. intros _ H. by apply H. Qed.
Lemma wp_mono {A} (m : M S A) (Q Q' : A -> S -> Prop) E E' s :
  wp m Q E s -> (forall a s', Q a s' -> Q' a s') -> (forall e s', E e s' -> E' e s') -> wp m Q' E' s.
Proof. unfold wp. destruct (m s) as [[a|e] s']; auto. Qed.
Lemma wp_try {A} (m : M S A) (h : exn -> M S A) Q E s :
  wp m Q (fun e s' => (e = Abort_ -> E Abort_ s') /\ (e <> Abort_ -> wp (h e) Q E s')) s ->
  wp (mtry m h) Q E s.
Proof.
  unfold wp, mtry. destruct (m s) as [[a|e] s']; [done|]. intros [H1 H2].
  destruct (decide (e = Abort_)) as [->|Hne]; [by apply H1|]. specialize (H2 Hne). by destruct e.
Qed.
(** A loop with an invariant over the elements not yet visited. *)
Lemma wp_iter {A} (I : list A -> S -> Prop) (f : A -> M S unit) E l s :
  (forall x l' s', I (x :: l') s' -> wp (f x) (fun _ => I l') E s') ->
  I l s -> wp (miter f l) (fun _ => I []) E s.
Proof.
  intros Hf. revert s. induction l as [|x l IH]; intros s HI; [done|]. cbn. apply wp_bind.
  eapply wp_mono; [by apply Hf|intros [] s' Hs'; by apply IH|done].
Qed.
Lemma wp_map {A B} (I : list A -> list B -> S -> Prop) (f : A -> M S B) E l s :
  (forall x l' out s', I (x :: l') out s' -> wp (f x) (fun y => I l' (out ++ [y])) E s') ->
  I l [] s -> wp (mmapM f l) (I []) E s.
Proof.
  intros Hf. enough (forall l out s, I l out s ->
    wp (mmapM f l) (fun ys => I [] (out ++ ys)) E s) as H by exact (H l [] s).
  clear l s. induction l as [|x l IH]; intros out s HI; cbn.
  - apply wp_ret. by rewrite app_nil_r.
  - apply wp_bind. eapply wp_mono; [by apply Hf|intros y s' Hs'|done]. cbn. apply wp_bind.
    eapply wp_mono; [exact (IH _ _ Hs')|intros ys s'' Hs''|auto]. cbn. apply wp_ret.
    cbn in Hs''. by rewrite <- app_assoc in Hs''.
Qed.
Lemma wp_elim {A} (m : M S A) Q E s r s' : wp m Q E s -> m s = (r, s') ->
  match r with Ok a => Q a s' | Err e => E e s' end.
Proof. unfold wp. by intros H E'; rewrite E' in H. Qed.
Lemma wp_Ok {A} (m : M S A) a s' Q E s : m s = (Ok a, s') -> Q a s' -> wp m Q E s.
Proof. unfold wp. by intros ->. Qed.
End Wp.

Lemma rmapM_Forall2 {A B} (f : A -> result B) l l' :
  rmapM f l = Ok l' <-> Forall2 (fun x y => f x = Ok y) l l'.
Proof.
  revert l'; induction l as [|x l IH]; intros l'; cbn.
  - split; [by intros [= <-]|by inversion 1].
  - rewrite rbind_Ok; split.
    + intros (y & Hy & (ys & Hys & [= <-])%rbind_Ok); constructor; [done|by apply IH].
    + inversion 1 as [|? y ? ys Hy Hys]; subst. exists y; split; [done|].
      apply rbind_Ok; exists ys; split; [by apply IH|done].
Qed.

(** ** Lists *)

Lemma filter_none {A} (P : A -> Prop) `{!forall x, Decision (P x)} l :
  Forall (fun x => ~ P x) l -> filter P l = [].
Proof. induction 1; [done|]. rewrite filter_cons. by case_decide. Qed.

Lemma filter_all {A} (P : A -> Prop) `{!forall x, Decision (P x)} l :
  Forall P l -> filter P l = l.
Proof. induction 1 as [|x l Hx _ IH]; [done|]. rewrite filter_cons, IH. by case_decide. Qed.

Lemma filter_ext_Forall {A} (P Q : A -> Prop) `{!forall x, Decision (P x), !forall x, Decision (Q x)} l :
  Forall (fun x => P x <-> Q x) l -> filter P l = filter Q l.
Proof.
  induction 1 as [|x l Hx _ IH]; [done|]. rewrite !filter_cons, IH.
  destruct (decide (P x)), (decide (Q x)); tauto.
Qed.

(** [optional::has_value] *)
Definition is_some {A} (o : option A) : bool := match o with Some _ => true | None => false end.

Lemma elem_of_take_inv {A} (x : A) n l : x ∈ take n l -> x ∈ l.
Proof. intros H. rewrite <- (take_drop n l). apply elem_of_app. by left. Qed.

Lemma existsb_false {A} (f : A -> bool) l : existsb f l = false <-> Forall (fun x => f x = false) l.
Proof.
  induction l as [|x l IH]; cbn; [split; [constructor|done]|].
  by rewrite orb_false_iff, Forall_cons, IH.
Qed.

(** ** Machine integers

    A [w]-bit unsigned integer is a [Z] in [0, 2^w); unsigned arithmetic that may wrap is wrapped
    explicitly with [u32]/[u64], signed arithmetic is only used where the code proves (or checks)
    that it does not overflow. *)
Definition u8_max : Z := 255.
Definition u32_max : Z := 4294967295.
Definition i32_max : Z := 2147483647.
Definition i32_min : Z := -2147483648.
Definition u64_max : Z := 18446744073709551615.
Definition i64_max : Z := 9223372036854775807.

Definition u8 (x : Z) : Z := x mod 256.
Definition u32 (x : Z) : Z := x mod 4294967296.
Definition u64 (x : Z) : Z := x mod 18446744073709551616.

(** [static_cast<std::int32_t>] of a 32-bit value. *)
Definition to_i32 (x : Z) : Z := if x <=? i32_max then x else x - 4294967296.

Definition is_u32 (x : Z) : Prop := 0 <= x <= u32_max.
Definition is_i32 (x : Z) : Prop := i32_min <= x <= i32_max.
Definition is_u64 (x : Z) : Prop := 0 <= x <= u64_max.

#[export] Instance is_u32_dec x : Decision (is_u32 x).
Proof. unfold is_u32; apply _. Defined.
#[export] Instance is_i32_dec x : Decision (is_i32 x).
Proof. unfold is_i32; apply _. Defined.
#[export] Instance is_u64_dec x : Decision (is_u64 x).
Proof. unfold is_u64; apply _. Defined.

(** Case analysis on the first test of the goal. *)
Ltac case_if E := match goal with |- context [if ?b then _ else _] => destruct b eqn:E end.

Ltac unfold_ints :=
  unfold is_u32, is_i32, is_u64, u8_max, u32_max, i32_max, i32_min, u64_max, i64_max in *.

Lemma u64_small x : is_u64 x -> u64 x = x.
Proof. unfold u64; unfold_ints; intros; apply Z.mod_small; lia. Qed.
Lemma u32_small x : is_u32 x -> u32 x = x.
Proof. unfold u32; unfold_ints; intros; apply Z.mod_small; lia. Qed.
Lemma u64_range x : is_u64 (u64 x).
Proof. unfold u64; unfold_ints; pose proof (Z.mod_pos_bound x 18446744073709551616); lia. Qed.
Lemma u32_range x : is_u32 (u32 x).
Proof. unfold u32; unfold_ints; pose proof (Z.mod_pos_bound x 4294967296); lia. Qed.

Create HintDb ninfer.
Create Rewrite HintDb ninfer_ints.
#[export] Hint Resolve u64_range u32_range : ninfer.
#[export] Hint Rewrite u64_small u32_small using (unfold_ints; lia) : ninfer_ints.

(** Turn the boolean tests of the code in hypotheses and goal into propositions. *)
Ltac bprop :=
  repeat match goal with
  | H : _ || _ = false |- _ => apply orb_false_iff in H; destruct H
  | H : _ && _ = true |- _ => apply andb_true_iff in H; destruct H
  | H : _ || _ = true |- _ => apply orb_true_iff in H
  | H : _ && _ = false |- _ => apply andb_false_iff in H
  | H : negb _ = true |- _ => apply negb_true_iff in H
  | H : negb _ = false |- _ => apply negb_false_iff in H
  | H : (_ =? _)%Z = true |- _ => apply Z.eqb_eq in H
  | H : (_ =? _)%Z = false |- _ => apply Z.eqb_neq in H
  | H : (_ <? _)%Z = true |- _ => apply Z.ltb_lt in H
  | H : (_ <? _)%Z = false |- _ => apply Z.ltb_ge in H
  | H : (_ <=? _)%Z = true |- _ => apply Z.leb_le in H
  | H : (_ <=? _)%Z = false |- _ => apply Z.leb_gt in H
  | H : (_ >? _)%Z = _ |- _ => rewrite Z.gtb_ltb in H
  | H : (_ >=? _)%Z = _ |- _ => rewrite Z.geb_leb in H
  | H : bool_decide _ = true |- _ => apply bool_decide_eq_true in H
  | H : bool_decide _ = false |- _ => apply bool_decide_eq_false in H
  end.

(** Evaluate the decisions of equalities that are plain. *)
Ltac bdec :=
  repeat match goal with
  | |- context [bool_decide (?a = ?b)] =>
      first [ rewrite (bool_decide_eq_false_2 (a = b)) by discriminate
            | rewrite (bool_decide_eq_true_2 (a = b)) by reflexivity ]
  end.

(** Split a successful run of the error monad into the runs of its parts. *)
Ltac rinv :=
  repeat match goal with
  | H : rbind _ _ = Ok _ |- _ =>
      let a := fresh "v" in let Ha := fresh "Hv" in apply rbind_Ok in H; destruct H as (a & Ha & H)
  | H : throw_if _ _ = Ok _ |- _ => apply throw_if_Ok in H
  | H : Ok _ = Ok _ |- _ => injection H as H
  | H : Err _ = Ok _ |- _ => discriminate H
  | H : Ok _ = Err _ |- _ => discriminate H
  end; bprop.

(** The same for runs of the state monad; the leaves are evaluated and their equations used. *)
Ltac minv_leaf H :=
  first [injection H as <- <- | injection H as <- | simplify_eq].
Ltac minv_lift H :=
  first [injection H as H <- | injection H as H | simplify_eq].
Ltac minv :=
  repeat match goal with
  | H : mbind_ _ _ _ = (Ok _, _) |- _ =>
      let a := fresh "v" in let s := fresh "s" in let Ha := fresh "Hm" in
      apply mbind_Ok in H; destruct H as (a & s & Ha & H)
  | H : mthrow_if _ _ _ = (Ok _, _) |- _ => unfold mthrow_if, mlift in H; minv_lift H
  | H : mlift _ _ = (Ok _, _) |- _ => unfold mlift in H; minv_lift H
  | H : mret_ _ _ = (Ok _, _) |- _ => unfold mret_ in H; minv_leaf H
  | H : mget _ = (Ok _, _) |- _ => unfold mget in H; minv_leaf H
  | H : mgets _ _ = (Ok _, _) |- _ => unfold mgets in H; minv_leaf H
  | H : mput _ _ = (Ok _, _) |- _ => unfold mput in H; minv_leaf H
  | H : mmodify _ _ = (Ok _, _) |- _ => unfold mmodify in H; minv_leaf H
  | H : mthrow _ _ = (Ok _, _) |- _ => discriminate H
  | H : throw_if _ _ = Ok _ |- _ => apply throw_if_Ok in H
  end; bprop.

#[export] Instance Zdivide_decision (a b : Z) : Decision (a | b) := Znumtheory.Zdivide_dec a b.

(** Close a decidable closed goal by evaluating its decision procedure. *)
Ltac by_compute := apply (bool_decide_unpack _); vm_compute; exact I.

Lemma foldl_ext {A B} (f g : A -> B -> A) acc l : (forall a x, f a x = g a x) -> foldl f acc l = foldl g acc l.
Proof. intros H. revert acc. induction l as [|x l IH]; intros acc; [done|]. cbn. by rewrite H, IH. Qed.

(** ** Alignment *)

(** [is_power_of_two] ([core/layout.cpp]): the bit trick on [size_t]. *)
Definition is_power_of_two (value : Z) : bool :=
  negb (value =? 0) && (Z.land value (u64 (value - 1)) =? 0).

(** [~mask] on 64 bits. *)
Definition u64_not (x : Z) : Z := u64_max - x.

(** [checked_add] ([core/layout.cpp]). *)
Definition checked_add (a b : Z) : result Z :=
  if b >? u64_max - a then Err OverflowError else Ok (a + b).

(** [align_up] ([core/layout.cpp]). *)
Definition align_up (value alignment : Z) : result Z :=
  do* throw_if (negb (is_power_of_two alignment)) InvalidArgument;
  let mask := u64 (alignment - 1) in
  let* biased := checked_add value mask in
  Ok (Z.land biased (u64_not mask)).

Lemma checked_add_Ok a b r :
  is_u64 a -> is_u64 b -> checked_add a b = Ok r <-> r = a + b /\ a + b <= u64_max.
Proof.
  unfold checked_add; unfold_ints; intros Ha Hb.
  destruct (Z.gtb_spec b (18446744073709551615 - a)); split; [done|lia|intros [= <-]; lia|].
  intros [-> _]; done.
Qed.

Lemma checked_add_Err a b e :
  checked_add a b = Err e <-> e = OverflowError /\ u64_max - a < b.
Proof.
  unfold checked_add; destruct (Z.gtb_spec b (u64_max - a)); split;
    [by intros [= <-]|by intros [-> _]|done|lia].
Qed.

Lemma is_power_of_two_spec a :
  is_u64 a -> is_power_of_two a = true <-> exists k, 0 <= k < 64 /\ a = 2 ^ k.
Proof.
  intros Ha; unfold is_power_of_two; split.
  - intros [Hnz Hl]%andb_true_iff; bprop. unfold_ints.
    assert (0 < a) by lia. clear Hnz.
    exists (Z.log2 a). pose proof (Z.log2_spec a ltac:(lia)) as [Hlo Hhi].
    assert (Z.log2 a < 64) by (apply Z.log2_lt_pow2; lia).
    pose proof (Z.log2_nonneg a). split; [lia|].
    destruct (Z.eq_dec a (2 ^ Z.log2 a)) as [|Hne]; [done|exfalso].
    rewrite u64_small in Hl by (unfold_ints; lia).
    assert (Hk : Z.testbit (Z.land a (a - 1)) (Z.log2 a) = true).
    { rewrite Z.land_spec, Z.bit_log2 by lia; cbn.
      replace (Z.log2 a) with (Z.log2 (a - 1)); [apply Z.bit_log2; lia|].
      apply Z.log2_unique; lia. }
    by rewrite Hl, Z.bits_0 in Hk.
  - intros (k & Hk & ->). pose proof (Z.pow_pos_nonneg 2 k).
    rewrite u64_small by (unfold_ints; lia).
    apply andb_true_iff; split; [apply negb_true_iff, Z.eqb_neq; lia|].
    apply Z.eqb_eq. rewrite Z.sub_1_r, <- Z.ones_equiv, Z.land_ones by lia.
    apply Z.mod_same; lia.
Qed.

(** [x & ~(2^k - 1)] rounds [x] down to a multiple of [2^k]. *)
Lemma land_not_mask x k :
  is_u64 x -> 0 <= k < 64 -> Z.land x (u64_not (2 ^ k - 1)) = x / 2 ^ k * 2 ^ k.
Proof.
  intros Hx Hk. unfold u64_not.
  assert (Hmax : u64_max = Z.ones 64) by done.
  assert (Hm : 2 ^ k - 1 = Z.ones k) by (rewrite Z.ones_equiv; lia).
  rewrite Hm, Hmax, Z.sub_nocarry_ldiff.
  - rewrite <- Z.shiftr_div_pow2, <- Z.shiftl_mul_pow2, <- Z.ldiff_ones_r by lia.
    apply Z.bits_inj'; intros i Hi. rewrite Z.land_spec, !Z.ldiff_spec.
    rewrite Z.testbit_ones_nonneg by lia.
    destruct (Z.ltb_spec i 64); cbn; [done|].
    rewrite andb_false_r; symmetry.
    destruct (Z.testbit x i) eqn:Hb; [exfalso|done].
    assert (i <= Z.log2 x) by (destruct (Z.le_gt_cases i (Z.log2 x)); [done|];
      rewrite Z.bits_above_log2 in Hb; [done|unfold_ints; lia|lia]).
    assert (x <> 0) by (intros ->; by rewrite Z.bits_0 in Hb).
    assert (Z.log2 x < 64) by (apply Z.log2_lt_pow2; unfold_ints; lia). lia.
  - apply Z.bits_inj'; intros i Hi. rewrite Z.ldiff_spec, !Z.testbit_ones_nonneg, Z.bits_0 by lia.
    destruct (Z.ltb_spec i k), (Z.ltb_spec i 64); cbn; try done; lia.
Qed.

(** The value [align_up] returns: the least multiple of the alignment not below its argument. *)
Definition align_Z (value alignment : Z) : Z := (value + alignment - 1) / alignment * alignment.

Lemma align_Z_spec v a :
  0 < a -> v <= align_Z v a < v + a /\ (a | align_Z v a).
Proof.
  intros Ha; unfold align_Z; split; [|by apply Z.divide_factor_r].
  pose proof (Z.div_mod (v + a - 1) a ltac:(lia)).
  pose proof (Z.mod_pos_bound (v + a - 1) a Ha). nia.
Qed.

Lemma align_Z_least v a m : 0 < a -> v <= m -> (a | m) -> align_Z v a <= m.
Proof.
  intros Ha Hv [q ->]. unfold align_Z.
  assert ((v + a - 1) / a < q + 1); [|nia].
  apply Z.div_lt_upper_bound; lia.
Qed.

Lemma align_Z_id v a : 0 < a -> (a | v) -> align_Z v a = v.
Proof.
  intros Ha Hd. pose proof (align_Z_spec v a Ha). pose proof (align_Z_least v a v Ha ltac:(lia) Hd). lia.
Qed.

Lemma align_Z_mono v w a : 0 < a -> v <= w -> align_Z v a <= align_Z w a.
Proof.
  intros Ha Hv. apply align_Z_least; [done| |apply align_Z_spec; done].
  pose proof (align_Z_spec w a Ha); lia.
Qed.

Lemma align_up_Ok v a r :
  is_u64 v -> is_u64 a ->
  align_up v a = Ok r <->
  is_power_of_two a = true /\ v + (a - 1) <= u64_max /\ r = align_Z v a.
Proof.
  intros Hv Ha. unfold align_up. destruct (is_power_of_two a) eqn:Hp; cbn; [|naive_solver].
  pose proof (proj1 (is_power_of_two_spec a Ha) Hp) as (k & Hk & ->).
  pose proof (Z.pow_pos_nonneg 2 k ltac:(lia) ltac:(lia)).
  rewrite u64_small by (unfold_ints; lia).
  destruct (checked_add v (2 ^ k - 1)) as [b|e] eqn:Hc; cbn.
  - apply checked_add_Ok in Hc as [-> Hb]; [|unfold_ints; lia..].
    rewrite land_not_mask by (unfold_ints; lia). unfold align_Z.
    replace (v + 2 ^ k - 1) with (v + (2 ^ k - 1)) by lia. naive_solver.
  - apply checked_add_Err in Hc as [-> Hb]. split; [done|lia].
Qed.

Lemma align_up_Err v a e :
  is_u64 v -> is_u64 a ->
  align_up v a = Err e <->
  (is_power_of_two a = false /\ e = InvalidArgument) \/
  (is_power_of_two a = true /\ e = OverflowError /\ u64_max < v + (a - 1)).
Proof.
  intros Hv Ha. unfold align_up. destruct (is_power_of_two a) eqn:Hp; cbn; [|naive_solver].
  pose proof (proj1 (is_power_of_two_spec a Ha) Hp) as (k & Hk & ->).
  pose proof (Z.pow_pos_nonneg 2 k ltac:(lia) ltac:(lia)).
  rewrite u64_small by (unfold_ints; lia).
  destruct (checked_add v (2 ^ k - 1)) as [b|e'] eqn:Hc; cbn.
  - apply checked_add_Ok in Hc as [-> Hb]; [|unfold_ints; lia..]. split; [done|lia].
  - apply checked_add_Err in Hc as [-> Hb]. split; [intros [= <-]; right; lia || (split_and!; [done..|lia])|].
    by intros [[]|(_ & -> & _)].
Qed.

Lemma is_power_of_two_pos a : is_power_of_two a = true -> is_u64 a -> 0 < a.
Proof.
  intros H Ha. apply (is_power_of_two_spec a Ha) in H as (k & ? & ->).
  apply Z.pow_pos_nonneg; lia.
Qed.
