(* ===== verification/Tensor.v ===== *)
(** * Tensors and element types: [core/dtype], [core/tensor]

    A [Tensor] is a non-owning strided view of at most four dimensions.  Pointers are addresses
    ([Z], [0] for [nullptr]); [ne] and [nb] are lists of length four. *)
From S2P Require Import Prelude.
#[local] Open Scope Z_scope.

(** [enum class DType] *)
Inductive DType : Set := BF16 | FP32 | I32 | U8 | I64 | I8 | FP16 | FP8_E4M3FN.

#[export] Instance DType_eq_dec : EqDecision DType.
Proof. solve_decision. Defined.

(** [dtype_size]; the trailing [throw] is for values outside the enumeration. *)
Definition dtype_size (dtype : DType) : Z :=
  match dtype with
  | BF16 => 2 | FP32 => 4 | I32 => 4 | U8 => 1 | I64 => 8 | I8 => 1 | FP16 => 2 | FP8_E4M3FN => 1
  end.

(** [struct Tensor] *)
Record Tensor : Set := mkTensor {
  data  : Z;
  dtype : DType;
  ne    : list Z;
  nb    : list Z;
}.

#[export] Instance Tensor_eq_dec : EqDecision Tensor.
Proof. solve_decision. Defined.

(** [Tensor() noexcept = default] *)
Definition Tensor_default : Tensor := mkTensor 0 BF16 [1; 1; 1; 1] [0; 0; 0; 0].

#[export] Instance Tensor_inhabited : Inhabited Tensor := populate Tensor_default.

Definition checked_mul_i64 (a b : Z) : result Z :=
  if (a <? 0) || (b <? 0) then Err InvalidArgument
  else if negb (b =? 0) && (a >? i64_max / b) then Err OverflowError
  else Ok (a * b).

Fixpoint check_dims (shape : list Z) : result unit :=
  match shape with
  | [] => Ok tt
  | dim :: shape' => do* throw_if (dim <=? 0) InvalidArgument; check_dims shape'
  end.

Definition normalize_shape (shape : list Z) : result (list Z) :=
  do* throw_if ((length shape =? 0)%nat || (4 <? length shape)%nat) InvalidArgument;
  do* check_dims shape;
  Ok (shape ++ replicate (4 - length shape) 1).

Fixpoint shape_numel_from (total : Z) (shape : list Z) : result Z :=
  match shape with
  | [] => Ok total
  | dim :: shape' =>
      do* throw_if (dim <=? 0) InvalidArgument;
      let* total' := checked_mul_i64 total dim in
      shape_numel_from total' shape'
  end.
Definition shape_numel (shape : list Z) : result Z := shape_numel_from 1 shape.

(** The loop of [set_contiguous_strides]: the strides after the one already computed. *)
Fixpoint strides_from (stride : Z) (dims : list Z) : result (list Z) :=
  match dims with
  | [] => Ok []
  | dim :: dims' =>
      let* stride' := checked_mul_i64 stride dim in
      let* rest := strides_from stride' dims' in
      Ok (stride' :: rest)
  end.
Definition set_contiguous_strides (t : Tensor) : result Tensor :=
  let stride := dtype_size (dtype t) in
  let* rest := strides_from stride (take 3 (ne t)) in
  Ok (mkTensor (data t) (dtype t) (ne t) (stride :: rest)).

(** [Tensor::Tensor(void*, DType, initializer_list)] *)
Definition make_tensor (data_in : Z) (dtype_in : DType) (shape : list Z) : result Tensor :=
  let* normalized := normalize_shape shape in
  set_contiguous_strides (mkTensor data_in dtype_in normalized [0; 0; 0; 0]).

Definition numel (t : Tensor) : result Z := shape_numel (ne t).

(** [Tensor::bytes] *)
Definition tensor_bytes (t : Tensor) : result Z :=
  let* elements := numel t in
  let elem_size := dtype_size (dtype t) in
  do* throw_if ((elements <? 0) || (elements >? u64_max)) OverflowError;
  do* throw_if (negb (elem_size =? 0) && (elements >? u64_max / elem_size)) OverflowError;
  Ok (elements * elem_size).

(** The loop of [Tensor::is_contiguous] over the dimensions from [i] on. *)
Fixpoint is_contiguous_from (i : nat) (expected : Z) (dims : list (Z * Z)) : result bool :=
  match dims with
  | [] => Ok true
  | (n, b) :: dims' =>
      if n <=? 0 then Ok false
      else if negb (n =? 1) && negb (b =? expected) then Ok false
      else if (i <? 3)%nat && negb (n =? 1) then
        match checked_mul_i64 expected n with
        | Ok expected' => is_contiguous_from (S i) expected' dims'
        | Err OverflowError => Ok false
        | Err e => Err e
        end
      else is_contiguous_from (S i) expected dims'
  end.
Definition is_contiguous (t : Tensor) : result bool :=
  is_contiguous_from 0 (dtype_size (dtype t)) (zip (ne t) (nb t)).

(** [Tensor::view], and [reshape], which is the same operation. *)
Definition view (t : Tensor) (shape : list Z) : result Tensor :=
  let* contiguous := is_contiguous t in
  do* throw_if (negb contiguous) InvalidArgument;
  let* normalized := normalize_shape shape in
  let* n := shape_numel normalized in
  let* n0 := numel t in
  do* throw_if (negb (n =? n0)) InvalidArgument;
  make_tensor (data t) (dtype t) shape.
Definition reshape (t : Tensor) (shape : list Z) : result Tensor := view t shape.

(** [Tensor::slice] *)
Definition slice (t : Tensor) (dim start len : Z) : result Tensor :=
  do* throw_if ((dim <? 0) || (dim >=? 4)) InvalidArgument;
  let d := Z.to_nat dim in
  do* throw_if ((start <? 0) || (len <=? 0) || (start >? ne t !!! d) || (len >? ne t !!! d - start))
       InvalidArgument;
  let* offset := checked_mul_i64 start (nb t !!! d) in
  let data' := if data t =? 0 then 0 else data t + offset in
  Ok (mkTensor data' (dtype t) (<[d := len]> (ne t)) (nb t)).

(** The loop of [Tensor::permute] that validates [order]. *)
Fixpoint check_order (seen : list Z) (order : list Z) : result unit :=
  match order with
  | [] => Ok tt
  | dim :: order' =>
      do* throw_if ((dim <? 0) || (dim >=? 4) || bool_decide (dim ∈ seen)) InvalidArgument;
      check_order (dim :: seen) order'
  end.
(** [Tensor::permute] *)
Definition permute (t : Tensor) (order : list Z) : result Tensor :=
  do* throw_if (negb (length order =? 4)%nat) InvalidArgument;
  do* check_order [] order;
  Ok (mkTensor (data t) (dtype t)
        ((fun dim => ne t !!! Z.to_nat dim) <$> order)
        ((fun dim => nb t !!! Z.to_nat dim) <$> order)).

(** ** What a tensor denotes *)

(** A multi-index is in bounds when it has one coordinate per dimension, each below the extent. *)
Definition in_bounds (t : Tensor) (idx : list Z) : Prop :=
  Forall2 (fun i n => 0 <= i < n) idx (ne t).

Fixpoint dot (xs ys : list Z) : Z :=
  match xs, ys with
  | x :: xs', y :: ys' => x * y + dot xs' ys'
  | _, _ => 0
  end.
(** The byte address of an element, as the consuming kernels compute it. *)
Definition elem_addr (t : Tensor) (idx : list Z) : Z := data t + dot idx (nb t).

Fixpoint prod_list (l : list Z) : Z :=
  match l with [] => 1 | x :: l' => x * prod_list l' end.

(** Column-major rank of a multi-index: dimension 0 varies fastest. *)
Fixpoint rank (idx ns : list Z) : Z :=
  match idx, ns with
  | i :: idx', n :: ns' => i + n * rank idx' ns'
  | _, _ => 0
  end.

(** The positive 32-bit extents and the nonnegative strides every constructed tensor has. *)
Record tensor_wf (t : Tensor) : Prop := {
  wf_ne_len : length (ne t) = 4%nat;
  wf_nb_len : length (nb t) = 4%nat;
  wf_ne : Forall (fun n => 0 < n <= i32_max) (ne t);
  wf_nb : Forall (fun b => 0 <= b <= i64_max) (nb t);
}.

Lemma dtype_size_pos dt : 1 <= dtype_size dt <= 8.
Proof. destruct dt; cbn; lia. Qed.
#[export] Hint Resolve dtype_size_pos : ninfer.

Lemma checked_mul_i64_Ok a b r :
  checked_mul_i64 a b = Ok r <-> 0 <= a /\ 0 <= b /\ r = a * b /\ (b <> 0 -> a * b <= i64_max).
Proof.
  unfold checked_mul_i64; unfold_ints.
  destruct (Z.ltb_spec a 0), (Z.ltb_spec b 0); cbn; try (split; [done|lia]).
  destruct (Z.eqb_spec b 0) as [->|Hb]; cbn; [split; [intros [= <-]|intros]; [lia|f_equal; lia]|].
  destruct (Z.gtb_spec a (9223372036854775807 / b)) as [Hgt|Hle]; split.
  - done.
  - intros (_ & _ & _ & Hmax). specialize (Hmax Hb).
    assert (a <= 9223372036854775807 / b); [apply Z.div_le_lower_bound; lia|lia].
  - intros [= <-]. split_and!; [lia..|intros _].
    pose proof (Z.mul_div_le 9223372036854775807 b ltac:(lia)). nia.
  - intros (_ & _ & -> & _); done.
Qed.

Lemma check_dims_Ok shape u : check_dims shape = Ok u <-> Forall (fun d => 0 < d) shape.
Proof.
  destruct u. induction shape as [|d shape IH]; cbn; [done|].
  rewrite rbind_Ok, Forall_cons; split.
  - intros ([] & H%throw_if_Ok & H2); bprop. split; [lia|by apply IH].
  - intros [Hd H]. exists tt. rewrite throw_if_Ok. split; [lia|by apply IH].
Qed.

Lemma normalize_shape_Ok shape n :
  normalize_shape shape = Ok n <->
  (1 <= length shape <= 4)%nat /\ Forall (fun d => 0 < d) shape /\
  n = shape ++ replicate (4 - length shape) 1.
Proof.
  unfold normalize_shape. rewrite rbind_Ok. split.
  - intros ([] & H1%throw_if_Ok & H). rinv. rewrite check_dims_Ok in *.
    apply Nat.eqb_neq in H0. apply Nat.ltb_ge in H1. split_and!; [lia|lia|done|done].
  - intros (Hl & Hf & ->). exists tt; split.
    + apply throw_if_Ok, orb_false_iff; split; [apply Nat.eqb_neq; lia|apply Nat.ltb_ge; lia].
    + apply rbind_Ok; exists tt; split; [by apply check_dims_Ok|done].
Qed.

(** ** Construction *)

Lemma prod_list_pos l : Forall (fun d => 0 < d) l -> 0 < prod_list l.
Proof. induction 1; cbn; nia. Qed.

Lemma prod_list_app l1 l2 : prod_list (l1 ++ l2) = prod_list l1 * prod_list l2.
Proof. induction l1 as [|x l1 IH]; cbn; [|rewrite IH]; lia. Qed.

Lemma prod_list_ones n : prod_list (replicate n 1) = 1.
Proof. induction n; cbn in *; lia. Qed.

Lemma strides_from_Ok s dims r :
  0 <= s -> Forall (fun d => 0 < d) dims -> strides_from s dims = Ok r ->
  length r = length dims /\ Forall (fun b => 0 <= b <= i64_max) r /\
  forall i, (i < length dims)%nat -> r !! i = Some (s * prod_list (take (S i) dims)).
Proof.
  revert s r; induction dims as [|d dims IH]; intros s r Hs Hd; cbn.
  - intros [= <-]. split_and!; [done|constructor|intros i Hi; lia].
  - inversion Hd as [|? ? Hd0 Hd']; subst. intros H. rinv. subst r.
    apply checked_mul_i64_Ok in Hv as (_ & _ & -> & Hmax). specialize (Hmax ltac:(lia)).
    destruct (IH (s * d) v0 ltac:(nia) Hd' Hv0) as (Hl & Hf & Hi).
    cbn; split_and!; [lia|constructor; [nia|done]|].
    intros [|i] Hlt; simpl; [f_equal; lia|].
    rewrite Hi by lia. f_equal. simpl. lia.
Qed.

Lemma normalized_ne shape :
  (1 <= length shape <= 4)%nat -> Forall (fun d => 0 < d) shape ->
  length (shape ++ replicate (4 - length shape) 1) = 4%nat /\
  Forall (fun d => 0 < d) (shape ++ replicate (4 - length shape) 1).
Proof.
  intros Hl Hf; split; [rewrite length_app, length_replicate; lia|].
  apply Forall_app; split; [done|]. apply Forall_replicate; lia.
Qed.

Lemma make_tensor_Ok p dt shape t :
  make_tensor p dt shape = Ok t ->
  (1 <= length shape <= 4)%nat /\ Forall (fun d => 0 < d) shape /\
  data t = p /\ dtype t = dt /\ ne t = shape ++ replicate (4 - length shape) 1 /\
  length (nb t) = 4%nat /\ Forall (fun b => 0 <= b <= i64_max) (nb t) /\
  (forall i, (i < 4)%nat -> nb t !! i = Some (dtype_size dt * prod_list (take i (ne t)))).
Proof.
  unfold make_tensor, set_contiguous_strides; intros H. rinv. subst t; cbn in *.
  apply normalize_shape_Ok in Hv as (Hl & Hf & ->).
  destruct (normalized_ne shape Hl Hf) as [Hl4 Hf4].
  pose proof (dtype_size_pos dt) as Hsz.
  destruct (strides_from_Ok (dtype_size dt) _ _ ltac:(lia) (Forall_take _ _ _ Hf4) Hv0) as (Hr & Hrf & Hri).
  rewrite length_take, Hl4 in Hr, Hri. cbn in Hr.
  refine (conj Hl (conj Hf (conj eq_refl (conj eq_refl (conj eq_refl (conj _ (conj _ _))))))).
  - by rewrite Hr.
  - constructor; [unfold_ints; lia|done].
  - intros [|i] Hi; simpl; [f_equal; lia|].
    rewrite Hri by (simpl; lia). rewrite take_take. by replace (S i `min` 3)%nat with (S i) by lia.
Qed.

Lemma make_tensor_wf p dt shape t :
  Forall is_i32 shape -> make_tensor p dt shape = Ok t -> tensor_wf t.
Proof.
  intros Hi (Hl & Hf & _ & _ & Hne & Hnb & Hnbf & _)%make_tensor_Ok.
  destruct (normalized_ne shape Hl Hf) as [Hl4 Hf4].
  constructor; [by rewrite Hne|done| |done].
  rewrite Hne. apply Forall_app; split.
  - apply Forall_forall; intros x Hx. rewrite Forall_forall in Hf, Hi.
    specialize (Hf _ Hx); specialize (Hi _ Hx); unfold_ints; lia.
  - apply Forall_replicate; unfold_ints; lia.
Qed.

(** ** Contiguous addressing *)

Lemma rank_range idx ns :
  Forall2 (fun i n => 0 <= i < n) idx ns -> 0 <= rank idx ns < prod_list ns.
Proof. induction 1; cbn in *; [lia|nia]. Qed.

Lemma rank_inj idx idx' ns :
  Forall2 (fun i n => 0 <= i < n) idx ns -> Forall2 (fun i n => 0 <= i < n) idx' ns ->
  rank idx ns = rank idx' ns -> idx = idx'.
Proof.
  intros H; revert idx'; induction H as [|i n idx ns Hi H IH]; intros idx' H'.
  - by inversion H'.
  - inversion H' as [|i' ? idx2 ? Hi' H2]; subst. cbn; intros Heq.
    assert (Hr : rank idx ns = rank idx2 ns) by nia.
    rewrite (IH _ H2 Hr). f_equal. rewrite Hr in Heq. lia.
Qed.

Lemma contiguous_dot i e dims idx :
  is_contiguous_from i e dims = Ok true -> (i + length dims = 4)%nat ->
  Forall2 (fun x n => 0 <= x < n) idx (dims.*1) ->
  dot idx (dims.*2) = e * rank idx (dims.*1).
Proof.
  revert i e idx; induction dims as [|[n b] dims IH]; intros i e idx Hc Hl Hb.
  - inversion Hb; subst; cbn; lia.
  - inversion Hb as [|x ? idx' ? Hx Hb']; subst. cbn in Hc, Hl |- *.
    destruct (Z.leb_spec n 0); [done|].
    destruct (Z.eqb_spec n 1) as [->|Hn1]; cbn in Hc.
    + rewrite andb_false_r in Hc. rewrite (IH (S i) e idx' Hc) by (try done; lia).
      assert (x = 0) by lia; subst; lia.
    + destruct (Z.eqb_spec b e) as [->|]; cbn in Hc; [|done]. rewrite andb_true_r in Hc.
      destruct (Nat.leb_spec i 2).
      * destruct (checked_mul_i64 e n) as [e'|[]] eqn:He; try done.
        apply checked_mul_i64_Ok in He as (_ & _ & -> & _).
        rewrite (IH (S i) _ idx' Hc) by (try done; lia). lia.
      * destruct dims; [|cbn in Hl; lia]. inversion Hb'; subst; cbn. lia.
Qed.

Lemma shape_numel_from_Ok total shape n :
  shape_numel_from total shape = Ok n -> n = total * prod_list shape /\ (0 <= total -> 0 <= n).
Proof.
  revert total; induction shape as [|d shape IH]; intros total; cbn.
  - intros [= <-]; lia.
  - intros H. rinv. apply checked_mul_i64_Ok in Hv0 as (? & ? & -> & _).
    apply IH in H as [-> ?]. cbn; split; [lia|intros; nia].
Qed.

Lemma tensor_bytes_Ok t n : tensor_bytes t = Ok n -> n = prod_list (ne t) * dtype_size (dtype t).
Proof.
  unfold tensor_bytes, numel, shape_numel; intros H; rinv.
  apply shape_numel_from_Ok in Hv as [-> _]. lia.
Qed.

Lemma tensor_bytes_u64 t n : tensor_bytes t = Ok n -> is_u64 n.
Proof.
  unfold tensor_bytes, numel, shape_numel; intros H; rinv. subst n.
  pose proof (dtype_size_pos (dtype t)).
  destruct Hv1 as [Hz|Hle]; bprop; [lia|]. unfold_ints.
  pose proof (Z.mul_div_le 18446744073709551615 (dtype_size (dtype t)) ltac:(lia)). nia.
Qed.

(** Constructed tensors are contiguous as [is_contiguous] sees it. *)
Lemma strides_contiguous i e dims bs :
  (i + length dims = 3)%nat -> 0 <= e -> Forall (fun d => 0 < d) dims ->
  strides_from e dims = Ok bs -> forall last, 0 < last ->
  is_contiguous_from i e (zip (dims ++ [last]) (e :: bs)) = Ok true.
Proof.
  revert i e bs; induction dims as [|d dims IH]; intros i e bs Hl He Hd Hs last Hlast.
  - cbn in *. injection Hs as <-. cbn. destruct (Z.leb_spec last 0); [lia|].
    rewrite Z.eqb_refl, andb_false_r. cbn in Hl. replace i with 3%nat by lia. done.
  - inversion Hd as [|? ? Hd0 Hd']; subst. cbn in Hs. rinv. subst bs.
    pose proof (proj1 (checked_mul_i64_Ok _ _ _) Hv) as (_ & _ & Hv1 & _).
    cbn in Hl |- *. destruct (Z.leb_spec d 0); [lia|].
    rewrite Z.eqb_refl, andb_false_r.
    replace (i <=? 2)%nat with true by (symmetry; apply Nat.leb_le; lia).
    destruct (Z.eqb_spec d 1) as [->|]; cbn.
    + replace v with e in * by lia. by apply IH; [lia|..].
    + rewrite Hv. apply IH; [lia|nia|done..].
Qed.

Lemma make_tensor_contiguous p dt shape t :
  make_tensor p dt shape = Ok t -> is_contiguous t = Ok true.
Proof.
  unfold make_tensor, set_contiguous_strides; intros H. rinv. subst t; cbn in *.
  apply normalize_shape_Ok in Hv as (Hl & Hf & ->).
  destruct (normalized_ne shape Hl Hf) as [Hl4 Hf4].
  unfold is_contiguous; cbn [dtype ne nb].
  remember (shape ++ replicate (4 - length shape) 1) as l.
  destruct l as [|a [|b [|c [|d [|]]]]]; cbn in Hl4; try lia.
  pose proof (dtype_size_pos dt). rewrite !Forall_cons in Hf4. destruct_and!.
  apply (strides_contiguous 0 _ [a; b; c]); [done|lia|by repeat constructor|done|done].
Qed.

(** ** Contiguous tensors: what the byte count and the strides mean *)

(** A contiguous tensor stores the element of rank [r] at [data + size * r]; every element lies
    inside the [bytes()] range and distinct elements do not overlap. *)
Lemma contiguous_elem_addr t idx :
  is_contiguous t = Ok true -> tensor_wf t -> in_bounds t idx ->
  elem_addr t idx = data t + dtype_size (dtype t) * rank idx (ne t).
Proof.
  unfold is_contiguous, in_bounds, elem_addr; intros Hc [Hne Hnb _ _] Hb.
  assert (Hz1 : (zip (ne t) (nb t)).*1 = ne t) by (apply fst_zip; lia).
  assert (Hz2 : (zip (ne t) (nb t)).*2 = nb t) by (apply snd_zip; lia).
  rewrite <- Hz1 in Hb. pose proof (contiguous_dot 0 _ _ idx Hc) as Hd.
  rewrite Hz1, Hz2 in Hd. rewrite Hd; [done| |by rewrite <- Hz1].
  rewrite length_zip_with; lia.
Qed.

Lemma view_Ok t shape t' :
  view t shape = Ok t' ->
  is_contiguous t = Ok true /\ make_tensor (data t) (dtype t) shape = Ok t' /\
  prod_list (ne t') = prod_list (ne t).
Proof.
  unfold view; intros H; rinv. unfold numel, shape_numel in *.
  repeat match goal with Hn : shape_numel_from _ _ = Ok _ |- _ =>
    apply shape_numel_from_Ok in Hn as [-> _] end.
  destruct v; [|done]. split_and!; [done|done|].
  match goal with Hn : normalize_shape _ = Ok _ |- _ =>
    apply normalize_shape_Ok in Hn as (_ & _ & ->) end.
  apply make_tensor_Ok in H as (_ & _ & _ & _ & -> & _). lia.
Qed.

(** ** Slices and permutations are address preserving *)

Lemma dot_insert_add idx ns d v :
  (d < length idx)%nat -> length idx = length ns ->
  dot (<[d := idx !!! d + v]> idx) ns = dot idx ns + v * ns !!! d.
Proof.
  revert ns d; induction idx as [|x idx IH]; intros [|n ns] d Hd Hl; cbn in Hd, Hl; try lia.
  destruct d as [|d]; simpl; [lia|]. rewrite IH by lia. lia.
Qed.

Lemma slice_Ok t dim start len t' :
  tensor_wf t -> slice t dim start len = Ok t' ->
  (0 <= dim < 4) /\ 0 <= start /\ 0 < len /\ start + len <= ne t !!! Z.to_nat dim /\
  dtype t' = dtype t /\ nb t' = nb t /\ ne t' = <[Z.to_nat dim := len]> (ne t) /\
  data t' = (if data t =? 0 then 0 else data t + start * nb t !!! Z.to_nat dim).
Proof.
  unfold slice; intros Hwf H; rinv. subst t'; cbn.
  apply checked_mul_i64_Ok in Hv1 as (_ & _ & -> & _). split_and!; try done; lia.
Qed.

Lemma slice_wf t dim start len t' :
  tensor_wf t -> slice t dim start len = Ok t' -> tensor_wf t'.
Proof.
  intros Hwf H. pose proof (slice_Ok _ _ _ _ _ Hwf H) as (Hd & Hs & Hl & Hle & _ & Hnb & Hne & _).
  destruct Hwf as [Hlen1 Hlen2 Hf1 Hf2].
  constructor; [by rewrite Hne, length_insert|by rewrite Hnb| |by rewrite Hnb].
  rewrite Hne. apply Forall_insert; [done|].
  destruct (lookup_lt_is_Some_2 (ne t) (Z.to_nat dim)) as [n Hn]; [lia|].
  rewrite (list_lookup_total_correct _ _ _ Hn) in Hle.
  pose proof (Forall_lookup_1 _ _ _ _ Hf1 Hn). cbn in *. lia.
Qed.

Lemma check_order_Ok seen order u :
  check_order seen order = Ok u -> Forall (fun d => 0 <= d < 4) order /\ NoDup order /\
  (forall d, d ∈ order -> d ∉ seen).
Proof.
  revert seen; induction order as [|d order IH]; intros seen; cbn; intros H.
  - split_and!; [constructor..|set_solver].
  - rinv. apply IH in H as (Hf & Hn & Hs). split_and!.
    + constructor; [lia|done].
    + constructor; [intros Hin; specialize (Hs _ Hin); set_solver|done].
    + intros d' [->|Hin]%elem_of_cons; [done|]. specialize (Hs _ Hin); set_solver.
Qed.

(** Four distinct dimensions below four are a permutation of all of them. *)
Lemma order_Permutation order :
  length order = 4%nat -> Forall (fun d => 0 <= d < 4) order -> NoDup order ->
  order ≡ₚ [0; 1; 2; 3].
Proof.
  intros Hl Hf Hn. symmetry. apply submseteq_length_Permutation; [|by rewrite Hl].
  assert (Hsub : order ⊆+ [0; 1; 2; 3]).
  { apply NoDup_submseteq; [done|]. intros x Hx. rewrite Forall_forall in Hf.
    specialize (Hf _ Hx). assert (x = 0 \/ x = 1 \/ x = 2 \/ x = 3) by lia. set_solver. }
  by rewrite <- (submseteq_length_Permutation _ _ Hsub ltac:(by rewrite Hl)).
Qed.

Definition dot_over (order : list Z) (f g : Z -> Z) : Z :=
  dot (f <$> order) (g <$> order).

#[export] Instance dot_over_Proper : Proper ((≡ₚ) ==> eq ==> eq ==> eq) dot_over.
Proof.
  intros o o' Ho f ? <- g ? <-. unfold dot_over. induction Ho; cbn in *; lia.
Qed.

Lemma dot_lookup_total idx ns :
  length idx = 4%nat -> length ns = 4%nat ->
  dot idx ns = dot_over [0; 1; 2; 3] (fun d => idx !!! Z.to_nat d) (fun d => ns !!! Z.to_nat d).
Proof.
  intros H1 H2. destruct idx as [|? [|? [|? [|? [|]]]]], ns as [|? [|? [|? [|? [|]]]]]; try done.
Qed.

(** ** Properties *)

(** in a contiguous tensor every in-bounds element lies inside the [bytes()] bytes that start
    at [data], and two different elements never overlap: the strides [set_contiguous_strides]
    computes and [is_contiguous] accepts are an injective layout of exactly the size that the
    allocation helpers reserve. *)
Theorem contiguous_elements_disjoint t n idx idx' :
  is_contiguous t = Ok true -> tensor_wf t -> tensor_bytes t = Ok n ->
  in_bounds t idx -> in_bounds t idx' ->
  data t <= elem_addr t idx /\ elem_addr t idx + dtype_size (dtype t) <= data t + n /\
  (idx <> idx' -> elem_addr t idx + dtype_size (dtype t) <= elem_addr t idx' \/
                  elem_addr t idx' + dtype_size (dtype t) <= elem_addr t idx).
Proof.
  intros Hc Hwf Hn Hi Hi'. rewrite !contiguous_elem_addr by done.
  apply tensor_bytes_Ok in Hn as ->.
  pose proof (rank_range _ _ Hi); pose proof (rank_range _ _ Hi').
  pose proof (dtype_size_pos (dtype t)).
  split_and!; [nia|nia|intros Hne].
  assert (rank idx (ne t) <> rank idx' (ne t)) by (intros He; by apply Hne, (rank_inj _ _ (ne t))).
  nia.
Qed.

Lemma contiguous_elements_disjoint_witness :
  exists t, make_tensor 4096 I32 [5; 3] = Ok t /\
    elem_addr t [4; 1; 0; 0] + 4 <= elem_addr t [0; 2; 0; 0] /\
    elem_addr t [0; 2; 0; 0] + 4 <= 4096 + 60.
Proof.
  eexists; split; [reflexivity|].
  assert (Hb : forall i j, 0 <= i < 5 -> 0 <= j < 3 ->
     in_bounds (mkTensor 4096 I32 [5; 3; 1; 1] [4; 20; 60; 60]) [i; j; 0; 0])
    by (intros; repeat constructor; cbn; lia).
  edestruct (contiguous_elements_disjoint (mkTensor 4096 I32 [5; 3; 1; 1] [4; 20; 60; 60]) 60
     [0; 2; 0; 0] [4; 1; 0; 0]) as (H1 & H2 & H3).
  - reflexivity.
  - constructor; by_compute.
  - reflexivity.
  - apply Hb; lia.
  - apply Hb; lia.
  - unfold elem_addr in *; cbn in *; lia.
Defined.

(** slicing is a window: a slice has the requested extent, stays well formed, and its element
    [idx] is the element of the original tensor shifted by [start] in the sliced dimension, at
    the same address and in bounds there. *)
Theorem slice_elem_addr t dim start len t' idx :
  tensor_wf t -> data t <> 0 -> slice t dim start len = Ok t' -> in_bounds t' idx ->
  let d := Z.to_nat dim in
  let src := <[d := idx !!! d + start]> idx in
  tensor_wf t' /\ ne t' !!! d = len /\ in_bounds t src /\ elem_addr t' idx = elem_addr t src.
Proof.
  intros Hwf Hp H Hb d src. pose proof (slice_wf _ _ _ _ _ Hwf H) as Hwf'.
  pose proof (slice_Ok _ _ _ _ _ Hwf H) as (Hd & Hs & Hl & Hle & Hdt & Hnb & Hne & Hdata).
  pose proof (wf_ne_len _ Hwf) as Hl4. pose proof (wf_nb_len _ Hwf) as Hb4.
  assert (Hd4 : (d < length (ne t))%nat) by (subst d; lia).
  unfold in_bounds in *. rewrite Hne in Hb.
  pose proof (Forall2_length _ _ _ Hb) as Hli. rewrite length_insert in Hli.
  split_and!; [done|by rewrite Hne; apply list_lookup_total_insert_eq| |].
  - subst src. apply Forall2_same_length_lookup. rewrite length_insert. split; [lia|].
    intros i x n Hx Hn. rewrite Forall2_lookup in Hb. specialize (Hb i). fold d in Hb.
    destruct (decide (i = d)) as [->|Hid].
    + rewrite list_lookup_insert_eq in Hx by lia. injection Hx as <-.
      rewrite list_lookup_insert_eq in Hb by lia. inversion Hb as [? ? Hxi Hxe|]; subst.
      symmetry in Hxe. rewrite (list_lookup_total_correct _ _ _ Hxe).
      fold d in Hle. rewrite (list_lookup_total_correct _ _ _ Hn) in Hle. lia.
    + rewrite list_lookup_insert_ne in Hx, Hb by done. rewrite Hx, Hn in Hb. by inversion Hb.
  - unfold elem_addr, src. rewrite dot_insert_add by lia. rewrite Hdata, Hnb.
    destruct (Z.eqb_spec (data t) 0); [done|]. fold d. lia.
Qed.

Lemma slice_elem_addr_witness :
  exists t t', make_tensor 4096 I32 [5; 3] = Ok t /\ slice t 1 2 1 = Ok t' /\
    elem_addr t' [4; 0; 0; 0] = elem_addr t [4; 2; 0; 0].
Proof.
  eexists _, _; split; [reflexivity|]; split; [reflexivity|].
  refine (proj2 (proj2 (proj2 (slice_elem_addr (mkTensor 4096 I32 [5; 3; 1; 1] [4; 20; 60; 60])
     1 2 1 _ [4; 0; 0; 0] _ _ _ _)))).
  - constructor; by_compute.
  - cbn; lia.
  - reflexivity.
  - unfold in_bounds; by_compute.
Defined.

(** permuting dimensions only renames coordinates: the element of the permuted tensor whose
    [j]-th coordinate is the source coordinate [order[j]] is in bounds and has the source
    element's address. *)
Theorem permute_elem_addr t order t' src :
  tensor_wf t -> permute t order = Ok t' -> in_bounds t src ->
  let idx := (fun dim => src !!! Z.to_nat dim) <$> order in
  in_bounds t' idx /\ elem_addr t' idx = elem_addr t src.
Proof.
  unfold permute, in_bounds, elem_addr; intros Hwf H Hb. rinv. subst t'; cbn.
  match goal with Hl : (_ =? _)%nat = true |- _ => apply Nat.eqb_eq in Hl as Hl4 end.
  match goal with Ho : check_order _ _ = Ok _ |- _ => apply check_order_Ok in Ho as (Hf & Hn & _) end.
  pose proof (Forall2_length _ _ _ Hb) as Hlen. pose proof (wf_ne_len _ Hwf) as Hne.
  split.
  - apply Forall2_fmap_l, Forall2_fmap_r, Forall_Forall2_diag.
    eapply Forall_impl; [exact Hf|]. intros d Hd; cbn in *.
    destruct (lookup_lt_is_Some_2 src (Z.to_nat d)) as [x Hx]; [lia|].
    destruct (lookup_lt_is_Some_2 (ne t) (Z.to_nat d)) as [n Hn']; [lia|].
    rewrite (list_lookup_total_correct _ _ _ Hx), (list_lookup_total_correct _ _ _ Hn').
    rewrite Forall2_lookup in Hb. specialize (Hb (Z.to_nat d)). rewrite Hx, Hn' in Hb.
    by inversion Hb.
  - apply Z.add_cancel_l. rewrite (dot_lookup_total src) by (rewrite ?(wf_nb_len _ Hwf); lia).
    rewrite <- (order_Permutation order Hl4 Hf Hn). done.
Qed.

Lemma permute_elem_addr_witness :
  exists t t', make_tensor 4096 I32 [5; 3] = Ok t /\ permute t [1; 0; 2; 3] = Ok t' /\
    elem_addr t' [2; 4; 0; 0] = elem_addr t [4; 2; 0; 0].
Proof.
  eexists _, _; split; [reflexivity|]; split; [reflexivity|].
  refine (proj2 (permute_elem_addr (mkTensor 4096 I32 [5; 3; 1; 1] [4; 20; 60; 60])
     [1; 0; 2; 3] _ [4; 2; 0; 0] _ _ _)).
  - constructor; by_compute.
  - reflexivity.
  - unfold in_bounds; by_compute.
Defined.
