(* ===== verification/Layout.v ===== *)
(** * Offset planning and bump allocation: [core/layout], [core/arena]

    [LayoutBuilder] plans the offsets of long-lived regions, [WorkspaceLayoutBuilder] is the dry
    run of the bump allocator [DeviceArena]; [Allocator] is the interface the target allocation
    helpers are written against. *)
From S2P Require Import Prelude Tensor.
#[local] Open Scope Z_scope.

(** ** Regions *)

Record DeviceSpan : Set := mkSpan { span_data : Z; span_bytes : Z }.

Record LayoutRegion : Set := mkRegion { lr_offset : Z; lr_bytes : Z; lr_alignment : Z }.

Record TensorRegion : Set := mkTensorRegion {
  tr_region : LayoutRegion;
  tr_dtype  : DType;
  tr_shape  : list Z;          (**r [std::array<int32_t, 4>] *)
}.

#[export] Instance DeviceSpan_eq_dec : EqDecision DeviceSpan.
Proof. solve_decision. Defined.
#[export] Instance LayoutRegion_eq_dec : EqDecision LayoutRegion.
Proof. solve_decision. Defined.
#[export] Instance TensorRegion_eq_dec : EqDecision TensorRegion.
Proof. solve_decision. Defined.

(** [LayoutRegion::bind] *)
Definition region_bind (r : LayoutRegion) (backing : DeviceSpan) : result DeviceSpan :=
  do* throw_if (span_data backing =? 0) InvalidArgument;
  do* throw_if (negb (is_power_of_two (lr_alignment r))) LogicError;
  let base := span_data backing in
  do* throw_if (negb (u64 (base + lr_offset r) mod lr_alignment r =? 0)) InvalidArgument;
  do* throw_if ((lr_offset r >? span_bytes backing) ||
                (lr_bytes r >? span_bytes backing - lr_offset r)) OutOfRange;
  Ok (mkSpan (base + lr_offset r) (lr_bytes r)).

(** [TensorRegion::bind] *)
Definition tensor_region_bind (r : TensorRegion) (backing : DeviceSpan) : result Tensor :=
  let* expected := make_tensor 0 (tr_dtype r) (tr_shape r) in
  let* bytes := tensor_bytes expected in
  do* throw_if (negb (bytes =? lr_bytes (tr_region r))) LogicError;
  let* span := region_bind (tr_region r) backing in
  make_tensor (span_data span) (tr_dtype r) (tr_shape r).

(** ** [LayoutBuilder] *)

Record LayoutBuilder : Set := mkLB { lb_cursor : Z; lb_peak : Z }.

Definition LayoutBuilder_init : LayoutBuilder := mkLB 0 0.

(** [LayoutBuilder::add] *)
Definition add (bytes alignment : Z) : M LayoutBuilder LayoutRegion :=
  do! mthrow_if (bytes =? 0) InvalidArgument;
  let! b := mget in
  let! offset := mlift (align_up (lb_cursor b) alignment) in
  let! cursor := mlift (checked_add offset bytes) in
  do! mput (mkLB cursor (if cursor >? lb_peak b then cursor else lb_peak b));
  mret_ (mkRegion offset bytes alignment).

(** [LayoutBuilder::add_tensor] *)
Definition add_tensor (dtype : DType) (shape : list Z) (alignment : Z)
  : M LayoutBuilder TensorRegion :=
  let! tensor := mlift (make_tensor 0 dtype shape) in
  let! bytes := mlift (tensor_bytes tensor) in
  let! region := add bytes alignment in
  mret_ (mkTensorRegion region dtype (shape ++ replicate (4 - length shape) 1)).

(** [LayoutBuilder::scope]: the guard's destructor restores the cursor when the scope is left,
    normally or by an exception. *)
Definition lb_scope {A} (body : M LayoutBuilder A) : M LayoutBuilder A :=
  fun b => let saved_cursor := lb_cursor b in
           let '(r, b') := body b in (r, mkLB saved_cursor (lb_peak b')).

(** [LayoutBuilder::finish] *)
Definition finish (b : LayoutBuilder) (alignment : Z) : result Z := align_up (lb_peak b) alignment.

(** ** The allocator interface *)

(** What an allocation helper may do with its allocator argument. *)
Class Allocator (S : Type) : Type := {
  alc_alloc : DType -> list Z -> Z -> M S Tensor;
  alc_alloc_bytes : Z -> Z -> M S DeviceSpan;
  alc_scope : forall A, M S A -> M S A;
}.

(** An allocation helper: a sequence of allocations and nested scopes. *)
Inductive script : Set :=
| SDone
| SAlloc (dtype : DType) (shape : list Z) (alignment : Z) (k : script)
| SAllocBytes (bytes alignment : Z) (k : script)
| SScope (body k : script).

Fixpoint run_script {S} `{Allocator S} (p : script) : M S unit :=
  match p with
  | SDone => mret_ tt
  | SAlloc dt shape a k => let! _ := alc_alloc dt shape a in run_script k
  | SAllocBytes n a k => let! _ := alc_alloc_bytes n a in run_script k
  | SScope body k => do! alc_scope unit (run_script body); run_script k
  end.

(** ** [WorkspaceLayoutBuilder] *)

Record WorkspaceLayoutBuilder : Set := mkWLB { wl_cursor : Z; wl_peak : Z }.

Definition WorkspaceLayoutBuilder_init : WorkspaceLayoutBuilder := mkWLB 0 0.

Definition wl_set_cursor (c : Z) : M WorkspaceLayoutBuilder unit :=
  mmodify (fun w => mkWLB c (wl_peak w)).
(** [if (cursor_ > peak_) { peak_ = cursor_; }] *)
Definition wl_raise_peak : M WorkspaceLayoutBuilder unit :=
  mmodify (fun w => mkWLB (wl_cursor w)
                      (if wl_cursor w >? wl_peak w then wl_cursor w else wl_peak w)).

(** [WorkspaceLayoutBuilder::alloc] *)
Definition wl_alloc (dtype : DType) (shape : list Z) (alignment : Z)
  : M WorkspaceLayoutBuilder Tensor :=
  let! tensor := mlift (make_tensor 0 dtype shape) in
  let! c0 := mgets wl_cursor in
  let! c1 := mlift (align_up c0 alignment) in
  do! wl_set_cursor c1;
  let! bytes := mlift (tensor_bytes tensor) in
  let! c2 := mlift (checked_add c1 bytes) in
  do! wl_set_cursor c2;
  do! wl_raise_peak;
  mret_ tensor.

(** [WorkspaceLayoutBuilder::alloc_bytes] *)
Definition wl_alloc_bytes (bytes alignment : Z) : M WorkspaceLayoutBuilder DeviceSpan :=
  if bytes =? 0 then mret_ (mkSpan 0 0) else
  let! c0 := mgets wl_cursor in
  let! c1 := mlift (align_up c0 alignment) in
  do! wl_set_cursor c1;
  let! c2 := mlift (checked_add c1 bytes) in
  do! wl_set_cursor c2;
  do! wl_raise_peak;
  mret_ (mkSpan 0 bytes).

(** [WorkspaceLayoutBuilder::scope] *)
Definition wl_scope {A} (body : M WorkspaceLayoutBuilder A) : M WorkspaceLayoutBuilder A :=
  fun w => let saved_cursor := wl_cursor w in
           let '(r, w') := body w in (r, mkWLB saved_cursor (wl_peak w')).

(** [WorkspaceLayoutBuilder::peak_bytes] *)
Definition peak_bytes (w : WorkspaceLayoutBuilder) (alignment : Z) : result Z :=
  align_up (wl_peak w) alignment.

#[export] Instance WorkspaceLayoutBuilder_Allocator : Allocator WorkspaceLayoutBuilder := {
  alc_alloc := wl_alloc;
  alc_alloc_bytes := wl_alloc_bytes;
  alc_scope := @wl_scope;
}.

(** ** [DeviceArena] *)

Record DeviceArena : Set := mkArena {
  ar_base : Z; ar_cap : Z; ar_off : Z; ar_peak : Z; ar_owns : bool;
}.

(** [DeviceArena::DeviceArena(size_t)]; [cuda_malloc] is the driver's answer. *)
Definition arena_create (cuda_malloc : Z -> option Z) (capacity_bytes : Z) : result DeviceArena :=
  do* throw_if (capacity_bytes =? 0) InvalidArgument;
  match cuda_malloc capacity_bytes with
  | Some ptr => Ok (mkArena ptr capacity_bytes 0 0 true)
  | None => Err RuntimeError
  end.

(** [DeviceArena::DeviceArena(DeviceSpan)] *)
Definition arena_borrow (storage : DeviceSpan) : result DeviceArena :=
  do* throw_if ((span_data storage =? 0) || (span_bytes storage =? 0)) InvalidArgument;
  Ok (mkArena (span_data storage) (span_bytes storage) 0 0 false).

(** [align_up_addr] *)
Definition align_up_addr (addr align : Z) : result Z :=
  let mask := u64 (align - 1) in
  let* with_mask := checked_add addr mask in
  Ok (Z.land with_mask (u64_not mask)).

(** [DeviceArena::alloc_bytes] *)
Definition ar_alloc_bytes (bytes align : Z) : M DeviceArena DeviceSpan :=
  let! a := mget in
  do! mthrow_if (ar_base a =? 0) RuntimeError;
  do! mthrow_if (negb (is_power_of_two align)) InvalidArgument;
  do! mthrow_if (bytes =? 0) InvalidArgument;
  let! current_addr := mlift (checked_add (ar_base a) (ar_off a)) in
  let! aligned_addr := mlift (align_up_addr current_addr align) in
  let aligned_offset := u64 (aligned_addr - ar_base a) in
  do! mthrow_if (bytes >? u64_max - aligned_offset) OverflowError;
  let end_ := aligned_offset + bytes in
  do! mthrow_if (end_ >? ar_cap a) BadAlloc;
  do! mput (mkArena (ar_base a) (ar_cap a) end_
              (if end_ >? ar_peak a then end_ else ar_peak a) (ar_owns a));
  mret_ (mkSpan (ar_base a + aligned_offset) bytes).

(** [DeviceArena::alloc] *)
Definition ar_alloc (dtype : DType) (shape : list Z) (align : Z) : M DeviceArena Tensor :=
  let! view := mlift (make_tensor 0 dtype shape) in
  let! bytes := mlift (tensor_bytes view) in
  let! storage := ar_alloc_bytes bytes align in
  mlift (make_tensor (span_data storage) dtype shape).

Definition ar_set_off (a : DeviceArena) (off : Z) : DeviceArena :=
  mkArena (ar_base a) (ar_cap a) off (ar_peak a) (ar_owns a).

(** [DeviceArena::Scope]: the destructor only rewinds. *)
Definition ar_scope {A} (body : M DeviceArena A) : M DeviceArena A :=
  fun a => let saved_offset := ar_off a in
           let '(r, a') := body a in
           (r, if saved_offset <=? ar_off a' then ar_set_off a' saved_offset else a').

Definition ar_reset : M DeviceArena unit := mmodify (fun a => ar_set_off a 0).
Definition ar_reset_peak : M DeviceArena unit :=
  mmodify (fun a => mkArena (ar_base a) (ar_cap a) (ar_off a) (ar_off a) (ar_owns a)).

#[export] Instance DeviceArena_Allocator : Allocator DeviceArena := {
  alc_alloc := ar_alloc;
  alc_alloc_bytes := ar_alloc_bytes;
  alc_scope := @ar_scope;
}.

(** A plan: regions requested one after the other ([bytes], [alignment]). *)
Definition plan_regions (reqs : list (Z * Z)) : M LayoutBuilder (list LayoutRegion) :=
  mmapM (fun '(bytes, alignment) => add bytes alignment) reqs.

Definition region_end (r : LayoutRegion) : Z := lr_offset r + lr_bytes r.

Record lb_wf (b : LayoutBuilder) : Prop := {
  lb_cursor_nonneg : 0 <= lb_cursor b;
  lb_cursor_peak : lb_cursor b <= lb_peak b;
  lb_peak_u64 : lb_peak b <= u64_max;
}.

(** ** Lemmas on [LayoutBuilder] *)

Lemma add_Ok n a b r b' :
  lb_wf b -> is_u64 n -> is_u64 a -> add n a b = (Ok r, b') ->
  n <> 0 /\ is_power_of_two a = true /\ r = mkRegion (align_Z (lb_cursor b) a) n a /\
  lb_cursor b' = region_end r /\ lb_peak b' = Z.max (lb_peak b) (region_end r) /\ lb_wf b'.
Proof.
  intros [H0 H1 H2] Hn Ha H. unfold add in H. minv.
  assert (Hc : is_u64 (lb_cursor b)) by (unfold_ints; lia).
  match goal with H : align_up _ _ = Ok _ |- _ => apply align_up_Ok in H as (Hp & Hmax & ->); [|done..] end.
  pose proof (is_power_of_two_pos a Hp Ha) as Hpos.
  pose proof (align_Z_spec (lb_cursor b) a Hpos) as [Hr _].
  match goal with H : checked_add _ _ = Ok _ |- _ =>
    apply checked_add_Ok in H as [-> Hb]; [|unfold_ints; lia|done] end.
  unfold region_end; cbn.
  match goal with |- context [?x >? ?y] => destruct (Z.gtb_spec x y) end;
    (split_and!; [lia|done|done|done|lia|constructor; cbn; unfold_ints; lia]).
Qed.

Lemma plan_regions_Ok reqs b rs b' :
  lb_wf b -> Forall (fun q => is_u64 q.1 /\ is_u64 q.2) reqs ->
  plan_regions reqs b = (Ok rs, b') ->
  lb_wf b' /\ lb_cursor b <= lb_cursor b' /\ lb_peak b <= lb_peak b' /\
  Forall2 (fun q r => lr_bytes r = q.1 /\ lr_alignment r = q.2 /\ 0 < q.1 /\
                      is_power_of_two q.2 = true /\ (q.2 | lr_offset r) /\
                      lb_cursor b <= lr_offset r /\ region_end r <= lb_peak b') reqs rs /\
  StronglySorted (fun r r' => region_end r <= lr_offset r') rs.
Proof.
  revert b rs; induction reqs as [|[n a] reqs IH]; intros b rs Hwf Hq H; cbn in H.
  - minv. split_and!; [done|lia|lia|constructor|constructor].
  - inversion Hq as [|? ? [Hn Ha] Hq']; subst; cbn in *. minv.
    match goal with H : add _ _ _ = _ |- _ => apply add_Ok in H as (Hn0 & Hp & -> & Hc & Hpk & Hwf1);
      [|done..] end.
    match goal with H : mmapM _ _ _ = _ |- _ =>
      destruct (IH _ _ Hwf1 Hq' H) as (Hwf2 & Hc2 & Hpk2 & Hf & Hs) end.
    pose proof (is_power_of_two_pos a Hp Ha) as Hpos.
    pose proof (align_Z_spec (lb_cursor b) a Hpos) as [Hr Hd].
    unfold region_end in *; cbn in *. unfold_ints.
    split_and!; [done|lia|lia| |].
    + constructor; [cbn; split_and!; [done|done|lia|done|done|lia|lia]|].
      eapply Forall2_impl; [exact Hf|]. cbn. intros ? ? (?&?&?&?&?&?&?). split_and!; try done; lia.
    + constructor; [done|]. apply Forall_forall; intros r Hin; cbn.
      apply list_elem_of_lookup in Hin as [i Hi].
      destruct (Forall2_lookup_r _ _ _ _ _ Hf Hi) as (q & _ & Hq2). cbn in Hq2. lia.
Qed.

Lemma region_bind_Ok r backing :
  span_data backing <> 0 -> 0 <= span_data backing -> 0 <= lr_offset r -> 0 <= lr_bytes r ->
  is_u64 (lr_alignment r) -> span_data backing + span_bytes backing <= u64_max ->
  is_power_of_two (lr_alignment r) = true -> (lr_alignment r | lr_offset r) ->
  (lr_alignment r | span_data backing) -> region_end r <= span_bytes backing ->
  region_bind r backing = Ok (mkSpan (span_data backing + lr_offset r) (lr_bytes r)).
Proof.
  intros Hd Hd0 Ho Hb Ha Hmax Hp Hao Had Hend. unfold region_bind, region_end in *.
  pose proof (is_power_of_two_pos _ Hp Ha).
  rewrite (proj2 (Z.eqb_neq _ _) Hd), Hp; cbn.
  rewrite u64_small by (unfold_ints; lia).
  assert (Hm : (span_data backing + lr_offset r) mod lr_alignment r = 0)
    by (apply Z.mod_divide; [lia|by apply Z.divide_add_r]).
  rewrite Hm; cbn.
  destruct (Z.gtb_spec (lr_offset r) (span_bytes backing)); [lia|].
  destruct (Z.gtb_spec (lr_bytes r) (span_bytes backing - lr_offset r)); [lia|]. done.
Qed.

(** planning a sequence of regions and binding them agree: whenever the plan and [finish]
    succeed, every planned region binds inside any sufficiently aligned backing of the finished
    size, with the requested size and alignment, and the bound regions are pairwise disjoint and
    in request order. *)
Theorem layout_plan_binds reqs rs b total backing A :
  Forall (fun q => is_u64 q.1 /\ is_u64 q.2 /\ (q.2 | A)) reqs -> is_u64 A -> 0 < A ->
  plan_regions reqs LayoutBuilder_init = (Ok rs, b) -> finish b A = Ok total ->
  span_data backing <> 0 -> 0 <= span_data backing -> (A | span_data backing) ->
  total <= span_bytes backing -> span_data backing + span_bytes backing <= u64_max ->
  exists spans,
    rmapM (fun r => region_bind r backing) rs = Ok spans /\
    Forall2 (fun q s => span_bytes s = q.1 /\ (q.2 | span_data s) /\
               span_data backing <= span_data s /\
               span_data s + span_bytes s <= span_data backing + span_bytes backing) reqs spans /\
    StronglySorted (fun s s' => span_data s + span_bytes s <= span_data s') spans.
Proof.
  intros Hq HA HA0 Hplan Hfin Hd Hd0 HAd Htot Hmax.
  assert (Hwf0 : lb_wf LayoutBuilder_init) by (constructor; cbn; unfold_ints; lia).
  assert (Hq' : Forall (fun q => is_u64 q.1 /\ is_u64 q.2) reqs)
    by (eapply Forall_impl; [exact Hq|]; naive_solver).
  destruct (plan_regions_Ok _ _ _ _ Hwf0 Hq' Hplan) as ([Hb0 Hb1 Hb2] & _ & _ & Hf & Hs).
  unfold finish in Hfin. apply align_up_Ok in Hfin as (_ & _ & ->); [|unfold_ints; lia|done].
  pose proof (align_Z_spec (lb_peak b) A HA0) as [Hal _].
  exists ((fun r => mkSpan (span_data backing + lr_offset r) (lr_bytes r)) <$> rs).
  assert (Hall : Forall2 (fun q r => lr_bytes r = q.1 /\ (q.2 | lr_offset r) /\ (q.2 | A) /\
      0 <= lr_offset r /\ region_end r <= span_bytes backing /\
      region_bind r backing = Ok (mkSpan (span_data backing + lr_offset r) (lr_bytes r))) reqs rs).
  { apply Forall2_same_length_lookup. split; [by apply Forall2_length in Hf|]. intros i q r Hi Hj.
    pose proof (Forall2_lookup_lr _ _ _ _ _ _ Hf Hi Hj) as (E1 & E2 & E3 & E4 & E5 & E6 & E7).
    pose proof (Forall_lookup_1 _ _ _ _ Hq Hi) as (_ & Hqa & HqA). cbn in *.
    split_and!; [done..|lia|lia|].
    apply region_bind_Ok; rewrite ?E2; try done; try lia; by etrans. }
  split_and!.
  - apply rmapM_Forall2, Forall2_fmap_r, Forall_Forall2_diag, Forall_forall.
    intros r Hin. apply list_elem_of_lookup in Hin as [i Hi].
    by destruct (Forall2_lookup_r _ _ _ _ _ Hall Hi) as (q & _ & _ & _ & _ & _ & _ & ?).
  - apply Forall2_fmap_r. eapply Forall2_impl; [exact Hall|].
    intros q r (E1 & E2 & E3 & E4 & E5 & _); unfold region_end in *; cbn.
    split_and!; [done| |lia|lia]. apply Z.divide_add_r; [by etrans|done].
  - clear -Hs. induction Hs as [|r rs Hs IH Hfa]; cbn; constructor; [done|].
    apply Forall_fmap. eapply Forall_impl; [exact Hfa|]. unfold region_end; cbn. lia.
Qed.

Lemma layout_plan_binds_witness :
  exists spans,
    rmapM (fun r => region_bind r (mkSpan 65536 1024))
      [mkRegion 0 100 256; mkRegion 104 24 8; mkRegion 256 300 256] = Ok spans.
Proof.
  destruct (layout_plan_binds [(100, 256); (24, 8); (300, 256)]
    [mkRegion 0 100 256; mkRegion 104 24 8; mkRegion 256 300 256] (mkLB 556 556) 768
    (mkSpan 65536 1024) 256) as (spans & H & _).
  - by_compute.
  - by_compute.
  - lia.
  - vm_compute; reflexivity.
  - vm_compute; reflexivity.
  - done.
  - cbn; lia.
  - apply Z.mod_divide; [lia|reflexivity].
  - cbn; lia.
  - cbn; unfold_ints; lia.
  - by exists spans.
Defined.

(** ** The dry run and the arena *)

Record wl_wf (w : WorkspaceLayoutBuilder) : Prop := {
  wl_cursor_nonneg : 0 <= wl_cursor w;
  wl_cursor_peak : wl_cursor w <= wl_peak w;
  wl_peak_u64 : wl_peak w <= u64_max;
}.

(** Every alignment of the script divides [A], and no byte allocation is empty. *)
Fixpoint script_ok (A : Z) (p : script) : Prop :=
  match p with
  | SDone => True
  | SAlloc _ _ a k => is_u64 a /\ (a | A) /\ script_ok A k
  | SAllocBytes n a k => is_u64 n /\ n <> 0 /\ is_u64 a /\ (a | A) /\ script_ok A k
  | SScope body k => script_ok A body /\ script_ok A k
  end.

Record arena_ok (A : Z) (a : DeviceArena) : Prop := {
  ar_base_pos : 0 < ar_base a;
  ar_base_align : (A | ar_base a);
  ar_room : ar_base a + ar_cap a + A <= u64_max;
}.

(** The arena is where the dry run is. *)
Record arena_sim (w : WorkspaceLayoutBuilder) (a : DeviceArena) : Prop := {
  sim_off : ar_off a = wl_cursor w;
  sim_peak : ar_peak a = wl_peak w;
}.

Definition same_storage (a a' : DeviceArena) : Prop :=
  ar_base a' = ar_base a /\ ar_cap a' = ar_cap a /\ ar_owns a' = ar_owns a.

Lemma wl_alloc_bytes_Ok n al w sp w' :
  wl_wf w -> is_u64 n -> is_u64 al -> n <> 0 -> wl_alloc_bytes n al w = (Ok sp, w') ->
  is_power_of_two al = true /\
  w' = mkWLB (align_Z (wl_cursor w) al + n) (Z.max (wl_peak w) (align_Z (wl_cursor w) al + n)) /\
  wl_cursor w <= wl_cursor w' /\ wl_wf w'.
Proof.
  intros [H0 H1 H2] Hn Ha Hn0 H. unfold wl_alloc_bytes, wl_set_cursor, wl_raise_peak in H.
  rewrite (proj2 (Z.eqb_neq _ _) Hn0) in H. minv. cbn in *.
  match goal with H : align_up _ _ = Ok _ |- _ =>
    apply align_up_Ok in H as (Hp & Hmax & ->); [|unfold_ints; lia|done] end.
  pose proof (is_power_of_two_pos al Hp Ha) as Hpos.
  pose proof (align_Z_spec (wl_cursor w) al Hpos) as [Hr _].
  match goal with H : checked_add _ _ = Ok _ |- _ =>
    apply checked_add_Ok in H as [-> Hb]; [|unfold_ints; lia|done] end.
  match goal with |- context [?x >? ?y] => destruct (Z.gtb_spec x y) end;
    (split_and!; [done|f_equal; lia|cbn; unfold_ints; lia|constructor; cbn; unfold_ints; lia]).
Qed.

Lemma wl_alloc_eq dt shape al t n w :
  make_tensor 0 dt shape = Ok t -> tensor_bytes t = Ok n -> n <> 0 ->
  (wl_alloc dt shape al w).2 = (wl_alloc_bytes n al w).2 /\
  (is_ok (wl_alloc dt shape al w).1 = is_ok (wl_alloc_bytes n al w).1).
Proof.
  intros Ht Hn Hn0. unfold wl_alloc, wl_alloc_bytes, mbind_, mlift, mgets, wl_set_cursor, mmodify.
  rewrite Ht, (proj2 (Z.eqb_neq _ _) Hn0). cbn.
  destruct (align_up _ _) as [c1|]; cbn; [|done]. rewrite Hn; cbn.
  by destruct (checked_add _ _); cbn.
Qed.

Lemma make_tensor_bytes_pos dt shape p t n :
  make_tensor p dt shape = Ok t -> tensor_bytes t = Ok n -> 0 < n.
Proof.
  intros (Hl & Hf & _ & Hd & Hne & _)%make_tensor_Ok ->%tensor_bytes_Ok.
  rewrite Hne. pose proof (dtype_size_pos (dtype t)).
  pose proof (prod_list_pos _ (proj2 (normalized_ne shape Hl Hf))). nia.
Qed.

Lemma wl_alloc_Ok dt shape al w t w' :
  wl_wf w -> is_u64 al -> wl_alloc dt shape al w = (Ok t, w') ->
  make_tensor 0 dt shape = Ok t /\ exists n, tensor_bytes t = Ok n /\ n <> 0 /\ is_u64 n /\
  is_power_of_two al = true /\
  w' = mkWLB (align_Z (wl_cursor w) al + n) (Z.max (wl_peak w) (align_Z (wl_cursor w) al + n)) /\
  wl_cursor w <= wl_cursor w' /\ wl_wf w'.
Proof.
  intros Hwf Ha H. pose proof H as Hcopy. unfold wl_alloc in H. minv.
  match goal with Ht : make_tensor _ _ _ = Ok _, Hb : tensor_bytes _ = Ok ?n |- _ =>
    pose proof (make_tensor_bytes_pos _ _ _ _ _ Ht Hb) as Hn; pose proof (tensor_bytes_u64 _ _ Hb);
    destruct (wl_alloc_eq dt shape al _ n w Ht Hb ltac:(lia)) as [E1 E2];
    rewrite Hcopy in E1, E2; cbn in E1, E2; split; [done|exists n];
    destruct (wl_alloc_bytes n al w) as [[sp|] w2] eqn:Hw; [|done]
  end.
  cbn in E1; subst w2. apply wl_alloc_bytes_Ok in Hw; [|done..|lia].
  split_and!; try tauto; lia.
Qed.

(** Scripts only move the cursor forward, and the peak records every cursor reached. *)
Lemma run_script_wl A p w w' :
  script_ok A p -> wl_wf w -> run_script p w = (Ok tt, w') ->
  wl_wf w' /\ wl_cursor w <= wl_cursor w' /\ wl_peak w <= wl_peak w'.
Proof.
  revert w w'; induction p as [|dt shape al k IH|n al k IH|body IHb k IHk];
    intros w w' Hok Hwf H; cbn in H, Hok.
  - minv. split_and!; [done|lia|lia].
  - minv. destruct Hok as (Ha & Hd & Hok).
    match goal with H : wl_alloc _ _ _ _ = _ |- _ =>
      apply wl_alloc_Ok in H as (_ & n & _ & _ & _ & _ & Hw & Hc & Hwf1); [|done..] end.
    match goal with H : run_script _ _ = _ |- _ => apply IH in H as (Hwf2 & Hc2 & Hp2); [|done..] end.
    subst s; cbn in *. split_and!; [done|lia|lia].
  - minv. destruct Hok as (Hn & Hn0 & Ha & Hd & Hok).
    match goal with H : wl_alloc_bytes _ _ _ = _ |- _ =>
      apply wl_alloc_bytes_Ok in H as (_ & Hw & Hc & Hwf1); [|done..] end.
    match goal with H : run_script _ _ = _ |- _ => apply IH in H as (Hwf2 & Hc2 & Hp2); [|done..] end.
    subst s; cbn in *. split_and!; [done|lia|lia].
  - minv. destruct Hok as [Hokb Hokk]. unfold wl_scope in Hm.
    destruct (run_script body w) as [r w1] eqn:Hb. injection Hm as -> <-. destruct v.
    destruct (IHb _ _ Hokb Hwf Hb) as ([Hw1 Hw2 Hw3] & Hc1 & Hp1).
    destruct Hwf as [Hwf1 Hwf2 Hwf3].
    apply IHk in H as (Hwf' & Hc' & Hp'); [|done|constructor; cbn in *; lia].
    cbn in *. split_and!; [done|lia|lia].
Qed.

Lemma align_up_addr_base base off al :
  0 < base -> (al | base) -> is_power_of_two al = true -> is_u64 al -> 0 <= off ->
  base + off + al <= u64_max -> align_up_addr (base + off) al = Ok (base + align_Z off al).
Proof.
  intros Hb Hd Hp Ha Ho Hmax. pose proof (is_power_of_two_pos _ Hp Ha).
  assert (Hu : align_up (base + off) al = Ok (align_Z (base + off) al))
    by (apply align_up_Ok; [unfold_ints; lia|done|split_and!; [done|lia|done]]).
  unfold align_up in Hu. rewrite Hp in Hu; cbn in Hu. unfold align_up_addr. rewrite Hu.
  f_equal. unfold align_Z. destruct Hd as [q ->].
  replace (q * al + off + al - 1) with (q * al + (off + al - 1)) by lia.
  rewrite Z.div_add_l by lia. lia.
Qed.

Lemma ar_alloc_bytes_Ok A n al a :
  arena_ok A a -> is_u64 n -> is_u64 al -> (al | A) -> 0 < A -> is_power_of_two al = true ->
  n <> 0 -> 0 <= ar_off a <= ar_cap a -> align_Z (ar_off a) al + n <= ar_cap a ->
  ar_alloc_bytes n al a =
    (Ok (mkSpan (ar_base a + align_Z (ar_off a) al) n),
     mkArena (ar_base a) (ar_cap a) (align_Z (ar_off a) al + n)
       (Z.max (ar_peak a) (align_Z (ar_off a) al + n)) (ar_owns a)).
Proof.
  intros [Hb HbA Hroom] Hn Ha HaA HA Hp Hn0 Ho Hfit.
  pose proof (is_power_of_two_pos _ Hp Ha) as Hpos. pose proof (align_Z_spec (ar_off a) al Hpos) as [Hr _].
  assert (al <= A) by (apply Z.divide_pos_le; [lia|done]).
  unfold ar_alloc_bytes, mbind_, mget, mput, mret_, mthrow_if, mlift. cbn.
  rewrite (proj2 (Z.eqb_neq (ar_base a) 0)), Hp, (proj2 (Z.eqb_neq n 0)) by lia; cbn.
  rewrite (proj2 (checked_add_Ok (ar_base a) (ar_off a) _ ltac:(unfold_ints; lia) ltac:(unfold_ints; lia)))
    by (split; [reflexivity|lia]).
  rewrite align_up_addr_base by (try done; try lia; by etrans).
  replace (ar_base a + align_Z (ar_off a) al - ar_base a) with (align_Z (ar_off a) al) by lia.
  rewrite u64_small by (unfold_ints; lia).
  destruct (Z.gtb_spec n (u64_max - align_Z (ar_off a) al)); [lia|cbn].
  destruct (Z.gtb_spec (align_Z (ar_off a) al + n) (ar_cap a)); [lia|cbn].
  destruct (Z.gtb_spec (align_Z (ar_off a) al + n) (ar_peak a)); repeat f_equal; lia.
Qed.

(** The simulation: where the dry run succeeds within the arena's capacity, so does the arena. *)
Lemma run_script_sim A p w w' a :
  script_ok A p -> 0 < A -> wl_wf w -> run_script p w = (Ok tt, w') ->
  arena_ok A a -> arena_sim w a -> wl_peak w' <= ar_cap a ->
  exists a', run_script p a = (Ok tt, a') /\ arena_sim w' a' /\ same_storage a a'.
Proof.
  intros Hok HA. revert w w' a Hok; induction p as [|dt shape al k IH|n al k IH|body IHb k IHk];
    intros w w' a Hok Hwf H Hao [Hoff Hpeak] Hcap; cbn in H, Hok.
  - minv. by exists a.
  - minv. destruct Hok as (Ha & Hd & Hok).
    match goal with H : wl_alloc _ _ _ _ = _ |- _ =>
      apply wl_alloc_Ok in H as (Ht & n & Hn & Hn0 & Hnu & Hp & Hw & Hc & Hwf1); [|done..] end.
    pose proof (run_script_wl A k s w' Hok Hwf1 H) as (_ & Hc2 & Hp2). destruct Hwf. subst s; cbn in *.
    destruct (IH _ _ (mkArena (ar_base a) (ar_cap a) (align_Z (ar_off a) al + n)
       (Z.max (ar_peak a) (align_Z (ar_off a) al + n)) (ar_owns a)) Hok Hwf1 H) as (a' & Hr & Hs & Hst).
    { destruct Hao; by constructor. } { constructor; cbn; congruence. } { cbn; lia. }
    exists a'. split_and!; [|done|done].
    unfold ar_alloc, mbind_, mlift. rewrite Ht, Hn. rewrite Hoff in *.
    rewrite (ar_alloc_bytes_Ok A) by (rewrite ?Hoff; try done; lia). rewrite Hoff.
    cbn. unfold make_tensor in Ht |- *. destruct (normalize_shape shape); [|done].
    unfold set_contiguous_strides in *; cbn in *. by destruct (strides_from _ _).
  - minv. destruct Hok as (Hn & Hn0 & Ha & Hd & Hok).
    match goal with H : wl_alloc_bytes _ _ _ = _ |- _ =>
      apply wl_alloc_bytes_Ok in H as (Hp & Hw & Hc & Hwf1); [|done..] end.
    pose proof (run_script_wl A k s w' Hok Hwf1 H) as (_ & Hc2 & Hp2). destruct Hwf. subst s; cbn in *.
    destruct (IH _ _ (mkArena (ar_base a) (ar_cap a) (align_Z (ar_off a) al + n)
       (Z.max (ar_peak a) (align_Z (ar_off a) al + n)) (ar_owns a)) Hok Hwf1 H) as (a' & Hr & Hs & Hst).
    { destruct Hao; by constructor. } { constructor; cbn; congruence. } { cbn; lia. }
    exists a'. split_and!; [|done|done].
    unfold mbind_. rewrite (ar_alloc_bytes_Ok A) by (rewrite ?Hoff; try done; lia). done.
  - minv. destruct Hok as [Hokb Hokk]. unfold wl_scope in Hm.
    destruct (run_script body w) as [r w1] eqn:Hb. injection Hm as -> <-. destruct v.
    pose proof (run_script_wl A _ _ _ Hokb Hwf Hb) as ([Hw1 Hw2 Hw3] & Hc1 & Hp1).
    destruct Hwf as [Hwf1 Hwf2 Hwf3].
    assert (Hwf' : wl_wf (mkWLB (wl_cursor w) (wl_peak w1))) by (constructor; cbn; lia).
    pose proof (run_script_wl A _ _ _ Hokk Hwf' H) as (_ & Hc2 & Hp2). cbn in *.
    destruct (IHb w w1 a Hokb ltac:(by constructor) Hb Hao ltac:(by constructor) ltac:(lia))
      as (a1 & Hr1 & [Ho1 Hpk1] & (Es1 & Es2 & Es3)).
    destruct (IHk _ _ (ar_set_off a1 (ar_off a)) Hokk Hwf' H) as (a' & Hr & Hs & Hst).
    { destruct Hao; constructor; cbn; by rewrite ?Es1, ?Es2. } { by constructor. } { cbn; lia. }
    exists a'. unfold same_storage in *; cbn in *. destruct_and!.
    split_and!; [|done|congruence..].
    unfold mbind_, ar_scope. rewrite Hr1.
    destruct (Z.leb_spec (ar_off a) (ar_off a1)); [done|lia].
Qed.

(** the dry run is sufficient: if an allocation helper with nested scopes succeeds on a
    [WorkspaceLayoutBuilder] and the arena was created with at least [peak_bytes] of suitably
    aligned storage, the same helper succeeds on the arena, leaves it at the same offset and with
    the same peak, and that peak is at most the planned size. *)
Theorem dry_run_sufficient A p w total a :
  script_ok A p -> is_u64 A -> is_power_of_two A = true ->
  run_script p WorkspaceLayoutBuilder_init = (Ok tt, w) -> peak_bytes w A = Ok total ->
  arena_ok A a -> ar_off a = 0 -> ar_peak a = 0 -> total <= ar_cap a ->
  exists a', run_script p a = (Ok tt, a') /\ same_storage a a' /\
    ar_off a' = wl_cursor w /\ ar_peak a' = wl_peak w /\ ar_peak a' <= total.
Proof.
  intros Hok HA Hp Hrun Hpk Hao Ho Hp0 Hcap.
  pose proof (is_power_of_two_pos _ Hp HA) as HA0.
  assert (Hwf : wl_wf WorkspaceLayoutBuilder_init) by (constructor; cbn; unfold_ints; lia).
  destruct (run_script_wl A _ _ _ Hok Hwf Hrun) as ([H1 H2 H3] & _).
  unfold peak_bytes in Hpk. apply align_up_Ok in Hpk as (_ & _ & ->); [|unfold_ints; lia|done].
  pose proof (align_Z_spec (wl_peak w) A HA0) as [Hr _].
  destruct (run_script_sim A _ _ _ a Hok HA0 Hwf Hrun Hao ltac:(by constructor) ltac:(lia))
    as (a' & Hrun' & [Hs1 Hs2] & Hst).
  exists a'. split_and!; [done|apply Hst..|done|done|lia].
Qed.

Definition demo_script : script :=
  SAlloc BF16 [100; 3] 256 (SScope (SAllocBytes 1000 64 (SAlloc FP32 [7] 16 SDone))
    (SAllocBytes 10 256 SDone)).

Lemma dry_run_sufficient_witness :
  exists a', run_script demo_script (mkArena 4096 2048 0 0 true) = (Ok tt, a') /\
    ar_peak a' = 1676.
Proof.
  destruct (dry_run_sufficient 256 demo_script (mkWLB 778 1676) 1792 (mkArena 4096 2048 0 0 true))
    as (a' & H & _ & _ & Hp & _).
  - cbn; by_compute.
  - by_compute.
  - reflexivity.
  - vm_compute; reflexivity.
  - vm_compute; reflexivity.
  - constructor; by_compute.
  - done.
  - done.
  - cbn; lia.
  - by exists a'.
Defined.
