(* ===== verification/PagedKV.v ===== *)
(** * The paged KV pool: [core/paged_kv_cache]

    A [Pool] hands out physical page groups to [Alloc]ations.  Capacity is reserved first
    ([entitlement]) and pages are taken lazily ([materialize]); an allocation bound to a
    block-table row publishes its page ids in device memory.

    Allocation methods run on a [focus]: the pool the allocation points to, the allocation and
    the [int32] cells of device memory.  [store] is the heap of all pools and allocations. *)
From S2P Require Import Prelude Tensor Layout.
#[local] Open Scope Z_scope.

Definition kPagedKVPageSize : Z := 64.

(** ** Data *)

Inductive PagedKVPlaneOrder : Set := PageMajor | HeadMajor.
#[export] Instance PagedKVPlaneOrder_eq_dec : EqDecision PagedKVPlaneOrder.
Proof. solve_decision. Defined.

Record PagedKVPlaneSpec : Set := mkPlaneSpec {
  ps_dtype : DType; ps_leading_extent : Z; ps_head_extent : Z; ps_alignment : Z;
}.

Record PagedKVPoolSpec : Set := mkPoolSpec {
  page_group_count : Z;
  logical_page_capacity : Z;
  table_rows : Z;
  plane_order : PagedKVPlaneOrder;
  planes : list PagedKVPlaneSpec;
}.

Record PagedKVPlaneLayout : Set := mkPlaneLayout {
  pl_spec : PagedKVPlaneSpec; pl_storage : TensorRegion;
}.

Record PagedKVPoolLayout : Set := mkPoolLayout {
  ly_spec : PagedKVPoolSpec;
  ly_planes : list PagedKVPlaneLayout;
  ly_block_tables : TensorRegion;
}.

Record Pool : Set := mkPool {
  spec_ : PagedKVPoolSpec;
  planes_ : list Tensor;
  block_tables_ : Tensor;
  free_page_ids_ : list Z;
  row_in_use_ : list bool;
  entitled_pages_ : Z;
  mapped_pages_ : Z;
}.

(** [PagedKVAllocation]; [pool_] is the pool's address. *)
Record Alloc : Set := mkAlloc {
  pool_ : option Z;
  page_ids_ : list Z;
  page_entitlement_ : Z;
  bound_row_ : Z;
}.

Definition Alloc_default : Alloc := mkAlloc None [] 0 (-1).

(** ** Helpers *)

Definition checked_i32 (value : Z) : result Z :=
  do* throw_if ((value =? 0) || (value >? i32_max)) InvalidArgument; Ok value.

Definition pages_for_tokens (tokens : Z) : Z :=
  if tokens =? 0 then 0 else 1 + (tokens - 1) / kPagedKVPageSize.

(** ** Planning *)

Definition plan_plane (order : PagedKVPlaneOrder) (physical_pages : Z) (plane : PagedKVPlaneSpec)
  : M LayoutBuilder PagedKVPlaneLayout :=
  do! mthrow_if ((ps_leading_extent plane <=? 0) || (ps_head_extent plane <=? 0)) InvalidArgument;
  let! storage :=
    match order with
    | PageMajor =>
        add_tensor (ps_dtype plane)
          [ps_leading_extent plane; kPagedKVPageSize; ps_head_extent plane; physical_pages]
          (ps_alignment plane)
    | HeadMajor =>
        add_tensor (ps_dtype plane)
          [ps_leading_extent plane; kPagedKVPageSize; physical_pages; ps_head_extent plane]
          (ps_alignment plane)
    end in
  mret_ (mkPlaneLayout plane storage).

Definition plan_paged_kv_pool (spec : PagedKVPoolSpec) : M LayoutBuilder PagedKVPoolLayout :=
  let! physical_pages := mlift (checked_i32 (page_group_count spec)) in
  let! logical_pages := mlift (checked_i32 (logical_page_capacity spec)) in
  do! mthrow_if (table_rows spec <=? 0) InvalidArgument;
  do! mthrow_if (bool_decide (planes spec = [])) InvalidArgument;
  let! layouts := mmapM (plan_plane (plane_order spec) physical_pages) (planes spec) in
  let! tables := add_tensor I32 [logical_pages; table_rows spec] 256 in
  mret_ (mkPoolLayout spec layouts tables).

(** [PagedKVPoolLayout::payload_bytes], a [size_t] sum. *)
Definition payload_bytes (l : PagedKVPoolLayout) : Z :=
  foldl (fun total p => u64 (total + lr_bytes (tr_region (pl_storage p)))) 0 (ly_planes l).
Definition metadata_bytes (l : PagedKVPoolLayout) : Z := lr_bytes (tr_region (ly_block_tables l)).

(** ** The pool *)

(** [PagedKVPool::PagedKVPool] *)
Definition bind_plane (backing : DeviceSpan) (pl : PagedKVPlaneLayout * PagedKVPlaneSpec)
  : result Tensor :=
  let '(plane, spec) := pl in
  do* throw_if (negb (bool_decide (ps_dtype (pl_spec plane) = ps_dtype spec) &&
                      (ps_leading_extent (pl_spec plane) =? ps_leading_extent spec) &&
                      (ps_head_extent (pl_spec plane) =? ps_head_extent spec))) LogicError;
  tensor_region_bind (pl_storage plane) backing.

Definition pool_create (backing : DeviceSpan) (layout : PagedKVPoolLayout) : result Pool :=
  let spec := ly_spec layout in
  let* tables := tensor_region_bind (ly_block_tables layout) backing in
  do* throw_if (table_rows spec <? 0) LogicError;        (**r [std::length_error] of [row_in_use_] *)
  do* throw_if (negb (length (ly_planes layout) =? length (planes spec))%nat ||
                bool_decide (ly_planes layout = [])) InvalidArgument;
  let* logical := checked_i32 (logical_page_capacity spec) in
  do* throw_if (negb (bool_decide (dtype tables = I32)) || negb (ne tables !!! 0%nat =? logical) ||
                negb (ne tables !!! 1%nat =? table_rows spec)) LogicError;
  let* bound := rmapM (bind_plane backing) (zip (ly_planes layout) (planes spec)) in
  Ok (mkPool spec bound tables (seqZ 0 (page_group_count spec))
        (replicate (Z.to_nat (table_rows spec)) false) 0 0).

(** [PagedKVPool::block_table_row] *)
Definition block_table_row (p : Pool) (row : Z) : result Tensor :=
  do* throw_if ((row <? 0) || (row >=? table_rows (spec_ p))) OutOfRange;
  let* s := slice (block_tables_ p) 1 row 1 in
  view s [logical_page_capacity (spec_ p)].

Definition free_pages (p : Pool) : Z := Z.of_nat (length (free_page_ids_ p)).

Definition can_reserve (p : Pool) (page_entitlement : Z) : bool :=
  negb (page_entitlement =? 0) && (page_entitlement <=? logical_page_capacity (spec_ p)) &&
  (page_entitlement <=? u32 (page_group_count (spec_ p) - entitled_pages_ p)).

Definition can_replace_entitlement (p : Pool) (old_pages new_pages : Z) : bool :=
  (old_pages <=? entitled_pages_ p) && (new_pages <=? logical_page_capacity (spec_ p)) &&
  (new_pages <=? u32 (page_group_count (spec_ p) - u32 (entitled_pages_ p - old_pages))).

Definition set_free (p : Pool) (free : list Z) (mapped : Z) : Pool :=
  mkPool (spec_ p) (planes_ p) (block_tables_ p) free (row_in_use_ p) (entitled_pages_ p) mapped.
Definition set_rows (p : Pool) (rows : list bool) : Pool :=
  mkPool (spec_ p) (planes_ p) (block_tables_ p) (free_page_ids_ p) rows (entitled_pages_ p)
    (mapped_pages_ p).
Definition set_entitled (p : Pool) (entitled : Z) : Pool :=
  mkPool (spec_ p) (planes_ p) (block_tables_ p) (free_page_ids_ p) (row_in_use_ p) entitled
    (mapped_pages_ p).

(** The lambda [run_at] of [take_pages]: [count] consecutive ids start at index [begin]. *)
Definition run_at (free : list Z) (count begin : nat) : bool :=
  (begin + count <=? length free)%nat &&
  forallb (fun offset => free !!! (begin + offset)%nat =? free !!! begin + Z.of_nat offset)
    (seq 1 (count - 1)).

(** [std::lower_bound] on a sorted range: the index of the first element not below [v]. *)
Fixpoint lower_bound (l : list Z) (v : Z) : nat :=
  match l with
  | [] => 0
  | x :: l' => if x <? v then S (lower_bound l' v) else 0
  end.

(** The index [selected] of [take_pages]; [None] is [free_page_ids_.size()]. *)
Definition select_run (free : list Z) (count : nat) (preferred_first : Z) : option nat :=
  let preferred :=
    if preferred_first >=? 0 then
      let begin := lower_bound free preferred_first in
      match free !! begin with
      | Some x => if (x =? preferred_first) && run_at free count begin then Some begin else None
      | None => None
      end
    else None in
  match preferred with
  | Some begin => Some begin
  | None => List.find (run_at free count) (seq 0 (S (length free - count)))
  end.

(** [PagedKVPool::take_pages] *)
Definition take_pages (count preferred_first : Z) : M Pool (list Z) :=
  if count =? 0 then mret_ [] else
  let! p := mget in
  let free := free_page_ids_ p in
  do! mthrow_if (count >? Z.of_nat (length free)) LogicError;
  let n := Z.to_nat count in
  let begin := default 0%nat (select_run free n preferred_first) in
  do! mput (set_free p (take begin free ++ drop (begin + n) free) (u32 (mapped_pages_ p + count)));
  mret_ (take n (drop begin free)).

(** [PagedKVPool::return_pages] *)
Definition return_pages (p : Pool) (pages : list Z) : Pool :=
  match pages with
  | [] => p
  | _ => set_free p (merge_sort Z.le (free_page_ids_ p ++ pages))
           (u32 (mapped_pages_ p - Z.of_nat (length pages)))
  end.

Definition add_entitlement (p : Pool) (pages : Z) : Pool :=
  set_entitled p (u32 (entitled_pages_ p + pages)).
Definition replace_entitlement (p : Pool) (old_pages new_pages : Z) : Pool :=
  set_entitled p (u32 (u32 (entitled_pages_ p - old_pages) + new_pages)).

(** [PagedKVPool::acquire_row] *)
Definition acquire_row (row : Z) : M Pool unit :=
  let! p := mget in
  do! mthrow_if ((row <? 0) || (row >=? table_rows (spec_ p))) OutOfRange;
  do! mthrow_if (row_in_use_ p !!! Z.to_nat row) LogicError;
  mput (set_rows p (<[Z.to_nat row := true]> (row_in_use_ p))).
Definition release_row (p : Pool) (row : Z) : Pool :=
  set_rows p (<[Z.to_nat row := false]> (row_in_use_ p)).

(** [PagedKVPool::reserve] *)
Definition reserve (addr page_entitlement : Z) : M Pool Alloc :=
  let! p := mget in
  do! mthrow_if (negb (can_reserve p page_entitlement)) BadAlloc;
  do! mput (add_entitlement p page_entitlement);
  mret_ (mkAlloc (Some addr) [] page_entitlement (-1)).

(** One asynchronous memory-set command. *)
Inductive memset_cmd : Set :=
| Memset (dst bytes : Z)
| Memset2D (dst pitch width height : Z).

(** The lambda [zero_run] of [zero_pages]. *)
Definition zero_run (order : PagedKVPlaneOrder) (first count : Z) (plane : Tensor) : memset_cmd :=
  match order with
  | PageMajor => Memset (data plane + first * nb plane !!! 3%nat) (count * nb plane !!! 3%nat)
  | HeadMajor => Memset2D (data plane + first * nb plane !!! 2%nat) (nb plane !!! 3%nat)
                   (count * nb plane !!! 2%nat) (ne plane !!! 3%nat)
  end.

(** The maximal runs of consecutive ids of a sorted list, as (first, count). *)
Fixpoint runs_from (first count : Z) (l : list Z) : list (Z * Z) :=
  match l with
  | [] => [(first, count)]
  | x :: l' => if x =? first + count then runs_from first (count + 1) l'
               else (first, count) :: runs_from x 1 l'
  end.
Definition runs (l : list Z) : list (Z * Z) :=
  match l with [] => [] | x :: l' => runs_from x 1 l' end.

Fixpoint adjacent_equal (l : list Z) : bool :=
  match l with
  | [] => false
  | x :: l' => match l' with
               | [] => false
               | y :: _ => (x =? y) || adjacent_equal l'
               end
  end.

(** [PagedKVPool::zero_pages]: the commands it issues. *)
Definition zero_pages (p : Pool) (page_ids : list Z) : result (list memset_cmd) :=
  match page_ids with
  | [] => Ok []
  | _ =>
      let sorted := merge_sort Z.le page_ids in
      do* throw_if ((sorted !!! 0%nat <? 0) ||
                    (List.last sorted 0 >=? to_i32 (page_group_count (spec_ p)))) OutOfRange;
      do* throw_if (adjacent_equal sorted) InvalidArgument;
      Ok (concat ((fun '(first, count) =>
            zero_run (plane_order (spec_ p)) first count <$> planes_ p) <$> runs sorted))
  end.

(** ** Allocations *)

Record focus : Set := mkFocus { f_pool : Pool; f_alloc : Alloc; f_mem : gmap Z Z }.

Definition f_set_pool (p : Pool) : M focus unit :=
  mmodify (fun f => mkFocus p (f_alloc f) (f_mem f)).
Definition f_set_alloc (a : Alloc) : M focus unit :=
  mmodify (fun f => mkFocus (f_pool f) a (f_mem f)).
(** Run a pool method on the allocation's pool. *)
Definition on_pool {A} (m : M Pool A) : M focus A :=
  fun f => let '(r, p) := m (f_pool f) in (r, mkFocus p (f_alloc f) (f_mem f)).

Definition with_pages (a : Alloc) (pages : list Z) : Alloc :=
  mkAlloc (pool_ a) pages (page_entitlement_ a) (bound_row_ a).
Definition with_entitlement (a : Alloc) (n : Z) : Alloc :=
  mkAlloc (pool_ a) (page_ids_ a) n (bound_row_ a).
Definition with_row (a : Alloc) (row : Z) : Alloc :=
  mkAlloc (pool_ a) (page_ids_ a) (page_entitlement_ a) row.

Definition mapped_page_count (a : Alloc) : Z := Z.of_nat (length (page_ids_ a)).
Definition mapped_token_capacity (a : Alloc) : Z := u32 (mapped_page_count a * kPagedKVPageSize).

(** [PagedKVAllocation::set_page_entitlement] *)
Definition set_page_entitlement (pages : Z) : M focus unit :=
  let! a := mgets f_alloc in
  let! p := mgets f_pool in
  do! mthrow_if (pages <? mapped_page_count a) InvalidArgument;
  do! mthrow_if (negb (can_replace_entitlement p (page_entitlement_ a) pages)) BadAlloc;
  do! f_set_pool (replace_entitlement p (page_entitlement_ a) pages);
  f_set_alloc (with_entitlement a pages).

(** [PagedKVAllocation::cancel_unmapped_entitlement] *)
Definition cancel_unmapped_entitlement : M focus unit :=
  let! a := mgets f_alloc in
  let! p := mgets f_pool in
  let mapped := mapped_page_count a in
  do! f_set_pool (replace_entitlement p (page_entitlement_ a) mapped);
  f_set_alloc (with_entitlement a mapped).

(** [cudaMemcpyAsync] of [int32] values to consecutive device cells. *)
Fixpoint write_cells (mem : gmap Z Z) (dst : Z) (src : list Z) : gmap Z Z :=
  match src with
  | [] => mem
  | x :: src' => write_cells (<[dst := x]> mem) (dst + 4) src'
  end.

(** [PagedKVAllocation::publish_range] *)
Definition publish_range (first_page page_count : Z) : M focus unit :=
  if page_count =? 0 then mret_ tt else
  let! f := mget in
  let! row := mlift (block_table_row (f_pool f) (bound_row_ (f_alloc f))) in
  let source := take (Z.to_nat page_count) (drop (Z.to_nat first_page) (page_ids_ (f_alloc f))) in
  mput (mkFocus (f_pool f) (f_alloc f) (write_cells (f_mem f) (data row + 4 * first_page) source)).

(** [PagedKVAllocation::publish_mapping] *)
Definition publish_mapping : M focus unit :=
  let! a := mgets f_alloc in
  do! mthrow_if (bound_row_ a <? 0) LogicError;
  publish_range 0 (mapped_page_count a).

(** [PagedKVAllocation::materialize_pages] *)
Definition materialize_pages (pages : Z) : M focus unit :=
  let! a := mgets f_alloc in
  do! mthrow_if ((pages <? mapped_page_count a) || (pages >? page_entitlement_ a)) InvalidArgument;
  let old_count := mapped_page_count a in
  let count := pages - old_count in
  if count =? 0 then mret_ tt else
  let preferred := match last (page_ids_ a) with Some x => x + 1 | None => -1 end in
  let! acquired := on_pool (take_pages count preferred) in
  do! f_set_alloc (with_pages a (page_ids_ a ++ acquired));
  if bound_row_ a >=? 0 then publish_range old_count count else mret_ tt.

Definition materialize_tokens (tokens : Z) : M focus unit :=
  materialize_pages (pages_for_tokens tokens).

(** [PagedKVAllocation::trim_pages] *)
Definition trim_pages (pages : Z) : M focus unit :=
  let! a := mgets f_alloc in
  do! mthrow_if (pages >? mapped_page_count a) InvalidArgument;
  if pages =? mapped_page_count a then mret_ tt else
  let! p := mgets f_pool in
  do! f_set_pool (return_pages p (drop (Z.to_nat pages) (page_ids_ a)));
  f_set_alloc (with_pages a (take (Z.to_nat pages) (page_ids_ a))).

Definition trim_tokens (tokens : Z) : M focus unit := trim_pages (pages_for_tokens tokens).

(** [PagedKVAllocation::bind_row] *)
Definition bind_row (row : Z) : M focus unit :=
  let! a := mgets f_alloc in
  do! mthrow_if (bound_row_ a >=? 0) LogicError;
  do! on_pool (acquire_row row);
  do! f_set_alloc (with_row a row);
  publish_mapping.

(** [PagedKVAllocation::unbind_row] *)
Definition unbind_row : M focus unit :=
  let! a := mgets f_alloc in
  if bound_row_ a <? 0 then mret_ tt else
  let! p := mgets f_pool in
  do! f_set_pool (release_row p (bound_row_ a));
  f_set_alloc (with_row a (-1)).

(** [PagedKVAllocation::block_table] *)
Definition block_table (f : focus) : result Tensor :=
  do* throw_if (bound_row_ (f_alloc f) <? 0) LogicError;
  block_table_row (f_pool f) (bound_row_ (f_alloc f)).

(** [PagedKVAllocation::release] *)
Definition release : M focus unit :=
  do! unbind_row;
  let! a := mgets f_alloc in
  let! p := mgets f_pool in
  do! f_set_pool (replace_entitlement (return_pages p (page_ids_ a)) (page_entitlement_ a) 0);
  f_set_alloc (mkAlloc None [] 0 (bound_row_ a)).

(** ** The heap of pools and allocations *)

Record store : Set := mkStore {
  st_pools : gmap Z Pool; st_allocs : gmap Z Alloc; st_mem : gmap Z Z;
}.

(** Call a method of the allocation object [id]; [invalid] is what it does when [pool_] is null. *)
Definition on_alloc {A} (id : Z) (invalid : result A) (m : M focus A) : M store A :=
  fun st =>
    match st_allocs st !! id with
    | None => (Err Abort_, st)                                  (**r no such object *)
    | Some a =>
        match pool_ a with
        | None => (invalid, st)
        | Some q =>
            match st_pools st !! q with
            | None => (Err Abort_, st)                          (**r dangling pool *)
            | Some p =>
                let '(r, f) := m (mkFocus p a (st_mem st)) in
                (r, mkStore (<[q := f_pool f]> (st_pools st)) (<[id := f_alloc f]> (st_allocs st))
                      (f_mem f))
            end
        end
    end.

Definition st_set_page_entitlement (id pages : Z) : M store unit :=
  on_alloc id (Err InvalidArgument) (set_page_entitlement pages).
Definition st_cancel_unmapped_entitlement (id : Z) : M store unit :=
  on_alloc id (Ok tt) cancel_unmapped_entitlement.
Definition st_materialize_pages (id pages : Z) : M store unit :=
  on_alloc id (Err InvalidArgument) (materialize_pages pages).
Definition st_trim_pages (id pages : Z) : M store unit :=
  on_alloc id (Err LogicError) (trim_pages pages).
Definition st_bind_row (id row : Z) : M store unit :=
  on_alloc id (Err LogicError) (bind_row row).
Definition st_publish_mapping (id : Z) : M store unit :=
  on_alloc id (Err LogicError) publish_mapping.
Definition st_unbind_row (id : Z) : M store unit := on_alloc id (Ok tt) unbind_row.
Definition st_release (id : Z) : M store unit := on_alloc id (Ok tt) release.

Definition st_set_alloc (id : Z) (a : Alloc) : M store unit :=
  mmodify (fun st => mkStore (st_pools st) (<[id := a]> (st_allocs st)) (st_mem st)).

(** [PagedKVPool::reserve] on the pool object [q], the result stored in the new object [id]
    (its address is not that of a live object). *)
Definition st_reserve (id q page_entitlement : Z) : M store unit :=
  fun st =>
    match st_pools st !! q, st_allocs st !! id with
    | None, _ | _, Some _ => (Err Abort_, st)
    | Some p, None =>
        match reserve q page_entitlement p with
        | (Ok a, p') => (Ok tt, mkStore (<[q := p']> (st_pools st)) (<[id := a]> (st_allocs st))
                                  (st_mem st))
        | (Err e, p') => (Err e, mkStore (<[q := p']> (st_pools st)) (st_allocs st) (st_mem st))
        end
    end.

(** The move assignment [allocs[dst] = std::move(allocs[src])]. *)
Definition st_move_assign (dst src : Z) : M store unit :=
  if dst =? src then mret_ tt else
  do! st_release dst;
  let! st := mget in
  match st_allocs st !! src with
  | None => mthrow Abort_
  | Some a => do! st_set_alloc dst a; st_set_alloc src Alloc_default
  end.

(** [PagedKVAllocation::~PagedKVAllocation] *)
Definition st_destroy (id : Z) : M store unit :=
  do! st_release id;
  mmodify (fun st => mkStore (st_pools st) (delete id (st_allocs st)) (st_mem st)).

Record PagedKVReservation : Set := mkReservation { rv_pool : option Z; rv_entitlement : Z }.

(** [validate_distinct_pools]; [seen] holds the pools of the earlier reservations. *)
Fixpoint validate_distinct_pools (seen : list Z) (rs : list PagedKVReservation) : result unit :=
  match rs with
  | [] => Ok tt
  | r :: rs' =>
      match rv_pool r with
      | None => Err InvalidArgument
      | Some q =>
          do* throw_if (rv_entitlement r =? 0) InvalidArgument;
          do* throw_if (bool_decide (q ∈ seen)) InvalidArgument;
          validate_distinct_pools (q :: seen) rs'
      end
  end.

Definition check_reservation (st : store) (r : PagedKVReservation) : result unit :=
  match rv_pool r ≫= (fun q => st_pools st !! q) with
  | None => Err Abort_
  | Some p => throw_if (negb (can_reserve p (rv_entitlement r))) BadAlloc
  end.

(** [reserve_paged_kv_bundle]; the new allocation objects get the addresses [ids]. *)
Definition reserve_paged_kv_bundle (rs : list (Z * PagedKVReservation)) : M store unit :=
  do! mlift (validate_distinct_pools [] rs.*2);
  let! st := mget in
  do! mlift (riter (check_reservation st) rs.*2);
  let! _ := mmapM (fun '(id, r) => st_reserve id (default 0 (rv_pool r)) (rv_entitlement r)) rs in
  mret_ tt.

Record PagedKVResize : Set := mkResize {
  rz_allocation : option Z; rz_mapped_pages : Z; rz_entitlement : Z;
}.

(** The validation loop of [resize_paged_kv_bundle]; [seen] holds the allocations and pools of
    the earlier changes. *)
Fixpoint validate_resizes (st : store) (seen : list (Z * Z)) (cs : list PagedKVResize)
  : result unit :=
  match cs with
  | [] => Ok tt
  | c :: cs' =>
      match rz_allocation c with
      | None => Err InvalidArgument
      | Some id =>
          match st_allocs st !! id with
          | None => Err Abort_
          | Some a =>
              match pool_ a with
              | None => Err InvalidArgument
              | Some q =>
                  do* throw_if ((rz_mapped_pages c >? mapped_page_count a) ||
                                (rz_mapped_pages c >? rz_entitlement c)) InvalidArgument;
                  do* throw_if (existsb (fun s => (s.1 =? id) || (s.2 =? q)) seen) InvalidArgument;
                  match st_pools st !! q with
                  | None => Err Abort_
                  | Some p =>
                      do* throw_if (negb (can_replace_entitlement p (page_entitlement_ a)
                                            (rz_entitlement c))) BadAlloc;
                      validate_resizes st ((id, q) :: seen) cs'
                  end
              end
          end
      end
  end.

Definition apply_resize (c : PagedKVResize) : M store unit :=
  let id := default 0 (rz_allocation c) in
  do! st_trim_pages id (rz_mapped_pages c);
  st_set_page_entitlement id (rz_entitlement c).

(** [resize_paged_kv_bundle] *)
Definition resize_paged_kv_bundle (cs : list PagedKVResize) : M store unit :=
  let! st := mget in
  do! mlift (validate_resizes st [] cs);
  let! _ := mmapM apply_resize cs in
  mret_ tt.
