(* ===== verification/PagedKVProofs.v ===== *)
(** * Correctness of the paged KV pool

    The pool invariant relates a pool to the allocations drawn from it; every allocation method
    preserves it, on success and on failure, and so does every step of the heap of pools. *)
From S2P Require Import Prelude Tensor Layout PagedKV.
#[local] Open Scope Z_scope.

(** ** The invariant *)

Definition owned_pages (As : list Alloc) : list Z := concat (page_ids_ <$> As).
Definition sum_Z (l : list Z) : Z := foldr Z.add 0 l.
Definition entitlements (As : list Alloc) : Z := sum_Z (page_entitlement_ <$> As).
Definition bound_rows (As : list Alloc) : list Z := filter (fun r => 0 <= r) (bound_row_ <$> As).

#[local] Arguments owned_pages : simpl never.
#[local] Arguments entitlements : simpl never.
#[local] Arguments bound_rows : simpl never.

(** The device address of entry [i] of block-table row [row]. *)
Definition table_cell (p : Pool) (i row : Z) : Z :=
  data (block_tables_ p) + 4 * (i + logical_page_capacity (spec_ p) * row).

Record alloc_ok (p : Pool) (a : Alloc) : Prop := {
  ao_mapped : mapped_page_count a <= page_entitlement_ a;
  ao_entitled : page_entitlement_ a <= logical_page_capacity (spec_ p);
  ao_row : -1 <= bound_row_ a < table_rows (spec_ p);
}.

(** What the planner and the constructor establish and nothing changes. *)
Record pool_geometry (p : Pool) : Prop := {
  pg_groups : 0 < page_group_count (spec_ p) <= i32_max;
  pg_logical : 0 < logical_page_capacity (spec_ p) <= i32_max;
  pg_rows : 0 < table_rows (spec_ p) <= i32_max;
  pg_addr : 0 < data (block_tables_ p);
  pg_tables : make_tensor (data (block_tables_ p)) I32
                [logical_page_capacity (spec_ p); table_rows (spec_ p)] = Ok (block_tables_ p);
}.

(** The row of a bound allocation holds its page ids. *)
Definition alloc_published (p : Pool) (mem : gmap Z Z) (a : Alloc) : Prop :=
  0 <= bound_row_ a ->
  forall i x, page_ids_ a !! i = Some x ->
    mem !! table_cell p (Z.of_nat i) (bound_row_ a) = Some x.

Record pool_core (p : Pool) (As : list Alloc) : Prop := {
  pi_geom : pool_geometry p;
  pi_pages : free_page_ids_ p ++ owned_pages As ≡ₚ seqZ 0 (page_group_count (spec_ p));
  pi_sorted : StronglySorted Z.le (free_page_ids_ p);
  pi_mapped : mapped_pages_ p = Z.of_nat (length (owned_pages As));
  pi_entitled : entitled_pages_ p = entitlements As;
  pi_capacity : entitled_pages_ p <= page_group_count (spec_ p);
  pi_allocs : Forall (alloc_ok p) As;
  pi_rows_len : length (row_in_use_ p) = Z.to_nat (table_rows (spec_ p));
  pi_rows : forall r, 0 <= r -> (row_in_use_ p !! Z.to_nat r = Some true <-> r ∈ bound_rows As);
  pi_rows_distinct : NoDup (bound_rows As);
}.

Record pool_inv (p : Pool) (mem : gmap Z Z) (As : list Alloc) : Prop := {
  pi_core : pool_core p As;
  pi_published : Forall (alloc_published p mem) As;
}.

(** ** The lists the invariant is about *)

#[export] Instance owned_pages_Proper : Proper (Permutation ==> Permutation) owned_pages.
Proof.
  intros As Bs H. unfold owned_pages.
  induction H; cbn; [done|by apply Permutation_app| |by etrans].
  rewrite !app_assoc. apply Permutation_app; [apply Permutation_app_comm|done].
Qed.
#[export] Instance entitlements_Proper : Proper (Permutation ==> eq) entitlements.
Proof. intros As Bs H; unfold entitlements, sum_Z. induction H; cbn in *; lia. Qed.
#[export] Instance bound_rows_Proper : Proper (Permutation ==> Permutation) bound_rows.
Proof. intros As Bs H; unfold bound_rows. by rewrite H. Qed.

#[export] Instance pool_core_Proper p : Proper (Permutation ==> impl) (pool_core p).
Proof.
  intros As Bs H [H1 H2 H3 H4 H5 H6 H7 H8 H9 H10]. constructor; try done.
  - by rewrite <- H.
  - by rewrite <- H.
  - by rewrite <- H.
  - by rewrite <- H.
  - intros r Hr. by rewrite <- H, H9.
  - by rewrite <- H.
Qed.
#[export] Instance pool_inv_Proper p mem : Proper (Permutation ==> impl) (pool_inv p mem).
Proof. intros As Bs H [H1 H2]. constructor; by rewrite <- H. Qed.

Lemma owned_pages_cons a As : owned_pages (a :: As) = page_ids_ a ++ owned_pages As.
Proof. done. Qed.
Lemma entitlements_cons a As : entitlements (a :: As) = page_entitlement_ a + entitlements As.
Proof. done. Qed.
Lemma bound_rows_cons a As :
  bound_rows (a :: As) = (if decide (0 <= bound_row_ a) then [bound_row_ a] else []) ++ bound_rows As.
Proof. unfold bound_rows. rewrite fmap_cons, filter_cons. by case_decide. Qed.

Lemma bound_rows_with_row a r As :
  bound_rows (with_row a r :: As) = (if decide (0 <= r) then [r] else []) ++ bound_rows As.
Proof. by rewrite bound_rows_cons. Qed.

Lemma owned_le_entitled p As :
  Forall (alloc_ok p) As -> Z.of_nat (length (owned_pages As)) <= entitlements As.
Proof.
  induction 1 as [|a As [Ha _ _] H IH]; [done|].
  rewrite owned_pages_cons, entitlements_cons, length_app, Nat2Z.inj_add.
  unfold mapped_page_count in Ha. lia.
Qed.

Lemma pool_free_count p As :
  pool_core p As ->
  Z.of_nat (length (free_page_ids_ p)) + Z.of_nat (length (owned_pages As)) =
  page_group_count (spec_ p).
Proof.
  intros [[Hg _ _ _ _] Hp _ _ _ _ _ _ _ _]. apply Permutation_length in Hp.
  rewrite length_app, length_seqZ in Hp. lia.
Qed.

Lemma pool_ent_range p a As :
  pool_core p (a :: As) ->
  0 <= mapped_page_count a <= page_entitlement_ a /\
  Z.of_nat (length (owned_pages As)) <= entitlements As /\
  page_entitlement_ a + entitlements As = entitled_pages_ p /\
  mapped_page_count a + Z.of_nat (length (owned_pages As)) = mapped_pages_ p /\
  entitled_pages_ p <= page_group_count (spec_ p) <= i32_max.
Proof.
  intros H. pose proof H as [[Hg _ _ _ _] Hp _ Hm He Hc Ha _ _ _].
  inversion Ha as [|? ? [Hma _ _] Ha']; subst.
  pose proof (owned_le_entitled _ _ Ha'). rewrite entitlements_cons in He.
  rewrite owned_pages_cons, length_app in Hm. unfold mapped_page_count in *. lia.
Qed.

(** ** Pool operations *)

Lemma run_at_bound free n b : run_at free n b = true -> (b + n <= length free)%nat.
Proof. unfold run_at. intros [H%Nat.leb_le _]%andb_true_iff; lia. Qed.

Lemma select_run_run free n pref b : select_run free n pref = Some b -> run_at free n b = true.
Proof.
  unfold select_run. intros H. repeat case_match; simplify_eq; bprop; try done.
  all: match goal with H : List.find _ _ = Some _ |- _ => by apply List.find_some in H as [_ ?] end.
Qed.

Lemma select_run_bound free n pref :
  (n <= length free)%nat -> (default 0%nat (select_run free n pref) + n <= length free)%nat.
Proof.
  intros Hn. destruct (select_run free n pref) as [b|] eqn:Hs; cbn; [|lia].
  by apply select_run_run, run_at_bound in Hs.
Qed.

(** The outcome of [take_pages]: it fails only when too few pages are free. *)
Lemma take_pages_spec p count pref :
  0 <= count -> is_u32 (mapped_pages_ p) -> mapped_pages_ p + count <= u32_max ->
  (count <= free_pages p ->
   exists out l1 l2, take_pages count pref p = (Ok out, set_free p (l1 ++ l2) (mapped_pages_ p + count)) /\
     free_page_ids_ p = l1 ++ out ++ l2 /\ Z.of_nat (length out) = count) /\
  (free_pages p < count -> take_pages count pref p = (Err LogicError, p)).
Proof.
  intros Hc Hm Hmax. unfold take_pages, free_pages. destruct (Z.eqb_spec count 0) as [->|Hc0].
  - split; [|lia]. intros _. exists [], [], (free_page_ids_ p). split_and!; [|done|done].
    cbn. rewrite Z.add_0_r. unfold set_free, mret_; cbn. by destruct p.
  - unfold mbind_, mget, mthrow_if, mlift, mput, mret_. split; intros Hf.
    + destruct (Z.gtb_spec count (Z.of_nat (length (free_page_ids_ p)))); [lia|cbn].
      pose proof (select_run_bound (free_page_ids_ p) (Z.to_nat count) pref ltac:(lia)) as Hb.
      set (b := default 0%nat _) in *.
      eexists _, _, _. split; [|split].
      * rewrite u32_small by (unfold_ints; lia). reflexivity.
      * rewrite <- drop_drop, take_drop. by rewrite take_drop.
      * rewrite length_take, length_drop. lia.
    + destruct (Z.gtb_spec count (Z.of_nat (length (free_page_ids_ p)))); [done|lia].
Qed.

Lemma sorted_remove (l1 out l2 : list Z) :
  StronglySorted Z.le (l1 ++ out ++ l2) -> StronglySorted Z.le (l1 ++ l2).
Proof.
  rewrite !StronglySorted_app. intros (H1 & H2 & _ & _ & H3). split_and!; [|done|done].
  intros x y Hx Hy. apply H1; [done|]. apply elem_of_app; by right.
Qed.

#[local] Instance Zle_total : Total Z.le.
Proof. intros x y. lia. Qed.

Lemma alloc_ok_pool p p' a : alloc_ok p a -> spec_ p' = spec_ p -> alloc_ok p' a.
Proof. intros [H1 H2 H3] E; constructor; by rewrite ?E. Qed.

Lemma pool_geometry_pool p p' :
  pool_geometry p -> spec_ p' = spec_ p -> block_tables_ p' = block_tables_ p -> pool_geometry p'.
Proof. intros [H1 H2 H3 H4 H5] E1 E2; constructor; by rewrite ?E1, ?E2. Qed.

Lemma published_pool p p' mem a :
  alloc_published p mem a -> spec_ p' = spec_ p -> block_tables_ p' = block_tables_ p ->
  alloc_published p' mem a.
Proof. unfold alloc_published, table_cell. intros H -> ->; done. Qed.

(** Pages move between the free list and one allocation. *)
Lemma pool_core_move p a As free pages mapped :
  pool_core p (a :: As) ->
  free ++ pages ≡ₚ free_page_ids_ p ++ page_ids_ a -> StronglySorted Z.le free ->
  mapped = mapped_pages_ p - mapped_page_count a + Z.of_nat (length pages) ->
  Z.of_nat (length pages) <= page_entitlement_ a ->
  pool_core (set_free p free mapped) (with_pages a pages :: As).
Proof.
  intros [H1 H2 H3 H4 H5 H6 H7 H8 H9 H10] Hperm Hsort Hm Hle.
  inversion H7 as [|? ? [Ha1 Ha2 Ha3] H7']; subst.
  unfold mapped_page_count in *. constructor; cbn; try done.
  - by eapply pool_geometry_pool.
  - rewrite owned_pages_cons in *. cbn. by rewrite app_assoc, Hperm, <- app_assoc.
  - rewrite owned_pages_cons, length_app in *. cbn [page_ids_ with_pages]. lia.
  - constructor; [constructor; unfold mapped_page_count; cbn; lia|].
    eapply Forall_impl; [exact H7'|]; intros; by eapply alloc_ok_pool.
Qed.

(** One allocation's entitlement changes. *)
Lemma pool_core_entitle p a As n e :
  pool_core p (a :: As) -> mapped_page_count a <= n <= logical_page_capacity (spec_ p) ->
  e = entitled_pages_ p - page_entitlement_ a + n -> e <= page_group_count (spec_ p) ->
  pool_core (set_entitled p e) (with_entitlement a n :: As).
Proof.
  intros [H1 H2 H3 H4 H5 H6 H7 H8 H9 H10] Hn He Hcap.
  inversion H7 as [|? ? [Ha1 Ha2 Ha3] H7']; subst. constructor; cbn; try done.
  - by eapply pool_geometry_pool.
  - rewrite entitlements_cons in *. cbn [page_entitlement_ with_entitlement]. lia.
  - constructor; [constructor; unfold mapped_page_count in *; cbn; lia|].
    eapply Forall_impl; [exact H7'|]; intros; by eapply alloc_ok_pool.
Qed.

(** One allocation's row changes. *)
Lemma pool_core_row p a As row rows :
  pool_core p (a :: As) -> -1 <= row < table_rows (spec_ p) ->
  length rows = length (row_in_use_ p) ->
  (forall r, 0 <= r -> rows !! Z.to_nat r = Some true <-> r = row \/ r ∈ bound_rows As) ->
  (0 <= row -> row ∉ bound_rows As) ->
  pool_core (set_rows p rows) (with_row a row :: As).
Proof.
  intros [H1 H2 H3 H4 H5 H6 H7 H8 H9 H10] Hr Hlen Hrows Hfresh.
  inversion H7 as [|? ? [Ha1 Ha2 Ha3] H7']; subst. constructor; cbn; try done.
  - by eapply pool_geometry_pool.
  - constructor; [constructor; unfold mapped_page_count in *; cbn; lia|].
    eapply Forall_impl; [exact H7'|]; intros; by eapply alloc_ok_pool.
  - lia.
  - intros r Hr0. rewrite Hrows, bound_rows_with_row by done.
    case_decide; rewrite ?elem_of_app, ?list_elem_of_singleton; [done|]. set_solver by lia.
  - rewrite bound_rows_with_row. rewrite bound_rows_cons in H10.
    apply NoDup_app in H10 as (_ & _ & H10). case_decide; [|done].
    apply NoDup_cons; auto.
Qed.

Lemma return_pages_eq p pages :
  is_u32 (mapped_pages_ p) -> Z.of_nat (length pages) <= mapped_pages_ p ->
  StronglySorted Z.le (free_page_ids_ p) ->
  exists free, return_pages p pages = set_free p free (mapped_pages_ p - Z.of_nat (length pages)) /\
    free ≡ₚ free_page_ids_ p ++ pages /\ StronglySorted Z.le free.
Proof.
  intros Hm Hl Hs. destruct pages as [|x pages]; cbn [return_pages].
  - exists (free_page_ids_ p). cbn. rewrite app_nil_r, Z.sub_0_r. split_and!; [by destruct p|done|done].
  - exists (merge_sort Z.le (free_page_ids_ p ++ x :: pages)). split_and!.
    + by rewrite u32_small by (unfold_ints; lia).
    + apply merge_sort_Permutation.
    + apply (StronglySorted_merge_sort _).
Qed.

(** ** The block table *)

Lemma table_strides p :
  pool_geometry p ->
  let L := logical_page_capacity (spec_ p) in let R := table_rows (spec_ p) in
  ne (block_tables_ p) = [L; R; 1; 1] /\
  nb (block_tables_ p) = [4; 4 * L; 4 * (L * R); 4 * (L * R)] /\
  dtype (block_tables_ p) = I32 /\ 4 * (L * R) <= i64_max.
Proof.
  intros [Hg Hl Hr Ha Ht] L R. apply make_tensor_Ok in Ht as (_ & _ & _ & Hd & Hne & Hlen & Hmax & Hnb).
  assert (Hn : ne (block_tables_ p) = [L; R; 1; 1]) by (rewrite Hne; reflexivity).
  rewrite Hn in Hnb. rewrite Hd in *.
  pose proof (Hnb 0%nat ltac:(lia)) as B0. pose proof (Hnb 1%nat ltac:(lia)) as B1.
  pose proof (Hnb 2%nat ltac:(lia)) as B2. pose proof (Hnb 3%nat ltac:(lia)) as B3.
  destruct (nb (block_tables_ p)) as [|b0 [|b1 [|b2 [|b3 [|]]]]]; try done.
  cbn in B0, B1, B2, B3. simplify_eq.
  split_and!; [done|repeat f_equal; lia|done|].
  rewrite !Forall_cons in Hmax. lia.
Qed.

#[local] Arguments checked_mul_i64 : simpl never.

Lemma mul_i64_eq a b : 0 <= a -> 0 <= b -> a * b <= i64_max -> checked_mul_i64 a b = Ok (a * b).
Proof. intros. by apply checked_mul_i64_Ok. Qed.

Lemma numel_vector n : 0 < n <= i32_max -> shape_numel [n; 1; 1; 1] = Ok n.
Proof.
  intros Hn. unfold shape_numel. cbn [shape_numel_from]. unfold_ints.
  destruct (Z.leb_spec n 0); [lia|]. cbn [throw_if rbind Z.leb Z.compare].
  rewrite mul_i64_eq by (unfold_ints; lia). cbn [rbind].
  do 3 (rewrite mul_i64_eq by (unfold_ints; lia); cbn [rbind]). f_equal. lia.
Qed.

Lemma make_vector p n :
  0 < n <= i32_max -> make_tensor p I32 [n] = Ok (mkTensor p I32 [n; 1; 1; 1] [4; 4 * n; 4 * n; 4 * n]).
Proof.
  intros Hn. unfold make_tensor, normalize_shape, set_contiguous_strides. cbn. unfold_ints.
  destruct (Z.leb_spec n 0); [lia|]. cbn.
  do 3 (rewrite mul_i64_eq by (unfold_ints; lia); cbn [rbind]). do 2 f_equal. repeat (f_equal; try lia).
Qed.

#[local] Arguments shape_numel : simpl never.
#[local] Arguments make_tensor : simpl never.
#[local] Arguments view : simpl never.

Lemma view_vector p n b1 b2 b3 :
  0 < n <= i32_max ->
  view (mkTensor p I32 [n; 1; 1; 1] [4; b1; b2; b3]) [n] =
  Ok (mkTensor p I32 [n; 1; 1; 1] [4; 4 * n; 4 * n; 4 * n]).
Proof.
  intros Hn. unfold view, is_contiguous, normalize_shape, numel. cbn.
  destruct (Z.leb_spec n 0); [lia|]. rewrite ?andb_false_r. cbn.
  rewrite mul_i64_eq by (unfold_ints; lia). rewrite make_vector, numel_vector by done.
  destruct (n =? 1); cbn; by rewrite Z.eqb_refl.
Qed.

(** Row [row] of the table is a view of its cells. *)
Lemma block_table_row_Ok p row :
  pool_geometry p -> 0 <= row < table_rows (spec_ p) ->
  exists t, block_table_row p row = Ok t /\ data t = table_cell p 0 row /\ dtype t = I32 /\
    ne t = [logical_page_capacity (spec_ p); 1; 1; 1] /\ nb t !!! 0%nat = 4.
Proof.
  intros Hg Hr. pose proof (table_strides p Hg) as (Hne & Hnb & Hd & Hmax).
  destruct Hg as [Hg Hl HR Ha Ht].
  set (L := logical_page_capacity (spec_ p)) in *. set (R := table_rows (spec_ p)) in *.
  unfold block_table_row. fold R L.
  destruct (Z.ltb_spec row 0), (Z.geb_spec row R); try lia; cbn [orb throw_if rbind].
  unfold slice. rewrite Hne, Hnb. change (Z.to_nat 1) with 1%nat. simpl.
  destruct (Z.ltb_spec row 0), (Z.gtb_spec row R), (Z.gtb_spec 1 (R - row)); try lia; simpl.
  assert (row * (4 * L) <= i64_max) by nia.
  rewrite mul_i64_eq by lia. cbn.
  destruct (Z.eqb_spec (data (block_tables_ p)) 0); [lia|].
  rewrite Hd, view_vector by done.
  eexists; split; [reflexivity|]; cbn; unfold table_cell; fold L; split_and!; try done; lia.
Qed.

(** ** Publishing *)

Lemma write_cells_out mem dst src c :
  (forall i, (i < length src)%nat -> c <> dst + 4 * Z.of_nat i) ->
  write_cells mem dst src !! c = mem !! c.
Proof.
  revert mem dst; induction src as [|x src IH]; intros mem dst Hc; cbn; [done|].
  rewrite IH.
  - rewrite lookup_insert_ne; [done|]. specialize (Hc 0%nat ltac:(cbn; lia)). lia.
  - intros i Hi. specialize (Hc (S i) ltac:(cbn; lia)). lia.
Qed.

Lemma write_cells_in mem dst src i x :
  src !! i = Some x -> write_cells mem dst src !! (dst + 4 * Z.of_nat i) = Some x.
Proof.
  revert mem dst i; induction src as [|y src IH]; intros mem dst i Hi; [done|].
  destruct i as [|i]; cbn in *; simplify_eq.
  - rewrite Z.add_0_r, write_cells_out by (intros; lia). by rewrite lookup_insert_eq.
  - replace (dst + 4 * Z.of_nat (S i)) with (dst + 4 + 4 * Z.of_nat i) by lia. by apply IH.
Qed.

Lemma table_cell_inj p i i' r r' :
  0 <= i < logical_page_capacity (spec_ p) -> 0 <= i' < logical_page_capacity (spec_ p) ->
  table_cell p i r = table_cell p i' r' -> i = i' /\ r = r'.
Proof. unfold table_cell. intros Hi Hi' H. assert (r = r') by nia. subst; lia. Qed.

(** The bytes of the pool's block tables. *)
Definition in_table (p : Pool) (c : Z) : Prop :=
  data (block_tables_ p) <= c <
  data (block_tables_ p) + 4 * (logical_page_capacity (spec_ p) * table_rows (spec_ p)).

Lemma table_cell_in p i r :
  0 <= i < logical_page_capacity (spec_ p) -> 0 <= r < table_rows (spec_ p) ->
  in_table p (table_cell p i r).
Proof. unfold in_table, table_cell. intros. split; nia. Qed.

(** What a method on one allocation leaves alone. *)
Record frame (f f' : focus) : Prop := {
  fr_spec : spec_ (f_pool f') = spec_ (f_pool f);
  fr_tables : block_tables_ (f_pool f') = block_tables_ (f_pool f);
  fr_planes : planes_ (f_pool f') = planes_ (f_pool f);
  fr_mem : forall c, ~ in_table (f_pool f) c -> f_mem f' !! c = f_mem f !! c;
}.

Definition finv (As : list Alloc) (f : focus) : Prop :=
  pool_inv (f_pool f) (f_mem f) (f_alloc f :: As).

Definition op_safe (m : M focus unit) : Prop :=
  forall As f r f', finv As f -> m f = (r, f') ->
    finv As f' /\ frame f f' /\ pool_ (f_alloc f') = pool_ (f_alloc f).

Lemma frame_refl f : frame f f.
Proof. by constructor. Qed.
#[local] Hint Resolve frame_refl : core.

(** [publish_range] makes the row agree with the page ids, if it did up to [first]. *)
Lemma publish_range_spec As f first count :
  pool_core (f_pool f) (f_alloc f :: As) ->
  Forall (alloc_published (f_pool f) (f_mem f)) As ->
  0 <= bound_row_ (f_alloc f) -> 0 <= first -> 0 <= count ->
  first + count = mapped_page_count (f_alloc f) ->
  alloc_published (f_pool f) (f_mem f)
    (with_pages (f_alloc f) (take (Z.to_nat first) (page_ids_ (f_alloc f)))) ->
  exists mem', publish_range first count f = (Ok tt, mkFocus (f_pool f) (f_alloc f) mem') /\
    finv As (mkFocus (f_pool f) (f_alloc f) mem') /\
    frame f (mkFocus (f_pool f) (f_alloc f) mem').
Proof.
  intros Hcore Hpub Hb Hf Hc Hsum Hpre. pose proof Hcore as [Hg _ _ _ _ _ Ha _ _ Hnd].
  inversion Ha as [|? ? [Ha1 Ha2 Ha3] Ha']; subst. unfold mapped_page_count in *.
  destruct f as [p a mem]; cbn in *. unfold publish_range, finv.
  destruct (Z.eqb_spec count 0) as [->|Hc0].
  - exists mem. split_and!; [done| |done]. split; [done|]. constructor; [|done].
    intros _ i x Hi. apply Hpre; [done|]. cbn. rewrite take_ge by lia. done.
  - destruct (block_table_row_Ok p (bound_row_ a) Hg ltac:(lia)) as (t & Ht & Hd & _).
    unfold mbind_, mget, mlift, mput; cbn. rewrite Ht. eexists; split; [reflexivity|].
    set (src := take _ (drop _ _)).
    assert (Hsrc : forall i, src !! i = if (i <? Z.to_nat count)%nat then
      page_ids_ a !! (Z.to_nat first + i)%nat else None).
    { intros i. unfold src. rewrite lookup_take, lookup_drop.
      destruct (Nat.ltb_spec i (Z.to_nat count)); case_decide; [done|lia|lia|done]. }
    assert (Hlen : length src = Z.to_nat count) by (unfold src; rewrite length_take, length_drop; lia).
    assert (Hcell : forall i, data t + 4 * first + 4 * i = table_cell p (first + i) (bound_row_ a))
      by (intros i; rewrite Hd; unfold table_cell; lia).
    assert (Hout : forall i r, 0 <= i < logical_page_capacity (spec_ p) ->
      (r <> bound_row_ a \/ i < first) ->
      write_cells mem (data t + 4 * first) src !! table_cell p i r = mem !! table_cell p i r).
    { intros i r Hi Hne. apply write_cells_out. intros j Hj Heq. rewrite Hcell in Heq.
      apply table_cell_inj in Heq; lia. }
    split_and!; [constructor; [done|]|].
    + constructor.
      * intros _ i x Hi. pose proof (lookup_lt_Some _ _ _ Hi).
        destruct (decide (Z.of_nat i < first)) as [Hlt|Hge].
        -- rewrite Hout by lia. apply Hpre; [done|]. cbn. rewrite lookup_take.
           by rewrite decide_True by lia.
        -- replace (Z.of_nat i) with (first + Z.of_nat (i - Z.to_nat first)) by lia.
           rewrite <- Hcell. apply write_cells_in. rewrite Hsrc.
           destruct (Nat.ltb_spec (i - Z.to_nat first) (Z.to_nat count)); [|lia].
           by replace (Z.to_nat first + (i - Z.to_nat first))%nat with i by lia.
      * rewrite Forall_forall in Hpub |- *. intros b Hin Hbb i x Hi. rewrite Hout.
        -- by apply Hpub.
        -- rewrite Forall_forall in Ha'. destruct (Ha' _ Hin) as [H1 H2 _].
           unfold mapped_page_count in *. pose proof (lookup_lt_Some _ _ _ Hi). lia.
        -- left. intros Heq. rewrite bound_rows_cons, decide_True in Hnd by done.
           apply NoDup_cons in Hnd as [Hnin _]. apply Hnin. unfold bound_rows.
           apply list_elem_of_filter. rewrite <- Heq. split; [lia|]. apply list_elem_of_fmap; eauto.
    + constructor; cbn; try done. intros c Hc1. apply write_cells_out. intros i Hi ->. apply Hc1.
      rewrite Hcell. apply table_cell_in; lia.
Qed.

(** ** Every allocation method preserves the invariant *)

#[local] Arguments replace_entitlement : simpl never.
#[local] Arguments can_replace_entitlement : simpl never.
#[local] Arguments take_pages : simpl never.
#[local] Arguments return_pages : simpl never.
#[local] Arguments publish_range : simpl never.
#[local] Arguments acquire_row : simpl never.
#[local] Arguments materialize_pages : simpl never.
#[local] Arguments release_row : simpl never.

#[local] Ltac run_op :=
  unfold f_set_pool, f_set_alloc, mthrow_if, mbind_, mgets, mget, mlift, mput, mmodify, mret_ in *;
  cbn in *.

Lemma can_replace_spec p old new :
  is_u32 (entitled_pages_ p) -> is_u32 (page_group_count (spec_ p)) ->
  entitled_pages_ p <= page_group_count (spec_ p) -> 0 <= old -> 0 <= new ->
  can_replace_entitlement p old new = true <->
  old <= entitled_pages_ p /\ new <= logical_page_capacity (spec_ p) /\
  entitled_pages_ p - old + new <= page_group_count (spec_ p).
Proof.
  intros He Hg Hle Ho Hn. unfold can_replace_entitlement. unfold_ints.
  destruct (Z.leb_spec old (entitled_pages_ p)); cbn; [|split; [done|lia]].
  rewrite (u32_small (_ - old)), u32_small by (unfold_ints; lia).
  rewrite andb_true_iff, !Z.leb_le. lia.
Qed.

Lemma replace_entitlement_eq p old new :
  0 <= old <= entitled_pages_ p -> is_u32 (entitled_pages_ p) -> 0 <= new ->
  entitled_pages_ p - old + new <= u32_max ->
  replace_entitlement p old new = set_entitled p (entitled_pages_ p - old + new).
Proof.
  intros. unfold replace_entitlement.
  by rewrite (u32_small (_ - old)), u32_small by (unfold_ints; lia).
Qed.

Lemma published_ext p p' mem a a' :
  alloc_published p mem a -> spec_ p' = spec_ p -> block_tables_ p' = block_tables_ p ->
  page_ids_ a' = page_ids_ a -> bound_row_ a' = bound_row_ a -> alloc_published p' mem a'.
Proof. unfold alloc_published, table_cell. by intros H -> -> -> ->. Qed.

Lemma published_pools p p' mem As :
  Forall (alloc_published p mem) As -> spec_ p' = spec_ p -> block_tables_ p' = block_tables_ p ->
  Forall (alloc_published p' mem) As.
Proof. intros H E1 E2. eapply Forall_impl; [exact H|]. intros; by eapply published_pool. Qed.

Lemma published_prefix p mem a n :
  alloc_published p mem a -> alloc_published p mem (with_pages a (take n (page_ids_ a))).
Proof.
  intros H Hb i x Hi. cbn in *. apply H; [done|]. rewrite lookup_take in Hi. by case_decide.
Qed.

Lemma set_page_entitlement_safe pages : is_u32 pages -> op_safe (set_page_entitlement pages).
Proof.
  intros Hp As f r f' [Hc Hpub] H. pose proof (pool_ent_range _ _ _ Hc).
  pose proof (pi_geom _ _ Hc) as [Hg Hl _ _ _]. inversion Hpub as [|? ? Hpa Hps]; subst.
  unfold set_page_entitlement in H. run_op.
  destruct (Z.ltb_spec pages (mapped_page_count (f_alloc f))); cbn in H; simplify_eq.
  { split_and!; [by split|done|done]. }
  destruct (can_replace_entitlement _ _ _) eqn:Hr; cbn in H; simplify_eq.
  2: { split_and!; [by split|done|done]. }
  apply can_replace_spec in Hr as (Hr1 & Hr2 & Hr3); [|unfold_ints; lia..].
  rewrite replace_entitlement_eq by (unfold_ints; lia).
  split_and!; [|by constructor|done]. split; cbn.
  - by eapply pool_core_entitle; [done|lia|lia|lia].
  - constructor; [by eapply published_ext|by eapply published_pools].
Qed.

Lemma cancel_unmapped_entitlement_safe : op_safe cancel_unmapped_entitlement.
Proof.
  intros As f r f' [Hc Hpub] H. pose proof (pool_ent_range _ _ _ Hc).
  pose proof Hc as [[Hg Hl _ _ _] _ _ _ _ _ Ha _ _ _]. inversion Hpub as [|? ? Hpa Hps]; subst.
  inversion Ha as [|? ? [Ha1 Ha2 _] _]; subst.
  unfold cancel_unmapped_entitlement in H. run_op. simplify_eq.
  rewrite replace_entitlement_eq by (unfold_ints; lia).
  split_and!; [|by constructor|done]. split; cbn.
  - by eapply pool_core_entitle; [done|lia|lia|lia].
  - constructor; [by eapply published_ext|by eapply published_pools].
Qed.

(** Within its entitlement an allocation can always be extended. *)
Lemma materialize_pages_spec As f pages :
  finv As f -> mapped_page_count (f_alloc f) <= pages <= page_entitlement_ (f_alloc f) ->
  exists f' acquired, materialize_pages pages f = (Ok tt, f') /\ finv As f' /\ frame f f' /\
    f_alloc f' = with_pages (f_alloc f) (page_ids_ (f_alloc f) ++ acquired) /\
    mapped_page_count (f_alloc f') = pages.
Proof.
  intros [Hc Hpub] Hrange. pose proof (pool_ent_range _ _ _ Hc) as (R1 & R2 & R3 & R4 & R5).
  pose proof (pool_free_count _ _ Hc) as Hfree. pose proof Hc as [Hg _ Hsort _ _ _ Ha _ _ _].
  inversion Hpub as [|? ? Hpa Hps]; subst.
  unfold materialize_pages. run_op.
  destruct (Z.ltb_spec pages (mapped_page_count (f_alloc f))); [lia|].
  destruct (Z.gtb_spec pages (page_entitlement_ (f_alloc f))); [lia|]. cbn.
  destruct (Z.eqb_spec (pages - mapped_page_count (f_alloc f)) 0) as [Heq|Hne].
  - exists f, []. split_and!; [done|by split|done|rewrite app_nil_r; by destruct f as [? []]|lia].
  - set (pref := match last _ with Some _ => _ | None => _ end).
    rewrite owned_pages_cons, length_app in Hfree.
    destruct (take_pages_spec (f_pool f) (pages - mapped_page_count (f_alloc f)) pref
      ltac:(lia) ltac:(unfold_ints; lia) ltac:(unfold_ints; lia)) as [Htake _].
    destruct Htake as (out & l1 & l2 & Htake & Hl & Hlen); [unfold free_pages, mapped_page_count in *; lia|].
    unfold on_pool. rewrite Htake. cbn.
    set (p1 := set_free _ _ _). set (a1 := with_pages _ _).
    assert (Hc1 : pool_core p1 (a1 :: As)).
    { apply pool_core_move; [done| | | |].
      - rewrite Hl. rewrite <- app_assoc. solve_Permutation.
      - rewrite Hl in Hsort. by eapply sorted_remove.
      - rewrite length_app. unfold mapped_page_count in *. lia.
      - rewrite length_app. unfold mapped_page_count in *. lia. }
    assert (Hcnt : mapped_page_count a1 = pages)
      by (unfold mapped_page_count in *; subst a1; cbn; rewrite length_app; lia).
    destruct (Z.geb_spec (bound_row_ (f_alloc f)) 0) as [Hb|Hb].
    + destruct (publish_range_spec As (mkFocus p1 a1 (f_mem f)) (mapped_page_count (f_alloc f))
        (pages - mapped_page_count (f_alloc f))) as (mem' & Hpr & Hinv & Hfr).
      * done.
      * by eapply published_pools.
      * done.
      * lia.
      * lia.
      * cbn. lia.
      * cbn. rewrite take_app_le, take_ge by (unfold mapped_page_count; lia).
        by eapply published_ext.
      * rewrite Hpr. eexists _, out. split_and!; [reflexivity|done| |done|done].
        destruct Hfr; by constructor.
    + eexists _, out. split_and!; [reflexivity| |by constructor|done|done].
      split; cbn; [done|]. constructor; [intros Hb'; cbn in *; lia|by eapply published_pools].
Qed.

Lemma materialize_pages_safe pages : op_safe (materialize_pages pages).
Proof.
  intros As f r f' Hinv H.
  destruct (decide (mapped_page_count (f_alloc f) <= pages <= page_entitlement_ (f_alloc f))) as [Hr|Hr].
  - destruct (materialize_pages_spec As f pages Hinv Hr) as (f2 & out & H2 & Hi & Hf & Ha & _).
    rewrite H2 in H. simplify_eq. split_and!; [done..|by rewrite Ha].
  - unfold materialize_pages in H. run_op.
    destruct (Z.ltb_spec pages (mapped_page_count (f_alloc f))),
      (Z.gtb_spec pages (page_entitlement_ (f_alloc f))); try lia; cbn in H; simplify_eq; by split_and!.
Qed.

Lemma trim_pages_safe pages : 0 <= pages -> op_safe (trim_pages pages).
Proof.
  intros Hp As f r f' [Hc Hpub] H. pose proof (pool_ent_range _ _ _ Hc) as (R1 & R2 & R3 & R4 & R5).
  pose proof Hc as [Hg _ Hsort _ _ _ _ _ _ _]. inversion Hpub as [|? ? Hpa Hps]; subst.
  unfold trim_pages in H. run_op.
  destruct (Z.gtb_spec pages (mapped_page_count (f_alloc f))); cbn in H; simplify_eq.
  { by split_and!. }
  destruct (Z.eqb_spec pages (mapped_page_count (f_alloc f))); simplify_eq; [by split_and!|].
  unfold mapped_page_count in *.
  destruct (return_pages_eq (f_pool f) (drop (Z.to_nat pages) (page_ids_ (f_alloc f))))
    as (free & Hret & Hperm & Hs); [unfold_ints; lia|rewrite length_drop; lia|done|].
  rewrite Hret. split_and!; [|by constructor|done]. split; cbn.
  - apply pool_core_move; [done| |done| |].
    + rewrite Hperm, <- app_assoc. f_equiv. rewrite Permutation_app_comm. by rewrite take_drop.
    + unfold mapped_page_count. rewrite length_drop, length_take. lia.
    + rewrite length_take. lia.
  - constructor; [|by eapply published_pools].
    eapply published_pool; [by apply published_prefix|done|done].
Qed.

Lemma publish_mapping_safe : op_safe publish_mapping.
Proof.
  intros As f r f' Hinv H. pose proof Hinv as [Hc Hpub]. inversion Hpub as [|? ? Hpa Hps]; subst.
  unfold publish_mapping in H. run_op.
  destruct (Z.ltb_spec (bound_row_ (f_alloc f)) 0); cbn in H; simplify_eq; [by split_and!|].
  destruct (publish_range_spec As f 0 (mapped_page_count (f_alloc f))) as (mem' & Hr & Hi & Hf);
    try done; try (unfold mapped_page_count; lia).
  rewrite Hr in H. simplify_eq. by split_and!.
Qed.

Lemma fresh_row p a As row :
  pool_core p (a :: As) -> row_in_use_ p !!! Z.to_nat row = false ->
  0 <= row < table_rows (spec_ p) -> row ∉ bound_rows (a :: As).
Proof.
  intros [_ _ _ _ _ _ _ Hlen Hrows _] Hf Hr2 Hin. apply Hrows in Hin; [|lia].
  by rewrite (list_lookup_total_correct _ _ _ Hin) in Hf.
Qed.

Lemma lookup_row_insert (rows : list bool) row v r :
  0 <= row -> (Z.to_nat row < length rows)%nat -> 0 <= r ->
  <[Z.to_nat row := v]> rows !! Z.to_nat r =
  if decide (r = row) then Some v else rows !! Z.to_nat r.
Proof.
  intros. case_decide; subst; [by apply list_lookup_insert_eq|].
  rewrite list_lookup_insert_ne by lia. done.
Qed.

(** Binding an unbound allocation succeeds exactly on a free row of the table. *)
Lemma bind_row_spec As f row :
  finv As f -> bound_row_ (f_alloc f) < 0 -> 0 <= row < table_rows (spec_ (f_pool f)) ->
  row_in_use_ (f_pool f) !!! Z.to_nat row = false ->
  exists f', bind_row row f = (Ok tt, f') /\ finv As f' /\ frame f f' /\
    f_alloc f' = with_row (f_alloc f) row.
Proof.
  intros [Hc Hpub] Hb Hr Hfree. inversion Hpub as [|? ? Hpa Hps]; subst.
  pose proof (fresh_row _ _ _ _ Hc Hfree Hr) as Hnin.
  pose proof Hc as [_ _ _ _ _ _ _ Hlen Hrows _].
  unfold bind_row, on_pool. run_op. destruct (Z.geb_spec (bound_row_ (f_alloc f)) 0); [lia|cbn].
  unfold acquire_row. run_op.
  destruct (Z.ltb_spec row 0), (Z.geb_spec row (table_rows (spec_ (f_pool f)))); try lia.
  cbn. rewrite Hfree. cbn.
  set (p1 := set_rows _ _). set (a1 := with_row _ _).
  assert (Hc1 : pool_core p1 (a1 :: As)).
  { apply pool_core_row; [done|lia|by rewrite length_insert| |].
    - intros r Hr0. rewrite lookup_row_insert by lia. case_decide; [naive_solver|].
      rewrite Hrows by done. rewrite bound_rows_cons, decide_False by lia. naive_solver.
    - intros _. rewrite bound_rows_cons, decide_False in Hnin by lia. done. }
  unfold publish_mapping. run_op. destruct (Z.ltb_spec row 0); [lia|cbn].
  destruct (publish_range_spec As (mkFocus p1 a1 (f_mem f)) 0 (mapped_page_count a1))
    as (mem' & Hpr & Hinv & Hfr).
  - done.
  - by eapply published_pools.
  - cbn. lia.
  - done.
  - unfold mapped_page_count; lia.
  - done.
  - by intros _ i x Hi.
  - rewrite Hpr. eexists. split_and!; [reflexivity|done| |done]. destruct Hfr; by constructor.
Qed.

Lemma bind_row_safe row : op_safe (bind_row row).
Proof.
  intros As f r f' Hinv H.
  destruct (Z.ltb_spec (bound_row_ (f_alloc f)) 0) as [Hb|Hb].
  2:{ unfold bind_row in H. run_op. destruct (Z.geb_spec (bound_row_ (f_alloc f)) 0); [|lia].
      cbn in H. simplify_eq. by split_and!. }
  destruct (decide (0 <= row < table_rows (spec_ (f_pool f)))) as [Hr|Hr];
    [destruct (row_in_use_ (f_pool f) !!! Z.to_nat row) eqn:Hu|].
  2:{ destruct (bind_row_spec As f row Hinv Hb Hr Hu) as (f2 & H2 & Hi & Hf & Ha).
      rewrite H2 in H. simplify_eq. split_and!; [done..|by rewrite Ha]. }
  all: unfold bind_row, on_pool, acquire_row in H; run_op;
    destruct (Z.geb_spec (bound_row_ (f_alloc f)) 0); [lia|cbn in H];
    destruct (Z.ltb_spec row 0), (Z.geb_spec row (table_rows (spec_ (f_pool f)))); try lia;
    cbn in H; rewrite ?Hu in H; cbn in H; simplify_eq; by destruct f.
Qed.

Lemma unbind_row_spec As f :
  finv As f -> exists p', unbind_row f = (Ok tt, mkFocus p' (with_row (f_alloc f) (-1)) (f_mem f)) /\
    finv As (mkFocus p' (with_row (f_alloc f) (-1)) (f_mem f)) /\
    frame f (mkFocus p' (with_row (f_alloc f) (-1)) (f_mem f)) .
Proof.
  intros [Hc Hpub]. inversion Hpub as [|? ? Hpa Hps]; subst.
  pose proof Hc as [_ _ _ _ _ _ Ha Hlen Hrows Hnd]. inversion Ha as [|? ? [_ _ Hrow] _]; subst.
  unfold unbind_row. run_op. destruct (Z.ltb_spec (bound_row_ (f_alloc f)) 0) as [Hb|Hb].
  - assert (Hrw : with_row (f_alloc f) (-1) = f_alloc f).
    { destruct f as [p [] mem]; cbn in *. unfold with_row; cbn. f_equal; lia. }
    exists (f_pool f). rewrite Hrw. destruct f; by split_and!.
  - rewrite bound_rows_cons, decide_True in Hnd by done. apply NoDup_cons in Hnd as [Hnin _].
    eexists. split_and!; [reflexivity| |by constructor]. split; cbn.
    + apply pool_core_row; [done|lia|by rewrite length_insert| |lia].
      intros r Hr0. rewrite lookup_row_insert by lia. case_decide; subst.
      * split; [done|]. intros [?|?]; [lia|done].
      * rewrite Hrows by done. rewrite bound_rows_cons, decide_True by done.
        rewrite elem_of_app, list_elem_of_singleton. naive_solver lia.
    + constructor; [intros Hb'; cbn in Hb'; lia|by eapply published_pools].
Qed.

Lemma unbind_row_safe : op_safe unbind_row.
Proof.
  intros As f r f' Hinv H. destruct (unbind_row_spec As f Hinv) as (p' & H2 & Hi & Hf).
  rewrite H2 in H. by simplify_eq.
Qed.

(** [release] gives everything back. *)
Lemma release_spec As f :
  finv As f -> exists p', release f = (Ok tt, mkFocus p' Alloc_default (f_mem f)) /\
    pool_inv p' (f_mem f) As /\ frame f (mkFocus p' Alloc_default (f_mem f)).
Proof.
  intros Hinv. destruct (unbind_row_spec As f Hinv) as (p1 & H1 & [Hc Hpub] & Hf).
  cbn in Hc, Hpub. inversion Hpub as [|? ? _ Hps]; subst.
  pose proof (pool_ent_range _ _ _ Hc) as (R1 & R2 & R3 & R4 & R5).
  pose proof Hc as [Hg _ Hsort _ _ _ _ _ _ _]. set (a1 := with_row (f_alloc f) (-1)) in *.
  unfold release, mbind_ at 1. rewrite H1. run_op. change (page_ids_ (f_alloc f)) with (page_ids_ a1).
  unfold mapped_page_count in *.
  destruct (return_pages_eq p1 (page_ids_ a1)) as (free & Hret & Hperm & Hs);
    [unfold_ints; lia|lia|done|].
  rewrite Hret. change (page_entitlement_ (f_alloc f)) with (page_entitlement_ a1).
  assert (Hc2 : pool_core (set_free p1 free (mapped_pages_ p1 - Z.of_nat (length (page_ids_ a1))))
                  (with_pages a1 [] :: As)).
  { apply pool_core_move; [done|by rewrite app_nil_r|done| |cbn; lia].
    unfold mapped_page_count; cbn; lia. }
  rewrite replace_entitlement_eq by (cbn; unfold_ints; lia).
  eexists. split_and!; [reflexivity| |].
  - assert (Hc3 := Hc2). eapply (pool_core_entitle _ _ _ 0) in Hc3; [|unfold mapped_page_count; destruct Hg; cbn; lia|reflexivity|cbn; lia].
    split; [|by eapply published_pools].
    destruct Hc3 as [G1 G2 G3 G4 G5 G6 G7 G8 G9 G10]. inversion G7; subst. by constructor.
  - destruct Hf; by constructor.
Qed.

(** ** The heap of pools and allocations *)

Definition allocs_in (m : gmap Z Alloc) (q : Z) : list Alloc :=
  filter (fun a => pool_ a = Some q) (map_to_list m).*2.

Record store_inv (st : store) : Prop := {
  si_pools : forall q p, st_pools st !! q = Some p ->
    pool_inv p (st_mem st) (allocs_in (st_allocs st) q);
  si_allocs : forall id a, st_allocs st !! id = Some a ->
    match pool_ a with Some q => is_Some (st_pools st !! q) | None => a = Alloc_default end;
  si_tables : forall q q' p p' c, q <> q' -> st_pools st !! q = Some p ->
    st_pools st !! q' = Some p' -> in_table p c -> ~ in_table p' c;
}.

Lemma allocs_in_insert m id a q :
  m !! id = None ->
  allocs_in (<[id := a]> m) q ≡ₚ (if decide (pool_ a = Some q) then [a] else []) ++ allocs_in m q.
Proof.
  intros Hid. unfold allocs_in. rewrite map_to_list_insert by done. rewrite fmap_cons.
  rewrite filter_cons. simpl. by case_decide.
Qed.

Lemma allocs_in_lookup m id a q :
  m !! id = Some a ->
  allocs_in m q ≡ₚ (if decide (pool_ a = Some q) then [a] else []) ++ allocs_in (delete id m) q.
Proof.
  intros Hid. rewrite <- allocs_in_insert by apply lookup_delete_eq.
  by rewrite insert_delete_id.
Qed.

Lemma allocs_in_update m id a q :
  allocs_in (<[id := a]> m) q ≡ₚ
  (if decide (pool_ a = Some q) then [a] else []) ++ allocs_in (delete id m) q.
Proof. rewrite <- insert_delete_eq. apply allocs_in_insert, lookup_delete_eq. Qed.

Lemma pool_inv_mem p mem mem' As :
  pool_inv p mem As -> (forall c, in_table p c -> mem' !! c = mem !! c) -> pool_inv p mem' As.
Proof.
  intros [Hc Hp] Hm. split; [done|]. destruct Hc as [_ _ _ _ _ _ Ha _ _ _].
  rewrite Forall_forall in *. intros a Hin Hb i x Hi. destruct (Ha _ Hin) as [H1 H2 H3].
  rewrite Hm; [by apply Hp|]. unfold mapped_page_count in *.
  pose proof (lookup_lt_Some _ _ _ Hi). apply table_cell_in; lia.
Qed.

(** One pool and the allocations drawn from it change. *)
Lemma store_update st q p p' allocs' mem' :
  store_inv st -> st_pools st !! q = Some p ->
  spec_ p' = spec_ p -> block_tables_ p' = block_tables_ p ->
  (forall c, ~ in_table p c -> mem' !! c = st_mem st !! c) ->
  (forall q', q' <> q -> allocs_in allocs' q' ≡ₚ allocs_in (st_allocs st) q') ->
  pool_inv p' mem' (allocs_in allocs' q) ->
  (forall id a, allocs' !! id = Some a ->
     match pool_ a with Some q0 => q0 = q \/ is_Some (st_pools st !! q0) | None => a = Alloc_default end) ->
  store_inv (mkStore (<[q := p']> (st_pools st)) allocs' mem').
Proof.
  intros [H1 H2 H3] Hq Es Et Hmem Hother Hinv Hall.
  assert (Htab : forall c, in_table p' c <-> in_table p c) by (intros; unfold in_table; by rewrite Es, Et).
  constructor; cbn.
  - intros q2 p2. destruct (decide (q2 = q)) as [->|Hne].
    + rewrite lookup_insert_eq. by intros [= <-].
    + rewrite lookup_insert_ne by done. intros Hp2. rewrite Hother by done.
      eapply pool_inv_mem; [by apply H1|]. intros c Hc. apply Hmem. by eapply (H3 q2 q).
  - intros id a Ha. specialize (Hall _ _ Ha). destruct (pool_ a) as [q0|]; [|done].
    destruct (decide (q0 = q)) as [->|Hne]; [rewrite lookup_insert_eq; eauto|].
    rewrite lookup_insert_ne by done. by destruct Hall.
  - intros q1 q2 p1 p2 c Hne.
    destruct (decide (q1 = q)) as [->|], (decide (q2 = q)) as [->|]; [done|..];
      rewrite ?lookup_insert_eq, ?lookup_insert_ne by done.
    + intros [= <-] Hp2. rewrite Htab. by apply (H3 q q2).
    + intros Hp1 [= <-]. rewrite Htab. by apply (H3 q1 q).
    + by apply H3.
Qed.

Definition store_safe {A} (m : M store A) : Prop := forall st, store_inv st -> store_inv (m st).2.

Lemma store_safe_bind {A B} (m : M store A) (k : A -> M store B) :
  store_safe m -> (forall a, store_safe (k a)) -> store_safe (mbind_ m k).
Proof.
  intros Hm Hk st H. unfold mbind_. pose proof (Hm st H) as H1.
  destruct (m st) as [[a|e] s1]; cbn in *; [by apply Hk|done].
Qed.
Lemma store_safe_ret {A} (a : A) : store_safe (mret_ a).
Proof. by intros st H. Qed.
Lemma store_safe_lift {A} (r : result A) : store_safe (mlift r).
Proof. by intros st H. Qed.
Lemma store_safe_get : store_safe mget.
Proof. by intros st H. Qed.
Lemma store_safe_throw {A} e : store_safe (mthrow e : M store A).
Proof. by intros st H. Qed.
Lemma store_safe_map {A B} (f : A -> M store B) (l : list A) :
  Forall (fun x => store_safe (f x)) l -> store_safe (mmapM f l).
Proof.
  induction 1; cbn; [apply store_safe_ret|]. repeat (apply store_safe_bind; [done|intros ?]).
  apply store_safe_ret.
Qed.
#[local] Hint Resolve store_safe_bind store_safe_ret store_safe_lift store_safe_get
  store_safe_throw store_safe_map : ninfer.

Lemma store_focus st id a q p :
  store_inv st -> st_allocs st !! id = Some a -> pool_ a = Some q -> st_pools st !! q = Some p ->
  finv (allocs_in (delete id (st_allocs st)) q) (mkFocus p a (st_mem st)).
Proof.
  intros [H1 _ _] Ha Hq Hp. specialize (H1 _ _ Hp). unfold finv; cbn.
  rewrite (allocs_in_lookup _ _ _ q Ha), decide_True in H1 by done. done.
Qed.

Lemma on_alloc_safe id (invalid : result unit) m : op_safe m -> store_safe (on_alloc id invalid m).
Proof.
  intros Hm st Hst. unfold on_alloc.
  destruct (st_allocs st !! id) as [a|] eqn:Ha; [|done].
  destruct (pool_ a) as [q|] eqn:Hq; [|done].
  destruct (st_pools st !! q) as [p|] eqn:Hp; [|done].
  pose proof (store_focus _ _ _ _ _ Hst Ha Hq Hp) as Hf.
  destruct (m (mkFocus p a (st_mem st))) as [r f'] eqn:Hr. cbn.
  destruct (Hm _ _ _ _ Hf Hr) as (Hinv & [E1 E2 _ E3] & Hpq). cbn in *.
  eapply store_update; try done.
  - intros q' Hne. rewrite allocs_in_update, (allocs_in_lookup _ _ _ q' Ha).
    by rewrite !decide_False by congruence.
  - rewrite allocs_in_update, decide_True by congruence. done.
  - intros id' a'. destruct (decide (id' = id)) as [->|].
    + rewrite lookup_insert_eq. intros [= <-]. rewrite Hpq, Hq. by left.
    + rewrite lookup_insert_ne by done. intros Ha'. pose proof (si_allocs _ Hst _ _ Ha').
      destruct (pool_ a'); [by right|done].
Qed.

Lemma st_release_safe id : store_safe (st_release id).
Proof.
  intros st Hst. unfold st_release, on_alloc.
  destruct (st_allocs st !! id) as [a|] eqn:Ha; [|done].
  destruct (pool_ a) as [q|] eqn:Hq; [|done].
  destruct (st_pools st !! q) as [p|] eqn:Hp; [|done].
  pose proof (store_focus _ _ _ _ _ Hst Ha Hq Hp) as Hf.
  destruct (release_spec _ _ Hf) as (p' & Hr & Hinv & [E1 E2 _ E3]). rewrite Hr. cbn in *.
  eapply store_update; try done.
  - intros q' Hne. rewrite allocs_in_update, (allocs_in_lookup _ _ _ q' Ha).
    rewrite !decide_False; [done|congruence|done].
  - rewrite allocs_in_update, decide_False by done. done.
  - intros id' a'. destruct (decide (id' = id)) as [->|].
    + rewrite lookup_insert_eq. by intros [= <-].
    + rewrite lookup_insert_ne by done. intros Ha'. pose proof (si_allocs _ Hst _ _ Ha').
      destruct (pool_ a'); [by right|done].
Qed.

Lemma st_release_default st id :
  store_inv st -> forall a, (st_release id st).2.(st_allocs) !! id = Some a -> a = Alloc_default.
Proof.
  intros Hst. unfold st_release, on_alloc.
  destruct (st_allocs st !! id) as [a|] eqn:Ha; [|cbn; congruence].
  destruct (pool_ a) as [q|] eqn:Hq.
  - destruct (st_pools st !! q) as [p|] eqn:Hp.
    + destruct (release_spec _ _ (store_focus _ _ _ _ _ Hst Ha Hq Hp)) as (p' & Hr & _).
      rewrite Hr. cbn. rewrite lookup_insert_eq. by intros ? [= <-].
    + pose proof (si_allocs _ Hst _ _ Ha) as Hs. rewrite Hq, Hp in Hs. by destruct Hs.
  - cbn. intros b Hb. pose proof (si_allocs _ Hst _ _ Ha) as Hs. rewrite Hq in Hs. congruence.
Qed.

Lemma can_reserve_spec p n :
  is_u32 n -> 0 <= entitled_pages_ p <= page_group_count (spec_ p) ->
  page_group_count (spec_ p) <= u32_max ->
  can_reserve p n = true <->
  0 < n /\ n <= logical_page_capacity (spec_ p) /\ entitled_pages_ p + n <= page_group_count (spec_ p).
Proof.
  intros Hn He Hg. unfold can_reserve. rewrite u32_small by (unfold_ints; lia). unfold_ints.
  rewrite !andb_true_iff, negb_true_iff, Z.eqb_neq, !Z.leb_le. lia.
Qed.

Lemma pool_core_range p As :
  pool_core p As -> 0 <= entitled_pages_ p <= page_group_count (spec_ p) /\
  page_group_count (spec_ p) <= i32_max.
Proof.
  intros [[Hg _ _ _ _] _ _ _ He Hc Ha _ _ _]. pose proof (owned_le_entitled _ _ Ha). lia.
Qed.

(** A new reservation owns no page. *)
Lemma pool_core_reserve p q As n :
  pool_core p As -> 0 <= n <= logical_page_capacity (spec_ p) ->
  entitled_pages_ p + n <= page_group_count (spec_ p) ->
  pool_core (set_entitled p (entitled_pages_ p + n)) (mkAlloc (Some q) [] n (-1) :: As).
Proof.
  intros [H1 H2 H3 H4 H5 H6 H7 H8 H9 H10] Hn Hc. constructor; cbn; try done.
  - by eapply pool_geometry_pool.
  - rewrite entitlements_cons. cbn [page_entitlement_]. lia.
  - constructor; [constructor; unfold mapped_page_count; destruct H1; cbn; lia|].
    eapply Forall_impl; [exact H7|]; intros; by eapply alloc_ok_pool.
Qed.

Lemma st_reserve_Ok st id q p n :
  st_pools st !! q = Some p -> st_allocs st !! id = None -> can_reserve p n = true ->
  st_reserve id q n st =
    (Ok tt, mkStore (<[q := add_entitlement p n]> (st_pools st))
              (<[id := mkAlloc (Some q) [] n (-1)]> (st_allocs st)) (st_mem st)).
Proof.
  intros Hp Hid Hc. unfold st_reserve, reserve, mbind_, mget, mthrow_if, mlift, mput, mret_.
  by rewrite Hp, Hid, Hc.
Qed.

Lemma st_reserve_safe id q n : is_u32 n -> store_safe (st_reserve id q n).
Proof.
  intros Hn st Hst. unfold st_reserve. destruct (st_pools st !! q) as [p|] eqn:Hp; [|done].
  destruct (st_allocs st !! id) as [a|] eqn:Ha; [done|].
  pose proof (si_pools _ Hst _ _ Hp) as [Hc Hpub]. pose proof (pool_core_range _ _ Hc) as [Hr1 Hr2].
  unfold reserve, mbind_, mget, mthrow_if, mlift, mput, mret_.
  destruct (can_reserve p n) eqn:Hcan; cbn.
  - apply can_reserve_spec in Hcan as (Hn1 & Hn2 & Hn3); [|done|done|unfold_ints; lia].
    unfold add_entitlement. rewrite u32_small by (unfold_ints; lia).
    eapply store_update; try done.
    + intros q' Hne. rewrite allocs_in_insert by done. rewrite decide_False; [done|].
      cbn. congruence.
    + rewrite allocs_in_insert, decide_True by done. split; [by apply pool_core_reserve; [|lia|]|].
      constructor; [|by eapply published_pools]. by intros _ i x Hi.
    + intros id' a'. destruct (decide (id' = id)) as [->|].
      * rewrite lookup_insert_eq. intros [= <-]. by left.
      * rewrite lookup_insert_ne by done. intros Ha'. pose proof (si_allocs _ Hst _ _ Ha').
        destruct (pool_ a'); [by right|done].
  - rewrite insert_id by done. by destruct st.
Qed.

(** Replacing an allocation that holds nothing by another one that holds nothing. *)
Lemma store_default st id :
  store_inv st -> (forall a, st_allocs st !! id = Some a -> a = Alloc_default) ->
  store_inv (mkStore (st_pools st) (delete id (st_allocs st)) (st_mem st)).
Proof.
  intros Hst Hid. assert (Hperm : forall q, allocs_in (st_allocs st) q ≡ₚ allocs_in (delete id (st_allocs st)) q).
  { intros q. destruct (st_allocs st !! id) as [a|] eqn:Ha; [|by rewrite delete_id].
    rewrite (allocs_in_lookup _ _ _ q Ha), (Hid _ eq_refl). by rewrite decide_False. }
  destruct Hst as [H1 H2 H3]. constructor; cbn; [|intros id' a Ha|done].
  - intros q p Hp. rewrite <- Hperm. by apply H1.
  - apply lookup_delete_Some in Ha as [_ Ha]. by apply (H2 id').
Qed.

Lemma st_destroy_safe id : store_safe (st_destroy id).
Proof.
  intros st Hst. unfold st_destroy, mbind_, mmodify.
  pose proof (st_release_safe id st Hst) as H1. pose proof (st_release_default st id Hst) as H2.
  destruct (st_release id st) as [[[]|e] s1]; cbn in *; [|done]. by apply store_default.
Qed.

(** Moving an allocation to the address of one that holds nothing. *)
Lemma store_move st dst src a :
  store_inv st -> dst <> src -> (forall b, st_allocs st !! dst = Some b -> b = Alloc_default) ->
  st_allocs st !! src = Some a ->
  store_inv (mkStore (st_pools st) (<[src := Alloc_default]> (<[dst := a]> (st_allocs st))) (st_mem st)).
Proof.
  intros Hst Hne Hdst Ha. pose proof (store_default _ dst Hst Hdst) as [H1 H2 H3]; cbn in *.
  assert (Hsrc : delete dst (st_allocs st) !! src = Some a) by (by rewrite lookup_delete_ne).
  assert (Hperm : forall q, allocs_in (delete dst (st_allocs st)) q ≡ₚ
    allocs_in (<[src := Alloc_default]> (<[dst := a]> (st_allocs st))) q).
  { intros q. rewrite (allocs_in_lookup _ _ _ q Hsrc), allocs_in_update.
    rewrite (decide_False (P := pool_ Alloc_default = Some q)) by done.
    cbn. rewrite delete_insert_ne by done. rewrite allocs_in_update.
    by rewrite (delete_delete _ src dst). }
  constructor; cbn; [| |done].
  - intros q p Hp. rewrite <- Hperm. by apply H1.
  - intros id b. rewrite !lookup_insert. repeat case_decide; intros [= <-] || intros Hb; subst; try done.
    + by apply (H2 src).
    + apply (H2 id). rewrite lookup_delete_ne; congruence.
Qed.

Lemma st_move_assign_safe dst src : store_safe (st_move_assign dst src).
Proof.
  intros st Hst. unfold st_move_assign. destruct (Z.eqb_spec dst src) as [|Hne]; [done|].
  unfold mbind_ at 1.
  pose proof (st_release_safe dst st Hst) as H1. pose proof (st_release_default st dst Hst) as H2.
  destruct (st_release dst st) as [[[]|e] s1]; cbn in *; [|done].
  unfold mbind_, mget. destruct (st_allocs s1 !! src) as [a|] eqn:Ha; [|done]. cbn.
  by apply store_move.
Qed.

(** ** Construction *)

Lemma make_table_shape p L R :
  make_tensor p I32 [L; R; 1; 1] = make_tensor p I32 [L; R].
Proof.
  unfold make_tensor, normalize_shape. cbn.
  destruct (L <=? 0); [done|]; cbn. by destruct (R <=? 0).
Qed.

(** A pool as the planner laid it out, before any reservation. *)
Definition planned_pool (backing : DeviceSpan) (spec : PagedKVPoolSpec) (p : Pool) : Prop :=
  is_u32 (page_group_count spec) /\ is_u32 (logical_page_capacity spec) /\
  is_i32 (table_rows spec) /\ 0 < span_data backing /\
  Forall (fun pl => is_u64 (ps_alignment pl)) (planes spec) /\
  exists b layout b', lb_wf b /\ plan_paged_kv_pool spec b = (Ok layout, b') /\
    pool_create backing layout = Ok p.

Lemma mmapM_keep {S A B} (P : S -> Prop) (f : A -> M S B) l s bs s' :
  (forall x s b s', x ∈ l -> P s -> f x s = (Ok b, s') -> P s') -> P s ->
  mmapM f l s = (Ok bs, s') -> P s'.
Proof.
  intros Hf. revert s bs s'; induction l as [|x l IH]; intros s bs s' Hs H; cbn in H; minv; [done|].
  eapply IH; [|by eapply Hf; [by left|..]|done]. intros y s2 z s3 Hy. apply Hf. by right.
Qed.

Lemma add_tensor_Ok dt shape al b r b' :
  lb_wf b -> is_u64 al -> add_tensor dt shape al b = (Ok r, b') ->
  lb_wf b' /\ 0 <= lr_offset (tr_region r) /\ tr_dtype r = dt /\
  tr_shape r = shape ++ replicate (4 - length shape) 1.
Proof.
  intros Hb Ha H. unfold add_tensor in H. minv.
  match goal with H : tensor_bytes _ = Ok _ |- _ => apply tensor_bytes_u64 in H end.
  match goal with H : add _ _ _ = _ |- _ => apply add_Ok in H; [|done..] end.
  destruct_and?. cbn. destruct Hb. subst. cbn.
  pose proof (is_power_of_two_pos al ltac:(done) Ha) as Hpos.
  pose proof (align_Z_spec (lb_cursor b) al Hpos). split_and!; try done; lia.
Qed.

Lemma plan_plane_wf o n pl b x b' :
  is_u64 (ps_alignment pl) -> lb_wf b -> plan_plane o n pl b = (Ok x, b') -> lb_wf b'.
Proof.
  intros Ha Hb H. unfold plan_plane in H. minv. destruct o;
  match goal with H : add_tensor _ _ _ _ = _ |- _ => by apply add_tensor_Ok in H as (? & _) end.
Qed.

Lemma NoDup_seqZ_0 n : NoDup (seqZ 0 n).
Proof. apply NoDup_seqZ. Qed.

Lemma seqZ_sorted m n : StronglySorted Z.le (seqZ m n).
Proof.
  unfold seqZ. apply (StronglySorted_fmap _ Nat.le); [intros; lia|].
  generalize (Z.to_nat n) as k, 0%nat as s. induction k as [|k IH]; intros s; cbn; constructor; [done|].
  apply Forall_forall. intros x Hx%elem_of_seq. lia.
Qed.

Lemma pool_create_inv backing spec p mem : planned_pool backing spec p -> pool_inv p mem [].
Proof.
  intros (Hg & Hl & Hr & Hb & Hal & b & layout & b' & Hwf & Hplan & Hcreate).
  unfold plan_paged_kv_pool, checked_i32 in Hplan. minv. rinv. subst.
  match goal with H : mmapM _ _ _ = _ |- _ => eapply (mmapM_keep lb_wf) in H; [|
    intros pl s1 x s2 Hin; rewrite Forall_forall in Hal; apply plan_plane_wf, Hal, Hin|done] end.
  match goal with H : add_tensor _ _ _ _ = _ |- _ =>
    apply add_tensor_Ok in H as (_ & Hoff & Hdt & Hsh); [|done|unfold_ints; lia] end.
  unfold pool_create in Hcreate; cbn in Hcreate. rinv. subst p.
  match goal with H : tensor_region_bind _ _ = Ok _ |- _ => unfold tensor_region_bind in H end.
  rinv. rewrite Hdt, Hsh in *. cbn in *. rewrite make_table_shape in *.
  match goal with H : region_bind _ _ = Ok _ |- _ => unfold region_bind in H end. rinv. subst.
  match goal with H : make_tensor (span_data (mkSpan _ _)) _ _ = Ok ?t |- _ =>
    pose proof H as Ht; apply make_tensor_Ok in H as (_ & Hpos & Hdata & _); cbn in Hdata, Ht end.
  rewrite !Forall_cons in Hpos.
  match type of Ht with _ = Ok ?t => assert (Hgeom : forall pls fr rows,
    pool_geometry (mkPool spec pls t fr rows 0 0))
    by (intros; constructor; cbn; [unfold_ints; lia..|by rewrite Hdata]) end.
  split; [|constructor]. constructor; cbn; try done.
  - by rewrite app_nil_r.
  - apply seqZ_sorted.
  - unfold_ints; lia.
  - by rewrite length_replicate.
  - intros r Hr0. rewrite lookup_replicate. split; [by intros [? _]|]. by intros ?%elem_of_nil.
  - constructor.
Qed.

(** ** Bundles are atomic *)

Lemma validate_distinct_Ok seen rs :
  validate_distinct_pools seen rs = Ok tt <->
  exists qs, Forall2 (fun r q => rv_pool r = Some q /\ rv_entitlement r <> 0) rs qs /\
    NoDup qs /\ (forall q, q ∈ qs -> q ∉ seen).
Proof.
  revert seen; induction rs as [|r rs IH]; intros seen; cbn.
  - split; [intros _|done]. exists []. split_and!; [constructor..|by intros ? ?%elem_of_nil].
  - destruct (rv_pool r) as [q|] eqn:Hq.
    + split.
      * intros H. rinv. apply IH in H as (qs & Hqs & Hnd & Hdis).
        exists (q :: qs). split_and!.
        -- by constructor.
        -- constructor; [|done]. intros Hin. apply (Hdis q); [done|by left].
        -- intros q' [->|Hin]%elem_of_cons; [done|]. specialize (Hdis _ Hin). set_solver.
      * intros (qs & Hqs & Hnd & Hdis). inversion Hqs as [|? q' ? qs' [Hq' He] Hqs']; simplify_eq.
        apply NoDup_cons in Hnd as [Hnin Hnd].
        rewrite (proj2 (Z.eqb_neq _ _) He); cbn.
        rewrite bool_decide_eq_false_2 by (apply Hdis; by left); cbn.
        apply IH. exists qs'. split_and!; [done..|]. intros q'' Hin. apply not_elem_of_cons.
        split; [by intros ->|]. apply Hdis; by right.
    + split; [done|]. intros (qs & Hqs & _). inversion Hqs as [|? ? ? ? [Hq' _] _]; simplify_eq.
Qed.

Lemma riter_Ok {A} (f : A -> result unit) l : riter f l = Ok tt <-> Forall (fun x => f x = Ok tt) l.
Proof.
  induction l as [|x l IH]; cbn; [split; [constructor|done]|].
  rewrite rbind_Ok, Forall_cons. split.
  - intros ([] & ? & ?). by rewrite <- IH.
  - intros [? ?]. exists tt. by rewrite IH.
Qed.

Lemma reserve_all st0 (rs : list (Z * PagedKVReservation)) st :
  Forall (fun r => exists q, rv_pool r.2 = Some q /\ st_pools st !! q = st_pools st0 !! q /\
    check_reservation st0 r.2 = Ok tt) rs ->
  NoDup (rv_pool <$> rs.*2) -> NoDup rs.*1 -> Forall (fun r => st_allocs st !! r.1 = None) rs ->
  exists us st', mmapM (fun '(id, r) => st_reserve id (default 0 (rv_pool r)) (rv_entitlement r)) rs st
    = (Ok us, st') /\
    Forall (fun r => st_allocs st' !! r.1 =
      Some (mkAlloc (rv_pool r.2) [] (rv_entitlement r.2) (-1))) rs /\
    (forall id, id ∉ rs.*1 -> st_allocs st' !! id = st_allocs st !! id).
Proof.
  revert st; induction rs as [|[id r] rs IH]; intros st Hrs Hnd Hid Hfree.
  { exists [], st. by split_and!. }
  apply Forall_cons in Hrs as [(q & Hq & Hp & Hchk) Hrs].
  cbn [fmap list_fmap fst snd] in Hnd, Hid. apply NoDup_cons in Hnd as [Hqn Hnd].
  apply NoDup_cons in Hid as [Hidn Hid]. apply Forall_cons in Hfree as [Hfr Hfree]. cbn in *.
  unfold check_reservation in Hchk. rewrite Hq in Hchk; cbn in Hchk.
  destruct (st_pools st0 !! q) as [p|] eqn:Hp0; [|done]. apply throw_if_Ok in Hchk. bprop.
  pose proof (st_reserve_Ok st id q p (rv_entitlement r) Hp Hfr Hchk) as Hr.
  unfold mbind_ at 1. rewrite Hq; cbn. rewrite Hr.
  set (st1 := mkStore _ _ _).
  destruct (IH st1) as (us & st' & Hm & Hall & Hother); [|done|done| |].
  - rewrite Forall_forall in *. intros [id2 r2] Hin. destruct (Hrs _ Hin) as (q2 & E & Hp2 & Hc2).
    exists q2. split_and!; [done| |done]. cbn. rewrite lookup_insert_ne; [done|].
    intros E2. apply Hqn. apply list_elem_of_fmap. exists r2. split; [cbn in E; congruence|].
    apply list_elem_of_fmap. by exists (id2, r2).
  - rewrite Forall_forall in *. intros [id2 r2] Hin. cbn. rewrite lookup_insert_ne; [by apply (Hfree _ Hin)|].
    intros E. apply Hidn. apply list_elem_of_fmap. by exists (id2, r2).
  - unfold mbind_. rewrite Hm. eexists _, st'. split_and!; [reflexivity| |].
    + constructor; [|done]. cbn. rewrite Hother by done. cbn. by rewrite lookup_insert_eq, Hq.
    + intros id2 Hin. apply not_elem_of_cons in Hin as [Hne Hin]. rewrite Hother by done.
      cbn. by rewrite lookup_insert_ne.
Qed.

Lemma validate_resizes_Ok st seen cs :
  validate_resizes st seen cs = Ok tt ->
  Forall (fun c => exists id a q p, rz_allocation c = Some id /\ st_allocs st !! id = Some a /\
    pool_ a = Some q /\ st_pools st !! q = Some p /\
    rz_mapped_pages c <= mapped_page_count a /\ rz_mapped_pages c <= rz_entitlement c /\
    can_replace_entitlement p (page_entitlement_ a) (rz_entitlement c) = true /\
    Forall (fun s => s.1 <> id /\ s.2 <> q) seen) cs.
Proof.
  revert seen; induction cs as [|c cs IH]; intros seen H; [constructor|]. cbn in H.
  destruct (rz_allocation c) as [id|] eqn:Hid; [|done].
  destruct (st_allocs st !! id) as [a|] eqn:Ha; [|done].
  destruct (pool_ a) as [q|] eqn:Hq; [|done]. rinv.
  destruct (st_pools st !! q) as [p|] eqn:Hp; [|done]. rinv.
  constructor.
  - exists id, a, q, p. split_and!; try done.
    match goal with H : existsb _ _ = false |- _ => apply existsb_false in H; rename H into Hex end.
    eapply Forall_impl; [exact Hex|]. intros s Hs. cbn in Hs. bprop. done.
  - apply IH in H. eapply Forall_impl; [exact H|]. intros c2 (id2 & a2 & q2 & p2 & ?).
    exists id2, a2, q2, p2. destruct_and?. split_and!; try done. by eapply Forall_inv_tail.
Qed.

(** The allocation after a resize to [mapped] pages and [n] entitled pages. *)
Definition resized (a : Alloc) (mapped n : Z) : Alloc :=
  mkAlloc (pool_ a) (take (Z.to_nat mapped) (page_ids_ a)) n (bound_row_ a).

Lemma apply_resize_Ok st c id a q p :
  rz_allocation c = Some id -> st_allocs st !! id = Some a -> pool_ a = Some q ->
  st_pools st !! q = Some p -> 0 <= rz_mapped_pages c <= mapped_page_count a ->
  rz_mapped_pages c <= rz_entitlement c ->
  can_replace_entitlement p (page_entitlement_ a) (rz_entitlement c) = true ->
  exists st', apply_resize c st = (Ok tt, st') /\
    st_allocs st' !! id = Some (resized a (rz_mapped_pages c) (rz_entitlement c)) /\
    (forall id', id' <> id -> st_allocs st' !! id' = st_allocs st !! id') /\
    (forall q', q' <> q -> st_pools st' !! q' = st_pools st !! q').
Proof.
  intros Hid Ha Hq Hp Hm He Hcan. unfold apply_resize. rewrite Hid; simpl.
  assert (Htrim : exists p1, st_trim_pages id (rz_mapped_pages c) st =
    (Ok tt, mkStore (<[q := p1]> (st_pools st))
      (<[id := with_pages a (take (Z.to_nat (rz_mapped_pages c)) (page_ids_ a))]> (st_allocs st))
      (st_mem st)) /\ can_replace_entitlement p1 (page_entitlement_ a) (rz_entitlement c) = true).
  { unfold st_trim_pages, on_alloc. rewrite Ha, Hq, Hp. unfold trim_pages. run_op.
    destruct (Z.gtb_spec (rz_mapped_pages c) (mapped_page_count a)); [lia|]; cbn.
    destruct (Z.eqb_spec (rz_mapped_pages c) (mapped_page_count a)) as [E|E]; cbn.
    - exists p. split; [|done]. unfold mapped_page_count in E. rewrite take_ge by lia.
      unfold with_pages. by destruct a.
    - eexists. split; [reflexivity|]. unfold return_pages, can_replace_entitlement in *.
      destruct (drop _ _); done. }
  destruct Htrim as (p1 & Htrim & Hcan1). unfold mbind_. rewrite Htrim.
  unfold st_set_page_entitlement, on_alloc. cbn. rewrite !lookup_insert_eq. cbn. rewrite Hq, lookup_insert_eq.
  unfold set_page_entitlement. run_op.
  assert (Hcount : mapped_page_count (with_pages a (take (Z.to_nat (rz_mapped_pages c)) (page_ids_ a)))
    = rz_mapped_pages c) by (unfold mapped_page_count in *; cbn; rewrite length_take; lia).
  rewrite Hcount. destruct (Z.ltb_spec (rz_entitlement c) (rz_mapped_pages c)); [lia|]; cbn.
  rewrite Hcan1. cbn. eexists. split_and!; [reflexivity| | |]; cbn.
  - by rewrite lookup_insert_eq.
  - intros id' Hne. by rewrite !lookup_insert_ne.
  - intros q' Hne. by rewrite !lookup_insert_ne.
Qed.

Lemma resize_all st0 seen cs st :
  validate_resizes st0 seen cs = Ok tt -> Forall (fun c => 0 <= rz_mapped_pages c) cs ->
  (forall c id a q, c ∈ cs -> rz_allocation c = Some id -> st_allocs st0 !! id = Some a ->
     pool_ a = Some q -> st_allocs st !! id = Some a /\ st_pools st !! q = st_pools st0 !! q) ->
  exists us st', mmapM apply_resize cs st = (Ok us, st') /\
    (forall c id a, c ∈ cs -> rz_allocation c = Some id -> st_allocs st0 !! id = Some a ->
       st_allocs st' !! id = Some (resized a (rz_mapped_pages c) (rz_entitlement c))) /\
    (forall id, Some id ∉ rz_allocation <$> cs -> st_allocs st' !! id = st_allocs st !! id).
Proof.
  revert seen st; induction cs as [|c cs IH]; intros seen st Hv Hpos Hst.
  { exists [], st. split_and!; [done| |done]. by intros ? ? ? ?%elem_of_nil. }
  pose proof (validate_resizes_Ok _ _ _ Hv) as Hall.
  apply Forall_cons in Hall as [(id & a & q & p & Hid & Ha & Hq & Hp & H1 & H2 & H3 & _) _].
  apply Forall_cons in Hpos as [Hpos0 Hpos].
  cbn in Hv. rewrite Hid, Ha, Hq in Hv. rinv. rewrite Hp in Hv. rinv.
  pose proof (validate_resizes_Ok _ _ _ Hv) as Hall.
  destruct (Hst c id a q ltac:(by left) Hid Ha Hq) as [Ha' Hp']. rewrite Hp in Hp'.
  destruct (apply_resize_Ok st c id a q p Hid Ha' Hq Hp' ltac:(lia) H2 H3) as (st1 & Hr & E1 & E2 & E3).
  assert (Hdis : forall c2 id2 a2 q2, c2 ∈ cs -> rz_allocation c2 = Some id2 ->
    st_allocs st0 !! id2 = Some a2 -> pool_ a2 = Some q2 -> id2 <> id /\ q2 <> q).
  { intros c2 id2 a2 q2 Hin Hi2 Ha2 Hq2. rewrite Forall_forall in Hall.
    destruct (Hall _ Hin) as (i3 & a3 & q3 & p3 & ? & ? & ? & _ & _ & _ & _ & Hs). simplify_eq.
    apply Forall_cons in Hs as [[Hs1 Hs2] _]. cbn in *. split; congruence. }
  destruct (IH ((id, q) :: seen) st1 Hv Hpos) as (us & st' & Hm & Hres & Hoth).
  { intros c2 id2 a2 q2 Hin Hi2 Ha2 Hq2. destruct (Hdis _ _ _ _ Hin Hi2 Ha2 Hq2).
    rewrite E2, E3 by done. apply (Hst c2 id2 a2 q2); [by right|done..]. }
  exists (tt :: us), st'. cbn. unfold mbind_. rewrite Hr, Hm. split_and!; [done| |].
  - intros c2 id2 a2 [->|Hin]%elem_of_cons Hi2 Ha2; [|by eapply Hres].
    simplify_eq. rewrite Hoth; [done|]. intros Hin. apply list_elem_of_fmap in Hin as (c2 & Hc2 & Hin).
    rewrite Forall_forall in Hall.
    destruct (Hall _ Hin) as (i3 & a3 & q3 & p3 & ? & ? & ? & _ & _ & _ & _ & Hs).
    apply Forall_cons in Hs as [[Hs1 _] _]. cbn in *. congruence.
  - intros id2 Hnin. apply not_elem_of_cons in Hnin as [Hne Hnin]. rewrite Hoth by done.
    apply E2. congruence.
Qed.

(** ** Zeroing *)

(** The bytes a memory-set command writes. *)
Definition covers (x : Z) (c : memset_cmd) : Prop :=
  match c with
  | Memset dst bytes => dst <= x < dst + bytes
  | Memset2D dst pitch width height =>
      exists k, 0 <= k < height /\ dst + k * pitch <= x < dst + k * pitch + width
  end.

(** A plane tensor as [plan_plane] shapes it. *)
Definition plane_ok (order : PagedKVPlaneOrder) (groups : Z) (t : Tensor) : Prop :=
  exists lead heads, make_tensor (data t) (dtype t)
    (match order with
     | PageMajor => [lead; kPagedKVPageSize; heads; groups]
     | HeadMajor => [lead; kPagedKVPageSize; groups; heads]
     end) = Ok t.

Definition page_coord (order : PagedKVPlaneOrder) (idx : list Z) : Z :=
  match order with PageMajor => idx !!! 3%nat | HeadMajor => idx !!! 2%nat end.

Definition plane_bytes (t : Tensor) : Z := dtype_size (dtype t) * prod_list (ne t).
Definition planes_disjoint (ts : list Tensor) : Prop :=
  forall i j t u, i <> j -> ts !! i = Some t -> ts !! j = Some u ->
    data t + plane_bytes t <= data u \/ data u + plane_bytes u <= data t.

Lemma runs_from_spec first count l x :
  0 < count ->
  (exists f c, (f, c) ∈ runs_from first count l /\ f <= x < f + c) <->
  (first <= x < first + count \/ x ∈ l).
Proof.
  revert first count; induction l as [|y l IH]; intros first count Hc; cbn.
  - split.
    + intros (f & c & [= -> ->]%list_elem_of_singleton & H). by left.
    + intros [H|H%elem_of_nil]; [|done]. exists first, count. split; [by left|done].
  - destruct (Z.eqb_spec y (first + count)) as [->|Hne].
    + rewrite IH by lia. rewrite elem_of_cons. intuition lia.
    + rewrite elem_of_cons. specialize (IH y 1 ltac:(lia)). split.
      * intros (f & c & [[= -> ->]|Hin]%elem_of_cons & H); [by left|].
        destruct (proj1 IH) as [H1|H1]; [by exists f, c|right; left; lia|by right; right].
      * intros [Hx|Hx].
        -- exists first, count. split; [by left|done].
        -- destruct (proj2 IH) as (f & c & Hin & H1); [destruct Hx; [left; lia|by right]|].
           exists f, c. split; [by right|done].
Qed.

Lemma runs_from_pos first count l f c :
  0 < count -> (f, c) ∈ runs_from first count l -> 0 < c.
Proof.
  revert first count; induction l as [|y l IH]; intros first count Hc; cbn.
  - by intros [= -> ->]%list_elem_of_singleton.
  - case_match; [apply IH; lia|]. intros [[= -> ->]|Hin]%elem_of_cons; [done|].
    revert Hin. apply IH; lia.
Qed.

Lemma runs_spec l x : (exists f c, (f, c) ∈ runs l /\ f <= x < f + c) <-> x ∈ l.
Proof.
  destruct l as [|y l]; cbn.
  - split; [by intros (? & ? & ?%elem_of_nil & _)|by intros ?%elem_of_nil].
  - rewrite runs_from_spec, elem_of_cons by lia. intuition lia.
Qed.

Lemma runs_range l lo hi f c :
  Forall (fun x => lo <= x < hi) l -> (f, c) ∈ runs l -> 0 < c /\ lo <= f /\ f + c <= hi.
Proof.
  intros Hl Hin. assert (Hc : 0 < c).
  { destruct l; [by apply elem_of_nil in Hin|]. by apply runs_from_pos in Hin. }
  rewrite Forall_forall in Hl.
  assert (H1 : f ∈ l) by (apply runs_spec; exists f, c; split; [done|lia]).
  assert (H2 : f + c - 1 ∈ l) by (apply runs_spec; exists f, c; split; [done|lia]).
  apply Hl in H1, H2. lia.
Qed.

Lemma sorted_bounds l lo hi :
  StronglySorted Z.le l -> l <> [] -> lo <= l !!! 0%nat -> List.last l 0 < hi ->
  Forall (fun x => lo <= x < hi) l.
Proof.
  intros Hs Hne H0 Hl. destruct (exists_last Hne) as (l' & z & ->).
  rewrite List.last_last in Hl. apply Forall_forall. intros x Hx. split.
  - destruct (l' ++ [z]) as [|y l2]; [by apply elem_of_nil in Hx|]. cbn in H0.
    apply StronglySorted_inv in Hs as [_ Hf]. apply elem_of_cons in Hx as [->|Hx]; [done|].
    rewrite Forall_forall in Hf. specialize (Hf _ Hx). lia.
  - apply elem_of_app in Hx as [Hx|Hx%list_elem_of_singleton]; [|by subst].
    pose proof (StronglySorted_app_1_elem_of _ _ _ x z Hs Hx ltac:(by left)). lia.
Qed.

(** The element at [idx] lies in the slab of its page. *)
Lemma zero_run_covers order groups t first count idx b :
  plane_ok order groups t -> 0 < count -> 0 <= first -> first + count <= groups ->
  in_bounds t idx -> 0 <= b < dtype_size (dtype t) ->
  covers (elem_addr t idx + b) (zero_run order first count t) <->
  first <= page_coord order idx < first + count.
Proof.
  intros (lead & heads & Ht) Hc Hf Hg Hin Hb.
  apply make_tensor_Ok in Ht as (_ & Hpos & _ & _ & Hne & Hlen & _ & Hnb).
  destruct t as [d dt ns bs]; cbn in *. unfold in_bounds in Hin; cbn in Hin.
  pose proof (Hnb 0%nat ltac:(lia)) as B0. pose proof (Hnb 1%nat ltac:(lia)) as B1.
  pose proof (Hnb 2%nat ltac:(lia)) as B2. pose proof (Hnb 3%nat ltac:(lia)) as B3. clear Hnb.
  destruct bs as [|b0 [|b1 [|b2 [|b3 [|]]]]]; try done. pose proof (dtype_size_pos dt).
  destruct order; cbn in Hne; subst ns; rewrite !Forall_cons in Hpos; destruct_and!;
    repeat match goal with H : Forall2 _ _ _ |- _ => inversion H; clear H; subst end;
    cbn in B0, B1, B2, B3; simplify_eq; unfold elem_addr; cbn;
    set (sz := dtype_size dt) in *; unfold kPagedKVPageSize in *.
  - set (slab := sz * (lead * (64 * (heads * 1)))).
    match goal with |- context [?i0 * (sz * 1) + (?i1 * _ + (?i2 * _ + (?i3 * _ + 0)))] =>
      assert (0 <= i0 * (sz * 1) + i1 * (sz * (lead * 1)) + i2 * (sz * (lead * (64 * 1))) + b < slab)
        by (subst slab; assert (i0 + 1 <= lead) by lia; assert (i1 + 1 <= 64) by lia;
            assert (i2 + 1 <= heads) by lia; split; [nia|];
            assert (lead * i1 <= lead * 63) by nia; assert (lead * 64 * i2 <= lead * 64 * (heads - 1)) by nia;
            nia)
    end.
    split; intros; nia.
  - set (slab := sz * (lead * (64 * 1))). set (head := sz * (lead * (64 * (groups * 1)))).
    match goal with |- context [?i0 * (sz * 1) + (?i1 * _ + (?i2 * _ + (?i3 * _ + 0)))] =>
      assert (0 <= i0 * (sz * 1) + i1 * (sz * (lead * 1)) + b < slab)
        by (subst slab; assert (i0 + 1 <= lead) by lia; assert (i1 + 1 <= 64) by lia; split; [nia|];
            assert (lead * i1 <= lead * 63) by nia; nia);
      assert (Hhs : head = groups * slab) by (subst head slab; lia);
      split; [intros (k & Hk & Hx1 & Hx2); assert (k = i3) by nia; subst k; nia|
              intros; exists i3; split; [lia|nia]]
    end.
Qed.

(** ** The system of pools: steps and reachable states *)

Inductive kv_step : store -> store -> Prop :=
| step_reserve id q n st : is_u32 n -> kv_step st (st_reserve id q n st).2
| step_set_entitlement id n st : is_u32 n -> kv_step st (st_set_page_entitlement id n st).2
| step_cancel id st : kv_step st (st_cancel_unmapped_entitlement id st).2
| step_materialize id n st : kv_step st (st_materialize_pages id n st).2
| step_trim id n st : is_u32 n -> kv_step st (st_trim_pages id n st).2
| step_bind id row st : kv_step st (st_bind_row id row st).2
| step_publish id st : kv_step st (st_publish_mapping id st).2
| step_unbind id st : kv_step st (st_unbind_row id st).2
| step_release id st : kv_step st (st_release id st).2
| step_destroy id st : kv_step st (st_destroy id st).2
| step_move dst src st : kv_step st (st_move_assign dst src st).2
| step_reserve_bundle rs st :
    Forall (fun r => is_u32 (rv_entitlement r.2)) rs -> kv_step st (reserve_paged_kv_bundle rs st).2
| step_resize_bundle cs st :
    Forall (fun c => is_u32 (rz_mapped_pages c) /\ is_u32 (rz_entitlement c)) cs ->
    kv_step st (resize_paged_kv_bundle cs st).2.

(** Freshly constructed pools whose block tables do not overlap, and no allocation. *)
Definition kv_initial (st : store) : Prop :=
  st_allocs st = ∅ /\
  (forall q p, st_pools st !! q = Some p -> exists backing spec, planned_pool backing spec p) /\
  (forall q q' p p' c, q <> q' -> st_pools st !! q = Some p -> st_pools st !! q' = Some p' ->
     in_table p c -> ~ in_table p' c).

Definition kv_reachable (st : store) : Prop := exists st0, kv_initial st0 /\ rtc kv_step st0 st.

Lemma kv_initial_inv st : kv_initial st -> store_inv st.
Proof.
  intros (Ha & Hp & Ht). constructor; [|by rewrite Ha|done].
  intros q p (backing & spec & Hpl)%Hp. rewrite Ha. unfold allocs_in. rewrite map_to_list_empty.
  by eapply pool_create_inv.
Qed.

Lemma reserve_bundle_safe rs :
  Forall (fun r => is_u32 (rv_entitlement r.2)) rs -> store_safe (reserve_paged_kv_bundle rs).
Proof.
  intros Hrs. unfold reserve_paged_kv_bundle. apply store_safe_bind; [apply store_safe_lift|intros _].
  apply store_safe_bind; [apply store_safe_get|intros st].
  apply store_safe_bind; [apply store_safe_lift|intros _].
  apply store_safe_bind; [|intros; apply store_safe_ret]. apply store_safe_map.
  eapply Forall_impl; [exact Hrs|]. intros [id r] Hr. by apply st_reserve_safe.
Qed.

Lemma resize_bundle_safe cs :
  Forall (fun c => is_u32 (rz_mapped_pages c) /\ is_u32 (rz_entitlement c)) cs ->
  store_safe (resize_paged_kv_bundle cs).
Proof.
  intros Hcs. unfold resize_paged_kv_bundle. apply store_safe_bind; [apply store_safe_get|intros st].
  apply store_safe_bind; [apply store_safe_lift|intros _].
  apply store_safe_bind; [|intros; apply store_safe_ret]. apply store_safe_map.
  eapply Forall_impl; [exact Hcs|]. intros c [Hc1 Hc2]. unfold apply_resize.
  apply store_safe_bind; [|intros []]; apply on_alloc_safe;
    [apply trim_pages_safe; unfold_ints; lia|by apply set_page_entitlement_safe].
Qed.

Lemma kv_step_inv st st' : kv_step st st' -> store_inv st -> store_inv st'.
Proof.
  destruct 1; intros Hst.
  - by apply st_reserve_safe.
  - apply on_alloc_safe; [by apply set_page_entitlement_safe|done].
  - apply on_alloc_safe; [apply cancel_unmapped_entitlement_safe|done].
  - apply on_alloc_safe; [apply materialize_pages_safe|done].
  - apply on_alloc_safe; [apply trim_pages_safe; unfold_ints; lia|done].
  - apply on_alloc_safe; [apply bind_row_safe|done].
  - apply on_alloc_safe; [apply publish_mapping_safe|done].
  - apply on_alloc_safe; [apply unbind_row_safe|done].
  - by apply st_release_safe.
  - by apply st_destroy_safe.
  - by apply st_move_assign_safe.
  - by apply reserve_bundle_safe.
  - by apply resize_bundle_safe.
Qed.

Lemma kv_reachable_inv st : kv_reachable st -> store_inv st.
Proof.
  intros (st0 & H0 & Hr). apply kv_initial_inv in H0.
  induction Hr as [|x y z Hxy _ IH]; [done|]. by eapply IH, kv_step_inv.
Qed.

Lemma allocs_in_elem m id a q :
  m !! id = Some a -> pool_ a = Some q -> a ∈ allocs_in m q.
Proof.
  intros Ha Hq. apply list_elem_of_filter. split; [done|]. apply list_elem_of_fmap.
  exists (id, a). split; [done|]. by apply elem_of_map_to_list.
Qed.

(** ** Properties *)

(** C14: in every reachable state the physical pages of a pool are partitioned: each of the
    [page_group_count] page groups is free or belongs to exactly one allocation at exactly one
    logical index, entitlements never exceed the pool, and no allocation holds more pages than
    it is entitled to; so no two live allocations ever share a page or a block-table row. *)
Theorem kv_pages_partitioned st q p :
  kv_reachable st -> st_pools st !! q = Some p ->
  let As := allocs_in (st_allocs st) q in
  free_page_ids_ p ++ concat (page_ids_ <$> As) ≡ₚ seqZ 0 (page_group_count (spec_ p)) /\
  NoDup (free_page_ids_ p ++ concat (page_ids_ <$> As)) /\
  StronglySorted Z.le (free_page_ids_ p) /\
  mapped_pages_ p = Z.of_nat (length (concat (page_ids_ <$> As))) /\
  entitled_pages_ p = sum_Z (page_entitlement_ <$> As) /\
  entitled_pages_ p <= page_group_count (spec_ p) /\
  Forall (fun a => mapped_page_count a <= page_entitlement_ a <= logical_page_capacity (spec_ p)) As /\
  NoDup (filter (fun r => 0 <= r) (bound_row_ <$> As)).
Proof.
  intros Hst%kv_reachable_inv Hp As.
  destruct (si_pools _ Hst _ _ Hp) as [[H1 H2 H3 H4 H5 H6 H7 H8 H9 H10] _].
  subst As. unfold owned_pages, entitlements, bound_rows in *. split_and!; try done.
  - rewrite H2. apply NoDup_seqZ.
  - eapply Forall_impl; [exact H7|]. by intros a [? ? ?].
Qed.

(** in every reachable state, the device block table of a pool agrees with the host: the entry
    [i] of the row a live allocation is bound to holds the allocation's [i]-th page id. *)
Theorem kv_block_tables_published st id a q p i x :
  kv_reachable st -> st_allocs st !! id = Some a -> pool_ a = Some q -> st_pools st !! q = Some p ->
  0 <= bound_row_ a -> page_ids_ a !! i = Some x ->
  in_bounds (block_tables_ p) [Z.of_nat i; bound_row_ a; 0; 0] /\
  st_mem st !! elem_addr (block_tables_ p) [Z.of_nat i; bound_row_ a; 0; 0] = Some x.
Proof.
  intros Hst%kv_reachable_inv Ha Hq Hp Hb Hi.
  destruct (si_pools _ Hst _ _ Hp) as [[Hg _ _ _ _ _ Hall _ _ _] Hpub].
  pose proof (allocs_in_elem _ _ _ _ Ha Hq) as Hin. rewrite Forall_forall in Hall, Hpub.
  destruct (Hall _ Hin) as [H1 H2 H3]. destruct (table_strides p Hg) as (Hne & Hnb & _).
  pose proof (lookup_lt_Some _ _ _ Hi). unfold mapped_page_count in *. split.
  - unfold in_bounds. rewrite Hne. repeat constructor; lia.
  - unfold elem_addr. rewrite Hnb. rewrite <- (Hpub _ Hin Hb i x Hi). f_equal.
    unfold table_cell. cbn. lia.
Qed.

(** a reservation is a guarantee: in every reachable state an allocation can be extended to
    any page count within its entitlement; the pages it has keep their places, new ones are
    appended. *)
Theorem kv_materialize_within_entitlement st id a q pages :
  kv_reachable st -> st_allocs st !! id = Some a -> pool_ a = Some q ->
  mapped_page_count a <= pages <= page_entitlement_ a ->
  exists st' acquired, st_materialize_pages id pages st = (Ok tt, st') /\
    st_allocs st' !! id = Some (with_pages a (page_ids_ a ++ acquired)) /\
    Z.of_nat (length (page_ids_ a ++ acquired)) = pages.
Proof.
  intros Hst%kv_reachable_inv Ha Hq Hr. pose proof (si_allocs _ Hst _ _ Ha) as Hp.
  rewrite Hq in Hp. destruct Hp as [p Hp].
  destruct (materialize_pages_spec _ _ pages (store_focus _ _ _ _ _ Hst Ha Hq Hp) Hr)
    as (f' & acq & Hm & _ & _ & Hf & Hc). cbn in *.
  unfold st_materialize_pages, on_alloc. rewrite Ha, Hq, Hp, Hm.
  eexists _, acq. split_and!; [reflexivity|by rewrite Hf; cbn; rewrite lookup_insert_eq|].
  unfold mapped_page_count in Hc. by rewrite Hf in Hc.
Qed.

Lemma run_at_lookup free n b i :
  run_at free n b = true -> (i < n)%nat -> free !!! (b + i)%nat = free !!! b + Z.of_nat i.
Proof.
  unfold run_at. intros [_ H]%andb_true_iff Hi. rewrite forallb_forall in H.
  destruct i as [|i]; [rewrite Nat.add_0_r; lia|].
  specialize (H (S i) ltac:(apply in_seq; lia)). bprop. done.
Qed.

Lemma lower_bound_lookup l b x :
  StronglySorted Z.lt l -> l !! b = Some x -> lower_bound l x = b.
Proof.
  intros Hs. revert b; induction Hs as [|y l Hs IH Hf]; intros b Hb; [done|].
  destruct b as [|b]; cbn in *; simplify_eq.
  - destruct (Z.ltb_spec x x); [lia|done].
  - rewrite Forall_forall in Hf. specialize (Hf x (list_elem_of_lookup_2 _ _ _ Hb)).
    destruct (Z.ltb_spec y x); [|lia]. by rewrite (IH b Hb).
Qed.

(** [take_pages] prefers locality: when the run of free pages that starts at
    [preferred_first] is long enough it is taken, and otherwise, when any [count] free pages are
    consecutive, the pages taken are. *)
Theorem take_pages_contiguous p count pref out p' :
  0 < count -> take_pages count pref p = (Ok out, p') ->
  (exists b, run_at (free_page_ids_ p) (Z.to_nat count) b = true) ->
  Z.of_nat (length out) = count /\
  (forall i x, out !! i = Some x -> x = out !!! 0%nat + Z.of_nat i) /\
  (forall b, 0 <= pref -> StronglySorted Z.lt (free_page_ids_ p) ->
     free_page_ids_ p !! b = Some pref -> run_at (free_page_ids_ p) (Z.to_nat count) b = true ->
     out !!! 0%nat = pref).
Proof.
  intros Hc H [b0 Hrun0]. unfold take_pages in H.
  destruct (Z.eqb_spec count 0) as [|_]; [lia|]. minv. subst.
  match type of Hrun0 with run_at (free_page_ids_ ?s) _ _ = _ =>
    set (free := free_page_ids_ s) in * end. set (n := Z.to_nat count) in *.
  pose proof (run_at_bound _ _ _ Hrun0) as Hb0.
  assert (Hsel : exists b, select_run free n pref = Some b).
  { unfold select_run. destruct (if pref >=? 0 then _ else _); [eauto|].
    destruct (List.find _ _) eqn:Hfind; [eauto|].
    assert (In b0 (seq 0 (S (length free - n)))) as Hin by (apply in_seq; lia).
    pose proof (List.find_none _ _ Hfind _ Hin) as Hno. congruence. }
  destruct Hsel as [b Hsel]. rewrite Hsel. simpl.
  pose proof (select_run_run _ _ _ _ Hsel) as Hrun. pose proof (run_at_bound _ _ _ Hrun) as Hb.
  assert (Hout : forall i, (i < n)%nat -> take n (drop b free) !! i = Some (free !!! b + Z.of_nat i)).
  { intros i Hi. rewrite <- (run_at_lookup free n b i Hrun Hi).
    rewrite lookup_take, lookup_drop, decide_True by done. apply list_lookup_lookup_total_lt. lia. }
  assert (H0 : take n (drop b free) !!! 0%nat = free !!! b).
  { apply list_lookup_total_correct. rewrite Hout by lia. f_equal; lia. }
  split_and!.
  - rewrite length_take, length_drop. lia.
  - intros i x Hi. pose proof (lookup_lt_Some _ _ _ Hi) as Hlt. rewrite length_take, length_drop in Hlt.
    rewrite Hout in Hi by lia. rewrite H0. congruence.
  - intros b1 Hp Hs Hb1 Hr1. rewrite H0. apply list_lookup_total_correct.
    enough (select_run free n pref = Some b1) as Hs1 by congruence.
    unfold select_run. destruct (Z.geb_spec pref 0); [|lia].
    by rewrite (lower_bound_lookup _ _ _ Hs Hb1), Hb1, Z.eqb_refl, Hr1.
Qed.

Lemma zero_run_inside order groups t first count x :
  plane_ok order groups t -> 0 < count -> 0 <= first -> first + count <= groups ->
  covers x (zero_run order first count t) -> data t <= x < data t + plane_bytes t.
Proof.
  intros (lead & heads & Ht) Hc Hf Hg Hcov.
  apply make_tensor_Ok in Ht as (_ & Hpos & _ & _ & Hne & Hlen & _ & Hnb).
  destruct t as [d dt ns bs]; unfold plane_bytes; cbn in *.
  pose proof (Hnb 2%nat ltac:(lia)) as B2. pose proof (Hnb 3%nat ltac:(lia)) as B3. clear Hnb.
  destruct bs as [|b0 [|b1 [|b2 [|b3 [|]]]]]; try done. pose proof (dtype_size_pos dt).
  destruct order; cbn in Hne; subst ns; rewrite !Forall_cons in Hpos; destruct_and!;
    cbn in B2, B3, Hcov |- *; simplify_eq; unfold kPagedKVPageSize in *; set (sz := dtype_size dt) in *.
  - assert (0 < sz * (lead * (64 * (heads * 1)))) by nia. nia.
  - destruct Hcov as (k & Hk & Hx1 & Hx2). assert (0 < sz * (lead * (64 * 1))) by nia.
    assert (Hp : sz * (lead * (64 * (groups * 1))) = groups * (sz * (lead * (64 * 1)))) by lia.
    assert (Hq : sz * (lead * (64 * (groups * (heads * 1)))) = heads * (groups * (sz * (lead * (64 * 1))))) by lia.
    rewrite Hp in *. rewrite Hq. set (w := sz * (lead * (64 * 1))) in *. 
    assert ((k + 1) * (groups * w) <= heads * (groups * w)) by (apply Z.mul_le_mono_nonneg_r; nia).
    assert ((first + count) * w <= groups * w) by nia. nia.
Qed.

Lemma elem_in_plane order groups t idx b :
  plane_ok order groups t -> in_bounds t idx -> 0 <= b < dtype_size (dtype t) ->
  data t <= elem_addr t idx + b < data t + plane_bytes t.
Proof.
  intros Hok Hin Hb.
  assert (Hcoord : 0 <= page_coord order idx < groups).
  { destruct Hok as (lead & heads & Ht). apply make_tensor_Ok in Ht as (_ & _ & _ & _ & Hne & _).
    unfold in_bounds in Hin. rewrite Hne in Hin.
    destruct order; cbn in Hin;
      repeat match goal with H : Forall2 _ _ _ |- _ => inversion H; clear H; subst end; done. }
  apply (zero_run_inside order groups t 0 groups); [done|lia..|].
  apply (zero_run_covers order groups t 0 groups); [done|lia..|done|done|lia].
Qed.

Lemma Exists_fmap_elem {A B} (f : A -> B) (P : B -> Prop) l :
  Exists P (f <$> l) <-> exists x, x ∈ l /\ P (f x).
Proof.
  rewrite Exists_exists. split.
  - intros (y & (x & -> & Hx)%list_elem_of_fmap & Hy). eauto.
  - intros (x & Hx & Hy). exists (f x). split; [|done]. apply list_elem_of_fmap. eauto.
Qed.

Lemma Exists_concat_fmap {A B} (f : A -> list B) (P : B -> Prop) l :
  Exists P (concat (f <$> l)) <-> exists x, x ∈ l /\ Exists P (f x).
Proof.
  induction l as [|y l IH]; cbn.
  - rewrite Exists_nil. split; [done|]. by intros (? & ?%elem_of_nil & _).
  - rewrite Exists_app, IH. split.
    + intros [H|(x & Hx & H)]; [exists y; split; [by left|done]|exists x; split; [by right|done]].
    + intros (x & [->|Hx]%elem_of_cons & H); [by left|right; eauto].
Qed.

(** [zero_pages] clears exactly the named page groups: every byte of an element of every plane
    is written by one of the memory-set commands if and only if the element's page is named, in
    the page-major and in the head-major order. *)
Theorem zero_pages_exact p ids cmds t idx b :
  zero_pages p ids = Ok cmds -> 0 <= page_group_count (spec_ p) <= i32_max ->
  Forall (plane_ok (plane_order (spec_ p)) (page_group_count (spec_ p))) (planes_ p) ->
  planes_disjoint (planes_ p) -> t ∈ planes_ p -> in_bounds t idx ->
  0 <= b < dtype_size (dtype t) ->
  Exists (covers (elem_addr t idx + b)) cmds <-> page_coord (plane_order (spec_ p)) idx ∈ ids.
Proof.
  intros H Hg Hok Hdisj Ht Hin Hb. unfold zero_pages in H.
  destruct ids as [|y ids'] eqn:Hids; [injection H as <-; rewrite Exists_nil; set_solver|].
  rewrite <- Hids in *. rinv. subst cmds.
  assert (Hto : to_i32 (page_group_count (spec_ p)) = page_group_count (spec_ p))
    by (unfold to_i32; destruct (Z.leb_spec (page_group_count (spec_ p)) i32_max); lia).
  rewrite Hto in *.
  pose proof (merge_sort_Permutation Z.le ids) as Hperm.
  pose proof (StronglySorted_merge_sort Z.le ids) as Hs.
  assert (Hr : Forall (fun x => 0 <= x < page_group_count (spec_ p)) (merge_sort Z.le ids)).
  { apply sorted_bounds; [done|intros E|done|done].
    rewrite E in Hperm. subst ids. by apply Permutation_nil_cons in Hperm. }
  rewrite Forall_forall in Hok. pose proof (Hok _ Ht) as Hokt.
  set (l := merge_sort Z.le ids) in *. clearbody l.
  rewrite <- Hperm, <- (runs_spec l), Exists_concat_fmap. split.
  - intros ([f c] & Hfc & (u & Hu & Hcov)%Exists_fmap_elem). exists f, c. split; [done|].
    destruct (runs_range _ _ _ _ _ Hr Hfc) as (Hc & Hf & Hfg).
    enough (u = t) as -> by (by apply (zero_run_covers _ _ _ _ _ _ b Hokt)).
    apply list_elem_of_lookup in Hu as [i Hi], Ht as [j Hj].
    destruct (decide (i = j)) as [->|Hne]; [congruence|exfalso].
    pose proof (zero_run_inside _ _ _ _ _ _ (Hok _ (list_elem_of_lookup_2 _ _ _ Hi)) Hc Hf Hfg Hcov).
    pose proof (elem_in_plane _ _ _ _ _ Hokt Hin Hb). specialize (Hdisj _ _ _ _ Hne Hi Hj). lia.
  - intros (f & c & Hfc & Hr2). destruct (runs_range _ _ _ _ _ Hr Hfc) as (Hc & Hf & Hfg).
    exists (f, c). split; [done|]. apply Exists_fmap_elem. exists t. split; [done|].
    by apply (zero_run_covers _ _ _ _ _ _ b Hokt).
Qed.

(** reserving a bundle is all or nothing: it either throws and changes nothing, or every new
    allocation exists with exactly the entitlement asked for. *)
Theorem reserve_bundle_atomic rs st r st' :
  reserve_paged_kv_bundle rs st = (r, st') -> NoDup rs.*1 ->
  Forall (fun x => st_allocs st !! x.1 = None) rs ->
  (exists e, r = Err e /\ st' = st) \/
  (r = Ok tt /\
   Forall (fun x => st_allocs st' !! x.1 = Some (mkAlloc (rv_pool x.2) [] (rv_entitlement x.2) (-1))) rs).
Proof.
  intros H Hid Hfree. unfold reserve_paged_kv_bundle, mbind_ at 1, mlift in H.
  destruct (validate_distinct_pools [] rs.*2) as [[]|e] eqn:Hv; [|injection H as <- <-; left; eauto].
  unfold mbind_ at 1, mget in H. unfold mbind_ at 1 in H.
  destruct (riter (check_reservation st) rs.*2) as [[]|e] eqn:Hc; [|injection H as <- <-; left; eauto].
  apply validate_distinct_Ok in Hv as (qs & Hqs & Hnd & _). apply riter_Ok in Hc.
  assert (Hpools : rv_pool <$> rs.*2 = Some <$> qs)
    by (clear -Hqs; induction Hqs as [|? ? ? ? [? ?] _ IH]; cbn; congruence).
  destruct (reserve_all st rs st) as (us & st1 & Hm & Hall & _).
  - rewrite Forall_fmap in Hc. apply Forall_forall. intros x Hx.
    rewrite Forall_forall in Hc. specialize (Hc _ Hx). cbn in Hc.
    unfold check_reservation in Hc. destruct (rv_pool x.2) as [q|] eqn:Hq; [|done].
    exists q. split_and!; [done..|]. unfold check_reservation. by rewrite Hq.
  - rewrite Hpools. by apply NoDup_fmap_2; [intros ? ? [= ->]|].
  - done.
  - done.
  - unfold mbind_ in H. rewrite Hm in H. injection H as <- <-. right. done.
Qed.

(** resizing a bundle is all or nothing: it either throws and changes nothing, or every named
    allocation keeps exactly the requested prefix of its pages and has the requested
    entitlement, and every other allocation is untouched. *)
Theorem resize_bundle_atomic cs st r st' :
  resize_paged_kv_bundle cs st = (r, st') -> Forall (fun c => 0 <= rz_mapped_pages c) cs ->
  (exists e, r = Err e /\ st' = st) \/
  (r = Ok tt /\
   (forall c id a, c ∈ cs -> rz_allocation c = Some id -> st_allocs st !! id = Some a ->
      st_allocs st' !! id = Some (resized a (rz_mapped_pages c) (rz_entitlement c))) /\
   (forall id, Some id ∉ rz_allocation <$> cs -> st_allocs st' !! id = st_allocs st !! id)).
Proof.
  intros H Hpos. unfold resize_paged_kv_bundle in H. unfold mbind_ at 1, mget in H.
  unfold mbind_ at 1, mlift in H.
  destruct (validate_resizes st [] cs) as [[]|e] eqn:Hv; [|injection H as <- <-; left; eauto].
  destruct (resize_all st [] cs st Hv Hpos) as (us & st1 & Hm & H1 & H2).
  { intros c id a q Hin Hid Ha Hq. done. }
  unfold mbind_ in H. rewrite Hm in H. injection H as <- <-. right. done.
Qed.

(** ** Concrete runs *)

Definition demo_spec (o : PagedKVPlaneOrder) : PagedKVPoolSpec :=
  mkPoolSpec 6 4 2 o [mkPlaneSpec BF16 8 2 256; mkPlaneSpec FP32 1 2 256].
Definition demo_layout (o : PagedKVPlaneOrder) : PagedKVPoolLayout :=
  match plan_paged_kv_pool (demo_spec o) LayoutBuilder_init with
  | (Ok l, _) => l
  | _ => mkPoolLayout (demo_spec o) [] (mkTensorRegion (mkRegion 0 0 1) I32 [])
  end.
Definition demo_backing : DeviceSpan := mkSpan 65536 65536.
Definition demo_pool (o : PagedKVPlaneOrder) : Pool :=
  match pool_create demo_backing (demo_layout o) with
  | Ok p => p
  | Err _ => mkPool (demo_spec o) [] Tensor_default [] [] 0 0
  end.
Definition demo_store0 : store := mkStore {[1 := demo_pool PageMajor]} ∅ ∅.
Definition demo_store1 : store := (st_reserve 7 1 3 demo_store0).2.
Definition demo_store2 : store := (st_materialize_pages 7 1 demo_store1).2.
Definition demo_store3 : store := (st_bind_row 7 1 demo_store2).2.
Definition demo_store4 : store := (st_materialize_pages 7 2 demo_store3).2.

Lemma demo_planned o : planned_pool demo_backing (demo_spec o) (demo_pool o).
Proof.
  split_and!; [by_compute..|by constructor; [by_compute|constructor; [by_compute|]]|].
  exists LayoutBuilder_init, (demo_layout o).
  eexists. split_and!; [constructor; by_compute|..];
    destruct o; vm_compute; reflexivity.
Qed.

Lemma demo_pools q p : st_pools demo_store0 !! q = Some p -> q = 1 /\ p = demo_pool PageMajor.
Proof.
  change (st_pools demo_store0) with ({[1 := demo_pool PageMajor]} : gmap Z Pool).
  intros H. by apply lookup_singleton_Some in H as [-> ->].
Qed.

Lemma demo_initial : kv_initial demo_store0.
Proof.
  split_and!.
  - done.
  - intros q p [-> ->]%demo_pools. eexists _, _. apply demo_planned.
  - intros q q' p p' c Hne [-> ->]%demo_pools [-> ->]%demo_pools. done.
Qed.

Lemma demo_reachable : kv_reachable demo_store4.
Proof.
  exists demo_store0. split; [exact demo_initial|].
  eapply rtc_l; [by apply (step_reserve 7 1 3); unfold_ints|].
  eapply rtc_l; [by apply (step_materialize 7 1)|].
  eapply rtc_l; [by apply (step_bind 7 1)|].
  eapply rtc_l; [by apply (step_materialize 7 2)|]. apply rtc_refl.
Qed.

Definition demo_pool4 : Pool := default (demo_pool PageMajor) (st_pools demo_store4 !! 1).

Lemma kv_pages_partitioned_witness :
  free_page_ids_ demo_pool4 = [2; 3; 4; 5] /\ entitled_pages_ demo_pool4 = 3 /\
  entitled_pages_ demo_pool4 <= 6.
Proof.
  destruct (kv_pages_partitioned demo_store4 1 demo_pool4) as (_ & _ & _ & _ & _ & H & _).
  - apply demo_reachable.
  - vm_compute; reflexivity.
  - split_and!; [vm_compute; reflexivity..|exact H].
Defined.

Lemma kv_block_tables_published_witness :
  st_mem demo_store4 !! elem_addr (block_tables_ demo_pool4) [1; 1; 0; 0] = Some 1.
Proof.
  destruct (kv_block_tables_published demo_store4 7 (mkAlloc (Some 1) [0; 1] 3 1) 1 demo_pool4 1 1)
    as [_ H].
  - apply demo_reachable.
  - vm_compute; reflexivity.
  - reflexivity.
  - vm_compute; reflexivity.
  - cbn; lia.
  - reflexivity.
  - exact H.
Defined.

Lemma kv_materialize_within_entitlement_witness :
  exists st' acquired, st_materialize_pages 7 3 demo_store4 = (Ok tt, st') /\
    st_allocs st' !! 7 = Some (mkAlloc (Some 1) ([0; 1] ++ acquired) 3 1).
Proof.
  destruct (kv_materialize_within_entitlement demo_store4 7 (mkAlloc (Some 1) [0; 1] 3 1) 1 3)
    as (st' & acq & H1 & H2 & _).
  - apply demo_reachable.
  - vm_compute; reflexivity.
  - reflexivity.
  - by_compute.
  - exists st', acq. split; [exact H1|exact H2].
Defined.

Definition demo_fragmented : Pool := set_free (demo_pool PageMajor) [0; 2; 4; 5] 2.

Lemma take_pages_contiguous_witness :
  exists out p', take_pages 2 2 demo_fragmented = (Ok out, p') /\
    (forall i x, out !! i = Some x -> x = out !!! 0%nat + Z.of_nat i).
Proof.
  exists [4; 5]. eexists. split; [vm_compute; reflexivity|].
  apply (take_pages_contiguous demo_fragmented 2 2 [4; 5] (set_free demo_fragmented [0; 2] 4)).
  - lia.
  - vm_compute; reflexivity.
  - exists 2%nat. reflexivity.
Defined.

Definition demo_planes : list Tensor := Eval vm_compute in planes_ (demo_pool HeadMajor).
Lemma demo_planes_eq : planes_ (demo_pool HeadMajor) = demo_planes.
Proof. vm_compute. reflexivity. Qed.

Lemma zero_pages_exact_witness :
  exists cmds, zero_pages (demo_pool HeadMajor) [5; 0; 1] = Ok cmds /\
    Exists (covers (elem_addr (planes_ (demo_pool HeadMajor) !!! 0%nat) [3; 63; 5; 1] + 1)) cmds.
Proof.
  eexists. split; [vm_compute; reflexivity|].
  apply (zero_pages_exact (demo_pool HeadMajor) [5; 0; 1] _ _ [3; 63; 5; 1] 1).
  - vm_compute; reflexivity.
  - by_compute.
  - rewrite demo_planes_eq.
    constructor; [|constructor; [|constructor]]; [exists 8, 2|exists 1, 2]; vm_compute; reflexivity.
  - rewrite demo_planes_eq.
    intros [|[|i]] [|[|j]] t u Hne Ht Hu; try done; injection Ht as <-; injection Hu as <-; by_compute.
  - by_compute.
  - unfold in_bounds. by_compute.
  - by_compute.
  - by_compute.
Defined.

Lemma reserve_bundle_atomic_witness :
  let rs := [(8, mkReservation (Some 1) 4)] in
  exists st', reserve_paged_kv_bundle rs demo_store4 = (Err BadAlloc, st') /\ st' = demo_store4.
Proof.
  intros rs. exists demo_store4.
  destruct (reserve_bundle_atomic rs demo_store4 (Err BadAlloc) demo_store4) as [(e & H & _)|[H _]].
  - vm_compute; reflexivity.
  - by_compute.
  - by_compute.
  - split; [vm_compute; reflexivity|done].
  - discriminate H.
Defined.

Lemma resize_bundle_atomic_witness :
  let cs := [mkResize (Some 7) 1 4] in
  exists st', resize_paged_kv_bundle cs demo_store4 = (Ok tt, st') /\
    st_allocs st' !! 7 = Some (mkAlloc (Some 1) [0] 4 1).
Proof.
  intros cs. exists (resize_paged_kv_bundle cs demo_store4).2.
  destruct (resize_bundle_atomic cs demo_store4 (Ok tt) (resize_paged_kv_bundle cs demo_store4).2)
    as [(e & H & _)|(_ & H & _)].
  - vm_compute; reflexivity.
  - by_compute.
  - discriminate H.
  - split; [vm_compute; reflexivity|].
    apply (H (mkResize (Some 7) 1 4) 7 (mkAlloc (Some 1) [0; 1] 3 1)).
    + by left.
    + done.
    + vm_compute; reflexivity.
Defined.
