(* ===== verification/Unicode.v ===== *)
(** * Unicode text: [src/text/unicode.cpp], [third_party/utf8proc]

    Strings are lists of bytes ([0 .. 255]).  [utf8proc_iterate] and [utf8proc_encode_char] are
    translated; the character tables of utf8proc (categories and normalization) are the class
    [CharacterTables]. *)
From S2P Require Import Prelude.
#[local] Open Scope Z_scope.

(** ** utf8proc *)

Definition utf_cont (ch : Z) : bool := Z.land ch 0xc0 =? 0x80.
Definition UTF8PROC_ERROR_INVALIDUTF8 : Z := -3.

(** [utf8proc_iterate]: the length of the sequence at the head of a string, negative when it is
    invalid, and its codepoint ([*dst]). *)
Definition utf8proc_iterate (str : list Z) : Z * Z :=
  let invalid := (UTF8PROC_ERROR_INVALIDUTF8, -1) in
  match str with
  | [] => (0, -1)
  | uc :: str =>
      if uc <? 0x80 then (1, uc)
      else if u32 (uc - 0xc2) >? 0xf4 - 0xc2 then invalid
      else if uc <? 0xe0 then
        match str with
        | s0 :: _ =>
            if negb (utf_cont s0) then invalid
            else (2, Z.lor (Z.shiftl (Z.land uc 0x1f) 6) (Z.land s0 0x3f))
        | _ => invalid
        end
      else if uc <? 0xf0 then
        match str with
        | s0 :: s1 :: _ =>
            if negb (utf_cont s0) || negb (utf_cont s1) then invalid
            else if (uc =? 0xed) && (s0 >? 0x9f) then invalid
            else
              let uc := Z.lor (Z.lor (Z.shiftl (Z.land uc 0xf) 12) (Z.shiftl (Z.land s0 0x3f) 6)) (Z.land s1 0x3f) in
              if uc <? 0x800 then invalid else (3, uc)
        | _ => invalid
        end
      else
        match str with
        | s0 :: s1 :: s2 :: _ =>
            if negb (utf_cont s0) || negb (utf_cont s1) || negb (utf_cont s2) then invalid
            else if (uc =? 0xf0) && (s0 <? 0x90) then invalid
            else if negb (uc =? 0xf0) && (uc =? 0xf4) && (s0 >? 0x8f) then invalid
            else (4, Z.lor (Z.lor (Z.lor (Z.shiftl (Z.land uc 7) 18) (Z.shiftl (Z.land s0 0x3f) 12))
                       (Z.shiftl (Z.land s1 0x3f) 6)) (Z.land s2 0x3f))
        | _ => invalid
        end
  end.

(** [utf8proc_encode_char]: the bytes written to [dst]; none when the codepoint is out of range. *)
Definition utf8proc_encode_char (uc : Z) : list Z :=
  if uc <? 0x00 then []
  else if uc <? 0x80 then [u8 uc]
  else if uc <? 0x800 then [u8 (0xC0 + Z.shiftr uc 6); u8 (0x80 + Z.land uc 0x3F)]
  else if uc <? 0x10000 then
    [u8 (0xE0 + Z.shiftr uc 12); u8 (0x80 + Z.land (Z.shiftr uc 6) 0x3F); u8 (0x80 + Z.land uc 0x3F)]
  else if uc <? 0x110000 then
    [u8 (0xF0 + Z.shiftr uc 18); u8 (0x80 + Z.land (Z.shiftr uc 12) 0x3F);
     u8 (0x80 + Z.land (Z.shiftr uc 6) 0x3F); u8 (0x80 + Z.land uc 0x3F)]
  else [].

(** ** [unicode.cpp] *)

Record CodepointSpan : Set := mkSpan { sp_value : Z; sp_offset : nat; sp_length : nat }.

(** [utf8_codepoints], from [offset] on.  A sequence that is read has a byte at least, so the length
    of the text is enough fuel. *)
Fixpoint codepoints_from (fuel : nat) (text : list Z) (offset : nat) : result (list CodepointSpan) :=
  match text, fuel with
  | [], _ => Ok []
  | _, O => Err LogicError
  | _, S fuel' =>
      let '(length, codepoint) := utf8proc_iterate text in
      do* throw_if (length <? 0) InvalidArgument;
      do* throw_if (length =? 0) InvalidArgument;
      let* spans := codepoints_from fuel' (drop (Z.to_nat length) text) (offset + Z.to_nat length) in
      Ok (mkSpan codepoint offset (Z.to_nat length) :: spans)
  end.
Definition utf8_codepoints (text : list Z) : result (list CodepointSpan) :=
  codepoints_from (length text) text 0.

Definition codepoint_to_utf8 (codepoint : Z) : result (list Z) :=
  let bytes := utf8proc_encode_char codepoint in
  do* throw_if (bool_decide (bytes = [])) InvalidArgument;
  Ok bytes.

(** The categories of utf8proc. *)
Inductive Category : Set :=
| CN | LU | LL | LT | LM | LO | MN | MC | ME | ND | NL | NO | PC | PD | PS | PE | PI | PF | PO | SM | SC | SK | SO
| ZS | ZL | ZP | CC | CF | CS | CO.

(** utf8proc's tables: a character's category and the composed form of a text, if it is valid. *)
Class CharacterTables : Type := {
  utf8proc_category : Z -> Category;
  utf8proc_map_nfc : list Z -> option (list Z);
}.

Section Tables.
Context `{CharacterTables}.

Definition normalize_nfc (text : list Z) : result (list Z) :=
  match utf8proc_map_nfc text with Some normalized => Ok normalized | None => Err InvalidArgument end.

Definition is_letter (codepoint : Z) : bool :=
  match utf8proc_category codepoint with LU | LL | LT | LM | LO => true | _ => false end.
Definition is_mark (codepoint : Z) : bool :=
  match utf8proc_category codepoint with MN | MC | ME => true | _ => false end.
Definition is_number (codepoint : Z) : bool :=
  match utf8proc_category codepoint with ND | NL | NO => true | _ => false end.
Definition is_ascii_whitespace (codepoint : Z) : bool :=
  (codepoint =? 32) || (codepoint =? 9) || (codepoint =? 10) || (codepoint =? 13) || (codepoint =? 11) || (codepoint =? 12).
Definition is_whitespace (codepoint : Z) : bool :=
  if is_ascii_whitespace codepoint then true
  else match utf8proc_category codepoint with ZS | ZL | ZP => true | _ => false end.
End Tables.
