(* ===== verification/UnicodeProofs.v ===== *)
(** * Correctness of the UTF-8 functions

    [utf8proc_iterate] and [utf8proc_encode_char] against the encoding of Unicode scalar values, and
    what [utf8_codepoints] returns. *)
From S2P Require Import Prelude Unicode.
#[local] Open Scope Z_scope.
#[local] Ltac Zify.zify_post_hook ::= Z.to_euclidean_division_equations.

(** ** The encoding *)

Definition is_byte (b : Z) : Prop := 0 <= b < 256.
Definition is_scalar (c : Z) : Prop := 0 <= c <= 0x10ffff /\ ~ 0xd800 <= c <= 0xdfff.
Definition continuation (v : Z) : Z := 0x80 + v mod 64.
Definition utf8_encode (c : Z) : list Z :=
  if c <? 0x80 then [c]
  else if c <? 0x800 then [0xc0 + c / 64; continuation c]
  else if c <? 0x10000 then [0xe0 + c / 4096; continuation (c / 64); continuation c]
  else [0xf0 + c / 262144; continuation (c / 4096); continuation (c / 64); continuation c].
Definition encode_all (cs : list Z) : list Z := concat (map utf8_encode cs).

Lemma encode_all_app a b : encode_all (a ++ b) = encode_all a ++ encode_all b.
Proof. unfold encode_all. by rewrite map_app, concat_app. Qed.

Lemma encode_length c : (1 <= length (utf8_encode c) <= 4)%nat.
Proof. unfold utf8_encode. repeat case_match; cbn; lia. Qed.

(** ** Bit operations *)

Lemma land_low b k : 0 <= k -> Z.land b (Z.ones k) = b mod 2 ^ k.
Proof. intros. by rewrite Z.land_ones. Qed.

Lemma land_mask b : is_byte b -> (Z.land b 0xc0 =? 0x80) = (0x80 <=? b) && (b <? 0xc0) /\ Z.land b 0x3f = b mod 64.
Proof.
  intros Hb. split; [|by apply (Z.land_ones b 6)].
  assert (Hall : forallb (fun b => Bool.eqb (Z.land b 0xc0 =? 0x80) ((0x80 <=? b) && (b <? 0xc0))) (map Z.of_nat (seq 0 256)) = true)
    by (vm_compute; reflexivity).
  rewrite forallb_forall in Hall. apply Bool.eqb_prop, Hall. apply in_map_iff. exists (Z.to_nat b). unfold is_byte in Hb.
  split; [lia|]. apply in_seq. lia.
Qed.

Lemma lor_low k u v : 0 <= k -> 0 <= v < 2 ^ k -> u mod 2 ^ k = 0 -> Z.lor u v = u + v.
Proof.
  intros Hk Hv Hu. assert (Hl : Z.land u v = 0).
  { rewrite <- (Z.mod_small v (2 ^ k)) by done. rewrite <- Z.land_ones by done.
    rewrite (Z.land_comm v), Z.land_assoc, (Z.land_ones u) by done. by rewrite Hu. }
  by rewrite <- Z.lxor_lor, <- Z.add_nocarry_lxor.
Qed.

Lemma lor_shift6 c v : 0 <= v < 64 -> Z.lor (Z.shiftl c 6) v = c * 64 + v.
Proof.
  intros Hv. rewrite Z.shiftl_mul_pow2 by lia. apply (lor_low 6); [lia|done|]. by apply Z.mod_mul.
Qed.

Lemma cont_spec b : is_byte b -> utf_cont b = (0x80 <=? b) && (b <? 0xc0).
Proof. intros Hb. apply (land_mask b Hb). Qed.

Lemma continuation_spec v : is_byte (continuation v) /\ (0x80 <=? continuation v) && (continuation v <? 0xc0) = true /\
  continuation v mod 64 = v mod 64.
Proof. unfold continuation, is_byte. pose proof (Z.mod_pos_bound v 64). repeat split; lia. Qed.

Lemma land_31 b : Z.land b 0x1f = b mod 32. Proof. by apply (land_low b 5). Qed.
Lemma land_15 b : Z.land b 0xf = b mod 16. Proof. by apply (land_low b 4). Qed.
Lemma land_7 b : Z.land b 7 = b mod 8. Proof. by apply (land_low b 3). Qed.
Lemma land_63 b : Z.land b 0x3f = b mod 64. Proof. by apply (land_low b 6). Qed.

Lemma bits_3 a b c : 0 <= b < 64 -> 0 <= c < 64 ->
  Z.lor (Z.lor (Z.shiftl a 12) (Z.shiftl b 6)) c = a * 4096 + b * 64 + c.
Proof.
  intros Hb Hc. rewrite !Z.shiftl_mul_pow2 by lia. change (2 ^ 12) with 4096. change (2 ^ 6) with 64.
  rewrite (lor_low 12 (a * 4096)) by lia. apply (lor_low 6); lia.
Qed.
Lemma bits_4 a b c d : 0 <= b < 64 -> 0 <= c < 64 -> 0 <= d < 64 ->
  Z.lor (Z.lor (Z.lor (Z.shiftl a 18) (Z.shiftl b 12)) (Z.shiftl c 6)) d = a * 262144 + b * 4096 + c * 64 + d.
Proof.
  intros Hb Hc Hd. rewrite !Z.shiftl_mul_pow2 by lia. change (2 ^ 18) with 262144. change (2 ^ 12) with 4096.
  change (2 ^ 6) with 64. rewrite (lor_low 18 (a * 262144)) by lia.
  rewrite (lor_low 12 (a * 262144 + b * 4096) (c * 64)); [|lia|lia|].
  - apply (lor_low 6); [lia|lia|]. change (2 ^ 6) with 64.
    replace (a * 262144 + b * 4096 + c * 64) with ((a * 4096 + b * 64 + c) * 64) by lia. by apply Z.mod_mul.
  - change (2 ^ 12) with 4096. replace (a * 262144 + b * 4096) with ((a * 64 + b) * 4096) by lia. by apply Z.mod_mul.
Qed.

(** A conditional whose test is decided by the hypotheses. *)
Ltac decide_test :=
  match goal with
  | |- context [if ?b then _ else _] =>
      let E := fresh "E" in
      first [assert (E : b = true) by lia | assert (E : b = false) by lia]; rewrite E; clear E
  end.

(** ** Reading a sequence *)

Lemma iterate_1 uc r : 0 <= uc < 0x80 -> utf8proc_iterate (uc :: r) = (1, uc).
Proof. intros. unfold utf8proc_iterate. by decide_test. Qed.

Lemma iterate_2 uc s0 r : 0xc2 <= uc < 0xe0 -> is_byte s0 ->
  utf8proc_iterate (uc :: s0 :: r) =
    if (0x80 <=? s0) && (s0 <? 0xc0) then (2, (uc - 0xc0) * 64 + s0 mod 64) else (UTF8PROC_ERROR_INVALIDUTF8, -1).
Proof.
  intros Hu H0. unfold utf8proc_iterate, u32. rewrite cont_spec by done. do 3 decide_test.
  destruct (_ && _); cbn [negb]; [|done]. rewrite land_31, land_63, lor_shift6 by lia. by replace (uc mod 32) with (uc - 0xc0) by lia.
Qed.

Lemma iterate_3 uc s0 s1 r : 0xe0 <= uc < 0xf0 -> is_byte s0 -> is_byte s1 ->
  utf8proc_iterate (uc :: s0 :: s1 :: r) =
    let c := (uc - 0xe0) * 4096 + s0 mod 64 * 64 + s1 mod 64 in
    if ((0x80 <=? s0) && (s0 <? 0xc0) && ((0x80 <=? s1) && (s1 <? 0xc0))) && ((0x800 <=? c) && negb ((0xd800 <=? c) && (c <=? 0xdfff)))
    then (3, c) else (UTF8PROC_ERROR_INVALIDUTF8, -1).
Proof.
  intros Hu H0 H1. unfold utf8proc_iterate, u32. rewrite !cont_spec by done. do 4 decide_test.
  rewrite land_15, !land_63, bits_3 by lia. replace (uc mod 16) with (uc - 0xe0) by lia. cbn zeta.
  set (c := _ + _). destruct ((0x80 <=? s0) && (s0 <? 0xc0)) eqn:C0, ((0x80 <=? s1) && (s1 <? 0xc0)) eqn:C1; cbn [negb orb andb]; try done.
  destruct ((uc =? 0xed) && (s0 >? 0x9f)) eqn:Es.
  - replace ((0xd800 <=? c) && (c <=? 0xdfff)) with true by (unfold c; lia). by rewrite andb_false_r.
  - replace ((0xd800 <=? c) && (c <=? 0xdfff)) with false by (unfold c, is_byte in *; lia). rewrite andb_true_r.
    destruct (Z.ltb_spec c 0x800), (Z.leb_spec 0x800 c); done || lia.
Qed.

Lemma iterate_4 uc s0 s1 s2 r : 0xf0 <= uc <= 0xf4 -> is_byte s0 -> is_byte s1 -> is_byte s2 ->
  utf8proc_iterate (uc :: s0 :: s1 :: s2 :: r) =
    let c := (uc - 0xf0) * 262144 + s0 mod 64 * 4096 + s1 mod 64 * 64 + s2 mod 64 in
    if ((0x80 <=? s0) && (s0 <? 0xc0) && ((0x80 <=? s1) && (s1 <? 0xc0)) && ((0x80 <=? s2) && (s2 <? 0xc0))) &&
       ((0x10000 <=? c) && (c <=? 0x10ffff))
    then (4, c) else (UTF8PROC_ERROR_INVALIDUTF8, -1).
Proof.
  intros Hu H0 H1 H2. unfold utf8proc_iterate, u32. rewrite !cont_spec by done. do 4 decide_test.
  rewrite land_7, !land_63, bits_4 by lia. replace (uc mod 8) with (uc - 0xf0) by lia. cbn zeta.
  set (c := _ + _). destruct ((0x80 <=? s0) && (s0 <? 0xc0)) eqn:C0, ((0x80 <=? s1) && (s1 <? 0xc0)) eqn:C1,
    ((0x80 <=? s2) && (s2 <? 0xc0)) eqn:C2; cbn [negb orb andb]; try done.
  destruct ((uc =? 0xf0) && (s0 <? 0x90)) eqn:Ea.
  - by replace ((0x10000 <=? c) && (c <=? 0x10ffff)) with false by (unfold c, is_byte in *; lia).
  - destruct (negb (uc =? 0xf0) && (uc =? 0xf4) && (s0 >? 0x8f)) eqn:Eb.
    + by replace ((0x10000 <=? c) && (c <=? 0x10ffff)) with false by (unfold c, is_byte in *; lia).
    + by replace ((0x10000 <=? c) && (c <=? 0x10ffff)) with true by (unfold c, is_byte in *; lia).
Qed.

Lemma iterate_encode c x : is_scalar c ->
  utf8proc_iterate (utf8_encode c ++ x) = (Z.of_nat (length (utf8_encode c)), c).
Proof.
  intros [Hr Hs]. unfold utf8_encode. destruct (continuation_spec c) as (B1 & C1 & D1).
  destruct (continuation_spec (c / 64)) as (B2 & C2 & D2). destruct (continuation_spec (c / 4096)) as (B3 & C3 & D3).
  destruct (Z.ltb_spec c 0x80); [|destruct (Z.ltb_spec c 0x800); [|destruct (Z.ltb_spec c 0x10000)]]; cbn [app length].
  - by rewrite iterate_1 by lia.
  - rewrite iterate_2 by (done || lia). rewrite C1, D1. f_equal. lia.
  - rewrite iterate_3 by (done || lia). rewrite C2, C1, D2, D1. cbn zeta.
    replace ((0xe0 + c / 4096 - 0xe0) * 4096 + (c / 64) mod 64 * 64 + c mod 64) with c by lia. by decide_test.
  - rewrite iterate_4 by (done || lia). rewrite C3, C2, C1, D3, D2, D1. cbn zeta.
    replace ((0xf0 + c / 262144 - 0xf0) * 262144 + (c / 4096) mod 64 * 4096 + (c / 64) mod 64 * 64 + c mod 64) with c by lia.
    by decide_test.
Qed.

Lemma iterate_invalid uc r : is_byte uc -> 0x80 <= uc -> ~ 0xc2 <= uc <= 0xf4 ->
  utf8proc_iterate (uc :: r) = (UTF8PROC_ERROR_INVALIDUTF8, -1).
Proof. intros Hb H1 H2. unfold is_byte in Hb. unfold utf8proc_iterate, u32. do 2 decide_test. done. Qed.

(** A sequence that is read is the encoding of a scalar value; the reading fails otherwise. *)
Lemma iterate_sound str n c :
  Forall is_byte str -> str <> [] -> utf8proc_iterate str = (n, c) ->
  n < 0 \/ is_scalar c /\ n = Z.of_nat (length (utf8_encode c)) /\ str = utf8_encode c ++ drop (Z.to_nat n) str.
Proof.
  intros Hb Hne E. destruct str as [|uc str]; [done|]. apply Forall_cons in Hb as [Hu Hb]. unfold is_byte in Hu.
  assert (Herr : (n, c) = (UTF8PROC_ERROR_INVALIDUTF8, -1) -> n < 0) by (intros [= -> _]; done).
  destruct (decide (uc < 0x80)).
  { rewrite iterate_1 in E by lia. injection E as <- <-. right. unfold is_scalar, utf8_encode. decide_test. split; [lia|done]. }
  destruct (decide (0xc2 <= uc <= 0xf4)) as [Hr|Hr]; [|rewrite iterate_invalid in E by (done || lia); left; by apply Herr].
  assert (Hshort : forall k, (length str < k)%nat -> (uc < 0xe0 -> k = 1%nat) -> (0xe0 <= uc < 0xf0 -> k = 2%nat) -> (0xf0 <= uc -> k = 3%nat) ->
    utf8proc_iterate (uc :: str) = (UTF8PROC_ERROR_INVALIDUTF8, -1)).
  { intros k Hk K1 K2 K3. unfold utf8proc_iterate, u32. do 2 decide_test.
    destruct (Z.ltb_spec uc 0xe0); [destruct str; [done|cbn in Hk; lia]|].
    destruct (Z.ltb_spec uc 0xf0); [destruct str as [|? []]; [done..|cbn in Hk; lia]|].
    destruct str as [|? [|? []]]; [done..|cbn in Hk; lia]. }
  destruct (decide (uc < 0xe0)); [|destruct (decide (uc < 0xf0))].
  - destruct str as [|s0 r]; [rewrite (Hshort 1%nat) in E by (cbn; lia); left; by apply Herr|].
    apply Forall_cons in Hb as [H0 _]. rewrite iterate_2 in E by (done || lia). destruct (_ && _) eqn:C; [|left; by apply Herr].
    injection E as <- <-. right. unfold is_scalar, utf8_encode, continuation. do 2 decide_test. split; [lia|]. split; [done|].
    cbn [app]. change (drop (Z.to_nat 2) (uc :: s0 :: r)) with r. repeat f_equal; lia.
  - destruct str as [|s0 [|s1 r]]; [rewrite (Hshort 2%nat) in E by (cbn; lia); left; by apply Herr..|].
    apply Forall_cons in Hb as [H0 Hb]. apply Forall_cons in Hb as [H1 _]. rewrite iterate_3 in E by (done || lia). cbn zeta in E.
    destruct (_ && _) eqn:C in E; [|left; by apply Herr].
    injection E as <- <-. right. unfold is_scalar, utf8_encode, continuation. do 3 decide_test. split; [lia|]. split; [done|].
    cbn [app]. change (drop (Z.to_nat 3) (uc :: s0 :: s1 :: r)) with r. repeat f_equal; lia.
  - destruct str as [|s0 [|s1 [|s2 r]]]; [rewrite (Hshort 3%nat) in E by (cbn; lia); left; by apply Herr..|].
    apply Forall_cons in Hb as [H0 Hb]. apply Forall_cons in Hb as [H1 Hb]. apply Forall_cons in Hb as [H2 _].
    rewrite iterate_4 in E by (done || lia). cbn zeta in E. destruct (_ && _) eqn:C in E; [|left; by apply Herr].
    injection E as <- <-. right. unfold is_scalar, utf8_encode, continuation. do 3 decide_test. split; [lia|]. split; [done|].
    cbn [app]. change (drop (Z.to_nat 4) (uc :: s0 :: s1 :: s2 :: r)) with r. repeat f_equal; lia.
Qed.

(** Writing: the encoder is the encoding. *)
Lemma encode_char_encode c : 0 <= c <= 0x10ffff -> utf8proc_encode_char c = utf8_encode c.
Proof.
  intros Hc. unfold utf8proc_encode_char, utf8_encode, u8, continuation. rewrite !Z.shiftr_div_pow2 by lia.
  change (2 ^ 6) with 64. change (2 ^ 12) with 4096. change (2 ^ 18) with 262144. decide_test.
  change 63 with (Z.ones 6). rewrite !Z.land_ones by lia. change (2 ^ 6) with 64.
  destruct (Z.ltb_spec c 0x80); [|destruct (Z.ltb_spec c 0x800); [|destruct (Z.ltb_spec c 0x10000)]]; [..|decide_test];
    repeat f_equal; lia.
Qed.

(** ** Reading a text *)

(** The spans of the characters [cs], the first of them at [offset]. *)
Fixpoint spans_from (cs : list Z) (offset : nat) : list CodepointSpan :=
  match cs with
  | [] => []
  | c :: cs' => mkSpan c offset (length (utf8_encode c)) :: spans_from cs' (offset + length (utf8_encode c))
  end.

Lemma codepoints_encode fuel cs offset :
  (length (encode_all cs) <= fuel)%nat -> Forall is_scalar cs ->
  codepoints_from fuel (encode_all cs) offset = Ok (spans_from cs offset).
Proof.
  intros Hf Hs. revert fuel offset Hf. induction Hs as [|c cs Hc Hs IH]; intros fuel offset Hf; [by destruct fuel|].
  unfold encode_all in *. cbn [map concat] in *. rewrite length_app in Hf. pose proof (encode_length c) as Hl.
  pose proof (iterate_encode c (concat (map utf8_encode cs)) Hc) as Ei.
  destruct (utf8_encode c ++ concat (map utf8_encode cs)) as [|b r] eqn:E.
  { apply (f_equal length) in E. rewrite length_app in E. cbn in E. lia. }
  destruct fuel as [|fuel]; [lia|]. cbn [codepoints_from]. rewrite Ei. cbn [rbind].
  replace (_ <? 0) with false by lia. replace (_ =? 0) with false by lia. cbn [throw_if rbind]. rewrite Nat2Z.id, <- E.
  rewrite drop_app_length, IH by lia. done.
Qed.

Lemma codepoints_sound fuel text offset spans :
  (length text <= fuel)%nat -> Forall is_byte text -> codepoints_from fuel text offset = Ok spans ->
  exists cs, Forall is_scalar cs /\ text = encode_all cs /\ spans = spans_from cs offset.
Proof.
  revert text offset spans. induction fuel as [|fuel IH]; intros text offset spans Hf Hb.
  - destruct text; [|cbn in Hf; lia]. intros [= <-]. by exists [].
  - destruct text as [|b r] eqn:Et; [intros [= <-]; by exists []|]. rewrite <- Et in *. cbn [codepoints_from].
    assert (Hne : text <> []) by (by subst). destruct (utf8proc_iterate text) as [n c] eqn:Ei. rewrite Et. rewrite <- Et. cbn [rbind].
    destruct (iterate_sound text n c Hb Hne Ei) as [Hn|(Hc & Hn & Hx)].
    { replace (n <? 0) with true by lia. done. }
    pose proof (encode_length c). replace (n <? 0) with false by lia. replace (n =? 0) with false by lia. cbn [throw_if rbind].
    destruct (codepoints_from fuel _ _) as [rest|] eqn:Er; cbn [rbind]; [|done]. intros [= <-].
    assert (Hfl : (length (drop (Z.to_nat n) text) <= fuel)%nat) by (rewrite length_drop; lia).
    destruct (IH _ _ _ Hfl (Forall_drop _ _ _ Hb) Er) as (cs & H1 & H2 & H3).
    exists (c :: cs). split; [by constructor|]. unfold encode_all in *. cbn [map concat spans_from].
    assert (Hln : Z.to_nat n = length (utf8_encode c)) by lia. rewrite Hln in *. by rewrite <- H2, <- H3.
Qed.

Lemma codepoints_error fuel text offset e :
  (length text <= fuel)%nat -> Forall is_byte text -> codepoints_from fuel text offset = Err e -> e = InvalidArgument.
Proof.
  revert text offset. induction fuel as [|fuel IH]; intros text offset Hf Hb.
  - destruct text; [done|cbn in Hf; lia].
  - destruct text as [|b r] eqn:Et; [done|]. rewrite <- Et in *. cbn [codepoints_from].
    assert (Hne : text <> []) by (by subst). destruct (utf8proc_iterate text) as [n c] eqn:Ei. rewrite Et. rewrite <- Et. cbn [rbind].
    destruct (iterate_sound text n c Hb Hne Ei) as [Hn|(Hc & Hn & Hx)].
    { replace (n <? 0) with true by lia. by intros [= <-]. }
    pose proof (encode_length c). replace (n <? 0) with false by lia. replace (n =? 0) with false by lia. cbn [throw_if rbind].
    destruct (codepoints_from fuel _ _) as [rest|e'] eqn:Er; cbn [rbind]; [done|]. intros [= <-].
    eapply IH; [|by apply Forall_drop|exact Er]. rewrite length_drop. lia.
Qed.

(** [utf8_codepoints] accepts exactly the encodings of Unicode scalar values, and returns them with where
    they are: reading is the inverse of writing. *)
Theorem utf8_codepoints_exact text spans :
  Forall is_byte text ->
  utf8_codepoints text = Ok spans <->
  exists cs, Forall is_scalar cs /\ text = concat (map utf8proc_encode_char cs) /\ spans = spans_from cs 0.
Proof.
  intros Hb. assert (He : forall cs, Forall is_scalar cs -> concat (map utf8proc_encode_char cs) = encode_all cs).
  { intros cs Hcs. unfold encode_all. f_equal. apply map_ext_in. intros c Hin%list_elem_of_In. apply encode_char_encode.
    rewrite Forall_forall in Hcs. apply (Hcs c Hin). }
  split.
  - intros E. destruct (codepoints_sound _ _ _ _ (Nat.le_refl _) Hb E) as (cs & H1 & H2 & H3). exists cs. by rewrite He.
  - intros (cs & H1 & -> & ->). rewrite He by done. by apply codepoints_encode.
Qed.

Lemma utf8_codepoints_exact_witness :
  utf8_codepoints [0x61; 0xe2; 0x82; 0xac] = Ok [mkSpan 0x61 0 1; mkSpan 0x20ac 1 3].
Proof.
  apply (utf8_codepoints_exact [0x61; 0xe2; 0x82; 0xac]).
  - unfold is_byte. repeat constructor; lia.
  - exists [0x61; 0x20ac]. split; [|split; reflexivity]. unfold is_scalar. repeat constructor; lia.
Defined.
