(* ===== verification/Admission.v ===== *)
(** * Protected admission: [runtime/engine/admission_policy]

    When the request at the head of the queue does not fit beside the active requests, the engine
    freezes them: the earliest finishing prefix whose release makes room for the head becomes the
    set of donors.  Later requests may still be admitted (backfilled) when they cannot delay the
    head: persistently, when the head still fits after the donors left, or temporarily, on credit
    of the last donor's remaining work. *)
From S2P Require Import Prelude.
#[local] Open Scope Z_scope.

Definition kMaximumConcurrency : nat := 8.

(** ** Data *)

Record AdmissionResources : Set := mkResources {
  active_lanes : Z; main_kv_pages : Z; backend_kv_pages : Z;
}.

Inductive BackfillClass : Set := BF_None | BF_Persistent | BF_Temporal.

Record ActiveAdmissionSnapshot : Set := mkSnapshot {
  request_id : Z;
  resources : AdmissionResources;
  remaining_work_quanta : Z;
  backfill_epoch : Z;
  backfill_class : BackfillClass;
}.

Inductive ProtectionPhase : Set := Open_ | Drain.

(** The arrays with their counts are lists. *)
Record AdmissionProtection : Set := mkProtection {
  epoch_id : Z;
  head_request_id : Z;
  head_resources : AdmissionResources;
  incumbent_ids : list Z;
  donor_ids : list Z;
  temporal_credit : Z;
  phase : ProtectionPhase;
}.

#[export] Instance AdmissionResources_eq_dec : EqDecision AdmissionResources.
Proof. solve_decision. Defined.
#[export] Instance BackfillClass_eq_dec : EqDecision BackfillClass.
Proof. solve_decision. Defined.
#[export] Instance ActiveAdmissionSnapshot_eq_dec : EqDecision ActiveAdmissionSnapshot.
Proof. solve_decision. Defined.
#[export] Instance ProtectionPhase_eq_dec : EqDecision ProtectionPhase.
Proof. solve_decision. Defined.
#[export] Instance AdmissionProtection_eq_dec : EqDecision AdmissionProtection.
Proof. solve_decision. Defined.

(** [ResourceTotals]: 64-bit sums. *)
Record ResourceTotals : Set := mkTotals {
  t_active_lanes : Z; t_main_kv_pages : Z; t_backend_kv_pages : Z;
}.
Definition ResourceTotals_zero : ResourceTotals := mkTotals 0 0 0.

(** ** Arithmetic *)

Definition add (total : ResourceTotals) (r : AdmissionResources) : ResourceTotals :=
  mkTotals (u64 (t_active_lanes total + active_lanes r))
    (u64 (t_main_kv_pages total + main_kv_pages r))
    (u64 (t_backend_kv_pages total + backend_kv_pages r)).

Definition subtract (total : ResourceTotals) (r : AdmissionResources) : result ResourceTotals :=
  do* throw_if ((active_lanes r >? t_active_lanes total) || (main_kv_pages r >? t_main_kv_pages total) ||
                (backend_kv_pages r >? t_backend_kv_pages total)) LogicError;
  Ok (mkTotals (t_active_lanes total - active_lanes r) (t_main_kv_pages total - main_kv_pages r)
        (t_backend_kv_pages total - backend_kv_pages r)).

Definition fits (used : ResourceTotals) (capacity : AdmissionResources) : bool :=
  (t_active_lanes used <=? active_lanes capacity) &&
  (t_main_kv_pages used <=? main_kv_pages capacity) &&
  (t_backend_kv_pages used <=? backend_kv_pages capacity).

Definition contains (ids : list Z) (id : Z) : bool := existsb (Z.eqb id) ids.
Definition is_incumbent (p : AdmissionProtection) (id : Z) : bool := contains (incumbent_ids p) id.
Definition is_donor (p : AdmissionProtection) (id : Z) : bool := contains (donor_ids p) id.

Definition admission_resources_fit (used capacity : AdmissionResources) : bool :=
  fits (add ResourceTotals_zero used) capacity.

(** ** Freezing the frontier *)

(** The comparison of the sort: earlier completion first, then the smaller id. *)
Definition completes_before (a b : ActiveAdmissionSnapshot) : Prop :=
  remaining_work_quanta a < remaining_work_quanta b \/
  (remaining_work_quanta a = remaining_work_quanta b /\ request_id a <= request_id b).
#[export] Instance completes_before_dec a b : Decision (completes_before a b).
Proof. unfold completes_before; apply _. Defined.

(** The last loop of [make_admission_protection]. *)
Fixpoint take_donors (capacity : AdmissionResources) (out : AdmissionProtection)
    (survivors : ResourceTotals) (order : list ActiveAdmissionSnapshot) : result AdmissionProtection :=
  match order with
  | [] => Err LogicError
  | donor :: order' =>
      let* survivors' := subtract survivors (resources donor) in
      let out' := mkProtection (epoch_id out) (head_request_id out) (head_resources out)
                    (incumbent_ids out) (donor_ids out ++ [request_id donor])
                    (remaining_work_quanta donor) (phase out) in
      if fits survivors' capacity then Ok out' else take_donors capacity out' survivors' order'
  end.

Definition make_admission_protection (epoch head : Z) (head_res : AdmissionResources)
    (active : list ActiveAdmissionSnapshot) (capacity : AdmissionResources)
    : result AdmissionProtection :=
  do* throw_if ((epoch =? 0) || (head =? 0) || bool_decide (active = []) ||
                (kMaximumConcurrency <? length active)%nat || (active_lanes head_res =? 0) ||
                negb (admission_resources_fit head_res capacity)) InvalidArgument;
  do* throw_if (existsb (fun a => (request_id a =? 0) || (remaining_work_quanta a =? 0)) active)
        InvalidArgument;
  let out := mkProtection epoch head head_res (request_id <$> active) [] 0 Open_ in
  let survivors := add (foldl (fun t a => add t (resources a)) ResourceTotals_zero active) head_res in
  do* throw_if (fits survivors capacity) InvalidArgument;
  take_donors capacity out survivors (merge_sort completes_before active).

(** ** Backfill decisions *)

(** The body of the loop of [persistent_backfill_is_safe]. *)
Definition future_step (p : AdmissionProtection) (future : ResourceTotals)
    (request : ActiveAdmissionSnapshot) : ResourceTotals :=
  if is_incumbent p (request_id request) then
    if is_donor p (request_id request) then future else add future (resources request)
  else if (backfill_epoch request =? epoch_id p) &&
          bool_decide (backfill_class request = BF_Persistent)
       then add future (resources request) else future.

Definition persistent_backfill_is_safe (p : AdmissionProtection)
    (active : list ActiveAdmissionSnapshot) (candidate capacity : AdmissionResources) : bool :=
  let future := foldl (future_step p) (add ResourceTotals_zero (head_resources p)) active in
  fits (add future candidate) capacity.

Definition protection_frontier_distance (p : AdmissionProtection)
    (active : list ActiveAdmissionSnapshot) : Z :=
  foldl (fun distance request =>
    if is_donor p (request_id request) then Z.max distance (remaining_work_quanta request)
    else distance) 0 active.

Definition without_temporal_step (p : AdmissionProtection) (used : ResourceTotals)
    (request : ActiveAdmissionSnapshot) : ResourceTotals :=
  if is_incumbent p (request_id request) || negb (backfill_epoch request =? epoch_id p) ||
     negb (bool_decide (backfill_class request = BF_Temporal))
  then add used (resources request) else used.

Definition protected_head_safe_without_temporal (p : AdmissionProtection)
    (active : list ActiveAdmissionSnapshot) (capacity : AdmissionResources) : bool :=
  fits (foldl (without_temporal_step p) (add ResourceTotals_zero (head_resources p)) active) capacity.
