(* ===== verification/AdmissionProofs.v ===== *)
(** * Correctness of protected admission

    Totals never wrap for the eight lanes of an engine, the donors are the shortest completion
    prefix that makes room for the head, and backfilling never takes that room away again. *)
From S2P Require Import Prelude Admission.
#[local] Open Scope Z_scope.

(** ** Exact totals *)

Definition res_u32 (r : AdmissionResources) : Prop :=
  is_u32 (active_lanes r) /\ is_u32 (main_kv_pages r) /\ is_u32 (backend_kv_pages r).

Fixpoint sum_of (f : AdmissionResources -> Z) (l : list AdmissionResources) : Z :=
  match l with [] => 0 | r :: l' => f r + sum_of f l' end.

(** The unwrapped total of a list of reservations. *)
Definition total (l : list AdmissionResources) : ResourceTotals :=
  mkTotals (sum_of active_lanes l) (sum_of main_kv_pages l) (sum_of backend_kv_pages l).

Definition fits_Z (t : ResourceTotals) (c : AdmissionResources) : Prop :=
  t_active_lanes t <= active_lanes c /\ t_main_kv_pages t <= main_kv_pages c /\
  t_backend_kv_pages t <= backend_kv_pages c.

Lemma fits_spec t c : fits t c = true <-> fits_Z t c.
Proof. unfold fits, fits_Z. rewrite !andb_true_iff, !Z.leb_le. tauto. Qed.

Lemma sum_of_app f l1 l2 : sum_of f (l1 ++ l2) = sum_of f l1 + sum_of f l2.
Proof. induction l1 as [|x l1 IH]; cbn; [|rewrite IH]; lia. Qed.

#[export] Instance sum_of_Proper f : Proper (Permutation ==> eq) (sum_of f).
Proof. intros l l' H; induction H; cbn; lia. Qed.
#[export] Instance total_Proper : Proper (Permutation ==> eq) total.
Proof. intros l l' H; unfold total; by rewrite H. Qed.

Lemma sum_of_range f l :
  Forall (fun r => is_u32 (f r)) l -> 0 <= sum_of f l <= Z.of_nat (length l) * u32_max.
Proof. induction 1; cbn [sum_of length]; unfold_ints; lia. Qed.

Lemma res_u32_fields l :
  Forall res_u32 l -> Forall (fun r => is_u32 (active_lanes r)) l /\
  Forall (fun r => is_u32 (main_kv_pages r)) l /\ Forall (fun r => is_u32 (backend_kv_pages r)) l.
Proof. intros H. split_and!; (eapply Forall_impl; [exact H|]); by intros r (? & ? & ?). Qed.

Lemma total_range l :
  Forall res_u32 l ->
  0 <= t_active_lanes (total l) <= Z.of_nat (length l) * u32_max /\
  0 <= t_main_kv_pages (total l) <= Z.of_nat (length l) * u32_max /\
  0 <= t_backend_kv_pages (total l) <= Z.of_nat (length l) * u32_max.
Proof. intros (H1 & H2 & H3)%res_u32_fields. cbn. auto using sum_of_range. Qed.

(** Adding one more reservation never wraps while there are few. *)
Lemma add_total l r :
  Forall res_u32 l -> res_u32 r -> (length l <= 64)%nat -> add (total l) r = total (l ++ [r]).
Proof.
  intros Hl (H1 & H2 & H3) Hn. destruct (total_range l Hl) as (R1 & R2 & R3). unfold_ints.
  unfold add, total in *; cbn in *. rewrite !sum_of_app; cbn.
  rewrite !u64_small by (unfold_ints; lia). f_equal; lia.
Qed.

Lemma add_zero r : res_u32 r -> add ResourceTotals_zero r = total [r].
Proof. intros H. apply (add_total [] r); [constructor|done|cbn; lia]. Qed.

(** The conditional accumulation loops of the policy compute exact totals. *)
Lemma foldl_add_total (c : ActiveAdmissionSnapshot -> bool) l0 l :
  Forall res_u32 l0 -> Forall (fun a => res_u32 (resources a)) l ->
  (length l0 + length l <= 64)%nat ->
  foldl (fun t a => if c a then add t (resources a) else t) (total l0) l =
  total (l0 ++ (resources <$> filter (fun a => c a = true) l)).
Proof.
  intros Hl0 Hl. revert l0 Hl0; induction Hl as [|a l Ha Hl IH]; intros l0 Hl0 Hn; cbn [foldl length] in *.
  - by rewrite app_nil_r.
  - rewrite filter_cons. destruct (c a) eqn:Hc; case_decide; try congruence.
    + rewrite add_total by (done || lia). rewrite IH; [|by apply Forall_app_2; [|constructor; [|constructor]]|rewrite length_app; cbn; lia].
      by rewrite fmap_cons, <- app_assoc.
    + rewrite IH by (done || lia). done.
Qed.

(** ** Donors *)

(** What remains when the first [k] requests of the completion order are gone. *)
Definition survivors (head : AdmissionResources) (order : list ActiveAdmissionSnapshot) (k : nat)
  : ResourceTotals := total (head :: (resources <$> drop k order)).

Lemma subtract_total (r : AdmissionResources) h l :
  Forall res_u32 l -> res_u32 h -> subtract (total (h :: r :: l)) r = Ok (total (h :: l)).
Proof.
  intros Hl Hh. destruct (total_range (h :: l) ltac:(by constructor)) as (R1 & R2 & R3).
  unfold subtract, total in *; cbn in *.
  destruct (Z.gtb_spec (active_lanes r) (active_lanes h + (active_lanes r + sum_of active_lanes l))); [lia|].
  destruct (Z.gtb_spec (main_kv_pages r) (main_kv_pages h + (main_kv_pages r + sum_of main_kv_pages l))); [lia|].
  destruct (Z.gtb_spec (backend_kv_pages r) (backend_kv_pages h + (backend_kv_pages r + sum_of backend_kv_pages l))); [lia|].
  cbn. f_equal. f_equal; lia.
Qed.

Lemma take_donors_spec capacity out head order :
  res_u32 head -> Forall (fun a => res_u32 (resources a)) order ->
  fits_Z (total [head]) capacity -> order <> [] ->
  exists k, (k < length order)%nat /\
    take_donors capacity out (survivors head order 0) order =
      Ok (mkProtection (epoch_id out) (head_request_id out) (head_resources out) (incumbent_ids out)
            (donor_ids out ++ (request_id <$> take (S k) order))
            (default 0 (remaining_work_quanta <$> order !! k)) (phase out)) /\
    fits_Z (survivors head order (S k)) capacity /\
    forall j, (0 < j <= k)%nat -> ~ fits_Z (survivors head order j) capacity.
Proof.
  intros Hh Ho Hcap Hne. revert out Hne; induction Ho as [|d order Hd Ho IH]; intros out Hne; [done|].
  cbn [take_donors]. unfold survivors at 1. rewrite drop_0, fmap_cons.
  rewrite subtract_total by (try done; by apply Forall_fmap). cbn [rbind].
  change (total (head :: (resources <$> order))) with (survivors head (d :: order) 1).
  destruct (fits (survivors head (d :: order) 1) capacity) eqn:Hf.
  - exists 0%nat. split_and!; [cbn; lia|done|by apply fits_spec|intros; lia].
  - destruct order as [|d2 order'] eqn:Horder.
    { exfalso. assert (fits (survivors head [d] 1) capacity = true) by by apply fits_spec.
      congruence. }
    rewrite <- Horder in *.
    destruct (IH (mkProtection (epoch_id out) (head_request_id out) (head_resources out)
       (incumbent_ids out) (donor_ids out ++ [request_id d]) (remaining_work_quanta d) (phase out)))
      as (k & Hk & Ht & Hfit & Hmin); [by rewrite Horder|].
    exists (S k). split_and!; [cbn; lia| |done|].
    + change (survivors head (d :: order) 1) with (survivors head order 0). rewrite Ht; cbn.
      by rewrite <- app_assoc.
    + intros j Hj Hbad. destruct j as [|[|j]]; [lia| |].
      * apply fits_spec in Hbad. congruence.
      * apply (Hmin (S j)); [lia|done].
Qed.

#[export] Instance completes_before_total : Total completes_before.
Proof. intros a b. unfold completes_before. lia. Qed.
#[export] Instance completes_before_trans : Transitive completes_before.
Proof. intros a b c. unfold completes_before. lia. Qed.

(** The requests in the order in which they are expected to complete. *)
Definition completion_order (active : list ActiveAdmissionSnapshot) : list ActiveAdmissionSnapshot :=
  merge_sort completes_before active.

(** What the engine hands to the policy. *)
Record frontier_input (epoch head : Z) (head_res : AdmissionResources)
    (active : list ActiveAdmissionSnapshot) (capacity : AdmissionResources) : Prop := {
  fi_ids : epoch <> 0 /\ head <> 0 /\ active_lanes head_res <> 0;
  fi_active : (1 <= length active <= kMaximumConcurrency)%nat;
  fi_u32 : res_u32 head_res /\ Forall (fun a => res_u32 (resources a)) active;
  fi_progress : Forall (fun a => request_id a <> 0 /\ 0 < remaining_work_quanta a) active;
  fi_alone : fits_Z (total [head_res]) capacity;
  fi_blocked : ~ fits_Z (total (head_res :: (resources <$> active))) capacity;
}.

Lemma fits_false t c : fits t c = false <-> ~ fits_Z t c.
Proof. rewrite <- fits_spec. by destruct (fits t c). Qed.

Lemma head_total head_res active :
  res_u32 head_res -> Forall (fun a => res_u32 (resources a)) active ->
  (length active <= kMaximumConcurrency)%nat ->
  add (foldl (fun t a => add t (resources a)) ResourceTotals_zero active) head_res =
    total (head_res :: (resources <$> active)).
Proof.
  intros Hh Ha Hlen. unfold kMaximumConcurrency in Hlen.
  pose proof (foldl_add_total (fun _ => true) [] active ltac:(constructor) Ha ltac:(cbn; lia)) as Hf.
  cbn in Hf. change (total []) with ResourceTotals_zero in Hf. rewrite Hf.
  rewrite filter_all by (apply Forall_forall; done).
  rewrite add_total; [|by apply Forall_fmap|done|rewrite length_fmap; lia].
  by rewrite Permutation_app_comm.
Qed.

(** The arguments the policy accepts are exactly a blocked head that fits alone. *)
Lemma make_protection_input epoch head head_res active capacity p :
  res_u32 head_res -> Forall (fun a => res_u32 (resources a)) active ->
  Forall (fun a => is_u64 (remaining_work_quanta a)) active ->
  make_admission_protection epoch head head_res active capacity = Ok p ->
  frontier_input epoch head head_res active capacity.
Proof.
  intros Hh Ha H64 H. unfold make_admission_protection in H. rinv.
  match goal with H : (kMaximumConcurrency <? _)%nat = false |- _ => apply Nat.ltb_ge in H end.
  rewrite head_total in * by done.
  unfold admission_resources_fit in *. rewrite add_zero in * by done.
  constructor; try done.
  - destruct active; [done|cbn in *; lia].
  - match goal with H : existsb _ _ = false |- _ => apply existsb_false in H; rename H into Hex end.
    apply Forall_forall. intros a Hin. rewrite Forall_forall in Hex, H64.
    specialize (Hex _ Hin). specialize (H64 _ Hin). cbn in Hex, H64. bprop. unfold_ints. lia.
  - by apply fits_spec.
  - by apply fits_false.
Qed.

(** freezing the frontier never fails on a blocked head that fits alone, and selects the
    shortest completion prefix whose release makes room for the head: it makes room, no shorter
    prefix does, and the temporal credit is the longest remaining work among the donors. *)
Theorem protection_is_shortest_prefix epoch head head_res active capacity :
  frontier_input epoch head head_res active capacity ->
  exists p k, make_admission_protection epoch head head_res active capacity = Ok p /\
    (k < length active)%nat /\
    donor_ids p = request_id <$> take (S k) (completion_order active) /\
    incumbent_ids p = request_id <$> active /\ phase p = Open_ /\ epoch_id p = epoch /\
    head_request_id p = head /\ head_resources p = head_res /\
    fits_Z (survivors head_res (completion_order active) (S k)) capacity /\
    (forall j, (j <= k)%nat -> ~ fits_Z (survivors head_res (completion_order active) j) capacity) /\
    Forall (fun a => remaining_work_quanta a <= temporal_credit p) (take (S k) (completion_order active)) /\
    temporal_credit p ∈ remaining_work_quanta <$> take (S k) (completion_order active).
Proof.
  intros [(He & Hhd & Hl) Hlen [Hu Hua] Hprog Halone Hblk]. unfold completion_order.
  pose proof (merge_sort_Permutation completes_before active) as Hperm.
  pose proof (StronglySorted_merge_sort completes_before active) as Hsort.
  pose proof (head_total head_res active Hu Hua ltac:(lia)) as Htot.
  assert (Hs0 : total (head_res :: (resources <$> active)) =
    survivors head_res (merge_sort completes_before active) 0).
  { unfold survivors. rewrite drop_0. by rewrite Hperm. }
  assert (Hleno : length (merge_sort completes_before active) = length active) by by rewrite Hperm.
  unfold make_admission_protection. rewrite Htot, Hs0 in *.
  rewrite (proj2 (Z.eqb_neq _ _) He), (proj2 (Z.eqb_neq _ _) Hhd), (proj2 (Z.eqb_neq _ _) Hl).
  rewrite bool_decide_eq_false_2 by (intros ->; cbn in Hlen; lia).
  rewrite (proj2 (Nat.ltb_ge _ _)) by lia. unfold admission_resources_fit.
  rewrite add_zero by done. rewrite (proj2 (fits_spec _ _) Halone). cbn [orb negb throw_if rbind].
  assert (Hex : existsb (fun a => (request_id a =? 0) || (remaining_work_quanta a =? 0)) active = false).
  { apply existsb_false. eapply Forall_impl; [exact Hprog|]. intros a [H1 H2].
    by rewrite (proj2 (Z.eqb_neq _ _) H1), (proj2 (Z.eqb_neq (remaining_work_quanta a) 0)) by lia. }
  rewrite Hex. cbn [throw_if rbind].
  rewrite (proj2 (fits_false _ _) Hblk). cbn [throw_if rbind].
  set (order := merge_sort completes_before active) in *.
  assert (Huo : Forall (fun a => res_u32 (resources a)) order) by by rewrite Hperm.
  edestruct (take_donors_spec capacity) as (k & Hk & Ht & Hf & Hmin); [exact Hu|exact Huo|exact Halone| |].
  { intros E. rewrite E in Hleno. cbn in Hleno. lia. }
  eexists _, k. split; [exact Ht|]. cbn. split_and!; try done; [lia|..].
  - intros j Hj. destruct j as [|j]; [done|]. apply Hmin. lia.
  - destruct (lookup_lt_is_Some_2 order k Hk) as [d Hd]. rewrite Hd. cbn.
    rewrite (take_S_r _ _ _ Hd). apply Forall_app. split; [|by repeat constructor].
    apply Forall_forall. intros a Ha. apply list_elem_of_lookup in Ha as [i Hi].
    apply lookup_take_Some in Hi as [Hi Hik].
    rewrite <- (take_drop_middle _ _ _ Hd) in Hsort.
    assert (Hin : a ∈ take k order) by (apply list_elem_of_lookup; exists i; by apply lookup_take_Some).
    pose proof (StronglySorted_app_1_elem_of _ _ _ a d Hsort Hin ltac:(by left)) as Hc.
    unfold completes_before in Hc. lia.
  - destruct (lookup_lt_is_Some_2 order k Hk) as [d Hd]. rewrite Hd. cbn.
    rewrite (take_S_r _ _ _ Hd), fmap_app. apply elem_of_app. right. by left.
Qed.

(** ** The backfill system *)

(** The active requests while one protection is held, and its remaining credit. *)
Record bf_state : Set := mkBF { bf_active : list ActiveAdmissionSnapshot; bf_credit : Z }.

Section Backfill.
Context (p : AdmissionProtection) (capacity : AdmissionResources).

(** Active requests make progress and finish; the engine backfills candidates it checked. *)
Inductive bf_step : bf_state -> bf_state -> Prop :=
| bf_progress l1 a l2 w cr :
    0 < w <= remaining_work_quanta a ->
    bf_step (mkBF (l1 ++ a :: l2) cr)
      (mkBF (l1 ++ mkSnapshot (request_id a) (resources a) w (backfill_epoch a) (backfill_class a) :: l2) cr)
| bf_finish l1 a l2 cr : bf_step (mkBF (l1 ++ a :: l2) cr) (mkBF (l1 ++ l2) cr)
| bf_persistent act act' c cr :
    (length act < kMaximumConcurrency)%nat -> act' ≡ₚ c :: act -> res_u32 (resources c) ->
    request_id c ∉ incumbent_ids p -> backfill_epoch c = epoch_id p ->
    backfill_class c = BF_Persistent ->
    persistent_backfill_is_safe p act (resources c) capacity = true ->
    bf_step (mkBF act cr) (mkBF act' cr)
| bf_temporal act act' c cr :
    (length act < kMaximumConcurrency)%nat -> act' ≡ₚ c :: act -> res_u32 (resources c) ->
    request_id c ∉ incumbent_ids p -> backfill_epoch c = epoch_id p ->
    backfill_class c = BF_Temporal ->
    0 < remaining_work_quanta c <= protection_frontier_distance p act ->
    remaining_work_quanta c <= cr ->
    bf_step (mkBF act cr) (mkBF act' (cr - remaining_work_quanta c)).

(** The requests [persistent_backfill_is_safe] counts. *)
Definition in_frontier (a : ActiveAdmissionSnapshot) : bool :=
  if is_incumbent p (request_id a) then negb (is_donor p (request_id a))
  else (backfill_epoch a =? epoch_id p) && bool_decide (backfill_class a = BF_Persistent).

Definition frontier (act : list ActiveAdmissionSnapshot) : list AdmissionResources :=
  head_resources p :: (resources <$> filter (fun a => in_frontier a = true) act).

Lemma future_step_eq t a :
  future_step p t a = if in_frontier a then add t (resources a) else t.
Proof.
  unfold future_step, in_frontier. destruct (is_incumbent _ _); [by destruct (is_donor _ _)|].
  by destruct (_ && _).
Qed.

Definition acts_ok (act : list ActiveAdmissionSnapshot) : Prop :=
  Forall (fun a => res_u32 (resources a)) act /\ (length act <= kMaximumConcurrency)%nat.

Lemma future_total act :
  res_u32 (head_resources p) -> acts_ok act ->
  foldl (future_step p) (add ResourceTotals_zero (head_resources p)) act = total (frontier act).
Proof.
  intros Hh [Ha Hl]. unfold kMaximumConcurrency in Hl. rewrite add_zero by done.
  rewrite (foldl_ext _ _ _ _ future_step_eq).
  rewrite foldl_add_total; [done|by apply Forall_singleton|done|cbn; lia].
Qed.

Lemma frontier_u32 act : res_u32 (head_resources p) -> acts_ok act -> Forall res_u32 (frontier act).
Proof.
  intros Hh [Ha _]. constructor; [done|]. apply Forall_fmap, Forall_forall. intros a Hin.
  apply list_elem_of_filter in Hin as [_ Hin]. rewrite Forall_forall in Ha. by apply Ha.
Qed.

Lemma frontier_length act : (length (frontier act) <= S (length act))%nat.
Proof. cbn. rewrite length_fmap. pose proof (length_filter (fun a => in_frontier a = true) act). lia. Qed.

Lemma persistent_safe_spec act c :
  res_u32 (head_resources p) -> acts_ok act -> res_u32 c ->
  persistent_backfill_is_safe p act c capacity = true <->
  fits_Z (total (frontier act ++ [c])) capacity.
Proof.
  intros Hh Ha Hc. unfold persistent_backfill_is_safe. rewrite future_total by done.
  pose proof (frontier_length act). pose proof Ha as [_ Hl]. unfold kMaximumConcurrency in Hl.
  rewrite add_total; [apply fits_spec|by apply frontier_u32|done|lia].
Qed.

Lemma frontier_cons a act :
  frontier (a :: act) ≡ₚ (if in_frontier a then [resources a] else []) ++ frontier act.
Proof.
  unfold frontier. rewrite filter_cons. destruct (in_frontier a); case_decide; try done.
  cbn. apply Permutation_swap.
Qed.
#[local] Instance frontier_Proper : Proper (Permutation ==> Permutation) frontier.
Proof. intros a b H. unfold frontier. by rewrite H. Qed.

Lemma fits_app_l l1 l2 : Forall res_u32 l2 -> fits_Z (total (l1 ++ l2)) capacity -> fits_Z (total l1) capacity.
Proof.
  intros H. unfold fits_Z, total; cbn. rewrite !sum_of_app.
  destruct (total_range l2 H) as (R1 & R2 & R3). cbn in *. lia.
Qed.

(** Every active request was frozen or backfilled under this protection. *)
Definition accounted (a : ActiveAdmissionSnapshot) : Prop :=
  request_id a ∈ incumbent_ids p \/
  ((request_id a ∉ incumbent_ids p) /\ backfill_epoch a = epoch_id p /\ backfill_class a <> BF_None).

Record bf_inv (s : bf_state) : Prop := {
  bi_acts : acts_ok (bf_active s);
  bi_frontier : fits_Z (total (frontier (bf_active s))) capacity;
  bi_accounted : Forall accounted (bf_active s);
  bi_credit : 0 <= bf_credit s <= temporal_credit p;
}.

Lemma contains_spec ids id : contains ids id = true <-> id ∈ ids.
Proof.
  unfold contains. rewrite existsb_exists. split.
  - intros (x & Hx%list_elem_of_In & ->%Z.eqb_eq). done.
  - intros H. exists id. split; [by apply list_elem_of_In|apply Z.eqb_refl].
Qed.

Lemma contains_false ids id : contains ids id = false <-> id ∉ ids.
Proof. by rewrite <- contains_spec, not_true_iff_false. Qed.

Lemma in_frontier_new c :
  request_id c ∉ incumbent_ids p -> backfill_epoch c = epoch_id p ->
  in_frontier c = bool_decide (backfill_class c = BF_Persistent).
Proof.
  intros Hn He. unfold in_frontier, is_incumbent.
  rewrite (proj2 (contains_false _ _)) by done. by rewrite He, Z.eqb_refl.
Qed.

Lemma bf_step_inv s s' : res_u32 (head_resources p) -> bf_step s s' -> bf_inv s -> bf_inv s'.
Proof.
  intros Hh Hstep [[Hu Hl] Hf Ha Hc]. destruct Hstep; cbn in *.
  - constructor; cbn; [|..|done].
    + split; [|by rewrite length_app in *]. rewrite Forall_app, Forall_cons in *. naive_solver.
    + rewrite <- Permutation_middle, frontier_cons in Hf |- *. done.
    + rewrite Forall_app, Forall_cons in *. naive_solver.
  - rewrite <- Permutation_middle in Hu, Ha, Hf. rewrite frontier_cons in Hf.
    constructor; cbn; [|..|done].
    + split; [by apply Forall_cons in Hu as [_ ?]|rewrite length_app in *; cbn in *; lia].
    + rewrite Permutation_app_comm in Hf. eapply fits_app_l; [|exact Hf].
      apply Forall_cons in Hu as [? _]. destruct (in_frontier a); [by apply Forall_singleton|constructor].
    + by apply Forall_cons in Ha as [_ ?].
  - constructor; cbn; [split| | |done].
    + rewrite H0. by constructor.
    + rewrite H0. cbn. lia.
    + rewrite H0, frontier_cons, in_frontier_new, bool_decide_eq_true_2 by done.
      rewrite Permutation_app_comm. by apply persistent_safe_spec.
    + rewrite H0. constructor; [|done]. right. split_and!; [done..|congruence].
  - constructor; cbn; [split| | |lia].
    + rewrite H0. by constructor.
    + rewrite H0. cbn. lia.
    + rewrite H0, frontier_cons, in_frontier_new, bool_decide_eq_false_2 by (done || congruence). done.
    + rewrite H0. constructor; [|done]. right. split_and!; [done..|congruence].
Qed.

(** The requests [protected_head_safe_without_temporal] counts. *)
Definition not_temporal (a : ActiveAdmissionSnapshot) : bool :=
  is_incumbent p (request_id a) || negb (backfill_epoch a =? epoch_id p) ||
  negb (bool_decide (backfill_class a = BF_Temporal)).

Lemma safe_without_temporal_spec act :
  res_u32 (head_resources p) -> acts_ok act ->
  protected_head_safe_without_temporal p act capacity = true <->
  fits_Z (total (head_resources p :: (resources <$> filter (fun a => not_temporal a = true) act))) capacity.
Proof.
  intros Hh [Ha Hl]. unfold kMaximumConcurrency in Hl. unfold protected_head_safe_without_temporal.
  rewrite add_zero by done. rewrite <- fits_spec. unfold without_temporal_step. fold not_temporal.
  rewrite (foldl_add_total not_temporal [head_resources p]); [done|by apply Forall_singleton|done|cbn; lia].
Qed.

Lemma frontier_without_donors act :
  Forall accounted act -> Forall (fun a => is_donor p (request_id a) = false) act ->
  filter (fun a => in_frontier a = true) act = filter (fun a => not_temporal a = true) act.
Proof.
  intros Ha Hd. induction act as [|a act IH]; [done|].
  apply Forall_cons in Ha as [Ha0 Ha], Hd as [Hd0 Hd]. rewrite !filter_cons, IH by done.
  assert (in_frontier a = not_temporal a) as ->; [|done].
  unfold in_frontier, not_temporal, is_incumbent. destruct Ha0 as [Hin|(Hnin & He & Hcl)].
  - rewrite (proj2 (contains_spec _ _) Hin), Hd0. done.
  - rewrite (proj2 (contains_false _ _)) by done.
    rewrite He, Z.eqb_refl. destruct (backfill_class a); done.
Qed.
End Backfill.

Lemma donors_filtered p order k :
  NoDup (request_id <$> order) -> donor_ids p = request_id <$> take k order ->
  filter (fun a => is_donor p (request_id a) = false) order = drop k order.
Proof.
  intros Hnd Hd. rewrite <- (take_drop k order) at 1. rewrite filter_app.
  rewrite <- (take_drop k order), fmap_app in Hnd. apply NoDup_app in Hnd as (_ & Hdis & _).
  rewrite <- Hd in Hdis.
  assert (H1 : filter (fun a => is_donor p (request_id a) = false) (take k order) = []).
  { apply filter_none, Forall_forall. intros a Ha. unfold is_donor.
    rewrite (proj2 (contains_spec _ _)); [done|]. rewrite Hd. by apply list_elem_of_fmap_2. }
  rewrite H1. cbn. apply filter_all, Forall_forall. intros a Ha. unfold is_donor.
  apply not_true_iff_false. rewrite contains_spec. intros Hin. apply (Hdis _ Hin).
  by apply list_elem_of_fmap_2.
Qed.

Lemma protection_inv epoch head head_res active capacity p :
  frontier_input epoch head head_res active capacity ->
  make_admission_protection epoch head head_res active capacity = Ok p ->
  NoDup (request_id <$> active) ->
  head_resources p = head_res /\ bf_inv p capacity (mkBF active (temporal_credit p)).
Proof.
  intros Hin Hmake Hnd. pose proof Hin as [_ Hlen [Hu Hua] Hprog _ _].
  destruct (protection_is_shortest_prefix _ _ _ _ _ Hin) as
    (p' & k & Hmake' & Hk & Hd & Hi & _ & _ & _ & Hh & Hfit & _ & Hcr & Hcrin).
  rewrite Hmake in Hmake'. injection Hmake' as <-. split; [done|]. subst head_res.
  pose proof (merge_sort_Permutation completes_before active) as Hperm.
  fold (completion_order active) in Hperm.
  assert (Hacc : Forall (accounted p) active).
  { apply Forall_forall. intros a Ha. left. rewrite Hi. by apply list_elem_of_fmap_2. }
  constructor; cbn.
  - split; [done|lia].
  - assert (Hfr : filter (fun a => in_frontier p a = true) active =
                  filter (fun a => is_donor p (request_id a) = false) active).
    { apply filter_ext_Forall, Forall_forall. intros a Ha. unfold in_frontier, is_incumbent.
      rewrite (proj2 (contains_spec _ _)) by (rewrite Hi; by apply list_elem_of_fmap_2).
      by destruct (is_donor p (request_id a)). }
    unfold frontier. rewrite Hfr.
    assert (Hp : filter (fun a => is_donor p (request_id a) = false) active ≡ₚ
                 drop (S k) (completion_order active)).
    { rewrite <- (donors_filtered p _ (S k)); [by rewrite Hperm|by rewrite Hperm|done]. }
    rewrite Hp. exact Hfit.
  - done.
  - split; [|lia]. apply list_elem_of_fmap in Hcrin as (a & -> & Ha).
    assert (Hina : a ∈ active) by (rewrite <- Hperm; by apply (elem_of_take_inv _ (S k))).
    rewrite Forall_forall in Hprog. specialize (Hprog _ Hina). lia.
Qed.

(** C39: the protection keeps its promise: whatever the engine backfills under it, and however the
    active requests progress and finish, as soon as no donor is active the head fits beside
    everything but the temporal borrowers, so the policy sees it; and once those have finished
    too, the head fits beside all active requests.  The temporal credit never goes negative. *)
Theorem protection_guarantee epoch head head_res active capacity p s :
  frontier_input epoch head head_res active capacity ->
  make_admission_protection epoch head head_res active capacity = Ok p ->
  NoDup (request_id <$> active) ->
  rtc (bf_step p capacity) (mkBF active (temporal_credit p)) s ->
  0 <= bf_credit s <= temporal_credit p /\
  (Forall (fun a => is_donor p (request_id a) = false) (bf_active s) ->
     protected_head_safe_without_temporal p (bf_active s) capacity = true /\
     (Forall (fun a => not_temporal p a = true) (bf_active s) ->
        fits_Z (total (head_res :: (resources <$> bf_active s))) capacity)).
Proof.
  intros Hin Hmake Hnd Hr.
  destruct (protection_inv _ _ _ _ _ _ Hin Hmake Hnd) as [Hh Hinv].
  destruct Hin as [_ _ [Hu _] _ _ _]. rewrite <- Hh in *.
  assert (Hinv' : bf_inv p capacity s).
  { clear -Hr Hinv Hu. induction Hr as [|x y z Hxy _ IH]; [done|]. by eapply IH, bf_step_inv. }
  destruct Hinv' as [Hacts Hf Hacc Hc]. split; [done|]. intros Hd.
  pose proof (frontier_without_donors p _ Hacc Hd) as Hfil. unfold frontier in Hf.
  rewrite Hfil in Hf. split; [by apply safe_without_temporal_spec|].
  intros Ht. by rewrite filter_all in Hf.
Qed.

(** ** Concrete runs *)

Definition demo_capacity : AdmissionResources := mkResources 4 100 50.
Definition demo_head : AdmissionResources := mkResources 1 60 20.
Definition demo_active : list ActiveAdmissionSnapshot :=
  [mkSnapshot 1 (mkResources 1 40 10) 5 0 BF_None; mkSnapshot 2 (mkResources 1 30 10) 3 0 BF_None;
   mkSnapshot 3 (mkResources 1 20 10) 9 0 BF_None].
Definition demo_protection : AdmissionProtection :=
  mkProtection 7 4 demo_head [1; 2; 3] [2; 1] 5 Open_.

Lemma demo_frontier : frontier_input 7 4 demo_head demo_active demo_capacity.
Proof.
  constructor; [by_compute|cbn; unfold kMaximumConcurrency; lia|by_compute|by_compute| |];
    unfold fits_Z; cbn; lia.
Qed.

Lemma protection_is_shortest_prefix_witness :
  make_admission_protection 7 4 demo_head demo_active demo_capacity = Ok demo_protection /\
  exists p k, make_admission_protection 7 4 demo_head demo_active demo_capacity = Ok p /\
    fits_Z (survivors demo_head (completion_order demo_active) (S k)) demo_capacity.
Proof.
  split; [vm_compute; reflexivity|].
  destruct (protection_is_shortest_prefix 7 4 demo_head demo_active demo_capacity)
    as (p & k & H & _ & _ & _ & _ & _ & _ & _ & Hf & _).
  - apply demo_frontier.
  - exists p, k. split; [exact H|exact Hf].
Defined.

Lemma protection_guarantee_witness :
  fits_Z (total (demo_head :: (resources <$>
    [mkSnapshot 3 (mkResources 1 20 10) 9 0 BF_None; mkSnapshot 6 (mkResources 1 15 5) 4 7 BF_Persistent])))
    demo_capacity.
Proof.
  set (c := mkSnapshot 6 (mkResources 1 15 5) 4 7 BF_Persistent).
  destruct (protection_guarantee 7 4 demo_head demo_active demo_capacity demo_protection
    (mkBF [mkSnapshot 3 (mkResources 1 20 10) 9 0 BF_None; c] 5)) as [_ H].
  - apply demo_frontier.
  - vm_compute; reflexivity.
  - by_compute.
  - eapply rtc_l; [apply (bf_persistent _ _ demo_active (demo_active ++ [c]) c)|].
    + cbn; unfold kMaximumConcurrency; lia.
    + by rewrite Permutation_app_comm.
    + by_compute.
    + by_compute.
    + reflexivity.
    + reflexivity.
    + vm_compute; reflexivity.
    + eapply rtc_l; [apply (bf_finish _ _ [])|]. eapply rtc_l; [apply (bf_finish _ _ [])|].
      apply rtc_refl.
  - apply H.
    + by_compute.
    + by_compute.
Defined.
