(* ===== verification/Capacity.v ===== *)
(** * Engine capacity: [runtime/engine/kv_capacity], [runtime/engine/request_memory],
    [runtime/generation/generation_budget]

    How many KV page groups the engine reserves at startup, the transient region lent to the
    request being prefilled, and the output budget of a request. *)
From S2P Require Import Prelude.
#[local] Open Scope Z_scope.

(** ** KV capacity *)

Inductive KvCapacityMode : Set := Explicit | Automatic.

Record KvCapacityPolicy : Set := mkPolicy {
  kp_mode : KvCapacityMode; explicit_tokens : Z; automatic_headroom_bytes : Z;
}.

Record SequenceCapacityCurve : Set := mkCurve {
  main_page_tokens : Z;
  minimum_main_page_groups : Z;
  maximum_main_page_groups : Z;
  minimum_device_reservation_bytes : Z;
  bytes_per_additional_main_page_group : Z;
}.

Record KvCapacityResolution : Set := mkResolution {
  kr_mode : KvCapacityMode;
  kr_main_page_groups : Z;
  kr_maximum_main_page_groups : Z;
  kr_resolved_tokens : Z;
  kr_minimum_runtime_reservation_bytes : Z;
  kr_bytes_per_additional_main_page_group : Z;
  kr_runtime_reservation_bytes : Z;
  kr_available_after_weights_bytes : Z;
  kr_automatic_headroom_bytes : Z;
  kr_planned_slack_bytes : Z;
}.

Definition checked_mul (a b : Z) : result Z :=
  if negb (b =? 0) && (a >? u64_max / b) then Err OverflowError else Ok (a * b).

Definition validate_curve (c : SequenceCapacityCurve) : result unit :=
  do* throw_if ((main_page_tokens c =? 0) || (minimum_main_page_groups c =? 0) ||
                (minimum_main_page_groups c >? maximum_main_page_groups c) ||
                (minimum_device_reservation_bytes c =? 0)) InvalidArgument;
  throw_if ((minimum_main_page_groups c <? maximum_main_page_groups c) &&
            (bytes_per_additional_main_page_group c =? 0)) InvalidArgument.

Definition explicit_page_groups (p : KvCapacityPolicy) (c : SequenceCapacityCurve) : result Z :=
  do* throw_if (explicit_tokens p =? 0) InvalidArgument;
  let pages := 1 + (explicit_tokens p - 1) / main_page_tokens c in
  do* throw_if (pages >? u32_max) OverflowError;
  Ok pages.

(** [SequenceCapacityCurve::reservation_bytes] *)
Definition reservation_bytes (c : SequenceCapacityCurve) (groups : Z) : result Z :=
  do* validate_curve c;
  do* throw_if ((groups <? minimum_main_page_groups c) || (groups >? maximum_main_page_groups c))
        InvalidArgument;
  let additional := groups - minimum_main_page_groups c in
  let* extra := checked_mul additional (bytes_per_additional_main_page_group c) in
  checked_add (minimum_device_reservation_bytes c) extra.

(** [SequenceCapacityCurve::resolved_tokens] *)
Definition resolved_tokens (c : SequenceCapacityCurve) (groups : Z) : result Z :=
  do* validate_curve c;
  do* throw_if ((groups <? minimum_main_page_groups c) || (groups >? maximum_main_page_groups c))
        InvalidArgument;
  let tokens := groups * main_page_tokens c in
  do* throw_if (tokens >? u32_max) OverflowError;
  Ok tokens.

(** The [switch] of [resolve_kv_capacity]: the page groups and the byte budget. *)
Definition resolve_pages (p : KvCapacityPolicy) (c : SequenceCapacityCurve) (available : Z)
  : result (Z * Z) :=
  match kp_mode p with
  | Explicit =>
      do* throw_if (negb (automatic_headroom_bytes p =? 0)) InvalidArgument;
      let* pages := explicit_page_groups p c in
      Ok (pages, available)
  | Automatic =>
      do* throw_if (available <? automatic_headroom_bytes p) InvalidArgument;
      let budget := available - automatic_headroom_bytes p in
      do* throw_if (budget <? minimum_device_reservation_bytes c) InvalidArgument;
      if minimum_main_page_groups c <? maximum_main_page_groups c then
        let additional := (budget - minimum_device_reservation_bytes c)
                          / bytes_per_additional_main_page_group c in
        let candidate := u64 (minimum_main_page_groups c + additional) in
        Ok (u32 (Z.min candidate (maximum_main_page_groups c)), budget)
      else Ok (minimum_main_page_groups c, budget)
  end.

Definition resolve_kv_capacity (p : KvCapacityPolicy) (c : SequenceCapacityCurve) (available : Z)
  : result KvCapacityResolution :=
  do* validate_curve c;
  let* pb := resolve_pages p c available in
  let '(pages, capacity_budget) := pb in
  let* reservation := reservation_bytes c pages in
  do* throw_if (reservation >? capacity_budget) InvalidArgument;
  let* tokens := resolved_tokens c pages in
  Ok (mkResolution (kp_mode p) pages (maximum_main_page_groups c) tokens
        (minimum_device_reservation_bytes c) (bytes_per_additional_main_page_group c)
        reservation available (automatic_headroom_bytes p) (available - reservation)).

(** ** Request memory *)

Definition kDeviceAllocationAlignment : Z := 256.

Record TransientRegion : Set := mkTransient { tr_data : Z; tr_size : Z; tr_alignment : Z }.

(** [RequestMemory::Impl]; the arena is its base address and capacity. *)
Record RequestMemory : Set := mkRM {
  rm_arena : option (Z * Z);
  active_bytes : Z;
  active_alignment : Z;
  peak_bytes_ : Z;
}.

(** [RequestMemory::RequestMemory]; [cuda_malloc] is the driver's answer. *)
Definition rm_create (cuda_malloc : Z -> option Z) (capacity : Z) : result RequestMemory :=
  if capacity =? 0 then Ok (mkRM None 0 1 0)
  else match cuda_malloc capacity with
       | Some ptr => Ok (mkRM (Some (ptr, capacity)) 0 1 0)
       | None => Err RuntimeError
       end.

Definition rm_deactivate (m : RequestMemory) : RequestMemory :=
  mkRM (rm_arena m) 0 1 (peak_bytes_ m).

(** [RequestMemory::activate] *)
Definition rm_activate (bytes alignment : Z) : M RequestMemory unit :=
  if bytes =? 0 then
    do! mthrow_if (negb (alignment =? 1)) InvalidArgument;
    mmodify rm_deactivate
  else
    do! mthrow_if (negb (is_power_of_two alignment) || (alignment >? kDeviceAllocationAlignment))
          InvalidArgument;
    let! m := mget in
    match rm_arena m with
    | None => mthrow InvalidArgument
    | Some (base, capacity) =>
        do! mthrow_if (bytes >? capacity) InvalidArgument;
        mput (mkRM (rm_arena m) bytes alignment (Z.max (peak_bytes_ m) bytes))
    end.

(** [RequestMemory::region] *)
Definition rm_region (m : RequestMemory) : TransientRegion :=
  if active_bytes m =? 0 then mkTransient 0 0 1
  else mkTransient (match rm_arena m with Some (base, _) => base | None => 0 end)
         (active_bytes m) (active_alignment m).

(** [RequestMemory::summary]: capacity, used and peak bytes. *)
Definition rm_summary (m : RequestMemory) : Z * Z * Z :=
  (match rm_arena m with Some (_, capacity) => capacity | None => 0 end, active_bytes m, peak_bytes_ m).

Definition rm_reset_peak (m : RequestMemory) : RequestMemory :=
  mkRM (rm_arena m) (active_bytes m) (active_alignment m) (active_bytes m).

(** ** Generation budget *)

(** [enum class FinishReason] *)
Inductive FinishReason : Set :=
| FR_None | OutputLimit | ContextCapacity | StopToken | FR_StopString | FR_Cancelled.
#[export] Instance FinishReason_eq_dec : EqDecision FinishReason.
Proof. solve_decision. Defined.

Record GenerationBudget : Set := mkBudget { remaining_ : Z; limit_reason_ : FinishReason }.

(** [GenerationBudget::GenerationBudget] aborts on any other limit reason. *)
Definition budget_create (effective_tokens : Z) (limit_reason : FinishReason) : result GenerationBudget :=
  do* throw_if (negb (bool_decide (limit_reason = OutputLimit)) &&
                negb (bool_decide (limit_reason = ContextCapacity))) Abort_;
  Ok (mkBudget effective_tokens limit_reason).

(** [GenerationBudget::commit] *)
Definition budget_commit (tokens : Z) (b : GenerationBudget) : result GenerationBudget :=
  do* throw_if (tokens >? remaining_ b) Abort_;
  Ok (mkBudget (remaining_ b - tokens) (limit_reason_ b)).
