(* ===== verification/CapacityProofs.v ===== *)
(** * Correctness of the capacity computations *)
From S2P Require Import Prelude Capacity.
#[local] Open Scope Z_scope.

Record curve_wf (c : SequenceCapacityCurve) : Prop := {
  cw_tokens : 0 < main_page_tokens c <= u32_max;
  cw_min : 0 < minimum_main_page_groups c;
  cw_order : minimum_main_page_groups c <= maximum_main_page_groups c;
  cw_max : maximum_main_page_groups c <= u32_max;
  cw_bytes : 0 < minimum_device_reservation_bytes c <= u64_max;
  cw_stride : 0 <= bytes_per_additional_main_page_group c <= u64_max;
  cw_expand : minimum_main_page_groups c < maximum_main_page_groups c ->
              0 < bytes_per_additional_main_page_group c;
}.

(** The curve's byte cost of [groups] page groups. *)
Definition curve_bytes (c : SequenceCapacityCurve) (groups : Z) : Z :=
  minimum_device_reservation_bytes c +
  (groups - minimum_main_page_groups c) * bytes_per_additional_main_page_group c.

Lemma validate_curve_wf c : curve_wf c -> validate_curve c = Ok tt.
Proof.
  intros [H1 H2 H3 H4 H5 H6 H7]. unfold validate_curve.
  destruct (Z.eqb_spec (main_page_tokens c) 0), (Z.eqb_spec (minimum_main_page_groups c) 0),
    (Z.gtb_spec (minimum_main_page_groups c) (maximum_main_page_groups c)),
    (Z.eqb_spec (minimum_device_reservation_bytes c) 0); try lia. cbn.
  destruct (Z.ltb_spec (minimum_main_page_groups c) (maximum_main_page_groups c)),
    (Z.eqb_spec (bytes_per_additional_main_page_group c) 0); try done. lia.
Qed.

Lemma checked_mul_Ok a b r : 0 <= a -> 0 <= b -> checked_mul a b = Ok r <-> r = a * b /\ a * b <= u64_max.
Proof.
  intros Ha Hb. unfold checked_mul. unfold_ints.
  destruct (Z.eqb_spec b 0) as [->|Hb0]; cbn; [split; [intros [= <-]; lia|intros [-> _]; done]|].
  destruct (Z.gtb_spec a (18446744073709551615 / b)) as [H|H]; split.
  - done.
  - intros [_ Hle]. assert (a <= 18446744073709551615 / b) by (apply Z.div_le_lower_bound; lia). lia.
  - intros [= <-]. pose proof (Z.mul_div_le 18446744073709551615 b ltac:(lia)). nia.
  - by intros [-> _].
Qed.

Lemma reservation_bytes_Ok c g r :
  curve_wf c -> reservation_bytes c g = Ok r <->
  minimum_main_page_groups c <= g <= maximum_main_page_groups c /\ r = curve_bytes c g /\
  curve_bytes c g <= u64_max.
Proof.
  intros Hc. pose proof Hc as [H1 H2 H3 H4 H5 H6 H7]. unfold reservation_bytes.
  rewrite validate_curve_wf by done. cbn [rbind].
  destruct (Z.ltb_spec g (minimum_main_page_groups c)), (Z.gtb_spec g (maximum_main_page_groups c));
    cbn [orb throw_if rbind]; try (split; [done|lia]).
  rewrite rbind_Ok. unfold curve_bytes. split.
  - intros (x & Hx & Hr). apply checked_mul_Ok in Hx as [-> Hx]; [|lia..].
    apply checked_add_Ok in Hr as [-> Hr]; [|unfold_ints; nia..]. lia.
  - intros (_ & -> & Hr). eexists. split; [apply checked_mul_Ok; [lia|lia|split; [done|lia]]|].
    apply checked_add_Ok; [unfold_ints; nia..|done].
Qed.

Lemma resolved_tokens_Ok c g t :
  curve_wf c -> resolved_tokens c g = Ok t <->
  minimum_main_page_groups c <= g <= maximum_main_page_groups c /\ t = g * main_page_tokens c /\
  g * main_page_tokens c <= u32_max.
Proof.
  intros Hc. unfold resolved_tokens. rewrite validate_curve_wf by done. cbn [rbind].
  destruct (Z.ltb_spec g (minimum_main_page_groups c)), (Z.gtb_spec g (maximum_main_page_groups c));
    cbn [orb throw_if rbind]; try (split; [done|lia]).
  destruct (Z.gtb_spec (g * main_page_tokens c) u32_max); cbn; split; try done; try lia.
  - intros [= <-]; lia.
  - by intros (_ & -> & _).
Qed.

(** The page count the automatic policy picks. *)
Definition auto_pages (c : SequenceCapacityCurve) (budget : Z) : Z :=
  if minimum_main_page_groups c <? maximum_main_page_groups c then
    Z.min (minimum_main_page_groups c +
           (budget - minimum_device_reservation_bytes c) / bytes_per_additional_main_page_group c)
      (maximum_main_page_groups c)
  else minimum_main_page_groups c.

Lemma auto_pages_spec c budget :
  curve_wf c -> minimum_device_reservation_bytes c <= budget ->
  minimum_main_page_groups c <= auto_pages c budget <= maximum_main_page_groups c /\
  forall g, minimum_main_page_groups c <= g <= maximum_main_page_groups c ->
    curve_bytes c g <= budget <-> g <= auto_pages c budget.
Proof.
  intros [H1 H2 H3 H4 H5 H6 H7] Hb. unfold auto_pages, curve_bytes.
  destruct (Z.ltb_spec (minimum_main_page_groups c) (maximum_main_page_groups c)) as [Hlt|Hge].
  2: { split; [lia|]. intros g Hg. assert (g = minimum_main_page_groups c) by lia. subst. lia. }
  specialize (H7 Hlt). set (q := _ / _).
  assert (Hq : 0 <= q) by (apply Z.div_pos; lia).
  assert (Hqs : q * bytes_per_additional_main_page_group c <= budget - minimum_device_reservation_bytes c
    < (q + 1) * bytes_per_additional_main_page_group c).
  { subst q. pose proof (Z.mod_pos_bound (budget - minimum_device_reservation_bytes c)
      (bytes_per_additional_main_page_group c) H7).
    pose proof (Z.div_mod (budget - minimum_device_reservation_bytes c)
      (bytes_per_additional_main_page_group c) ltac:(lia)). nia. }
  split; [lia|]. intros g Hg. split; intros H; [|nia].
  assert (g - minimum_main_page_groups c < q + 1) by nia. lia.
Qed.

(** C40: the automatic policy is optimal: it succeeds exactly when the headroom and the minimum
    reservation fit and the resolved tokens are representable, and the page groups it picks are
    the largest count of the curve that leaves the headroom free; unless the curve's maximum was
    reached, the slack it leaves is less than one page group above the headroom. *)
Theorem auto_capacity_optimal c headroom available r :
  curve_wf c -> 0 <= headroom -> 0 <= available -> available + u32_max <= u64_max ->
  resolve_kv_capacity (mkPolicy Automatic 0 headroom) c available = Ok r <->
  headroom + minimum_device_reservation_bytes c <= available /\
  exists g, minimum_main_page_groups c <= g <= maximum_main_page_groups c /\
    g * main_page_tokens c <= u32_max /\
    (forall g', minimum_main_page_groups c <= g' <= maximum_main_page_groups c ->
       curve_bytes c g' + headroom <= available <-> g' <= g) /\
    headroom <= available - curve_bytes c g /\
    (g < maximum_main_page_groups c ->
       available - curve_bytes c g < headroom + bytes_per_additional_main_page_group c) /\
    r = mkResolution Automatic g (maximum_main_page_groups c) (g * main_page_tokens c)
          (minimum_device_reservation_bytes c) (bytes_per_additional_main_page_group c)
          (curve_bytes c g) available headroom (available - curve_bytes c g).
Proof.
  intros Hc Hh Ha Hmax. pose proof Hc as [H1 H2 H3 H4 H5 H6 H7].
  unfold resolve_kv_capacity. rewrite validate_curve_wf by done. cbn [rbind].
  destruct (Z.leb_spec (headroom + minimum_device_reservation_bytes c) available) as [Hfit|Hno].
  2: { split; [|lia]. intros H. unfold resolve_pages in H; cbn in H. rinv. subst.
       destruct (available <? headroom) eqn:E; cbn in *; bprop; rinv; lia. }
  set (budget := available - headroom) in *.
  destruct (auto_pages_spec c budget Hc ltac:(lia)) as [Hg Hopt].
  assert (Hp : resolve_pages (mkPolicy Automatic 0 headroom) c available = Ok (auto_pages c budget, budget)).
  { unfold resolve_pages, auto_pages; cbn.
    destruct (Z.ltb_spec available headroom); [lia|cbn]. fold budget.
    destruct (Z.ltb_spec budget (minimum_device_reservation_bytes c)); [lia|cbn].
    destruct (Z.ltb_spec (minimum_main_page_groups c) (maximum_main_page_groups c)); [|done].
    specialize (H7 ltac:(lia)).
    assert (0 <= (budget - minimum_device_reservation_bytes c) / bytes_per_additional_main_page_group c)
      by (apply Z.div_pos; lia).
    assert ((budget - minimum_device_reservation_bytes c) / bytes_per_additional_main_page_group c <= available).
    { transitivity (budget - minimum_device_reservation_bytes c); [|lia].
      apply Z.div_le_upper_bound; [lia|]. nia. }
    rewrite u64_small by (unfold_ints; lia). rewrite u32_small by (unfold_ints; lia). done. }
  rewrite Hp. cbn [rbind]. set (g := auto_pages c budget) in *.
  assert (Hcb : curve_bytes c g <= budget) by (apply Hopt; lia).
  assert (Hcb0 : 0 <= curve_bytes c g) by (unfold curve_bytes; nia).
  rewrite (proj2 (reservation_bytes_Ok c g _ Hc)) by (split_and!; (reflexivity || lia)).
  cbn [rbind]. destruct (Z.gtb_spec (curve_bytes c g) budget); [lia|]. cbn [throw_if rbind].
  assert (Hslack : g < maximum_main_page_groups c ->
    available - curve_bytes c g < headroom + bytes_per_additional_main_page_group c).
  { intros Hlt. assert (~ curve_bytes c (g + 1) <= budget) by (rewrite Hopt; lia).
    unfold curve_bytes in *. lia. }
  rewrite rbind_Ok. split.
  - intros (t & Ht & [= <-]). apply (resolved_tokens_Ok c g t Hc) in Ht as (_ & -> & Ht).
    split; [lia|]. exists g.
    split; [done|]. split; [done|]. split; [|split; [lia|by split]].
    intros g' Hg'. rewrite <- Hopt by done. lia.
  - intros (_ & g' & Hg' & Ht & Hopt' & _ & _ & ->).
    assert (g' = g) as ->.
    { apply Z.le_antisymm; [apply Hopt; [done|]|apply Hopt'; [done|lia]].
      assert (curve_bytes c g' + headroom <= available) by (apply Hopt'; [done|lia]). lia. }
    exists (g * main_page_tokens c). split; [|done]. by apply resolved_tokens_Ok.
Qed.

Lemma auto_capacity_optimal_witness :
  exists r, resolve_kv_capacity (mkPolicy Automatic 0 1000) (mkCurve 64 4 40 500 64) 2600 = Ok r /\
    kr_main_page_groups r = 21 /\ kr_planned_slack_bytes r = 1012.
Proof.
  set (c := mkCurve 64 4 40 500 64).
  assert (Hc : curve_wf c) by (constructor; cbn; unfold_ints; lia).
  destruct (auto_capacity_optimal c 1000 2600
    (mkResolution Automatic 21 40 1344 500 64 1588 2600 1000 1012)) as [H _].
  - exact Hc.
  - lia.
  - lia.
  - unfold_ints; lia.
  - destruct H as (Hfit & _); [vm_compute; reflexivity|].
    eexists. split; [vm_compute; reflexivity|split; reflexivity].
Defined.

(** ** Request memory *)

Inductive rm_op : Set :=
| RM_activate (bytes alignment : Z)
| RM_deactivate
| RM_reset_peak.

Definition rm_run (op : rm_op) (m : RequestMemory) : RequestMemory :=
  match op with
  | RM_activate bytes alignment => (rm_activate bytes alignment m).2
  | RM_deactivate => rm_deactivate m
  | RM_reset_peak => rm_reset_peak m
  end.

Definition op_u64 (op : rm_op) : Prop :=
  match op with RM_activate bytes alignment => is_u64 bytes /\ is_u64 alignment | _ => True end.

Record rm_inv (capacity : Z) (m : RequestMemory) : Prop := {
  ri_arena : rm_arena m = None \/ exists base, rm_arena m = Some (base, capacity) /\ 0 < base /\
               (kDeviceAllocationAlignment | base);
  ri_idle : rm_arena m = None -> active_bytes m = 0;
  ri_active : 0 <= active_bytes m <= capacity;
  ri_align : active_bytes m <> 0 -> (active_alignment m | kDeviceAllocationAlignment);
  ri_peak : active_bytes m <= peak_bytes_ m <= capacity;
}.

Lemma pow2_divides_256 a :
  is_u64 a -> is_power_of_two a = true -> a <= kDeviceAllocationAlignment ->
  (a | kDeviceAllocationAlignment).
Proof.
  intros Ha (k & Hk & ->)%is_power_of_two_spec Hle; [|done]. unfold kDeviceAllocationAlignment in *.
  assert (k <= 8) by (apply (Z.pow_le_mono_r_iff 2); lia).
  exists (2 ^ (8 - k)). rewrite <- Z.pow_add_r by lia. by replace (8 - k + k) with 8 by lia.
Qed.

Lemma rm_run_inv capacity op m : op_u64 op -> rm_inv capacity m -> rm_inv capacity (rm_run op m).
Proof.
  intros Hop [H1 H2 H3 H4 H5]. destruct op as [bytes al| |]; cbn in *.
  - unfold rm_activate. destruct (Z.eqb_spec bytes 0) as [->|Hb].
    + unfold mbind_, mthrow_if, mlift. destruct (negb (al =? 1)); cbn; [by constructor|].
      constructor; cbn; try done; lia.
    + unfold mbind_, mthrow_if, mlift, mget.
      destruct (negb (is_power_of_two al) || (al >? kDeviceAllocationAlignment)) eqn:Hal; cbn;
        [by constructor|].
      destruct H1 as [Hn|(base & Hs & Hpos & Hd)].
      { rewrite Hn; cbn. by constructor; [left|..]. }
      rewrite Hs. destruct (Z.gtb_spec bytes capacity); cbn; [constructor; eauto|].
      destruct Hop as [Hb64 Hal64]. unfold_ints. bprop. constructor; cbn; eauto.
      * congruence.
      * lia.
      * intros _. apply pow2_divides_256; unfold_ints; done.
      * lia.
  - constructor; cbn; try done; lia.
  - constructor; cbn; try done; lia.
Qed.

(** whatever sequence of activations, deactivations and peak resets ran since startup, the
    region handed to a request lies in the frozen allocation, its address has the alignment it
    promises, and the recorded peak bounds it and fits the capacity. *)
Theorem request_region_safe cuda_malloc capacity m ops :
  is_u64 capacity -> rm_create cuda_malloc capacity = Ok m ->
  (forall n ptr, cuda_malloc n = Some ptr -> 0 < ptr /\ (kDeviceAllocationAlignment | ptr)) ->
  Forall op_u64 ops ->
  let m' := foldl (fun m op => rm_run op m) m ops in
  let r := rm_region m' in
  0 <= tr_size r <= capacity /\ tr_size r <= peak_bytes_ m' <= capacity /\
  (tr_data r = 0 <-> tr_size r = 0) /\
  (tr_data r <> 0 -> rm_arena m' = Some (tr_data r, capacity) /\ (tr_alignment r | tr_data r)).
Proof.
  intros Hcap Hc Hm Hops m' r.
  assert (Hinv : rm_inv capacity m').
  { assert (H0 : rm_inv capacity m).
    { unfold_ints. unfold rm_create in Hc. destruct (Z.eqb_spec capacity 0) as [->|Hc0].
      - injection Hc as <-. constructor; cbn; auto; done || lia.
      - destruct (cuda_malloc capacity) as [ptr|] eqn:Hp; [|done]. injection Hc as <-.
        destruct (Hm _ _ Hp). constructor; cbn; eauto; done || lia. }
    subst m'. clear -Hops H0. revert m H0. induction Hops as [|op ops Hop _ IH]; intros m H0; [done|].
    apply IH. by apply rm_run_inv. }
  subst r. unfold rm_region. destruct Hinv as [H1 H2 H3 H4 H5].
  destruct (Z.eqb_spec (active_bytes m') 0) as [E|E]; cbn; [split_and!; (done || lia)|].
  destruct H1 as [Hn|(base & Hs & Hpos & Hd)]; [by apply H2 in Hn|].
  rewrite Hs. split_and!; try (done || lia). intros _. split; [done|]. etrans; [by apply H4|done].
Qed.

Lemma request_region_safe_witness :
  let m' := foldl (fun m op => rm_run op m) (mkRM (Some (4096, 1000)) 0 1 0)
              [RM_activate 900 64; RM_activate 2000 256; RM_deactivate; RM_activate 10 256] in
  rm_region m' = mkTransient 4096 10 256 /\ tr_size (rm_region m') <= peak_bytes_ m' <= 1000.
Proof.
  split; [vm_compute; reflexivity|].
  destruct (request_region_safe (fun _ => Some 4096) 1000 (mkRM (Some (4096, 1000)) 0 1 0)
    [RM_activate 900 64; RM_activate 2000 256; RM_deactivate; RM_activate 10 256]) as (_ & H & _).
  - by_compute.
  - reflexivity.
  - intros n ptr [= <-]. split; [lia|]. exists 16. reflexivity.
  - repeat constructor; by_compute.
  - exact H.
Defined.
