(* ===== verification/Contract.v ===== *)
(** * The runtime contract: [runtime/contract/types.h], [ninfer/types.h]

    The values the executor exchanges with a model target and with an output session, and the
    interfaces ([Target], [OutputSession]) the executor is written against. *)
From S2P Require Import Prelude Admission Capacity.
#[local] Open Scope Z_scope.

(** ** Values *)

Inductive OutputChannel : Set := Content | Reasoning.
#[export] Instance OutputChannel_eq_dec : EqDecision OutputChannel.
Proof. solve_decision. Defined.

(** [OutputDelta]; text is its bytes. *)
Record OutputDelta : Set := mkDelta { od_channel : OutputChannel; od_text : list Z }.
#[export] Instance OutputDelta_eq_dec : EqDecision OutputDelta.
Proof. solve_decision. Defined.

Record OutputDecision : Set := mkDecision { accepted_tokens : Z; finish_reason : FinishReason }.
#[export] Instance OutputDecision_eq_dec : EqDecision OutputDecision.
Proof. solve_decision. Defined.

(** [OutputDecision::finished] *)
Definition finished (d : OutputDecision) : bool := negb (bool_decide (finish_reason d = FR_None)).

Record RequestPlanSummary : Set := mkPlanSummary {
  prompt_tokens : Z;
  reusable_prompt_tokens : Z;
  effective_output_tokens : Z;
  effective_limit_reason : FinishReason;
  transient_bytes : Z;
  transient_alignment : Z;
  admission : AdmissionResources;
  service_work_quanta : Z;
}.

(** [BeginSummary], without the name of the reuse path. *)
Record BeginSummary : Set := mkBegin { bg_prompt_tokens : Z; reused_prompt_tokens : Z }.

Record PrefillStepResult : Set := mkStepResult {
  st_summary : BeginSummary; st_round : list Z; processed_prompt_tokens : Z; complete : bool;
}.

Record BatchedGeneratedRound : Set := mkRound {
  rd_tokens : list Z; row_counts : list Z; row_stride : Z;
}.

(** ** Interfaces *)

(** A model target, as the executor sees it ([Package::Program]): a state machine over its device
    state.  The timing and speculation statistics it also reports are not modelled. *)
Class Target : Type := {
  tg_state : Type;
  tg_prompt : Type;
  tg_options : Type;
  tg_base_plan : Type;
  tg_plan : Type;
  base_summary : tg_base_plan -> RequestPlanSummary;
  plan_summary : tg_plan -> RequestPlanSummary;
  plan_request_base : tg_prompt -> tg_options -> M tg_state tg_base_plan;
  plan_request_for_lane : nat -> tg_prompt -> tg_base_plan -> M tg_state tg_plan;
  can_admit_lane : tg_state -> nat -> tg_plan -> bool;
  can_admit_lane_after_retained_eviction : tg_state -> nat -> tg_plan -> bool;
  has_retained_lane : tg_state -> nat -> bool;
  evict_retained_lane : nat -> tg_state -> tg_state;
  start_prefill_lane : nat -> tg_prompt -> tg_plan -> TransientRegion -> M tg_state PrefillStepResult;
  advance_prefill_lane : nat -> M tg_state PrefillStepResult;
  decode_batch : list nat -> list Z -> M tg_state BatchedGeneratedRound;
  resolve_prefill_lane : nat -> bool -> M tg_state unit;
  resolve_pending_batch : list nat -> list Z -> list bool -> list bool -> M tg_state unit;
  abort_lane : nat -> tg_state -> tg_state;
}.

(** An output session ([targets::qwen3_6::OutputSession]). *)
Class OutputSession : Type := {
  os_state : Type;
  preview : list Z -> Z -> FinishReason -> M os_state OutputDecision;
  preview_terminal : FinishReason -> M os_state OutputDecision;
  commit_preview : M os_state (list OutputDelta);
}.

(** What other threads and the clock do while the worker runs: the value read by the [t]-th
    clock read, and whether another thread has asked to cancel a request by the [t]-th load. *)
Class Environment : Type := {
  env_now : nat -> Z;
  env_cancelled : nat -> Z -> bool;
}.

(** ** What the executor relies on *)

(** A session counts in unsigned numbers, and one that has not been used can be cancelled. *)
Class OutputSessionLaws `{OS : OutputSession} : Type := {
  os_ready : os_state -> Prop;
  os_count : forall tokens budget limit o d o',
    preview tokens budget limit o = (Ok d, o') -> 0 <= accepted_tokens d;
  os_cancel : forall o, os_ready o -> exists d o1 out o2,
    preview_terminal FR_Cancelled o = (Ok d, o1) /\ commit_preview o1 = (Ok out, o2);
}.

(** A plan's counts are unsigned. *)
Class TargetLaws `{TG : Target} : Prop := {
  tg_count : forall p, 0 <= effective_output_tokens (plan_summary p);
}.
