(* ===== verification/Output.v ===== *)
(** * Output sessions: [targets/qwen3_6/impl/frontend/frontend.cpp]

    An output session turns generated tokens into published text: bytes are held back until they are
    whole UTF-8 sequences, the end of the reasoning is found, and text that may be the beginning of a
    stop string is held back.  Strings are lists of bytes ([0 .. 255]).

    The tokenizer is the interface [TokenDecoder]. *)
From S2P Require Import Prelude Unicode Admission Capacity Contract.
#[local] Open Scope Z_scope.

(** What a session uses of the tokenizer. *)
Class TokenDecoder : Type := {
  is_valid_token : Z -> bool;
  decode_token_bytes : Z -> bool -> result (list Z);
  default_stop_token_ids : list Z;
}.

(** ** Strings *)

(** Does [p] occur at the head of [s]? *)
Definition is_prefix (p s : list Z) : bool := bool_decide (take (length p) s = p).

(** [std::string::find]: the first position where [p] occurs. *)
Fixpoint find_sub (p s : list Z) : option nat :=
  if is_prefix p s then Some 0%nat
  else match s with
       | [] => None
       | _ :: s' => match find_sub p s' with Some i => Some (S i) | None => None end
       end.

(** [std::isspace] in the C locale. *)
Definition isspace (b : Z) : bool := (b =? 32) || ((9 <=? b) && (b <=? 13)).

Fixpoint strip_leading (s : list Z) : list Z :=
  match s with
  | b :: s' => if isspace b then strip_leading s' else s
  | [] => []
  end.

(** ** Stop policies *)

Record StopString : Set := mkStopString {
  ss_text : list Z; ss_channel : OutputChannel; include_in_output : bool;
}.
#[export] Instance StopString_eq_dec : EqDecision StopString.
Proof. solve_decision. Defined.

Record StopPolicy : Set := mkStopPolicy {
  token_ids : list Z;
  strings : list StopString;
  include_model_defaults : bool;
  publish_stop_token : bool;
}.

Section Policy.
Context `{TD : TokenDecoder}.

(** [merge_stop_policy]; its two loops. *)
Fixpoint append_tokens (result_ids tokens : list Z) : result (list Z) :=
  match tokens with
  | [] => Ok result_ids
  | token :: tokens' =>
      do* throw_if (negb (is_valid_token token)) InvalidArgument;
      append_tokens (if existsb (Z.eqb token) result_ids then result_ids else result_ids ++ [token]) tokens'
  end.
Fixpoint append_strings (result_strings stops : list StopString) : result (list StopString) :=
  match stops with
  | [] => Ok result_strings
  | stop :: stops' =>
      do* throw_if (bool_decide (ss_text stop = [])) InvalidArgument;
      let* _ := utf8_codepoints (ss_text stop) in
      append_strings (if bool_decide (stop ∈ result_strings) then result_strings else result_strings ++ [stop]) stops'
  end.
Definition merge_stop_policy (caller : StopPolicy) : result StopPolicy :=
  let* ids := append_tokens [] (if include_model_defaults caller then default_stop_token_ids else []) in
  let* ids := append_tokens ids (token_ids caller) in
  let* ss := append_strings [] (strings caller) in
  Ok (mkStopPolicy ids ss true (publish_stop_token caller)).
End Policy.

(** ** Published output *)

(** [PublishedOutput]: at most two deltas. *)
Definition push_back (out : list OutputDelta) (d : OutputDelta) : result (list OutputDelta) :=
  do* throw_if (length out =? 2)%nat LogicError;
  Ok (out ++ [d]).

(** [append_delta] *)
Definition append_delta (out : list OutputDelta) (ch : OutputChannel) (text : list Z)
  : result (list OutputDelta) :=
  if bool_decide (text = []) then Ok out else
  match last out with
  | Some d => if bool_decide (od_channel d = ch)
              then Ok (removelast out ++ [mkDelta ch (od_text d ++ text)])
              else push_back out (mkDelta ch text)
  | None => push_back out (mkDelta ch text)
  end.

(** ** UTF-8 *)

(** The sequence at the head of a string: its length, the initial codepoint and the least codepoint
    its length may encode. *)
Definition utf8_lead (lead : Z) : result (nat * Z * Z) :=
  if lead <=? 0x7f then Ok (1%nat, lead, 0)
  else if (0xc2 <=? lead) && (lead <=? 0xdf) then Ok (2%nat, Z.land lead 0x1f, 0x80)
  else if (0xe0 <=? lead) && (lead <=? 0xef) then Ok (3%nat, Z.land lead 0x0f, 0x800)
  else if (0xf0 <=? lead) && (lead <=? 0xf4) then Ok (4%nat, Z.land lead 0x07, 0x10000)
  else Err InvalidArgument.

Fixpoint utf8_continue (codepoint : Z) (bytes : list Z) : result Z :=
  match bytes with
  | [] => Ok codepoint
  | byte :: bytes' =>
      do* throw_if (negb (Z.land byte 0xc0 =? 0x80)) InvalidArgument;
      utf8_continue (Z.lor (Z.shiftl codepoint 6) (Z.land byte 0x3f)) bytes'
  end.

(** [valid_utf8_prefix_size]: every pass consumes a byte, so the length is enough fuel. *)
Fixpoint valid_utf8_prefix_from (fuel : nat) (bytes : list Z) (offset : nat) : result nat :=
  match bytes, fuel with
  | [], _ => Ok offset
  | _, O => Err LogicError
  | lead :: rest, S fuel' =>
      let* l := utf8_lead lead in
      let '(len, codepoint, minimum) := l in
      if (length bytes <? len)%nat then Ok offset else
      let* codepoint := utf8_continue codepoint (take (len - 1) rest) in
      do* throw_if ((codepoint <? minimum) || ((0xd800 <=? codepoint) && (codepoint <=? 0xdfff)) ||
                    (codepoint >? 0x10ffff)) InvalidArgument;
      valid_utf8_prefix_from fuel' (drop (len - 1) rest) (offset + len)
  end.
Definition valid_utf8_prefix_size (bytes : list Z) : result nat :=
  valid_utf8_prefix_from (length bytes) bytes 0.

(** ** Held back text *)

(** [longest_suffix_prefix], from [size] down. *)
Fixpoint suffix_prefix_from (size : nat) (text marker : list Z) (allow_complete : bool) : nat :=
  match size with
  | O => 0%nat
  | S k =>
      if negb allow_complete && (size =? length marker)%nat then suffix_prefix_from k text marker allow_complete
      else if bool_decide (drop (length text - size) text = take size marker) then size
      else suffix_prefix_from k text marker allow_complete
  end.
Definition longest_suffix_prefix (text marker : list Z) (allow_complete : bool) : nat :=
  suffix_prefix_from (Nat.min (length text) (length marker)) text marker allow_complete.

Definition kThinkClose : list Z := [60; 47; 116; 104; 105; 110; 107; 62].

Record DecoderState : Set := mkDecoder {
  utf8_pending : list Z;
  think_marker_pending : list Z;
  stop_pending_reasoning : list Z;    (**r [stop_pending], by [channel_index] *)
  stop_pending_content : list Z;
  in_reasoning : bool;
  strip_content_leading : bool;
  terminal : bool;
  decoded_bytes : Z;
  reasoning_tokens : Z;
}.

Definition stop_pending (st : DecoderState) (ch : OutputChannel) : list Z :=
  match ch with Reasoning => stop_pending_reasoning st | Content => stop_pending_content st end.
Definition set_stop_pending (ch : OutputChannel) (p : list Z) (st : DecoderState) : DecoderState :=
  match ch with
  | Reasoning => mkDecoder (utf8_pending st) (think_marker_pending st) p (stop_pending_content st)
                   (in_reasoning st) (strip_content_leading st) (terminal st) (decoded_bytes st)
                   (reasoning_tokens st)
  | Content => mkDecoder (utf8_pending st) (think_marker_pending st) (stop_pending_reasoning st) p
                 (in_reasoning st) (strip_content_leading st) (terminal st) (decoded_bytes st)
                 (reasoning_tokens st)
  end.
Definition set_utf8_pending (p : list Z) (st : DecoderState) : DecoderState :=
  mkDecoder p (think_marker_pending st) (stop_pending_reasoning st) (stop_pending_content st)
    (in_reasoning st) (strip_content_leading st) (terminal st) (decoded_bytes st) (reasoning_tokens st).
Definition set_think_pending (p : list Z) (st : DecoderState) : DecoderState :=
  mkDecoder (utf8_pending st) p (stop_pending_reasoning st) (stop_pending_content st)
    (in_reasoning st) (strip_content_leading st) (terminal st) (decoded_bytes st) (reasoning_tokens st).
Definition set_in_reasoning (b : bool) (st : DecoderState) : DecoderState :=
  mkDecoder (utf8_pending st) (think_marker_pending st) (stop_pending_reasoning st)
    (stop_pending_content st) b (strip_content_leading st) (terminal st) (decoded_bytes st)
    (reasoning_tokens st).
Definition set_strip (b : bool) (st : DecoderState) : DecoderState :=
  mkDecoder (utf8_pending st) (think_marker_pending st) (stop_pending_reasoning st)
    (stop_pending_content st) (in_reasoning st) b (terminal st) (decoded_bytes st) (reasoning_tokens st).
Definition set_terminal (b : bool) (st : DecoderState) : DecoderState :=
  mkDecoder (utf8_pending st) (think_marker_pending st) (stop_pending_reasoning st)
    (stop_pending_content st) (in_reasoning st) (strip_content_leading st) b (decoded_bytes st)
    (reasoning_tokens st).
Definition set_decoded_bytes (n : Z) (st : DecoderState) : DecoderState :=
  mkDecoder (utf8_pending st) (think_marker_pending st) (stop_pending_reasoning st)
    (stop_pending_content st) (in_reasoning st) (strip_content_leading st) (terminal st) n
    (reasoning_tokens st).
Definition set_reasoning_tokens (n : Z) (st : DecoderState) : DecoderState :=
  mkDecoder (utf8_pending st) (think_marker_pending st) (stop_pending_reasoning st)
    (stop_pending_content st) (in_reasoning st) (strip_content_leading st) (terminal st)
    (decoded_bytes st) n.

Record StopMatch : Set := mkStopMatch {
  found : bool;
  committed_tokens : Z;
  byte_cut : Z;
  declaration_order : Z;
  sm_output : list OutputDelta;
}.
Definition no_match : StopMatch := mkStopMatch false 0 0 0 [].

(** [stop_match_precedes] *)
Definition stop_match_precedes (committed cut order : Z) (current : StopMatch) : bool :=
  if negb (found current) then true
  else if negb (committed =? committed_tokens current) then committed <? committed_tokens current
  else if negb (cut =? byte_cut current) then cut <? byte_cut current
  else order <? declaration_order current.

(** [stop_hold_size] *)
Definition stop_hold_size (text : list Z) (ch : OutputChannel) (policy : StopPolicy) : nat :=
  foldl (fun hold stop => if bool_decide (ss_channel stop = ch)
                          then Nat.max hold (longest_suffix_prefix text (ss_text stop) false) else hold)
    0%nat (strings policy).

(** ** Feeding *)

(** The loop of [feed_channel] over the declared stop strings. *)
Fixpoint match_stops (ch : OutputChannel) (combined : list Z) (combined_start : Z)
    (emitted : list OutputDelta) (committed : Z) (declaration : Z) (stops : list StopString)
    (best : StopMatch) : result StopMatch :=
  match stops with
  | [] => Ok best
  | stop :: stops' =>
      let next := match_stops ch combined combined_start emitted committed (declaration + 1) stops' in
      if negb (bool_decide (ss_channel stop = ch)) then next best else
      match find_sub (ss_text stop) combined with
      | None => next best
      | Some at_ =>
          let cut := combined_start + Z.of_nat at_ in
          if negb (stop_match_precedes committed cut declaration best) then next best else
          let* candidate := append_delta emitted ch (take at_ combined) in
          let* candidate := if include_in_output stop then append_delta candidate ch (ss_text stop)
                            else Ok candidate in
          next (mkStopMatch true committed cut declaration candidate)
      end
  end.

(** What the feeding functions change: the decoder, the emitted output and the best match so far
    ([None] when the caller passes no match). *)
Definition Feed : Set := (DecoderState * list OutputDelta * option StopMatch)%type.

(** [feed_channel] *)
Definition feed_channel (policy : StopPolicy) (committed : Z) (ch : OutputChannel) (text : list Z)
    (f : Feed) : result Feed :=
  if bool_decide (text = []) then Ok f else
  let '(st, emitted, best) := f in
  let combined := stop_pending st ch ++ text in
  let combined_start := decoded_bytes st - Z.of_nat (length (stop_pending st ch)) in
  let* best := match best with
               | None => Ok None
               | Some b => let* b := match_stops ch combined combined_start emitted committed 0 (strings policy) b in
                           Ok (Some b)
               end in
  let hold := stop_hold_size combined ch policy in
  let* emitted := append_delta emitted ch (take (length combined - hold) combined) in
  let st := set_decoded_bytes (decoded_bytes st + Z.of_nat (length text))
              (set_stop_pending ch (drop (length combined - hold) combined) st) in
  Ok (st, emitted, best).

(** [close_channel] *)
Definition close_channel (ch : OutputChannel) (f : Feed) : result Feed :=
  let '(st, emitted, best) := f in
  let* emitted := append_delta emitted ch (stop_pending st ch) in
  Ok (set_stop_pending ch [] st, emitted, best).

(** [feed_content] *)
Definition feed_content (policy : StopPolicy) (committed : Z) (text : list Z) (f : Feed) : result Feed :=
  let '(st, emitted, best) := f in
  if strip_content_leading st then
    let text := strip_leading text in
    let st := if bool_decide (text = []) then st else set_strip false st in
    feed_channel policy committed Content text (st, emitted, best)
  else feed_channel policy committed Content text f.

(** [feed_decoded_text] *)
Definition feed_decoded_text (policy : StopPolicy) (committed : Z) (text : list Z) (f : Feed) : result Feed :=
  let '(st, emitted, best) := f in
  if negb (in_reasoning st) then feed_content policy committed text f else
  let pending := think_marker_pending st ++ text in
  match find_sub kThinkClose pending with
  | Some marker =>
      let* f := feed_channel policy committed Reasoning (take marker pending)
                  (set_think_pending pending st, emitted, best) in
      let* f := close_channel Reasoning f in
      let '(st, emitted, best) := f in
      feed_content policy committed (drop (marker + length kThinkClose) pending)
        (set_strip true (set_in_reasoning false (set_think_pending [] st)), emitted, best)
  | None =>
      let hold := longest_suffix_prefix pending kThinkClose true in
      let safe := (length pending - hold)%nat in
      let* f := feed_channel policy committed Reasoning (take safe pending)
                  (set_think_pending pending st, emitted, best) in
      let '(st, emitted, best) := f in
      Ok (set_think_pending (drop safe pending) st, emitted, best)
  end.

(** [feed_token_bytes] *)
Definition feed_token_bytes (policy : StopPolicy) (committed : Z) (bytes : list Z) (f : Feed) : result Feed :=
  let '(st, emitted, best) := f in
  let pending := utf8_pending st ++ bytes in
  let* valid := valid_utf8_prefix_size pending in
  if (valid =? 0)%nat then Ok (set_utf8_pending pending st, emitted, best) else
  feed_decoded_text policy committed (take valid pending)
    (set_utf8_pending (drop valid pending) st, emitted, best).

(** The replacement character, U+FFFD. *)
Definition kReplacement : list Z := [0xef; 0xbf; 0xbd].

(** [terminalize] *)
Definition terminalize (policy : StopPolicy) (committed : Z) (st : DecoderState)
    (emitted : list OutputDelta) : result (DecoderState * list OutputDelta) :=
  let* f := if bool_decide (utf8_pending st = []) then Ok (st, emitted, None)
            else feed_decoded_text policy committed kReplacement (set_utf8_pending [] st, emitted, None) in
  let '(st, emitted, _) := f in
  let* f := if in_reasoning st then
              let* f := feed_channel policy committed Reasoning (think_marker_pending st) (st, emitted, None) in
              let '(st, emitted, best) := f in
              close_channel Reasoning (set_think_pending [] st, emitted, best)
            else close_channel Content (st, emitted, None) in
  let '(st, emitted, _) := f in
  Ok (set_terminal true (set_stop_pending Content [] (set_stop_pending Reasoning [] st)), emitted).

(** [terminal_state] *)
Definition terminal_state (st : DecoderState) : DecoderState :=
  set_terminal true (set_stop_pending Content [] (set_stop_pending Reasoning []
    (set_think_pending [] (set_utf8_pending [] st)))).

(** ** Sessions *)

(** [OutputSession::Impl]; [ses_preview] is [preview_state] and [preview_output] when
    [preview_ready]: they are not read otherwise. *)
Record Session : Set := mkSession {
  ses_policy : StopPolicy;
  preserve_special : bool;
  ses_state : DecoderState;
  ses_preview : option (DecoderState * list OutputDelta);
}.
Definition set_ses_state st (x : Session) : Session :=
  mkSession (ses_policy x) (preserve_special x) st (ses_preview x).
Definition set_ses_preview p (x : Session) : Session :=
  mkSession (ses_policy x) (preserve_special x) (ses_state x) p.

Definition initial_decoder (reasoning : bool) : DecoderState :=
  mkDecoder [] [] [] [] reasoning false false 0 0.

(** [OutputSession::Impl::Impl] *)
Definition make_session (policy : StopPolicy) (raw preserve_special_tokens starts_in_reasoning : bool) : Session :=
  mkSession policy (raw || preserve_special_tokens) (initial_decoder (starts_in_reasoning && negb raw)) None.

Section Sessions.
Context `{TD : TokenDecoder}.

(** [Frontend::make_output_session]; [prompt] is whether the prepared prompt starts in reasoning,
    [None] when it is empty. *)
Definition make_output_session (prompt : option bool) (caller_stop : StopPolicy)
    (raw preserve_special_tokens : bool) : result Session :=
  match prompt with
  | None => Err InvalidArgument
  | Some starts_in_reasoning =>
      let* policy := merge_stop_policy caller_stop in
      let policy := if raw then mkStopPolicy (token_ids policy) (strings policy) (include_model_defaults policy) true
                    else policy in
      Ok (make_session policy raw preserve_special_tokens starts_in_reasoning)
  end.

(** One token of the loop of [preview]: [inl] when it finishes the generation. *)
Definition preview_token (policy : StopPolicy) (preserve : bool) (count token : Z)
    (st : DecoderState) (out : list OutputDelta)
  : result ((DecoderState * list OutputDelta * OutputDecision) + (DecoderState * list OutputDelta)) :=
  do* throw_if (negb (is_valid_token token)) OutOfRange;
  let st := if in_reasoning st then set_reasoning_tokens (u32 (reasoning_tokens st + 1)) st else st in
  let stop_token := existsb (Z.eqb token) (token_ids policy) in
  let* bytes := decode_token_bytes token (negb preserve) in
  let* fed := feed_token_bytes policy count bytes (st, out, Some no_match) in
  let '(st', out', best) := fed in
  match best with
  | Some m =>
      if found m then Ok (inl (terminal_state st', sm_output m, mkDecision (committed_tokens m) FR_StopString))
      else if stop_token then
        let '(st1, out1) := if publish_stop_token policy then (st', out') else (st, out) in
        let* r := terminalize policy count st1 out1 in
        Ok (inl (r, mkDecision count StopToken))
      else Ok (inr (st', out'))
  | None => Err LogicError
  end.

Fixpoint preview_tokens (policy : StopPolicy) (preserve : bool) (count : Z) (tokens : list Z)
    (st : DecoderState) (out : list OutputDelta)
  : result ((DecoderState * list OutputDelta * OutputDecision) + (DecoderState * list OutputDelta)) :=
  match tokens with
  | [] => Ok (inr (st, out))
  | token :: tokens' =>
      let* r := preview_token policy preserve (count + 1) token st out in
      match r with
      | inl done => Ok (inl done)
      | inr (st', out') => preview_tokens policy preserve (count + 1) tokens' st' out'
      end
  end.

(** [OutputSession::preview] *)
Definition session_preview (tokens : list Z) (budget_remaining : Z) (limit_reason : FinishReason)
  : M Session OutputDecision :=
  let! s := mget in
  do! mthrow_if (terminal (ses_state s)) LogicError;
  do! mthrow_if (is_some (ses_preview s)) LogicError;
  do! mthrow_if (bool_decide (tokens = [])) InvalidArgument;
  let count := Z.of_nat (length tokens) in
  do! mthrow_if (count >? budget_remaining) InvalidArgument;
  do! mthrow_if (negb (bool_decide (limit_reason = OutputLimit)) &&
                 negb (bool_decide (limit_reason = ContextCapacity))) InvalidArgument;
  let! r := mlift (preview_tokens (ses_policy s) (preserve_special s) 0 tokens (ses_state s) []) in
  match r with
  | inl (st, out, decision) => do! mmodify (set_ses_preview (Some (st, out))); mret_ decision
  | inr (st, out) =>
      if count =? budget_remaining then
        let! fin := mlift (terminalize (ses_policy s) count st out) in
        do! mmodify (set_ses_preview (Some fin));
        mret_ (mkDecision count limit_reason)
      else
        do! mmodify (set_ses_preview (Some (st, out)));
        mret_ (mkDecision count FR_None)
  end.

(** [OutputSession::preview_terminal] *)
Definition session_preview_terminal (reason : FinishReason) : M Session OutputDecision :=
  let! s := mget in
  do! mthrow_if (terminal (ses_state s)) LogicError;
  do! mthrow_if (is_some (ses_preview s)) LogicError;
  do! mthrow_if (bool_decide (reason = FR_None) || bool_decide (reason = FR_StopString) ||
                 bool_decide (reason = StopToken)) InvalidArgument;
  let! fin := mlift (terminalize (ses_policy s) 0 (ses_state s) []) in
  do! mmodify (set_ses_preview (Some fin));
  mret_ (mkDecision 0 reason).

(** [OutputSession::commit_preview] *)
Definition session_commit_preview : M Session (list OutputDelta) :=
  let! s := mget in
  match ses_preview s with
  | None => mthrow Abort_
  | Some (st, out) => do! mput (set_ses_preview None (set_ses_state st s)); mret_ out
  end.

(** The sessions of the frontend, as the executor sees them. *)
#[export] Instance frontend_session : OutputSession := {
  os_state := Session;
  preview := session_preview;
  preview_terminal := session_preview_terminal;
  commit_preview := session_commit_preview;
}.
End Sessions.
