(* ===== verification/OutputProofs.v ===== *)
(** * Correctness of the output sessions

    The text a session publishes does not depend on how the generated bytes are cut into tokens and
    rounds: it is the text of all the bytes, split at the end of the reasoning; a stop string is seen
    exactly when it occurs in the text of its channel, and what is published ends at its first
    occurrence. *)
From S2P Require Import Prelude Admission Capacity Contract Output.
#[local] Open Scope Z_scope.

(** ** Occurrences *)

Definition occurs (p s : list Z) (i : nat) : Prop := take (length p) (drop i s) = p.

Lemma occurs_length p s i : occurs p s i -> (length p <= length s - i)%nat.
Proof. intros H. apply (f_equal length) in H. rewrite length_take, length_drop in H. lia. Qed.

Lemma find_sub_spec p s :
  match find_sub p s with
  | Some i => occurs p s i /\ (i <= length s)%nat /\ forall j, (j < i)%nat -> ~ occurs p s j
  | None => forall j, (j <= length s)%nat -> ~ occurs p s j
  end.
Proof.
  unfold occurs. induction s as [|b s IH]; cbn [find_sub]; unfold is_prefix; case_bool_decide as Hp.
  - split; [done|]. split; [lia|]. intros j Hj. lia.
  - intros j Hj. assert (j = 0%nat) as -> by (cbn in Hj; lia). done.
  - split; [done|]. split; [cbn; lia|]. intros j Hj. lia.
  - destruct (find_sub p s) as [i|].
    + destruct IH as (H1 & H2 & H3). split; [done|]. split; [cbn; lia|]. intros [|j] Hj; [done|].
      apply H3. lia.
    + intros [|j] Hj; [done|]. apply IH. cbn in Hj. lia.
Qed.

Lemma find_sub_None p s : p <> [] -> find_sub p s = None <-> forall j, ~ occurs p s j.
Proof.
  intros Hp. pose proof (find_sub_spec p s) as H. split.
  - intros E j Ho. rewrite E in H. apply (H j); [|done]. apply occurs_length in Ho. destruct p; [done|]. cbn in Ho. lia.
  - intros Hn. destruct (find_sub p s) as [i|]; [|done]. by destruct (Hn i), H.
Qed.

Lemma find_sub_Some p s i :
  find_sub p s = Some i <-> occurs p s i /\ (i <= length s)%nat /\ forall j, (j < i)%nat -> ~ occurs p s j.
Proof.
  pose proof (find_sub_spec p s) as H. split; [by intros E; rewrite E in H|].
  intros (H1 & H2 & H3). destruct (find_sub p s) as [k|]; [|by destruct (H i)].
  destruct H as (K1 & K2 & K3). f_equal. destruct (lt_eq_lt_dec k i) as [[Hl| ->]|Hl]; [|done|].
  - by destruct (H3 k).
  - by destruct (K3 i).
Qed.

Lemma occurs_app_r e p s i : occurs p (e ++ s) (length e + i) <-> occurs p s i.
Proof. unfold occurs. by rewrite drop_app_add. Qed.

Lemma occurs_app_l p s x i : occurs p s i -> occurs p (s ++ x) i.
Proof.
  intros H. pose proof (occurs_length _ _ _ H) as Hl. unfold occurs in *.
  destruct (decide (i <= length s)%nat).
  - rewrite drop_app_le by done. rewrite take_app_le; [done|]. rewrite length_drop. lia.
  - destruct p; [|cbn in Hl; lia]. done.
Qed.

Lemma occurs_app_inv p s x i : (i + length p <= length s)%nat -> occurs p (s ++ x) i -> occurs p s i.
Proof.
  intros Hi H. unfold occurs in *. rewrite drop_app_le in H by lia. by rewrite take_app_le in H by (rewrite length_drop; lia).
Qed.

(** ** Holding text back *)

(** The longest suffix that may be the beginning of [marker]. *)
Definition suffix_is (text marker : list Z) (k : nat) : Prop :=
  (k <= length text)%nat /\ (k <= length marker)%nat /\ drop (length text - k) text = take k marker.

Lemma suffix_prefix_from_spec size text marker b :
  (size <= length text)%nat -> (size <= length marker)%nat ->
  let n := suffix_prefix_from size text marker b in
  (n <= size)%nat /\ suffix_is text marker n /\
  (b = false -> n = 0 \/ n < length marker)%nat /\
  (forall k, (n < k <= size)%nat -> (b = true \/ k <> length marker) -> ~ suffix_is text marker k).
Proof.
  intros Ht Hm. induction size as [|size IH]; cbn [suffix_prefix_from].
  - split; [lia|]. split; [|split; [by left|intros k Hk; lia]]. split; [lia|]. split; [lia|].
    rewrite Nat.sub_0_r. by rewrite drop_all.
  - destruct IH as (H1 & H2 & H3 & H4); [lia..|].
    assert (Hgo : forall k, (suffix_prefix_from size text marker b < k <= S size)%nat ->
      (b = true \/ k <> length marker) -> (k = S size -> ~ suffix_is text marker k) -> ~ suffix_is text marker k).
    { intros k Hk Hb Hs. destruct (decide (k = S size)); [by apply Hs|]. apply H4; [lia|done]. }
    destruct (negb b && (S size =? length marker)%nat) eqn:E.
    + apply andb_true_iff in E as [Eb El%Nat.eqb_eq]. split; [lia|]. split; [done|]. split; [done|].
      intros k Hk Hb. apply Hgo; [done..|]. intros ->. destruct Hb as [->|Hb]; [done|lia].
    + case_bool_decide as Hd.
      * split; [lia|]. split; [by split_and!|]. split; [|intros k Hk; lia]. intros ->. right.
        change ((S size =? length marker)%nat = false) in E. apply Nat.eqb_neq in E. lia.
      * split; [lia|]. split; [done|]. split; [done|]. intros k Hk Hb. apply Hgo; [done..|]. intros -> (_ & _ & Hs). done.
Qed.

Lemma longest_suffix_prefix_spec text marker b :
  let n := longest_suffix_prefix text marker b in
  suffix_is text marker n /\
  (forall k, (b = true \/ k <> length marker) -> suffix_is text marker k -> (k <= n)%nat).
Proof.
  unfold longest_suffix_prefix. destruct (suffix_prefix_from_spec (Nat.min (length text) (length marker)) text marker b)
    as (H1 & H2 & H3 & H4); [lia..|]. split; [done|]. intros k Hb Hs. destruct (decide (k <= suffix_prefix_from (Nat.min (length text) (length marker)) text marker b)%nat); [done|].
  destruct Hs as (K1 & K2 & K3). exfalso. apply (H4 k); [lia|done|by split_and!].
Qed.

(** What is held back of the text [e ++ p], namely [p], is enough: no marker of [ms] occurs yet, and
    one that ends later begins in [p]. *)
Definition held (ms : list Z -> Prop) (e p : list Z) : Prop :=
  (forall m i, ms m -> ~ occurs m (e ++ p) i) /\
  (forall m k, ms m -> (k < length m)%nat -> suffix_is (e ++ p) m k -> (k <= length p)%nat).

Lemma occurs_suffix m t x i :
  occurs m (t ++ x) i -> (i <= length t)%nat -> (length t < i + length m)%nat ->
  suffix_is t m (length t - i).
Proof.
  intros Ho Hi Hl. split; [lia|]. split; [lia|]. unfold occurs in Ho.
  rewrite drop_app_le in Ho by done. replace (length t - (length t - i))%nat with i by lia.
  rewrite <- Ho at 1. rewrite take_take, Nat.min_l by lia. rewrite take_app_le by (rewrite length_drop; lia).
  rewrite take_ge; [done|]. rewrite length_drop. lia.
Qed.

Lemma held_after ms e p x m i :
  held ms e p -> ms m -> occurs m ((e ++ p) ++ x) i -> (length e <= i)%nat.
Proof.
  intros [Hn Hh] Hm Ho. destruct (decide (length e <= i)%nat); [done|]. exfalso.
  destruct (decide (i + length m <= length (e ++ p))%nat) as [Hle|Hgt].
  - by apply (Hn m i), (occurs_app_inv m (e ++ p) x i).
  - assert (Hle : (i <= length (e ++ p))%nat) by (rewrite length_app; lia).
    assert (Hs := occurs_suffix m (e ++ p) x i Ho Hle ltac:(lia)).
    apply Hh in Hs; [|done|]; rewrite ?length_app in *; lia.
Qed.

(** Occurrences are looked for in what was held back and the new text only. *)
Lemma held_occurs ms e p x m i :
  held ms e p -> ms m -> occurs m ((e ++ p) ++ x) i <-> (length e <= i)%nat /\ occurs m (p ++ x) (i - length e).
Proof.
  intros Hh Hm. rewrite <- app_assoc. split.
  - intros Ho. assert (Hi : (length e <= i)%nat) by (eapply held_after; [done..|by rewrite <- app_assoc]).
    split; [done|]. apply (occurs_app_r e). by replace (length e + (i - length e))%nat with i by lia.
  - intros [Hi Ho]. replace i with (length e + (i - length e))%nat by lia. by apply occurs_app_r.
Qed.

Lemma suffix_is_app e s m k : (k <= length s)%nat -> suffix_is (e ++ s) m k <-> suffix_is s m k.
Proof.
  intros Hk. unfold suffix_is. rewrite length_app, drop_app_ge by lia.
  replace (length e + length s - k - length e)%nat with (length s - k)%nat by lia. naive_solver lia.
Qed.

(** Holding back the longest beginning of a marker of the new text keeps it so. *)
Lemma held_step ms e p x n :
  held ms e p -> (n <= length (p ++ x))%nat ->
  (forall m i, ms m -> ~ occurs m (p ++ x) i) ->
  (forall m k, ms m -> (k < length m)%nat -> suffix_is (p ++ x) m k -> (k <= n)%nat) ->
  held ms (e ++ take (length (p ++ x) - n) (p ++ x)) (drop (length (p ++ x) - n) (p ++ x)).
Proof.
  intros Hh Hn Hno Hmax. unfold held. rewrite <- app_assoc, take_drop. split.
  - intros m i Hm Ho. rewrite app_assoc in Ho. apply (held_occurs ms) in Ho as [_ Ho]; [|done..]. by eapply Hno.
  - intros m k Hm Hk Hs. rewrite length_drop. destruct (decide (k <= length (p ++ x))%nat) as [Hle|Hgt].
    + rewrite suffix_is_app in Hs by done. specialize (Hmax m k Hm Hk Hs). lia.
    + exfalso. destruct Hs as (H1 & H2 & H3). destruct Hh as [_ Hh]. rewrite app_assoc in H1, H3.
      set (t := e ++ p) in *. set (i := (length (t ++ x) - k)%nat) in *.
      assert (Hi : (i < length e)%nat). { subst i t. rewrite !length_app in *. lia. }
      assert (Hs : suffix_is t m (length t - i)).
      { assert (length t <= length (t ++ x))%nat by (rewrite length_app; lia).
        assert (i <= length t)%nat by (subst t; rewrite length_app; lia).
        split; [lia|]. split; [subst i; lia|]. replace (length t - (length t - i))%nat with i by lia.
        rewrite drop_app_le in H3 by lia. apply (f_equal (take (length t - i))) in H3.
        rewrite take_app_le in H3 by (rewrite length_drop; lia). rewrite take_ge in H3 by (rewrite length_drop; lia).
        rewrite take_take in H3. rewrite H3. f_equal. subst i. lia. }
      apply Hh in Hs; [|done|subst i; rewrite length_app; lia]. subst i t. rewrite !length_app in *. lia.
Qed.

(** ** Published output *)

(** The text of a channel. *)
Fixpoint out_text (out : list OutputDelta) (ch : OutputChannel) : list Z :=
  match out with
  | [] => []
  | d :: out' => (if bool_decide (od_channel d = ch) then od_text d else []) ++ out_text out' ch
  end.

(** Reasoning comes first, at most one delta of each channel. *)
Definition shape (out : list OutputDelta) : Prop :=
  out = [] \/ (exists r, out = [mkDelta Reasoning r]) \/ (exists c, out = [mkDelta Content c]) \/
  (exists r c, out = [mkDelta Reasoning r; mkDelta Content c]).
Definition no_content (out : list OutputDelta) : Prop := forall c, mkDelta Content c ∉ out.
Definition may_append (ch : OutputChannel) (out : list OutputDelta) : Prop :=
  shape out /\ (ch = Reasoning -> no_content out).

Lemma append_delta_run out ch x :
  may_append ch out -> exists out', append_delta out ch x = Ok out' /\ may_append ch out' /\
    out_text out' ch = out_text out ch ++ x /\
    (forall ch', ch' <> ch -> out_text out' ch' = out_text out ch').
Proof.
  intros [Hs Hn]. unfold append_delta. case_bool_decide as Hx.
  { exists out. subst x. rewrite app_nil_r. done. }
  assert (Hno : forall r, no_content [mkDelta Reasoning r]).
  { intros r c Hin. by apply list_elem_of_singleton in Hin. }
  assert (Hshape : forall r c, shape [] /\ shape [mkDelta Reasoning r] /\ shape [mkDelta Content c] /\
    shape [mkDelta Reasoning r; mkDelta Content c]).
  { intros r c. unfold shape. split_and!; [by left|right; left; by exists r|right; right; left; by exists c|].
    right; right; right. by exists r, c. }
  destruct Hs as [->|[[r ->]|[[c ->]|(r & c & ->)]]]; destruct ch; cbn;
    try (exfalso; eapply (Hn eq_refl); (left || (right; left))).
  - exists [mkDelta Content x]. split_and!; try done; [split; [apply (Hshape [] x)|done]|cbn; by rewrite app_nil_r|by intros []].
  - exists [mkDelta Reasoning x]. split_and!; try done; [split; [apply (Hshape x [])|done]|cbn; by rewrite app_nil_r|by intros []].
  - exists [mkDelta Reasoning r; mkDelta Content x].
    split_and!; try done; [split; [apply (Hshape r x)|done]|cbn; by rewrite app_nil_r|by intros []].
  - exists [mkDelta Reasoning (r ++ x)].
    split_and!; try done; [split; [apply (Hshape (r ++ x) [])|done]|cbn; by rewrite !app_nil_r|by intros []].
  - exists [mkDelta Content (c ++ x)].
    split_and!; try done; [split; [apply (Hshape [] (c ++ x))|done]|cbn; by rewrite !app_nil_r|by intros []].
  - exists [mkDelta Reasoning r; mkDelta Content (c ++ x)].
    split_and!; try done; [split; [apply (Hshape r (c ++ x))|done]|cbn; by rewrite !app_nil_r|by intros []].
Qed.

(** ** Stop strings *)

Definition stops_on (policy : StopPolicy) (ch : OutputChannel) (m : list Z) : Prop :=
  exists stop, stop ∈ strings policy /\ ss_channel stop = ch /\ ss_text stop = m.
Definition policy_ok (policy : StopPolicy) : Prop := forall stop, stop ∈ strings policy -> ss_text stop <> [].

Lemma hold_foldl text ch stops h0 :
  (h0 <= length text)%nat ->
  let h := foldl (fun hold stop => if bool_decide (ss_channel stop = ch)
                          then Nat.max hold (longest_suffix_prefix text (ss_text stop) false) else hold) h0 stops in
  (h0 <= h <= length text)%nat /\
  (forall stop k, stop ∈ stops -> ss_channel stop = ch -> (k < length (ss_text stop))%nat ->
     suffix_is text (ss_text stop) k -> (k <= h)%nat).
Proof.
  revert h0. induction stops as [|s stops IH]; intros h0 Hh0; cbn [foldl].
  - split; [lia|]. intros stop k Hin. by apply elem_of_nil in Hin.
  - destruct (longest_suffix_prefix_spec text (ss_text s) false) as [(L1 & _) L2].
    case_bool_decide as Hc.
    + destruct (IH (Nat.max h0 (longest_suffix_prefix text (ss_text s) false))) as [H1 H2]; [lia|].
      split; [lia|]. intros stop k Hin Hch Hk Hs. apply elem_of_cons in Hin as [->|Hin]; [|by eapply H2].
      assert (k <= longest_suffix_prefix text (ss_text s) false)%nat; [|lia]. apply L2; [right; lia|done].
    + destruct (IH h0 Hh0) as [H1 H2]. split; [done|]. intros stop k Hin Hch Hk Hs.
      apply elem_of_cons in Hin as [->|Hin]; [done|by eapply H2].
Qed.

Lemma stop_hold_size_spec text ch policy :
  let h := stop_hold_size text ch policy in
  (h <= length text)%nat /\
  (forall m k, stops_on policy ch m -> (k < length m)%nat -> suffix_is text m k -> (k <= h)%nat).
Proof.
  destruct (hold_foldl text ch (strings policy) 0) as [H1 H2]; [lia|]. split; [apply H1|].
  intros m k (stop & Hin & Hc & <-) Hk Hs. by eapply H2.
Qed.

(** [m] is the match of a stop string at [at_] in the text [combined] that starts at [start]. *)
Definition match_of (ch : OutputChannel) (combined : list Z) (start : Z) (emitted : list OutputDelta)
    (committed decl : Z) (stop : StopString) (at_ : nat) (m : StopMatch) : Prop :=
  ss_channel stop = ch /\ find_sub (ss_text stop) combined = Some at_ /\ found m = true /\
  committed_tokens m = committed /\ byte_cut m = start + Z.of_nat at_ /\ declaration_order m = decl /\
  out_text (sm_output m) ch =
    out_text emitted ch ++ take at_ combined ++ (if include_in_output stop then ss_text stop else []) /\
  (forall ch', ch' <> ch -> out_text (sm_output m) ch' = out_text emitted ch').

Lemma match_stops_run ch combined start emitted committed decl stops best :
  may_append ch emitted -> (found best = true -> committed_tokens best = committed) ->
  exists best', match_stops ch combined start emitted committed decl stops best = Ok best' /\
    (best' = best \/ exists k stop at_, stops !! k = Some stop /\
       match_of ch combined start emitted committed (decl + Z.of_nat k) stop at_ best') /\
    (found best = true -> found best' = true /\ byte_cut best' <= byte_cut best) /\
    (forall stop at_, stop ∈ stops -> ss_channel stop = ch -> find_sub (ss_text stop) combined = Some at_ ->
       found best' = true /\ byte_cut best' <= start + Z.of_nat at_).
Proof.
  intros Ha. revert decl best. induction stops as [|s stops IH]; intros decl best Hb; cbn [match_stops].
  - exists best. split; [done|]. split; [by left|]. split; [intros; split; [done|lia]|].
    intros stop at_ Hin. by apply elem_of_nil in Hin.
  - assert (Hskip : (forall at_, ss_channel s = ch -> find_sub (ss_text s) combined = Some at_ ->
        found best = true /\ byte_cut best <= start + Z.of_nat at_) ->
      exists best', match_stops ch combined start emitted committed (decl + 1) stops best = Ok best' /\
       (best' = best \/ exists k stop at_, (s :: stops) !! k = Some stop /\
         match_of ch combined start emitted committed (decl + Z.of_nat k) stop at_ best') /\
       (found best = true -> found best' = true /\ byte_cut best' <= byte_cut best) /\
       (forall stop at_, stop ∈ s :: stops -> ss_channel stop = ch -> find_sub (ss_text stop) combined = Some at_ ->
         found best' = true /\ byte_cut best' <= start + Z.of_nat at_)).
    { intros Hs. destruct (IH (decl + 1) best Hb) as (b' & E & H1 & H2 & H3). exists b'. split; [done|]. split.
      - destruct H1 as [->|(k & stop & at_ & Hk & Hm)]; [by left|right]. exists (S k), stop, at_. split; [done|].
        by replace (decl + Z.of_nat (S k)) with (decl + 1 + Z.of_nat k) by lia.
      - split; [done|]. intros stop at_ [->|Hin]%elem_of_cons Hc Hf; [|by eapply H3].
        destruct (Hs at_ Hc Hf) as [F1 F2]. destruct (H2 F1). split; [done|lia]. }
    destruct (decide (ss_channel s = ch)) as [Hc|Hc].
    2:{ rewrite bool_decide_eq_false_2 by done. apply Hskip. by intros at_ ?. }
    rewrite bool_decide_eq_true_2 by done. cbn [negb].
    destruct (find_sub (ss_text s) combined) as [at_|] eqn:Hf; [|by apply Hskip].
    destruct (stop_match_precedes committed (start + Z.of_nat at_) decl best) eqn:Hp; cbn [negb].
    2:{ apply Hskip. intros a _ [= <-]. unfold stop_match_precedes in Hp. destruct (found best); [|done]. cbn in Hp.
        rewrite (Hb eq_refl), Z.eqb_refl in Hp. cbn in Hp. split; [done|].
        destruct (Z.eqb_spec (start + Z.of_nat at_) (byte_cut best)); cbn in Hp; lia. }
    destruct (append_delta_run emitted ch (take at_ combined) Ha) as (o1 & -> & A1 & T1 & T1'). cbn [rbind].
    assert (exists o2, (if include_in_output s then append_delta o1 ch (ss_text s) else Ok o1) = Ok o2 /\
      out_text o2 ch = out_text o1 ch ++ (if include_in_output s then ss_text s else []) /\
      (forall ch', ch' <> ch -> out_text o2 ch' = out_text o1 ch')) as (o2 & -> & T2 & T2').
    { destruct (include_in_output s); [|exists o1; by rewrite app_nil_r].
      destruct (append_delta_run o1 ch (ss_text s) A1) as (o2 & ? & _ & ? & ?). by exists o2. }
    cbn [rbind]. set (m := mkStopMatch true committed (start + Z.of_nat at_) decl o2).
    assert (Hm : match_of ch combined start emitted committed (decl + Z.of_nat 0) s at_ m).
    { split_and!; try done; cbn; [lia|by rewrite T2, T1, <- app_assoc|]. intros ch' Hne. by rewrite T2', T1'. }
    destruct (IH (decl + 1) m) as (b' & E & H1 & H2 & H3); [done|]. exists b'. split; [done|].
    destruct (H2 eq_refl) as [F1 F2]. split; [|split].
    + right. destruct H1 as [->|(k & stop & a & Hk & Hm')]; [by exists 0%nat, s, at_|]. exists (S k), stop, a. split; [done|].
      by replace (decl + Z.of_nat (S k)) with (decl + 1 + Z.of_nat k) by lia.
    + intros Hfound. split; [done|]. unfold stop_match_precedes in Hp. rewrite Hfound in Hp. cbn in Hp.
      rewrite (Hb Hfound), Z.eqb_refl in Hp. cbn in Hp, F2.
      destruct (Z.eqb_spec (start + Z.of_nat at_) (byte_cut best)); cbn in Hp; lia.
    + intros stop a [->|Hin]%elem_of_cons Hch Hfa; [|by eapply H3]. rewrite Hf in Hfa. injection Hfa as <-. done.
Qed.

(** ** Feeding a channel *)

Definition no_stop (policy : StopPolicy) (ch : OutputChannel) (text : list Z) : Prop :=
  forall m i, stops_on policy ch m -> ~ occurs m text i.

(** [b] is the first stop string of the channel text [text]: it begins at [i], which is byte
    [base + i] of the decoded text, and it cuts what is published there. *)
Definition first_stop (policy : StopPolicy) (ch : OutputChannel) (text published : list Z)
    (base committed : Z) (b : StopMatch) : Prop :=
  exists stop i, stop ∈ strings policy /\ ss_channel stop = ch /\ occurs (ss_text stop) text i /\
    (forall m j, stops_on policy ch m -> occurs m text j -> (i <= j)%nat) /\
    found b = true /\ committed_tokens b = committed /\ byte_cut b = base + Z.of_nat i /\
    published ++ out_text (sm_output b) ch = take i text ++ (if include_in_output stop then ss_text stop else []).

(** [fed] is the text of the channel so far: published, emitted or held back. *)
Definition chan_inv (policy : StopPolicy) (ch : OutputChannel) (published fed : list Z)
    (st : DecoderState) (out : list OutputDelta) : Prop :=
  fed = (published ++ out_text out ch) ++ stop_pending st ch /\
  held (stops_on policy ch) (published ++ out_text out ch) (stop_pending st ch).

Definition fed_state (ch : OutputChannel) (x p : list Z) (st : DecoderState) : DecoderState :=
  set_decoded_bytes (decoded_bytes st + Z.of_nat (length x)) (set_stop_pending ch p st).

Lemma stop_pending_set ch ch' p st :
  stop_pending (set_stop_pending ch p st) ch' = if bool_decide (ch' = ch) then p else stop_pending st ch'.
Proof. by destruct ch, ch'. Qed.
Lemma set_stop_pending_id ch st : set_decoded_bytes (decoded_bytes st + 0) (set_stop_pending ch (stop_pending st ch) st) = st.
Proof. destruct ch, st; cbn; unfold set_decoded_bytes; cbn; f_equal; lia. Qed.

Lemma chan_no_stop policy ch published fed st out : chan_inv policy ch published fed st out -> no_stop policy ch fed.
Proof. intros [-> [Hn _]]. exact Hn. Qed.

Lemma no_stop_find policy ch published fed st out x stop :
  policy_ok policy -> chan_inv policy ch published fed st out -> no_stop policy ch (fed ++ x) ->
  stop ∈ strings policy -> ss_channel stop = ch -> find_sub (ss_text stop) (stop_pending st ch ++ x) = None.
Proof.
  intros Hpol [-> Hh] Hno Hin Hc. apply find_sub_None; [by apply Hpol|]. intros j Hj.
  assert (Hm : stops_on policy ch (ss_text stop)) by by exists stop.
  apply (Hno _ (length (published ++ out_text out ch) + j)%nat Hm). eapply held_occurs; [done..|].
  split; [lia|]. by replace (length (published ++ out_text out ch) + j - length (published ++ out_text out ch))%nat with j by lia.
Qed.

(** Feeding text: what is emitted and held back is the text; the best match changes exactly when a
    stop string occurs in the text of the channel. *)
Lemma feed_channel_run policy committed ch x st out best published fed :
  policy_ok policy -> may_append ch out -> chan_inv policy ch published fed st out ->
  (forall b, best = Some b -> found b = true -> committed_tokens b = committed /\
     byte_cut b < decoded_bytes st - Z.of_nat (length (stop_pending st ch))) ->
  exists out' p best', feed_channel policy committed ch x (st, out, best) = Ok (fed_state ch x p st, out', best') /\
    may_append ch out' /\ (forall ch', ch' <> ch -> out_text out' ch' = out_text out ch') /\
    (published ++ out_text out' ch) ++ p = fed ++ x /\
    (no_stop policy ch (fed ++ x) ->
       chan_inv policy ch published (fed ++ x) (fed_state ch x p st) out' /\ best' = best) /\
    (forall b, best = Some b -> found b = false -> ~ no_stop policy ch (fed ++ x) -> exists b', best' = Some b' /\
       first_stop policy ch (fed ++ x) published (decoded_bytes st - Z.of_nat (length fed)) committed b' /\
       (forall ch', ch' <> ch -> out_text (sm_output b') ch' = out_text out ch')) /\
    (forall b, best = Some b -> found b = true -> best' = best).
Proof.
  intros Hpol Ha Hinv Hbest. pose proof Hinv as [Hfed Hh]. unfold feed_channel. case_bool_decide as Hx.
  { subst x. exists out, (stop_pending st ch), best. rewrite app_nil_r. unfold fed_state. cbn [length]. rewrite set_stop_pending_id.
    split_and!; try done. intros b -> Hf Hno. destruct Hno. by eapply chan_no_stop. }
  set (p := stop_pending st ch) in *. set (e := published ++ out_text out ch) in *. set (combined := p ++ x).
  set (start := decoded_bytes st - Z.of_nat (length p)).
  set (h := stop_hold_size combined ch policy). destruct (stop_hold_size_spec combined ch policy) as [Hh1 Hh2]. fold h in Hh1, Hh2.
  (* the matches *)
  assert (exists best', (match best with None => Ok None | Some b =>
      let* b := match_stops ch combined start out committed 0 (strings policy) b in Ok (Some b) end) = Ok best' /\
    (no_stop policy ch (fed ++ x) -> best' = best) /\
    (forall b, best = Some b -> found b = false -> ~ no_stop policy ch (fed ++ x) -> exists b', best' = Some b' /\
       first_stop policy ch (fed ++ x) published (decoded_bytes st - Z.of_nat (length fed)) committed b' /\
       (forall ch', ch' <> ch -> out_text (sm_output b') ch' = out_text out ch')) /\
    (forall b, best = Some b -> found b = true -> best' = best)) as (best' & -> & Hb1 & Hb2 & Hb3).
  { destruct best as [b|]; [|by exists None].
    destruct (match_stops_run ch combined start out committed 0 (strings policy) b Ha) as (b' & -> & H1 & H2 & H3).
    { intros Hf. by apply (Hbest b). }
    exists (Some b'). split; [done|]. split; [|split].
    - intros Hno. f_equal. destruct H1 as [->|(k & stop & at_ & Hk & Hc & Hf & _)]; [done|exfalso].
      apply list_elem_of_lookup_2 in Hk. pose proof (no_stop_find _ _ _ _ _ _ x stop Hpol Hinv Hno Hk Hc) as Hn.
      fold p in Hn. change (p ++ x) with combined in Hn. congruence.
    - intros b0 [= <-] Hf Hno. exists b'. split; [done|].
      destruct H1 as [->|(k & stop & at_ & Hk & Hc & Hfs & Hfd & Hct & Hcut & Hord & Ht & Ht')].
      { exfalso. apply Hno. intros m j (stop & Hin & Hc & <-) Ho. rewrite Hfed in Ho.
        apply (held_occurs (stops_on policy ch)) in Ho as [_ Ho]; [|done|by exists stop].
        destruct (find_sub (ss_text stop) combined) as [a|] eqn:Hfs.
        - destruct (H3 stop a Hin Hc Hfs) as [? _]. congruence.
        - pose proof (proj1 (find_sub_None _ _ (Hpol stop Hin)) Hfs) as Hfn. by apply (Hfn (j - length e)%nat). }
      split; [|done]. apply list_elem_of_lookup_2 in Hk. apply find_sub_Some in Hfs as Hocc. destruct Hocc as (Hocc & Hle & _).
      exists stop, (length e + at_)%nat. split_and!; try done.
      + rewrite Hfed, <- app_assoc. by apply occurs_app_r.
      + intros m j (stop2 & Hin2 & Hc2 & <-) Ho. rewrite Hfed in Ho.
        apply (held_occurs (stops_on policy ch)) in Ho as [Hj Ho]; [|done|by exists stop2].
        destruct (find_sub (ss_text stop2) combined) as [a|] eqn:Hf2.
        * destruct (H3 stop2 a Hin2 Hc2 Hf2) as [_ Hle2]. apply find_sub_Some in Hf2 as (_ & _ & Hmin).
          assert (~ (j - length e < a)%nat) by (intros Hlt; by apply (Hmin (j - length e)%nat)).
          rewrite Hcut in Hle2. lia.
        * pose proof (proj1 (find_sub_None _ _ (Hpol stop2 Hin2)) Hf2) as Hfn. by destruct (Hfn (j - length e)%nat).
      + rewrite Hcut. unfold start. rewrite Hfed, length_app. lia.
      + rewrite Ht. rewrite app_assoc. fold e. rewrite app_assoc. f_equal.
        rewrite Hfed, <- app_assoc. change (p ++ x) with combined. by rewrite take_app_add.
    - intros b0 [= <-] Hf. f_equal. destruct (Hbest b eq_refl Hf) as [_ Hlt].
      destruct H1 as [->|(k & stop & at_ & _ & _ & _ & _ & _ & Hcut & _)]; [done|]. destruct (H2 Hf). fold p start in Hlt. lia. }
  cbn [rbind]. destruct (append_delta_run out ch (take (length combined - h) combined) Ha) as (out' & -> & A1 & T1 & T1').
  cbn [rbind]. exists out', (drop (length combined - h) combined), best'. split; [done|]. split; [done|]. split; [done|].
  assert (Htext : (published ++ out_text out' ch) ++ drop (length combined - h) combined = fed ++ x).
  { rewrite T1, app_assoc. fold e. rewrite <- app_assoc, take_drop. unfold combined. by rewrite Hfed, app_assoc. }
  split; [done|]. split; [|done]. intros Hno. split; [|by apply Hb1]. split.
  - rewrite <- Htext. unfold fed_state. by destruct ch.
  - assert (Hsp : stop_pending (fed_state ch x (drop (length combined - h) combined) st) ch = drop (length combined - h) combined)
      by by destruct ch.
    rewrite Hsp, T1, app_assoc. fold e. apply held_step; [done|done| |done].
    intros m i Hm Ho. apply (Hno m (length e + i)%nat Hm). rewrite Hfed, <- app_assoc. by apply occurs_app_r.
Qed.

(** ** The text of a channel *)

(** The text of all the bytes: the reasoning up to the end marker, then the content without its
    leading white space. *)
Definition split_text (starts_in_reasoning : bool) (full : list Z) : list Z * list Z :=
  if starts_in_reasoning then
    match find_sub kThinkClose full with
    | Some m => (take m full, strip_leading (drop (m + length kThinkClose) full))
    | None => (full, [])
    end
  else ([], full).
Definition channel_text (starts_in_reasoning : bool) (full : list Z) (ch : OutputChannel) : list Z :=
  match ch with
  | Reasoning => (split_text starts_in_reasoning full).1
  | Content => (split_text starts_in_reasoning full).2
  end.

Lemma strip_leading_app a b :
  strip_leading (a ++ b) = if bool_decide (strip_leading a = []) then strip_leading b else strip_leading a ++ b.
Proof. induction a as [|c a IH]; cbn; [done|]. destruct (isspace c); [apply IH|done]. Qed.

Lemma think_held_find e p x :
  held (eq kThinkClose) e p -> find_sub kThinkClose ((e ++ p) ++ x) =
    match find_sub kThinkClose (p ++ x) with Some i => Some (length e + i)%nat | None => None end.
Proof.
  intros Hh. destruct (find_sub kThinkClose (p ++ x)) as [i|] eqn:Hf.
  - apply find_sub_Some in Hf as (Ho & Hle & Hmin). apply find_sub_Some. split_and!.
    + rewrite <- app_assoc. by apply occurs_app_r.
    + rewrite <- app_assoc, length_app. lia.
    + intros j Hj Hoj. apply (held_occurs (eq kThinkClose)) in Hoj as [Hle' Hoj]; [|done|done].
      apply (Hmin (j - length e)%nat); [lia|done].
  - apply find_sub_None; [done|]. intros j Hoj. apply (held_occurs (eq kThinkClose)) in Hoj as [Hle' Hoj]; [|done|done].
    assert (Hne : kThinkClose <> []) by done.
    by apply (proj1 (find_sub_None _ (p ++ x) Hne) Hf (j - length e)%nat).
Qed.

Lemma think_find_stable full x m : find_sub kThinkClose full = Some m -> find_sub kThinkClose (full ++ x) = Some m.
Proof.
  intros (Ho & Hle & Hmin)%find_sub_Some. apply find_sub_Some. split_and!; [by apply occurs_app_l|rewrite length_app; lia|].
  intros j Hj Hoj. apply (Hmin j Hj). apply occurs_app_inv in Hoj; [done|]. apply occurs_length in Ho.
  cbn in *. lia.
Qed.

(** The text of a channel that was looked at: the longest beginning of the end marker is held back
    from the reasoning. *)
Definition seen_text (start : bool) (full : list Z) (ch : OutputChannel) : list Z :=
  match ch, start, find_sub kThinkClose full with
  | Reasoning, true, None => take (length full - longest_suffix_prefix full kThinkClose true) full
  | _, _, _ => channel_text start full ch
  end.

Lemma seen_held e p :
  held (eq kThinkClose) e p -> p = take (length p) kThinkClose ->
  find_sub kThinkClose (e ++ p) = None /\ seen_text true (e ++ p) Reasoning = e.
Proof.
  intros Hh Hp. pose proof (think_held_find e p [] Hh) as Hf. rewrite !app_nil_r in Hf.
  assert (Hn : find_sub kThinkClose (e ++ p) = None).
  { apply find_sub_None; [done|]. intros j. by apply (proj1 Hh). }
  split; [done|]. unfold seen_text. rewrite Hn.
  destruct (longest_suffix_prefix_spec (e ++ p) kThinkClose true) as [(L1 & L2 & L3) L4].
  set (n := longest_suffix_prefix _ _ _) in *.
  assert (Hnp : (length p <= n)%nat).
  { apply L4; [by left|]. split; [rewrite length_app; lia|]. split.
    - rewrite Hp, length_take. lia.
    - rewrite length_app. replace (length e + length p - length p)%nat with (length e) by lia.
      by rewrite drop_app_length. }
  assert (Hle : (n <= length p)%nat).
  { destruct (decide (n = length kThinkClose)) as [Heq|Hne].
    - exfalso. apply (proj1 Hh kThinkClose (length (e ++ p) - n)%nat eq_refl). unfold occurs. rewrite L3, Heq. done.
    - apply (proj2 Hh kThinkClose n eq_refl); [lia|]. by split_and!. }
  replace n with (length p) by lia. rewrite length_app. replace (length e + length p - length p)%nat with (length e) by lia.
  by rewrite take_app_length.
Qed.

(** Holding back the longest beginning of the end marker. *)
Lemma think_hold_step e p x :
  held (eq kThinkClose) e p -> find_sub kThinkClose (p ++ x) = None ->
  let n := longest_suffix_prefix (p ++ x) kThinkClose true in
  let q := drop (length (p ++ x) - n) (p ++ x) in
  held (eq kThinkClose) (e ++ take (length (p ++ x) - n) (p ++ x)) q /\ q = take (length q) kThinkClose.
Proof.
  intros Hh Hf. cbn zeta. destruct (longest_suffix_prefix_spec (p ++ x) kThinkClose true) as [(L1 & L2 & L3) L4].
  set (n := longest_suffix_prefix _ _ _) in *. split.
  - apply held_step; [done|done| |].
    + intros m i <-. assert (Hne : kThinkClose <> []) by done. by apply (proj1 (find_sub_None kThinkClose _ Hne) Hf).
    + intros m k <- Hk Hs. apply L4; [by left|done].
  - rewrite length_drop. replace (length (p ++ x) - (length (p ++ x) - n))%nat with n by lia. done.
Qed.

Lemma seen_closed start full ch :
  (start = true -> find_sub kThinkClose full <> None) -> seen_text start full ch = channel_text start full ch.
Proof. intros Hf. unfold seen_text. destruct ch, start; try done. destruct (find_sub _ _); [done|]. by destruct Hf. Qed.

(** Where the decoder stands after the bytes [full], [fedR] and [fedC] of which were fed. *)
Definition position (start : bool) (full fedR fedC : list Z) (st : DecoderState) (out : list OutputDelta) : Prop :=
  decoded_bytes st = Z.of_nat (length fedR) + Z.of_nat (length fedC) /\ shape out /\
  (if in_reasoning st then
     start = true /\ full = fedR ++ think_marker_pending st /\ held (eq kThinkClose) fedR (think_marker_pending st) /\
     think_marker_pending st = take (length (think_marker_pending st)) kThinkClose /\
     fedC = [] /\ strip_content_leading st = false /\ no_content out
   else
     split_text start full = (fedR, fedC) /\ (start = true -> find_sub kThinkClose full <> None) /\
     stop_pending st Reasoning = [] /\ think_marker_pending st = [] /\
     strip_content_leading st = start && bool_decide (fedC = [])).

(** The text of channel [ch], all of it published, emitted or held back. *)
Definition accounted (pub : OutputChannel -> list Z) (ch : OutputChannel) (fed : list Z) (st : DecoderState)
    (out : list OutputDelta) : Prop :=
  (pub ch ++ out_text out ch) ++ stop_pending st ch = fed.

Definition TI (start : bool) (pub : OutputChannel -> list Z) (full : list Z) (st : DecoderState)
    (out : list OutputDelta) : Prop :=
  exists fedR fedC, position start full fedR fedC st out /\ accounted pub Reasoning fedR st out /\
    accounted pub Content fedC st out.

(** Moreover no stop string was fed, and what may begin one is held back. *)
Definition SI (policy : StopPolicy) (start : bool) (pub : OutputChannel -> list Z) (full : list Z)
    (st : DecoderState) (out : list OutputDelta) : Prop :=
  exists fedR fedC, position start full fedR fedC st out /\ accounted pub Reasoning fedR st out /\
    chan_inv policy Content (pub Content) fedC st out /\
    (if in_reasoning st then chan_inv policy Reasoning (pub Reasoning) fedR st out else no_stop policy Reasoning fedR).

Lemma SI_TI policy start pub full st out : SI policy start pub full st out -> TI start pub full st out.
Proof. intros (fr & fc & Hp & Hr & [Hc _] & _). by exists fr, fc. Qed.

Lemma feed_channel_none policy committed ch x st out :
  may_append ch out -> exists out' p, feed_channel policy committed ch x (st, out, None) = Ok (fed_state ch x p st, out', None) /\
    may_append ch out' /\ (forall ch', ch' <> ch -> out_text out' ch' = out_text out ch') /\
    out_text out' ch ++ p = out_text out ch ++ stop_pending st ch ++ x.
Proof.
  intros Ha. unfold feed_channel. case_bool_decide as Hx.
  { subst x. exists out, (stop_pending st ch). rewrite app_nil_r. unfold fed_state. cbn [length].
    by rewrite set_stop_pending_id. }
  cbn [rbind]. set (combined := stop_pending st ch ++ x). set (h := stop_hold_size combined ch policy).
  destruct (append_delta_run out ch (take (length combined - h) combined) Ha) as (out' & -> & A1 & T1 & T1').
  cbn [rbind]. eexists _, _. split; [reflexivity|]. split_and!; try done.
  by rewrite T1, <- app_assoc, take_drop.
Qed.

Lemma split_text_app start full x r c :
  split_text start full = (r, c) -> (start = true -> find_sub kThinkClose full <> None) ->
  split_text start (full ++ x) = (r, if start && bool_decide (c = []) then strip_leading x else c ++ x) /\
  (start = true -> find_sub kThinkClose (full ++ x) <> None).
Proof.
  unfold split_text. intros Hs Hf. destruct start; cbn [andb]; [|by injection Hs as <- <-].
  destruct (find_sub kThinkClose full) as [m|] eqn:Hm; [|by specialize (Hf eq_refl)].
  rewrite (think_find_stable _ x _ Hm). injection Hs as <- <-. apply find_sub_Some in Hm as (Ho & Hle & _).
  apply occurs_length in Ho. cbn in Ho.
  assert (Hl : (m + length kThinkClose <= length full)%nat) by (cbn; lia).
  rewrite take_app_le, drop_app_le, strip_leading_app by lia. done.
Qed.

(** What [feed_content] gives to the channel. *)
Definition content_of (strip : bool) (x : list Z) : list Z := if strip then strip_leading x else x.
Definition strip_done (x : list Z) (st : DecoderState) : DecoderState :=
  if strip_content_leading st && negb (bool_decide (strip_leading x = [])) then set_strip false st else st.

Lemma feed_content_eq policy committed x st out best :
  feed_content policy committed x (st, out, best) =
  feed_channel policy committed Content (content_of (strip_content_leading st) x) (strip_done x st, out, best).
Proof.
  unfold feed_content, content_of, strip_done. destruct (strip_content_leading st); [|done].
  by case_bool_decide.
Qed.

Lemma position_content start full fedR fedC st out x p out' :
  position start full fedR fedC st out -> in_reasoning st = false -> shape out' ->
  let fedC' := if start && bool_decide (fedC = []) then strip_leading x else fedC ++ x in
  fedC' = fedC ++ content_of (strip_content_leading st) x /\
  position start (full ++ x) fedR fedC' (fed_state Content (content_of (strip_content_leading st) x) p (strip_done x st)) out'.
Proof.
  intros (Hd & _ & Hm) Hr Hs fedC'. rewrite Hr in Hm. destruct Hm as (Hsp & Hf & Hp & Ht & Hst).
  destruct (split_text_app _ _ x _ _ Hsp Hf) as [Hsp' Hf']. fold fedC' in Hsp'.
  assert (Hc : fedC' = fedC ++ content_of (strip_content_leading st) x).
  { unfold fedC'. rewrite Hst. unfold content_of. destruct start; cbn; [|done]. by case_bool_decide; [subst fedC|]. }
  split; [done|]. split_and!; [|done|].
  - rewrite Hc, length_app. unfold strip_done. destruct (strip_content_leading st && _); cbn; lia.
  - assert (E : in_reasoning (fed_state Content (content_of (strip_content_leading st) x) p (strip_done x st)) = false)
      by (unfold strip_done; by destruct (strip_content_leading st && _)).
    rewrite E. clear E. split_and!; try done.
    + unfold strip_done. by destruct (strip_content_leading st && _).
    + unfold strip_done. by destruct (strip_content_leading st && _).
    + rewrite Hc. unfold strip_done, content_of. destruct (strip_content_leading st) eqn:Hst'; cbn [andb].
      * destruct start; [|done]. symmetry in Hst. apply bool_decide_eq_true in Hst. subst fedC. cbn [app andb].
        by case_bool_decide as Hx; cbn.
      * cbn. rewrite Hst'. destruct start; [|done]. cbn in Hst |- *. symmetry in Hst. apply bool_decide_eq_false in Hst.
        symmetry. apply bool_decide_eq_false. by intros [? _]%app_eq_nil.
Qed.

(** The fields the feeding functions leave alone. *)
Definition same_rest (st st' : DecoderState) : Prop :=
  utf8_pending st' = utf8_pending st /\ terminal st' = terminal st.

Lemma fed_rest ch x p y st : same_rest st (fed_state ch x p (strip_done y st)).
Proof. unfold strip_done. by destruct ch, (strip_content_leading st && _). Qed.
Lemma fed_rest' ch x p st : same_rest st (fed_state ch x p st).
Proof. by destruct ch. Qed.

Lemma content_run policy committed x st out best pub start full fedR fedC :
  policy_ok policy -> position start full fedR fedC st out -> in_reasoning st = false ->
  accounted pub Reasoning fedR st out -> chan_inv policy Content (pub Content) fedC st out ->
  (forall b, best = Some b -> found b = true -> committed_tokens b = committed /\
     byte_cut b < decoded_bytes st - Z.of_nat (length (stop_pending st Content))) ->
  let fedC' := channel_text start (full ++ x) Content in
  exists st' out' best', feed_content policy committed x (st, out, best) = Ok (st', out', best') /\
    same_rest st st' /\ in_reasoning st' = false /\ channel_text start (full ++ x) Reasoning = fedR /\
    position start (full ++ x) fedR fedC' st' out' /\ accounted pub Reasoning fedR st' out' /\
    accounted pub Content fedC' st' out' /\
    (no_stop policy Content fedC' -> chan_inv policy Content (pub Content) fedC' st' out' /\ best' = best) /\
    (forall b, best = Some b -> found b = false -> ~ no_stop policy Content fedC' -> exists b', best' = Some b' /\
       (exists base, first_stop policy Content fedC' (pub Content) base committed b') /\
       out_text (sm_output b') Reasoning = out_text out Reasoning) /\
    (forall b, best = Some b -> found b = true -> best' = best).
Proof.
  intros Hpol Hpos Hr HaR Hinv Hbest fedC'. rewrite feed_content_eq.
  pose proof Hpos as (Hd & Hsh & Hm). rewrite Hr in Hm. destruct Hm as (Hsp & Hf & _).
  destruct (split_text_app _ _ x _ _ Hsp Hf) as [Hsp' _].
  assert (HfC : fedC' = fedC ++ content_of (strip_content_leading st) x).
  { destruct (position_content start full fedR fedC st out x [] out Hpos Hr Hsh) as [E _].
    unfold fedC', channel_text. by rewrite Hsp', <- E. }
  assert (Hinv1 : chan_inv policy Content (pub Content) fedC (strip_done x st) out).
  { unfold strip_done. by destruct (strip_content_leading st && _). }
  assert (Hma : may_append Content out) by by split.
  destruct (feed_channel_run policy committed Content (content_of (strip_content_leading st) x) (strip_done x st) out best
    (pub Content) fedC Hpol Hma Hinv1) as (out' & p & best' & E & [Hsh' _] & Ho & Ht & H1 & H2 & H3).
  { intros b Hb Hfd. unfold strip_done. destruct (strip_content_leading st && _); by apply Hbest. }
  rewrite E. rewrite <- HfC in Ht, H1, H2. destruct (position_content start full fedR fedC st out x p out' Hpos Hr Hsh') as [E' Hpos'].
  rewrite <- E' in HfC. rewrite <- HfC in Hpos'.
  eexists _, _, _. split; [reflexivity|]. split; [apply fed_rest|]. split.
  { unfold strip_done. by destruct (strip_content_leading st && _). }
  split; [unfold channel_text; by rewrite Hsp'|]. split; [done|]. split.
  { unfold accounted in *. rewrite Ho by done. unfold strip_done. by destruct (strip_content_leading st && _). }
  split.
  { unfold accounted. rewrite <- Ht. unfold strip_done. by destruct (strip_content_leading st && _). }
  split; [done|]. split; [|done]. intros b Hb Hfd Hno. destruct (H2 b Hb Hfd Hno) as (b' & -> & Hfs & Hoth).
  exists b'. split; [done|]. split; [by eexists|]. by apply Hoth.
Qed.

Lemma content_none policy committed x st out pub start full fedR fedC :
  position start full fedR fedC st out -> in_reasoning st = false ->
  accounted pub Reasoning fedR st out -> accounted pub Content fedC st out ->
  exists st' out', feed_content policy committed x (st, out, None) = Ok (st', out', None) /\
    same_rest st st' /\ in_reasoning st' = false /\ TI start pub (full ++ x) st' out'.
Proof.
  intros Hpos Hr HaR HaC. rewrite feed_content_eq. pose proof Hpos as (_ & Hsh & _).
  destruct (feed_channel_none policy committed Content (content_of (strip_content_leading st) x) (strip_done x st) out)
    as (out' & p & E & [Hsh' _] & Ho & Ht); [done|]. rewrite E.
  destruct (position_content start full fedR fedC st out x p out' Hpos Hr Hsh') as [E' Hpos'].
  eexists _, _. split; [reflexivity|]. split; [apply fed_rest|]. split.
  { unfold strip_done. by destruct (strip_content_leading st && _). }
  eexists _, _. split; [exact Hpos'|]. split.
  - unfold accounted in *. rewrite Ho by done. unfold strip_done. by destruct (strip_content_leading st && _).
  - rewrite E'. unfold accounted in *. rewrite <- HaC. unfold strip_done in *.
    destruct (strip_content_leading st && _); cbn in *; by rewrite <- app_assoc, Ht, !app_assoc.
Qed.

(** ** Feeding text *)

Lemma no_stop_dec policy ch text : policy_ok policy -> no_stop policy ch text \/ ~ no_stop policy ch text.
Proof.
  intros Hpol. destruct (decide (Forall (fun stop => ss_channel stop = ch -> find_sub (ss_text stop) text = None) (strings policy)))
    as [HF|HF]; [left|right].
  - intros m i (stop & Hin & Hc & <-). rewrite Forall_forall in HF. specialize (HF stop Hin Hc).
    by apply (proj1 (find_sub_None _ _ (Hpol stop Hin)) HF).
  - intros Hno. apply HF. apply Forall_forall. intros stop Hin Hc. apply find_sub_None; [by apply Hpol|].
    intros j. apply Hno. by exists stop.
Qed.

(** [b] is the first stop string of the text of all the bytes. *)
Definition matched (policy : StopPolicy) (start : bool) (pub : OutputChannel -> list Z) (full : list Z)
    (committed : Z) (b : StopMatch) : Prop :=
  exists ch base, first_stop policy ch (seen_text start full ch) (pub ch) base committed b /\
    match ch with
    | Content => no_stop policy Reasoning (seen_text start full Reasoning) /\
                 pub Reasoning ++ out_text (sm_output b) Reasoning = seen_text start full Reasoning
    | Reasoning => pub Content ++ out_text (sm_output b) Content = []
    end.

Lemma content_some policy committed x st out b pub start full fedR fedC :
  policy_ok policy -> position start full fedR fedC st out -> in_reasoning st = false -> found b = false ->
  accounted pub Reasoning fedR st out -> chan_inv policy Content (pub Content) fedC st out ->
  no_stop policy Reasoning fedR ->
  exists st' out' best', feed_content policy committed x (st, out, Some b) = Ok (st', out', best') /\ same_rest st st' /\
    (best' = Some b /\ SI policy start pub (full ++ x) st' out' \/
     exists b', best' = Some b' /\ matched policy start pub (full ++ x) committed b').
Proof.
  intros Hpol Hpos Hr Hfd HaR Hinv HnR.
  assert (HspR : stop_pending st Reasoning = []).
  { destruct Hpos as (_ & _ & Hm). rewrite Hr in Hm. apply Hm. }
  destruct (content_run policy committed x st out (Some b) pub start full fedR fedC Hpol Hpos Hr HaR Hinv)
    as (st' & out' & best' & E & Hrest & Hr' & HR & Hpos' & HaR' & HaC' & H1 & H2 & _).
  { intros b0 [= <-] Hf. congruence. }
  exists st', out', best'. split; [done|]. split; [done|].
  destruct (no_stop_dec policy Content (channel_text start (full ++ x) Content) Hpol) as [Hno|Hno].
  - left. destruct (H1 Hno) as [Hinv' ->]. split; [done|]. exists fedR, (channel_text start (full ++ x) Content).
    rewrite Hr'. by split_and!.
  - right. destruct (H2 b eq_refl Hfd Hno) as (b' & -> & (base & Hfs) & Hoth). exists b'. split; [done|].
    pose proof Hpos' as (_ & _ & Hm'). rewrite Hr' in Hm'. destruct Hm' as (_ & Hf' & _).
    exists Content, base. rewrite !(seen_closed start) by done. rewrite HR. split_and!; try done.
    + rewrite Hoth. unfold accounted in HaR. by rewrite HspR, app_nil_r in HaR.
Qed.

Lemma accounted_nil pub ch st out : accounted pub ch [] st out -> pub ch = [] /\ out_text out ch = [] /\ stop_pending st ch = [].
Proof. unfold accounted. intros [[? ?]%app_eq_nil ?]%app_eq_nil. done. Qed.

(** The reasoning ends: what was held back of it is closed. *)
Lemma close_reasoning policy committed y st out best out1 p best1 pub fedR :
  may_append Reasoning out1 -> (pub Reasoning ++ out_text out1 Reasoning) ++ p = fedR ++ y ->
  feed_channel policy committed Reasoning y (st, out, best) = Ok (fed_state Reasoning y p st, out1, best1) ->
  exists out2, (let* f := feed_channel policy committed Reasoning y (st, out, best) in close_channel Reasoning f) =
      Ok (set_stop_pending Reasoning [] (fed_state Reasoning y p st), out2, best1) /\
    may_append Reasoning out2 /\ pub Reasoning ++ out_text out2 Reasoning = fedR ++ y /\
    out_text out2 Content = out_text out1 Content.
Proof.
  intros Ha Ht ->. cbn [rbind close_channel].
  destruct (append_delta_run out1 Reasoning (stop_pending (fed_state Reasoning y p st) Reasoning) Ha) as (o2 & E & A2 & T2 & T2').
  rewrite E. cbn [rbind]. exists o2. split; [done|]. split; [done|]. split; [|by apply T2'].
  rewrite T2, <- Ht, app_assoc. done.
Qed.

Lemma marker_split pending marker :
  find_sub kThinkClose pending = Some marker ->
  take (marker + length kThinkClose) pending ++ drop (marker + length kThinkClose) pending = pending /\
  find_sub kThinkClose (take (marker + length kThinkClose) pending) = Some marker.
Proof.
  intros (Ho & Hle & Hmin)%find_sub_Some. split; [apply take_drop|]. apply find_sub_Some.
  pose proof (occurs_length _ _ _ Ho) as Hl. cbn in Hl. assert (Hlt : (marker + 8 <= length pending)%nat) by lia.
  assert (Hocc : forall j, (j <= marker)%nat -> occurs kThinkClose (take (marker + length kThinkClose) pending) j <->
    occurs kThinkClose pending j).
  { intros j Hj. rewrite <- (take_drop (marker + length kThinkClose) pending) at 2. split.
    - apply occurs_app_l.
    - apply occurs_app_inv. rewrite length_take. cbn. lia. }
  split_and!; [by apply Hocc|rewrite length_take; lia|]. intros j Hj Hoj. apply (Hmin j Hj). apply Hocc; [lia|done].
Qed.

(** The decoder's position when the end of the reasoning was just found. *)
Lemma position_marker fedR tp x marker st y p out2 :
  held (eq kThinkClose) fedR tp -> find_sub kThinkClose (tp ++ x) = Some marker -> decoded_bytes st = Z.of_nat (length fedR) ->
  shape out2 -> y = take marker (tp ++ x) ->
  position true (fedR ++ take (marker + length kThinkClose) (tp ++ x)) (fedR ++ y) []
    (set_strip true (set_in_reasoning false (set_think_pending [] (set_stop_pending Reasoning []
       (fed_state Reasoning y p (set_think_pending (tp ++ x) st)))))) out2.
Proof.
  intros Hh Hf Hd Hs ->. destruct (marker_split _ _ Hf) as [_ Hm].
  assert (Hfind : find_sub kThinkClose (fedR ++ take (marker + length kThinkClose) (tp ++ x)) = Some (length fedR + marker)%nat).
  { apply find_sub_Some in Hm as (Ho & Hle & Hmin). apply find_sub_Some. split_and!.
    - by apply occurs_app_r.
    - rewrite length_app. lia.
    - intros j Hj Hoj. apply (occurs_app_l _ _ (drop (marker + length kThinkClose) (tp ++ x))) in Hoj.
      rewrite <- app_assoc, take_drop, app_assoc in Hoj. apply (held_occurs (eq kThinkClose)) in Hoj as [Hle' Hoj]; [|done|done].
      apply find_sub_Some in Hf as (_ & _ & Hmin'). apply (Hmin' (j - length fedR)%nat); [lia|done]. }
  apply find_sub_Some in Hf as (Hof & _ & _). apply occurs_length in Hof. cbn in Hof.
  split; [cbn [decoded_bytes set_strip set_in_reasoning set_think_pending set_stop_pending fed_state set_decoded_bytes];
    rewrite Hd, length_app; cbn; lia|]. split; [done|].
  set (full := fedR ++ take (marker + length kThinkClose) (tp ++ x)) in *.
  change (split_text true full = (fedR ++ take marker (tp ++ x), []) /\ (true = true -> find_sub kThinkClose full <> None) /\
    @nil Z = [] /\ @nil Z = [] /\ true = true && bool_decide (@nil Z = [])).
  split_and!; try done.
  - unfold split_text. rewrite Hfind. unfold full. f_equal.
    + rewrite take_app_add. rewrite take_take, Nat.min_l by lia. done.
    + rewrite drop_ge; [done|]. rewrite length_app, length_take. lia.
  - by rewrite Hfind.
Qed.

Lemma feed_text_some policy committed x st out b pub start full :
  policy_ok policy -> SI policy start pub full st out -> found b = false ->
  exists st' out' best', feed_decoded_text policy committed x (st, out, Some b) = Ok (st', out', best') /\ same_rest st st' /\
    (best' = Some b /\ SI policy start pub (full ++ x) st' out' \/
     exists b', best' = Some b' /\ matched policy start pub (full ++ x) committed b').
Proof.
  intros Hpol (fedR & fedC & Hpos & HaR & HiC & HR) Hfd. unfold feed_decoded_text. destruct (in_reasoning st) eqn:Hr; cbn [negb].
  2:{ by apply (content_some policy committed x st out b pub start full fedR fedC). }
  pose proof Hpos as (Hd & Hsh & Hm). rewrite Hr in Hm. destruct Hm as (-> & Hfull & Hth & Htp & -> & Hst & Hnc).
  set (tp := think_marker_pending st) in *. set (pending := tp ++ x).
  assert (HaC : accounted pub Content [] st out) by (destruct HiC as [HiC _]; by rewrite HiC).
  destruct (accounted_nil _ _ _ _ HaC) as (HpC & HoC & HsC). cbn in Hd. rewrite Z.add_0_r in Hd.
  assert (Hma : may_append Reasoning out) by by split.
  assert (Hi1 : chan_inv policy Reasoning (pub Reasoning) fedR (set_think_pending pending st) out) by done.
  assert (HbR : forall b0, Some b = Some b0 -> found b0 = true -> committed_tokens b0 = committed /\
    byte_cut b0 < decoded_bytes (set_think_pending pending st) - Z.of_nat (length (stop_pending (set_think_pending pending st) Reasoning)))
    by (intros b0 [= <-] ?; congruence).
  destruct (find_sub kThinkClose pending) as [marker|] eqn:Hf.
  - set (y := take marker pending).
    destruct (feed_channel_run policy committed Reasoning y (set_think_pending pending st) out (Some b) (pub Reasoning) fedR
      Hpol Hma Hi1 HbR) as (out1 & p & best1 & E1 & Hma1 & Ho1 & Ht1 & H1 & H2 & H3).
    destruct (close_reasoning policy committed y _ out (Some b) out1 p best1 pub fedR Hma1 Ht1 E1) as (out2 & E2 & Hma2 & Ht2 & Ho2).
    rewrite E1 in E2 |- *. cbn [rbind] in E2 |- *. rewrite E2. cbn [rbind].
    set (st2 := set_strip true _). set (z := drop (marker + length kThinkClose) pending).
    assert (Hz : full ++ x = (fedR ++ take (marker + length kThinkClose) pending) ++ z).
    { rewrite Hfull, <- !app_assoc. f_equal. fold pending. unfold z. by rewrite take_drop. }
    assert (Hpos2 : position true (fedR ++ take (marker + length kThinkClose) pending) (fedR ++ y) [] st2 out2)
      by by apply position_marker; [..|apply Hma2|].
    assert (HaR2 : accounted pub Reasoning (fedR ++ y) st2 out2) by (unfold accounted; cbn; by rewrite app_nil_r).
    assert (HiC2 : chan_inv policy Content (pub Content) [] st2 out2).
    { destruct HiC as [_ HiC]. unfold chan_inv. change (stop_pending st2 Content) with (stop_pending st Content).
      rewrite Ho2, Ho1, HpC, HoC, HsC in * by done. done. }
    assert (Hrest : same_rest st st2) by done. rewrite Hz.
    destruct (no_stop_dec policy Reasoning (fedR ++ y) Hpol) as [Hno|Hno].
    + destruct (H1 Hno) as [_ ->].
      destruct (content_some policy committed z st2 out2 b pub true _ _ [] Hpol Hpos2 eq_refl Hfd HaR2 HiC2 Hno)
        as (st' & out' & best' & E & [R1 R2] & Hpost). exists st', out', best'. by split_and!.
    + destruct (H2 b eq_refl Hfd Hno) as (b' & -> & Hfs & Hoth).
      destruct (content_run policy committed z st2 out2 (Some b') pub true _ _ [] Hpol Hpos2 eq_refl HaR2 HiC2)
        as (st' & out' & best' & E & [R1 R2] & _ & HR' & _ & _ & _ & _ & _ & H4).
      { intros b0 [= <-] _. destruct Hfs as (stop & i & Hin & _ & Hocc & _ & _ & Hct & Hcut & _). split; [done|].
        rewrite Hcut. change (stop_pending st2 Content) with (stop_pending st Content). rewrite HsC.
        apply occurs_length in Hocc. specialize (Hpol stop Hin). destruct (ss_text stop); [done|].
        change (decoded_bytes st2) with (decoded_bytes st + Z.of_nat (length y)).
        change (decoded_bytes (set_think_pending pending st)) with (decoded_bytes st). rewrite Hd.
        rewrite length_app in Hocc. cbn in Hocc |- *. lia. }
      exists st', out', best'. split; [done|]. split; [done|]. right. exists b'. split.
      { apply (H4 b' eq_refl). by destruct Hfs as (? & ? & ? & ? & ? & ? & ? & ?). }
      exists Reasoning, (decoded_bytes (set_think_pending pending st) - Z.of_nat (length fedR)).
      rewrite (seen_closed true); [rewrite HR'; split; [done|by rewrite Hoth, HpC, HoC]|]. intros _.
      destruct Hpos2 as (_ & _ & _ & Hf2 & _). specialize (Hf2 eq_refl).
      destruct (find_sub _ (fedR ++ _)) as [m|] eqn:Hm; [|done]. by rewrite (think_find_stable _ z _ Hm).
  - destruct (longest_suffix_prefix_spec pending kThinkClose true) as [Hlsp Hmax].
    set (hold := longest_suffix_prefix pending kThinkClose true) in *. set (y := take (length pending - hold) pending).
    destruct (feed_channel_run policy committed Reasoning y (set_think_pending pending st) out (Some b) (pub Reasoning) fedR
      Hpol Hma Hi1 HbR) as (out1 & p & best1 & E1 & [Hsh1 Hnc1] & Ho1 & Ht1 & H1 & H2 & H3).
    rewrite E1. cbn [rbind]. eexists _, _, _. split; [reflexivity|]. split; [done|].
    destruct (think_hold_step fedR tp x Hth Hf) as [Hheld Htp']. fold pending hold y in Hheld, Htp'.
    assert (Htext : full ++ x = (fedR ++ y) ++ drop (length pending - hold) pending).
    { rewrite Hfull, <- !app_assoc. f_equal. unfold y. by rewrite take_drop. }
    destruct (no_stop_dec policy Reasoning (fedR ++ y) Hpol) as [Hno|Hno].
    + left. destruct (H1 Hno) as [Hi1' ->]. split; [done|]. exists (fedR ++ y), [].
      set (st' := set_think_pending _ _). assert (Hr' : in_reasoning st' = true) by done.
      split; [|split; [|split]].
      * split_and!; [cbn; rewrite length_app; lia|done|]. rewrite Hr'. split_and!; try done.
        by apply Hnc1.
      * destruct Hi1' as [Hi1' _]. unfold accounted. by rewrite Hi1'.
      * destruct HiC as [_ HiC]. unfold chan_inv. change (stop_pending st' Content) with (stop_pending st Content).
        rewrite Ho1, HpC, HoC, HsC in * by done. done.
      * by rewrite Hr'.
    + right. destruct (H2 b eq_refl Hfd Hno) as (b' & -> & Hfs & Hoth). exists b'. split; [done|].
      exists Reasoning, (decoded_bytes (set_think_pending pending st) - Z.of_nat (length fedR)).
      rewrite Htext. destruct (seen_held _ _ Hheld Htp') as [_ ->]. split; [done|by rewrite Hoth, HpC, HoC].
Qed.

(** The same without matching: nothing is lost. *)
Lemma feed_text_none policy committed x st out pub start full :
  TI start pub full st out ->
  exists st' out', feed_decoded_text policy committed x (st, out, None) = Ok (st', out', None) /\ same_rest st st' /\
    TI start pub (full ++ x) st' out'.
Proof.
  intros (fedR & fedC & Hpos & HaR & HaC). unfold feed_decoded_text. destruct (in_reasoning st) eqn:Hr; cbn [negb].
  2:{ destruct (content_none policy committed x st out pub start full fedR fedC) as (st' & out' & ? & ? & _ & ?); try done.
      by exists st', out'. }
  pose proof Hpos as (Hd & Hsh & Hm). rewrite Hr in Hm. destruct Hm as (-> & Hfull & Hth & Htp & -> & Hst & Hnc).
  set (tp := think_marker_pending st) in *. set (pending := tp ++ x).
  destruct (accounted_nil _ _ _ _ HaC) as (HpC & HoC & HsC). cbn in Hd. rewrite Z.add_0_r in Hd.
  assert (Hma : may_append Reasoning out) by by split.
  destruct (find_sub kThinkClose pending) as [marker|] eqn:Hf.
  - set (y := take marker pending).
    destruct (feed_channel_none policy committed Reasoning y (set_think_pending pending st) out Hma)
      as (out1 & p & E1 & Hma1 & Ho1 & Ht1).
    assert (Ht1' : (pub Reasoning ++ out_text out1 Reasoning) ++ p = fedR ++ y).
    { rewrite <- app_assoc, Ht1, <- HaR. rewrite <- !app_assoc. done. }
    destruct (close_reasoning policy committed y _ out None out1 p None pub fedR Hma1 Ht1' E1) as (out2 & E2 & Hma2 & Ht2 & Ho2).
    rewrite E1 in E2 |- *. cbn [rbind] in E2 |- *. rewrite E2. cbn [rbind].
    set (st2 := set_strip true _). set (z := drop (marker + length kThinkClose) pending).
    assert (Hz : full ++ x = (fedR ++ take (marker + length kThinkClose) pending) ++ z).
    { rewrite Hfull, <- !app_assoc. f_equal. fold pending. unfold z. by rewrite take_drop. }
    assert (Hpos2 : position true (fedR ++ take (marker + length kThinkClose) pending) (fedR ++ y) [] st2 out2)
      by by apply position_marker; [..|apply Hma2|].
    assert (HaR2 : accounted pub Reasoning (fedR ++ y) st2 out2) by (unfold accounted; cbn; by rewrite app_nil_r).
    assert (HaC2 : accounted pub Content [] st2 out2).
    { unfold accounted. change (stop_pending st2 Content) with (stop_pending st Content).
      by rewrite Ho2, Ho1, HpC, HoC, HsC. }
    rewrite Hz. destruct (content_none policy committed z st2 out2 pub true _ _ [] Hpos2 eq_refl HaR2 HaC2)
      as (st' & out' & ? & [R1 R2] & _ & ?). by exists st', out'.
  - destruct (longest_suffix_prefix_spec pending kThinkClose true) as [Hlsp Hmax].
    set (hold := longest_suffix_prefix pending kThinkClose true) in *. set (y := take (length pending - hold) pending).
    destruct (feed_channel_none policy committed Reasoning y (set_think_pending pending st) out Hma)
      as (out1 & p & E1 & [Hsh1 Hnc1] & Ho1 & Ht1).
    rewrite E1. cbn [rbind]. eexists _, _. split; [reflexivity|]. split; [done|]. exists (fedR ++ y), [].
    assert (Htext : full ++ x = (fedR ++ y) ++ drop (length pending - hold) pending).
    { rewrite Hfull, <- !app_assoc. f_equal. unfold y. by rewrite take_drop. }
    destruct (think_hold_step fedR tp x Hth Hf) as [Hheld Htp']. fold pending hold y in Hheld, Htp'.
    set (st' := set_think_pending _ _). assert (Hr' : in_reasoning st' = true) by done.
    split; [|split].
    + split_and!; [cbn; rewrite length_app; lia|done|]. rewrite Hr'. split_and!; try done.
      by apply Hnc1.
    + unfold accounted. change (stop_pending st' Reasoning) with p. rewrite <- app_assoc, Ht1, <- HaR.
      by rewrite <- !app_assoc.
    + unfold accounted. change (stop_pending st' Content) with (stop_pending st Content).
      by rewrite Ho1, HpC, HoC, HsC.
Qed.
