(* ===== verification/Utf8Proofs.v ===== *)
(** * The incremental UTF-8 scanner

    [valid_utf8_prefix_size] against the encoding: it accepts exactly the encodings of Unicode scalar
    values followed by an incomplete sequence, and scanning may be cut anywhere. *)
From S2P Require Import Prelude Unicode UnicodeProofs Admission Capacity Contract Output.
#[local] Open Scope Z_scope.
#[local] Ltac Zify.zify_post_hook ::= Z.to_euclidean_division_equations.

(** ** One sequence at a time *)

#[local] Abbreviation scan := valid_utf8_prefix_size.

Definition scalar_error (codepoint minimum : Z) : bool :=
  (codepoint <? minimum) || ((0xd800 <=? codepoint) && (codepoint <=? 0xdfff)) || (codepoint >? 0x10ffff).

Lemma utf8_lead_len lead len cp m : utf8_lead lead = Ok (len, cp, m) -> (1 <= len <= 4)%nat.
Proof.
  unfold utf8_lead. intros H. repeat (case_match; [injection H as <- <- <-; lia|]). discriminate.
Qed.

Lemma prefix_from_fuel fuel bytes offset :
  (length bytes <= fuel)%nat ->
  valid_utf8_prefix_from fuel bytes offset = (let* n := scan bytes in Ok (offset + n)%nat).
Proof.
  unfold valid_utf8_prefix_size. remember (length bytes) as k eqn:Hk.
  assert (Hgen : forall k fuel fuel' bytes offset, (length bytes <= k)%nat -> (length bytes <= fuel)%nat -> (length bytes <= fuel')%nat ->
    valid_utf8_prefix_from fuel bytes offset = (let* n := valid_utf8_prefix_from fuel' bytes 0 in Ok (offset + n)%nat)).
  { clear. induction k as [|k IH]; intros fuel fuel' bytes offset H0 H1 H2.
    - destruct bytes; [|cbn in H0; lia]. destruct fuel, fuel'; cbn; f_equal; lia.
    - destruct bytes as [|lead rest]; [destruct fuel, fuel'; cbn; f_equal; lia|]. cbn in H0, H1, H2.
      destruct fuel as [|f]; [lia|]. destruct fuel' as [|f']; [lia|]. cbn [valid_utf8_prefix_from].
      destruct (utf8_lead lead) as [[[len cp] m]|e] eqn:El; cbn [rbind]; [|done].
      destruct (_ <? _)%nat; cbn [rbind]; [f_equal; lia|].
      destruct (utf8_continue _ _) as [cp'|e]; cbn [rbind]; [|done].
      destruct (throw_if _ _); cbn [rbind]; [|done].
      assert (length (drop (len - 1) rest) <= length rest)%nat by (rewrite length_drop; lia).
      rewrite (IH f f' _ (offset + len)%nat), (IH f' f' _ (0 + len)%nat) by lia.
      destruct (valid_utf8_prefix_from f' _ 0); cbn [rbind]; [|done]. f_equal. lia. }
  intros Hf. apply (Hgen k); lia.
Qed.

Lemma scan_cons lead rest :
  scan (lead :: rest) =
    (let* l := utf8_lead lead in
     let '(len, codepoint, minimum) := l in
     if (length (lead :: rest) <? len)%nat then Ok 0%nat else
     let* codepoint := utf8_continue codepoint (take (len - 1) rest) in
     do* throw_if (scalar_error codepoint minimum) InvalidArgument;
     let* n := scan (drop (len - 1) rest) in Ok (len + n)%nat).
Proof.
  unfold valid_utf8_prefix_size at 1. cbn [length valid_utf8_prefix_from].
  destruct (utf8_lead lead) as [[[len cp] m]|e]; cbn [rbind]; [|done].
  destruct (_ <? _)%nat; [done|]. destruct (utf8_continue _ _) as [cp'|e]; cbn [rbind]; [|done].
  unfold scalar_error. destruct (throw_if _ _); cbn [rbind]; [|done].
  rewrite prefix_from_fuel by (rewrite length_drop; lia). done.
Qed.

Lemma scan_le k bytes n : (length bytes <= k)%nat -> scan bytes = Ok n -> (n <= length bytes)%nat.
Proof.
  revert bytes n. induction k as [|k IH]; intros bytes n Hk.
  - destruct bytes; [|cbn in Hk; lia]. intros [= <-]. done.
  - destruct bytes as [|lead rest]; [by intros [= <-]|]. rewrite scan_cons. cbn in Hk.
    destruct (utf8_lead lead) as [[[len cp] m]|e] eqn:El; cbn [rbind]; [|done]. apply utf8_lead_len in El.
    destruct (Nat.ltb_spec (length (lead :: rest)) len); [intros [= <-]; lia|].
    destruct (utf8_continue _ _) as [cp'|e]; cbn [rbind]; [|done]. destruct (throw_if _ _); cbn [rbind]; [|done].
    destruct (scan _) as [i|e] eqn:Es; cbn [rbind]; [|done]. intros [= <-].
    apply IH in Es; [|rewrite length_drop; lia]. rewrite length_drop in Es. cbn in *. lia.
Qed.
Lemma scan_length bytes n : scan bytes = Ok n -> (n <= length bytes)%nat.
Proof. by apply scan_le with (length bytes). Qed.

Lemma scan_0 bytes x : scan (bytes ++ x) = (let* k := scan (drop 0 bytes ++ x) in Ok (0 + k)%nat).
Proof. rewrite drop_0. generalize (scan (bytes ++ x)). by intros []. Qed.

(** Scanning may be cut anywhere: what was not accepted yet is scanned again with the rest. *)
Lemma scan_app bytes x n :
  scan bytes = Ok n -> scan (bytes ++ x) = (let* k := scan (drop n bytes ++ x) in Ok (n + k)%nat).
Proof.
  remember (length bytes) as k eqn:Hk. assert (Hle : (length bytes <= k)%nat) by lia. clear Hk. revert bytes n Hle.
  induction k as [|k IH]; intros bytes n Hle Hs.
  - destruct bytes; [|cbn in Hle; lia]. injection Hs as <-. apply scan_0.
  - destruct bytes as [|lead rest]; [injection Hs as <-; apply scan_0|]. rewrite scan_cons in Hs.
    destruct (utf8_lead lead) as [[[len cp] m]|e] eqn:El; cbn [rbind] in Hs; [|done]. pose proof (utf8_lead_len _ _ _ _ El).
    cbn [length] in *. destruct (Nat.ltb_spec (S (length rest)) len) as [Hl|Hl].
    { injection Hs as <-. apply scan_0. }
    cbn [app]. rewrite scan_cons, El. cbn [rbind].
    destruct (utf8_continue _ _) as [cp'|e] eqn:Ec; cbn [rbind] in Hs; [|done].
    destruct (throw_if _ _) as [[]|] eqn:Et; cbn [rbind] in Hs; [|done].
    destruct (scan (drop _ rest)) as [i|e] eqn:Es; cbn [rbind] in Hs; [|done]. injection Hs as <-.
    destruct (Nat.ltb_spec (length (lead :: rest ++ x)) len) as [Hl'|_]; [cbn in Hl'; rewrite length_app in Hl'; lia|].
    rewrite take_app_le by lia. rewrite Ec. cbn [rbind]. rewrite Et. cbn [rbind].
    rewrite drop_app_le by lia. rewrite (IH _ i) by (done || (rewrite length_drop; lia)).
    replace (drop (len + i) (lead :: rest)) with (drop i (drop (len - 1) rest)).
    { destruct (scan (_ ++ x)); cbn [rbind]; [|done]. f_equal. lia. }
    rewrite drop_drop. destruct len as [|l]; [lia|]. cbn. f_equal. lia.
Qed.

Lemma utf8_lead_2 l : 0xc2 <= l <= 0xdf -> utf8_lead l = Ok (2%nat, l - 0xc0, 0x80).
Proof.
  intros Hl. unfold utf8_lead. replace (l <=? 127) with false by lia. replace ((194 <=? l) && (l <=? 223)) with true by lia.
  change 0x1f with (Z.ones 5). rewrite Z.land_ones by lia. do 3 f_equal. change (2 ^ 5) with 32. lia.
Qed.
Lemma utf8_lead_3 l : 0xe0 <= l <= 0xef -> utf8_lead l = Ok (3%nat, l - 0xe0, 0x800).
Proof.
  intros Hl. unfold utf8_lead. replace (l <=? 127) with false by lia. replace ((194 <=? l) && (l <=? 223)) with false by lia.
  replace ((224 <=? l) && (l <=? 239)) with true by lia.
  change 0x0f with (Z.ones 4). rewrite Z.land_ones by lia. do 3 f_equal. change (2 ^ 4) with 16. lia.
Qed.
Lemma utf8_lead_4 l : 0xf0 <= l <= 0xf4 -> utf8_lead l = Ok (4%nat, l - 0xf0, 0x10000).
Proof.
  intros Hl. unfold utf8_lead. replace (l <=? 127) with false by lia. replace ((194 <=? l) && (l <=? 223)) with false by lia.
  replace ((224 <=? l) && (l <=? 239)) with false by lia. replace ((240 <=? l) && (l <=? 244)) with true by lia.
  change 0x07 with (Z.ones 3). rewrite Z.land_ones by lia. do 3 f_equal. change (2 ^ 3) with 8. lia.
Qed.
Lemma utf8_lead_inv l len cp m :
  utf8_lead l = Ok (len, cp, m) ->
  l <= 0x7f /\ len = 1%nat /\ cp = l /\ m = 0 \/
  0xc2 <= l <= 0xdf /\ len = 2%nat /\ cp = l - 0xc0 /\ m = 0x80 \/
  0xe0 <= l <= 0xef /\ len = 3%nat /\ cp = l - 0xe0 /\ m = 0x800 \/
  0xf0 <= l <= 0xf4 /\ len = 4%nat /\ cp = l - 0xf0 /\ m = 0x10000.
Proof.
  intros H. destruct (decide (l <= 0x7f)) as [H1|H1].
  { unfold utf8_lead in H. replace (l <=? 127) with true in H by lia. injection H as <- <- <-. by left. }
  destruct (decide (0xc2 <= l <= 0xdf)); [rewrite utf8_lead_2 in H by done; injection H as <- <- <-; right; by left|].
  destruct (decide (0xe0 <= l <= 0xef)); [rewrite utf8_lead_3 in H by done; injection H as <- <- <-; do 2 right; by left|].
  destruct (decide (0xf0 <= l <= 0xf4)); [rewrite utf8_lead_4 in H by done; injection H as <- <- <-; by do 3 right|].
  unfold utf8_lead in H. replace (l <=? 127) with false in H by lia. replace ((194 <=? l) && (l <=? 223)) with false in H by lia.
  replace ((224 <=? l) && (l <=? 239)) with false in H by lia. by replace ((240 <=? l) && (l <=? 244)) with false in H by lia.
Qed.

Lemma utf8_continue_cons cp b bs :
  is_byte b -> 0 <= cp ->
  utf8_continue cp (b :: bs) =
    if (0x80 <=? b) && (b <? 0xc0) then utf8_continue (cp * 64 + b mod 64) bs else Err InvalidArgument.
Proof.
  intros Hb Hcp. cbn [utf8_continue]. destruct (land_mask b Hb) as [-> ->].
  destruct ((128 <=? b) && (b <? 192)); cbn [negb throw_if rbind]; [|done].
  rewrite lor_shift6; [done|]. apply Z.mod_pos_bound. lia.
Qed.

Lemma scan_encode c x : is_scalar c ->
  scan (utf8_encode c ++ x) = (let* n := scan x in Ok (length (utf8_encode c) + n)%nat).
Proof.
  intros [Hr Hs]. assert (Hgo : forall lead (cs : list Z) len cp m, utf8_lead lead = Ok (len, cp, m) -> len = S (length cs) ->
    utf8_continue cp cs = Ok c -> m <= c ->
    scan ((lead :: cs) ++ x) = (let* n := scan x in Ok (length (lead :: cs) + n)%nat)).
  { intros lead cs len cp m El -> Ec Hm. cbn [app]. rewrite scan_cons, El. cbn [rbind].
    destruct (Nat.ltb_spec (length (lead :: cs ++ x)) (S (length cs))) as [Hl|_]; [cbn in Hl; rewrite length_app in Hl; lia|].
    replace (S (length cs) - 1)%nat with (length cs) by lia. rewrite take_app_length, drop_app_length, Ec. cbn [rbind].
    unfold scalar_error, throw_if. replace (_ || _) with false by lia. done. }
  unfold utf8_encode. destruct (continuation_spec c) as (B1 & C1 & D1). destruct (continuation_spec (c / 64)) as (B2 & C2 & D2).
  destruct (continuation_spec (c / 4096)) as (B3 & C3 & D3).
  destruct (Z.ltb_spec c 0x80); [|destruct (Z.ltb_spec c 0x800); [|destruct (Z.ltb_spec c 0x10000)]].
  - apply (Hgo c [] 1%nat c 0); [|done|done|lia]. unfold utf8_lead. by replace (c <=? 127) with true by lia.
  - eapply Hgo; [apply utf8_lead_2; lia|done| |lia].
    rewrite utf8_continue_cons by (done || lia). rewrite C1, D1. cbn [utf8_continue]. f_equal. lia.
  - eapply Hgo; [apply utf8_lead_3; lia|done| |lia].
    rewrite utf8_continue_cons by (done || lia). rewrite C2, D2. rewrite utf8_continue_cons by (done || lia). rewrite C1, D1.
    cbn [utf8_continue]. f_equal. lia.
  - eapply Hgo; [apply utf8_lead_4; lia|done| |lia].
    rewrite utf8_continue_cons by (done || lia). rewrite C3, D3. rewrite utf8_continue_cons by (done || lia). rewrite C2, D2.
    rewrite utf8_continue_cons by (done || lia). rewrite C1, D1. cbn [utf8_continue]. f_equal. lia.
Qed.

(** One sequence that the scanner accepts is the encoding of a scalar value. *)
Lemma accepted_encode lead rest len cp m cp' :
  Forall is_byte (lead :: rest) -> utf8_lead lead = Ok (len, cp, m) -> (len <= S (length rest))%nat ->
  utf8_continue cp (take (len - 1) rest) = Ok cp' -> scalar_error cp' m = false ->
  is_scalar cp' /\ take len (lead :: rest) = utf8_encode cp'.
Proof.
  intros Hb El Hlen Ec Hs. unfold scalar_error in Hs. unfold is_scalar, utf8_encode.
  assert (Hhead : forall c b bs, is_byte b -> 0 <= c -> utf8_continue c (b :: bs) = Ok cp' ->
    (0x80 <= b < 0xc0) /\ utf8_continue (c * 64 + b mod 64) bs = Ok cp').
  { intros c b bs Hbb Hc E. rewrite utf8_continue_cons in E by done. destruct ((128 <=? b) && (b <? 192)) eqn:E'; [|done].
    split; [lia|done]. }
  apply Forall_cons in Hb as [Hlead Hb]. unfold is_byte in Hlead.
  apply utf8_lead_inv in El as [(Hl & -> & -> & ->)|[(Hl & -> & -> & ->)|[(Hl & -> & -> & ->)|(Hl & -> & -> & ->)]]].
  - injection Ec as <-. split; [lia|]. by replace (lead <? 128) with true by lia.
  - destruct rest as [|b1 rest]; [cbn in Hlen; lia|]. apply Forall_cons in Hb as [Hb1 Hb]. cbn [take Nat.sub] in Ec |- *.
    apply Hhead in Ec as [H1 [= <-]]; [|done|lia]. split; [lia|]. unfold continuation.
    replace (_ <? 128) with false by lia. replace (_ <? 2048) with true by lia. repeat f_equal; lia.
  - destruct rest as [|b1 [|b2 rest]]; [cbn in Hlen; lia..|]. apply Forall_cons in Hb as [Hb1 Hb]. apply Forall_cons in Hb as [Hb2 Hb].
    cbn [take Nat.sub] in Ec |- *. apply Hhead in Ec as [H1 Ec]; [|done|lia]. apply Hhead in Ec as [H2 [= <-]]; [|done|lia].
    split; [lia|]. unfold continuation.
    replace (_ <? 128) with false by lia. replace (_ <? 2048) with false by lia. replace (_ <? 65536) with true by lia.
    repeat f_equal; lia.
  - destruct rest as [|b1 [|b2 [|b3 rest]]]; [cbn in Hlen; lia..|]. apply Forall_cons in Hb as [Hb1 Hb].
    apply Forall_cons in Hb as [Hb2 Hb]. apply Forall_cons in Hb as [Hb3 Hb].
    cbn [take Nat.sub] in Ec |- *. apply Hhead in Ec as [H1 Ec]; [|done|lia]. apply Hhead in Ec as [H2 Ec]; [|done|lia].
    apply Hhead in Ec as [H3 [= <-]]; [|done|lia]. split; [lia|]. unfold continuation.
    replace (_ <? 128) with false by lia. replace (_ <? 2048) with false by lia. replace (_ <? 65536) with false by lia.
    repeat f_equal; lia.
Qed.

(** The bytes of a sequence that has just begun. *)
Definition incomplete (r : list Z) : Prop :=
  match r with
  | [] => True
  | lead :: rest =>
      0xc2 <= lead <= 0xdf /\ (length r < 2)%nat \/ 0xe0 <= lead <= 0xef /\ (length r < 3)%nat \/
      0xf0 <= lead <= 0xf4 /\ (length r < 4)%nat
  end.

Lemma scan_incomplete r : incomplete r -> scan r = Ok 0%nat.
Proof.
  destruct r as [|lead rest]; [done|]. intros Hi. rewrite scan_cons. unfold incomplete in Hi.
  destruct Hi as [[Hl Hn]|[[Hl Hn]|[Hl Hn]]]; [rewrite utf8_lead_2 by done|rewrite utf8_lead_3 by done|rewrite utf8_lead_4 by done];
    cbn [rbind]; destruct (Nat.ltb_spec (length (lead :: rest)) 2), (Nat.ltb_spec (length (lead :: rest)) 3),
      (Nat.ltb_spec (length (lead :: rest)) 4); done || lia.
Qed.

Lemma scan_sound k bytes n : (length bytes <= k)%nat -> Forall is_byte bytes -> scan bytes = Ok n ->
  exists cs, Forall is_scalar cs /\ take n bytes = encode_all cs /\ incomplete (drop n bytes).
Proof.
  revert bytes n. induction k as [|k IH]; intros bytes n Hk Hb.
  - destruct bytes; [|cbn in Hk; lia]. intros [= <-]. by exists [].
  - destruct bytes as [|lead rest]; [intros [= <-]; by exists []|]. rewrite scan_cons. cbn in Hk.
    destruct (utf8_lead lead) as [[[len cp] m]|e] eqn:El; cbn [rbind]; [|done]. pose proof (utf8_lead_len _ _ _ _ El).
    destruct (Nat.ltb_spec (length (lead :: rest)) len) as [Hl|Hl].
    { intros [= <-]. exists []. split; [done|]. split; [done|]. cbn [drop]. unfold incomplete.
      cbn [length] in *. apply utf8_lead_inv in El. lia. }
    destruct (utf8_continue _ _) as [cp'|e] eqn:Ec; cbn [rbind]; [|done].
    destruct (scalar_error cp' m) eqn:Ee; cbn [throw_if rbind]; [done|].
    destruct (accepted_encode _ _ _ _ _ _ Hb El Hl Ec Ee) as [Hs He].
    destruct (scan _) as [i|e] eqn:Es; cbn [rbind]; [|done]. intros [= <-].
    replace (drop (len - 1) rest) with (drop len (lead :: rest)) in Es by (destruct len; [lia|]; cbn; f_equal; lia).
    destruct (IH (drop len (lead :: rest)) i) as (cs & H1 & H2 & H3); [rewrite length_drop; cbn; lia|by apply Forall_drop|done|].
    exists (cp' :: cs). split; [by constructor|]. rewrite drop_drop in H3. split; [|done].
    unfold encode_all in *. cbn [map concat]. rewrite <- H2, <- He.
    rewrite <- (take_drop len (lead :: rest)) at 1. rewrite take_app_add'; [done|]. rewrite length_take. lia.
Qed.

(** the scanner accepts exactly the longest part of the bytes made of encoded Unicode scalar values,
    when what follows it is at most the beginning of another sequence; it fails on other bytes. *)
Theorem utf8_prefix_exact bytes n :
  Forall is_byte bytes ->
  valid_utf8_prefix_size bytes = Ok n <->
  exists cs r, Forall is_scalar cs /\ bytes = encode_all cs ++ r /\ n = length (encode_all cs) /\ incomplete r.
Proof.
  intros Hb. split.
  - intros Hs. destruct (scan_sound _ _ _ (Nat.le_refl _) Hb Hs) as (cs & H1 & H2 & H3). exists cs, (drop n bytes).
    apply scan_length in Hs. rewrite <- H2, take_drop, length_take. split_and!; [done..|lia|done].
  - intros (cs & r & Hc & -> & -> & Hr). clear Hb. induction Hc as [|c cs Hc _ IH]; [by apply scan_incomplete|].
    unfold encode_all in *. cbn [map concat]. rewrite <- app_assoc, (scan_encode c) by done. rewrite IH. cbn [rbind].
    by rewrite length_app.
Qed.

(** The euro sign and half of an accented letter. *)
Lemma utf8_prefix_exact_witness : valid_utf8_prefix_size [0xe2; 0x82; 0xac; 0xc3] = Ok 3%nat.
Proof.
  apply (utf8_prefix_exact [0xe2; 0x82; 0xac; 0xc3] 3).
  - unfold is_byte. repeat constructor; lia.
  - exists [0x20ac], [0xc3]. split; [|split; [reflexivity|split; [reflexivity|]]].
    + constructor; [unfold is_scalar; lia|constructor].
    + cbn. lia.
Defined.
