(* ===== verification/OutputTheorems.v ===== *)
(** * What a session publishes

    A session is followed through its rounds ([live]); the text it publishes is compared with the text
    of all the bytes of all its tokens. *)
From S2P Require Import Prelude Unicode UnicodeProofs Admission Capacity Contract Output OutputProofs Utf8Proofs.
#[local] Open Scope Z_scope.

(** ** Ending the output *)

Definition texts (start : bool) (pub : OutputChannel -> list Z) (out : list OutputDelta) (text : list Z) : Prop :=
  forall ch, pub ch ++ out_text out ch = channel_text start text ch.

Definition replacement (pending : list Z) : list Z := if bool_decide (pending = []) then [] else kReplacement.

Lemma close_run policy committed st out pub start full :
  TI start pub full st out ->
  exists st' out', (if in_reasoning st then
      let* f := feed_channel policy committed Reasoning (think_marker_pending st) (st, out, None) in
      let '(st, emitted, best) := f in
      close_channel Reasoning (set_think_pending [] st, emitted, best)
    else close_channel Content (st, out, None)) = Ok (st', out', None) /\ texts start pub out' full.
Proof.
  intros (fedR & fedC & (Hd & Hsh & Hm) & HaR & HaC). unfold texts, accounted in *. destruct (in_reasoning st) eqn:Hr.
  - destruct Hm as (-> & Hfull & Hth & Htp & -> & Hst & Hnc). destruct (accounted_nil _ _ _ _ HaC) as (HpC & HoC & HsC).
    assert (Hma : may_append Reasoning out) by by split.
    destruct (feed_channel_none policy committed Reasoning (think_marker_pending st) st out Hma)
      as (out1 & p & E1 & Hma1 & Ho1 & Ht1). rewrite E1. cbn [rbind close_channel].
    set (st1 := set_think_pending [] _). change (stop_pending st1 Reasoning) with p.
    destruct (append_delta_run out1 Reasoning p Hma1) as (out2 & -> & _ & T2 & T2'). cbn [rbind].
    eexists _, _. split; [done|].
    assert (Hc : channel_text true full Reasoning = full /\ channel_text true full Content = []).
    { unfold channel_text, split_text. destruct (seen_held _ _ Hth Htp) as [Hn _]. rewrite <- Hfull in Hn. by rewrite Hn. }
    destruct Hc as [HcR HcC]. intros [].
    + rewrite T2', Ho1, HpC, HoC by done. done.
    + rewrite HcR, T2, Ht1, Hfull, <- HaR. by rewrite !app_assoc.
  - destruct Hm as (Hsp & Hf & HspR & Ht & _). cbn [close_channel].
    destruct (append_delta_run out Content (stop_pending st Content)) as (out2 & -> & _ & T2 & T2'); [by split|].
    cbn [rbind]. eexists _, _. split; [done|]. unfold channel_text. rewrite Hsp. intros [].
    + by rewrite T2, app_assoc.
    + rewrite T2' by done. by rewrite HspR, app_nil_r in HaR.
Qed.

Lemma terminalize_run policy committed st out pub start full :
  TI start pub full st out ->
  exists st' out', terminalize policy committed st out = Ok (st', out') /\ terminal st' = true /\
    texts start pub out' (full ++ replacement (utf8_pending st)).
Proof.
  intros HT. unfold terminalize, replacement.
  assert (exists st1 out1, (if bool_decide (utf8_pending st = []) then Ok (st, out, None)
            else feed_decoded_text policy committed kReplacement (set_utf8_pending [] st, out, None)) = Ok (st1, out1, None) /\
    TI start pub (full ++ (if bool_decide (utf8_pending st = []) then [] else kReplacement)) st1 out1) as (st1 & out1 & -> & HT1).
  { case_bool_decide; [exists st, out; by rewrite app_nil_r|].
    destruct (feed_text_none policy committed kReplacement (set_utf8_pending [] st) out pub start full HT) as (st1 & out1 & ? & _ & ?).
    by exists st1, out1. }
  cbn [rbind]. destruct (close_run policy committed st1 out1 pub start _ HT1) as (st2 & out2 & -> & Ht).
  cbn [rbind]. by eexists _, _.
Qed.

(** ** The bytes of the tokens *)

Section Sessions.
Context `{TD : TokenDecoder}.

Fixpoint token_bytes (preserve : bool) (toks : list Z) : result (list Z) :=
  match toks with
  | [] => Ok []
  | token :: toks' =>
      do* throw_if (negb (is_valid_token token)) OutOfRange;
      let* bytes := decode_token_bytes token (negb preserve) in
      let* rest := token_bytes preserve toks' in
      Ok (bytes ++ rest)
  end.

(** The decoded text of tokens, and the bytes of a sequence that is not whole yet. *)
Definition stream (preserve : bool) (toks : list Z) : result (list Z * list Z) :=
  let* bytes := token_bytes preserve toks in
  let* n := valid_utf8_prefix_size bytes in
  Ok (take n bytes, drop n bytes).

(** The text once no more tokens come. *)
Definition final_text (preserve : bool) (toks : list Z) : result (list Z) :=
  let* s := stream preserve toks in
  Ok (s.1 ++ replacement s.2).

Lemma token_bytes_app preserve t1 t2 :
  token_bytes preserve (t1 ++ t2) =
    (let* a := token_bytes preserve t1 in let* b := token_bytes preserve t2 in Ok (a ++ b)).
Proof.
  induction t1 as [|t t1 IH]; cbn [token_bytes app rbind]; [by destruct (token_bytes preserve t2)|].
  destruct (throw_if _ _); cbn [rbind]; [|done]. destruct (decode_token_bytes _ _); cbn [rbind]; [|done]. rewrite IH.
  destruct (token_bytes preserve t1); cbn [rbind]; [|done]. destruct (token_bytes preserve t2); cbn [rbind]; [|done].
  by rewrite app_assoc.
Qed.

Lemma stream_snoc preserve toks token full pend :
  stream preserve toks = Ok (full, pend) ->
  stream preserve (toks ++ [token]) =
    (do* throw_if (negb (is_valid_token token)) OutOfRange;
     let* bytes := decode_token_bytes token (negb preserve) in
     let* n := valid_utf8_prefix_size (pend ++ bytes) in
     Ok (full ++ take n (pend ++ bytes), drop n (pend ++ bytes))).
Proof.
  unfold stream. rewrite token_bytes_app. cbn [token_bytes].
  destruct (token_bytes preserve toks) as [all|]; cbn [rbind]; [|done].
  destruct (valid_utf8_prefix_size all) as [n|] eqn:En; cbn [rbind]; [|done]. intros [= <- <-].
  destruct (throw_if _ _); cbn [rbind]; [|done]. destruct (decode_token_bytes _ _) as [b|]; cbn [rbind]; [|done].
  rewrite app_nil_r, (scan_app _ _ _ En). destruct (valid_utf8_prefix_size (drop n all ++ b)) as [k|]; cbn [rbind]; [|done].
  pose proof (scan_length _ _ En). assert (Ha : all ++ b = take n all ++ (drop n all ++ b)) by (by rewrite app_assoc, take_drop).
  rewrite Ha, take_app_add', drop_app_add' by (rewrite length_take; lia). done.
Qed.

(** ** One token *)

Context (policy : StopPolicy) (preserve start : bool).

(** No stop string in what was looked at. *)
Definition clear (full : list Z) : Prop := forall ch, no_stop policy ch (seen_text start full ch).

(** The decoder [st] and the output [out] of the round after the tokens [toks]. *)
Definition PI (pub : OutputChannel -> list Z) (toks : list Z) (st : DecoderState) (out : list OutputDelta) : Prop :=
  exists full, stream preserve toks = Ok (full, utf8_pending st) /\ SI policy start pub full st out /\ terminal st = false.

Lemma SI_clear pub full st out : SI policy start pub full st out -> clear full.
Proof.
  intros (fedR & fedC & (Hd & Hsh & Hm) & HaR & HiC & HR) ch. destruct (in_reasoning st).
  - destruct Hm as (-> & -> & Hth & Htp & -> & _). destruct (seen_held _ _ Hth Htp) as [Hn Hs]. destruct ch; [|rewrite Hs; by eapply chan_no_stop].
    unfold seen_text, channel_text, split_text. rewrite Hn. by eapply chan_no_stop.
  - destruct Hm as (Hsp & Hf & _). rewrite seen_closed by done. unfold channel_text. rewrite Hsp. destruct ch; [by eapply chan_no_stop|done].
Qed.

Definition final_texts (pub : OutputChannel -> list Z) (toks : list Z) (out : list OutputDelta) : Prop :=
  exists text, final_text preserve toks = Ok text /\ texts start pub out text.

Lemma terminalize_PI pub toks st out committed :
  PI pub toks st out ->
  exists st' out', terminalize policy committed st out = Ok (st', out') /\ terminal st' = true /\ final_texts pub toks out'.
Proof.
  intros (full & Hs & HSI & _). destruct (terminalize_run policy committed st out pub start full) as (st' & out' & ? & ? & ?);
    [by eapply SI_TI|]. exists st', out'. split; [done|]. split; [done|]. eexists. split; [|done].
  unfold final_text. by rewrite Hs.
Qed.

(** What a token does. *)
Inductive token_outcome (pub : OutputChannel -> list Z) (toks : list Z) (count token : Z) :
    result ((DecoderState * list OutputDelta * OutputDecision) + (DecoderState * list OutputDelta)) -> Prop :=
| to_error e : stream preserve (toks ++ [token]) = Err e -> token_outcome pub toks count token (Err e)
| to_stop_string full pend m st' :
    stream preserve (toks ++ [token]) = Ok (full, pend) -> matched policy start pub full count m -> terminal st' = true ->
    token_outcome pub toks count token (Ok (inl (st', sm_output m, mkDecision count FR_StopString)))
| to_stop_token full pend st' out' :
    stream preserve (toks ++ [token]) = Ok (full, pend) -> clear full -> token ∈ token_ids policy -> terminal st' = true ->
    final_texts pub (if publish_stop_token policy then toks ++ [token] else toks) out' ->
    token_outcome pub toks count token (Ok (inl (st', out', mkDecision count StopToken)))
| to_continue st' out' :
    token ∉ token_ids policy -> PI pub (toks ++ [token]) st' out' ->
    token_outcome pub toks count token (Ok (inr (st', out'))).

Lemma feed_bytes_run count bytes pub full st out :
  policy_ok policy -> SI policy start pub full st out ->
  match valid_utf8_prefix_size (utf8_pending st ++ bytes) with
  | Err e => feed_token_bytes policy count bytes (st, out, Some no_match) = Err e
  | Ok n => let full' := full ++ take n (utf8_pending st ++ bytes) in
      exists st' out' best, feed_token_bytes policy count bytes (st, out, Some no_match) = Ok (st', out', Some best) /\
        terminal st' = terminal st /\ utf8_pending st' = drop n (utf8_pending st ++ bytes) /\
        (best = no_match /\ SI policy start pub full' st' out' \/ found best = true /\ matched policy start pub full' count best)
  end.
Proof.
  intros Hpol HSI. unfold feed_token_bytes. destruct (valid_utf8_prefix_size _) as [n|e]; cbn [rbind]; [|done].
  destruct (Nat.eqb_spec n 0) as [->|Hn].
  - eexists _, _, _. split; [reflexivity|]. split; [done|]. split; [done|]. left. split; [done|].
    rewrite take_0, app_nil_r. exact HSI.
  - set (pend := utf8_pending st ++ bytes).
    destruct (feed_text_some policy count (take n pend) (set_utf8_pending (drop n pend) st) out no_match pub start full Hpol HSI eq_refl)
      as (st' & out' & best' & E & [R1 R2] & H). rewrite E. destruct H as [[-> H]|(b' & -> & H)]; eexists _, _, _;
      (split; [reflexivity|]); (split; [done|]); (split; [done|]); [by left|right]. split; [|done].
    by destruct H as (ch & base & (stop & i & _ & _ & _ & _ & Hf & _) & _).
Qed.

Lemma preview_token_run pub toks st out count token :
  policy_ok policy -> PI pub toks st out ->
  token_outcome pub toks count token (preview_token policy preserve count token st out).
Proof.
  intros Hpol (full & Hs & HSI & Ht). pose proof (stream_snoc _ _ token _ _ Hs) as Hsn. unfold preview_token.
  destruct (throw_if (negb (is_valid_token token)) OutOfRange) eqn:Ev; cbn [rbind] in Hsn |- *; [|by apply to_error].
  set (st0 := if in_reasoning st then _ else st).
  assert (H0 : utf8_pending st0 = utf8_pending st /\ terminal st0 = false /\ SI policy start pub full st0 out)
    by (unfold st0; by destruct (in_reasoning st)).
  clearbody st0. destruct H0 as (Hp0 & Ht0 & HSI0). rewrite <- Hp0 in Hsn, Hs. clear st HSI Ht Hp0.
  destruct (decode_token_bytes token (negb preserve)) as [bytes|e]; cbn [rbind] in Hsn |- *; [|by apply to_error].
  pose proof (feed_bytes_run count bytes pub full st0 out Hpol HSI0) as Hf.
  destruct (valid_utf8_prefix_size (utf8_pending st0 ++ bytes)) as [n|e]; cbn [rbind] in Hsn; [|rewrite Hf; by apply to_error].
  destruct Hf as (st' & out' & best & -> & Ht' & Hp' & Hb). cbn [rbind].
  destruct Hb as [[-> HSI']|[Hfd Hm]].
  2:{ rewrite Hfd. replace (committed_tokens best) with count.
      - by eapply to_stop_string.
      - by destruct Hm as (ch & base & (stop & i & _ & _ & _ & _ & _ & -> & _) & _). }
  cbn [found no_match]. rewrite <- Hp' in Hsn. assert (HPI : PI pub (toks ++ [token]) st' out') by (exists (full ++ take n (utf8_pending st0 ++ bytes)); split_and!; [done|done|by rewrite Ht']).
  destruct (existsb (Z.eqb token) (token_ids policy)) eqn:Ex.
  - assert (Hin : token ∈ token_ids policy).
    { apply existsb_exists in Ex as (t & Hin & ->%Z.eqb_eq). by apply list_elem_of_In. }
    assert (exists st2 out2, terminalize policy count (if publish_stop_token policy then (st', out') else (st0, out)).1
      (if publish_stop_token policy then (st', out') else (st0, out)).2 = Ok (st2, out2) /\ terminal st2 = true /\
      final_texts pub (if publish_stop_token policy then toks ++ [token] else toks) out2) as (st2 & out2 & E & Ht2 & Hft).
    { destruct (publish_stop_token policy); cbn [fst snd]; apply terminalize_PI; [done|by exists full]. }
    destruct (if publish_stop_token policy then (st', out') else (st0, out)) as [st1 out1]. cbn [fst snd] in E. rewrite E. cbn [rbind].
    eapply to_stop_token; [done|by eapply SI_clear|done..].
  - apply to_continue; [|done]. intros Hin%list_elem_of_In. rewrite <- not_true_iff_false in Ex. apply Ex, existsb_exists.
    exists token. split; [done|]. apply Z.eqb_refl.
Qed.

(** What the tokens of a round do: one of them fails or ends the output, or all of them are taken. *)
Inductive round_outcome (pub : OutputChannel -> list Z) (toks : list Z) (count : Z) (tokens : list Z) :
    result ((DecoderState * list OutputDelta * OutputDecision) + (DecoderState * list OutputDelta)) -> Prop :=
| ro_error k e : (k < length tokens)%nat -> stream preserve (toks ++ take (S k) tokens) = Err e ->
    round_outcome pub toks count tokens (Err e)
| ro_done k token r full pend :
    tokens !! k = Some token -> (forall t, t ∈ take k tokens -> t ∉ token_ids policy) ->
    stream preserve (toks ++ take k tokens) = Ok (full, pend) -> clear full ->
    token_outcome pub (toks ++ take k tokens) (count + Z.of_nat k + 1) token (Ok (inl r)) ->
    round_outcome pub toks count tokens (Ok (inl r))
| ro_continue st' out' :
    (forall t, t ∈ tokens -> t ∉ token_ids policy) -> PI pub (toks ++ tokens) st' out' ->
    round_outcome pub toks count tokens (Ok (inr (st', out'))).

Lemma preview_tokens_run pub toks st out count tokens :
  policy_ok policy -> PI pub toks st out ->
  round_outcome pub toks count tokens (preview_tokens policy preserve count tokens st out).
Proof.
  intros Hpol. revert toks st out count. induction tokens as [|token tokens IH]; intros toks st out count HPI; cbn [preview_tokens].
  { apply ro_continue; [|by rewrite app_nil_r]. intros t Ht. by apply elem_of_nil in Ht. }
  pose proof (preview_token_run pub toks st out (count + 1) token Hpol HPI) as Ht.
  destruct (preview_token _ _ _ _ _ _) as [[r|[st1 out1]]|e]; cbn [rbind].
  - pose proof HPI as (full & Hs & HSI & _). apply (ro_done _ _ _ _ 0 token r full (utf8_pending st)); cbn [take]; rewrite ?app_nil_r; try done.
    + intros t Hin. by apply elem_of_nil in Hin.
    + by eapply SI_clear.
    + by replace (count + Z.of_nat 0 + 1) with (count + 1) by lia.
  - inversion Ht as [| | |? ? Hn HPI1]; subst. specialize (IH (toks ++ [token]) st1 out1 (count + 1) HPI1).
    assert (Ha : forall l, (toks ++ [token]) ++ l = toks ++ token :: l) by (intros; by rewrite <- app_assoc).
    destruct IH as [k e Hk He|k tk r full pend Hk Hnt Hs Hc Ho|st' out' Hnt HPI']; rewrite ?Ha in *.
    + apply (ro_error _ _ _ _ (S k)); [cbn; lia|done].
    + apply (ro_done _ _ _ _ (S k) tk r full pend); try done.
      * intros t [->|Hin]%elem_of_cons; [done|by apply Hnt].
      * by replace (count + Z.of_nat (S k) + 1) with (count + 1 + Z.of_nat k + 1) by lia.
    + apply ro_continue; [|done]. intros t [->|Hin]%elem_of_cons; [done|by apply Hnt].
  - inversion Ht; subst. apply (ro_error _ _ _ _ 0); [cbn; lia|done].
Qed.
End Sessions.

(** ** Sessions *)

Section Live.
Context `{TD : TokenDecoder}.

(** A session that is still open, the tokens it has taken and the output it has published. *)
Inductive live (start : bool) : Session -> list Z -> list OutputDelta -> Prop :=
| live_start prompt caller raw preserve_special_tokens s :
    make_output_session prompt caller raw preserve_special_tokens = Ok s ->
    start = in_reasoning (ses_state s) -> live start s [] []
| live_round s toks outs tokens budget limit d s1 out s2 :
    live start s toks outs -> session_preview tokens budget limit s = (Ok d, s1) -> finish_reason d = FR_None ->
    session_commit_preview s1 = (Ok out, s2) -> live start s2 (toks ++ tokens) (outs ++ out).

Lemma out_text_app a b ch : out_text (a ++ b) ch = out_text a ch ++ out_text b ch.
Proof. induction a as [|d a IH]; [done|]. cbn [out_text app]. by rewrite IH, app_assoc. Qed.

Lemma append_strings_ok acc stops r :
  append_strings acc stops = Ok r -> (forall stop, stop ∈ acc -> ss_text stop <> []) ->
  forall stop, stop ∈ r -> ss_text stop <> [].
Proof.
  revert acc. induction stops as [|s stops IH]; intros acc; cbn [append_strings]; [by intros [= ->]|].
  case_bool_decide as Hs; cbn [throw_if rbind]; [done|]. destruct (utf8_codepoints _); cbn [rbind]; [|done].
  intros E Hacc. apply (IH _ E). intros stop. case_bool_decide; [apply Hacc|].
  intros [Hin| ->%list_elem_of_singleton]%elem_of_app; [by apply Hacc|done].
Qed.

Lemma make_output_session_ok prompt caller raw special s :
  make_output_session prompt caller raw special = Ok s ->
  policy_ok (ses_policy s) /\ ses_preview s = None /\ ses_state s = initial_decoder (in_reasoning (ses_state s)).
Proof.
  unfold make_output_session. destruct prompt as [sr|]; [|done]. destruct (merge_stop_policy _) as [p|] eqn:Ep; cbn [rbind]; [|done].
  intros [= <-]. split; [|done]. unfold merge_stop_policy in Ep.
  destruct (append_tokens [] _); cbn [rbind] in Ep; [|done]. destruct (append_tokens _ _); cbn [rbind] in Ep; [|done].
  destruct (append_strings _ _) as [ss|] eqn:Es; cbn [rbind] in Ep; [|done]. injection Ep as <-.
  intros stop Hin. apply (append_strings_ok [] _ _ Es); [|by destruct raw]. intros st0 H0. by apply elem_of_nil in H0.
Qed.

(** What holds of an open session between rounds. *)
Definition live_inv (start : bool) (s : Session) (toks : list Z) (outs : list OutputDelta) : Prop :=
  policy_ok (ses_policy s) /\ ses_preview s = None /\ 
  PI (ses_policy s) (preserve_special s) start (out_text outs) toks (ses_state s) [].

Lemma initial_PI policy preserve start :
  policy_ok policy -> PI policy preserve start (out_text []) [] (initial_decoder start) [].
Proof.
  intros Hpol. assert (Hheld : forall ms : list Z -> Prop, (forall m, ms m -> m <> []) -> held ms [] []).
  { intros ms Hms. split; [intros m i Hm Ho|intros m k Hm _ (Hk & _)]; [|done]. apply occurs_length in Ho.
    specialize (Hms m Hm). destruct m; [done|]. cbn in Ho. lia. }
  assert (Hst : forall ch m, stops_on policy ch m -> m <> []) by (intros ch m (stop & Hin & _ & <-); by apply Hpol).
  assert (Hch : forall ch, chan_inv policy ch [] [] (initial_decoder start) []).
  { intros ch. split; [by destruct ch|]. destruct ch; by apply Hheld, Hst. }
  exists []. split; [done|]. split; [|done]. exists [], []. split; [|split; [done|split; [apply Hch|]]].
  - split; [done|]. split; [by left|]. destruct start; cbn [in_reasoning initial_decoder]; [|done]. split_and!; try done.
    + apply Hheld. by intros m <-.
    + intros c Hin. by apply elem_of_nil in Hin.
  - destruct start; cbn [in_reasoning initial_decoder]; [apply Hch|]. destruct (Hch Reasoning) as [_ [Hn _]].
    intros m i. by apply Hn.
Qed.

Lemma SI_rebase policy start pub pub' full st out :
  (forall ch, pub' ch = pub ch ++ out_text out ch) -> SI policy start pub full st out -> SI policy start pub' full st [].
Proof.
  intros Hp (fedR & fedC & (Hd & Hsh & Hm) & HaR & HiC & HR). exists fedR, fedC.
  assert (Hc : forall ch fed, chan_inv policy ch (pub ch) fed st out -> chan_inv policy ch (pub' ch) fed st []).
  { unfold chan_inv. intros ch fed. cbn [out_text]. by rewrite app_nil_r, Hp. }
  split; [|split; [|split; [by apply Hc|]]].
  - split; [done|]. split; [by left|]. destruct (in_reasoning st); [|done].
    destruct Hm as (? & ? & ? & ? & ? & ? & ?). split_and!; try done. intros c Hin. by apply elem_of_nil in Hin.
  - unfold accounted in *. cbn [out_text]. by rewrite app_nil_r, Hp.
  - destruct (in_reasoning st); [by apply Hc|done].
Qed.

(** A round on an open session: the previewed state and output, and the decision. *)
Inductive round_result (start : bool) (s : Session) (toks : list Z) (outs : list OutputDelta) (tokens : list Z)
    (budget : Z) (limit : FinishReason) (d : OutputDecision) (st : DecoderState) (out : list OutputDelta) : Prop :=
| rr_finished k token full pend :
    tokens !! k = Some token -> (forall t, t ∈ take k tokens -> t ∉ token_ids (ses_policy s)) ->
    stream (preserve_special s) (toks ++ take k tokens) = Ok (full, pend) -> clear (ses_policy s) start full ->
    accepted_tokens d = Z.of_nat k + 1 ->
    token_outcome (ses_policy s) (preserve_special s) start (out_text outs) (toks ++ take k tokens) (Z.of_nat k + 1) token
      (Ok (inl (st, out, d))) ->
    round_result start s toks outs tokens budget limit d st out
| rr_limit st0 out0 :
    (forall t, t ∈ tokens -> t ∉ token_ids (ses_policy s)) ->
    PI (ses_policy s) (preserve_special s) start (out_text outs) (toks ++ tokens) st0 out0 ->
    d = mkDecision (Z.of_nat (length tokens)) limit -> budget = Z.of_nat (length tokens) -> terminal st = true ->
    final_texts (preserve_special s) start (out_text outs) (toks ++ tokens) out ->
    round_result start s toks outs tokens budget limit d st out
| rr_open :
    (forall t, t ∈ tokens -> t ∉ token_ids (ses_policy s)) ->
    PI (ses_policy s) (preserve_special s) start (out_text outs) (toks ++ tokens) st out ->
    d = mkDecision (Z.of_nat (length tokens)) FR_None -> Z.of_nat (length tokens) < budget ->
    round_result start s toks outs tokens budget limit d st out.

Definition valid_round (tokens : list Z) (budget : Z) (limit : FinishReason) : Prop :=
  tokens <> [] /\ Z.of_nat (length tokens) <= budget /\ (limit = OutputLimit \/ limit = ContextCapacity).

#[local] Instance valid_round_dec tokens budget limit : Decision (valid_round tokens budget limit).
Proof. unfold valid_round. apply _. Defined.

Lemma session_preview_run start s toks outs tokens budget limit :
  live_inv start s toks outs ->
  (valid_round tokens budget limit ->
    match session_preview tokens budget limit s with
    | (Ok d, s') => exists st out, s' = set_ses_preview (Some (st, out)) s /\
        round_result start s toks outs tokens budget limit d st out
    | (Err e, s') => s' = s /\ exists k, (k < length tokens)%nat /\
        stream (preserve_special s) (toks ++ take (S k) tokens) = Err e
    end) /\
  (~ valid_round tokens budget limit -> session_preview tokens budget limit s = (Err InvalidArgument, s)).
Proof.
  intros (Hpol & Hpre & HPI). pose proof HPI as (full & Hs & HSI & Hterm). unfold session_preview, mget, valid_round, mbind_, mthrow_if, mlift.
  rewrite !Hterm, !Hpre. cbn [is_some throw_if].
  destruct (bool_decide_reflect (tokens = [])) as [Ht|Ht]; cbn [throw_if]; [by split; [intros (? & _)|]|].
  destruct (Z.gtb_spec (Z.of_nat (length tokens)) budget) as [Hb|Hb]; cbn [throw_if]; [split; [lia|done]|].
  destruct (negb (bool_decide (limit = OutputLimit)) && negb (bool_decide (limit = ContextCapacity))) eqn:El; cbn [throw_if].
  { split; [|done]. intros (_ & _ & [->| ->]); done. }
  assert (Hl : limit = OutputLimit \/ limit = ContextCapacity) by (destruct limit; (by left) || (by right) || done).
  split; [|intros Hn; destruct Hn; split_and!; [done|lia|done]]. intros _.
  pose proof (preview_tokens_run (ses_policy s) (preserve_special s) start (out_text outs) toks (ses_state s) [] 0 tokens Hpol HPI) as Hr.
  destruct (preview_tokens _ _ _ _ _ _) as [[[[st out] d]|[st out]]|e].
  - unfold mmodify, mret_. eexists st, out. split; [done|]. inversion Hr as [|k tk r0 f p Hk Hnt Hst Hc Ho|]; subst.
    apply (rr_finished _ _ _ _ _ _ _ _ _ _ k tk f p); try done. inversion Ho; subst; cbn; lia.
  - inversion Hr as [| |st' out' Hnt HPI']; subst. destruct (Z.eqb_spec (Z.of_nat (length tokens)) budget) as [He|He].
    + destruct (terminalize_PI _ _ _ _ _ _ _ (Z.of_nat (length tokens)) HPI') as (st1 & out1 & -> & Ht1 & Hf1). unfold mmodify, mret_.
      exists st1, out1. split; [done|]. by apply (rr_limit _ _ _ _ _ _ _ _ _ _ st out).
    + unfold mmodify, mret_. exists st, out. split; [done|]. apply rr_open; [done..|lia].
  - split; [done|]. inversion Hr as [k e' Hk He| |]; subst. by exists k.
Qed.

(** Rounds keep an open session so. *)
Lemma live_invariant start s toks outs : live start s toks outs -> live_inv start s toks outs.
Proof.
  induction 1 as [prompt caller raw special s Hm ->|s toks outs tokens budget limit d s1 out s2 _ IH Hp Hn Hc].
  - destruct (make_output_session_ok _ _ _ _ _ Hm) as (Hpol & Hpre & Hst). split_and!; try done. rewrite Hst. by apply initial_PI.
  - pose proof (session_preview_run start s toks outs tokens budget limit IH) as [Hv Hnv].
    destruct (decide (valid_round tokens budget limit)) as [Hval|Hval]; [|by rewrite (Hnv Hval) in Hp]. specialize (Hv Hval). rewrite Hp in Hv. destruct Hv as (st & o & -> & Hr). unfold session_commit_preview, mbind_, mget in Hc.
    cbn in Hc. injection Hc as <- <-. destruct IH as (Hpol & Hpre & _).
    destruct Hr as [k tk f p _ _ _ _ _ Ho|st0 out0 _ _ -> _ _ _|_ HPI _ _].
    + exfalso. inversion Ho; subst; done.
    + exfalso. destruct Hval as (_ & _ & [->| ->]); done.
    + split_and!; try done. destruct HPI as (full & Hs & HSI & Ht). exists full. split_and!; try done.
      eapply SI_rebase; [|done]. intros ch. apply out_text_app.
Qed.


(** The rounds that succeed. *)
Lemma round_run start s toks outs tokens budget limit d s1 out s2 :
  live start s toks outs -> session_preview tokens budget limit s = (Ok d, s1) ->
  session_commit_preview s1 = (Ok out, s2) ->
  valid_round tokens budget limit /\ exists st, s2 = set_ses_state st s /\
    round_result start s toks outs tokens budget limit d st out.
Proof.
  intros Hl Hp Hc. pose proof (live_invariant _ _ _ _ Hl) as Hi.
  destruct (session_preview_run start s toks outs tokens budget limit Hi) as [Hv Hnv].
  destruct (decide (valid_round tokens budget limit)) as [Hval|Hval]; [|by rewrite (Hnv Hval) in Hp].
  split; [done|]. specialize (Hv Hval). rewrite Hp in Hv. destruct Hv as (st & o & -> & Hr).
  unfold session_commit_preview, mbind_, mget in Hc. cbn in Hc. injection Hc as <- <-. exists st. split; [|done].
  destruct Hi as (_ & Hpre & _). unfold set_ses_preview, set_ses_state. cbn. by rewrite Hpre.
Qed.

Lemma take_snoc (l : list Z) k x n : l !! k = Some x -> n = Z.of_nat k + 1 -> take (Z.to_nat n) l = take k l ++ [x].
Proof. intros Hk ->. replace (Z.to_nat (Z.of_nat k + 1)) with (S k) by lia. by rewrite (take_S_r _ _ _ Hk). Qed.

(** The tokens whose text is published when a round ends the output without a stop string. *)
Definition shown_tokens (s : Session) (d : OutputDecision) (tokens : list Z) : list Z :=
  if bool_decide (finish_reason d = StopToken) && negb (publish_stop_token (ses_policy s))
  then take (Z.to_nat (accepted_tokens d - 1)) tokens else take (Z.to_nat (accepted_tokens d)) tokens.

(** C15: when an output ends at a limit or a stop token, what all its rounds published is, channel by channel, the
    text of all its tokens, split at the end of the reasoning, whatever the tokens and the rounds the bytes came
    in: nothing held back is lost, duplicated or reordered, and an incomplete last sequence is replaced by
    U+FFFD. *)
Theorem session_text_exact start s toks outs tokens budget limit d s1 out s2 :
  live start s toks outs -> session_preview tokens budget limit s = (Ok d, s1) ->
  session_commit_preview s1 = (Ok out, s2) -> finish_reason d <> FR_None -> finish_reason d <> FR_StopString ->
  exists text, final_text (preserve_special s) (toks ++ shown_tokens s d tokens) = Ok text /\
    forall ch, out_text (outs ++ out) ch = channel_text start text ch.
Proof.
  intros Hl Hp Hc Hn Hs. destruct (round_run _ _ _ _ _ _ _ _ _ _ _ Hl Hp Hc) as ((_ & _ & Hlim) & st & -> & Hr).
  unfold shown_tokens. destruct Hr as [k tk f p Hk _ _ _ Hacc Ho|st0 out0 _ _ -> _ _ Hf|_ _ -> _]; [| |done].
  - inversion Ho as [|full pend m st1 Hst Hm Ht|full pend st1 out1 Hst Hcl Hin Ht Hf|]; subst; [done|]. cbn [finish_reason accepted_tokens].
    rewrite (take_snoc _ _ _ _ Hk eq_refl). replace (Z.to_nat (Z.of_nat k + 1 - 1)) with k by lia.
    destruct Hf as (text & Ht1 & Ht2). exists text. split.
    + cbn [bool_decide]. rewrite bool_decide_eq_true_2 by done. destruct (publish_stop_token (ses_policy s)); cbn [andb negb]; [|done].
      by rewrite app_assoc.
    + intros ch. rewrite out_text_app. apply Ht2.
  - cbn [finish_reason accepted_tokens] in *. rewrite bool_decide_eq_false_2 by (by destruct Hlim as [->| ->]). cbn [andb].
    rewrite Nat2Z.id, firstn_all. destruct Hf as (text & Ht1 & Ht2). exists text. split; [done|]. intros ch.
    rewrite out_text_app. apply Ht2.
Qed.

(** C16: a round ends with a stop string exactly when one occurs in the text looked at, with the first token that
    completes one; the output of its channel is cut at the first occurrence, and the other channel's is what came
    before it. *)
Theorem session_stop_string_exact start s toks outs tokens budget limit d s1 out s2 :
  live start s toks outs -> session_preview tokens budget limit s = (Ok d, s1) ->
  session_commit_preview s1 = (Ok out, s2) ->
  let policy := ses_policy s in
  exists full pend, stream (preserve_special s) (toks ++ take (Z.to_nat (accepted_tokens d)) tokens) = Ok (full, pend) /\
  if bool_decide (finish_reason d = FR_StopString) then
    (exists stop i, let ch := ss_channel stop in stop ∈ strings policy /\ occurs (ss_text stop) (seen_text start full ch) i /\
      (forall stop' j, stop' ∈ strings policy -> ss_channel stop' = ch -> occurs (ss_text stop') (seen_text start full ch) j -> (i <= j)%nat) /\
      out_text (outs ++ out) ch = take i (seen_text start full ch) ++ (if include_in_output stop then ss_text stop else []) /\
      match ch with
      | Content => out_text (outs ++ out) Reasoning = seen_text start full Reasoning
      | Reasoning => out_text (outs ++ out) Content = []
      end) /\
    (exists full0 pend0, stream (preserve_special s) (toks ++ take (Z.to_nat (accepted_tokens d - 1)) tokens) = Ok (full0, pend0) /\
       clear policy start full0)
  else clear policy start full.
Proof.
  intros Hl Hp Hc policy. destruct (round_run _ _ _ _ _ _ _ _ _ _ _ Hl Hp Hc) as ((_ & _ & Hlim) & st & -> & Hr).
  destruct Hr as [k tk f p Hk _ Hst0 Hcl0 Hacc Ho|st0 out0 _ (full & Hs & HSI & _) -> _ _ Hf|_ (full & Hs & HSI & _) -> _].
  - rewrite (take_snoc _ _ _ _ Hk Hacc), app_assoc, Hacc. replace (Z.to_nat (Z.of_nat k + 1 - 1)) with k by lia.
    inversion Ho as [|full pend m st1 Hst Hm Ht|full pend st1 out1 Hst Hcl Hin Ht Hf|]; subst; exists full, pend; (split; [done|]).
    + cbn [finish_reason]. rewrite bool_decide_eq_true_2 by done. split; [|by exists f, p].
      destruct Hm as (ch & base & (stop & i & Hin & Hch & Hocc & Hmin & _ & _ & _ & Hcut) & Hoth). exists stop, i. cbn zeta.
      rewrite Hch. split_and!; try done; [| |].
      * intros stop' j Hin' Hch'. apply Hmin. by exists stop'.
      * by rewrite out_text_app, Hcut.
      * destruct ch; rewrite out_text_app; [by destruct Hoth|done].
    + cbn [finish_reason]. by rewrite bool_decide_eq_false_2.
  - cbn [accepted_tokens finish_reason]. rewrite Nat2Z.id, firstn_all. eexists _, _. split; [exact Hs|].
    rewrite bool_decide_eq_false_2 by (by destruct Hlim as [->| ->]). by eapply SI_clear.
  - cbn [accepted_tokens finish_reason]. rewrite Nat2Z.id, firstn_all. eexists _, _. split; [exact Hs|].
    rewrite bool_decide_eq_false_2 by done. by eapply SI_clear.
Qed.

(** the decision of a round on an open session: it accepts at least one of the tokens and no more than there
    are; it stops at the first stop token unless a stop string stopped it before, at the limit exactly when the
    budget is used up, and the session is over exactly when the output is finished. *)
Theorem session_decision_bounds start s toks outs tokens budget limit d s1 out s2 :
  live start s toks outs -> session_preview tokens budget limit s = (Ok d, s1) ->
  session_commit_preview s1 = (Ok out, s2) ->
  let n := accepted_tokens d in
  1 <= n <= Z.of_nat (length tokens) /\ n <= budget /\
  (forall t, t ∈ take (Z.to_nat (n - 1)) tokens -> t ∉ token_ids (ses_policy s)) /\
  terminal (ses_state s2) = negb (bool_decide (finish_reason d = FR_None)) /\
  match finish_reason d with
  | FR_None => n = Z.of_nat (length tokens) /\ n < budget /\ (forall t, t ∈ tokens -> t ∉ token_ids (ses_policy s))
  | StopToken => exists t, tokens !! Z.to_nat (n - 1) = Some t /\ t ∈ token_ids (ses_policy s)
  | FR_StopString => True
  | reason => reason = limit /\ n = Z.of_nat (length tokens) /\ n = budget /\ (forall t, t ∈ tokens -> t ∉ token_ids (ses_policy s))
  end.
Proof.
  intros Hl Hp Hc n. destruct (round_run _ _ _ _ _ _ _ _ _ _ _ Hl Hp Hc) as ((Hne & Hbud & Hlim) & st & -> & Hr).
  assert (Hlen : 1 <= Z.of_nat (length tokens)) by (destruct tokens; [done|cbn; lia]). cbn [ses_state set_ses_state].
  destruct Hr as [k tk f p Hk Hnt _ _ Hacc Ho|st0 out0 Hnt _ -> -> Ht _|Hnt (_ & _ & _ & Ht) -> Hlt].
  - pose proof (lookup_lt_Some _ _ _ Hk). unfold n. rewrite Hacc. replace (Z.to_nat (Z.of_nat k + 1 - 1)) with k by lia.
    split; [lia|]. split; [lia|]. split; [done|]. inversion Ho; subst; cbn [finish_reason]; rewrite bool_decide_eq_false_2 by done;
      (split; [done|]); [done|by exists tk].
  - unfold n. cbn [accepted_tokens finish_reason]. split; [lia|]. split; [lia|]. split.
    { intros t Hin. apply Hnt. by eapply elem_of_take_inv. }
    rewrite bool_decide_eq_false_2 by (by destruct Hlim as [->| ->]). split; [done|]. by destruct Hlim as [->| ->].
  - unfold n. cbn [accepted_tokens finish_reason]. split; [lia|]. split; [lia|]. split.
    { intros t Hin. apply Hnt. by eapply elem_of_take_inv. }
    rewrite bool_decide_eq_true_2 by done. by split.
Qed.

(** a round on an open session that fails leaves the session as it was, and fails only because its arguments
    are wrong or because one of its tokens is invalid, cannot be decoded or makes the text invalid UTF-8: the
    checks of the published output never fail. *)
Theorem session_preview_fails_atomically start s toks outs tokens budget limit e s' :
  live start s toks outs -> session_preview tokens budget limit s = (Err e, s') ->
  s' = s /\ (e = InvalidArgument /\ ~ valid_round tokens budget limit \/
    exists k, (k < length tokens)%nat /\ stream (preserve_special s) (toks ++ take (S k) tokens) = Err e).
Proof.
  intros Hl E. destruct (session_preview_run start s toks outs tokens budget limit (live_invariant _ _ _ _ Hl)) as [Hv Hnv].
  destruct (decide (valid_round tokens budget limit)) as [Hval|Hval].
  - specialize (Hv Hval). rewrite E in Hv. destruct Hv as [-> Hk]. split; [done|]. by right.
  - rewrite (Hnv Hval) in E. injection E as <- <-. split; [done|]. by left.
Qed.

Lemma cancel_run start s toks outs reason :
  live start s toks outs -> reason <> FR_None -> reason <> FR_StopString -> reason <> StopToken ->
  exists s1 out s2, session_preview_terminal reason s = (Ok (mkDecision 0 reason), s1) /\
    session_commit_preview s1 = (Ok out, s2) /\ terminal (ses_state s2) = true /\
    final_texts (preserve_special s) start (out_text outs) toks out.
Proof.
  intros Hl H1 H2 H3. destruct (live_invariant _ _ _ _ Hl) as (Hpol & Hpre & HPI).
  destruct (terminalize_PI _ _ _ _ _ _ _ 0 HPI) as (st & out & Et & Ht & Hf). destruct HPI as (_ & _ & _ & Hterm).
  exists (set_ses_preview (Some (st, out)) s), out, (set_ses_preview None (set_ses_state st (set_ses_preview (Some (st, out)) s))).
  split; [|done]. unfold session_preview_terminal, mbind_, mget, mthrow_if, mlift. rewrite Hterm, Hpre. cbn [is_some throw_if].
  rewrite !bool_decide_eq_false_2 by done. cbn [orb throw_if]. by rewrite Et.
Qed.

(** an open session can always be ended from outside; what was held back is then published. *)
Theorem session_cancel_flushes start s toks outs reason :
  live start s toks outs -> reason <> FR_None -> reason <> FR_StopString -> reason <> StopToken ->
  exists s1 out s2, session_preview_terminal reason s = (Ok (mkDecision 0 reason), s1) /\
    session_commit_preview s1 = (Ok out, s2) /\ terminal (ses_state s2) = true /\
    exists text, final_text (preserve_special s) toks = Ok text /\
      forall ch, out_text (outs ++ out) ch = channel_text start text ch.
Proof.
  intros Hl H1 H2 H3. destruct (cancel_run _ _ _ _ reason Hl H1 H2 H3) as (s1 & out & s2 & E1 & E2 & Ht & text & Hf & Hx).
  exists s1, out, s2. split_and!; try done. exists text. split; [done|]. intros ch. rewrite out_text_app. apply Hx.
Qed.

(** ** What the executor relies on *)

(** A match that is found counts the token it was found with. *)
Definition counted (committed : Z) (f : Feed) : Prop :=
  forall b, f.2 = Some b -> found b = true -> committed_tokens b = committed.

Lemma match_stops_counted ch combined start emitted committed decl stops best b :
  (found best = true -> committed_tokens best = committed) ->
  match_stops ch combined start emitted committed decl stops best = Ok b -> found b = true -> committed_tokens b = committed.
Proof.
  revert decl best. induction stops as [|s stops IH]; intros decl best Hb; cbn [match_stops]; [by intros [= <-]|].
  destruct (negb _); [by apply IH|]. destruct (find_sub _ _) as [at_|]; [|by apply IH].
  destruct (negb (stop_match_precedes _ _ _ _)); [by apply IH|]. destruct (append_delta _ _ _); cbn [rbind]; [|done].
  destruct (if include_in_output s then _ else _); cbn [rbind]; [|done]. by apply IH.
Qed.

Lemma feed_channel_counted policy committed ch text f f' :
  counted committed f -> feed_channel policy committed ch text f = Ok f' -> counted committed f'.
Proof.
  unfold feed_channel. case_bool_decide; [by intros Hf [= <-]|]. destruct f as [[st out] best]. intros Hc.
  assert (forall b', (match best with None => Ok None | Some b =>
      let* b := match_stops ch (stop_pending st ch ++ text) (decoded_bytes st - Z.of_nat (length (stop_pending st ch)))
                  out committed 0 (strings policy) b in Ok (Some b) end) = Ok b' ->
    forall b, b' = Some b -> found b = true -> committed_tokens b = committed) as Hm.
  { intros b'. destruct best as [b|]; [|by intros [= <-]]. destruct (match_stops _ _ _ _ _ _ _ _) eqn:Em; cbn [rbind]; [|done].
    intros [= <-] b0 [= <-]. eapply match_stops_counted; [|done]. by apply (Hc b). }
  destruct (match best with None => _ | Some _ => _ end) as [b'|]; cbn [rbind]; [|done].
  destruct (append_delta _ _ _); cbn [rbind]; [|done]. intros [= <-]. exact (Hm _ eq_refl).
Qed.

Lemma feed_content_counted policy committed text f f' :
  counted committed f -> feed_content policy committed text f = Ok f' -> counted committed f'.
Proof.
  destruct f as [[st out] best]. intros Hc. rewrite feed_content_eq. apply feed_channel_counted. exact Hc.
Qed.

Lemma feed_token_bytes_counted policy committed bytes f f' :
  counted committed f -> feed_token_bytes policy committed bytes f = Ok f' -> counted committed f'.
Proof.
  unfold feed_token_bytes. destruct f as [[st out] best]. intros Hc. destruct (valid_utf8_prefix_size _) as [n|]; cbn [rbind]; [|done].
  destruct (n =? 0)%nat; [by intros [= <-]|]. unfold feed_decoded_text. destruct (negb _); [by apply feed_content_counted|].
  destruct (find_sub _ _) as [m|].
  - destruct (feed_channel _ _ _ _ _) as [f1|] eqn:E1; cbn [rbind]; [|done]. apply feed_channel_counted in E1; [|exact Hc].
    destruct f1 as [[st1 out1] b1]. cbn [close_channel]. destruct (append_delta _ _ _); cbn [rbind]; [|done].
    apply feed_content_counted. exact E1.
  - destruct (feed_channel _ _ _ _ _) as [f1|] eqn:E1; cbn [rbind]; [|done]. apply feed_channel_counted in E1; [|exact Hc].
    destruct f1 as [[st1 out1] b1]. cbn [rbind]. intros [= <-]. exact E1.
Qed.

Lemma preview_tokens_counted policy preserve count tokens st out st' out' d :
  0 <= count -> preview_tokens policy preserve count tokens st out = Ok (inl (st', out', d)) -> 0 <= accepted_tokens d.
Proof.
  revert count st out. induction tokens as [|t tokens IH]; intros count st out Hc; cbn [preview_tokens]; [done|].
  destruct (preview_token _ _ _ _ _ _) as [[[[st1 out1] d1]|[st1 out1]]|] eqn:E; cbn [rbind]; [|apply IH; lia|done].
  intros [= <- <- <-]. unfold preview_token in E. destruct (throw_if _ _); cbn [rbind] in E; [|done].
  destruct (decode_token_bytes _ _); cbn [rbind] in E; [|done]. destruct (feed_token_bytes _ _ _ _) as [[[st2 out2] best]|] eqn:Ef; cbn [rbind] in E; [|done].
  apply feed_token_bytes_counted in Ef; [|by intros b [= <-]]. destruct best as [m|]; [|done].
  destruct (found m) eqn:Hm.
  - injection E as <- <- <-. cbn. rewrite (Ef m) by done. lia.
  - destruct (existsb _ _); [|done]. destruct (if publish_stop_token policy then _ else _).
    destruct (terminalize _ _ _ _); cbn [rbind] in E; [|done]. injection E as _ <-. cbn. lia.
Qed.

Lemma session_count tokens budget limit s d s' :
  session_preview tokens budget limit s = (Ok d, s') -> 0 <= accepted_tokens d.
Proof.
  unfold session_preview, mbind_, mget, mthrow_if, mlift. repeat (destruct (throw_if _ _); [|done]).
  destruct (preview_tokens _ _ _ _ _ _) as [[[[st out] d1]|[st out]]|] eqn:E; [| |done].
  - intros [= <- _]. by eapply preview_tokens_counted.
  - destruct (_ =? _); [|intros [= <- _]; cbn; lia]. destruct (terminalize _ _ _ _); [|done]. intros [= <- _]. cbn. lia.
Qed.

(** The frontend's sessions are what the executor relies on. *)
#[export] Instance frontend_laws : OutputSessionLaws (OS := frontend_session).
Proof.
  refine {| os_ready := fun s : @os_state frontend_session => exists start toks outs, live start s toks outs |}.
  - apply session_count.
  - intros s (start & toks & outs & Hl).
    destruct (cancel_run start s toks outs FR_Cancelled Hl) as (s1 & out & s2 & E1 & E2 & _); [done..|].
    by exists (mkDecision 0 FR_Cancelled), s1, out, s2.
Defined.

Lemma made_ready prompt caller raw special s :
  make_output_session prompt caller raw special = Ok s -> os_ready (OS := frontend_session) s.
Proof. intros Hm. exists (in_reasoning (ses_state s)), [], []. by eapply live_start. Qed.
End Live.

(** ** A session *)

Module Sample.

(** Tokens are bytes; 256 ends the generation. *)
#[export] Instance bytes_decoder : TokenDecoder := {
  is_valid_token := fun t => (0 <=? t) && (t <=? 256);
  decode_token_bytes := fun t _ => Ok (if t =? 256 then [] else [t]);
  default_stop_token_ids := [256];
}.

(** Stop at "END" in the content. *)
Definition stop : StopPolicy := mkStopPolicy [] [mkStopString [69; 78; 68] Content false] true false.
Definition dummy : Session := make_session stop false false true.
Definition run {A} (m : M Session A) (s : Session) : Session := (m s).2.
Definition value {A} (d : A) (m : M Session A) (s : Session) : A := match (m s).1 with Ok a => a | Err _ => d end.
Lemma session_run_ok {A} (d : A) (m : M Session A) s : (m s).1 = Ok (value d m s) -> m s = (Ok (value d m s), run m s).
Proof. unfold value, run. destruct (m s) as [[] ?]; cbn; [done|discriminate]. Qed.

Definition s0 : Session := match make_output_session (Some true) stop false false with Ok s => s | Err _ => dummy end.
(** "hm</thi", then "nk> aE". *)
Definition round1 : list Z := [104; 109; 60; 47; 116; 104; 105].
Definition round2 : list Z := [110; 107; 62; 32; 97; 69].
Definition s1 : Session := run (session_preview round1 40 OutputLimit) s0.
Definition s2 : Session := run session_commit_preview s1.
Definition s3 : Session := run (session_preview round2 30 OutputLimit) s2.
Definition s4 : Session := run session_commit_preview s3.

Lemma s4_live : live true s4 ([] ++ round1 ++ round2) [mkDelta Reasoning [104; 109]; mkDelta Content [97]].
Proof.
  pose proof (live_start true (Some true) stop false false s0 eq_refl eq_refl) as H.
  eapply (live_round true s0 [] [] round1 40 OutputLimit (mkDecision 7 FR_None) s1 [mkDelta Reasoning [104; 109]] s2) in H;
    [|by vm_compute..].
  by eapply (live_round true s2 _ _ round2 30 OutputLimit (mkDecision 6 FR_None) s3 [mkDelta Content [97]] s4) in H;
    [|vm_compute..].
Qed.

(** The next round is "E" and the end of the generation, or "NDx". *)
Definition s5 : Session := run (session_preview [69; 256] 10 OutputLimit) s4.
Definition s6 : Session := run session_commit_preview s5.
Definition t5 : Session := run (session_preview [78; 68; 120] 10 OutputLimit) s4.
Definition t6 : Session := run session_commit_preview t5.

Lemma session_text_exact_witness : exists text,
  final_text false (round1 ++ round2 ++ [69]) = Ok text /\
  forall ch, out_text [mkDelta Reasoning [104; 109]; mkDelta Content [97]; mkDelta Content [69; 69]] ch = channel_text true text ch.
Proof.
  apply (session_text_exact true s4 _ [mkDelta Reasoning [104; 109]; mkDelta Content [97]] [69; 256] 10 OutputLimit
    (mkDecision 2 StopToken) s5 [mkDelta Content [69; 69]] s6 s4_live); [vm_compute; reflexivity..|discriminate|discriminate].
Defined.

Lemma session_stop_string_exact_witness :
  exists full pend, stream false (round1 ++ round2 ++ [78; 68]) = Ok (full, pend) /\
   ((exists stop' i, let ch := ss_channel stop' in stop' ∈ strings (ses_policy s4) /\ occurs (ss_text stop') (seen_text true full ch) i /\
      (forall stop2 j, stop2 ∈ strings (ses_policy s4) -> ss_channel stop2 = ch -> occurs (ss_text stop2) (seen_text true full ch) j -> (i <= j)%nat) /\
      out_text [mkDelta Reasoning [104; 109]; mkDelta Content [97]] ch =
        take i (seen_text true full ch) ++ (if include_in_output stop' then ss_text stop' else []) /\
      match ch with
      | Content => out_text [mkDelta Reasoning [104; 109]; mkDelta Content [97]] Reasoning = seen_text true full Reasoning
      | Reasoning => out_text [mkDelta Reasoning [104; 109]; mkDelta Content [97]] Content = []
      end) /\
    (exists full0 pend0, stream false (round1 ++ round2 ++ [78]) = Ok (full0, pend0) /\ clear (ses_policy s4) true full0)).
Proof.
  apply (session_stop_string_exact true s4 _ [mkDelta Reasoning [104; 109]; mkDelta Content [97]] [78; 68; 120] 10 OutputLimit
    (mkDecision 2 FR_StopString) t5 [] t6 s4_live); vm_compute; reflexivity.
Defined.

Lemma session_decision_bounds_witness :
  1 <= 2 <= 2 /\ 2 <= 10 /\ (forall t, t ∈ [69] -> t ∉ [256]) /\ terminal (ses_state s6) = true /\
  exists t, [69; 256] !! 1%nat = Some t /\ t ∈ [256].
Proof.
  apply (session_decision_bounds true s4 _ _ [69; 256] 10 OutputLimit
    (mkDecision 2 StopToken) s5 [mkDelta Content [69; 69]] s6 s4_live); vm_compute; reflexivity.
Defined.

(** A byte that cannot begin a sequence. *)
Lemma session_preview_fails_atomically_witness :
  s4 = s4 /\ (InvalidArgument = InvalidArgument /\ ~ valid_round [65; 255] 10 OutputLimit \/
    exists k, (k < 2)%nat /\ stream false ((round1 ++ round2) ++ take (S k) [65; 255]) = Err InvalidArgument).
Proof.
  apply (session_preview_fails_atomically true s4 _ _ [65; 255] 10 OutputLimit InvalidArgument s4 s4_live).
  vm_compute. reflexivity.
Defined.

Lemma session_cancel_flushes_witness : exists s1 out s2,
  session_preview_terminal FR_Cancelled s4 = (Ok (mkDecision 0 FR_Cancelled), s1) /\
  session_commit_preview s1 = (Ok out, s2) /\ terminal (ses_state s2) = true /\
  exists text, final_text (preserve_special s4) (round1 ++ round2) = Ok text /\
    forall ch, out_text ([mkDelta Reasoning [104; 109]; mkDelta Content [97]] ++ out) ch = channel_text true text ch.
Proof.
  apply (session_cancel_flushes true s4 _ [mkDelta Reasoning [104; 109]; mkDelta Content [97]] FR_Cancelled s4_live); discriminate.
Defined.
End Sample.
