(* ===== verification/Tokenizer.v ===== *)
(** * The tokenizer: [targets/qwen3_6/impl/frontend/tokenizer.cpp]

    Strings are lists of bytes.  The tokenizer is built from the values of its JSON files ([Json],
    nlohmann's values with objects in key order); parsing a JSON text is a parameter. *)
From Stdlib Require Import Strings.String Strings.Ascii.
From stdpp Require Import gmap sorting.
From S2P Require Import Prelude Unicode Admission Capacity Contract Output.
#[local] Open Scope Z_scope.

Definition bytes_of (s : string) : list Z := map (fun a => Z.of_nat (nat_of_ascii a)) (list_ascii_of_string s).

(** ** JSON values *)

Inductive Json : Type :=
| JNull
| JBool (b : bool)
| JInteger (i : Z)      (**r [number_integer]: an [int64_t] *)
| JUnsigned (u : Z)     (**r [number_unsigned]: an [uint64_t] *)
| JFloat (bits : Z)     (**r [number_float]: the bit pattern of the [double] *)
| JString (s : list Z)
| JArray (items : list Json)
| JObject (items : list (list Z * Json)).

(** [object.contains(field)] and [object.at(field)]. *)
Fixpoint json_find (field : list Z) (items : list (list Z * Json)) : option Json :=
  match items with
  | [] => None
  | (key, value) :: items' => if bool_decide (key = field) then Some value else json_find field items'
  end.
Definition json_field (object : Json) (field : list Z) : option Json :=
  match object with JObject items => json_find field items | _ => None end.

Definition require_object_field (object : Json) (field : list Z) : result (list (list Z * Json)) :=
  match json_field object field with Some (JObject items) => Ok items | _ => Err InvalidArgument end.
Definition require_array_field (object : Json) (field : list Z) : result (list Json) :=
  match json_field object field with Some (JArray items) => Ok items | _ => Err InvalidArgument end.
Definition require_string_field (object : Json) (field : list Z) : result (list Z) :=
  match json_field object field with Some (JString s) => Ok s | _ => Err InvalidArgument end.
Definition require_bool_field (object : Json) (field : list Z) : result bool :=
  match json_field object field with Some (JBool b) => Ok b | _ => Err InvalidArgument end.

Definition kMaxTokenId : Z := 1000000.

Definition parse_token_id (value : Json) : result Z :=
  match value with
  | JUnsigned id => do* throw_if (id >? kMaxTokenId) InvalidArgument; Ok id
  | JInteger id =>
      do* throw_if (id <? 0) InvalidArgument;
      do* throw_if (id >? kMaxTokenId) InvalidArgument;
      Ok id
  | _ => Err InvalidArgument
  end.

(** ** Containers *)

(** [vector::at] as the target of an assignment, and [vector::resize] upwards. *)
Definition set_at {A} (i : Z) (x : A) (l : list A) : result (list A) :=
  if (0 <=? i) && (i <? Z.of_nat (length l)) then Ok (<[Z.to_nat i := x]> l) else Err OutOfRange.
Definition grow {A} (n : nat) (x : A) (l : list A) : list A := l ++ replicate (n - length l) x.
(** [unordered_map::emplace]: the entry that is there stays. *)
Definition emplace {A} (k : list Z) (x : A) (m : gmap (list Z) A) : gmap (list Z) A :=
  match m !! k with Some _ => m | None => <[k := x]> m end.

(** ** Loading *)

Record VocabMetadata : Type := mkVocab {
  vm_id_to_token : list (list Z);
  vm_token_to_id : gmap (list Z) Z;
  vm_occupied_ids : gset Z;
}.

(** The two loops of [load_vocab]. *)
Fixpoint vocab_ids (items : list (list Z * Json)) (occupied : gset Z) (max_id : Z) : result (gset Z * Z) :=
  match items with
  | [] => Ok (occupied, max_id)
  | (_, value) :: items' =>
      let* id := parse_token_id value in
      do* throw_if (bool_decide (id ∈ occupied)) InvalidArgument;
      vocab_ids items' ({[id]} ∪ occupied) (Z.max max_id id)
  end.
Fixpoint vocab_tokens (items : list (list Z * Json)) (id_to_token : list (list Z)) (token_to_id : gmap (list Z) Z)
  : result (list (list Z) * gmap (list Z) Z) :=
  match items with
  | [] => Ok (id_to_token, token_to_id)
  | (key, value) :: items' =>
      let* id := parse_token_id value in
      let* id_to_token := set_at id key id_to_token in
      vocab_tokens items' id_to_token (emplace key id token_to_id)
  end.
Definition load_vocab (model : Json) : result VocabMetadata :=
  do* throw_if (match json_field model (bytes_of "type") with
                | Some (JString s) => negb (bool_decide (s = bytes_of "BPE"))
                | _ => true
                end) InvalidArgument;
  let* vocab := require_object_field model (bytes_of "vocab") in
  do* throw_if (bool_decide (length vocab = 0%nat)) InvalidArgument;
  let* ids := vocab_ids vocab ∅ (-1) in
  let '(occupied_ids, max_id) := ids in
  let* maps := vocab_tokens vocab (replicate (Z.to_nat (max_id + 1)) []) ∅ in
  Ok (mkVocab maps.1 maps.2 occupied_ids).

Record AddedToken : Set := mkAdded {
  at_id : Z; at_content : list Z; at_single_word : bool; at_lstrip : bool; at_rstrip : bool;
  at_normalized : bool; at_special : bool;
}.
#[export] Instance AddedToken_eq_dec : EqDecision AddedToken.
Proof. solve_decision. Defined.

Definition parse_added_token_decoder_entry (id : Z) (item : Json) : result AddedToken :=
  do* throw_if (match item with JObject _ => false | _ => true end) InvalidArgument;
  let* content := require_string_field item (bytes_of "content") in
  let* single_word := require_bool_field item (bytes_of "single_word") in
  let* lstrip := require_bool_field item (bytes_of "lstrip") in
  let* rstrip := require_bool_field item (bytes_of "rstrip") in
  let* normalized := require_bool_field item (bytes_of "normalized") in
  let* special := require_bool_field item (bytes_of "special") in
  Ok (mkAdded id content single_word lstrip rstrip normalized special).
Definition parse_added_token (item : Json) : result AddedToken :=
  do* throw_if (match item with JObject _ => false | _ => true end) InvalidArgument;
  match json_field item (bytes_of "id") with
  | None => Err InvalidArgument
  | Some value =>
      let* id := parse_token_id value in
      parse_added_token_decoder_entry id item
  end.

Definition validate_supported_added_token (token : AddedToken) : result unit :=
  do* throw_if (bool_decide (at_content token = [])) InvalidArgument;
  throw_if (at_single_word token || at_lstrip token || at_rstrip token || at_normalized token) InvalidArgument.

Definition same_added_token (lhs rhs : AddedToken) : bool :=
  (at_id lhs =? at_id rhs) && bool_decide (at_content lhs = at_content rhs) &&
  Bool.eqb (at_single_word lhs) (at_single_word rhs) && Bool.eqb (at_lstrip lhs) (at_lstrip rhs) &&
  Bool.eqb (at_rstrip lhs) (at_rstrip rhs) && Bool.eqb (at_normalized lhs) (at_normalized rhs) &&
  Bool.eqb (at_special lhs) (at_special rhs).

(** [load_added_tokens] *)
Fixpoint load_added_tokens_from (added : list Json) (occupied_vocab_ids : gset Z)
    (occupied_vocab_tokens : gmap (list Z) Z) (seen_added_ids : gset Z) (seen_added_contents : gmap (list Z) Z)
    (tokens : list AddedToken) (id_to_token : list (list Z)) : result (list AddedToken * list (list Z)) :=
  match added with
  | [] => Ok (tokens, id_to_token)
  | item :: added' =>
      let* token := parse_added_token item in
      let* _ := validate_supported_added_token token in
      do* throw_if (bool_decide (at_id token ∈ occupied_vocab_ids)) InvalidArgument;
      do* throw_if (bool_decide (at_id token ∈ seen_added_ids)) InvalidArgument;
      do* throw_if (is_some (occupied_vocab_tokens !! at_content token) ||
                    is_some (seen_added_contents !! at_content token)) InvalidArgument;
      let index := Z.to_nat (at_id token) in
      let id_to_token := if (length id_to_token <=? index)%nat then grow (index + 1) [] id_to_token else id_to_token in
      let* id_to_token := set_at (at_id token) (at_content token) id_to_token in
      load_added_tokens_from added' occupied_vocab_ids occupied_vocab_tokens ({[at_id token]} ∪ seen_added_ids)
        (emplace (at_content token) (at_id token) seen_added_contents) (tokens ++ [token]) id_to_token
  end.
Definition load_added_tokens (root : Json) (id_to_token : list (list Z)) (occupied_vocab_ids : gset Z)
    (occupied_vocab_tokens : gmap (list Z) Z) : result (list AddedToken * list (list Z)) :=
  let* added := require_array_field root (bytes_of "added_tokens") in
  load_added_tokens_from added occupied_vocab_ids occupied_vocab_tokens ∅ ∅ [] id_to_token.

(** [std::from_chars] on a decimal [int64_t]: the value and what follows it. *)
Definition is_digit (b : Z) : bool := (48 <=? b) && (b <=? 57).
Fixpoint digits (s : list Z) (value : Z) : Z * list Z :=
  match s with
  | b :: s' => if is_digit b then digits s' (value * 10 + (b - 48)) else (value, s)
  | [] => (value, [])
  end.
Definition from_chars (s : list Z) : option (Z * list Z) :=
  let '(negative, s) := match s with b :: s' => if b =? 45 then (true, s') else (false, s) | [] => (false, s) end in
  match s with
  | b :: _ =>
      if is_digit b then
        let '(value, rest) := digits s 0 in
        let value := if negative then - value else value in
        if (- 2 ^ 63 <=? value) && (value <? 2 ^ 63) then Some (value, rest) else None
      else None
  | [] => None
  end.
(** [std::to_string] of a number that is not negative; [fuel] bounds its digits. *)
Fixpoint to_string_from (fuel : nat) (value : Z) (suffix : list Z) : list Z :=
  match fuel with
  | O => suffix
  | S fuel' => let suffix := (48 + value mod 10) :: suffix in
               if value <? 10 then suffix else to_string_from fuel' (value / 10) suffix
  end.
Definition to_string (value : Z) : list Z := to_string_from 20 value [].

Definition parse_added_token_decoder_id (key : list Z) : result Z :=
  match from_chars key with
  | Some (parsed, []) =>
      do* throw_if ((parsed <? 0) || (parsed >? kMaxTokenId) || negb (bool_decide (to_string parsed = key))) InvalidArgument;
      Ok parsed
  | _ => Err InvalidArgument
  end.

(** [merge_added_tokens_decoder] *)
Fixpoint merge_decoder_from (items : list (list Z * Json)) (occupied_vocab_ids : gset Z)
    (occupied_vocab_tokens : gmap (list Z) Z) (decoder_ids : gset Z) (token_by_id : gmap Z nat)
    (token_by_content : gmap (list Z) Z) (tokens : list AddedToken) (id_to_token : list (list Z))
  : result (list AddedToken * list (list Z)) :=
  match items with
  | [] => Ok (tokens, id_to_token)
  | (key, value) :: items' =>
      let* id := parse_added_token_decoder_id key in
      do* throw_if (bool_decide (id ∈ decoder_ids)) InvalidArgument;
      let decoder_ids := {[id]} ∪ decoder_ids in
      let* token := parse_added_token_decoder_entry id value in
      let* _ := validate_supported_added_token token in
      match token_by_id !! id with
      | Some index =>
          match tokens !! index with
          | None => Err OutOfRange
          | Some existing =>
              do* throw_if (negb (same_added_token existing token)) InvalidArgument;
              merge_decoder_from items' occupied_vocab_ids occupied_vocab_tokens decoder_ids token_by_id
                token_by_content tokens id_to_token
          end
      | None =>
          do* throw_if (bool_decide (id ∈ occupied_vocab_ids)) InvalidArgument;
          do* throw_if (is_some (token_by_content !! at_content token) ||
                        is_some (occupied_vocab_tokens !! at_content token)) InvalidArgument;
          let index := Z.to_nat id in
          let id_to_token := if (length id_to_token <=? index)%nat then grow (index + 1) [] id_to_token else id_to_token in
          do* throw_if (negb (bool_decide (id_to_token !! index = Some []))) InvalidArgument;
          let id_to_token := <[index := at_content token]> id_to_token in
          merge_decoder_from items' occupied_vocab_ids occupied_vocab_tokens decoder_ids
            (match token_by_id !! id with Some _ => token_by_id | None => <[id := length tokens]> token_by_id end)
            (emplace (at_content token) id token_by_content) (tokens ++ [token]) id_to_token
      end
  end.
Fixpoint index_tokens (index : nat) (tokens : list AddedToken) (by_id : gmap Z nat) (by_content : gmap (list Z) Z)
  : gmap Z nat * gmap (list Z) Z :=
  match tokens with
  | [] => (by_id, by_content)
  | token :: tokens' =>
      index_tokens (S index) tokens'
        (match by_id !! at_id token with Some _ => by_id | None => <[at_id token := index]> by_id end)
        (emplace (at_content token) (at_id token) by_content)
  end.
Definition id_le (lhs rhs : AddedToken) : Prop := at_id lhs <= at_id rhs.
#[export] Instance id_le_dec lhs rhs : Decision (id_le lhs rhs).
Proof. unfold id_le. apply _. Defined.
Definition merge_added_tokens_decoder (root : Json) (id_to_token : list (list Z)) (occupied_vocab_ids : gset Z)
    (occupied_vocab_tokens : gmap (list Z) Z) (tokens : list AddedToken) : result (list AddedToken * list (list Z)) :=
  let* decoder := require_object_field root (bytes_of "added_tokens_decoder") in
  let '(by_id, by_content) := index_tokens 0 tokens ∅ ∅ in
  let* r := merge_decoder_from decoder occupied_vocab_ids occupied_vocab_tokens ∅ by_id by_content tokens id_to_token in
  Ok (merge_sort id_le r.1, r.2).

(** [load_default_stop_token_ids], of the parsed file. *)
Definition load_default_stop_token_ids (root : Json) : result (list Z) :=
  match json_field root (bytes_of "eos_token_id") with
  | Some (JArray items) =>
      do* throw_if (bool_decide (length items = 0%nat)) InvalidArgument;
      rmapM parse_token_id items
  | Some (JInteger i) => let* id := parse_token_id (JInteger i) in Ok [id]
  | Some (JUnsigned u) => let* id := parse_token_id (JUnsigned u) in Ok [id]
  | _ => Err InvalidArgument
  end.

Definition merge_pair_key (l r : list Z) : list Z := l ++ [0] ++ r.

(** [load_bpe_merge_ranks]; a pair given as one string is cut at its only space. *)
Definition merge_entry (item : Json) : result (list Z * list Z) :=
  match item with
  | JArray [JString l; JString r] => Ok (l, r)
  | JString text =>
      match find_sub [32] text with
      | None => Err InvalidArgument
      | Some space =>
          do* throw_if ((space =? 0)%nat || (length text <=? space + 1)%nat ||
                        is_some (find_sub [32] (drop (space + 1) text))) InvalidArgument;
          Ok (take space text, drop (space + 1) text)
      end
  | _ => Err InvalidArgument
  end.
Fixpoint merge_ranks_from (merges : list Json) (ranks : gmap (list Z) Z) (rank : Z) : result (gmap (list Z) Z) :=
  match merges with
  | [] => Ok ranks
  | item :: merges' =>
      let* entry := merge_entry item in
      let key := merge_pair_key entry.1 entry.2 in
      do* throw_if (is_some (ranks !! key)) InvalidArgument;
      merge_ranks_from merges' (<[key := rank]> ranks) (rank + 1)
  end.
Definition load_bpe_merge_ranks (model : Json) : result (gmap (list Z) Z) :=
  let* merges := require_array_field model (bytes_of "merges") in
  merge_ranks_from merges ∅ 0.

Record Tokenizer : Type := mkTokenizer {
  id_to_token_ : list (list Z);
  valid_token_ids_ : list bool;
  vocab_token_to_id_ : gmap (list Z) Z;
  bpe_merge_ranks_ : gmap (list Z) Z;
  has_bpe_merges_ : bool;
  added_tokens_ : list AddedToken;
  added_token_candidates_ : gmap Z (list nat);   (**r by the first byte; no entry is the empty vector *)
  default_stop_token_ids_ : list Z;
}.

(** The candidates of a byte, in the order of [added_tokens_]. *)
Fixpoint build_candidates (index : nat) (tokens : list AddedToken) (m : gmap Z (list nat)) : gmap Z (list nat) :=
  match tokens with
  | [] => m
  | token :: tokens' =>
      build_candidates (S index) tokens'
        (match at_content token with
         | [] => m
         | front :: _ => <[front := default [] (m !! front) ++ [index]]> m
         end)
  end.
Fixpoint mark_valid (ids : list Z) (valid : list bool) : result (list bool) :=
  match ids with
  | [] => Ok valid
  | id :: ids' => let* valid := set_at id true valid in mark_valid ids' valid
  end.

(** [Tokenizer::Tokenizer]; the files are given by their texts. *)
Definition make_tokenizer (json_parse : list Z -> option Json)
    (tokenizer_json tokenizer_config_json generation_config_json : list Z) : result Tokenizer :=
  let read_json_asset contents := match json_parse contents with Some j => Ok j | None => Err InvalidArgument end in
  do* throw_if (bool_decide (tokenizer_json = []) || bool_decide (tokenizer_config_json = []) ||
                bool_decide (generation_config_json = [])) InvalidArgument;
  let* root := read_json_asset tokenizer_json in
  let* tokenizer_config := read_json_asset tokenizer_config_json in
  let* model := require_object_field root (bytes_of "model") in
  let* vocab := load_vocab (JObject model) in
  let* valid := mark_valid (elements (vm_occupied_ids vocab)) (replicate (length (vm_id_to_token vocab)) false) in
  let* added := load_added_tokens root (vm_id_to_token vocab) (vm_occupied_ids vocab) (vm_token_to_id vocab) in
  let* merged := merge_added_tokens_decoder tokenizer_config added.2 (vm_occupied_ids vocab) (vm_token_to_id vocab) added.1 in
  let '(added_tokens, id_to_token) := merged in
  let candidates := build_candidates 0 added_tokens ∅ in
  let valid := if (length valid <? length id_to_token)%nat then grow (length id_to_token) false valid else valid in
  let* valid := mark_valid (map at_id added_tokens) valid in
  let* ranks := load_bpe_merge_ranks (JObject model) in
  let* generation := read_json_asset generation_config_json in
  let* stops := load_default_stop_token_ids generation in
  Ok (mkTokenizer id_to_token valid (vm_token_to_id vocab) ranks true added_tokens candidates stops).

(** ** Bytes as characters *)

Definition visible (byte : Z) : bool :=
  ((33 <=? byte) && (byte <=? 126)) || ((161 <=? byte) && (byte <=? 172)) || ((174 <=? byte) && (byte <=? 255)).

(** The bytes [byte ..] of the loops that build the two tables, [next] the next codepoint of a byte
    that is not visible. *)
Fixpoint decoder_from (count : nat) (byte next : Z) (decoder : gmap Z Z) : gmap Z Z :=
  match count with
  | O => decoder
  | S count' =>
      let codepoint := if visible byte then byte else next in
      let next := if visible byte then next else next + 1 in
      decoder_from count' (byte + 1) next
        (match decoder !! codepoint with Some _ => decoder | None => <[codepoint := byte]> decoder end)
  end.
Definition build_byte_level_decoder : gmap Z Z := decoder_from 256 0 256 ∅.

Fixpoint encoder_from (count : nat) (byte next : Z) (encoder : gmap Z (list Z)) : result (gmap Z (list Z)) :=
  match count with
  | O => Ok encoder
  | S count' =>
      let codepoint := if visible byte then byte else next in
      let next := if visible byte then next else next + 1 in
      let* text := codepoint_to_utf8 codepoint in
      encoder_from count' (byte + 1) next
        (match encoder !! byte with Some _ => encoder | None => <[byte := text]> encoder end)
  end.
Definition build_byte_level_encoder : result (gmap Z (list Z)) := encoder_from 256 0 256 ∅.

(** [byte_level_encode], with the table [byte_encoder]. *)
Fixpoint byte_level_encode_from (encoder : gmap Z (list Z)) (text : list Z) : result (list Z) :=
  match text with
  | [] => Ok []
  | byte :: text' =>
      match encoder !! byte with
      | None => Err OutOfRange
      | Some encoded => let* rest := byte_level_encode_from encoder text' in Ok (encoded ++ rest)
      end
  end.
Definition byte_level_encode (text : list Z) : result (list Z) :=
  let* encoder := build_byte_level_encoder in byte_level_encode_from encoder text.

(** [substr]; it is only called with positions inside the text. *)
Definition substr (text : list Z) (pos count : nat) : list Z := take count (drop pos text).

Definition byte_level_symbols (text : list Z) : result (list (list Z)) :=
  let* spans := utf8_codepoints text in
  Ok (map (fun span => substr text (sp_offset span) (sp_length span)) spans).

(** ** Words *)

Section Words.
Context `{CharacterTables}.

Definition is_newline (codepoint : Z) : bool := (codepoint =? 13) || (codepoint =? 10).
Definition is_letter_or_mark (codepoint : Z) : bool := is_letter codepoint || is_mark codepoint.
Definition is_non_newline_non_letter_non_number (codepoint : Z) : bool :=
  negb (is_newline codepoint) && negb (is_letter codepoint) && negb (is_number codepoint).
Definition is_non_space_non_letter_mark_number (codepoint : Z) : bool :=
  negb (is_whitespace codepoint) && negb (is_letter codepoint) && negb (is_mark codepoint) && negb (is_number codepoint).

(** [std::tolower] in the C locale. *)
Definition tolower (b : Z) : Z := if (65 <=? b) && (b <=? 90) then b + 32 else b.
Definition ascii_ci_matches (text : list Z) (offset : nat) (suffix : list Z) : bool :=
  if (length text <? offset + length suffix)%nat then false
  else bool_decide (map tolower (substr text offset (length suffix)) = map tolower suffix).

(** Positions in the vector of spans are its suffixes: [spans[i]] is the head of the suffix at [i]. *)
Definition span_end_offset (text : list Z) (spans : list CodepointSpan) : nat :=
  match spans with [] => length text | span :: _ => sp_offset span end.

(** [while (end < spans.size() && p(spans[end])) { ++end; }] *)
Fixpoint skip_while (p : CodepointSpan -> bool) (spans : list CodepointSpan) : list CodepointSpan :=
  match spans with
  | span :: spans' => if p span then skip_while p spans' else spans
  | [] => []
  end.

Definition kSuffixes : list (list Z) :=
  [bytes_of "s"; bytes_of "t"; bytes_of "re"; bytes_of "ve"; bytes_of "m"; bytes_of "ll"; bytes_of "d"].

(** The loop over white space: where it ends and what follows its last newline. *)
Fixpoint whitespace_run (spans : list CodepointSpan) (after_newline : option (list CodepointSpan))
  : list CodepointSpan * option (list CodepointSpan) :=
  match spans with
  | [] => ([], after_newline)
  | span :: spans' =>
      if is_whitespace (sp_value span)
      then whitespace_run spans' (if is_newline (sp_value span) then Some spans' else after_newline)
      else (spans, after_newline)
  end.

(** One pass of [qwen_split_words] at the span [span]: the word and the spans after it. *)
Definition next_word (text : list Z) (span : CodepointSpan) (rest : list CodepointSpan)
  : list Z * list CodepointSpan :=
  let spans := span :: rest in
  let begin_offset := sp_offset span in
  let cp := sp_value span in
  let word_until end_ := (substr text begin_offset (span_end_offset text end_ - begin_offset), end_) in
  let contraction :=
    if cp =? 39 then list_find (fun suffix => ascii_ci_matches text (begin_offset + 1) suffix) kSuffixes else None in
  match contraction with
  | Some (_, suffix) =>
      word_until (skip_while (fun s => (sp_offset s <? begin_offset + 1 + length suffix)%nat) rest)
  | None =>
  if is_letter_or_mark cp ||
     (is_non_newline_non_letter_non_number cp &&
      match rest with next :: _ => is_letter_or_mark (sp_value next) | [] => false end) then
    word_until (skip_while (fun s => is_letter_or_mark (sp_value s)) (if negb (is_letter_or_mark cp) then rest else spans))
  else if is_number cp then (substr text begin_offset (sp_length span), rest)
  else if ((cp =? 32) && match rest with next :: _ => is_non_space_non_letter_mark_number (sp_value next) | [] => false end) ||
          is_non_space_non_letter_mark_number cp then
    word_until (skip_while (fun s => is_newline (sp_value s))
                  (skip_while (fun s => is_non_space_non_letter_mark_number (sp_value s)) (if cp =? 32 then rest else spans)))
  else if is_whitespace cp then
    let '(run_end, after_newline) := whitespace_run spans None in
    match after_newline with
    | Some end_ => word_until end_
    | None =>
        match run_end with
        | [] => (drop begin_offset text, [])
        | _ =>
            if (2 <=? length spans - length run_end)%nat
            then word_until (drop (length spans - length run_end - 1) spans)
            else word_until run_end
        end
    end
  else (substr text begin_offset (sp_length span), rest)
  end.

(** [qwen_split_words]; every pass takes a span, so their number is enough fuel. *)
Fixpoint split_words_from (fuel : nat) (text : list Z) (spans : list CodepointSpan) : result (list (list Z)) :=
  match spans, fuel with
  | [], _ => Ok []
  | _, O => Err LogicError
  | span :: rest, S fuel' =>
      let '(word, spans) := next_word text span rest in
      let* words := split_words_from fuel' text spans in
      Ok (word :: words)
  end.
Definition qwen_split_words (text : list Z) : result (list (list Z)) :=
  let* spans := utf8_codepoints text in
  split_words_from (length spans) text spans.

(** ** Encoding *)

(** The loop that looks for the pair of the lowest rank, from position [i] on. *)
Fixpoint best_pair (ranks : gmap (list Z) Z) (symbols : list (list Z)) (i : nat) (best_rank : Z) (best : option nat)
  : option nat :=
  match symbols with
  | l :: (r :: _) as symbols' =>
      match ranks !! merge_pair_key l r with
      | Some rank => if rank <? best_rank then best_pair ranks symbols' (S i) rank (Some i)
                     else best_pair ranks symbols' (S i) best_rank best
      | None => best_pair ranks symbols' (S i) best_rank best
      end
  | _ => best
  end.
Definition int_max : Z := 2147483647.

(** [symbols[i] += symbols[i + 1]; symbols.erase(i + 1);] *)
Fixpoint merge_at (i : nat) (symbols : list (list Z)) : list (list Z) :=
  match symbols, i with
  | l :: r :: symbols', O => (l ++ r) :: symbols'
  | symbol :: symbols', S i' => symbol :: merge_at i' symbols'
  | _, _ => symbols
  end.

(** The merging loop; every pass removes a symbol, so their number is enough fuel. *)
Fixpoint bpe_merge (fuel : nat) (ranks : gmap (list Z) Z) (symbols : list (list Z)) : result (list (list Z)) :=
  if (length symbols <=? 1)%nat then Ok symbols else
  match fuel with
  | O => Err LogicError
  | S fuel' =>
      match best_pair ranks symbols 0 int_max None with
      | None => Ok symbols
      | Some i => bpe_merge fuel' ranks (merge_at i symbols)
      end
  end.

(** [append_symbol_id] *)
Definition append_symbol_id (ids : list Z) (token_to_id : gmap (list Z) Z) (symbol : list Z) : result (list Z) :=
  match token_to_id !! symbol with
  | Some id => Ok (ids ++ [id])
  | None =>
      let* bytes := byte_level_symbols symbol in
      do* throw_if (length bytes <=? 1)%nat InvalidArgument;
      rfoldl (fun ids byte_symbol => match token_to_id !! byte_symbol with
                                     | Some id => Ok (ids ++ [id])
                                     | None => Err InvalidArgument
                                     end) ids bytes
  end.

(** One word of [append_bpe_ids]. *)
Definition append_word (ranks token_to_id : gmap (list Z) Z) (ids word : list Z) : result (list Z) :=
  let* encoded := byte_level_encode word in
  let* symbols := byte_level_symbols encoded in
  let* symbols := bpe_merge (length symbols) ranks symbols in
  rfoldl (fun ids symbol => append_symbol_id ids token_to_id symbol) ids symbols.

(** [append_bpe_ids] *)
Definition append_bpe_ids (t : Tokenizer) (ids text : list Z) : result (list Z) :=
  if bool_decide (text = []) then Ok ids else
  do* throw_if (negb (has_bpe_merges_ t)) InvalidArgument;
  let* normalized := normalize_nfc text in
  let* words := qwen_split_words normalized in
  rfoldl (append_word (bpe_merge_ranks_ t) (vocab_token_to_id_ t)) ids words.

(** The added token at the head of [text]: the first of the candidates of its first byte. *)
Fixpoint scan_candidates (t : Tokenizer) (text : list Z) (candidates : list nat) : result (option AddedToken) :=
  match candidates with
  | [] => Ok None
  | index :: candidates' =>
      match added_tokens_ t !! index with
      | None => Err OutOfRange
      | Some token => if is_prefix (at_content token) text then Ok (Some token) else scan_candidates t text candidates'
      end
  end.
Definition match_token (t : Tokenizer) (text : list Z) : result (option AddedToken) :=
  match text with
  | [] => Ok None
  | front :: _ => scan_candidates t text (default [] (added_token_candidates_ t !! front))
  end.

(** The loop of [encode]; [ordinary] is the text from [ordinary_begin] to the position reached. *)
Fixpoint encode_from (fuel : nat) (t : Tokenizer) (ids ordinary text : list Z) : result (list Z) :=
  match text, fuel with
  | [], _ => if bool_decide (ordinary = []) then Ok ids else append_bpe_ids t ids ordinary
  | _, O => Err LogicError
  | b :: text', S fuel' =>
      let* m := match_token t text in
      match m with
      | None => encode_from fuel' t ids (ordinary ++ [b]) text'
      | Some token =>
          let* ids := if bool_decide (ordinary = []) then Ok ids else append_bpe_ids t ids ordinary in
          encode_from fuel' t (ids ++ [at_id token]) [] (drop (length (at_content token)) text)
      end
  end.
Definition encode (t : Tokenizer) (text : list Z) (parse_added_tokens : bool) : result (list Z) :=
  if bool_decide (text = []) then Ok []
  else if negb parse_added_tokens then append_bpe_ids t [] text
  else encode_from (length text) t [] [] text.
End Words.

(** ** Decoding *)

Definition is_added_token_id (added_tokens : list AddedToken) (id : Z) : bool :=
  existsb (fun token => at_id token =? id) added_tokens.
Definition is_stop_token_id (stop_token_ids : list Z) (id : Z) : bool := existsb (fun stop => stop =? id) stop_token_ids.
Definition is_special_token (t : Tokenizer) (id : Z) : bool :=
  existsb (fun token => (at_id token =? id) && at_special token) (added_tokens_ t).
Definition tokenizer_is_valid_token (t : Tokenizer) (id : Z) : bool :=
  (0 <=? id) && (id <? Z.of_nat (length (valid_token_ids_ t))) &&
  default false (valid_token_ids_ t !! Z.to_nat id).
Definition has_exact_token_domain (t : Tokenizer) (size : nat) : bool :=
  (length (valid_token_ids_ t) =? size)%nat && negb (existsb negb (valid_token_ids_ t)).

(** [Tokenizer::decode_token_bytes] *)
Definition tokenizer_decode_token_bytes (t : Tokenizer) (id : Z) (skip_special_tokens : bool) : result (list Z) :=
  if skip_special_tokens && is_special_token t id then Ok [] else
  do* throw_if (id <? 0) InvalidArgument;
  let index := Z.to_nat id in
  do* throw_if ((length (id_to_token_ t) <=? index)%nat || (length (valid_token_ids_ t) <=? index)%nat ||
                negb (default false (valid_token_ids_ t !! index))) OutOfRange;
  let token := default [] (id_to_token_ t !! index) in
  if is_added_token_id (added_tokens_ t) id then Ok token else
  let* codepoints := utf8_codepoints token in
  rmapM (fun codepoint => match build_byte_level_decoder !! u32 (sp_value codepoint) with
                          | Some byte => Ok byte
                          | None => Err InvalidArgument
                          end) codepoints.

(** [Tokenizer::decode] *)
Definition decode (t : Tokenizer) (ids : list Z) (skip_special_tokens : bool) (stop_token_ids : list Z) : result (list Z) :=
  let terminal_stop_index :=
    match last ids with
    | Some id => if is_stop_token_id stop_token_ids id then (length ids - 1)%nat else length ids
    | None => length ids
    end in
  let* pieces := rmapM (fun '(i, id) => if (i =? terminal_stop_index)%nat then Ok []
                                        else tokenizer_decode_token_bytes t id skip_special_tokens)
                   (zip (seq 0 (length ids)) ids) in
  let text := concat pieces in
  let* _ := utf8_codepoints text in
  Ok text.

(** What the output sessions use of a tokenizer. *)
Definition tokenizer_decoder (t : Tokenizer) : TokenDecoder := {|
  is_valid_token := tokenizer_is_valid_token t;
  decode_token_bytes := tokenizer_decode_token_bytes t;
  default_stop_token_ids := default_stop_token_ids_ t;
|}.
