(* ===== verification/TokenizerProofs.v ===== *)
(** * Correctness of the tokenizer

    Loading gives a consistent tokenizer; encoding cuts a text without losing any of it, and decoding
    gives the text back, normalized. *)
From stdpp Require Import gmap sorting.
From S2P Require Import Prelude Unicode UnicodeProofs Admission Capacity Contract Output OutputProofs Utf8Proofs OutputTheorems Tokenizer.
#[local] Open Scope Z_scope.

(** ** Bytes as characters *)

Definition byte_table : gmap Z (list Z) := match build_byte_level_encoder with Ok m => m | Err _ => ∅ end.
(** The character of a byte. *)
Definition byte_char (b : Z) : Z := (utf8proc_iterate (default [] (byte_table !! b))).2.

Definition byte_facts (b : Z) : bool :=
  bool_decide (byte_table !! b = Some (utf8_encode (byte_char b))) &&
  (0 <=? byte_char b) && (byte_char b <? 0x200) && bool_decide (build_byte_level_decoder !! byte_char b = Some b).

Lemma byte_facts_all : forallb byte_facts (map Z.of_nat (seq 0 256)) = true.
Proof. vm_compute. reflexivity. Qed.

Lemma byte_facts_in b : is_byte b -> byte_facts b = true.
Proof.
  intros Hb. apply (proj1 (forallb_forall byte_facts (map Z.of_nat (seq 0 256))) byte_facts_all).
  apply in_map_iff. exists (Z.to_nat b). unfold is_byte in Hb. split; [lia|]. apply in_seq. lia.
Qed.
#[local] Opaque build_byte_level_decoder byte_table byte_char.

Lemma byte_char_spec b : is_byte b ->
  byte_table !! b = Some (utf8_encode (byte_char b)) /\ 0 <= byte_char b < 0x200 /\
  build_byte_level_decoder !! byte_char b = Some b.
Proof.
  intros Hb%byte_facts_in. unfold byte_facts in Hb. rewrite !andb_true_iff, !bool_decide_eq_true, Z.leb_le, Z.ltb_lt in Hb.
  destruct Hb as [[[H1 H2] H3] H4]. exact (conj H1 (conj (conj H2 H3) H4)).
Qed.
Lemma byte_char_scalar b : is_byte b -> is_scalar (byte_char b).
Proof. intros Hb. destruct (byte_char_spec b Hb) as (_ & ? & _). unfold is_scalar. lia. Qed.

(** The text of bytes in the byte-level alphabet. *)
Definition sym (bs : list Z) : list Z := encode_all (map byte_char bs).
Lemma sym_app a b : sym (a ++ b) = sym a ++ sym b.
Proof. unfold sym. by rewrite map_app, encode_all_app. Qed.
Lemma sym_scalars bs : Forall is_byte bs -> Forall is_scalar (map byte_char bs).
Proof. intros Hb. apply Forall_forall. intros c (b & -> & Hin)%list_elem_of_fmap. apply byte_char_scalar. rewrite Forall_forall in Hb. by apply Hb. Qed.

Lemma byte_level_encode_spec text : Forall is_byte text -> byte_level_encode text = Ok (sym text).
Proof.
  intros Hb. unfold byte_level_encode. assert (He : build_byte_level_encoder = Ok byte_table) by (vm_compute; reflexivity).
  rewrite He. cbn [rbind]. induction Hb as [|b text Hb _ IH]; [done|]. cbn [byte_level_encode_from].
  destruct (byte_char_spec b Hb) as (-> & _). rewrite IH. done.
Qed.

(** The pieces of a text at its spans. *)
Lemma substr_spans cs pre post :
  map (fun span => substr (pre ++ encode_all cs ++ post) (sp_offset span) (sp_length span)) (spans_from cs (length pre)) =
  map utf8_encode cs.
Proof.
  revert pre. induction cs as [|c cs IH]; intros pre; [done|]. cbn [spans_from map]. f_equal.
  - cbn [sp_offset sp_length]. unfold substr, encode_all. cbn [map concat]. by rewrite drop_app_length, <- app_assoc, take_app_length.
  - rewrite <- length_app. unfold encode_all in *. cbn [map concat]. specialize (IH (pre ++ utf8_encode c)).
    rewrite <- !app_assoc in IH. by rewrite <- !app_assoc.
Qed.

Lemma codepoints_all cs : Forall is_scalar cs -> utf8_codepoints (encode_all cs) = Ok (spans_from cs 0).
Proof. intros Hs. by apply codepoints_encode. Qed.

Lemma byte_level_symbols_spec cs : Forall is_scalar cs -> byte_level_symbols (encode_all cs) = Ok (map utf8_encode cs).
Proof.
  intros Hs. unfold byte_level_symbols. rewrite codepoints_all by done. cbn [rbind]. f_equal.
  pose proof (substr_spans cs [] []) as H. by rewrite app_nil_r in H.
Qed.

(** ** Merging *)

Lemma merge_at_map i bss : merge_at i (map sym bss) = map sym (merge_at i bss).
Proof.
  revert i. induction bss as [|a bss IH]; intros i; [by destruct i|]. destruct i as [|i]; cbn [map merge_at].
  - destruct bss as [|b bss]; [done|]. cbn [map]. by rewrite sym_app.
  - destruct bss as [|b bss]; cbn [map]; f_equal; apply (IH i).
Qed.
Lemma merge_at_concat i (bss : list (list Z)) : concat (merge_at i bss) = concat bss.
Proof.
  revert i. induction bss as [|a bss IH]; intros i; [by destruct i|]. destruct i as [|i]; cbn [merge_at].
  - destruct bss as [|b bss]; [done|]. cbn [concat]. by rewrite app_assoc.
  - destruct bss as [|b bss]; cbn [concat]; f_equal; apply (IH i).
Qed.
Lemma merge_at_length i (bss : list (list Z)) : (S i < length bss)%nat -> length (merge_at i bss) = (length bss - 1)%nat.
Proof.
  revert i. induction bss as [|a bss IH]; intros i Hi; [cbn in Hi; lia|]. destruct i as [|i]; cbn [merge_at].
  - destruct bss as [|b bss]; [cbn in Hi; lia|]. cbn. lia.
  - destruct bss as [|b bss]; [cbn in Hi; lia|]. cbn [length] in *. rewrite (IH i) by lia. lia.
Qed.

(** The pair of the lowest rank. *)
Definition pair_rank (ranks : gmap (list Z) Z) (symbols : list (list Z)) (i : nat) : option Z :=
  match symbols !! i, symbols !! S i with
  | Some l, Some r => ranks !! merge_pair_key l r
  | _, _ => None
  end.

Lemma best_pair_spec ranks symbols i best_rank best :
  match best_pair ranks symbols i best_rank best with
  | Some k => (best = Some k /\ forall j r, pair_rank ranks symbols j = Some r -> best_rank <= r) \/
      exists j r, k = (i + j)%nat /\ pair_rank ranks symbols j = Some r /\ r < best_rank /\
        (forall j' r', pair_rank ranks symbols j' = Some r' -> r <= r') /\
        (forall j' r', (j' < j)%nat -> pair_rank ranks symbols j' = Some r' -> r < r')
  | None => best = None /\ forall j r, pair_rank ranks symbols j = Some r -> best_rank <= r
  end.
Proof.
  revert i best_rank best. induction symbols as [|l symbols IH]; intros i best_rank best; cbn [best_pair].
  - destruct best; [left|]; by split.
  - destruct symbols as [|r symbols].
    { destruct best; [left|]; (split; [done|]); intros [|j] x; unfold pair_rank; cbn; done. }
    assert (Hcons : forall j, pair_rank ranks (l :: r :: symbols) (S j) = pair_rank ranks (r :: symbols) j) by done.
    assert (H0 : pair_rank ranks (l :: r :: symbols) 0 = ranks !! merge_pair_key l r) by done.
    destruct (ranks !! merge_pair_key l r) as [rank|] eqn:Er.
    + destruct (Z.ltb_spec rank best_rank) as [Hlt|Hge].
      * specialize (IH (S i) rank (Some i)). destruct (best_pair ranks (r :: symbols) (S i) rank (Some i)) as [k|]; [|by destruct IH].
        right. destruct IH as [[[= <-] Hmin]|(j & x & -> & Hx & Hlt' & Hmin & Hfirst)].
        -- exists 0%nat, rank. split; [lia|]. split_and!; [by rewrite H0|done| |lia].
           intros [|j'] r' Hr'; [rewrite H0 in Hr'; injection Hr' as <-; lia|]. by apply (Hmin j').
        -- exists (S j), x. split; [lia|]. split_and!; [done|lia| |].
           ++ intros [|j'] r' Hr'; [rewrite H0 in Hr'; injection Hr' as <-; lia|]. by apply (Hmin j').
           ++ intros [|j'] r' Hj Hr'; [rewrite H0 in Hr'; injection Hr' as <-; lia|]. apply (Hfirst j'); [lia|done].
      * specialize (IH (S i) best_rank best). destruct (best_pair ranks (r :: symbols) (S i) best_rank best) as [k|].
        -- destruct IH as [[-> Hmin]|(j & x & -> & Hx & Hlt' & Hmin & Hfirst)].
           ++ left. split; [done|]. intros [|j'] r' Hr'; [rewrite H0 in Hr'; injection Hr' as <-; lia|]. by apply (Hmin j').
           ++ right. exists (S j), x. split; [lia|]. split_and!; [done|done| |].
              ** intros [|j'] r' Hr'; [rewrite H0 in Hr'; injection Hr' as <-; lia|]. by apply (Hmin j').
              ** intros [|j'] r' Hj Hr'; [rewrite H0 in Hr'; injection Hr' as <-; lia|]. apply (Hfirst j'); [lia|done].
        -- destruct IH as [-> Hmin]. split; [done|]. intros [|j'] r' Hr'; [rewrite H0 in Hr'; injection Hr' as <-; lia|]. by apply (Hmin j').
    + specialize (IH (S i) best_rank best). destruct (best_pair ranks (r :: symbols) (S i) best_rank best) as [k|].
      * destruct IH as [[-> Hmin]|(j & x & -> & Hx & Hlt' & Hmin & Hfirst)].
        -- left. split; [done|]. intros [|j'] r' Hr'; [by rewrite H0 in Hr'|]. by apply (Hmin j').
        -- right. exists (S j), x. split; [lia|]. split_and!; [done|done| |].
           ++ intros [|j'] r' Hr'; [by rewrite H0 in Hr'|]. by apply (Hmin j').
           ++ intros [|j'] r' Hj Hr'; [by rewrite H0 in Hr'|]. apply (Hfirst j'); [lia|done].
      * destruct IH as [-> Hmin]. split; [done|]. intros [|j'] r' Hr'; [by rewrite H0 in Hr'|]. by apply (Hmin j').
Qed.

(** One merge of byte-pair encoding: of the pairs of the lowest rank, the leftmost. *)
Definition bpe_step (ranks : gmap (list Z) Z) (s s' : list (list Z)) : Prop :=
  exists i r, pair_rank ranks s i = Some r /\ r < int_max /\
    (forall j r', pair_rank ranks s j = Some r' -> r <= r') /\
    (forall j r', (j < i)%nat -> pair_rank ranks s j = Some r' -> r < r') /\ s' = merge_at i s.

Lemma pair_rank_bound ranks s i r : pair_rank ranks s i = Some r -> (S i < length s)%nat.
Proof.
  unfold pair_rank. destruct (s !! i); [|done]. destruct (s !! S i) eqn:E; [|done]. intros _. by apply lookup_lt_Some in E.
Qed.

Lemma bpe_step_length ranks s s' : bpe_step ranks s s' -> length s' = (length s - 1)%nat /\ (1 < length s)%nat.
Proof.
  intros (i & r & Hr & _ & _ & _ & ->). pose proof (pair_rank_bound _ _ _ _ Hr). rewrite merge_at_length by done. lia.
Qed.

Lemma bpe_merge_run ranks fuel symbols :
  (length symbols <= S fuel)%nat ->
  exists symbols', bpe_merge fuel ranks symbols = Ok symbols' /\ rtc (bpe_step ranks) symbols symbols' /\
    nf (bpe_step ranks) symbols'.
Proof.
  revert symbols. induction fuel as [|fuel IH]; intros symbols Hf.
  - exists symbols. unfold bpe_merge. replace (length symbols <=? 1)%nat with true by (symmetry; apply Nat.leb_le; lia).
    split; [done|]. split; [done|]. intros [s' Hs]. apply bpe_step_length in Hs. lia.
  - cbn [bpe_merge]. destruct (Nat.leb_spec (length symbols) 1) as [Hl|Hl].
    { exists symbols. split; [done|]. split; [done|]. intros [s' Hs]. apply bpe_step_length in Hs. lia. }
    pose proof (best_pair_spec ranks symbols 0 int_max None) as Hb. destruct (best_pair ranks symbols 0 int_max None) as [k|].
    + destruct Hb as [[? _]|(j & r & -> & Hr & Hlt & Hmin & Hfirst)]; [done|]. cbn [Nat.add].
      assert (Hs : bpe_step ranks symbols (merge_at j symbols)) by (exists j, r; by split_and!).
      destruct (IH (merge_at j symbols)) as (s' & E & Hrtc & Hnf).
      { apply bpe_step_length in Hs. lia. }
      exists s'. split; [done|]. split; [|done]. by eapply rtc_l.
    + destruct Hb as [_ Hb]. exists symbols. split; [done|]. split; [done|]. intros [s' (i & r & Hr & Hlt & _)].
      specialize (Hb i r Hr). lia.
Qed.

Lemma bpe_steps_concat ranks s s' : rtc (bpe_step ranks) s s' -> concat s' = concat s.
Proof.
  induction 1 as [|s s1 s' (i & r & _ & _ & _ & _ & ->) _ IH]; [done|]. by rewrite IH, merge_at_concat.
Qed.

Lemma bpe_steps_sym ranks bss s' : rtc (bpe_step ranks) (map sym bss) s' -> exists bss', s' = map sym bss' /\ concat bss' = concat bss.
Proof.
  intros H. remember (map sym bss) as s eqn:Es. revert bss Es.
  induction H as [|s s1 s' (i & r & _ & _ & _ & _ & ->) _ IH]; intros bss ->; [by exists bss|].
  rewrite merge_at_map in IH. destruct (IH _ eq_refl) as (bss' & -> & Hc). exists bss'. split; [done|].
  by rewrite Hc, merge_at_concat.
Qed.

(** C18: the merging loop ends, and computes byte-pair encoding: it merges a leftmost pair of the lowest rank as
    long as there is a pair that has a rank. *)
Theorem bpe_merge_exact ranks symbols symbols' :
  bpe_merge (length symbols) ranks symbols = Ok symbols' <->
  rtc (bpe_step ranks) symbols symbols' /\ nf (bpe_step ranks) symbols'.
Proof.
  assert (Hdet : forall s s1 s2, bpe_step ranks s s1 -> bpe_step ranks s s2 -> s1 = s2).
  { intros s s1 s2 (i & r & Hr & _ & Hmin & Hfirst & ->) (j & x & Hx & _ & Hmin' & Hfirst' & ->). f_equal.
    destruct (lt_eq_lt_dec i j) as [[Hl| ->]|Hl]; [|done|].
    - specialize (Hfirst' _ _ Hl Hr). specialize (Hmin _ _ Hx). lia.
    - specialize (Hfirst _ _ Hl Hx). specialize (Hmin' _ _ Hr). lia. }
  destruct (bpe_merge_run ranks (length symbols) symbols) as (s & E & Hr & Hn); [lia|]. split.
  - rewrite E. by intros [= <-].
  - intros [Hr' Hn']. rewrite E. f_equal. clear E. revert Hr'. induction Hr as [s|s s1 s2 Hs _ IH]; intros Hr'.
    + inversion Hr' as [|? ? ? Hs]; subst; [done|]. destruct Hn. by eexists.
    + inversion Hr' as [|? s1' ? Hs']; subst; [destruct Hn'; by eexists|]. rewrite (Hdet _ _ _ Hs Hs') in IH. by apply IH.
Qed.

(** ** Words *)

Section Words.
Context `{CharacterTables}.

Lemma spans_from_split cs o l e :
  spans_from cs o = l ++ e ->
  exists cs1 cs2, cs = cs1 ++ cs2 /\ l = spans_from cs1 o /\ e = spans_from cs2 (o + length (encode_all cs1)).
Proof.
  revert o l. induction cs as [|c cs IH]; intros o l; cbn [spans_from].
  - intros E. symmetry in E. apply app_eq_nil in E as [-> ->]. by exists [], [].
  - destruct l as [|s l]; cbn [app].
    + intros <-. exists [], (c :: cs). split; [done|]. split; [done|]. cbn [encode_all]. by rewrite Nat.add_0_r.
    + intros [= <- E]. destruct (IH _ _ E) as (cs1 & cs2 & -> & -> & ->). exists (c :: cs1), cs2. split; [done|].
      split; [done|]. unfold encode_all. cbn [map concat]. rewrite length_app. f_equal. lia.
Qed.

(** A word that ends at a later span is the text of the characters before it. *)
Definition is_word (pre cs : list Z) (w : list Z * list CodepointSpan) : Prop :=
  exists cs1 cs2, cs = cs1 ++ cs2 /\ cs1 <> [] /\ w.1 = encode_all cs1 /\ w.2 = spans_from cs2 (length pre + length (encode_all cs1)).

Lemma word_until_spec pre c cs l e :
  spans_from (c :: cs) (length pre) = l ++ e -> l <> [] ->
  let text := pre ++ encode_all (c :: cs) in
  is_word pre (c :: cs) (substr text (length pre) (span_end_offset text e - length pre), e).
Proof.
  intros E Hl text. destruct (spans_from_split _ _ _ _ E) as (cs1 & cs2 & Hcs & -> & ->). exists cs1, cs2.
  split; [done|]. split; [by intros ->|]. split; [|done]. cbn [fst]. unfold text. rewrite Hcs, encode_all_app.
  replace (span_end_offset _ _ - length pre)%nat with (length (encode_all cs1)).
  - unfold substr. by rewrite drop_app_length, take_app_length.
  - destruct cs2 as [|c2 cs2]; cbn [spans_from span_end_offset sp_offset]; [rewrite !length_app; cbn; lia|lia].
Qed.

Lemma skip_while_suffix p spans : exists l, spans = l ++ skip_while p spans.
Proof.
  induction spans as [|s spans [l IH]]; [by exists []|]. cbn [skip_while]. destruct (p s); [|by exists []].
  exists (s :: l). cbn [app]. by f_equal.
Qed.
Lemma skip_while_first p s spans : p s = true -> exists l, s :: spans = (s :: l) ++ skip_while p (s :: spans).
Proof. intros E. cbn [skip_while]. rewrite E. destruct (skip_while_suffix p spans) as [l Hl]. exists l. cbn [app]. by f_equal. Qed.

Lemma whitespace_run_spec spans after :
  (exists l, spans = l ++ (whitespace_run spans after).1) /\
  ((whitespace_run spans after).2 = after \/ exists l e, l <> [] /\ spans = l ++ e /\ (whitespace_run spans after).2 = Some e).
Proof.
  revert after. induction spans as [|s spans IH]; intros after; cbn [whitespace_run].
  - split; [by exists []|by left].
  - destruct (is_whitespace (sp_value s)); [|split; [by exists []|by left]].
    destruct (IH (if is_newline (sp_value s) then Some spans else after)) as [[l Hl] Ha]. split.
    + exists (s :: l). cbn [app]. by f_equal.
    + destruct Ha as [Ha|(l' & e & Hl' & He & Ha)].
      * rewrite Ha. destruct (is_newline (sp_value s)); [right|by left]. exists [s], spans. by split_and!.
      * right. exists (s :: l'), e. split; [done|]. split; [cbn [app]; by f_equal|done].
Qed.

Lemma next_word_run pre c cs span rest :
  spans_from (c :: cs) (length pre) = span :: rest ->
  is_word pre (c :: cs) (next_word (pre ++ encode_all (c :: cs)) span rest).
Proof.
  intros E. set (text := pre ++ encode_all (c :: cs)).
  assert (Hoff : sp_offset span = length pre) by (by injection E as <- _).
  assert (Hspan : span = mkSpan c (length pre) (length (utf8_encode c))) by (by injection E as <- _).
  assert (Hu : forall l e, span :: rest = l ++ e -> l <> [] ->
    is_word pre (c :: cs) (substr text (sp_offset span) (span_end_offset text e - sp_offset span), e)).
  { intros l e Hl Hne. rewrite Hoff. apply (word_until_spec pre c cs l e); [by rewrite E|done]. }
  assert (Hrest : forall p, exists l, span :: rest = (span :: l) ++ skip_while p rest).
  { intros p. destruct (skip_while_suffix p rest) as [l Hl]. exists l. cbn [app]. by f_equal. }
  assert (Hone : is_word pre (c :: cs) (substr text (sp_offset span) (sp_length span), rest)).
  { assert (Hr : rest = spans_from cs (length pre + length (utf8_encode c))) by (by injection E as _ <-).
    exists [c], cs. split; [done|]. split; [done|]. unfold encode_all. cbn [map concat fst snd]. rewrite app_nil_r. split; [|done].
    rewrite Hspan. cbn [sp_offset sp_length]. unfold substr, text, encode_all. cbn [map concat].
    by rewrite drop_app_length, take_app_length. }
  unfold next_word. destruct (if sp_value span =? 39 then _ else _) as [[k suffix]|].
  { destruct (Hrest (fun s => (sp_offset s <? sp_offset span + 1 + length suffix)%nat)) as [l Hl]. by apply (Hu (span :: l)). }
  match goal with |- context [if ?b then _ else _] => destruct b eqn:E1 end.
  { destruct (is_letter_or_mark (sp_value span)) eqn:El; cbn [negb].
    - destruct (skip_while_first (fun s => is_letter_or_mark (sp_value s)) span rest El) as [l Hl]. by apply (Hu (span :: l)).
    - destruct (Hrest (fun s => is_letter_or_mark (sp_value s))) as [l Hl]. by apply (Hu (span :: l)). }
  destruct (is_number (sp_value span)); [done|].
  clear E1. match goal with |- context [if ?b then _ else _] => destruct b eqn:E2 end.
  { assert (exists l e, span :: rest = (span :: l) ++ e /\ e = skip_while (fun s => is_non_space_non_letter_mark_number (sp_value s))
        (if sp_value span =? 32 then rest else span :: rest)) as (l1 & e & Hl1 & <-).
    { destruct (sp_value span =? 32).
      - destruct (Hrest (fun s => is_non_space_non_letter_mark_number (sp_value s))) as [l Hl]. by eexists _, _.
      - cbn [andb orb] in E2. destruct (skip_while_first (fun s => is_non_space_non_letter_mark_number (sp_value s)) span rest E2) as [l Hl].
        by eexists _, _. }
    destruct (skip_while_suffix (fun s => is_newline (sp_value s)) e) as [l2 Hl2]. apply (Hu (span :: l1 ++ l2)); [|done].
    rewrite Hl1, Hl2 at 1. cbn [app]. by rewrite <- app_assoc. }
  destruct (is_whitespace (sp_value span)) eqn:Ew; [|done].
  destruct (whitespace_run_spec (span :: rest) None) as [[l Hl] Ha].
  assert (Hlne : l <> []).
  { intros ->. cbn [app] in Hl. cbn [whitespace_run] in Hl. rewrite Ew in Hl.
    destruct (whitespace_run_spec rest (if is_newline (sp_value span) then Some rest else None)) as [[l' Hl'] _].
    apply (f_equal length) in Hl, Hl'. rewrite length_app in Hl'. cbn in Hl. lia. }
  destruct (whitespace_run (span :: rest) None) as [run_end after]. cbn [fst snd] in Hl, Ha.
  destruct after as [e|].
  { destruct Ha as [Ha|(l' & e' & Hne & He & [= <-])]; [done|]. by apply (Hu l'). }
  destruct run_end as [|s2 r2].
  { specialize (Hu l [] Hl Hlne). cbn [span_end_offset] in Hu. unfold substr in Hu. rewrite take_ge in Hu; [done|].
    rewrite length_drop. lia. }
  destruct (Nat.leb_spec 2 (length (span :: rest) - length (s2 :: r2))) as [Hge|Hlt]; [|by apply (Hu l)].
  apply (Hu (take (length (span :: rest) - length (s2 :: r2) - 1) (span :: rest))); [by rewrite take_drop|].
  intros Hnil. apply (f_equal length) in Hnil. rewrite length_take in Hnil. cbn [length] in *. lia.
Qed.

Lemma split_words_run fuel pre cs :
  (length cs <= fuel)%nat ->
  exists words, split_words_from fuel (pre ++ encode_all cs) (spans_from cs (length pre)) = Ok words /\
    concat words = encode_all cs /\ Forall (fun w => w <> []) words.
Proof.
  revert pre cs. induction fuel as [|fuel IH]; intros pre cs Hf.
  { destruct cs; [|cbn in Hf; lia]. by exists []. }
  destruct cs as [|c cs]; [by exists []|]. destruct (spans_from (c :: cs) (length pre)) as [|span rest] eqn:E; [done|].
  cbn [split_words_from]. pose proof (next_word_run pre c cs span rest E) as (cs1 & cs2 & Hcs & Hne & Hw & Hr).
  destruct (next_word _ _ _) as [word spans]. cbn [fst snd] in Hw, Hr. subst word spans.
  assert (Hlen : (length cs2 <= fuel)%nat).
  { apply (f_equal length) in Hcs. rewrite length_app in Hcs. destruct cs1; [done|]. cbn in *. lia. }
  destruct (IH (pre ++ encode_all cs1) cs2 Hlen) as (words & Ew & Hc & Hwn).
  rewrite Hcs, encode_all_app. rewrite <- app_assoc in Ew. rewrite length_app in Ew. rewrite Ew. cbn [rbind]. eexists. split; [done|].
  cbn [concat]. rewrite Hc. split; [done|]. constructor; [|done]. destruct cs1 as [|c1 cs1]; [done|].
  unfold encode_all. cbn [map concat]. pose proof (encode_length c1). destruct (utf8_encode c1); [cbn in *; lia|done].
Qed.

Lemma spans_length cs o : length (spans_from cs o) = length cs.
Proof. revert o. induction cs; intros o; cbn; auto. Qed.

Lemma split_words_total cs : Forall is_scalar cs ->
  exists words, qwen_split_words (encode_all cs) = Ok words /\ concat words = encode_all cs /\ Forall (fun w => w <> []) words.
Proof.
  intros Hs. unfold qwen_split_words. rewrite codepoints_all by done. cbn [rbind]. rewrite spans_length.
  apply (split_words_run (length cs) [] cs). lia.
Qed.
Lemma split_words_inv text words :
  Forall is_byte text -> qwen_split_words text = Ok words ->
  concat words = text /\ exists cs, Forall is_scalar cs /\ text = encode_all cs.
Proof.
  intros Hb E. pose proof E as E'. unfold qwen_split_words in E'. destruct (utf8_codepoints text) as [spans|] eqn:Es; cbn [rbind] in E'; [|done].
  destruct (codepoints_sound _ _ _ _ (Nat.le_refl _) Hb Es) as (cs & Hs & -> & _).
  destruct (split_words_total cs Hs) as (w & Ew & Hc & _). rewrite Ew in E. injection E as <-. split; [done|]. by exists cs.
Qed.

(** cutting a text of Unicode scalar values into words ends and loses nothing: the words are not empty and
    make up the text, whatever the characters' categories. *)
Theorem split_words_partition cs :
  Forall is_scalar cs ->
  exists words, qwen_split_words (encode_all cs) = Ok words /\ concat words = encode_all cs /\ Forall (fun w => w <> []) words.
Proof. apply split_words_total. Qed.
End Words.

(** ** Consistency *)

Definition added_ok (ids : list (list Z)) (valid : list bool) (token : AddedToken) : Prop :=
  0 <= at_id token /\ at_content token <> [] /\ ids !! Z.to_nat (at_id token) = Some (at_content token) /\
  valid !! Z.to_nat (at_id token) = Some true.

Record tokenizer_wf (t : Tokenizer) : Prop := {
  (* a vocabulary entry is found again by its id, and no added token has that id *)
  wf_vocab : forall token id, vocab_token_to_id_ t !! token = Some id ->
    0 <= id /\ id_to_token_ t !! Z.to_nat id = Some token /\ valid_token_ids_ t !! Z.to_nat id = Some true /\
    is_added_token_id (added_tokens_ t) id = false;
  wf_added : forall token, token ∈ added_tokens_ t -> added_ok (id_to_token_ t) (valid_token_ids_ t) token;
  wf_distinct : NoDup (map at_id (added_tokens_ t));
  wf_sorted : StronglySorted (fun a b => at_id a < at_id b) (added_tokens_ t);
  (* the candidates of a byte are the added tokens that begin with it, in order *)
  wf_candidates : forall b, default [] (added_token_candidates_ t !! b) =
    filter (fun i => head (at_content (nth i (added_tokens_ t) (mkAdded 0 [] false false false false false))) = Some b)
      (seq 0 (length (added_tokens_ t)));
  wf_valid : forall i, valid_token_ids_ t !! i = Some true ->
    (exists token, id_to_token_ t !! i = Some token /\ is_Some (vocab_token_to_id_ t !! token)) \/
    is_added_token_id (added_tokens_ t) (Z.of_nat i) = true;
  wf_lengths : length (valid_token_ids_ t) = length (id_to_token_ t);
  wf_merges : has_bpe_merges_ t = true;
}.

Section Roundtrip.
Context (t : Tokenizer) (Hwf : tokenizer_wf t).

Abbreviation bytes_of_ids := (@token_bytes (tokenizer_decoder t) true).

Lemma bytes_of_app a b x y : bytes_of_ids a = Ok x -> bytes_of_ids b = Ok y -> bytes_of_ids (a ++ b) = Ok (x ++ y).
Proof. intros Ha Hb. by rewrite token_bytes_app, Ha, Hb. Qed.

Lemma valid_id id : 0 <= id -> valid_token_ids_ t !! Z.to_nat id = Some true -> tokenizer_is_valid_token t id = true.
Proof.
  intros Hid Hv. unfold tokenizer_is_valid_token. rewrite Hv. apply lookup_lt_Some in Hv. change (default false (Some true)) with true. lia.
Qed.

Lemma decode_valid id token : 0 <= id -> id_to_token_ t !! Z.to_nat id = Some token -> valid_token_ids_ t !! Z.to_nat id = Some true ->
  tokenizer_decode_token_bytes t id false =
    if is_added_token_id (added_tokens_ t) id then Ok token else
    let* codepoints := utf8_codepoints token in
    rmapM (fun codepoint => match build_byte_level_decoder !! u32 (sp_value codepoint) with
                            | Some byte => Ok byte
                            | None => Err InvalidArgument
                            end) codepoints.
Proof.
  intros Hid Ht Hv. unfold tokenizer_decode_token_bytes. cbn [andb]. rewrite Ht, Hv. change (default false (Some true)) with true. change (default [] (Some token)) with token. cbn [negb].
  apply lookup_lt_Some in Ht, Hv. replace (id <? 0) with false by lia. cbn [throw_if rbind].
  replace (length (id_to_token_ t) <=? Z.to_nat id)%nat with false by (symmetry; apply Nat.leb_gt; lia).
  by replace (length (valid_token_ids_ t) <=? Z.to_nat id)%nat with false by (symmetry; apply Nat.leb_gt; lia).
Qed.

Lemma bytes_of_id id bytes : tokenizer_is_valid_token t id = true -> tokenizer_decode_token_bytes t id false = Ok bytes ->
  bytes_of_ids [id] = Ok bytes.
Proof.
  intros Hv Hd. unfold token_bytes. change (@is_valid_token (tokenizer_decoder t) id) with (tokenizer_is_valid_token t id).
  change (@decode_token_bytes (tokenizer_decoder t) id (negb true)) with (tokenizer_decode_token_bytes t id false).
  rewrite Hv, Hd. cbn. by rewrite app_nil_r.
Qed.

(** An entry of the vocabulary spells its bytes. *)
Lemma bytes_of_sym bs id : Forall is_byte bs -> vocab_token_to_id_ t !! sym bs = Some id -> bytes_of_ids [id] = Ok bs.
Proof.
  intros Hb Hid. destruct (wf_vocab t Hwf _ _ Hid) as (H0 & Ht & Hv & Ha). apply bytes_of_id; [by apply valid_id|].
  rewrite (decode_valid id (sym bs)) by done. rewrite Ha. unfold sym at 1. rewrite codepoints_all by (by apply sym_scalars).
  cbn [rbind]. clear -Hb. generalize 0%nat. induction Hb as [|b bs Hb _ IH]; intros o; [done|]. cbn [map spans_from rmapM sp_value].
  destruct (byte_char_spec b Hb) as (_ & Hr & Hd). unfold u32 at 1. rewrite Z.mod_small by lia. rewrite Hd. cbn [rbind].
  by rewrite IH.
Qed.

(** ** Symbols to ids *)

Lemma append_symbol_run ids bs ids' :
  Forall is_byte bs -> append_symbol_id ids (vocab_token_to_id_ t) (sym bs) = Ok ids' ->
  exists new, ids' = ids ++ new /\ bytes_of_ids new = Ok bs.
Proof.
  intros Hb. unfold append_symbol_id. destruct (vocab_token_to_id_ t !! sym bs) as [id|] eqn:Eid.
  { intros [= <-]. exists [id]. split; [done|]. by apply bytes_of_sym. }
  unfold sym at 1. rewrite byte_level_symbols_spec by (by apply sym_scalars). cbn [rbind].
  destruct (throw_if _ _) as [[]|]; cbn [rbind]; [|done]. clear Eid. revert ids. induction Hb as [|b bs Hb _ IH]; intros ids.
  - intros [= <-]. exists []. by rewrite app_nil_r.
  - cbn [map rfoldl]. assert (Hs : utf8_encode (byte_char b) = sym [b]) by (unfold sym, encode_all; cbn; by rewrite app_nil_r).
    rewrite Hs. destruct (vocab_token_to_id_ t !! sym [b]) as [id|] eqn:Eid; cbn [rbind]; [|done]. intros E.
    destruct (IH _ E) as (new & -> & Hn). exists (id :: new). split; [by rewrite <- app_assoc|].
    apply (bytes_of_app [id] new [b] bs); [|done]. apply bytes_of_sym; [|done]. by constructor.
Qed.

Lemma append_symbols_run ids bss ids' :
  Forall is_byte (concat bss) ->
  rfoldl (fun ids symbol => append_symbol_id ids (vocab_token_to_id_ t) symbol) ids (map sym bss) = Ok ids' ->
  exists new, ids' = ids ++ new /\ bytes_of_ids new = Ok (concat bss).
Proof.
  revert ids. induction bss as [|bs bss IH]; intros ids Hb; cbn [map rfoldl concat].
  - intros [= <-]. exists []. by rewrite app_nil_r.
  - cbn [concat] in Hb. apply Forall_app in Hb as [Hb Hbs]. destruct (append_symbol_id _ _ _) as [ids1|] eqn:E1; cbn [rbind]; [|done].
    intros E. destruct (append_symbol_run _ _ _ Hb E1) as (n1 & -> & H1). destruct (IH _ Hbs E) as (n2 & -> & H2).
    exists (n1 ++ n2). split; [by rewrite app_assoc|]. by apply bytes_of_app.
Qed.

Lemma append_word_run ids word ids' :
  Forall is_byte word -> append_word (bpe_merge_ranks_ t) (vocab_token_to_id_ t) ids word = Ok ids' ->
  exists new, ids' = ids ++ new /\ bytes_of_ids new = Ok word.
Proof.
  intros Hb. unfold append_word. rewrite byte_level_encode_spec by done. cbn [rbind]. unfold sym.
  rewrite byte_level_symbols_spec by (by apply sym_scalars). cbn [rbind].
  assert (Hs : map utf8_encode (map byte_char word) = map sym (map (fun b => [b]) word)).
  { rewrite !map_map. apply map_ext. intros b. unfold sym, encode_all. cbn. by rewrite app_nil_r. }
  rewrite Hs. set (symbols := map sym _).
  destruct (bpe_merge_run (bpe_merge_ranks_ t) (length symbols) symbols) as (s' & -> & Hr & _); [lia|]. cbn [rbind].
  apply bpe_steps_sym in Hr as (bss' & -> & Hc).
  assert (Hw : concat bss' = word). { rewrite Hc. clear. induction word as [|b word IH]; [done|]. cbn. by f_equal. }
  intros E. rewrite <- Hw. apply append_symbols_run in E; [done|]. by rewrite Hw.
Qed.

(** ** Texts to ids *)

(** The normal form is a string of bytes. *)
Context `{CharacterTables} (Hnfc : forall text n, utf8proc_map_nfc text = Some n -> Forall is_byte n).

Lemma append_words_run ids words ids' :
  Forall is_byte (concat words) ->
  rfoldl (append_word (bpe_merge_ranks_ t) (vocab_token_to_id_ t)) ids words = Ok ids' ->
  exists new, ids' = ids ++ new /\ bytes_of_ids new = Ok (concat words).
Proof.
  revert ids. induction words as [|w words IH]; intros ids Hb; cbn [rfoldl concat].
  - intros [= <-]. exists []. by rewrite app_nil_r.
  - cbn [concat] in Hb. apply Forall_app in Hb as [Hb Hbs]. destruct (append_word _ _ _ _) as [ids1|] eqn:E1; cbn [rbind]; [|done].
    intros E. destruct (append_word_run _ _ _ Hb E1) as (n1 & -> & H1). destruct (IH _ Hbs E) as (n2 & -> & H2).
    exists (n1 ++ n2). split; [by rewrite app_assoc|]. by apply bytes_of_app.
Qed.

Definition normalized_text (text : list Z) : result (list Z) := if bool_decide (text = []) then Ok [] else normalize_nfc text.

Lemma append_bpe_run ids text ids' :
  append_bpe_ids t ids text = Ok ids' ->
  exists n new, normalized_text text = Ok n /\ ids' = ids ++ new /\ bytes_of_ids new = Ok n /\
    exists cs, Forall is_scalar cs /\ n = encode_all cs.
Proof.
  unfold append_bpe_ids, normalized_text. case_bool_decide.
  - intros [= <-]. exists [], []. rewrite app_nil_r. split_and!; try done. by exists [].
  - destruct (throw_if _ _); cbn [rbind]; [|done]. unfold normalize_nfc. destruct (utf8proc_map_nfc text) as [n|] eqn:En; cbn [rbind]; [|done].
    destruct (qwen_split_words n) as [words|] eqn:Ew; cbn [rbind]; [|done]. intros E. pose proof (Hnfc _ _ En) as Hb.
    destruct (split_words_inv _ _ Hb Ew) as (Hc & Hs). rewrite <- Hc in Hb. destruct (append_words_run _ _ _ Hb E) as (new & -> & Hn).
    exists n, new. rewrite Hc in Hn. by split_and!.
Qed.

(** The text cut at its added tokens. *)
Inductive segment := Ordinary (text : list Z) | Added (token : AddedToken).
Definition raw_text (s : segment) : list Z := match s with Ordinary x => x | Added token => at_content token end.
Definition segment_text (s : segment) : result (list Z) :=
  match s with Ordinary x => normalized_text x | Added token => Ok (at_content token) end.

Definition begins (token : AddedToken) (text : list Z) : Prop := take (length (at_content token)) text = at_content token.
Definition no_token (text : list Z) : Prop := forall token, token ∈ added_tokens_ t -> ~ begins token text.
(** The added token of the least id that [text] begins with. *)
Definition first_token (token : AddedToken) (text : list Z) : Prop :=
  token ∈ added_tokens_ t /\ begins token text /\
  forall token', token' ∈ added_tokens_ t -> begins token' text -> at_id token <= at_id token'.

(** Leftmost cutting: no added token begins before the one that is found. *)
Inductive segmented : list Z -> list segment -> Prop :=
| seg_end ordinary : (forall i, (i < length ordinary)%nat -> no_token (drop i ordinary)) -> segmented ordinary [Ordinary ordinary]
| seg_token ordinary token rest segs :
    (forall i, (i < length ordinary)%nat -> no_token (drop i (ordinary ++ at_content token ++ rest))) ->
    first_token token (at_content token ++ rest) -> segmented rest segs ->
    segmented (ordinary ++ at_content token ++ rest) (Ordinary ordinary :: Added token :: segs).

Lemma scan_candidates_run text candidates :
  Forall (fun i => i < length (added_tokens_ t))%nat candidates ->
  (scan_candidates t text candidates = Ok None /\
     forall i token, i ∈ candidates -> added_tokens_ t !! i = Some token -> ~ begins token text) \/
  (exists l i token l', scan_candidates t text candidates = Ok (Some token) /\ candidates = l ++ i :: l' /\
     added_tokens_ t !! i = Some token /\ begins token text /\
     forall j token', j ∈ l -> added_tokens_ t !! j = Some token' -> ~ begins token' text).
Proof.
  intros Hf. induction Hf as [|i candidates Hi Hf IH]; cbn [scan_candidates].
  - left. split; [done|]. intros i token Hin. by apply elem_of_nil in Hin.
  - destruct (lookup_lt_is_Some_2 _ _ Hi) as [token Ht]. rewrite Ht. unfold is_prefix. case_bool_decide as Hp.
    + right. exists [], i, token, candidates. split_and!; try done. intros j token' Hin. by apply elem_of_nil in Hin.
    + destruct IH as [[E Hn]|(l & j & token' & l' & E & -> & Hj & Hb & Hn)].
      * left. split; [done|]. intros j token' [->|Hin]%elem_of_cons Hj; [|by eapply Hn]. rewrite Ht in Hj. by injection Hj as <-.
      * right. exists (i :: l), j, token', l'. split_and!; try done.
        intros k tk [->|Hin]%elem_of_cons Hk; [|by eapply Hn]. rewrite Ht in Hk. by injection Hk as <-.
Qed.

Lemma filter_seq_sorted (P : nat -> Prop) `{forall i, Decision (P i)} a n : StronglySorted lt (filter P (seq a n)).
Proof.
  revert a. induction n as [|n IH]; intros a; [constructor|]. cbn [seq]. rewrite filter_cons. case_decide; [|apply IH].
  constructor; [apply IH|]. apply Forall_forall. intros i [_ Hi%elem_of_seq]%list_elem_of_filter. lia.
Qed.

Lemma sorted_ids i j a b : (i < j)%nat -> added_tokens_ t !! i = Some a -> added_tokens_ t !! j = Some b -> at_id a < at_id b.
Proof.
  destruct Hwf as [_ _ _ Hs _ _ _ _]. intros Hij Ha Hb. revert i j Hij Ha Hb.
  induction Hs as [|x l Hs IH Hx]; intros i j Hij Ha Hb; [done|]. destruct j as [|j]; [lia|]. destruct i as [|i]; cbn in Ha, Hb.
  - injection Ha as <-. rewrite Forall_forall in Hx. apply Hx. by eapply list_elem_of_lookup_2.
  - apply (IH i j); [lia|done..].
Qed.

Lemma match_token_run text :
  (match_token t text = Ok None /\ no_token text) \/ (exists token, match_token t text = Ok (Some token) /\ first_token token text).
Proof.
  destruct text as [|b text]; cbn [match_token].
  { left. split; [done|]. intros token Hin Hb. unfold begins in Hb. rewrite take_nil in Hb.
    destruct (wf_added t Hwf token Hin) as (_ & Hne & _). done. }
  rewrite (wf_candidates t Hwf). set (cands := filter _ _).
  assert (Hin : forall i token, added_tokens_ t !! i = Some token -> i ∈ cands <-> head (at_content token) = Some b).
  { intros i token Ht. unfold cands. rewrite list_elem_of_filter, elem_of_seq.
    rewrite (nth_lookup_Some _ _ _ _ Ht). apply lookup_lt_Some in Ht. naive_solver lia. }
  assert (Hbeg : forall token, token ∈ added_tokens_ t -> begins token (b :: text) -> head (at_content token) = Some b).
  { intros token Htok Hb. destruct (wf_added t Hwf token Htok) as (_ & Hne & _). unfold begins in Hb.
    destruct (at_content token) as [|c content]; [done|]. cbn in Hb. by injection Hb as -> _. }
  destruct (scan_candidates_run (b :: text) cands) as [[E Hn]|(l & i & token & l' & E & Hc & Hi & Hb & Hn)].
  - apply Forall_forall. intros i Hi. unfold cands in Hi. apply list_elem_of_filter in Hi as [_ Hi%elem_of_seq]. lia.
  - left. split; [done|]. intros token Htok Hb. pose proof Htok as [i Hi]%list_elem_of_lookup. apply (Hn i token); [|done|done].
    apply (Hin i token Hi). by apply Hbeg.
  - right. exists token. split; [done|]. assert (Htok : token ∈ added_tokens_ t) by (by eapply list_elem_of_lookup_2).
    split_and!; try done. intros token' Htok' Hb'. pose proof Htok' as [j Hj]%list_elem_of_lookup.
    destruct (decide (j < i)%nat) as [Hlt|Hge].
    + exfalso. assert (Hjc : j ∈ cands) by (apply (Hin j token' Hj); by apply Hbeg).
      assert (Hjl : j ∈ l).
      { rewrite Hc in Hjc. apply elem_of_app in Hjc as [?|Hjc]; [done|exfalso].
        assert (Hs : StronglySorted lt cands).
        { apply filter_seq_sorted. }
        rewrite Hc in Hs. apply StronglySorted_app in Hs as (_ & _ & Hs). apply StronglySorted_inv in Hs as [_ Hs].
        rewrite Forall_forall in Hs. apply elem_of_cons in Hjc as [->|Hjc]; [lia|]. specialize (Hs j Hjc). lia. }
      by apply (Hn j token').
    + destruct (decide (j = i)) as [->|Hne]; [rewrite Hi in Hj; injection Hj as <-; lia|].
      assert (at_id token < at_id token') by (apply (sorted_ids i j); [lia|done|done]). lia.
Qed.

Definition segments_text (segs : list segment) : result (list Z) :=
  let* texts := rmapM segment_text segs in Ok (concat texts).

Lemma segments_text_cons seg segs x y :
  segment_text seg = Ok x -> segments_text segs = Ok y -> segments_text (seg :: segs) = Ok (x ++ y).
Proof.
  unfold segments_text. cbn [rmapM]. intros ->. destruct (rmapM segment_text segs); cbn [rbind]; [|done]. by intros [= <-].
Qed.

Lemma bytes_of_added token : token ∈ added_tokens_ t -> bytes_of_ids [at_id token] = Ok (at_content token).
Proof.
  intros Hin. destruct (wf_added t Hwf token Hin) as (H0 & Hne & Ht & Hv). apply bytes_of_id; [by apply valid_id|].
  rewrite (decode_valid _ (at_content token)) by done. unfold is_added_token_id.
  replace (existsb _ _) with true; [done|]. symmetry. apply existsb_exists. exists token. split; [by apply list_elem_of_In|lia].
Qed.

Lemma append_ordinary ids ordinary ids' :
  (if bool_decide (ordinary = []) then Ok ids else append_bpe_ids t ids ordinary) = Ok ids' ->
  exists n new, segment_text (Ordinary ordinary) = Ok n /\ ids' = ids ++ new /\ bytes_of_ids new = Ok n.
Proof.
  case_bool_decide as Ho.
  - intros [= <-]. exists [], []. rewrite app_nil_r. split_and!; try done. cbn [segment_text]. unfold normalized_text.
    by rewrite bool_decide_eq_true_2.
  - intros E. destruct (append_bpe_run _ _ _ E) as (n & new & H1 & H2 & H3 & _). by exists n, new.
Qed.

Lemma encode_from_run fuel ids ordinary text ids' :
  (forall i, (i < length ordinary)%nat -> no_token (drop i (ordinary ++ text))) ->
  encode_from fuel t ids ordinary text = Ok ids' ->
  exists segs new out, segmented (ordinary ++ text) segs /\ ids' = ids ++ new /\ segments_text segs = Ok out /\
    bytes_of_ids new = Ok out.
Proof.
  revert ids ordinary text. induction fuel as [|fuel IH]; intros ids ordinary text Hno.
  all: destruct text as [|b text]; cbn [encode_from];
    [intros E; destruct (append_ordinary _ _ _ E) as (n & new & H1 & -> & H2); rewrite app_nil_r in *;
     exists [Ordinary ordinary], new, n; split_and!; [by constructor|done| |done];
     pose proof (segments_text_cons (Ordinary ordinary) [] n [] H1 eq_refl) as Hs; by rewrite app_nil_r in Hs|].
  { done. }
  destruct (match_token_run (b :: text)) as [[-> Hn]|(token & -> & Hfirst)]; cbn [rbind].
  - intros E. assert (Ha : ordinary ++ b :: text = (ordinary ++ [b]) ++ text) by (by rewrite <- app_assoc).
    rewrite Ha in *. apply (IH _ _ _) in E; [done|]. intros i Hi. rewrite length_app in Hi. cbn in Hi.
    destruct (decide (i < length ordinary)%nat); [by apply Hno|]. replace i with (length ordinary) by lia.
    rewrite <- app_assoc, drop_app_length. done.
  - destruct (if bool_decide (ordinary = []) then _ else _) as [ids1|] eqn:E1; cbn [rbind]; [|done].
    destruct (append_ordinary _ _ _ E1) as (n & new1 & Hn1 & -> & Hb1). intros E.
    destruct Hfirst as (Htok & Hbeg & Hleast).
    set (rest := drop (length (at_content token)) (b :: text)) in *.
    assert (Hsplit : b :: text = at_content token ++ rest).
    { rewrite <- (take_drop (length (at_content token)) (b :: text)). unfold begins in Hbeg. by rewrite Hbeg. }
    apply IH in E as (segs & new2 & out & Hseg & -> & Ht & Hb2); [|intros i Hi; cbn in Hi; lia].
    cbn [app] in Hseg.
    exists (Ordinary ordinary :: Added token :: segs), (new1 ++ [at_id token] ++ new2), (n ++ at_content token ++ out).
    rewrite Hsplit in Hno |- *. split_and!.
    + apply seg_token; [done| |done]. rewrite <- Hsplit. by split_and!.
    + by rewrite <- !app_assoc.
    + apply segments_text_cons; [done|]. by apply segments_text_cons.
    + apply bytes_of_app; [done|]. apply bytes_of_app; [by apply bytes_of_added|done].
Qed.

(** What the tokens of a text spell: the text, normalized between its added tokens. *)
Lemma encode_run text parse ids :
  encode t text parse = Ok ids ->
  exists segs out, segments_text segs = Ok out /\ bytes_of_ids ids = Ok out /\ concat (map raw_text segs) = text /\
    if parse then text = [] \/ segmented text segs else segs = [Ordinary text].
Proof.
  unfold encode. case_bool_decide as Ht.
  { intros [= <-]. exists [Ordinary []], []. subst text. split_and!; try done. by destruct parse; [left|]. }
  destruct parse; cbn [negb]; intros E.
  - destruct (encode_from_run (length text) [] [] text ids) as (segs & new & out & Hs & -> & Ho & Hb); [cbn; lia|done|].
    exists segs, out. split_and!; try done; [|by right]. cbn [app] in Hs. clear -Hs.
    induction Hs as [o|o token rest segs _ _ _ IH]; cbn [map raw_text concat]; [by rewrite app_nil_r|by rewrite IH].
  - destruct (append_bpe_run _ _ _ E) as (n & new & H1 & -> & H2 & _). exists [Ordinary text], n. cbn [map raw_text concat].
    rewrite app_nil_r. split_and!; try done. pose proof (segments_text_cons (Ordinary text) [] n [] H1 eq_refl) as Hs. by rewrite app_nil_r in Hs.
Qed.

(** ** Decoding *)

Lemma decode_run ids out :
  bytes_of_ids ids = Ok out -> decode t ids false [] = (let* _ := utf8_codepoints out in Ok out).
Proof.
  intros Hb. unfold decode. assert (Hstop : (match last ids with
    | Some id => if is_stop_token_id [] id then (length ids - 1)%nat else length ids | None => length ids end) = length ids)
    by (by destruct (last ids)).
  rewrite Hstop. assert (Hgo : forall l o out, bytes_of_ids l = Ok out -> (o + length l <= length ids)%nat ->
    exists pieces, rmapM (fun '(i, id) => if (i =? length ids)%nat then Ok [] else tokenizer_decode_token_bytes t id false)
      (zip (seq o (length l)) l) = Ok pieces /\ concat pieces = out).
  { clear. intros l. induction l as [|id l IH]; intros o out; [intros [= <-] _; by exists []|]. cbn [length].
    change (zip (seq o (S (length l))) (id :: l)) with ((o, id) :: zip (seq (S o) (length l)) l). cbn [rmapM]. intros Hb Hl. cbn [token_bytes] in Hb.
    change (@decode_token_bytes (tokenizer_decoder t) id (negb true)) with (tokenizer_decode_token_bytes t id false) in Hb.
    destruct (throw_if _ _) as [[]|]; cbn [rbind] in Hb; [|done]. destruct (Nat.eqb_spec o (length ids)); [lia|].
    destruct (tokenizer_decode_token_bytes t id false) as [x|]; cbn [rbind] in Hb |- *; [|done].
    destruct (bytes_of_ids l) as [y|] eqn:El; cbn [rbind] in Hb; [|done]. injection Hb as <-.
    destruct (IH (S o) y eq_refl) as (pieces & Ep & Hc); [lia|]. rewrite Ep. cbn [rbind]. eexists. split; [done|].
    cbn [concat]. by rewrite Hc. }
  destruct (Hgo ids 0%nat out Hb) as (pieces & Ep & Hc); [lia|]. rewrite Ep. cbn [rbind]. by rewrite Hc.
Qed.

(** ** Failures *)

Lemma append_symbol_error ids bs e :
  Forall is_byte bs -> append_symbol_id ids (vocab_token_to_id_ t) (sym bs) = Err e -> e = InvalidArgument.
Proof.
  intros Hb. unfold append_symbol_id. destruct (vocab_token_to_id_ t !! sym bs); [done|].
  unfold sym. rewrite byte_level_symbols_spec by (by apply sym_scalars). cbn [rbind].
  unfold throw_if. destruct (_ <=? _)%nat; cbn [rbind]; [by intros [= <-]|]. generalize (map utf8_encode (map byte_char bs)). intros l.
  revert ids. induction l as [|x l IH]; intros ids; cbn [rfoldl]; [done|].
  destruct (vocab_token_to_id_ t !! x); cbn [rbind]; [apply IH|by intros [= <-]].
Qed.

Lemma append_word_error ids word e :
  Forall is_byte word -> append_word (bpe_merge_ranks_ t) (vocab_token_to_id_ t) ids word = Err e -> e = InvalidArgument.
Proof.
  intros Hb. unfold append_word. rewrite byte_level_encode_spec by done. cbn [rbind]. unfold sym.
  rewrite byte_level_symbols_spec by (by apply sym_scalars). cbn [rbind].
  assert (Hs : map utf8_encode (map byte_char word) = map sym (map (fun b => [b]) word)).
  { rewrite !map_map. apply map_ext. intros b. unfold sym, encode_all. cbn. by rewrite app_nil_r. }
  rewrite Hs. set (symbols := map sym _).
  destruct (bpe_merge_run (bpe_merge_ranks_ t) (length symbols) symbols) as (s' & -> & Hr & _); [lia|]. cbn [rbind].
  apply bpe_steps_sym in Hr as (bss' & -> & Hc).
  assert (Hbs : Forall is_byte (concat bss')).
  { rewrite Hc. assert (Hw : concat (map (fun b => [b]) word) = word) by (clear; induction word as [|b word IH]; [done|cbn; by f_equal]).
    by rewrite Hw. }
  clear Hc Hs symbols. revert ids Hbs. induction bss' as [|bs bss IH]; intros ids Hbs; cbn [map rfoldl]; [done|].
  cbn [concat] in Hbs. apply Forall_app in Hbs as [H1 H2]. destruct (append_symbol_id _ _ _) as [ids1|e1] eqn:E1; cbn [rbind].
  - by apply IH.
  - intros [= <-]. exact (append_symbol_error _ _ _ H1 E1).
Qed.

Lemma append_bpe_error ids text e : append_bpe_ids t ids text = Err e -> e = InvalidArgument.
Proof.
  unfold append_bpe_ids. case_bool_decide; [done|]. rewrite (wf_merges t Hwf). cbn [negb throw_if rbind]. unfold normalize_nfc.
  destruct (utf8proc_map_nfc text) as [n|] eqn:En; cbn [rbind]; [|by intros [= <-]]. pose proof (Hnfc _ _ En) as Hb.
  destruct (qwen_split_words n) as [words|e1] eqn:Ew; cbn [rbind].
  - destruct (split_words_inv _ _ Hb Ew) as (<- & _). clear Ew En. revert ids. induction words as [|w words IH]; intros ids; cbn [rfoldl]; [done|].
    cbn [concat] in Hb. apply Forall_app in Hb as [H1 H2]. destruct (append_word _ _ _ _) eqn:E1; cbn [rbind]; [by apply IH|].
    intros [= <-]. exact (append_word_error _ _ _ H1 E1).
  - intros [= <-]. unfold qwen_split_words in Ew. destruct (utf8_codepoints n) as [spans|e2] eqn:Es; cbn [rbind] in Ew.
    + exfalso. destruct (codepoints_sound _ _ _ _ (Nat.le_refl _) Hb Es) as (cs & Hcs & -> & ->). rewrite spans_length in Ew.
      destruct (split_words_run (length cs) [] cs) as (w & Ew' & _); [lia|]. cbn [app length] in Ew'. congruence.
    + injection Ew as <-. by eapply codepoints_error.
Qed.

Lemma encode_error text parse e : encode t text parse = Err e -> e = InvalidArgument.
Proof.
  unfold encode. case_bool_decide; [done|]. destruct parse; cbn [negb]; [|apply append_bpe_error].
  assert (Hgo : forall fuel ids ordinary text, (length text <= fuel)%nat -> encode_from fuel t ids ordinary text = Err e -> e = InvalidArgument).
  { clear text H0. induction fuel as [|fuel IH]; intros ids ordinary text Hf.
    all: destruct text as [|b text]; cbn [encode_from]; [case_bool_decide; [done|apply append_bpe_error]|cbn in Hf; try lia].
    destruct (match_token_run (b :: text)) as [[-> Hn]|(token & -> & Htok & _)]; cbn [rbind].
    - apply IH. lia.
    - destruct (if bool_decide (ordinary = []) then _ else _) as [ids1|e1] eqn:E1; cbn [rbind].
      + apply IH. rewrite length_drop. cbn [length]. destruct (wf_added t Hwf token Htok) as (_ & Hne & _).
        destruct (at_content token); [done|cbn; lia].
      + intros [= <-]. revert E1. case_bool_decide; [done|apply append_bpe_error]. }
  by apply Hgo.
Qed.
End Roundtrip.

(** ** Tables for examples *)

Module SampleTables.

(** Letters are letters; every text of bytes is in normal form. *)
#[export] Instance tables : CharacterTables := {
  utf8proc_category := fun c => if (97 <=? c) && (c <=? 122) then LL else PO;
  utf8proc_map_nfc := fun text => if forallb (fun b => (0 <=? b) && (b <? 256)) text then Some text else None;
}.
Lemma tables_bytes text n : utf8proc_map_nfc text = Some n -> Forall is_byte n.
Proof.
  cbn. destruct (forallb _ text) eqn:E; [|done]. intros [= <-]. rewrite forallb_forall in E. apply Forall_forall.
  intros b Hb%list_elem_of_In. specialize (E b Hb). unfold is_byte. lia.
Qed.

Lemma split_words_partition_witness :
  exists words, qwen_split_words (encode_all [97; 98; 33]) = Ok words /\ concat words = encode_all [97; 98; 33] /\
    Forall (fun w => w <> []) words.
Proof. apply (split_words_partition [97; 98; 33]). unfold is_scalar. repeat constructor; lia. Defined.
End SampleTables.
