(* ===== verification/TokenizerLoad.v ===== *)
(** * Loading a tokenizer

    Whatever the files hold, a tokenizer that is built is consistent. *)
From stdpp Require Import gmap sorting.
From S2P Require Import Prelude Unicode UnicodeProofs Admission Capacity Contract Output Tokenizer TokenizerProofs.
#[local] Open Scope Z_scope.

(** ** Containers *)

Lemma set_at_Ok {A} i (x : A) l l' : set_at i x l = Ok l' -> 0 <= i < Z.of_nat (length l) /\ l' = <[Z.to_nat i := x]> l.
Proof. unfold set_at. destruct (_ && _) eqn:E; [|done]. intros [= <-]. split; [lia|done]. Qed.

Lemma grow_lookup {A} n (x : A) l i y : l !! i = Some y -> grow n x l !! i = Some y.
Proof. intros E. unfold grow. rewrite lookup_app_l; [done|]. by eapply lookup_lt_Some. Qed.
Lemma grow_length {A} n (x : A) l : length (grow n x l) = Nat.max n (length l).
Proof. unfold grow. rewrite length_app, length_replicate. lia. Qed.
Lemma grow_inv {A} n (x : A) l i y : grow n x l !! i = Some y -> l !! i = Some y \/ y = x.
Proof.
  unfold grow. rewrite lookup_app. destruct (l !! i); [by left|]. intros [-> _]%lookup_replicate. by right.
Qed.

Lemma emplace_lookup {A} k (x : A) m k' y : emplace k x m !! k' = Some y -> m !! k' = Some y \/ (k' = k /\ y = x).
Proof.
  unfold emplace. destruct (m !! k) eqn:E; [by left|]. destruct (decide (k' = k)) as [->|Hne].
  - rewrite lookup_insert_eq. intros [= <-]. by right.
  - rewrite lookup_insert_ne by done. by left.
Qed.
Lemma emplace_in {A} k (x : A) m : is_Some (emplace k x m !! k).
Proof. unfold emplace. destruct (m !! k) eqn:E; [by rewrite E|by rewrite lookup_insert_eq]. Qed.
Lemma emplace_mono {A} k (x : A) m k' : is_Some (m !! k') -> is_Some (emplace k x m !! k').
Proof.
  unfold emplace. destruct (m !! k) eqn:E; [done|]. intros Hs. destruct (decide (k' = k)) as [->|Hne]; [by rewrite lookup_insert_eq|].
  by rewrite lookup_insert_ne.
Qed.

(** ** The vocabulary *)

Definition parsed_items (items : list (list Z * Json)) (ids : list Z) : Prop :=
  Forall2 (fun item id => parse_token_id item.2 = Ok id) items ids.

Lemma vocab_ids_run items occ m occ' m' :
  vocab_ids items occ m = Ok (occ', m') ->
  exists ids, parsed_items items ids /\ NoDup ids /\ (forall id, id ∈ ids -> id ∉ occ) /\
    (forall id, id ∈ occ' <-> id ∈ occ \/ id ∈ ids).
Proof.
  revert occ m. induction items as [|[key value] items IH]; intros occ m; cbn [vocab_ids].
  - intros [= <- <-]. exists []. split; [by constructor|]. split; [by constructor|]. split; [intros id Hin; by apply elem_of_nil in Hin|].
    intros id. rewrite elem_of_nil. naive_solver.
  - destruct (parse_token_id value) as [id|] eqn:Ep; cbn [rbind]; [|done]. case_bool_decide as Hin; cbn [throw_if rbind]; [done|].
    intros E. destruct (IH _ _ E) as (ids & Hp & Hnd & Hout & Hocc). exists (id :: ids). split; [by constructor|]. split.
    { constructor; [|done]. intros Hid. apply (Hout id Hid). set_solver. }
    split.
    + intros i [->|Hi]%elem_of_cons; [done|]. specialize (Hout i Hi). set_solver.
    + intros i. rewrite Hocc, elem_of_cons. set_solver.
Qed.

Lemma vocab_tokens_run items ids v m v' m' :
  parsed_items items ids -> NoDup ids -> vocab_tokens items v m = Ok (v', m') ->
  length v' = length v /\
  (forall i, Z.of_nat i ∉ ids -> v' !! i = v !! i) /\
  (forall key id, m' !! key = Some id -> m !! key = Some id \/ (id ∈ ids /\ 0 <= id /\ v' !! Z.to_nat id = Some key)) /\
  (forall id, id ∈ ids -> 0 <= id /\ exists key, v' !! Z.to_nat id = Some key /\ is_Some (m' !! key)) /\
  (forall key, is_Some (m !! key) -> is_Some (m' !! key)).
Proof.
  intros Hp. revert v m. induction Hp as [|[key value] id items ids Ep _ IH]; intros v m Hnd; cbn [vocab_tokens].
  { intros [= <- <-]. split; [done|]. split; [done|]. split; [by left|]. split; [|done]. intros id Hin. by apply elem_of_nil in Hin. }
  apply NoDup_cons in Hnd as [Hid Hnd]. cbn [snd] in Ep. rewrite Ep. cbn [rbind].
  destruct (set_at id key v) as [v1|] eqn:Es; cbn [rbind]; [|done]. apply set_at_Ok in Es as [Hr ->]. intros E.
  destruct (IH _ _ Hnd E) as (H1 & H2 & H3 & H4 & H5). rewrite length_insert in H1.
  assert (Hv : v' !! Z.to_nat id = Some key).
  { rewrite H2 by (rewrite Z2Nat.id by lia; done). apply list_lookup_insert_eq. lia. }
  split; [done|]. split; [|split; [|split]].
  - intros i Hi. rewrite not_elem_of_cons in Hi. rewrite H2 by naive_solver. apply list_lookup_insert_ne. lia.
  - intros k i Hk. destruct (H3 k i Hk) as [Hm|(Hin & H0 & Hl)].
    + destruct (emplace_lookup _ _ _ _ _ Hm) as [Hm'|[-> ->]]; [by left|]. right. split; [left|split; [lia|done]].
    + right. split; [by right|done].
  - intros i [->|Hi]%elem_of_cons; [|by apply H4]. split; [lia|]. exists key. split; [done|]. apply H5. apply emplace_in.
  - intros k Hk. apply H5. by apply emplace_mono.
Qed.

(** What [load_vocab] promises. *)
Definition vocab_ok (vm : VocabMetadata) : Prop :=
  (forall key id, vm_token_to_id vm !! key = Some id -> id ∈ vm_occupied_ids vm /\ 0 <= id /\ vm_id_to_token vm !! Z.to_nat id = Some key) /\
  (forall id, id ∈ vm_occupied_ids vm -> 0 <= id /\ exists key, vm_id_to_token vm !! Z.to_nat id = Some key /\ is_Some (vm_token_to_id vm !! key)).

Lemma load_vocab_ok model vm : load_vocab model = Ok vm -> vocab_ok vm.
Proof.
  unfold load_vocab. destruct (throw_if _ _); cbn [rbind]; [|done]. destruct (require_object_field _ _) as [vocab|]; cbn [rbind]; [|done].
  destruct (throw_if _ _); cbn [rbind]; [|done]. destruct (vocab_ids vocab ∅ (-1)) as [[occ max_id]|] eqn:Ei; cbn [rbind]; [|done].
  destruct (vocab_tokens _ _ _) as [[v m]|] eqn:Et; cbn [rbind]; [|done]. intros [= <-].
  destruct (vocab_ids_run _ _ _ _ _ Ei) as (ids & Hp & Hnd & _ & Hocc).
  destruct (vocab_tokens_run _ _ _ _ _ _ Hp Hnd Et) as (_ & _ & H3 & H4 & _). split; cbn [vm_token_to_id vm_occupied_ids vm_id_to_token fst snd].
  - intros key id Hk. destruct (H3 key id Hk) as [Hm|(Hin & H0 & Hl)]; [by rewrite lookup_empty in Hm|]. rewrite Hocc. naive_solver.
  - intros id Hid. apply H4. rewrite Hocc in Hid. set_solver.
Qed.

(** ** The added tokens *)

(** The added tokens read so far and the table of texts, beside a vocabulary. *)
Record added_inv (vm : VocabMetadata) (tokens : list AddedToken) (v : list (list Z)) : Prop := {
  ai_vocab : forall i key, vm_id_to_token vm !! i = Some key -> Z.of_nat i ∈ vm_occupied_ids vm -> v !! i = Some key;
  ai_tokens : forall token, token ∈ tokens ->
    0 <= at_id token /\ at_content token <> [] /\ (at_id token ∉ vm_occupied_ids vm) /\ v !! Z.to_nat (at_id token) = Some (at_content token);
  ai_distinct : NoDup (map at_id tokens);
  ai_length : (length (vm_id_to_token vm) <= length v)%nat;
}.

Lemma added_inv_initial vm : added_inv vm [] (vm_id_to_token vm).
Proof. constructor; [done| |constructor|done]. intros token Hin. by apply elem_of_nil in Hin. Qed.

Lemma validate_added_content token : validate_supported_added_token token = Ok tt -> at_content token <> [].
Proof. unfold validate_supported_added_token. case_bool_decide; cbn [throw_if rbind]; done. Qed.

Lemma added_inv_add vm tokens v token :
  added_inv vm tokens v -> 0 <= at_id token -> at_content token <> [] -> at_id token ∉ vm_occupied_ids vm ->
  at_id token ∉ map at_id tokens ->
  let index := Z.to_nat (at_id token) in
  let v1 := if (length v <=? index)%nat then grow (index + 1) [] v else v in
  added_inv vm (tokens ++ [token]) (<[index := at_content token]> v1).
Proof.
  intros [H1 H2 H3 H4] H0 Hc Ho Hn index v1.
  assert (Hmono : forall i x, v !! i = Some x -> v1 !! i = Some x) by (intros i x E; unfold v1; destruct (_ <=? _)%nat; [by apply grow_lookup|done]).
  assert (Hlen : (index < length v1)%nat /\ (length v <= length v1)%nat).
  { unfold v1. destruct (Nat.leb_spec (length v) index); [rewrite grow_length|]; lia. }
  constructor.
  - intros i key Hi Hocc. rewrite list_lookup_insert_ne; [by apply Hmono, H1|]. intros He. apply Ho.
    by replace (at_id token) with (Z.of_nat i) by (unfold index in He; lia).
  - intros tk [Hin|Hin%list_elem_of_singleton]%elem_of_app.
    + destruct (H2 tk Hin) as (T1 & T2 & T3 & T4). split_and!; try done. rewrite list_lookup_insert_ne; [by apply Hmono|].
      intros He. apply Hn. apply list_elem_of_fmap. exists tk. split; [unfold index in He; lia|done].
    + subst tk. split_and!; try done. apply list_lookup_insert_eq. lia.
  - rewrite map_app. apply NoDup_app. split; [done|]. split; [|apply NoDup_singleton]. intros x Hx Hy. cbn in Hy.
    apply list_elem_of_singleton in Hy. by subst x.
  - rewrite length_insert. lia.
Qed.

Lemma load_added_run added vm seen contents tokens v tokens' v' :
  added_inv vm tokens v -> (forall id, id ∈ map at_id tokens -> id ∈ seen) ->
  load_added_tokens_from added (vm_occupied_ids vm) (vm_token_to_id vm) seen contents tokens v = Ok (tokens', v') ->
  added_inv vm tokens' v'.
Proof.
  revert seen contents tokens v. induction added as [|item added IH]; intros seen contents tokens v Hi Hs; cbn [load_added_tokens_from].
  { by intros [= <- <-]. }
  destruct (parse_added_token item) as [token|]; cbn [rbind]; [|done].
  destruct (validate_supported_added_token token) as [[]|] eqn:Ev; cbn [rbind]; [|done].
  case_bool_decide as Ho; cbn [throw_if rbind]; [done|]. case_bool_decide as Hd; cbn [throw_if rbind]; [done|].
  destruct (throw_if _ _); cbn [rbind]; [|done].
  destruct (set_at _ _ _) as [v1|] eqn:Es; cbn [rbind]; [|done]. apply set_at_Ok in Es as [Hr ->]. apply IH.
  - apply added_inv_add; [done|lia|by apply validate_added_content|done|]. intros Hin. by apply Hd, Hs.
  - intros id. rewrite map_app. intros [Hin|Hin%list_elem_of_singleton]%elem_of_app; [set_solver|]. cbn in Hin. set_solver.
Qed.

Lemma index_tokens_run k tokens by_id by_content :
  forall id, (is_Some (by_id !! id) \/ id ∈ map at_id tokens) -> is_Some ((index_tokens k tokens by_id by_content).1 !! id).
Proof.
  revert k by_id by_content. induction tokens as [|token tokens IH]; intros k by_id by_content id; cbn [index_tokens].
  { intros [H|Hin]; [done|by apply elem_of_nil in Hin]. }
  intros H. apply IH. destruct (by_id !! at_id token) eqn:E.
  - destruct H as [H|[->|Hin]%elem_of_cons]; [by left|left; by rewrite E|by right].
  - destruct (decide (id = at_id token)) as [->|Hne]; [left; by rewrite lookup_insert_eq|]. rewrite lookup_insert_ne by done.
    destruct H as [H|[->|Hin]%elem_of_cons]; [by left|done|by right].
Qed.

Lemma parse_decoder_id_Ok key id : parse_added_token_decoder_id key = Ok id -> 0 <= id.
Proof.
  unfold parse_added_token_decoder_id. destruct (from_chars key) as [[parsed []]|]; [|done..].
  destruct (parsed <? 0) eqn:E; cbn [orb throw_if rbind]; [done|]. destruct (throw_if _ _); cbn [rbind]; [|done]. intros [= <-]. lia.
Qed.
Lemma decoder_entry_id id item token : parse_added_token_decoder_entry id item = Ok token -> at_id token = id.
Proof.
  unfold parse_added_token_decoder_entry. destruct (throw_if _ _); cbn [rbind]; [|done].
  destruct (require_string_field _ _); cbn [rbind]; [|done]. repeat (destruct (require_bool_field _ _); cbn [rbind]; [|done]).
  by intros [= <-].
Qed.

Lemma merge_decoder_run items vm seen by_id by_content tokens v tokens' v' :
  added_inv vm tokens v -> (forall id, id ∈ map at_id tokens -> is_Some (by_id !! id)) ->
  merge_decoder_from items (vm_occupied_ids vm) (vm_token_to_id vm) seen by_id by_content tokens v = Ok (tokens', v') ->
  added_inv vm tokens' v'.
Proof.
  revert seen by_id by_content tokens v. induction items as [|[key value] items IH]; intros seen by_id by_content tokens v Hi Hs;
    cbn [merge_decoder_from]; [by intros [= <- <-]|].
  destruct (parse_added_token_decoder_id key) as [id|] eqn:Ek; cbn [rbind]; [|done]. apply parse_decoder_id_Ok in Ek.
  destruct (throw_if _ _); cbn [rbind]; [|done].
  destruct (parse_added_token_decoder_entry id value) as [token|] eqn:Et; cbn [rbind]; [|done]. apply decoder_entry_id in Et. subst id.
  destruct (validate_supported_added_token token) as [[]|] eqn:Ev; cbn [rbind]; [|done].
  destruct (by_id !! at_id token) as [k|] eqn:Eb.
  { destruct (tokens !! k); [|done]. destruct (throw_if _ _); cbn [rbind]; [|done]. by apply IH. }
  case_bool_decide as Ho; cbn [throw_if rbind]; [done|]. destruct (throw_if _ _); cbn [rbind]; [|done].
  destruct (throw_if _ _); cbn [rbind]; [|done]. apply IH.
  - apply added_inv_add; [done|done|by apply validate_added_content|done|]. intros Hin%Hs. rewrite Eb in Hin. by destruct Hin.
  - intros id. rewrite map_app. intros Hin. destruct (decide (id = at_id token)) as [->|Hne]; [by rewrite lookup_insert_eq|].
    rewrite lookup_insert_ne by done. apply elem_of_app in Hin as [Hin|Hin%list_elem_of_singleton]; [by apply Hs|done].
Qed.

(** ** Validity and candidates *)

Lemma mark_valid_run ids v v' :
  mark_valid ids v = Ok v' ->
  length v' = length v /\ (forall id, id ∈ ids -> 0 <= id) /\
  forall i, v' !! i = Some true <-> v !! i = Some true \/ Z.of_nat i ∈ ids.
Proof.
  revert v. induction ids as [|id ids IH]; intros v; cbn [mark_valid].
  - intros [= <-]. split; [done|]. split; [intros id Hin; by apply elem_of_nil in Hin|]. intros i. rewrite elem_of_nil. naive_solver.
  - destruct (set_at id true v) as [v1|] eqn:Es; cbn [rbind]; [|done]. apply set_at_Ok in Es as [Hr ->]. intros E.
    destruct (IH _ E) as (H1 & H2 & H3). rewrite length_insert in H1. split; [done|]. split; [intros j [->|Hj]%elem_of_cons; [lia|by apply H2]|].
    intros i. rewrite H3, elem_of_cons. destruct (decide (i = Z.to_nat id)) as [->|Hne].
    + rewrite list_lookup_insert_eq by lia. rewrite Z2Nat.id by lia. naive_solver.
    + rewrite list_lookup_insert_ne by done. assert (Z.of_nat i <> id) by lia. naive_solver.
Qed.

Lemma build_candidates_run k tokens m b dummy :
  default [] (build_candidates k tokens m !! b) =
  default [] (m !! b) ++ filter (fun i => head (at_content (nth (i - k) tokens dummy)) = Some b) (seq k (length tokens)).
Proof.
  revert k m. induction tokens as [|token tokens IH]; intros k m; cbn [build_candidates length seq]; [by rewrite app_nil_r|].
  rewrite IH. rewrite filter_cons. rewrite Nat.sub_diag. cbn [nth].
  assert (Hf : filter (fun i => head (at_content (nth (i - S k) tokens dummy)) = Some b) (seq (S k) (length tokens)) =
               filter (fun i => head (at_content (nth (i - k) (token :: tokens) dummy)) = Some b) (seq (S k) (length tokens))).
  { apply filter_ext_Forall. apply Forall_forall. intros i Hi%elem_of_seq. replace (i - k)%nat with (S (i - S k)) by lia. done. }
  rewrite Hf. destruct (at_content token) as [|front rest]; cbn [head].
  - by rewrite decide_False by done.
  - destruct (decide (b = front)) as [->|Hne].
    + rewrite lookup_insert_eq, decide_True by done. cbn [from_option]. unfold id at 1. by rewrite <- app_assoc.
    + rewrite lookup_insert_ne by done. rewrite decide_False by congruence. done.
Qed.

(** ** The tokenizer *)

Lemma merge_sorted vm tokens v :
  added_inv vm tokens v -> let sorted := merge_sort id_le tokens in
  added_inv vm sorted v /\ StronglySorted (fun a b => at_id a < at_id b) sorted.
Proof.
  intros [H1 H2 H3 H4] sorted. assert (Hp : sorted ≡ₚ tokens) by apply merge_sort_Permutation.
  assert (Hnd : NoDup (map at_id sorted)) by (by rewrite Hp).
  split.
  - constructor; [done| |done|done]. intros token. rewrite Hp. apply H2.
  - assert (Hs : StronglySorted id_le sorted).
    { apply Sorted_StronglySorted; [intros a b c; unfold id_le; lia|]. apply Sorted_merge_sort. intros a b. unfold id_le. lia. }
    clearbody sorted. clear -Hs Hnd. induction Hs as [|x l Hs IH Hx]; [constructor|]. cbn in Hnd. apply NoDup_cons in Hnd as [Hn Hnd].
    constructor; [by apply IH|]. rewrite Forall_forall in Hx |- *. intros y Hy. specialize (Hx y Hy). unfold id_le in Hx.
    assert (at_id x <> at_id y); [|lia]. intros He. apply Hn. apply list_elem_of_fmap. by exists y.
Qed.

Lemma added_id_in tokens id : is_added_token_id tokens id = true <-> id ∈ map at_id tokens.
Proof.
  unfold is_added_token_id. rewrite existsb_exists, list_elem_of_fmap. split.
  - intros (x & Hin%list_elem_of_In & He). exists x. split; [lia|done].
  - intros (x & -> & Hin%list_elem_of_In). exists x. split; [done|lia].
Qed.

Lemma make_tokenizer_run json_parse tokenizer_json config_json generation_json t :
  make_tokenizer json_parse tokenizer_json config_json generation_json = Ok t -> tokenizer_wf t.
Proof.
  unfold make_tokenizer. destruct (throw_if _ _); cbn [rbind]; [|done].
  destruct (match json_parse tokenizer_json with Some _ => _ | None => _ end) as [root|]; cbn [rbind]; [|done].
  destruct (match json_parse config_json with Some _ => _ | None => _ end) as [config|]; cbn [rbind]; [|done].
  destruct (require_object_field root _) as [model|]; cbn [rbind]; [|done].
  destruct (load_vocab (JObject model)) as [vm|] eqn:Evm; cbn [rbind]; [|done]. apply load_vocab_ok in Evm as [Hvm1 Hvm2].
  destruct (mark_valid (elements _) _) as [valid0|] eqn:Ev0; cbn [rbind]; [|done]. apply mark_valid_run in Ev0 as (L0 & _ & V0).
  rewrite length_replicate in L0.
  destruct (load_added_tokens root _ _ _) as [[tokens1 v1]|] eqn:Ea; cbn [rbind]; [|done].
  unfold load_added_tokens in Ea. destruct (require_array_field root _) as [added|]; cbn [rbind] in Ea; [|done].
  apply load_added_run in Ea; [|apply added_inv_initial|intros id Hin; by apply elem_of_nil in Hin]. cbn [fst snd].
  destruct (merge_added_tokens_decoder config v1 _ _ tokens1) as [[tokens2 v2]|] eqn:Em; cbn [rbind]; [|done].
  unfold merge_added_tokens_decoder in Em. destruct (require_object_field config _) as [decoder|]; cbn [rbind] in Em; [|done].
  destruct (index_tokens 0 tokens1 ∅ ∅) as [by_id by_content] eqn:Ei.
  destruct (merge_decoder_from _ _ _ _ _ _ _ _) as [[tokens3 v3]|] eqn:Emd; cbn [rbind fst snd] in Em; [|done]. injection Em as <- <-.
  assert (Hai : added_inv vm tokens3 v3).
  { eapply merge_decoder_run; [exact Ea| |exact Emd]. intros id Hin. pose proof (index_tokens_run 0 tokens1 ∅ ∅ id (or_intror Hin)) as Hs.
    by rewrite Ei in Hs. }
  destruct (merge_sorted vm tokens3 v3 Hai) as [Hai' Hsorted]. set (tokens := merge_sort id_le tokens3) in *. clearbody tokens. clear Hai Ei Emd Ea.
  set (valid1 := if (length valid0 <? length v3)%nat then _ else _).
  destruct (mark_valid (map at_id tokens) valid1) as [valid|] eqn:Ev; cbn [rbind]; [|done]. apply mark_valid_run in Ev as (L1 & _ & V1).
  destruct (load_bpe_merge_ranks _) as [ranks|]; cbn [rbind]; [|done].
  destruct (match json_parse generation_json with Some _ => _ | None => _ end) as [generation|]; cbn [rbind]; [|done].
  destruct (load_default_stop_token_ids generation) as [stops|]; cbn [rbind]; [|done]. intros [= <-].
  destruct Hai' as [A1 A2 A3 A4].
  assert (Hvalid1 : (forall i, valid1 !! i = Some true <-> valid0 !! i = Some true) /\ length valid1 = length v3).
  { unfold valid1. destruct (Nat.ltb_spec (length valid0) (length v3)) as [Hl|Hl]; [|split; [done|lia]]. split; [|rewrite grow_length; lia].
    intros i. split; [|apply grow_lookup]. by intros [H|H]%grow_inv. }
  destruct Hvalid1 as [Hv1 Hl1].
  assert (Hocc : forall i, valid0 !! i = Some true <-> Z.of_nat i ∈ vm_occupied_ids vm).
  { intros i. rewrite V0, elem_of_elements. split; [|by right]. intros [Hr|H]; [|done]. by apply lookup_replicate in Hr as [? _]. }
  assert (Hval : forall id, 0 <= id -> id ∈ vm_occupied_ids vm -> valid !! Z.to_nat id = Some true).
  { intros id H0 Hin. apply V1. left. apply Hv1, Hocc. by rewrite Z2Nat.id. }
  constructor; cbn [vocab_token_to_id_ id_to_token_ valid_token_ids_ added_tokens_ added_token_candidates_ has_bpe_merges_].
  - intros token id Hid. destruct (Hvm1 token id Hid) as (Hin & H0 & Ht). split_and!; [done|apply A1; [done|by rewrite Z2Nat.id]|by apply Hval|].
    apply not_true_iff_false. rewrite added_id_in. intros (tk & -> & Htk)%list_elem_of_fmap. by destruct (A2 tk Htk) as (_ & _ & Hno & _).
  - intros token Hin. destruct (A2 token Hin) as (H0 & Hc & _ & Ht). split_and!; try done. apply V1. right. rewrite Z2Nat.id by done.
    apply list_elem_of_fmap. by exists token.
  - done.
  - done.
  - intros b. rewrite (build_candidates_run 0 tokens ∅ b (mkAdded 0 [] false false false false false)), lookup_empty. cbn [from_option app].
    apply filter_ext_Forall. apply Forall_forall. intros i _. by rewrite Nat.sub_0_r.
  - intros i Hi. apply V1 in Hi as [Hi|Hi]; [left|right; by apply added_id_in]. apply Hv1, Hocc in Hi.
    destruct (Hvm2 _ Hi) as (_ & key & Hk & Hs). rewrite Nat2Z.id in Hk. exists key. split; [by apply A1|done].
  - lia.
  - done.
Qed.

(** whatever the three files hold, a tokenizer that is built is consistent: every vocabulary entry is found
    again by its id, the added tokens have distinct ids of their own and are sorted, the candidates of a byte are
    exactly the added tokens that begin with it, and the valid ids are those of an entry or an added token. *)
Theorem make_tokenizer_consistent json_parse tokenizer_json config_json generation_json t :
  make_tokenizer json_parse tokenizer_json config_json generation_json = Ok t -> tokenizer_wf t.
Proof. apply make_tokenizer_run. Qed.

Section Files.
Context (json_parse : list Z -> option Json) `{CharacterTables}.
(** The normal form is a string of bytes. *)
Context (Hnfc : forall text n, utf8proc_map_nfc text = Some n -> Forall is_byte n).

(** C17: decoding is the inverse of encoding: the tokens of a text are valid, and they decode to the text, its
    ordinary parts in normal form and its added tokens as they are; those are found from left to right, at each
    place the one of the least id. *)
Theorem tokenizer_roundtrip tokenizer_json config_json generation_json t text parse ids :
  make_tokenizer json_parse tokenizer_json config_json generation_json = Ok t ->
  encode t text parse = Ok ids ->
  exists segs out, concat (map raw_text segs) = text /\
    (if parse then text = [] \/ segmented t text segs else segs = [Ordinary text]) /\
    segments_text segs = Ok out /\
    @OutputTheorems.token_bytes (tokenizer_decoder t) true ids = Ok out /\
    decode t ids false [] = (let* _ := utf8_codepoints out in Ok out).
Proof.
  intros Hm He. apply make_tokenizer_run in Hm.
  destruct (encode_run t Hm Hnfc text parse ids He) as (segs & out & H1 & H2 & H3 & H4). exists segs, out.
  split_and!; try done. by apply decode_run.
Qed.

(** without added tokens, decoding what was encoded gives the normal form of the text. *)
Theorem tokenizer_roundtrip_ordinary tokenizer_json config_json generation_json t text ids :
  make_tokenizer json_parse tokenizer_json config_json generation_json = Ok t -> text <> [] ->
  encode t text false = Ok ids -> exists n, normalize_nfc text = Ok n /\ decode t ids false [] = Ok n.
Proof.
  intros Hm Hne He. apply make_tokenizer_run in Hm. unfold encode in He. rewrite bool_decide_eq_false_2 in He by done. cbn [negb] in He.
  destruct (append_bpe_run t Hm Hnfc _ _ _ He) as (n & new & Hn & -> & Hb & cs & Hcs & ->). unfold normalized_text in Hn.
  rewrite bool_decide_eq_false_2 in Hn by done. exists (encode_all cs). split; [done|]. cbn [app].
  rewrite (decode_run t new (encode_all cs) Hb), codepoints_all by done. done.
Qed.

(** encoding ends, and fails only on text the tokenizer has no tokens for or that cannot be normalized: none of
    its lookups is out of range and none of its loops runs out of the steps the model gives it. *)
Theorem tokenizer_encode_errors tokenizer_json config_json generation_json t text parse e :
  make_tokenizer json_parse tokenizer_json config_json generation_json = Ok t ->
  encode t text parse = Err e -> e = InvalidArgument.
Proof. intros Hm He. apply make_tokenizer_run in Hm. by eapply encode_error. Qed.
End Files.

(** ** A tokenizer *)

Module Sample.
Import (notations) Strings.String.
#[local] Open Scope string_scope.
#[local] Open Scope list_scope.
#[local] Open Scope Z_scope.

Import SampleTables.

Definition added : list (list Z * Json) :=
  [(bytes_of "content", JString (bytes_of "<x>")); (bytes_of "id", JUnsigned 3); (bytes_of "lstrip", JBool false);
   (bytes_of "normalized", JBool false); (bytes_of "rstrip", JBool false); (bytes_of "single_word", JBool false);
   (bytes_of "special", JBool true)].
Definition tokenizer_file : Json := JObject
  [(bytes_of "added_tokens", JArray [JObject added]);
   (bytes_of "model", JObject
     [(bytes_of "merges", JArray [JArray [JString (bytes_of "a"); JString (bytes_of "b")]]);
      (bytes_of "type", JString (bytes_of "BPE"));
      (bytes_of "vocab", JObject [(bytes_of "a", JUnsigned 0); (bytes_of "ab", JUnsigned 2); (bytes_of "b", JUnsigned 1)])])].
Definition config_file : Json := JObject [(bytes_of "added_tokens_decoder", JObject [(bytes_of "3", JObject added)])].
Definition generation_file : Json := JObject [(bytes_of "eos_token_id", JUnsigned 3)].

(** The files are named by their first byte. *)
Definition parse (text : list Z) : option Json :=
  match text with [1] => Some tokenizer_file | [2] => Some config_file | [3] => Some generation_file | _ => None end.
Definition loaded : result Tokenizer := make_tokenizer parse [1] [2] [3].
Definition tok : Tokenizer := match loaded with Ok t => t | Err _ => mkTokenizer [] [] ∅ ∅ true [] ∅ [] end.
Lemma tok_loaded : make_tokenizer parse [1] [2] [3] = Ok tok.
Proof. vm_compute. reflexivity. Qed.

Lemma make_tokenizer_consistent_witness : tokenizer_wf tok.
Proof. apply (make_tokenizer_consistent parse [1] [2] [3] tok). vm_compute. reflexivity. Defined.

Lemma tokenizer_roundtrip_witness :
  exists segs out, concat (map raw_text segs) = bytes_of "ab<x>b" /\
    (bytes_of "ab<x>b" = [] \/ segmented tok (bytes_of "ab<x>b") segs) /\ segments_text segs = Ok out /\
    @OutputTheorems.token_bytes (tokenizer_decoder tok) true [2; 3; 1] = Ok out /\
    decode tok [2; 3; 1] false [] = (let* _ := utf8_codepoints out in Ok out).
Proof.
  apply (tokenizer_roundtrip parse tables_bytes [1] [2] [3] tok (bytes_of "ab<x>b") true [2; 3; 1] tok_loaded).
  vm_compute. reflexivity.
Defined.

Lemma tokenizer_roundtrip_ordinary_witness :
  exists n, normalize_nfc (bytes_of "ab") = Ok n /\ decode tok [2] false [] = Ok n.
Proof.
  apply (tokenizer_roundtrip_ordinary parse tables_bytes [1] [2] [3] tok (bytes_of "ab") [2] tok_loaded); [discriminate|].
  vm_compute. reflexivity.
Defined.

(** The letter c has no token. *)
Lemma tokenizer_encode_errors_witness : InvalidArgument = InvalidArgument.
Proof.
  apply (tokenizer_encode_errors parse tables_bytes [1] [2] [3] tok (bytes_of "c") true InvalidArgument tok_loaded).
  vm_compute. reflexivity.
Defined.
End Sample.
