(* ===== verification/ToolCalls.v ===== *)
(** * Tool calls in generated text: [src/serve/tool_call_parser.cpp]

    The parser of the tool calls that end an answer, and the filter that publishes an answer as it is
    generated, holding back what may be the beginning of a tool call.  Strings are lists of bytes.
    nlohmann's [Json::parse] and [dump] are the class [JsonText]; the random numbers that tool-call ids
    are made of are an argument. *)
From Stdlib Require Import Strings.String.
From stdpp Require Import list.
From S2P Require Import Prelude Unicode Admission Capacity Contract Output OutputProofs Tokenizer.
#[local] Open Scope Z_scope.

(** JSON values, [Json::parse(text, nullptr, false)] ([None]: discarded), the value of a string, and
    [dump()] of an object given by its members in the order of their keys.  (On text that is not UTF-8
    [dump] throws; what is parsed here is published text, which is UTF-8.) *)
Class JsonText : Type := {
  json_value : Type;
  json_parse : list Z -> option json_value;
  json_string : list Z -> json_value;
  json_dump_object : list (list Z * json_value) -> list Z;
}.

(** ** Strings *)

Definition rtrim_ascii (text : list Z) : list Z := reverse (strip_leading (reverse text)).
Definition trim_ascii (text : list Z) : list Z := rtrim_ascii (strip_leading text).

(** [skip_ws]: the first position from [pos] that is not a space. *)
Definition skip_ws (text : list Z) (pos : nat) : nat :=
  (length text - length (strip_leading (drop pos text)))%nat.

Definition starts_with_at (text : list Z) (pos : nat) (prefix : list Z) : bool :=
  (pos <=? length text)%nat && bool_decide (take (length prefix) (drop pos text) = prefix).

(** [text.find(p, pos)] *)
Definition find_from (p text : list Z) (pos : nat) : option nat :=
  match find_sub p (drop pos text) with Some i => Some (pos + i)%nat | None => None end.

(** [text.substr(begin, end - begin)] *)
Definition slice (text : list Z) (begin_ end_ : nat) : list Z := take (end_ - begin_) (drop begin_ text).

(** [std::isalnum] in the C locale. *)
Definition isalnum (c : Z) : bool :=
  ((48 <=? c) && (c <=? 57)) || ((65 <=? c) && (c <=? 90)) || ((97 <=? c) && (c <=? 122)).

Definition valid_function_name (name : list Z) (max_name_length : nat) : bool :=
  negb (bool_decide (name = [])) && (length name <=? max_name_length)%nat &&
  forallb (fun c => isalnum c || (c =? 95) || (c =? 45)) name.

(** ["%016llx"] *)
Definition hex_digit (d : Z) : Z := if d <? 10 then 48 + d else 87 + d.
Definition hex16 (x : Z) : list Z := (fun i => hex_digit (Z.land (Z.shiftr x (4 * (15 - Z.of_nat i))) 15)) <$> seq 0 16.
Definition new_tool_call_id (random : Z) : list Z := bytes_of "call_" ++ hex16 random.

(** ** JSON objects *)

(** The order of [std::string]. *)
Fixpoint bytes_ltb (a b : list Z) : bool :=
  match a, b with
  | [], [] => false | [], _ :: _ => true | _ :: _, [] => false
  | x :: a', y :: b' => (x <? y) || ((x =? y) && bytes_ltb a' b')
  end.

(** [object[key] = value], objects being ordered by key. *)
Fixpoint object_set {V} (key : list Z) (value : V) (items : list (list Z * V)) : list (list Z * V) :=
  match items with
  | [] => [(key, value)]
  | (k, v) :: items' =>
      if bool_decide (k = key) then (key, value) :: items'
      else if bytes_ltb key k then (key, value) :: (k, v) :: items'
      else (k, v) :: object_set key value items'
  end.

(** ** The parser *)

Record ToolCall : Set := mkToolCall { tc_id : list Z; tc_name : list Z; arguments_json : list Z }.
Record ParsedToolCallOutput : Set := mkParsed {
  is_tool_call_response : bool; content : list Z; tool_calls : list ToolCall;
}.

(** A loop has a result, has found the text malformed, or was given too little fuel. *)
Inductive loop (A : Type) : Type := Parsed (a : A) | Malformed | OutOfFuel.
Arguments Parsed {A} _.
Arguments Malformed {A}.
Arguments OutOfFuel {A}.

Definition kParamOpen : list Z := bytes_of "<parameter=".
Definition kParamClose : list Z := bytes_of "</parameter>".
Definition kFunctionOpen : list Z := bytes_of "<function=".
Definition kFunctionClose : list Z := bytes_of "</function>".
Definition kToolOpen : list Z := bytes_of "<tool_call>".
Definition kToolClose : list Z := bytes_of "</tool_call>".
Definition kGreater : list Z := [62].

(** A name that ends with [>]: its end.  It must not be empty. *)
Definition name_end (text : list Z) (name_begin : nat) : option nat :=
  match find_from kGreater text name_begin with
  | Some e => if (e =? name_begin)%nat then None else Some e
  | None => None
  end.

Section Parser.
Context `{JsonText}.

(** The value of a parameter: what its text parses to, or the text itself. *)
Definition parameter_value (raw_value : list Z) : json_value := default (json_string raw_value) (json_parse raw_value).

Definition parse_parameter (inner : list Z) (pos : nat) (args : list (list Z * json_value)) : option (nat * list (list Z * json_value)) :=
  if negb (starts_with_at inner pos kParamOpen) then None else
  let name_begin := (pos + length kParamOpen)%nat in
  match name_end inner name_begin with
  | None => None
  | Some e =>
      let key := slice inner name_begin e in
      let pos := S e in
      match find_from kParamClose inner pos with
      | None => None
      | Some value_end =>
          let raw_value := trim_ascii (slice inner pos value_end) in
          Some ((value_end + length kParamClose)%nat, object_set key (parameter_value raw_value) args)
      end
  end.

Fixpoint parse_parameters (fuel : nat) (params : list Z) (pos : nat) (args : list (list Z * json_value)) : loop (list (list Z * json_value)) :=
  let pos := skip_ws params pos in
  if (length params <=? pos)%nat then Parsed args else
  match fuel with
  | O => OutOfFuel
  | S fuel' =>
      match parse_parameter params pos args with
      | None => Malformed
      | Some (pos, args) => parse_parameters fuel' params pos args
      end
  end.

Definition parse_one_tool_call (block : list Z) (max_name_length : nat) (random : Z) : loop ToolCall :=
  let pos := skip_ws block 0 in
  if negb (starts_with_at block pos kFunctionOpen) then Malformed else
  let name_begin := (pos + length kFunctionOpen)%nat in
  match name_end block name_begin with
  | None => Malformed
  | Some e =>
      let name := slice block name_begin e in
      if negb (valid_function_name name max_name_length) then Malformed else
      let pos := S e in
      match find_from kFunctionClose block pos with
      | None => Malformed
      | Some function_end =>
          let params := slice block pos function_end in
          match parse_parameters (length params) params 0 [] with
          | Malformed => Malformed
          | OutOfFuel => OutOfFuel
          | Parsed args =>
              if negb (skip_ws block (function_end + length kFunctionClose) =? length block)%nat then Malformed
              else Parsed (mkToolCall (new_tool_call_id random) name (json_dump_object args))
          end
      end
  end.

(** The loop over the tool calls; [random n] is the number drawn for the [n]-th. *)
Fixpoint parse_calls (fuel : nat) (text : list Z) (max_name_length : nat) (random : nat -> Z) (pos : nat)
    (calls : list ToolCall) : loop (list ToolCall) :=
  let pos := skip_ws text pos in
  if (length text <=? pos)%nat then Parsed calls else
  match fuel with
  | O => OutOfFuel
  | S fuel' =>
      if negb (starts_with_at text pos kToolOpen) then Malformed else
      let inner_begin := (pos + length kToolOpen)%nat in
      match find_from kToolClose text inner_begin with
      | None => Malformed
      | Some close =>
          match parse_one_tool_call (slice text inner_begin close) max_name_length (random (length calls)) with
          | Malformed => Malformed
          | OutOfFuel => OutOfFuel
          | Parsed call => parse_calls fuel' text max_name_length random (close + length kToolClose) (calls ++ [call])
          end
      end
  end.

Definition fallback (text : list Z) : ParsedToolCallOutput := mkParsed false text [].

(** [None]: too little fuel. *)
Definition parse_qwen_tool_call_output (text : list Z) (max_tool_name_length : nat) (random : nat -> Z)
  : option ParsedToolCallOutput :=
  match find_from kToolOpen text 0 with
  | None => Some (fallback text)
  | Some first =>
      match parse_calls (length text) text max_tool_name_length random first [] with
      | OutOfFuel => None
      | Malformed | Parsed [] => Some (fallback text)
      | Parsed calls => Some (mkParsed true (rtrim_ascii (take first text)) calls)
      end
  end.
End Parser.

(** ** The filter *)

Record ToolCallStreamFilter : Set := mkFilter {
  pending_ : list Z; tool_region_ : list Z; emitted_bytes_ : Z; saw_tool_marker_ : bool; finished_ : bool;
}.
Definition filter_init : ToolCallStreamFilter := mkFilter [] [] 0 false false.

(** The end of [text[0 .. n)] without trailing spaces. *)
Definition safe_end (text : list Z) (n : nat) : nat := length (rtrim_ascii (take n text)).

(** [longest_suffix_prefix]: the longest proper beginning of [marker] that ends the text. *)
Definition tool_longest_suffix_prefix (text marker : list Z) : nat :=
  suffix_prefix_from (Nat.min (length text) (length marker - 1)) text marker true.

Definition emit (f : ToolCallStreamFilter) (visible : list Z) : Z := u64 (emitted_bytes_ f + Z.of_nat (length visible)).

Definition feed (text : list Z) : M ToolCallStreamFilter (list Z) :=
  let! f := mget in
  do! mthrow_if (finished_ f) LogicError;
  if bool_decide (text = []) then mret_ [] else
  if saw_tool_marker_ f then
    do! mput (mkFilter (pending_ f) (tool_region_ f ++ text) (emitted_bytes_ f) true (finished_ f));
    mret_ []
  else
  let pending := pending_ f ++ text in
  match find_from kToolOpen pending 0 with
  | Some marker =>
      let n := safe_end pending marker in
      let visible := take n pending in
      do! mput (mkFilter [] (drop n pending) (emit f visible) true (finished_ f));
      mret_ visible
  | None =>
      let prefix := tool_longest_suffix_prefix pending kToolOpen in
      let n := safe_end pending (length pending - prefix) in
      let visible := take n pending in
      do! mput (mkFilter (drop n pending) (tool_region_ f) (emit f visible) false (finished_ f));
      mret_ visible
  end.

Definition finish (is_tool_call_response : bool) : M ToolCallStreamFilter (list Z) :=
  let! f := mget in
  do! mthrow_if (finished_ f) LogicError;
  if is_tool_call_response then
    do! mput (mkFilter [] [] (emitted_bytes_ f) (saw_tool_marker_ f) true);
    mret_ []
  else
    let tail := pending_ f ++ tool_region_ f in
    do! mput (mkFilter [] [] (emit f tail) (saw_tool_marker_ f) true);
    mret_ tail.

(** An answer that is fed in parts and then finished. *)
Definition stream (parts : list (list Z)) (is_tool_call_response : bool) : M ToolCallStreamFilter (list Z) :=
  let! shown := mmapM feed parts in
  let! tail := finish is_tool_call_response in
  mret_ (concat shown ++ tail).
