(* ===== verification/ToolCallsProofs.v ===== *)
(** * The tool-call filter publishes exactly what the parser leaves of the answer

    However an answer is cut into parts, what [ToolCallStreamFilter] publishes of it is the text before
    the tool calls when the parser finds tool calls, and the whole text when it does not. *)
From stdpp Require Import list.
From S2P Require Import Prelude Unicode Admission Capacity Contract Output OutputProofs Tokenizer ToolCalls.
#[local] Open Scope Z_scope.

(** ** Trailing spaces *)

Lemma strip_leading_idem x : strip_leading (strip_leading x) = strip_leading x.
Proof. induction x as [|b x IH]; [done|]. cbn. destruct (isspace b) eqn:E; [done|]. cbn. by rewrite E. Qed.

Lemma strip_leading_drop x : exists k, strip_leading x = drop k x.
Proof.
  induction x as [|b x [k IH]]; [by exists 0%nat|]. cbn. destruct (isspace b); [by exists (S k)|by exists 0%nat].
Qed.

Lemma rtrim_idem x : rtrim_ascii (rtrim_ascii x) = rtrim_ascii x.
Proof. unfold rtrim_ascii. by rewrite reverse_involutive, strip_leading_idem. Qed.

Lemma rtrim_app e x : rtrim_ascii e = e -> rtrim_ascii (e ++ x) = e ++ rtrim_ascii x.
Proof.
  unfold rtrim_ascii. intros He. rewrite reverse_app, strip_leading_app. case_bool_decide as Hx.
  - rewrite He, Hx. cbn. by rewrite app_nil_r.
  - by rewrite reverse_app, reverse_involutive.
Qed.

Lemma rtrim_prefix x : exists k, rtrim_ascii x = take k x.
Proof.
  unfold rtrim_ascii. destruct (strip_leading_drop (reverse x)) as [k ->].
  rewrite reverse_drop, reverse_involutive. eauto.
Qed.

Lemma rtrim_split x : x = rtrim_ascii x ++ drop (length (rtrim_ascii x)) x.
Proof.
  destruct (rtrim_prefix x) as [k Hk]. rewrite Hk at 1. rewrite Hk, length_take.
  destruct (decide (k <= length x)%nat).
  - by rewrite Nat.min_l, take_drop by done.
  - rewrite Nat.min_r, drop_all, app_nil_r by lia. by rewrite take_ge by lia.
Qed.

Lemma rtrim_take x n : take (safe_end x n) x = rtrim_ascii (take n x).
Proof.
  unfold safe_end. pose proof (rtrim_split (take n x)) as H.
  set (r := rtrim_ascii (take n x)) in *. rewrite <- (take_drop n x), H.
  by rewrite <- app_assoc, take_app_length.
Qed.

Lemma find_from_0 p text : find_from p text 0 = find_sub p text.
Proof. unfold find_from. rewrite drop_0. by destruct (find_sub p text). Qed.

(** ** The filter *)

Definition is_open (m : list Z) : Prop := m = kToolOpen.

(** The filter after the text [t], of which it has published [e]. *)
Definition filter_inv (t e : list Z) (f : ToolCallStreamFilter) : Prop :=
  finished_ f = false /\ emitted_bytes_ f = u64 (Z.of_nat (length e)) /\
  if saw_tool_marker_ f then
    exists m, find_sub kToolOpen t = Some m /\ e = rtrim_ascii (take m t) /\ pending_ f = [] /\ t = e ++ tool_region_ f
  else tool_region_ f = [] /\ t = e ++ pending_ f /\ rtrim_ascii e = e /\ held is_open e (pending_ f).

Lemma filter_inv_init : filter_inv [] [] filter_init.
Proof.
  split; [done|]. split; [done|]. cbn. split_and!; [done..|]. split.
  - intros m i ->. by destruct i.
  - intros m k _ _ (H & _). cbn in *. lia.
Qed.

Lemma kToolOpen_pos : (0 < length kToolOpen)%nat.
Proof. cbn. lia. Qed.
Lemma kToolOpen_nonempty : kToolOpen <> [].
Proof. done. Qed.
#[local] Opaque kToolOpen.
#[local] Arguments safe_end : simpl never.
#[local] Arguments tool_longest_suffix_prefix : simpl never.
#[local] Arguments rtrim_ascii : simpl never.

Lemma held_shorten ms e a b : held ms (e ++ a) b -> held ms e (a ++ b).
Proof.
  intros [H1 H2]. split.
  - intros m i. rewrite app_assoc. apply H1.
  - intros m k Hm Hk Hs. rewrite length_app. rewrite app_assoc in Hs. specialize (H2 m k Hm Hk Hs). lia.
Qed.

Lemma tool_longest_spec text :
  let n := tool_longest_suffix_prefix text kToolOpen in
  (n <= length text)%nat /\
  forall k, (k < length kToolOpen)%nat -> suffix_is text kToolOpen k -> (k <= n)%nat.
Proof.
  unfold tool_longest_suffix_prefix.
  destruct (suffix_prefix_from_spec (Nat.min (length text) (length kToolOpen - 1)) text kToolOpen true)
    as (H1 & H2 & _ & H4); [lia..|]. split; [lia|]. intros k Hk Hs.
  set (n := suffix_prefix_from _ _ _ _) in *. destruct (decide (k <= n)%nat); [done|].
  destruct (H4 k); [|by left|done]. destruct Hs as (Hs & _). lia.
Qed.

(** Occurrences of the marker in all the text are those in what was kept and the new text. *)
Lemma held_find e p x :
  held is_open e p ->
  find_sub kToolOpen ((e ++ p) ++ x) = (fun i => (length e + i)%nat) <$> find_sub kToolOpen (p ++ x).
Proof.
  intros Hh. pose proof (fun i => held_occurs is_open e p x kToolOpen i Hh eq_refl) as Ho.
  destruct (find_sub kToolOpen (p ++ x)) as [i|] eqn:E; cbn.
  - apply find_sub_Some in E as (E1 & E2 & E3). apply find_sub_Some. split_and!.
    + apply Ho. split; [lia|]. by replace (length e + i - length e)%nat with i by lia.
    + rewrite !length_app in *. lia.
    + intros j Hj [H1 H2]%Ho. apply (E3 (j - length e)%nat); [lia|done].
  - apply find_sub_None; [apply kToolOpen_nonempty|]. intros j [H1 H2]%Ho. by eapply find_sub_None in E; [|apply kToolOpen_nonempty].
Qed.

Lemma emit_length f e v :
  emitted_bytes_ f = u64 (Z.of_nat (length e)) -> emit f v = u64 (Z.of_nat (length (e ++ v))).
Proof.
  intros H. unfold emit, u64 in *. rewrite H, length_app, Nat2Z.inj_add.
  by rewrite Zplus_mod_idemp_l.
Qed.

Lemma feed_inv t e f x :
  filter_inv t e f -> exists v f', feed x f = (Ok v, f') /\ filter_inv (t ++ x) (e ++ v) f'.
Proof.
  intros (Hfin & Hem & Hinv). unfold feed.
  destruct f as [p region em saw fin]; cbn in *; subst fin.
  cbn [mbind_ mget mthrow_if mlift throw_if]. unfold mbind_, mget, mthrow_if, mlift, throw_if; cbn.
  case_bool_decide as Hx.
  { subst x. eexists _, _. split; [done|]. rewrite !app_nil_r. by split_and!. }
  destruct saw; cbn.
  { destruct Hinv as (m & Hf & He & Hp & Ht). eexists _, _. split; [done|].
    rewrite app_nil_r. split_and!; [done..|]. cbn. exists m.
    assert (m <= length t)%nat by (apply find_sub_Some in Hf; tauto).
    split_and!.
    - apply find_sub_Some in Hf as (F1 & F2 & F3). apply find_sub_Some. split_and!.
      + by apply occurs_app_l.
      + rewrite length_app. lia.
      + intros j Hj Ho. apply (F3 j Hj). eapply occurs_app_inv; [|done].
        apply occurs_length in F1. pose proof kToolOpen_pos. lia.
    - by rewrite take_app_le.
    - done.
    - by rewrite Ht, app_assoc. }
  destruct Hinv as (Hr & Ht & He & Hh). rewrite find_from_0.
  pose proof (held_find e p x Hh) as Hfind. rewrite <- Ht in Hfind.
  destruct (find_sub kToolOpen (p ++ x)) as [i|] eqn:Hi; cbn in Hfind.
  - eexists _, _. split; [done|]. split; [done|].
    split; [by apply (emit_length (mkFilter _ _ _ _ _))|]. cbn. exists (length e + i)%nat.
    split_and!; [done| |done|].
    + rewrite Ht, <- app_assoc, take_app_add, rtrim_app by done. by rewrite rtrim_take.
    + by rewrite Ht, <- !app_assoc, take_drop.
  - eexists _, _. split; [done|]. split; [done|].
    split; [by apply (emit_length (mkFilter _ _ _ _ _))|]. cbn [saw_tool_marker_ tool_region_ pending_].
    destruct (tool_longest_spec (p ++ x)) as [L1 L2]. set (n := tool_longest_suffix_prefix _ _) in *.
    split_and!; [done| | |].
    + by rewrite Ht, <- !app_assoc, take_drop.
    + rewrite rtrim_take. by rewrite rtrim_app, rtrim_idem.
    + assert (Hs : held is_open (e ++ take (length (p ++ x) - n) (p ++ x)) (drop (length (p ++ x) - n) (p ++ x))).
      { apply held_step; [done..| |]; [|by intros m k ->; apply L2].
        intros m j ->. by apply find_sub_None; [apply kToolOpen_nonempty|]. }
      destruct (rtrim_prefix (take (length (p ++ x) - n) (p ++ x))) as [k Hk].
      rewrite rtrim_take. unfold safe_end. set (body := take (length (p ++ x) - n) (p ++ x)) in *.
      rewrite (rtrim_split body), app_assoc in Hs. apply held_shorten in Hs.
      replace (drop (length (rtrim_ascii body)) (p ++ x))
        with (drop (length (rtrim_ascii body)) body ++ drop (length (p ++ x) - n) (p ++ x)); [done|].
      rewrite <- (take_drop (length (p ++ x) - n) (p ++ x)) at 3. fold body.
      symmetry. apply drop_app_le. rewrite Hk, length_take. lia.
Qed.

Lemma feeds_inv parts t e f :
  filter_inv t e f ->
  exists shown f', mmapM feed parts f = (Ok shown, f') /\ filter_inv (t ++ concat parts) (e ++ concat shown) f'.
Proof.
  revert t e f. induction parts as [|x parts IH]; intros t e f Hinv.
  - exists [], f. cbn. by rewrite !app_nil_r.
  - destruct (feed_inv t e f x Hinv) as (v & f1 & H1 & Hi1).
    destruct (IH _ _ _ Hi1) as (shown & f2 & H2 & Hi2). exists (v :: shown), f2.
    cbn [mmapM]. unfold mbind_. rewrite H1, H2. cbn [concat]. by rewrite !app_assoc.
Qed.

(** ** The verdict *)

Section Verdict.
Context `{JsonText}.

Lemma content_before_marker text max_name_length random r :
  parse_qwen_tool_call_output text max_name_length random = Some r ->
  if is_tool_call_response r
  then exists m, find_sub kToolOpen text = Some m /\ content r = rtrim_ascii (take m text)
  else content r = text.
Proof.
  unfold parse_qwen_tool_call_output. rewrite find_from_0. destruct (find_sub kToolOpen text) as [m|] eqn:Hf; [|by intros [= <-]].
  destruct (parse_calls _ _ _ _ _ _) as [[|c calls]| |]; intros [= <-]; cbn; eauto.
Qed.

(** *** The parser ends *)

Lemma skip_ws_bounds text pos : (Nat.min pos (length text) <= skip_ws text pos <= length text)%nat.
Proof.
  unfold skip_ws. destruct (strip_leading_drop (drop pos text)) as [k ->]. rewrite !length_drop. lia.
Qed.

Lemma find_from_ge p text pos i : find_from p text pos = Some i -> (pos <= i)%nat.
Proof. unfold find_from. destruct (find_sub p (drop pos text)); [|done]. intros [= <-]. lia. Qed.

Lemma name_end_ge text pos e : name_end text pos = Some e -> (pos <= e)%nat.
Proof.
  unfold name_end. destruct (find_from kGreater text pos) as [i|] eqn:Hi; [|done].
  destruct (i =? pos)%nat; [done|]. intros [= <-]. by eapply find_from_ge.
Qed.

Lemma parse_parameter_advances inner pos args pos' args' :
  parse_parameter inner pos args = Some (pos', args') -> (pos < pos')%nat.
Proof.
  unfold parse_parameter. destruct (negb _); [done|].
  destruct (name_end inner _) as [e|] eqn:He; [|done]. apply name_end_ge in He.
  destruct (find_from kParamClose inner (S e)) as [i|] eqn:Hi; [|done]. apply find_from_ge in Hi.
  intros [= <- _]. lia.
Qed.

Lemma parse_parameters_ends fuel params pos args :
  (length params - pos <= fuel)%nat -> parse_parameters fuel params pos args <> OutOfFuel.
Proof.
  revert pos args. induction fuel as [|fuel IH]; intros pos args Hf; cbn [parse_parameters];
    pose proof (skip_ws_bounds params pos); destruct (Nat.leb_spec (length params) (skip_ws params pos)); [done|lia|done|].
  destruct (parse_parameter _ _ _) as [[pos' args']|] eqn:Hp; [|done].
  apply parse_parameter_advances in Hp. apply IH. lia.
Qed.

Lemma parse_one_tool_call_ends block max_name_length random :
  parse_one_tool_call block max_name_length random <> OutOfFuel.
Proof.
  unfold parse_one_tool_call. destruct (negb _); [done|]. destruct (name_end _ _) as [e|]; [|done].
  destruct (negb _); [done|]. destruct (find_from kFunctionClose block (S e)) as [fe|]; [|done].
  set (params := slice block (S e) fe). pose proof (parse_parameters_ends (length params) params 0 [] ltac:(lia)).
  destruct (parse_parameters _ _ _ _); [|done|done]. by destruct (negb _).
Qed.

Lemma parse_calls_ends fuel text max_name_length random pos calls :
  (length text - pos <= fuel)%nat -> parse_calls fuel text max_name_length random pos calls <> OutOfFuel.
Proof.
  revert pos calls. induction fuel as [|fuel IH]; intros pos calls Hf; cbn [parse_calls];
    pose proof (skip_ws_bounds text pos); destruct (Nat.leb_spec (length text) (skip_ws text pos)); [done|lia|done|].
  destruct (negb _); [done|]. destruct (find_from kToolClose text _) as [close|] eqn:Hc; [|done].
  apply find_from_ge in Hc. pose proof (parse_one_tool_call_ends (slice text (skip_ws text pos + length kToolOpen) close) max_name_length (random (length calls))).
  pose proof kToolOpen_pos. destruct (parse_one_tool_call _ _ _); [|done|done]. apply IH. lia.
Qed.

Lemma parse_ends text max_name_length random :
  exists r, parse_qwen_tool_call_output text max_name_length random = Some r.
Proof.
  unfold parse_qwen_tool_call_output. destruct (find_from kToolOpen text 0) as [first|]; [|eauto].
  pose proof (parse_calls_ends (length text) text max_name_length random first [] ltac:(lia)).
  destruct (parse_calls _ _ _ _ _ _) as [[|c calls]| |]; eauto. done.
Qed.

(** The filter and the parser on the same text. *)
Lemma filter_shows parts max_name_length random :
  exists r shown f tail f', parse_qwen_tool_call_output (concat parts) max_name_length random = Some r /\
    mmapM feed parts filter_init = (Ok shown, f) /\ finish (is_tool_call_response r) f = (Ok tail, f') /\
    concat shown ++ tail = content r /\ emitted_bytes_ f' = u64 (Z.of_nat (length (content r))).
Proof.
  destruct (parse_ends (concat parts) max_name_length random) as [r Hp]. exists r. rewrite Hp.
  apply content_before_marker in Hp as Hr. clear Hp.
  destruct (feeds_inv parts [] [] filter_init filter_inv_init) as (shown & f & Hf & Hfin & Hem & Hinv).
  cbn [app] in *. exists shown, f. unfold finish, mbind_, mget, mthrow_if, mlift, throw_if, mput, mret_. rewrite Hf, Hfin.
  destruct (is_tool_call_response r).
  - destruct Hr as (m & Hm & ->). assert (He : concat shown = rtrim_ascii (take m (concat parts))).
    { destruct (saw_tool_marker_ f).
      - destruct Hinv as (m' & Hm' & He & _ & _). rewrite Hm in Hm'. by injection Hm' as <-.
      - destruct Hinv as (_ & Ht & _ & Hn & _). exfalso. apply find_sub_Some in Hm as (Ho & _ & _). apply (Hn kToolOpen m eq_refl). by rewrite <- Ht. }
    rewrite <- He. do 2 eexists. split_and!; [done..|by rewrite app_nil_r|done].
  - assert (Hall : concat shown ++ pending_ f ++ tool_region_ f = concat parts).
    { destruct (saw_tool_marker_ f).
      - by destruct Hinv as (m & _ & _ & -> & ->).
      - destruct Hinv as (-> & -> & _). by rewrite app_nil_r. }
    rewrite Hr, <- Hall. do 2 eexists. split_and!; [done..|]. by apply emit_length.
Qed.

(** However an answer is cut into parts, once it has been fed to the filter part by part and finished
    with the parser's verdict on all of it, what has been published is exactly the content the parser
    returns: the text before the tool calls without its trailing spaces when there are tool calls, and
    every byte of the text otherwise; and the filter has counted its bytes. *)
Theorem tool_filter_exact parts max_name_length random :
  exists r f, parse_qwen_tool_call_output (concat parts) max_name_length random = Some r /\
    stream parts (is_tool_call_response r) filter_init = (Ok (content r), f) /\
    emitted_bytes_ f = u64 (Z.of_nat (length (content r))).
Proof.
  destruct (filter_shows parts max_name_length random) as (r & shown & f & tail & f' & Hp & Hf & Ht & Hs & He). exists r, f'. split; [done|]. split; [|done].
  unfold stream, mbind_, mret_. by rewrite Hf, Ht, Hs.
Qed.
End Verdict.
