(* ===== verification/PrefixIdentity.v ===== *)
(** * Prepared prompts and the identity of a resident prefix:
    [targets/qwen3_6/export/.../prepared_prompt.h], [impl/runtime/prefix_identity]

    The state a lane keeps after a request (KV pages, linear attention state) was computed from a
    ledger of tokens with their types, positions and vision items.  A later prompt may continue from
    it when its own inputs agree up to a frontier; [prefix_matches] decides this. *)
From S2P Require Import Prelude.
#[local] Open Scope Z_scope.

(** ** Data *)

(** A [double] is its IEEE-754 bit pattern; [f64_eqb] is [==]. *)
Definition f64_magnitude (x : Z) : Z := x mod 9223372036854775808.
Definition f64_is_nan (x : Z) : bool := f64_magnitude x >? 0x7ff0000000000000.
Definition f64_eqb (x y : Z) : bool :=
  negb (f64_is_nan x) && negb (f64_is_nan y) &&
  ((x =? y) || ((f64_magnitude x =? 0) && (f64_magnitude y =? 0))).

Inductive PromptModality : Set := Image | Video.
#[export] Instance PromptModality_eq_dec : EqDecision PromptModality.
Proof. solve_decision. Defined.
(** The enumeration's values. *)
Definition modality_value (m : PromptModality) : Z := match m with Image => 1 | Video => 2 end.

Record VisionGrid : Set := mkGrid { temporal : Z; height : Z; width : Z }.

Record TokenSpan : Set := mkTokenSpan { ts_begin : Z; ts_count : Z }.

Record VisionItem : Set := mkVisionItem {
  modality : PromptModality;
  grid : VisionGrid;
  patch_begin : Z;
  patch_count : Z;
  content_digest : list Z;
  timestamps : list Z;
  token_spans : list TokenSpan;
}.

Inductive RewriteCheckpointKind : Set := TurnClosure | ResponseReplay.
#[export] Instance RewriteCheckpointKind_eq_dec : EqDecision RewriteCheckpointKind.
Proof. solve_decision. Defined.

Record RewriteCheckpointSpec : Set := mkCheckpointSpec {
  rs_kind : RewriteCheckpointKind; rs_frontier : Z;
}.

Record PromptIdentity : Set := mkPromptIdentity {
  reusable : bool; rewrite_checkpoint_spec : option RewriteCheckpointSpec;
}.

(** [PreparedPromptData].  A media payload is its number of patch elements, [None] once it has been
    released; of [PrepareStats] only what the planner reads. *)
Record PreparedPromptData : Set := mkPrompt {
  token_ids : list Z;
  token_types : list Z;
  positions : list Z;
  rope_delta : Z;
  media_payloads : list (option Z);
  vision_items : list VisionItem;
  identity : PromptIdentity;
  raw_patches : Z;
  vision_tokens : Z;
}.

Definition has_media (p : PreparedPromptData) : bool := negb (bool_decide (vision_items p = [])).

Definition set_media_payloads (p : PreparedPromptData) (payloads : list (option Z)) : PreparedPromptData :=
  mkPrompt (token_ids p) (token_types p) (positions p) (rope_delta p) payloads (vision_items p)
    (identity p) (raw_patches p) (vision_tokens p).

Definition release_all_media_payloads (p : PreparedPromptData) : PreparedPromptData :=
  set_media_payloads p (replicate (length (media_payloads p)) None).

(** ** Vision items *)

Definition same_grid (a b : VisionGrid) : bool :=
  (temporal a =? temporal b) && (height a =? height b) && (width a =? width b).

(** [std::equal] of two ranges of the same length. *)
Fixpoint all2 {A} (f : A -> A -> bool) (l k : list A) : bool :=
  match l, k with
  | [], [] => true
  | x :: l', y :: k' => f x y && all2 f l' k'
  | _, _ => false
  end.

Definition same_spans (a b : list TokenSpan) : bool :=
  all2 (fun x y => (ts_begin x =? ts_begin y) && (ts_count x =? ts_count y)) a b.

Definition same_item (a b : VisionItem) : bool :=
  bool_decide (modality a = modality b) && same_grid (grid a) (grid b) &&
  (patch_begin a =? patch_begin b) && (patch_count a =? patch_count b) &&
  bool_decide (content_digest a = content_digest b) && all2 f64_eqb (timestamps a) (timestamps b) &&
  same_spans (token_spans a) (token_spans b).

(** The loop of [prefix_item_count]. *)
Fixpoint count_items (items : list VisionItem) (tokens : Z) (count : nat) (saw_suffix : bool) : option nat :=
  match items with
  | [] => Some count
  | item :: items' =>
      match token_spans item with
      | [] => None
      | first :: _ =>
          let last := List.last (token_spans item) first in
          if (ts_count first =? 0) || (ts_count last =? 0) ||
             (ts_begin last >? u64_max - ts_count last) then None
          else if ts_begin last + ts_count last <=? tokens then
            if saw_suffix then None else count_items items' tokens (S count) saw_suffix
          else if ts_begin first >=? tokens then count_items items' tokens count true
          else None
      end
  end.

Definition prefix_item_count (items : list VisionItem) (tokens : Z) : option nat :=
  count_items items tokens 0 false.

(** ** The identity *)

Record ResidentPrefixIdentity : Set := mkIdentity {
  token_types_ : list Z;
  positions_ : list (list Z);          (**r one list per axis *)
  vision_items_ : list VisionItem;
}.

Definition identity_empty : ResidentPrefixIdentity := mkIdentity [] [[]; []; []] [].

Definition identity_size (i : ResidentPrefixIdentity) : Z := Z.of_nat (length (token_types_ i)).

(** One axis of the positions of a prompt. *)
Definition prompt_axis (p : PreparedPromptData) (axis : nat) : list Z :=
  take (length (token_ids p)) (drop (axis * length (token_ids p)) (positions p)).

(** The metadata of a prompt has one entry per token. *)
Definition prompt_shape (p : PreparedPromptData) : bool :=
  (length (token_types p) =? length (token_ids p))%nat &&
  (length (positions p) =? 3 * length (token_ids p))%nat.

Definition identity_assign (prompt : PreparedPromptData) : M ResidentPrefixIdentity unit :=
  do! mthrow_if (negb (prompt_shape prompt)) InvalidArgument;
  mput (mkIdentity (token_types prompt) (prompt_axis prompt <$> [0; 1; 2]%nat) (vision_items prompt)).

(** One turn of the loop of [append_generated]. *)
Definition append_one (index rope_delta : Z) : M ResidentPrefixIdentity unit :=
  do! mthrow_if (index >? i32_max) OverflowError;
  let position := index + rope_delta in
  do! mthrow_if ((position <? i32_min) || (position >? i32_max)) OverflowError;
  mmodify (fun i => mkIdentity (token_types_ i ++ [0]) ((fun axis => axis ++ [position]) <$> positions_ i)
                      (vision_items_ i)).

Fixpoint append_from (begin : Z) (count : nat) (rope_delta : Z) : M ResidentPrefixIdentity unit :=
  match count with
  | O => mret_ tt
  | S count' => do! append_one begin rope_delta; append_from (begin + 1) count' rope_delta
  end.

Definition append_generated (count : nat) (rope_delta : Z) : M ResidentPrefixIdentity unit :=
  let! begin := mgets identity_size in
  do! mthrow_if (Z.of_nat count >? u64_max - begin) OverflowError;
  append_from begin count rope_delta.

Definition identity_truncate (tokens : Z) : M ResidentPrefixIdentity unit :=
  let! i := mget in
  do! mthrow_if (tokens >? identity_size i) OutOfRange;
  match prefix_item_count (vision_items_ i) tokens with
  | None => mthrow LogicError
  | Some retained =>
      let n := Z.to_nat tokens in
      mput (mkIdentity (take n (token_types_ i)) (take n <$> positions_ i)
              (take retained (vision_items_ i)))
  end.

(** [std::equal] on the first [n] elements. *)
Definition same_prefix (n : nat) (a b : list Z) : bool := bool_decide (take n a = take n b).

(** The loop over the axes of [matches]. *)
Definition axes_match (n : nat) (prompt : PreparedPromptData) (i : ResidentPrefixIdentity) : bool :=
  forallb (fun axis => same_prefix n (prompt_axis prompt axis) (positions_ i !!! axis)) [0; 1; 2]%nat.

Definition identity_matches (i : ResidentPrefixIdentity) (prompt : PreparedPromptData) (count : Z) : bool :=
  let n := Z.to_nat count in
  if (count >? Z.of_nat (length (token_ids prompt))) || (count >? identity_size i) ||
     negb (prompt_shape prompt) then false
  else if negb (same_prefix n (token_types prompt) (token_types_ i)) then false
  else if negb (axes_match n prompt i) then false
  else match prefix_item_count (vision_items prompt) count, prefix_item_count (vision_items_ i) count with
       | Some incoming, Some resident =>
           if (incoming =? resident)%nat then
             all2 same_item (take incoming (vision_items prompt)) (take incoming (vision_items_ i))
           else false
       | _, _ => false
       end.

Definition prefix_matches (prompt : PreparedPromptData) (resident_tokens : list Z)
    (resident_identity : ResidentPrefixIdentity) (count : Z) : bool :=
  if (count >? Z.of_nat (length (token_ids prompt))) || (count >? Z.of_nat (length resident_tokens))
  then false
  else same_prefix (Z.to_nat count) (token_ids prompt) resident_tokens &&
       identity_matches resident_identity prompt count.

(** ** Items before a frontier *)

Lemma all2_spec {A} (f : A -> A -> bool) l k : all2 f l k = true <-> Forall2 (fun x y => f x y = true) l k.
Proof.
  revert k. induction l as [|x l IH]; intros [|y k]; cbn; split; intros H; try done; try by inversion H.
  - apply andb_true_iff in H as [H1 H2]. constructor; [done|by apply IH].
  - inversion H; subst. apply andb_true_iff. split; [done|by apply IH].
Qed.

Lemma all2_sym {A} (f : A -> A -> bool) : (forall x y, f x y = f y x) -> forall l k, all2 f l k = all2 f k l.
Proof. intros Hf l. induction l as [|x l IH]; intros [|y k]; cbn; [done..|]. by rewrite Hf, IH. Qed.
Lemma all2_trans {A} (f : A -> A -> bool) :
  (forall x y z, f x y = true -> f y z = true -> f x z = true) ->
  forall l k m, all2 f l k = true -> all2 f k m = true -> all2 f l m = true.
Proof.
  intros Hf l. induction l as [|x l IH]; intros [|y k] [|z m]; cbn; try done.
  rewrite !andb_true_iff. intros [? ?] [? ?]. split; eauto.
Qed.

(** [std::equal] compares what an item is and where it is consumed. *)
Lemma same_item_spans a b : same_item a b = true -> token_spans a = token_spans b.
Proof.
  unfold same_item. rewrite !andb_true_iff. intros [_ H%all2_spec].
  induction H as [|[b1 c1] [b2 c2] l k H _ IH]; [done|]. cbn in H. f_equal; [|done]. f_equal; lia.
Qed.

Lemma f64_eqb_sym x y : f64_eqb x y = f64_eqb y x.
Proof. unfold f64_eqb. destruct (f64_is_nan x), (f64_is_nan y); cbn; try done. f_equal; [apply Z.eqb_sym|apply andb_comm]. Qed.
Lemma f64_eqb_trans x y z : f64_eqb x y = true -> f64_eqb y z = true -> f64_eqb x z = true.
Proof.
  unfold f64_eqb. rewrite !andb_true_iff, !orb_true_iff, !andb_true_iff, !Z.eqb_eq.
  intros [[H1 H2] H3] [[H4 H5] H6]. split; [done|]. destruct H3 as [<-|H3], H6 as [<-|H6]; tauto.
Qed.

#[export] Instance same_item_sym : Symmetric (fun a b => same_item a b = true).
Proof.
  intros a b. unfold same_item, same_grid. rewrite !andb_true_iff, !bool_decide_eq_true, !Z.eqb_eq.
  intros [[[[[[H1 [[H2 H3] H4]] H5] H6] H7] H8] H9]. split_and!; try done.
  - by rewrite (all2_sym _ f64_eqb_sym).
  - unfold same_spans. rewrite all2_sym; [done|]. intros x y. lia.
Qed.
#[export] Instance same_item_trans : Transitive (fun a b => same_item a b = true).
Proof.
  intros a b c. unfold same_item, same_grid. rewrite !andb_true_iff, !bool_decide_eq_true, !Z.eqb_eq.
  intros [[[[[[H1 [[H2 H3] H4]] H5] H6] H7] H8] H9] [[[[[[K1 [[K2 K3] K4]] K5] K6] K7] K8] K9].
  split_and!; try congruence.
  - by apply (all2_trans _ f64_eqb_trans) with (timestamps b).
  - apply (all2_trans (fun x y => (ts_begin x =? ts_begin y) && (ts_count x =? ts_count y)))
      with (token_spans b); [|done|done]. intros x y z. lia.
Qed.

Definition item_begin (i : VisionItem) : Z := match token_spans i with s :: _ => ts_begin s | [] => 0 end.
Definition item_end (i : VisionItem) : Z :=
  match token_spans i with s :: _ => let l := List.last (token_spans i) s in ts_begin l + ts_count l | [] => 0 end.
(** The first and last consumer of an item are nonempty and its end is a [size_t]. *)
Definition item_ok (i : VisionItem) : Prop :=
  match token_spans i with
  | [] => False
  | s :: _ => let l := List.last (token_spans i) s in
      ts_count s <> 0 /\ ts_count l <> 0 /\ ts_begin l + ts_count l <= u64_max
  end.

(** The first [k] items are consumed before [tokens] and the others from [tokens] on. *)
Record divides_at (items : list VisionItem) (tokens : Z) (k : nat) : Prop := {
  dv_ok : Forall item_ok items;
  dv_count : (k <= length items)%nat;
  dv_before : Forall (fun i => item_end i <= tokens) (take k items);
  dv_after : Forall (fun i => tokens < item_end i /\ tokens <= item_begin i) (drop k items);
}.

Lemma count_items_spec items tokens c saw k :
  count_items items tokens c saw = Some k <->
  (c <= k)%nat /\ divides_at items tokens (k - c) /\ (saw = true -> k = c).
Proof.
  revert c saw. induction items as [|i items IH]; intros c saw.
  { cbn. split; [intros [= <-]|intros (H1 & [_ H2 _ _] & _)].
    - split_and!; [lia|constructor; rewrite ?take_nil, ?drop_nil; [done|cbn; lia|done|done]|done].
    - cbn in H2. f_equal. lia. }
  cbn [count_items]. set (b := item_begin i). set (e := item_end i). unfold item_begin, item_end in b, e.
  destruct (token_spans i) as [|s ss] eqn:Es.
  { split; [done|]. intros (_ & [[Hi _]%Forall_cons _ _ _] & _). unfold item_ok in Hi. by rewrite Es in Hi. }
  fold e b.
  destruct (_ || _) eqn:Eg.
  { split; [done|]. intros (_ & [[Hi _]%Forall_cons _ _ _] & _). unfold item_ok in Hi. rewrite Es in Hi. lia. }
  assert (Hok : item_ok i) by (unfold item_ok; rewrite Es; lia).
  assert (Hb : item_begin i = b) by (unfold item_begin; by rewrite Es).
  assert (He : item_end i = e) by (unfold item_end; by rewrite Es).
  destruct (Z.leb_spec e tokens) as [Hle|Hlt].
  { destruct saw.
    - split; [done|]. intros (H1 & [_ _ _ Ha] & Hk). rewrite (Hk eq_refl), Nat.sub_diag in Ha.
      cbn in Ha. apply Forall_cons in Ha as [[? ?] _]. lia.
    - rewrite IH. split; intros (H1 & [O1 O2 O3 O4] & _).
      + replace (k - c)%nat with (S (k - S c)) by lia. split_and!; [lia| |done].
        constructor; cbn [take drop length]; [by constructor|lia|constructor; [lia|done]|done].
      + destruct (k - c)%nat as [|n] eqn:En.
        { cbn in O4. apply Forall_cons in O4 as [[? ?] _]. lia. }
        replace (k - S c)%nat with n by lia. cbn in O2, O3, O4. apply Forall_cons in O1 as [_ ?].
        apply Forall_cons in O3 as [_ ?]. split_and!; [lia|constructor; [done|lia|done|done]|done]. }
  destruct (Z.geb_spec b tokens) as [Hge|Hgt].
  { rewrite IH. split; intros (H1 & [O1 O2 O3 O4] & Hk).
    - specialize (Hk eq_refl) as ->. rewrite Nat.sub_diag in *. split_and!; [lia| |done].
      constructor; cbn; [by constructor|lia|done|constructor; [lia|done]].
    - assert (k = c) as ->.
      { destruct (k - c)%nat as [|n] eqn:En; [lia|]. cbn in O3. apply Forall_cons in O3 as [? _]. lia. }
      rewrite Nat.sub_diag in *. apply Forall_cons in O1 as [_ ?]. apply Forall_cons in O4 as [_ ?].
      split_and!; [lia|by constructor; [|lia| |]|done]. }
  split; [done|]. intros (_ & [_ _ O3 O4] & _). destruct (k - c)%nat; cbn in O3, O4.
  - apply Forall_cons in O4 as [[? ?] _]. lia.
  - apply Forall_cons in O3 as [? _]. lia.
Qed.

Lemma prefix_item_count_spec items tokens k :
  prefix_item_count items tokens = Some k <-> divides_at items tokens k.
Proof.
  unfold prefix_item_count. rewrite count_items_spec, Nat.sub_0_r. split; [tauto|].
  intros H. split_and!; [lia|done|done].
Qed.

(** ** Matching *)

(** An identity has the three positions of each of its tokens. *)
Record identity_wf (i : ResidentPrefixIdentity) : Prop := {
  iw_axes : length (positions_ i) = 3%nat;
  iw_sizes : Forall (fun axis => length axis = length (token_types_ i)) (positions_ i);
}.

Lemma same_prefix_spec n (a b : list Z) : (n <= length a)%nat -> (n <= length b)%nat ->
  same_prefix n a b = true <-> forall i, (i < n)%nat -> a !! i = b !! i.
Proof.
  intros Ha Hb. unfold same_prefix. rewrite bool_decide_eq_true. split.
  - intros H i Hi. rewrite <- (lookup_take_lt a n i), <- (lookup_take_lt b n i) by done. by rewrite H.
  - intros H. apply list_eq. intros i. destruct (decide (i < n)%nat).
    + rewrite !lookup_take_lt by done. by apply H.
    + by rewrite !lookup_take_ge by lia.
Qed.

Lemma prompt_shape_spec p : prompt_shape p = true <->
  length (token_types p) = length (token_ids p) /\ length (positions p) = (3 * length (token_ids p))%nat.
Proof. unfold prompt_shape. by rewrite andb_true_iff, !Nat.eqb_eq. Qed.

Lemma prompt_axis_length p axis : prompt_shape p = true -> (axis < 3)%nat ->
  length (prompt_axis p axis) = length (token_ids p).
Proof.
  unfold prompt_axis. intros [_ H]%prompt_shape_spec Ha.
  rewrite length_take, length_drop, H. nia.
Qed.
Lemma prompt_axis_lookup p axis i : (i < length (token_ids p))%nat ->
  prompt_axis p axis !! i = positions p !! (axis * length (token_ids p) + i)%nat.
Proof. intros Hi. unfold prompt_axis. by rewrite lookup_take_lt, lookup_drop. Qed.

Lemma forallb_axes (f : nat -> bool) :
  forallb f [0; 1; 2]%nat = true <-> forall axis, (axis < 3)%nat -> f axis = true.
Proof.
  cbn. rewrite !andb_true_iff. split; [|intros H; split_and!; try apply H; (lia || done)].
  intros (H0 & H1 & H2 & _) axis Ha. destruct axis as [|[|[|n]]]; [done..|lia].
Qed.

(** The inputs of a prompt and of a resident agree on their first [n] positions. *)
Record same_inputs (prompt : PreparedPromptData) (ledger : list Z) (id : ResidentPrefixIdentity) (n : nat) : Prop := {
  sm_tokens : forall i, (i < n)%nat -> token_ids prompt !! i = ledger !! i;
  sm_types : forall i, (i < n)%nat -> token_types prompt !! i = token_types_ id !! i;
  sm_positions : forall axis i, (axis < 3)%nat -> (i < n)%nat ->
    positions prompt !! (axis * length (token_ids prompt) + i)%nat = (positions_ id !!! axis) !! i;
  sm_items : exists k, divides_at (vision_items prompt) (Z.of_nat n) k /\ divides_at (vision_items_ id) (Z.of_nat n) k /\
    Forall2 (fun a b => same_item a b = true) (take k (vision_items prompt)) (take k (vision_items_ id));
}.

Lemma identity_axis id axis : identity_wf id -> (axis < 3)%nat ->
  length (positions_ id !!! axis) = length (token_types_ id).
Proof.
  intros [H1 H2] Ha. rewrite Forall_forall in H2. apply H2.
  destruct (lookup_lt_is_Some_2 (positions_ id) axis) as [l Hl]; [lia|].
  rewrite (list_lookup_total_correct _ _ _ Hl). by eapply list_elem_of_lookup_2.
Qed.

Lemma prefix_matches_spec prompt ledger id count :
  identity_wf id -> 0 <= count ->
  prefix_matches prompt ledger id count = true <->
  prompt_shape prompt = true /\ count <= Z.of_nat (length (token_ids prompt)) /\
  count <= Z.of_nat (length ledger) /\ count <= identity_size id /\
  same_inputs prompt ledger id (Z.to_nat count).
Proof.
  intros Hwf Hc. unfold prefix_matches, identity_matches, identity_size. set (n := Z.to_nat count).
  destruct (_ || _) eqn:E1; [split; [done|]; intros (? & ? & ? & _); lia|].
  destruct (prompt_shape prompt) eqn:Hshape.
  2: { split; [|by intros [? _]]. intros [_ H]%andb_true_iff. by rewrite orb_true_r in H. }
  rewrite orb_false_r. case_if E2.
  { split; [by intros [_ ?]%andb_true_iff|]. intros (_ & ? & ? & ? & _). lia. }
  assert (length (token_types prompt) = length (token_ids prompt)) as Hty.
  { by apply prompt_shape_spec in Hshape as [? _]. }
  assert (Hn : Z.of_nat n = count) by lia.
  assert (forall axis, (axis < 3)%nat ->
    same_prefix n (prompt_axis prompt axis) (positions_ id !!! axis) = true <->
    forall i, (i < n)%nat -> positions prompt !! (axis * length (token_ids prompt) + i)%nat =
      (positions_ id !!! axis) !! i) as Haxis.
  { intros axis Ha. rewrite same_prefix_spec;
      [|rewrite prompt_axis_length by done; lia|rewrite identity_axis by done; lia].
    split; intros H i Hi; specialize (H i Hi); by rewrite prompt_axis_lookup in * by lia. }
  rewrite andb_true_iff, same_prefix_spec by lia. split.
  - intros [Ht H]. destruct (same_prefix n (token_types prompt) _) eqn:Hp; [|done]. cbn [negb] in H.
    rewrite same_prefix_spec in Hp by lia. destruct (axes_match _ _ _) eqn:Hf; [|done]. cbn [negb] in H.
    unfold axes_match in Hf. rewrite forallb_axes in Hf. repeat (split; [done || lia|]).
    destruct (prefix_item_count (vision_items prompt) count) as [k|] eqn:Ek; [|done].
    destruct (prefix_item_count (vision_items_ id) count) as [k'|] eqn:Ek'; [|done].
    destruct (Nat.eqb_spec k k') as [<-|]; [|done]. rewrite !prefix_item_count_spec in *.
    constructor; [done..| |].
    + intros axis i Ha Hi. by apply Haxis; [|apply Hf|].
    + exists k. rewrite Hn. split_and!; [done..|by apply all2_spec].
  - intros (_ & _ & _ & _ & [Ht Hp Hax (k & Hk & Hk' & Hs)]). split; [done|].
    assert (same_prefix n (token_types prompt) (token_types_ id) = true) as ->
      by (apply same_prefix_spec; [lia|lia|done]).
    assert (axes_match n prompt id = true) as -> by (apply forallb_axes; intros; apply Haxis; auto).
    cbn [negb].
    rewrite Hn in Hk, Hk'. rewrite (proj2 (prefix_item_count_spec _ _ _) Hk),
      (proj2 (prefix_item_count_spec _ _ _) Hk'), Nat.eqb_refl. by apply all2_spec.
Qed.

Lemma divides_at_sub items K (n m : Z) k pre :
  divides_at items n K -> m <= n -> divides_at pre m k -> (k <= K)%nat ->
  Forall2 (fun a b => token_spans a = token_spans b) (take K items) (take K pre) ->
  divides_at items m k.
Proof.
  intros [O1 O2 O3 O4] Hm [P1 P2 P3 P4] Hk HF.
  assert (HS : forall a b, token_spans a = token_spans b -> item_end a = item_end b /\ item_begin a = item_begin b).
  { intros a b E. unfold item_end, item_begin. by rewrite E. }
  constructor; [done|lia| |].
  - apply (Forall2_take _ _ _ k) in HF. rewrite !take_take, !(Nat.min_l k K) in HF by lia.
    rewrite Forall_forall in P3. apply Forall_forall. intros x Hx.
    apply list_elem_of_lookup in Hx as [i Hi].
    destruct (Forall2_lookup_l _ _ _ _ _ HF Hi) as (y & Hy & E%HS). destruct E as [-> _].
    apply P3. by eapply list_elem_of_lookup_2.
  - rewrite <- (take_drop K items), drop_app_le by (rewrite length_take; lia).
    apply Forall_app. split.
    + apply (Forall2_drop _ _ _ k) in HF. apply Forall_forall. intros x Hx.
      apply list_elem_of_lookup in Hx as [i Hi].
      destruct (Forall2_lookup_l _ _ _ _ _ HF Hi) as (y & Hy & E%HS). destruct E as [-> ->].
      rewrite Forall_forall in P4. apply P4. rewrite lookup_drop in Hy.
      apply lookup_take_Some in Hy as [Hy _]. apply list_elem_of_lookup. exists i. by rewrite lookup_drop.
    + eapply Forall_impl; [exact O4|]. cbn. intros x. lia.
Qed.

(** What a prompt shares with a resident is also what any third prompt shares with it. *)
Lemma same_inputs_chain p ledger id n q m :
  same_inputs p ledger id n -> (m <= n)%nat -> prompt_shape p = true -> (n <= length (token_ids p))%nat ->
  same_inputs q ledger id m <->
  same_inputs q (token_ids p) (mkIdentity (token_types p) (prompt_axis p <$> [0; 1; 2]%nat) (vision_items p)) m.
Proof.
  intros [S1 S2 S3 (K & D1 & D2 & F)] Hm Hsh%prompt_shape_spec Hn.
  assert (HF : Forall2 (fun a b => token_spans a = token_spans b) (take K (vision_items p)) (take K (vision_items_ id)))
    by (eapply Forall2_impl; [exact F|]; intros; by apply same_item_spans).
  assert (Hax : forall axis i, (axis < 3)%nat -> (i < m)%nat ->
    ((prompt_axis p <$> [0; 1; 2]%nat) !!! axis) !! i = (positions_ id !!! axis) !! i).
  { intros axis i Ha Hi. rewrite <- S3 by lia. rewrite <- prompt_axis_lookup by lia.
    destruct axis as [|[|[|a]]]; [done..|lia]. }
  assert (Hle : forall items k, divides_at items (Z.of_nat m) k ->
            forall J, divides_at items (Z.of_nat n) J -> (k <= J)%nat).
  { intros items k [_ A2 A3 _] J [_ B2 _ B4]. destruct (decide (k <= J)%nat) as [|Hlt]; [done|]. exfalso.
    destruct (lookup_lt_is_Some_2 items J) as [x Hx]; [lia|].
    assert (x ∈ take k items) as Hin by (apply (list_elem_of_lookup_2 _ J); rewrite lookup_take_lt by lia; done).
    assert (x ∈ drop J items) as Hin'
      by (apply list_elem_of_lookup; exists 0%nat; by rewrite lookup_drop, Nat.add_0_r).
    rewrite Forall_forall in A3, B4. specialize (A3 _ Hin). specialize (B4 _ Hin'). lia. }
  split; intros [T1 T2 T3 (k & E1 & E2 & G)]; cbn in *.
  - pose proof (Hle _ _ E2 _ D2) as HkK. constructor; cbn.
    + intros i Hi. rewrite T1, S1 by lia. done.
    + intros i Hi. rewrite T2, S2 by lia. done.
    + intros axis i Ha Hi. by rewrite T3, <- Hax by done.
    + exists k. split_and!; [done|by eapply divides_at_sub; [exact D1|lia|exact E2|..]|].
      apply (Forall2_take _ _ _ k) in F. rewrite !take_take, !(Nat.min_l k K) in F by lia.
      etransitivity; [exact G|]. by symmetry.
  - pose proof (Hle _ _ E2 _ D1) as HkK. constructor; cbn.
    + intros i Hi. rewrite T1, S1 by lia. done.
    + intros i Hi. rewrite T2, S2 by lia. done.
    + intros axis i Ha Hi. by rewrite T3, Hax by done.
    + exists k. split_and!; [done|eapply divides_at_sub; [exact D2|lia|exact E2|lia|]|].
      { eapply Forall2_impl; [exact (proj2 (Forall2_flip _ _ _) HF)|]. done. }
      apply (Forall2_take _ _ _ k) in F. rewrite !take_take, !(Nat.min_l k K) in F by lia.
      etransitivity; [exact G|exact F].
Qed.

(** ** Assigning and appending *)

Lemma identity_assign_Ok p i i' : identity_assign p i = (Ok tt, i') ->
  prompt_shape p = true /\
  i' = mkIdentity (token_types p) (prompt_axis p <$> [0; 1; 2]%nat) (vision_items p).
Proof.
  unfold identity_assign, mbind_, mthrow_if, mlift, throw_if, mput.
  destruct (prompt_shape p); cbn; [|done]. by intros [= <-].
Qed.

Lemma identity_assign_wf p : prompt_shape p = true ->
  identity_wf (mkIdentity (token_types p) (prompt_axis p <$> [0; 1; 2]%nat) (vision_items p)).
Proof.
  intros Hs. pose proof Hs as [Ht _]%prompt_shape_spec. constructor; [done|]. cbn.
  repeat constructor; rewrite prompt_axis_length; (done || lia).
Qed.

Definition appended (i : ResidentPrefixIdentity) (begin rope_delta : Z) (count : nat) : ResidentPrefixIdentity :=
  mkIdentity (token_types_ i ++ replicate count 0)
    ((fun axis => axis ++ ((fun x => x + rope_delta) <$> seqZ begin (Z.of_nat count))) <$> positions_ i)
    (vision_items_ i).

Lemma appended_0 i begin rope_delta : appended i begin rope_delta 0 = i.
Proof.
  unfold appended. cbn. rewrite app_nil_r. destruct i as [a b c]. cbn. f_equal.
  rewrite <- (list_fmap_id b) at 2. apply list_fmap_ext. intros. cbn. by rewrite app_nil_r.
Qed.
Lemma appended_S i begin rope_delta n :
  appended (appended i begin rope_delta 1) (begin + 1) rope_delta n = appended i begin rope_delta (S n).
Proof.
  unfold appended. cbn [token_types_ positions_ vision_items_ replicate]. f_equal; [by rewrite <- app_assoc|].
  rewrite <- list_fmap_compose. apply list_fmap_ext. intros k axis _. cbn. rewrite <- app_assoc. cbn.
  rewrite (seqZ_cons begin (Z.of_nat (S n))) by lia. cbn.
  by replace (Z.pred (Z.of_nat (S n))) with (Z.of_nat n) by lia.
Qed.

Lemma appended_wf i begin rope_delta n : identity_wf i -> identity_wf (appended i begin rope_delta n).
Proof.
  intros [H1 H2]. constructor; cbn; [by rewrite length_fmap|].
  apply Forall_fmap. eapply Forall_impl; [exact H2|]. cbn. intros axis H.
  by rewrite !length_app, length_fmap, length_seqZ, length_replicate, H, Nat2Z.id.
Qed.
Lemma appended_size i begin rope_delta n :
  identity_size (appended i begin rope_delta n) = identity_size i + Z.of_nat n.
Proof. unfold identity_size. cbn. rewrite length_app, length_replicate. lia. Qed.

(** One generated token fits when its index and its shifted position are [int32]s. *)
Definition position_ok (index rope_delta : Z) : bool :=
  (index <=? i32_max) && (i32_min <=? index + rope_delta) && (index + rope_delta <=? i32_max).

Lemma append_one_spec index rope_delta i :
  append_one index rope_delta i =
  if position_ok index rope_delta then (Ok tt, appended i index rope_delta 1) else (Err OverflowError, i).
Proof.
  unfold append_one, mbind_, mthrow_if, mlift, throw_if, mmodify, position_ok.
  destruct (Z.gtb_spec index i32_max), (Z.leb_spec index i32_max); try lia; [done|]. cbn.
  destruct (Z.ltb_spec (index + rope_delta) i32_min), (Z.leb_spec i32_min (index + rope_delta)); try lia; [done|].
  destruct (Z.gtb_spec (index + rope_delta) i32_max), (Z.leb_spec (index + rope_delta) i32_max); try lia; [done|].
  cbn. by rewrite Z.add_0_r || done.
Qed.

(** Whether it succeeds or throws, only generated tokens are appended. *)
Lemma append_from_spec begin count rope_delta i : exists n, (n <= count)%nat /\
  append_from begin count rope_delta i =
    (if (n =? count)%nat then Ok tt else Err OverflowError, appended i begin rope_delta n) /\
  forall k, (k < n)%nat -> position_ok (begin + Z.of_nat k) rope_delta = true.
Proof.
  revert begin i. induction count as [|count IH]; intros begin i.
  { exists 0%nat. split_and!; [done| |lia]. by rewrite appended_0. }
  cbn [append_from]. unfold mbind_. rewrite append_one_spec. destruct (position_ok begin rope_delta) eqn:E.
  - destruct (IH (begin + 1) (appended i begin rope_delta 1)) as (n & Hn & H1 & H2).
    exists (S n). split_and!; [lia|by rewrite H1, appended_S|]. intros [|k] Hk; [by rewrite Z.add_0_r|].
    replace (begin + Z.of_nat (S k)) with (begin + 1 + Z.of_nat k) by lia. apply H2. lia.
  - exists 0%nat. split_and!; [lia|by rewrite appended_0|lia].
Qed.

Lemma append_from_Ok begin count rope_delta i :
  (forall k, (k < count)%nat -> position_ok (begin + Z.of_nat k) rope_delta = true) ->
  append_from begin count rope_delta i = (Ok tt, appended i begin rope_delta count).
Proof.
  revert begin i. induction count as [|count IH]; intros begin i H; [by rewrite appended_0|].
  cbn [append_from]. unfold mbind_. rewrite append_one_spec.
  assert (position_ok begin rope_delta = true) as ->.
  { specialize (H 0%nat ltac:(lia)). by rewrite Z.add_0_r in H. }
  rewrite IH, appended_S; [done|]. intros k Hk. specialize (H (S k) ltac:(lia)).
  by replace (begin + 1 + Z.of_nat k) with (begin + Z.of_nat (S k)) by lia.
Qed.

(** C19: A prompt may continue from a resident prefix exactly when its first [count] inputs are the
    resident's: the same tokens, types and positions at each of these positions, no vision item of
    either that is consumed on both sides of the frontier, and the same items before it (compared as
    C++ does, so a NaN timestamp matches nothing). *)
Theorem prefix_matches_exact prompt ledger id count :
  identity_wf id -> 0 <= count ->
  prefix_matches prompt ledger id count = true <->
  prompt_shape prompt = true /\ count <= Z.of_nat (length (token_ids prompt)) /\
  count <= Z.of_nat (length ledger) /\ count <= identity_size id /\
  same_inputs prompt ledger id (Z.to_nat count).
Proof. apply prefix_matches_spec. Qed.

Definition sample_prompt (tokens : list Z) : PreparedPromptData :=
  mkPrompt tokens (map (fun t => if t =? 9 then 1 else 0) tokens)
    (let n := Z.of_nat (length tokens) in seqZ 0 n ++ seqZ 0 n ++ seqZ 0 n) 0 [Some 6144]
    [mkVisionItem Image (mkGrid 1 2 2) 0 4 [7] [0x3ff0000000000000] [mkTokenSpan 1 1]]
    (mkPromptIdentity true None) 4 1.

Lemma prefix_matches_exact_witness :
  let id := (identity_assign (sample_prompt [5; 9; 6; 7]) identity_empty).2 in
  prefix_matches (sample_prompt [5; 9; 6; 8]) [5; 9; 6; 7] id 3 = true /\
  same_inputs (sample_prompt [5; 9; 6; 8]) [5; 9; 6; 7] id 3.
Proof.
  cbn zeta. set (id := snd _). split; [vm_compute; reflexivity|].
  apply (proj1 (prefix_matches_exact (sample_prompt [5; 9; 6; 8]) [5; 9; 6; 7] id 3
    ltac:(split; [reflexivity|repeat constructor]) ltac:(lia))). vm_compute. reflexivity.
Defined.
