(* ===== verification/Digest.v ===== *)
(** * SHA-256 fingerprints: [targets/qwen3_6/impl/frontend/digest.cpp]

    Media and the chat template are identified by their SHA-256 digest.  Bytes and 32-bit words are
    [Z]s in range.  [sha256_with] takes the callback that lets a long computation be cancelled: the
    outcome of its [n]-th call, or no callback. *)
From S2P Require Import Prelude.
#[local] Open Scope Z_scope.

(** ** Words *)

(** In decimal. *)
Definition kRound : list Z := [
  1116352408; 1899447441; 3049323471; 3921009573; 961987163; 1508970993; 2453635748; 2870763221;
  3624381080; 310598401; 607225278; 1426881987; 1925078388; 2162078206; 2614888103; 3248222580;
  3835390401; 4022224774; 264347078; 604807628; 770255983; 1249150122; 1555081692; 1996064986;
  2554220882; 2821834349; 2952996808; 3210313671; 3336571891; 3584528711; 113926993; 338241895;
  666307205; 773529912; 1294757372; 1396182291; 1695183700; 1986661051; 2177026350; 2456956037;
  2730485921; 2820302411; 3259730800; 3345764771; 3516065817; 3600352804; 4094571909; 275423344;
  430227734; 506948616; 659060556; 883997877; 958139571; 1322822218; 1537002063; 1747873779;
  1955562222; 2024104815; 2227730452; 2361852424; 2428436474; 2756734187; 3204031479; 3329325298].

(** [std::rotr] of a 32-bit word, for [0 < n < 32]. *)
Definition rotr (x n : Z) : Z := Z.lor (Z.shiftr x n) (u32 (Z.shiftl x (32 - n))).
(** [~x] *)
Definition not32 (x : Z) : Z := 4294967295 - x.

(** The four bytes from [pos] on. *)
Definition load_be32 (bytes : list Z) (pos : nat) : Z :=
  Z.lor (Z.lor (Z.lor (Z.shiftl (bytes !!! pos) 24) (Z.shiftl (bytes !!! (pos + 1)%nat) 16))
               (Z.shiftl (bytes !!! (pos + 2)%nat) 8)) (bytes !!! (pos + 3)%nat).

Definition store_be32 (value : Z) : list Z :=
  [u8 (Z.shiftr value 24); u8 (Z.shiftr value 16); u8 (Z.shiftr value 8); u8 value].

(** ** The compression function *)

Definition schedule_step (words : list Z) (i : nat) : list Z :=
  let w15 := words !!! (i - 15)%nat in
  let w2 := words !!! (i - 2)%nat in
  let s0 := Z.lxor (Z.lxor (rotr w15 7) (rotr w15 18)) (Z.shiftr w15 3) in
  let s1 := Z.lxor (Z.lxor (rotr w2 17) (rotr w2 19)) (Z.shiftr w2 10) in
  <[i := u32 (words !!! (i - 16)%nat + s0 + words !!! (i - 7)%nat + s1)]> words.

Definition schedule (bytes : list Z) (offset : nat) : list Z :=
  foldl schedule_step
    (foldl (fun words i => <[i := load_be32 bytes (offset + 4 * i)]> words) (replicate 64 0) (seq 0 16))
    (seq 16 48).

(** The variables [a .. h]. *)
Record Working : Set := mkWorking {
  w_a : Z; w_b : Z; w_c : Z; w_d : Z; w_e : Z; w_f : Z; w_g : Z; w_h : Z;
}.

Definition round_step (words : list Z) (v : Working) (i : nat) : Working :=
  let '(mkWorking a b c d e f g h) := v in
  let sum1 := Z.lxor (Z.lxor (rotr e 6) (rotr e 11)) (rotr e 25) in
  let choose := Z.lxor (Z.land e f) (Z.land (not32 e) g) in
  let t1 := u32 (h + sum1 + choose + kRound !!! i + words !!! i) in
  let sum0 := Z.lxor (Z.lxor (rotr a 2) (rotr a 13)) (rotr a 22) in
  let majority := Z.lxor (Z.lxor (Z.land a b) (Z.land a c)) (Z.land b c) in
  let t2 := u32 (sum0 + majority) in
  mkWorking (u32 (t1 + t2)) a b c (u32 (d + t1)) e f g.

(** [process_block(state, bytes + offset)]; the state is its eight words. *)
Definition process_block (state bytes : list Z) (offset : nat) : list Z :=
  let words := schedule bytes offset in
  let v := foldl (round_step words)
    (mkWorking (state !!! 0%nat) (state !!! 1%nat) (state !!! 2%nat) (state !!! 3%nat)
               (state !!! 4%nat) (state !!! 5%nat) (state !!! 6%nat) (state !!! 7%nat)) (seq 0 64) in
  zip_with (fun s x => u32 (s + x)) state
    [w_a v; w_b v; w_c v; w_d v; w_e v; w_f v; w_g v; w_h v].

(** ** The digest *)

Definition kInitial : list Z :=
  [1779033703; 3144134277; 1013904242; 2773480762; 1359893119; 2600822924; 528734635; 1541459225].

Definition checkpoint_at (checkpoint : option (nat -> result unit)) (offset : nat) : result unit :=
  match checkpoint with
  | Some call => if Z.of_nat offset mod 1048576 =? 0 then call (Z.to_nat (Z.of_nat offset / 1048576)) else Ok tt
  | None => Ok tt
  end.

(** The loop over the whole blocks; [blocks] of them are left. *)
Fixpoint whole_blocks (blocks : nat) (checkpoint : option (nat -> result unit)) (input : list Z)
    (offset : nat) (state : list Z) : result (nat * list Z) :=
  match blocks with
  | O => Ok (offset, state)
  | S blocks' =>
      let* _ := checkpoint_at checkpoint offset in
      whole_blocks blocks' checkpoint input (offset + 64) (process_block state input offset)
  end%ninfer.

(** The last one or two blocks: the bytes left, the padding and the number of bits. *)
Definition tail_size (remaining : nat) : nat := if (remaining <? 56)%nat then 64%nat else 128%nat.

Definition make_tail (input : list Z) (offset : nat) : list Z :=
  let remaining := (length input - offset)%nat in
  let tail := drop offset input ++ replicate (128 - remaining) 0 in
  let tail := <[remaining := 0x80]> tail in
  let bits := u64 (Z.of_nat (length input) * 8) in
  foldl (fun tail i => <[(tail_size remaining - 1 - i)%nat := u8 (Z.shiftr bits (8 * Z.of_nat i))]> tail)
    tail (seq 0 8).

Definition sha256_with (input : list Z) (checkpoint : option (nat -> result unit)) : result (list Z) :=
  (let* _ := throw_if (Z.of_nat (length input) >? u64_max / 8) InvalidArgument in
   let* at_ := whole_blocks (length input / 64) checkpoint input 0 kInitial in
   let '(offset, state) := at_ in
   let tail := make_tail input offset in
   let state := process_block state tail 0 in
   let state := if (tail_size (length input - offset) =? 128)%nat then process_block state tail 64 else state in
   Ok (concat (store_be32 <$> state)))%ninfer.

Definition sha256 (input : list Z) : result (list Z) := sha256_with input None.

Definition kHexDigits : list Z := [48; 49; 50; 51; 52; 53; 54; 55; 56; 57; 97; 98; 99; 100; 101; 102].
Definition sha256_hex (digest : list Z) : list Z :=
  concat ((fun b => [kHexDigits !!! Z.to_nat (Z.shiftr b 4); kHexDigits !!! Z.to_nat (Z.land b 15)]) <$> digest).
