(* ===== verification/DigestProofs.v ===== *)
(** * [sha256] is SHA-256

    The standard (FIPS 180-4) pads the message to whole blocks and folds the compression function over
    them, with a message schedule in which each word is defined by the earlier ones.  The program never
    builds the padded message and computes the schedule in place. *)
From Stdlib Require Import Strings.String.
From S2P Require Import Prelude Unicode Admission Capacity Contract Output Tokenizer UnicodeProofs Digest.
#[local] Open Scope Z_scope.

(** ** The standard *)

Definition Ch (x y z : Z) : Z := Z.lxor (Z.land x y) (Z.land (not32 x) z).
Definition Maj (x y z : Z) : Z := Z.lxor (Z.lxor (Z.land x y) (Z.land x z)) (Z.land y z).
Definition Sigma0 (x : Z) : Z := Z.lxor (Z.lxor (rotr x 2) (rotr x 13)) (rotr x 22).
Definition Sigma1 (x : Z) : Z := Z.lxor (Z.lxor (rotr x 6) (rotr x 11)) (rotr x 25).
Definition sigma0 (x : Z) : Z := Z.lxor (Z.lxor (rotr x 7) (rotr x 18)) (Z.shiftr x 3).
Definition sigma1 (x : Z) : Z := Z.lxor (Z.lxor (rotr x 17) (rotr x 19)) (Z.shiftr x 10).

(** A number written big-endian. *)
Definition be_number (bytes : list Z) : Z := foldl (fun n b => 256 * n + b) 0 bytes.

(** The next word of the schedule, [W] being the ones before it. *)
Definition fips_word (block W : list Z) (t : nat) : Z :=
  if (t <? 16)%nat then be_number (take 4 (drop (4 * t) block))
  else u32 (sigma1 (W !!! (t - 2)%nat) + W !!! (t - 7)%nat + sigma0 (W !!! (t - 15)%nat) + W !!! (t - 16)%nat).
Definition fips_schedule (block : list Z) (n : nat) : list Z :=
  foldl (fun W t => W ++ [fips_word block W t]) [] (seq 0 n).

Definition fips_round (W : list Z) (v : Working) (t : nat) : Working :=
  let T1 := u32 (w_h v + Sigma1 (w_e v) + Ch (w_e v) (w_f v) (w_g v) + kRound !!! t + W !!! t) in
  let T2 := u32 (Sigma0 (w_a v) + Maj (w_a v) (w_b v) (w_c v)) in
  mkWorking (u32 (T1 + T2)) (w_a v) (w_b v) (w_c v) (u32 (w_d v + T1)) (w_e v) (w_f v) (w_g v).

Definition fips_block (H block : list Z) : list Z :=
  let v := foldl (fips_round (fips_schedule block 64))
    (mkWorking (H !!! 0%nat) (H !!! 1%nat) (H !!! 2%nat) (H !!! 3%nat)
               (H !!! 4%nat) (H !!! 5%nat) (H !!! 6%nat) (H !!! 7%nat)) (seq 0 64) in
  zip_with (fun s x => u32 (s + x)) H [w_a v; w_b v; w_c v; w_d v; w_e v; w_f v; w_g v; w_h v].

(** The big-endian bytes of a 64-bit number. *)
Definition be64 (x : Z) : list Z := (fun i => (x / 2 ^ (8 * (7 - Z.of_nat i))) mod 256) <$> seq 0 8.

(** One bit, as few zeros as make whole blocks, and the length in bits. *)
Definition pad (msg : list Z) : list Z :=
  msg ++ [0x80] ++ replicate (Z.to_nat ((55 - Z.of_nat (length msg)) mod 64)) 0 ++
  be64 (8 * Z.of_nat (length msg)).

Definition blocks (l : list Z) : list (list Z) :=
  (fun i => take 64 (drop (64 * i) l)) <$> seq 0 (length l / 64).

Definition fips_sha256 (msg : list Z) : list Z :=
  concat (store_be32 <$> foldl fips_block kInitial (blocks (pad msg))).

Definition is_byte (b : Z) : Prop := 0 <= b < 256.

(** ** The schedule *)

Lemma lookup_total_slice (l : list Z) off j : (j < 64)%nat -> take 64 (drop off l) !!! j = l !!! (off + j)%nat.
Proof. intros Hj. rewrite !list_lookup_total_alt, lookup_take_lt, lookup_drop by done. done. Qed.

Lemma fips_schedule_S block n : fips_schedule block (S n) = fips_schedule block n ++ [fips_word block (fips_schedule block n) n].
Proof. unfold fips_schedule. rewrite seq_S, foldl_app. done. Qed.

Lemma fips_schedule_length block n : length (fips_schedule block n) = n.
Proof. induction n; [done|]. rewrite fips_schedule_S, length_app. cbn. lia. Qed.

(** Filling an array in order of its indices is appending. *)
Lemma fill_array (f : list Z -> nat -> Z) block start count :
  (start + count <= 64)%nat ->
  (forall i, (start <= i < start + count)%nat ->
    f (fips_schedule block i ++ replicate (64 - i) 0) i = fips_word block (fips_schedule block i) i) ->
  foldl (fun words i => <[i := f words i]> words) (fips_schedule block start ++ replicate (64 - start) 0)
    (seq start count) = fips_schedule block (start + count) ++ replicate (64 - (start + count)) 0.
Proof.
  revert start. induction count as [|count IH]; intros start Hle Hf; cbn [seq foldl]; [by rewrite Nat.add_0_r|].
  rewrite Hf by lia. pose proof (fips_schedule_length block start) as Hlen.
  replace (64 - start)%nat with (S (64 - S start)) by lia. cbn [replicate].
  replace start with (length (fips_schedule block start) + 0)%nat at 1 by lia. rewrite insert_app_r. cbn [insert list_insert].
  replace (fips_schedule block start ++ _ :: replicate (64 - S start) 0)
    with (fips_schedule block (S start) ++ replicate (64 - S start) 0)
    by (rewrite fips_schedule_S, <- app_assoc; done).
  rewrite IH; [|lia|intros i Hi; apply Hf; lia]. by replace (S start + count)%nat with (start + S count)%nat by lia.
Qed.

Lemma lor_bytes b0 b1 b2 b3 :
  is_byte b0 -> is_byte b1 -> is_byte b2 -> is_byte b3 ->
  Z.lor (Z.lor (Z.lor (Z.shiftl b0 24) (Z.shiftl b1 16)) (Z.shiftl b2 8)) b3
  = 16777216 * b0 + 65536 * b1 + 256 * b2 + b3.
Proof.
  unfold is_byte. intros H0 H1 H2 H3. rewrite !Z.shiftl_mul_pow2 by lia.
  change (2 ^ 24) with 16777216. change (2 ^ 16) with 65536. change (2 ^ 8) with 256.
  rewrite (lor_low 24 (b0 * 16777216)); [|lia|change (2 ^ 24) with 16777216; lia|by apply Z.mod_mul].
  rewrite (lor_low 16 _ (b2 * 256)); [|lia|change (2 ^ 16) with 65536; lia|
    change (2 ^ 16) with 65536; replace (b0 * 16777216 + b1 * 65536) with ((b0 * 256 + b1) * 65536) by lia; by apply Z.mod_mul].
  rewrite (lor_low 8 _ b3); [lia|lia|change (2 ^ 8) with 256; lia|].
  change (2 ^ 8) with 256. replace (b0 * 16777216 + b1 * 65536 + b2 * 256) with ((b0 * 65536 + b1 * 256 + b2) * 256) by lia.
  by apply Z.mod_mul.
Qed.

Lemma load_be32_number bytes pos :
  Forall is_byte bytes -> (pos + 4 <= length bytes)%nat ->
  load_be32 bytes pos = be_number (take 4 (drop pos bytes)).
Proof.
  intros Hb Hl. unfold load_be32.
  assert (Hn : forall j, bytes !!! (pos + j)%nat = drop pos bytes !!! j)
    by (intros j; by rewrite !list_lookup_total_alt, lookup_drop).
  pose proof (Hn 0%nat) as H0. rewrite Nat.add_0_r in H0. rewrite H0, !Hn. clear H0 Hn.
  assert (Hf : Forall is_byte (drop pos bytes)) by (by apply Forall_drop).
  destruct (drop pos bytes) as [|b0 [|b1 [|b2 [|b3 rest]]]] eqn:E;
    try (apply (f_equal length) in E; rewrite length_drop in E; cbn in E; lia).
  repeat (apply Forall_cons in Hf as [? Hf]). simpl. rewrite take_0, lor_bytes by done.
  unfold be_number. cbn [foldl]. lia.
Qed.

Lemma schedule_exact bytes off :
  Forall is_byte bytes -> (off + 64 <= length bytes)%nat ->
  schedule bytes off = fips_schedule (take 64 (drop off bytes)) 64.
Proof.
  intros Hb Hl. set (block := take 64 (drop off bytes)). unfold schedule.
  change (replicate 64 0) with (fips_schedule block 0 ++ replicate (64 - 0) 0).
  rewrite (fill_array (fun _ i => load_be32 bytes (off + 4 * i)) block 0 16); [|lia|].
  - change (0 + 16)%nat with 16%nat.
    set (f := fun (words : list Z) i => u32 (words !!! (i - 16)%nat + sigma0 (words !!! (i - 15)%nat) +
      words !!! (i - 7)%nat + sigma1 (words !!! (i - 2)%nat))).
    change schedule_step with (fun words i => <[i := f words i]> words).
    rewrite (fill_array f block 16 48); [by rewrite app_nil_r|lia|]. subst f. cbv beta.
    intros i Hi. unfold fips_word. destruct (Nat.ltb_spec i 16); [lia|].
    pose proof (fips_schedule_length block i). rewrite !lookup_total_app_l by lia. apply f_equal. ring.
  - intros i Hi. unfold fips_word. destruct (Nat.ltb_spec i 16); [|lia].
    rewrite load_be32_number by (done || lia). f_equal. subst block.
    rewrite skipn_firstn_comm, firstn_firstn, drop_drop. f_equal. lia.
Qed.

Lemma process_block_exact state bytes off :
  Forall is_byte bytes -> (off + 64 <= length bytes)%nat ->
  process_block state bytes off = fips_block state (take 64 (drop off bytes)).
Proof.
  intros Hb Hl. unfold process_block, fips_block. rewrite schedule_exact by done.
  set (W := fips_schedule _ _). 
  assert (Hr : forall v l, foldl (round_step W) v l = foldl (fips_round W) v l).
  { intros v l. revert v. induction l as [|t l IH]; intros v; [done|]. cbn [foldl]. rewrite IH. f_equal.
    by destruct v. }
  by rewrite Hr.
Qed.

(** ** The blocks of the padded message *)

Lemma blocks_app l k : (64 | Z.of_nat (length l)) -> blocks (l ++ k) = blocks l ++ blocks k.
Proof.
  intros [q Hq]. assert (Hn : exists n, length l = (64 * n)%nat) by (exists (Z.to_nat q); lia).
  destruct Hn as [n Hn]. unfold blocks. rewrite length_app, Hn, Nat.mul_comm, Nat.div_add_l, Nat.div_mul by lia.
  rewrite seq_app, fmap_app. f_equal.
  - apply list_fmap_ext. intros j i Hi. apply lookup_seq in Hi as [-> Hi].
    rewrite drop_app_le by lia. rewrite take_app_le; [done|]. rewrite length_drop. lia.
  - replace (0 + n)%nat with (n + 0)%nat by lia. rewrite <- fmap_add_seq, <- list_fmap_compose. apply list_fmap_ext. intros j i _. cbn.
    rewrite drop_app_ge by lia. do 2 f_equal. lia.
Qed.

Lemma whole_blocks_exact n input off state :
  Forall is_byte input -> (off + 64 * n <= length input)%nat ->
  whole_blocks n None input off state = Ok ((off + 64 * n)%nat, foldl fips_block state (blocks (take (64 * n) (drop off input)))).
Proof.
  intros Hb. revert off state. induction n as [|n IH]; intros off state Hl; cbn [whole_blocks].
  - rewrite Nat.add_0_r. done.
  - cbn [rbind checkpoint_at]. rewrite IH by lia. f_equal. f_equal; [lia|].
    rewrite process_block_exact by (done || lia).
    replace (64 * S n)%nat with (64 + 64 * n)%nat by lia.
    rewrite <- (take_take_drop (drop off input) 64 (64 * n)), blocks_app, drop_drop, foldl_app.
    + do 2 f_equal. unfold blocks. rewrite length_take, length_drop.
      replace (64 `min` (length input - off))%nat with 64%nat by lia. change (64 / 64)%nat with 1%nat. cbn.
      by rewrite drop_0, take_take, Nat.min_id.
    + exists 1. rewrite length_take, length_drop. lia.
Qed.

(** ** The tail *)

Lemma insert_middle (a b c : list Z) k x :
  (k < length b)%nat -> <[(length a + k)%nat := x]> (a ++ b ++ c) = a ++ <[k := x]> b ++ c.
Proof. intros Hk. rewrite insert_app_r. by rewrite insert_app_l. Qed.

Lemma be64_bytes bits : be64 bits = (fun i => u8 (Z.shiftr bits (8 * (7 - Z.of_nat i)))) <$> seq 0 8.
Proof.
  apply list_fmap_ext. intros j i Hi. apply lookup_seq in Hi as [-> Hi].
  unfold u8. by rewrite Z.shiftr_div_pow2 by lia.
Qed.

(** The last eight bytes of the block, from the last one down. *)
Lemma fill_bits (a c : list Z) bits n :
  n = (length a + 8)%nat ->
  foldl (fun tail i => <[(n - 1 - i)%nat := u8 (Z.shiftr bits (8 * Z.of_nat i))]> tail)
    (a ++ replicate 8 0 ++ c) (seq 0 8)
  = a ++ ((fun i => u8 (Z.shiftr bits (8 * (7 - Z.of_nat i)))) <$> seq 0 8) ++ c.
Proof.
  intros ->. cbn [seq foldl fmap list_fmap].
  replace (length a + 8 - 1 - 0)%nat with (length a + 7)%nat by lia.
  replace (length a + 8 - 1 - 1)%nat with (length a + 6)%nat by lia.
  replace (length a + 8 - 1 - 2)%nat with (length a + 5)%nat by lia.
  replace (length a + 8 - 1 - 3)%nat with (length a + 4)%nat by lia.
  replace (length a + 8 - 1 - 4)%nat with (length a + 3)%nat by lia.
  replace (length a + 8 - 1 - 5)%nat with (length a + 2)%nat by lia.
  replace (length a + 8 - 1 - 6)%nat with (length a + 1)%nat by lia.
  replace (length a + 8 - 1 - 7)%nat with (length a + 0)%nat by lia.
  rewrite !insert_middle by (rewrite ?length_insert; cbn; lia). done.
Qed.

Lemma make_tail_exact input off :
  (off <= length input < off + 64)%nat -> (64 | Z.of_nat off) -> Z.of_nat (length input) <= u64_max / 8 ->
  let r := (length input - off)%nat in
  make_tail input off =
    drop off input ++ [0x80] ++ replicate (Z.to_nat ((55 - Z.of_nat (length input)) mod 64)) 0 ++
    be64 (8 * Z.of_nat (length input)) ++ replicate (128 - tail_size r) 0.
Proof.
  intros Hoff [q Hq] Hmax r. unfold make_tail. fold r.
  assert (Hz : Z.to_nat ((55 - Z.of_nat (length input)) mod 64) = (tail_size r - 9 - r)%nat /\ (r + 9 <= tail_size r <= 128)%nat).
  { unfold tail_size. destruct (Nat.ltb_spec r 56).
    - replace ((55 - Z.of_nat (length input)) mod 64) with (55 - Z.of_nat r); [lia|].
      apply (Z.mod_unique_pos _ _ (- q)); lia.
    - replace ((55 - Z.of_nat (length input)) mod 64) with (119 - Z.of_nat r); [lia|].
      apply (Z.mod_unique_pos _ _ (- q - 1)); lia. }
  destruct Hz as [-> Hts].
  assert (Hd : length (drop off input) = r) by (by rewrite length_drop).
  replace (<[r := 128]> (drop off input ++ replicate (128 - r) 0))
    with ((drop off input ++ [0x80] ++ replicate (tail_size r - 9 - r) 0) ++ replicate 8 0 ++ replicate (128 - tail_size r) 0).
  2: { replace (128 - r)%nat with (1 + ((tail_size r - 9 - r) + (8 + (128 - tail_size r))))%nat by lia.
       rewrite !replicate_add. change (replicate 1 0 ++ ?x) with (0 :: x).
       pose proof (insert_app_r (drop off input) (0 :: replicate (tail_size r - 9 - r) 0 ++
         replicate 8 0 ++ replicate (128 - tail_size r) 0) 0 128) as Hi.
       rewrite Nat.add_0_r, Hd in Hi. rewrite Hi. by rewrite <- !app_assoc. }
  rewrite fill_bits.
  - rewrite be64_bytes. change (u64_max / 8) with 2305843009213693951 in Hmax.
    unfold u64. rewrite (Z.mod_small (Z.of_nat (length input) * 8)) by lia.
    rewrite (Z.mul_comm 8 (Z.of_nat (length input))). by rewrite <- !app_assoc.
  - rewrite !length_app, length_replicate, Hd. cbn [length]. lia.
Qed.

Lemma be64_byte x : Forall is_byte (be64 x).
Proof. apply Forall_fmap, Forall_true. intros i. unfold is_byte. cbn. apply Z.mod_pos_bound. lia. Qed.

Lemma make_tail_bytes input off :
  (off <= length input < off + 64)%nat -> (64 | Z.of_nat off) -> Z.of_nat (length input) <= u64_max / 8 ->
  Forall is_byte input -> Forall is_byte (make_tail input off).
Proof.
  intros H1 H2 H3 Hb. rewrite make_tail_exact by done. repeat (apply Forall_app; split).
  - by apply Forall_drop.
  - by repeat constructor.
  - apply Forall_replicate. by unfold is_byte.
  - apply be64_byte.
  - apply Forall_replicate. by unfold is_byte.
Qed.

Lemma store_be32_byte x : length (store_be32 x) = 4%nat /\ Forall is_byte (store_be32 x).
Proof. split; [done|]. unfold store_be32, u8, is_byte. repeat constructor; by apply Z.mod_pos_bound. Qed.

Lemma fips_block_length H block : length H = 8%nat -> length (fips_block H block) = 8%nat.
Proof. intros HH. unfold fips_block. by rewrite length_zip_with_l_eq. Qed.

Lemma fips_blocks_length H bs : length H = 8%nat -> length (foldl fips_block H bs) = 8%nat.
Proof. revert H. induction bs as [|b bs IH]; intros H HH; [done|]. cbn. by apply IH, fips_block_length. Qed.

Lemma foldl_insert_length (f : nat -> nat) (g : nat -> Z) is_ (l : list Z) :
  length (foldl (fun l i => <[f i := g i]> l) l is_) = length l.
Proof. revert l. induction is_ as [|i is_ IH]; intros l; [done|]. cbn. by rewrite IH, length_insert. Qed.

Lemma blocks_one l : length l = 64%nat -> blocks l = [l].
Proof. intros Hl. unfold blocks. rewrite Hl. change (64 / 64)%nat with 1%nat. cbn. rewrite drop_0, take_ge; [done|lia]. Qed.

(** The padded message is the whole blocks of the input and then the tail. *)
Lemma pad_tail input off :
  (off <= length input < off + 64)%nat -> (64 | Z.of_nat off) -> Z.of_nat (length input) <= u64_max / 8 ->
  length (make_tail input off) = 128%nat /\
  pad input = take off input ++ take (tail_size (length input - off)) (make_tail input off).
Proof.
  intros H1 H2 H3. pose proof (make_tail_exact input off H1 H2 H3) as Ht. cbv zeta in Ht.
  set (r := (length input - off)%nat) in *.
  assert (Hr : (tail_size r <= 128)%nat) by (unfold tail_size; destruct (r <? 56)%nat; lia).
  assert (Hlen : length (make_tail input off) = 128%nat).
  { unfold make_tail. rewrite foldl_insert_length, length_insert, length_app, length_drop, length_replicate. lia. }
  split; [done|]. set (z := replicate (128 - tail_size r) 0) in *.
  rewrite !app_assoc in Ht. set (m := (((drop off input ++ [128]) ++ replicate _ 0) ++ be64 _)) in *.
  assert (Hm : length m = tail_size r).
  { rewrite Ht, length_app in Hlen. subst z. rewrite length_replicate in Hlen. lia. }
  rewrite Ht, <- Hm, take_app_length. subst m. unfold pad.
  by rewrite <- !app_assoc, (app_assoc (take off input)), take_drop.
Qed.

(** The compression function folded over the blocks of the padded message. *)
Lemma fold_padded input off H :
  (off <= length input < off + 64)%nat -> (64 | Z.of_nat off) -> Z.of_nat (length input) <= u64_max / 8 ->
  let tail := make_tail input off in
  let state := fips_block (foldl fips_block H (blocks (take off input))) (take 64 tail) in
  foldl fips_block H (blocks (pad input)) =
  if (tail_size (length input - off) =? 128)%nat then fips_block state (take 64 (drop 64 tail)) else state.
Proof.
  intros H1 H2 H3. destruct (pad_tail input off H1 H2 H3) as [Hlen ->]. cbv zeta.
  rewrite blocks_app, foldl_app by (rewrite length_take, Nat.min_l by lia; done).
  set (tail := make_tail input off) in *. unfold tail_size. destruct (length input - off <? 56)%nat; cbn [Nat.eqb].
  - by rewrite (blocks_one (take 64 tail)) by (rewrite length_take; lia).
  - change (take 128 tail) with (take (64 + 64) tail).
    assert (L1 : length (take 64 tail) = 64%nat) by (rewrite length_take, Hlen; done).
    assert (L2 : length (take 64 (drop 64 tail)) = 64%nat) by (rewrite length_take, length_drop, Hlen; done).
    rewrite <- take_take_drop, (blocks_app (take 64 tail)) by (rewrite L1; by exists 1).
    rewrite (blocks_one _ L1), (blocks_one _ L2). done.
Qed.

(** C31: The digest of any bytes that [sha256] accepts is the SHA-256 digest of the standard: 32 bytes, the
    compression function folded over the padded message from the initial value; only inputs whose
    length in bits does not fit 64 bits are refused. *)
Theorem sha256_exact input :
  Forall is_byte input ->
  if Z.of_nat (length input) <=? u64_max / 8 then
    sha256 input = Ok (fips_sha256 input) /\ length (fips_sha256 input) = 32%nat /\ Forall is_byte (fips_sha256 input)
  else sha256 input = Err InvalidArgument.
Proof.
  intros Hb. unfold sha256, sha256_with. destruct (Z.leb_spec (Z.of_nat (length input)) (u64_max / 8)) as [Hle|Hgt].
  2: { unfold throw_if. by destruct (Z.gtb_spec (Z.of_nat (length input)) (u64_max / 8)); [|lia]. }
  set (n := (length input / 64)%nat).
  pose proof (Nat.div_mod_eq (length input) 64) as Hdm. pose proof (Nat.mod_upper_bound (length input) 64 ltac:(lia)) as Hmod.
  fold n in Hdm. set (off := (64 * n)%nat) in *. set (r := (length input - off)%nat).
  assert (Hdiv : (64 | Z.of_nat off)) by (exists (Z.of_nat n); lia).
  pose proof (make_tail_bytes input off ltac:(lia) Hdiv Hle Hb) as Htb.
  destruct (pad_tail input off ltac:(lia) Hdiv Hle) as [Htl _].
  pose proof (fold_padded input off kInitial ltac:(lia) Hdiv Hle) as Hfin. cbv zeta in Hfin.
  assert (Hguard : throw_if (Z.of_nat (length input) >? u64_max / 8) InvalidArgument = Ok tt)
    by (apply throw_if_Ok; destruct (Z.gtb_spec (Z.of_nat (length input)) (u64_max / 8)); [lia|done]).
  rewrite Hguard. cbn [rbind]. rewrite whole_blocks_exact by (done || lia). cbn [rbind].
  rewrite drop_0. fold n. change (0 + 64 * n)%nat with off. fold off.
  rewrite !process_block_exact, drop_0 by (done || lia). rewrite <- Hfin. split; [done|].
  unfold fips_sha256. pose proof (fips_blocks_length kInitial (blocks (pad input)) eq_refl) as H8.
  set (final := foldl fips_block kInitial _) in *. split.
  - rewrite length_concat, <- list_fmap_compose.
    rewrite (list_fmap_ext _ (fun _ => 4%nat)) by (intros; apply store_be32_byte).
    do 9 (destruct final as [|? final]; [done|]). done.
  - apply Forall_concat, Forall_fmap, Forall_true. intros x. apply store_be32_byte.
Qed.

(** The digests of "abc" and of the empty string, which the standard gives. *)
Lemma sha256_exact_witness :
  Forall is_byte (bytes_of "abc") /\ sha256 (bytes_of "abc") = Ok (fips_sha256 (bytes_of "abc")) /\
  sha256_hex (fips_sha256 (bytes_of "abc"))
    = bytes_of "ba7816bf8f01cfea414140de5dae2223b00361a396177a9cb410ff61f20015ad" /\
  sha256_hex (fips_sha256 []) = bytes_of "e3b0c44298fc1c149afbf4c8996fb92427ae41e4649b934ca495991b7852b855".
Proof.
  assert (Hb : Forall is_byte (bytes_of "abc")) by (unfold is_byte; repeat constructor; cbn; lia).
  pose proof (sha256_exact _ Hb) as H.
  assert (E : (Z.of_nat (length (bytes_of "abc")) <=? u64_max / 8) = true) by (vm_compute; reflexivity).
  rewrite E in H. destruct H as [H _]. split; [exact Hb|]. split; [exact H|]. split; vm_compute; reflexivity.
Defined.
