(* ===== verification/ChatTemplate.v ===== *)
(** * The chat template: [targets/qwen3_6/impl/frontend/chat_template.cpp]

    A conversation is rendered to the text the model continues.  The rendering also yields the rewrite
    checkpoint: the byte offset up to which the text stays as it is when the conversation goes on.
    Strings are lists of bytes; parsing JSON (with the members of an object in their own order) and
    printing a JSON string are the class [OrderedJsonText]. *)
From Stdlib Require Import Strings.String.
From stdpp Require Import list.
From S2P Require Import Prelude Unicode Admission Capacity Contract Output Tokenizer PrefixIdentity ToolCalls Digest.
#[local] Open Scope Z_scope.
#[local] Open Scope ninfer_scope.

(** ** Data *)

Inductive ChatRole : Set := System | Developer | User | Assistant | Tool.
#[export] Instance ChatRole_eq_dec : EqDecision ChatRole.
Proof. solve_decision. Defined.

Inductive ReasoningEffort : Set := Low | Medium | XHigh.

(** [ChatPart]: of a medium only what the template reads. *)
Inductive ChatPart : Set := PartText (text : list Z) | PartImage | PartVideo.

Record ChatMessage : Set := mkMessage {
  role : ChatRole;
  parts : list ChatPart;
  reasoning_content : list Z;
  message_tool_calls : list ToolCall;
  tool_call_id : list Z;
}.

Record ChatRenderOptions : Set := mkRenderOptions {
  add_generation_prompt : bool;
  enable_thinking : bool;
  reasoning_effort : option ReasoningEffort;
  preserve_thinking : option bool;
  add_vision_id : bool;
  tool_jsons : list (list Z);
}.

Record RewriteCheckpointByteSpec : Set := mkByteSpec { cp_kind : RewriteCheckpointKind; offset : nat }.
Record RenderedChat : Set := mkRendered { text : list Z; rewrite_checkpoint : option RewriteCheckpointByteSpec }.

Inductive ChatTemplateSemantics : Set := ThinkingToggle | ReasoningEffortTemplate.
#[export] Instance ChatTemplateSemantics_eq_dec : EqDecision ChatTemplateSemantics.
Proof. solve_decision. Defined.

(** A parsed JSON value.  Numbers, booleans and null are only ever printed: they are their text. *)
Inductive OrderedJson : Set :=
| OScalar (dump : list Z)
| OString (s : list Z)
| OArray (items : list OrderedJson)
| OObject (items : list (list Z * OrderedJson)).

(** [OrderedJson::parse] ([None]: it throws) and [OrderedJson(s).dump()] of a string. *)
Class OrderedJsonText : Type := {
  ordered_parse : list Z -> option OrderedJson;
  dump_string : list Z -> list Z;
}.

(** ** Text *)

Definition trim_ascii_whitespace (text : list Z) : list Z := trim_ascii text.

Definition starts_with (text prefix : list Z) : bool :=
  (length prefix <=? length text)%nat && bool_decide (take (length prefix) text = prefix).
Definition ends_with (text suffix : list Z) : bool :=
  (length suffix <=? length text)%nat && bool_decide (drop (length text - length suffix) text = suffix).

Definition newline : Z := 10.
Fixpoint lstrip_newlines (text : list Z) : list Z :=
  match text with
  | c :: text' => if c =? newline then lstrip_newlines text' else text
  | [] => []
  end.
Definition rstrip_newlines (text : list Z) : list Z := reverse (lstrip_newlines (reverse text)).

(** [text.rfind(p)] *)
Fixpoint rfind_sub (p s : list Z) : option nat :=
  match s with
  | [] => if is_prefix p [] then Some O else None
  | _ :: s' =>
      match rfind_sub p s' with
      | Some i => Some (S i)
      | None => if is_prefix p s then Some O else None
      end
  end.

(** [std::to_string] of a non-negative [int]; [fuel] digits at most. *)
Fixpoint digits (fuel : nat) (n : Z) (acc : list Z) : list Z :=
  match fuel with
  | O => acc
  | S fuel' => let acc := (48 + n mod 10) :: acc in if n / 10 =? 0 then acc else digits fuel' (n / 10) acc
  end.
Definition to_string (n : Z) : list Z := digits 10 n [].

(** ** Messages *)

Definition is_media (p : ChatPart) : bool := match p with PartText _ => false | _ => true end.
Definition has_media (m : ChatMessage) : bool := existsb is_media (parts m).

Definition kVisionStart : list Z := bytes_of "<|vision_start|>".
Definition kVisionEnd : list Z := bytes_of "<|vision_end|>".
Definition kImagePad : list Z := bytes_of "<|image_pad|>".
Definition kVideoPad : list Z := bytes_of "<|video_pad|>".

(** The parts of a message, with the numbers of images and videos so far. *)
Definition render_part (add_vision_id : bool) (acc : list Z * Z * Z) (p : ChatPart) : list Z * Z * Z :=
  let '(out, images, videos) := acc in
  match p with
  | PartText t => (out ++ t, images, videos)
  | PartImage =>
      let images := images + 1 in
      let out := out ++ (if add_vision_id then bytes_of "Picture " ++ to_string images ++ bytes_of ": " else []) in
      (out ++ kVisionStart ++ kImagePad ++ kVisionEnd, images, videos)
  | PartVideo =>
      let videos := videos + 1 in
      let out := out ++ (if add_vision_id then bytes_of "Video " ++ to_string videos ++ bytes_of ": " else []) in
      (out ++ kVisionStart ++ kVideoPad ++ kVisionEnd, images, videos)
  end.
Definition rendered_content (m : ChatMessage) (add_vision_id : bool) (images videos : Z) : list Z * Z * Z :=
  foldl (render_part add_vision_id) ([], images, videos) (parts m).

Definition is_instruction_role (r : ChatRole) : bool :=
  match r with System | Developer => true | _ => false end.

Definition validate_instruction_message (m : ChatMessage) : result unit :=
  do* throw_if (has_media m) InvalidArgument;
  throw_if (negb (bool_decide (reasoning_content m = [])) || negb (bool_decide (message_tool_calls m = [])) ||
            negb (bool_decide (tool_call_id m = []))) InvalidArgument.

Definition kToolResponseOpen : list Z := bytes_of "<tool_response>".
Definition kToolResponseClose : list Z := bytes_of "</tool_response>".

(** A message that asks something: of the user, and not only a tool's response. *)
Definition is_query (m : ChatMessage) : bool :=
  bool_decide (role m = User) &&
  (let content := trim_ascii_whitespace (rendered_content m false 0 0).1.1 in
   negb (starts_with content kToolResponseOpen && ends_with content kToolResponseClose)).

(** The loop of [last_real_user_query], over the messages before [n]. *)
Fixpoint last_query_before (messages : list ChatMessage) (n : nat) : result nat :=
  match n with
  | O => Err InvalidArgument
  | S i =>
      match messages !! i with
      | Some m => if is_query m then Ok i else last_query_before messages i
      | None => last_query_before messages i
      end
  end.
Definition last_real_user_query (messages : list ChatMessage) : result nat :=
  last_query_before messages (length messages).

(** ** Assistant turns *)

Record ThinkParts : Set := mkThinkParts { tp_reasoning : list Z; tp_content : list Z }.

Definition kThinkOpen : list Z := bytes_of "<think>".

Definition derive_think_parts (content : list Z) : ThinkParts :=
  match find_sub kThinkClose content with
  | None => mkThinkParts [] content
  | Some first_close =>
      let before := rstrip_newlines (take first_close content) in
      let reasoning :=
        match rfind_sub kThinkOpen before with
        | None => before
        | Some last_open => drop (last_open + length kThinkOpen) before
        end in
      let last_close := default 0%nat (rfind_sub kThinkClose content) in
      mkThinkParts (lstrip_newlines reasoning)
                   (lstrip_newlines (drop (last_close + length kThinkClose) content))
  end.

Section Render.
Context `{OrderedJsonText}.

(** [rendered += ", "] between the elements. *)
Fixpoint comma_separated (items : list (list Z)) : list Z :=
  match items with
  | [] => []
  | [x] => x
  | x :: items' => x ++ bytes_of ", " ++ comma_separated items'
  end.

Fixpoint tojson_text (value : OrderedJson) : list Z :=
  match value with
  | OArray items => bytes_of "[" ++ comma_separated (map tojson_text items) ++ bytes_of "]"
  | OObject items =>
      bytes_of "{" ++
      comma_separated (map (fun kv => dump_string (fst kv) ++ bytes_of ": " ++ tojson_text (snd kv)) items) ++
      bytes_of "}"
  | OString s => dump_string s
  | OScalar dump => dump
  end.

Definition parameter_text (value : OrderedJson) : list Z :=
  match value with OString s => s | _ => tojson_text value end.

Definition render_parameter (kv : list Z * OrderedJson) : list Z :=
  bytes_of "<parameter=" ++ kv.1 ++ bytes_of ">" ++ [newline] ++ parameter_text kv.2 ++
  [newline] ++ bytes_of "</parameter>" ++ [newline].

Definition render_tool_call (call : ToolCall) (allow_empty_arguments : bool) : result (list Z) :=
  if allow_empty_arguments && bool_decide (arguments_json call = []) then
    Ok (bytes_of "<tool_call>" ++ [newline] ++ bytes_of "<function=" ++ tc_name call ++ bytes_of ">" ++ [newline] ++
        bytes_of "</function>" ++ [newline] ++ bytes_of "</tool_call>")
  else
    match ordered_parse (arguments_json call) with
    | None => Err JsonException
    | Some (OObject args) =>
        Ok (bytes_of "<tool_call>" ++ [newline] ++ bytes_of "<function=" ++ tc_name call ++ bytes_of ">" ++ [newline] ++
            concat (render_parameter <$> args) ++
            bytes_of "</function>" ++ [newline] ++ bytes_of "</tool_call>")
    | Some _ => Err InvalidArgument
    end.

Definition kToolInstructions : list Z := bytes_of "

If you choose to call a function ONLY reply in the following format with NO suffix:

<tool_call>
<function=example_function_name>
<parameter=example_parameter_1>
value_1
</parameter>
<parameter=example_parameter_2>
This is the value for the second parameter
that can span
multiple lines
</parameter>
</function>
</tool_call>

<IMPORTANT>
Reminder:
- Function calls MUST follow the specified format: an inner <function=...></function> block must be nested within <tool_call></tool_call> XML tags
- Required parameters MUST be specified
- You may provide optional reasoning for your function call in natural language BEFORE the function call, but NOT after
- If there is no function call available, answer the question like normal with your current knowledge and do not tell the user about function calls
</IMPORTANT>".

Definition kImStart : list Z := bytes_of "<|im_start|>".
Definition kImEnd : list Z := bytes_of "<|im_end|>" ++ [newline].
Definition blank_line : list Z := [newline; newline].

(** [text], if there is any, and a blank line. *)
Definition paragraph (text : list Z) : list Z := if bool_decide (text = []) then [] else text ++ blank_line.

Definition render_tool (tool : list Z) : result (list Z) :=
  match ordered_parse tool with Some v => Ok (newline :: tojson_text v) | None => Err JsonException end.

Definition render_tools_system_block (tool_jsons : list (list Z)) (leading_instruction reasoning_instructions : list Z)
  : result (list Z) :=
  let* tools := rmapM render_tool tool_jsons in
  Ok (kImStart ++ bytes_of "system" ++ [newline] ++ paragraph reasoning_instructions ++
      bytes_of "# Tools" ++ blank_line ++ bytes_of "You have access to the following functions:" ++ blank_line ++
      bytes_of "<tools>" ++ concat tools ++ [newline] ++ bytes_of "</tools>" ++ kToolInstructions ++
      (if bool_decide (leading_instruction = []) then [] else blank_line ++ leading_instruction) ++ kImEnd).

Definition kLowReasoningInstructions : list Z := bytes_of
  "Reasoning effort is set to low. Keep your thinking brief and focused, moving directly to the conclusion without unnecessary elaboration.".
Definition kXHighReasoningInstructions : list Z := bytes_of
  "Reasoning effort is set to xhigh. Please think carefully through the task, validate key assumptions, consider plausible alternatives, and prioritize correctness, consistency, and clarity in the final answer.".

Definition resolve_reasoning_instructions (semantics : ChatTemplateSemantics) (options : ChatRenderOptions)
  : result (list Z) :=
  match semantics with
  | ThinkingToggle => match reasoning_effort options with Some _ => Err InvalidArgument | None => Ok [] end
  | ReasoningEffortTemplate =>
      if negb (enable_thinking options) then
        match reasoning_effort options with Some _ => Err InvalidArgument | None => Ok [] end
      else
        match default XHigh (reasoning_effort options) with
        | Low => Ok kLowReasoningInstructions
        | Medium => Ok []
        | XHigh => Ok kXHighReasoningInstructions
        end
  end.

(** ** Rendering *)

(** The variables of the loop over the messages. *)
Record RenderState : Set := mkRenderState {
  rendered : list Z; image_count : Z; video_count : Z; state_checkpoint : option RewriteCheckpointByteSpec;
}.
Definition append_text (t : list Z) (st : RenderState) : RenderState :=
  mkRenderState (rendered st ++ t) (image_count st) (video_count st) (state_checkpoint st).
Definition set_checkpoint (c : option RewriteCheckpointByteSpec) (st : RenderState) : RenderState :=
  mkRenderState (rendered st) (image_count st) (video_count st) c.

Definition turn_open (name : list Z) : list Z := kImStart ++ name ++ [newline].

(** The tool calls of an assistant turn, separated by newlines. *)
Fixpoint render_tool_calls (calls : list ToolCall) (allow_empty_arguments : bool) (separator : list Z)
  : result (list Z) :=
  match calls with
  | [] => Ok []
  | call :: calls' =>
      let* one := render_tool_call call allow_empty_arguments in
      let* rest := render_tool_calls calls' allow_empty_arguments [newline] in
      Ok (separator ++ one ++ rest)
  end.

Section Messages.
Context (semantics : ChatTemplateSemantics) (options : ChatRenderOptions).

Definition effort_template : bool := bool_decide (semantics = ReasoningEffortTemplate).
Definition preserves_thinking : bool := default effort_template (preserve_thinking options).

(** The leading instruction, if the first message is one, and the index of the first other message. *)
Definition leading (messages : list ChatMessage) : result (list Z * nat) :=
  match messages with
  | m :: _ =>
      if is_instruction_role (role m) then
        do* validate_instruction_message m;
        Ok (trim_ascii_whitespace (rendered_content m false 0 0).1.1, 1%nat)
      else Ok ([], 0%nat)
  | [] => Ok ([], 0%nat)
  end.

Definition render_prologue (reasoning_instructions leading_instruction : list Z) (message_begin : nat)
  : result (list Z) :=
  if negb (bool_decide (tool_jsons options = [])) then
    render_tools_system_block (tool_jsons options) leading_instruction reasoning_instructions
  else if (message_begin =? 1)%nat then
    if negb effort_template || negb (bool_decide (leading_instruction = [])) ||
       negb (bool_decide (reasoning_instructions = [])) then
      Ok (turn_open (bytes_of "system") ++
          (if bool_decide (reasoning_instructions = []) then []
           else reasoning_instructions ++ (if bool_decide (leading_instruction = []) then [] else blank_line)) ++
          leading_instruction ++ kImEnd)
    else Ok []
  else if bool_decide (reasoning_instructions = []) then Ok []
  else Ok (turn_open (bytes_of "system") ++ reasoning_instructions ++ kImEnd).

(** A tool's response, in the user turn that a group of them shares. *)
Definition render_tool_response (opens_group closes_group : bool) (content : list Z) : list Z :=
  (if opens_group then kImStart ++ bytes_of "user" else []) ++
  [newline] ++ kToolResponseOpen ++ [newline] ++ content ++ [newline] ++ kToolResponseClose ++
  (if closes_group then kImEnd else []).

(** What an assistant thought and what it said. *)
Definition split_turn (m : ChatMessage) (content : list Z) : list Z * list Z :=
  let '(reasoning, body) :=
    if negb (bool_decide (reasoning_content m = [])) then (reasoning_content m, content)
    else if negb effort_template then
      let parts := derive_think_parts content in (tp_reasoning parts, tp_content parts)
    else ([], content) in
  (trim_ascii_whitespace reasoning, body).

Definition thinking_block (reasoning : list Z) : list Z :=
  kThinkOpen ++ [newline] ++ reasoning ++ [newline] ++ kThinkClose ++ blank_line.

(** [rewrite_checkpoint] is set to the end of the text, if it is not set already. *)
Definition mark_turn_closure (condition : bool) (st : RenderState) : RenderState :=
  if negb preserves_thinking && bool_decide (state_checkpoint st = None) && condition
  then set_checkpoint (Some (mkByteSpec TurnClosure (length (rendered st)))) st else st.

Definition render_assistant (last_query i : nat) (m : ChatMessage) (content : list Z) (st : RenderState)
  : result RenderState :=
  let '(reasoning, body) := split_turn m content in
  let keep_thinking := preserves_thinking || (last_query <? i)%nat in
  let st := append_text (turn_open (bytes_of "assistant")) st in
  let st := mark_turn_closure (last_query <? i)%nat st in
  let st := append_text ((if keep_thinking then thinking_block reasoning else []) ++ body) st in
  let body_has_text := negb (bool_decide (trim_ascii_whitespace body = [])) in
  let* calls := render_tool_calls (message_tool_calls m) effort_template (if body_has_text then blank_line else []) in
  Ok (append_text (calls ++ kImEnd) st).

(** One turn of the loop: the message at [i], after one of role [prev] and before one of role [next]. *)
Definition render_message (last_query i : nat) (prev next : option ChatRole) (m : ChatMessage) (st : RenderState)
  : result RenderState :=
  do* (if is_instruction_role (role m) then validate_instruction_message m else Ok tt);
  let '(out, images, videos) := rendered_content m (add_vision_id options) (image_count st) (video_count st) in
  let st := mkRenderState (rendered st) images videos (state_checkpoint st) in
  let content := trim_ascii_whitespace out in
  match role m with
  | System | Developer => Ok (append_text (turn_open (bytes_of "system") ++ content ++ kImEnd) st)
  | User => Ok (append_text (turn_open (bytes_of "user") ++ content ++ kImEnd) st)
  | Tool =>
      let opens_group := match prev with Some r => negb (bool_decide (r = Tool)) | None => false end in
      let closes_group := match next with Some r => negb (bool_decide (r = Tool)) | None => true end in
      Ok (append_text (render_tool_response opens_group closes_group content) st)
  | Assistant => render_assistant last_query i m content st
  end.

Fixpoint render_messages (last_query i : nat) (prev : option ChatRole) (messages : list ChatMessage) (st : RenderState)
  : result RenderState :=
  match messages with
  | [] => Ok st
  | m :: messages' =>
      let* st := render_message last_query i prev (role <$> head messages') m st in
      render_messages last_query (S i) (Some (role m)) messages' st
  end.

Definition generation_prologue : list Z :=
  if enable_thinking options then kThinkOpen ++ [newline] else thinking_block [].

Definition render_generation_prompt (st : RenderState) : RenderState :=
  if negb (add_generation_prompt options) then st else
  let st := append_text (turn_open (bytes_of "assistant")) st in
  let st := mark_turn_closure true st in
  let st := append_text generation_prologue st in
  if preserves_thinking then set_checkpoint (Some (mkByteSpec ResponseReplay (length (rendered st)))) st else st.

Definition render (messages : list ChatMessage) : result RenderedChat :=
  do* throw_if (bool_decide (messages = [])) InvalidArgument;
  let* reasoning_instructions := resolve_reasoning_instructions semantics options in
  let* lead := leading messages in
  let '(leading_instruction, message_begin) := lead in
  let* prologue := render_prologue reasoning_instructions leading_instruction message_begin in
  let* last_query := last_real_user_query messages in
  let* st := render_messages last_query message_begin
               (if (message_begin =? 0)%nat then None else role <$> head messages)
               (drop message_begin messages) (mkRenderState prologue 0 0 None) in
  let st := render_generation_prompt st in
  Ok (mkRendered (rendered st) (state_checkpoint st)).
End Messages.
End Render.

(** ** The template's identity *)

Definition kThinkingToggleTemplateDigest : list Z := [
  0xe8; 0x4f; 0x32; 0xa2; 0x3f; 0xdd; 0xa2; 0x76; 0x89; 0xf8; 0x68; 0xaa; 0x4a; 0x1a; 0x56; 0x21;
  0xf4; 0x11; 0x33; 0xe5; 0x1a; 0x48; 0xd7; 0xf3; 0xef; 0xcb; 0xea; 0x28; 0x39; 0x57; 0x42; 0x59].
Definition kReasoningEffortTemplateDigest : list Z := [
  0xc3; 0xcf; 0x9e; 0x34; 0xab; 0xf4; 0xf9; 0xe3; 0x6c; 0x2d; 0x72; 0x16; 0x5a; 0xa9; 0xc1; 0x32;
  0xd3; 0xe2; 0xa7; 0x25; 0xb6; 0xc2; 0x58; 0x6a; 0xaa; 0x3a; 0x8a; 0xf9; 0xd7; 0xa8; 0x10; 0x41].

(** [CompiledChatTemplate::resolve]: the templates that are known, by the digest of their source. *)
Definition resolve (source : list Z) : result ChatTemplateSemantics :=
  let* digest := sha256 source in
  if bool_decide (digest = kThinkingToggleTemplateDigest) then Ok ThinkingToggle
  else if bool_decide (digest = kReasoningEffortTemplateDigest) then Ok ReasoningEffortTemplate
  else Err InvalidArgument.

Record PromptCapabilities : Set := mkCapabilities {
  can_enable_thinking : bool; effort_low : bool; effort_medium : bool; effort_xhigh : bool;
  default_effort : option ReasoningEffort;
}.
Definition capabilities (semantics : ChatTemplateSemantics) : PromptCapabilities :=
  match semantics with
  | ThinkingToggle => mkCapabilities true false false false None
  | ReasoningEffortTemplate => mkCapabilities true true true true (Some XHigh)
  end.
