(* ===== verification/ChatTemplateProofs.v ===== *)
(** * What the chat template guarantees

    The rewrite checkpoint of a rendered conversation marks a prefix of the text that the conversation
    keeps when it goes on with an assistant's turn: thoughts of earlier turns may disappear, but only
    after it. *)
From Stdlib Require Import Strings.String.
From stdpp Require Import list.
From S2P Require Import Prelude Unicode Admission Capacity Contract Output Tokenizer PrefixIdentity ToolCalls Digest ChatTemplate.
#[local] Open Scope Z_scope.

Lemma prefix_take {A} (p l : list A) : p `prefix_of` l -> take (length p) l = p.
Proof. intros [k ->]. apply take_app_length. Qed.

Section Checkpoint.
Context `{OrderedJsonText} (semantics : ChatTemplateSemantics) (options : ChatRenderOptions).

#[local] Abbreviation preserves := (preserves_thinking semantics options).
#[local] Abbreviation step := (render_message semantics options).
#[local] Abbreviation run := (render_messages semantics options).

(** ** Rendering only appends *)

(** [st'] has more text than [st], and its checkpoint if it had one. *)
Definition extends (st st' : RenderState) : Prop :=
  rendered st `prefix_of` rendered st' /\
  (is_Some (state_checkpoint st) -> state_checkpoint st' = state_checkpoint st).

#[local] Instance extends_po : PreOrder extends.
Proof.
  split; [by split|]. intros a b c [H1 H2] [H3 H4]. split; [by etrans|].
  intros Ha. rewrite <- (H2 Ha). apply H4. by rewrite (H2 Ha).
Qed.

Lemma extends_append t st : extends st (append_text t st).
Proof. split; [by apply prefix_app_r|done]. Qed.

Lemma extends_mark b st : extends st (mark_turn_closure semantics options b st).
Proof.
  unfold mark_turn_closure. destruct (_ && b) eqn:E; [|done]. bprop. split; [done|].
  intros [c Hc]. cbn in *. congruence.
Qed.

Lemma assistant_extends q i m content st st' :
  render_assistant semantics options q i m content st = Ok st' ->
  extends (mark_turn_closure semantics options (q <? i)%nat (append_text (turn_open (bytes_of "assistant")) st)) st'.
Proof.
  unfold render_assistant. destruct (split_turn _ _ _) as [reasoning body]. intros Hr. rinv. subst.
  etrans; [|apply extends_append]. etrans; [apply extends_append|]. done.
Qed.

Lemma step_extends q i prev next m st st' : step q i prev next m st = Ok st' -> extends st st'.
Proof.
  unfold render_message. intros Hr. rinv.
  destruct (rendered_content _ _ _ _) as [[out images] videos].
  assert (H0 : extends st (mkRenderState (rendered st) images videos (state_checkpoint st))) by (by split).
  etrans; [exact H0|]. destruct (role m); rinv; subst; try apply extends_append.
  apply assistant_extends in Hr. etrans; [|exact Hr]. etrans; [apply extends_append|apply extends_mark].
Qed.

Lemma run_extends q i prev ms st st' : run q i prev ms st = Ok st' -> extends st st'.
Proof.
  revert i prev st. induction ms as [|m ms IH]; intros i prev st Hr; cbn in Hr; rinv; [by subst|].
  etrans; [by eapply step_extends|by eapply IH].
Qed.

(** ** Two renderings of the same messages *)

(** The states agree, or the first has a checkpoint up to which the second agrees with it. *)
Definition agree (st st' : RenderState) : Prop :=
  (st = st' /\ state_checkpoint st = None) \/
  (exists P, state_checkpoint st = Some (mkByteSpec TurnClosure (length P)) /\
     P `prefix_of` rendered st /\ P `prefix_of` rendered st').

Lemma agree_extends st1 st2 st1' st2' P :
  state_checkpoint st1 = Some (mkByteSpec TurnClosure (length P)) ->
  P `prefix_of` rendered st1 -> P `prefix_of` rendered st2 ->
  extends st1 st1' -> extends st2 st2' -> agree st1' st2'.
Proof.
  intros Hc H1 H2 [E1 E1'] [E2 _]. right. exists P. split; [|split; [by trans (rendered st1)|by trans (rendered st2)]].
  rewrite E1'; [done|]. by rewrite Hc.
Qed.

(** The message that follows closes a group of tool responses, or not. *)
Definition closes (next : option ChatRole) : bool :=
  match next with Some r => negb (bool_decide (r = Tool)) | None => true end.

Lemma step_agree q q' i prev next next' m st st' u u' :
  preserves = false -> (q <= q')%nat -> closes next = closes next' -> agree st st' ->
  step q i prev next m st = Ok u -> step q' i prev next' m st' = Ok u' -> agree u u'.
Proof.
  intros Hp Hq Hn [[-> Hc]|(P & Hc & H1 & H2)] Hu Hu'.
  2: { eapply agree_extends; [done..| |]; by eapply step_extends. }
  unfold render_message in Hu, Hu'. fold (closes next) in Hu. fold (closes next') in Hu'. rewrite <- Hn in Hu'. rinv.
  destruct (rendered_content _ _ _ _) as [[out images] videos].
  destruct (role m); rinv; subst; try (left; split; [done|exact Hc]).
  set (base := mkRenderState (rendered st') images videos (state_checkpoint st')) in *.
  destruct (Nat.ltb_spec q i) as [Hi|Hi].
  - apply assistant_extends in Hu, Hu'. apply Nat.ltb_lt in Hi as Hb. rewrite Hb in Hu.
    set (opened := append_text (turn_open (bytes_of "assistant")) base) in *.
    right. exists (rendered opened). destruct Hu as [Hu1 Hu2], Hu' as [Hu1' _].
    unfold mark_turn_closure in Hu1, Hu2. rewrite Hp, bool_decide_eq_true_2 in Hu1, Hu2 by done. cbn in Hu1, Hu2.
    split; [by apply Hu2|]. split; [done|]. etrans; [|exact Hu1']. apply extends_mark.
  - assert (Hb : (q <? i)%nat = false /\ (q' <? i)%nat = false) by (split; apply Nat.ltb_ge; lia).
    unfold render_assistant in Hu, Hu'. destruct Hb as [Hb Hb']. rewrite Hb in Hu. rewrite Hb' in Hu'.
    rewrite Hu in Hu'. injection Hu' as ->. left. split; [done|].
    destruct (split_turn _ _ _). rinv. subst. cbn. unfold mark_turn_closure. rewrite andb_false_r. done.
Qed.

(** The role before the message that follows [ms]. *)
Definition last_role (prev : option ChatRole) (ms : list ChatMessage) : option ChatRole :=
  match last ms with Some m => Some (role m) | None => prev end.

Lemma last_role_cons prev x ms : last_role prev (x :: ms) = last_role (Some (role x)) ms.
Proof. unfold last_role. rewrite last_cons. by destruct (last ms). Qed.

Lemma run_agree q q' ms m more :
  preserves = false -> (q <= q')%nat -> role m <> Tool ->
  forall i prev st st' u u', agree st st' ->
  run q i prev ms st = Ok u -> run q' i prev (ms ++ m :: more) st' = Ok u' ->
  exists v, agree u v /\ run q' (i + length ms) (last_role prev ms) (m :: more) v = Ok u'.
Proof.
  intros Hp Hq Hm. induction ms as [|x ms IH]; intros i prev st st' u u' Ha Hu Hu'.
  - injection Hu as <-. exists st'. by rewrite Nat.add_0_r.
  - cbn [render_messages app] in Hu, Hu'. rinv. rewrite last_role_cons.
    destruct (IH (S i) (Some (role x)) v0 v u u') as (w & Hw & Hr); [|done|done|].
    + eapply (step_agree q q'); [done..| |exact Ha|exact Hv0|exact Hv].
      destruct ms; [|done]. cbn. by rewrite bool_decide_eq_false_2.
    + exists w. split; [done|]. cbn [length]. by replace (i + S (length ms))%nat with (S i + length ms)%nat by lia.
Qed.

(** When thoughts are kept the position of the last query does not matter. *)
Lemma step_same q q' i prev next next' m st :
  preserves = true -> closes next = closes next' -> step q i prev next m st = step q' i prev next' m st.
Proof.
  intros Hp Hn. unfold render_message. fold (closes next). fold (closes next'). rewrite Hn.
  unfold render_assistant, mark_turn_closure. by rewrite Hp.
Qed.

Lemma run_same q q' ms m more :
  preserves = true -> role m <> Tool ->
  forall i prev st u, run q i prev ms st = Ok u ->
  run q' i prev (ms ++ m :: more) st = run q' (i + length ms) (last_role prev ms) (m :: more) u.
Proof.
  intros Hp Hm. induction ms as [|x ms IH]; intros i prev st u Hu.
  - injection Hu as <-. by rewrite Nat.add_0_r.
  - cbn [render_messages app] in Hu |- *. rinv. rewrite last_role_cons.
    rewrite (step_same q' q _ _ _ (role <$> head ms)), Hv; [|done|].
    + cbn [rbind]. rewrite (IH _ _ _ _ Hu). cbn [length]. by replace (S i + length ms)%nat with (i + S (length ms))%nat by lia.
    + destruct ms; [|done]. cbn. by rewrite bool_decide_eq_false_2.
Qed.

(** ** The last query *)

Lemma last_query_before_bound ms n q : last_query_before ms n = Ok q -> (q < n)%nat.
Proof.
  induction n as [|n IH]; cbn; [done|]. destruct (ms !! n) as [m|]; [destruct (is_query m)|];
    [intros [= <-]; lia|intros Hq%IH; lia..].
Qed.

Lemma last_query_before_app ms more n : (n <= length ms)%nat -> last_query_before (ms ++ more) n = last_query_before ms n.
Proof.
  induction n as [|n IH]; intros Hn; cbn; [done|]. rewrite lookup_app_l by lia. rewrite IH by lia. done.
Qed.

Lemma last_query_before_mono ms n k q q' :
  last_query_before ms n = Ok q -> last_query_before ms (n + k) = Ok q' -> (q <= q')%nat.
Proof.
  revert q'. induction k as [|k IH]; intros q' Hq.
  - rewrite Nat.add_0_r, Hq. by intros [= ->].
  - rewrite Nat.add_succ_r. cbn. apply last_query_before_bound in Hq as Hb.
    destruct (ms !! (n + k)%nat) as [m|]; [destruct (is_query m)|]; [intros [= <-]; lia|intros; by eapply IH..].
Qed.

Lemma last_query_app ms more q q' :
  last_real_user_query ms = Ok q -> last_real_user_query (ms ++ more) = Ok q' -> (q <= q')%nat.
Proof.
  unfold last_real_user_query. rewrite length_app. intros Hq.
  rewrite <- (last_query_before_app ms more) in Hq by lia. by eapply last_query_before_mono.
Qed.

(** ** The checkpoint *)

(** An assistant's turn without thoughts, whatever numbers its media get. *)
Definition thinks_nothing (m : ChatMessage) : Prop :=
  forall images videos,
    (split_turn semantics m (trim_ascii_whitespace (rendered_content m (add_vision_id options) images videos).1.1)).1 = [].

Lemma rendered_mark b st : rendered (mark_turn_closure semantics options b st) = rendered st.
Proof. unfold mark_turn_closure. by destruct (_ && b). Qed.

(** What an assistant's turn begins with, at least. *)
Lemma run_assistant q i prev m more st u :
  role m = Assistant -> run q i prev (m :: more) st = Ok u ->
  exists reasoning body, (thinks_nothing m -> reasoning = []) /\
    (rendered st ++ turn_open (bytes_of "assistant") ++
      (if preserves || (q <? i)%nat then thinking_block reasoning else []) ++ body) `prefix_of` rendered u.
Proof.
  intros Hm. cbn [render_messages]. intros Hr. rinv. apply run_extends in Hr as [Hr _].
  unfold render_message in Hv. rewrite Hm in Hv. cbn [is_instruction_role rbind] in Hv.
  destruct (rendered_content _ _ _ _) as [[out images] videos] eqn:Hc. unfold render_assistant in Hv.
  destruct (split_turn _ _ _) as [reasoning body] eqn:Hsplit. rinv. exists reasoning, body. split.
  - intros Hn. specialize (Hn (image_count st) (video_count st)). rewrite Hc in Hn. cbn [fst] in Hn. by rewrite Hsplit in Hn.
  - subst v. etrans; [|exact Hr]. cbn [append_text rendered]. rewrite rendered_mark. cbn [append_text rendered].
    rewrite <- !app_assoc. do 3 apply prefix_app. by apply prefix_app_r.
Qed.

(** What a rendering went through. *)
Definition first_role (messages : list ChatMessage) (message_begin : nat) : option ChatRole :=
  if (message_begin =? 0)%nat then None else role <$> head messages.

Lemma render_inv messages r :
  render semantics options messages = Ok r ->
  exists instructions lead message_begin prologue q st,
    messages <> [] /\ resolve_reasoning_instructions semantics options = Ok instructions /\
    leading messages = Ok (lead, message_begin) /\
    render_prologue semantics options instructions lead message_begin = Ok prologue /\
    last_real_user_query messages = Ok q /\
    run q message_begin (first_role messages message_begin) (drop message_begin messages)
      (mkRenderState prologue 0 0 None) = Ok st /\
    r = mkRendered (rendered (render_generation_prompt semantics options st))
                   (state_checkpoint (render_generation_prompt semantics options st)).
Proof.
  unfold render. intros Hr. rinv. destruct v1 as [lead mb]. rinv.
  exists v0, lead, mb, v1, v2, v3. split_and!; try done.
Qed.

Lemma leading_app messages more : messages <> [] -> leading (messages ++ more) = leading messages.
Proof. by destruct messages. Qed.

Lemma leading_begin messages lead mb : messages <> [] -> leading messages = Ok (lead, mb) -> (mb <= length messages)%nat.
Proof.
  destruct messages as [|m messages]; [done|]. intros _. cbn. destruct (is_instruction_role (role m)); intros Hl; rinv.
  - lia.
  - lia.
Qed.

Lemma first_role_app messages more mb : messages <> [] -> first_role (messages ++ more) mb = first_role messages mb.
Proof. by destruct messages. Qed.

Lemma prologue_prefix reasoning :
  (enable_thinking options = false -> reasoning = []) ->
  generation_prologue options `prefix_of` thinking_block reasoning.
Proof.
  unfold generation_prologue. intros Hr. destruct (enable_thinking options).
  - unfold thinking_block. rewrite app_assoc. by apply prefix_app_r.
  - by rewrite Hr.
Qed.

Lemma run_self q ms i prev st u :
  preserves = false -> agree st st -> run q i prev ms st = Ok u -> agree u u.
Proof.
  intros Hp. revert i prev st. induction ms as [|m ms IH]; intros i prev st Ha Hu; cbn in Hu; rinv; [by subst|].
  eapply IH; [|exact Hu]. by eapply (step_agree q q).
Qed.

(** C29: A conversation rendered for generation has a rewrite checkpoint, and the text up to it is a prefix
    of every later rendering in which an assistant's turn and anything else follow: of the turn's opening
    when earlier thoughts are dropped later, and of the whole text when they are preserved (the turn
    having no thoughts if the prompt left no room for them). *)
Theorem rewrite_checkpoint_stable messages r :
  render semantics options messages = Ok r -> add_generation_prompt options = true ->
  exists c, rewrite_checkpoint r = Some c /\ (offset c <= length (text r))%nat /\
    cp_kind c = (if preserves then ResponseReplay else TurnClosure) /\
    forall m more r', role m = Assistant ->
      (preserves = true -> enable_thinking options = false -> thinks_nothing m) ->
      render semantics options (messages ++ m :: more) = Ok r' ->
      take (offset c) (text r) `prefix_of` text r'.
Proof.
  intros Hr Hgen.
  destruct (render_inv _ _ Hr) as (instr & lead & mb & pro & q & st & Hne & Hi & Hl & Hp & Hq & Hrun & ->).
  pose proof (leading_begin _ _ _ Hne Hl) as Hmb.
  assert (Hlater : forall m more r', render semantics options (messages ++ m :: more) = Ok r' ->
    exists q' u, (q <= q')%nat /\
      run q' mb (first_role messages mb) (drop mb messages ++ m :: more) (mkRenderState pro 0 0 None) = Ok u /\
      rendered u `prefix_of` text r').
  { intros m more r' Hr'.
    destruct (render_inv _ _ Hr') as (instr' & lead' & mb' & pro' & q' & u & _ & Hi' & Hl' & Hp' & Hq' & Hrun' & ->).
    rewrite leading_app, Hl in Hl' by done. injection Hl' as <- <-. rewrite Hi in Hi'. injection Hi' as <-.
    rewrite Hp in Hp'. injection Hp' as <-. rewrite first_role_app, drop_app_le in Hrun' by done.
    exists q', u. split; [by eapply last_query_app|]. split; [done|]. cbn [text].
    unfold render_generation_prompt. rewrite Hgen. cbn [negb].
    destruct preserves; cbn [rendered set_checkpoint append_text]; rewrite rendered_mark; cbn [rendered append_text];
      rewrite <- app_assoc; by apply prefix_app_r. }
  unfold render_generation_prompt. rewrite Hgen. cbn [negb]. destruct preserves eqn:Hpres.
  - eexists. split; [done|]. cbn [offset text rendered append_text set_checkpoint cp_kind]. split; [lia|]. split; [done|].
    intros m more r' Hm Hnothing Hr'. destruct (Hlater m more r' Hr') as (q' & u & _ & Hrun' & Hu).
    rewrite (run_same q q' _ _ _ Hpres) with (u := st) in Hrun' by (done || by rewrite Hm).
    destruct (run_assistant _ _ _ _ _ _ _ Hm Hrun') as (reasoning & body & Hre & Hpre). rewrite Hpres in Hpre. cbn [orb] in Hpre.
    rewrite take_ge, rendered_mark by lia. cbn [rendered append_text]. etrans; [|exact Hu]. etrans; [|exact Hpre].
    rewrite <- app_assoc. do 2 apply prefix_app.
    etrans; [apply prologue_prefix; auto|by apply prefix_app_r].
  - assert (Hinit : agree (mkRenderState pro 0 0 None) (mkRenderState pro 0 0 None)) by (by left).
    assert (Hself : agree st st) by (by eapply run_self).
    set (opened := append_text (turn_open (bytes_of "assistant")) st).
    assert (Hc : exists P, state_checkpoint (mark_turn_closure semantics options true opened) = Some (mkByteSpec TurnClosure (length P)) /\
      P `prefix_of` rendered opened /\
      (state_checkpoint st = None -> P = rendered opened)).
    { unfold mark_turn_closure. rewrite Hpres. destruct Hself as [[_ Hn]|(P & HP & HP' & _)].
      - cbn. rewrite Hn. eexists. split; [done|]. by split.
      - cbn. rewrite HP. exists P. split; [done|]. split; [|done]. etrans; [exact HP'|]. by apply prefix_app_r. }
    destruct Hc as (P & HcP & HP & Hnone).
    set (full := rendered (append_text _ (mark_turn_closure _ _ _ opened))).
    assert (Hfull : rendered opened `prefix_of` full) by (unfold full; cbn; rewrite rendered_mark; by apply prefix_app_r).
    assert (HPfull : P `prefix_of` full) by (by etrans).
    exists (mkByteSpec TurnClosure (length P)). split; [exact HcP|]. cbn [offset cp_kind text].
    split; [by apply prefix_length|]. split; [done|].
    intros m more r' Hm _ Hr'. destruct (Hlater m more r' Hr') as (q' & u & Hqq & Hrun' & Hu).
    rewrite (prefix_take _ _ HPfull). etrans; [|exact Hu].
    destruct (run_agree q q' _ m more Hpres Hqq ltac:(by rewrite Hm) _ _ _ _ _ _ Hinit Hrun Hrun')
      as (v & Hv & Hrest).
    destruct (run_assistant _ _ _ _ _ _ _ Hm Hrest) as (reasoning & body & _ & Hpre).
    destruct Hv as [[<- Hn]|(P2 & HP2 & H2 & H2')].
    + rewrite (Hnone Hn). etrans; [|exact Hpre]. rewrite app_assoc. by apply prefix_app_r.
    + assert (P = P2) as ->.
      { unfold mark_turn_closure in HcP. cbn in HcP. rewrite HP2, andb_false_r in HcP. cbn in HcP.
        rewrite HP2 in HcP. injection HcP as Hlen.
        trans (take (length P) full); [by rewrite prefix_take|]. rewrite <- Hlen. apply prefix_take. etrans; [exact H2|].
        etrans; [|exact Hfull]. by apply prefix_app_r. }
      etrans; [exact H2'|]. etrans; [|exact Hpre]. by apply prefix_app_r.
Qed.
End Checkpoint.

(** A conversation whose last turn so far is a tool's response, and what an assistant and the user then
    say: the earlier thought disappears from the later rendering, after the checkpoint. *)
#[local] Instance sample_json : OrderedJsonText :=
  {| ordered_parse := fun _ => Some (OObject []); dump_string := fun s => s |}.
Definition sample_options : ChatRenderOptions := mkRenderOptions true true None None false [].
Definition said (r : ChatRole) (t : string) (thought : list Z) : ChatMessage :=
  mkMessage r [PartText (bytes_of t)] thought [] [].
Definition sample_messages : list ChatMessage :=
  [said User "2+2?" []; said Assistant "let me see" (bytes_of "hard"); said Tool "4" []].
Definition sample_later : list ChatMessage := [said Assistant "4." (bytes_of "easy"); said User "thanks" []].

Lemma rewrite_checkpoint_stable_witness :
  exists r c r', render ThinkingToggle sample_options sample_messages = Ok r /\
    rewrite_checkpoint r = Some c /\
    render ThinkingToggle sample_options (sample_messages ++ sample_later) = Ok r' /\
    take (offset c) (text r) `prefix_of` text r' /\ ~ text r `prefix_of` text r'.
Proof.
  destruct (render ThinkingToggle sample_options sample_messages) as [r|] eqn:Hr; [|by vm_compute in Hr].
  destruct (render ThinkingToggle sample_options (sample_messages ++ sample_later)) as [r'|] eqn:Hr'; [|by vm_compute in Hr'].
  destruct (rewrite_checkpoint_stable ThinkingToggle sample_options _ _ Hr eq_refl) as (c & Hc & _ & _ & Hstable).
  exists r, c, r'. split_and!; [done..| |].
  - apply (Hstable (said Assistant "4." (bytes_of "easy")) [said User "thanks" []] r' eq_refl); [done|exact Hr'].
  - assert (Hb : bool_decide (take (length (text r)) (text r') = text r) = false).
    { clear Hstable Hc. vm_compute in Hr. injection Hr as <-. vm_compute in Hr'. injection Hr' as <-. vm_compute. reflexivity. }
    apply bool_decide_eq_false_1 in Hb. intros Hpre. by apply Hb, prefix_take.
Defined.
