(* ===== verification/ToolRoundTrip.v ===== *)
(** * Rendered tool calls are read back

    The chat template renders the tool calls of an assistant's turn in the format the model is told to
    use; the server's parser reads that format from what the model generates.  Here the two are put
    together: what is rendered for a turn, the parser takes apart again. *)
From Stdlib Require Import Strings.String.
From stdpp Require Import list.
From S2P Require Import Prelude Unicode Admission Capacity Contract Output OutputProofs Tokenizer PrefixIdentity ToolCalls ToolCallsProofs Digest ChatTemplate.
#[local] Open Scope Z_scope.

(** ** Markers in text made of lines *)

(** [p] occurs nowhere in [s]. *)
Definition absent (p s : list Z) : Prop := forall i, ~ occurs p s i.

Lemma occurs_lookup p s i k c : occurs p s i -> p !! k = Some c -> s !! (i + k)%nat = Some c.
Proof.
  unfold occurs. intros Ho Hk. rewrite <- Ho in Hk. apply lookup_take_Some in Hk as [Hk _]. by rewrite lookup_drop in Hk.
Qed.

Lemma absent_line p x y : p <> [] -> newline ∉ p -> absent p x -> absent p y -> absent p (x ++ [newline] ++ y).
Proof.
  intros Hp Hn Hx Hy i Ho. destruct (decide (i + length p <= length x)%nat) as [Hin|Hout].
  - by apply (Hx i), (occurs_app_inv p x (newline :: y)).
  - destruct (decide (length x < i)%nat) as [Hafter|Hbefore].
    + apply (Hy (i - S (length x))%nat). rewrite app_assoc in Ho.
      apply (occurs_app_r (x ++ [newline])). rewrite length_app. cbn [length].
      by replace (length x + 1 + (i - S (length x)))%nat with i by lia.
    + destruct (lookup_lt_is_Some_2 p (length x - i)) as [c Hc]; [lia|].
      pose proof (occurs_lookup _ _ _ _ _ Ho Hc) as Hl. replace (i + (length x - i))%nat with (length x) in Hl by lia.
      rewrite lookup_app_r, Nat.sub_diag in Hl by done. injection Hl as <-. apply Hn. by eapply list_elem_of_lookup_2.
Qed.

(** After text without it, and a newline, a marker is found where it stands. *)
Lemma find_after_line p x y : p <> [] -> newline ∉ p -> absent p x -> find_sub p (x ++ [newline] ++ p ++ y) = Some (length x + 1)%nat.
Proof.
  intros Hp Hn Hx. apply find_sub_Some. split_and!.
  - unfold occurs. rewrite drop_app_add. cbn. by rewrite drop_0, take_app_length.
  - rewrite !length_app. cbn. lia.
  - intros j Hj Ho. assert (Hj' : occurs p (x ++ newline :: p) j).
    { replace (x ++ [newline] ++ p ++ y) with ((x ++ newline :: p) ++ y) in Ho by (by rewrite <- !app_assoc).
      eapply occurs_app_inv; [|exact Ho]. rewrite length_app. cbn. lia. }
    destruct (decide (j + length p <= length x)%nat) as [Hin|Hout]; [by apply (Hx j), (occurs_app_inv p x (newline :: p))|].
    destruct (lookup_lt_is_Some_2 p (length x - j)) as [c Hc]; [lia|].
    pose proof (occurs_lookup _ _ _ _ _ Hj' Hc) as Hl. replace (j + (length x - j))%nat with (length x) in Hl by lia.
    rewrite lookup_app_r, Nat.sub_diag in Hl by done. injection Hl as <-. apply Hn. by eapply list_elem_of_lookup_2.
Qed.

(** A closing marker does not occur in [<word=name>]. *)
Lemma absent_open p word name :
  take 2 p = [60; 47] -> 60 ∉ word -> 47 ∉ take 1 word -> word <> [] -> 60 ∉ name ->
  absent p (60 :: word ++ name ++ [62]).
Proof.
  intros Hp Hw Hw1 Hne Hname i Ho. destruct p as [|c0 [|c1 p]]; [done..|]. injection Hp as -> ->.
  pose proof (occurs_lookup _ _ _ 0 _ Ho eq_refl) as H0. rewrite Nat.add_0_r in H0.
  destruct i as [|i].
  - pose proof (occurs_lookup _ _ _ 1 _ Ho eq_refl) as H1. destruct word as [|w word]; [done|].
    injection H1 as ->. apply Hw1. cbn. by apply list_elem_of_singleton.
  - cbn in H0. apply list_elem_of_lookup_2 in H0. rewrite !elem_of_app in H0.
    destruct H0 as [H0|[H0|H0]]; [done|done|]. by apply list_elem_of_singleton in H0.
Qed.

(** ** Positions in the rest of a text *)

Section Positions.
Context (whole a t : list Z) (pos : nat) (Hwhole : whole = a ++ t) (Hpos : pos = length a).

Lemma find_from_at p : find_from p whole pos = (fun i => (pos + i)%nat) <$> find_sub p t.
Proof using Hwhole Hpos. unfold find_from. rewrite Hwhole, Hpos, drop_app_length. by destruct (find_sub p t). Qed.

Lemma skip_ws_at : skip_ws whole pos = (pos + (length t - length (strip_leading t)))%nat.
Proof using Hwhole Hpos.
  unfold skip_ws. rewrite Hwhole, Hpos, drop_app_length, length_app.
  destruct (strip_leading_drop t) as [k Hk]. rewrite Hk, length_drop. lia.
Qed.

Lemma starts_with_at_at p : starts_with_at whole pos p = bool_decide (take (length p) t = p).
Proof using Hwhole Hpos.
  unfold starts_with_at. rewrite Hwhole, Hpos, drop_app_length, length_app.
  by destruct (Nat.leb_spec (length a) (length a + length t)); [|lia].
Qed.

Lemma slice_at n : slice whole pos (pos + n) = take n t.
Proof using Hwhole Hpos. unfold slice. rewrite Hwhole, Hpos, drop_app_length. f_equal. lia. Qed.
End Positions.

Lemma find_sub_char c x y : c ∉ x -> find_sub [c] (x ++ [c] ++ y) = Some (length x).
Proof.
  intros Hc. apply find_sub_Some. split_and!.
  - unfold occurs. by rewrite drop_app_length.
  - rewrite length_app. lia.
  - intros j Hj Ho. pose proof (occurs_lookup _ _ _ 0 _ Ho eq_refl) as Hl. rewrite Nat.add_0_r, lookup_app_l in Hl by done.
    apply Hc. by eapply list_elem_of_lookup_2.
Qed.

(** A name up to its [>]. *)
Lemma name_end_at whole a name t pos :
  whole = a ++ name ++ [62] ++ t -> pos = length a -> name <> [] -> 62 ∉ name ->
  name_end whole pos = Some (pos + length name)%nat.
Proof.
  intros Hw Hp Hne Hn. unfold name_end. rewrite (find_from_at _ _ _ _ Hw Hp).
  change kGreater with [62]. rewrite find_sub_char by done. cbn.
  destruct (Nat.eqb_spec (pos + length name) pos); [|done]. destruct name; [done|]. cbn in *. lia.
Qed.

Lemma trim_lines x : trim_ascii ([newline] ++ x ++ [newline]) = trim_ascii x.
Proof.
  unfold trim_ascii. cbn [app strip_leading]. change (isspace newline) with true. cbn iota.
  rewrite strip_leading_app. case_bool_decide as Hx.
  - rewrite Hx. done.
  - unfold rtrim_ascii. by rewrite reverse_snoc.
Qed.

Section RoundTrip.
Context `{JsonText, OrderedJsonText}.

(** ** Parameters *)

(** Text that does not end the parameter, the function or the tool call it is in. *)
Definition closers : list (list Z) := [kParamClose; kFunctionClose; kToolClose].
Definition plain (s : list Z) : Prop := Forall (fun p => absent p s) closers.

Lemma closers_shape p : p ∈ closers -> p <> [] /\ newline ∉ p /\ take 2 p = [60; 47].
Proof.
  intros Hp. unfold closers in Hp. rewrite !elem_of_cons in Hp.
  destruct Hp as [->|[->|[->|Hp]]]; [..|by apply elem_of_nil in Hp]; (split; [done|split; [|done]]); by_compute.
Qed.

Lemma plain_absent p s : plain s -> p ∈ closers -> absent p s.
Proof. unfold plain. rewrite Forall_forall. auto. Qed.

Lemma plain_lines x y : plain x -> plain y -> plain (x ++ [newline] ++ y).
Proof.
  unfold plain. rewrite !Forall_forall. intros Hx Hy p Hp. destruct (closers_shape p Hp) as (H1 & H2 & _).
  apply absent_line; auto.
Qed.

Lemma plain_newline x : plain x -> plain ([newline] ++ x).
Proof.
  intros Hx. apply (plain_lines [] x); [|done]. unfold plain. rewrite Forall_forall. intros p Hp i Ho.
  destruct (closers_shape p Hp) as (H1 & _). apply occurs_length in Ho. destruct p; [done|]. cbn in Ho. lia.
Qed.

Definition plain_parameter (kv : list Z * OrderedJson) : Prop :=
  kv.1 <> [] /\ 60 ∉ kv.1 /\ 62 ∉ kv.1 /\ plain (parameter_text kv.2).

(** [render_parameter] without its last newline. *)
Definition parameter_lines (kv : list Z * OrderedJson) : list Z :=
  kParamOpen ++ kv.1 ++ [62] ++ [newline] ++ parameter_text kv.2 ++ [newline] ++ kParamClose.

(** What stands between [<function=...>] and [</function>]. *)
Definition params_text (args : list (list Z * OrderedJson)) : list Z := [newline] ++ concat (render_parameter <$> args).

Lemma params_text_cons kv args : params_text (kv :: args) = [newline] ++ parameter_lines kv ++ params_text args.
Proof. unfold params_text, parameter_lines. cbn [fmap list_fmap concat]. unfold render_parameter. by rewrite <- !app_assoc. Qed.

(** The member that the parser reads. *)
Definition read_parameter (acc : list (list Z * json_value)) (kv : list Z * OrderedJson) : list (list Z * json_value) :=
  object_set kv.1 (parameter_value (trim_ascii (parameter_text kv.2))) acc.

Lemma parse_parameter_at whole a kv t pos acc :
  plain_parameter kv -> whole = a ++ parameter_lines kv ++ t -> pos = length a ->
  parse_parameter whole pos acc = Some ((pos + length (parameter_lines kv))%nat, read_parameter acc kv).
Proof.
  intros (Hne & _ & Hk & Hplain) Hw Hp. destruct kv as [k v]. cbn [fst snd] in *. unfold parameter_lines in Hw. cbn [fst snd] in Hw.
  set (ptext := parameter_text v) in *. unfold parse_parameter.
  rewrite (starts_with_at_at _ _ _ _ Hw Hp), <- app_assoc, take_app_length, bool_decide_eq_true_2 by done. cbn [negb].
  rewrite (name_end_at whole (a ++ kParamOpen) k ([newline] ++ ptext ++ [newline] ++ kParamClose ++ t));
    [|by rewrite Hw, <- !app_assoc|rewrite length_app; lia|done|done].
  assert (Hw3 : whole = (a ++ kParamOpen ++ k ++ [62]) ++ ([newline] ++ ptext) ++ [newline] ++ kParamClose ++ t)
    by (by rewrite Hw, <- !app_assoc).
  set (p3 := S (pos + length kParamOpen + length k)).
  assert (Hp3 : p3 = length (a ++ kParamOpen ++ k ++ [62])) by (rewrite !length_app; cbn [length]; lia).
  rewrite (find_from_at _ _ _ _ Hw3 Hp3), find_after_line by
    (first [done | by apply (closers_shape kParamClose); left | by apply (plain_absent kParamClose); [apply plain_newline|left]]).
  cbn [fmap option_fmap option_map].
  assert (Hw2 : whole = (a ++ kParamOpen) ++ k ++ [62] ++ [newline] ++ ptext ++ [newline] ++ kParamClose ++ t)
    by (by rewrite Hw, <- !app_assoc).
  rewrite (slice_at _ _ _ _ Hw3 Hp3), take_app_add.
  rewrite (slice_at _ _ _ (pos + length kParamOpen) Hw2), take_app_length by (rewrite length_app; lia).
  change (take 1 ([newline] ++ kParamClose ++ t)) with [newline]. rewrite <- (app_assoc [newline]), trim_lines. unfold read_parameter, parameter_lines. cbn [fst snd]. fold ptext. do 2 f_equal.
  subst p3. rewrite !length_app. cbn [length]. lia.
Qed.

Lemma parse_parameters_at fuel args : forall whole a pos acc,
  Forall plain_parameter args -> whole = a ++ params_text args -> pos = length a -> (length args <= fuel)%nat ->
  parse_parameters fuel whole pos acc = Parsed (foldl read_parameter acc args).
Proof.
  revert args. induction fuel as [|fuel IH]; intros [|kv args] whole a pos acc Hargs Hw Hp Hf; cbn [length] in Hf; try lia.
  1,2: cbn [parse_parameters]; rewrite (skip_ws_at _ _ _ _ Hw Hp);
    (destruct (Nat.leb_spec (length whole) (pos + (length (params_text []) - length (strip_leading (params_text [])))));
      [done|exfalso; rewrite Hw, length_app in *; cbn in *; lia]).
  rewrite params_text_cons in Hw. cbn [parse_parameters]. rewrite (skip_ws_at _ _ _ _ Hw Hp).
  change (strip_leading ([newline] ++ parameter_lines kv ++ params_text args)) with (parameter_lines kv ++ params_text args).
  replace (pos + _)%nat with (pos + 1)%nat by (rewrite !length_app; cbn [length]; lia).
  apply Forall_cons in Hargs as [Hkv Hargs].
  assert (Hlen : (0 < length (parameter_lines kv))%nat) by (unfold parameter_lines; rewrite length_app; cbn; lia).
  destruct (Nat.leb_spec (length whole) (pos + 1)) as [Hle|_]; [rewrite Hw, !length_app in Hle; cbn [length] in Hle; lia|].
  rewrite (parse_parameter_at whole (a ++ [newline]) kv (params_text args) (pos + 1) acc);
    [|done|by rewrite Hw, <- !app_assoc|rewrite length_app; cbn; lia].
  apply (IH args whole (a ++ [newline] ++ parameter_lines kv)); [done| | |lia].
  - by rewrite Hw, <- !app_assoc.
  - rewrite !length_app. cbn [length]. lia.
Qed.

(** ** One call *)

(** A call that is rendered without an exception, and its parameters. *)
Definition call_args (allow_empty : bool) (call : ToolCall) (args : list (list Z * OrderedJson)) : Prop :=
  (allow_empty = true /\ arguments_json call = [] /\ args = []) \/
  (~ (allow_empty = true /\ arguments_json call = []) /\ ordered_parse (arguments_json call) = Some (OObject args)).

Definition plain_call (max_name_length : nat) (call : ToolCall) (args : list (list Z * OrderedJson)) : Prop :=
  valid_function_name (tc_name call) max_name_length = true /\ Forall plain_parameter args.

(** What stands between [<tool_call>] and [</tool_call>]. *)
Definition block_text (name : list Z) (args : list (list Z * OrderedJson)) : list Z :=
  [newline] ++ kFunctionOpen ++ name ++ [62] ++ params_text args ++ kFunctionClose ++ [newline].

Lemma render_tool_call_text allow_empty call args :
  call_args allow_empty call args ->
  render_tool_call call allow_empty = Ok (kToolOpen ++ block_text (tc_name call) args ++ kToolClose).
Proof.
  unfold render_tool_call, block_text, params_text. intros [(-> & He & ->)|[Hn Hp]].
  - rewrite He, bool_decide_eq_true_2 by done. cbn [andb fmap list_fmap concat]. rewrite <- !app_assoc. done.
  - assert (Hc : allow_empty && bool_decide (arguments_json call = []) = false).
    { destruct allow_empty; [|done]. cbn. apply bool_decide_eq_false_2. tauto. }
    rewrite Hc, Hp. by rewrite <- !app_assoc.
Qed.

(** ** Nothing closes too early *)

Definition outer : list (list Z) := [kFunctionClose; kToolClose].

Lemma outer_closers p : p ∈ outer -> p ∈ closers.
Proof. unfold outer, closers. rewrite !elem_of_cons. tauto. Qed.

Lemma absent_closed p s : p <> [] -> find_sub p s = None -> absent p s.
Proof. intros Hp Hf. unfold absent. by apply find_sub_None. Qed.

Lemma lines_absent p kv : p ∈ outer -> plain_parameter kv -> absent p (parameter_lines kv).
Proof.
  intros Hp (Hne & Hlt & Hgt & Hplain). destruct (closers_shape p (outer_closers p Hp)) as (H1 & H2 & H3).
  unfold parameter_lines. rewrite !(app_assoc _ [62]), !(app_assoc kParamOpen).
  apply absent_line; [done..| |].
  - change (absent p (60 :: bytes_of "parameter=" ++ (kv.1 ++ [62]))).
    apply absent_open; [done|by_compute|by_compute|done|done].
  - apply absent_line; [done..|by apply (plain_absent p); [|apply outer_closers]|].
    apply absent_closed; [done|]. unfold outer in Hp. rewrite !elem_of_cons in Hp.
    destruct Hp as [->|[->|Hp]]; [done|done|by apply elem_of_nil in Hp].
Qed.

(** The parameters without the first newline, before more text. *)
Lemma params_absent p args y : p ∈ outer -> Forall plain_parameter args -> absent p y ->
  absent p (concat (render_parameter <$> args) ++ y).
Proof.
  intros Hp Hargs Hy. destruct (closers_shape p (outer_closers p Hp)) as (H1 & H2 & _).
  induction Hargs as [|kv args Hkv Hargs IH]; [done|].
  assert (Hc : concat (render_parameter <$> (kv :: args)) ++ y = parameter_lines kv ++ [newline] ++ concat (render_parameter <$> args) ++ y).
  { pose proof (params_text_cons kv args) as Hpt. unfold params_text in Hpt. apply (inj (app [newline])) in Hpt.
    rewrite Hpt, <- !app_assoc. done. }
  rewrite Hc. apply absent_line; [done..|by apply lines_absent|done].
Qed.

Lemma params_text_ends args : exists x, params_text args = x ++ [newline].
Proof.
  induction args as [|kv args [x Hx]]; [by exists []|]. exists ([newline] ++ parameter_lines kv ++ x).
  by rewrite params_text_cons, Hx, <- !app_assoc.
Qed.

Lemma find_function_close args y :
  Forall plain_parameter args ->
  find_sub kFunctionClose (params_text args ++ kFunctionClose ++ y) = Some (length (params_text args)).
Proof.
  intros Hargs. assert (Hp : kFunctionClose ∈ outer) by left.
  destruct (closers_shape _ (outer_closers _ Hp)) as (H1 & H2 & _).
  assert (Ha : absent kFunctionClose (params_text args)).
  { unfold params_text. apply (absent_line _ []); [done..| |].
    - by apply absent_closed.
    - rewrite <- (app_nil_r (concat _)). apply params_absent; [done..|]. by apply absent_closed. }
  destruct (params_text_ends args) as [x Hx]. rewrite Hx in *. rewrite <- app_assoc, find_after_line; [|done..|].
  - by rewrite length_app.
  - intros i Ho. by apply (Ha i), occurs_app_l.
Qed.

Lemma valid_name_chars name n c : valid_function_name name n = true -> c ∈ name -> isalnum c || (c =? 95) || (c =? 45) = true.
Proof.
  unfold valid_function_name. intros Hv Hc. apply andb_true_iff in Hv as [_ Hv]. rewrite forallb_forall in Hv.
  apply Hv. by apply list_elem_of_In.
Qed.

Lemma valid_name_plain name n : valid_function_name name n = true -> name <> [] /\ 60 ∉ name /\ 62 ∉ name.
Proof.
  intros Hv. split_and!.
  - intros ->. done.
  - intros Hc. by apply (valid_name_chars _ _ _ Hv) in Hc.
  - intros Hc. by apply (valid_name_chars _ _ _ Hv) in Hc.
Qed.

Lemma params_length args : (length args <= length (params_text args))%nat.
Proof.
  induction args as [|kv args IH]; [cbn; lia|]. rewrite params_text_cons, !length_app. cbn [length]. lia.
Qed.

(** The call that the parser reads. *)
Definition read_call (call : ToolCall) (args : list (list Z * OrderedJson)) (random : Z) : ToolCall :=
  mkToolCall (new_tool_call_id random) (tc_name call) (json_dump_object (foldl read_parameter [] args)).

Lemma parse_one_at call args n random :
  plain_call n call args ->
  parse_one_tool_call (block_text (tc_name call) args) n random = Parsed (read_call call args random).
Proof.
  intros [Hname Hargs]. destruct (valid_name_plain _ _ Hname) as (Hne & _ & Hgt).
  set (name := tc_name call) in *. set (block := block_text name args). unfold parse_one_tool_call.
  assert (Hskip : skip_ws block 0 = 1%nat).
  { rewrite (skip_ws_at block [] block 0 eq_refl eq_refl). unfold block, block_text.
    change (strip_leading ([newline] ++ kFunctionOpen ++ ?x)) with (kFunctionOpen ++ x).
    rewrite length_app. cbn [length]. lia. }
  assert (W1 : block = [newline] ++ kFunctionOpen ++ name ++ [62] ++ params_text args ++ kFunctionClose ++ [newline]) by done.
  rewrite Hskip, (starts_with_at_at _ _ _ _ W1), take_app_length, bool_decide_eq_true_2 by done. cbn [negb].
  set (p2 := (1 + length kFunctionOpen)%nat). set (a2 := [newline] ++ kFunctionOpen).
  assert (W2 : block = a2 ++ name ++ [62] ++ params_text args ++ kFunctionClose ++ [newline]) by done.
  rewrite (name_end_at _ _ _ _ p2 W2 eq_refl Hne Hgt), (slice_at _ _ _ _ W2 eq_refl), take_app_length.
  fold name in Hname. rewrite Hname. cbn [negb].
  set (p3 := S (p2 + length name)). set (a3 := a2 ++ name ++ [62]).
  assert (W3 : block = a3 ++ params_text args ++ kFunctionClose ++ [newline]) by (unfold a3; by rewrite W2, <- !app_assoc).
  assert (P3 : p3 = length a3) by (unfold a3, p3; rewrite !length_app; cbn [length]; unfold p2, a2; rewrite length_app; cbn [length]; lia).
  rewrite (find_from_at _ _ _ _ W3 P3), find_function_close by done. cbn [fmap option_fmap option_map].
  rewrite (slice_at _ _ _ _ W3 P3), take_app_length.
  rewrite (parse_parameters_at _ args _ []); [|done..|apply params_length].
  assert (W4 : block = (a3 ++ params_text args ++ kFunctionClose) ++ [newline]) by (by rewrite W3, <- !app_assoc).
  rewrite (skip_ws_at _ _ _ _ W4) by (rewrite !length_app, P3; lia). cbn [length strip_leading].
  assert (Hend : (p3 + length (params_text args) + length kFunctionClose + (1 - length (strip_leading [newline])) =? length block)%nat = true).
  { apply Nat.eqb_eq. rewrite W4, !length_app, P3. cbn [length]. change (length (strip_leading [newline])) with 0%nat. lia. }
  change (if isspace newline then [] else [newline]) with (strip_leading [newline]). rewrite Hend. done.
Qed.

(** ** All calls *)

Lemma find_tool_close name n args y :
  valid_function_name name n = true -> Forall plain_parameter args ->
  find_sub kToolClose (block_text name args ++ kToolClose ++ y) = Some (length (block_text name args)).
Proof.
  intros Hname Hargs. destruct (valid_name_plain _ _ Hname) as (_ & Hlt & _).
  assert (Hp : kToolClose ∈ outer) by (right; left).
  destruct (closers_shape _ (outer_closers _ Hp)) as (H1 & H2 & H3).
  set (x := [newline] ++ (kFunctionOpen ++ name ++ [62]) ++ [newline] ++ concat (render_parameter <$> args) ++ kFunctionClose).
  assert (Hx : block_text name args = x ++ [newline]) by (unfold x, block_text, params_text; by rewrite <- !app_assoc).
  rewrite Hx, <- app_assoc, find_after_line, length_app; [done|done..|]. unfold x.
  apply (absent_line _ []); [done..|by apply absent_closed|]. apply absent_line; [done..| |].
  - change (absent kToolClose (60 :: bytes_of "function=" ++ name ++ [62])).
    apply absent_open; [done|by_compute|by_compute|done|done].
  - apply params_absent; [done..|]. by apply absent_closed.
Qed.

Definition call_with_args : Type := ToolCall * list (list Z * OrderedJson).

Fixpoint calls_text (separator : list Z) (calls : list call_with_args) : list Z :=
  match calls with
  | [] => []
  | (call, args) :: calls' =>
      separator ++ kToolOpen ++ block_text (tc_name call) args ++ kToolClose ++ calls_text [newline] calls'
  end.

Lemma render_tool_calls_text allow_empty calls : forall separator,
  Forall (fun c => call_args allow_empty c.1 c.2) calls ->
  render_tool_calls calls.*1 allow_empty separator = Ok (calls_text separator calls).
Proof.
  induction calls as [|[call args] calls IH]; intros separator Hc; [done|].
  apply Forall_cons in Hc as [Hc1 Hc]. cbn [fmap list_fmap fst render_tool_calls].
  rewrite (render_tool_call_text _ _ args) by done. cbn [rbind]. rewrite IH by done. cbn [rbind calls_text].
  by rewrite <- !app_assoc.
Qed.

(** The calls that the parser reads, [random n] being the number drawn for the [n]-th. *)
Fixpoint read_calls (random : nat -> Z) (n : nat) (calls : list call_with_args) : list ToolCall :=
  match calls with
  | [] => []
  | (call, args) :: calls' => read_call call args (random n) :: read_calls random (S n) calls'
  end.

Lemma parse_calls_at n random fuel calls : forall whole a pos separator done_,
  Forall (fun c => plain_call n c.1 c.2) calls -> whole = a ++ calls_text separator calls -> pos = length a ->
  separator = [] \/ separator = [newline] -> (length calls <= fuel)%nat ->
  parse_calls fuel whole n random pos done_ = Parsed (done_ ++ read_calls random (length done_) calls).
Proof.
  revert calls. induction fuel as [|fuel IH]; intros [|[call args] calls] whole a pos separator done_ Hc Hw Hp Hs Hf;
    cbn [length] in Hf; try lia.
  1,2: cbn [parse_calls]; rewrite (skip_ws_at _ _ _ _ Hw Hp); cbn [calls_text read_calls];
    rewrite app_nil_r; change (length [] - length (strip_leading []))%nat with 0%nat;
    rewrite Hw, Hp, app_nil_r, Nat.add_0_r, Nat.leb_refl; done.
  apply Forall_cons in Hc as [Hc1 Hc]. cbn [fst snd] in Hc1.
  set (tail := calls_text [newline] calls). set (block := block_text (tc_name call) args).
  assert (Hw1 : whole = (a ++ separator) ++ kToolOpen ++ block ++ kToolClose ++ tail) by (by rewrite Hw, <- !app_assoc).
  assert (Hskip : skip_ws whole pos = length (a ++ separator)).
  { rewrite (skip_ws_at _ _ _ _ Hw Hp). cbn [calls_text]. fold tail block.
    assert (Hstrip : strip_leading (separator ++ kToolOpen ++ block ++ kToolClose ++ tail) = kToolOpen ++ block ++ kToolClose ++ tail)
      by (by destruct Hs as [->| ->]).
    rewrite Hstrip, Hp, !length_app. lia. }
  cbn [parse_calls]. rewrite Hskip.
  assert (Hopen : (0 < length kToolOpen)%nat) by (cbn; lia).
  destruct (Nat.leb_spec (length whole) (length (a ++ separator))) as [Hle|_];
    [exfalso; rewrite Hw1, (length_app (a ++ separator)), (length_app kToolOpen) in Hle; lia|].
  rewrite (starts_with_at_at _ _ _ _ Hw1 eq_refl), take_app_length, bool_decide_eq_true_2 by done. cbn [negb].
  set (a2 := (a ++ separator) ++ kToolOpen).
  assert (Hw2 : whole = a2 ++ block ++ kToolClose ++ tail) by (unfold a2; by rewrite Hw1, <- !app_assoc).
  assert (Hp2 : (length (a ++ separator) + length kToolOpen)%nat = length a2) by (unfold a2; by rewrite (length_app (a ++ separator))).
  rewrite (find_from_at _ _ _ _ Hw2 Hp2). destruct Hc1 as [Hname Hargs].
  unfold block at 1. rewrite (find_tool_close _ n) by done. cbn [fmap option_fmap option_map]. fold block.
  rewrite (slice_at _ _ _ _ Hw2 Hp2), take_app_length. unfold block at 1. rewrite parse_one_at by done. fold block.
  rewrite (IH calls whole (a2 ++ block ++ kToolClose) _ [newline]); [|done| | |by right|lia].
  - cbn [read_calls]. rewrite <- app_assoc, length_app. cbn [length app].
    by replace (length done_ + 1)%nat with (S (length done_)) by lia.
  - by rewrite Hw2, <- !app_assoc.
  - rewrite Hp2, !length_app. lia.
Qed.

(** ** The turn *)

Lemma strip_leading_blank x : strip_leading x = [] -> Forall (fun c => isspace c = true) x.
Proof.
  induction x as [|c x IH]; [done|]. cbn. destruct (isspace c) eqn:E; [|done]. intros Hx. constructor; [done|by apply IH].
Qed.

Lemma rtrim_blank x : rtrim_ascii x = [] -> Forall (fun c => isspace c = true) x.
Proof.
  unfold rtrim_ascii. intros Hx. apply (f_equal reverse) in Hx. rewrite reverse_involutive in Hx.
  apply strip_leading_blank in Hx. by rewrite Forall_reverse in Hx.
Qed.

Lemma trim_blank x : trim_ascii x = [] -> Forall (fun c => isspace c = true) x.
Proof.
  unfold trim_ascii. intros Hx%rtrim_blank. destruct (strip_leading x) as [|c y] eqn:E; [by apply strip_leading_blank|].
  exfalso. apply Forall_cons in Hx as [Hc _]. revert E Hc. induction x as [|b x IH]; [done|]. cbn.
  destruct (isspace b) eqn:Eb; [exact IH|]. intros [= <- _]. congruence.
Qed.

Lemma rtrim_snoc_newline x : rtrim_ascii (x ++ [newline]) = rtrim_ascii x.
Proof. unfold rtrim_ascii. by rewrite reverse_snoc. Qed.

(** What separates the calls from the turn's text. *)
Definition turn_separator (body : list Z) : list Z :=
  if negb (bool_decide (trim_ascii_whitespace body = [])) then blank_line else [].

Lemma separator_spaces body : rtrim_ascii (body ++ turn_separator body) = rtrim_ascii body.
Proof.
  unfold turn_separator. case_bool_decide; cbn [negb]; [by rewrite app_nil_r|].
  change blank_line with ([newline] ++ [newline]). by rewrite app_assoc, !rtrim_snoc_newline.
Qed.

Lemma find_tool_open body y :
  absent kToolOpen body ->
  find_sub kToolOpen (body ++ turn_separator body ++ kToolOpen ++ y) = Some (length (body ++ turn_separator body)).
Proof.
  intros Hbody. assert (Hn : newline ∉ kToolOpen) by by_compute. unfold turn_separator. case_bool_decide as Hb; cbn [negb].
  - cbn [app]. rewrite app_nil_r. apply trim_blank in Hb. apply find_sub_Some. split_and!.
    + unfold occurs. by rewrite drop_app_length, take_app_length.
    + rewrite length_app. lia.
    + intros j Hj Ho. pose proof (occurs_lookup _ _ _ 0 60 Ho eq_refl) as Hl. rewrite Nat.add_0_r, lookup_app_l in Hl by done.
      by apply (Forall_lookup_1 _ _ _ _ Hb) in Hl.
  - change blank_line with ([newline] ++ [newline]).
    rewrite <- app_assoc, (app_assoc body), find_after_line; [|done|done|].
    + rewrite !length_app. cbn [length]. f_equal. lia.
    + apply (absent_line _ body []); [done..|]. by apply absent_closed.
Qed.

Lemma calls_text_length calls : forall separator, (length calls <= length (calls_text separator calls))%nat.
Proof.
  induction calls as [|[call args] calls IH]; intros separator; [cbn; lia|]. cbn [calls_text length].
  rewrite !length_app. specialize (IH [newline]). assert (0 < length kToolOpen)%nat by (cbn; lia). lia.
Qed.

End RoundTrip.

(** A turn with a text and two calls, the second without arguments. *)
#[local] Instance sample_text : JsonText :=
  {| json_value := list Z; json_parse := fun _ => None; json_string := fun s => s;
     json_dump_object := fun items => concat (fst <$> items) ++ concat (snd <$> items) |}.
#[local] Instance sample_ordered : OrderedJsonText :=
  {| ordered_parse := fun t => Some (OObject [(bytes_of "path", OString t); (bytes_of "mode", OScalar (bytes_of "7"))]);
     dump_string := fun s => s |}.
Definition sample_calls : list (ToolCall * list (list Z * OrderedJson)) :=
  [(mkToolCall [] (bytes_of "read_file") (bytes_of " a/b.c "),
      [(bytes_of "path", OString (bytes_of " a/b.c ")); (bytes_of "mode", OScalar (bytes_of "7"))]);
   (mkToolCall [] (bytes_of "stop") [], [])].

