(* ===== verification/ResponseStore.v ===== *)
(** * The response store: [src/serve/response_store]

    Responses are kept under their ids so that a later request can continue one.  What a response was
    made from is a chain of immutable context nodes that responses share.  The store is bounded in
    records and in bytes and evicts the least recently used.  A context node carries its address, which
    identifies it; sizes that depend on the platform and on nlohmann's [dump] are the class [Sizes]. *)
From stdpp Require Import gmap sorting.
From S2P Require Import Prelude Unicode Admission Capacity Contract Output Tokenizer PrefixIdentity ToolCalls Digest ChatTemplate.
#[local] Open Scope Z_scope.
#[local] Open Scope ninfer_scope.

(** ** Turns and contexts *)

Inductive ContentKind : Set := CkText | CkImage | CkVideo | CkInputAudio | CkUnsupported.

Inductive SourceKind : Set := SourcePath | SourceUrl | SourceData | SourceBytes.

(** [ContentPart], with the fields of its [source]. *)
Record ContentPart : Set := mkContentPart {
  cp_part_kind : ContentKind; cp_text : list Z; type_raw : list Z;
  source_kind : SourceKind; source_value : list Z; source_media_type : list Z; source_bytes : list Z;
}.

Record ChatTurn : Set := mkTurn {
  turn_role : ChatRole; turn_content : list ContentPart; turn_tool_calls : list ToolCall;
  turn_tool_call_id : list Z; turn_reasoning : list Z;
}.

(** [ResponseContext]: a pointer to a [ResponseContextNode], or null. *)
Inductive ResponseContext : Set :=
| NoContext
| ContextNode (address : Z) (parent : ResponseContext) (turns : list ChatTurn) (owned_bytes : Z).

Class Sizes : Type := {
  sizeof_ChatTurn : Z; sizeof_ContentPart : Z; sizeof_ToolCall : Z;
  sizeof_ResponseContextNode : Z; sizeof_StoredResponse : Z; sizeof_json : Z;
  response_dump : Json -> list Z;
}.

Definition size (s : list Z) : Z := Z.of_nat (length s).
Definition is_object (value : Json) : bool := match value with JObject _ => true | _ => false end.

Section Store.
Context `{Sizes}.

Definition part_bytes (p : ContentPart) : Z :=
  sizeof_ContentPart + size (cp_text p) + size (type_raw p) + size (source_value p) +
  size (source_media_type p) + size (source_bytes p).
Definition call_bytes (c : ToolCall) : Z :=
  sizeof_ToolCall + size (tc_id c) + size (tc_name c) + size (arguments_json c).
Definition estimate_turn_bytes (t : ChatTurn) : Z :=
  foldl (fun b c => b + call_bytes c)
    (foldl (fun b p => b + part_bytes p)
       (sizeof_ChatTurn + size (turn_tool_call_id t) + size (turn_reasoning t)) (turn_content t))
    (turn_tool_calls t).

(** [address] is that of the new node. *)
Definition append_response_context (address : Z) (parent : ResponseContext) (turns : list ChatTurn) : ResponseContext :=
  ContextNode address parent turns
    (foldl (fun b t => b + estimate_turn_bytes t) sizeof_ResponseContextNode turns).

(** The turns of each node, from the last one. *)
Fixpoint context_turns (c : ResponseContext) : list (list ChatTurn) :=
  match c with NoContext => [] | ContextNode _ parent turns _ => turns :: context_turns parent end.
Definition flatten_response_context (c : ResponseContext) : list ChatTurn := concat (reverse (context_turns c)).

(** The nodes of a chain: their addresses and bytes. *)
Fixpoint context_nodes (c : ResponseContext) : list (Z * Z) :=
  match c with NoContext => [] | ContextNode a parent _ owned => (a, owned) :: context_nodes parent end.

Record StoredResponse : Type := mkResponse {
  sr_id : list Z; response : Json; input_items : list Json;
  context : ResponseContext; sr_preserve_thinking : bool;
}.

Definition record_envelope_bytes (r : StoredResponse) : Z :=
  foldl (fun b item => b + (sizeof_json + size (response_dump item)))
    (sizeof_StoredResponse + size (sr_id r) + size (response_dump (response r))) (input_items r).

Definition standalone_bytes (r : StoredResponse) : Z :=
  foldl (fun b n => b + snd n) (record_envelope_bytes r) (context_nodes (context r)).

(** ** The store *)

(** [lru_] holds the ids, the most recently used first.  An entry's iterator into it is its place. *)
Record ResponseStore : Type := mkStore {
  max_records_ : nat; max_bytes_ : Z;
  records_ : gmap (list Z) StoredResponse; lru_ : list (list Z); current_bytes_ : Z;
}.

Definition make_store (max_records : nat) (max_bytes : Z) : result ResponseStore :=
  do* throw_if ((max_records =? 0)%nat || (max_bytes =? 0)) InvalidArgument;
  Ok (mkStore max_records max_bytes ∅ [] 0).

(** A node is counted the first time it is seen. *)
Definition count_node (acc : Z * gset Z) (n : Z * Z) : Z * gset Z :=
  let '(bytes, seen) := acc in
  if bool_decide (n.1 ∈ seen) then acc else (bytes + n.2, {[n.1]} ∪ seen).
Definition count_record (acc : Z * gset Z) (r : StoredResponse) : Z * gset Z :=
  let '(bytes, seen) := acc in
  foldl count_node (bytes + record_envelope_bytes r, seen) (context_nodes (context r)).
Definition recompute_bytes_locked (records : gmap (list Z) StoredResponse) : Z :=
  (foldl count_record (0, ∅) (snd <$> map_to_list records)).1.

Definition set_records (records : gmap (list Z) StoredResponse) (lru : list (list Z)) (s : ResponseStore) : ResponseStore :=
  mkStore (max_records_ s) (max_bytes_ s) records lru (current_bytes_ s).
(** [current_bytes_ = recompute_bytes_locked();] *)
Definition update_bytes : M ResponseStore unit :=
  mmodify (fun s => mkStore (max_records_ s) (max_bytes_ s) (records_ s) (lru_ s) (recompute_bytes_locked (records_ s))).

Definition remove_id (id : list Z) (lru : list (list Z)) : list (list Z) := filter (fun x => x <> id) lru.

Definition erase_locked (id : list Z) : M ResponseStore unit :=
  mmodify (fun s =>
    match records_ s !! id with
    | None => s
    | Some _ => set_records (delete id (records_ s)) (remove_id id (lru_ s)) s
    end).

Definition get (id : list Z) : M ResponseStore (option StoredResponse) :=
  let! s := mget in
  match records_ s !! id with
  | None => mret_ None
  | Some r => do! mput (set_records (records_ s) (id :: remove_id id (lru_ s)) s); mret_ (Some r)
  end.

(** The entry to evict, which is not the one that was just put. *)
Definition choose_victim (id : list Z) (lru : list (list Z)) : result (list Z) :=
  match last lru with
  | None => Err LogicError
  | Some v =>
      if bool_decide (v = id) then
        match lru !! (length lru - 2)%nat with
        | Some w => if (length lru =? 1)%nat then Err ApiError else Ok w
        | None => Err ApiError
        end
      else Ok v
  end.

Definition over_limits (s : ResponseStore) : bool :=
  (max_records_ s <? base.size (records_ s))%nat || (current_bytes_ s >? max_bytes_ s).

(** The loop of [put]; each turn removes a record. *)
Fixpoint evict (fuel : nat) (id : list Z) : M ResponseStore unit :=
  match fuel with
  | O => mret_ tt
  | S fuel' =>
      let! s := mget in
      if negb (over_limits s) then mret_ tt else
      let! victim := mlift (choose_victim id (lru_ s)) in
      do! erase_locked victim;
      do! update_bytes;
      evict fuel' id
  end.

Definition put (r : StoredResponse) : M ResponseStore unit :=
  do! mthrow_if (bool_decide (sr_id r = []) || negb (is_object (response r))) InvalidArgument;
  let! s := mget in
  do! mthrow_if (standalone_bytes r >? max_bytes_ s) ApiError;
  do! mthrow_if (is_some (records_ s !! sr_id r)) LogicError;
  do! mput (set_records (<[sr_id r := r]> (records_ s)) (sr_id r :: lru_ s) s);
  do! update_bytes;
  evict (S (S (length (lru_ s)))) (sr_id r).

Definition erase (id : list Z) : M ResponseStore bool :=
  let! s := mget in
  if negb (is_some (records_ s !! id)) then mret_ false else
  do! erase_locked id;
  do! update_bytes;
  mret_ true.

Definition store_size (s : ResponseStore) : nat := base.size (records_ s).
Definition store_bytes (s : ResponseStore) : Z := current_bytes_ s.
End Store.
