(* ===== verification/ResponseStoreProofs.v ===== *)
(** * The response store stays within its limits and keeps what was used last

    A put either changes nothing and throws, or keeps the new response and the longest beginning of the
    list of the others, in the order of their last use, that fits the limits with it. *)
From stdpp Require Import gmap sorting.
From S2P Require Import Prelude Unicode Admission Capacity Contract Output Tokenizer PrefixIdentity ToolCalls Digest ChatTemplate ResponseStore.
#[local] Open Scope Z_scope.

Section Store.
Context `{Sizes}.

(** ** What is kept *)

Definition keep_records (ids : list (list Z)) (records : gmap (list Z) StoredResponse) : gmap (list Z) StoredResponse :=
  filter (fun kv => kv.1 ∈ ids) records.

(** The store [s] with only the records of [ids]. *)
Definition keep (ids : list (list Z)) (s : ResponseStore) : ResponseStore :=
  mkStore (max_records_ s) (max_bytes_ s) (keep_records ids (records_ s)) ids
    (recompute_bytes_locked (keep_records ids (records_ s))).

Record consistent (s : ResponseStore) : Prop := {
  lru_nodup : NoDup (lru_ s);
  lru_dom : forall id, id ∈ lru_ s <-> is_Some (records_ s !! id);
  records_keyed : forall id r, records_ s !! id = Some r -> sr_id r = id;
  bytes_exact : current_bytes_ s = recompute_bytes_locked (records_ s);
  limits_positive : (0 < max_records_ s)%nat;
}.

Lemma keep_lookup ids records id : keep_records ids records !! id = if bool_decide (id ∈ ids) then records !! id else None.
Proof.
  unfold keep_records. case_bool_decide as Hin.
  - destruct (records !! id) as [r|] eqn:E.
    + by apply map_lookup_filter_Some.
    + apply map_lookup_filter_None. by left.
  - apply map_lookup_filter_None. right. intros r _. exact Hin.
Qed.

Lemma keep_all s : consistent s -> keep (lru_ s) s = s.
Proof.
  intros Hs. assert (Hk : keep_records (lru_ s) (records_ s) = records_ s).
  { apply map_eq. intros id. rewrite keep_lookup. case_bool_decide as Hin; [done|].
    destruct (records_ s !! id) eqn:E; [|done]. exfalso. apply Hin, (lru_dom _ Hs). by rewrite E. }
  unfold keep. rewrite Hk, <- (bytes_exact _ Hs). by destruct s.
Qed.

Lemma keep_size ids s : consistent s -> NoDup ids -> ids ⊆ lru_ s -> base.size (keep_records ids (records_ s)) = length ids.
Proof.
  intros Hs Hn Hsub. rewrite <- (size_list_to_set (C := gset (list Z)) ids Hn), <- size_dom. f_equal.
  apply set_eq. intros id. rewrite elem_of_dom, elem_of_list_to_set, keep_lookup. case_bool_decide as Hin.
  - split; [done|]. intros _. by apply (lru_dom _ Hs), Hsub.
  - split; [by intros [? ?]|done].
Qed.

Lemma keep_consistent ids s : consistent s -> NoDup ids -> ids ⊆ lru_ s -> consistent (keep ids s).
Proof.
  intros Hs Hn Hsub. split; cbn; [done| | |done|by apply Hs].
  - intros id. rewrite keep_lookup. case_bool_decide as Hin; [|split; [done|by intros [? ?]]].
    split; [intros _; by apply (lru_dom _ Hs), Hsub|done].
  - intros id r. rewrite keep_lookup. case_bool_decide; [apply Hs|done].
Qed.

Lemma keep_drop_last ids v s : v ∉ ids -> NoDup ids ->
  delete v (keep_records (ids ++ [v]) (records_ s)) = keep_records ids (records_ s) /\ remove_id v (ids ++ [v]) = ids.
Proof.
  intros Hv Hn. split.
  - apply map_eq. intros id. destruct (decide (id = v)) as [->|Hne].
    + rewrite lookup_delete_eq, keep_lookup. by rewrite bool_decide_eq_false_2.
    + rewrite lookup_delete_ne, !keep_lookup by done. rewrite (bool_decide_ext (id ∈ ids ++ [v]) (id ∈ ids)); [done|]. set_solver.
  - unfold remove_id. rewrite filter_app, (filter_all _ ids), filter_none, app_nil_r; [done| |].
    + apply Forall_singleton. naive_solver.
    + apply Forall_forall. intros x Hx ->. done.
Qed.

(** ** Counting bytes *)

Lemma count_fresh nodes bytes seen :
  NoDup nodes.*1 -> (forall a, a ∈ nodes.*1 -> a ∉ seen) ->
  (foldl count_node (bytes, seen) nodes).1 = foldl (fun b n => b + snd n) bytes nodes.
Proof.
  revert bytes seen. induction nodes as [|[a b] nodes IH]; intros bytes seen Hn Hs; [done|].
  cbn in Hn. apply NoDup_cons in Hn as [Ha Hn]. cbn [foldl count_node fst snd].
  rewrite bool_decide_eq_false_2 by (apply Hs; left). apply IH; [done|]. intros x Hx.
  assert (x <> a) by (by intros ->). assert (x ∉ seen) by (apply Hs; by right). set_solver.
Qed.

(** The nodes of a chain are distinct objects. *)
Definition distinct_nodes (r : StoredResponse) : Prop := NoDup (context_nodes (context r)).*1.

Lemma recompute_singleton id r : distinct_nodes r -> recompute_bytes_locked {[id := r]} = standalone_bytes r.
Proof.
  intros Hd. unfold recompute_bytes_locked. rewrite map_to_list_singleton. cbn [fmap list_fmap foldl snd count_record].
  rewrite Z.add_0_l. apply count_fresh; [done|]. intros a _. set_solver.
Qed.

(** ** Eviction *)

Lemma elem_of_take {A} (x : A) n l : x ∈ take n l -> x ∈ l.
Proof. intros Hx. rewrite <- (take_drop n l). set_solver. Qed.

Lemma evict_exact id r rest s fuel : forall j,
  consistent s -> lru_ s = id :: rest -> records_ s !! id = Some r -> distinct_nodes r ->
  standalone_bytes r <= max_bytes_ s -> (j <= length rest)%nat -> (j < fuel)%nat ->
  exists k, evict fuel id (keep (id :: take j rest) s) = (Ok tt, keep (id :: take k rest) s) /\
    (k <= j)%nat /\ over_limits (keep (id :: take k rest) s) = false /\
    forall i, (k < i <= j)%nat -> over_limits (keep (id :: take i rest) s) = true.
Proof.
  intros j Hs Hl Hr Hd Hfit. revert j. induction fuel as [|fuel IH]; intros j Hj Hf; [lia|].
  assert (Hnd : NoDup (id :: rest)) by (rewrite <- Hl; apply Hs). apply NoDup_cons in Hnd as [Hid Hrest].
  cbn [evict]. unfold mbind_ at 1, mget at 1.
  destruct (over_limits (keep (id :: take j rest) s)) eqn:Hover; cbn [negb].
  2: { exists j. split; [done|]. split; [lia|]. split; [done|]. intros; lia. }
  destruct j as [|j].
  { exfalso. revert Hover. rewrite take_0. unfold over_limits. cbn [keep records_ current_bytes_ max_records_ max_bytes_].
    rewrite (keep_size [id] s Hs) by (try apply NoDup_singleton; rewrite Hl; set_solver).
    assert (Hone : keep_records [id] (records_ s) = {[id := r]}).
    { apply map_eq. intros x. rewrite keep_lookup. destruct (decide (x = id)) as [->|Hne].
      - rewrite lookup_singleton_eq. by rewrite bool_decide_eq_true_2 by (by left).
      - rewrite lookup_singleton_ne by done. rewrite bool_decide_eq_false_2; [done|]. set_solver. }
    rewrite Hone, recompute_singleton by done. cbn [length]. intros Ho. apply orb_true_iff in Ho as [Ho|Ho].
    - apply Nat.ltb_lt in Ho. pose proof (limits_positive _ Hs). lia.
    - apply Z.gtb_gt in Ho. lia. }
  destruct (lookup_lt_is_Some_2 rest j) as [v Hv]; [lia|].
  assert (Hsplit : id :: take (S j) rest = (id :: take j rest) ++ [v]) by (by rewrite (take_S_r _ _ _ Hv)).
  assert (Hvn : v ∉ id :: take j rest).
  { assert (v ∈ rest) by (by eapply list_elem_of_lookup_2). apply not_elem_of_cons. split; [by intros ->|].
    intros Hin. rewrite <- (take_drop (S j) rest), (take_S_r _ _ _ Hv) in Hrest.
    apply NoDup_app in Hrest as (Hrest & _). apply NoDup_app in Hrest as (_ & Hrest & _). by apply (Hrest v Hin), list_elem_of_singleton. }
  assert (Hnj : NoDup (id :: take j rest)).
  { apply NoDup_cons. split; [by intros Hin%elem_of_take|]. rewrite <- (take_drop j rest) in Hrest. by apply NoDup_app in Hrest as (? & _). }
  destruct (keep_drop_last _ v s Hvn Hnj) as [Hdel Hrem].
  assert (Hvic : choose_victim id (id :: take (S j) rest) = Ok v).
  { unfold choose_victim. rewrite Hsplit, last_snoc. rewrite bool_decide_eq_false_2; [done|]. set_solver. }
  assert (Hin : is_Some (keep_records (id :: take (S j) rest) (records_ s) !! v)).
  { rewrite Hsplit, keep_lookup, bool_decide_eq_true_2 by set_solver. apply (lru_dom _ Hs). rewrite Hl. right.
    by eapply list_elem_of_lookup_2. }
  destruct Hin as [rv Hrv].
  unfold mbind_, mlift, erase_locked, update_bytes, mmodify. cbn [keep lru_ records_]. rewrite Hvic, Hrv.
  cbn [set_records keep max_records_ max_bytes_ records_ lru_]. rewrite Hsplit, Hdel, Hrem.
  destruct (IH j ltac:(lia) ltac:(lia)) as (k & Hk & Hkj & Hok & Hmax). unfold keep at 1 in Hk. rewrite Hk.
  exists k. split; [done|]. split; [lia|]. split; [done|]. intros i Hi.
  destruct (decide (i = S j)) as [->|]; [done|]. apply Hmax. lia.
Qed.

(** ** Operations *)

Definition fits (s : ResponseStore) : Prop := over_limits s = false.

(** The store with the new response, before anything is evicted. *)
Definition inserted (r : StoredResponse) (s : ResponseStore) : ResponseStore :=
  mkStore (max_records_ s) (max_bytes_ s) (<[sr_id r := r]> (records_ s)) (sr_id r :: lru_ s)
    (recompute_bytes_locked (<[sr_id r := r]> (records_ s))).

Lemma put_eq r s :
  put r s =
  if bool_decide (sr_id r = []) || negb (is_object (response r)) then (Err InvalidArgument, s)
  else if standalone_bytes r >? max_bytes_ s then (Err ApiError, s)
  else if is_some (records_ s !! sr_id r) then (Err LogicError, s)
  else evict (S (S (length (lru_ s)))) (sr_id r) (inserted r s).
Proof.
  unfold put, mbind_, mthrow_if, mlift, throw_if, mget, mput, update_bytes, mmodify.
  destruct (bool_decide _ || _); [done|]. destruct (_ >? _); [done|]. by destruct (is_some _).
Qed.

(** What a put that is accepted leaves. *)
Definition kept (r : StoredResponse) (s : ResponseStore) (k : nat) : ResponseStore :=
  keep (sr_id r :: take k (lru_ s)) (inserted r s).

Lemma inserted_run s r :
  consistent s -> distinct_nodes r -> standalone_bytes r <= max_bytes_ s -> records_ s !! sr_id r = None ->
  exists k, evict (S (S (length (lru_ s)))) (sr_id r) (inserted r s) = (Ok tt, kept r s k) /\
    consistent (kept r s k) /\ fits (kept r s k) /\
    forall i, (k < i <= length (lru_ s))%nat -> ~ fits (kept r s i).
Proof.
  intros Hs Hd Hfit Hold. set (s2 := inserted r s).
  assert (Hnew : sr_id r ∉ lru_ s) by (intros Hin%(lru_dom _ Hs); rewrite Hold in Hin; by destruct Hin).
  assert (Hs2 : consistent s2).
  { split; cbn; [by apply NoDup_cons; split; [|apply Hs]| | |done|apply Hs].
    - intros id. rewrite elem_of_cons, (lru_dom _ Hs). destruct (decide (id = sr_id r)) as [->|Hne].
      + rewrite lookup_insert_eq. split; [by eexists|by left].
      + rewrite lookup_insert_ne by done. naive_solver.
    - intros id x. destruct (decide (id = sr_id r)) as [->|Hne].
      + rewrite lookup_insert_eq. by intros [= ->].
      + rewrite lookup_insert_ne by done. apply Hs. }
  destruct (evict_exact (sr_id r) r (lru_ s) s2 (S (S (length (lru_ s)))) (length (lru_ s)))
    as (k & Hk & _ & Hok & Hmax); [done|done|apply lookup_insert_eq|done|cbn; lia|lia|lia|].
  rewrite firstn_all in Hk. change (sr_id r :: lru_ s) with (lru_ s2) in Hk at 1. rewrite keep_all in Hk by done.
  exists k. split; [exact Hk|]. split; [|split; [exact Hok|]].
  - apply keep_consistent; [done| |].
    + apply NoDup_cons. split; [by intros Hin%elem_of_take|]. pose proof (lru_nodup _ Hs) as Hn.
      rewrite <- (take_drop k (lru_ s)) in Hn. by apply NoDup_app in Hn as (? & _).
    + cbn. intros x Hx. apply elem_of_cons in Hx as [->|Hx]; [left|right; by eapply elem_of_take].
  - intros i Hi Hfits. assert (Ho := Hmax i Hi). unfold fits, kept in Hfits. fold s2 in Hfits. congruence.
Qed.

(** C33: Putting a response into a consistent store either throws and changes nothing, because the response
    has no id or body, is larger than the store by itself or has an id in use; or keeps it as the most
    recently used together with the longest beginning of the others, by last use, that fits the limits
    with it.  The store is again consistent and within its limits. *)
Theorem response_put_exact s r :
  consistent s -> distinct_nodes r ->
  match put r s with
  | (Err e, s') => s' = s /\
      (e = InvalidArgument /\ (sr_id r = [] \/ is_object (response r) = false) \/
       e = ApiError /\ max_bytes_ s < standalone_bytes r \/
       e = LogicError /\ is_Some (records_ s !! sr_id r))
  | (Ok _, s') =>
      exists k, s' = kept r s k /\ consistent s' /\ fits s' /\
        forall i, (k < i <= length (lru_ s))%nat -> ~ fits (kept r s i)
  end.
Proof.
  intros Hs Hd. rewrite put_eq.
  destruct (bool_decide (sr_id r = []) || negb (is_object (response r))) eqn:Hbad.
  { split; [done|]. left. split; [done|]. apply orb_true_iff in Hbad as [Hbad%bool_decide_eq_true|Hbad%negb_true_iff]; auto. }
  destruct (Z.gtb_spec (standalone_bytes r) (max_bytes_ s)) as [Hbig|Hfit]; [naive_solver lia|].
  destruct (records_ s !! sr_id r) as [old|] eqn:Hold; cbn [is_some]; [naive_solver|].
  destruct (inserted_run s r Hs Hd Hfit Hold) as (k & -> & H1 & H2 & H3). by exists k.
Qed.

(** ** Every node is counted once *)

Definition nodes_of (l : list StoredResponse) : gset (Z * Z) := list_to_set (concat ((fun r => context_nodes (context r)) <$> l)).
Definition node_sum (X : gset (Z * Z)) : Z := foldr (fun n acc => n.2 + acc) 0 (elements X).
Definition envelope_sum (l : list StoredResponse) : Z := foldr (fun r acc => record_envelope_bytes r + acc) 0 l.

(** An address is that of one node. *)
Definition coherent (X : gset (Z * Z)) : Prop := forall n n', n ∈ X -> n' ∈ X -> n.1 = n'.1 -> n = n'.

Definition stored (s : ResponseStore) : list StoredResponse := (map_to_list (records_ s)).*2.

Lemma foldr_add_perm {A} (f : A -> Z) l k : l ≡ₚ k -> foldr (fun x acc => f x + acc) 0 l = foldr (fun x acc => f x + acc) 0 k.
Proof. induction 1; cbn; lia. Qed.

Lemma foldr_add_app {A} (f : A -> Z) l k :
  foldr (fun x acc => f x + acc) 0 (l ++ k) = foldr (fun x acc => f x + acc) 0 l + foldr (fun x acc => f x + acc) 0 k.
Proof. induction l as [|x l IH]; cbn; lia. Qed.

Lemma node_sum_union X Y : X ## Y -> node_sum (X ∪ Y) = node_sum X + node_sum Y.
Proof.
  intros Hd. unfold node_sum. rewrite (foldr_add_perm _ _ _ (elements_disj_union X Y Hd)). apply foldr_add_app.
Qed.

Lemma node_sum_singleton n : node_sum {[n]} = n.2.
Proof. unfold node_sum. rewrite elements_singleton. cbn. lia. Qed.

Lemma node_sum_nonneg X : (forall n, n ∈ X -> 0 <= n.2) -> 0 <= node_sum X.
Proof.
  intros Hx. unfold node_sum. assert (Hl : forall n, n ∈ elements X -> 0 <= n.2) by (intros n Hn; by apply Hx, elem_of_elements).
  induction (elements X) as [|n l IH]; cbn; [lia|]. pose proof (Hl n ltac:(by left)).
  specialize (IH ltac:(intros m Hm; apply Hl; by right)). lia.
Qed.

Lemma node_sum_mono X Y : X ⊆ Y -> (forall n, n ∈ Y -> 0 <= n.2) -> node_sum X <= node_sum Y.
Proof.
  intros Hsub Hn. rewrite (union_difference_L X Y Hsub), node_sum_union by set_solver.
  pose proof (node_sum_nonneg (Y ∖ X) ltac:(set_solver)). lia.
Qed.

Lemma count_nodes_spec ns : forall b X, coherent (X ∪ list_to_set ns) ->
  foldl count_node (b + node_sum X, set_map fst X) ns =
  (b + node_sum (X ∪ list_to_set ns), set_map fst (X ∪ list_to_set ns)).
Proof.
  induction ns as [|n ns IH]; intros b X Hc; cbn [foldl list_to_set].
  - by rewrite union_empty_r_L.
  - change (list_to_set (n :: ns)) with ({[n]} ∪ list_to_set ns : gset (Z * Z)) in *. unfold count_node at 2.
    case_bool_decide as Hin.
    + apply elem_of_map in Hin as (n' & Hn' & Hin).
      assert (n = n') as <- by (apply Hc; [set_solver|set_solver|done]).
      replace (X ∪ ({[n]} ∪ list_to_set ns)) with (X ∪ list_to_set ns) in * by set_solver. by apply IH.
    + assert (Hnx : n ∉ X) by (intros Hx; by apply Hin, elem_of_map_2).
      replace (b + node_sum X + n.2) with (b + node_sum ({[n]} ∪ X))
        by (rewrite node_sum_union, node_sum_singleton by set_solver; lia).
      replace ({[n.1]} ∪ set_map fst X) with (set_map fst ({[n]} ∪ X) : gset Z)
        by (by rewrite set_map_union_L, set_map_singleton_L).
      replace (X ∪ ({[n]} ∪ list_to_set ns)) with ({[n]} ∪ X ∪ list_to_set ns) in * by set_solver. by apply IH.
Qed.

Lemma nodes_of_cons r l : nodes_of (r :: l) = list_to_set (context_nodes (context r)) ∪ nodes_of l.
Proof. unfold nodes_of. cbn [fmap list_fmap concat]. by rewrite list_to_set_app_L. Qed.

Lemma count_records_spec l : forall b X, coherent (X ∪ nodes_of l) ->
  (foldl count_record (b + node_sum X, set_map fst X) l).1 = b + envelope_sum l + node_sum (X ∪ nodes_of l).
Proof.
  induction l as [|r l IH]; intros b X Hc; cbn [foldl envelope_sum foldr].
  - change (nodes_of []) with (∅ : gset (Z * Z)). rewrite union_empty_r_L. cbn. lia.
  - rewrite nodes_of_cons, (assoc_L (∪)) in Hc |- *. unfold count_record at 2.
    replace (b + node_sum X + record_envelope_bytes r) with (b + record_envelope_bytes r + node_sum X) by lia.
    rewrite count_nodes_spec.
    + rewrite IH by done. fold (envelope_sum l). lia.
    + intros n n' Hn Hn'. apply Hc; set_solver.
Qed.

Lemma recompute_spec records :
  coherent (nodes_of (map_to_list records).*2) ->
  recompute_bytes_locked records = envelope_sum (map_to_list records).*2 + node_sum (nodes_of (map_to_list records).*2).
Proof.
  intros Hc. unfold recompute_bytes_locked.
  pose proof (count_records_spec (map_to_list records).*2 0 ∅) as Hs. rewrite union_empty_l_L in Hs. specialize (Hs Hc).
  change (set_map fst ∅) with (∅ : gset Z) in Hs. exact Hs.
Qed.

(** Removing a record never makes the store larger. *)
Lemma stored_delete (records : gmap (list Z) StoredResponse) id r :
  records !! id = Some r ->
  (map_to_list records).*2 ≡ₚ r :: (map_to_list (delete id records)).*2.
Proof.
  intros Hr. rewrite <- (insert_delete_id records id r Hr) at 1.
  rewrite map_to_list_insert by apply lookup_delete_eq. done.
Qed.

Lemma nodes_of_perm l k : l ≡ₚ k -> nodes_of l = nodes_of k.
Proof. unfold nodes_of. intros Hp. by rewrite Hp. Qed.

Class SizesLaws : Prop := {
  sizeof_nonneg : 0 <= sizeof_StoredResponse /\ 0 <= sizeof_json /\ 0 <= sizeof_ResponseContextNode;
}.

Lemma envelope_nonneg `{SizesLaws} r : 0 <= record_envelope_bytes r.
Proof.
  unfold record_envelope_bytes. destruct sizeof_nonneg as (H1 & H2 & _).
  assert (Hb : 0 <= sizeof_StoredResponse + size (sr_id r) + size (response_dump (response r))).
  { unfold size. lia. }
  revert Hb. generalize (sizeof_StoredResponse + size (sr_id r) + size (response_dump (response r))).
  induction (input_items r) as [|item items IH]; intros b Hb; cbn; [done|]. apply IH. unfold size. lia.
Qed.

(** The nodes of the records: what they own is not negative, and an address is that of one node. *)
Definition well_formed (records : gmap (list Z) StoredResponse) : Prop :=
  coherent (nodes_of (map_to_list records).*2) /\ forall n, n ∈ nodes_of (map_to_list records).*2 -> 0 <= n.2.

Lemma delete_well_formed records id : well_formed records -> well_formed (delete id records).
Proof.
  destruct (records !! id) as [r|] eqn:E; [|by rewrite delete_id]. intros [H1 H2].
  assert (Hsub : nodes_of (map_to_list (delete id records)).*2 ⊆ nodes_of (map_to_list records).*2).
  { rewrite (nodes_of_perm _ _ (stored_delete _ _ _ E)), nodes_of_cons. set_solver. }
  split; [intros n n' Hn Hn'; apply H1; by apply Hsub|intros n Hn; by apply H2, Hsub].
Qed.

Lemma delete_bytes `{SizesLaws} records id :
  well_formed records -> recompute_bytes_locked (delete id records) <= recompute_bytes_locked records.
Proof.
  intros Hw. destruct (records !! id) as [r|] eqn:E; [|by rewrite delete_id].
  rewrite !recompute_spec by (try apply Hw; by apply (delete_well_formed _ id)).
  pose proof (stored_delete _ _ _ E) as Hp.
  unfold envelope_sum. rewrite (foldr_add_perm _ _ _ Hp). cbn [foldr]. fold (envelope_sum (map_to_list (delete id records)).*2).
  pose proof (envelope_nonneg r).
  assert (node_sum (nodes_of (map_to_list (delete id records)).*2) <= node_sum (nodes_of (map_to_list records).*2)); [|lia].
  apply node_sum_mono; [|apply Hw]. rewrite (nodes_of_perm _ _ Hp), nodes_of_cons. set_solver.
Qed.

(** ** Every store that can be reached *)

Inductive store_reachable : ResponseStore -> Prop :=
| reach_make max_records max_bytes s : 0 <= max_bytes -> make_store max_records max_bytes = Ok s -> store_reachable s
| reach_get id s : store_reachable s -> store_reachable (get id s).2
| reach_put r s :
    store_reachable s -> distinct_nodes r -> well_formed (<[sr_id r := r]> (records_ s)) -> store_reachable (put r s).2
| reach_erase id s : store_reachable s -> store_reachable (erase id s).2.

Lemma remove_id_elem id x lru : x ∈ remove_id id lru <-> x <> id /\ x ∈ lru.
Proof. unfold remove_id. by rewrite list_elem_of_filter. Qed.

Lemma get_consistent id s : consistent s -> consistent (get id s).2 /\ records_ (get id s).2 = records_ s /\ (fits s -> fits (get id s).2).
Proof.
  intros Hs. unfold get, mbind_, mget, mput, mret_. destruct (records_ s !! id) as [r|] eqn:E; [|done].
  cbn [snd]. split; [|done]. split; cbn; try apply Hs.
  - apply NoDup_cons. split; [intros Hx%remove_id_elem; naive_solver|]. apply NoDup_filter, Hs.
  - intros x. rewrite elem_of_cons, remove_id_elem, (lru_dom _ Hs). destruct (decide (x = id)) as [->|]; [|naive_solver].
    rewrite E. naive_solver.
Qed.

Definition erased (id : list Z) (s : ResponseStore) : ResponseStore :=
  mkStore (max_records_ s) (max_bytes_ s) (delete id (records_ s)) (remove_id id (lru_ s))
    (recompute_bytes_locked (delete id (records_ s))).

Lemma erase_eq id s :
  erase id s = if is_some (records_ s !! id) then (Ok true, erased id s) else (Ok false, s).
Proof.
  unfold erase, mbind_, mget, mret_, erase_locked, update_bytes, mmodify.
  destruct (records_ s !! id) as [r|] eqn:E; cbn [is_some negb]; [by rewrite E|done].
Qed.

Lemma erased_consistent id s : consistent s -> consistent (erased id s).
Proof.
  intros Hs. split; cbn; try apply Hs; try done.
  - apply NoDup_filter, Hs.
  - intros x. rewrite remove_id_elem, (lru_dom _ Hs). destruct (decide (x = id)) as [->|Hne].
    + rewrite lookup_delete_eq. split; [by intros [? _]|by intros [? ?]].
    + rewrite lookup_delete_ne by done. naive_solver.
  - intros x r. destruct (decide (x = id)) as [->|Hne]; [by rewrite lookup_delete_eq|].
    rewrite lookup_delete_ne by done. apply Hs.
Qed.

Lemma store_fits_spec s : fits s <-> (base.size (records_ s) <= max_records_ s)%nat /\ current_bytes_ s <= max_bytes_ s.
Proof.
  unfold fits, over_limits. rewrite orb_false_iff, Nat.ltb_ge, Z.gtb_ltb, Z.ltb_ge. done.
Qed.

Lemma elem_of_nodes_of (n : Z * Z) (records : gmap (list Z) StoredResponse) :
  n ∈ nodes_of (map_to_list records).*2 <-> exists id r, records !! id = Some r /\ n ∈ context_nodes (context r).
Proof.
  unfold nodes_of. rewrite elem_of_list_to_set, list_elem_of_In, in_concat. setoid_rewrite <- list_elem_of_In. split.
  - intros (l & Hl & Hn). apply list_elem_of_fmap in Hl as (r & -> & Hr). apply list_elem_of_fmap in Hr as ([id r'] & -> & Hr).
    apply elem_of_map_to_list in Hr. by exists id, r'.
  - intros (id & r & Hr & Hn). exists (context_nodes (context r)). split; [|exact Hn].
    apply (list_elem_of_fmap_2 (fun r => context_nodes (context r))).
    change r with (id, r).2. apply list_elem_of_fmap_2. by apply elem_of_map_to_list.
Qed.

Lemma keep_well_formed ids records : well_formed records -> well_formed (keep_records ids records).
Proof.
  intros [H1 H2].
  assert (Hsub : forall n, n ∈ nodes_of (map_to_list (keep_records ids records)).*2 -> n ∈ nodes_of (map_to_list records).*2).
  { intros n. rewrite !elem_of_nodes_of. intros (id & r & Hr & Hn). rewrite keep_lookup in Hr.
    case_bool_decide; [|done]. eauto. }
  split; [intros n n' Hn Hn'; apply H1; by apply Hsub|intros n Hn; by apply H2, Hsub].
Qed.

(** C32: Whatever is put, fetched and erased, the store keeps within its limits of records and of bytes; its
    list of last uses names each stored response once; and the bytes it counts are those of the stored
    responses with each context node that they share counted once. *)
Theorem response_store_bounded `{SizesLaws} s :
  store_reachable s ->
  (store_size s <= max_records_ s)%nat /\ store_bytes s <= max_bytes_ s /\
  NoDup (lru_ s) /\ (forall id, id ∈ lru_ s <-> is_Some (records_ s !! id)) /\ length (lru_ s) = store_size s /\
  store_bytes s = envelope_sum (stored s) + node_sum (nodes_of (stored s)).
Proof.
  intros Hr. assert (Hall : consistent s /\ fits s /\ well_formed (records_ s)).
  { induction Hr as [n b s Hb Hm|id s Hr (Hc & Hf & Hw)|r s Hr (Hc & Hf & Hw) Hd Hnew|id s Hr (Hc & Hf & Hw)].
    - unfold make_store in Hm. rinv. subst. cbn. rewrite store_fits_spec. split_and!; [|cbn [records_ max_records_]; rewrite map_size_empty; lia|done|].
      + split; cbn; [by apply NoDup_nil| |done|done|apply Nat.eqb_neq in H1; lia]. intros id. rewrite lookup_empty. split; [by intros ?%elem_of_nil|by intros [? ?]].
      + split; [intros n1 n2 Hn1|intros n1 Hn1]; apply elem_of_nodes_of in Hn1 as (? & ? & Hn1 & _); by rewrite lookup_empty in Hn1.
    - destruct (get_consistent id s Hc) as (H1 & H2 & H3). rewrite H2. auto.
    - rewrite put_eq. destruct (_ || _); [done|].
      destruct (Z.gtb_spec (standalone_bytes r) (max_bytes_ s)) as [|Hfit]; [done|].
      destruct (records_ s !! sr_id r) as [old|] eqn:Hold; [done|]. cbn [is_some].
      destruct (inserted_run s r Hc Hd Hfit Hold) as (k & -> & H1 & H2 & _). cbn [snd].
      split; [done|]. split; [done|]. by apply keep_well_formed.
    - rewrite erase_eq. destruct (records_ s !! id) as [r|] eqn:E; cbn [is_some snd]; [|done].
      split; [by apply erased_consistent|]. split; [|by apply delete_well_formed].
      rewrite store_fits_spec in Hf |- *. cbn [erased records_ current_bytes_ max_records_ max_bytes_]. split.
      + rewrite map_size_delete, E. lia.
      + etrans; [by apply delete_bytes|]. rewrite <- (bytes_exact _ Hc). tauto. }
  destruct Hall as (Hc & Hf%store_fits_spec & Hw). unfold store_size, store_bytes. split_and!; [tauto|tauto|apply Hc|apply Hc| |].
  - rewrite <- (keep_all s Hc) at 2. cbn [keep records_]. symmetry. by apply keep_size; [|apply Hc|].
  - rewrite (bytes_exact _ Hc). apply recompute_spec, Hw.
Qed.
End Store.

(** A context that grows: its turns in order. *)
Lemma flatten_append `{Sizes} address parent turns :
  flatten_response_context (append_response_context address parent turns) = flatten_response_context parent ++ turns.
Proof.
  unfold flatten_response_context, append_response_context. cbn [context_turns].
  rewrite reverse_cons, concat_app. cbn [concat]. by rewrite app_nil_r.
Qed.

(** Three responses that share a context node, in a store of two. *)
#[local] Instance sample_sizes : Sizes :=
  {| sizeof_ChatTurn := 8; sizeof_ContentPart := 8; sizeof_ToolCall := 8; sizeof_ResponseContextNode := 8;
     sizeof_StoredResponse := 8; sizeof_json := 8; response_dump := fun _ => [123; 125] |}.
#[local] Instance sample_sizes_laws : SizesLaws.
Proof. split. cbn. lia. Qed.

Definition shared : ResponseContext := append_response_context 1 NoContext [].
Definition sample_response (id : Z) : StoredResponse := mkResponse [id] (JObject []) [] (append_response_context (100 + id) shared []) false.
Definition store_after (ids : list Z) : ResponseStore :=
  foldl (fun s id => (put (sample_response id) s).2) (mkStore 2 1000 ∅ [] 0) ids.

Lemma sample_distinct id : id <> -99 -> distinct_nodes (sample_response id).
Proof. intros Hid. unfold distinct_nodes. cbn. apply NoDup_cons. split; [rewrite list_elem_of_singleton; lia|apply NoDup_singleton]. Qed.

Lemma response_put_exact_witness :
  distinct_nodes (sample_response 3) /\ lru_ (put (sample_response 3) (store_after [1; 2])).2 = [[3]; [2]] /\
  exists k, (put (sample_response 3) (store_after [1; 2])).2 = kept (sample_response 3) (store_after [1; 2]) k.
Proof.
  assert (Hd : distinct_nodes (sample_response 3)) by (by apply sample_distinct).
  split; [done|]. split; [vm_compute; reflexivity|].
  assert (Hc : consistent (store_after [1; 2])).
  { split.
    - by_compute.
    - intros id. assert (Hr : records_ (store_after [1; 2]) = <[[1] := sample_response 1]> {[[2] := sample_response 2]}) by (vm_compute; reflexivity).
      assert (Hl : lru_ (store_after [1; 2]) = [[2]; [1]]) by (vm_compute; reflexivity).
      rewrite Hr, Hl, lookup_insert_is_Some', lookup_singleton_is_Some, !elem_of_cons, elem_of_nil. naive_solver.
    - intros id r. assert (Hr : records_ (store_after [1; 2]) = <[[1] := sample_response 1]> {[[2] := sample_response 2]}) by (vm_compute; reflexivity).
      rewrite Hr, lookup_insert_Some, lookup_singleton_Some. intros [[<- <-]|[_ [<- <-]]]; done.
    - vm_compute; reflexivity.
    - vm_compute; lia. }
  pose proof (response_put_exact (store_after [1; 2]) (sample_response 3) Hc Hd) as Hput.
  destruct (put (sample_response 3) (store_after [1; 2])) as [[u|e] s'] eqn:E; [|by vm_compute in E].
  destruct Hput as (k & -> & _). by exists k.
Defined.

Definition well_formed_check `{Sizes} (records : gmap (list Z) StoredResponse) : bool :=
  let l := elements (nodes_of (map_to_list records).*2) in
  forallb (fun n => (0 <=? n.2) && forallb (fun n' => negb (n.1 =? n'.1) || bool_decide (n = n')) l) l.

Lemma well_formed_checked `{Sizes} records : well_formed_check records = true -> well_formed records.
Proof.
  unfold well_formed_check. rewrite forallb_forall. intros Hl.
  assert (Hn : forall n, n ∈ nodes_of (map_to_list records).*2 ->
    0 <= n.2 /\ forall n', n' ∈ nodes_of (map_to_list records).*2 -> n.1 = n'.1 -> n = n').
  { intros n Hn. apply elem_of_elements, list_elem_of_In, Hl, andb_true_iff in Hn as [H1%Z.leb_le H2]. split; [done|].
    intros n' Hn' Heq. rewrite forallb_forall in H2. apply elem_of_elements, list_elem_of_In, H2 in Hn'.
    apply orb_true_iff in Hn' as [Hn'%negb_true_iff%Z.eqb_neq|Hn'%bool_decide_eq_true]; [lia|done]. }
  split; [intros n n' H1 H2; by apply (Hn n H1)|intros n H1; by apply (Hn n H1)].
Qed.

Definition sample_get : result (option StoredResponse) * ResponseStore := ResponseStore.get [2%Z] (store_after [1; 2; 3]).

Lemma response_store_bounded_witness :
  store_reachable sample_get.2 /\
  lru_ sample_get.2 = [[2%Z]; [3%Z]] /\
  store_bytes sample_get.2 = 46 /\
  (store_size sample_get.2 <= 2)%nat.
Proof.
  assert (Hput : forall id s, store_reachable s -> id <> -99 ->
    well_formed_check (<[[id] := sample_response id]> (records_ s)) = true ->
    store_reachable (put (sample_response id) s).2).
  { intros id s Hs Hid Hw. apply reach_put; [done|by apply sample_distinct|by apply well_formed_checked]. }
  assert (Hr : store_reachable sample_get.2).
  { apply reach_get. unfold store_after. cbn [foldl].
    repeat (apply Hput; [|done|vm_compute; reflexivity]). by apply (reach_make 2 1000). }
  split; [exact Hr|]. split; [vm_compute; reflexivity|]. split; [vm_compute; reflexivity|].
  apply (response_store_bounded _ Hr).
Defined.
