(* ===== verification/MediaCache.v ===== *)
(** * The media cache: [targets/qwen3_6/impl/frontend/media_cache], [src/core/host_worker_pool]

    Prepared media are kept by content.  The first request for a medium becomes the producer of its
    flight: a task built on the worker pool; requests that come meanwhile wait for the same flight.
    Many threads run this code: each critical section is one step of [step], and the local work of a
    thread between two of them is in the phase of its flight.  Payloads are objects with the bytes that
    the memory account has reserved for them; they die when nothing refers to them. *)
From stdpp Require Import gmap.
From S2P Require Import Prelude PrefixIdentity.
#[local] Open Scope Z_scope.
#[local] Open Scope ninfer_scope.

(** ** Data *)

Record MediaCacheKey : Set := mkKey { digest : list Z; key_modality : PromptModality }.
#[export] Instance MediaCacheKey_eq_dec : EqDecision MediaCacheKey.
Proof. solve_decision. Defined.
#[export] Instance PromptModality_countable : Countable PromptModality.
Proof.
  refine (inj_countable' (fun m => match m with Image => true | Video => false end)
            (fun b : bool => if b then Image else Video) _). by intros [].
Defined.
#[export] Instance MediaCacheKey_countable : Countable MediaCacheKey.
Proof.
  refine (inj_countable' (fun k => (digest k, key_modality k)) (fun p => mkKey p.1 p.2) _). by intros [].
Defined.

(** [PreparedMediaPayload]: an object, with the number of its elements. *)
Record Payload : Set := mkPayload { payload_id : Z; patch_elements : Z }.
Record PreparedMedia : Set := mkMedia { media_item : VisionItem; payload : option Payload }.

(** [sizeof(std::uint16_t)] *)
Definition sizeof_u16 : Z := 2.

Definition payload_bytes (m : PreparedMedia) : result Z :=
  match payload m with
  | None => Err LogicError
  | Some p =>
      do* throw_if (patch_elements p >? u64_max / sizeof_u16) OverflowError;
      Ok (patch_elements p * sizeof_u16)
  end.

Inductive MediaCacheDisposition : Set := Hit | Producer | SingleflightWaiter.

(** [MediaCacheFlight], without its times. *)
Record MediaCacheFlight : Set := mkFlight {
  fl_key : MediaCacheKey; fl_result : option PreparedMedia; fl_error : option exn; fl_bytes : Z; fl_done : bool;
}.

(** The cancellation flag and the deadline of a request; [0] is [time_point{}]. *)
Record PreparationControl : Set := mkControl { cancellation_requested : bool; deadline : Z }.

Definition check_preparation_control (control : PreparationControl) (now : Z) : result unit :=
  do* throw_if (cancellation_requested control) (RequestError Cancelled_);
  throw_if (negb (deadline control =? 0) && (now >=? deadline control)) (RequestError QueueTimeout).

(** ** The memory account *)

Record MemoryAccount : Set := mkAccount { limit : Z; live : Z }.

Definition try_reserve (bytes : Z) : M MemoryAccount bool :=
  let! a := mget in
  if (bytes >? limit a) || (live a >? limit a - bytes) then mret_ false
  else do! mput (mkAccount (limit a) (live a + bytes)); mret_ true.

Definition release (bytes : Z) : M MemoryAccount unit :=
  let! a := mget in
  do! mthrow_if (bytes >? live a) Abort_;
  mput (mkAccount (limit a) (live a - bytes)).

(** What [allocate_payload] checks before it waits for [bytes]. *)
Definition allocation_bytes (limit elements : Z) : result Z :=
  do* throw_if (elements =? 0) InvalidArgument;
  do* throw_if (elements >? u64_max / sizeof_u16) OverflowError;
  do* throw_if (elements * sizeof_u16 >? limit) (RequestError MediaBudgetExceeded);
  Ok (elements * sizeof_u16).

(** ** The gate of requests *)

Record MediaPreparationGate : Set := mkGate { maximum : Z; gate_active : Z }.

Definition gate_maximum (live_capacity_bytes maximum_request_bytes : Z) : Z :=
  if maximum_request_bytes =? 0 then 1 else Z.max 1 (live_capacity_bytes / maximum_request_bytes).

(** One turn of the loop of [acquire_request]: whether a permit was given. *)
Definition acquire_permit : M MediaPreparationGate bool :=
  let! g := mget in
  if gate_active g <? maximum g then do! mput (mkGate (maximum g) (gate_active g + 1)); mret_ true
  else mret_ false.

Definition release_permit : M MediaPreparationGate unit :=
  let! g := mget in
  do! mthrow_if (gate_active g =? 0) Abort_;
  mput (mkGate (maximum g) (gate_active g - 1)).

(** ** The cache *)

Record Ready : Set := mkReady { media : PreparedMedia; bytes : Z }.

Record State : Set := mkState {
  capacity_bytes : Z;
  lru : list MediaCacheKey;
  ready : gmap MediaCacheKey Ready;
  inflight : gmap MediaCacheKey Z;
  retained_bytes : Z;
  hits : Z; misses : Z; singleflight_waits : Z; evictions : Z; oversize_bypasses : Z;
}.

Definition set_lru (l : list MediaCacheKey) (s : State) : State :=
  mkState (capacity_bytes s) l (ready s) (inflight s) (retained_bytes s) (hits s) (misses s) (singleflight_waits s)
    (evictions s) (oversize_bypasses s).
Definition set_inflight (m : gmap MediaCacheKey Z) (s : State) : State :=
  mkState (capacity_bytes s) (lru s) (ready s) m (retained_bytes s) (hits s) (misses s) (singleflight_waits s)
    (evictions s) (oversize_bypasses s).
Definition count_hit (s : State) : State :=
  mkState (capacity_bytes s) (lru s) (ready s) (inflight s) (retained_bytes s) (u64 (hits s + 1)) (misses s)
    (singleflight_waits s) (evictions s) (oversize_bypasses s).
Definition count_miss (s : State) : State :=
  mkState (capacity_bytes s) (lru s) (ready s) (inflight s) (retained_bytes s) (hits s) (u64 (misses s + 1))
    (singleflight_waits s) (evictions s) (oversize_bypasses s).
Definition count_wait (s : State) : State :=
  mkState (capacity_bytes s) (lru s) (ready s) (inflight s) (retained_bytes s) (hits s) (misses s)
    (u64 (singleflight_waits s + 1)) (evictions s) (oversize_bypasses s).
Definition count_bypass (s : State) : State :=
  mkState (capacity_bytes s) (lru s) (ready s) (inflight s) (retained_bytes s) (hits s) (misses s)
    (singleflight_waits s) (evictions s) (u64 (oversize_bypasses s + 1)).

Definition remove_key (key : MediaCacheKey) (l : list MediaCacheKey) : list MediaCacheKey := filter (fun k => k <> key) l.

Definition evict_one_locked : M State bool :=
  let! s := mget in
  match last (lru s) with
  | None => mret_ false
  | Some key =>
      match ready s !! key with
      | None => mthrow Abort_
      | Some r =>
          do! mthrow_if (bytes r >? retained_bytes s) Abort_;
          do! mput (mkState (capacity_bytes s) (removelast (lru s)) (delete key (ready s)) (inflight s)
                      (retained_bytes s - bytes r) (hits s) (misses s) (singleflight_waits s)
                      (u64 (evictions s + 1)) (oversize_bypasses s));
          mret_ true
      end
  end.

(** The critical section of [begin_prepare]; [flight] is the new flight if this becomes its producer. *)
Definition lookup_or_register (key : MediaCacheKey) (flight : Z) : M State (MediaCacheDisposition * option Ready * option Z) :=
  let! s := mget in
  match ready s !! key with
  | Some r =>
      do! mput (count_hit (set_lru (key :: remove_key key (lru s)) s));
      mret_ (Hit, Some r, None)
  | None =>
      match inflight s !! key with
      | Some f => do! mput (count_wait s); mret_ (SingleflightWaiter, None, Some f)
      | None =>
          do! mput (count_miss (set_inflight (<[key := flight]> (inflight s)) s));
          mret_ (Producer, None, Some flight)
      end
  end.

(** [while (retained_bytes > capacity_bytes - bytes) { if (!evict_one_locked()) { break; } }] *)
Fixpoint evict_until (fuel : nat) (room : Z) : M State unit :=
  match fuel with
  | O => mret_ tt
  | S fuel' =>
      let! s := mget in
      if retained_bytes s >? room then
        let! evicted := evict_one_locked in
        if evicted then evict_until fuel' room else mret_ tt
      else mret_ tt
  end.

(** The critical section of the task that built [m]. *)
Definition insert_ready (key : MediaCacheKey) (m : PreparedMedia) (size : Z) : M State unit :=
  let! s := mget in
  if size <=? capacity_bytes s then
    do! evict_until (S (length (lru s))) (capacity_bytes s - size);
    let! s := mget in
    if retained_bytes s <=? capacity_bytes s - size then
      mput (mkState (capacity_bytes s) (key :: lru s)
              (if is_some (ready s !! key) then ready s else <[key := mkReady m size]> (ready s)) (inflight s)
              (retained_bytes s + size) (hits s) (misses s) (singleflight_waits s) (evictions s) (oversize_bypasses s))
    else mput (count_bypass s)
  else mput (count_bypass s).

Definition erase_inflight (key : MediaCacheKey) : M State unit :=
  mmodify (fun s => set_inflight (delete key (inflight s)) s).

(** ** The worker pool *)

(** The tasks are those of flights. *)
Record HostWorkerPool : Set := mkPool {
  threads_count : nat; queue_capacity : nat; queue : list Z; active : nat; stopping : bool;
}.

Definition make_pool (threads queue_capacity : nat) : result HostWorkerPool :=
  do* throw_if (threads =? 0)%nat InvalidArgument;
  do* throw_if (queue_capacity =? 0)%nat InvalidArgument;
  Ok (mkPool threads queue_capacity [] 0 false).

(** One turn of the loop of [enqueue]: whether the task was taken. *)
Definition enqueue (task : Z) : M HostWorkerPool bool :=
  let! p := mget in
  do! mthrow_if (stopping p) RuntimeError;
  if (length (queue p) <? queue_capacity p)%nat then
    do! mput (mkPool (threads_count p) (queue_capacity p) (queue p ++ [task]) (active p) (stopping p));
    mret_ true
  else mret_ false.

(** A worker that finds a task takes the first one. *)
Definition take_task : M HostWorkerPool (option Z) :=
  let! p := mget in
  match queue p with
  | [] => mret_ None
  | task :: rest =>
      do! mput (mkPool (threads_count p) (queue_capacity p) rest (S (active p)) (stopping p));
      mret_ (Some task)
  end.

Definition finish_task : M HostWorkerPool unit :=
  let! p := mget in
  do! mthrow_if (active p =? 0)%nat Abort_;
  mput (mkPool (threads_count p) (queue_capacity p) (queue p) (pred (active p)) (stopping p)).

Definition request_stop (p : HostWorkerPool) : HostWorkerPool :=
  mkPool (threads_count p) (queue_capacity p) (queue p) (active p) true.

(** ** Threads *)

(** Where the producer of a flight is: about to submit its task; in the queue; on a worker; with a result
    ([worker]: on a worker, or in the submitting thread after a failure), which is then published in the
    flight; with the flight no longer registered, on a worker that is about to return. *)
Inductive phase : Set :=
| Submitting
| Queued
| Running
| Built (worker : bool) (built : option PreparedMedia) (error : option exn) (size : Z)
| Published (worker : bool)
| Returning.

Record World : Set := mkWorld {
  account : MemoryAccount; gate : MediaPreparationGate; cache : State; pool : HostWorkerPool;
  flights : gmap Z MediaCacheFlight; phases : gmap Z phase;
  payloads : gmap Z Z;                (**r the payloads alive and their reserved bytes *)
}.

Definition resolve_threads (requested hardware_concurrency : Z) : Z :=
  if negb (requested =? 0) then requested
  else Z.min (if hardware_concurrency =? 0 then 1 else hardware_concurrency) 16.

Definition make_cache (capacity live_capacity requested_threads hardware_concurrency maximum_request_bytes : Z) : result World :=
  let threads := resolve_threads requested_threads hardware_concurrency in
  let* p := make_pool (Z.to_nat threads) (Z.to_nat (Z.max 64 (threads * 8))) in
  do* throw_if (live_capacity =? 0) InvalidArgument;
  do* throw_if ((threads =? 0) || (threads >? 64)) InvalidArgument;
  do* throw_if (maximum_request_bytes >? live_capacity) InvalidArgument;
  Ok (mkWorld (mkAccount live_capacity 0) (mkGate (gate_maximum live_capacity maximum_request_bytes) 0)
        (mkState capacity [] ∅ ∅ 0 0 0 0 0 0) p ∅ ∅ ∅).

Definition set_cache (c : State) (w : World) : World :=
  mkWorld (account w) (gate w) c (pool w) (flights w) (phases w) (payloads w).
Definition set_pool (p : HostWorkerPool) (w : World) : World :=
  mkWorld (account w) (gate w) (cache w) p (flights w) (phases w) (payloads w).
Definition set_gate (g : MediaPreparationGate) (w : World) : World :=
  mkWorld (account w) g (cache w) (pool w) (flights w) (phases w) (payloads w).
Definition set_payloads (a : MemoryAccount) (ps : gmap Z Z) (w : World) : World :=
  mkWorld a (gate w) (cache w) (pool w) (flights w) (phases w) ps.
Definition set_phases (ps : gmap Z phase) (w : World) : World :=
  mkWorld (account w) (gate w) (cache w) (pool w) (flights w) ps (payloads w).
Definition set_flight (f : Z) (fl : MediaCacheFlight) (w : World) : World :=
  mkWorld (account w) (gate w) (cache w) (pool w) (<[f := fl]> (flights w)) (phases w) (payloads w).

Definition new_flight (key : MediaCacheKey) : MediaCacheFlight := mkFlight key None None 0 false.

(** What the task does with the outcome of the builder and of the check after it. *)
Definition task_result (built : result PreparedMedia) (checked : result unit) : option PreparedMedia * result Z :=
  match built with
  | Err e => (None, Err e)
  | Ok m => (Some m, let* _ := checked in payload_bytes m)
  end.
Definition run_task (key : MediaCacheKey) (built : result PreparedMedia) (checked : result unit)
  : M State (option PreparedMedia * option exn * Z) :=
  match task_result built checked with
  | (Some m, Ok size) => do! insert_ready key m size; mret_ (Some m, None, size)
  | (m, Err e) => mret_ (m, Some e, 0)
  | (None, Ok _) => mret_ (None, None, 0)
  end.

Definition publish (fl : MediaCacheFlight) (built : option PreparedMedia) (error : option exn) (size : Z) : MediaCacheFlight :=
  mkFlight (fl_key fl) built error size true.

Record PendingMedia : Set := mkPending {
  disposition : MediaCacheDisposition; pending_ready : option PreparedMedia; pending_flight : option Z;
}.

(** [MediaCacheRequestStats], without its time. *)
Record MediaCacheRequestStats : Set := mkStats {
  st_hits : Z; st_misses : Z; st_waits : Z; built_patch_bytes : Z; reused_patch_bytes : Z;
}.

(** One turn of [await] on a flight: [Ok None] when it waits again, the media otherwise. *)
Definition await_flight (d : MediaCacheDisposition) (fl : MediaCacheFlight) (checked : result unit)
  : M MediaCacheRequestStats (option PreparedMedia) :=
  if fl_done fl then
    match fl_error fl with
    | Some e => mthrow e
    | None =>
        do! mmodify (fun s =>
          match d with
          | Producer => mkStats (st_hits s) (u64 (st_misses s + 1)) (st_waits s) (u64 (built_patch_bytes s + fl_bytes fl))
                          (reused_patch_bytes s)
          | _ => mkStats (st_hits s) (st_misses s) (u64 (st_waits s + 1)) (built_patch_bytes s)
                   (u64 (reused_patch_bytes s + fl_bytes fl))
          end);
        mret_ (fl_result fl)
    end
  else do! mlift checked; mret_ None.

Definition await (flights : gmap Z MediaCacheFlight) (pending : PendingMedia) (checked rechecked : result unit)
  : M MediaCacheRequestStats (option PreparedMedia) :=
  do! mlift checked;
  match disposition pending with
  | Hit =>
      do! mmodify (fun s => mkStats (u64 (st_hits s + 1)) (st_misses s) (st_waits s) (built_patch_bytes s) (reused_patch_bytes s));
      match pending_ready pending with
      | None => mthrow LogicError
      | Some m =>
          let! n := mlift (payload_bytes m) in
          do! mmodify (fun s => mkStats (st_hits s) (st_misses s) (st_waits s) (built_patch_bytes s) (u64 (reused_patch_bytes s + n)));
          mret_ (Some m)
      end
  | d =>
      match pending_flight pending ≫= (fun f => flights !! f) with
      | None => mthrow LogicError
      | Some fl => await_flight d fl rechecked
      end
  end.

(** What a task holds. *)
Definition phase_media (ph : phase) : option PreparedMedia := match ph with Built _ m _ _ => m | _ => None end.

(** A payload that the cache, a flight or a task refers to. *)
Definition refers (m : option PreparedMedia) (p : Z) : Prop := exists x pl, m = Some x /\ payload x = Some pl /\ payload_id pl = p.
Definition referenced (w : World) (p : Z) : Prop :=
  (exists k r, ready (cache w) !! k = Some r /\ refers (Some (media r)) p) \/
  (exists f fl, flights w !! f = Some fl /\ refers (fl_result fl) p) \/
  (exists f ph, phases w !! f = Some ph /\ refers (phase_media ph) p).

(** What a builder returns was allocated by [allocate_payload] and is alive. *)
Definition allocated (w : World) (m : PreparedMedia) : Prop :=
  forall pl, payload m = Some pl -> payloads w !! payload_id pl = Some (patch_elements pl * sizeof_u16).

(** What moves a flight on: the pool takes or refuses its task, a worker runs it, publishes the result and
    returns. *)
Inductive work_step : World -> World -> Prop :=
| step_enqueue w f p' :
    phases w !! f = Some Submitting -> enqueue f (pool w) = (Ok true, p') ->
    work_step w (set_phases (<[f := Queued]> (phases w)) (set_pool p' w))
| step_refused w f e p' :
    phases w !! f = Some Submitting -> enqueue f (pool w) = (Err e, p') ->
    work_step w (set_phases (<[f := Built false None (Some e) 0]> (phases w)) (set_pool p' w))
| step_take w f p' :
    (active (pool w) < threads_count (pool w))%nat -> take_task (pool w) = (Ok (Some f), p') ->
    work_step w (set_phases (<[f := Running]> (phases w)) (set_pool p' w))
| step_build w f fl built checked m e n c' :
    phases w !! f = Some Running -> flights w !! f = Some fl ->
    (forall x, built = Ok x -> allocated w x) ->
    run_task (fl_key fl) built checked (cache w) = (Ok (m, e, n), c') ->
    work_step w (set_phases (<[f := Built true m e n]> (phases w)) (set_cache c' w))
| step_publish w f fl wk m e n :
    phases w !! f = Some (Built wk m e n) -> flights w !! f = Some fl ->
    work_step w (set_phases (<[f := Published wk]> (phases w)) (set_flight f (publish fl m e n) w))
| step_erase w f fl wk c' :
    phases w !! f = Some (Published wk) -> flights w !! f = Some fl ->
    erase_inflight (fl_key fl) (cache w) = (Ok tt, c') ->
    work_step w (set_phases (if wk then <[f := Returning]> (phases w) else delete f (phases w)) (set_cache c' w))
| step_return w f p' :
    phases w !! f = Some Returning -> finish_task (pool w) = (Ok tt, p') ->
    work_step w (set_phases (delete f (phases w)) (set_pool p' w)).

Inductive step : World -> World -> Prop :=
| step_work w w' : work_step w w' -> step w w'
| step_begin w key f d r fl c' :
    flights w !! f = None -> phases w !! f = None ->
    lookup_or_register key f (cache w) = (Ok (d, r, fl), c') ->
    step w (match d with
            | Producer => set_phases (<[f := Submitting]> (phases w)) (set_flight f (new_flight key) (set_cache c' w))
            | _ => set_cache c' w
            end)
| step_cancelled w f control now e :        (**r the checkpoint of the producer throws *)
    phases w !! f = Some Submitting -> check_preparation_control control now = Err e ->
    step w (set_phases (<[f := Built false None (Some e) 0]> (phases w)) w)
| step_allocate w p elements n a' :
    0 <= elements -> payloads w !! p = None -> allocation_bytes (limit (account w)) elements = Ok n ->
    try_reserve n (account w) = (Ok true, a') ->
    step w (set_payloads a' (<[p := n]> (payloads w)) w)
| step_evict w b c' :                       (**r an allocation that found no room *)
    evict_one_locked (cache w) = (Ok b, c') -> step w (set_cache c' w)
| step_drop w p n a' :                      (**r the last reference to a payload is gone *)
    payloads w !! p = Some n -> ~ referenced w p -> release n (account w) = (Ok tt, a') ->
    step w (set_payloads a' (delete p (payloads w)) w)
| step_forget w f :                         (**r the last reference to a flight is gone *)
    phases w !! f = None -> (forall k, inflight (cache w) !! k <> Some f) ->
    step w (mkWorld (account w) (gate w) (cache w) (pool w) (delete f (flights w)) (phases w) (payloads w))
| step_acquire w b g' : acquire_permit (gate w) = (Ok b, g') -> step w (set_gate g' w)
| step_release w g' : 0 < gate_active (gate w) -> release_permit (gate w) = (Ok tt, g') -> step w (set_gate g' w)
| step_stop w : step w (set_pool (request_stop (pool w)) w).
