(* ===== verification/MediaCacheProofs.v ===== *)
(** * The media cache: its memory, its flights, its progress

    [cache_ok] is the invariant of the cache alone; [world_ok] that of all threads together, kept by every
    step.  [rank] decreases with every step of the workers. *)
From stdpp Require Import gmap.
From S2P Require Import Prelude PrefixIdentity MediaCache.
#[local] Open Scope Z_scope.

(** ** Sums over maps *)

Section Sums.
Context {K A : Type} `{Countable K} (f : A -> Z).

Definition msum (m : gmap K A) : Z := foldr (fun p acc => f p.2 + acc) 0 (map_to_list m).

Lemma msum_perm (l l' : list (K * A)) : l ≡ₚ l' ->
  foldr (fun p acc => f p.2 + acc) 0 l = foldr (fun p acc => f p.2 + acc) 0 l'.
Proof. induction 1; cbn; lia. Qed.

Lemma msum_empty : msum ∅ = 0.
Proof. unfold msum. by rewrite map_to_list_empty. Qed.

Lemma msum_insert m k a : m !! k = None -> msum (<[k := a]> m) = f a + msum m.
Proof. intros Hk. unfold msum. by rewrite (msum_perm _ _ (map_to_list_insert m k a Hk)). Qed.

Lemma msum_delete m k a : m !! k = Some a -> msum (delete k m) = msum m - f a.
Proof. intros Hk. unfold msum. rewrite <- (msum_perm _ _ (map_to_list_delete m k a Hk)). cbn. lia. Qed.

Lemma msum_update m k a b : m !! k = Some a -> msum (<[k := b]> m) = msum m - f a + f b.
Proof.
  intros Hk. rewrite <- insert_delete_eq, msum_insert by apply lookup_delete_eq. rewrite (msum_delete m k a Hk). lia.
Qed.

Lemma msum_bounds lo hi m : 0 <= lo -> (forall k a, m !! k = Some a -> lo <= f a <= hi) ->
  lo * Z.of_nat (base.size m) <= msum m <= hi * Z.of_nat (base.size m).
Proof.
  intros Hlo. induction m as [|k a m Hk IH] using map_ind; intros Hm; [rewrite msum_empty, map_size_empty; lia|].
  rewrite msum_insert, map_size_insert_None by done. destruct (Hm k a); [by rewrite lookup_insert_eq|].
  destruct IH; [|lia]. intros k' a' Hk'. apply (Hm k'). rewrite lookup_insert_ne; [done|]. by intros ->; rewrite Hk in Hk'.
Qed.

Lemma msum_nonneg m : (forall k a, m !! k = Some a -> 0 <= f a) -> 0 <= msum m.
Proof.
  induction m as [|k a m Hk IH] using map_ind; intros Hm; [by rewrite msum_empty|].
  rewrite msum_insert by done. enough (0 <= msum m) by (specialize (Hm k a ltac:(by rewrite lookup_insert_eq)); lia).
  apply IH. intros k' a' Hk'. apply (Hm k'). rewrite lookup_insert_ne; [done|]. by intros ->; rewrite Hk in Hk'.
Qed.

Lemma msum_ge m k a : (forall k a, m !! k = Some a -> 0 <= f a) -> m !! k = Some a -> f a <= msum m.
Proof.
  intros Hm Hk. enough (0 <= msum (delete k m)) by (rewrite (msum_delete m k a Hk) in *; lia).
  apply msum_nonneg. intros k' a' Hk'. apply (Hm k'). by apply lookup_delete_Some in Hk' as [_ ?].
Qed.
End Sums.

(** ** The cache alone *)

Definition entry_bytes (c : State) (k : MediaCacheKey) : Z := from_option bytes 0 (ready c !! k).
Definition lru_bytes (c : State) : Z := foldr (fun k acc => entry_bytes c k + acc) 0 (lru c).

Record cache_ok (c : State) : Prop := {
  lru_nodup : NoDup (lru c);
  lru_ready : forall k, k ∈ lru c <-> is_Some (ready c !! k);
  retained_exact : retained_bytes c = lru_bytes c;
  retained_bounded : retained_bytes c <= capacity_bytes c;
  ready_nonneg : forall k r, ready c !! k = Some r -> 0 <= bytes r;
}.

Lemma entry_bytes_nonneg c k : cache_ok c -> 0 <= entry_bytes c k.
Proof. intros Hc. unfold entry_bytes. destruct (ready c !! k) as [r|] eqn:E; cbn; [|lia]. exact (ready_nonneg _ Hc _ _ E). Qed.

Lemma sum_app (f : MediaCacheKey -> Z) l k :
  foldr (fun k acc => f k + acc) 0 (l ++ [k]) = foldr (fun k acc => f k + acc) 0 l + f k.
Proof. induction l; cbn; lia. Qed.
Lemma sum_nonneg (f : MediaCacheKey -> Z) l : (forall k, 0 <= f k) -> 0 <= foldr (fun k acc => f k + acc) 0 l.
Proof. intros Hf. induction l as [|k l IH]; cbn; [lia|]. specialize (Hf k). lia. Qed.
Lemma sum_ext (f g : MediaCacheKey -> Z) l : (forall k, k ∈ l -> f k = g k) ->
  foldr (fun k acc => f k + acc) 0 l = foldr (fun k acc => g k + acc) 0 l.
Proof. induction l as [|k l IH]; intros Hfg; cbn; [done|]. rewrite (Hfg k) by left. rewrite IH; [done|]. intros. apply Hfg. by right. Qed.

Lemma retained_nonneg c : cache_ok c -> 0 <= retained_bytes c.
Proof. intros Hc. rewrite (retained_exact _ Hc). apply sum_nonneg. intros k. by apply entry_bytes_nonneg. Qed.

(** What eviction leaves is part of what was there. *)
Record shrunk (c c' : State) : Prop := {
  shrunk_ok : cache_ok c';
  shrunk_ready : ready c' ⊆ ready c;
  shrunk_inflight : inflight c' = inflight c;
  shrunk_capacity : capacity_bytes c' = capacity_bytes c;
}.

Lemma shrunk_refl c : cache_ok c -> shrunk c c.
Proof. by split. Qed.

Lemma evict_shrinks c : cache_ok c -> exists b c', evict_one_locked c = (Ok b, c') /\ shrunk c c' /\
  if b then (length (lru c') < length (lru c))%nat else c' = c /\ lru c = [].
Proof.
  intros Hc. unfold evict_one_locked. destruct (lru c) as [|k0 l0] eqn:El using rev_ind.
  { exists false, c. unfold mbind_, mget. rewrite El. cbn. split; [done|]. split; [by apply shrunk_refl|done]. }
  clear IHl0. unfold mbind_ at 1, mget. rewrite El, last_snoc, removelast_last.
  assert (Hin : k0 ∈ lru c) by (rewrite El; set_solver).
  destruct (proj1 (lru_ready _ Hc k0) Hin) as [r Hr]. rewrite Hr.
  assert (Hk0 : k0 ∉ l0) by (pose proof (lru_nodup _ Hc) as Hn; rewrite El in Hn; apply NoDup_app in Hn as (_ & Hn & _); set_solver).
  pose proof (retained_exact _ Hc) as Hsum. unfold lru_bytes in Hsum. rewrite El, sum_app in Hsum.
  unfold entry_bytes at 2 in Hsum. rewrite Hr in Hsum. cbn in Hsum.
  pose proof (sum_nonneg (entry_bytes c) l0 (fun k => entry_bytes_nonneg c k Hc)) as Hpos.
  unfold mbind_, mthrow_if, mlift, throw_if. destruct (bytes r >? retained_bytes c) eqn:Hb; [lia|]. cbn.
  eexists true, _. split; [done|]. split.
  2: { cbn. rewrite length_app. cbn. lia. }
  split; cbn; [|apply delete_subseteq|done|done]. split; cbn.
  - pose proof (lru_nodup _ Hc) as Hn. rewrite El in Hn. by apply NoDup_app in Hn as (? & _).
  - intros k. destruct (decide (k = k0)) as [->|Hne].
    + rewrite lookup_delete_eq. split; [done|by intros [? ?]].
    + rewrite lookup_delete_ne by done. rewrite <- (lru_ready _ Hc), El. set_solver.
  - rewrite Hsum. unfold lru_bytes. cbn. trans (foldr (fun k acc => entry_bytes c k + acc) 0 l0); [lia|].
    apply sum_ext. intros k Hk. unfold entry_bytes. cbn. rewrite lookup_delete_ne; [done|]. by intros ->.
  - pose proof (retained_bounded _ Hc). pose proof (ready_nonneg _ Hc _ _ Hr). lia.
  - intros k r' Hk. apply lookup_delete_Some in Hk as [_ Hk]. exact (ready_nonneg _ Hc _ _ Hk).
Qed.

Lemma shrunk_trans c1 c2 c3 : shrunk c1 c2 -> shrunk c2 c3 -> shrunk c1 c3.
Proof. intros [] []. split; [done|by etrans|congruence|congruence]. Qed.

Lemma evict_until_ok room : 0 <= room -> forall fuel c, cache_ok c -> (length (lru c) < fuel)%nat ->
  exists c', evict_until fuel room c = (Ok tt, c') /\ shrunk c c' /\ retained_bytes c' <= room.
Proof.
  intros Hroom. induction fuel as [|fuel IH]; intros c Hc Hf; [lia|]. cbn. unfold mbind_ at 1, mget.
  destruct (retained_bytes c >? room) eqn:Hr.
  2: { exists c. split; [done|]. split; [by apply shrunk_refl|lia]. }
  destruct (evict_shrinks c Hc) as (b & c1 & He & Hs & Hb). unfold mbind_. rewrite He. destruct b.
  - destruct (IH c1) as (c2 & E2 & Hs2 & Hle); [apply Hs|lia|]. exists c2. split; [done|]. split; [by eapply shrunk_trans|done].
  - destruct Hb as [-> Hl]. exfalso. pose proof (retained_exact _ Hc) as Hx. unfold lru_bytes in Hx. rewrite Hl in Hx. cbn in Hx. lia.
Qed.

(** A result that fits is kept; of the others some go. *)
Lemma insert_ready_ok key m size c : cache_ok c -> ready c !! key = None -> 0 <= size ->
  exists c', insert_ready key m size c = (Ok tt, c') /\ cache_ok c' /\ inflight c' = inflight c /\
    capacity_bytes c' = capacity_bytes c /\
    (forall k r, ready c' !! k = Some r -> ready c !! k = Some r \/ (k = key /\ r = mkReady m size)) /\
    (size <= capacity_bytes c -> ready c' !! key = Some (mkReady m size)).
Proof.
  intros Hc Hk Hsize. unfold insert_ready. unfold mbind_ at 1, mget at 1. destruct (size <=? capacity_bytes c) eqn:Hfit.
  2: { eexists. split; [done|]. cbn. repeat split; try apply Hc; [by left|lia]. }
  destruct (evict_until_ok (capacity_bytes c - size) ltac:(lia) (S (length (lru c))) c Hc ltac:(lia)) as (c1 & E1 & Hs & Hle).
  unfold mbind_. rewrite E1. unfold mget. rewrite (shrunk_capacity _ _ Hs).
  destruct (retained_bytes c1 <=? capacity_bytes c - size) eqn:Hr; [|lia].
  assert (Hk1 : ready c1 !! key = None).
  { apply eq_None_not_Some. intros [r Hin]. pose proof (lookup_weaken _ _ _ _ Hin (shrunk_ready _ _ Hs)). congruence. }
  rewrite Hk1. cbn [is_some]. eexists. split; [done|]. split; [|cbn; split; [apply Hs|]].
  2: { split; [done|]. split; [|intros _; apply lookup_insert_eq]. intros k r [[<- <-]|[_ Hin]]%lookup_insert_Some; [by right|left].
       exact (lookup_weaken _ _ _ _ Hin (shrunk_ready _ _ Hs)). }
  pose proof (shrunk_ok _ _ Hs) as Hc1. assert (Hnot : key ∉ lru c1).
  { rewrite (lru_ready _ Hc1), Hk1. by intros [? ?]. }
  split; cbn.
  - apply NoDup_cons. split; [done|apply Hc1].
  - intros k. destruct (decide (k = key)) as [->|Hne].
    + rewrite lookup_insert_eq. split; [done|by left].
    + rewrite lookup_insert_ne by done. rewrite <- (lru_ready _ Hc1). set_solver.
  - rewrite (retained_exact _ Hc1). unfold lru_bytes. cbn. unfold entry_bytes at 2. cbn. rewrite lookup_insert_eq. cbn.
    trans (size + foldr (fun k acc => entry_bytes c1 k + acc) 0 (lru c1)); [unfold lru_bytes; lia|]. f_equal.
    apply sum_ext. intros k Hin. unfold entry_bytes. cbn.
    rewrite lookup_insert_ne; [done|]. by intros ->.
  - lia.
  - intros k r [[<- <-]|[_ Hin]]%lookup_insert_Some; [done|]. exact (ready_nonneg _ Hc1 _ _ Hin).
Qed.

(** ** All threads together *)

Definition worker_phase (ph : phase) : bool :=
  match ph with Running | Built true _ _ _ | Published true | Returning => true | _ => false end.
Definition done_phase (ph : phase) : bool := match ph with Published _ | Returning => true | _ => false end.
Definition registered (ph : phase) : bool := match ph with Returning => false | _ => true end.
(** The task has not run yet, or is running. *)
Definition pending_phase (ph : phase) : bool := match ph with Submitting | Queued | Running => true | _ => false end.
Definition weight (ph : phase) : Z := if worker_phase ph then 1 else 0.

Record pool_ok (w : World) : Prop := {
  pool_active : Z.of_nat (active (pool w)) = msum weight (phases w);
  pool_threads : (active (pool w) <= threads_count (pool w))%nat;
  pool_nodup : NoDup (queue (pool w));
  pool_queue : forall f, f ∈ queue (pool w) <-> phases w !! f = Some Queued;
  pool_length : (length (queue (pool w)) <= queue_capacity (pool w))%nat;
  pool_positive : (0 < threads_count (pool w))%nat /\ (0 < queue_capacity (pool w))%nat;
}.

Record flights_ok (w : World) : Prop := {
  flight_of_phase : forall f ph, phases w !! f = Some ph ->
    exists fl, flights w !! f = Some fl /\ fl_done fl = done_phase ph /\ (done_phase ph = false -> fl = new_flight (fl_key fl));
  undone_phase : forall f fl, flights w !! f = Some fl -> fl_done fl = false -> is_Some (phases w !! f);
  inflight_registered : forall k f, inflight (cache w) !! k = Some f <->
    exists fl ph, flights w !! f = Some fl /\ fl_key fl = k /\ phases w !! f = Some ph /\ registered ph = true;
  pending_absent : forall f fl ph, flights w !! f = Some fl -> phases w !! f = Some ph -> pending_phase ph = true ->
    ready (cache w) !! fl_key fl = None;
}.

Record memory_ok (w : World) : Prop := {
  memory_exact : live (account w) = msum id (payloads w);
  memory_bounded : live (account w) <= limit (account w);
  memory_positive : forall p n, payloads w !! p = Some n -> 0 < n;
  gate_bounded : 0 <= gate_active (gate w) <= maximum (gate w);
  referenced_alive : forall p, referenced w p -> is_Some (payloads w !! p);
  ready_alive : forall k r, ready (cache w) !! k = Some r ->
    exists pl, payload (media r) = Some pl /\ payloads w !! payload_id pl = Some (bytes r);
}.

Record world_ok (w : World) : Prop := {
  ok_cache : cache_ok (cache w); ok_pool : pool_ok w; ok_flights : flights_ok w; ok_memory : memory_ok w;
}.

(** *** The pool *)

Lemma weight_bounds ph : 0 <= weight ph <= 1.
Proof. unfold weight. destruct (worker_phase ph); lia. Qed.

(** A flight goes from one phase to another, neither of them in the queue, and its worker remains what it was. *)
Lemma pool_move w f ph ph' w' : pool_ok w -> phases w !! f = Some ph -> ph <> Queued -> ph' <> Queued ->
  worker_phase ph' = worker_phase ph -> pool w' = pool w -> phases w' = <[f := ph']> (phases w) -> pool_ok w'.
Proof.
  intros Hp Hf Hq Hq' Hwk Epool Ephases. split; rewrite ?Epool, ?Ephases; try apply Hp.
  - rewrite (pool_active _ Hp), (msum_update _ _ _ _ _ Hf). unfold weight. rewrite Hwk. lia.
  - intros g. rewrite (pool_queue _ Hp). destruct (decide (g = f)) as [->|Hne].
    + rewrite lookup_insert_eq, Hf. split; congruence.
    + by rewrite lookup_insert_ne.
Qed.

Lemma pool_same w w' : pool_ok w -> pool w' = pool w -> phases w' = phases w -> pool_ok w'.
Proof. intros Hp E1 E2. split; rewrite ?E1, ?E2; apply Hp. Qed.

(** A flight that no worker has comes or goes. *)
Lemma pool_remove w f ph w' : pool_ok w -> phases w !! f = Some ph -> ph <> Queued -> worker_phase ph = false ->
  pool w' = pool w -> phases w' = delete f (phases w) -> pool_ok w'.
Proof.
  intros Hp Hf Hq Hwk Epool Ephases. split; rewrite ?Epool, ?Ephases; try apply Hp.
  - rewrite (pool_active _ Hp), (msum_delete _ _ _ _ Hf). unfold weight. rewrite Hwk. lia.
  - intros g. rewrite (pool_queue _ Hp). destruct (decide (g = f)) as [->|Hne].
    + rewrite lookup_delete_eq, Hf. split; congruence.
    + by rewrite lookup_delete_ne.
Qed.

Lemma pool_submitting w f w' : pool_ok w -> phases w !! f = None -> pool w' = pool w ->
  phases w' = <[f := Submitting]> (phases w) -> pool_ok w'.
Proof.
  intros Hp Hf Epool Ephases. split; rewrite ?Epool, ?Ephases; try apply Hp.
  - rewrite (pool_active _ Hp), (msum_insert _ _ _ _ Hf). cbn. lia.
  - intros g. rewrite (pool_queue _ Hp). destruct (decide (g = f)) as [->|Hne].
    + rewrite lookup_insert_eq, Hf. split; congruence.
    + by rewrite lookup_insert_ne.
Qed.

Lemma pool_enqueue w f p' w' : pool_ok w -> phases w !! f = Some Submitting -> enqueue f (pool w) = (Ok true, p') ->
  pool w' = p' -> phases w' = <[f := Queued]> (phases w) -> pool_ok w'.
Proof.
  intros Hp Hf He <- Ephases. revert He. unfold enqueue, mbind_, mget, mthrow_if, mlift, throw_if.
  destruct (stopping (pool w)); [done|]. case_if Hl; [|done]. intros [= Epool]. apply Nat.ltb_lt in Hl.
  assert (Hnew : f ∉ queue (pool w)) by (rewrite (pool_queue _ Hp), Hf; done).
  split; rewrite <- ?Epool, ?Ephases; cbn; try apply Hp.
  - rewrite (pool_active _ Hp), (msum_update _ _ _ _ _ Hf). cbn. lia.
  - apply NoDup_app. split; [apply Hp|]. split; [set_solver|apply NoDup_singleton].
  - intros g. destruct (decide (g = f)) as [->|Hne].
    + rewrite lookup_insert_eq. set_solver.
    + rewrite lookup_insert_ne by done. rewrite <- (pool_queue _ Hp). set_solver.
  - rewrite length_app. cbn. lia.
Qed.

Lemma pool_take w f p' w' : pool_ok w -> (active (pool w) < threads_count (pool w))%nat ->
  take_task (pool w) = (Ok (Some f), p') -> pool w' = p' -> phases w' = <[f := Running]> (phases w) -> pool_ok w'.
Proof.
  intros Hp Hlt He <- Ephases. revert He. unfold take_task, mbind_, mget.
  destruct (queue (pool w)) as [|g rest] eqn:Eq; [done|]. intros [= -> Epool].
  assert (Hf : phases w !! f = Some Queued) by (rewrite <- (pool_queue _ Hp), Eq; set_solver).
  pose proof (pool_nodup _ Hp) as Hn. rewrite Eq in Hn. apply NoDup_cons in Hn as [Hnot Hn].
  split; rewrite <- ?Epool, ?Ephases; cbn; try apply Hp; try done.
  - rewrite Nat2Z.inj_succ, (pool_active _ Hp), (msum_update _ _ _ _ _ Hf). cbn. lia.
  - intros h. destruct (decide (h = f)) as [->|Hne].
    + rewrite lookup_insert_eq. split; [done|congruence].
    + rewrite lookup_insert_ne by done. rewrite <- (pool_queue _ Hp), Eq. set_solver.
  - pose proof (pool_length _ Hp) as Hlen. rewrite Eq in Hlen. cbn in Hlen. lia.
Qed.

Lemma take_queued w f p' : pool_ok w -> take_task (pool w) = (Ok (Some f), p') -> phases w !! f = Some Queued.
Proof.
  intros Hp. unfold take_task, mbind_, mget. destruct (queue (pool w)) as [|g rest] eqn:Eq; [done|]. intros [= -> _].
  rewrite <- (pool_queue _ Hp), Eq. by left.
Qed.

Lemma active_positive w f ph : pool_ok w -> phases w !! f = Some ph -> worker_phase ph = true -> (0 < active (pool w))%nat.
Proof.
  intros Hp Hf Hwk. pose proof (msum_ge weight (phases w) f ph (fun _ a _ => proj1 (weight_bounds a)) Hf) as Hge.
  unfold weight at 1 in Hge. rewrite Hwk, <- (pool_active _ Hp) in Hge. lia.
Qed.

Lemma pool_finish w f p' w' : pool_ok w -> phases w !! f = Some Returning -> finish_task (pool w) = (Ok tt, p') ->
  pool w' = p' -> phases w' = delete f (phases w) -> pool_ok w'.
Proof.
  intros Hp Hf He <- Ephases. pose proof (active_positive _ _ _ Hp Hf eq_refl) as Hpos. revert He.
  unfold finish_task, mbind_, mget, mthrow_if, mlift, throw_if. case_if Ha; [done|]. intros [= Epool].
  pose proof (pool_threads _ Hp). split; rewrite <- ?Epool, ?Ephases; cbn; try apply Hp.
  - rewrite Nat2Z.inj_pred, (pool_active _ Hp), (msum_delete _ _ _ _ Hf) by done. cbn. lia.
  - lia.
  - intros g. rewrite (pool_queue _ Hp). destruct (decide (g = f)) as [->|Hne].
    + rewrite lookup_delete_eq, Hf. split; congruence.
    + by rewrite lookup_delete_ne.
Qed.

(** *** The flights *)

(** One flight at most is registered for a key. *)
Lemma registered_unique w f g fl gl ph ph' : flights_ok w ->
  flights w !! f = Some fl -> phases w !! f = Some ph -> registered ph = true ->
  flights w !! g = Some gl -> phases w !! g = Some ph' -> registered ph' = true -> fl_key fl = fl_key gl -> f = g.
Proof.
  intros Hw Hf Hpf Hrf Hg Hpg Hrg Hk.
  assert (H1 : inflight (cache w) !! fl_key fl = Some f) by (apply (inflight_registered _ Hw); eauto 6).
  assert (H2 : inflight (cache w) !! fl_key fl = Some g) by (apply (inflight_registered _ Hw); eauto 6).
  congruence.
Qed.

Lemma pending_registered ph : pending_phase ph = true -> registered ph = true.
Proof. by destruct ph. Qed.

(** Nothing changes for the flights; of the cache, entries go. *)
Lemma flights_same w w' : flights_ok w -> flights w' = flights w -> phases w' = phases w ->
  inflight (cache w') = inflight (cache w) -> ready (cache w') ⊆ ready (cache w) -> flights_ok w'.
Proof.
  intros Hw E1 E2 E3 Hr. split; rewrite ?E1, ?E2, ?E3; try apply Hw.
  intros f fl ph Hf Hp Hpend. pose proof (pending_absent _ Hw _ _ _ Hf Hp Hpend) as Hn.
  apply eq_None_not_Some. intros [r Hin]. pose proof (lookup_weaken _ _ _ _ Hin Hr). congruence.
Qed.

(** A flight that is not done moves on and remains so. *)
Lemma flights_move w w' f ph ph' : flights_ok w -> phases w !! f = Some ph -> done_phase ph = false -> done_phase ph' = false ->
  (pending_phase ph' = true -> pending_phase ph = true) ->
  flights w' = flights w -> phases w' = <[f := ph']> (phases w) -> inflight (cache w') = inflight (cache w) ->
  (forall g fl, flights w !! g = Some fl -> g <> f \/ pending_phase ph' = true ->
     ready (cache w) !! fl_key fl = None -> (exists ph, phases w !! g = Some ph /\ registered ph = true) ->
     ready (cache w') !! fl_key fl = None) -> flights_ok w'.
Proof.
  intros Hw Hf Hd Hd' Hpend E1 E2 E3 Hr.
  assert (Hreg : forall ph, done_phase ph = false -> registered ph = true) by (by intros []).
  split; rewrite ?E1, ?E2, ?E3.
  - intros g phg Hg. destruct (decide (g = f)) as [->|Hne].
    + rewrite lookup_insert_eq in Hg. injection Hg as <-. destruct (flight_of_phase _ Hw _ _ Hf) as (fl & Hfl & Hdone & Hnew).
      exists fl. split; [done|]. split; [congruence|]. intros _. by apply Hnew.
    + rewrite lookup_insert_ne in Hg by done. by apply Hw.
  - intros g fl Hg Hu. destruct (decide (g = f)) as [->|Hne]; [by rewrite lookup_insert_eq|].
    rewrite lookup_insert_ne by done. by apply (undone_phase _ Hw _ _ Hg).
  - intros k g. rewrite (inflight_registered _ Hw). destruct (decide (g = f)) as [->|Hne].
    + rewrite lookup_insert_eq, Hf. split; intros (fl & p & ? & ? & [= <-] & ?); eauto 8.
    + by rewrite lookup_insert_ne.
  - intros g fl phg Hg Hp Hpg. destruct (decide (g = f)) as [->|Hne].
    + rewrite lookup_insert_eq in Hp. injection Hp as <-. specialize (Hpend Hpg).
      apply (Hr f fl Hg); [by right|by apply (pending_absent _ Hw _ _ _ Hg Hf)|]. eauto.
    + rewrite lookup_insert_ne in Hp by done.
      apply (Hr g fl Hg); [by left|by apply (pending_absent _ Hw _ _ _ Hg Hp)|]. eauto using pending_registered.
Qed.

Lemma flights_publish w w' f fl wk m e n : flights_ok w -> phases w !! f = Some (Built wk m e n) -> flights w !! f = Some fl ->
  flights w' = <[f := publish fl m e n]> (flights w) -> phases w' = <[f := Published wk]> (phases w) -> cache w' = cache w ->
  flights_ok w'.
Proof.
  intros Hw Hf Hfl E1 E2 E3. split; rewrite ?E1, ?E2, ?E3.
  - intros g phg. destruct (decide (g = f)) as [->|Hne].
    + rewrite !lookup_insert_eq. intros [= <-]. by eexists.
    + rewrite !lookup_insert_ne by done. apply Hw.
  - intros g gl. destruct (decide (g = f)) as [->|Hne].
    + rewrite !lookup_insert_eq. by intros [= <-].
    + rewrite !lookup_insert_ne by done. apply Hw.
  - intros k g. rewrite (inflight_registered _ Hw). destruct (decide (g = f)) as [->|Hne].
    + rewrite !lookup_insert_eq, Hf, Hfl. split; intros (gl & p & [= <-] & ? & [= <-] & ?); eauto 8.
    + by rewrite !lookup_insert_ne.
  - intros g gl phg. destruct (decide (g = f)) as [->|Hne].
    + rewrite !lookup_insert_eq. by intros _ [= <-].
    + rewrite !lookup_insert_ne by done. apply Hw.
Qed.

Lemma flights_erase w w' f fl wk : flights_ok w -> phases w !! f = Some (Published wk) -> flights w !! f = Some fl ->
  flights w' = flights w -> phases w' = (if wk then <[f := Returning]> (phases w) else delete f (phases w)) ->
  inflight (cache w') = delete (fl_key fl) (inflight (cache w)) -> ready (cache w') = ready (cache w) -> flights_ok w'.
Proof.
  intros Hw Hf Hfl E1 E2 E3 E4. destruct (flight_of_phase _ Hw _ _ Hf) as (fl' & Hfl' & Hdone & _).
  assert (fl' = fl) as -> by congruence.
  assert (Hother : forall g, g <> f -> phases w' !! g = phases w !! g).
  { intros g Hne. rewrite E2. destruct wk; [by rewrite lookup_insert_ne|by rewrite lookup_delete_ne]. }
  assert (Hthis : phases w' !! f = if wk then Some Returning else None).
  { rewrite E2. destruct wk; [by rewrite lookup_insert_eq|by rewrite lookup_delete_eq]. }
  split; rewrite ?E1, ?E3, ?E4.
  - intros g phg Hg. destruct (decide (g = f)) as [->|Hne].
    + rewrite Hthis in Hg. destruct wk; [|done]. injection Hg as <-. by exists fl.
    + rewrite Hother in Hg by done. by apply Hw.
  - intros g gl Hg Hu. destruct (decide (g = f)) as [->|Hne]; [cbn in *; congruence|]. rewrite Hother by done.
    by apply (undone_phase _ Hw _ _ Hg).
  - intros k g. rewrite lookup_delete_Some, (inflight_registered _ Hw). destruct (decide (g = f)) as [->|Hne].
    + rewrite Hthis, Hf, Hfl. split.
      * intros (Hk & gl & p & [= <-] & ? & _). done.
      * intros (gl & p & _ & _ & Hp & Hr). destruct wk; [|done]. by injection Hp as <-.
    + rewrite Hother by done. split; [by intros [_ ?]|]. intros Hg. split; [|done]. intros <-.
      destruct Hg as (gl & p & Hgl & Hk & Hp & Hr). apply Hne.
      by apply (registered_unique w g f gl fl p (Published wk)).
  - intros g gl phg Hg Hp Hpend. destruct (decide (g = f)) as [->|Hne].
    + rewrite Hthis in Hp. destruct wk; [|done]. by injection Hp as <-.
    + rewrite Hother in Hp by done. by apply (pending_absent _ Hw _ _ _ Hg Hp).
Qed.

Lemma flights_return w w' f : flights_ok w -> phases w !! f = Some Returning -> flights w' = flights w ->
  phases w' = delete f (phases w) -> cache w' = cache w -> flights_ok w'.
Proof.
  intros Hw Hf E1 E2 E3. destruct (flight_of_phase _ Hw _ _ Hf) as (fl & Hfl & Hdone & _).
  split; rewrite ?E1, ?E2, ?E3.
  - intros g phg [_ Hg]%lookup_delete_Some. by apply Hw.
  - intros g gl Hg Hu. destruct (decide (g = f)) as [->|Hne]; [cbn in *; congruence|]. rewrite lookup_delete_ne by done.
    by apply (undone_phase _ Hw _ _ Hg).
  - intros k g. rewrite (inflight_registered _ Hw). destruct (decide (g = f)) as [->|Hne].
    + rewrite lookup_delete_eq, Hf. split; [|naive_solver]. intros (gl & p & _ & _ & [= <-] & ?). done.
    + by rewrite lookup_delete_ne.
  - intros g gl phg Hg [_ Hp]%lookup_delete_Some Hpend. by apply (pending_absent _ Hw _ _ _ Hg Hp).
Qed.

Lemma flights_begin w w' f key : flights_ok w -> flights w !! f = None -> phases w !! f = None ->
  ready (cache w) !! key = None -> inflight (cache w) !! key = None ->
  flights w' = <[f := new_flight key]> (flights w) -> phases w' = <[f := Submitting]> (phases w) ->
  inflight (cache w') = <[key := f]> (inflight (cache w)) -> ready (cache w') = ready (cache w) -> flights_ok w'.
Proof.
  intros Hw Hf Hp Hr Hi E1 E2 E3 E4. split; rewrite ?E1, ?E2, ?E3, ?E4.
  - intros g phg. destruct (decide (g = f)) as [->|Hne].
    + rewrite !lookup_insert_eq. intros [= <-]. by exists (new_flight key).
    + rewrite !lookup_insert_ne by done. apply Hw.
  - intros g gl. destruct (decide (g = f)) as [->|Hne].
    + rewrite !lookup_insert_eq. done.
    + rewrite !lookup_insert_ne by done. apply Hw.
  - intros k g. rewrite lookup_insert_Some, (inflight_registered _ Hw). destruct (decide (g = f)) as [->|Hne].
    + rewrite !lookup_insert_eq, Hf. split; [|intros (gl & p & [= <-] & Hk & _); by left].
      intros [[<- _]|(_ & gl & p & ? & _)]; [|done]. by exists (new_flight key), Submitting.
    + rewrite !lookup_insert_ne by done. split; [by intros [[_ ?]|[_ ?]]|]. intros Hg. right. split; [|done].
      intros <-. apply (inflight_registered _ Hw) in Hg. congruence.
  - intros g gl phg. destruct (decide (g = f)) as [->|Hne].
    + rewrite !lookup_insert_eq. intros [= <-] [= <-] _. done.
    + rewrite !lookup_insert_ne by done. apply Hw.
Qed.

Lemma flights_forget w w' f : flights_ok w -> phases w !! f = None -> flights w' = delete f (flights w) ->
  phases w' = phases w -> cache w' = cache w -> flights_ok w'.
Proof.
  intros Hw Hf E1 E2 E3. assert (Hg : forall g ph, phases w !! g = Some ph -> g <> f) by (intros; congruence).
  split; rewrite ?E1, ?E2, ?E3.
  - intros g ph Hp. rewrite lookup_delete_ne by (intros Heq; by apply (Hg g ph)). by apply Hw.
  - intros g gl [_ Hgl]%lookup_delete_Some. by apply Hw.
  - intros k g. rewrite (inflight_registered _ Hw).
    split; intros (gl & p & Hgl & Hk & Hp & Hr); exists gl, p; (split; [|done]).
    + rewrite lookup_delete_ne; [done|]. intros Heq. by apply (Hg g p).
    + by apply lookup_delete_Some in Hgl as [_ ?].
  - intros g gl ph [_ Hgl]%lookup_delete_Some. by apply Hw.
Qed.

(** *** The memory *)

(** The accounts are the same; nothing is referred to that was not before, and of the cache entries go. *)
Lemma memory_same w w' : memory_ok w -> account w' = account w -> gate w' = gate w -> payloads w' = payloads w ->
  ready (cache w') ⊆ ready (cache w) -> (forall p, referenced w' p -> referenced w p) -> memory_ok w'.
Proof.
  intros Hw E1 E2 E3 Hr Href. split; rewrite ?E1, ?E2, ?E3; try apply Hw.
  - intros p Hp. by apply Hw, Href.
  - intros k r Hk. apply Hw with (k := k). exact (lookup_weaken _ _ _ _ Hk Hr).
Qed.

Lemma not_refers p : ~ refers None p.
Proof. by intros (x & pl & ? & _). Qed.

(** A flight moves to a phase in which its task holds nothing, or what it held before. *)
Lemma memory_phase w w' f ph : memory_ok w -> account w' = account w -> gate w' = gate w -> payloads w' = payloads w ->
  ready (cache w') ⊆ ready (cache w) -> flights w' = flights w -> phases w' = <[f := ph]> (phases w) -> phase_media ph = None ->
  memory_ok w'.
Proof.
  intros Hw E1 E2 E3 Hr E4 E5 Hph. apply (memory_same w); [done..|].
  intros p [(k & r & Hk & Href)|[H|(g & pg & Hg & Href)]].
  - left. exists k, r. split; [|done]. exact (lookup_weaken _ _ _ _ Hk Hr).
  - right. left. by rewrite E4 in H.
  - rewrite E5 in Hg. apply lookup_insert_Some in Hg as [[<- <-]|[_ Hg]].
    + rewrite Hph in Href. by apply not_refers in Href.
    + right. right. eauto.
Qed.

Lemma memory_removed w w' f : memory_ok w -> account w' = account w -> gate w' = gate w -> payloads w' = payloads w ->
  ready (cache w') ⊆ ready (cache w) -> flights w' = flights w -> phases w' = delete f (phases w) -> memory_ok w'.
Proof.
  intros Hw E1 E2 E3 Hr E4 E5. apply (memory_same w); [done..|].
  intros p [(k & r & Hk & Href)|[H|(g & pg & Hg & Href)]].
  - left. exists k, r. split; [|done]. exact (lookup_weaken _ _ _ _ Hk Hr).
  - right. left. by rewrite E4 in H.
  - rewrite E5 in Hg. apply lookup_delete_Some in Hg as [_ Hg]. right. right. eauto.
Qed.

Lemma memory_publish w w' f fl wk m e n : memory_ok w -> phases w !! f = Some (Built wk m e n) ->
  w' = set_phases (<[f := Published wk]> (phases w)) (set_flight f (publish fl m e n) w) -> memory_ok w'.
Proof.
  intros Hw Hf ->. apply (memory_same w); try done. intros p [H|[(g & gl & Hg & Href)|(g & pg & Hg & Href)]]; cbn in *.
  - by left.
  - apply lookup_insert_Some in Hg as [[<- <-]|[_ Hg]]; [|right; left; eauto]. right. right. by exists f, (Built wk m e n).
  - apply lookup_insert_Some in Hg as [[<- <-]|[_ Hg]]; [by apply not_refers in Href|]. right. right. eauto.
Qed.

Lemma payload_bytes_alive w m n : memory_ok w -> allocated w m -> payload_bytes m = Ok n ->
  exists pl, payload m = Some pl /\ payloads w !! payload_id pl = Some n /\ 0 < n.
Proof.
  intros Hw Ha. unfold payload_bytes. destruct (payload m) as [pl|] eqn:Ep; [|done]. intros Hn. rinv. subst n.
  exists pl. specialize (Ha pl Ep). split; [done|]. split; [done|]. exact (memory_positive _ Hw _ _ Ha).
Qed.

(** Whatever the builder and the check give, the task ends; the cache holds the results of before and, under
    the key of the flight, the media of this one. *)
Lemma run_task_ok w key built checked : cache_ok (cache w) -> memory_ok w -> ready (cache w) !! key = None ->
  (forall x, built = Ok x -> allocated w x) ->
  exists m e n c', run_task key built checked (cache w) = (Ok (m, e, n), c') /\ cache_ok c' /\
    inflight c' = inflight (cache w) /\ capacity_bytes c' = capacity_bytes (cache w) /\
    (forall x, m = Some x -> allocated w x) /\
    (forall k r, ready c' !! k = Some r -> ready (cache w) !! k = Some r \/
       (k = key /\ m = Some (media r) /\ e = None /\ exists pl, payload (media r) = Some pl /\ payloads w !! payload_id pl = Some (bytes r))).
Proof.
  intros Hc Hm Hk Halloc. unfold run_task, task_result. destruct built as [x|e].
  2: { eexists None, (Some e), 0, _. split; [done|]. repeat (split; [done|]). by left. }
  specialize (Halloc x eq_refl). destruct (let* _ := checked in payload_bytes x) as [n|e] eqn:En.
  2: { eexists (Some x), (Some e), 0, _. split; [done|]. repeat (split; [done|]). split; [by intros ? [= <-]|by left]. }
  apply rbind_Ok in En as ([] & _ & En). destruct (payload_bytes_alive w x n Hm Halloc En) as (pl & Epl & Hlive & Hpos).
  destruct (insert_ready_ok key x n (cache w) Hc Hk ltac:(lia)) as (c' & E' & Hc' & Hi & Hcap & Hr & _).
  exists (Some x), None, n, c'. unfold mbind_. rewrite E'. split; [done|]. repeat (split; [done|]).
  split; [by intros ? [= <-]|]. intros k r [Hin|[-> ->]]%Hr; [by left|right]. cbn. eauto 8.
Qed.

Lemma memory_build w w' f fl m e n c' : memory_ok w -> (forall x, m = Some x -> allocated w x) ->
  (forall k r, ready c' !! k = Some r -> ready (cache w) !! k = Some r \/
     (k = fl_key fl /\ m = Some (media r) /\ e = None /\ exists pl, payload (media r) = Some pl /\ payloads w !! payload_id pl = Some (bytes r))) ->
  w' = set_phases (<[f := Built true m e n]> (phases w)) (set_cache c' w) -> memory_ok w'.
Proof.
  intros Hw Hm Hr ->. split; cbn; try apply Hw.
  - assert (Hnew : forall p, refers m p -> is_Some (payloads w !! p)).
    { intros p (x & pl & -> & Hpl & <-). specialize (Hm x eq_refl pl Hpl). by rewrite Hm. }
    intros p [(k & r & Hk & Href)|[(g & gl & Hg & Href)|(g & pg & Hg & Href)]]; cbn in *.
    + apply Hr in Hk as [Hk|(_ & -> & _)]; [|by apply Hnew]. apply Hw. left. eauto.
    + apply Hw. right. left. eauto.
    + apply lookup_insert_Some in Hg as [[<- <-]|[_ Hg]]; [by apply Hnew|]. apply Hw. right. right. eauto.
  - intros k r [Hk|(_ & _ & _ & H)]%Hr; [by apply Hw in Hk|done].
Qed.

Lemma memory_allocate w w' p n a' : memory_ok w -> payloads w !! p = None -> 0 < n -> try_reserve n (account w) = (Ok true, a') ->
  w' = set_payloads a' (<[p := n]> (payloads w)) w -> memory_ok w'.
Proof.
  intros Hw Hp Hn Ha ->. revert Ha. unfold try_reserve, mbind_, mget. case_if Hb; [done|]. intros [= <-].
  apply orb_false_iff in Hb as [Hb1 Hb2]. split; cbn; try apply Hw.
  - rewrite (memory_exact _ Hw), msum_insert by done. cbn. lia.
  - lia.
  - intros q k [[<- <-]|[_ Hq]]%lookup_insert_Some; [done|]. exact (memory_positive _ Hw _ _ Hq).
  - intros q Hq. destruct (decide (p = q)) as [->|Hne]; [by rewrite lookup_insert_eq|]. rewrite lookup_insert_ne by done. by apply Hw.
  - intros k r Hk. destruct (ready_alive _ Hw _ _ Hk) as (pl & Hpl & Hin). exists pl. split; [done|].
    rewrite lookup_insert_ne; [done|]. intros ->. congruence.
Qed.

Lemma memory_drop w w' p n a' : memory_ok w -> payloads w !! p = Some n -> ~ referenced w p ->
  release n (account w) = (Ok tt, a') -> w' = set_payloads a' (delete p (payloads w)) w -> memory_ok w'.
Proof.
  intros Hw Hp Href Ha ->. revert Ha. unfold release, mbind_, mget, mthrow_if, mlift, throw_if. case_if Hb; [done|]. intros [= <-].
  pose proof (memory_positive _ Hw _ _ Hp). split; cbn; try apply Hw.
  - rewrite (memory_exact _ Hw), (msum_delete _ _ _ _ Hp). cbn. lia.
  - pose proof (memory_bounded _ Hw). lia.
  - intros q k [_ Hq]%lookup_delete_Some. exact (memory_positive _ Hw _ _ Hq).
  - intros q Hq. destruct (decide (p = q)) as [->|Hne]; [done|]. rewrite lookup_delete_ne by done. by apply Hw.
  - intros k r Hk. destruct (ready_alive _ Hw _ _ Hk) as (pl & Hpl & Hin). exists pl. split; [done|].
    rewrite lookup_delete_ne; [done|]. intros ->. apply Href. left. exists k, r. split; [done|]. by exists (media r), pl.
Qed.

(** The reserved bytes of a payload can be released: the account holds them. *)
Lemma release_ok w p n : memory_ok w -> payloads w !! p = Some n -> exists a', release n (account w) = (Ok tt, a').
Proof.
  intros Hw Hp. assert (Hge : n <= live (account w)).
  { rewrite (memory_exact _ Hw). apply (msum_ge id _ p n); [|done]. intros k a Hk. pose proof (memory_positive _ Hw _ _ Hk). cbn. lia. }
  unfold release, mbind_, mget, mthrow_if, mlift, throw_if. destruct (n >? live (account w)) eqn:E; [lia|]. by eexists.
Qed.

(** *** Every step *)

Lemma work_step_ok w w' : world_ok w -> work_step w w' -> world_ok w'.
Proof.
  intros [Hc Hp Hf Hm] Hstep. destruct Hstep as
    [w f p' Hph He|w f e p' Hph He|w f p' Hlt He|w f fl built checked m e n c' Hph Hfl Ha He|w f fl wk m e n Hph Hfl
    |w f fl wk c' Hph Hfl He|w f p' Hph He].
  - split; [done|by eapply pool_enqueue| |by eapply (memory_phase w)].
    by eapply (flights_move _ _ f Submitting Queued).
  - assert (p' = pool w) as ->.
    { revert He. unfold enqueue, mbind_, mget, mthrow_if, mlift, throw_if. destruct (stopping _); [by intros [= _ <-]|].
      by case_if Hl. }
    split; [done|by eapply (pool_move w f Submitting (Built false None (Some e) 0))| |by eapply (memory_phase w)].
    by eapply (flights_move _ _ f Submitting (Built false None (Some e) 0)).
  - pose proof (take_queued _ _ _ Hp He) as Hph.
    split; [done|by eapply pool_take| |by eapply (memory_phase w)].
    by eapply (flights_move _ _ f Queued Running).
  - destruct (run_task_ok w (fl_key fl) built checked Hc Hm) as (m' & e' & n' & c1 & E1 & Hc' & Hi & Hcap & Hx & Hr);
      [by apply (pending_absent _ Hf f fl Running)|done|].
    rewrite E1 in He. injection He as -> -> -> ->.
    split; [done|by eapply (pool_move w f Running (Built true m e n))| |by eapply memory_build].
    eapply (flights_move w _ f Running (Built true m e n)); try done. cbn.
    intros g gl Hg [Hne|?] Hnone (pg & Hpg & Hrg); [|done]. apply eq_None_not_Some. intros [r [Hin|(Heq & _)]%Hr]; [congruence|].
    apply Hne. by apply (registered_unique w g f gl fl pg Running).
  - split; [done|by eapply (pool_move w f (Built wk m e n) (Published wk))| |by eapply memory_publish].
    by eapply (flights_publish w _ f).
  - injection He as <-. split.
    + destruct Hc. by split.
    + destruct wk; [by eapply (pool_move w f (Published true) Returning)|by eapply (pool_remove w f (Published false))].
    + by eapply (flights_erase w _ f fl wk).
    + destruct wk; [by eapply (memory_phase w)|by eapply (memory_removed w)].
  - split; [done|by eapply pool_finish|by eapply (flights_return w)|by eapply (memory_removed w)].
Qed.

(** [begin_prepare]: a hit moves its key to the front; otherwise the flight is the registered one. *)
Lemma lookup_or_register_eq key f c : lookup_or_register key f c =
  match ready c !! key, inflight c !! key with
  | Some r, _ => (Ok (Hit, Some r, None), count_hit (set_lru (key :: remove_key key (lru c)) c))
  | None, Some g => (Ok (SingleflightWaiter, None, Some g), count_wait c)
  | None, None => (Ok (Producer, None, Some f), count_miss (set_inflight (<[key := f]> (inflight c)) c))
  end.
Proof. unfold lookup_or_register, mbind_, mget. by destruct (ready c !! key), (inflight c !! key). Qed.

Lemma remove_key_Permutation key l : NoDup l -> key ∈ l -> key :: remove_key key l ≡ₚ l.
Proof.
  induction l as [|k l IH]; intros Hn Hin; [by apply elem_of_nil in Hin|]. apply NoDup_cons in Hn as [Hk Hn].
  unfold remove_key in *. rewrite filter_cons. destruct (decide (k = key)) as [->|Hne].
  - rewrite decide_False by tauto. rewrite filter_all; [done|]. apply Forall_forall. by intros x Hx ->.
  - rewrite decide_True by done. apply elem_of_cons in Hin as [->|Hin]; [done|]. rewrite perm_swap. by rewrite IH.
Qed.

Lemma sum_perm (f : MediaCacheKey -> Z) l l' : l ≡ₚ l' ->
  foldr (fun k acc => f k + acc) 0 l = foldr (fun k acc => f k + acc) 0 l'.
Proof. induction 1; cbn; lia. Qed.

Lemma hit_ok c key r : cache_ok c -> ready c !! key = Some r ->
  cache_ok (count_hit (set_lru (key :: remove_key key (lru c)) c)).
Proof.
  intros Hc Hr. assert (Hp : key :: remove_key key (lru c) ≡ₚ lru c).
  { apply remove_key_Permutation; [apply Hc|]. apply Hc. by rewrite Hr. }
  split; cbn [count_hit set_lru lru ready retained_bytes capacity_bytes]; try apply Hc.
  - rewrite Hp. apply Hc.
  - intros k. rewrite Hp. apply Hc.
  - rewrite (retained_exact _ Hc). unfold lru_bytes. cbn [count_hit set_lru lru]. symmetry. apply (sum_perm (entry_bytes c)), Hp.
Qed.

Lemma world_step_ok w w' : world_ok w -> step w w' -> world_ok w'.
Proof.
  intros Hw Hstep. destruct Hstep as
    [w w' Hwork|w key f d r fl c' Hf Hph He|w f control now e Hph He|w p elements n a' Hel Hp He Ha|w b c' He|w p n a' Hp Href Ha
    |w f Hph Hi|w b g' Hg|w g' Hpos Hg|w].
  - by eapply work_step_ok.
  - destruct Hw as [Hc Hp Hfl Hm]. rewrite lookup_or_register_eq in He.
    destruct (ready (cache w) !! key) as [r0|] eqn:Er; [|destruct (inflight (cache w) !! key) as [g|] eqn:Ei]; injection He as <- <- <- <-.
    + split; [by eapply hit_ok|by apply (pool_same w)|by apply (flights_same w)|by apply (memory_same w)].
    + split; [destruct Hc; by split|by apply (pool_same w)|by apply (flights_same w)|by apply (memory_same w)].
    + split; [destruct Hc; by split|by eapply (pool_submitting w)|by eapply (flights_begin w)|].
      apply (memory_same w); try done. intros p [H|[(g & gl & Hg & Href)|(g & pg & Hg & Href)]]; cbn in *; [by left| |].
      * apply lookup_insert_Some in Hg as [[<- <-]|[_ Hg]]; [by apply not_refers in Href|right; left; eauto].
      * apply lookup_insert_Some in Hg as [[<- <-]|[_ Hg]]; [by apply not_refers in Href|right; right; eauto].
  - destruct Hw as [Hc Hp Hfl Hm].
    split; [done|by eapply (pool_move w f Submitting (Built false None (Some e) 0))| |by eapply (memory_phase w)].
    by eapply (flights_move _ _ f Submitting (Built false None (Some e) 0)).
  - destruct Hw as [Hc Hpo Hfl Hm]. split; [done|by apply (pool_same w)|by apply (flights_same w)|].
    eapply (memory_allocate w); try done. unfold allocation_bytes in He. rinv. subst n. unfold sizeof_u16. lia.
  - destruct Hw as [Hc Hp Hfl Hm]. destruct (evict_shrinks _ Hc) as (b' & c1 & E1 & Hs & _). rewrite E1 in He. injection He as -> ->.
    split; [apply Hs|by apply (pool_same w)|apply (flights_same w); try done; apply Hs|].
    apply (memory_same w); try done; [apply Hs|]. intros p [(k & r & Hk & Hrp)|[H|H]]; [left|by right; left|by right; right].
    exists k, r. split; [|done]. exact (lookup_weaken _ _ _ _ Hk (shrunk_ready _ _ Hs)).
  - destruct Hw as [Hc Hpo Hfl Hm]. split; [done|by apply (pool_same w)|by apply (flights_same w)|by eapply (memory_drop w)].
  - destruct Hw as [Hc Hp Hfl Hm]. split; [done|by apply (pool_same w)|by eapply (flights_forget w)|].
    apply (memory_same w); try done. intros p [H|[(g & gl & Hg & Href)|H]]; [by left| |by right; right].
    cbn in Hg. apply lookup_delete_Some in Hg as [_ Hg]. right. left. eauto.
  - destruct Hw as [Hc Hp Hfl Hm]. split; [done|by apply (pool_same w)|by apply (flights_same w)|].
    revert Hg. unfold acquire_permit, mbind_, mget. case_if Hb; intros [= _ <-]; destruct Hm; split; cbn; try done; lia.
  - destruct Hw as [Hc Hp Hfl Hm]. split; [done|by apply (pool_same w)|by apply (flights_same w)|].
    revert Hg. unfold release_permit, mbind_, mget, mthrow_if, mlift, throw_if. case_if Hb; [done|].
    intros [= <-]; destruct Hm; split; cbn; try done; lia.
  - destruct Hw as [Hc Hp Hfl Hm]. split; [done|destruct Hp; by split|by apply (flights_same w)|by apply (memory_same w)].
Qed.

Lemma make_cache_ok capacity live_capacity requested hardware maximum_request w :
  0 <= capacity -> 0 <= live_capacity -> 0 <= maximum_request -> 0 <= requested -> 0 <= hardware ->
  make_cache capacity live_capacity requested hardware maximum_request = Ok w -> world_ok w.
Proof.
  intros Hcap Hlive Hmax Hreq Hhw. unfold make_cache, make_pool. intros Hw. rinv. bprop. subst w.
  subst v. apply Nat.eqb_neq in Hv3, Hv4. split; [split|split|split|split]; cbn; try done; try lia.
  - apply NoDup_nil_2.
  - intros k. rewrite lookup_empty. split; [by intros ?%elem_of_nil|by intros [? ?]].
  - apply NoDup_nil_2.
  - intros f. rewrite lookup_empty. split; [by intros ?%elem_of_nil|done].
  - intros k f. rewrite lookup_empty. split; [done|]. intros (fl & ph & Hf & _). by rewrite lookup_empty in Hf.
  - unfold gate_maximum. destruct (maximum_request =? 0); lia.
  - intros p [(k & r & Hk & _)|[(g & gl & Hg & _)|(g & pg & Hg & _)]]; by rewrite lookup_empty in *.
Qed.

(** The sizes given to the constructor. *)
Record Settings : Set := mkSettings {
  capacity : Z; live_capacity : Z; requested_threads : Z; hardware_concurrency : Z; maximum_request_bytes : Z;
}.
Definition settings_ok (c : Settings) : Prop :=
  is_u64 (capacity c) /\ is_u64 (live_capacity c) /\ is_u32 (requested_threads c) /\ is_u32 (hardware_concurrency c) /\
  is_u64 (maximum_request_bytes c).

Definition reachable (c : Settings) (w : World) : Prop :=
  exists w0, make_cache (capacity c) (live_capacity c) (requested_threads c) (hardware_concurrency c) (maximum_request_bytes c) = Ok w0 /\
    rtc step w0 w.

Lemma reachable_ok c w : settings_ok c -> reachable c w -> world_ok w.
Proof.
  unfold settings_ok, is_u64, is_u32. intros Hc (w0 & E & Hs). assert (Hw : world_ok w0) by (eapply make_cache_ok; [..|exact E]; lia).
  clear E. induction Hs as [|w0 w1 w2 H1 _ IH]; [done|]. apply IH. by eapply world_step_ok.
Qed.

(** *** Progress *)

Lemma progress_phase w f ph : world_ok w -> phases w !! f = Some ph -> ph <> Submitting -> ph <> Queued ->
  exists w', work_step w w'.
Proof.
  intros Hw Hf Hs Hq. destruct (flight_of_phase _ (ok_flights _ Hw) _ _ Hf) as (fl & Hfl & _).
  destruct ph as [| | |wk m e n|wk|]; try done; eexists.
  - by eapply (step_build w f fl (Err LogicError) (Ok tt) None (Some LogicError) 0 (cache w)).
  - by eapply (step_publish w f fl).
  - by eapply (step_erase w f fl).
  - pose proof (active_positive _ _ _ (ok_pool _ Hw) Hf eq_refl). eapply (step_return w f); [done|].
    unfold finish_task, mbind_, mget, mthrow_if, mlift, throw_if. destruct (Nat.eqb_spec (active (pool w)) 0); [lia|done].
Qed.

Lemma progress_workers w : world_ok w -> queue (pool w) <> [] -> exists w', work_step w w'.
Proof.
  intros Hw Hq. pose proof (ok_pool _ Hw) as Hp. destruct (decide (active (pool w) < threads_count (pool w))%nat) as [Hlt|Hge].
  - destruct (queue (pool w)) as [|f rest] eqn:Eq; [done|]. eexists. apply (step_take w f); [done|].
    unfold take_task, mbind_, mget. by rewrite Eq.
  - assert (Hpos : 0 < msum weight (phases w)) by (rewrite <- (pool_active _ Hp); destruct (pool_positive _ Hp); lia).
    assert (exists f ph, phases w !! f = Some ph /\ worker_phase ph = true) as (f & ph & Hf & Hwk).
    { clear - Hpos. revert Hpos. generalize (phases w) as m. induction m as [|k ph m Hk IH] using map_ind; [by rewrite msum_empty|].
      rewrite msum_insert by done. unfold weight at 1. destruct (worker_phase ph) eqn:E.
      - intros _. exists k, ph. by rewrite lookup_insert_eq.
      - intros Hpos. destruct IH as (f & p & Hf & Hp); [lia|]. exists f, p. split; [|done]. rewrite lookup_insert_ne; [done|].
        intros ->. congruence. }
    apply (progress_phase w f ph Hw Hf); by intros ->.
Qed.

Lemma progress w : world_ok w -> phases w <> ∅ -> exists w', work_step w w'.
Proof.
  intros Hw Hne. destruct (map_choose _ Hne) as (f & ph & Hf). pose proof (ok_pool _ Hw) as Hp.
  destruct ph as [| | |wk m e n|wk|].
  - destruct (queue (pool w)) as [|g rest] eqn:Eq; [|by apply progress_workers; [|rewrite Eq]].
    destruct (stopping (pool w)) eqn:Es.
    + eexists. eapply (step_refused w f RuntimeError); [done|]. unfold enqueue, mbind_, mget. rewrite Es. done.
    + assert (Hl : (length (queue (pool w)) <? queue_capacity (pool w))%nat = true).
      { rewrite Eq. apply Nat.ltb_lt. by destruct (pool_positive _ Hp). }
      eexists. eapply (step_enqueue w f); [done|]. unfold enqueue, mbind_, mget, mthrow_if, mlift, throw_if. rewrite Es. cbv beta iota.
      rewrite Hl. reflexivity.
  - apply progress_workers; [done|]. apply (pool_queue _ Hp) in Hf. intros E. rewrite E in Hf. by apply elem_of_nil in Hf.
  - by apply (progress_phase w f Running).
  - by apply (progress_phase w f (Built wk m e n)).
  - by apply (progress_phase w f (Published wk)).
  - by apply (progress_phase w f Returning).
Qed.

(** How many steps a flight is away from its end at most. *)
Definition rank (ph : phase) : Z :=
  match ph with Submitting => 6 | Queued => 5 | Running => 4 | Built _ _ _ _ => 3 | Published _ => 2 | Returning => 1 end.

Lemma rank_step w w' : world_ok w -> work_step w w' -> msum rank (phases w') < msum rank (phases w).
Proof.
  intros Hw Hstep. destruct Hstep as
    [w f p' Hph He|w f e p' Hph He|w f p' Hlt He|w f fl built checked m e n c' Hph Hfl Ha He|w f fl wk m e n Hph Hfl
    |w f fl wk c' Hph Hfl He|w f p' Hph He]; cbn [set_phases phases set_flight set_cache set_pool].
  3: { pose proof (take_queued _ _ _ (ok_pool _ Hw) He) as Hph. rewrite (msum_update _ _ _ _ _ Hph). cbn. lia. }
  5: destruct wk.
  1-5: rewrite (msum_update _ _ _ _ _ Hph); cbn; lia.
  all: rewrite (msum_delete _ _ _ _ Hph); cbn; lia.
Qed.

Lemma work_flights w w' f : work_step w w' -> is_Some (flights w !! f) -> is_Some (flights w' !! f).
Proof.
  intros [] Hf; cbn; try done. destruct (decide (f = f0)) as [->|Hne]; [by rewrite lookup_insert_eq|by rewrite lookup_insert_ne].
Qed.

(** ** What does not change *)

Record constants : Set := mkConstants { c_capacity : Z; c_limit : Z; c_maximum : Z; c_threads : nat; c_queue : nat }.
Definition constants_of (w : World) : constants :=
  mkConstants (capacity_bytes (cache w)) (limit (account w)) (maximum (gate w)) (threads_count (pool w)) (queue_capacity (pool w)).

Lemma work_constants w w' : world_ok w -> work_step w w' -> constants_of w' = constants_of w.
Proof.
  intros Hw Hstep. destruct Hstep as
    [w f p' Hph He|w f e p' Hph He|w f p' Hlt He|w f fl built checked m e n c' Hph Hfl Ha He|w f fl wk m e n Hph Hfl
    |w f fl wk c' Hph Hfl He|w f p' Hph He]; unfold constants_of; cbn; try done.
  - revert He. unfold enqueue, mbind_, mget, mthrow_if, mlift, throw_if. destruct (stopping _); [done|]. by case_if Hl; intros [= <-].
  - revert He. unfold enqueue, mbind_, mget, mthrow_if, mlift, throw_if. destruct (stopping _); [by intros [= _ <-]|]. by case_if Hl.
  - revert He. unfold take_task, mbind_, mget. destruct (queue (pool w)); [done|]. by intros [= _ <-].
  - destruct (run_task_ok w (fl_key fl) built checked (ok_cache _ Hw) (ok_memory _ Hw)) as (m' & e' & n' & c1 & E1 & _ & _ & Hcap & _);
      [by apply (pending_absent _ (ok_flights _ Hw) f fl Running)|done|].
    rewrite E1 in He. injection He as -> -> -> ->. by rewrite Hcap.
  - by injection He as <-.
  - revert He. unfold finish_task, mbind_, mget, mthrow_if, mlift, throw_if. case_if Ha; [done|]. by intros [= <-].
Qed.

Lemma step_constants w w' : world_ok w -> step w w' -> constants_of w' = constants_of w.
Proof.
  intros Hw Hstep. destruct Hstep as
    [w w' Hwork|w key f d r fl c' Hf Hph He|w f control now e Hph He|w p elements n a' Hel Hp He Ha|w b c' He|w p n a' Hp Href Ha
    |w f Hph Hi|w b g' Hg|w g' Hpos Hg|w]; unfold constants_of; cbn; try done.
  - by apply work_constants.
  - rewrite lookup_or_register_eq in He. by destruct (ready (cache w) !! key), (inflight (cache w) !! key); injection He as <- <- <- <-.
  - revert Ha. unfold try_reserve, mbind_, mget. case_if Hb; [done|]. by intros [= <-].
  - destruct (evict_shrinks _ (ok_cache _ Hw)) as (b' & c1 & E1 & Hs & _). rewrite E1 in He. injection He as -> ->.
    by rewrite (shrunk_capacity _ _ Hs).
  - revert Ha. unfold release, mbind_, mget, mthrow_if, mlift, throw_if. case_if Hb; [done|]. by intros [= <-].
  - revert Hg. unfold acquire_permit, mbind_, mget. by case_if Hb; intros [= _ <-].
  - revert Hg. unfold release_permit, mbind_, mget, mthrow_if, mlift, throw_if. case_if Hb; [done|]. by intros [= <-].
Qed.

Lemma make_cache_constants c w : settings_ok c ->
  make_cache (capacity c) (live_capacity c) (requested_threads c) (hardware_concurrency c) (maximum_request_bytes c) = Ok w ->
  c_capacity (constants_of w) = capacity c /\ c_limit (constants_of w) = live_capacity c /\
  c_maximum (constants_of w) * maximum_request_bytes c <= live_capacity c /\ (c_threads (constants_of w) <= 64)%nat.
Proof.
  unfold settings_ok, is_u64, is_u32, make_cache, make_pool. intros Hc Hw. rinv. bprop. subst w v. cbn.
  split; [done|]. split; [done|]. split; [|lia]. unfold gate_maximum. destruct (Z.eqb_spec (maximum_request_bytes c) 0); [lia|].
  pose proof (Z.mul_div_le (live_capacity c) (maximum_request_bytes c) ltac:(lia)).
  destruct (Z.max_spec 1 (live_capacity c / maximum_request_bytes c)) as [[_ ->]|[_ ->]]; lia.
Qed.

Lemma reachable_constants c w : settings_ok c -> reachable c w ->
  capacity_bytes (cache w) = capacity c /\ limit (account w) = live_capacity c /\
  maximum (gate w) * maximum_request_bytes c <= live_capacity c /\ (threads_count (pool w) <= 64)%nat.
Proof.
  intros Hc (w0 & E & Hs). pose proof (make_cache_constants c w0 Hc E) as H0.
  assert (Hok : world_ok w0) by (apply (reachable_ok c); [done|]; exists w0; split; [done|constructor]).
  enough (constants_of w = constants_of w0) as Heq by (rewrite <- Heq in H0; exact H0).
  clear E H0. induction Hs as [|w0 w1 w2 H1 _ IH]; [done|]. rewrite IH by (by eapply world_step_ok). by apply step_constants.
Qed.

(** ** Theorems *)


Lemma build_adds w w' k r : world_ok w -> step w w' -> ready (cache w') !! k = Some r ->
  ready (cache w) !! k = Some r \/
  exists f fl n, flights w !! f = Some fl /\ fl_key fl = k /\ phases w !! f = Some Running /\
    phases w' !! f = Some (Built true (Some (media r)) None n).
Proof.
  intros Hw Hstep. destruct Hstep as
    [w w' Hwork|w key f d r' fl c' Hf Hph He|w f control now e Hph He|w p elements n a' Hel Hp He Ha|w b c' He|w p n a' Hp Href Ha
    |w f Hph Hi|w b g' Hg|w g' Hpos Hg|w]; cbn; try by left.
  - destruct Hwork as [w f p' Hph He|w f e p' Hph He|w f p' Hlt He|w f fl built checked m e n c' Hph Hfl Ha He|w f fl wk m e n Hph Hfl
      |w f fl wk c' Hph Hfl He|w f p' Hph He]; cbn; try by left.
    + destruct (run_task_ok w (fl_key fl) built checked (ok_cache _ Hw) (ok_memory _ Hw)) as (m' & e' & n' & c1 & E1 & _ & _ & _ & _ & Hr);
        [by apply (pending_absent _ (ok_flights _ Hw) f fl Running)|done|].
      rewrite E1 in He. injection He as -> -> -> ->. intros [Hk|(-> & -> & -> & _)]%Hr; [by left|right].
      exists f, fl, n. by rewrite lookup_insert_eq.
    + injection He as <-. by left.
  - rewrite lookup_or_register_eq in He.
    by destruct (ready (cache w) !! key), (inflight (cache w) !! key); injection He as <- <- <- <-; left.
  - destruct (evict_shrinks _ (ok_cache _ Hw)) as (b' & c1 & E1 & Hs & _). rewrite E1 in He. injection He as -> ->.
    intros Hk. left. exact (lookup_weaken _ _ _ _ Hk (shrunk_ready _ _ Hs)).
Qed.

Lemma done_stays w w' f fl : world_ok w -> step w w' -> flights w !! f = Some fl -> fl_done fl = true ->
  flights w' !! f = Some fl \/ flights w' !! f = None.
Proof.
  intros Hw Hstep Hfl Hd. destruct Hstep as
    [w w' Hwork|w key g d r' gl c' Hg Hph He|w g control now e Hph He|w p elements n a' Hel Hp He Ha|w b c' He|w p n a' Hp Href Ha
    |w g Hph Hi|w b g' Hg|w g' Hpos Hg|w]; cbn; try by left.
  - destruct Hwork as [w g p' Hph He|w g e p' Hph He|w g p' Hlt He|w g gl built checked m e n c' Hph Hgl Ha He|w g gl wk m e n Hph Hgl
      |w g gl wk c' Hph Hgl He|w g p' Hph He]; cbn; try by left.
    left. rewrite lookup_insert_ne; [done|]. intros ->.
    destruct (flight_of_phase _ (ok_flights _ Hw) _ _ Hph) as (gl' & Hgl' & Hdone & _). cbn in Hdone. congruence.
  - destruct d; cbn; try by left. left. rewrite lookup_insert_ne; [done|]. by intros ->; rewrite Hg in Hfl.
  - destruct (decide (g = f)) as [->|Hne]; [right; apply lookup_delete_eq|left; by rewrite lookup_delete_ne].
Qed.

(** C35: a medium is built once for all the requests that want it at the same time.  Two flights that are not
    finished have different keys, and while one is being prepared nothing is cached under its key, so a request
    for it does not become a second producer; what is added to the cache under a key is what the flight of
    that key goes on to publish, without an error; and a published flight does not change any more. *)
Theorem media_single_flight c w : settings_ok c -> reachable c w ->
  (forall f g fl gl, flights w !! f = Some fl -> flights w !! g = Some gl -> fl_done fl = false -> fl_done gl = false ->
     fl_key fl = fl_key gl -> f = g) /\
  (forall f fl h, flights w !! f = Some fl -> fl_done fl = false ->
     (lookup_or_register (fl_key fl) h (cache w)).1 = Ok (SingleflightWaiter, None, Some f) \/
     (exists r, (lookup_or_register (fl_key fl) h (cache w)).1 = Ok (Hit, Some r, None))) /\
  (forall f fl ph, flights w !! f = Some fl -> phases w !! f = Some ph -> pending_phase ph = true ->
     ready (cache w) !! fl_key fl = None) /\
  (forall w', step w w' ->
     (forall k r, ready (cache w') !! k = Some r -> ready (cache w) !! k = Some r \/
        exists f fl n, flights w !! f = Some fl /\ fl_key fl = k /\ phases w !! f = Some Running /\
          phases w' !! f = Some (Built true (Some (media r)) None n)) /\
     (forall f fl, flights w !! f = Some fl -> fl_done fl = true -> flights w' !! f = Some fl \/ flights w' !! f = None)).
Proof.
  intros Hset Hreach. pose proof (reachable_ok _ _ Hset Hreach) as Hw. pose proof (ok_flights _ Hw) as Hf.
  assert (Hreg : forall f fl, flights w !! f = Some fl -> fl_done fl = false ->
    exists ph, phases w !! f = Some ph /\ registered ph = true).
  { intros f fl Hfl Hd. destruct (undone_phase _ Hf _ _ Hfl Hd) as [ph Hph]. exists ph. split; [done|].
    destruct (flight_of_phase _ Hf _ _ Hph) as (fl' & Hfl' & Hdone & _). assert (fl' = fl) as -> by congruence. by destruct ph; cbn in *; try congruence. }
  split; [|split; [|split]].
  - intros f g fl gl H1 H2 D1 D2 Hk. destruct (Hreg _ _ H1 D1) as (p1 & P1 & R1), (Hreg _ _ H2 D2) as (p2 & P2 & R2).
    by eapply registered_unique.
  - intros f fl h Hfl Hd. destruct (Hreg _ _ Hfl Hd) as (ph & Hph & Hr). rewrite lookup_or_register_eq.
    assert (inflight (cache w) !! fl_key fl = Some f) as -> by (apply (inflight_registered _ Hf); eauto 6).
    destruct (ready (cache w) !! fl_key fl) as [r|]; [right; by exists r|by left].
  - intros f fl ph. apply (pending_absent _ Hf).
  - intros w' Hs. split; [by intros k r; apply build_adds|by intros f fl; apply done_stays].
Qed.

(** C36: no deadlock and no lost wake-up of the pool: from any situation, however the workers are scheduled, at
    most six steps per flight remain, and when none is left every flight is published and unregistered, whatever
    its builder did; so every request that awaits one returns. *)
Theorem media_flights_finish c w n w' : settings_ok c -> reachable c w -> nsteps work_step n w w' ->
  Z.of_nat n <= 6 * Z.of_nat (base.size (phases w)) /\
  ((forall w'', ~ work_step w' w'') ->
     inflight (cache w') = ∅ /\ queue (pool w') = [] /\ active (pool w') = 0%nat /\
     forall f, is_Some (flights w !! f) -> exists fl, flights w' !! f = Some fl /\ fl_done fl = true).
Proof.
  intros Hset Hreach Hn. pose proof (reachable_ok _ _ Hset Hreach) as Hw.
  assert (world_ok w' /\ Z.of_nat n <= msum rank (phases w) - msum rank (phases w') /\
    forall f, is_Some (flights w !! f) -> is_Some (flights w' !! f)) as (Hw' & Hr & Hkeep).
  { clear Hset Hreach. induction Hn as [w|n w w1 w2 H1 _ IH]; [split; [done|]; split; [lia|done]|].
    pose proof (rank_step _ _ Hw H1). destruct IH as (H2 & Hle & Hk); [by eapply work_step_ok|].
    split; [done|]. split; [lia|]. intros f Hf. by apply Hk, (work_flights _ _ _ H1). }
  assert (Hrank : forall m : gmap Z phase, 0 * Z.of_nat (base.size m) <= msum rank m <= 6 * Z.of_nat (base.size m)).
  { intros m. apply msum_bounds; [lia|]. intros k [] _; cbn; lia. }
  pose proof (Hrank (phases w)). pose proof (Hrank (phases w')). split; [lia|]. intros Hstuck.
  assert (Hempty : phases w' = ∅).
  { destruct (decide (phases w' = ∅)) as [|Hne]; [done|]. destruct (progress _ Hw' Hne) as [w'' Hs]. by apply Hstuck in Hs. }
  pose proof (ok_pool _ Hw') as Hp. pose proof (ok_flights _ Hw') as Hf. split; [|split; [|split]].
  - apply map_empty. intros k. apply eq_None_not_Some. intros [f (fl & ph & _ & _ & Hph & _)%(inflight_registered _ Hf)].
    by rewrite Hempty, lookup_empty in Hph.
  - destruct (queue (pool w')) as [|f q] eqn:Eq; [done|]. assert (Hin : f ∈ queue (pool w')) by (rewrite Eq; left).
    apply (pool_queue _ Hp) in Hin. by rewrite Hempty, lookup_empty in Hin.
  - pose proof (pool_active _ Hp) as Ha. rewrite Hempty, msum_empty in Ha. lia.
  - intros f [fl Hfl]%Hkeep. exists fl. split; [done|]. destruct (fl_done fl) eqn:Hd; [done|].
    destruct (undone_phase _ Hf _ _ Hfl Hd) as [ph Hph]. by rewrite Hempty, lookup_empty in Hph.
Qed.

(** *** On a concrete cache: one request has submitted its medium *)

Definition example_settings : Settings := mkSettings 100 100 2 8 40.
Definition example_key : MediaCacheKey := mkKey [1; 2] Image.
Definition example_start : World :=
  mkWorld (mkAccount 100 0) (mkGate 2 0) (mkState 100 [] ∅ ∅ 0 0 0 0 0 0) (mkPool 2 64 [] 0 false) ∅ ∅ ∅.
Definition example_begun : World :=
  set_phases (<[7 := Submitting]> ∅) (set_flight 7 (new_flight example_key)
    (set_cache (count_miss (set_inflight (<[example_key := 7]> ∅) (cache example_start))) example_start)).
Definition example_queued : World := set_phases (<[7 := Queued]> (phases example_begun)) (set_pool (mkPool 2 64 [7] 0 false) example_begun).

Lemma example_enqueue : work_step example_begun example_queued.
Proof. by apply (step_enqueue example_begun 7 (mkPool 2 64 [7] 0 false)). Qed.

Lemma example_reachable : reachable example_settings example_begun.
Proof.
  exists example_start. split; [reflexivity|]. apply rtc_once.
  exact (step_begin example_start example_key 7 Producer None (Some 7)
    (count_miss (set_inflight (<[example_key := 7]> ∅) (cache example_start))) eq_refl eq_refl eq_refl).
Qed.

Lemma example_settings_ok : settings_ok example_settings.
Proof. by_compute. Qed.


Lemma media_single_flight_witness : reachable example_settings example_begun /\
  (lookup_or_register example_key 8 (cache example_begun)).1 = Ok (SingleflightWaiter, None, Some 7).
Proof.
  split; [exact example_reachable|].
  destruct (proj1 (proj2 (media_single_flight example_settings example_begun example_settings_ok example_reachable))
              7 (new_flight example_key) 8 eq_refl eq_refl) as [H|[r H]]; [exact H|discriminate H].
Defined.

Lemma media_flights_finish_witness : reachable example_settings example_begun /\ nsteps work_step 1 example_begun example_queued /\
  Z.of_nat 1 <= 6 * Z.of_nat (base.size (phases example_begun)).
Proof.
  assert (Hn : nsteps work_step 1 example_begun example_queued) by (eapply nsteps_l; [exact example_enqueue|constructor]).
  split; [exact example_reachable|]. split; [exact Hn|].
  exact (proj1 (media_flights_finish example_settings example_begun 1 example_queued example_settings_ok example_reachable Hn)).
Defined.
