(* ===== verification/Artifact.v ===== *)
(** * Artifacts: [src/artifact/reader], [storage_layouts], [binder]

    A model file: a prefix, a JSON directory and the payloads of its objects.  Opening it checks everything the
    engine relies on afterwards; the binder hands each object out once and plans where it goes.

    The mapped file is its bytes; parsing JSON is a parameter, as in [Tokenizer]. *)
From Stdlib Require Import Strings.String.
From stdpp Require Import gmap.
From S2P Require Import Prelude Tokenizer.
#[local] Open Scope Z_scope.
#[local] Open Scope ninfer_scope.

Inductive NumericFormat : Set :=
| BF16 | FP32 | I32 | Q4G64_F16S | Q5G64_F16S | Q6G64_F16S | W8G32_F16S | NVFP4 | FP8_E4M3FN_ROW_BF16S.
Inductive StorageLayout : Set := ContiguousLeV1 | RowSplitK128V1 | BlockScaleK16M128x4V1 | RowScaleV1.
Inductive ResourceEncoding : Set := RawBytesV1.
#[export] Instance NumericFormat_eq_dec : EqDecision NumericFormat.
Proof. solve_decision. Defined.
#[export] Instance StorageLayout_eq_dec : EqDecision StorageLayout.
Proof. solve_decision. Defined.
#[export] Instance ResourceEncoding_eq_dec : EqDecision ResourceEncoding.
Proof. solve_decision. Defined.

(** ** Storage layouts *)

Definition kTensorAlignment : Z := 256.
Definition kKAlignment : Z := 128.

(** The checked arithmetic of these files. *)
Definition artifact_add (a b : Z) : result Z := do* throw_if (b >? u64_max - a) ArtifactError; Ok (a + b).
Definition artifact_mul (a b : Z) : result Z :=
  do* throw_if (negb (a =? 0) && (b >? u64_max / a)) ArtifactError; Ok (u64 (a * b)).
Definition artifact_align_up (value alignment : Z) : result Z :=
  let* biased := artifact_add value (alignment - 1) in Ok (biased / alignment * alignment).

Record QuantGeometry : Set := mkQuant { qg_group_size : Z; base_bytes_per_group : Z; qg_high_bytes_per_group : Z }.

Definition quant_geometry (format : NumericFormat) : result QuantGeometry :=
  match format with
  | Q4G64_F16S => Ok (mkQuant 64 32 0)
  | Q5G64_F16S => Ok (mkQuant 64 32 8)
  | Q6G64_F16S => Ok (mkQuant 64 32 16)
  | W8G32_F16S => Ok (mkQuant 32 32 0)
  | _ => Err ArtifactError
  end.

Definition direct_word_bytes (format : NumericFormat) : result Z :=
  match format with BF16 => Ok 2 | FP32 | I32 => Ok 4 | _ => Err ArtifactError end.

Definition format_name (format : NumericFormat) : list Z :=
  match format with
  | BF16 => bytes_of "BF16" | FP32 => bytes_of "FP32" | I32 => bytes_of "I32"
  | Q4G64_F16S => bytes_of "Q4G64_F16S" | Q5G64_F16S => bytes_of "Q5G64_F16S" | Q6G64_F16S => bytes_of "Q6G64_F16S"
  | W8G32_F16S => bytes_of "W8G32_F16S" | NVFP4 => bytes_of "NVFP4"
  | FP8_E4M3FN_ROW_BF16S => bytes_of "FP8_E4M3FN_ROW_BF16S"
  end.
Definition layout_name (layout : StorageLayout) : list Z :=
  match layout with
  | ContiguousLeV1 => bytes_of "contiguous-le-v1" | RowSplitK128V1 => bytes_of "row-split-k128-v1"
  | BlockScaleK16M128x4V1 => bytes_of "blockscale-k16-m128x4-v1" | RowScaleV1 => bytes_of "row-scale-v1"
  end.
Definition encoding_name (encoding : ResourceEncoding) : list Z := match encoding with RawBytesV1 => bytes_of "raw-bytes-v1" end.

Definition tensor_alignment (_ : StorageLayout) : Z := kTensorAlignment.
Definition resource_alignment (_ : ResourceEncoding) : Z := 1.

Record RowSplitGeometry : Set := mkRowSplit {
  rg_rows : Z; rg_columns : Z; padded_columns : Z; group_size : Z; groups_per_row : Z; low_bytes_per_group : Z;
  high_bytes_per_group : Z; low_plane_bytes : Z; high_plane_offset : Z; high_plane_bytes : Z; rg_scale_plane_offset : Z;
  rg_scale_plane_bytes : Z; rg_encoded_bytes : Z;
}.

(** [shape.size() != 2 || shape[0] == 0 || shape[1] == 0] *)
Definition rank_two (shape : list Z) : result (Z * Z) :=
  match shape with
  | [rows; columns] => do* throw_if ((rows =? 0) || (columns =? 0)) ArtifactError; Ok (rows, columns)
  | _ => Err ArtifactError
  end.

Definition row_split_geometry (format : NumericFormat) (shape : list Z) : result RowSplitGeometry :=
  let* (rows, columns) := rank_two shape in
  let* g := quant_geometry format in
  let* padded := artifact_align_up columns kKAlignment in
  let per_row := padded / qg_group_size g in
  let* groups := artifact_mul rows per_row in
  let* low := artifact_mul groups (base_bytes_per_group g) in
  let* high := artifact_mul groups (qg_high_bytes_per_group g) in
  let* scale := artifact_mul groups 2 in
  let* high_offset := artifact_align_up low kTensorAlignment in
  let* aligned_high := artifact_align_up high kTensorAlignment in
  let* scale_offset := artifact_add high_offset aligned_high in
  let* encoded := artifact_add scale_offset scale in
  Ok (mkRowSplit rows columns padded (qg_group_size g) per_row (base_bytes_per_group g) (qg_high_bytes_per_group g)
        low high_offset high scale_offset scale encoded).

Record BlockScaleGeometry : Set := mkBlockScale {
  bg_rows : Z; bg_columns : Z; bg_groups_per_row : Z; k_tiles : Z; bg_code_plane_bytes : Z; bg_scale_plane_offset : Z;
  bg_scale_plane_bytes : Z; weight_divisor_offset : Z; bg_encoded_bytes : Z;
}.

Definition block_scale_geometry (format : NumericFormat) (shape : list Z) : result BlockScaleGeometry :=
  do* throw_if (negb (bool_decide (format = NVFP4))) ArtifactError;
  let* (rows, columns) := rank_two shape in
  do* throw_if (negb (rows mod 128 =? 0) || negb (columns mod 64 =? 0)) ArtifactError;
  let* elements := artifact_mul rows columns in
  let code := elements / 2 in
  let* scale_offset := artifact_align_up code kTensorAlignment in
  let scale := elements / 16 in
  let* divisor := artifact_add scale_offset scale in
  let* encoded := artifact_add divisor 4 in
  Ok (mkBlockScale rows columns (columns / 16) (columns / 64) code scale_offset scale divisor encoded).

Record RowScaleGeometry : Set := mkRowScale {
  sg_rows : Z; sg_columns : Z; sg_code_plane_bytes : Z; sg_scale_plane_offset : Z; sg_scale_plane_bytes : Z; sg_encoded_bytes : Z;
}.

Definition row_scale_geometry (format : NumericFormat) (shape : list Z) : result RowScaleGeometry :=
  do* throw_if (negb (bool_decide (format = FP8_E4M3FN_ROW_BF16S))) ArtifactError;
  let* (rows, columns) := rank_two shape in
  let* code := artifact_mul rows columns in
  let* scale_offset := artifact_align_up code kTensorAlignment in
  let* scale := artifact_mul rows 2 in
  let* encoded := artifact_add scale_offset scale in
  Ok (mkRowScale rows columns code scale_offset scale encoded).

Definition tensor_encoded_size (layout : StorageLayout) (format : NumericFormat) (shape : list Z) : result Z :=
  match layout with
  | ContiguousLeV1 =>
      do* throw_if (16 <? length shape)%nat ArtifactError;
      let* elements := rfoldl (fun elements dim =>
        do* throw_if (dim =? 0) ArtifactError; artifact_mul elements dim) 1 shape in
      let* word := direct_word_bytes format in
      artifact_mul elements word
  | RowSplitK128V1 => let* _ := rank_two shape in let* g := row_split_geometry format shape in Ok (rg_encoded_bytes g)
  | BlockScaleK16M128x4V1 => let* g := block_scale_geometry format shape in Ok (bg_encoded_bytes g)
  | RowScaleV1 => let* g := row_scale_geometry format shape in Ok (sg_encoded_bytes g)
  end.

(** ** The directory *)

Record TensorDescriptor : Set := mkTensorDescriptor {
  td_name : list Z; td_shape : list Z; td_format : NumericFormat; td_layout : StorageLayout; td_offset : Z; td_bytes : Z;
}.
Record ResourceDescriptor : Set := mkResourceDescriptor {
  rd_name : list Z; rd_encoding : ResourceEncoding; rd_offset : Z; rd_bytes : Z;
}.
Inductive ObjectDescriptor : Set := TensorObject (t : TensorDescriptor) | ResourceObject (r : ResourceDescriptor).

Definition object_name (o : ObjectDescriptor) : list Z := match o with TensorObject t => td_name t | ResourceObject r => rd_name r end.
Definition object_offset (o : ObjectDescriptor) : Z := match o with TensorObject t => td_offset t | ResourceObject r => rd_offset r end.
Definition object_bytes (o : ObjectDescriptor) : Z := match o with TensorObject t => td_bytes t | ResourceObject r => rd_bytes r end.
Definition object_alignment (o : ObjectDescriptor) : Z :=
  match o with TensorObject t => tensor_alignment (td_layout t) | ResourceObject r => resource_alignment (rd_encoding r) end.

(** [value.at(field)] *)
Definition json_at (value : Json) (field : list Z) : result Json :=
  match json_field value field with Some v => Ok v | None => Err JsonException end.

Definition require_members (value : Json) (members : list (list Z)) : result unit :=
  match value with
  | JObject items =>
      do* throw_if (negb (length items =? length members)%nat) ArtifactError;
      riter (fun member => throw_if (negb (is_some (json_find member items))) ArtifactError) members
  | _ => Err ArtifactError
  end.

Definition artifact_string (value : Json) : result (list Z) :=
  match value with JString s => do* throw_if (bool_decide (s = [])) ArtifactError; Ok s | _ => Err ArtifactError end.

Definition require_unsigned (value : Json) (positive : bool) : result Z :=
  match value with JUnsigned u => do* throw_if (positive && (u =? 0)) ArtifactError; Ok u | _ => Err ArtifactError end.

Definition parse_format (name : list Z) : result NumericFormat :=
  if bool_decide (name = bytes_of "BF16") then Ok BF16
  else if bool_decide (name = bytes_of "FP32") then Ok FP32
  else if bool_decide (name = bytes_of "I32") then Ok I32
  else if bool_decide (name = bytes_of "Q4G64_F16S") then Ok Q4G64_F16S
  else if bool_decide (name = bytes_of "Q5G64_F16S") then Ok Q5G64_F16S
  else if bool_decide (name = bytes_of "Q6G64_F16S") then Ok Q6G64_F16S
  else if bool_decide (name = bytes_of "W8G32_F16S") then Ok W8G32_F16S
  else if bool_decide (name = bytes_of "NVFP4") then Ok NVFP4
  else if bool_decide (name = bytes_of "FP8_E4M3FN_ROW_BF16S") then Ok FP8_E4M3FN_ROW_BF16S
  else Err ArtifactError.

Definition parse_layout (name : list Z) : result StorageLayout :=
  if bool_decide (name = bytes_of "contiguous-le-v1") then Ok ContiguousLeV1
  else if bool_decide (name = bytes_of "row-split-k128-v1") then Ok RowSplitK128V1
  else if bool_decide (name = bytes_of "blockscale-k16-m128x4-v1") then Ok BlockScaleK16M128x4V1
  else if bool_decide (name = bytes_of "row-scale-v1") then Ok RowScaleV1
  else Err ArtifactError.

Definition parse_encoding (name : list Z) : result ResourceEncoding :=
  if bool_decide (name = bytes_of "raw-bytes-v1") then Ok RawBytesV1 else Err ArtifactError.

(** A member read by its reader. *)
Definition member {A} (value : Json) (field : list Z) (read : Json -> result A) : result A :=
  let* v := json_at value field in read v.

Definition tensor_members : list (list Z) :=
  [bytes_of "name"; bytes_of "kind"; bytes_of "shape"; bytes_of "format"; bytes_of "layout"; bytes_of "offset"; bytes_of "bytes"].
Definition resource_members : list (list Z) :=
  [bytes_of "name"; bytes_of "kind"; bytes_of "encoding"; bytes_of "offset"; bytes_of "bytes"].

Definition parse_tensor (value : Json) : result TensorDescriptor :=
  do* require_members value tensor_members;
  let* name := member value (bytes_of "name") artifact_string in
  let* format := member value (bytes_of "format") (fun v => let* s := artifact_string v in parse_format s) in
  let* layout := member value (bytes_of "layout") (fun v => let* s := artifact_string v in parse_layout s) in
  let* offset := member value (bytes_of "offset") (fun v => require_unsigned v false) in
  let* stored_size := member value (bytes_of "bytes") (fun v => require_unsigned v true) in
  let* raw_shape := json_at value (bytes_of "shape") in
  let* shape := match raw_shape with
                | JArray dims => rmapM (fun dim => require_unsigned dim true) dims
                | _ => Err ArtifactError
                end in
  let* expected_size := tensor_encoded_size layout format shape in
  do* throw_if (negb (stored_size =? expected_size)) ArtifactError;
  Ok (mkTensorDescriptor name shape format layout offset stored_size).

Definition parse_resource (value : Json) : result ResourceDescriptor :=
  do* require_members value resource_members;
  let* name := member value (bytes_of "name") artifact_string in
  let* encoding := member value (bytes_of "encoding") (fun v => let* s := artifact_string v in parse_encoding s) in
  let* offset := member value (bytes_of "offset") (fun v => require_unsigned v false) in
  let* bytes := member value (bytes_of "bytes") (fun v => require_unsigned v true) in
  Ok (mkResourceDescriptor name encoding offset bytes).

Definition parse_object (value : Json) : result ObjectDescriptor :=
  match value with
  | JObject items =>
      match json_find (bytes_of "kind") items with
      | Some (JString kind) =>
          if bool_decide (kind = bytes_of "tensor") then let* t := parse_tensor value in Ok (TensorObject t)
          else if bool_decide (kind = bytes_of "resource") then let* r := parse_resource value in Ok (ResourceObject r)
          else Err ArtifactError
      | _ => Err ArtifactError
      end
  | _ => Err ArtifactError
  end.

(** ** [Reader] *)

Definition kMagic : list Z := [78; 73; 78; 70; 69; 82; 0; 2].
Definition kV1Magic : list Z := [78; 73; 78; 70; 69; 82; 0; 1].
Definition kPrefixBytes : Z := 16.
Definition kPayloadAlignment : Z := 4096.
Definition direct_io_alignment : Z := 4096.

Definition read_u64_le (data : list Z) : Z :=
  foldl (fun value i => Z.lor value (Z.shiftl (nth i data 0) (Z.of_nat i * 8))) 0 (seq 0 8).

Record ArtifactIdentity : Set := mkArtifactIdentity { model_id : list Z; weights_id : list Z }.

Record Reader : Type := mkReader {
  rdr_file : list Z;
  rdr_identity : ArtifactIdentity;
  entries : list ObjectDescriptor;
  index : gmap (list Z) nat;
  payload_start : Z;
}.

(** One turn of the loop over the objects: the entries, their index and the end of the last one. *)
Definition read_object (payload_bytes : Z) (st : list ObjectDescriptor * gmap (list Z) nat * Z) (raw_object : Json)
  : result (list ObjectDescriptor * gmap (list Z) nat * Z) :=
  let '(entries, index, cursor) := st in
  let* object := parse_object raw_object in
  do* throw_if (object_offset object <? cursor) ArtifactError;
  do* throw_if (negb (object_offset object mod object_alignment object =? 0)) ArtifactError;
  let* end_ := artifact_add (object_offset object) (object_bytes object) in
  do* throw_if (end_ >? payload_bytes) ArtifactError;
  do* throw_if (is_some (index !! object_name object)) ArtifactError;
  Ok (entries ++ [object], <[object_name object := length entries]> index, end_).

Section Open.
Context (json_parse : list Z -> option Json).

(** [Reader::Impl::Impl], after mapping the file. *)
Definition open_reader (file : list Z) : result Reader :=
  let size := Z.of_nat (length file) in
  do* throw_if (size <? kPrefixBytes) ArtifactError;
  do* throw_if (bool_decide (take 8 file = kV1Magic)) ArtifactError;
  do* throw_if (negb (bool_decide (take 8 file = kMagic))) ArtifactError;
  let json_bytes := read_u64_le (drop 8 file) in
  do* throw_if (json_bytes =? 0) ArtifactError;
  let* metadata_end := artifact_add kPrefixBytes json_bytes in
  let* payload_start := artifact_align_up metadata_end kPayloadAlignment in
  do* throw_if ((metadata_end >? size) || (payload_start >? size)) ArtifactError;
  match json_parse (take (Z.to_nat json_bytes) (drop (Z.to_nat kPrefixBytes) file)) with
  | None => Err ArtifactError
  | Some directory =>
      do* require_members directory [bytes_of "identity"; bytes_of "objects"];
      let* raw_identity := json_at directory (bytes_of "identity") in
      do* require_members raw_identity [bytes_of "model_id"; bytes_of "weights_id"];
      let* model := member raw_identity (bytes_of "model_id") artifact_string in
      let* weights := member raw_identity (bytes_of "weights_id") artifact_string in
      let* raw_objects := json_at directory (bytes_of "objects") in
      match raw_objects with
      | JArray (first :: rest) =>
          let* (entries, index, _) := rfoldl (read_object (size - payload_start)) ([], ∅, 0) (first :: rest) in
          Ok (mkReader file (mkArtifactIdentity model weights) entries index payload_start)
      | _ => Err ArtifactError
      end
  end.
End Open.

Definition file_bytes (r : Reader) : Z := Z.of_nat (length (rdr_file r)).

(** [Reader::find]: the index of the object. *)
Definition find (r : Reader) (name : list Z) : option nat := index r !! name.

Record PayloadSpan : Set := mkPayloadSpan { absolute_offset : Z; span_data : list Z }.

Definition payload (r : Reader) (object : ObjectDescriptor) : result PayloadSpan :=
  let* absolute := artifact_add (payload_start r) (object_offset object) in
  let* end_ := artifact_add absolute (object_bytes object) in
  do* throw_if (end_ >? file_bytes r) ArtifactError;
  Ok (mkPayloadSpan absolute (take (Z.to_nat (object_bytes object)) (drop (Z.to_nat absolute) (rdr_file r)))).

Definition payload_of_name (r : Reader) (name : list Z) : result PayloadSpan :=
  match find r name with
  | None => Err ArtifactError
  | Some i => match entries r !! i with Some object => payload r object | None => Err Abort_ end
  end.

(** [MappedFile::read_direct] into [size] bytes at the address [data]; [pread] is the system call, [None] for an
    error other than an interruption. *)
Definition read_direct (pread : Z -> Z -> option (list Z)) (absolute_offset data size : Z) : result (list Z) :=
  do* throw_if (negb (absolute_offset mod direct_io_alignment =? 0) || negb (size mod direct_io_alignment =? 0) ||
                negb (data mod direct_io_alignment =? 0)) ArtifactError;
  do* throw_if ((absolute_offset >? i64_max) || (size >? i64_max)) ArtifactError;
  match pread absolute_offset size with Some bytes => Ok bytes | None => Err RuntimeError end.

(** ** [Binder] *)

(** [ObjectHandle]: the index of the object. *)
Notation ObjectHandle := nat (only parsing).
Inductive TensorPlacement : Set := Device_ | ValidateOnly.

Record DeviceMaterialization : Set := mkDeviceMat { dm_object : ObjectHandle; dm_offset : Z; dm_bytes : Z; dm_alignment : Z }.
Record MaterializationPlan : Set := mkPlan {
  object_count : nat; device_capacity_bytes : Z; device_objects : list DeviceMaterialization; host_objects : list ObjectHandle;
}.
Record Binder : Set := mkBinder { consumed : list bool; planned : list bool; materialization : MaterializationPlan }.

Definition binder_align_up (value alignment : Z) : result Z :=
  let mask := u64 (alignment - 1) in
  do* throw_if (value >? u64_max - mask) ArtifactError;
  Ok (Z.land (value + mask) (u64_not mask)).

Section Binder.
Context (reader : Reader).

Definition make_binder : Binder :=
  let n := length (entries reader) in
  mkBinder (replicate n false) (replicate n false) (mkPlan n 0 [] []).

Definition find_unconsumed (name : list Z) : M Binder ObjectHandle :=
  match find reader name with
  | None => mthrow ArtifactError
  | Some i =>
      let! b := mget in
      let! used := mderef (consumed b !! i) in
      do! mthrow_if used ArtifactError;
      do! mput (mkBinder (<[i := true]> (consumed b)) (planned b) (materialization b));
      mret_ i
  end.

Definition descriptor (handle : ObjectHandle) : result ObjectDescriptor :=
  match entries reader !! handle with Some o => Ok o | None => Err ArtifactError end.

Definition require_tensor (name : list Z) (format : NumericFormat) (layout : StorageLayout) (shape : list Z)
  : M Binder ObjectHandle :=
  let! handle := find_unconsumed name in
  let! object := mlift (descriptor handle) in
  match object with
  | ResourceObject _ => mthrow ArtifactError
  | TensorObject t =>
      do! mthrow_if (negb (bool_decide (td_format t = format)) || negb (bool_decide (td_layout t = layout)) ||
                     negb (bool_decide (td_shape t = shape))) ArtifactError;
      mret_ handle
  end.

Definition require_resource (name : list Z) (encoding : ResourceEncoding) : M Binder ObjectHandle :=
  let! handle := find_unconsumed name in
  let! object := mlift (descriptor handle) in
  match object with
  | TensorObject _ => mthrow ArtifactError
  | ResourceObject r =>
      do! mthrow_if (negb (bool_decide (rd_encoding r = encoding))) ArtifactError;
      mret_ handle
  end.

Definition binder_payload (handle : ObjectHandle) : result PayloadSpan := let* o := descriptor handle in payload reader o.

(** [if (planned_[handle.index]) throw] *)
Definition check_unplanned (handle : ObjectHandle) : M Binder unit :=
  let! b := mget in
  let! p := mderef (planned b !! handle) in
  mthrow_if p ArtifactError.

Definition materialize_on_device (handle : ObjectHandle) : M Binder unit :=
  let! object := mlift (descriptor handle) in
  match object with
  | ResourceObject _ => mthrow ArtifactError
  | TensorObject t =>
      do! check_unplanned handle;
      let! b := mget in
      let m := materialization b in
      let alignment := tensor_alignment (td_layout t) in
      let! offset := mlift (binder_align_up (device_capacity_bytes m) alignment) in
      do! mthrow_if (td_bytes t >? u64_max - offset) ArtifactError;
      mput (mkBinder (consumed b) (<[handle := true]> (planned b))
              (mkPlan (object_count m) (offset + td_bytes t)
                 (device_objects m ++ [mkDeviceMat handle offset (td_bytes t) alignment]) (host_objects m)))
  end.

Definition retain_on_host (handle : ObjectHandle) : M Binder unit :=
  let! object := mlift (descriptor handle) in
  match object with
  | TensorObject _ => mthrow ArtifactError
  | ResourceObject _ =>
      do! check_unplanned handle;
      mmodify (fun b => let m := materialization b in
        mkBinder (consumed b) (<[handle := true]> (planned b))
          (mkPlan (object_count m) (device_capacity_bytes m) (device_objects m) (host_objects m ++ [handle])))
  end.

Definition validate_only (handle : ObjectHandle) : M Binder unit :=
  let! _ := mlift (descriptor handle) in
  do! check_unplanned handle;
  mmodify (fun b => mkBinder (consumed b) (<[handle := true]> (planned b)) (materialization b)).

(** The plan is moved out. *)
Definition finish : M Binder MaterializationPlan :=
  let! b := mget in
  do! mthrow_if (existsb negb (consumed b)) ArtifactError;
  do! mthrow_if (existsb negb (planned b)) ArtifactError;
  do! mput (mkBinder (consumed b) (planned b)
              (mkPlan (object_count (materialization b)) (device_capacity_bytes (materialization b)) [] []));
  mret_ (materialization b).

(** ** [typed_binding]: binding *)

Definition storage_layout_for (format : NumericFormat) : StorageLayout :=
  match format with
  | BF16 | FP32 | I32 => ContiguousLeV1
  | Q4G64_F16S | Q5G64_F16S | Q6G64_F16S | W8G32_F16S => RowSplitK128V1
  | NVFP4 => BlockScaleK16M128x4V1
  | FP8_E4M3FN_ROW_BF16S => RowScaleV1
  end.

Definition bind_tensor (name : list Z) (format : NumericFormat) (shape : list Z) (placement : TensorPlacement)
  : M Binder ObjectHandle :=
  let! handle := require_tensor name format (storage_layout_for format) shape in
  do! match placement with Device_ => materialize_on_device handle | ValidateOnly => validate_only handle end;
  mret_ handle.
Definition bind_device_tensor (name : list Z) (format : NumericFormat) (shape : list Z) : M Binder ObjectHandle :=
  bind_tensor name format shape Device_.

Definition bind_raw_resource (name : list Z) : M Binder ObjectHandle :=
  let! handle := require_resource name RawBytesV1 in
  do! retain_on_host handle;
  mret_ handle.
End Binder.
