(* ===== verification/ArtifactProofs.v ===== *)
(** * What opening an artifact checks

    The encoded sizes are those of the layouts' planes; an opened artifact is exactly one whose prefix, directory
    and objects are well formed, and its payloads are disjoint, aligned and inside of the file. *)
From Stdlib Require Import Strings.String.
From stdpp Require Import gmap sorting.
From S2P Require Import Prelude Unicode UnicodeProofs Tokenizer Artifact.
#[local] Open Scope Z_scope.
#[local] Open Scope ninfer_scope.

(** ** Checked arithmetic *)

Lemma artifact_add_Ok a b c : artifact_add a b = Ok c <-> c = a + b /\ a + b <= u64_max.
Proof.
  unfold artifact_add. rewrite Z.gtb_ltb. destruct (Z.ltb_spec (u64_max - a) b); cbn; split; try done; try lia.
  - intros [= <-]. lia.
  - by intros [-> _].
Qed.

Lemma artifact_mul_Ok a b c : 0 <= a -> 0 <= b -> artifact_mul a b = Ok c <-> c = a * b /\ a * b <= u64_max.
Proof.
  intros Ha Hb. unfold artifact_mul. destruct (Z.eqb_spec a 0) as [->|Hne].
  - cbn. unfold u64. rewrite Z.mod_0_l by lia. split; [intros [= <-]; unfold u64_max; lia|by intros [-> _]].
  - cbn [negb andb]. rewrite Z.gtb_ltb. destruct (Z.ltb_spec (u64_max / a) b) as [Hlt|Hle]; cbn [throw_if rbind].
    + split; [done|]. intros [_ Hm]. apply Z.div_le_mono with (c := a) in Hm; [|lia]. rewrite Z.mul_comm, Z.div_mul in Hm by done. lia.
    + pose proof (Z.mul_div_le u64_max a ltac:(lia)). assert (a * b <= u64_max) by nia.
      rewrite u64_small by (unfold u64_max in *; unfold_ints; nia). split; [by intros [= <-]|by intros [-> _]].
Qed.

Lemma artifact_align_up_Ok v a c : 0 < a -> artifact_align_up v a = Ok c <-> c = align_Z v a /\ v + (a - 1) <= u64_max.
Proof.
  intros Ha. unfold artifact_align_up. rewrite rbind_Ok. unfold align_Z. replace (v + a - 1) with (v + (a - 1)) by lia. split.
  - intros (b & Hb & [= <-]). apply artifact_add_Ok in Hb as [-> Hb]. done.
  - intros [-> Hv]. exists (v + (a - 1)). split; [by apply artifact_add_Ok|done].
Qed.

Lemma artifact_add_Err a b e : artifact_add a b = Err e -> e = ArtifactError.
Proof. unfold artifact_add. destruct (b >? u64_max - a); [|done]. by intros [= <-]. Qed.
Lemma artifact_mul_Err a b e : artifact_mul a b = Err e -> e = ArtifactError.
Proof. unfold artifact_mul. destruct (_ && _); [|done]. by intros [= <-]. Qed.
Lemma artifact_align_up_Err v a e : artifact_align_up v a = Err e -> e = ArtifactError.
Proof. unfold artifact_align_up. destruct (artifact_add v (a - 1)) eqn:E; [done|]. intros [= <-]. by eapply artifact_add_Err. Qed.

(** The alignment divides the range of the integers: the biased sum fits exactly when the rounded one does. *)
Lemma align_fits v a : 0 < a -> 0 <= v -> (a | u64_max + 1) -> v + (a - 1) <= u64_max <-> align_Z v a <= u64_max.
Proof.
  intros Ha Hv Hd. pose proof (align_Z_spec v a Ha) as [Hr Hda]. split; intros H; [lia|].
  assert (Hlt : align_Z v a + a <= u64_max + 1).
  { destruct Hd as [q Hq], Hda as [p Hp]. assert (p < q) by nia. nia. }
  lia.
Qed.

Lemma artifact_add_run a b : a + b <= u64_max -> artifact_add a b = Ok (a + b).
Proof. intros H. by apply artifact_add_Ok. Qed.
Lemma artifact_mul_run a b : 0 <= a -> 0 <= b -> a * b <= u64_max -> artifact_mul a b = Ok (a * b).
Proof. intros Ha Hb H. by apply artifact_mul_Ok. Qed.
Lemma artifact_align_run v a : 0 < a -> 0 <= v -> (a | u64_max + 1) -> align_Z v a <= u64_max -> artifact_align_up v a = Ok (align_Z v a).
Proof. intros Ha Hv Hd H. apply artifact_align_up_Ok; [done|]. split; [done|]. by apply align_fits. Qed.

(** ** Encoded sizes *)

Definition quant_of (format : NumericFormat) : option (Z * Z * Z) :=
  match format with
  | Q4G64_F16S => Some (64, 32, 0) | Q5G64_F16S => Some (64, 32, 8) | Q6G64_F16S => Some (64, 32, 16)
  | W8G32_F16S => Some (32, 32, 0) | _ => None
  end.
Definition word_of (format : NumericFormat) : option Z := match format with BF16 => Some 2 | FP32 | I32 => Some 4 | _ => None end.

(** The bytes of a tensor, over the integers.  A row-split tensor pads its rows to 128 columns and has a plane of low
    bits, one of high bits and one of scales; a block-scaled one has two codes a byte, a scale for 16 of them and a
    divisor; a row-scaled one has a code a byte and a scale a row.  Planes start at multiples of 256. *)
Definition encoded_size (layout : StorageLayout) (format : NumericFormat) (shape : list Z) : option Z :=
  match layout, shape with
  | ContiguousLeV1, _ =>
      if (length shape <=? 16)%nat && forallb (Z.ltb 0) shape
      then (fun word => foldr Z.mul 1 shape * word) <$> word_of format else None
  | RowSplitK128V1, [rows; columns] =>
      if (0 <? rows) && (0 <? columns) then
        (fun '(group, low, high) =>
           let groups := rows * (align_Z columns 128 / group) in
           align_Z (groups * low) 256 + align_Z (groups * high) 256 + groups * 2) <$> quant_of format
      else None
  | BlockScaleK16M128x4V1, [rows; columns] =>
      if (0 <? rows) && (0 <? columns) && (rows mod 128 =? 0) && (columns mod 64 =? 0) && bool_decide (format = NVFP4)
      then Some (align_Z (rows * columns / 2) 256 + rows * columns / 16 + 4) else None
  | RowScaleV1, [rows; columns] =>
      if (0 <? rows) && (0 <? columns) && bool_decide (format = FP8_E4M3FN_ROW_BF16S)
      then Some (align_Z (rows * columns) 256 + rows * 2) else None
  | _, _ => None
  end.

Definition dims_ok (shape : list Z) : Prop := Forall is_u64 shape.

Lemma rank_two_Ok shape r c : rank_two shape = Ok (r, c) <-> shape = [r; c] /\ r <> 0 /\ c <> 0.
Proof.
  unfold rank_two. destruct shape as [|x [|y [|]]]; try (split; [done|by intros [? _]]).
  destruct (Z.eqb_spec x 0), (Z.eqb_spec y 0); cbn; split; try done; try (by intros [[= -> ->] [? ?]]). by intros [= <- <-].
Qed.
Lemma rank_two_Err shape e : rank_two shape = Err e -> e = ArtifactError.
Proof. unfold rank_two. destruct shape as [|x [|y [|]]]; try (by intros [= <-]). destruct (_ || _); [|done]. by intros [= <-]. Qed.

Lemma align_nonneg v a : 0 < a -> 0 <= v -> 0 <= align_Z v a.
Proof. intros Ha Hv. pose proof (align_Z_spec v a Ha). lia. Qed.

Lemma quant_geometry_Ok format g : quant_geometry format = Ok g <->
  quant_of format = Some (qg_group_size g, base_bytes_per_group g, qg_high_bytes_per_group g).
Proof. destruct g. destruct format; cbn; split; try done; by intros [= <- <- <-]. Qed.

Lemma quant_of_pos format group low high : quant_of format = Some (group, low, high) -> 0 < group /\ 0 < low /\ 0 <= high.
Proof. destruct format; cbn; intros H; try done; injection H as <- <- <-; lia. Qed.

(** The sizes of a row-split tensor, in the order of its computation. *)
Record row_split_sizes (rows columns group low high padded groups : Z) : Prop := {
  rs_padded : padded = align_Z columns 128;
  rs_groups : groups = rows * (padded / group);
  rs_nonneg : 0 <= groups;
  rs_fits_padded : padded <= u64_max;
  rs_fits : align_Z (groups * low) 256 + align_Z (groups * high) 256 + groups * 2 <= u64_max;
}.

Lemma row_split_geometry_Ok format rows columns g : 0 <= rows -> 0 <= columns -> row_split_geometry format [rows; columns] = Ok g <->
  exists group low high padded groups, quant_of format = Some (group, low, high) /\ 0 < rows /\ 0 < columns /\
    row_split_sizes rows columns group low high padded groups /\
    g = mkRowSplit rows columns padded group (padded / group) low high (groups * low) (align_Z (groups * low) 256) (groups * high)
          (align_Z (groups * low) 256 + align_Z (groups * high) 256) (groups * 2)
          (align_Z (groups * low) 256 + align_Z (groups * high) 256 + groups * 2).
Proof.
  intros Hr Hc. assert (H256 : (256 | u64_max + 1)) by by_compute. assert (H128 : (128 | u64_max + 1)) by by_compute. split.
  - intros H. unfold row_split_geometry in H. rinv. destruct v as [r' c']. rinv. apply rank_two_Ok in Hv as ([= <- <-] & Hr0 & Hc0).
    apply quant_geometry_Ok in Hv0. destruct (quant_of_pos _ _ _ _ Hv0) as (Hg & Hl & Hh).
    apply artifact_align_up_Ok in Hv1 as [-> Hp]; [|done]. apply align_fits in Hp; [|done..].
    pose proof (align_nonneg columns kKAlignment ltac:(done) Hc) as Hp0.
    pose proof (Z.div_pos _ (qg_group_size v) Hp0 Hg) as Hq.
    apply artifact_mul_Ok in Hv2 as [-> Hm]; [|done..]. set (groups := rows * _) in *. assert (0 <= groups) by (unfold groups; nia).
    apply artifact_mul_Ok in Hv3 as [-> Hm3]; [|lia..]. apply artifact_mul_Ok in Hv4 as [-> Hm4]; [|lia..].
    apply artifact_mul_Ok in Hv5 as [-> Hm5]; [|lia..].
    apply artifact_align_up_Ok in Hv6 as [-> Ha6]; [|done]. apply artifact_align_up_Ok in Hv7 as [-> Ha7]; [|done].
    apply artifact_add_Ok in Hv8 as [-> Ha8]. apply artifact_add_Ok in Hv9 as [-> Ha9]. subst g.
    exists (qg_group_size v), (base_bytes_per_group v), (qg_high_bytes_per_group v), (align_Z columns 128), groups.
    split; [done|]. split; [lia|]. split; [lia|]. split; [by split|done].
  - intros (group & low & high & padded & groups & Hq & Hr0 & Hc0 & [-> -> Hg Hp Hf] & ->). destruct (quant_of_pos _ _ _ _ Hq) as (Hg0 & Hl & Hh).
    unfold row_split_geometry. rewrite (proj2 (rank_two_Ok _ rows columns)) by (split; [done|lia]). cbn [rbind].
    rewrite (proj2 (quant_geometry_Ok format (mkQuant group low high)) Hq). cbn [rbind qg_group_size base_bytes_per_group qg_high_bytes_per_group].
    rewrite artifact_align_run by done. cbn [rbind].
    pose proof (align_nonneg columns 128 ltac:(done) Hc) as Hp0. pose proof (Z.div_pos _ group Hp0 Hg0) as Hdiv.
    set (groups := rows * (align_Z columns 128 / group)) in *. change kKAlignment with 128. change kTensorAlignment with 256.
    pose proof (align_Z_spec (groups * low) 256 ltac:(done)) as [Al _]. pose proof (align_Z_spec (groups * high) 256 ltac:(done)) as [Ah _].
    assert (0 <= groups * low) by nia. assert (0 <= groups * high) by nia. assert (groups <= groups * low) by nia.
    rewrite artifact_mul_run by (done || (fold groups; lia)). fold groups. cbn [rbind].
    rewrite (artifact_mul_run groups low) by lia. cbn [rbind].
    rewrite (artifact_mul_run groups high) by lia. cbn [rbind].
    rewrite (artifact_mul_run groups 2) by lia. cbn [rbind].
    rewrite (artifact_align_run (groups * low) 256) by (done || lia). cbn [rbind].
    rewrite (artifact_align_run (groups * high) 256) by (done || lia). cbn [rbind].
    rewrite artifact_add_run by lia. cbn [rbind].
    rewrite artifact_add_run by lia. done.
Qed.

Lemma block_scale_geometry_Ok format rows columns g : 0 <= rows -> 0 <= columns -> block_scale_geometry format [rows; columns] = Ok g <->
  format = NVFP4 /\ 0 < rows /\ 0 < columns /\ rows mod 128 = 0 /\ columns mod 64 = 0 /\ rows * columns <= u64_max /\
  let code := rows * columns / 2 in let scale := rows * columns / 16 in
  align_Z code 256 + scale + 4 <= u64_max /\
  g = mkBlockScale rows columns (columns / 16) (columns / 64) code (align_Z code 256) scale (align_Z code 256 + scale)
        (align_Z code 256 + scale + 4).
Proof.
  intros Hr Hc. assert (H256 : (256 | u64_max + 1)) by by_compute. cbv zeta. split.
  - intros H. unfold block_scale_geometry in H. rinv. destruct v0 as [r' c']. rinv. apply rank_two_Ok in Hv0 as ([= <- <-] & Hr0 & Hc0).
    apply artifact_mul_Ok in Hv2 as [-> Hm]; [|done..]. apply artifact_align_up_Ok in Hv3 as [-> Ha]; [|done].
    apply artifact_add_Ok in Hv4 as [-> Hd]. apply artifact_add_Ok in Hv5 as [-> He]. subst g. split_and!; try done; lia.
  - intros (-> & Hr0 & Hc0 & Hr128 & Hc64 & Hm & Hf & ->). unfold block_scale_geometry. cbn [throw_if rbind bool_decide].
    rewrite bool_decide_eq_true_2 by done. cbn [negb throw_if rbind].
    rewrite (proj2 (rank_two_Ok _ rows columns)) by (split; [done|lia]). cbn [rbind]. rewrite Hr128, Hc64. cbn [Z.eqb negb orb throw_if rbind].
    rewrite (artifact_mul_run rows columns) by lia. cbn [rbind].
    assert (0 <= rows * columns / 2) by (apply Z.div_pos; nia). assert (0 <= rows * columns / 16) by (apply Z.div_pos; nia).
    change kTensorAlignment with 256. rewrite (artifact_align_run (rows * columns / 2) 256) by (done || lia). cbn [rbind].
    rewrite artifact_add_run by lia. cbn [rbind].
    rewrite artifact_add_run by lia. done.
Qed.

Lemma row_scale_geometry_Ok format rows columns g : 0 <= rows -> 0 <= columns -> row_scale_geometry format [rows; columns] = Ok g <->
  format = FP8_E4M3FN_ROW_BF16S /\ 0 < rows /\ 0 < columns /\ align_Z (rows * columns) 256 + rows * 2 <= u64_max /\
  g = mkRowScale rows columns (rows * columns) (align_Z (rows * columns) 256) (rows * 2) (align_Z (rows * columns) 256 + rows * 2).
Proof.
  intros Hr Hc. assert (H256 : (256 | u64_max + 1)) by by_compute. pose proof (align_Z_spec (rows * columns) 256 ltac:(done)) as [Ha _]. split.
  - intros H. unfold row_scale_geometry in H. rinv. destruct v0 as [r' c']. rinv. apply rank_two_Ok in Hv0 as ([= <- <-] & Hr0 & Hc0).
    apply artifact_mul_Ok in Hv1 as [-> Hm]; [|done..]. apply artifact_align_up_Ok in Hv2 as [-> Ha']; [|done].
    apply artifact_mul_Ok in Hv3 as [-> Hd]; [|lia..]. apply artifact_add_Ok in Hv4 as [-> He]. subst g. split_and!; try done; lia.
  - intros (-> & Hr0 & Hc0 & Hf & ->). unfold row_scale_geometry.
    rewrite bool_decide_eq_true_2 by done. cbn [negb throw_if rbind].
    rewrite (proj2 (rank_two_Ok _ rows columns)) by (split; [done|lia]). cbn [rbind].
    rewrite (artifact_mul_run rows columns) by lia. cbn [rbind]. change kTensorAlignment with 256.
    rewrite (artifact_align_run (rows * columns) 256) by (done || nia). cbn [rbind].
    assert (0 <= align_Z (rows * columns) 256) by nia.
    rewrite (artifact_mul_run rows 2) by lia. cbn [rbind].
    rewrite artifact_add_run by lia. done.
Qed.

(** The product of the dimensions, computed with checks. *)
Definition shape_product (acc : Z) (shape : list Z) : result Z :=
  rfoldl (fun elements dim => do* throw_if (dim =? 0) ArtifactError; artifact_mul elements dim) acc shape.

Lemma shape_product_Ok shape : forall acc n, 0 < acc <= u64_max -> dims_ok shape -> shape_product acc shape = Ok n <->
  forallb (Z.ltb 0) shape = true /\ n = acc * foldr Z.mul 1 shape /\ n <= u64_max.
Proof.
  induction shape as [|d shape IH]; intros acc n Hacc Hd; cbn [shape_product rfoldl forallb foldr].
  { rewrite Z.mul_1_r. split; [intros [= <-]; split_and!; [done..|lia]|by intros (_ & -> & _)]. }
  apply Forall_cons in Hd as [[Hd0 Hdm] Hd]. destruct (Z.eqb_spec d 0) as [->|Hne]; cbn [throw_if rbind].
  { split; [done|by intros (? & _)]. }
  destruct (artifact_mul acc d) as [m|e] eqn:Em; cbn [rbind].
  - apply artifact_mul_Ok in Em as [-> Hm]; [|lia..]. fold (shape_product (acc * d) shape).
    rewrite IH by (done || nia). rewrite (proj2 (Z.ltb_lt 0 d)) by lia. cbn [andb]. by rewrite Z.mul_assoc.
  - split; [done|]. rewrite (proj2 (Z.ltb_lt 0 d)) by lia. cbn [andb]. intros (Hall & -> & Hm). exfalso.
    assert (Hp : 1 <= foldr Z.mul 1 shape).
    { clear -Hall. induction shape as [|x shape IH]; cbn in *; [lia|]. apply andb_true_iff in Hall as [Hx%Z.ltb_lt Hs]. specialize (IH Hs). nia. }
    assert (Hok : artifact_mul acc d = Ok (acc * d)) by (apply artifact_mul_Ok; [lia..|]; split; [done|nia]). congruence.
Qed.

(** What must fit besides the size itself. *)
Definition extents_fit (layout : StorageLayout) (shape : list Z) : Prop :=
  match layout, shape with
  | RowSplitK128V1, [_; columns] => align_Z columns 128 <= u64_max
  | BlockScaleK16M128x4V1, [rows; columns] => rows * columns <= u64_max
  | _, _ => True
  end.

Lemma shape_product_Err shape : forall acc e, shape_product acc shape = Err e -> e = ArtifactError.
Proof.
  induction shape as [|d shape IH]; intros acc e H; [done|]. cbn [shape_product rfoldl] in H. destruct (d =? 0); cbn [throw_if rbind] in H; [by injection H as <-|].
  destruct (artifact_mul acc d) as [m|e'] eqn:Em; cbn [rbind] in H; [by eapply IH|]. injection H as <-. by eapply artifact_mul_Err.
Qed.

(** Every failure of a computation of these files is an [ArtifactError]. *)
Ltac artifact_err :=
  repeat match goal with
  | H : Err _ = Err _ |- _ => injection H as <-
  | H : Ok _ = Err _ |- _ => discriminate H
  | H : throw_if ?b _ = Err _ |- _ => destruct b; cbn in H
  | H : rbind ?m _ = Err _ |- _ => let E := fresh "E" in destruct m eqn:E; cbn [rbind] in H
  | H : context [let '(_, _) := ?p in _] |- _ => destruct p
  end; eauto using artifact_add_Err, artifact_mul_Err, artifact_align_up_Err, rank_two_Err.

Lemma quant_geometry_Err format e : quant_geometry format = Err e -> e = ArtifactError.
Proof. destruct format; cbn; intros; congruence. Qed.
Lemma row_split_geometry_Err format shape e : row_split_geometry format shape = Err e -> e = ArtifactError.
Proof. unfold row_split_geometry. intros H. artifact_err. by eapply quant_geometry_Err. Qed.
Lemma block_scale_geometry_Err format shape e : block_scale_geometry format shape = Err e -> e = ArtifactError.
Proof. unfold block_scale_geometry. intros H. artifact_err. Qed.
Lemma row_scale_geometry_Err format shape e : row_scale_geometry format shape = Err e -> e = ArtifactError.
Proof. unfold row_scale_geometry. intros H. artifact_err. Qed.

Lemma tensor_encoded_size_Err layout format shape e : tensor_encoded_size layout format shape = Err e -> e = ArtifactError.
Proof.
  unfold tensor_encoded_size. destruct layout; intros H; artifact_err; eauto using row_split_geometry_Err, block_scale_geometry_Err, row_scale_geometry_Err.
  - by destruct format; cbn in *; congruence.
  - by eapply (shape_product_Err shape 1).
Qed.

Lemma contiguous_size_Ok format shape n : dims_ok shape ->
  tensor_encoded_size ContiguousLeV1 format shape = Ok n <-> encoded_size ContiguousLeV1 format shape = Some n /\ n <= u64_max.
Proof.
  intros Hd. unfold tensor_encoded_size, encoded_size. fold (shape_product 1 shape). rewrite Nat.leb_antisym.
  destruct (16 <? length shape)%nat; cbn [throw_if rbind negb andb]; [split; [done|by intros [? _]]|].
  pose proof (fun n => shape_product_Ok shape 1 n ltac:(unfold u64_max; lia) Hd) as Hp.
  assert (Hnn : 0 <= foldr Z.mul 1 shape).
  { clear -Hd. induction Hd as [|d shape [? _] _ IH]; cbn; [lia|nia]. }
  rewrite rbind_Ok. split.
  - intros (m & Hm & H). apply Hp in Hm as (Hall & -> & Hm). rewrite Z.mul_1_l in *. rewrite Hall.
    destruct format; cbn [direct_word_bytes word_of rbind fmap option_fmap option_map] in *; try done;
      apply artifact_mul_Ok in H as [-> H]; done.
  - destruct (forallb _ shape) eqn:Hall; [|by intros [? _]]. intros [Hw Hm]. exists (foldr Z.mul 1 shape).
    destruct format; cbn [direct_word_bytes word_of rbind fmap option_fmap option_map] in *; try done; injection Hw as <-;
      (split; [apply Hp; split_and!; [done|lia|nia]|apply artifact_mul_run; lia]).
Qed.

(** the size of a tensor's payload is that of its layout's planes over the integers, for every layout, format
    and shape; it is refused exactly when the shape or the format do not fit the layout or a size is no 64-bit
    integer, and never wraps around. *)
Theorem tensor_encoded_size_exact layout format shape n : dims_ok shape ->
  (tensor_encoded_size layout format shape = Ok n <->
   encoded_size layout format shape = Some n /\ n <= u64_max /\ extents_fit layout shape) /\
  (forall e, tensor_encoded_size layout format shape = Err e -> e = ArtifactError).
Proof.
  intros Hd. split; [|intros e; apply tensor_encoded_size_Err].
  destruct layout; [rewrite contiguous_size_Ok by done; cbn; tauto|..].
  - destruct shape as [|r [|c [|x shape]]]; try (split; [done|by intros (? & _)]). apply Forall_cons in Hd as [[Hr _] Hd]. apply Forall_cons in Hd as [[Hc _] _].
    cbn [tensor_encoded_size encoded_size extents_fit]. destruct (rank_two [r; c]) as [rc|e] eqn:E2; cbn [rbind].
    + destruct rc as [r' c']. apply rank_two_Ok in E2 as ([= <- <-] & Hr0 & Hc0). rewrite (proj2 (Z.ltb_lt 0 r)), (proj2 (Z.ltb_lt 0 c)) by lia. cbn [andb].
      rewrite rbind_Ok. setoid_rewrite row_split_geometry_Ok; [|done..]. split.
      * intros (g & (group & low & high & padded & groups & Hq & _ & _ & [-> -> _ Hp Hf] & ->) & [= <-]). rewrite Hq. done.
      * destruct (quant_of format) as [[[group low] high]|] eqn:Hq; [|by intros (? & _)]. cbn. intros ([= <-] & Hm & Hp).
        destruct (quant_of_pos _ _ _ _ Hq) as (Hg & _). pose proof (Z.div_pos _ group (align_nonneg c 128 ltac:(done) Hc) Hg).
        eexists. split.
        { exists group, low, high, (align_Z c 128), (r * (align_Z c 128 / group)). split; [done|].
          split; [lia|]. split; [lia|]. split; [|done]. split; try done. nia. }
        done.
    + split; [done|]. intros (He & _). exfalso. destruct (Z.ltb_spec 0 r), (Z.ltb_spec 0 c); try done.
      rewrite (proj2 (rank_two_Ok [r; c] r c)) in E2; [done|]. split; [done|lia].
  - destruct shape as [|r [|c [|x shape]]]; try (split; [|by intros (? & _)]; cbn [tensor_encoded_size]; unfold block_scale_geometry; destruct (bool_decide (format = NVFP4)); cbn; done).
    apply Forall_cons in Hd as [[Hr _] Hd]. apply Forall_cons in Hd as [[Hc _] _].
    cbn [tensor_encoded_size encoded_size extents_fit]. rewrite rbind_Ok. setoid_rewrite block_scale_geometry_Ok; [|done..]. cbv zeta. split.
    + intros (g & (-> & Hr0 & Hc0 & E1 & E2 & Hm & Hf & ->) & [= <-]). rewrite !(proj2 (Z.ltb_lt _ _)), E1, E2 by lia. done.
    + destruct (Z.ltb_spec 0 r), (Z.ltb_spec 0 c), (Z.eqb_spec (r mod 128) 0), (Z.eqb_spec (c mod 64) 0); cbn [andb]; try by intros (? & _).
      case_bool_decide; [|by intros (? & _)]. intros ([= <-] & Hm & He). eexists. split; [split_and!; done|done].
  - destruct shape as [|r [|c [|x shape]]]; try (split; [|by intros (? & _)]; cbn [tensor_encoded_size]; unfold row_scale_geometry; destruct (bool_decide (format = FP8_E4M3FN_ROW_BF16S)); cbn; done).
    apply Forall_cons in Hd as [[Hr _] Hd]. apply Forall_cons in Hd as [[Hc _] _].
    cbn [tensor_encoded_size encoded_size extents_fit]. rewrite rbind_Ok. setoid_rewrite row_scale_geometry_Ok; [|done..]. split.
    + intros (g & (-> & Hr0 & Hc0 & Hf & ->) & [= <-]). rewrite !(proj2 (Z.ltb_lt _ _)) by lia. done.
    + destruct (Z.ltb_spec 0 r), (Z.ltb_spec 0 c); cbn [andb]; try by intros (? & _).
      case_bool_decide; [|by intros (? & _)]. intros ([= <-] & Hm & He). eexists. split; [split_and!; done|done].
Qed.

(** ** The prefix *)

Definition le_value (data : list Z) : Z := foldr (fun b v => b + 256 * v) 0 data.

Lemma le_step acc b k : 0 <= acc < 2 ^ k -> 0 <= k -> 0 <= b -> Z.lor acc (Z.shiftl b k) = acc + b * 2 ^ k.
Proof.
  intros Ha Hk Hb. rewrite Z.lor_comm, Z.shiftl_mul_pow2 by done. rewrite (lor_low k) by (done || (apply Z.mod_mul; lia)). lia.
Qed.

Lemma read_le_from data n : Forall is_byte data -> forall i acc, (i + n <= length data)%nat -> 0 <= acc < 2 ^ (Z.of_nat i * 8) ->
  let r := foldl (fun value i => Z.lor value (Z.shiftl (nth i data 0) (Z.of_nat i * 8))) acc (seq i n) in
  r = acc + 2 ^ (Z.of_nat i * 8) * le_value (take n (drop i data)) /\ 0 <= r < 2 ^ (Z.of_nat (i + n) * 8).
Proof.
  intros Hb. induction n as [|n IH]; intros i acc Hl Ha; cbn [seq foldl].
  { cbv zeta. unfold le_value. cbn [take foldr]. rewrite Z.mul_0_r, Z.add_0_r, Nat.add_0_r. done. }
  destruct (lookup_lt_is_Some_2 data i ltac:(lia)) as [b Hi]. pose proof (Forall_lookup_1 _ _ _ _ Hb Hi) as Hbyte. unfold is_byte in Hbyte.
  rewrite (nth_lookup_Some _ _ _ _ Hi), le_step by lia.
  assert (Hp : 2 ^ (Z.of_nat (S i) * 8) = 2 ^ (Z.of_nat i * 8) * 256) by (replace (Z.of_nat (S i) * 8) with (Z.of_nat i * 8 + 8) by lia; by rewrite Z.pow_add_r by lia).
  destruct (IH (S i) (acc + b * 2 ^ (Z.of_nat i * 8)) ltac:(lia) ltac:(nia)) as [-> Hr]. rewrite (drop_S _ _ _ Hi). cbn [take le_value foldr].
  fold (le_value (take n (drop (S i) data))). replace (i + S n)%nat with (S i + n)%nat by lia. split; [rewrite Hp; lia|done].
Qed.

Lemma read_u64_le_value data : (8 <= length data)%nat -> Forall is_byte data ->
  read_u64_le data = le_value (take 8 data) /\ is_u64 (read_u64_le data).
Proof.
  intros Hl Hb. destruct (read_le_from data 8 Hb 0 0 ltac:(lia) ltac:(cbn; lia)) as [He Hr]. unfold read_u64_le.
  cbn [Nat.add] in Hr. rewrite He in Hr |- *. rewrite drop_0 in *. change (2 ^ (Z.of_nat 0 * 8)) with 1 in *. change (2 ^ (Z.of_nat 8 * 8)) with 18446744073709551616 in Hr.
  unfold is_u64, u64_max. lia.
Qed.

(** ** The directory *)

(** What a parser of JSON promises of its unsigned integers. *)
Fixpoint json_unsigned (v : Json) : Prop :=
  match v with
  | JUnsigned u => is_u64 u
  | JArray items => (fix all (items : list Json) : Prop := match items with [] => True | x :: items' => json_unsigned x /\ all items' end) items
  | JObject items =>
      (fix all (items : list (list Z * Json)) : Prop := match items with [] => True | x :: items' => json_unsigned x.2 /\ all items' end) items
  | _ => True
  end.

Lemma json_unsigned_array items v : json_unsigned (JArray items) -> v ∈ items -> json_unsigned v.
Proof. induction items as [|x items IH]; intros H Hin; [by apply elem_of_nil in Hin|]. destruct H as [Hx H]. apply elem_of_cons in Hin as [->|Hin]; [done|by apply IH]. Qed.
Lemma json_unsigned_object items field v : json_unsigned (JObject items) -> json_find field items = Some v -> json_unsigned v.
Proof.
  induction items as [|[k x] items IH]; intros H Hf; [done|]. destruct H as [Hx H]. cbn in Hf. destruct (bool_decide _); [by injection Hf as <-|by apply IH].
Qed.

(** The entry of an object in the directory: a JSON object with these members. *)
Definition has_member (items : list (list Z * Json)) (field : list Z) (v : Json) : Prop := json_find field items = Some v.

Definition tensor_entry (t : TensorDescriptor) (value : Json) : Prop := exists items,
  value = JObject items /\ length items = 7%nat /\ has_member items (bytes_of "kind") (JString (bytes_of "tensor")) /\
  td_name t <> [] /\ has_member items (bytes_of "name") (JString (td_name t)) /\
  has_member items (bytes_of "format") (JString (format_name (td_format t))) /\
  has_member items (bytes_of "layout") (JString (layout_name (td_layout t))) /\
  has_member items (bytes_of "offset") (JUnsigned (td_offset t)) /\
  has_member items (bytes_of "bytes") (JUnsigned (td_bytes t)) /\ td_bytes t <> 0 /\
  has_member items (bytes_of "shape") (JArray (JUnsigned <$> td_shape t)) /\ Forall (fun d => d <> 0) (td_shape t) /\
  tensor_encoded_size (td_layout t) (td_format t) (td_shape t) = Ok (td_bytes t).

Definition resource_entry (r : ResourceDescriptor) (value : Json) : Prop := exists items,
  value = JObject items /\ length items = 5%nat /\ has_member items (bytes_of "kind") (JString (bytes_of "resource")) /\
  rd_name r <> [] /\ has_member items (bytes_of "name") (JString (rd_name r)) /\
  has_member items (bytes_of "encoding") (JString (encoding_name (rd_encoding r))) /\
  has_member items (bytes_of "offset") (JUnsigned (rd_offset r)) /\
  has_member items (bytes_of "bytes") (JUnsigned (rd_bytes r)) /\ rd_bytes r <> 0.

Definition object_entry (o : ObjectDescriptor) (value : Json) : Prop :=
  match o with TensorObject t => tensor_entry t value | ResourceObject r => resource_entry r value end.

Lemma parse_format_Ok s f : parse_format s = Ok f <-> s = format_name f.
Proof.
  split; [|intros ->; by destruct f]. unfold parse_format. repeat (case_bool_decide as E; [subst s; by intros [= <-]|clear E]). done.
Qed.
Lemma parse_layout_Ok s l : parse_layout s = Ok l <-> s = layout_name l.
Proof.
  split; [|intros ->; by destruct l]. unfold parse_layout. repeat (case_bool_decide as E; [subst s; by intros [= <-]|clear E]). done.
Qed.
Lemma parse_encoding_Ok s e : parse_encoding s = Ok e <-> s = encoding_name e.
Proof. split; [|intros ->; by destruct e]. unfold parse_encoding. case_bool_decide as E; [subst s; by intros [= <-]|done]. Qed.
Lemma artifact_string_Ok v s : artifact_string v = Ok s <-> v = JString s /\ s <> [].
Proof.
  unfold artifact_string. destruct v; try (split; [done|by intros [? _]]). case_bool_decide as E; cbn.
  - split; [done|]. by intros [[= ->] ?].
  - split; [by intros [= <-]|by intros [[= ->] _]].
Qed.
Lemma require_unsigned_Ok v positive u : require_unsigned v positive = Ok u <-> v = JUnsigned u /\ (positive = true -> u <> 0).
Proof.
  unfold require_unsigned. destruct v; try (split; [done|by intros [? _]]). destruct positive; cbn; [destruct (Z.eqb_spec u0 0); cbn|].
  - split; [done|]. intros [[= ->] H]. by specialize (H eq_refl).
  - split; [by intros [= <-]|by intros [[= ->] _]].
  - split; [by intros [= <-]|by intros [[= ->] _]].
Qed.

Lemma member_Ok {A} items field (read : Json -> result A) a :
  member (JObject items) field read = Ok a <-> exists v, has_member items field v /\ read v = Ok a.
Proof.
  unfold member, json_at, has_member. cbn [json_field]. destruct (json_find field items) as [v|]; cbn; [|split; [done|by intros (? & ? & _)]].
  split; [by exists v|]. by intros (v' & [= ->] & ?).
Qed.

Lemma require_members_Ok value members : require_members value members = Ok tt <->
  exists items, value = JObject items /\ length items = length members /\ Forall (fun m => exists v, has_member items m v) members.
Proof.
  unfold require_members. destruct value; try (split; [done|by intros (? & ? & _)]). rewrite rbind_Ok. unfold has_member.
  assert (Hi : riter (fun m => throw_if (negb (is_some (json_find m items))) ArtifactError) members = Ok tt <->
    Forall (fun m => exists v, json_find m items = Some v) members).
  { induction members as [|m members IH]; cbn; [split; [constructor|done]|]. rewrite rbind_Ok, Forall_cons, <- IH. split.
    - intros (u & Hu & H). split; [|done]. destruct (json_find m items) as [v|]; [by exists v|done].
    - intros [(v & Hv) H]. exists tt. by rewrite Hv. }
  split.
  - intros (u & Hu%throw_if_Ok & H). apply negb_false_iff, Nat.eqb_eq in Hu. exists items. split; [done|]. split; [done|]. by apply Hi.
  - intros (items' & [= <-] & Hl & H). exists tt. split; [|by apply Hi]. apply throw_if_Ok. by rewrite Hl, Nat.eqb_refl.
Qed.

Lemma read_shape_Ok dims shape : rmapM (fun dim => require_unsigned dim true) dims = Ok shape <->
  dims = JUnsigned <$> shape /\ Forall (fun d => d <> 0) shape.
Proof.
  rewrite rmapM_Forall2. split.
  - induction 1 as [|v d dims shape H _ [-> IH]]; [done|]. apply require_unsigned_Ok in H as [-> Hd]. split; [done|]. constructor; [by apply Hd|done].
  - intros [-> H]. induction H as [|d shape Hd _ IH]; constructor; [|done]. apply require_unsigned_Ok. by split.
Qed.

Lemma member_run {A} items field (read : Json -> result A) v : has_member items field v -> member (JObject items) field read = read v.
Proof. unfold member, json_at, has_member. cbn [json_field]. by intros ->. Qed.

Lemma parse_tensor_Ok items t : has_member items (bytes_of "kind") (JString (bytes_of "tensor")) ->
  parse_tensor (JObject items) = Ok t <-> tensor_entry t (JObject items).
Proof.
  intros Hkind. unfold parse_tensor, tensor_entry. split.
  - intros H. rinv. destruct v. apply require_members_Ok in Hv as (items' & [= <-] & Hl & _).
    apply member_Ok in Hv0 as (x0 & M0 & [-> Hn]%artifact_string_Ok). apply member_Ok in Hv1 as (x1 & M1 & H1). rinv.
    apply artifact_string_Ok in Hv as [-> _]. apply parse_format_Ok in H1 as ->.
    apply member_Ok in Hv2 as (x2 & M2 & H2). rinv. apply artifact_string_Ok in Hv as [-> _]. apply parse_layout_Ok in H2 as ->.
    apply member_Ok in Hv3 as (x3 & M3 & [-> _]%require_unsigned_Ok). apply member_Ok in Hv4 as (x4 & M4 & [-> Hb]%require_unsigned_Ok).
    unfold json_at in Hv5. cbn [json_field] in Hv5. destruct (json_find _ items) as [x5|] eqn:M5; [|done]. injection Hv5 as <-.
    destruct x5; try done. apply read_shape_Ok in Hv6 as [-> Hs]. subst t. cbn [td_name td_format td_layout td_offset td_bytes td_shape].
    exists items. split_and!; try done; [by apply Hb|congruence].
  - intros (items' & [= <-] & Hl & _ & Hn & M0 & M1 & M2 & M3 & M4 & Hb & M5 & Hs & Hsize). destruct t as [name shape format layout offset bytes].
    cbn [td_name td_format td_layout td_offset td_bytes td_shape] in *.
    rewrite (proj2 (require_members_Ok _ tensor_members)).
    2: { exists items. split; [done|]. split; [done|]. unfold tensor_members. repeat constructor; eauto. }
    cbn [rbind]. rewrite (member_run _ _ _ _ M0), (proj2 (artifact_string_Ok _ name)) by done. cbn [rbind].
    rewrite (member_run _ _ _ _ M1), (proj2 (artifact_string_Ok _ (format_name format))) by (split; [done|by destruct format]). cbn [rbind].
    rewrite (proj2 (parse_format_Ok _ format)) by done. cbn [rbind].
    rewrite (member_run _ _ _ _ M2), (proj2 (artifact_string_Ok _ (layout_name layout))) by (split; [done|by destruct layout]). cbn [rbind].
    rewrite (proj2 (parse_layout_Ok _ layout)) by done. cbn [rbind].
    rewrite (member_run _ _ _ _ M3), (proj2 (require_unsigned_Ok _ _ offset)) by done. cbn [rbind].
    rewrite (member_run _ _ _ _ M4), (proj2 (require_unsigned_Ok _ _ bytes)) by done. cbn [rbind].
    unfold json_at. cbn [json_field]. rewrite M5. cbn [rbind]. rewrite (proj2 (read_shape_Ok _ shape)) by done. cbn [rbind].
    rewrite Hsize. cbn [rbind]. by rewrite Z.eqb_refl.
Qed.

Lemma parse_resource_Ok items r : has_member items (bytes_of "kind") (JString (bytes_of "resource")) ->
  parse_resource (JObject items) = Ok r <-> resource_entry r (JObject items).
Proof.
  intros Hkind. unfold parse_resource, resource_entry. split.
  - intros H. rinv. destruct v. apply require_members_Ok in Hv as (items' & [= <-] & Hl & _).
    apply member_Ok in Hv0 as (x0 & M0 & [-> Hn]%artifact_string_Ok). apply member_Ok in Hv1 as (x1 & M1 & H1). rinv.
    apply artifact_string_Ok in Hv as [-> _]. apply parse_encoding_Ok in H1 as ->.
    apply member_Ok in Hv2 as (x2 & M2 & [-> _]%require_unsigned_Ok). apply member_Ok in Hv3 as (x3 & M3 & [-> Hb]%require_unsigned_Ok).
    subst r. exists items. split_and!; try done. by apply Hb.
  - intros (items' & [= <-] & Hl & _ & Hn & M0 & M1 & M2 & M3 & Hb). destruct r as [name encoding offset bytes].
    cbn [rd_name rd_encoding rd_offset rd_bytes] in *.
    rewrite (proj2 (require_members_Ok _ resource_members)).
    2: { exists items. split; [done|]. split; [done|]. unfold resource_members. repeat constructor; eauto. }
    cbn [rbind]. rewrite (member_run _ _ _ _ M0), (proj2 (artifact_string_Ok _ name)) by done. cbn [rbind].
    rewrite (member_run _ _ _ _ M1), (proj2 (artifact_string_Ok _ (encoding_name encoding))) by (split; [done|by destruct encoding]). cbn [rbind].
    rewrite (proj2 (parse_encoding_Ok _ encoding)) by done. cbn [rbind].
    rewrite (member_run _ _ _ _ M2), (proj2 (require_unsigned_Ok _ _ offset)) by done. cbn [rbind].
    rewrite (member_run _ _ _ _ M3), (proj2 (require_unsigned_Ok _ _ bytes)) by done. done.
Qed.

Lemma parse_object_Ok value o : parse_object value = Ok o <-> object_entry o value.
Proof.
  assert (Hne : bytes_of "tensor" <> bytes_of "resource") by done. split.
  - unfold parse_object. destruct value as [| | | | | | |items]; try done. destruct (json_find _ items) as [[]|] eqn:Hk; try done.
    case_bool_decide as E1; [subst s|case_bool_decide as E2; [subst s|done]]; intros H; rinv; subst o.
    + by apply parse_tensor_Ok.
    + by apply parse_resource_Ok.
  - destruct o as [t|r]; intros H; pose proof H as (items & -> & _ & Hk & _); unfold parse_object; rewrite Hk.
    + rewrite bool_decide_eq_true_2 by done. apply parse_tensor_Ok in H; [|done]. by rewrite H.
    + rewrite bool_decide_eq_false_2, bool_decide_eq_true_2 by done. apply parse_resource_Ok in H; [|done]. by rewrite H.
Qed.

(** ** The objects *)

(** The payloads one after the other, aligned, within [limit]. *)
Fixpoint placed (cursor limit : Z) (objects : list ObjectDescriptor) : Prop :=
  match objects with
  | [] => True
  | o :: objects' =>
      cursor <= object_offset o /\ object_offset o mod object_alignment o = 0 /\ object_offset o + object_bytes o <= limit /\
      placed (object_offset o + object_bytes o) limit objects'
  end.

Definition indexes (objects : list ObjectDescriptor) (idx : gmap (list Z) nat) : Prop :=
  forall name i, idx !! name = Some i <-> exists o, objects !! i = Some o /\ object_name o = name.

Lemma indexes_nodup objects idx : indexes objects idx -> NoDup (object_name <$> objects).
Proof.
  intros H. apply NoDup_alt. intros i j name Hi Hj. rewrite list_lookup_fmap in Hi, Hj.
  apply fmap_Some in Hi as (o & Hi & ->). apply fmap_Some in Hj as (o' & Hj & Hn).
  assert (E1 : idx !! object_name o = Some i) by (apply H; eauto). assert (E2 : idx !! object_name o = Some j) by (apply H; eauto). congruence.
Qed.

Lemma indexes_unique objects idx idx' : indexes objects idx -> indexes objects idx' -> idx = idx'.
Proof.
  intros H H'. apply map_eq. intros name. apply option_eq. intros i. rewrite (H name i). symmetry. apply H'.
Qed.

Lemma indexes_snoc objects idx o : indexes objects idx -> idx !! object_name o = None ->
  indexes (objects ++ [o]) (<[object_name o := length objects]> idx).
Proof.
  intros H Hn name i. destruct (decide (object_name o = name)) as [<-|Hne].
  - rewrite lookup_insert_eq. split.
    + intros [= <-]. exists o. split; [|done]. by rewrite lookup_app_r, Nat.sub_diag.
    + intros (o' & Hi & Hname). apply lookup_app_Some in Hi as [Hi|[Hi1 Hi2]].
      * assert (idx !! object_name o = Some i) by (apply H; eauto). congruence.
      * apply list_lookup_singleton_Some in Hi2 as [? _]. f_equal. lia.
  - rewrite lookup_insert_ne by done. rewrite (H name i). split.
    + intros (o' & Hi & Hname). exists o'. split; [|done]. rewrite lookup_app_l; [done|]. by eapply lookup_lt_Some.
    + intros (o' & Hi & Hname). apply lookup_app_Some in Hi as [Hi|[Hi1 Hi2]]; [eauto|]. by apply list_lookup_singleton_Some in Hi2 as [_ <-].
Qed.

Lemma indexes_none objects idx name : indexes objects idx -> name ∉ object_name <$> objects -> idx !! name = None.
Proof.
  intros H Hn. apply eq_None_not_Some. intros (i & Hi). apply H in Hi as (o & Ho & <-). apply Hn, list_elem_of_fmap_2.
  by eapply list_elem_of_lookup_2.
Qed.

Lemma read_object_Ok limit es idx cursor raw st : limit <= u64_max -> read_object limit (es, idx, cursor) raw = Ok st <->
  exists o, object_entry o raw /\ placed cursor limit [o] /\ idx !! object_name o = None /\
    st = (es ++ [o], <[object_name o := length es]> idx, object_offset o + object_bytes o).
Proof.
  intros Hlimit. unfold read_object. split.
  - intros H. rinv. apply parse_object_Ok in Hv. apply artifact_add_Ok in Hv2 as [-> Hmax]. subst st. exists v. split; [done|].
    split; [split_and!; done|]. split; [|done]. destruct (idx !! object_name v) eqn:E; [by cbn in *|done].
  - intros (o & Ho & (H1 & H2 & H3 & _) & Hn & ->). rewrite (proj2 (parse_object_Ok raw o) Ho). cbn [rbind].
    rewrite (proj2 (Z.ltb_ge _ _)) by done. cbn [throw_if rbind]. rewrite H2. cbn [Z.eqb negb throw_if rbind].
    rewrite artifact_add_run by lia. cbn [rbind]. rewrite Z.gtb_ltb, (proj2 (Z.ltb_ge _ _)) by done. cbn [throw_if rbind]. by rewrite Hn.
Qed.

Lemma read_objects_Ok limit raws : limit <= u64_max -> forall es idx cursor es' idx', indexes es idx ->
  (exists c, rfoldl (read_object limit) (es, idx, cursor) raws = Ok (es', idx', c)) <->
  exists new, Forall2 object_entry new raws /\ placed cursor limit new /\ es' = es ++ new /\ indexes es' idx'.
Proof.
  intros Hlimit. induction raws as [|raw raws IH]; intros es idx cursor es' idx' Hidx; cbn [rfoldl].
  - split.
    + intros (c & [= <- <- _]). exists []. by rewrite app_nil_r.
    + intros (new & H & _ & -> & Hi). apply Forall2_nil_inv_r in H as ->. rewrite app_nil_r in *.
      exists cursor. by rewrite (indexes_unique _ _ _ Hidx Hi).
  - split.
    + intros (c & H). rinv. apply read_object_Ok in Hv as (o & Ho & Hp & Hn & ->); [|done].
      destruct (proj1 (IH _ _ _ es' idx' (indexes_snoc _ _ _ Hidx Hn)) (ex_intro _ c H)) as (new & Hf & Hp' & -> & Hi).
      exists (o :: new). rewrite <- app_assoc in *. split_and!; try done; [by constructor|]. destruct Hp as (? & ? & ? & _). split_and!; done.
    + intros (new & Hf & Hp & -> & Hi). apply Forall2_cons_inv_r in Hf as (o & new' & Ho & Hf & ->). destruct Hp as (P1 & P2 & P3 & Hp).
      assert (Hn : idx !! object_name o = None).
      { apply (indexes_none es); [done|]. pose proof (indexes_nodup _ _ Hi) as Hd. rewrite fmap_app in Hd. apply NoDup_app in Hd as (_ & Hd & _).
        intros Hin. apply (Hd _ Hin). cbn. left. }
      assert (Hone : read_object limit (es, idx, cursor) raw = Ok (es ++ [o], <[object_name o := length es]> idx, object_offset o + object_bytes o)).
      { apply read_object_Ok; [done|]. exists o. split_and!; done. }
      rewrite Hone. cbn [rbind]. apply (IH _ _ _ _ _ (indexes_snoc _ _ _ Hidx Hn)). exists new'. rewrite <- app_assoc. done.
Qed.

(** Failures while parsing an object are [ArtifactError]s: a member is read only after it was required. *)
Lemma member_Err {A} value field (read : Json -> result A) members e :
  require_members value members = Ok tt -> field ∈ members ->
  (forall v e, read v = Err e -> e = ArtifactError) -> member value field read = Err e -> e = ArtifactError.
Proof.
  intros Hm Hf Hr H. apply require_members_Ok in Hm as (items & -> & _ & Hall). rewrite Forall_forall in Hall.
  destruct (Hall _ Hf) as [v Hv]. rewrite (member_run _ _ _ _ Hv) in H. by eapply Hr.
Qed.
Lemma require_members_Err value members e : require_members value members = Err e -> e = ArtifactError.
Proof.
  unfold require_members. destruct value; try (by intros [= <-]). intros H. artifact_err. clear E. induction members as [|m members IH]; [done|].
  cbn [riter] in H. destruct (is_some _); cbn in H; [by apply IH|by injection H as <-].
Qed.
Lemma artifact_string_Err v e : artifact_string v = Err e -> e = ArtifactError.
Proof. unfold artifact_string. destruct v; try (by intros [= <-]). destruct (bool_decide _); [|done]. by intros [= <-]. Qed.
Lemma require_unsigned_Err v positive e : require_unsigned v positive = Err e -> e = ArtifactError.
Proof. unfold require_unsigned. destruct v; try (by intros [= <-]). destruct (_ && _); [|done]. by intros [= <-]. Qed.
Lemma parse_format_Err s e : parse_format s = Err e -> e = ArtifactError.
Proof. unfold parse_format. repeat (destruct (bool_decide _); [done|]). by intros [= <-]. Qed.
Lemma parse_layout_Err s e : parse_layout s = Err e -> e = ArtifactError.
Proof. unfold parse_layout. repeat (destruct (bool_decide _); [done|]). by intros [= <-]. Qed.
Lemma parse_encoding_Err s e : parse_encoding s = Err e -> e = ArtifactError.
Proof. unfold parse_encoding. destruct (bool_decide _); [done|]. by intros [= <-]. Qed.
Lemma read_shape_Err dims e : rmapM (fun dim => require_unsigned dim true) dims = Err e -> e = ArtifactError.
Proof.
  induction dims as [|d dims IH]; [done|]. cbn [rmapM]. intros H. artifact_err. by eapply require_unsigned_Err.
Qed.
Lemma json_at_Err value members field e : require_members value members = Ok tt -> field ∈ members -> json_at value field <> Err e.
Proof.
  intros Hm Hf H. apply require_members_Ok in Hm as (items & -> & _ & Hall). rewrite Forall_forall in Hall.
  destruct (Hall _ Hf) as [v Hv]. unfold json_at in H. cbn [json_field] in H. by rewrite Hv in H.
Qed.

#[local] Hint Resolve require_members_Err artifact_string_Err require_unsigned_Err parse_format_Err parse_layout_Err parse_encoding_Err
  read_shape_Err tensor_encoded_size_Err : core.

Lemma string_then_Err {A} (read : list Z -> result A) : (forall s e, read s = Err e -> e = ArtifactError) ->
  forall v e, (let* s := artifact_string v in read s) = Err e -> e = ArtifactError.
Proof. intros Hr v e H. artifact_err. Qed.

(** One member of an object whose members were required by [Em]. *)
Ltac member_step Em :=
  match goal with
  | H : rbind (member ?v ?f ?r) _ = Err _ |- _ =>
      let E := fresh "E" in destruct (member v f r) eqn:E; cbn [rbind] in H;
      [|injection H as <-; refine (member_Err _ _ _ _ _ Em _ _ E); [by_compute|];
        first [exact artifact_string_Err | (intros ? ?; apply require_unsigned_Err) | (apply string_then_Err; eauto)]]
  end.

Lemma parse_tensor_Err items e : parse_tensor (JObject items) = Err e -> e = ArtifactError.
Proof.
  intros H. unfold parse_tensor in H. destruct (require_members (JObject items) tensor_members) as [[]|] eqn:Em; cbn [rbind] in H; [|injection H as <-; eauto].
  do 5 member_step Em.
  destruct (json_at _ (bytes_of "shape")) as [raw|] eqn:E6; cbn [rbind] in H; [|exfalso; refine (json_at_Err _ _ _ _ Em _ E6); by_compute].
  destruct raw; try (by injection H as <-). artifact_err.
Qed.

Lemma parse_resource_Err items e : parse_resource (JObject items) = Err e -> e = ArtifactError.
Proof.
  intros H. unfold parse_resource in H. destruct (require_members (JObject items) resource_members) as [[]|] eqn:Em; cbn [rbind] in H; [|injection H as <-; eauto].
  do 4 member_step Em. done.
Qed.

Lemma parse_object_Err value e : parse_object value = Err e -> e = ArtifactError.
Proof.
  unfold parse_object. destruct value as [| | | | | | |items]; try (by intros [= <-]).
  destruct (json_find _ items) as [[]|]; try (by intros [= <-]).
  destruct (bool_decide (s = _)); [|destruct (bool_decide (s = _)); [|by intros [= <-]]]; intros H; artifact_err;
    eauto using parse_tensor_Err, parse_resource_Err.
Qed.

Lemma read_objects_Err limit raws : forall st e, rfoldl (read_object limit) st raws = Err e -> e = ArtifactError.
Proof.
  induction raws as [|raw raws IH]; intros [[es idx] cursor] e H; [done|]. cbn [rfoldl] in H.
  destruct (read_object limit (es, idx, cursor) raw) as [st|e'] eqn:Er; cbn [rbind] in H; [by eapply IH|]. injection H as <-.
  unfold read_object in Er. artifact_err. by eapply parse_object_Err.
Qed.

(** ** Opened artifacts *)

(** The bytes of an artifact, and what opening it gives. *)
Record artifact (json_parse : list Z -> option Json) (file : list Z) (r : Reader) : Prop := {
  af_file : rdr_file r = file;
  af_magic : take 8 file = kMagic;
  af_json : 0 < le_value (take 8 (drop 8 file));
  af_start : payload_start r = align_Z (16 + le_value (take 8 (drop 8 file))) 4096;
  af_size : payload_start r <= Z.of_nat (length file);
  af_directory : exists directory ids objects,
    json_parse (take (Z.to_nat (le_value (take 8 (drop 8 file)))) (drop 16 file)) = Some (JObject directory) /\ length directory = 2%nat /\
    has_member directory (bytes_of "identity") (JObject ids) /\ length ids = 2%nat /\
    has_member ids (bytes_of "model_id") (JString (model_id (rdr_identity r))) /\ model_id (rdr_identity r) <> [] /\
    has_member ids (bytes_of "weights_id") (JString (weights_id (rdr_identity r))) /\ weights_id (rdr_identity r) <> [] /\
    has_member directory (bytes_of "objects") (JArray objects) /\ Forall2 object_entry (entries r) objects;
  af_nonempty : entries r <> [];
  af_placed : placed 0 (Z.of_nat (length file) - payload_start r) (entries r);
  af_index : indexes (entries r) (index r);
}.

Section Open.
Context (json_parse : list Z -> option Json).

Lemma indexes_empty : indexes [] ∅.
Proof. intros name i. rewrite lookup_empty. split; [done|]. by intros (o & ? & _). Qed.

Lemma header_value file : Forall is_byte file -> 16 <= Z.of_nat (length file) ->
  read_u64_le (drop 8 file) = le_value (take 8 (drop 8 file)) /\ is_u64 (read_u64_le (drop 8 file)).
Proof. intros Hb Hl. apply read_u64_le_value; [rewrite length_drop; lia|by apply Forall_drop]. Qed.

Lemma open_reader_sound file r : Forall is_byte file -> Z.of_nat (length file) <= u64_max ->
  open_reader json_parse file = Ok r -> artifact json_parse file r.
Proof.
  intros Hb Hmax H. unfold open_reader in H. rinv.
  destruct (json_parse _) as [directory|] eqn:Ed; [|done]. rinv. destruct v6, v8. unfold kPrefixBytes in *.
  destruct (header_value file Hb Hv) as [Hval [Hval0 _]]. rewrite Hval in *.
  apply artifact_add_Ok in Hv3 as [-> Ha]. apply artifact_align_up_Ok in Hv4 as [-> Ha4]; [|done].
  apply require_members_Ok in Hv5 as (ditems & -> & Hdl & _). apply require_members_Ok in Hv7 as (ids & -> & Hil & _).
  unfold json_at in Hv6, Hv10. cbn [json_field] in Hv6, Hv10.
  destruct (json_find (bytes_of "identity") ditems) as [x|] eqn:F1; [|done]. injection Hv6 as ->.
  destruct (json_find (bytes_of "objects") ditems) as [x|] eqn:F2; [|done]. injection Hv10 as ->.
  apply member_Ok in Hv8 as (x8 & M8 & [-> N8]%artifact_string_Ok). apply member_Ok in Hv9 as (x9 & M9 & [-> N9]%artifact_string_Ok).
  destruct v11 as [| | | | | |[|o1 os]|]; try done. apply rbind_Ok in H as ([[es idx] c] & Hv3 & H). injection H as <-.
  apply (ex_intro (fun c => _ = Ok (es, idx, c))) in Hv3.
  apply read_objects_Ok in Hv3 as (new & Hf & Hp & Hes & Hidx); [|pose proof (align_Z_spec (16 + le_value (take 8 (drop 8 file))) 4096 ltac:(done)); unfold kPayloadAlignment in *; lia|exact indexes_empty]. cbn [app] in Hes. subst new.
  split; cbn [rdr_file rdr_identity entries index payload_start model_id weights_id]; try done.
  - lia.
  - exists ditems, ids, (o1 :: os). split_and!; done.
  - intros ->. by apply Forall2_nil_inv_l in Hf.
Qed.

Lemma open_reader_complete file r : Forall is_byte file -> Z.of_nat (length file) <= u64_max ->
  artifact json_parse file r -> open_reader json_parse file = Ok r.
Proof.
  intros Hb Hmax [Hfile Hmagic Hjson Hstart Hsize (ditems & ids & objects & Hd & Hdl & F1 & Hil & M8 & N8 & M9 & N9 & F2 & Hf) Hne Hp Hidx].
  set (json := le_value _) in *. pose proof (align_Z_spec (16 + json) 4096 ltac:(done)) as [Hal _].
  destruct (header_value file Hb ltac:(lia)) as [Hval _]. fold json in Hval. unfold open_reader, kPrefixBytes.
  rewrite (proj2 (Z.ltb_ge _ _)) by lia. cbn [throw_if rbind]. rewrite Hmagic.
  rewrite bool_decide_eq_false_2 by done. rewrite bool_decide_eq_true_2 by done. cbn [negb throw_if rbind]. rewrite Hval.
  rewrite (proj2 (Z.eqb_neq _ _)) by lia. cbn [throw_if rbind]. rewrite artifact_add_run by lia. cbn [rbind].
  unfold kPayloadAlignment. rewrite artifact_align_run; [|done|lia|by_compute|lia]. cbn [rbind]. rewrite <- Hstart.
  rewrite !Z.gtb_ltb, !(proj2 (Z.ltb_ge _ _)) by lia. cbn [orb throw_if rbind]. change (Z.to_nat 16) with 16%nat. rewrite Hd.
  rewrite (proj2 (require_members_Ok _ [bytes_of "identity"; bytes_of "objects"])).
  2: { exists ditems. split; [done|]. split; [done|]. repeat constructor; eauto. }
  cbn [rbind]. unfold json_at at 1. cbn [json_field]. rewrite F1. cbn [rbind].
  rewrite (proj2 (require_members_Ok _ [bytes_of "model_id"; bytes_of "weights_id"])).
  2: { exists ids. split; [done|]. split; [done|]. repeat constructor; eauto. }
  cbn [rbind]. rewrite (member_run _ _ _ _ M8), (proj2 (artifact_string_Ok _ _)) by done. cbn [rbind].
  rewrite (member_run _ _ _ _ M9), (proj2 (artifact_string_Ok _ _)) by done. cbn [rbind].
  unfold json_at. cbn [json_field]. rewrite F2. cbn [rbind].
  destruct objects as [|o1 os]; [by apply Forall2_nil_inv_r in Hf|].
  destruct (proj2 (read_objects_Ok (Z.of_nat (length file) - payload_start r) (o1 :: os) ltac:(lia) [] ∅ 0 (entries r) (index r) indexes_empty)) as [c Hc].
  { exists (entries r). done. }
  rewrite Hc. cbn [rbind]. destruct r as [rf [m w] es idx ps]. cbn in *. by subst rf.
Qed.

Lemma open_reader_Err file e : open_reader json_parse file = Err e -> e = ArtifactError.
Proof.
  unfold open_reader. intros H. do 4 (destruct (throw_if _ _) as [[]|] eqn:E; cbn [rbind] in H; [clear E|by artifact_err]).
  destruct (artifact_add _ _) eqn:E; cbn [rbind] in H; [clear E|by artifact_err].
  destruct (artifact_align_up _ _) eqn:E; cbn [rbind] in H; [clear E|by artifact_err].
  destruct (throw_if _ _) as [[]|] eqn:E; cbn [rbind] in H; [clear E|by artifact_err].
  destruct (json_parse _) as [directory|]; [|by injection H as <-].
  destruct (require_members directory _) as [[]|] eqn:Em; cbn [rbind] in H; [|injection H as <-; eauto].
  destruct (json_at directory (bytes_of "identity")) as [ids|] eqn:E1; cbn [rbind] in H; [|exfalso; refine (json_at_Err _ _ _ _ Em _ E1); by_compute].
  destruct (require_members ids _) as [[]|] eqn:Em'; cbn [rbind] in H; [|injection H as <-; eauto].
  do 2 member_step Em'.
  destruct (json_at directory (bytes_of "objects")) as [objects|] eqn:E2; cbn [rbind] in H; [|exfalso; refine (json_at_Err _ _ _ _ Em _ E2); by_compute].
  destruct objects as [| | | | | |[|o1 os]|]; try (by injection H as <-).
  destruct (rfoldl _ _ _) as [[[es idx] c]|] eqn:Er; cbn [rbind] in H; [done|]. injection H as <-. by eapply read_objects_Err.
Qed.

(** C11: opening a file succeeds exactly when it is an artifact of this format: its prefix names the format and the
    extent of the directory, the directory has exactly the members of the format, each object's size is that of its
    layout, format and shape, and the objects are placed one after the other, aligned and inside of the file, with
    different names.  Every other file is refused with an [ArtifactError]. *)
Theorem open_reader_exact file : Forall is_byte file -> Z.of_nat (length file) <= u64_max ->
  (forall r, open_reader json_parse file = Ok r <-> artifact json_parse file r) /\
  (forall e, open_reader json_parse file = Err e -> e = ArtifactError).
Proof.
  intros Hb Hmax. split; [|apply open_reader_Err]. intros r. split; [by apply open_reader_sound|by apply open_reader_complete].
Qed.

(** ** Payloads *)

(** Where the objects of an opened artifact are. *)
Lemma placed_nth objects : forall cursor limit k o, placed cursor limit objects -> Forall (fun o => 0 <= object_bytes o) objects ->
  objects !! k = Some o -> cursor <= object_offset o /\ object_offset o mod object_alignment o = 0 /\ object_offset o + object_bytes o <= limit.
Proof.
  induction objects as [|x objects IH]; intros cursor limit k o Hp Hb Hk; [done|]. destruct Hp as (H1 & H2 & H3 & Hp). apply Forall_cons in Hb as [Hx Hb].
  destruct k as [|k]; [injection Hk as <-; by split_and!|]. destruct (IH _ _ _ _ Hp Hb Hk) as (H4 & ? & ?). split; [lia|done].
Qed.
Lemma placed_disjoint objects : forall cursor limit i j o o', placed cursor limit objects -> Forall (fun o => 0 <= object_bytes o) objects ->
  (i < j)%nat -> objects !! i = Some o -> objects !! j = Some o' -> object_offset o + object_bytes o <= object_offset o'.
Proof.
  induction objects as [|x objects IH]; intros cursor limit i j o o' Hp Hb Hij Hi Hj; [done|]. destruct Hp as (H1 & H2 & H3 & Hp).
  apply Forall_cons in Hb as [Hx Hb]. destruct j as [|j]; [lia|]. destruct i as [|i].
  - injection Hi as <-. exact (proj1 (placed_nth _ _ _ _ _ Hp Hb Hj)).
  - eapply IH; [exact Hp|exact Hb| |exact Hi|exact Hj]. lia.
Qed.

Lemma entry_unsigned o value : json_unsigned value -> object_entry o value -> is_u64 (object_offset o) /\ is_u64 (object_bytes o).
Proof.
  intros Hu. destruct o as [t|r]; cbn [object_entry object_offset object_bytes].
  - intros (items & -> & _ & _ & _ & _ & _ & _ & Ho & Hb & _). split; [exact (json_unsigned_object _ _ _ Hu Ho)|exact (json_unsigned_object _ _ _ Hu Hb)].
  - intros (items & -> & _ & _ & _ & _ & _ & Ho & Hb & _). split; [exact (json_unsigned_object _ _ _ Hu Ho)|exact (json_unsigned_object _ _ _ Hu Hb)].
Qed.

Lemma artifact_unsigned file r : (forall text v, json_parse text = Some v -> json_unsigned v) -> artifact json_parse file r ->
  Forall (fun o => is_u64 (object_offset o) /\ is_u64 (object_bytes o)) (entries r).
Proof.
  intros Hj [_ _ _ _ _ (ditems & ids & objects & Hd & _ & _ & _ & _ & _ & _ & _ & F2 & Hf) _ _ _]. apply Hj in Hd.
  apply (json_unsigned_object _ _ _ Hd) in F2. apply Forall_lookup. intros i o Hi. destruct (Forall2_lookup_l _ _ _ _ _ Hf Hi) as (v & Hv & He).
  eapply entry_unsigned; [|exact He]. eapply json_unsigned_array; [exact F2|]. by eapply list_elem_of_lookup_2.
Qed.

(** The payload of an object of an artifact. *)
Lemma payload_run file r i o : (forall text v, json_parse text = Some v -> json_unsigned v) -> Z.of_nat (length file) <= u64_max ->
  Forall is_byte file -> artifact json_parse file r -> entries r !! i = Some o ->
  let absolute := payload_start r + object_offset o in
  0 <= object_offset o /\ 0 <= object_bytes o /\ payload_start r <= absolute /\ absolute + object_bytes o <= Z.of_nat (length file) /\
  absolute mod object_alignment o = 0 /\
  payload r o = Ok (mkPayloadSpan absolute (take (Z.to_nat (object_bytes o)) (drop (Z.to_nat absolute) file))).
Proof.
  intros Hj Hmax Hbytes Ha Hi absolute. pose proof (artifact_unsigned _ _ Hj Ha) as Hu. destruct Ha as [Hfile _ Hjson Hstart Hsize _ _ Hp _].
  assert (Hb : Forall (fun o => 0 <= object_bytes o) (entries r)) by (eapply Forall_impl; [exact Hu|]; intros x [_ [? _]]; done).
  destruct (placed_nth _ _ _ _ _ Hp Hb Hi) as (H1 & H2 & H3). pose proof (Forall_lookup_1 _ _ _ _ Hb Hi) as H4. cbn in H4.
  pose proof (align_Z_spec (16 + le_value (take 8 (drop 8 file))) 4096 ltac:(done)) as [Hs1 Hs2]. rewrite <- Hstart in *.
  unfold absolute. split_and!; try lia.
  - apply Z.mod_divide; [by destruct o|]. apply Z.divide_add_r; [|apply Z.mod_divide; [by destruct o|done]].
    etransitivity; [|exact Hs2]. destruct o; cbn; [by exists 16|by exists 4096].
  - unfold payload, file_bytes. rewrite Hfile, artifact_add_run by lia. cbn [rbind]. rewrite artifact_add_run by lia. cbn [rbind].
    rewrite Z.gtb_ltb, (proj2 (Z.ltb_ge _ _)) by lia. done.
Qed.

(** C0: the payload of every object of an opened artifact is there: looking it up gives the object's bytes, which
    begin after the directory at the alignment of the object, are inside of the file, and do not overlap the payload
    of another object; looking up the name finds it. *)
Theorem opened_payloads_exact file r : (forall text v, json_parse text = Some v -> json_unsigned v) ->
  Forall is_byte file -> Z.of_nat (length file) <= u64_max -> open_reader json_parse file = Ok r ->
  (forall i o, entries r !! i = Some o -> exists span,
    find r (object_name o) = Some i /\ payload r o = Ok span /\ payload_of_name r (object_name o) = Ok span /\
    kPrefixBytes + le_value (take 8 (drop 8 file)) <= absolute_offset span /\
    absolute_offset span mod object_alignment o = 0 /\
    Z.of_nat (length (span_data span)) = object_bytes o /\
    (forall k b, span_data span !! k = Some b -> file !! (Z.to_nat (absolute_offset span) + k)%nat = Some b)) /\
  (forall i j o o' span span', (i < j)%nat -> entries r !! i = Some o -> entries r !! j = Some o' ->
    payload r o = Ok span -> payload r o' = Ok span' -> absolute_offset span + object_bytes o <= absolute_offset span').
Proof.
  intros Hj Hb Hmax H. pose proof (open_reader_sound _ _ Hb Hmax H) as Ha. split.
  - intros i o Hi. destruct (payload_run _ _ _ _ Hj Hmax Hb Ha Hi) as (H0 & H1 & H2 & H3 & H4 & H5). eexists.
    assert (Hfind : find r (object_name o) = Some i) by (apply (af_index _ _ _ Ha); eauto).
    split; [done|]. split; [exact H5|]. split; [unfold payload_of_name; by rewrite Hfind, Hi|]. cbn [absolute_offset span_data].
    pose proof (af_start _ _ _ Ha) as Hs. pose proof (align_Z_spec (16 + le_value (take 8 (drop 8 file))) 4096 ltac:(done)) as [Hs1 _].
    pose proof (af_json _ _ _ Ha). unfold kPrefixBytes. split; [lia|]. split; [done|]. split.
    + rewrite length_take, length_drop. lia.
    + intros k b Hk. apply lookup_take_Some in Hk as [Hk _]. by rewrite lookup_drop in Hk.
  - intros i j o o' span span' Hij Hi Hj' Hs Hs'.
    destruct (payload_run _ _ _ _ Hj Hmax Hb Ha Hi) as (_ & _ & _ & _ & _ & E). rewrite E in Hs. injection Hs as <-.
    destruct (payload_run _ _ _ _ Hj Hmax Hb Ha Hj') as (_ & _ & _ & _ & _ & E'). rewrite E' in Hs'. injection Hs' as <-. cbn [absolute_offset].
    pose proof (artifact_unsigned _ _ Hj Ha) as Hu. destruct Ha as [_ _ _ _ _ _ _ Hp _].
    assert (Hbn : Forall (fun o => 0 <= object_bytes o) (entries r)) by (eapply Forall_impl; [exact Hu|]; intros x [_ [? _]]; done).
    pose proof (placed_disjoint _ _ _ _ _ _ _ Hp Hbn Hij Hi Hj'). lia.
Qed.
End Open.

(** ** A small artifact

    Two tensors and a resource. *)
Module Sample.

Definition tensor_json (name : string) (shape : list Z) (offset bytes : Z) : Json := JObject
  [(bytes_of "name", JString (bytes_of name)); (bytes_of "kind", JString (bytes_of "tensor")); (bytes_of "shape", JArray (JUnsigned <$> shape));
   (bytes_of "format", JString (bytes_of "BF16")); (bytes_of "layout", JString (bytes_of "contiguous-le-v1"));
   (bytes_of "offset", JUnsigned offset); (bytes_of "bytes", JUnsigned bytes)].
Definition resource_json (name : string) (offset bytes : Z) : Json := JObject
  [(bytes_of "name", JString (bytes_of name)); (bytes_of "kind", JString (bytes_of "resource"));
   (bytes_of "encoding", JString (bytes_of "raw-bytes-v1")); (bytes_of "offset", JUnsigned offset); (bytes_of "bytes", JUnsigned bytes)].
Definition directory : Json := JObject
  [(bytes_of "identity", JObject [(bytes_of "model_id", JString (bytes_of "m")); (bytes_of "weights_id", JString (bytes_of "w"))]);
   (bytes_of "objects", JArray [tensor_json "a" [2; 1] 0 4; resource_json "r" 4 3; tensor_json "b" [1] 256 2])].

(** The directory is written as one byte. *)
Definition parse (text : list Z) : option Json := if bool_decide (text = [123]) then Some directory else None.
Definition file : list Z :=
  kMagic ++ [1; 0; 0; 0; 0; 0; 0; 0] ++ [123] ++ replicate 4079 0 ++ [1; 2; 3; 4] ++ [5; 6; 7] ++ replicate 249 0 ++ [8; 9].
Definition reader : Reader :=
  match open_reader parse file with Ok r => r | Err _ => mkReader [] (mkArtifactIdentity [] []) [] ∅ 0 end.
Lemma reader_opened : open_reader parse file = Ok reader.
Proof. vm_compute. reflexivity. Qed.
Lemma file_ok : Forall is_byte file /\ Z.of_nat (length file) <= u64_max.
Proof.
  split; [|vm_compute; discriminate]. assert (H : forallb (fun b => (0 <=? b) && (b <? 256)) file = true) by (vm_compute; reflexivity).
  apply Forall_forall. intros b Hb. apply list_elem_of_In in Hb. rewrite forallb_forall in H. specialize (H _ Hb).
  apply andb_true_iff in H as [?%Z.leb_le ?%Z.ltb_lt]. done.
Qed.
Lemma parse_unsigned text v : parse text = Some v -> json_unsigned v.
Proof. unfold parse. case_bool_decide; [|done]. intros [= <-]. cbn. unfold is_u64, u64_max. lia. Qed.

Lemma tensor_encoded_size_exact_witness :
  tensor_encoded_size RowSplitK128V1 Q5G64_F16S [3; 130] = Ok 792.
Proof.
  assert (H : dims_ok [3; 130]).
  { constructor; [unfold is_u64, u64_max; lia|]. constructor; [unfold is_u64, u64_max; lia|constructor]. }
  apply (proj1 (tensor_encoded_size_exact RowSplitK128V1 Q5G64_F16S [3; 130] 792 H)).
  split; [vm_compute; reflexivity|]. split; [vm_compute; discriminate|vm_compute; discriminate].
Defined.

Lemma open_reader_exact_witness : artifact parse file reader.
Proof. apply (proj1 (open_reader_exact parse file (proj1 file_ok) (proj2 file_ok)) reader). exact reader_opened. Defined.

Lemma opened_payloads_exact_witness : forall i o, entries reader !! i = Some o -> exists span, payload reader o = Ok span.
Proof.
  intros i o Hi. destruct (proj1 (opened_payloads_exact parse file reader parse_unsigned (proj1 file_ok) (proj2 file_ok) reader_opened) i o Hi)
    as (span & _ & H & _). exists span. exact H.
Defined.
End Sample.
