(* ===== verification/BinderProofs.v ===== *)
(** * What the binder plans

    Whatever a target binds and however it handles exceptions, a finished plan places every object of the
    artifact once, and the device tensors one after the other. *)
From Stdlib Require Import Strings.String.
From stdpp Require Import gmap sorting.
From S2P Require Import Prelude Unicode UnicodeProofs Tokenizer Artifact ArtifactProofs.
#[local] Open Scope Z_scope.
#[local] Open Scope ninfer_scope.

(** ** Plans *)

(** The device placements from [cursor] on: each at the next multiple of its alignment. *)
Fixpoint laid (cursor : Z) (placements : list DeviceMaterialization) (end_ : Z) : Prop :=
  match placements with
  | [] => end_ = cursor
  | d :: placements' =>
      dm_offset d = align_Z cursor kTensorAlignment /\ dm_alignment d = kTensorAlignment /\ 0 < dm_bytes d /\
      laid (dm_offset d + dm_bytes d) placements' end_
  end.

Lemma laid_snoc placements d : forall cursor end_, laid cursor placements end_ ->
  dm_offset d = align_Z end_ kTensorAlignment -> dm_alignment d = kTensorAlignment -> 0 < dm_bytes d ->
  laid cursor (placements ++ [d]) (dm_offset d + dm_bytes d).
Proof.
  induction placements as [|x placements IH]; intros cursor end_ Hl Ho Ha Hb; cbn in *; [subst end_; done|].
  destruct Hl as (? & ? & ? & Hl). split_and!; try done. by eapply IH.
Qed.

Lemma laid_bounds placements : forall cursor end_ k d, laid cursor placements end_ -> placements !! k = Some d ->
  cursor <= dm_offset d /\ dm_offset d mod kTensorAlignment = 0 /\ dm_offset d + dm_bytes d <= end_.
Proof.
  induction placements as [|x placements IH]; intros cursor end_ k d Hl Hk; [done|]. cbn in Hl. destruct Hl as (Ho & Ha & Hb & Hl).
  pose proof (align_Z_spec cursor kTensorAlignment ltac:(done)) as [Hal Hdiv].
  destruct k as [|k].
  - injection Hk as <-. split; [lia|]. split; [apply Z.mod_divide; [done|]; by rewrite Ho|].
    clear -Hl. revert Hl. generalize (dm_offset x + dm_bytes x) as c. induction placements as [|y placements IH]; intros c Hl; cbn in Hl; [lia|].
    destruct Hl as (Ho & _ & Hb & Hl). specialize (IH _ Hl). pose proof (align_Z_spec c kTensorAlignment ltac:(done)) as [Hal _]. lia.
  - destruct (IH _ _ _ _ Hl Hk) as (? & ? & ?). split; [lia|done].
Qed.

Lemma laid_disjoint placements : forall cursor end_ i j d d', laid cursor placements end_ -> (i < j)%nat ->
  placements !! i = Some d -> placements !! j = Some d' -> dm_offset d + dm_bytes d <= dm_offset d'.
Proof.
  induction placements as [|x placements IH]; intros cursor end_ i j d d' Hl Hij Hi Hj; [done|]. cbn in Hl. destruct Hl as (Ho & Ha & Hb & Hl).
  destruct j as [|j]; [lia|]. destruct i as [|i].
  - injection Hi as <-. by destruct (laid_bounds _ _ _ _ _ Hl Hj).
  - eapply (IH _ _ i j); [exact Hl|lia|exact Hi|exact Hj].
Qed.

(** A device placement is that of a tensor with all its bytes. *)
Definition places (reader : Reader) (d : DeviceMaterialization) : Prop :=
  exists t, entries reader !! dm_object d = Some (TensorObject t) /\ dm_bytes d = td_bytes t.
Definition retains (reader : Reader) (h : ObjectHandle) : Prop := exists r, entries reader !! h = Some (ResourceObject r).

(** The placements of a plan. *)
Record plan_ok (reader : Reader) (plan : MaterializationPlan) : Prop := {
  po_count : object_count plan = length (entries reader);
  po_laid : laid 0 (device_objects plan) (device_capacity_bytes plan);
  po_capacity : is_u64 (device_capacity_bytes plan);
  po_device : Forall (places reader) (device_objects plan);
  po_host : Forall (retains reader) (host_objects plan);
  po_once : NoDup ((dm_object <$> device_objects plan) ++ host_objects plan);
}.

(** ** The binder's operations *)

(** What a target may call. *)
Inductive BinderOp : Set :=
| RequireTensor (name : list Z) (format : NumericFormat) (layout : StorageLayout) (shape : list Z)
| RequireResource (name : list Z) (encoding : ResourceEncoding)
| MaterializeOnDevice (handle : ObjectHandle) | RetainOnHost (handle : ObjectHandle) | ValidateHandle (handle : ObjectHandle).

Definition run_op (reader : Reader) (op : BinderOp) : M Binder unit :=
  match op with
  | RequireTensor name format layout shape => let! _ := require_tensor reader name format layout shape in mret_ tt
  | RequireResource name encoding => let! _ := require_resource reader name encoding in mret_ tt
  | MaterializeOnDevice handle => materialize_on_device reader handle
  | RetainOnHost handle => retain_on_host reader handle
  | ValidateHandle handle => validate_only reader handle
  end.

(** The calls of a target; it may go on after an exception. *)
Definition run_ops (reader : Reader) (ops : list BinderOp) (b : Binder) : Binder := foldl (fun b op => (run_op reader op b).2) b ops.

Definition requires (name : list Z) (op : BinderOp) : Prop :=
  match op with RequireTensor n _ _ _ | RequireResource n _ => n = name | _ => False end.

Record binder_inv (reader : Reader) (b : Binder) : Prop := {
  bi_consumed : length (consumed b) = length (entries reader);
  bi_planned : length (planned b) = length (entries reader);
  bi_plan : plan_ok reader (materialization b);
  bi_marked : Forall (fun i => planned b !! i = Some true) ((dm_object <$> device_objects (materialization b)) ++ host_objects (materialization b));
}.

Section Reader.
Context (reader : Reader).
Hypothesis Hindex : indexes (entries reader) (index reader).
Hypothesis Hsizes : Forall (fun o => 0 < object_bytes o <= u64_max) (entries reader).

Lemma make_binder_inv : binder_inv reader (make_binder reader).
Proof.
  unfold make_binder. split; cbn; rewrite ?length_replicate; try done. split; cbn; try done; try constructor.
Qed.

Lemma binder_align_up_Ok v c : is_u64 v -> binder_align_up v kTensorAlignment = Ok c <-> c = align_Z v kTensorAlignment /\ align_Z v kTensorAlignment <= u64_max.
Proof.
  intros Hv. unfold binder_align_up. change (u64 (kTensorAlignment - 1)) with 255. rewrite Z.gtb_ltb.
  assert (Hfit : v + 255 <= u64_max <-> align_Z v 256 <= u64_max) by (apply (align_fits v 256); [done|unfold is_u64 in Hv; lia|by_compute]).
  change kTensorAlignment with 256. destruct (Z.ltb_spec (u64_max - 255) v); cbn [throw_if rbind].
  - split; [done|]. intros [_ ?]. lia.
  - replace (Z.land (v + 255) (u64_not 255)) with (align_Z v 256).
    + split; [intros [= <-]; split; [done|lia]|by intros [-> _]].
    + change 255 with (2 ^ 8 - 1) at 2. rewrite land_not_mask by (unfold is_u64 in *; lia). unfold align_Z. by replace (v + 256 - 1) with (v + 255) by lia.
Qed.

(** *** Consuming *)

Lemma find_unconsumed_inv name b r b' : binder_inv reader b -> find_unconsumed reader name b = (r, b') ->
  binder_inv reader b' /\ planned b' = planned b /\ materialization b' = materialization b /\
  (forall i, consumed b' !! i = Some true -> consumed b !! i = Some true \/
     exists o, entries reader !! i = Some o /\ object_name o = name).
Proof.
  intros [Hc Hp Hm Hk] H. unfold find_unconsumed, find in H. destruct (index reader !! name) as [i|] eqn:Ei.
  - cbn in H. unfold mderef in H. destruct (consumed b !! i) as [[|]|] eqn:Eu; cbn in H; injection H as <- <-.
    + split; [done|]. split_and!; auto.
    + split; [split; cbn; by rewrite ?length_insert|]. split; [done|]. split; [done|]. intros j Hj. cbn in Hj.
      destruct (decide (i = j)) as [<-|Hne]; [right; by apply Hindex|]. rewrite list_lookup_insert_ne in Hj by done. by left.
    + split; [done|]. split_and!; auto.
  - cbn in H. injection H as <- <-. split; [done|]. split_and!; auto.
Qed.

(** *** Placing *)

(** An operation that places the object of a handle, or leaves the binder as it is. *)
Lemma planned_unplanned b i : binder_inv reader b -> planned b !! i = Some false ->
  i ∉ (dm_object <$> device_objects (materialization b)) ++ host_objects (materialization b).
Proof. intros Hi Hf Hin. pose proof (bi_marked _ _ Hi) as Hm. rewrite Forall_forall in Hm. specialize (Hm _ Hin). congruence. Qed.

Lemma marked_insert (l : list nat) i p : Forall (fun j => p !! j = Some true) l -> (i < length p)%nat ->
  Forall (fun j => <[i := true]> p !! j = Some true) l.
Proof.
  intros H Hi. eapply Forall_impl; [exact H|]. intros j Hj. cbn. destruct (decide (i = j)) as [<-|Hne].
  - by rewrite list_lookup_insert_eq.
  - by rewrite list_lookup_insert_ne.
Qed.

(** Descriptors and placements that the operations look up. *)
Lemma descriptor_Ok h o : descriptor reader h = Ok o <-> entries reader !! h = Some o.
Proof. unfold descriptor. destruct (entries reader !! h); split; try done; by intros [= ->]. Qed.

Lemma check_unplanned_run b h o : binder_inv reader b -> entries reader !! h = Some o ->
  exists p, planned b !! h = Some p /\ check_unplanned h b = (throw_if p ArtifactError, b).
Proof.
  intros Hi Ho. destruct (lookup_lt_is_Some_2 (planned b) h) as [p Hp]; [rewrite (bi_planned _ _ Hi); by eapply lookup_lt_Some|].
  exists p. split; [done|]. unfold check_unplanned, mderef, mbind_, mget. rewrite Hp. by destruct p.
Qed.

Lemma materialize_on_device_inv h b r b' : binder_inv reader b -> materialize_on_device reader h b = (r, b') ->
  binder_inv reader b' /\ consumed b' = consumed b.
Proof.
  intros Hi H. unfold materialize_on_device in H. destruct (descriptor reader h) as [o|e] eqn:Ed; [|injection H as <- <-; done].
  apply descriptor_Ok in Ed. unfold mbind_ at 1, mlift at 1 in H. destruct o as [t|x]; [|injection H as <- <-; done].
  destruct (check_unplanned_run b h _ Hi Ed) as (p & Hp & Hrun). unfold mbind_ at 1 in H. rewrite Hrun in H. unfold throw_if in H.
  destruct p; [injection H as <- <-; done|]. unfold mbind_ at 1, mget at 1 in H.
  pose proof (po_capacity _ _ (bi_plan _ _ Hi)) as Hcap. unfold tensor_alignment in H.
  destruct (binder_align_up _ _) as [offset|e] eqn:Ea; [|injection H as <- <-; done]. apply binder_align_up_Ok in Ea as [-> Hfit]; [|done].
  unfold mbind_, mlift, mthrow_if, mlift in H. destruct (_ >? _) eqn:Eg; cbn in H; injection H as <- <-; [done|]. split; [|done].
  rewrite Z.gtb_ltb in Eg. apply Z.ltb_ge in Eg. pose proof (Forall_lookup_1 _ _ _ _ Hsizes Ed) as [Hb _]. cbn in Hb.
  pose proof (align_Z_spec (device_capacity_bytes (materialization b)) kTensorAlignment ltac:(done)) as [Hal _].
  pose proof (planned_unplanned b h Hi Hp) as Hnew. destruct Hi as [Hc Hpl [Hn Hl _ Hdev Hhost Honce] Hm].
  split; cbn; rewrite ?length_insert; try done.
  - split; cbn; try done.
    + eapply laid_snoc; [exact Hl|done|done|done].
    + unfold is_u64 in *. lia.
    + apply Forall_app. split; [done|]. constructor; [by exists t|constructor].
    + rewrite fmap_app, <- app_assoc. cbn. apply not_elem_of_app in Hnew as [HA HB]. apply NoDup_app in Honce as (N1 & N2 & N3).
      apply NoDup_app. split; [done|]. split.
      * intros x Hx Hin. apply elem_of_cons in Hin as [->|Hin]; [by apply HA|by eapply N2].
      * constructor; [by apply HB|done].
  - assert (Hlt : (h < length (planned b))%nat) by (rewrite Hpl; by eapply lookup_lt_Some).
    apply marked_insert with (i := h) in Hm; [|done]. rewrite fmap_app, <- app_assoc. apply Forall_app in Hm as [M1 M2].
    apply Forall_app. split; [done|]. constructor; [by rewrite list_lookup_insert_eq|done].
Qed.

Lemma retain_on_host_inv h b r b' : binder_inv reader b -> retain_on_host reader h b = (r, b') ->
  binder_inv reader b' /\ consumed b' = consumed b.
Proof.
  intros Hi H. unfold retain_on_host in H. destruct (descriptor reader h) as [o|e] eqn:Ed; [|injection H as <- <-; done].
  apply descriptor_Ok in Ed. unfold mbind_ at 1, mlift at 1 in H. destruct o as [t|x]; [injection H as <- <-; done|].
  destruct (check_unplanned_run b h _ Hi Ed) as (p & Hp & Hrun). unfold mbind_ at 1 in H. rewrite Hrun in H. unfold throw_if in H.
  destruct p; injection H as <- <-; [done|]. split; [|done].
  pose proof (planned_unplanned b h Hi Hp) as Hnew. destruct Hi as [Hc Hpl [Hn Hl Hcap Hdev Hhost Honce] Hm].
  split; cbn; rewrite ?length_insert; try done.
  - split; cbn; try done.
    + apply Forall_app. split; [done|]. constructor; [by exists x|constructor].
    + rewrite app_assoc. apply NoDup_app. split; [done|]. split; [|apply NoDup_singleton]. intros y Hy Hin%list_elem_of_singleton. by subst y.
  - assert (Hlt : (h < length (planned b))%nat) by (rewrite Hpl; by eapply lookup_lt_Some).
    rewrite app_assoc. apply Forall_app. split; [by apply marked_insert|]. constructor; [by rewrite list_lookup_insert_eq|constructor].
Qed.

Lemma validate_only_inv h b r b' : binder_inv reader b -> validate_only reader h b = (r, b') ->
  binder_inv reader b' /\ consumed b' = consumed b.
Proof.
  intros Hi H. unfold validate_only in H. destruct (descriptor reader h) as [o|e] eqn:Ed; [|injection H as <- <-; done].
  apply descriptor_Ok in Ed. unfold mbind_ at 1, mlift at 1 in H.
  destruct (check_unplanned_run b h _ Hi Ed) as (p & Hp & Hrun). unfold mbind_ at 1 in H. rewrite Hrun in H. unfold throw_if in H.
  destruct p; injection H as <- <-; [done|]. split; [|done]. destruct Hi as [Hc Hpl Hplan Hm].
  split; cbn; rewrite ?length_insert; try done. apply marked_insert; [done|]. rewrite Hpl. by eapply lookup_lt_Some.
Qed.

(** An operation consumes at most the object whose name it requires. *)
Lemma run_op_inv op b : binder_inv reader b -> let b' := (run_op reader op b).2 in
  binder_inv reader b' /\ (forall i, consumed b' !! i = Some true -> consumed b !! i = Some true \/
     exists o, entries reader !! i = Some o /\ requires (object_name o) op).
Proof.
  intros Hi. cbv zeta. destruct op as [name format layout shape|name encoding|h|h|h]; cbn [run_op requires].
  - assert (Hsnd : ((let! _ := require_tensor reader name format layout shape in mret_ tt) b).2 = (find_unconsumed reader name b).2).
    { unfold require_tensor, mbind_. destruct (find_unconsumed reader name b) as [[i|e] b1]; [|done]. unfold mlift. destruct (descriptor reader i) as [[t|x]|e]; try done.
      unfold mthrow_if, mlift. by destruct (throw_if _ _). }
    rewrite Hsnd. destruct (find_unconsumed reader name b) as [r b1] eqn:Ef. destruct (find_unconsumed_inv _ _ _ _ Hi Ef) as (? & _ & _ & Hu).
    split; [done|]. intros i Hc. destruct (Hu i Hc) as [|(o & Ho & Hn)]; [by left|]. right. exists o. by split.
  - assert (Hsnd : ((let! _ := require_resource reader name encoding in mret_ tt) b).2 = (find_unconsumed reader name b).2).
    { unfold require_resource, mbind_. destruct (find_unconsumed reader name b) as [[i|e] b1]; [|done]. unfold mlift. destruct (descriptor reader i) as [[t|x]|e]; try done.
      unfold mthrow_if, mlift. by destruct (throw_if _ _). }
    rewrite Hsnd. destruct (find_unconsumed reader name b) as [r b1] eqn:Ef. destruct (find_unconsumed_inv _ _ _ _ Hi Ef) as (? & _ & _ & Hu).
    split; [done|]. intros i Hc. destruct (Hu i Hc) as [|(o & Ho & Hn)]; [by left|]. right. exists o. by split.
  - destruct (materialize_on_device reader h b) as [r b1] eqn:Eo. destruct (materialize_on_device_inv _ _ _ _ Hi Eo) as [? Hc]. split; [done|]. cbn. rewrite Hc. by left.
  - destruct (retain_on_host reader h b) as [r b1] eqn:Eo. destruct (retain_on_host_inv _ _ _ _ Hi Eo) as [? Hc]. split; [done|]. cbn. rewrite Hc. by left.
  - destruct (validate_only reader h b) as [r b1] eqn:Eo. destruct (validate_only_inv _ _ _ _ Hi Eo) as [? Hc]. split; [done|]. cbn. rewrite Hc. by left.
Qed.

Lemma run_ops_inv ops : forall b, binder_inv reader b -> binder_inv reader (run_ops reader ops b) /\
  (forall i, consumed (run_ops reader ops b) !! i = Some true -> consumed b !! i = Some true \/
     exists o op, entries reader !! i = Some o /\ op ∈ ops /\ requires (object_name o) op).
Proof.
  induction ops as [|op ops IH]; intros b Hi; [split; [done|by left]|]. destruct (run_op_inv op b Hi) as [Hi' Hu].
  destruct (IH _ Hi') as [Hi'' Hu']. split; [done|]. intros i Hc. destruct (Hu' i Hc) as [Hc'|(o & op' & Ho & Hin & Hr)].
  - destruct (Hu i Hc') as [|(o & Ho & Hr)]; [by left|]. right. exists o, op. split; [done|]. split; [left|done].
  - right. exists o, op'. split; [done|]. split; [by right|done].
Qed.
End Reader.

(** ** Opened artifacts *)

Section Opened.
Context (json_parse : list Z -> option Json).
Hypothesis Hjson : forall text v, json_parse text = Some v -> json_unsigned v.

Lemma artifact_sizes file r : artifact json_parse file r -> Forall (fun o => 0 < object_bytes o <= u64_max) (entries r).
Proof.
  intros Ha. pose proof (artifact_unsigned _ _ _ Hjson Ha) as Hu.
  destruct Ha as [_ _ _ _ _ (ditems & ids & objects & _ & _ & _ & _ & _ & _ & _ & _ & _ & Hf) _ _ _].
  apply Forall_lookup. intros i o Hi. pose proof (Forall_lookup_1 _ _ _ _ Hu Hi) as [_ [H0 Hmax]]. destruct (Forall2_lookup_l _ _ _ _ _ Hf Hi) as (v & _ & He).
  split; [|done]. assert (object_bytes o <> 0); [|lia]. destruct o as [t|x]; cbn in He |- *.
  - by destruct He as (items & _ & _ & _ & _ & _ & _ & _ & _ & _ & Hb & _).
  - by destruct He as (items & _ & _ & _ & _ & _ & _ & _ & _ & Hb).
Qed.

Lemma finish_run b plan b' : finish b = (Ok plan, b') -> plan = materialization b /\ Forall (fun c => c = true) (consumed b) /\ Forall (fun p => p = true) (planned b).
Proof.
  assert (Hall : forall l, existsb negb l = false -> Forall (fun c => c = true) l).
  { intros l Hl. apply existsb_false in Hl. eapply Forall_impl; [exact Hl|]. intros c. by destruct c. }
  intros H. unfold finish in H. minv. auto.
Qed.

(** What every binder of an opened artifact keeps. *)
Lemma opened_binder file r ops : artifact json_parse file r -> binder_inv r (run_ops r ops (make_binder r)).
Proof. intros Ha. apply run_ops_inv; [exact (af_index _ _ _ Ha)|by eapply artifact_sizes|apply make_binder_inv]. Qed.

End Opened.

(** The sample artifact, bound twice by mistake and otherwise as it should be. *)
Module BinderSample.
Import ArtifactProofs.Sample.
Import (notations) Strings.String.

Definition sample_ops : list BinderOp :=
  [RequireTensor (bytes_of "b") BF16 ContiguousLeV1 [1]; MaterializeOnDevice 2; RequireTensor (bytes_of "b") BF16 ContiguousLeV1 [1];
   RequireTensor (bytes_of "a") BF16 ContiguousLeV1 [2; 1]; MaterializeOnDevice 0; RequireResource (bytes_of "r") RawBytesV1; RetainOnHost 1].
Definition sample_plan : MaterializationPlan :=
  mkPlan 3 260 [mkDeviceMat 2 0 2 256; mkDeviceMat 0 256 4 256] [1%nat].
Lemma sample_finished : exists b', finish (run_ops reader sample_ops (make_binder reader)) = (Ok sample_plan, b').
Proof. eexists. vm_compute. reflexivity. Qed.

End BinderSample.
