(* ===== verification/Materialize.v ===== *)
(** * Loading an artifact: [src/artifact/materializer]

    The tensors of a plan are read from the file in aligned chunks into pinned slots and copied to the device by
    asynchronous copies in a stream; a slot is reused once the event recorded after its copies is reached.

    The device executes queued copies at its own pace, and reads a slot when it executes the copy: what it does
    between two calls, and which calls of the system and of CUDA succeed, is the class [LoadHost].  Memory of the
    device is a map from addresses to bytes; the progress callback is the list of what it is told. *)
From stdpp Require Import gmap sorting.
From S2P Require Import Prelude Layout Tokenizer Artifact.
#[local] Open Scope Z_scope.
#[local] Open Scope ninfer_scope.

Definition kSlotBytes : Z := 64 * 1024 * 1024.
Definition kMaximumSlotCount : Z := 4.

Definition artifact_align_down (value alignment : Z) : Z := value / alignment * alignment.

(** The system, the driver and the device. *)
Class LoadHost : Type := {
  pread : Z -> Z -> option (list Z);
  cuda_malloc : Z -> option Z;
  cuda_malloc_host : nat -> Z -> option Z;    (**r the n-th slot *)
  cuda_event_create : nat -> bool;
  cuda_accepts : nat -> bool;                 (**r does the n-th call on the stream or an event succeed *)
  device_progress : nat -> nat;               (**r copies executed before the n-th call *)
}.

(** ** Slots and the stream *)

Record Slot : Set := mkSlot {
  slot_buffer : list Z; slot_address : Z;
  slot_event : nat;      (**r recorded: the copies of the stream before it *)
  pending : bool;
}.

(** A queued [cudaMemcpyAsync] from a slot. *)
Record Copy : Set := mkCopy { cp_destination : Z; cp_slot : nat; cp_offset : Z; cp_amount : Z }.

Record CopyRange : Set := mkRange { source_begin : Z; source_end : Z; destination : Z }.
Record ReadSpan : Set := mkReadSpan { rs_begin : Z; rs_end : Z }.

(** The loop's variables, the slots, and the stream with what it has not executed yet. *)
Record Loader : Type := mkLoader {
  slots : list Slot;
  queue : list Copy;
  executed : nat;
  memory : Z -> Z;
  calls : nat;
  next_slot : nat;
  next_range : nat;
  copied : Z;
  last_published : Z;
  file_bytes_read : Z;
  published : list (Z * Z);
}.

Definition set_slots (v : list Slot) (l : Loader) : Loader :=
  mkLoader v (queue l) (executed l) (memory l) (calls l) (next_slot l) (next_range l) (copied l) (last_published l) (file_bytes_read l) (published l).
Definition set_queue (v : list Copy) (l : Loader) : Loader :=
  mkLoader (slots l) v (executed l) (memory l) (calls l) (next_slot l) (next_range l) (copied l) (last_published l) (file_bytes_read l) (published l).
Definition set_next_slot (v : nat) (l : Loader) : Loader :=
  mkLoader (slots l) (queue l) (executed l) (memory l) (calls l) v (next_range l) (copied l) (last_published l) (file_bytes_read l) (published l).
Definition set_next_range (v : nat) (l : Loader) : Loader :=
  mkLoader (slots l) (queue l) (executed l) (memory l) (calls l) (next_slot l) v (copied l) (last_published l) (file_bytes_read l) (published l).
Definition set_copied (v : Z) (l : Loader) : Loader :=
  mkLoader (slots l) (queue l) (executed l) (memory l) (calls l) (next_slot l) (next_range l) v (last_published l) (file_bytes_read l) (published l).
Definition set_file_bytes (v : Z) (l : Loader) : Loader :=
  mkLoader (slots l) (queue l) (executed l) (memory l) (calls l) (next_slot l) (next_range l) (copied l) (last_published l) v (published l).
Definition publish_progress (total : Z) (l : Loader) : Loader :=
  mkLoader (slots l) (queue l) (executed l) (memory l) (calls l) (next_slot l) (next_range l) (copied l) (last_published l) (file_bytes_read l)
    (published l ++ [(copied l, total)]).
Definition set_last_published (l : Loader) : Loader :=
  mkLoader (slots l) (queue l) (executed l) (memory l) (calls l) (next_slot l) (next_range l) (copied l) (copied l) (file_bytes_read l) (published l).
Definition count_call (l : Loader) : Loader :=
  mkLoader (slots l) (queue l) (executed l) (memory l) (S (calls l)) (next_slot l) (next_range l) (copied l) (last_published l) (file_bytes_read l) (published l).

Definition write_memory (address : Z) (bytes : list Z) (m : Z -> Z) : Z -> Z := fun a =>
  if (address <=? a) && (a <? address + Z.of_nat (length bytes)) then nth (Z.to_nat (a - address)) bytes 0 else m a.

(** What a copy takes from its slot when it is executed. *)
Definition copy_bytes (slots : list Slot) (c : Copy) : list Z :=
  match slots !! cp_slot c with
  | Some s => take (Z.to_nat (cp_amount c)) (drop (Z.to_nat (cp_offset c)) (slot_buffer s))
  | None => []
  end.
Definition execute_copy (slots : list Slot) (m : Z -> Z) (c : Copy) : Z -> Z := write_memory (cp_destination c) (copy_bytes slots c) m.

(** The device executes the first [n] of its queue. *)
Fixpoint run_device (n : nat) (l : Loader) : Loader :=
  match n, queue l with
  | S n', c :: rest =>
      run_device n' (mkLoader (slots l) rest (S (executed l)) (execute_copy (slots l) (memory l) c) (calls l) (next_slot l) (next_range l)
                       (copied l) (last_published l) (file_bytes_read l) (published l))
  | _, _ => l
  end.

Section Host.
Context `{LoadHost}.

(** [CUDA_CHECK] of a call. *)
Definition cuda_call : M Loader unit :=
  let! l := mget in
  do! mput (count_call (run_device (device_progress (calls l)) l));
  mthrow_if (negb (cuda_accepts (calls l))) RuntimeError.

(** [cudaMemcpyAsync] *)
Definition memcpy_async (c : Copy) : M Loader unit := do! cuda_call; mmodify (fun l => set_queue (queue l ++ [c]) l).

(** [cudaEventRecord], [cudaEventSynchronize], [cudaStreamSynchronize] *)
Definition event_record (i : nat) : M Loader unit :=
  do! cuda_call;
  let! l := mget in
  let! s := mderef (slots l !! i) in
  mput (set_slots (<[i := mkSlot (slot_buffer s) (slot_address s) (executed l + length (queue l))%nat (pending s)]> (slots l)) l).
Definition event_synchronize (event : nat) : M Loader unit := do! cuda_call; mmodify (fun l => run_device (event - executed l) l).
Definition stream_synchronize : M Loader unit := do! cuda_call; mmodify (fun l => run_device (length (queue l)) l).

Definition set_pending (i : nat) (v : bool) : M Loader unit :=
  let! l := mget in
  let! s := mderef (slots l !! i) in
  mput (set_slots (<[i := mkSlot (slot_buffer s) (slot_address s) (slot_event s) v]> (slots l)) l).

(** [Slot::wait] *)
Definition slot_wait (i : nat) : M Loader unit :=
  let! l := mget in
  let! s := mderef (slots l !! i) in
  mwhen (pending s) (do! event_synchronize (slot_event s); set_pending i false).

(** A read into the buffer of a slot. *)
Definition read_slot (i : nat) (source request : Z) : M Loader Z :=
  let! l := mget in
  let! s := mderef (slots l !! i) in
  let! bytes := mlift (read_direct pread source (slot_address s) request) in
  do! mput (set_slots (<[i := mkSlot (bytes ++ drop (length bytes) (slot_buffer s)) (slot_address s) (slot_event s) (pending s)]> (slots l)) l);
  mret_ (Z.of_nat (length bytes)).

(** ** The chunks *)

(** [while (next_range < ranges.size() && ranges[next_range].source_end <= source) { ++next_range; }] *)
Fixpoint skip_ranges (source : Z) (rest : list CopyRange) (index : nat) : nat :=
  match rest with
  | range :: rest' => if source_end range <=? source then skip_ranges source rest' (S index) else index
  | [] => index
  end.

(** The loop that copies what the ranges have in the chunk; [rest] are the ranges from [index] on. *)
Fixpoint copy_ranges (slot : nat) (source chunk_end : Z) (rest : list CopyRange) (index : nat) : M Loader nat :=
  match rest with
  | [] => mret_ index
  | range :: rest' =>
      if source_begin range <? chunk_end then
        let copy_begin := Z.max source (source_begin range) in
        let copy_end := Z.min chunk_end (source_end range) in
        do! mwhen (copy_begin <? copy_end)
              (let amount := copy_end - copy_begin in
               do! memcpy_async (mkCopy (destination range + (copy_begin - source_begin range)) slot (copy_begin - source) amount);
               let! l := mget in
               let! sum := mlift (artifact_add (copied l) amount) in
               mput (set_copied sum l));
        if source_end range <=? chunk_end then copy_ranges slot source chunk_end rest' (S index) else mret_ index
      else mret_ index
  end.

Section Plan.
Context (ranges : list CopyRange) (total slot_bytes : Z) (slot_count : nat) (has_progress : bool).

(** One turn of the loop over the chunks of a span. *)
Definition load_chunk (span : ReadSpan) (source : Z) : M Loader unit :=
  let! l := mget in
  let i := (next_slot l mod slot_count)%nat in
  do! mput (set_next_slot (S (next_slot l)) l);
  do! slot_wait i;
  let remaining := rs_end span - source in
  let! aligned := mlift (artifact_align_up remaining direct_io_alignment) in
  let request := Z.min slot_bytes aligned in
  let! bytes_read := read_slot i source request in
  let required := Z.min request remaining in
  do! mthrow_if (bytes_read <? required) ArtifactError;
  let! l := mget in
  let! read := mlift (artifact_add (file_bytes_read l) bytes_read) in
  do! mput (set_file_bytes read l);
  let! chunk_end := mlift (artifact_add source bytes_read) in
  let! l := mget in
  let first := skip_ranges source (drop (next_range l) ranges) (next_range l) in
  let! index := copy_ranges i source chunk_end (drop first ranges) first in
  do! mmodify (set_next_range index);
  do! event_record i;
  do! set_pending i true;
  let! l := mget in
  mwhen (has_progress && negb (copied l =? last_published l) && (copied l <? total))
    (mmodify (fun l => publish_progress total (set_last_published l))).

(** [for (source = span.begin; source < span.end; source += slot_bytes)]; [fuel] is the number of its turns. *)
Fixpoint load_span (fuel : nat) (span : ReadSpan) (source : Z) : M Loader unit :=
  if source <? rs_end span then
    match fuel with
    | O => mthrow Abort_
    | S fuel' => do! load_chunk span source; load_span fuel' span (u64 (source + slot_bytes))
    end
  else mret_ tt.
Definition span_turns (span : ReadSpan) : nat := Z.to_nat ((rs_end span - rs_begin span + slot_bytes - 1) / slot_bytes).

Definition load_spans (spans : list ReadSpan) : M Loader unit :=
  miter (fun span => load_span (span_turns span) span (rs_begin span)) spans.
End Plan.

(** ** [materialize] *)

Record MaterializationStats : Set := mkLoadStats {
  ms_file_bytes : Z; h2d_bytes : Z; ms_device_capacity_bytes : Z; retained_resource_bytes : Z; peak_staging_bytes : Z;
  tensor_count : nat; resource_count : nat;
}.

(** [ObjectStorage]: the device address, 0 for none, and the retained bytes. *)
Record ObjectStorage : Set := mkObject { ob_device : Z; ob_resource : list Z }.
Record MaterializedArtifact : Set := mkMaterialized {
  device_arena_ : option DeviceArena; objects_ : list ObjectStorage; stats_ : MaterializationStats;
}.

Definition device_data (m : MaterializedArtifact) (handle : ObjectHandle) : result Z :=
  match objects_ m !! handle with
  | Some o => do* throw_if (ob_device o =? 0) ArtifactError; Ok (ob_device o)
  | None => Err ArtifactError
  end.
Definition resource_bytes (m : MaterializedArtifact) (handle : ObjectHandle) : result (list Z) :=
  match objects_ m !! handle with
  | Some o => do* throw_if (bool_decide (ob_resource o = [])) ArtifactError; Ok (ob_resource o)
  | None => Err ArtifactError
  end.
(** [take_resource_bytes]: the bytes are moved out. *)
Definition take_resource_bytes (handle : ObjectHandle) : M MaterializedArtifact (list Z) :=
  let! m := mget in
  let! bytes := mlift (resource_bytes m handle) in
  let s := stats_ m in
  do! mput (mkMaterialized (device_arena_ m) (alter (fun o => mkObject (ob_device o) []) handle (objects_ m))
              (mkLoadStats (ms_file_bytes s) (h2d_bytes s) (ms_device_capacity_bytes s)
                 (u64 (retained_resource_bytes s - Z.of_nat (length bytes))) (peak_staging_bytes s) (tensor_count s) (resource_count s)));
  mret_ bytes.
Definition device_arena (m : MaterializedArtifact) : result DeviceArena :=
  match device_arena_ m with Some a => Ok a | None => Err ArtifactError end.

(** [objects_.at(index)], and its update. *)
Definition object_at {A} (objects : list A) (index : nat) : result A :=
  match objects !! index with Some o => Ok o | None => Err OutOfRange end.

(** The loop over the host placements: the objects, the bytes retained and the bytes read. *)
Definition retain_object (reader : Reader) (st : list ObjectStorage * Z * Z) (handle : ObjectHandle) : result (list ObjectStorage * Z * Z) :=
  let '(objects, retained, read) := st in
  let* storage := object_at objects handle in
  let* object := object_at (entries reader) handle in
  let* span := payload reader object in
  let size := Z.of_nat (length (Artifact.span_data span)) in
  let* read := artifact_add read size in
  Ok (<[handle := mkObject (ob_device storage) (Artifact.span_data span)]> objects, u64 (retained + size), read).

Record PlaceState : Set := mkPlaceState { pl_arena : DeviceArena; pl_objects : list ObjectStorage; pl_ranges : list CopyRange; pl_total : Z }.

(** The loop over the device placements. *)
Definition place_tensor (reader : Reader) (st : PlaceState) (d : DeviceMaterialization) : result PlaceState :=
  let* object := object_at (entries reader) (dm_object d) in
  let* span := payload reader object in
  match ar_alloc_bytes (dm_bytes d) (dm_alignment d) (pl_arena st) with
  | (Err e, _) => Err e
  | (Ok storage, arena) =>
      let actual_offset := Layout.span_data storage - ar_base arena in
      do* throw_if (negb (actual_offset =? dm_offset d) || negb (Z.of_nat (length (Artifact.span_data span)) =? dm_bytes d)) ArtifactError;
      let* object := object_at (pl_objects st) (dm_object d) in
      let* source_end := artifact_add (absolute_offset span) (dm_bytes d) in
      let* total := artifact_add (pl_total st) (dm_bytes d) in
      Ok (mkPlaceState arena (<[dm_object d := mkObject (Layout.span_data storage) (ob_resource object)]> (pl_objects st))
            (pl_ranges st ++ [mkRange (absolute_offset span) source_end (Layout.span_data storage)]) total)
  end.

Definition begins_before (a b : CopyRange) : Prop := source_begin a <= source_begin b.
#[export] Instance begins_before_dec a b : Decision (begins_before a b).
Proof. unfold begins_before. apply _. Defined.

(** [for (i = 1; ...) if (ranges[i].source_begin < ranges[i - 1].source_end) throw] *)
Fixpoint check_disjoint (ranges : list CopyRange) : result unit :=
  match ranges with
  | a :: (b :: _) as rest => do* throw_if (source_begin b <? source_end a) ArtifactError; check_disjoint rest
  | _ => Ok tt
  end.

(** The loop that merges the ranges into aligned spans. *)
Definition add_range (spans : list ReadSpan) (range : CopyRange) : result (list ReadSpan) :=
  let begin := artifact_align_down (source_begin range) direct_io_alignment in
  match last spans with
  | None => Ok [mkReadSpan begin (source_end range)]
  | Some back =>
      let* limit := artifact_align_up (rs_end back) direct_io_alignment in
      if begin >? limit then Ok (spans ++ [mkReadSpan begin (source_end range)])
      else Ok (<[pred (length spans) := mkReadSpan (rs_begin back) (Z.max (rs_end back) (source_end range))]> spans)
  end.

Definition add_aligned_bytes (sum : Z) (span : ReadSpan) : result Z :=
  let* bytes := artifact_align_up (rs_end span - rs_begin span) direct_io_alignment in artifact_add sum bytes.

(** [std::make_unique<Slot>(slot_bytes)]; what the buffer holds at first is not specified, here 0. *)
Definition make_slot (slot_bytes : Z) (i : nat) : result Slot :=
  match cuda_malloc_host i slot_bytes with
  | None => Err RuntimeError
  | Some address => do* throw_if (negb (cuda_event_create i)) RuntimeError; Ok (mkSlot (replicate (Z.to_nat slot_bytes) 0) address 0 false)
  end.

Definition materialize (reader : Reader) (plan : MaterializationPlan) (has_progress : bool) (initial_memory : Z -> Z)
  : result (MaterializedArtifact * Loader) :=
  let capacity := device_capacity_bytes plan in
  do* throw_if ((capacity =? 0) || (capacity >? u64_max)) ArtifactError;
  let* arena := arena_create cuda_malloc capacity in
  let* (objects, retained, read) := rfoldl (retain_object reader) (replicate (object_count plan) (mkObject 0 []), 0, 0) (host_objects plan) in
  let* placed := rfoldl (place_tensor reader) (mkPlaceState arena objects [] 0) (device_objects plan) in
  do* throw_if (bool_decide (pl_ranges placed = [])) ArtifactError;
  let ranges := merge_sort begins_before (pl_ranges placed) in
  do* check_disjoint ranges;
  let* read_spans := rfoldl add_range [] ranges in
  let* aligned_read_bytes := rfoldl add_aligned_bytes 0 read_spans in
  let slot_bytes := Z.min kSlotBytes aligned_read_bytes in
  let slot_count := Z.to_nat (Z.min kMaximumSlotCount (1 + (aligned_read_bytes - 1) / slot_bytes)) in
  let* slots := rmapM (make_slot slot_bytes) (seq 0 slot_count) in
  let total := pl_total placed in
  let start := mkLoader slots [] 0 initial_memory 0 0 0 0 0 read (if has_progress then [(0, total)] else []) in
  match (do! load_spans ranges total slot_bytes slot_count has_progress read_spans;
         do! miter slot_wait (seq 0 slot_count);
         do! stream_synchronize;
         let! l := mget in
         do! mthrow_if (negb (copied l =? total) || negb (next_range l =? length ranges)%nat) ArtifactError;
         mwhen has_progress (mmodify (publish_progress total))) start with
  | (Err e, _) => Err e
  | (Ok _, l) =>
      Ok (mkMaterialized (Some (pl_arena placed)) (pl_objects placed)
            (mkLoadStats (file_bytes_read l) (copied l) capacity retained (slot_bytes * Z.of_nat slot_count)
               (length (device_objects plan)) (length (host_objects plan))), l)
  end.
End Host.
