(* ===== verification/LoaderProofs.v ===== *)
(** * Loading through the slots

    Whatever the pace of the device, reusing a slot after its event never changes a copy that is still queued;
    and the chunks copy every byte of every tensor to its place. *)
From stdpp Require Import gmap sorting.
From S2P Require Import Prelude Layout Unicode UnicodeProofs Tokenizer Artifact ArtifactProofs BinderProofs Materialize.
#[local] Open Scope Z_scope.
#[local] Open Scope ninfer_scope.

(** ** The stream *)

(** The memory of the device once everything queued is executed. *)
Definition drain (l : Loader) : Z -> Z := foldl (execute_copy (slots l)) (memory l) (queue l).

(** What the device does not change. *)
Definition same_vars (l l' : Loader) : Prop :=
  slots l' = slots l /\ next_slot l' = next_slot l /\ next_range l' = next_range l /\ copied l' = copied l /\
  file_bytes_read l' = file_bytes_read l.

Lemma run_device_spec n : forall l, let l' := run_device n l in
  drain l' = drain l /\ same_vars l l' /\ queue l' = drop n (queue l) /\ executed l' = (executed l + Nat.min n (length (queue l)))%nat.
Proof.
  induction n as [|n IH]; intros l; cbv zeta; [by rewrite drop_0, Nat.add_0_r|]. cbn [run_device]. destruct (queue l) as [|c rest] eqn:Eq.
  { rewrite Eq. split_and!; try done. }
  match goal with |- context [run_device n ?x] => destruct (IH x) as (Hd & Hs & Hq & He) end. rewrite Hd, Hq, He. cbn [queue executed drop length Nat.min].
  split; [unfold drain; cbn; by rewrite Eq|]. split; [exact Hs|]. split; [done|]. lia.
Qed.

(** Every queued copy reads a slot that waits for it, or the [current] one. *)
Definition guarded (current : option nat) (l : Loader) : Prop := forall k c, queue l !! k = Some c ->
  current = Some (cp_slot c) \/ exists s, slots l !! cp_slot c = Some s /\ pending s = true /\ (executed l + k < slot_event s)%nat.

Lemma guarded_run current n l : guarded current l -> guarded current (run_device n l).
Proof.
  intros Hg k c Hk. destruct (run_device_spec n l) as (_ & (Hs & _) & Hq & He). rewrite Hq, lookup_drop in Hk.
  assert (Hn : (n < length (queue l))%nat) by (apply lookup_lt_Some in Hk; lia).
  destruct (Hg _ _ Hk) as [|(s & Hsl & Hp & Hev)]; [by left|]. right. exists s. rewrite Hs. split; [done|]. split; [done|]. rewrite He. lia.
Qed.

(** Copies that do not read a slot do not see what is written to it. *)
Lemma execute_same sl sl' q : forall m, Forall (fun c => sl !! cp_slot c = sl' !! cp_slot c) q -> foldl (execute_copy sl) m q = foldl (execute_copy sl') m q.
Proof.
  induction q as [|c q IH]; intros m H; [done|]. apply Forall_cons in H as [Hc H]. cbn [foldl]. unfold execute_copy at 2 4, copy_bytes. rewrite Hc. by apply IH.
Qed.

Definition unused (i : nat) (l : Loader) : Prop := Forall (fun c => cp_slot c <> i) (queue l).

Lemma drain_set_slot i s l : unused i l -> drain (set_slots (<[i := s]> (slots l)) l) = drain l.
Proof.
  intros Hu. unfold drain. cbn. apply execute_same. eapply Forall_impl; [exact Hu|]. intros c Hc. cbn in *. by rewrite list_lookup_insert_ne.
Qed.

(** Changing the flags of a slot keeps its buffer. *)
Lemma drain_set_flags i s s' l : slots l !! i = Some s -> slot_buffer s' = slot_buffer s -> drain (set_slots (<[i := s']> (slots l)) l) = drain l.
Proof.
  intros Hs Hb. unfold drain. cbn. generalize (memory l). induction (queue l) as [|c q IH]; intros m; [done|]. cbn [foldl].
  assert (Hc : copy_bytes (<[i := s']> (slots l)) c = copy_bytes (slots l) c).
  { unfold copy_bytes. destruct (decide (i = cp_slot c)) as [<-|Hne]; [|by rewrite list_lookup_insert_ne].
    rewrite list_lookup_insert_eq by (by eapply lookup_lt_Some). by rewrite Hs, Hb. }
  unfold execute_copy at 2 4. by rewrite Hc.
Qed.

(** The bytes of ranges. *)
Definition range_bytes (rs : list CopyRange) : Z := foldr (fun r n => source_end r - source_begin r + n) 0 rs.
Lemma range_bytes_app a b : range_bytes (a ++ b) = range_bytes a + range_bytes b.
Proof. unfold range_bytes. induction a as [|r a IH]; cbn; [done|]. rewrite IH. lia. Qed.

Section Host.
Context `{LoadHost}.

(** ** The chunks of a plan *)

Section Plan.
Context (file : list Z) (ranges : list CopyRange) (total slot_bytes : Z) (slot_count : nat) (read0 : Z) (has_progress : bool) (initial : Z -> Z).

Definition slice (p n : Z) : list Z := take (Z.to_nat n) (drop (Z.to_nat p) file).
#[local] Notation size := (Z.of_nat (length file)) (only parsing).

(** The system: reading gives what is in the file from there on, perhaps less of it. *)
Definition complete : Prop := (forall n, cuda_accepts n = true) /\
  forall offset request, 0 <= offset <= size -> 0 <= request -> pread offset request = Some (slice offset request).

Hypothesis Hread : forall offset request bytes, 0 <= offset <= size -> 0 <= request -> pread offset request = Some bytes ->
  bytes = slice offset (Z.of_nat (length bytes)) /\ Z.of_nat (length bytes) <= request.
Hypothesis Hsize : size <= i64_max.
Hypothesis Hslot : 0 < slot_bytes <= kSlotBytes /\ slot_bytes mod 4096 = 0.
Hypothesis Hcount : (0 < slot_count)%nat.
Hypothesis Hread0 : 0 <= read0 <= size.

(** The ranges: in the order of the file, within it, with disjoint destinations. *)
Hypothesis Hranges : Forall (fun r => 0 <= source_begin r /\ source_begin r < source_end r /\ source_end r <= size) ranges.
Hypothesis Hsorted : forall i j r r', (i < j)%nat -> ranges !! i = Some r -> ranges !! j = Some r' -> source_end r <= source_begin r'.
Hypothesis Hdisjoint : forall i j r r', i <> j -> ranges !! i = Some r -> ranges !! j = Some r' ->
  destination r + (source_end r - source_begin r) <= destination r' \/ destination r' + (source_end r' - source_begin r') <= destination r.
Hypothesis Htotal : total = range_bytes ranges /\ total <= u64_max.

(** An error is possible only when a call of the system or of CUDA failed or a read was short. *)
Definition failed (_ : exn) (_ : Loader) : Prop := ~ complete.

(** *** What is copied *)

(** The bytes of the k-th range before [upto k] are in their places, and nothing else has changed. *)
Definition contents (m : Z -> Z) (upto : nat -> Z) : Prop :=
  (forall k r p, ranges !! k = Some r -> source_begin r <= p -> p < source_end r -> p < upto k ->
     m (destination r + (p - source_begin r)) = nth (Z.to_nat p) file 0) /\
  (forall a, Forall (fun r => a < destination r \/ destination r + (source_end r - source_begin r) <= a) ranges -> m a = initial a).

Lemma contents_mono m upto upto' : contents m upto ->
  (forall k r p, ranges !! k = Some r -> source_begin r <= p < source_end r -> p < upto' k -> p < upto k) -> contents m upto'.
Proof. intros [Hm Hf] Hu. split; [|done]. intros k r p Hk Hp1 Hp2 Hp3. apply (Hm k r p); try done. by eapply Hu. Qed.

Definition covered (p : Z) (r : CopyRange) : Z := Z.max 0 (Z.min (source_end r) p - source_begin r).
Definition covered_sum (p : Z) (rs : list CopyRange) : Z := foldr (fun r n => covered p r + n) 0 rs.

Lemma covered_sum_app p a b : covered_sum p (a ++ b) = covered_sum p a + covered_sum p b.
Proof. unfold covered_sum. induction a as [|r a IH]; cbn; [done|]. rewrite IH. lia. Qed.

Lemma covered_sum_bound p rs : Forall (fun r => source_begin r < source_end r) rs ->
  0 <= covered_sum p rs <= range_bytes rs.
Proof. unfold covered_sum, range_bytes. induction 1 as [|r rs Hr _ IH]; cbn; [lia|]. unfold covered at 1 3. lia. Qed.

Lemma covered_sum_same p p' rs : Forall (fun r => covered p r = covered p' r) rs -> covered_sum p rs = covered_sum p' rs.
Proof. unfold covered_sum. induction 1 as [|r rs Hr _ IH]; cbn; [done|]. by rewrite Hr, IH. Qed.

Lemma write_memory_in a bytes m k : (k < length bytes)%nat -> write_memory a bytes m (a + Z.of_nat k) = nth k bytes 0.
Proof.
  intros Hk. unfold write_memory. rewrite (proj2 (Z.leb_le _ _)), (proj2 (Z.ltb_lt _ _)) by lia. cbn. f_equal. lia.
Qed.
Lemma write_memory_out a bytes m x : x < a \/ a + Z.of_nat (length bytes) <= x -> write_memory a bytes m x = m x.
Proof.
  intros Hx. unfold write_memory. destruct (Z.leb_spec a x), (Z.ltb_spec x (a + Z.of_nat (length bytes))); cbn; try done. lia.
Qed.

(** *** The invariant *)

Definition slot_ok (s : Slot) : Prop := Z.of_nat (length (slot_buffer s)) = slot_bytes /\ slot_address s mod 4096 = 0.

(** The variables of the loop that only the loop changes. *)
Definition vars (l : Loader) : nat * Z * Z := (next_range l, copied l, file_bytes_read l).

Record inv (current : option nat) (upto : nat -> Z) (v : nat * Z * Z) (l : Loader) : Prop := {
  iv_slots : length (slots l) = slot_count;
  iv_slot_ok : Forall slot_ok (slots l);
  iv_guarded : guarded current l;
  iv_contents : contents (drain l) upto;
  iv_vars : vars l = v;
}.

Lemma inv_run current upto v n l : inv current upto v l -> inv current upto v (run_device n l).
Proof.
  intros [H1 H2 H3 H4 H5]. destruct (run_device_spec n l) as (Hd & (Hs & _ & Hr & Hc & Hf) & _).
  split; rewrite ?Hs, ?Hd; try done; [by apply guarded_run|]. rewrite <- H5. unfold vars. by rewrite Hr, Hc, Hf.
Qed.
Lemma inv_calls current upto v l : inv current upto v l -> inv current upto v (count_call l).
Proof. intros [H1 H2 H3 H4 H5]. by split. Qed.
Lemma inv_mono current upto upto' v l : inv current upto v l ->
  (forall k r p, ranges !! k = Some r -> source_begin r <= p < source_end r -> p < upto' k -> p < upto k) -> inv current upto' v l.
Proof. intros [H1 H2 H3 H4 H5] Hu. split; try done. by eapply contents_mono. Qed.
Lemma inv_slot current upto v l i : inv current upto v l -> (i < slot_count)%nat -> exists s, slots l !! i = Some s /\ slot_ok s.
Proof.
  intros Hi Hlt. destruct (lookup_lt_is_Some_2 (slots l) i) as [s Hs]; [rewrite (iv_slots _ _ _ _ Hi); lia|].
  exists s. split; [done|]. by apply (Forall_lookup_1 _ _ i s (iv_slot_ok _ _ _ _ Hi)).
Qed.

(** A call of CUDA: the device may have run, nothing else has changed. *)
Lemma wp_cuda_call (Q : unit -> Loader -> Prop) l : (forall n, Q tt (count_call (run_device n l))) -> wp cuda_call Q failed l.
Proof.
  intros HQ. unfold cuda_call. apply wp_bind, wp_get, wp_bind, wp_put, wp_throw_if; intros Hc; [|apply HQ].
  intros [Hall _]. by rewrite Hall in Hc.
Qed.

Lemma wp_cuda_inv current upto v (Q : unit -> Loader -> Prop) l : inv current upto v l ->
  (forall l', inv current upto v l' -> slots l' = slots l -> drain l' = drain l -> Q tt l') -> wp cuda_call Q failed l.
Proof.
  intros Hi HQ. apply wp_cuda_call. intros n. apply HQ; [by apply inv_calls, inv_run| |]; destruct (run_device_spec n l) as (Hd & (Hs & _) & _); [done|].
  by rewrite <- Hd.
Qed.

(** *** A slot *)

Lemma unused_None upto v l i s : inv None upto v l -> slots l !! i = Some s -> pending s = false -> unused i l.
Proof.
  intros Hi Hs Hp. apply Forall_lookup_2. intros k c Hk <-. destruct (iv_guarded _ _ _ _ Hi k c Hk) as [|(s' & Hs' & Hp' & _)]; [done|]. congruence.
Qed.

(** A slot that no queued copy reads may be changed. *)
Lemma inv_set_slot i s upto v l : inv None upto v l -> unused i l -> slot_ok s -> inv None upto v (set_slots (<[i := s]> (slots l)) l).
Proof.
  intros [H1 H2 H3 H4 H5] Hu Hs. split; [cbn; by rewrite length_insert|cbn; by apply Forall_insert| |by rewrite drain_set_slot|done].
  intros k c Hk. destruct (H3 k c Hk) as [|(s' & Hs' & ?)]; [done|]. right. exists s'. split; [|done].
  cbn. rewrite list_lookup_insert_ne; [done|]. intros Heq. by apply (Forall_lookup_1 _ _ _ _ Hu Hk).
Qed.

Lemma wp_set_pending i b l (Q : unit -> Loader -> Prop) s : slots l !! i = Some s ->
  Q tt (set_slots (<[i := mkSlot (slot_buffer s) (slot_address s) (slot_event s) b]> (slots l)) l) -> wp (set_pending i b) Q failed l.
Proof.
  intros Hs HQ. apply wp_bind, wp_get, wp_bind. rewrite Hs. cbn. by apply wp_ret, wp_put.
Qed.

(** After the wait nothing queued reads the slot. *)
Lemma wp_slot_wait i upto v l : (i < slot_count)%nat -> inv None upto v l ->
  wp (slot_wait i) (fun _ l' => inv None upto v l' /\ unused i l') failed l.
Proof.
  intros Hlt Hi. destruct (inv_slot _ _ _ _ _ Hi Hlt) as (s & Hs & Hok). apply wp_bind, wp_get, wp_bind. rewrite Hs. cbn. apply wp_ret.
  apply wp_when; intros Hp; [|split; [done|by eapply unused_None]].
  apply wp_bind, wp_bind. apply (wp_cuda_inv _ _ _ _ _ Hi). intros l1 Hi1 Hs1 _. apply wp_modify.
  pose proof (inv_run _ _ _ (slot_event s - executed l1) _ Hi1) as Hi2. set (n := (slot_event s - executed l1)%nat) in *.
  destruct (run_device_spec n l1) as (_ & (Hs2 & _) & Hq2 & _).
  assert (Hu : unused i (run_device n l1)).
  { apply Forall_lookup_2. intros k c Hk <-. rewrite Hq2, lookup_drop in Hk. destruct (iv_guarded _ _ _ _ Hi1 _ _ Hk) as [|(s' & Hs' & _ & He)]; [done|].
    rewrite Hs1, Hs in Hs'. injection Hs' as <-. unfold n in He. lia. }
  apply (wp_set_pending _ _ _ _ s); [by rewrite Hs2, Hs1|]. split; [|done]. by apply inv_set_slot.
Qed.

(** The first [n] bytes of the buffer of a slot. *)
Definition holds (i : nat) (source n : Z) (l : Loader) : Prop := exists s, slots l !! i = Some s /\ take (Z.to_nat n) (slot_buffer s) = slice source n.

Lemma slice_length p n : 0 <= p -> 0 <= n -> p + n <= size -> Z.of_nat (length (slice p n)) = n.
Proof. intros Hp Hn Hs. unfold slice. rewrite length_take, length_drop. lia. Qed.

Lemma slice_fits p n k : 0 <= p -> 0 <= n -> Z.of_nat (length (slice p n)) = k -> p <= size -> k <= n /\ p + k <= size /\ k = Z.min n (size - p).
Proof. intros Hp Hn Hk Hs. unfold slice in Hk. rewrite length_take, length_drop in Hk. lia. Qed.

Lemma wp_read_slot i source request upto v l : (i < slot_count)%nat -> inv None upto v l -> unused i l ->
  0 <= source <= size -> source mod 4096 = 0 -> 0 < request <= slot_bytes -> request mod 4096 = 0 ->
  wp (read_slot i source request) (fun n l' => inv None upto v l' /\ holds i source n l' /\ 0 <= n <= request /\ source + n <= size /\
    (complete -> n = Z.min request (size - source))) failed l.
Proof.
  intros Hlt Hi Hu Hsrc Hal Hreq Hral. destruct (inv_slot _ _ _ _ _ Hi Hlt) as (s & Hs & [Hlen Had]). apply wp_bind, wp_get, wp_bind. rewrite Hs. cbn. apply wp_ret.
  apply wp_bind. unfold read_direct. change direct_io_alignment with 4096. rewrite Hal, Hral, Had. cbn [Z.eqb negb orb throw_if rbind].
  rewrite !Z.gtb_ltb, !(proj2 (Z.ltb_ge _ _)) by (unfold_ints; unfold kSlotBytes in *; lia). cbn [orb throw_if rbind].
  apply wp_lift; intros x Hx; destruct (pread source request) as [bytes|] eqn:Ep; try done.
  2: { intros [_ Hall]. rewrite Hall in Ep by lia. done. }
  injection Hx as <-. destruct (Hread source request bytes Hsrc ltac:(lia) Ep) as [Hb Hle]. destruct (slice_fits source (Z.of_nat (length bytes)) (Z.of_nat (length bytes))) as (_ & Hfit & _); [lia|lia|by rewrite <- Hb|lia|].
  apply wp_bind, wp_put, wp_ret. split; [|split; [|split; [lia|split; [lia|]]]].
  - apply inv_set_slot; try done. split; [|done]. cbn. rewrite length_app, length_drop. lia.
  - eexists. cbn. rewrite list_lookup_insert_eq by (by eapply lookup_lt_Some). split; [done|]. cbn. rewrite Nat2Z.id, take_app_length. exact Hb.
  - intros [_ Hall]. rewrite Hall in Ep by lia. injection Ep as Ep.
    destruct (slice_fits source request (Z.of_nat (length bytes))) as (_ & _ & Hm); [lia|lia|by rewrite Ep|lia|done].
Qed.

(** *** The copies of a chunk *)

Lemma slice_nth p n j : 0 <= p -> 0 <= j < n -> nth (Z.to_nat j) (slice p n) 0 = nth (Z.to_nat (p + j)) file 0.
Proof.
  intros Hp Hj. unfold slice. rewrite !nth_lookup, lookup_take_lt, lookup_drop by lia. do 2 f_equal. lia.
Qed.

Lemma holds_copy i source n l d cb amount : holds i source n l -> 0 <= source <= cb -> 0 <= amount -> cb + amount <= source + n ->
  copy_bytes (slots l) (mkCopy d i (cb - source) amount) = slice cb amount.
Proof.
  intros (s & Hs & Hb) Hcb Ha Hn. unfold copy_bytes. cbn. rewrite Hs. unfold slice in *. apply list_eq. intros j.
  destruct (decide (j < Z.to_nat amount)%nat); [|by rewrite !lookup_take_ge by lia]. rewrite !lookup_take_lt, !lookup_drop by lia.
  pose proof (f_equal (fun b => b !! (Z.to_nat (cb - source) + j)%nat) Hb) as Hj. cbn in Hj. rewrite !lookup_take_lt, lookup_drop in Hj by lia.
  rewrite Hj. f_equal. lia.
Qed.

(** In a chunk that reaches to [chunk_end], the ranges before [index] are copied that far. *)
Definition upto_at (source chunk_end : Z) (index k : nat) : Z := if (k <? index)%nat then chunk_end else source.
Definition copied_at (source chunk_end : Z) (index : nat) : Z := covered_sum chunk_end (take index ranges) + covered_sum source (drop index ranges).

Lemma contents_copy m index r source chunk_end : contents m (upto_at source chunk_end index) -> ranges !! index = Some r -> 0 <= source ->
  let cb := Z.max source (source_begin r) in let amount := Z.min chunk_end (source_end r) - cb in 0 < amount -> chunk_end <= size ->
  contents (write_memory (destination r + (cb - source_begin r)) (slice cb amount) m) (upto_at source chunk_end (S index)).
Proof.
  intros [Hm Hf] Hr Hsrc cb amount Ha Hend. pose proof (slice_length cb amount ltac:(lia) ltac:(lia) ltac:(lia)) as Hlen. split.
  2: { intros a Ho. pose proof (Forall_lookup_1 _ _ _ _ Ho Hr) as Hra. cbn in Hra. rewrite write_memory_out by lia. by apply Hf. }
  intros k r' p Hk Hp1 Hp2 Hp3.
  destruct (decide (k = index)) as [->|Hne].
  - rewrite Hr in Hk. injection Hk as <-. unfold upto_at in Hp3. rewrite (proj2 (Nat.ltb_lt _ _)) in Hp3 by lia.
    destruct (Z.lt_ge_cases p cb) as [Hlt|Hge].
    + rewrite write_memory_out by lia. apply (Hm index); try done. unfold upto_at. rewrite Nat.ltb_irrefl. lia.
    + replace (destination r + (p - source_begin r)) with (destination r + (cb - source_begin r) + Z.of_nat (Z.to_nat (p - cb))) by lia.
      rewrite write_memory_in, slice_nth by lia. do 2 f_equal. lia.
  - rewrite write_memory_out by (destruct (Hdisjoint k index r' r Hne Hk Hr); lia). apply (Hm k); try done.
    unfold upto_at in *. destruct (Nat.ltb_spec k (S index)), (Nat.ltb_spec k index); lia.
Qed.

Lemma contents_uncopied m index r source chunk_end : contents m (upto_at source chunk_end index) -> ranges !! index = Some r ->
  Z.min chunk_end (source_end r) <= Z.max source (source_begin r) -> contents m (upto_at source chunk_end (S index)).
Proof.
  intros Hm Hr Hno. eapply contents_mono; [exact Hm|]. intros k r' p Hk Hp Hlt. unfold upto_at in *.
  destruct (Nat.ltb_spec k (S index)), (Nat.ltb_spec k index); try lia. assert (k = index) as -> by lia. rewrite Hr in Hk. injection Hk as <-. lia.
Qed.

Lemma copied_at_S source chunk_end index r : ranges !! index = Some r -> source <= chunk_end ->
  copied_at source chunk_end (S index) = copied_at source chunk_end index +
    Z.max 0 (Z.min chunk_end (source_end r) - Z.max source (source_begin r)).
Proof.
  intros Hr Hle. unfold copied_at. rewrite (take_S_r _ _ _ Hr), covered_sum_app, (drop_S _ _ _ Hr). unfold covered_sum at 2 4; cbn. unfold covered at 1 3. unfold covered_sum. lia.
Qed.

Lemma copied_at_bound source chunk_end index : 0 <= copied_at source chunk_end index <= total.
Proof.
  destruct Htotal as [-> _]. unfold copied_at. replace (range_bytes ranges) with (range_bytes (take index ranges ++ drop index ranges)) by (by rewrite take_drop).
  rewrite range_bytes_app. assert (Hr : Forall (fun r => source_begin r < source_end r) ranges) by (eapply Forall_impl; [exact Hranges|cbn; lia]).
  pose proof (covered_sum_bound chunk_end _ (Forall_take _ index _ Hr)). pose proof (covered_sum_bound source _ (Forall_drop _ index _ Hr)). lia.
Qed.

(** While the copies of a chunk are queued; [nr] and [fb] do not change. *)
Definition copying (i : nat) (source n : Z) (nr : nat) (fb : Z) (index : nat) (l : Loader) : Prop :=
  inv (Some i) (upto_at source (source + n) index) (nr, copied_at source (source + n) index, fb) l /\ holds i source n l.

Lemma wp_memcpy_async i upto v c (Q : unit -> Loader -> Prop) l : inv (Some i) upto v l -> cp_slot c = i ->
  (forall l', slots l' = slots l -> length (slots l') = slot_count -> Forall slot_ok (slots l') -> guarded (Some i) l' ->
     drain l' = execute_copy (slots l) (drain l) c -> contents (drain l) upto -> vars l' = v -> Q tt l') -> wp (memcpy_async c) Q failed l.
Proof.
  intros Hi Hc HQ. apply wp_bind, (wp_cuda_inv _ _ _ _ _ Hi). intros l1 [H1 H2 H3 H4 H5] Hs1 Hd1. apply wp_modify.
  apply HQ; try done.
  - intros k c' Hk. apply lookup_app_Some in Hk as [Hk|[_ Hk]]; [by apply H3|]. apply list_lookup_singleton_Some in Hk as [_ <-]. left. by rewrite Hc.
  - unfold drain. cbn. rewrite foldl_app. cbn. fold (drain l1). by rewrite Hd1, Hs1.
  - by rewrite <- Hd1.
Qed.

Lemma copying_skip i source n nr fb index r l : copying i source n nr fb index l -> ranges !! index = Some r -> 0 < n ->
  Z.min (source + n) (source_end r) <= Z.max source (source_begin r) -> copying i source n nr fb (S index) l.
Proof.
  intros [[H1 H2 H3 H4 H5] Hh] Hr Hn Hno. split; [|done]. split; try done; [by eapply contents_uncopied|].
  rewrite (copied_at_S _ _ _ _ Hr) by lia. rewrite H5. do 2 f_equal. lia.
Qed.

(** What one range has in the chunk. *)
Lemma wp_copy_range i source n nr fb index r l : copying i source n nr fb index l -> ranges !! index = Some r -> 0 <= source -> 0 < n -> source + n <= size ->
  let copy_begin := Z.max source (source_begin r) in let copy_end := Z.min (source + n) (source_end r) in
  wp (mwhen (copy_begin <? copy_end)
        (let amount := copy_end - copy_begin in
         do! memcpy_async (mkCopy (destination r + (copy_begin - source_begin r)) i (copy_begin - source) amount);
         let! l := mget in
         let! sum := mlift (artifact_add (copied l) amount) in
         mput (set_copied sum l))) (fun _ => copying i source n nr fb (S index)) failed l.
Proof.
  intros Hcp Hr Hsrc Hn Hend copy_begin copy_end. apply wp_when; intros Hlt; [|eapply copying_skip; try done; apply Z.ltb_ge in Hlt; exact Hlt].
  apply Z.ltb_lt in Hlt. destruct Hcp as [Hi Hh]. cbv zeta. apply wp_bind, (wp_memcpy_async i _ _ _ _ _ Hi); [done|].
  intros l1 Hs1 Hl1 Hok1 Hg1 Hd1 Hc1 Hv1. injection Hv1 as Hnr Hcopied Hfb.
  pose proof (copied_at_S source (source + n) index r Hr ltac:(lia)) as HS. pose proof (copied_at_bound source (source + n) (S index)) as Hb.
  fold copy_begin copy_end in HS. destruct Htotal as [_ Hmax].
  apply wp_bind, wp_get, wp_bind. rewrite Hcopied, artifact_add_run by lia. apply wp_lift; [intros sum [= <-]|done]. apply wp_put.
  split; [|by unfold holds; cbn; rewrite Hs1]. split; try done.
  - change (drain _) with (drain l1). rewrite Hd1. unfold execute_copy. rewrite (holds_copy _ _ _ _ _ _ _ Hh) by lia. cbn [cp_destination].
    apply contents_copy; try done; lia.
  - unfold vars. cbn. rewrite Hnr, Hfb. do 2 f_equal. lia.
Qed.

(** The chunk is copied when the other ranges begin after it. *)
Definition chunk_copied (i : nat) (chunk_end : Z) (nr : nat) (fb : Z) (l : Loader) : Prop :=
  inv (Some i) (fun _ => chunk_end) (nr, covered_sum chunk_end ranges, fb) l.
Lemma copying_finish i source n nr fb j l : copying i source n nr fb j l -> 0 < n ->
  (forall k r, (j <= k)%nat -> ranges !! k = Some r -> source + n <= source_begin r) -> chunk_copied i (source + n) nr fb l.
Proof.
  intros [Hi _] Hn Hrest. unfold chunk_copied. replace (covered_sum (source + n) ranges) with (copied_at source (source + n) j).
  - eapply inv_mono; [exact Hi|]. intros k r p Hk Hp Hlt. unfold upto_at. destruct (Nat.ltb_spec k j); [done|]. pose proof (Hrest _ _ H0 Hk). lia.
  - unfold copied_at. rewrite <- (take_drop j ranges) at 3. rewrite covered_sum_app. f_equal. apply covered_sum_same, Forall_lookup_2.
    intros k r Hk. rewrite lookup_drop in Hk. pose proof (Hrest (j + k)%nat r ltac:(lia) Hk). unfold covered. lia.
Qed.

(** The ranges before [index] end by [p], the others later. *)
Definition split_at (p : Z) (index : nat) : Prop := (index <= length ranges)%nat /\ forall k r, ranges !! k = Some r -> ((k < index)%nat -> source_end r <= p) /\ ((index <= k)%nat -> p < source_end r).

Lemma split_at_ends p index : (index <= length ranges)%nat -> (forall k r, (k < index)%nat -> ranges !! k = Some r -> source_end r <= p) ->
  (forall r, ranges !! index = Some r -> p < source_end r) -> split_at p index.
Proof.
  intros Hle Hb Ha. split; [done|]. intros k r Hk. split; intros Hlt; [by eapply Hb|]. destruct (decide (k = index)) as [->|Hne]; [by apply Ha|].
  destruct (lookup_lt_is_Some_2 ranges index) as [r' Hr']; [apply lookup_lt_Some in Hk; lia|].
  pose proof (Ha _ Hr'). pose proof (Hsorted index k r' r ltac:(lia) Hr' Hk). pose proof (Forall_lookup_1 _ _ _ _ Hranges Hk). cbn in *. lia.
Qed.

Lemma wp_copy_ranges i source n nr fb : 0 <= source -> 0 < n -> source + n <= size -> forall rest index l, rest = drop index ranges -> (index <= length ranges)%nat ->
  (forall k r, (k < index)%nat -> ranges !! k = Some r -> source_end r <= source + n) -> copying i source n nr fb index l ->
  wp (copy_ranges i source (source + n) rest index) (fun index' l' => chunk_copied i (source + n) nr fb l' /\ split_at (source + n) index') failed l.
Proof.
  intros Hsrc Hn Hend rest. induction rest as [|r rest IH]; intros index l Hrest Hle Hbefore Hcp; cbn [copy_ranges].
  { assert (Hlen : (length ranges <= index)%nat) by (apply (f_equal length) in Hrest; rewrite length_drop in Hrest; cbn in Hrest; lia).
    apply wp_ret. split; [apply (copying_finish i source n nr fb index); try done|apply split_at_ends; [lia|done|]].
    - intros k r Hk Hr. apply lookup_lt_Some in Hr. lia.
    - intros r Hr. apply lookup_lt_Some in Hr. lia. }
  assert (Hr : ranges !! index = Some r) by (rewrite <- (Nat.add_0_r index), <- lookup_drop, <- Hrest; done).
  pose proof (Forall_lookup_1 _ _ _ _ Hranges Hr) as Hrr. cbn in Hrr.
  assert (Hin : (index < length ranges)%nat) by by eapply lookup_lt_Some.
  assert (Hafter : forall k r', (index < k)%nat -> ranges !! k = Some r' -> source_end r <= source_begin r') by (intros k r' Hk Hr'; by apply (Hsorted index k)).
  case_if Hb; [|apply Z.ltb_ge in Hb; apply wp_ret].
  - apply wp_bind. eapply wp_mono; [by apply (wp_copy_range i source n nr fb index r)| |done]. intros [] l1 Hcp1. case_if He; [apply Z.leb_le in He|apply Z.leb_gt in He].
    + apply IH; [by rewrite (drop_S _ _ _ Hr) in Hrest; injection Hrest|lia| |done]. intros k r' Hk Hr'.
      destruct (decide (k = index)) as [->|Hne]; [rewrite Hr in Hr'; by injection Hr' as <-|apply (Hbefore k); [lia|done]].
    + apply wp_ret. split; [apply (copying_finish i source n nr fb (S index)); try done|apply split_at_ends; [lia|done|]].
      * intros k r' Hk Hr'. pose proof (Hafter k r' ltac:(lia) Hr'). lia.
      * intros r' Hr'. rewrite Hr in Hr'. injection Hr' as <-. lia.
  - split; [apply (copying_finish i source n nr fb index); try done|apply split_at_ends; [lia|done|]].
    + intros k r' Hk Hr'. destruct (decide (k = index)) as [->|Hne]; [rewrite Hr in Hr'; by injection Hr' as <-|].
      pose proof (Hafter k r' ltac:(lia) Hr'). lia.
    + intros r' Hr'. rewrite Hr in Hr'. injection Hr' as <-. lia.
Qed.

(** Recording the event and marking the slot: its copies are before the event. *)
Lemma wp_record i upto v l (Q : unit -> Loader -> Prop) : (i < slot_count)%nat -> inv (Some i) upto v l ->
  (forall l', inv None upto v l' -> Q tt l') -> wp (event_record i) (fun _ => wp (set_pending i true) Q failed) failed l.
Proof.
  intros Hlt Hi HQ. apply wp_bind, (wp_cuda_inv _ _ _ _ _ Hi). intros l1 Hi1 _ _. destruct (inv_slot _ _ _ _ _ Hi1 Hlt) as (s & Hs & Hok).
  apply wp_bind, wp_get, wp_bind. rewrite Hs. cbn. apply wp_ret, wp_put.
  assert (Hin : (i < length (slots l1))%nat) by by rewrite (iv_slots _ _ _ _ Hi1).
  eapply wp_set_pending; [cbn; by apply list_lookup_insert_eq|]. cbn. rewrite list_insert_insert_eq. apply HQ.
  destruct Hi1 as [H1 H2 H3 H4 H5]. split; [cbn; by rewrite length_insert|cbn; by apply Forall_insert| | |done].
  - intros k c Hk. cbn in *. right. assert (Hq : (k < length (queue l1))%nat) by by eapply lookup_lt_Some.
    destruct (decide (cp_slot c = i)) as [->|Hne].
    + eexists. rewrite list_lookup_insert_eq by done. split; [done|]. split; [done|]. cbn. lia.
    + destruct (H3 k c Hk) as [Heq|(s' & Hs' & ?)]; [congruence|]. exists s'. by rewrite list_lookup_insert_ne.
  - change (set_slots ?x (set_slots ?y l1)) with (set_slots x l1). rewrite drain_set_flags with (s := s); done.
Qed.

(** *** The chunks of a span *)

(** What is before [p] in the file is loaded. *)
Definition loaded (p : Z) (l : Loader) : Prop := exists nr fb, inv None (fun _ => p) (nr, covered_sum p ranges, fb) l /\
  split_at p nr /\ 0 <= p <= size /\ 0 <= fb <= read0 + p.

Lemma inv_change current upto v l l' : inv current upto v l ->
  (slots l', queue l', executed l', memory l') = (slots l, queue l, executed l, memory l) -> inv current upto (vars l') l'.
Proof. intros [H1 H2 H3 H4 H5] [= Hs Hq He Hm]. split; unfold guarded, drain; rewrite ?Hs, ?Hq, ?He, ?Hm; done. Qed.

(** Between two spans there are no bytes of a range. *)
Lemma loaded_jump p source l : loaded p l -> p <= source <= size ->
  (forall k r, ranges !! k = Some r -> source_end r <= p \/ source <= source_begin r) -> loaded source l.
Proof.
  intros (nr & fb & Hi & Hsp & Hp & Hfb) Hs Hgap. exists nr, fb. split; [|split; [|lia]].
  - rewrite (covered_sum_same source p).
    + eapply inv_mono; [exact Hi|]. intros k r q Hk Hq Hlt. cbn in *. destruct (Hgap _ _ Hk); lia.
    + apply Forall_lookup_2. intros k r Hk. unfold covered. destruct (Hgap _ _ Hk); [|lia]. pose proof (Forall_lookup_1 _ _ _ _ Hranges Hk). cbn in *. lia.
  - split; [exact (proj1 Hsp)|]. intros k r Hk. destruct (proj2 Hsp k r Hk) as [Hb Ha]. pose proof (Forall_lookup_1 _ _ _ _ Hranges Hk). cbn in *. destruct (Hgap _ _ Hk); split; intros Hlt; auto with lia.
Qed.

Lemma skip_ranges_none p index : split_at p index -> skip_ranges p (drop index ranges) index = index.
Proof.
  intros Hs. destruct (drop index ranges) as [|r rest] eqn:Er; [done|]. cbn.
  assert (Hr : ranges !! index = Some r) by (rewrite <- (Nat.add_0_r index), <- lookup_drop, Er; done).
  destruct (proj2 Hs _ _ Hr) as [_ Ha]. specialize (Ha ltac:(lia)). by rewrite (proj2 (Z.leb_gt _ _)).
Qed.

(** The size of a chunk: a slot, or what is left of the span. *)
Lemma chunk_request source end_ : 0 <= source -> source < end_ -> source mod 4096 = 0 ->
  let request := Z.min slot_bytes (align_Z (end_ - source) 4096) in
  0 < request <= slot_bytes /\ request mod 4096 = 0 /\ source + align_Z (end_ - source) 4096 = align_Z end_ 4096 /\
  (slot_bytes <= end_ - source /\ request = slot_bytes \/ end_ - source < slot_bytes /\ request = align_Z (end_ - source) 4096).
Proof.
  intros Hs Hlt Hal request. destruct Hslot as [Hsl Hsa]. apply Z.mod_divide in Hal; [|done]. apply Z.mod_divide in Hsa; [|done].
  pose proof (align_Z_spec (end_ - source) 4096 ltac:(done)) as [Ha Hd]. pose proof (align_Z_spec end_ 4096 ltac:(done)) as [He Hde].
  split; [lia|]. split; [apply Z.mod_divide; [done|]; unfold request; by destruct (Z.min_spec slot_bytes (align_Z (end_ - source) 4096)) as [[_ ->]|[_ ->]]|].
  split.
  - destruct Hal as [a ->], Hd as [b Hb], Hde as [c Hc]. rewrite Hb, Hc in *. lia.
  - destruct (Z.le_gt_cases slot_bytes (end_ - source)); [left; lia|right]. split; [lia|].
    pose proof (align_Z_least (end_ - source) 4096 slot_bytes ltac:(done) ltac:(lia) Hsa). lia.
Qed.

(** The chunk begins where the file is loaded. *)
Lemma copying_start i source n nr fb l : inv None (fun _ => source) (nr, covered_sum source ranges, fb) l -> split_at source nr -> 0 < n ->
  holds i source n l -> copying i source n nr fb nr l.
Proof.
  intros [H1 H2 H3 H4 H5] Hsp Hn Hh. split; [|done]. split; try done.
  - intros k c Hk. destruct (H3 k c Hk) as [|]; [done|by right].
  - eapply contents_mono; [exact H4|]. intros k r q Hk Hq Hlt. unfold upto_at in Hlt. destruct (Nat.ltb_spec k nr); [|done].
    destruct (proj2 Hsp k r Hk) as [Hb _]. specialize (Hb ltac:(done)). lia.
  - rewrite H5. do 2 f_equal. unfold copied_at. rewrite <- (take_drop nr ranges) at 1. rewrite covered_sum_app. f_equal.
    apply covered_sum_same, Forall_lookup_2. intros k r Hk. apply lookup_take_Some in Hk as [Hk Hkn]. destruct (proj2 Hsp k r Hk) as [Hb _].
    specialize (Hb Hkn). unfold covered. lia.
Qed.

Lemma wp_load_chunk span source l : loaded source l -> source < rs_end span -> rs_end span <= size -> source mod 4096 = 0 ->
  wp (load_chunk ranges total slot_bytes slot_count has_progress span source)
    (fun _ l' => exists p, loaded p l' /\ source < p /\
       (rs_end span <= p /\ p <= align_Z (rs_end span) 4096 /\ p <= source + slot_bytes \/ p = source + slot_bytes /\ p <= rs_end span)) failed l.
Proof.
  intros (nr & fb & Hi & Hsp & Hp & Hfb) Hlt Hend Hal. apply wp_bind, wp_get. cbv zeta. set (i := (next_slot l mod slot_count)%nat).
  assert (Hil : (i < slot_count)%nat) by (apply Nat.mod_upper_bound; lia).
  destruct (chunk_request source (rs_end span) ltac:(lia) Hlt Hal) as (Hr1 & Hr2 & Hr3 & Hr4). set (request := Z.min slot_bytes _) in *.
  apply wp_bind, wp_put, wp_bind. pose proof (inv_change _ _ _ _ (set_next_slot (S (next_slot l)) l) Hi eq_refl) as Hi1.
  change (vars (set_next_slot _ l)) with (vars l) in Hi1. rewrite (iv_vars _ _ _ _ Hi) in Hi1.
  eapply wp_mono; [exact (wp_slot_wait i _ _ _ Hil Hi1)| |done]. intros [] l2 [Hi2 Hu2].
  pose proof (align_Z_spec (rs_end span - source) 4096 ltac:(done)) as [Hal2 _].
  apply wp_bind. change direct_io_alignment with 4096. rewrite artifact_align_run; [|done|lia|by_compute|unfold_ints; lia].
  apply wp_lift; [intros aligned [= <-]|done]. cbv zeta. fold request. apply wp_bind.
  eapply wp_mono; [exact (wp_read_slot i source request _ _ _ Hil Hi2 Hu2 ltac:(lia) Hal Hr1 Hr2)| |done].
  intros n l3 (Hi3 & Hh3 & Hn & Hfit & Hcomplete). apply wp_bind, wp_throw_if; intros Hshort.
  { intros Hc. specialize (Hcomplete Hc). apply Z.ltb_lt in Hshort. lia. }
  apply Z.ltb_ge in Hshort. apply wp_bind, wp_get, wp_bind. injection (iv_vars _ _ _ _ Hi3) as Hnr3 Hc3 Hfb3.
  rewrite Hfb3, artifact_add_run by (unfold_ints; lia). apply wp_lift; [intros read [= <-]|done]. apply wp_bind, wp_put, wp_bind.
  rewrite artifact_add_run by (unfold_ints; lia). apply wp_lift; [intros chunk_end [= <-]|done]. apply wp_bind, wp_get.
  pose proof (inv_change _ _ _ _ (set_file_bytes (fb + n) l3) Hi3 eq_refl) as Hi4. cbn [next_range set_file_bytes]. rewrite Hnr3, skip_ranges_none by done.
  apply wp_bind. eapply wp_mono; [eapply (wp_copy_ranges i source n nr (fb + n)); try done; try lia; [exact (proj1 Hsp)| |]| |done].
  - intros k r Hk Hr. destruct (proj2 Hsp k r Hr) as [Hb _]. specialize (Hb Hk). lia.
  - apply copying_start; try done; [|lia]. unfold vars in Hi4. cbn in Hi4. by rewrite Hnr3, Hc3 in Hi4.
  - intros index l5 [Hi5 Hsp5]. apply wp_bind, wp_modify, wp_bind.
    pose proof (inv_change _ _ _ _ (set_next_range index l5) Hi5 eq_refl) as Hi6. injection (iv_vars _ _ _ _ Hi5) as _ Hc5 Hfb5.
    unfold vars in Hi6. cbn [next_range copied file_bytes_read set_next_range] in Hi6. rewrite Hc5, Hfb5 in Hi6.
    eapply wp_mono; [eapply (wp_record i _ _ _ _ Hil Hi6)|intros [] l7 Hl7; apply wp_bind; exact Hl7|done].
    intros l7 Hi7. cbn beta. apply wp_bind, wp_get.
    assert (Hload : forall l8, inv None (fun _ => source + n) (index, covered_sum (source + n) ranges, fb + n) l8 -> exists p, loaded p l8 /\ source < p /\
      (rs_end span <= p /\ p <= align_Z (rs_end span) 4096 /\ p <= source + slot_bytes \/ p = source + slot_bytes /\ p <= rs_end span)).
    { intros l8 Hi8. exists (source + n). split; [exists index, (fb + n); split; [done|split; [done|lia]]|lia]. }
    apply wp_when; intros _; [apply wp_modify|]; apply Hload; [|done]. injection (iv_vars _ _ _ _ Hi7) as Hnr7 Hc7 Hfb7.
    pose proof (inv_change _ _ _ _ (publish_progress total (set_last_published l7)) Hi7 eq_refl) as Hi8.
    unfold vars in Hi8. cbn in Hi8. by rewrite Hnr7, Hc7, Hfb7 in Hi8.
Qed.

(** *** The spans *)

Lemma wp_load_span fuel span : forall source l, loaded source l -> source < rs_end span -> rs_end span <= size -> source mod 4096 = 0 ->
  rs_end span - source <= Z.of_nat fuel * slot_bytes ->
  wp (load_span ranges total slot_bytes slot_count has_progress fuel span source)
    (fun _ l' => exists p, loaded p l' /\ rs_end span <= p /\ p <= align_Z (rs_end span) 4096) failed l.
Proof.
  induction fuel as [|fuel IH]; intros source l Hl Hlt Hend Hal Hfuel; cbn [load_span]; rewrite (proj2 (Z.ltb_lt _ _)) by lia; [lia|].
  apply wp_bind. eapply wp_mono; [by apply wp_load_chunk| |done]. intros [] l1 (p & Hl1 & Hp & Hcase).
  assert (Hsrc : 0 <= source) by (destruct Hl as (? & ? & ? & ? & ? & ?); lia).
  rewrite u64_small by (destruct Hslot; unfold_ints; unfold kSlotBytes in *; lia).
  assert (Hdone : forall q, rs_end span <= q -> load_span ranges total slot_bytes slot_count has_progress fuel span q = mret_ tt).
  { intros q Hq. destruct fuel; cbn [load_span]; by rewrite (proj2 (Z.ltb_ge _ _)). }
  pose proof (align_Z_spec (rs_end span) 4096 ltac:(done)).
  destruct (Z.lt_ge_cases (source + slot_bytes) (rs_end span)) as [Hmore|Hmore].
  - destruct Hcase as [|[-> _]]; [lia|]. apply IH; try done; [|lia]. destruct Hslot as [_ Hsa]. rewrite Z.add_mod, Hal, Hsa by done. done.
  - rewrite Hdone by lia. apply wp_ret. exists p. split; [done|]. lia.
Qed.

(** The spans from [p] on: aligned, apart, within the file. *)
Fixpoint chain (p : Z) (spans : list ReadSpan) : Prop :=
  match spans with
  | [] => True
  | s :: spans' => p <= rs_begin s /\ rs_begin s mod 4096 = 0 /\ rs_begin s < rs_end s /\ rs_end s <= size /\ chain (align_Z (rs_end s) 4096) spans'
  end.
Definition within (r : CopyRange) (s : ReadSpan) : Prop := rs_begin s <= source_begin r /\ source_end r <= rs_end s.

Lemma chain_after p spans : chain p spans -> Forall (fun s => p <= rs_begin s) spans.
Proof.
  clear -file. revert p. induction spans as [|s spans IH]; intros p; cbn; [by constructor|]. intros (Hp & _ & Hlt & _ & Hc). constructor; [done|].
  pose proof (align_Z_spec (rs_end s) 4096 ltac:(done)). eapply Forall_impl; [by apply IH|cbn; lia].
Qed.

Lemma wp_load_spans spans : forall p limit l, loaded p l -> p <= limit -> chain limit spans ->
  (forall k r, ranges !! k = Some r -> source_end r <= p \/ Exists (within r) spans) ->
  wp (load_spans ranges total slot_bytes slot_count has_progress spans)
    (fun _ l' => exists p, loaded p l' /\ forall k r, ranges !! k = Some r -> source_end r <= p) failed l.
Proof.
  induction spans as [|s spans IH]; intros p limit l Hl Hp Hc Hcover; cbn.
  { exists p. split; [done|]. intros k r Hk. destruct (Hcover k r Hk) as [|Hex]; [done|]. by apply Exists_nil in Hex. }
  pose proof (chain_after _ _ Hc) as Hfrom. cbn in Hc. destruct Hc as (Hbeg & Hal & Hlt & Hend & Hc).
  pose proof (align_Z_spec (rs_end s) 4096 ltac:(done)) as [Hae _]. apply Forall_cons in Hfrom as [_ _].
  pose proof (chain_after _ _ Hc) as Hfrom. apply wp_bind. eapply wp_mono; [apply wp_load_span; try done| |done].
  - eapply loaded_jump; [exact Hl|lia|]. intros k r Hk. destruct (Hcover k r Hk) as [|Hex]; [by left|right].
    apply Exists_cons in Hex as [[Hw _]|Hex]; [done|]. apply Exists_exists in Hex as (s' & Hin & [Hw _]).
    rewrite Forall_forall in Hfrom. specialize (Hfrom _ Hin). lia.
  - unfold span_turns. destruct Hslot as [Hsl _]. pose proof (align_Z_spec (rs_end s - rs_begin s) slot_bytes ltac:(lia)) as [Hq _]. unfold align_Z in Hq.
    rewrite Z2Nat.id by (apply Z.div_pos; lia). replace (rs_end s - rs_begin s + slot_bytes - 1) with (rs_end s - rs_begin s + slot_bytes - 1) by done. lia.
  - intros [] l1 (q & Hl1 & Hq1 & Hq2). eapply IH; [exact Hl1|exact Hq2|exact Hc|]. intros k r Hk.
    destruct (Hcover k r Hk) as [Hle|Hex]; [left; lia|]. apply Exists_cons in Hex as [[_ Hw]|Hex]; [left; lia|by right].
Qed.

(** *** The end *)

Lemma wp_slot_waits v upto indices l : Forall (fun i => (i < slot_count)%nat) indices -> inv None upto v l ->
  wp (miter slot_wait indices) (fun _ => inv None upto v) failed l.
Proof.
  intros His Hi. eapply wp_mono; [apply (wp_iter (fun rest l' => Forall (fun i => (i < slot_count)%nat) rest /\ inv None upto v l')); [|by split]|by intros [] l' [_ ?]|done].
  intros i rest l' [Hall Hi']. apply Forall_cons in Hall as [Hlt Hall]. eapply wp_mono; [by apply wp_slot_wait|by intros [] l'' [? _]|done].
Qed.

(** The loader of [materialize]: every byte of every range in its place and nothing else, unless a call failed. *)
Lemma wp_loader spans l : loaded 0 l -> chain 0 spans -> Forall (fun r => Exists (within r) spans) ranges ->
  wp (do! load_spans ranges total slot_bytes slot_count has_progress spans;
      do! miter slot_wait (seq 0 slot_count);
      do! stream_synchronize;
      let! l := mget in
      do! mthrow_if (negb (copied l =? total) || negb (next_range l =? length ranges)%nat) ArtifactError;
      mwhen has_progress (mmodify (publish_progress total)))
    (fun _ l' => contents (memory l') (fun _ => size) /\ copied l' = total /\ queue l' = []) failed l.
Proof.
  intros Hl Hc Hcover. apply wp_bind. eapply wp_mono; [eapply (wp_load_spans spans 0 0 l Hl ltac:(done) Hc)| |done].
  { intros k r Hk. right. by apply (Forall_lookup_1 _ _ _ _ Hcover Hk). }
  intros [] l1 (p & (nr & fb & Hi & Hsp & Hp & _) & Hend).
  apply wp_bind. eapply wp_mono; [eapply wp_slot_waits; [|exact Hi]| |done].
  { apply Forall_seq. intros j Hj. lia. }
  intros [] l2 Hi2. apply wp_bind, wp_bind, (wp_cuda_inv _ _ _ _ _ Hi2). intros l3 Hi3 _ _. apply wp_modify.
  pose proof (inv_run _ _ _ (length (queue l3)) _ Hi3) as Hi4. destruct (run_device_spec (length (queue l3)) l3) as (_ & _ & Hq & _).
  rewrite drop_all in Hq. set (l4 := run_device _ l3) in *. injection (iv_vars _ _ _ _ Hi4) as Hnr Hcopied _.
  assert (Htot : covered_sum p ranges = total).
  { destruct Htotal as [-> _]. unfold covered_sum, range_bytes. clear -Hend Hranges. assert (Hall : Forall (fun r => source_end r <= p) ranges) by (apply Forall_lookup_2; apply Hend).
    clear Hend. induction ranges as [|r rs IH]; cbn; [done|]. apply Forall_cons in Hranges as [Hr Hrs]. apply Forall_cons in Hall as [Hle Hall].
    rewrite IH by done. unfold covered. lia. }
  assert (Hnl : nr = length ranges).
  { destruct Hsp as [Hle Hsp]. destruct (Nat.eq_dec nr (length ranges)) as [|Hne]; [done|]. destruct (lookup_lt_is_Some_2 ranges nr ltac:(lia)) as [r Hr].
    destruct (Hsp _ _ Hr) as [_ Ha]. specialize (Ha ltac:(lia)). specialize (Hend _ _ Hr). lia. }
  assert (Hfinal : contents (memory l4) (fun _ => size) /\ copied l4 = total /\ queue l4 = []).
  { split; [|by rewrite Hcopied]. pose proof (iv_contents _ _ _ _ Hi4) as Hcon. unfold drain in Hcon. rewrite Hq in Hcon. eapply contents_mono; [exact Hcon|].
    intros k r q Hk Hqr _. specialize (Hend _ _ Hk). cbn. lia. }
  apply wp_bind, wp_get, wp_bind. rewrite Hcopied, Hnr, Htot, Hnl, Z.eqb_refl, Nat.eqb_refl. apply wp_throw_if; [done|]. intros _.
  apply wp_when; intros _; [apply wp_modify|]; exact Hfinal.
Qed.
End Plan.
End Host.
