(* ===== verification/MaterializeProofs.v ===== *)
(** * A materialized artifact is the file's

    [materialize] puts every object that the binder planned in its place: the pieces before the loader's loop, and
    the theorem that composes them with it. *)
From stdpp Require Import gmap sorting.
From S2P Require Import Prelude Layout Unicode UnicodeProofs Tokenizer Artifact ArtifactProofs BinderProofs Materialize LoaderProofs.
#[local] Open Scope Z_scope.
#[local] Open Scope ninfer_scope.

(** ** Sums over objects *)

Definition bytes_at (objects : list ObjectDescriptor) (h : nat) : Z := from_option object_bytes 0 (objects !! h).
Definition bytes_sum (objects : list ObjectDescriptor) (handles : list nat) : Z := foldr (fun h n => bytes_at objects h + n) 0 handles.

Lemma bytes_at_Some objects h o : objects !! h = Some o -> bytes_at objects h = object_bytes o.
Proof. unfold bytes_at. by intros ->. Qed.
Lemma bytes_sum_cons objects h hs : bytes_sum objects (h :: hs) = bytes_at objects h + bytes_sum objects hs.
Proof. done. Qed.
Lemma bytes_sum_app objects a b : bytes_sum objects (a ++ b) = bytes_sum objects a + bytes_sum objects b.
Proof. unfold bytes_sum. induction a as [|h a IH]; cbn; [done|]. rewrite IH. lia. Qed.
Lemma bytes_sum_perm objects a b : a ≡ₚ b -> bytes_sum objects a = bytes_sum objects b.
Proof. unfold bytes_sum. induction 1; cbn; lia. Qed.

Section Objects.
Context (objects : list ObjectDescriptor).
Hypothesis Hbytes : Forall (fun o => 0 <= object_bytes o) objects.

Lemma bytes_at_nonneg h : 0 <= bytes_at objects h.
Proof. unfold bytes_at. destruct (objects !! h) as [o|] eqn:Eo; [|done]. exact (Forall_lookup_1 _ _ _ _ Hbytes Eo). Qed.
Lemma bytes_sum_nonneg handles : 0 <= bytes_sum objects handles.
Proof. unfold bytes_sum. induction handles as [|h hs IH]; cbn; [done|]. pose proof (bytes_at_nonneg h). lia. Qed.

Lemma bytes_sum_seq cursor limit : placed cursor limit objects -> cursor <= limit -> cursor + bytes_sum objects (seq 0 (length objects)) <= limit.
Proof.
  assert (Hg : forall k cursor, placed cursor limit (drop k objects) -> cursor <= limit -> cursor + bytes_sum objects (seq k (length objects - k)) <= limit).
  { intros k. remember (length objects - k)%nat as n eqn:En. revert k En. induction n as [|n IH]; intros k En c Hp Hc; [cbn; lia|].
    destruct (lookup_lt_is_Some_2 objects k ltac:(lia)) as [o Ho]. rewrite (drop_S _ _ _ Ho) in Hp. destruct Hp as (H1 & _ & H3 & Hp).
    cbn. unfold bytes_at at 1. rewrite Ho. cbn. specialize (IH (S k) ltac:(lia) _ Hp ltac:(lia)). unfold bytes_sum in IH. lia. }
  intros Hp Hc. specialize (Hg 0%nat cursor). rewrite drop_0, Nat.sub_0_r in Hg. by apply Hg.
Qed.

(** Objects that are named once each fit in the file together. *)
Lemma bytes_sum_once cursor limit handles : placed cursor limit objects -> cursor <= limit -> NoDup handles -> Forall (fun h => (h < length objects)%nat) handles ->
  cursor + bytes_sum objects handles <= limit.
Proof.
  intros Hp Hc Hnd Hlt. assert (Hsub : handles ⊆+ seq 0 (length objects)).
  { apply NoDup_submseteq; [done|]. intros h Hh. rewrite Forall_forall in Hlt. apply elem_of_seq. specialize (Hlt _ Hh). lia. }
  apply submseteq_Permutation in Hsub as [k Hk]. pose proof (bytes_sum_seq _ _ Hp Hc) as Hs. rewrite (bytes_sum_perm _ _ _ Hk), bytes_sum_app in Hs.
  pose proof (bytes_sum_nonneg k). lia.
Qed.
End Objects.

(** ** Ranges in the order of the file *)

#[export] Instance begins_before_trans : Transitive begins_before.
Proof. intros a b c. unfold begins_before. lia. Qed.
#[export] Instance begins_before_total : Total begins_before.
Proof. intros a b. unfold begins_before. lia. Qed.

(** A relation between all ranges of a list does not depend on their order. *)
Definition pairwise (R : CopyRange -> CopyRange -> Prop) (rs : list CopyRange) : Prop :=
  forall i j a b, i <> j -> rs !! i = Some a -> rs !! j = Some b -> R a b.
Lemma pairwise_perm R rs rs' : rs ≡ₚ rs' -> pairwise R rs -> pairwise R rs'.
Proof.
  intros Hp Hr i j a b Hne Hi Hj. symmetry in Hp. apply Permutation_inj in Hp as (_ & f & Hf & Hl). apply (Hr (f i) (f j)); try by rewrite <- Hl.
  intros He. by apply Hf in He.
Qed.

Lemma StronglySorted_lookup {A} (R : relation A) l : StronglySorted R l -> forall i j a b, (i < j)%nat -> l !! i = Some a -> l !! j = Some b -> R a b.
Proof.
  induction 1 as [|x l _ IH Hx]; intros i j a b Hij Hi Hj; [done|]. destruct j as [|j]; [lia|]. destruct i as [|i].
  - injection Hi as <-. by apply (Forall_lookup_1 _ _ _ _ Hx Hj).
  - apply (IH i j); [lia|done|done].
Qed.

Definition source_apart (a b : CopyRange) : Prop := source_end a <= source_begin b \/ source_end b <= source_begin a.
Definition destination_apart (a b : CopyRange) : Prop :=
  destination a + (source_end a - source_begin a) <= destination b \/ destination b + (source_end b - source_begin b) <= destination a.
Definition in_file (size : Z) (a : CopyRange) : Prop := 0 <= source_begin a /\ source_begin a < source_end a /\ source_end a <= size.
Definition in_order (rs : list CopyRange) : Prop := forall i j a b, (i < j)%nat -> rs !! i = Some a -> rs !! j = Some b -> source_end a <= source_begin b.

Lemma sorted_in_order size rs : Forall (in_file size) rs -> pairwise source_apart rs -> in_order (merge_sort begins_before rs).
Proof.
  intros Hf Hp i j a b Hij Hi Hj. pose proof (merge_sort_Permutation begins_before rs) as Hm.
  pose proof (StronglySorted_lookup _ _ (StronglySorted_merge_sort begins_before rs) i j a b Hij Hi Hj) as Hab. unfold begins_before in Hab.
  rewrite <- Hm in Hf. pose proof (Forall_lookup_1 _ _ _ _ Hf Hi) as Ha. pose proof (Forall_lookup_1 _ _ _ _ Hf Hj) as Hb. unfold in_file in *.
  destruct (pairwise_perm _ _ _ (symmetry Hm) Hp i j a b ltac:(lia) Hi Hj); lia.
Qed.

Lemma in_order_tail a rs : in_order (a :: rs) -> in_order rs.
Proof. intros H i j x y Hij Hi Hj. apply (H (S i) (S j)); [lia|done|done]. Qed.

Lemma check_disjoint_run rs : in_order rs -> check_disjoint rs = Ok tt.
Proof.
  induction rs as [|a rs IH]; intros Ho; [done|]. destruct rs as [|b rs]; [done|]. change (check_disjoint (a :: b :: rs)) with
    (do* throw_if (source_begin b <? source_end a) ArtifactError; check_disjoint (b :: rs)).
  rewrite (proj2 (Z.ltb_ge _ _)) by (by apply (Ho 0%nat 1%nat); [lia| |]). apply IH. by eapply in_order_tail.
Qed.

(** ** The spans *)

(** Where the next span may begin. *)
Definition chain_end (p : Z) (spans : list ReadSpan) : Z := foldl (fun _ s => align_Z (rs_end s) 4096) p spans.

Lemma spans_app file l l' : forall p, chain file p (l ++ l') <-> chain file p l /\ chain file (chain_end p l) l'.
Proof. induction l as [|x l IH]; intros p; cbn; [tauto|]. rewrite IH. unfold chain_end. cbn. tauto. Qed.

(** The spans of the ranges so far: the last one ends with the last range. *)
Record spans_ok (file : list Z) (done : list CopyRange) (spans : list ReadSpan) (next : Z) : Prop := {
  sk_chain : chain file 0 spans;
  sk_within : Forall (fun r => Exists (within r) spans) done;
  sk_last : forall s, last spans = Some s -> rs_end s <= next;
}.

Lemma align_down_spec v : 0 <= v -> 0 <= artifact_align_down v 4096 <= v /\ v < artifact_align_down v 4096 + 4096 /\ artifact_align_down v 4096 mod 4096 = 0.
Proof. intros Hv. unfold artifact_align_down. pose proof (Z.mod_pos_bound v 4096 ltac:(done)). pose proof (Z.div_mod v 4096 ltac:(done)). rewrite Z.mod_mul by done. lia. Qed.

Lemma last_update {A} (front : list A) back x : <[pred (length (front ++ [back])) := x]> (front ++ [back]) = front ++ [x].
Proof. rewrite length_app. cbn. rewrite Nat.add_1_r. cbn. rewrite insert_app_r_alt, Nat.sub_diag by done. done. Qed.

Lemma add_range_run file done spans r : Z.of_nat (length file) <= i64_max -> in_file (Z.of_nat (length file)) r -> spans_ok file done spans (source_begin r) ->
  exists spans', add_range spans r = Ok spans' /\ spans' <> [] /\ spans_ok file (done ++ [r]) spans' (source_end r).
Proof.
  intros Hmax (H0 & Hlt & Hend) [Hc Hw Hl]. pose proof (align_down_spec (source_begin r) H0) as (Hb1 & Hb2 & Hb3).
  unfold add_range. change direct_io_alignment with 4096. destruct (last spans) as [back|] eqn:El.
  - specialize (Hl _ eq_refl). apply last_Some in El as [front ->]. pose proof (proj1 (spans_app _ _ _ _) Hc) as (Hcf & Hb & Hbm & Hbl & Hbe & _).
    pose proof (align_Z_spec (rs_end back) 4096 ltac:(done)) as [Hal _].
    assert (Hpos : 0 <= rs_begin back) by (pose proof (chain_after _ _ _ Hc) as Hf; apply Forall_app in Hf as [_ Hf]; by apply Forall_cons in Hf as [? _]).
    rewrite artifact_align_run; [|done|lia|by_compute|unfold_ints; lia]. cbn [rbind]. rewrite Z.gtb_ltb. case_if Hgap; [apply Z.ltb_lt in Hgap|apply Z.ltb_ge in Hgap].
    + eexists. split; [reflexivity|]. split; [by destruct front|]. split.
      * rewrite spans_app. split; [done|]. unfold chain_end. rewrite foldl_snoc. cbn. lia.
      * apply Forall_app. split; [|constructor; [apply Exists_app; right; left; unfold within; cbn; lia|constructor]].
        eapply Forall_impl; [exact Hw|]. intros x Hx. apply Exists_app. by left.
      * intros s. rewrite last_snoc. intros [= <-]. done.
    + eexists. split; [reflexivity|]. rewrite last_update. split; [by destruct front|]. split.
      * apply spans_app. split; [done|]. cbn. lia.
      * apply Forall_app. split; [|constructor; [apply Exists_app; right; left; unfold within; cbn; lia|constructor]].
        eapply Forall_impl; [exact Hw|]. intros x Hx. apply Exists_app in Hx as [Hx|Hx]; apply Exists_app; [by left|right].
        apply Exists_cons in Hx as [[? ?]|Hx]; [left; unfold within; cbn; lia|by apply Exists_nil in Hx].
      * intros s. rewrite last_snoc. intros [= <-]. cbn. lia.
  - apply last_None in El as ->. eexists. split; [reflexivity|]. split; [done|]. split.
    + cbn. lia.
    + destruct done as [|x done]; [|apply Forall_cons in Hw as [Hx _]; by apply Exists_nil in Hx]. constructor; [|constructor]. left. unfold within. cbn. lia.
    + intros s [= <-]. done.
Qed.

Lemma add_ranges_run file rs : Z.of_nat (length file) <= i64_max -> forall done spans next, Forall (in_file (Z.of_nat (length file))) rs -> in_order rs ->
  spans_ok file done spans next -> Forall (fun r => next <= source_begin r) rs ->
  exists spans', rfoldl add_range spans rs = Ok spans' /\ (rs <> [] -> spans' <> []) /\ chain file 0 spans' /\ Forall (fun r => Exists (within r) spans') (done ++ rs).
Proof.
  intros Hmax. induction rs as [|r rs IH]; intros before spans next Hf Ho Hs Hn.
  { exists spans. rewrite app_nil_r. destruct Hs as [H1 H2 _]. split_and!; done. }
  apply Forall_cons in Hf as [Hr Hf]. apply Forall_cons in Hn as [Hrn Hn].
  destruct (add_range_run file before spans r Hmax Hr) as (spans1 & Hrun & Hne & Hs1); [destruct Hs as [H1 H2 H3]; split; try done; intros s Hl; specialize (H3 s Hl); lia|].
  destruct (IH (before ++ [r]) spans1 (source_end r)) as (spans' & Hrun' & Hne' & Hc & Hw); try done; [by eapply in_order_tail| |].
  { apply Forall_lookup_2. intros k x Hk. apply (Ho 0%nat (S k)); [lia|done|done]. }
  exists spans'. cbn [rfoldl]. rewrite Hrun. cbn [rbind]. split; [done|]. split; [|split; [done|by rewrite <- app_assoc in Hw]].
  intros _. destruct rs as [|? ?]; [by injection Hrun' as <-|by apply Hne'].
Qed.

Lemma add_aligned_run file spans : Z.of_nat (length file) <= i64_max -> forall acc p, chain file p spans -> 0 <= acc <= p -> acc mod 4096 = 0 -> p <= u64_max ->
  exists n, rfoldl add_aligned_bytes acc spans = Ok n /\ acc <= n /\ (spans <> [] -> acc < n) /\ n mod 4096 = 0 /\ n <= u64_max.
Proof.
  intros Hmax. induction spans as [|s spans IH]; intros acc p Hc Ha Hm Hp; [exists acc; split_and!; [done|lia|done|done|lia]|].
  cbn in Hc. destruct Hc as (H1 & H2 & H3 & H4 & Hc). pose proof (align_Z_spec (rs_end s - rs_begin s) 4096 ltac:(done)) as [Hal Hd].
  pose proof (align_Z_spec (rs_end s) 4096 ltac:(done)) as [Hae Hde].
  assert (He : align_Z (rs_end s - rs_begin s) 4096 <= align_Z (rs_end s) 4096 - rs_begin s).
  { apply align_Z_least; [done|lia|]. apply Z.divide_sub_r; [done|]. by apply Z.mod_divide. }
  cbn [rfoldl]. unfold add_aligned_bytes at 1. change direct_io_alignment with 4096.
  rewrite artifact_align_run; [|done|lia|by_compute|unfold_ints; lia]. cbn [rbind]. rewrite artifact_add_run by (unfold_ints; lia).
  cbn [rbind]. destruct (IH (acc + align_Z (rs_end s - rs_begin s) 4096) (align_Z (rs_end s) 4096)) as (n & Hrun & Hn & _ & Hnm & Hnu); try done; [lia| |unfold_ints; lia|].
  - apply Z.mod_divide in Hm; [|done]. apply Z.mod_divide; [done|]. by apply Z.divide_add_r.
  - exists n. split; [done|]. split; [lia|]. split; [intros _; lia|done].
Qed.


(** ** The plan of an artifact *)

Section Plan.
Context (json_parse : list Z -> option Json) (file : list Z) (r : Reader) (plan : MaterializationPlan).
Hypothesis Hjson : forall text v, json_parse text = Some v -> json_unsigned v.
Hypothesis Hbytes : Forall is_byte file.
Hypothesis Hsize : Z.of_nat (length file) <= i64_max.
Hypothesis Hart : artifact json_parse file r.
Hypothesis Hplan : plan_ok r plan.
#[local] Notation size := (Z.of_nat (length file)) (only parsing).

(** The payload of an object. *)
Definition start_of (o : ObjectDescriptor) : Z := payload_start r + object_offset o.
Definition payload_bytes (o : ObjectDescriptor) : list Z := take (Z.to_nat (object_bytes o)) (drop (Z.to_nat (start_of o)) file).

Lemma payload_at h o : entries r !! h = Some o -> payload r o = Ok (mkPayloadSpan (start_of o) (payload_bytes o)) /\
  0 <= start_of o /\ 0 < object_bytes o /\ start_of o + object_bytes o <= size /\ Z.of_nat (length (payload_bytes o)) = object_bytes o.
Proof.
  intros Ho. pose proof (artifact_sizes _ Hjson _ _ Hart) as Hs. pose proof (Forall_lookup_1 _ _ _ _ Hs Ho) as Hpos. cbn in Hpos.
  destruct (payload_run json_parse file r h o Hjson ltac:(unfold_ints; lia) Hbytes Hart Ho) as (H1 & H2 & H3 & H4 & _ & H6).
  assert (0 <= payload_start r).
  { rewrite (af_start _ _ _ Hart). apply align_nonneg; [done|]. pose proof (af_json _ _ _ Hart). lia. }
  split; [exact H6|]. unfold payload_bytes, start_of. rewrite length_take, length_drop. lia.
Qed.

Lemma object_bytes_nonneg : Forall (fun o => 0 <= object_bytes o) (entries r).
Proof. eapply Forall_impl; [by eapply artifact_sizes|cbn; lia]. Qed.

Lemma payload_apart i j o o' : i <> j -> entries r !! i = Some o -> entries r !! j = Some o' ->
  start_of o + object_bytes o <= start_of o' \/ start_of o' + object_bytes o' <= start_of o.
Proof.
  intros Hne Hi Hj. pose proof object_bytes_nonneg as Hn. pose proof (af_placed _ _ _ Hart) as Hp. unfold start_of.
  destruct (Nat.lt_gt_cases i j) as [[Hlt|Hgt] _]; [done| |]; [left|right].
  - pose proof (placed_disjoint _ _ _ _ _ _ _ Hp Hn Hlt Hi Hj). lia.
  - pose proof (placed_disjoint _ _ _ _ _ _ _ Hp Hn Hgt Hj Hi). lia.
Qed.

(** ** The resources *)

Definition retained_object (objects : list ObjectStorage) (h : nat) : Prop := exists o, entries r !! h = Some o /\ objects !! h = Some (mkObject 0 (payload_bytes o)).

Lemma retain_objects_run handles : forall objects retained read,
  NoDup handles -> Forall (retains r) handles -> length objects = length (entries r) ->
  Forall (fun h => objects !! h = Some (mkObject 0 [])) handles -> 0 <= read -> read + bytes_sum (entries r) handles <= size ->
  exists objects' retained', rfoldl (retain_object r) (objects, retained, read) handles = Ok (objects', retained', read + bytes_sum (entries r) handles) /\
    length objects' = length (entries r) /\ Forall (retained_object objects') handles /\ (forall h, h ∉ handles -> objects' !! h = objects !! h).
Proof.
  induction handles as [|h hs IH]; intros objects retained read Hnd Hres Hlen Hfresh Hread Hsum.
  { exists objects, retained. unfold bytes_sum. cbn. rewrite Z.add_0_r. split_and!; try done; constructor. }
  apply NoDup_cons in Hnd as [Hnin Hnd]. apply Forall_cons in Hres as [[x Hx] Hres]. apply Forall_cons in Hfresh as [Hh Hfresh].
  destruct (payload_at _ _ Hx) as (Hpay & _ & Hpos & _ & Hlenp). pose proof (bytes_sum_nonneg _ object_bytes_nonneg hs) as Hnn.
  rewrite bytes_sum_cons, (bytes_at_Some _ _ _ Hx), Z.add_assoc in *.
  cbn [rfoldl]. unfold retain_object at 1, object_at. rewrite Hh, Hx. cbn [rbind]. rewrite Hpay. cbn [rbind Artifact.span_data].
  rewrite Hlenp, artifact_add_run by (unfold_ints; lia). cbn [rbind ob_device].
  destruct (IH (<[h := mkObject 0 (payload_bytes (ResourceObject x))]> objects) (u64 (retained + object_bytes (ResourceObject x))) (read + object_bytes (ResourceObject x)))
    as (objects' & retained' & Hrun & Hl & Hall & Hother); try done.
  - by rewrite length_insert.
  - rewrite Forall_forall in *. intros h' Hh'. rewrite list_lookup_insert_ne; [by apply Hfresh|]. intros ->. done.
  - lia.
  - exists objects', retained'. split; [|split; [done|split]].
    + exact Hrun.
    + constructor; [|done]. exists (ResourceObject x). split; [done|]. rewrite Hother by done. apply list_lookup_insert_eq. rewrite Hlen. by eapply lookup_lt_Some.
    + intros h' Hh'. apply not_elem_of_cons in Hh' as [Hne Hh']. rewrite Hother by done. by rewrite list_lookup_insert_ne.
Qed.
(** ** The tensors *)

(** The range of a placement when the arena is at [base]. *)
Definition range_of (base : Z) (d : DeviceMaterialization) : CopyRange :=
  let start := from_option start_of 0 (entries r !! dm_object d) in mkRange start (start + dm_bytes d) (base + dm_offset d).
Definition placed_object (base : Z) (objects : list ObjectStorage) (d : DeviceMaterialization) : Prop :=
  exists resource, objects !! dm_object d = Some (mkObject (base + dm_offset d) resource).

(** One placement: the arena gives the planned offset. *)
Lemma place_tensor_run base st d : arena_ok 256 (pl_arena st) -> ar_base (pl_arena st) = base -> 0 <= ar_off (pl_arena st) ->
  places r d -> dm_offset d = align_Z (ar_off (pl_arena st)) kTensorAlignment -> dm_alignment d = kTensorAlignment -> 0 < dm_bytes d ->
  dm_offset d + dm_bytes d <= ar_cap (pl_arena st) -> length (pl_objects st) = length (entries r) -> 0 <= pl_total st <= ar_off (pl_arena st) ->
  exists st' object, place_tensor r st d = Ok st' /\ arena_ok 256 (pl_arena st') /\ ar_base (pl_arena st') = base /\
    ar_cap (pl_arena st') = ar_cap (pl_arena st) /\ ar_off (pl_arena st') = dm_offset d + dm_bytes d /\
    pl_objects st !! dm_object d = Some object /\ pl_objects st' = <[dm_object d := mkObject (base + dm_offset d) (ob_resource object)]> (pl_objects st) /\
    pl_ranges st' = pl_ranges st ++ [range_of base d] /\ pl_total st' = pl_total st + dm_bytes d.
Proof.
  intros Ha Hb Hoff (t & Ht & Hbt) Ho Hal Hpos Hfit Hlen Htot. destruct (payload_at _ _ Ht) as (Hpay & Hs & _ & Hend & Hlp). cbn in Hlp, Hend. rewrite <- Hbt in *.
  destruct (lookup_lt_is_Some_2 (pl_objects st) (dm_object d)) as [object Hobj]; [rewrite Hlen; by eapply lookup_lt_Some|].
  pose proof (align_Z_spec (ar_off (pl_arena st)) kTensorAlignment ltac:(done)) as [Hoa _]. pose proof (ar_room _ _ Ha) as Hroom. pose proof (ar_base_pos _ _ Ha).
  unfold place_tensor, object_at. rewrite Ht. cbn [rbind]. rewrite Hpay. cbn [rbind Artifact.span_data absolute_offset]. rewrite Hal in *.
  rewrite (ar_alloc_bytes_Ok 256); try done; try lia; [|unfold_ints; lia]. cbn [Layout.span_data ar_base]. rewrite <- Ho.
  replace (ar_base (pl_arena st) + dm_offset d - ar_base (pl_arena st)) with (dm_offset d) by lia. rewrite Hlp, !Z.eqb_refl. cbn [negb orb throw_if rbind].
  rewrite Hobj. cbn [rbind]. rewrite !artifact_add_run by (unfold_ints; lia). cbn [rbind]. do 2 eexists. split; [reflexivity|]. cbn.
  split; [by destruct Ha; constructor|]. rewrite Hb. split_and!; try done. unfold range_of. by rewrite Ht.
Qed.

Lemma place_tensors_run base devices : forall st end_, arena_ok 256 (pl_arena st) -> ar_base (pl_arena st) = base -> 0 <= ar_off (pl_arena st) ->
  laid (ar_off (pl_arena st)) devices end_ -> end_ <= ar_cap (pl_arena st) -> Forall (places r) devices -> NoDup (dm_object <$> devices) ->
  length (pl_objects st) = length (entries r) -> 0 <= pl_total st <= ar_off (pl_arena st) ->
  exists st', rfoldl (place_tensor r) st devices = Ok st' /\ ar_base (pl_arena st') = base /\
    pl_ranges st' = pl_ranges st ++ (range_of base <$> devices) /\ pl_total st' = pl_total st + range_bytes (range_of base <$> devices) /\ pl_total st' <= end_ /\
    Forall (placed_object base (pl_objects st')) devices /\ (forall h, h ∉ dm_object <$> devices -> pl_objects st' !! h = pl_objects st !! h) /\
    (forall h o, pl_objects st !! h = Some o -> exists a, pl_objects st' !! h = Some (mkObject a (ob_resource o))).
Proof.
  induction devices as [|d ds IH]; intros st end_ Ha Hb Hoff Hl Hcap Hpl Hnd Hlen Htot.
  { exists st. cbn in *. rewrite app_nil_r, Z.add_0_r. split_and!; try done; [lia|]. intros h o ->. exists (ob_device o). by destruct o. }
  pose proof (laid_bounds _ _ _ 0%nat d Hl eq_refl) as (_ & _ & Hfit). cbn in Hl. destruct Hl as (Ho & Hal & Hpos & Hl).
  apply Forall_cons in Hpl as [Hd Hpl]. apply NoDup_cons in Hnd as [Hnin Hnd].
  destruct (place_tensor_run base st d) as (st1 & object & Hrun & Ha1 & Hb1 & Hc1 & Ho1 & Hobj & Hobjs & Hr1 & Ht1); try done; [lia|].
  pose proof (align_Z_spec (ar_off (pl_arena st)) kTensorAlignment ltac:(done)) as [Hoa _]. cbn in Hoa.
  destruct (IH st1 end_) as (st' & Hrun' & Hb' & Hr' & Ht' & Hte & Hall & Hother & Hres); try done; try lia; [by rewrite Ho1|by rewrite Hobjs, length_insert|].
  exists st'. cbn [rfoldl]. rewrite Hrun. cbn [rbind]. split; [done|]. split; [done|]. split; [by rewrite Hr', Hr1, <- app_assoc|].
  split; [rewrite Ht', Ht1; cbn; unfold range_bytes; cbn; lia|]. split; [done|]. 
  assert (Hin : (dm_object d < length (pl_objects st))%nat) by by eapply lookup_lt_Some. split; [|split].
  - constructor; [|done]. unfold placed_object. rewrite Hother, Hobjs by done. rewrite list_lookup_insert_eq by done. by eexists.
  - intros h Hh. apply not_elem_of_cons in Hh as [Hne Hh]. rewrite Hother, Hobjs by done. by rewrite list_lookup_insert_ne.
  - intros h o Hh. destruct (decide (h = dm_object d)) as [->|Hne].
    + rewrite Hobj in Hh. injection Hh as <-. edestruct Hres as [a Ha']; [rewrite Hobjs; by apply list_lookup_insert_eq|]. exists a. exact Ha'.
    + destruct (Hres h o) as [a Ha']; [rewrite Hobjs; by rewrite list_lookup_insert_ne|]. by exists a.
Qed.
(** *** The ranges of a plan *)

Lemma range_of_at base d t : entries r !! dm_object d = Some (TensorObject t) -> dm_bytes d = td_bytes t ->
  range_of base d = mkRange (start_of (TensorObject t)) (start_of (TensorObject t) + object_bytes (TensorObject t)) (base + dm_offset d).
Proof. intros Ht Hb. unfold range_of. rewrite Ht, Hb. done. Qed.

Lemma ranges_in_file base : Forall (in_file size) (range_of base <$> device_objects plan).
Proof.
  apply Forall_fmap. eapply Forall_impl; [exact (po_device _ _ Hplan)|]. intros d (t & Ht & Hb). destruct (payload_at _ _ Ht) as (_ & H1 & H2 & H3 & _).
  unfold compose. rewrite (range_of_at _ _ _ Ht Hb). unfold in_file. cbn [source_begin source_end]. lia.
Qed.

Lemma ranges_pairwise base : pairwise (fun a b => source_apart a b /\ destination_apart a b) (range_of base <$> device_objects plan).
Proof.
  intros i j a b Hne Hi Hj. apply list_lookup_fmap_Some in Hi as (d & -> & Hi). apply list_lookup_fmap_Some in Hj as (d' & -> & Hj).
  destruct (Forall_lookup_1 _ _ _ _ (po_device _ _ Hplan) Hi) as (t & Ht & Hb). destruct (Forall_lookup_1 _ _ _ _ (po_device _ _ Hplan) Hj) as (t' & Ht' & Hb').
  rewrite (range_of_at _ _ _ Ht Hb), (range_of_at _ _ _ Ht' Hb'). unfold source_apart, destination_apart. cbn [source_begin source_end destination]. split.
  - apply (payload_apart (dm_object d) (dm_object d')); [|done|done]. intros He. apply Hne. pose proof (po_once _ _ Hplan) as Hnd. apply NoDup_app in Hnd as [Hnd _].
    eapply (NoDup_lookup _ i j (dm_object d) Hnd); rewrite list_lookup_fmap; [by rewrite Hi|by rewrite Hj, He].
  - pose proof (po_laid _ _ Hplan) as Hl. change (object_bytes (TensorObject t)) with (td_bytes t). change (object_bytes (TensorObject t')) with (td_bytes t'). rewrite <- Hb, <- Hb'.
    destruct (Nat.lt_gt_cases i j) as [[Hlt|Hgt] _]; [done|left|right].
    + pose proof (laid_disjoint _ _ _ _ _ _ _ Hl Hlt Hi Hj). lia.
    + pose proof (laid_disjoint _ _ _ _ _ _ _ Hl Hgt Hj Hi). lia.
Qed.

(** The objects of the plan, once the arena is there. *)
Lemma objects_run base : arena_ok 256 (mkArena base (device_capacity_bytes plan) 0 0 true) ->
  exists objects retained read st,
    rfoldl (retain_object r) (replicate (object_count plan) (mkObject 0 []), 0, 0) (host_objects plan) = Ok (objects, retained, read) /\ 0 <= read <= size /\
    rfoldl (place_tensor r) (mkPlaceState (mkArena base (device_capacity_bytes plan) 0 0 true) objects [] 0) (device_objects plan) = Ok st /\
    pl_ranges st = range_of base <$> device_objects plan /\ pl_total st = range_bytes (range_of base <$> device_objects plan) /\
    pl_total st <= device_capacity_bytes plan /\ Forall (placed_object base (pl_objects st)) (device_objects plan) /\
    Forall (fun h => exists o a, entries r !! h = Some o /\ pl_objects st !! h = Some (mkObject a (payload_bytes o))) (host_objects plan).
Proof.
  intros Ha. pose proof (po_once _ _ Hplan) as Hnd. apply NoDup_app in Hnd as (Hdev & Happart & Hhosts).
  assert (Hlt : Forall (fun h => (h < length (entries r))%nat) (host_objects plan)).
  { eapply Forall_impl; [exact (po_host _ _ Hplan)|]. intros h [x Hx]. by eapply lookup_lt_Some. }
  pose proof (bytes_sum_once _ object_bytes_nonneg _ _ _ (af_placed _ _ _ Hart) ltac:(pose proof (af_size _ _ _ Hart); lia) Hhosts Hlt) as Hsum.
  assert (0 <= payload_start r) by (rewrite (af_start _ _ _ Hart); apply align_nonneg; [done|pose proof (af_json _ _ _ Hart); lia]).
  pose proof (bytes_sum_nonneg _ object_bytes_nonneg (host_objects plan)) as Hnn.
  destruct (retain_objects_run (host_objects plan) (replicate (object_count plan) (mkObject 0 [])) 0 0) as (objects & retained & Hrun & Hlen & Hret & _); try done; try lia.
  { exact (po_host _ _ Hplan). } { rewrite length_replicate. exact (po_count _ _ Hplan). }
  { eapply Forall_impl; [exact Hlt|]. intros h Hh. apply lookup_replicate. by rewrite (po_count _ _ Hplan). }
  destruct (place_tensors_run base (device_objects plan) (mkPlaceState (mkArena base (device_capacity_bytes plan) 0 0 true) objects [] 0) (device_capacity_bytes plan))
    as (st & Hrun' & _ & Hr & Ht & Hle & Hall & _ & Hkeep); try done; try exact (po_device _ _ Hplan); try exact (po_laid _ _ Hplan).
  exists objects, retained, (0 + bytes_sum (entries r) (host_objects plan)), st. split; [exact Hrun|]. split; [lia|]. split; [exact Hrun'|].
  split; [exact Hr|]. split; [exact Ht|]. split; [exact Hle|]. split; [exact Hall|].
  eapply Forall_impl; [exact Hret|]. intros h (o & Ho & Hobj). destruct (Hkeep _ _ Hobj) as [a Hk]. by exists o, a.
Qed.

(** ** The system *)

Section Host.
Context `{LoadHost}.

(** What is known of the calls that succeed: reads give what is in the file, the driver's memory is aligned and the
    addresses of an allocation fit in 64 bits. *)
Record host_ok : Prop := {
  ho_read : forall offset request bytes, 0 <= offset <= size -> 0 <= request -> pread offset request = Some bytes ->
    bytes = slice file offset (Z.of_nat (length bytes)) /\ Z.of_nat (length bytes) <= request;
  ho_malloc : forall n base, cuda_malloc n = Some base -> 0 < base /\ (256 | base) /\ base + n + 256 <= u64_max;
  ho_malloc_host : forall i n address, cuda_malloc_host i n = Some address -> address mod 4096 = 0;
}.

(** Every call that the load makes succeeds. *)
Record host_complete : Prop := {
  hc_calls : complete file;
  hc_malloc : is_Some (cuda_malloc (device_capacity_bytes plan));
  hc_malloc_host : forall i n, is_Some (cuda_malloc_host i n);
  hc_event : forall i, cuda_event_create i = true;
}.

Hypothesis Hhost : host_ok.

Lemma make_slots_run slot_bytes indices : 0 <= slot_bytes ->
  match rmapM (make_slot slot_bytes) indices with
  | Ok slots => length slots = length indices /\ Forall (slot_ok slot_bytes) slots
  | Err _ => ~ host_complete
  end.
Proof.
  intros Hs. induction indices as [|i indices IH]; [by split|]. cbn [rmapM]. unfold make_slot at 1. destruct (cuda_malloc_host i slot_bytes) as [a|] eqn:Ea.
  - destruct (cuda_event_create i) eqn:Ee; cbn [negb throw_if rbind]; [|intros Hc; by rewrite (hc_event Hc) in Ee].
    destruct (rmapM (make_slot slot_bytes) indices) as [slots|e]; cbn [rbind]; [|done]. destruct IH as [Hl Hall]. split; [cbn; by rewrite Hl|].
    constructor; [|done]. split; cbn [slot_buffer slot_address]; [rewrite length_replicate; lia|by eapply ho_malloc_host].
  - intros Hc. destruct (hc_malloc_host Hc i slot_bytes) as [x Hx]. by rewrite Hx in Ea.
Qed.

(** What is in place after a load. *)
Record artifact_loaded (initial : Z -> Z) (out : MaterializedArtifact) (l : Loader) : Prop := {
  al_device : Forall (fun d => exists o address, entries r !! dm_object d = Some o /\ device_data out (dm_object d) = Ok address /\
    forall k b, payload_bytes o !! k = Some b -> memory l (address + Z.of_nat k) = b) (device_objects plan);
  al_host : Forall (fun h => exists o, entries r !! h = Some o /\ resource_bytes out h = Ok (payload_bytes o)) (host_objects plan);
  al_frame : forall a, Forall (fun d => forall address, device_data out (dm_object d) = Ok address -> a < address \/ address + dm_bytes d <= a) (device_objects plan) ->
    memory l a = initial a;
  al_queue : queue l = [];
}.

(** The loader when it starts. *)
Lemma loader_start rs slot_bytes slot_count slots read published initial : length slots = slot_count -> Forall (slot_ok slot_bytes) slots -> 0 <= read ->
  Forall (in_file size) rs -> loaded file rs slot_bytes slot_count read initial 0 (mkLoader slots [] 0 initial 0 0 0 0 0 read published).
Proof.
  intros Hl Hs Hr Hf. exists 0%nat, read. split; [|split; [split; [lia|]|lia]].
  - split; cbn [Materialize.slots]; try done.
    + split; [intros k x p Hk Hp1 Hp2 Hp3|done]. pose proof (Forall_lookup_1 _ _ _ _ Hf Hk) as Hx. unfold in_file in Hx. lia.
    + unfold vars. cbn. do 2 f_equal. clear -Hf. unfold covered_sum. induction Hf as [|x xs Hx _ IH]; cbn; [done|]. rewrite <- IH. unfold covered, in_file in *. lia.
  - intros k x Hk. pose proof (Forall_lookup_1 _ _ _ _ Hf Hk) as Hx. unfold in_file in Hx. split; [lia|]. intros _. lia.
Qed.

Lemma slot_sizes n : 0 < n -> n mod 4096 = 0 -> let slot_bytes := Z.min kSlotBytes n in
  (0 < slot_bytes <= kSlotBytes /\ slot_bytes mod 4096 = 0) /\ (0 < Z.to_nat (Z.min kMaximumSlotCount (1 + (n - 1) / slot_bytes)))%nat.
Proof.
  intros Hn Hm slot_bytes. assert (Hb : 0 < slot_bytes <= kSlotBytes) by (unfold slot_bytes, kSlotBytes; lia). split; [split; [done|]|].
  - unfold slot_bytes. destruct (Z.min_spec kSlotBytes n) as [[_ ->]|[_ ->]]; [by compute|done].
  - pose proof (Z.div_pos (n - 1) slot_bytes ltac:(lia) ltac:(lia)). unfold kMaximumSlotCount. lia.
Qed.

(** What the loader copied is what the plan asked for. *)
Lemma contents_loaded initial base rs arena objects stats l : 0 < base -> rs ≡ₚ (range_of base <$> device_objects plan) ->
  Forall (placed_object base objects) (device_objects plan) ->
  Forall (fun h => exists o a, entries r !! h = Some o /\ objects !! h = Some (mkObject a (payload_bytes o))) (host_objects plan) ->
  contents file rs initial (memory l) (fun _ => size) -> queue l = [] -> artifact_loaded initial (mkMaterialized arena objects stats) l.
Proof.
  intros Hbase Hp Hd Hh [Hc Hframe] Hq.
  assert (Haddr : forall d, d ∈ device_objects plan -> device_data (mkMaterialized arena objects stats) (dm_object d) = Ok (base + dm_offset d)).
  { intros d Hin. rewrite Forall_forall in Hd. destruct (Hd _ Hin) as [x Hx]. unfold device_data. cbn [objects_]. rewrite Hx. cbn [ob_device].
    apply list_elem_of_lookup_1 in Hin as [k Hk]. destruct (laid_bounds _ _ _ _ _ (po_laid _ _ Hplan) Hk) as (? & _ & _). rewrite (proj2 (Z.eqb_neq _ _)) by lia. done. }
  split; [| | |done].
  - apply Forall_forall. intros d Hin. pose proof (po_device _ _ Hplan) as Hpd. rewrite Forall_forall in Hpd. destruct (Hpd _ Hin) as (t & Ht & Hb).
    exists (TensorObject t), (base + dm_offset d). split; [done|]. split; [by apply Haddr|]. intros k b Hk.
    destruct (payload_at _ _ Ht) as (_ & H1 & H2 & H3 & H4). pose proof (lookup_lt_Some _ _ _ Hk) as Hlt.
    assert (Hin' : range_of base d ∈ rs) by (rewrite Hp; by apply list_elem_of_fmap_2). apply list_elem_of_lookup_1 in Hin' as [j Hj]. rewrite (range_of_at _ _ _ Ht Hb) in Hj.
    pose proof (Hc _ _ (start_of (TensorObject t) + Z.of_nat k) Hj) as Hm. cbn [source_begin source_end destination] in Hm.
    replace (start_of (TensorObject t) + Z.of_nat k - start_of (TensorObject t)) with (Z.of_nat k) in Hm by lia. rewrite Hm by lia.
    unfold payload_bytes in Hk. apply lookup_take_Some in Hk as [Hk _]. rewrite lookup_drop in Hk. replace (Z.to_nat (start_of (TensorObject t) + Z.of_nat k)) with (Z.to_nat (start_of (TensorObject t)) + k)%nat by lia.
    by apply nth_lookup_Some.
  - eapply Forall_impl; [exact Hh|]. intros h (o & a & Ho & Hobj). exists o. split; [done|]. unfold resource_bytes. cbn [objects_]. rewrite Hobj. cbn [ob_resource].
    destruct (payload_at _ _ Ho) as (_ & _ & H2 & _ & H4). case_bool_decide as He; [|done]. rewrite He in H4. cbn in H4. lia.
  - intros a Hout. apply Hframe. rewrite Hp. apply Forall_fmap. apply Forall_forall. intros d Hin. rewrite Forall_forall in Hout.
    specialize (Hout _ Hin _ (Haddr _ Hin)). unfold compose, range_of. cbn. lia.
Qed.

Lemma range_bytes_perm a b : a ≡ₚ b -> range_bytes a = range_bytes b.
Proof. unfold range_bytes. induction 1; cbn; lia. Qed.

(** A load either puts everything in place, or some call has failed. *)
Lemma materialize_run has_progress initial : device_objects plan <> [] ->
  match materialize r plan has_progress initial with
  | Ok (out, l) => artifact_loaded initial out l
  | Err _ => ~ host_complete
  end.
Proof.
  intros Hne. pose proof (po_capacity _ _ Hplan) as [_ Hcap]. unfold materialize.
  assert (Hpos : 0 < device_capacity_bytes plan).
  { destruct (device_objects plan) as [|d ds] eqn:Ed; [done|]. pose proof (po_laid _ _ Hplan) as Hl. rewrite Ed in Hl.
    destruct (laid_bounds _ _ _ 0%nat d Hl eq_refl) as (? & _ & ?). cbn in Hl. destruct Hl as (_ & _ & ? & _). lia. }
  rewrite Z.gtb_ltb, (proj2 (Z.eqb_neq _ _)), (proj2 (Z.ltb_ge _ _)) by lia. cbn [orb throw_if rbind].
  unfold arena_create. rewrite (proj2 (Z.eqb_neq _ _)) by lia. cbn [throw_if rbind].
  destruct (cuda_malloc (device_capacity_bytes plan)) as [base|] eqn:Em; cbn [rbind].
  2: { intros Hc. destruct (hc_malloc Hc) as [x Hx]. by rewrite Hx in Em. }
  destruct (ho_malloc Hhost _ _ Em) as (Hb1 & Hb2 & Hb3).
  destruct (objects_run base ltac:(by constructor)) as (objects & retained & read & st & E1 & Hread & E2 & Hr & Ht & Htc & Hdev & Hres).
  rewrite E1. cbn [rbind]. rewrite E2. cbn [rbind]. rewrite Hr. case_bool_decide as Hnil; [by apply fmap_nil_inv in Hnil|]. cbn [throw_if rbind].
  set (rs := merge_sort begins_before (range_of base <$> device_objects plan)).
  pose proof (merge_sort_Permutation begins_before (range_of base <$> device_objects plan)) as Hperm. fold rs in Hperm.
  pose proof (ranges_in_file base) as Hfile. pose proof (ranges_pairwise base) as Hpair.
  assert (Horder : in_order rs) by (apply (sorted_in_order size); [done|]; intros i j a b Hij Hi Hj; by apply (Hpair i j)).
  apply (pairwise_perm _ _ _ (symmetry Hperm)) in Hpair. rewrite <- Hperm in Hfile.
  rewrite check_disjoint_run by done. cbn [rbind].
  destruct (add_ranges_run file rs Hsize [] [] 0 Hfile Horder) as (spans & E3 & Hsne & Hchain & Hwithin).
  { split; [done|constructor|done]. } { eapply Forall_impl; [exact Hfile|]. unfold in_file. lia. }
  rewrite E3. cbn [rbind]. destruct (add_aligned_run file spans Hsize 0 0 Hchain) as (n & E4 & _ & Hn & Hnm & Hnu); try done.
  rewrite E4. cbn [rbind]. assert (Hspans : spans <> []).
  { apply Hsne. intros Hz. rewrite Hz in Hperm. apply Permutation_nil_l in Hperm. symmetry in Hperm. by apply fmap_nil_inv in Hperm. }
  destruct (slot_sizes n (Hn Hspans) Hnm) as [Hslot Hcount]. set (slot_bytes := Z.min kSlotBytes n) in *. set (slot_count := Z.to_nat _) in *.
  pose proof (make_slots_run slot_bytes (seq 0 slot_count) ltac:(lia)) as Hslots.
  destruct (rmapM (make_slot slot_bytes) (seq 0 slot_count)) as [slots|e]; cbn [rbind]; [|done]. destruct Hslots as [Hsl Hsok]. rewrite length_seq in Hsl.
  assert (Htotal : pl_total st = range_bytes rs /\ pl_total st <= u64_max) by (split; [by rewrite (range_bytes_perm _ _ Hperm)|lia]).
  pose proof (wp_loader file rs (pl_total st) slot_bytes slot_count read has_progress initial (ho_read Hhost) Hsize Hslot Hcount Hread Hfile Horder
    (fun i j a b Hij Hi Hj => proj2 (Hpair i j a b Hij Hi Hj)) Htotal spans _
    (loader_start rs slot_bytes slot_count slots read (if has_progress then [(0, pl_total st)] else []) initial Hsl Hsok (proj1 Hread) Hfile) Hchain Hwithin) as Hwp.
  unfold wp in Hwp. destruct ((do! load_spans _ _ _ _ _ _; _) _) as [[[]|e] l]; [|intros Hc; by apply Hwp, hc_calls].
  destruct Hwp as (Hcon & _ & Hq). by eapply contents_loaded.
Qed.
End Host.
End Plan.

(** C9: from the file to the device: for an opened artifact and a plan the binder finished, whatever the pace of the
    device, when [materialize] returns, every tensor of the plan is at its device address with the bytes of its
    payload, every resource is retained with its bytes, no other byte of the device's memory has changed and no copy
    is queued; it fails only if a call of the system or of the driver fails or reads less than the file has. *)
Theorem materialize_exact `{LoadHost} json_parse file r ops plan b' has_progress initial :
  (forall text v, json_parse text = Some v -> json_unsigned v) -> Forall is_byte file -> Z.of_nat (length file) <= i64_max ->
  open_reader json_parse file = Ok r -> finish (run_ops r ops (make_binder r)) = (Ok plan, b') -> device_objects plan <> [] -> host_ok file ->
  match materialize r plan has_progress initial with
  | Ok (out, l) =>
      (forall d, d ∈ device_objects plan -> exists o span address, entries r !! dm_object d = Some o /\ payload r o = Ok span /\
         device_data out (dm_object d) = Ok address /\
         forall k b, Artifact.span_data span !! k = Some b -> memory l (address + Z.of_nat k) = b) /\
      (forall h, h ∈ host_objects plan -> exists o span, entries r !! h = Some o /\ payload r o = Ok span /\
         resource_bytes out h = Ok (Artifact.span_data span)) /\
      (forall a, (forall d address, d ∈ device_objects plan -> device_data out (dm_object d) = Ok address -> a < address \/ address + dm_bytes d <= a) ->
         memory l a = initial a) /\
      queue l = []
  | Err _ => ~ host_complete file plan
  end.
Proof.
  intros Hj Hb Hs Hopen Hfin Hne Hhost. apply open_reader_sound in Hopen as Hart; [|done|unfold_ints; lia]. apply finish_run in Hfin as (-> & _ & _).
  pose proof (bi_plan _ _ (opened_binder _ Hj file r ops Hart)) as Hplan. set (plan := materialization _) in *.
  pose proof (materialize_run json_parse file r plan Hj Hb Hs Hart Hplan Hhost has_progress initial Hne) as Hrun.
  destruct (materialize r plan has_progress initial) as [[out l]|e]; [|done]. destruct Hrun as [Hd Hh Hframe Hq]. rewrite Forall_forall in Hd. rewrite Forall_forall in Hh. split; [|split; [|split; [|done]]].
  - intros d Hin. destruct (Hd _ Hin) as (o & address & Ho & Ha & Hm). destruct (payload_at json_parse file r Hj Hb Hs Hart _ _ Ho) as [Hp _]. by exists o, (mkPayloadSpan (start_of r o) (payload_bytes file r o)), address.
  - intros h Hin. destruct (Hh _ Hin) as (o & Ho & Ha). destruct (payload_at json_parse file r Hj Hb Hs Hart _ _ Ho) as [Hp _]. by eexists o, _.
  - intros a Hout. apply Hframe. apply Forall_forall. intros d Hin address. by apply Hout.
Qed.

Lemma slice_length_self (f : list Z) offset request : 0 <= request ->
  slice f offset request = slice f offset (Z.of_nat (length (slice f offset request))) /\ Z.of_nat (length (slice f offset request)) <= request.
Proof.
  intros Hr. unfold slice. rewrite length_take, Nat2Z.id. split; [|lia]. set (l := drop (Z.to_nat offset) f).
  destruct (Nat.le_gt_cases (Z.to_nat request) (length l)); [by rewrite Nat.min_l|]. by rewrite Nat.min_r, !take_ge by lia.
Qed.

(** The sample artifact, loaded. *)
Module LoadSample.
Import ArtifactProofs.Sample BinderProofs.BinderSample.

#[local] Instance sample_host : LoadHost := {|
  pread := fun offset request => Some (slice file offset request);
  cuda_malloc := fun n => if n <=? 4096 then Some 4096 else None;
  cuda_malloc_host := fun i n => Some (65536 * (1 + Z.of_nat i));
  cuda_event_create := fun _ => true;
  cuda_accepts := fun _ => true;
  device_progress := fun n => (n mod 2)%nat;
|}.
Lemma sample_host_ok : host_ok file.
Proof.
  split; cbn.
  - intros offset request bytes _ Hr [= <-]. by apply slice_length_self.
  - intros n base. case_if En; [|done]. apply Z.leb_le in En. intros [= <-]. split; [done|]. split; [by exists 16|]. unfold_ints. lia.
  - intros i n address [= <-]. replace (65536 * (1 + Z.of_nat i)) with (16 * (1 + Z.of_nat i) * 4096) by lia. by rewrite Z.mod_mul.
Qed.
Lemma sample_host_complete : host_complete file sample_plan.
Proof. split; cbn; try done; by eexists. Qed.

Lemma sample_size : Z.of_nat (length file) <= i64_max.
Proof. vm_compute. discriminate. Qed.
Lemma sample_payload o span : entries reader !! 2%nat = Some o -> payload reader o = Ok span -> Artifact.span_data span !! 0%nat = Some 8.
Proof.
  assert (H : option_map (fun o => match payload reader o with Ok span => Artifact.span_data span !! 0%nat | Err _ => None end) (entries reader !! 2%nat) = Some (Some 8))
    by (vm_compute; reflexivity).
  intros Ho Hs. rewrite Ho in H. cbn in H. rewrite Hs in H. by injection H.
Qed.

Lemma materialize_exact_witness : exists out l address, materialize reader sample_plan true (fun _ => 0) = Ok (out, l) /\
  device_data out 2%nat = Ok address /\ memory l address = 8.
Proof.
  destruct sample_finished as [b' Hfin].
  pose proof (materialize_exact parse file reader sample_ops sample_plan b' true (fun _ => 0) parse_unsigned (proj1 file_ok) sample_size reader_opened Hfin
    ltac:(discriminate) sample_host_ok) as H.
  destruct (materialize reader sample_plan true (fun _ => 0)) as [[out l]|e]; [|destruct (H sample_host_complete)].
  destruct H as [H _]. destruct (H (mkDeviceMat 2 0 2 256)) as (o & span & address & Ho & Hs & Ha & Hm); [left|].
  exists out, l, address. split; [reflexivity|]. split; [exact Ha|]. rewrite <- (Hm 0%nat 8 (sample_payload o span Ho Hs)). f_equal. symmetry. apply Z.add_0_r.
Defined.
End LoadSample.
