(* ===== verification/Processor.v ===== *)
(** * The media processor: [targets/qwen3_6/impl/frontend/processor]

    From a conversation with media to the inputs of the model: the vision placeholders of the rendered
    text are expanded to one token per merged patch, the text is tokenized, and the tokens get their types
    and their three position axes.  [fi::VisionItem] has the fields of [PrefixIdentity.VisionItem].

    Decoding a medium and resizing its frames (FFmpeg, floating point) happen in the tasks of the media
    cache; what [begin_prepare] and [await] give for each medium is an argument here. *)
From Stdlib Require Import Strings.String.
From stdpp Require Import gmap.
From S2P Require Import Prelude Unicode Admission Capacity Contract Output Tokenizer PrefixIdentity ToolCalls Digest ChatTemplate MediaCache.
#[local] Open Scope Z_scope.
#[local] Open Scope ninfer_scope.

Definition kPatch : Z := 16.
Definition kTemporal : Z := 2.
Definition kMerge : Z := 2.
Definition kPatchFeatures : Z := 3 * kTemporal * kPatch * kPatch.
Definition kImageToken : Z := 248056.
Definition kVideoToken : Z := 248057.
Definition kMinimumRawPatchesPerItem : Z := kMerge * kMerge.

(** A [double] is its bit pattern: [x > 0.0]. *)
Definition f64_positive (x : Z) : bool :=
  negb (f64_is_nan x) && (x <? 9223372036854775808) && negb (f64_magnitude x =? 0).

(** ** Budgets *)

Record ProcessorOptions : Set := mkProcessorOptions {
  image_min_pixels : Z; image_max_pixels : Z; video_min_pixels : Z; video_max_pixels : Z;
  max_encoded_media_bytes : Z; max_decoded_pixels : Z; max_decoded_video_pixels : Z;
  max_video_source_frames : Z; max_video_duration_seconds : Z;
  max_raw_patches : Z; max_vision_tokens : Z;
  video_fps : Z; video_min_frames : Z; video_max_frames : Z;
}.

(** [PreprocessStats], without times and the counters of the cache. *)
Record PreprocessStats : Set := mkPreprocessStats {
  ps_media_items : Z; ps_media_bytes : Z; ps_raw_patches : Z; ps_vision_tokens : Z; ps_attention_pairs : Z;
  ps_prompt_tokens : Z; ps_patch_bytes : Z;
}.
Definition no_stats : PreprocessStats := mkPreprocessStats 0 0 0 0 0 0 0.

Definition checked_mul (a b : Z) : result Z :=
  do* throw_if (negb (a =? 0) && (b >? u64_max / a)) InvalidArgument;
  Ok (u64 (a * b)).

Definition add_budget (item : VisionItem) : M PreprocessStats unit :=
  let! spatial := mlift (checked_mul (u64 (height (grid item))) (u64 (width (grid item)))) in
  let! patches := mlift (checked_mul (u64 (temporal (grid item))) spatial) in
  do! mmodify (fun s => mkPreprocessStats (ps_media_items s) (ps_media_bytes s) (u64 (ps_raw_patches s + patches))
                 (u64 (ps_vision_tokens s + patches / (kMerge * kMerge))) (ps_attention_pairs s)
                 (ps_prompt_tokens s) (ps_patch_bytes s));
  let! squared := mlift (checked_mul spatial spatial) in
  let! pairs := mlift (checked_mul (u64 (temporal (grid item))) squared) in
  mmodify (fun s => mkPreprocessStats (ps_media_items s) (ps_media_bytes s) (ps_raw_patches s) (ps_vision_tokens s)
             (u64 (ps_attention_pairs s + pairs)) (ps_prompt_tokens s) (ps_patch_bytes s)).

Definition enforce_media_resource_limits (stats : PreprocessStats) (options : ProcessorOptions) : result unit :=
  do* throw_if (ps_raw_patches stats >? max_raw_patches options) ProcessorError;
  throw_if (ps_vision_tokens stats >? max_vision_tokens options) ProcessorError.

(** [ConcurrentMediaBudget::claim]; the claim that fails stays counted. *)
Definition claim (options : ProcessorOptions) (item : VisionItem) : M PreprocessStats unit :=
  do! add_budget item;
  let! stats := mget in
  mlift (enforce_media_resource_limits stats options).

(** ** Placeholders *)

Fixpoint repeat_bytes (value : list Z) (count : nat) : list Z :=
  match count with O => [] | S n => value ++ repeat_bytes value n end.

Definition repeat (value : list Z) (count : Z) : result (list Z) :=
  do* throw_if (count >? u64_max / Z.of_nat (length value)) InvalidArgument;
  Ok (repeat_bytes value (Z.to_nat count)).

(** [std::fixed << std::setprecision(1)] of a [double]. *)
Class TimestampText : Type := fixed_1 : Z -> list Z.

Definition pad_of (m : PromptModality) : list Z := match m with Image => kImagePad | Video => kVideoPad end.

Definition frame_tokens (item : VisionItem) : Z :=
  u64 (u64 (Z.quot (height (grid item)) kMerge) * u64 (Z.quot (width (grid item)) kMerge)).

Section Placeholders.
Context `{TimestampText}.

Definition timestamp_text (timestamp : Z) : list Z := bytes_of "<" ++ fixed_1 timestamp ++ bytes_of " seconds>".

Definition placeholder (item : VisionItem) : result (list Z) :=
  match modality item with
  | Image => repeat kImagePad (frame_tokens item)
  | Video =>
      do* throw_if (negb (Z.of_nat (length (timestamps item)) =? u64 (temporal (grid item)))) LogicError;
      rfoldl (fun out timestamp =>
        let* pads := repeat kVideoPad (frame_tokens item) in
        Ok (out ++ timestamp_text timestamp ++ kVisionStart ++ pads ++ kVisionEnd)) [] (timestamps item)
  end.

(** One turn of the loop of [expand_placeholders]; [search] is where the last replacement ends. *)
Definition expand_item (st : RenderedChat * nat) (item : VisionItem) : result (RenderedChat * nat) :=
  let '(chat, search) := st in
  let needle := pad_of (modality item) in
  let other := pad_of (match modality item with Image => Video | Video => Image end) in
  match find_from needle (text chat) search with
  | None => Err InvalidArgument
  | Some position =>
      do* throw_if (match find_from other (text chat) search with Some o => (o <? position)%nat | None => false end)
            InvalidArgument;
      let* replacement := placeholder item in
      let end_ := (position + length needle)%nat in
      let* checkpoint :=
        match rewrite_checkpoint chat with
        | None => Ok None
        | Some c =>
            let boundary := offset c in
            do* throw_if ((position <? boundary)%nat && (boundary <? end_)%nat) LogicError;
            Ok (Some (if (end_ <=? boundary)%nat
                      then mkByteSpec (cp_kind c) (boundary - length needle + length replacement) else c))
        end in
      Ok (mkRendered (take position (text chat) ++ replacement ++ drop end_ (text chat)) checkpoint,
          (position + length replacement)%nat)
  end.

Definition expand_placeholders (rendered : RenderedChat) (items : list VisionItem) : result RenderedChat :=
  let* (chat, search) := rfoldl expand_item (rendered, 0%nat) items in
  do* throw_if (is_some (find_from kImagePad (text chat) search) || is_some (find_from kVideoPad (text chat) search))
        InvalidArgument;
  Ok chat.
End Placeholders.

(** ** Positions *)

Record ProcessedInput : Set := mkProcessed {
  pi_input_ids : list Z;
  pi_token_types : list Z;
  pi_positions : list Z;              (**r axis by axis *)
  pi_rope_delta : Z;
  pi_vision_items : list VisionItem;
  pi_media_payloads : list Payload;
  pi_rewrite_checkpoint : option RewriteCheckpointSpec;
  pi_stats : PreprocessStats;
}.

Definition position_axis (input : ProcessedInput) (axis : Z) : result (list Z) :=
  let n := length (pi_input_ids input) in
  do* throw_if ((axis <? 0) || (axis >=? 3) || negb (length (pi_positions input) =? n * 3)%nat) OutOfRange;
  Ok (take n (drop (Z.to_nat axis * n) (pi_positions input))).

Record PositionState : Set := mkPositionState {
  image_index : nat; video_index : nat; video_t : Z; current : Z; maximum : Z;
  axes : list Z; bound : list VisionItem;
}.

(** [set(axis, index, value)] *)
Definition set_position (length_ axis index : nat) (value : Z) (axes : list Z) : list Z :=
  <[(axis * length_ + index)%nat := value]> axes.

(** [while (end < length && token_types[end] == modality) { ++end; }] *)
Fixpoint run_length (ty : Z) (types : list Z) : nat :=
  match types with
  | t :: types' => if t =? ty then S (run_length ty types') else O
  | [] => O
  end.

(** The items before the first one of the modality, from [index] on. *)
Fixpoint next_item (m : PromptModality) (items : list VisionItem) (index : nat) : option nat :=
  match items with
  | [] => None
  | item :: items' => if bool_decide (modality item = m) then Some index else next_item m items' (S index)
  end.

Definition push_span (span : TokenSpan) (item : VisionItem) : VisionItem :=
  mkVisionItem (modality item) (grid item) (patch_begin item) (patch_count item) (content_digest item)
    (timestamps item) (token_spans item ++ [span]).

Definition text_run (length_ begin count : nat) (st : PositionState) : PositionState :=
  let '(axes', maximum') :=
    foldl (fun acc i =>
      let position := current st + Z.of_nat i in
      (foldl (fun axes axis => set_position length_ axis (begin + i) position axes) acc.1 [0; 1; 2]%nat,
       Z.max acc.2 position)) (axes st, maximum st) (seq 0 count) in
  mkPositionState (image_index st) (video_index st) (video_t st) (current st + Z.of_nat count) maximum' axes' (bound st).

(** The item of a run of media tokens, and the cursors after it. *)
Definition take_item (ty : Z) (st : PositionState) : result (nat * PositionState) :=
  if ty =? modality_value Image then
    match next_item Image (drop (image_index st) (bound st)) (image_index st) with
    | None => Err InvalidArgument
    | Some i => Ok (i, mkPositionState (S i) (video_index st) (video_t st) (current st) (maximum st) (axes st) (bound st))
    end
  else if ty =? modality_value Video then
    match next_item Video (drop (video_index st) (bound st)) (video_index st) with
    | None => Err InvalidArgument
    | Some i =>
        let t := video_t st + 1 in
        let last_frame := match bound st !! i with Some item => t =? temporal (grid item) | None => false end in
        Ok (i, mkPositionState (image_index st) (if last_frame then S i else i) (if last_frame then 0 else t)
                 (current st) (maximum st) (axes st) (bound st))
    end
  else Err InvalidArgument.

(** The three nested loops over a grid of one temporal step. *)
Definition media_positions (length_ begin : nat) (gh gw current : Z) (acc : list Z * Z * nat) : list Z * Z * nat :=
  foldl (fun acc t => foldl (fun acc y => foldl (fun '(axes, maximum, index) x =>
      (set_position length_ 2 index (current + x)
         (set_position length_ 1 index (current + y) (set_position length_ 0 index (current + t) axes)),
       Z.max maximum (Z.max (current + t) (Z.max (current + y) (current + x))), S index))
    acc (seqZ 0 gw)) acc (seqZ 0 gh)) acc (seqZ 0 1).

Definition media_run (length_ begin count : nat) (ty : Z) (st : PositionState) : result PositionState :=
  let* (i, st) := take_item ty st in
  match bound st !! i with
  | None => Err Abort_
  | Some item =>
      let gh := Z.quot (height (grid item)) kMerge in
      let gw := Z.quot (width (grid item)) kMerge in
      do* throw_if (negb (Z.of_nat count =? u64 (1 * gh * gw))) InvalidArgument;
      let '(axes', maximum', _) := media_positions length_ begin gh gw (current st) (axes st, maximum st, begin) in
      Ok (mkPositionState (image_index st) (video_index st) (video_t st) (current st + Z.max gh gw) maximum' axes'
            (<[i := push_span (mkTokenSpan (Z.of_nat begin) (Z.of_nat count)) item]> (bound st)))
  end.

(** The loop over the runs of equal types; [types] are those from [begin] on. *)
Fixpoint position_runs (fuel length_ begin : nat) (types : list Z) (st : PositionState) : result PositionState :=
  match fuel, types with
  | _, [] => Ok st
  | O, _ => Err Abort_
  | S fuel', ty :: types' =>
      let count := S (run_length ty types') in
      let* st := if ty =? 0 then Ok (text_run length_ begin count st) else media_run length_ begin count ty st in
      position_runs fuel' length_ (begin + count) (drop count types) st
  end.

Definition expected_spans (item : VisionItem) : Z :=
  match modality item with Image => 1 | Video => u64 (temporal (grid item)) end.

Definition assign_positions (input : ProcessedInput) : result ProcessedInput :=
  let n := length (pi_input_ids input) in
  let* st := position_runs (length (pi_token_types input)) n 0 (pi_token_types input)
    (mkPositionState 0 0 0 0 0 (replicate (n * 3) 0) (pi_vision_items input)) in
  do* riter (fun item => throw_if (negb (Z.of_nat (length (token_spans item)) =? expected_spans item)) InvalidArgument) (bound st);
  Ok (mkProcessed (pi_input_ids input) (pi_token_types input) (axes st) (maximum st + 1 - Z.of_nat n) (bound st)
        (pi_media_payloads input) (pi_rewrite_checkpoint input) (pi_stats input)).

(** ** Tokens *)

Record EncodedChat : Set := mkEncoded { ec_input_ids : list Z; ec_rewrite_checkpoint : option RewriteCheckpointSpec }.

Section Encode.
Context `{CharacterTables}.

Definition encode_rendered_chat (t : Tokenizer) (rendered : RenderedChat) : result EncodedChat :=
  let* ids := encode t (text rendered) true in
  match rewrite_checkpoint rendered with
  | None => Ok (mkEncoded ids None)
  | Some c =>
      do* throw_if (length (text rendered) <? offset c)%nat LogicError;
      let* prefix := encode t (take (offset c) (text rendered)) true in
      do* throw_if (bool_decide (prefix = []) || (length ids <? length prefix)%nat ||
                    negb (bool_decide (take (length prefix) ids = prefix))) LogicError;
      do* throw_if (Z.of_nat (length prefix) >? u32_max) OverflowError;
      Ok (mkEncoded ids (Some (mkCheckpointSpec (cp_kind c) (Z.of_nat (length prefix)))))
  end.

Definition validate_special_token (t : Tokenizer) (text : list Z) (expected : Z) : result unit :=
  let* ids := encode t text true in
  throw_if (negb (length ids =? 1)%nat || negb (bool_decide (head ids = Some expected))) InvalidArgument.

(** The constructor of [Processor]. *)
Definition make_processor (t : Tokenizer) (options : ProcessorOptions) (has_media_cache : bool) : result unit :=
  do* throw_if ((max_encoded_media_bytes options =? 0) || (max_decoded_pixels options =? 0) ||
                (max_decoded_video_pixels options =? 0) || (max_raw_patches options =? 0) ||
                (max_vision_tokens options =? 0) || (image_min_pixels options =? 0) ||
                (image_max_pixels options <? image_min_pixels options) || (video_min_pixels options =? 0) ||
                (video_max_pixels options <? video_min_pixels options) || negb (f64_positive (video_fps options)) ||
                (video_min_frames options <=? 0) || (video_max_frames options <? video_min_frames options) ||
                (max_video_source_frames options <? video_max_frames options) ||
                negb (f64_positive (max_video_duration_seconds options))) InvalidArgument;
  do* throw_if (negb has_media_cache) InvalidArgument;
  do* validate_special_token t kImagePad kImageToken;
  validate_special_token t kVideoPad kVideoToken.
End Encode.

(** ** Conversations with media *)

(** A medium with its bytes; its declared type and the name of its source are not modelled. *)
Record MediaData : Set := mkMediaData { md_kind : PromptModality; md_bytes : list Z }.
Inductive MessagePart : Set := TextPart (text : list Z) | MediaPart (medium : MediaData).

Record Message : Set := mkInputMessage {
  msg_role : ChatRole; msg_parts : list MessagePart; msg_reasoning : list Z; msg_tool_calls : list ToolCall;
  msg_tool_call_id : list Z;
}.

(** What the chat template reads. *)
Definition template_part (p : MessagePart) : ChatPart :=
  match p with
  | TextPart t => PartText t
  | MediaPart m => match md_kind m with Image => PartImage | Video => PartVideo end
  end.
Definition template_message (m : Message) : ChatMessage :=
  mkMessage (msg_role m) (template_part <$> msg_parts m) (msg_reasoning m) (msg_tool_calls m) (msg_tool_call_id m).

Definition part_media (p : MessagePart) : list MediaData := match p with MediaPart m => [m] | TextPart _ => [] end.
Definition message_media (m : Message) : list MediaData := concat (part_media <$> msg_parts m).

Fixpoint media_parts (messages : list Message) : result (list MediaData) :=
  match messages with
  | [] => Ok []
  | m :: messages' =>
      if is_instruction_role (msg_role m) then
        do* throw_if (ChatTemplate.has_media (template_message m)) InvalidArgument; media_parts messages'
      else let* rest := media_parts messages' in Ok (message_media m ++ rest)
  end.

(** What the cache does for a part: [begin_prepare], with the digest and the check before it, and [await]. *)
Record MediaOutcome : Set := mkOutcome { begun : result unit; awaited : result (option PreparedMedia) }.

(** The loop that begins the preparation of the parts: those begun, and what stopped it. *)
Fixpoint begin_media (outcomes : list MediaOutcome) : list (result (option PreparedMedia)) * option exn :=
  match outcomes with
  | [] => ([], None)
  | o :: outcomes' =>
      match begun o with
      | Err e => ([], Some e)
      | Ok _ => let '(pending, error) := begin_media outcomes' in (awaited o :: pending, error)
      end
  end.

Record MediaPhase : Set := mkMediaPhase {
  mp_error : option exn; mp_cursor : Z; mp_stats : PreprocessStats; mp_items : list VisionItem; mp_payloads : list Payload;
}.

Definition place_item (begin count : Z) (item : VisionItem) : VisionItem :=
  mkVisionItem (modality item) (grid item) begin count (content_digest item) (timestamps item) (token_spans item).

Definition add_patch_bytes (n : Z) (s : PreprocessStats) : PreprocessStats :=
  mkPreprocessStats (ps_media_items s) (ps_media_bytes s) (ps_raw_patches s) (ps_vision_tokens s) (ps_attention_pairs s)
    (ps_prompt_tokens s) (u64 (ps_patch_bytes s + n)).
Definition set_prompt_tokens (n : Z) (s : PreprocessStats) : PreprocessStats :=
  mkPreprocessStats (ps_media_items s) (ps_media_bytes s) (ps_raw_patches s) (ps_vision_tokens s) (ps_attention_pairs s)
    n (ps_patch_bytes s).

(** One turn of the loop that awaits them; once there is an error the results are discarded. *)
Definition take_media (options : ProcessorOptions) (st : MediaPhase) (outcome : result (option PreparedMedia)) : MediaPhase :=
  let failed e cursor stats := mkMediaPhase (Some e) cursor stats (mp_items st) (mp_payloads st) in
  match mp_error st, outcome with
  | Some _, _ => st
  | None, Err e => failed e (mp_cursor st) (mp_stats st)
  | None, Ok m =>
      match m ≫= payload, m with
      | Some p, Some x =>
          if negb (patch_elements p mod kPatchFeatures =? 0) then failed LogicError (mp_cursor st) (mp_stats st) else
          let item := place_item (mp_cursor st) (patch_elements p / kPatchFeatures) (media_item x) in
          let cursor := u64 (mp_cursor st + patch_count item) in
          match claim options item (mp_stats st) with
          | (Err e, stats) => failed e cursor stats
          | (Ok _, stats) =>
              mkMediaPhase None cursor (add_patch_bytes (u64 (patch_elements p * 2)) stats)
                (mp_items st ++ [item]) (mp_payloads st ++ [p])
          end
      | _, _ => failed LogicError (mp_cursor st) (mp_stats st)
      end
  end.

Definition token_type (id : Z) : Z :=
  if id =? kImageToken then modality_value Image else if id =? kVideoToken then modality_value Video else 0.

(** [catch (const media::decode::Error&)] *)
Definition rethrow_preparation (e : exn) : exn := match e with DecodeError true => ProcessorError | _ => e end.

(** The outcomes of the checks of the request's cancellation and deadline, and of waiting for a permit. *)
Record Controls : Set := mkControls {
  at_start : result unit; request_permit : result unit; after_media : result unit; after_tokenization : result unit;
  at_end : result unit;
}.

Section Process.
Context `{CharacterTables} `{OrderedJsonText} `{TimestampText}.
Context (t : Tokenizer) (semantics : ChatTemplateSemantics) (options : ProcessorOptions).

Definition media_phase (parts : list MediaData) (remaining : Z) (outcome : nat -> MediaOutcome) : MediaPhase :=
  let stats := mkPreprocessStats (Z.of_nat (length parts)) (max_encoded_media_bytes options - remaining) 0 0 0 0 0 in
  let '(pending, error) := begin_media (outcome <$> seq 0 (length parts)) in
  foldl (take_media options) (mkMediaPhase error 0 stats [] []) pending.

Definition process (messages : list Message) (render_options : ChatRenderOptions) (controls : Controls)
    (outcome : nat -> MediaOutcome) : result ProcessedInput :=
  do* at_start controls;
  let* parts := media_parts messages in
  let maximum_items := Z.min (max_raw_patches options / kMinimumRawPatchesPerItem) (max_vision_tokens options) in
  do* throw_if (Z.of_nat (length parts) >? maximum_items) ProcessorError;
  let* remaining := rfoldl (fun remaining part =>
      do* throw_if (Z.of_nat (length (md_bytes part)) >? remaining) ProcessorError;
      Ok (remaining - Z.of_nat (length (md_bytes part)))) (max_encoded_media_bytes options) parts in
  do* request_permit controls;
  let* rendered := render semantics render_options (template_message <$> messages) in
  let media := media_phase parts remaining outcome in
  match mp_error media with
  | Some e => Err (rethrow_preparation e)
  | None =>
      do* throw_if (negb (mp_cursor media =? ps_raw_patches (mp_stats media)) ||
                    negb (length (mp_payloads media) =? length (mp_items media))%nat) LogicError;
      do* after_media controls;
      let* rendered := expand_placeholders rendered (mp_items media) in
      let* encoded := encode_rendered_chat t rendered in
      do* after_tokenization controls;
      let stats := set_prompt_tokens (Z.of_nat (length (ec_input_ids encoded))) (mp_stats media) in
      do* enforce_media_resource_limits stats options;
      let* output := assign_positions
        (mkProcessed (ec_input_ids encoded) (token_type <$> ec_input_ids encoded) [] 0 (mp_items media) (mp_payloads media)
           (ec_rewrite_checkpoint encoded) stats) in
      do* at_end controls;
      Ok output
  end.
End Process.
