(* ===== verification/PlaceholderProofs.v ===== *)
(** * Expanding the placeholders of a rendered conversation

    [expands] relates a text, of which the placeholders are those of the items, to its expansion, and a
    boundary in the one to its place in the other.  [expand_placeholders] computes it. *)
From Stdlib Require Import Strings.String.
From stdpp Require Import gmap.
From S2P Require Import Prelude Unicode Admission Capacity Contract Output OutputProofs Tokenizer PrefixIdentity ToolCalls Digest ChatTemplate MediaCache Processor.
#[local] Open Scope Z_scope.
#[local] Open Scope ninfer_scope.

Section Expansion.
Context `{TimestampText}.

(** No placeholder is in the text. *)
Definition clean (p : list Z) : Prop := forall m j, ~ occurs (pad_of m) p j.

Inductive expands : list VisionItem -> list Z -> list Z -> nat -> nat -> Prop :=
| expands_end p b : clean p -> (b <= length p)%nat -> expands [] p p b b
| expands_before item items p e rest out b :
    clean p -> placeholder item = Ok e -> expands items rest out 0 0 -> (b <= length p)%nat ->
    expands (item :: items) (p ++ pad_of (modality item) ++ rest) (p ++ e ++ out) b b
| expands_after item items p e rest out b b' :
    clean p -> placeholder item = Ok e -> expands items rest out b b' ->
    expands (item :: items) (p ++ pad_of (modality item) ++ rest) (p ++ e ++ out)
      (length p + length (pad_of (modality item)) + b) (length p + length e + b').

(** ** Occurrences *)

(** A pad begins with [<], which is nowhere else in it. *)
Lemma pad_shape m : exists tail, pad_of m = 60 :: tail /\ (60 : Z) ∉ tail.
Proof.
  assert (Hs : forall l : list Z, bool_decide (60 ∉ tail l) = true -> head l = Some 60 -> exists t, l = 60 :: t /\ (60 : Z) ∉ t).
  { intros [|x l] Hd [= ->]. exists l. split; [done|]. by apply bool_decide_eq_true in Hd. }
  destruct m; apply Hs; vm_compute; reflexivity.
Qed.

Lemma occurs_at p s i k : occurs p s i -> (k < length p)%nat -> s !! (i + k)%nat = p !! k.
Proof. unfold occurs. intros Ho Hk. rewrite <- Ho at 1. by rewrite lookup_take_lt, lookup_drop. Qed.

Lemma pad_nonempty m : pad_of m <> [].
Proof. by destruct (pad_shape m) as (t & -> & _). Qed.

(** The first placeholder after a clean text is the one that follows it. *)
Lemma no_early m m' p r j : clean p -> occurs (pad_of m) (p ++ pad_of m' ++ r) j -> (length p <= j)%nat.
Proof.
  intros Hp Ho. destruct (decide (length p <= j)%nat) as [|Hlt]; [done|exfalso].
  destruct (decide (j + length (pad_of m) <= length p)%nat) as [Hin|Hout].
  - apply (Hp m j). unfold occurs in *. rewrite <- Ho at 2. rewrite drop_app_le by lia. rewrite take_app_le; [done|].
    rewrite length_drop. lia.
  - destruct (pad_shape m) as (t & Et & Ht), (pad_shape m') as (t' & Et' & _).
    pose proof (occurs_at _ _ _ (length p - j) Ho ltac:(lia)) as Hl.
    replace (j + (length p - j))%nat with (length p + 0)%nat in Hl by lia.
    rewrite lookup_app_r in Hl by lia. replace (length p + 0 - length p)%nat with 0%nat in Hl by lia.
    rewrite Et', Et in Hl. replace (length p - j)%nat with (S (length p - j - 1)) in Hl by lia. cbn in Hl.
    apply Ht. apply list_elem_of_lookup_2 with (length p - j - 1)%nat. symmetry. exact Hl.
Qed.

Lemma occurs_after p q r : occurs q (p ++ q ++ r) (length p).
Proof. unfold occurs. by rewrite drop_app_length, take_app_length. Qed.

Lemma find_hole m p r : clean p -> find_sub (pad_of m) (p ++ pad_of m ++ r) = Some (length p).
Proof.
  intros Hp. apply find_sub_Some. split; [apply occurs_after|]. split; [rewrite length_app; lia|].
  intros j Hj Ho. apply no_early in Ho; [lia|done].
Qed.

Lemma find_other m m' p r i : clean p -> find_sub (pad_of m') (p ++ pad_of m ++ r) = Some i -> (length p <= i)%nat.
Proof. intros Hp (Ho & _ & _)%find_sub_Some. by eapply no_early. Qed.

Lemma find_clean m p : clean p -> find_sub (pad_of m) p = None.
Proof. intros Hp. apply find_sub_None; [apply pad_nonempty|]. intros j. apply Hp. Qed.

(** Before the first placeholder the text is clean. *)
Lemma clean_before m m' text i : m <> m' -> find_sub (pad_of m) text = Some i ->
  match find_sub (pad_of m') text with Some o => (o <? i)%nat | None => false end = false ->
  text = take i text ++ pad_of m ++ drop (i + length (pad_of m)) text /\ clean (take i text).
Proof.
  intros Hm (Ho & Hi & Hmin)%find_sub_Some Hother. split.
  - unfold occurs in Ho. rewrite <- drop_drop. rewrite <- Ho at 1. by rewrite !take_drop.
  - intros k j Hocc. assert (Ho' : occurs (pad_of k) text j) by (rewrite <- (take_drop i text); by apply occurs_app_l).
    assert (Hj : (j < i)%nat).
    { pose proof (occurs_length _ _ _ Hocc) as Hl. rewrite length_take in Hl. pose proof (pad_nonempty k). destruct (pad_of k); [done|]. cbn in Hl. lia. }
    destruct (decide (k = m)) as [->|Hne]; [by apply (Hmin j)|].
    assert (k = m') as -> by (destruct k, m, m'; done).
    destruct (find_sub (pad_of m') text) as [o|] eqn:Ef.
    + apply find_sub_Some in Ef as (_ & _ & Hmin'). apply Nat.ltb_ge in Hother. apply (Hmin' j); [lia|done].
    + rewrite find_sub_None in Ef by apply pad_nonempty. by apply (Ef j).
Qed.

Lemma clean_app_inv p q : clean (p ++ q) -> clean p /\ clean q.
Proof.
  intros Hc. split; intros m j Ho.
  - apply (Hc m j). by apply occurs_app_l.
  - apply (Hc m (length p + j)%nat). by apply occurs_app_r.
Qed.

(** ** The loop *)

Definition moved (c : option RewriteCheckpointByteSpec) (done_ : nat) (items : list VisionItem) (rest out : list Z)
    (c' : option RewriteCheckpointByteSpec) : Prop :=
  match c, c' with
  | None, None => expands items rest out 0 0
  | Some c, Some c' => cp_kind c' = cp_kind c /\
      ((offset c <= done_)%nat /\ offset c' = offset c /\ expands items rest out 0 0 \/
       exists b b', offset c = (done_ + b)%nat /\ offset c' = (done_ + b')%nat /\ expands items rest out b b')
  | _, _ => False
  end.

Lemma find_from_done q done_ rest :
  find_from q (done_ ++ rest) (length done_) = (fun i => (length done_ + i)%nat) <$> find_sub q rest.
Proof. unfold find_from. rewrite drop_app_length. by destruct (find_sub q rest). Qed.

Definition finish_expansion (r : RenderedChat * nat) : result RenderedChat :=
  let '(chat, search) := r in
  do* throw_if (is_some (find_from kImagePad (text chat) search) || is_some (find_from kVideoPad (text chat) search))
        InvalidArgument;
  Ok chat.

Lemma expand_item_Ok done_ rest c item st :
  expand_item (mkRendered (done_ ++ rest) c, length done_) item = Ok st <->
  exists p rest' e c', rest = p ++ pad_of (modality item) ++ rest' /\ clean p /\ placeholder item = Ok e /\
    st = (mkRendered (done_ ++ p ++ e ++ rest') c', length (done_ ++ p ++ e)) /\
    match c with
    | None => c' = None
    | Some c =>
        let position := length (done_ ++ p) in
        ((offset c <= position)%nat /\ c' = Some c) \/
        ((position + length (pad_of (modality item)) <= offset c)%nat /\
         c' = Some (mkByteSpec (cp_kind c) (offset c - length (pad_of (modality item)) + length e)))
    end.
Proof.
  unfold expand_item. cbn [text rewrite_checkpoint]. rewrite !find_from_done.
  set (m := modality item). set (m' := match m with Image => Video | Video => Image end).
  assert (Hne : m <> m') by (by destruct m). split.
  - destruct (find_sub (pad_of m) rest) as [i|] eqn:Ei; [|done]. cbn [fmap option_fmap option_map]. intros Hr. rinv.
    assert (Hother : match find_sub (pad_of m') rest with Some o => (o <? i)%nat | None => false end = false).
    { destruct (find_sub (pad_of m') rest) as [o|]; [|done]. cbn in Hv. apply Nat.ltb_ge in Hv. apply Nat.ltb_ge. lia. }
    destruct (clean_before m m' rest i Hne Ei Hother) as [Erest Hclean].
    assert (Hi : length (take i rest) = i).
    { apply find_sub_Some in Ei as (_ & ? & _). rewrite length_take. lia. }
    exists (take i rest), (drop (i + length (pad_of m)) rest), v0, v1.
    split; [done|]. split; [done|]. split; [done|]. split.
    + rewrite <- Hr. f_equal; [|rewrite !length_app, Hi; lia]. f_equal. rewrite take_app_add, drop_app_ge by lia.
      rewrite <- app_assoc. do 3 f_equal. f_equal. lia.
    + destruct c as [c|]; [|by injection Hv1 as <-]. cbv zeta in *. rewrite length_app, Hi. rinv. subst v1.
      destruct (length done_ + i + length (pad_of m) <=? offset c)%nat eqn:El.
      * right. apply Nat.leb_le in El. split; [lia|done].
      * left. apply Nat.leb_gt in El. split; [|done]. destruct Hv2 as [Hv2|Hv2]; apply Nat.ltb_ge in Hv2; lia.
  - intros (p & rest' & e & c' & -> & Hp & He & -> & Hc). fold m in Hc |- *. rewrite find_hole by done.
    cbn [fmap option_fmap option_map]. rewrite He. cbn [rbind].
    assert (Hthrow : match (fun i => (length done_ + i)%nat) <$> find_sub (pad_of m') (p ++ pad_of m ++ rest') with
      | Some o => (o <? length done_ + length p)%nat | None => false end = false).
    { destruct (find_sub (pad_of m') _) as [o|] eqn:Eo; [|done]. apply find_other in Eo; [|done]. cbn. apply Nat.ltb_ge. lia. }
    cbn [fmap option_fmap option_map] in Hthrow. rewrite Hthrow. cbn [throw_if rbind].
    assert (Htext : take (length done_ + length p) (done_ ++ p ++ pad_of m ++ rest') ++ e ++
              drop (length done_ + length p + length (pad_of m)) (done_ ++ p ++ pad_of m ++ rest') = done_ ++ p ++ e ++ rest').
    { rewrite !app_assoc, <- (app_assoc _ (pad_of m)), <- length_app, take_app_length, <- drop_drop, drop_app_length.
      by rewrite drop_app_length, <- !app_assoc. }
    destruct c as [c|]; cbn [rbind].
    + rewrite length_app in Hc. destruct Hc as [[Hle ->]|[Hge ->]].
      * assert ((length done_ + length p <? offset c)%nat = false) as -> by (apply Nat.ltb_ge; lia). cbn [andb throw_if rbind].
        assert ((length done_ + length p + length (pad_of m) <=? offset c)%nat = false) as ->.
        { apply Nat.leb_gt. pose proof (pad_nonempty m). destruct (pad_of m); [done|]. cbn. lia. }
        rewrite Htext. do 2 f_equal. rewrite !length_app. lia.
      * assert ((offset c <? length done_ + length p + length (pad_of m))%nat = false) as -> by (apply Nat.ltb_ge; lia).
        rewrite andb_false_r. cbn [throw_if rbind].
        assert ((length done_ + length p + length (pad_of m) <=? offset c)%nat = true) as -> by (apply Nat.leb_le; lia).
        rewrite Htext. do 2 f_equal. rewrite !length_app. lia.
    + subst c'. rewrite Htext. do 2 f_equal. rewrite !length_app. lia.
Qed.

Lemma expands_zero items t out b : expands items t out 0 b -> b = 0%nat.
Proof.
  inversion 1 as [|?|item its p e rest o b0 b0' Hc He Hx E1 E2 E3 Hb]; subst; try done.
  pose proof (pad_nonempty (modality item)). destruct (pad_of (modality item)); [done|]. cbn in Hb. lia.
Qed.

(** In both forms of [moved] the boundary is where the expansion puts it. *)
Lemma moved_at c done_ items rest out c' b : moved (Some c) done_ items rest out (Some c') -> offset c = (done_ + b)%nat ->
  exists b', offset c' = (done_ + b')%nat /\ expands items rest out b b' /\ cp_kind c' = cp_kind c.
Proof.
  intros (Hk & [(Hle & Ho & He)|(b0 & b' & Hb & Hb' & He)]) Hoff.
  - assert (b = 0%nat) as -> by lia. exists 0%nat. split; [lia|done].
  - assert (b0 = b) as -> by lia. by exists b'.
Qed.

Definition in_range (c : option RewriteCheckpointByteSpec) (n : nat) : Prop := forall x, c = Some x -> (offset x <= n)%nat.

Lemma finish_Ok done_ rest c chat : in_range c (length (done_ ++ rest)) ->
  finish_expansion (mkRendered (done_ ++ rest) c, length done_) = Ok chat <->
  exists out, text chat = done_ ++ out /\ moved c (length done_) [] rest out (rewrite_checkpoint chat).
Proof.
  intros Hr. assert (Hfin : finish_expansion (mkRendered (done_ ++ rest) c, length done_) = Ok chat <->
    clean rest /\ chat = mkRendered (done_ ++ rest) c).
  { unfold finish_expansion. cbn [text]. rewrite !find_from_done. change kImagePad with (pad_of Image). change kVideoPad with (pad_of Video).
    split.
    - destruct (find_sub (pad_of Image) rest) eqn:E1; [done|]. destruct (find_sub (pad_of Video) rest) eqn:E2; [done|].
      intros [= <-]. split; [|done]. intros m j Ho.
      rewrite find_sub_None in E1, E2 by apply pad_nonempty. destruct m; [by apply (E1 j)|by apply (E2 j)].
    - intros [Hc ->]. by rewrite !find_clean. }
  rewrite Hfin. split.
  - intros [Hc ->]. exists rest. split; [done|]. destruct c as [c|]; cbn.
    + split; [done|]. specialize (Hr c eq_refl). rewrite length_app in Hr.
      destruct (decide (offset c <= length done_)%nat); [left; split; [done|]; split; [done|constructor; [done|lia]]|right].
      exists (offset c - length done_)%nat, (offset c - length done_)%nat. split; [lia|]. split; [lia|]. constructor; [done|lia].
    + constructor; [done|lia].
  - intros (out & Ht & Hm). destruct chat as [t c']. cbn in *. subst t.
    assert (exists b b', expands [] rest out b b' /\ (c = None /\ c' = None \/ exists x x', c = Some x /\ c' = Some x' /\ cp_kind x' = cp_kind x /\
      (offset x' = offset x \/ offset x = length done_ + b /\ offset x' = length done_ + b')%nat)) as (b & b' & He & Hc').
    { destruct c as [[k o]|], c' as [[k' o']|]; cbn in Hm; try done.
      - destruct Hm as (Hk & [(? & Ho & He)|(b & b' & ? & ? & He)]); [exists 0%nat, 0%nat|exists b, b']; (split; [done|right; eauto 10]).
      - exists 0%nat, 0%nat. split; [done|by left]. }
    inversion He; subst. split; [done|]. f_equal. destruct Hc' as [[-> ->]|([k o] & [k' o'] & -> & -> & Hk & Ho)]; [done|]. cbn in *.
    subst k'. do 2 f_equal. lia.
Qed.

Lemma expand_loop items : forall done_ rest c chat, in_range c (length (done_ ++ rest)) ->
  (let* r := rfoldl expand_item (mkRendered (done_ ++ rest) c, length done_) items in finish_expansion r) = Ok chat <->
  exists out, text chat = done_ ++ out /\ moved c (length done_) items rest out (rewrite_checkpoint chat).
Proof.
  induction items as [|item items IH]; intros done_ rest c chat Hr; cbn [rfoldl].
  { cbn [rbind]. by apply finish_Ok. }
  rewrite rbind_assoc, rbind_Ok. split.
  - intros (st & (p & rest' & e & c1 & -> & Hp & He & -> & Hc)%expand_item_Ok & Hloop).
    assert (HD : done_ ++ p ++ e ++ rest' = (done_ ++ p ++ e) ++ rest') by by rewrite <- !app_assoc.
    rewrite HD in Hloop.
    apply IH in Hloop as (out & Htext & Hm).
    2: { intros x ->. destruct c as [c|]; [|done]. specialize (Hr c eq_refl). rewrite !length_app in *.
         destruct Hc as [[Hle [= ->]]|[Hge [= ->]]]; cbn; lia. }
    exists (p ++ e ++ out). split; [by rewrite Htext, <- !app_assoc|]. destruct c as [c|].
    + destruct c1 as [c1|]; [|by destruct Hc as [[_ [=]]|[_ [=]]]].
      destruct (rewrite_checkpoint chat) as [c'|]; [|done]. rewrite !length_app in *.
      destruct Hc as [[Hle [= <-]]|[Hge [= ->]]].
      * destruct (proj2 Hm) as [(_ & Ho & Hx)|(b & b' & Hb & Hb' & Hx)].
        -- split; [apply Hm|]. destruct (decide (offset c1 <= length done_)%nat).
           ++ left. split; [done|]. split; [done|]. apply expands_before; [done..|lia].
           ++ right. exists (offset c1 - length done_)%nat, (offset c1 - length done_)%nat. split; [lia|]. split; [lia|].
              apply expands_before; [done..|lia].
        -- assert (b = 0%nat) as -> by lia. apply expands_zero in Hx as Hz. subst b'.
           split; [apply Hm|]. right. exists (length p), (length p). split; [lia|]. split; [lia|]. by apply expands_before.
      * destruct (moved_at _ _ _ _ _ _ (offset c - length done_ - length p - length (pad_of (modality item))) Hm) as (b' & Hb' & Hx & Hk).
        { cbn. lia. }
        split; [done|]. right.
        exists (length p + length (pad_of (modality item)) + (offset c - length done_ - length p - length (pad_of (modality item))))%nat,
          (length p + length e + b')%nat.
        split; [lia|]. split; [lia|]. by apply expands_after.
    + subst c1. destruct (rewrite_checkpoint chat); [done|]. cbn in *. apply expands_before; [done..|lia].
  - intros (out & Htext & Hm).
    assert (exists p rest' e out1, rest = p ++ pad_of (modality item) ++ rest' /\ out = p ++ e ++ out1 /\ clean p /\ placeholder item = Ok e /\
      exists c1, moved c1 (length (done_ ++ p ++ e)) items rest' out1 (rewrite_checkpoint chat) /\
        match c with
        | None => c1 = None
        | Some c =>
            let position := length (done_ ++ p) in
            ((offset c <= position)%nat /\ c1 = Some c) \/
            ((position + length (pad_of (modality item)) <= offset c)%nat /\
             c1 = Some (mkByteSpec (cp_kind c) (offset c - length (pad_of (modality item)) + length e)))
        end) as (p & rest' & e & out1 & -> & -> & Hp & He & c1 & Hm1 & Hc1).
    { clear IH. destruct c as [c|], (rewrite_checkpoint chat) as [c'|]; cbn [moved] in Hm; try done.
      - destruct Hm as (Hk & [(Hle & Ho & Hx)|(b & b' & Hb & Hb' & Hx)]).
        + inversion Hx as [|? ? p e rest' out1 b Hp He Hx' Hb|? ? p e rest' out1 b b' Hp He Hx' E1 E2 E3 Eb Eb']; subst.
          * exists p, rest', e, out1. split_and!; try done. exists (Some c). cbn [moved]. rewrite !length_app. split; [|left; split; [lia|done]].
            split; [done|]. left. split; [lia|done].
          * pose proof (pad_nonempty (modality item)). destruct (pad_of (modality item)); [done|]. cbn in Eb. lia.
        + inversion Hx as [|? ? p e rest' out1 b0 Hp He Hx' Hb0|? ? p e rest' out1 b0 b0' Hp He Hx']; subst.
          * exists p, rest', e, out1. split_and!; try done. exists (Some c). cbn [moved]. rewrite !length_app. split; [|left; split; [lia|done]].
            split; [done|]. left. split; [lia|]. split; [lia|done].
          * exists p, rest', e, out1. split_and!; try done.
            exists (Some (mkByteSpec (cp_kind c) (offset c - length (pad_of (modality item)) + length e))). cbn [moved]. rewrite !length_app.
            split; [|right; split; [lia|done]]. split; [done|]. right. exists b0, b0'. cbn. split; [lia|]. split; [lia|done].
      - inversion Hm as [|? ? p e rest' out1 b Hp He Hx' Hb|? ? p e rest' out1 b b' Hp He Hx' E1 E2 E3 Eb Eb']; subst.
        + exists p, rest', e, out1. split_and!; try done. by exists None.
        + pose proof (pad_nonempty (modality item)). destruct (pad_of (modality item)); [done|]. cbn in Eb. lia. }
    exists (mkRendered (done_ ++ p ++ e ++ rest') c1, length (done_ ++ p ++ e)). split.
    { apply expand_item_Ok. eauto 10. }
    assert (HD : done_ ++ p ++ e ++ rest' = (done_ ++ p ++ e) ++ rest') by by rewrite <- !app_assoc.
    rewrite HD. apply IH; [|exists out1; split; [by rewrite Htext, <- !app_assoc|done]].
    intros x ->. destruct c as [c|]; [|done]. specialize (Hr c eq_refl). rewrite !length_app in *.
    destruct Hc1 as [[Hle [= ->]]|[Hge [= ->]]]; cbn; lia.
Qed.

(** The boundary divides the items, and the expansion, into what is before it and what is after it. *)
Lemma expands_split items t out b b' : expands items t out b b' -> exists before after,
  items = before ++ after /\ expands before (take b t) (take b' out) b b' /\ expands after (drop b t) (drop b' out) 0 0.
Proof.
  induction 1 as [p b Hp Hb|item items p e rest out b Hp He Hx _ Hb|item items p e rest out b b' Hp He Hx (l1 & l2 & -> & H1 & H2)].
  - rewrite <- (take_drop b p) in Hp. apply clean_app_inv in Hp as [H1 H2].
    exists [], []. split; [done|]. split; constructor; try done; try lia. rewrite length_take. lia.
  - exists [], (item :: items). split; [done|]. rewrite <- (take_drop b p) in Hp. apply clean_app_inv in Hp as [H1 H2].
    rewrite !take_app_le, !drop_app_le by lia. split; [constructor; [done|rewrite length_take; lia]|].
    apply expands_before; [done..|lia].
  - exists (item :: l1), l2. split; [done|].
    rewrite <- !Nat.add_assoc, !take_app_add, !drop_app_add. split; [|done]. rewrite !Nat.add_assoc. by apply expands_after.
Qed.

(** the placeholders of a rendered conversation are expanded, each by the tokens of the medium of its place
    and nothing else: expanding succeeds exactly when the placeholders of the text are those of the items, in
    order, and the checkpoint is not inside of one; what is between the placeholders stays as it is, and the
    checkpoint moves so that the text before it is the expansion of the text that was before it, and the text
    after it of the text that was after it. *)
Theorem expand_placeholders_exact rendered items chat : in_range (rewrite_checkpoint rendered) (length (text rendered)) ->
  (expand_placeholders rendered items = Ok chat <->
   match rewrite_checkpoint rendered, rewrite_checkpoint chat with
   | None, None => expands items (text rendered) (text chat) 0 0
   | Some c, Some c' => cp_kind c' = cp_kind c /\ expands items (text rendered) (text chat) (offset c) (offset c')
   | _, _ => False
   end) /\
  (forall c c', expand_placeholders rendered items = Ok chat ->
   rewrite_checkpoint rendered = Some c -> rewrite_checkpoint chat = Some c' ->
   exists before after, items = before ++ after /\
     expands before (take (offset c) (text rendered)) (take (offset c') (text chat)) (offset c) (offset c') /\
     expands after (drop (offset c) (text rendered)) (drop (offset c') (text chat)) 0 0).
Proof.
  intros Hr. assert (Hiff : expand_placeholders rendered items = Ok chat <->
   match rewrite_checkpoint rendered, rewrite_checkpoint chat with
   | None, None => expands items (text rendered) (text chat) 0 0
   | Some c, Some c' => cp_kind c' = cp_kind c /\ expands items (text rendered) (text chat) (offset c) (offset c')
   | _, _ => False
   end).
  { destruct rendered as [t c]. cbn [text rewrite_checkpoint] in *. pose proof (expand_loop items [] t c chat Hr) as Hl.
    cbn [app length] in Hl. unfold expand_placeholders. etransitivity; [exact Hl|]. split.
    - intros (out & -> & Hm). destruct c as [c|], (rewrite_checkpoint chat) as [c'|]; try done.
      destruct (moved_at _ _ _ _ _ _ (offset c) Hm eq_refl) as (b' & Hb' & Hx & Hk).
      split; [done|]. by rewrite Hb'.
    - intros Hx. exists (text chat). split; [done|]. destruct c as [c|], (rewrite_checkpoint chat) as [c'|]; try done.
      destruct Hx as [Hk Hx]. split; [done|]. right. eauto. }
  split; [done|]. intros c c' Hok Ec Ec'. apply Hiff in Hok. rewrite Ec, Ec' in Hok. exact (expands_split _ _ _ _ _ (proj2 Hok)).
Qed.
End Expansion.

(** An image of two merged patches, with the checkpoint after it. *)
Definition example_item : VisionItem := mkVisionItem Image (mkGrid 1 2 4) 0 8 [] [] [].
Definition example_chat : RenderedChat := mkRendered (bytes_of "a<|image_pad|>b") (Some (mkByteSpec TurnClosure 14)).
Definition example_expanded : RenderedChat :=
  mkRendered (bytes_of "a<|image_pad|><|image_pad|>b") (Some (mkByteSpec TurnClosure 27)).
#[local] Instance example_timestamps : TimestampText := fun _ => [].

Lemma expand_placeholders_exact_witness :
  in_range (rewrite_checkpoint example_chat) (length (text example_chat)) /\
  expands [example_item] (text example_chat) (text example_expanded) 14 27.
Proof.
  assert (Hr : in_range (rewrite_checkpoint example_chat) (length (text example_chat))).
  { intros x [= <-]. vm_compute. lia. }
  split; [exact Hr|]. pose proof (expand_placeholders_exact example_chat [example_item] example_expanded Hr) as [H _].
  assert (E : expand_placeholders example_chat [example_item] = Ok example_expanded) by (vm_compute; reflexivity).
  exact (proj2 (proj1 H E)).
Defined.
