(* ===== verification/PositionProofs.v ===== *)
(** * The positions of the tokens of a prompt with media

    [assign_positions] against a reference: the runs of equal token types, each bound to its medium, and the
    three position axes that follow from them. *)
From stdpp Require Import gmap.
From S2P Require Import Prelude Unicode Admission Capacity Contract Output Tokenizer PrefixIdentity ToolCalls Digest ChatTemplate MediaCache Processor.
#[local] Open Scope Z_scope.
#[local] Open Scope ninfer_scope.

(** ** The reference *)

(** The maximal runs of equal types. *)
Fixpoint runs_of (types : list Z) : list (Z * nat) :=
  match types with
  | [] => []
  | t :: types' =>
      match runs_of types' with
      | (t', n) :: runs => if t' =? t then (t, S n) :: runs else (t, 1%nat) :: (t', n) :: runs
      | [] => [(t, 1%nat)]
      end
  end.

(** The merged patches of one frame. *)
Definition merged_grid (item : VisionItem) : Z * Z := (height (grid item) / kMerge, width (grid item) / kMerge).

Definition items_of (m : PromptModality) (items : list VisionItem) : list VisionItem := filter (fun i => modality i = m) items.
Definition frame_count (item : VisionItem) : nat := Z.to_nat (temporal (grid item)).
Definition frames_of (items : list VisionItem) : list (Z * Z) :=
  concat ((fun i => replicate (frame_count i) (merged_grid i)) <$> items).

(** Each run of text as it is; each run of an image, of one frame of a video, with the grid of the next one. *)
Fixpoint bind_runs (runs : list (Z * nat)) (images frames : list (Z * Z)) : option (list (nat * option (Z * Z))) :=
  match runs with
  | [] => match images, frames with [], [] => Some [] | _, _ => None end
  | (t, n) :: runs' =>
      let take_grid grids rest :=
        match grids with
        | [] => None
        | g :: grids' => if Z.of_nat n =? g.1 * g.2 then cons (n, Some g) <$> rest grids' else None
        end in
      if t =? 0 then cons (n, None) <$> bind_runs runs' images frames
      else if t =? 1 then take_grid images (fun images' => bind_runs runs' images' frames)
      else if t =? 2 then take_grid frames (fun frames' => bind_runs runs' images frames')
      else None
  end.

Definition text_positions (base : Z) (n : nat) : list (Z * Z * Z) := (fun i => (base + i, base + i, base + i)) <$> seqZ 0 (Z.of_nat n).
Definition grid_positions (base gh gw : Z) : list (Z * Z * Z) :=
  concat ((fun y => (fun x => (base, base + y, base + x)) <$> seqZ 0 gw) <$> seqZ 0 gh).

(** The temporal, height and width positions of every token. *)
Fixpoint mrope (base : Z) (runs : list (nat * option (Z * Z))) : list (Z * Z * Z) :=
  match runs with
  | [] => []
  | (n, None) :: runs' => text_positions base n ++ mrope (base + Z.of_nat n) runs'
  | (_, Some (gh, gw)) :: runs' => grid_positions base gh gw ++ mrope (base + Z.max gh gw) runs'
  end.

Definition axis_major (l : list (Z * Z * Z)) : list Z := ((fun v => v.1.1) <$> l) ++ ((fun v => v.1.2) <$> l) ++ (snd <$> l).
Definition greatest (m : Z) (v : Z * Z * Z) : Z := Z.max m (Z.max v.1.1 (Z.max v.1.2 v.2)).

(** The spans of the runs of a type. *)
Fixpoint spans_of (ty : Z) (begin : nat) (runs : list (Z * nat)) : list TokenSpan :=
  match runs with
  | [] => []
  | (t, n) :: runs' =>
      (if t =? ty then [mkTokenSpan (Z.of_nat begin) (Z.of_nat n)] else []) ++ spans_of ty (begin + n) runs'
  end.

(** ** Runs *)

Lemma runs_of_cons t types : runs_of (t :: types) = (t, S (run_length t types)) :: runs_of (drop (run_length t types) types).
Proof.
  revert t. induction types as [|x types IH]; intros t; [done|].
  change (runs_of (t :: x :: types)) with (match runs_of (x :: types) with
    | (t', n) :: runs => if t' =? t then (t, S n) :: runs else (t, 1%nat) :: (t', n) :: runs
    | [] => [(t, 1%nat)] end).
  rewrite IH. cbn [run_length]. destruct (Z.eqb_spec x t) as [->|Hne]; cbn; [done|]. by rewrite <- IH.
Qed.

Lemma run_length_le t types : (run_length t types <= length types)%nat.
Proof. induction types as [|x types IH]; cbn; [lia|]. destruct (x =? t); lia. Qed.

Definition total (runs : list (Z * nat)) : nat := foldr (fun r n => r.2 + n)%nat 0%nat runs.

Lemma runs_total types : total (runs_of types) = length types.
Proof.
  induction types as [|t types IH]; [done|]. cbn. destruct (runs_of types) as [|[t' n] runs]; cbn in *; [lia|].
  destruct (t' =? t); cbn; lia.
Qed.

Lemma runs_positive types : Forall (fun r => (0 < r.2)%nat) (runs_of types).
Proof.
  induction types as [|t types IH]; [constructor|]. cbn. destruct (runs_of types) as [|[t' n] runs]; [by repeat constructor; lia|].
  destruct (t' =? t); [apply Forall_cons in IH as [? ?]; constructor; [cbn; lia|done]|]. constructor; [cbn; lia|done].
Qed.

Definition run_step (n begin : nat) (run : Z * nat) (st : PositionState) : result PositionState :=
  if run.1 =? 0 then Ok (text_run n begin run.2 st) else media_run n begin run.2 run.1 st.

Fixpoint fold_runs (n begin : nat) (runs : list (Z * nat)) (st : PositionState) : result PositionState :=
  match runs with
  | [] => Ok st
  | run :: runs' => let* st := run_step n begin run st in fold_runs n (begin + run.2) runs' st
  end.

Lemma position_runs_eq n fuel : forall begin types st, (length types <= fuel)%nat ->
  position_runs fuel n begin types st = fold_runs n begin (runs_of types) st.
Proof.
  induction fuel as [|fuel IH]; intros begin types st Hf; destruct types as [|t types]; try done; [cbn in Hf; lia|].
  rewrite runs_of_cons. cbn [position_runs fold_runs]. unfold run_step. cbn [fst snd].
  destruct (if t =? 0 then _ else _) as [st'|e]; [|done]. cbn [rbind drop]. apply IH.
  cbn in Hf. rewrite length_drop. lia.
Qed.

(** ** The axes *)

Definition padded (n : nat) (l : list Z) : list Z := l ++ replicate (n - length l) 0.
Definition lay (n : nat) (l : list (Z * Z * Z)) : list Z :=
  padded n ((fun v => v.1.1) <$> l) ++ padded n ((fun v => v.1.2) <$> l) ++ padded n (snd <$> l).

Lemma padded_length n l : (length l <= n)%nat -> length (padded n l) = n.
Proof. intros Hl. unfold padded. rewrite length_app, length_replicate. lia. Qed.

Lemma padded_set n l x : (length l < n)%nat -> <[length l := x]> (padded n l) = padded n (l ++ [x]).
Proof.
  intros Hl. unfold padded. rewrite length_app. cbn. replace (n - length l)%nat with (S (n - (length l + 1))) by lia.
  cbn [replicate]. rewrite insert_app_r_alt by lia. rewrite Nat.sub_diag. cbn. by rewrite <- app_assoc.
Qed.

Lemma set_axes n k a b c (A B C : list Z) : length A = n -> length B = n -> (k < n)%nat ->
  set_position n 2 k c (set_position n 1 k b (set_position n 0 k a (A ++ B ++ C))) = <[k := a]> A ++ <[k := b]> B ++ <[k := c]> C.
Proof.
  intros HA HB Hk. unfold set_position. replace (0 * n + k)%nat with k by lia. rewrite insert_app_l by lia.
  assert (HA' : length (<[k := a]> A) = n) by by rewrite length_insert.
  assert (HB' : length (<[k := b]> B) = n) by by rewrite length_insert.
  replace (1 * n + k)%nat with (length (<[k := a]> A) + k)%nat by lia. rewrite insert_app_r, (insert_app_l B C) by lia.
  replace (2 * n + k)%nat with (length (<[k := a]> A) + (length (<[k := b]> B) + k))%nat by lia. by rewrite !insert_app_r.
Qed.

Lemma lay_set n l a b c : (length l < n)%nat ->
  set_position n 2 (length l) c (set_position n 1 (length l) b (set_position n 0 (length l) a (lay n l))) = lay n (l ++ [(a, b, c)]).
Proof.
  intros Hl. assert (Hset : forall (f : Z * Z * Z -> Z) x, <[length l := x]> (padded n (f <$> l)) = padded n ((f <$> l) ++ [x])).
  { intros f x. rewrite <- (length_fmap f l). apply padded_set. by rewrite length_fmap. }
  assert (Hlen : forall f : Z * Z * Z -> Z, length (padded n (f <$> l)) = n).
  { intros f. apply padded_length. rewrite length_fmap. lia. }
  unfold lay. rewrite set_axes by (apply Hlen || exact Hl). by rewrite !Hset, !fmap_app.
Qed.

Lemma lay_empty n : lay n [] = replicate (n * 3) 0.
Proof. unfold lay, padded. cbn. rewrite Nat.sub_0_r, <- !replicate_add. f_equal. lia. Qed.

Lemma lay_full n l : length l = n -> lay n l = axis_major l.
Proof. intros <-. unfold lay, padded, axis_major. rewrite !length_fmap, Nat.sub_diag. cbn. by rewrite !app_nil_r. Qed.

(** A token gets its three positions. *)
Definition put (n : nat) (acc : list Z * Z * nat) (v : Z * Z * Z) : list Z * Z * nat :=
  (set_position n 2 acc.2 v.2 (set_position n 1 acc.2 v.1.2 (set_position n 0 acc.2 v.1.1 acc.1.1)), greatest acc.1.2 v, S acc.2).

Lemma put_all n vs : forall l m, (length l + length vs <= n)%nat ->
  foldl (put n) (lay n l, m, length l) vs = (lay n (l ++ vs), foldl greatest m vs, (length l + length vs)%nat).
Proof.
  induction vs as [|[[a b] c] vs IH]; intros l m Hl; cbn in Hl.
  { cbn. by rewrite app_nil_r, Nat.add_0_r. }
  cbn [foldl]. unfold put at 2. cbn [fst snd]. rewrite lay_set by lia.
  replace (S (length l)) with (length (l ++ [(a, b, c)])) by (rewrite length_app; cbn; lia).
  rewrite IH by (rewrite length_app; cbn; lia). rewrite <- app_assoc, length_app. cbn [app length foldl]. apply (f_equal2 pair); [done|lia].
Qed.

Lemma foldl_concat {A B C} (f : A -> B -> A) (g : C -> list B) acc l :
  foldl (fun acc y => foldl f acc (g y)) acc l = foldl f acc (concat (g <$> l)).
Proof. revert acc. induction l as [|y l IH]; intros acc; [done|]. cbn. by rewrite foldl_app, IH. Qed.

Lemma foldl_map {A B C} (f : A -> B -> A) (g : C -> B) acc l : foldl (fun acc x => f acc (g x)) acc l = foldl f acc (g <$> l).
Proof. revert acc. induction l as [|x l IH]; intros acc; [done|]. cbn. by rewrite IH. Qed.

Lemma media_positions_eq n begin gh gw base acc : media_positions n begin gh gw base acc = foldl (put n) acc (grid_positions base gh gw).
Proof.
  unfold media_positions. change (seqZ 0 1) with [0]. cbn [foldl]. unfold grid_positions. rewrite <- foldl_concat.
  apply foldl_ext. intros a y. rewrite <- foldl_map. apply foldl_ext. intros [[ax m] i] x. unfold put, greatest. cbn [fst snd].
  by rewrite Z.add_0_r.
Qed.

Lemma grid_positions_length base gh gw : 0 <= gh -> 0 <= gw -> Z.of_nat (length (grid_positions base gh gw)) = gh * gw.
Proof.
  intros Hh Hw. unfold grid_positions. rewrite <- (Z2Nat.id gh Hh) at 2. rewrite <- (length_seqZ 0 gh).
  induction (seqZ 0 gh) as [|y l IH]; [done|]. cbn [fmap list_fmap concat length]. rewrite length_app, length_fmap, length_seqZ. lia.
Qed.

Lemma text_positions_length base n : length (text_positions base n) = n.
Proof. unfold text_positions. rewrite length_fmap, length_seqZ. lia. Qed.

Lemma text_run_eq n begin count st l : axes st = lay n l -> begin = length l -> (begin + count <= n)%nat ->
  text_run n begin count st =
  mkPositionState (image_index st) (video_index st) (video_t st) (current st + Z.of_nat count)
    (foldl greatest (maximum st) (text_positions (current st) count)) (lay n (l ++ text_positions (current st) count)) (bound st).
Proof.
  intros Ha -> Hn. unfold text_run. rewrite Ha.
  assert (Hfold : forall vs k l' m, (length l' + length vs <= n)%nat -> vs = (fun i => (current st + Z.of_nat i, current st + Z.of_nat i, current st + Z.of_nat i)) <$> seq k (length vs) ->
    length l' = (length l + k)%nat ->
    foldl (fun acc i => (foldl (fun axes axis => set_position n axis (length l + i) (current st + Z.of_nat i) axes) acc.1 [0; 1; 2]%nat,
       Z.max acc.2 (current st + Z.of_nat i))) (lay n l', m) (seq k (length vs)) = (lay n (l' ++ vs), foldl greatest m vs)).
  { induction vs as [|v vs IH]; intros k l' m Hlen Hvs Hk; cbn [length seq foldl]; [by rewrite app_nil_r|].
    cbn [length seq fmap list_fmap] in Hvs. injection Hvs as -> Hvs. cbn [fst snd]. rewrite <- Hk, lay_set by (cbn in Hlen; lia).
    cbn in Hlen. rewrite IH; [|rewrite length_app; cbn; lia|exact Hvs|rewrite length_app; cbn; lia].
    rewrite <- app_assoc. cbn [app foldl]. unfold greatest at 3. cbn [fst snd]. by rewrite !Z.max_id. }
  assert (Hvs : text_positions (current st) count = (fun i => (current st + Z.of_nat i, current st + Z.of_nat i, current st + Z.of_nat i)) <$> seq 0 count).
  { unfold text_positions, seqZ. rewrite Nat2Z.id, <- list_fmap_compose. apply list_fmap_ext. intros i x _. cbn.
    by rewrite Z.add_0_r. }
  specialize (Hfold (text_positions (current st) count) 0%nat l (maximum st)). rewrite text_positions_length in Hfold.
  rewrite Hfold; [done|done|exact Hvs|lia].
Qed.

(** ** The cursors *)

Lemma items_of_app m l k : items_of m (l ++ k) = items_of m l ++ items_of m k.
Proof. apply filter_app. Qed.

Lemma items_of_cons_eq m item l : modality item = m -> items_of m (item :: l) = item :: items_of m l.
Proof. intros Hm. unfold items_of. by rewrite filter_cons, decide_True. Qed.
Lemma items_of_cons_ne m item l : modality item <> m -> items_of m (item :: l) = items_of m l.
Proof. intros Hm. unfold items_of. by rewrite filter_cons, decide_False. Qed.

Lemma next_item_spec m l : forall k,
  match next_item m l k with
  | None => items_of m l = []
  | Some i => exists p item s, l = p ++ item :: s /\ i = (k + length p)%nat /\ modality item = m /\ items_of m p = []
  end.
Proof.
  induction l as [|x l IH]; intros k; cbn [next_item]; [done|]. case_bool_decide as Hx.
  - exists [], x, l. split; [done|]. split; [cbn; lia|done].
  - specialize (IH (S k)). destruct (next_item m l (S k)) as [i|].
    + destruct IH as (p & item & s & -> & -> & Hm & Hp). exists (x :: p), item, s. split; [done|]. split; [cbn; lia|]. split; [done|].
      by rewrite items_of_cons_ne.
    + by rewrite items_of_cons_ne.
Qed.

(** The next item of a modality from a cursor on, as a division of the items. *)
Lemma next_item_Some m k items i : (k <= length items)%nat -> next_item m (drop k items) k = Some i ->
  exists a item s, items = a ++ item :: s /\ length a = i /\ modality item = m /\
    items_of m a = items_of m (take k items) /\ items_of m (drop k items) = item :: items_of m s.
Proof.
  intros Hk Hn. pose proof (next_item_spec m (drop k items) k) as H. rewrite Hn in H.
  destruct H as (p & item & s & Hd & -> & Hm & Hp). exists (take k items ++ p), item, s. split; [|split; [|split; [done|split]]].
  - by rewrite <- app_assoc, <- Hd, take_drop.
  - rewrite length_app, length_take. lia.
  - by rewrite items_of_app, Hp, app_nil_r.
  - rewrite Hd, items_of_app, Hp, items_of_cons_eq by done. done.
Qed.

(** Replacing an item changes the items of its own modality only, wherever they are divided. *)
Lemma items_of_replace m a item item' s : modality item <> m -> modality item' <> m ->
  forall k, items_of m (take k (a ++ item' :: s)) = items_of m (take k (a ++ item :: s)) /\
            items_of m (drop k (a ++ item' :: s)) = items_of m (drop k (a ++ item :: s)).
Proof.
  intros H1 H2 k. destruct (decide (k <= length a)%nat) as [Hk|Hk].
  - rewrite !take_app_le, !drop_app_le by done. split; [done|]. by rewrite !items_of_app, !items_of_cons_ne.
  - rewrite !take_app_ge, !drop_app_ge by lia. replace (k - length a)%nat with (S (k - length a - 1)) by lia. cbn [take drop].
    by rewrite !items_of_app, !items_of_cons_ne.
Qed.

(** ** The state of the loop *)

(** The spans an item of a modality has in the end. *)
Definition span_count (item : VisionItem) : nat := match modality item with Image => 1 | Video => frame_count item end.

Definition item_ok (item : VisionItem) : Prop :=
  0 <= height (grid item) <= i32_max /\ 0 <= width (grid item) <= i32_max /\
  (modality item = Video -> 1 <= temporal (grid item) <= i32_max).

Definition spans_in (items : list VisionItem) : list TokenSpan := concat (token_spans <$> items).

(** The items of the modality [m] divided at [k]: those before have all their spans; of those after, the first has
    the spans of [used] of its frames, and the others none. *)
Record cursor_ok (m : PromptModality) (k used : nat) (items : list VisionItem) (spans : list TokenSpan) : Prop := {
  cursor_range : (k <= length items)%nat;
  cursor_before : Forall (fun i => length (token_spans i) = span_count i) (items_of m (take k items));
  cursor_after : match items_of m (drop k items) with
    | [] => used = 0%nat
    | i :: rest => length (token_spans i) = used /\ (used < span_count i)%nat /\ Forall (fun i => token_spans i = []) rest
    end;
  cursor_spans : spans_in (items_of m items) = spans;
}.

Lemma spans_in_app a b : spans_in (a ++ b) = spans_in a ++ spans_in b.
Proof. unfold spans_in. by rewrite fmap_app, concat_app. Qed.

Lemma spans_in_none l : Forall (fun i => token_spans i = []) l -> spans_in l = [].
Proof. induction 1 as [|i l Hi _ IH]; [done|]. unfold spans_in in *. cbn. by rewrite Hi, IH. Qed.

Lemma push_span_same s item : modality (push_span s item) = modality item /\ merged_grid (push_span s item) = merged_grid item /\
  frame_count (push_span s item) = frame_count item /\ span_count (push_span s item) = span_count item /\
  token_spans (push_span s item) = token_spans item ++ [s].
Proof. done. Qed.

(** The item at the cursor gets a span. *)
Lemma cursor_push m k used items spans i s :
  cursor_ok m k used items spans -> next_item m (drop k items) k = Some i -> Forall item_ok items ->
  exists item, items !! i = Some item /\ modality item = m /\ item_ok item /\
    items_of m (drop k items) = item :: items_of m (drop (S i) items) /\ (used < span_count item)%nat /\
    (if (S used =? span_count item)%nat then cursor_ok m (S i) 0 (<[i := push_span s item]> items) (spans ++ [s])
     else cursor_ok m i (S used) (<[i := push_span s item]> items) (spans ++ [s])) /\
    items_of m (drop (S i) (<[i := push_span s item]> items)) = items_of m (drop (S i) items) /\
    items_of m (drop i (<[i := push_span s item]> items)) = push_span s item :: items_of m (drop (S i) items).
Proof.
  intros [Hr Hb Ha Hs] Hn Hok. destruct (next_item_Some m k items i Hr Hn) as (a & item & l & Hitems & <- & Hm & Hta & Hda).
  rewrite Hda in Ha. destruct Ha as (Hlen & Hlt & Hnone).
  assert (Hok' : item_ok item) by (rewrite Hitems in Hok; apply Forall_app in Hok as [_ Hok]; by apply Forall_cons in Hok as [? _]).
  assert (Hpos : (0 < span_count item)%nat) by lia.
  assert (Hins : <[length a := push_span s item]> items = a ++ push_span s item :: l).
  { rewrite Hitems. rewrite insert_app_r_alt, Nat.sub_diag by lia. done. }
  assert (Hdrop : drop (S (length a)) items = l) by (rewrite Hitems, drop_app_ge by lia; by rewrite Nat.sub_succ_l, Nat.sub_diag by lia).
  assert (Hdrop' : drop (S (length a)) (a ++ push_span s item :: l) = l) by (rewrite drop_app_ge by lia; by rewrite Nat.sub_succ_l, Nat.sub_diag by lia).
  assert (Hspans : spans_in (items_of m (a ++ push_span s item :: l)) = spans ++ [s]).
  { rewrite <- Hs, Hitems, !items_of_app, !items_of_cons_eq by done. unfold spans_in in *. rewrite !fmap_app, !concat_app.
    cbn [fmap list_fmap concat push_span token_spans].
    assert (concat (token_spans <$> items_of m l) = []) as -> by (by apply (spans_in_none (items_of m l))).
    by rewrite !app_nil_r, app_assoc. }
  exists item. split; [by rewrite Hitems, list_lookup_middle|]. split; [done|]. split; [done|]. rewrite Hins, Hdrop, Hdrop'.
  split; [done|]. split; [lia|]. split; [|split; [done|by rewrite drop_app_length, items_of_cons_eq]].
  destruct (Nat.eqb_spec (S used) (span_count item)) as [He|Hne]; split; try done.
  - rewrite length_app. cbn. lia.
  - rewrite take_app_ge by lia. replace (S (length a) - length a)%nat with 1%nat by lia. cbn [take].
    rewrite items_of_app, items_of_cons_eq, Hta by done. apply Forall_app. split; [done|]. constructor; [|constructor].
    change (length (token_spans item ++ [s]) = span_count item). rewrite length_app. cbn [length]. lia.
  - rewrite Hdrop'. destruct (items_of m l) as [|x rest] eqn:El; [done|]. apply Forall_cons in Hnone as [Hx Hrest].
    rewrite Hx. split; [done|]. split; [|done]. assert (Hin : x ∈ items_of m l) by (rewrite El; left).
    unfold items_of in Hin. apply list_elem_of_filter in Hin as [Hxm Hin].
    assert (item_ok x) as (_ & _ & Hv). { rewrite Forall_forall in Hok. apply Hok. rewrite Hitems. set_solver. }
    unfold span_count, frame_count. destruct (modality x); [lia|]. specialize (Hv eq_refl). lia.
  - rewrite length_app. cbn. lia.
  - rewrite take_app_length, Hta. done.
  - rewrite drop_app_length, items_of_cons_eq by done. split; [cbn; rewrite length_app; cbn; lia|]. split; [|done].
    change (span_count (push_span s item)) with (span_count item). lia.
Qed.

(** The cursor of the other modality does not see it. *)
Lemma cursor_other m k used items spans i item s :
  cursor_ok m k used items spans -> items !! i = Some item -> modality item <> m ->
  cursor_ok m k used (<[i := push_span s item]> items) spans /\
  items_of m (drop k (<[i := push_span s item]> items)) = items_of m (drop k items).
Proof.
  intros [Hr Hb Ha Hs] Hi Hm. apply list_elem_of_split_length in Hi as (a & l & -> & ->).
  rewrite insert_app_r_alt, Nat.sub_diag by lia. cbn [insert list_insert].
  assert (Hm' : modality (push_span s item) <> m) by done.
  pose proof (items_of_replace m a item (push_span s item) l Hm Hm') as Hrep. split; [|apply Hrep]. split.
  - rewrite length_app in *. done.
  - by rewrite (proj1 (Hrep k)).
  - by rewrite (proj2 (Hrep k)).
  - rewrite <- Hs. f_equal. destruct (Hrep 0%nat) as [_ H0]. done.
Qed.

(** An item, but for its spans. *)
Definition same_but_spans (a b : VisionItem) : Prop :=
  modality b = modality a /\ grid b = grid a /\ patch_begin b = patch_begin a /\ patch_count b = patch_count a /\
  content_digest b = content_digest a /\ timestamps b = timestamps a.

Record loop_ok (n : nat) (items : list VisionItem) (l : list (Z * Z * Z)) (base : Z) (images frames : list (Z * Z))
    (ispans vspans : list TokenSpan) (st : PositionState) : Prop := {
  loop_axes : axes st = lay n l;
  loop_maximum : maximum st = foldl greatest 0 l;
  loop_current : current st = base;
  loop_images : cursor_ok Image (image_index st) 0 (bound st) ispans;
  loop_videos : cursor_ok Video (video_index st) (Z.to_nat (video_t st)) (bound st) vspans;
  loop_frame : 0 <= video_t st;
  loop_next_images : images = merged_grid <$> items_of Image (drop (image_index st) (bound st));
  loop_next_frames : frames = drop (Z.to_nat (video_t st)) (frames_of (items_of Video (drop (video_index st) (bound st))));
  loop_items : Forall item_ok (bound st);
  loop_same : Forall2 same_but_spans items (bound st);
}.

Lemma same_refl l : Forall2 same_but_spans l l.
Proof. induction l; constructor; [by repeat split|done]. Qed.

Lemma same_update items l i item s : Forall2 same_but_spans items l -> l !! i = Some item ->
  Forall2 same_but_spans items (<[i := push_span s item]> l).
Proof.
  intros H Hi. rewrite <- (list_insert_id items i (default item (items !! i))).
  - apply Forall2_insert; [done|]. destruct (Forall2_lookup_r _ _ _ _ _ H Hi) as (x & -> & Hx). exact Hx.
  - destruct (Forall2_lookup_r _ _ _ _ _ H Hi) as (x & -> & Hx). done.
Qed.

Lemma items_ok_update l i item s : Forall item_ok l -> l !! i = Some item -> Forall item_ok (<[i := push_span s item]> l).
Proof. intros H Hi. apply Forall_insert; [done|]. exact (proj1 (Forall_lookup _ _) H _ _ Hi). Qed.

Lemma grid_quot item : item_ok item -> Z.quot (height (grid item)) kMerge = (merged_grid item).1 /\
  Z.quot (width (grid item)) kMerge = (merged_grid item).2 /\ 0 <= (merged_grid item).1 <= i32_max /\ 0 <= (merged_grid item).2 <= i32_max.
Proof.
  intros (Hh & Hw & _). unfold merged_grid, kMerge. cbn [fst snd]. rewrite !Z.quot_div_nonneg by lia.
  unfold i32_max in *. split; [done|]. split; [done|]. split; split; try (apply Z.div_pos; lia); apply Z.div_le_upper_bound; lia.
Qed.

Lemma grid_count item base count : item_ok item -> Z.of_nat count = (merged_grid item).1 * (merged_grid item).2 ->
  length (grid_positions base (merged_grid item).1 (merged_grid item).2) = count.
Proof.
  intros Hok Hc. destruct (grid_quot item Hok) as (_ & _ & H1 & H2).
  pose proof (grid_positions_length base (merged_grid item).1 (merged_grid item).2 ltac:(lia) ltac:(lia)). lia.
Qed.

(** The part of [media_run] after its item is found. *)
Lemma media_run_rest n l base count i item st0 st1 :
  take_item st0.1 st0.2 = Ok (i, st1) -> bound st1 !! i = Some item -> item_ok item -> axes st1 = lay n l -> (length l + count <= n)%nat ->
  current st1 = base -> (0 < count)%nat ->
  media_run n (length l) count st0.1 st0.2 =
    let g := merged_grid item in
    if Z.of_nat count =? g.1 * g.2 then
      Ok (mkPositionState (image_index st1) (video_index st1) (video_t st1) (base + Z.max g.1 g.2)
            (foldl greatest (maximum st1) (grid_positions base g.1 g.2)) (lay n (l ++ grid_positions base g.1 g.2))
            (<[i := push_span (mkTokenSpan (Z.of_nat (length l)) (Z.of_nat count)) item]> (bound st1)))
    else Err InvalidArgument.
Proof.
  intros Htake Hi Hok Hax Hlen Hcur Hcount. unfold media_run. rewrite Htake. cbn [rbind]. rewrite Hi.
  destruct (grid_quot item Hok) as (-> & -> & Hg1 & Hg2). cbv zeta. set (g := merged_grid item) in *.
  assert (u64 (1 * g.1 * g.2) = g.1 * g.2) as -> by (unfold i32_max in *; rewrite u64_small; [lia|unfold_ints; nia]).
  destruct (Z.eqb_spec (Z.of_nat count) (g.1 * g.2)) as [He|Hne]; cbn [negb throw_if rbind]; [|done].
  rewrite media_positions_eq, Hax, Hcur.
  pose proof (grid_positions_length base g.1 g.2 ltac:(lia) ltac:(lia)) as Hgl.
  rewrite put_all by lia. done.
Qed.

Lemma text_step n items l base images frames ispans vspans st count :
  loop_ok n items l base images frames ispans vspans st -> (length l + count <= n)%nat ->
  loop_ok n items (l ++ text_positions base count) (base + Z.of_nat count) images frames ispans vspans (text_run n (length l) count st).
Proof.
  intros H Hlen. pose proof (loop_current _ _ _ _ _ _ _ _ _ H) as Hcur.
  rewrite (text_run_eq n (length l) count st l (loop_axes _ _ _ _ _ _ _ _ _ H) eq_refl Hlen), Hcur.
  destruct H. split; try done. cbn. by rewrite foldl_app, loop_maximum0.
Qed.

(** A run of an image. *)
Lemma image_step n items l base images frames ispans vspans st count :
  loop_ok n items l base images frames ispans vspans st -> (length l + count <= n)%nat -> (0 < count)%nat ->
  match images with
  | [] => media_run n (length l) count 1 st = Err InvalidArgument
  | g :: images' =>
      if Z.of_nat count =? g.1 * g.2 then
        exists st', media_run n (length l) count 1 st = Ok st' /\
          loop_ok n items (l ++ grid_positions base g.1 g.2) (base + Z.max g.1 g.2) images' frames
            (ispans ++ [mkTokenSpan (Z.of_nat (length l)) (Z.of_nat count)]) vspans st' /\
          length (grid_positions base g.1 g.2) = count
      else media_run n (length l) count 1 st = Err InvalidArgument
  end.
Proof.
  intros H Hlen Hcount. set (s := mkTokenSpan (Z.of_nat (length l)) (Z.of_nat count)).
  assert (Htake : take_item 1 st = match next_item Image (drop (image_index st) (bound st)) (image_index st) with
    | None => Err InvalidArgument
    | Some i => Ok (i, mkPositionState (S i) (video_index st) (video_t st) (current st) (maximum st) (axes st) (bound st)) end) by done.
  rewrite (loop_next_images _ _ _ _ _ _ _ _ _ H).
  destruct (next_item Image (drop (image_index st) (bound st)) (image_index st)) as [i|] eqn:Ei.
  - destruct (cursor_push _ _ _ _ _ _ s (loop_images _ _ _ _ _ _ _ _ _ H) Ei (loop_items _ _ _ _ _ _ _ _ _ H))
      as (item & Hi & Hm & Hok & Hd & Hlt & Hcur & Hd' & _).
    rewrite Hd. cbn [fmap list_fmap].
    pose proof (media_run_rest n l base count i item (1, st) _ Htake Hi Hok (loop_axes _ _ _ _ _ _ _ _ _ H) Hlen
                  (loop_current _ _ _ _ _ _ _ _ _ H) Hcount) as Hrun.
    cbn [fst snd image_index video_index video_t maximum bound] in Hrun. rewrite Hrun. cbv zeta.
    destruct (Z.eqb_spec (Z.of_nat count) ((merged_grid item).1 * (merged_grid item).2)) as [Hg|]; [|done].
    eexists. split; [done|]. fold s. split; [|by apply grid_count].
    assert (span_count item = 1%nat) as Hsc by (unfold span_count; by rewrite Hm). rewrite Hsc in Hcur. cbn [Nat.eqb] in Hcur.
    destruct (cursor_other Video _ _ _ _ i item s (loop_videos _ _ _ _ _ _ _ _ _ H) Hi ltac:(by rewrite Hm)) as [Hv Hvd].
    destruct H. split; try done; cbn [axes maximum current image_index video_index video_t bound].
    + by rewrite foldl_app, loop_maximum0.
    + by rewrite Hd'.
    + by rewrite Hvd.
    + by apply items_ok_update.
    + by apply same_update.
  - pose proof (next_item_spec Image (drop (image_index st) (bound st)) (image_index st)) as Hn. rewrite Ei in Hn. rewrite Hn.
    cbn. unfold media_run. by rewrite Htake.
Qed.

Lemma frames_of_cons item l : frames_of (item :: l) = replicate (frame_count item) (merged_grid item) ++ frames_of l.
Proof. done. Qed.

(** A run of a frame of a video. *)
Lemma video_step n items l base images frames ispans vspans st count :
  loop_ok n items l base images frames ispans vspans st -> (length l + count <= n)%nat -> (0 < count)%nat ->
  match frames with
  | [] => media_run n (length l) count 2 st = Err InvalidArgument
  | g :: frames' =>
      if Z.of_nat count =? g.1 * g.2 then
        exists st', media_run n (length l) count 2 st = Ok st' /\
          loop_ok n items (l ++ grid_positions base g.1 g.2) (base + Z.max g.1 g.2) images frames' ispans
            (vspans ++ [mkTokenSpan (Z.of_nat (length l)) (Z.of_nat count)]) st' /\
          length (grid_positions base g.1 g.2) = count
      else media_run n (length l) count 2 st = Err InvalidArgument
  end.
Proof.
  intros H Hlen Hcount. set (s := mkTokenSpan (Z.of_nat (length l)) (Z.of_nat count)).
  rewrite (loop_next_frames _ _ _ _ _ _ _ _ _ H). pose proof (loop_frame _ _ _ _ _ _ _ _ _ H) as Ht0.
  destruct (next_item Video (drop (video_index st) (bound st)) (video_index st)) as [i|] eqn:Ei.
  - destruct (cursor_push _ _ _ _ _ _ s (loop_videos _ _ _ _ _ _ _ _ _ H) Ei (loop_items _ _ _ _ _ _ _ _ _ H))
      as (item & Hi & Hm & Hok & Hd & Hlt & Hcur & Hd' & Hd'').
    assert (Hsc : span_count item = frame_count item) by (unfold span_count; by rewrite Hm). rewrite Hsc in *.
    assert (Htmp : 1 <= temporal (grid item)) by (by apply Hok).
    assert (Hlast : (video_t st + 1 =? temporal (grid item)) = (S (Z.to_nat (video_t st)) =? frame_count item)%nat).
    { unfold frame_count in *. destruct (Z.eqb_spec (video_t st + 1) (temporal (grid item))), (Nat.eqb_spec (S (Z.to_nat (video_t st))) (Z.to_nat (temporal (grid item)))); try done; lia. }
    set (last_frame := (S (Z.to_nat (video_t st)) =? frame_count item)%nat) in *.
    assert (Htake : take_item 2 st = Ok (i, mkPositionState (image_index st) (if last_frame then S i else i)
      (if last_frame then 0 else video_t st + 1) (current st) (maximum st) (axes st) (bound st))).
    { unfold take_item. cbn [Z.eqb modality_value Pos.eqb]. rewrite Ei, Hi, Hlast. done. }
    pose proof (media_run_rest n l base count i item (2, st) _ Htake Hi Hok (loop_axes _ _ _ _ _ _ _ _ _ H) Hlen
                  (loop_current _ _ _ _ _ _ _ _ _ H) Hcount) as Hrun.
    cbn [fst snd image_index video_index video_t maximum bound] in Hrun. rewrite Hrun. cbv zeta.
    rewrite Hd, frames_of_cons, drop_app_le by (rewrite length_replicate; lia). rewrite drop_replicate.
    replace (frame_count item - Z.to_nat (video_t st))%nat with (S (frame_count item - Z.to_nat (video_t st) - 1)) by lia.
    cbn [replicate app].
    destruct (Z.eqb_spec (Z.of_nat count) ((merged_grid item).1 * (merged_grid item).2)) as [Hg|]; [|done].
    eexists. split; [done|]. fold s. split; [|by apply grid_count].
    destruct (cursor_other Image _ _ _ _ i item s (loop_images _ _ _ _ _ _ _ _ _ H) Hi ltac:(by rewrite Hm)) as [Hv Hvd].
    destruct H. split; try done; cbn [axes maximum current image_index video_index video_t bound].
    + by rewrite foldl_app, loop_maximum0.
    + destruct last_frame; [done|]. by replace (Z.to_nat (video_t st + 1)) with (S (Z.to_nat (video_t st))) by lia.
    + destruct last_frame; lia.
    + by rewrite Hvd.
    + destruct last_frame eqn:El; unfold last_frame in El.
      * apply Nat.eqb_eq in El. rewrite Hd'. replace (frame_count item - Z.to_nat (video_t st) - 1)%nat with 0%nat by lia. done.
      * rewrite Hd'', frames_of_cons, drop_app_le by (rewrite length_replicate; apply Nat.eqb_neq in El; change (frame_count (push_span s item)) with (frame_count item); lia).
        change (frame_count (push_span s item)) with (frame_count item). change (merged_grid (push_span s item)) with (merged_grid item).
        rewrite drop_replicate. do 2 f_equal. lia.
    + by apply items_ok_update.
    + by apply same_update.
  - pose proof (next_item_spec Video (drop (video_index st) (bound st)) (video_index st)) as Hn. rewrite Ei in Hn. rewrite Hn.
    cbn [frames_of fmap list_fmap concat]. rewrite drop_nil. unfold media_run, take_item. cbn [Z.eqb modality_value Pos.eqb]. by rewrite Ei.
Qed.

(** ** The whole loop *)

(** What the loop makes of the runs, when it begins after the tokens with the positions [l]. *)
Definition loop_result (n : nat) (items : list VisionItem) (runs : list (Z * nat)) (l : list (Z * Z * Z)) (base : Z)
    (ispans vspans : list TokenSpan) (b : option (list (nat * option (Z * Z)))) (r : result PositionState) : Prop :=
  match b with
  | Some bound_runs => exists st' base', r = Ok st' /\
      loop_ok n items (l ++ mrope base bound_runs) base' [] [] (ispans ++ spans_of 1 (length l) runs)
        (vspans ++ spans_of 2 (length l) runs) st' /\ (length (l ++ mrope base bound_runs) = length l + total runs)%nat
  | None => r = Err InvalidArgument \/
      exists st' l' base' images' frames' ispans' vspans', r = Ok st' /\
        loop_ok n items l' base' images' frames' ispans' vspans' st' /\ (images' <> [] \/ frames' <> [])
  end.

Lemma loop_result_cons n items ty count runs l base ispans vspans vs base' x b r ispans' vspans' :
  length vs = count -> (forall b', mrope base (x :: b') = vs ++ mrope base' b') ->
  ispans' = ispans ++ (if ty =? 1 then [mkTokenSpan (Z.of_nat (length l)) (Z.of_nat count)] else []) ->
  vspans' = vspans ++ (if ty =? 2 then [mkTokenSpan (Z.of_nat (length l)) (Z.of_nat count)] else []) ->
  loop_result n items runs (l ++ vs) base' ispans' vspans' b r ->
  loop_result n items ((ty, count) :: runs) l base ispans vspans (cons x <$> b) r.
Proof.
  intros Hvs Hx -> -> H. destruct b as [b|]; cbn [fmap option_fmap option_map loop_result] in *; [|exact H].
  destruct H as (st' & base1 & E & Hl & Hlen). exists st', base1. rewrite Hx. cbn [spans_of total foldr snd].
  rewrite !length_app, Hvs in *. rewrite <- !app_assoc in *. split; [exact E|]. split; [exact Hl|].
  change (foldr _ 0%nat runs) with (total runs). lia.
Qed.

Lemma fold_runs_spec n items runs : forall l base images frames ispans vspans st,
  loop_ok n items l base images frames ispans vspans st -> Forall (fun r => (0 < r.2)%nat) runs -> (length l + total runs <= n)%nat ->
  loop_result n items runs l base ispans vspans (bind_runs runs images frames) (fold_runs n (length l) runs st).
Proof.
  induction runs as [|[ty count] runs IH]; intros l base images frames ispans vspans st H Hpos Hlen.
  { cbn. destruct images as [|g images]; [destruct frames as [|g frames]|].
    - exists st, base. rewrite !app_nil_r, Nat.add_0_r. done.
    - right. exists st, l, base, [], (g :: frames), ispans, vspans. auto.
    - right. exists st, l, base, (g :: images), frames, ispans, vspans. auto. }
  apply Forall_cons in Hpos as [Hc Hpos]. cbn [snd total foldr fst] in Hc, Hlen. change (foldr _ 0%nat runs) with (total runs) in Hlen.
  assert (Hnext : forall vs, length vs = count -> (length l + count)%nat = length (l ++ vs)) by (intros vs <-; by rewrite length_app).
  cbn [fold_runs bind_runs]. unfold run_step. cbn [fst snd]. destruct (Z.eqb_spec ty 0) as [->|H0].
  { cbn [rbind]. pose proof (text_step _ _ _ _ _ _ _ _ _ count H ltac:(lia)) as H'.
    rewrite (Hnext (text_positions base count)) by apply text_positions_length.
    eapply loop_result_cons; [apply text_positions_length|done|cbn; by rewrite app_nil_r|cbn; by rewrite app_nil_r|].
    apply IH; [exact H'|done|]. rewrite length_app, text_positions_length. lia. }
  destruct (Z.eqb_spec ty 1) as [->|H1].
  { pose proof (image_step _ _ _ _ _ _ _ _ _ count H ltac:(lia) Hc) as Hs. destruct images as [|g images]; [left; by rewrite Hs|].
    destruct (Z.eqb_spec (Z.of_nat count) (g.1 * g.2)) as [Hg|Hg]; [|left; by rewrite Hs]. destruct Hs as (st1 & -> & H' & Hgl). cbn [rbind].
    rewrite (Hnext _ Hgl). eapply (loop_result_cons _ _ _ _ _ _ _ _ _ (grid_positions base g.1 g.2) (base + Z.max g.1 g.2)); [exact Hgl|by destruct g|done|cbn; by rewrite app_nil_r|].
    apply IH; [exact H'|done|]. rewrite length_app, Hgl. lia. }
  destruct (Z.eqb_spec ty 2) as [->|H2].
  { pose proof (video_step _ _ _ _ _ _ _ _ _ count H ltac:(lia) Hc) as Hs. destruct frames as [|g frames]; [left; by rewrite Hs|].
    destruct (Z.eqb_spec (Z.of_nat count) (g.1 * g.2)) as [Hg|Hg]; [|left; by rewrite Hs]. destruct Hs as (st1 & -> & H' & Hgl). cbn [rbind].
    rewrite (Hnext _ Hgl). eapply (loop_result_cons _ _ _ _ _ _ _ _ _ (grid_positions base g.1 g.2) (base + Z.max g.1 g.2)); [exact Hgl|by destruct g|cbn; by rewrite app_nil_r|done|].
    apply IH; [exact H'|done|]. rewrite length_app, Hgl. lia. }
  left. unfold media_run, take_item. cbn [modality_value].
  destruct (Z.eqb_spec ty 1); [done|]. by destruct (Z.eqb_spec ty 2).
Qed.

(** The check after the loop: every item has its spans exactly when nothing is left to bind. *)
Lemma riter_throw_if {A} (f : A -> bool) e l :
  riter (fun x => throw_if (f x) e) l = if existsb f l then Err e else Ok tt.
Proof. induction l as [|x l IH]; [done|]. cbn. destruct (f x); [done|]. exact IH. Qed.

Lemma expected_spans_count item : item_ok item -> expected_spans item = Z.of_nat (span_count item).
Proof.
  intros (_ & _ & Hv). unfold expected_spans, span_count, frame_count. destruct (modality item); [done|].
  specialize (Hv eq_refl). unfold i32_max in Hv. rewrite u64_small by (unfold_ints; lia). lia.
Qed.

Lemma loop_complete n items l base images frames ispans vspans st : loop_ok n items l base images frames ispans vspans st ->
  existsb (fun item => negb (Z.of_nat (length (token_spans item)) =? expected_spans item)) (bound st) = true <-> images <> [] \/ frames <> [].
Proof.
  intros H. rewrite (loop_next_images _ _ _ _ _ _ _ _ _ H), (loop_next_frames _ _ _ _ _ _ _ _ _ H).
  pose proof (loop_images _ _ _ _ _ _ _ _ _ H) as [_ Ib Ia _]. pose proof (loop_videos _ _ _ _ _ _ _ _ _ H) as [_ Vb Va _].
  pose proof (loop_items _ _ _ _ _ _ _ _ _ H) as Hok. rewrite Forall_forall in Hok.
  assert (Hshort : forall m k item, item ∈ items_of m (drop k (bound st)) -> item ∈ bound st).
  { intros m k item Hin. unfold items_of in Hin. apply list_elem_of_filter in Hin as [_ Hin]. rewrite <- (take_drop k (bound st)). set_solver. }
  rewrite existsb_exists. split.
  - intros (item & Hin & Hne). apply negb_true_iff, Z.eqb_neq in Hne. apply list_elem_of_In in Hin.
    rewrite (expected_spans_count item (Hok _ Hin)) in Hne. destruct (modality item) eqn:Em.
    + left. intros E. apply fmap_nil_inv in E. apply Hne. f_equal. rewrite Forall_forall in Ib. apply Ib.
      unfold items_of in *. apply list_elem_of_filter. split; [done|]. rewrite <- (take_drop (image_index st) (bound st)) in Hin.
      apply elem_of_app in Hin as [Hin|Hin]; [done|]. exfalso.
      assert (Hf : item ∈ filter (fun i => modality i = Image) (drop (image_index st) (bound st))) by (by apply list_elem_of_filter).
      rewrite E in Hf. by apply elem_of_nil in Hf.
    + right. intros E. destruct (items_of Video (drop (video_index st) (bound st))) as [|x rest] eqn:Ed.
      * apply Hne. f_equal. rewrite Forall_forall in Vb. apply Vb. unfold items_of in *. apply list_elem_of_filter. split; [done|].
        rewrite <- (take_drop (video_index st) (bound st)) in Hin. apply elem_of_app in Hin as [Hin|Hin]; [done|]. exfalso.
        assert (Hf : item ∈ filter (fun i => modality i = Video) (drop (video_index st) (bound st))) by (by apply list_elem_of_filter).
        rewrite Ed in Hf. by apply elem_of_nil in Hf.
      * destruct Va as (Hl & Hlt & _). rewrite frames_of_cons in E.
        apply (f_equal length) in E. rewrite length_drop, length_app, length_replicate in E. cbn in E.
        unfold span_count in Hlt. assert (Hx : x ∈ items_of Video (drop (video_index st) (bound st))) by (rewrite Ed; left).
        unfold items_of in Hx. apply list_elem_of_filter in Hx as [Hx _]. rewrite Hx in Hlt. lia.
  - intros [Hi|Hv].
    + destruct (items_of Image (drop (image_index st) (bound st))) as [|x rest] eqn:Ed; [done|]. destruct Ia as (Hl & Hlt & _).
      assert (Hx : x ∈ bound st) by (apply (Hshort Image (image_index st)); rewrite Ed; left). exists x. split; [by apply list_elem_of_In|].
      apply negb_true_iff, Z.eqb_neq. rewrite (expected_spans_count x (Hok _ Hx)), Hl. lia.
    + destruct (items_of Video (drop (video_index st) (bound st))) as [|x rest] eqn:Ed; [exfalso; apply Hv; apply drop_nil|]. destruct Va as (Hl & Hlt & _).
      assert (Hx : x ∈ bound st) by (apply (Hshort Video (video_index st)); rewrite Ed; left). exists x. split; [by apply list_elem_of_In|].
      apply negb_true_iff, Z.eqb_neq. rewrite (expected_spans_count x (Hok _ Hx)), Hl. lia.
Qed.

(** ** Bounds *)

Definition run_ok (r : nat * option (Z * Z)) : Prop :=
  match r.2 with None => True | Some g => Z.of_nat r.1 = g.1 * g.2 /\ 0 < g.1 /\ 0 < g.2 end.
Definition grid_nonneg (g : Z * Z) : Prop := 0 <= g.1 /\ 0 <= g.2.
Definition within (b : Z) (v : Z * Z * Z) : Prop := 0 <= v.1.1 < b /\ 0 <= v.1.2 < b /\ 0 <= v.2 < b.

Lemma bind_runs_ok runs : forall images frames b, Forall grid_nonneg images -> Forall grid_nonneg frames ->
  Forall (fun r => (0 < r.2)%nat) runs -> bind_runs runs images frames = Some b ->
  Forall run_ok b /\ foldr (fun r n => r.1 + n)%nat 0%nat b = total runs.
Proof.
  induction runs as [|[ty n] runs IH]; intros images frames b Hi Hf Hpos Hb; cbn [bind_runs] in Hb.
  { destruct images, frames; try done. injection Hb as <-. split; [constructor|done]. }
  apply Forall_cons in Hpos as [Hn Hpos]. cbn in Hn.
  assert (Hcons : forall x r, cons x <$> r = Some b -> exists b', r = Some b' /\ b = x :: b').
  { intros x [r|] [= <-]. by exists r. }
  assert (Hgrid : forall g, grid_nonneg g -> Z.of_nat n = g.1 * g.2 -> run_ok (n, Some g)).
  { intros g [? ?] Hg. split; [done|]. cbn. nia. }
  destruct (ty =? 0).
  { apply Hcons in Hb as (b' & Hb & ->). destruct (IH _ _ _ Hi Hf Hpos Hb) as [H1 H2]. cbn. split; [by constructor|]. by rewrite H2. }
  destruct (ty =? 1).
  { destruct images as [|g images]; [done|]. apply Forall_cons in Hi as [Hg Hi]. destruct (Z.eqb_spec (Z.of_nat n) (g.1 * g.2)) as [Eg|]; [|done].
    apply Hcons in Hb as (b' & Hb & ->). destruct (IH _ _ _ Hi Hf Hpos Hb) as [H1 H2]. cbn. split; [constructor; [by apply Hgrid|done]|]. by rewrite H2. }
  destruct (ty =? 2); [|done].
  destruct frames as [|g frames]; [done|]. apply Forall_cons in Hf as [Hg Hf]. destruct (Z.eqb_spec (Z.of_nat n) (g.1 * g.2)) as [Eg|]; [|done].
  apply Hcons in Hb as (b' & Hb & ->). destruct (IH _ _ _ Hi Hf Hpos Hb) as [H1 H2]. cbn. split; [constructor; [by apply Hgrid|done]|]. by rewrite H2.
Qed.

Lemma within_mono b b' l : b <= b' -> Forall (within b) l -> Forall (within b') l.
Proof. intros Hb H. eapply Forall_impl; [exact H|]. intros v. unfold within. lia. Qed.

(** No position is as large as the number of tokens before the end of its run. *)
Lemma mrope_within b : forall base, 0 <= base -> Forall run_ok b ->
  Forall (within (base + Z.of_nat (foldr (fun r n => r.1 + n)%nat 0%nat b))) (mrope base b).
Proof.
  induction b as [|[n g] b IH]; intros base Hbase Hok; [constructor|]. apply Forall_cons in Hok as [Hr Hok].
  cbn [mrope foldr fst]. set (rest := foldr _ 0%nat b) in *. destruct g as [[gh gw]|].
  - destruct Hr as (Hn & Hh & Hw). cbn [fst snd] in *. apply Forall_app. split.
    + apply Forall_forall. intros v Hv. unfold grid_positions in Hv. apply list_elem_of_In, in_concat in Hv as (row & Hrow & Hv).
      apply list_elem_of_In, list_elem_of_fmap in Hrow as (y & -> & Hy%elem_of_seqZ). apply list_elem_of_In, list_elem_of_fmap in Hv as (x & -> & Hx%elem_of_seqZ).
      unfold within. cbn. nia.
    + eapply within_mono; [|apply IH; [lia|done]]. nia.
  - apply Forall_app. split.
    + apply Forall_forall. intros v Hv. unfold text_positions in Hv. apply list_elem_of_fmap in Hv as (x & -> & Hx%elem_of_seqZ).
      unfold within. cbn. lia.
    + eapply within_mono; [|apply IH; [lia|done]]. lia.
Qed.

Lemma grids_nonneg m items : Forall item_ok items -> Forall grid_nonneg (merged_grid <$> items_of m items).
Proof.
  intros Hok. apply Forall_fmap, Forall_forall. intros item Hin. unfold items_of in Hin. apply list_elem_of_filter in Hin as [_ Hin].
  rewrite Forall_forall in Hok. destruct (grid_quot item (Hok _ Hin)) as (_ & _ & ? & ?). cbn. unfold grid_nonneg. lia.
Qed.

Lemma frames_nonneg items : Forall item_ok items -> Forall grid_nonneg (frames_of (items_of Video items)).
Proof.
  intros Hok. apply Forall_forall. intros g Hg. unfold frames_of in Hg. apply list_elem_of_In, in_concat in Hg as (l & Hl & Hg).
  apply list_elem_of_In, list_elem_of_fmap in Hl as (item & -> & Hin). apply list_elem_of_In, elem_of_replicate in Hg as [-> _].
  pose proof (grids_nonneg Video items Hok) as Hn. rewrite Forall_forall in Hn. apply Hn, list_elem_of_fmap. eauto.
Qed.

(** ** Theorems *)

Definition fresh_items (items : list VisionItem) : Prop := Forall item_ok items /\ Forall (fun i => token_spans i = []) items.

Lemma cursor_start m items : fresh_items items -> cursor_ok m 0 0 items [].
Proof.
  intros [Hok Hfresh]. assert (Hf : Forall (fun i => token_spans i = []) (items_of m items)).
  { apply Forall_forall. intros i Hi. unfold items_of in Hi. apply list_elem_of_filter in Hi as [_ Hi]. rewrite Forall_forall in Hfresh. by apply Hfresh. }
  split; [lia|constructor| |by apply spans_in_none]. rewrite drop_0. destruct (items_of m items) as [|i rest] eqn:E; [done|].
  apply Forall_cons in Hf as [Hi Hf]. rewrite Hi. split; [done|]. split; [|done].
  assert (Hin : i ∈ items_of m items) by (rewrite E; left). unfold items_of in Hin. apply list_elem_of_filter in Hin as [Hm Hin].
  rewrite Forall_forall in Hok. destruct (Hok _ Hin) as (_ & _ & Hv). unfold span_count, frame_count. destruct (modality i); [lia|]. specialize (Hv eq_refl). lia.
Qed.

Lemma loop_start items n : fresh_items items ->
  loop_ok n items [] 0 (merged_grid <$> items_of Image items) (frames_of (items_of Video items)) [] []
    (mkPositionState 0 0 0 0 0 (replicate (n * 3) 0) items).
Proof.
  intros Hfresh. split; try done; cbn [axes image_index video_index video_t bound drop].
  - by rewrite lay_empty.
  - by apply cursor_start.
  - by apply cursor_start.
  - apply Hfresh.
  - apply same_refl.
Qed.

Lemma assign_positions_spec input :
  length (pi_token_types input) = length (pi_input_ids input) -> fresh_items (pi_vision_items input) ->
  let items := pi_vision_items input in let runs := runs_of (pi_token_types input) in
  match bind_runs runs (merged_grid <$> items_of Image items) (frames_of (items_of Video items)) with
  | None => assign_positions input = Err InvalidArgument
  | Some b => exists items',
      assign_positions input = Ok (mkProcessed (pi_input_ids input) (pi_token_types input) (axis_major (mrope 0 b))
        (foldl greatest 0 (mrope 0 b) + 1 - Z.of_nat (length (pi_input_ids input))) items' (pi_media_payloads input)
        (pi_rewrite_checkpoint input) (pi_stats input)) /\
      length (mrope 0 b) = length (pi_input_ids input) /\
      Forall (within (Z.of_nat (length (pi_input_ids input)))) (mrope 0 b) /\
      Forall2 same_but_spans items items' /\
      spans_in (items_of Image items') = spans_of 1 0 runs /\ spans_in (items_of Video items') = spans_of 2 0 runs /\
      Forall (fun i => length (token_spans i) = span_count i) items'
  end.
Proof.
  intros Hlen Hfresh items runs. set (n := length (pi_input_ids input)) in *. unfold assign_positions. fold n.
  rewrite position_runs_eq by lia. fold runs items.
  assert (Htotal : total runs = n) by (by unfold runs; rewrite runs_total).
  pose proof (fold_runs_spec n items runs [] 0 _ _ [] [] _ (loop_start items n Hfresh) (runs_positive _) ltac:(cbn; lia)) as Hloop.
  cbn [length] in Hloop. destruct (bind_runs runs _ _) as [b|] eqn:Eb; cbn [loop_result] in Hloop.
  - destruct Hloop as (st' & base' & -> & Hl & Hn). cbn [rbind length app] in *. rewrite riter_throw_if.
    destruct (bind_runs_ok _ _ _ _ (grids_nonneg Image items (proj1 Hfresh)) (frames_nonneg items (proj1 Hfresh)) (runs_positive _) Eb) as [Hb Hsum].
    pose proof (mrope_within b 0 ltac:(lia) Hb) as Hwithin. rewrite (eq_trans Hsum Htotal) in Hwithin.
    destruct (existsb _ (bound st')) eqn:Ee.
    { apply (loop_complete _ _ _ _ _ _ _ _ _ Hl) in Ee as [?|?]; done. }
    exists (bound st'). destruct Hl. split; [|split; [lia|split; [done|split; [done|split; [apply loop_images0|split; [apply loop_videos0|]]]]]].
    + rewrite loop_maximum0, loop_axes0, lay_full by lia. done.
    + apply Forall_forall. intros i Hi. rewrite Forall_forall in loop_items0.
      assert (Hf : negb (Z.of_nat (length (token_spans i)) =? expected_spans i) = false).
      { apply not_true_iff_false. intros Hx. apply not_true_iff_false in Ee. apply Ee, existsb_exists. exists i. split; [by apply list_elem_of_In|done]. }
      apply negb_false_iff, Z.eqb_eq in Hf. rewrite (expected_spans_count i (loop_items0 _ Hi)) in Hf. lia.
  - destruct Hloop as [->|(st' & l' & base' & im & fr & is_ & vs & -> & Hl & Hne)]; [done|]. cbn [rbind]. rewrite riter_throw_if.
    apply (loop_complete _ _ _ _ _ _ _ _ _ Hl) in Hne. by rewrite Hne.
Qed.

(** C38: the tokens of a prompt with media get the positions of multimodal rotary embedding.  The runs of equal token
    types are bound to the media in order, each run of an image to the next image, of a video to the next frame of
    a video, with as many tokens as its grid has merged patches and nothing left over; otherwise the prompt is
    refused.  Then the three axes are those of the reference [mrope], no position reaches the number of tokens,
    [rope_delta] leads from the number of tokens to the position after the greatest, and each medium has the spans
    of its runs. *)
Theorem assign_positions_exact input :
  length (pi_token_types input) = length (pi_input_ids input) -> fresh_items (pi_vision_items input) ->
  let items := pi_vision_items input in let runs := runs_of (pi_token_types input) in
  match bind_runs runs (merged_grid <$> items_of Image items) (frames_of (items_of Video items)) with
  | None => assign_positions input = Err InvalidArgument
  | Some b => exists items',
      assign_positions input = Ok (mkProcessed (pi_input_ids input) (pi_token_types input) (axis_major (mrope 0 b))
        (foldl greatest 0 (mrope 0 b) + 1 - Z.of_nat (length (pi_input_ids input))) items' (pi_media_payloads input)
        (pi_rewrite_checkpoint input) (pi_stats input)) /\
      length (mrope 0 b) = length (pi_input_ids input) /\
      Forall (within (Z.of_nat (length (pi_input_ids input)))) (mrope 0 b) /\
      Forall2 same_but_spans items items' /\
      spans_in (items_of Image items') = spans_of 1 0 runs /\ spans_in (items_of Video items') = spans_of 2 0 runs /\
      Forall (fun i => length (token_spans i) = span_count i) items'
  end.
Proof. exact (assign_positions_spec input). Qed.

(** A text token, an image of two merged patches and another text token. *)
Definition example_input : ProcessedInput :=
  mkProcessed [5; kImageToken; kImageToken; 6] [0; 1; 1; 0] [] 0 [mkVisionItem Image (mkGrid 1 2 4) 0 8 [] [] []] [] None no_stats.

Lemma assign_positions_exact_witness : fresh_items (pi_vision_items example_input) /\
  exists items', assign_positions example_input =
    Ok (mkProcessed [5; kImageToken; kImageToken; 6] [0; 1; 1; 0] [0; 1; 1; 3; 0; 1; 1; 3; 0; 1; 2; 3] 0 items' [] None no_stats) /\
    spans_in (items_of Image items') = [mkTokenSpan 1 2].
Proof.
  assert (Hf : fresh_items (pi_vision_items example_input)).
  { split; [|by repeat constructor]. constructor; [|constructor]. unfold item_ok, i32_max. cbn. split; [lia|]. split; [lia|done]. }
  split; [exact Hf|]. pose proof (assign_positions_exact example_input eq_refl Hf) as H. cbv zeta in H.
  assert (Eb : bind_runs (runs_of (pi_token_types example_input)) (merged_grid <$> items_of Image (pi_vision_items example_input))
    (frames_of (items_of Video (pi_vision_items example_input))) = Some [(1%nat, None); (2%nat, Some (1, 2)); (1%nat, None)]) by (vm_compute; reflexivity).
  rewrite Eb in H. destruct H as (items' & E & _ & _ & _ & Hs & _). exists items'. split; [rewrite E; vm_compute; reflexivity|].
  rewrite Hs. vm_compute. reflexivity.
Defined.
