(* ===== verification/Preparation.v ===== *)
(** * Preparing prompts: [Frontend] of [targets/qwen3_6/impl/frontend/frontend.cpp]

    The frontend is made from the resources of a checkpoint: their configuration must be the one the
    program is compiled for.  It turns conversations, with or without media, and given tokens into prepared
    prompts.  Parsing JSON is an argument, as for the tokenizer. *)
From Stdlib Require Import Strings.String.
From stdpp Require Import gmap.
From S2P Require Import Prelude Unicode Admission Capacity Contract Output Tokenizer PrefixIdentity ToolCalls Digest ChatTemplate MediaCache Processor.
#[local] Open Scope Z_scope.
#[local] Open Scope ninfer_scope.

(** ** Configuration *)

Definition f64_two : Z := 4611686018427387904.
Definition f64_half : Z := 4602678819172646912.
Definition f64_600 : Z := 4648488871632306176.
(** [1.0 / 255.0] *)
Definition kRescaleFactor : Z := 4571171282956062736.
Definition kVideoFps : Z := f64_two.
Definition kVideoMinFrames : Z := 4.
Definition kVideoMaxFrames : Z := 768.
Definition kTokenDomain : nat := Z.to_nat 248077.
Definition kRawPatchesPerVisionToken : Z := 4.
Definition kMaximumVisionTokens : Z := 32768.

(** The [double] of an integer: its significand is rounded to 53 bits, ties to even. *)
Definition f64_of_integer (i : Z) : Z :=
  if i =? 0 then 0 else
  let m := Z.abs i in
  let e := Z.log2 m in
  let significand :=
    if e <=? 52 then Z.shiftl m (52 - e)
    else let q := Z.shiftr m (e - 52) in
         let r := m - Z.shiftl q (e - 52) in
         let half := Z.shiftl 1 (e - 53) in
         if (r >? half) || ((r =? half) && Z.odd q) then q + 1 else q in
  (if i <? 0 then 9223372036854775808 else 0) + (Z.shiftl (e + 1023) 52 + (significand - 4503599627370496)).

Definition to_i64 (x : Z) : Z := if x <=? i64_max then x else x - 18446744073709551616.

Section Config.
Context (json_parse : list Z -> option Json).

Definition parse_resource_json (bytes : list Z) : result Json :=
  match json_parse bytes with
  | Some (JObject items) => Ok (JObject items)
  | _ => Err InvalidArgument
  end.

Definition require_integer (object : Json) (field : list Z) : result Z :=
  match json_field object field with
  | Some (JInteger i) => Ok i
  | Some (JUnsigned u) => Ok (to_i64 u)
  | _ => Err InvalidArgument
  end.

Definition json_double (value : Json) : option Z :=
  match value with
  | JFloat bits => Some bits
  | JInteger i | JUnsigned i => Some (f64_of_integer i)
  | _ => None
  end.

Definition require_number (object : Json) (field : list Z) : result Z :=
  match json_field object field ≫= json_double with Some d => Ok d | None => Err InvalidArgument end.

Definition number_or_default (object : Json) (field : list Z) (default_value : Z) : result Z :=
  if is_some (json_field object field) then require_number object field else Ok default_value.
Definition integer_or_default (object : Json) (field : list Z) (default_value : Z) : result Z :=
  if is_some (json_field object field) then require_integer object field else Ok default_value.

Definition require_object (object : Json) (field : list Z) : result Json :=
  let* items := require_object_field object field in Ok (JObject items).

Definition positive_u64 (value : Z) : result Z :=
  do* throw_if (value <=? 0) InvalidArgument; Ok value.

Definition require_half_triplet (config : Json) (field : list Z) : result unit :=
  match json_field config field with
  | Some (JArray items) =>
      do* throw_if (negb (length items =? 3)%nat) InvalidArgument;
      riter (fun value =>
        throw_if (match json_double value with Some d => negb (f64_eqb d f64_half) | None => true end) InvalidArgument) items
  | _ => Err InvalidArgument
  end.

Definition validate_pixel_pipeline (config : Json) : result unit :=
  let* patch_size := require_integer config (bytes_of "patch_size") in
  do* throw_if (negb (patch_size =? 16)) InvalidArgument;
  let* temporal_patch_size := require_integer config (bytes_of "temporal_patch_size") in
  do* throw_if (negb (temporal_patch_size =? 2)) InvalidArgument;
  let* merge_size := require_integer config (bytes_of "merge_size") in
  do* throw_if (negb (merge_size =? 2)) InvalidArgument;
  do* require_half_triplet config (bytes_of "image_mean");
  do* require_half_triplet config (bytes_of "image_std");
  let* rescale := number_or_default config (bytes_of "rescale_factor") kRescaleFactor in
  throw_if (negb (f64_eqb rescale kRescaleFactor)) InvalidArgument.

Record FrontendResources : Set := mkResources {
  r_tokenizer_json : list Z; r_tokenizer_config_json : list Z; r_chat_template_jinja : list Z;
  r_generation_config_json : list Z; r_preprocessor_config_json : list Z; r_video_preprocessor_config_json : list Z;
}.

Definition processor_options (resources : FrontendResources) : result ProcessorOptions :=
  let* image := parse_resource_json (r_preprocessor_config_json resources) in
  let* video := parse_resource_json (r_video_preprocessor_config_json resources) in
  do* validate_pixel_pipeline image;
  do* validate_pixel_pipeline video;
  let* image_size := require_object image (bytes_of "size") in
  let* video_size := require_object video (bytes_of "size") in
  let pixels size field := let* n := require_integer size field in positive_u64 n in
  let* image_min := pixels image_size (bytes_of "shortest_edge") in
  let* image_max := pixels image_size (bytes_of "longest_edge") in
  let* video_min := pixels video_size (bytes_of "shortest_edge") in
  let* video_max := pixels video_size (bytes_of "longest_edge") in
  let* fps := number_or_default video (bytes_of "fps") kVideoFps in
  let* min_frames := integer_or_default video (bytes_of "min_frames") kVideoMinFrames in
  let* max_frames := integer_or_default video (bytes_of "max_frames") kVideoMaxFrames in
  let min_frames := to_i32 (u32 min_frames) in
  let max_frames := to_i32 (u32 max_frames) in
  do* throw_if (negb (f64_eqb fps kVideoFps) || negb (min_frames =? kVideoMinFrames) ||
                negb (max_frames =? kVideoMaxFrames)) InvalidArgument;
  Ok (mkProcessorOptions image_min image_max video_min video_max 268435456 67108864 134217728 100000 f64_600
        (kMaximumVisionTokens * kRawPatchesPerVisionToken) kMaximumVisionTokens fps min_frames max_frames).

(** [json::value(field, default)] of a boolean. *)
Definition bool_value (object : Json) (field : list Z) (default_value : bool) : result bool :=
  match json_field object field with
  | None => Ok default_value
  | Some (JBool b) => Ok b
  | Some _ => Err JsonException
  end.

Definition validate_tokenizer_config (resources : FrontendResources) : result unit :=
  let* config := parse_resource_json (r_tokenizer_config_json resources) in
  let* bos := bool_value config (bytes_of "add_bos_token") true in
  do* throw_if bos InvalidArgument;
  let* space := bool_value config (bytes_of "add_prefix_space") true in
  do* throw_if space InvalidArgument;
  let* pad := require_string_field config (bytes_of "pad_token") in
  do* throw_if (negb (bool_decide (pad = bytes_of "<|endoftext|>"))) InvalidArgument;
  let* chat_template := require_string_field config (bytes_of "chat_template") in
  throw_if (negb (bool_decide (chat_template = r_chat_template_jinja resources))) InvalidArgument.

Definition compile_chat_template (resources : FrontendResources) : result ChatTemplateSemantics :=
  do* validate_tokenizer_config resources; resolve (r_chat_template_jinja resources).

(** ** The frontend *)

Definition kVisionSpecialTokens : list (list Z * Z) :=
  [(kVisionStart, 248053); (kVisionEnd, 248054); (kImagePad, 248056); (kVideoPad, 248057)].
Definition kConfigOnlyTokens : list (list Z * Z) :=
  [(bytes_of "<|audio_start|>", 248070); (bytes_of "<|audio_end|>", 248071); (bytes_of "<tts_pad>", 248072);
   (bytes_of "<tts_text_bos>", 248073); (bytes_of "<tts_text_eod>", 248074); (bytes_of "<tts_text_bos_single>", 248075);
   (bytes_of "<|audio_pad|>", 248076)].

Record FrontendOptions : Set := mkFrontendOptions {
  fo_vision_enabled : bool; fo_max_context : Z; fo_media_cache_bytes : Z; fo_media_live_bytes : Z;
  fo_media_preprocess_threads : Z;
}.

Record Frontend : Type := mkFrontend {
  fe_chat_template : ChatTemplateSemantics;
  fe_tokenizer : Tokenizer;
  fe_processor : ProcessorOptions;
  fe_media_cache : option World;
  fe_vision_enabled : bool;
  fe_defaults : list Z;
}.

Definition limit_vision (tokens : Z) (o : ProcessorOptions) : ProcessorOptions :=
  mkProcessorOptions (image_min_pixels o) (image_max_pixels o) (video_min_pixels o) (video_max_pixels o)
    (max_encoded_media_bytes o) (max_decoded_pixels o) (max_decoded_video_pixels o) (max_video_source_frames o)
    (max_video_duration_seconds o) (u64 (tokens * kRawPatchesPerVisionToken)) tokens (video_fps o) (video_min_frames o)
    (video_max_frames o).

Context `{CharacterTables}.

Definition validate_registered_tokenizer (t : Tokenizer) : result unit :=
  do* throw_if (negb (has_exact_token_domain t kTokenDomain)) InvalidArgument;
  do* riter (fun '(text, expected) => validate_special_token t text expected) kVisionSpecialTokens;
  riter (fun '(text, expected) =>
    do* validate_special_token t text expected;
    throw_if (negb (is_special_token t expected)) InvalidArgument) kConfigOnlyTokens.

(** [Frontend::Impl::Impl]; [hardware_concurrency] is what the standard library detects. *)
Definition make_frontend (hardware_concurrency : Z) (resources : FrontendResources) (registered_checkpoint : bool)
    (options : FrontendOptions) : result Frontend :=
  let* chat_template := compile_chat_template resources in
  let* tokenizer := make_tokenizer json_parse (r_tokenizer_json resources) (r_tokenizer_config_json resources)
                      (r_generation_config_json resources) in
  let* processor := processor_options resources in
  do* throw_if (fo_max_context options =? 0) InvalidArgument;
  let vision_tokens := Z.min (fo_max_context options) kMaximumVisionTokens in
  let processor := limit_vision vision_tokens processor in
  let* media_cache :=
    if fo_vision_enabled options then
      let minimum_live := u64 (max_raw_patches processor * kPatchFeatures * 2) in
      do* throw_if (minimum_live >? fo_media_live_bytes options) InvalidArgument;
      let* cache := make_cache (fo_media_cache_bytes options) (fo_media_live_bytes options)
                      (fo_media_preprocess_threads options) hardware_concurrency minimum_live in
      Ok (Some cache)
    else Ok None in
  do* (if registered_checkpoint then validate_registered_tokenizer tokenizer else Ok tt);
  do* riter (fun token => throw_if (negb (tokenizer_is_valid_token tokenizer token)) InvalidArgument)
        (default_stop_token_ids_ tokenizer);
  Ok (mkFrontend chat_template tokenizer processor media_cache (fo_vision_enabled options)
        (default_stop_token_ids_ tokenizer)).
End Config.

(** ** Prompts *)

(** [convert_messages]: a medium owns its bytes. *)
Definition convert_part (p : MessagePart) : result MessagePart :=
  match p with
  | TextPart t => Ok (TextPart t)
  | MediaPart m => do* throw_if (bool_decide (md_bytes m = [])) InvalidArgument; Ok (MediaPart m)
  end.
Definition convert_messages (messages : list Message) : result (list Message) :=
  rmapM (fun m =>
    let* parts := rmapM convert_part (msg_parts m) in
    Ok (mkInputMessage (msg_role m) parts (msg_reasoning m) (msg_tool_calls m) (msg_tool_call_id m))) messages.

Definition messages_have_media (messages : list Message) : bool :=
  existsb (fun m => ChatTemplate.has_media (template_message m)) messages.

Definition checked_token_count (count : Z) : result Z :=
  do* throw_if (count =? 0) InvalidArgument;
  do* throw_if (count >? u32_max) InvalidArgument;
  Ok count.

(** [assign_text_positions]: the types, the positions and the delta. *)
Definition assign_text_positions (count : nat) : result (list Z * list Z * Z) :=
  do* throw_if (Z.of_nat count >? i32_max + 1) InvalidArgument;
  Ok (replicate count 0, concat (replicate 3 (seqZ 0 (Z.of_nat count))), 0).

Definition convert_vision_item (item : VisionItem) : VisionItem :=
  mkVisionItem (match modality item with Image => Image | Video => Video end)
    (mkGrid (temporal (grid item)) (height (grid item)) (width (grid item))) (patch_begin item) (patch_count item)
    (content_digest item) (timestamps item) ((fun s => mkTokenSpan (ts_begin s) (ts_count s)) <$> token_spans item).

(** [catch (const fi::ProcessorError&)] *)
Definition throw_processor_error {A} (r : result A) : result A :=
  match r with Err ProcessorError => Err (RequestError MediaBudgetExceeded) | _ => r end.

Section Prepare.
Context `{CharacterTables} `{OrderedJsonText} `{TimestampText}.
Context (frontend : Frontend).

(** The conversation after the checks that come first. *)
Definition accept_messages (messages : list Message) : result (list Message * bool) :=
  let* messages := convert_messages messages in
  let media := messages_have_media messages in
  do* throw_if (media && negb (fe_vision_enabled frontend)) InvalidArgument;
  Ok (messages, media).

Definition process_media (messages : list Message) (options : ChatRenderOptions) (controls : Controls)
    (outcome : nat -> MediaOutcome) : result ProcessedInput :=
  do* make_processor (fe_tokenizer frontend) (fe_processor frontend) (is_some (fe_media_cache frontend));
  throw_processor_error
    (process (fe_tokenizer frontend) (fe_chat_template frontend) (fe_processor frontend) messages options controls outcome).

Definition media_prompt (p : ProcessedInput) : PreparedPromptData :=
  mkPrompt (pi_input_ids p) (pi_token_types p) (pi_positions p) (pi_rope_delta p)
    ((fun m => Some (patch_elements m)) <$> pi_media_payloads p) (convert_vision_item <$> pi_vision_items p)
    (mkPromptIdentity true (pi_rewrite_checkpoint p)) (ps_raw_patches (pi_stats p)) (ps_vision_tokens (pi_stats p)).

(** The prompt, and whether the answer starts inside a reasoning. *)
Definition prepare (messages : list Message) (options : ChatRenderOptions) (start : result unit) (controls : Controls)
    (outcome : nat -> MediaOutcome) : result (PreparedPromptData * bool) :=
  do* start;
  let* (messages, media) := accept_messages messages in
  let* prompt :=
    if media then let* processed := process_media messages options controls outcome in Ok (media_prompt processed)
    else
      let* rendered := render (fe_chat_template frontend) options (template_message <$> messages) in
      let* encoded := encode_rendered_chat (fe_tokenizer frontend) rendered in
      do* after_tokenization controls;
      let* (types, positions, delta) := assign_text_positions (length (ec_input_ids encoded)) in
      Ok (mkPrompt (ec_input_ids encoded) types positions delta [] []
            (mkPromptIdentity true (ec_rewrite_checkpoint encoded)) 0 0) in
  let* _ := checked_token_count (Z.of_nat (length (token_ids prompt))) in
  Ok (prompt, add_generation_prompt options && enable_thinking options).

Definition count_tokens (messages : list Message) (options : ChatRenderOptions) (start : result unit) (controls : Controls)
    (outcome : nat -> MediaOutcome) : result Z :=
  do* start;
  let* (messages, media) := accept_messages messages in
  if media then
    let* processed := process_media messages options controls outcome in
    checked_token_count (Z.of_nat (length (pi_input_ids processed)))
  else
    let* rendered := render (fe_chat_template frontend) options (template_message <$> messages) in
    let* ids := encode (fe_tokenizer frontend) (text rendered) true in
    let* count := checked_token_count (Z.of_nat (length ids)) in
    do* after_tokenization controls;
    Ok count.

Definition prepare_tokens (ids : list Z) (allow_prefix_identity : bool) : result PreparedPromptData :=
  let* _ := checked_token_count (Z.of_nat (length ids)) in
  do* riter (fun token => throw_if (negb (tokenizer_is_valid_token (fe_tokenizer frontend) token)) OutOfRange) ids;
  let* (types, positions, delta) := assign_text_positions (length ids) in
  Ok (mkPrompt ids types positions delta [] [] (mkPromptIdentity allow_prefix_identity None) 0 0).
End Prepare.
