(* ===== verification/VisionControl.v ===== *)
(** * Vision control metadata: [targets/qwen3_6/impl/vision/control.cpp]

    Where the embeddings of each vision item go in the prompt, and the bounds of its segments.  The
    interpolation tables of the position embedding (floating-point weights) are not modelled. *)
From S2P Require Import Prelude PrefixIdentity.
#[local] Open Scope Z_scope.

Definition kMerge : Z := 2.

Record VisionItemControl : Set := mkControl {
  vc_modality : PromptModality;
  vc_grid : VisionGrid;
  vc_patch_begin : Z;
  vc_patch_count : Z;
  merged_count : Z;
  segment_length : Z;
  segment_count : Z;
  position_ids : list Z;
  cu_seqlens : list Z;
  scatter_indices : list Z;
}.

(** [checked_i32] of this file, for a [size_t]. *)
Definition vc_checked_i32 (value : Z) : result Z :=
  do* throw_if (value >? i32_max) OverflowError; Ok value.

(** The loop over the token spans of an item: its scatter indices, its tokens and the position after
    its last span. *)
Fixpoint control_spans (types : list Z) (expected : Z) (spans : list TokenSpan)
    (scatter : list Z) (item_tokens next_span_begin : Z) : result (list Z * Z) :=
  match spans with
  | [] => Ok (scatter, item_tokens)
  | span :: spans' =>
      let size := Z.of_nat (length types) in
      do* throw_if ((ts_count span =? 0) || (ts_begin span >? size) ||
                    (ts_count span >? size - ts_begin span)) InvalidArgument;
      do* throw_if (ts_begin span <? next_span_begin) InvalidArgument;
      do* throw_if (negb (forallb (fun value => value =? expected)
             (take (Z.to_nat (ts_count span)) (drop (Z.to_nat (ts_begin span)) types)))) InvalidArgument;
      let* indices := rmapM vc_checked_i32 (seqZ (ts_begin span) (ts_count span)) in
      control_spans types expected spans' (scatter ++ indices) (u64 (item_tokens + ts_count span))
        (ts_begin span + ts_count span)
  end.

(** The coordinates of the patches of one temporal step, in the order of the four inner loops. *)
Definition patch_coordinates (h w : Z) : list (Z * Z) :=
  concat ((fun block_y => concat ((fun block_x => concat ((fun inner_y => (fun inner_x =>
    (block_y * kMerge + inner_y, block_x * kMerge + inner_x)) <$> seqZ 0 kMerge) <$> seqZ 0 kMerge))
    <$> seqZ 0 (w / kMerge))) <$> seqZ 0 (h / kMerge)).

(** The loop over the temporal steps: the segment bounds, and the coordinates. *)
Fixpoint control_segments (steps : nat) (h w : Z) (cu : list Z) (coords : list (Z * Z))
  : result (list Z * list (Z * Z)) :=
  match steps with
  | O => Ok (cu, coords)
  | S steps' =>
      let next := List.last cu 0 + h * w in
      do* throw_if (next >? i32_max) OverflowError;
      control_segments steps' h w (cu ++ [next]) (coords ++ patch_coordinates h w)
  end.

Record ControlState : Set := mkControlState {
  cs_items : list VisionItemControl; patch_cursor : Z; token_cursor : Z;
}.

(** One turn of the loop over the vision items. *)
Definition control_item (prompt : PreparedPromptData) (st : ControlState) (item : VisionItem)
  : result ControlState :=
  let t := temporal (grid item) in let h := height (grid item) in let w := width (grid item) in
  do* throw_if ((t <=? 0) || (h <=? 0) || (w <=? 0) || negb (h mod kMerge =? 0) || negb (w mod kMerge =? 0))
        InvalidArgument;
  let item_patches := u64 (t * h * w) in
  do* throw_if (negb (patch_begin item =? patch_cursor st) || negb (patch_count item =? item_patches))
        InvalidArgument;
  let expected_spans := match modality item with Video => t | Image => 1 end in
  do* throw_if (negb (Z.of_nat (length (token_spans item)) =? expected_spans)) InvalidArgument;
  let next_span_begin :=
    if token_cursor st =? 0 then 0
    else match last (cs_items st) with Some c => List.last (scatter_indices c) 0 + 1 | None => 0 end in
  let* (scatter, item_tokens) := control_spans (token_types prompt) (modality_value (modality item))
                                    (token_spans item) [] 0 next_span_begin in
  do* throw_if (negb (item_tokens =? item_patches / (kMerge * kMerge))) InvalidArgument;
  let* (cu, coords) := control_segments (Z.to_nat t) h w [0] [] in
  let* patches := vc_checked_i32 item_patches in
  do* throw_if (negb (Z.of_nat (length coords) =? item_patches) ||
                negb (Z.of_nat (length scatter) =? item_tokens) ||
                negb (List.last cu 0 =? patches)) InvalidArgument;
  Ok (mkControlState
        (cs_items st ++ [mkControl (modality item) (grid item) (patch_begin item) (patch_count item)
                           item_tokens (h * w) t (coords.*1 ++ coords.*2) cu scatter])
        (u64 (patch_cursor st + item_patches)) (u64 (token_cursor st + item_tokens))).

(** [build_vision_control]: the items of the control. *)
Definition build_vision_control (prompt : PreparedPromptData) : result (list VisionItemControl) :=
  do* throw_if (negb (length (token_ids prompt) =? length (token_types prompt))%nat) InvalidArgument;
  let* st := rfoldl (control_item prompt) (mkControlState [] 0 0) (vision_items prompt) in
  do* throw_if (negb (patch_cursor st =? raw_patches prompt) || negb (token_cursor st =? vision_tokens prompt) ||
                negb (length (cs_items st) =? length (vision_items prompt))%nat) InvalidArgument;
  Ok (cs_items st).

(** ** Correctness *)

Definition span_indices (spans : list TokenSpan) : list Z :=
  concat ((fun s => seqZ (ts_begin s) (ts_count s)) <$> spans).
Definition spans_unsigned (spans : list TokenSpan) : Prop := Forall (fun s => 0 <= ts_count s) spans.

(** An index of the prompt whose token has the type [ty]. *)
Definition typed_index (types : list Z) (ty i : Z) : Prop :=
  0 <= i <= i32_max /\ types !! Z.to_nat i = Some ty.

Lemma vc_checked_i32_Ok x y : vc_checked_i32 x = Ok y <-> x <= i32_max /\ y = x.
Proof.
  unfold vc_checked_i32. destruct (Z.gtb_spec x i32_max); cbn; split; try done; try lia.
  - intros [= <-]. lia.
  - by intros [_ ->].
Qed.
Lemma vc_checked_all l l' : rmapM vc_checked_i32 l = Ok l' -> l' = l /\ Forall (fun x => x <= i32_max) l.
Proof.
  intros H%rmapM_Forall2. induction H as [|x y l l' H _ [IH1 IH2]]; [done|].
  apply vc_checked_i32_Ok in H as [H ->]. subst l'.
  split; [done|by constructor].
Qed.

Lemma StronglySorted_seqZ_lt m n : StronglySorted Z.lt (seqZ m n).
Proof.
  destruct (Z.le_gt_cases n 0); [by rewrite seqZ_nil by lia; constructor|].
  rewrite <- (Z2Nat.id n) by lia. clear. revert m. induction (Z.to_nat n) as [|k IH]; intros m.
  - constructor.
  - rewrite seqZ_cons by lia. replace (Z.pred (Z.of_nat (S k))) with (Z.of_nat k) by lia. constructor; [done|].
    apply Forall_forall. intros x Hx%elem_of_seqZ. lia.
Qed.

Lemma sorted_app (l k : list Z) b : StronglySorted Z.lt l -> StronglySorted Z.lt k ->
  Forall (fun x => x < b) l -> Forall (fun x => b <= x) k -> StronglySorted Z.lt (l ++ k).
Proof.
  intros Hl Hk Hb Hb'. apply StronglySorted_app. split_and!; [|done|done]. intros x y Hx Hy.
  rewrite Forall_forall in Hb, Hb'. specialize (Hb _ Hx). specialize (Hb' _ Hy). lia.
Qed.

Lemma control_spans_Ok types ty spans : spans_unsigned spans -> forall scatter k next scatter' k',
  0 <= next -> control_spans types ty spans scatter k next = Ok (scatter', k') ->
  scatter' = scatter ++ span_indices spans /\ StronglySorted Z.lt (span_indices spans) /\
  Forall (fun i => next <= i /\ typed_index types ty i) (span_indices spans) /\
  Forall (fun s => 0 < ts_count s) spans.
Proof.
  induction 1 as [|s spans Hs _ IH]; intros scatter k next scatter' k' Hn H; cbn [control_spans] in H.
  { injection H as <- <-. unfold span_indices. cbn. rewrite app_nil_r. by repeat constructor. }
  rinv. apply vc_checked_all in Hv2 as [-> Hmax].
  apply IH in H as (-> & H5 & H6 & H7); [|lia]. unfold span_indices. cbn [fmap list_fmap concat].
  rewrite <- app_assoc. fold (span_indices spans). split_and!; [done| | |constructor; [lia|done]].
  - apply sorted_app with (ts_begin s + ts_count s); [apply StronglySorted_seqZ_lt|done| |].
    + apply Forall_forall. intros x Hx%elem_of_seqZ. lia.
    + eapply Forall_impl; [exact H6|]. cbn. lia.
  - apply Forall_app. split.
    + apply Forall_forall. intros x Hx. pose proof Hx as Hx'%elem_of_seqZ.
      rewrite Forall_forall in Hmax. specialize (Hmax _ Hx). split; [lia|]. split; [lia|].
      apply forallb_forall with (x := types !!! Z.to_nat x) in Hv1.
      * apply Z.eqb_eq in Hv1 as <-. apply list_lookup_lookup_total_lt. lia.
      * apply list_elem_of_In, list_elem_of_lookup. exists (Z.to_nat (x - ts_begin s)).
        rewrite lookup_take_lt, lookup_drop by lia.
        replace (Z.to_nat (ts_begin s) + Z.to_nat (x - ts_begin s))%nat with (Z.to_nat x) by lia.
        apply list_lookup_lookup_total_lt. lia.
    + eapply Forall_impl; [exact H6|]. intros x [? ?]. split; [lia|done].
Qed.

(** The items built so far: their scatter indices are strictly increasing, and they describe the vision
    items of the prompt. *)
Definition describes (types : list Z) (item : VisionItem) (c : VisionItemControl) : Prop :=
  vc_modality c = modality item /\ vc_grid c = grid item /\ vc_patch_begin c = patch_begin item /\
  vc_patch_count c = patch_count item /\
  scatter_indices c = span_indices (token_spans item) /\ scatter_indices c <> [] /\
  merged_count c = Z.of_nat (length (scatter_indices c)) /\
  Forall (typed_index types (modality_value (modality item))) (scatter_indices c).

Definition all_indices (items : list VisionItemControl) : list Z := concat (scatter_indices <$> items).

Record control_inv (types : list Z) (done_ : list VisionItem) (st : ControlState) : Prop := {
  ci_items : Forall2 (describes types) done_ (cs_items st);
  ci_sorted : StronglySorted Z.lt (all_indices (cs_items st));
  ci_cursor : token_cursor st = Z.of_nat (length (all_indices (cs_items st)));
}.

Lemma all_indices_app a b : all_indices (a ++ b) = all_indices a ++ all_indices b.
Proof. unfold all_indices. by rewrite fmap_app, concat_app. Qed.

Lemma all_indices_one c : all_indices [c] = scatter_indices c.
Proof. apply app_nil_r. Qed.

Lemma span_indices_nonempty spans : Forall (fun s => 0 < ts_count s) spans -> spans <> [] -> span_indices spans <> [].
Proof.
  intros H Hne. destruct spans as [|s spans]; [done|]. apply Forall_cons in H as [Hs _].
  unfold span_indices. cbn. rewrite seqZ_cons by lia. done.
Qed.

Lemma sorted_range_length (l : list Z) b : StronglySorted Z.lt l -> Forall (fun x => 0 <= x < b) l ->
  Z.of_nat (length l) <= Z.max 0 b.
Proof.
  intros Hs. enough (forall lo, Forall (fun x => lo <= x < b) l -> Z.of_nat (length l) <= Z.max 0 (b - lo)) as H.
  { intros HF. specialize (H 0 HF). lia. }
  induction Hs as [|x l Hs IH Hx]; intros lo HF; cbn [length]; [lia|].
  apply Forall_cons in HF as [? HF]. specialize (IH (x + 1)).
  assert (Forall (fun y => x + 1 <= y < b) l) as HF'.
  { rewrite Forall_forall in *. intros y Hy. specialize (Hx _ Hy). specialize (HF _ Hy). lia. }
  specialize (IH HF'). lia.
Qed.

Lemma Forall_last_lt (l : list Z) y : StronglySorted Z.lt (l ++ [y]) -> Forall (fun x => x < y + 1) (l ++ [y]).
Proof.
  intros H. apply Forall_app. split; [|constructor; [lia|done]]. apply Forall_forall. intros x Hx.
  pose proof (StronglySorted_app_1_elem_of _ _ _ x y H Hx ltac:(by left)). lia.
Qed.

Lemma all_typed types items cs : Forall2 (describes types) items cs ->
  Forall (fun x => 0 <= x < i32_max + 1) (all_indices cs).
Proof.
  induction 1 as [|i c items cs (_ & _ & _ & _ & _ & _ & _ & H) _ IH]; [done|]. unfold all_indices. cbn.
  apply Forall_app. split; [|done]. eapply Forall_impl; [exact H|]. unfold typed_index. lia.
Qed.

(** The position after the last one that is used. *)
Lemma next_bound types done_ st : control_inv types done_ st ->
  let next := if token_cursor st =? 0 then 0
    else match last (cs_items st) with Some c => List.last (scatter_indices c) 0 + 1 | None => 0 end in
  0 <= next /\ Forall (fun x => x < next) (all_indices (cs_items st)).
Proof.
  intros [I1 I2 I3] next. subst next. destruct (Z.eqb_spec (token_cursor st) 0) as [E|E].
  { destruct (all_indices (cs_items st)); [by split|cbn in I3; lia]. }
  destruct (cs_items st) as [|c cs _] eqn:Ecs using rev_ind; [by cbn in I3|].
  rewrite last_snoc. apply Forall2_app_inv_r in I1 as (d1 & d2 & _ & Hd & _).
  inversion Hd as [|i ? ? ? Hi Hnil]; subst. inversion Hnil; subst.
  destruct Hi as (_ & _ & _ & _ & _ & Hne & _ & Ht). rewrite all_indices_app, all_indices_one in *.
  destruct (scatter_indices c) as [|y l _] eqn:El using rev_ind; [done|]. rewrite List.last_last.
  rewrite app_assoc in *. apply Forall_app in Ht as [_ Ht]. apply Forall_cons in Ht as [Ht _].
  split; [unfold typed_index in Ht; lia|]. by apply Forall_last_lt.
Qed.

Lemma control_item_inv prompt done_ st item st' :
  spans_unsigned (token_spans item) -> control_inv (token_types prompt) done_ st ->
  control_item prompt st item = Ok st' -> control_inv (token_types prompt) (done_ ++ [item]) st'.
Proof.
  intros Hu [I1 I2 I3] H. unfold control_item in H. cbv zeta in H. rinv.
  destruct v2 as [scatter k]. rinv. destruct v3 as [cu coords]. rinv. subst st'.
  pose proof (next_bound _ _ _ (Build_control_inv _ _ _ I1 I2 I3)) as Hnext. cbv zeta in Hnext.
  destruct Hnext as [Hn0 Hlt]. apply control_spans_Ok in Hv2 as (-> & S1 & S2 & S3); [|done|done].
  remember (span_indices (token_spans item)) as new eqn:Enew. cbn [app] in *.
  assert (Hdesc : forall c, c = mkControl (modality item) (grid item) (patch_begin item) (patch_count item) k
    (height (grid item) * width (grid item)) (temporal (grid item)) (coords.*1 ++ coords.*2) cu new ->
    describes (token_types prompt) item c).
  { intros c ->. split_and!; try done; cbn.
    - rewrite Enew. apply span_indices_nonempty; [done|]. intros E. rewrite E in *. destruct (modality item); cbn in *; lia.
    - eapply Forall_impl; [exact S2|]. by intros x [_ ?]. }
  assert (Hsorted : StronglySorted Z.lt (all_indices (cs_items st) ++ new)).
  { eapply sorted_app; [done|done|exact Hlt|]. eapply Forall_impl; [exact S2|]. by intros x [? _]. }
  constructor; cbn [cs_items token_cursor].
  - apply Forall2_app; [done|]. constructor; [by apply Hdesc|done].
  - by rewrite all_indices_app, all_indices_one.
  - rewrite all_indices_app, all_indices_one, length_app. cbn [scatter_indices].
    assert (Z.of_nat (length (all_indices (cs_items st) ++ new)) <= i32_max + 1).
    { etransitivity; [apply (sorted_range_length _ (i32_max + 1)); [done|]|unfold_ints; lia].
      apply Forall_app. split; [by eapply all_typed|]. eapply Forall_impl; [exact S2|].
      unfold typed_index. intros x. lia. }
    rewrite length_app in *. rewrite I3. replace k with (Z.of_nat (length new)) by lia.
    rewrite u64_small by (unfold_ints; lia). lia.
Qed.

Lemma control_items_inv prompt items done_ st st' :
  Forall (fun i => spans_unsigned (token_spans i)) items -> control_inv (token_types prompt) done_ st ->
  rfoldl (control_item prompt) st items = Ok st' -> control_inv (token_types prompt) (done_ ++ items) st'.
Proof.
  intros Hu. revert done_ st. induction Hu as [|i items Hi _ IH]; intros done_ st Hinv H; cbn in H.
  - injection H as <-. by rewrite app_nil_r.
  - rinv. replace (done_ ++ i :: items) with ((done_ ++ [i]) ++ items) by (by rewrite <- app_assoc).
    eapply IH; [|exact H]. by eapply control_item_inv.
Qed.

(** The controls of a prompt describe its vision items, in order, and their embeddings go to strictly
    increasing positions of the prompt which have the type of their item. *)
Lemma build_vision_control_Ok prompt items :
  Forall (fun i => spans_unsigned (token_spans i)) (vision_items prompt) ->
  build_vision_control prompt = Ok items ->
  Forall2 (describes (token_types prompt)) (vision_items prompt) items /\
  StronglySorted Z.lt (all_indices items).
Proof.
  intros Hu H. unfold build_vision_control in H. rinv. subst items.
  eapply (control_items_inv _ _ []) in Hv0 as [I1 I2 _]; [by split|done|].
  constructor; [constructor|constructor|done].
Qed.
