(* ===== verification/ProgramState.v ===== *)
(** * The state of the model program: [targets/qwen3_6/impl/runtime/program.h]

    A lane has a [SequenceState], the continuation that stays meaningful after a request (its KV
    pages, its ledger of tokens and the frontiers of the device state), and a [RequestControl], the
    life cycle of the request it serves.

    The device is the class [Device]: an arbitrary state, commands that may fail, and what the host
    reads back.  The static configuration is the class [ProgramConfig]. *)
From S2P Require Import Prelude Tensor Layout PagedKV PrefixIdentity VisionControl Admission Capacity Contract.
#[local] Open Scope Z_scope.

(** ** Plans *)

Inductive SpeculativeBackend : Set := NoSpeculation | Mtp | DFlash.
#[export] Instance SpeculativeBackend_eq_dec : EqDecision SpeculativeBackend.
Proof. solve_decision. Defined.

Inductive ReusePath : Set := FullReset | AppendAtFrontier | RestoreTurnCheckpoint | RestoreResponseCheckpoint.
#[export] Instance ReusePath_eq_dec : EqDecision ReusePath.
Proof. solve_decision. Defined.

Definition is_rewrite_checkpoint_restore (path : ReusePath) : bool :=
  match path with RestoreTurnCheckpoint | RestoreResponseCheckpoint => true | _ => false end.

Definition restore_path (kind : RewriteCheckpointKind) : ReusePath :=
  match kind with TurnClosure => RestoreTurnCheckpoint | ResponseReplay => RestoreResponseCheckpoint end.

Inductive RewriteCheckpointAction : Set := Drop | KeepExisting | ReclassifyExisting | CaptureNew | DeferCapture.
#[export] Instance RewriteCheckpointAction_eq_dec : EqDecision RewriteCheckpointAction.
Proof. solve_decision. Defined.

Inductive MtpBridgeMode : Set := NoBridge | BeforeSuffix | AfterExactHit.
#[export] Instance MtpBridgeMode_eq_dec : EqDecision MtpBridgeMode.
Proof. solve_decision. Defined.

(** [ops::SamplingConfig]; a [float] is its bit pattern, [token_counts] is whether it is not null. *)
Record SamplingConfig : Set := mkSampling {
  temperature : Z; top_k : Z; top_p : Z; min_p : Z; presence_penalty : Z; frequency_penalty : Z;
  seed : Z; token_counts : bool;
}.

Record VisionUseSpan : Set := mkUse { vu_begin : Z; vu_end : Z; item_index : Z }.

Record VisionPrefillPlan : Set := mkVisionPlan { vp_control : list VisionItemControl; vp_uses : list VisionUseSpan }.

Record RequestBasePlan : Set := mkBasePlan {
  bp_summary : RequestPlanSummary;
  bp_sampling : SamplingConfig;
  bp_text_kv_page_entitlement : Z;
  bp_backend_kv_page_entitlement : Z;
  bp_vision_control : option (list VisionItemControl);
  bp_vision_transient_bytes : Z;
  bp_rewrite_checkpoint : option RewriteCheckpointSpec;
  bp_allow_prefix_reuse : bool;
}.

Record RequestPlan : Set := mkRequestPlan {
  rp_summary : RequestPlanSummary;
  rp_reuse : ReusePath;
  rp_reuse_base : Z;
  rp_mtp_bridge : MtpBridgeMode;
  rp_prepare_mtp : bool;
  rp_vision : option VisionPrefillPlan;
  rp_action : RewriteCheckpointAction;
  rp_capture : option RewriteCheckpointSpec;
  rp_sampling : SamplingConfig;
  rp_text_kv_page_entitlement : Z;
  rp_backend_kv_page_entitlement : Z;
}.

(** ** Lanes *)

Inductive PendingKind : Set := PendingNone | Begin | Ordinary | Speculative.
#[export] Instance PendingKind_eq_dec : EqDecision PendingKind.
Proof. solve_decision. Defined.

Record PendingCandidate : Set := mkPending {
  pc_kind : PendingKind; base_E : Z; base_S : Z; pc_prompt_tokens : Z; produced : Z;
}.
Definition no_pending : PendingCandidate := mkPending PendingNone 0 0 0 0.

Inductive Lifecycle : Set := Empty | Prefilling | Active | Pending | Complete.
#[export] Instance Lifecycle_eq_dec : EqDecision Lifecycle.
Proof. solve_decision. Defined.

Record RewriteCheckpoint : Set := mkCheckpoint {
  rc_valid : bool; rc_kind : RewriteCheckpointKind; rc_frontier : Z;
}.
Definition no_checkpoint : RewriteCheckpoint := mkCheckpoint false TurnClosure 0.

(** [SequenceKVBundle]: the addresses of its allocations. *)
Record SequenceKVBundle : Set := mkBundle { kv_text : Z; kv_backend : option Z }.

(** [SequenceState]; its hidden states are on the device, and [lane] is its index. *)
Record SequenceState : Type := mkSequence {
  kv : option SequenceKVBundle;
  execution_frontier : Z;
  ledger_frontier : Z;
  ledger : list Z;
  prefix_identity : ResidentPrefixIdentity;
  sq_rope_delta : Z;
  text_kv_valid : Z;
  mtp_kv_valid : Z;
  dflash_context_frontier : Z;
  mtp_drafts : list Z;
  mtp_draft_count : Z;
  tail_hidden_valid : bool;
  retained : bool;
  rewrite_checkpoint : RewriteCheckpoint;
}.

(** Speculation statistics of a request. *)
Record SpeculativeStats : Set := mkStats {
  fallback_steps : Z; rounds : Z; drafted_tokens : Z; accepted_drafts_ : Z; accepted_per_position : list Z;
}.

(** [RequestControl::Prefill] *)
Record Prefill : Type := mkPrefill {
  pf_prompt : PreparedPromptData;
  vision_plan : option VisionPrefillPlan;
  pf_vision : option (list Z);      (**r the items whose payload is encoded but not released *)
  pf_transient : TransientRegion;
  pf_capture : option RewriteCheckpointSpec;
  pf_base : Z;
  pf_cursor : Z;
  pf_prompt_tokens : Z;
  initial_mtp_extent : Z;
  pf_prepare_mtp : bool;
  pf_reuse : ReusePath;
  pf_mtp_bridge : MtpBridgeMode;
}.

(** [RequestControl], without timings. *)
Record RequestControl : Type := mkControlBlock {
  lifecycle : Lifecycle;
  pending : PendingCandidate;
  sampling_host : SamplingConfig;
  speculative_stats : SpeculativeStats;
  prefill : option Prefill;
}.

(** Field updates. *)
Definition set_kv (v : option SequenceKVBundle) (x : SequenceState) : SequenceState :=
  mkSequence v (execution_frontier x) (ledger_frontier x) (ledger x) (prefix_identity x)
    (sq_rope_delta x) (text_kv_valid x) (mtp_kv_valid x) (dflash_context_frontier x) (mtp_drafts x)
    (mtp_draft_count x) (tail_hidden_valid x) (retained x) (rewrite_checkpoint x).
Definition set_execution_frontier (v : Z) (x : SequenceState) : SequenceState :=
  mkSequence (kv x) v (ledger_frontier x) (ledger x) (prefix_identity x) (sq_rope_delta x)
    (text_kv_valid x) (mtp_kv_valid x) (dflash_context_frontier x) (mtp_drafts x)
    (mtp_draft_count x) (tail_hidden_valid x) (retained x) (rewrite_checkpoint x).
Definition set_ledger_frontier (v : Z) (x : SequenceState) : SequenceState :=
  mkSequence (kv x) (execution_frontier x) v (ledger x) (prefix_identity x) (sq_rope_delta x)
    (text_kv_valid x) (mtp_kv_valid x) (dflash_context_frontier x) (mtp_drafts x)
    (mtp_draft_count x) (tail_hidden_valid x) (retained x) (rewrite_checkpoint x).
Definition set_ledger (v : list Z) (x : SequenceState) : SequenceState :=
  mkSequence (kv x) (execution_frontier x) (ledger_frontier x) v (prefix_identity x)
    (sq_rope_delta x) (text_kv_valid x) (mtp_kv_valid x) (dflash_context_frontier x) (mtp_drafts x)
    (mtp_draft_count x) (tail_hidden_valid x) (retained x) (rewrite_checkpoint x).
Definition set_prefix_identity (v : ResidentPrefixIdentity) (x : SequenceState) : SequenceState :=
  mkSequence (kv x) (execution_frontier x) (ledger_frontier x) (ledger x) v (sq_rope_delta x)
    (text_kv_valid x) (mtp_kv_valid x) (dflash_context_frontier x) (mtp_drafts x)
    (mtp_draft_count x) (tail_hidden_valid x) (retained x) (rewrite_checkpoint x).
Definition set_sq_rope_delta (v : Z) (x : SequenceState) : SequenceState :=
  mkSequence (kv x) (execution_frontier x) (ledger_frontier x) (ledger x) (prefix_identity x) v
    (text_kv_valid x) (mtp_kv_valid x) (dflash_context_frontier x) (mtp_drafts x)
    (mtp_draft_count x) (tail_hidden_valid x) (retained x) (rewrite_checkpoint x).
Definition set_text_kv_valid (v : Z) (x : SequenceState) : SequenceState :=
  mkSequence (kv x) (execution_frontier x) (ledger_frontier x) (ledger x) (prefix_identity x)
    (sq_rope_delta x) v (mtp_kv_valid x) (dflash_context_frontier x) (mtp_drafts x)
    (mtp_draft_count x) (tail_hidden_valid x) (retained x) (rewrite_checkpoint x).
Definition set_mtp_kv_valid (v : Z) (x : SequenceState) : SequenceState :=
  mkSequence (kv x) (execution_frontier x) (ledger_frontier x) (ledger x) (prefix_identity x)
    (sq_rope_delta x) (text_kv_valid x) v (dflash_context_frontier x) (mtp_drafts x)
    (mtp_draft_count x) (tail_hidden_valid x) (retained x) (rewrite_checkpoint x).
Definition set_dflash_context_frontier (v : Z) (x : SequenceState) : SequenceState :=
  mkSequence (kv x) (execution_frontier x) (ledger_frontier x) (ledger x) (prefix_identity x)
    (sq_rope_delta x) (text_kv_valid x) (mtp_kv_valid x) v (mtp_drafts x) (mtp_draft_count x)
    (tail_hidden_valid x) (retained x) (rewrite_checkpoint x).
Definition set_mtp_drafts (v : list Z) (x : SequenceState) : SequenceState :=
  mkSequence (kv x) (execution_frontier x) (ledger_frontier x) (ledger x) (prefix_identity x)
    (sq_rope_delta x) (text_kv_valid x) (mtp_kv_valid x) (dflash_context_frontier x) v
    (mtp_draft_count x) (tail_hidden_valid x) (retained x) (rewrite_checkpoint x).
Definition set_mtp_draft_count (v : Z) (x : SequenceState) : SequenceState :=
  mkSequence (kv x) (execution_frontier x) (ledger_frontier x) (ledger x) (prefix_identity x)
    (sq_rope_delta x) (text_kv_valid x) (mtp_kv_valid x) (dflash_context_frontier x) (mtp_drafts x)
    v (tail_hidden_valid x) (retained x) (rewrite_checkpoint x).
Definition set_tail_hidden_valid (v : bool) (x : SequenceState) : SequenceState :=
  mkSequence (kv x) (execution_frontier x) (ledger_frontier x) (ledger x) (prefix_identity x)
    (sq_rope_delta x) (text_kv_valid x) (mtp_kv_valid x) (dflash_context_frontier x) (mtp_drafts x)
    (mtp_draft_count x) v (retained x) (rewrite_checkpoint x).
Definition set_retained (v : bool) (x : SequenceState) : SequenceState :=
  mkSequence (kv x) (execution_frontier x) (ledger_frontier x) (ledger x) (prefix_identity x)
    (sq_rope_delta x) (text_kv_valid x) (mtp_kv_valid x) (dflash_context_frontier x) (mtp_drafts x)
    (mtp_draft_count x) (tail_hidden_valid x) v (rewrite_checkpoint x).
Definition set_rewrite_checkpoint (v : RewriteCheckpoint) (x : SequenceState) : SequenceState :=
  mkSequence (kv x) (execution_frontier x) (ledger_frontier x) (ledger x) (prefix_identity x)
    (sq_rope_delta x) (text_kv_valid x) (mtp_kv_valid x) (dflash_context_frontier x) (mtp_drafts x)
    (mtp_draft_count x) (tail_hidden_valid x) (retained x) v.
Definition set_pf_prompt (v : PreparedPromptData) (x : Prefill) : Prefill :=
  mkPrefill v (vision_plan x) (pf_vision x) (pf_transient x) (pf_capture x) (pf_base x)
    (pf_cursor x) (pf_prompt_tokens x) (initial_mtp_extent x) (pf_prepare_mtp x) (pf_reuse x)
    (pf_mtp_bridge x).
Definition set_pf_vision (v : option (list Z)) (x : Prefill) : Prefill :=
  mkPrefill (pf_prompt x) (vision_plan x) v (pf_transient x) (pf_capture x) (pf_base x)
    (pf_cursor x) (pf_prompt_tokens x) (initial_mtp_extent x) (pf_prepare_mtp x) (pf_reuse x)
    (pf_mtp_bridge x).
Definition set_pf_cursor (v : Z) (x : Prefill) : Prefill :=
  mkPrefill (pf_prompt x) (vision_plan x) (pf_vision x) (pf_transient x) (pf_capture x) (pf_base x)
    v (pf_prompt_tokens x) (initial_mtp_extent x) (pf_prepare_mtp x) (pf_reuse x) (pf_mtp_bridge x).
Definition set_pf_mtp_bridge (v : MtpBridgeMode) (x : Prefill) : Prefill :=
  mkPrefill (pf_prompt x) (vision_plan x) (pf_vision x) (pf_transient x) (pf_capture x) (pf_base x)
    (pf_cursor x) (pf_prompt_tokens x) (initial_mtp_extent x) (pf_prepare_mtp x) (pf_reuse x) v.
Definition set_lifecycle (v : Lifecycle) (x : RequestControl) : RequestControl :=
  mkControlBlock v (pending x) (sampling_host x) (speculative_stats x) (prefill x).
Definition set_pending (v : PendingCandidate) (x : RequestControl) : RequestControl :=
  mkControlBlock (lifecycle x) v (sampling_host x) (speculative_stats x) (prefill x).
Definition set_sampling_host (v : SamplingConfig) (x : RequestControl) : RequestControl :=
  mkControlBlock (lifecycle x) (pending x) v (speculative_stats x) (prefill x).
Definition set_speculative_stats (v : SpeculativeStats) (x : RequestControl) : RequestControl :=
  mkControlBlock (lifecycle x) (pending x) (sampling_host x) v (prefill x).
Definition set_prefill (v : option Prefill) (x : RequestControl) : RequestControl :=
  mkControlBlock (lifecycle x) (pending x) (sampling_host x) (speculative_stats x) v.

(** ** CUDA graphs *)

Record DecodeGraphProfile : Set := mkProfile {
  gp_batch_size : Z; min_execution_frontier : Z; max_execution_frontier : Z; gp_topology_class : Z;
}.
Record DecodeGraphTopology : Set := mkTopology { topology_class : Z; installed_profile : option nat }.
Record DecodeGraphFamily : Set := mkFamily {
  profiles : list DecodeGraphProfile; topologies : list DecodeGraphTopology;
}.
Inductive FamilyName : Set := OrdinaryGraphs | MtpGraphs | DFlashGraphs.

(** ** The device *)

(** The scalar control cells of the round state. *)
Inductive I32Cell : Set :=
| CellPos | CellRopePos | CellRopeDelta | CellMtpPosition | CellTextKvTableRow | CellBackendKvTableRow.

(** Hidden states: a lane's tail, a lane's rewrite checkpoint, a column of the last prefill chunk. *)
Inductive HiddenSource : Set := TailHidden (lane : nat) | CheckpointHidden (lane : nat) | PrefillHidden (column : Z).

Record OrdinaryRow : Set := mkOrdinaryRow {
  or_token : Z; or_cache_position : Z; or_rope_position : Z; or_text_kv_table_row : Z; or_lane : nat;
  or_sampling : SamplingConfig;
}.
Record MtpRow : Set := mkMtpRow {
  mr_anchor : Z; mr_base_frontier : Z; mr_remaining_budget : Z; mr_current_extent : Z;
  mr_target_valid_columns : Z; mr_current_drafts : list Z; mr_target_rope_positions : list Z;
  mr_text_kv_table_row : Z; mr_mtp_kv_table_row : Z; mr_lane : nat; mr_rope_delta : Z;
  mr_sampling : SamplingConfig;
}.
Record DFlashRow : Set := mkDFlashRow {
  dr_anchor : Z; dr_execution_frontier : Z; dr_context_frontier : Z; dr_proposal_extent : Z;
  dr_target_valid_columns : Z; dr_text_kv_table_row : Z; dr_dflash_kv_table_row : Z; dr_lane : nat;
  dr_sampling : SamplingConfig;
}.
(** A row of the DFlash context append: the lane, its frontiers and its block-table row. *)
Record AppendRow : Set := mkAppendRow {
  ar_lane : nat; ar_context_frontier : Z; ar_execution_frontier : Z; ar_table_row : Z;
}.

(** What a prefill schedule is given: the lane, its text KV frontier, its state slots, the views of its
    caches and the extent of the first MTP proposal. *)
Record PrefillContext : Set := mkPrefillContext {
  px_lane : nat; px_text_kv : Tensor; px_mtp_kv : option Tensor; px_text_kv_base : Z;
  px_current_state_slot : Z; px_rewrite_checkpoint_state_slot : Z; px_mtp_proposal_extent : Z;
}.

(** Asynchronous copies and schedules. *)
Inductive Command : Set :=
| ZeroSlot (slot : Z)
| CopySlot (source destination : Z)
| SetI32 (cell : I32Cell) (value : Z)
| ZeroTokenCounts (lane : nat)
| WriteSampling (lane : nat) (config : SamplingConfig)
| CopyTail (lane : nat) (source : HiddenSource)
| CopyRoundToken
| CopyDraftTokens (count : Z)
| RestoreDFlashCheckpoint (lane : nat)
| UploadDFlashLane (lane : nat) (table_row : Z)
| WriteBridgeToken (token : Z)
| MtpBridgeMultimodal (context : PrefillContext) (previous : HiddenSource) (position : Z) (rope : list Z)
| MtpBridgeAndPropose (context : PrefillContext) (previous : HiddenSource) (position : Z) (rope : list Z)
    (build_proposal : bool)
| SampleFromHidden (context : PrefillContext) (source : HiddenSource) (position : Z)
| UpdateGraph (family : FamilyName) (topology_class : Z) (profile : nat)
| OrdinaryDecodeBatch (rows : list OrdinaryRow) (envelope : Z * Z) (graph : option Z)
| MtpDecodeBatch (rows : list MtpRow) (max_frontier : Z) (graph : option Z)
| DFlashDecodeBatch (rows : list DFlashRow) (max_frontier target_tokens : Z) (graph : option Z)
| GdnReplayFold (rows : list (Z * Z))
| SelectAcceptedHidden (selectors : list Z)
| DFlashAppendContext (rows : list AppendRow) (minimum_count maximum_count : Z).

(** [PrefillChunkResult], and the vision items a multimodal chunk encoded. *)
Record PrefillChunkResult : Set := mkChunk { processed_tokens : Z; finalized : bool; encoded_items : list Z }.

(** [MtpDecodeEgress] and [DFlashDecodeEgress]; the second has no next drafts. *)
Record SpeculativeEgress : Type := mkEgress {
  licensed_tokens : nat -> Z; licensed_counts : nat -> Z; accepted_drafts : nat -> Z;
  next_drafts : nat -> Z; next_extents : nat -> Z;
}.

Class Device : Type := {
  dev : Type;
  enqueue : Command -> M dev unit;
  synchronize : M dev unit;
  prefill_chunk_schedule : PrefillContext -> PreparedPromptData -> bool -> Z -> option Z -> bool -> M dev PrefillChunkResult;
  round_token : dev -> Z;                        (**r [host_tokens[0]] *)
  initial_drafts : dev -> nat -> Z;              (**r the copied draft tokens *)
  sampled_tokens : dev -> nat -> Z;              (**r [ordinary_host_egress] *)
  speculative_egress : dev -> SpeculativeEgress; (**r what a speculative round writes to the host *)
}.

(** ** Configuration *)

Definition token_domain : Z := 248077.
Definition kMtpDecodeMaximumDrafts : nat := 5.

Class ProgramConfig : Type := {
  capacity : Z;
  max_concurrency : Z;
  prefill_chunk : Z;
  draft_window : Z;
  speculative_backend : SpeculativeBackend;
  vision_enabled : bool;
  use_cuda_graph : bool;
  work_capacity : Z;
  text_pool : Z;                       (**r the address of [decoder->text_kv.pool()] *)
  mtp_cache : option Z;                (**r of the pool of [decoder->mtp_cache()] *)
  dflash_full : option Z;              (**r of the pool of [dflash->full] *)
  vision_out_hidden : Z;
  vision_workspace_bytes : VisionItemControl -> result Z;   (**r [VisionContext::workspace_bytes] *)
}.

(** ** The program *)

Section State.
Context `{DV : Device}.

Record Program : Type := mkProgram {
  pg_kv : store;
  sequences : list SequenceState;
  requests : list RequestControl;
  ordinary_graphs : DecodeGraphFamily;
  mtp_graphs : DecodeGraphFamily;
  dflash_graphs : DecodeGraphFamily;
  host_egress : SpeculativeEgress;     (**r [mtp_host_egress], [dflash_host_egress] *)
  pg_dev : dev;
}.

Definition set_pg_kv (v : store) (p : Program) : Program :=
  mkProgram v (sequences p) (requests p) (ordinary_graphs p) (mtp_graphs p) (dflash_graphs p) (host_egress p) (pg_dev p).
Definition set_sequences (v : list SequenceState) (p : Program) : Program :=
  mkProgram (pg_kv p) v (requests p) (ordinary_graphs p) (mtp_graphs p) (dflash_graphs p) (host_egress p) (pg_dev p).
Definition set_requests (v : list RequestControl) (p : Program) : Program :=
  mkProgram (pg_kv p) (sequences p) v (ordinary_graphs p) (mtp_graphs p) (dflash_graphs p) (host_egress p) (pg_dev p).
Definition set_pg_dev (v : dev) (p : Program) : Program :=
  mkProgram (pg_kv p) (sequences p) (requests p) (ordinary_graphs p) (mtp_graphs p) (dflash_graphs p) (host_egress p) v.
Definition set_host_egress (v : SpeculativeEgress) (p : Program) : Program :=
  mkProgram (pg_kv p) (sequences p) (requests p) (ordinary_graphs p) (mtp_graphs p) (dflash_graphs p) v (pg_dev p).

Definition graph_family (name : FamilyName) (p : Program) : DecodeGraphFamily :=
  match name with OrdinaryGraphs => ordinary_graphs p | MtpGraphs => mtp_graphs p | DFlashGraphs => dflash_graphs p end.
Definition set_graph_family (name : FamilyName) (v : DecodeGraphFamily) (p : Program) : Program :=
  match name with
  | OrdinaryGraphs => mkProgram (pg_kv p) (sequences p) (requests p) v (mtp_graphs p) (dflash_graphs p) (host_egress p) (pg_dev p)
  | MtpGraphs => mkProgram (pg_kv p) (sequences p) (requests p) (ordinary_graphs p) v (dflash_graphs p) (host_egress p) (pg_dev p)
  | DFlashGraphs => mkProgram (pg_kv p) (sequences p) (requests p) (ordinary_graphs p) (mtp_graphs p) v (host_egress p) (pg_dev p)
  end.
End State.

(** A lane that has never served a request. *)
Definition sampling_default : SamplingConfig := mkSampling 0 0 0x3f800000 0 0 0 0 false.
Definition stats_default : SpeculativeStats := mkStats 0 0 0 0 [].
Definition sequence_default : SequenceState :=
  mkSequence None 0 0 [] identity_empty 0 0 0 0 (replicate kMtpDecodeMaximumDrafts 0) 0 false false no_checkpoint.
Definition control_default : RequestControl := mkControlBlock Empty no_pending sampling_default stats_default None.
#[export] Instance SequenceState_inhabited : Inhabited SequenceState := populate sequence_default.
#[export] Instance RequestControl_inhabited : Inhabited RequestControl := populate control_default.
