(* ===== verification/Weights.v ===== *)
(** * Views of loaded weights: [src/artifact/typed_binding], [core/tensor.h], [impl/vision/bindings.cpp]

    A [Weight] describes a matrix in device memory by the addresses of its planes.  Binding names the tensors a part
    of a model needs, and after loading the views are made of the addresses of the objects.  Here are the parts the
    models share: single tensors, the resources of the frontend, and the vision backbone.

    A [float] is its 32 bits; a null pointer is 0. *)
From Stdlib Require Import Strings.String.
From S2P Require Import ProgramState Preparation Prelude Tokenizer Tensor Artifact Materialize.
#[local] Open Scope Z_scope.
#[local] Open Scope ninfer_scope.

(** ** [Weight] *)

Inductive QType : Set :=
| Q4G64 | Q5G64 | Q6G64 | W8G32 | BF16_CTRL | FP32_CTRL | I32_CTRL | NVFP4_ | FP8_E4M3FN_ROW.
Inductive QuantLayout : Set := RowSplit | Contiguous | BlockScaleK16M128x4 | RowScale.

Record Weight : Set := mkWeight {
  w_payload : Z; w_payload_bytes : Z; w_high_plane_bytes : Z; w_qtype : QType; w_group_size : Z;
  w_shape : list Z; w_padded_shape : list Z; w_ndim : Z;
  w_qdata : Z; w_qhigh : Z; w_scales : Z; w_n : Z; w_k : Z; w_group : Z; w_layout : QuantLayout; w_scale_dtype : DType;
  w_scale_ne : list Z; w_scale_nb : list Z; weight_scale_divisor : Z; input_scale_divisor : Z;
}.

Definition qtype_for (format : NumericFormat) : QType :=
  match format with
  | Artifact.BF16 => BF16_CTRL | Artifact.FP32 => FP32_CTRL | Artifact.I32 => I32_CTRL
  | Q4G64_F16S => Q4G64 | Q5G64_F16S => Q5G64 | Q6G64_F16S => Q6G64 | W8G32_F16S => W8G32
  | NVFP4 => NVFP4_ | FP8_E4M3FN_ROW_BF16S => FP8_E4M3FN_ROW
  end.

Definition dtype_for (format : NumericFormat) : result DType :=
  match format with
  | Artifact.BF16 => Ok Tensor.BF16 | Artifact.FP32 => Ok Tensor.FP32 | Artifact.I32 => Ok Tensor.I32
  | _ => Err LogicError
  end.

Definition contiguous_weight (m : MaterializedArtifact) (handle : ObjectHandle) (format : NumericFormat) (rows columns : Z) : result Weight :=
  let* payload := device_data m handle in
  let* dtype := dtype_for format in
  Ok (mkWeight payload (u64 (u64 (u64 rows * u64 columns) * dtype_size dtype)) 0 (qtype_for format) 0
        [rows; columns; 1; 1] [rows; columns; 1; 1] 2 payload 0 0 rows columns 0 Contiguous Tensor.FP32 [1; 1; 1; 1] [0; 0; 0; 0] 0 0).

Definition row_split_weight (m : MaterializedArtifact) (handle : ObjectHandle) (format : NumericFormat) (rows columns : Z) : result Weight :=
  let* geometry := row_split_geometry format [u64 rows; u64 columns] in
  let* bytes := device_data m handle in
  Ok (mkWeight bytes (rg_encoded_bytes geometry) (high_plane_bytes geometry) (qtype_for format) (u32 (group_size geometry))
        [rows; columns; 1; 1] [rows; to_i32 (u32 (padded_columns geometry)); 1; 1] 2 bytes
        (if high_plane_bytes geometry =? 0 then 0 else bytes + high_plane_offset geometry) (bytes + rg_scale_plane_offset geometry)
        rows columns (to_i32 (u32 (group_size geometry))) RowSplit FP16 [1; 1; 1; 1] [0; 0; 0; 0] 0 0).

Definition row_scale_weight (m : MaterializedArtifact) (handle : ObjectHandle) (format : NumericFormat) (rows columns : Z) : result Weight :=
  let* geometry := row_scale_geometry format [u64 rows; u64 columns] in
  let* bytes := device_data m handle in
  Ok (mkWeight bytes (sg_encoded_bytes geometry) 0 (qtype_for format) (u32 (sg_columns geometry))
        [rows; columns; 1; 1] [rows; columns; 1; 1] 2 bytes 0 (bytes + sg_scale_plane_offset geometry)
        rows columns columns RowScale Tensor.BF16 [rows; 1; 1; 1] [2; rows * 2; rows * 2; rows * 2] 0 0).

Definition materialized_tensor (m : MaterializedArtifact) (handle : ObjectHandle) (format : NumericFormat) (internal_shape : list Z) : result Tensor :=
  let* data := device_data m handle in
  let* dtype := dtype_for format in
  make_tensor data dtype internal_shape.

Definition materialized_weight (m : MaterializedArtifact) (handle : ObjectHandle) (format : NumericFormat) (rows columns : Z) : result Weight :=
  do* throw_if (bool_decide (format = NVFP4)) InvalidArgument;
  if bool_decide (storage_layout_for format = ContiguousLeV1) then contiguous_weight m handle format rows columns
  else if bool_decide (storage_layout_for format = RowScaleV1) then row_scale_weight m handle format rows columns
  else row_split_weight m handle format rows columns.

(** ** The features of a program *)

Inductive ProposalHead : Set := FullHead | OptimizedHead.
#[export] Instance ProposalHead_eq_dec : EqDecision ProposalHead.
Proof. solve_decision. Defined.

Record StartupFeatures : Set := mkFeatures { sf_vision : bool; speculative : SpeculativeBackend; proposal_head : ProposalHead }.
Definition speculative_enabled (f : StartupFeatures) : bool := negb (bool_decide (speculative f = NoSpeculation)).
Definition mtp (f : StartupFeatures) : bool := bool_decide (speculative f = Mtp).
Definition optimized_proposal (f : StartupFeatures) : bool := speculative_enabled f && bool_decide (proposal_head f = OptimizedHead).

(** ** The resources of the frontend *)

Record FrontendResourcePlan : Set := mkResourcePlan {
  p_tokenizer_json : ObjectHandle; p_tokenizer_config_json : ObjectHandle; p_chat_template_jinja : ObjectHandle;
  p_generation_config_json : ObjectHandle; p_preprocessor_config_json : ObjectHandle; p_video_preprocessor_config_json : ObjectHandle;
}.

Definition take_frontend_resources (plan : FrontendResourcePlan) : M MaterializedArtifact FrontendResources :=
  let! tokenizer_json := take_resource_bytes (p_tokenizer_json plan) in
  let! tokenizer_config_json := take_resource_bytes (p_tokenizer_config_json plan) in
  let! chat_template_jinja := take_resource_bytes (p_chat_template_jinja plan) in
  let! generation_config_json := take_resource_bytes (p_generation_config_json plan) in
  let! preprocessor_config_json := take_resource_bytes (p_preprocessor_config_json plan) in
  let! video_preprocessor_config_json := take_resource_bytes (p_video_preprocessor_config_json plan) in
  mret_ (mkResources tokenizer_json tokenizer_config_json chat_template_jinja generation_config_json preprocessor_config_json
           video_preprocessor_config_json).

(** ** The vision backbone *)

Definition vision_layers : nat := 27.
Definition vision_hidden : Z := 1152.
Definition vision_intermediate : Z := 4304.
Definition vision_patch_dim : Z := 3 * 2 * 16 * 16.
Definition vision_merger_hidden : Z := vision_hidden * (2 * 2).
Definition vision_position_embeddings : Z := 48 * 48.

Record VisionLayerPlan : Set := mkVisionLayerPlan {
  vp_qkv : ObjectHandle; vp_qkv_bias : ObjectHandle; vp_output : ObjectHandle; vp_output_bias : ObjectHandle;
  vp_fc1 : ObjectHandle; vp_fc1_bias : ObjectHandle; vp_fc2 : ObjectHandle; vp_fc2_bias : ObjectHandle;
  vp_norm1_weight : ObjectHandle; vp_norm1_bias : ObjectHandle; vp_norm2_weight : ObjectHandle; vp_norm2_bias : ObjectHandle;
}.
Record VisionBackbonePlan : Set := mkVisionBackbonePlan {
  vb_patch_embedding : ObjectHandle; vb_patch_embedding_bias : ObjectHandle; vb_position_embedding : ObjectHandle;
  vb_layers : list VisionLayerPlan;
}.
Record VisionMergerInputPlan : Set := mkVisionMergerInputPlan { vi_fc1 : ObjectHandle; vi_fc1_bias : ObjectHandle }.
Record VisionMergerNormPlan : Set := mkVisionMergerNormPlan { vn_weight : ObjectHandle; vn_bias : ObjectHandle }.

Record VisionLayerWeights : Set := mkVisionLayerWeights {
  vw_qkv : Weight; vw_qkv_bias : Tensor; vw_output : Weight; vw_output_bias : Tensor;
  vw_fc1 : Weight; vw_fc1_bias : Tensor; vw_fc2 : Weight; vw_fc2_bias : Tensor;
  vw_norm1_weight : Tensor; vw_norm1_bias : Tensor; vw_norm2_weight : Tensor; vw_norm2_bias : Tensor;
}.
Record VisionCommonWeights : Set := mkVisionCommonWeights {
  vc_patch_embedding : Weight; vc_patch_embedding_bias : Tensor; vc_position_embedding : Tensor; vc_layers : list VisionLayerWeights;
  vc_merger_fc1 : Weight; vc_merger_fc1_bias : Tensor; vc_merger_norm_weight : Tensor; vc_merger_norm_bias : Tensor;
}.

(** [prefix + ...] *)
Definition tensor_name (prefix : list Z) (suffix : string) : list Z := (prefix ++ bytes_of suffix)%list.

Section Bind.
Context (reader : Reader).

Definition bind_frontend_resources : M Binder FrontendResourcePlan :=
  let! tokenizer_json := bind_raw_resource reader (bytes_of "frontend/tokenizer.json") in
  let! tokenizer_config_json := bind_raw_resource reader (bytes_of "frontend/tokenizer_config.json") in
  let! chat_template_jinja := bind_raw_resource reader (bytes_of "frontend/chat_template.jinja") in
  let! generation_config_json := bind_raw_resource reader (bytes_of "frontend/generation_config.json") in
  let! preprocessor_config_json := bind_raw_resource reader (bytes_of "frontend/preprocessor_config.json") in
  let! video_preprocessor_config_json := bind_raw_resource reader (bytes_of "frontend/video_preprocessor_config.json") in
  mret_ (mkResourcePlan tokenizer_json tokenizer_config_json chat_template_jinja generation_config_json preprocessor_config_json
           video_preprocessor_config_json).

Context (placement : TensorPlacement).
#[local] Notation bind name format shape := (bind_tensor reader name format shape placement) (only parsing).

(** The body of the loop over the vision layers. *)
Definition bind_vision_layer (layer : nat) : M Binder VisionLayerPlan :=
  let prefix := (bytes_of "vision/layers/" ++ to_string (Z.of_nat layer) ++ bytes_of "/")%list in
  let! qkv := bind (tensor_name prefix "attention/qkv") Q4G64_F16S [3 * vision_hidden; vision_hidden] in
  let! qkv_bias := bind (tensor_name prefix "attention/qkv_bias") Artifact.BF16 [3 * vision_hidden] in
  let! output := bind (tensor_name prefix "attention/output") Q5G64_F16S [vision_hidden; vision_hidden] in
  let! output_bias := bind (tensor_name prefix "attention/output_bias") Artifact.BF16 [vision_hidden] in
  let! fc1 := bind (tensor_name prefix "mlp/fc1") Q4G64_F16S [vision_intermediate; vision_hidden] in
  let! fc1_bias := bind (tensor_name prefix "mlp/fc1_bias") Artifact.BF16 [vision_intermediate] in
  let! fc2 := bind (tensor_name prefix "mlp/fc2") Q5G64_F16S [vision_hidden; vision_intermediate] in
  let! fc2_bias := bind (tensor_name prefix "mlp/fc2_bias") Artifact.BF16 [vision_hidden] in
  let! norm1_weight := bind (tensor_name prefix "norm1/weight") Artifact.BF16 [vision_hidden] in
  let! norm1_bias := bind (tensor_name prefix "norm1/bias") Artifact.BF16 [vision_hidden] in
  let! norm2_weight := bind (tensor_name prefix "norm2/weight") Artifact.BF16 [vision_hidden] in
  let! norm2_bias := bind (tensor_name prefix "norm2/bias") Artifact.BF16 [vision_hidden] in
  mret_ (mkVisionLayerPlan qkv qkv_bias output output_bias fc1 fc1_bias fc2 fc2_bias norm1_weight norm1_bias norm2_weight norm2_bias).

Definition bind_vision_backbone : M Binder VisionBackbonePlan :=
  let! patch_embedding := bind (bytes_of "vision/patch_embedding") Q6G64_F16S [vision_hidden; vision_patch_dim] in
  let! patch_embedding_bias := bind (bytes_of "vision/patch_embedding_bias") Artifact.BF16 [vision_hidden] in
  let! position_embedding := bind (bytes_of "vision/position_embedding") Artifact.BF16 [vision_position_embeddings; vision_hidden] in
  let! layers := mmapM bind_vision_layer (seq 0 vision_layers) in
  mret_ (mkVisionBackbonePlan patch_embedding patch_embedding_bias position_embedding layers).

Definition bind_vision_merger_input : M Binder VisionMergerInputPlan :=
  let! fc1 := bind (bytes_of "vision/merger/fc1") W8G32_F16S [vision_merger_hidden; vision_merger_hidden] in
  let! fc1_bias := bind (bytes_of "vision/merger/fc1_bias") Artifact.BF16 [vision_merger_hidden] in
  mret_ (mkVisionMergerInputPlan fc1 fc1_bias).

Definition bind_vision_merger_norm : M Binder VisionMergerNormPlan :=
  let! weight := bind (bytes_of "vision/merger/norm/weight") Artifact.BF16 [vision_hidden] in
  let! bias := bind (bytes_of "vision/merger/norm/bias") Artifact.BF16 [vision_hidden] in
  mret_ (mkVisionMergerNormPlan weight bias).
End Bind.

Section Materialized.
Context (m : MaterializedArtifact).

Definition materialize_vision_layer (source : VisionLayerPlan) : result VisionLayerWeights :=
  let* qkv := materialized_weight m (vp_qkv source) Q4G64_F16S (3 * vision_hidden) vision_hidden in
  let* qkv_bias := materialized_tensor m (vp_qkv_bias source) Artifact.BF16 [3 * vision_hidden] in
  let* output := materialized_weight m (vp_output source) Q5G64_F16S vision_hidden vision_hidden in
  let* output_bias := materialized_tensor m (vp_output_bias source) Artifact.BF16 [vision_hidden] in
  let* fc1 := materialized_weight m (vp_fc1 source) Q4G64_F16S vision_intermediate vision_hidden in
  let* fc1_bias := materialized_tensor m (vp_fc1_bias source) Artifact.BF16 [vision_intermediate] in
  let* fc2 := materialized_weight m (vp_fc2 source) Q5G64_F16S vision_hidden vision_intermediate in
  let* fc2_bias := materialized_tensor m (vp_fc2_bias source) Artifact.BF16 [vision_hidden] in
  let* norm1_weight := materialized_tensor m (vp_norm1_weight source) Artifact.BF16 [vision_hidden] in
  let* norm1_bias := materialized_tensor m (vp_norm1_bias source) Artifact.BF16 [vision_hidden] in
  let* norm2_weight := materialized_tensor m (vp_norm2_weight source) Artifact.BF16 [vision_hidden] in
  let* norm2_bias := materialized_tensor m (vp_norm2_bias source) Artifact.BF16 [vision_hidden] in
  Ok (mkVisionLayerWeights qkv qkv_bias output output_bias fc1 fc1_bias fc2 fc2_bias norm1_weight norm1_bias norm2_weight norm2_bias).

Definition materialize_vision_common (backbone : VisionBackbonePlan) (merger_input : VisionMergerInputPlan)
    (merger_norm : VisionMergerNormPlan) : result VisionCommonWeights :=
  let* patch_embedding := materialized_weight m (vb_patch_embedding backbone) Q6G64_F16S vision_hidden vision_patch_dim in
  let* patch_embedding_bias := materialized_tensor m (vb_patch_embedding_bias backbone) Artifact.BF16 [vision_hidden] in
  let* position_embedding :=
    materialized_tensor m (vb_position_embedding backbone) Artifact.BF16 [vision_hidden; vision_position_embeddings] in
  let* layers := rmapM materialize_vision_layer (vb_layers backbone) in
  let* merger_fc1 := materialized_weight m (vi_fc1 merger_input) W8G32_F16S vision_merger_hidden vision_merger_hidden in
  let* merger_fc1_bias := materialized_tensor m (vi_fc1_bias merger_input) Artifact.BF16 [vision_merger_hidden] in
  let* merger_norm_weight := materialized_tensor m (vn_weight merger_norm) Artifact.BF16 [vision_hidden] in
  let* merger_norm_bias := materialized_tensor m (vn_bias merger_norm) Artifact.BF16 [vision_hidden] in
  Ok (mkVisionCommonWeights patch_embedding patch_embedding_bias position_embedding layers merger_fc1 merger_fc1_bias merger_norm_weight
        merger_norm_bias).
End Materialized.
