(* ===== verification/WeightsProofs.v ===== *)
(** * Views of weights lie in their tensors

    What a target binds and later makes views of: a view of a bound tensor succeeds, its planes are in order within
    the bytes of the tensor on the device. *)
From Stdlib Require Import Strings.String.
From stdpp Require Import gmap.
From S2P Require Import ProgramState Preparation Prelude Tokenizer Tensor Artifact ArtifactProofs Materialize Weights.
#[local] Open Scope Z_scope.
#[local] Open Scope ninfer_scope.

(** ** Results with a property *)

Definition yields {A} (P : A -> Prop) (m : result A) : Prop := exists a, m = Ok a /\ P a.

Lemma yields_ret {A} (P : A -> Prop) a : P a -> yields P (Ok a).
Proof. intros HP. by exists a. Qed.
Lemma yields_bind {A B} (P : A -> Prop) (Q : B -> Prop) m (k : A -> result B) : yields P m -> (forall a, P a -> yields Q (k a)) -> yields Q (rbind m k).
Proof. intros (a & -> & HP) Hk. by apply Hk. Qed.
Lemma yields_mono {A} (P Q : A -> Prop) m : yields P m -> (forall a, P a -> Q a) -> yields Q m.
Proof. intros (a & -> & HP) HQ. exists a. auto. Qed.
Lemma yields_map {A B} (R : A -> Prop) (P : B -> Prop) (f : A -> result B) l : Forall R l -> (forall x, R x -> yields P (f x)) -> yields (Forall P) (rmapM f l).
Proof.
  intros HR Hf. induction HR as [|x l Hx _ IH]; [by apply yields_ret|]. cbn. eapply yields_bind; [by apply Hf|]. intros y Hy.
  eapply yields_bind; [exact IH|]. intros ys Hys. apply yields_ret. by constructor.
Qed.

(** Loading a list of bound tensors and weights of given dimensions, one after the other. *)
Ltac in_dimension := split; [reflexivity|vm_compute; discriminate].
Ltac load_all tensor weight :=
  repeat (eapply yields_bind; [first [eapply tensor; [eassumption|reflexivity]|eapply weight; [eassumption|done|in_dimension|in_dimension]]|intros ? ?]).

(** ** Planes *)

(** The planes of a weight: address and size. *)
Definition planes (w : Weight) : list (Z * Z) :=
  match w_layout w with
  | RowSplit =>
      let groups := w_n w * (w_padded_shape w !!! 1%nat / w_group w) in
      let high := match w_qtype w with Q5G64 => 8 | Q6G64 => 16 | _ => 0 end in
      (w_qdata w, groups * 32) :: (if high =? 0 then [] else [(w_qhigh w, groups * high)]) ++ [(w_scales w, groups * 2)]
  | Contiguous => [(w_qdata w, w_n w * w_k w * match w_qtype w with BF16_CTRL => 2 | _ => 4 end)]
  | BlockScaleK16M128x4 => [(w_qdata w, w_n w * w_k w / 2); (w_scales w, w_n w * w_k w / 16)]
  | RowScale => [(w_qdata w, w_n w * w_k w); (w_scales w, w_n w * 2)]
  end.

(** From [begin] to [end_], one after the other. *)
Fixpoint in_order (begin end_ : Z) (l : list (Z * Z)) : Prop :=
  match l with
  | [] => begin <= end_
  | (address, size) :: l' => begin <= address /\ 0 <= size /\ in_order (address + size) end_ l'
  end.

Lemma in_order_bounds l : forall begin end_, in_order begin end_ l -> Forall (fun p => begin <= p.1 /\ p.1 + p.2 <= end_) l /\ begin <= end_.
Proof.
  induction l as [|[a n] l IH]; intros b e H; cbn in *; [by split|]. destruct H as (H1 & H2 & H). destruct (IH _ _ H) as [Hf He].
  split; [|lia]. constructor; [cbn; lia|]. eapply Forall_impl; [exact Hf|]. cbn. lia.
Qed.

(** ** Bound tensors *)

Section Loaded.
Context (r : Reader) (plan : MaterializationPlan) (m : MaterializedArtifact).

(** The tensors have the sizes of their layouts, and what the plan places is loaded. *)
Definition sized (o : ObjectDescriptor) : Prop :=
  match o with TensorObject t => tensor_encoded_size (td_layout t) (td_format t) (td_shape t) = Ok (td_bytes t) | ResourceObject _ => True end.
Hypothesis Hsized : Forall sized (entries r).
Hypothesis Hloaded : forall d, d ∈ device_objects plan -> exists address, device_data m (dm_object d) = Ok address.

(** A handle of a tensor of this contract, and of one that is placed on the device. *)
Definition typed (h : nat) (format : NumericFormat) (shape : list Z) : Prop := exists t, entries r !! h = Some (TensorObject t) /\
  td_format t = format /\ td_layout t = storage_layout_for format /\ td_shape t = shape.
Definition placed_on (placement : TensorPlacement) (h : nat) : Prop := placement = Device_ -> exists d, d ∈ device_objects plan /\ dm_object d = h.
Definition bound (placement : TensorPlacement) (h : nat) (format : NumericFormat) (shape : list Z) : Prop := typed h format shape /\ placed_on placement h.

(** The view of a tensor on the device. *)
Definition view_of (address size : Z) : Prop := exists d t, d ∈ device_objects plan /\ entries r !! dm_object d = Some (TensorObject t) /\
  device_data m (dm_object d) = Ok address /\ size = td_bytes t.

Definition weight_ok (w : Weight) : Prop := view_of (w_payload w) (w_payload_bytes w) /\ in_order (w_payload w) (w_payload w + w_payload_bytes w) (planes w).
Definition tensor_ok (t : Tensor) : Prop := exists size, tensor_bytes t = Ok size /\ view_of (data t) size.

Lemma bound_view h format shape : bound Device_ h format shape -> exists address size, device_data m h = Ok address /\ view_of address size /\
  tensor_encoded_size (storage_layout_for format) format shape = Ok size.
Proof.
  intros [(t & Ht & Hf & Hl & Hs) Hp]. destruct (Hp eq_refl) as (d & Hd & <-). destruct (Hloaded d Hd) as [a Ha]. pose proof (Forall_lookup_1 _ _ _ _ Hsized Ht) as Hsz.
  cbn in Hsz. rewrite Hl, Hf, Hs in Hsz. exists a, (td_bytes t). split; [done|]. split; [|done]. by exists d, t.
Qed.

(** *** Tensors *)

(** The view with these dimensions has as many bytes as the tensor of this shape. *)
Definition fits (format : NumericFormat) (shape internal_shape : list Z) : bool :=
  match storage_layout_for format, tensor_encoded_size ContiguousLeV1 format shape, dtype_for format with
  | ContiguousLeV1, Ok n, Ok dtype =>
      match make_tensor 0 dtype internal_shape with
      | Ok t => match tensor_bytes t with Ok n' => n =? n' | Err _ => false end
      | Err _ => false
      end
  | _, _, _ => false
  end.

Lemma make_tensor_at a dtype shape t : make_tensor 0 dtype shape = Ok t -> make_tensor a dtype shape = Ok (mkTensor a (Tensor.dtype t) (ne t) (nb t)).
Proof.
  unfold make_tensor, set_contiguous_strides. cbn [data Tensor.dtype ne]. intros H. rinv. subst t. cbn in *. rewrite Hv. cbn. by rewrite Hv0.
Qed.

Lemma load_tensor h format shape internal_shape : bound Device_ h format shape -> fits format shape internal_shape = true ->
  yields tensor_ok (materialized_tensor m h format internal_shape).
Proof.
  intros Hb Hf. destruct (bound_view _ _ _ Hb) as (a & n & Ha & Hv & Hn). unfold fits in Hf. unfold materialized_tensor. rewrite Ha. cbn [rbind].
  destruct (storage_layout_for format); try done. rewrite Hn in Hf. destruct (dtype_for format) as [dt|]; [|done]. cbn [rbind].
  destruct (make_tensor 0 dt internal_shape) as [t|] eqn:Et; [|done]. destruct (tensor_bytes t) as [n'|] eqn:Eb; [|done]. apply Z.eqb_eq in Hf as <-.
  rewrite (make_tensor_at a _ _ _ Et). apply yields_ret. exists n. by split.
Qed.

(** *** Weights *)

Definition dimension (n : Z) : Prop := 0 < n <= 2 ^ 24.

Lemma load_contiguous h format rows columns : bound Device_ h format [rows; columns] -> storage_layout_for format = ContiguousLeV1 ->
  dimension rows -> dimension columns -> yields weight_ok (contiguous_weight m h format rows columns).
Proof.
  intros Hb Hl Hr Hc. unfold dimension in *. destruct (bound_view _ _ _ Hb) as (a & n & Ha & Hv & Hn). rewrite Hl in Hn. unfold contiguous_weight. rewrite Ha. cbn [rbind].
  apply contiguous_size_Ok in Hn as [Hn Hmax]; [|repeat constructor; unfold_ints; lia]. unfold encoded_size in Hn.
  cbn [length Nat.leb forallb andb] in Hn. rewrite !(proj2 (Z.ltb_lt _ _)) in Hn by lia. cbn [andb foldr] in Hn. rewrite Z.mul_1_r in Hn.
  assert (Hrc : 0 <= rows * columns <= 2 ^ 24 * 2 ^ 24) by (split; [lia|apply Z.mul_le_mono_nonneg; lia]).
  rewrite (u64_small rows), (u64_small columns), (u64_small (rows * columns)) by (unfold_ints; lia).
  destruct format; try done; cbn in Hn; injection Hn as <-; cbn [dtype_for rbind dtype_size qtype_for]; apply yields_ret; unfold weight_ok, planes; cbn;
    rewrite u64_small by (unfold_ints; lia); (split; [done|]); repeat split; lia.
Qed.

Lemma load_row_split h format rows columns : bound Device_ h format [rows; columns] -> storage_layout_for format = RowSplitK128V1 ->
  dimension rows -> dimension columns -> yields weight_ok (row_split_weight m h format rows columns).
Proof.
  intros Hb Hl Hr Hc. unfold dimension in *. destruct (bound_view _ _ _ Hb) as (a & n & Ha & Hv & Hn). rewrite Hl in Hn. unfold row_split_weight.
  rewrite !u64_small by (unfold_ints; lia). cbn [tensor_encoded_size] in Hn. apply rbind_Ok in Hn as (rc & _ & Hn). apply rbind_Ok in Hn as (g & Hg & [= <-]).
  rewrite Hg. cbn [rbind]. rewrite Ha. cbn [rbind]. apply yields_ret.
  apply row_split_geometry_Ok in Hg as (group & low & high & padded & groups & Hq & _ & _ & [-> -> Hg0 Hpm Hfit] & ->); [|lia..]. cbn.
  pose proof (align_Z_spec columns 128 ltac:(done)) as [Hal _]. set (p := align_Z columns 128) in *. destruct (quant_of_pos _ _ _ _ Hq) as (Hgp & Hlp & Hhp).
  assert (Hp32 : to_i32 (u32 p) = p) by (unfold to_i32; rewrite u32_small by (unfold_ints; lia); rewrite (proj2 (Z.leb_le _ _)); [done|unfold_ints; lia]).
  assert (Hg32 : to_i32 (u32 group) = group) by (destruct format; try done; injection Hq as <- _ _; done).
  set (groups := rows * (p / group)) in *.
  pose proof (align_Z_spec (groups * low) 256 ltac:(done)) as [Hlow _]. pose proof (align_Z_spec (groups * high) 256 ltac:(done)) as [Hhigh _].
  split; [exact Hv|]. unfold planes. cbn. rewrite Hp32, Hg32. fold groups.
  assert (Hgpos : 0 < groups).
  { assert (Hq1 : 1 <= p / group); [|unfold groups; nia]. apply Z.div_le_lower_bound; [done|]. assert (group <= 64) by (destruct format; try done; injection Hq as <- _ _; lia).
    assert (128 <= p); [|lia]. pose proof (align_Z_least 1 128 p) as Hle. change (align_Z 1 128) with 128 in Hle. apply Hle; [done|lia|]. by apply align_Z_spec. }
  destruct format; try done; injection Hq as <- <- <-; cbn [qtype_for Z.eqb app in_order]; [| | |];
    try (repeat split; lia).
  - rewrite (proj2 (Z.eqb_neq _ _)) by lia. repeat split; lia.
  - rewrite (proj2 (Z.eqb_neq _ _)) by lia. repeat split; lia.
Qed.

Lemma load_row_scale h format rows columns : bound Device_ h format [rows; columns] -> storage_layout_for format = RowScaleV1 ->
  dimension rows -> dimension columns -> yields weight_ok (row_scale_weight m h format rows columns).
Proof.
  intros Hb Hl Hr Hc. unfold dimension in *. destruct (bound_view _ _ _ Hb) as (a & n & Ha & Hv & Hn). rewrite Hl in Hn. unfold row_scale_weight.
  rewrite !u64_small by (unfold_ints; lia). cbn [tensor_encoded_size] in Hn. apply rbind_Ok in Hn as (g & Hg & [= <-]).
  rewrite Hg. cbn [rbind]. rewrite Ha. cbn [rbind]. apply yields_ret.
  apply row_scale_geometry_Ok in Hg as (-> & _ & _ & Hfit & ->); [|lia..]. cbn in Hv |- *.
  pose proof (align_Z_spec (rows * columns) 256 ltac:(done)) as [Hal _]. split; [exact Hv|]. unfold planes. cbn. repeat split; lia.
Qed.

Lemma load_materialized h format rows columns : bound Device_ h format [rows; columns] -> format <> NVFP4 -> dimension rows -> dimension columns ->
  yields weight_ok (materialized_weight m h format rows columns).
Proof.
  intros Hb Hne Hr Hc. unfold materialized_weight. rewrite bool_decide_eq_false_2 by done. cbn [throw_if rbind].
  case_bool_decide as H1; [by apply load_contiguous|]. case_bool_decide as H2; [by apply load_row_scale|]. apply load_row_split; try done. by destruct format.
Qed.
End Loaded.

(** ** Binding *)

Section Bind.
Context (r : Reader).

(** What the binder has planned is a part of a plan. *)
Definition below (b : Binder) (plan : MaterializationPlan) : Prop :=
  (forall d, d ∈ device_objects (materialization b) -> d ∈ device_objects plan) /\
  (forall h, h ∈ host_objects (materialization b) -> h ∈ host_objects plan).

(** An operation that only adds to the plan, with a property of what it gives in every plan from there on. *)
Definition binds {A} (P : MaterializationPlan -> A -> Prop) (op : M Binder A) : Prop := forall b,
  wp op (fun a b' => forall plan, below b' plan -> below b plan /\ P plan a) (fun _ _ => True) b.

Lemma binds_ret {A} (P : MaterializationPlan -> A -> Prop) a : (forall plan, P plan a) -> binds P (mret_ a).
Proof. intros HP b. apply wp_ret. intros plan Hb. by split. Qed.
Lemma binds_bind {A B} (P : MaterializationPlan -> A -> Prop) (Q : MaterializationPlan -> B -> Prop) op (k : A -> M Binder B) :
  binds P op -> (forall a, binds (fun plan v => P plan a -> Q plan v) (k a)) -> binds Q (mbind_ op k).
Proof.
  intros Hop Hk b. apply wp_bind. eapply wp_mono; [apply Hop| |done]. intros a b1 H1. eapply wp_mono; [apply Hk| |done]. intros v b2 H2 plan Hb.
  destruct (H2 _ Hb) as [Hb1 HQ]. destruct (H1 _ Hb1) as [Hb0 HP]. auto.
Qed.
Lemma binds_mono {A} (P Q : MaterializationPlan -> A -> Prop) op : binds P op -> (forall plan a, P plan a -> Q plan a) -> binds Q op.
Proof. intros Hop HQ b. eapply wp_mono; [apply Hop| |done]. intros a b1 H1 plan Hb. destruct (H1 _ Hb). auto. Qed.
Lemma binds_lift {A} (res : result A) : binds (fun _ a => res = Ok a) (mlift res).
Proof. intros b. apply wp_lift; [|done]. intros a Ha plan Hb. by split. Qed.
Lemma binds_map {A B} (R : A -> MaterializationPlan -> B -> Prop) (f : A -> M Binder B) l : (forall x, binds (R x) (f x)) ->
  binds (fun plan ys => Forall2 (fun x y => R x plan y) l ys) (mmapM f l).
Proof.
  intros Hf. induction l as [|x l IH]; [apply binds_ret; constructor|]. cbn. eapply binds_bind; [apply Hf|]. intros y.
  eapply binds_bind; [exact IH|]. intros ys. apply binds_ret. intros plan Hys Hy. by constructor.
Qed.

Lemma binds_require_tensor name format layout shape : binds (fun _ h => exists t, entries r !! h = Some (TensorObject t) /\
  td_format t = format /\ td_layout t = layout /\ td_shape t = shape) (require_tensor r name format layout shape).
Proof.
  intros b. unfold require_tensor, find_unconsumed. apply wp_bind. destruct (find r name) as [i|]; [|by apply wp_throw].
  apply wp_bind, wp_get, wp_bind, wp_deref; [|done]. intros used Hused. apply wp_bind, wp_throw_if; [done|]. intros _. apply wp_bind, wp_put, wp_ret, wp_bind, wp_lift; [|done].
  intros o Ho. unfold descriptor in Ho. destruct (entries r !! i) as [o'|] eqn:Ei; [|done]. injection Ho as <-. destruct o' as [t|x]; [|by apply wp_throw].
  apply wp_bind, wp_throw_if; [done|]. intros Hc. apply wp_ret. intros plan Hb. split; [exact Hb|]. exists t.
  apply orb_false_iff in Hc as [Hc Hs]. apply orb_false_iff in Hc as [Hf Hl]. rewrite negb_false_iff, bool_decide_eq_true in Hf, Hl, Hs. done.
Qed.

Lemma binds_materialize_on_device h : binds (fun plan _ => placed_on plan Device_ h) (materialize_on_device r h).
Proof.
  intros b. unfold materialize_on_device. apply wp_bind, wp_lift; [|done]. intros [t|x] _; [|by apply wp_throw].
  apply wp_bind, wp_bind, wp_get, wp_bind, wp_deref; [|done]. intros p _. apply wp_throw_if; [done|]. intros _.
  apply wp_bind, wp_get, wp_bind, wp_lift; [|done]. intros offset _. apply wp_bind, wp_throw_if; [done|]. intros _. apply wp_put.
  intros plan [Hd Hh]. cbn in Hd, Hh. split; [split; [|exact Hh]|].
  - intros d Hin. apply Hd, elem_of_app. by left.
  - intros _. eexists. split; [apply Hd, elem_of_app; right; by left|done].
Qed.

Lemma binds_validate_only h : binds (fun _ _ => True) (validate_only r h).
Proof.
  intros b. unfold validate_only. apply wp_bind, wp_lift; [|done]. intros o _. apply wp_bind, wp_bind, wp_get, wp_bind, wp_deref; [|done]. intros p _.
  apply wp_throw_if; [done|]. intros _. apply wp_modify. intros plan Hb. by split.
Qed.

Lemma binds_bind_tensor name format shape placement : binds (fun plan h => bound r plan placement h format shape) (bind_tensor r name format shape placement).
Proof.
  eapply binds_bind; [apply binds_require_tensor|]. intros h. apply (binds_bind (fun plan _ => placed_on plan placement h)).
  - destruct placement; [apply binds_materialize_on_device|]. eapply binds_mono; [apply binds_validate_only|]. intros plan _ _. done.
  - intros _. apply binds_ret. intros plan Hp Ht. by split.
Qed.

(** A resource of this name, and that is retained. *)
Definition resource_bound (plan : MaterializationPlan) (h : nat) (name : list Z) : Prop :=
  exists x, entries r !! h = Some (ResourceObject x) /\ rd_name x = name /\ h ∈ host_objects plan.
Hypothesis Hindex : indexes (entries r) (index r).

Lemma binds_raw_resource name : binds (fun plan h => resource_bound plan h name) (bind_raw_resource r name).
Proof.
  intros b. unfold bind_raw_resource, require_resource, find_unconsumed. apply wp_bind, wp_bind. destruct (find r name) as [i|] eqn:Ef; [|by apply wp_throw].
  apply wp_bind, wp_get, wp_bind, wp_deref; [|done]. intros used Hused. apply wp_bind, wp_throw_if; [done|]. intros _. apply wp_bind, wp_put, wp_ret, wp_bind, wp_lift; [|done].
  intros o Ho. unfold descriptor in Ho. destruct (entries r !! i) as [o'|] eqn:Ei; [|done]. injection Ho as <-. destruct o' as [t|x]; [by apply wp_throw|].
  apply wp_bind, wp_throw_if; [done|]. intros _. apply wp_ret, wp_bind. unfold retain_on_host. apply wp_bind, wp_lift; [|done]. intros [t|y] Hy; [by apply wp_throw|].
  apply wp_bind, wp_bind, wp_get, wp_bind, wp_deref; [|done]. intros p _. apply wp_throw_if; [done|]. intros _. apply wp_modify, wp_ret.
  intros plan [Hd Hh]. cbn in Hd, Hh. split; [split; [exact Hd|]|].
  - intros h Hin. apply Hh, elem_of_app. by left.
  - exists x. split; [done|]. split; [|apply Hh, elem_of_app; right; by left]. apply Hindex in Ef as (o & Ho & Hn). rewrite Ei in Ho. by injection Ho as <-.
Qed.

(** *** The resources of the frontend *)

Definition frontend_bound (plan : MaterializationPlan) (p : FrontendResourcePlan) : Prop :=
  resource_bound plan (p_tokenizer_json p) (bytes_of "frontend/tokenizer.json") /\
  resource_bound plan (p_tokenizer_config_json p) (bytes_of "frontend/tokenizer_config.json") /\
  resource_bound plan (p_chat_template_jinja p) (bytes_of "frontend/chat_template.jinja") /\
  resource_bound plan (p_generation_config_json p) (bytes_of "frontend/generation_config.json") /\
  resource_bound plan (p_preprocessor_config_json p) (bytes_of "frontend/preprocessor_config.json") /\
  resource_bound plan (p_video_preprocessor_config_json p) (bytes_of "frontend/video_preprocessor_config.json").

Lemma binds_frontend : binds frontend_bound (bind_frontend_resources r).
Proof.
  unfold bind_frontend_resources. repeat (eapply binds_bind; [apply binds_raw_resource|intros ?]). apply binds_ret. intros plan. intros. by split_and!.
Qed.

(** *** The vision backbone *)

Section Vision.
Context (placement : TensorPlacement).
#[local] Notation bound_v plan := (bound r plan placement).

Definition vision_layer_bound (plan : MaterializationPlan) (v : VisionLayerPlan) : Prop :=
  bound_v plan (vp_qkv v) Q4G64_F16S [3 * vision_hidden; vision_hidden] /\ bound_v plan (vp_qkv_bias v) Artifact.BF16 [3 * vision_hidden] /\
  bound_v plan (vp_output v) Q5G64_F16S [vision_hidden; vision_hidden] /\ bound_v plan (vp_output_bias v) Artifact.BF16 [vision_hidden] /\
  bound_v plan (vp_fc1 v) Q4G64_F16S [vision_intermediate; vision_hidden] /\ bound_v plan (vp_fc1_bias v) Artifact.BF16 [vision_intermediate] /\
  bound_v plan (vp_fc2 v) Q5G64_F16S [vision_hidden; vision_intermediate] /\ bound_v plan (vp_fc2_bias v) Artifact.BF16 [vision_hidden] /\
  bound_v plan (vp_norm1_weight v) Artifact.BF16 [vision_hidden] /\ bound_v plan (vp_norm1_bias v) Artifact.BF16 [vision_hidden] /\
  bound_v plan (vp_norm2_weight v) Artifact.BF16 [vision_hidden] /\ bound_v plan (vp_norm2_bias v) Artifact.BF16 [vision_hidden].
Lemma binds_vision_layer layer : binds vision_layer_bound (bind_vision_layer r placement layer).
Proof.
  unfold bind_vision_layer. repeat (eapply binds_bind; [apply binds_bind_tensor|intros ?]). apply binds_ret. intros plan. intros. by split_and!.
Qed.

Definition vision_backbone_bound (plan : MaterializationPlan) (v : VisionBackbonePlan) : Prop :=
  bound_v plan (vb_patch_embedding v) Q6G64_F16S [vision_hidden; vision_patch_dim] /\
  bound_v plan (vb_patch_embedding_bias v) Artifact.BF16 [vision_hidden] /\
  bound_v plan (vb_position_embedding v) Artifact.BF16 [vision_position_embeddings; vision_hidden] /\ Forall (vision_layer_bound plan) (vb_layers v).
Lemma binds_vision_backbone : binds vision_backbone_bound (bind_vision_backbone r placement).
Proof.
  unfold bind_vision_backbone. do 3 (eapply binds_bind; [apply binds_bind_tensor|intros ?]).
  eapply binds_bind; [apply (binds_map (fun _ => vision_layer_bound)); apply binds_vision_layer|]. intros layers. apply binds_ret. intros plan Hl. intros. split_and!; try done.
  cbn. apply Forall_forall. intros v Hv. apply list_elem_of_lookup_1 in Hv as [k Hk]. by destruct (Forall2_lookup_r _ _ _ _ _ Hl Hk) as (? & _ & ?).
Qed.

Definition merger_input_bound (plan : MaterializationPlan) (v : VisionMergerInputPlan) : Prop :=
  bound_v plan (vi_fc1 v) W8G32_F16S [vision_merger_hidden; vision_merger_hidden] /\ bound_v plan (vi_fc1_bias v) Artifact.BF16 [vision_merger_hidden].
Lemma binds_merger_input : binds merger_input_bound (bind_vision_merger_input r placement).
Proof. unfold bind_vision_merger_input. repeat (eapply binds_bind; [apply binds_bind_tensor|intros ?]). apply binds_ret. intros plan. intros. by split_and!. Qed.

Definition merger_norm_bound (plan : MaterializationPlan) (v : VisionMergerNormPlan) : Prop :=
  bound_v plan (vn_weight v) Artifact.BF16 [vision_hidden] /\ bound_v plan (vn_bias v) Artifact.BF16 [vision_hidden].
Lemma binds_merger_norm : binds merger_norm_bound (bind_vision_merger_norm r placement).
Proof. unfold bind_vision_merger_norm. repeat (eapply binds_bind; [apply binds_bind_tensor|intros ?]). apply binds_ret. intros plan. intros. by split_and!. Qed.
End Vision.
End Bind.

(** ** Loading *)

Section Load.
Context (r : Reader) (plan : MaterializationPlan) (m : MaterializedArtifact).
Hypothesis Hsized : Forall sized (entries r).
Hypothesis Hloaded : forall d, d ∈ device_objects plan -> exists address, device_data m (dm_object d) = Ok address.

Definition load_tensor_at := load_tensor r plan m Hsized Hloaded.
Definition load_weight_at := load_materialized r plan m Hsized Hloaded.
Definition vision_layer_weights (v : VisionLayerWeights) : list Weight := [vw_qkv v; vw_output v; vw_fc1 v; vw_fc2 v].
Definition vision_layer_tensors (v : VisionLayerWeights) : list Tensor :=
  [vw_qkv_bias v; vw_output_bias v; vw_fc1_bias v; vw_fc2_bias v; vw_norm1_weight v; vw_norm1_bias v; vw_norm2_weight v; vw_norm2_bias v].
Definition all_ok (weights : list Weight) (tensors : list Tensor) : Prop := Forall (weight_ok r plan m) weights /\ Forall (tensor_ok r plan m) tensors.

Lemma load_vision_layer v : vision_layer_bound r Device_ plan v -> yields (fun w => all_ok (vision_layer_weights w) (vision_layer_tensors w)) (materialize_vision_layer m v).
Proof.
  intros (H1 & H2 & H3 & H4 & H5 & H6 & H7 & H8 & H9 & H10 & H11 & H12). unfold materialize_vision_layer. load_all load_tensor_at load_weight_at.
  apply yields_ret. split; cbn; repeat (constructor; [done|]); constructor.
Qed.

Lemma all_ok_app w w' t t' : all_ok w t -> all_ok w' t' -> all_ok (w ++ w') (t ++ t').
Proof. intros [H1 H2] [H3 H4]. split; by apply Forall_app. Qed.
Lemma all_ok_concat {A} (ws : A -> list Weight) (ts : A -> list Tensor) l : Forall (fun x => all_ok (ws x) (ts x)) l -> all_ok (concat (ws <$> l)) (concat (ts <$> l)).
Proof. induction 1 as [|x l Hx _ IH]; [by split|]. by apply all_ok_app. Qed.

Definition vision_weights (v : VisionCommonWeights) : list Weight :=
  [vc_patch_embedding v; vc_merger_fc1 v] ++ concat (vision_layer_weights <$> vc_layers v).
Definition vision_tensors (v : VisionCommonWeights) : list Tensor :=
  [vc_patch_embedding_bias v; vc_position_embedding v; vc_merger_fc1_bias v; vc_merger_norm_weight v; vc_merger_norm_bias v] ++
  concat (vision_layer_tensors <$> vc_layers v).

Lemma load_vision_common backbone input norm : vision_backbone_bound r Device_ plan backbone -> merger_input_bound r Device_ plan input ->
  merger_norm_bound r Device_ plan norm -> yields (fun v => all_ok (vision_weights v) (vision_tensors v)) (materialize_vision_common m backbone input norm).
Proof.
  intros (H1 & H2 & H3 & H4) (H5 & H6) (H7 & H8). unfold materialize_vision_common. load_all load_tensor_at load_weight_at.
  eapply yields_bind; [eapply yields_map; [exact H4|apply load_vision_layer]|]. intros layers Hl. load_all load_tensor_at load_weight_at.
  apply yields_ret. apply all_ok_app; [|by apply all_ok_concat]. split; cbn; repeat (constructor; [done|]); constructor.
Qed.
End Load.

(** ** Taking the resources *)

Definition resource_named (r : Reader) (m : MaterializedArtifact) (name bytes : list Z) : Prop :=
  exists h x, entries r !! h = Some (ResourceObject x) /\ rd_name x = name /\ resource_bytes m h = Ok bytes.

(** Taking a resource leaves the others and the device as they are. *)
Definition kept (except : list nat) (m m' : MaterializedArtifact) : Prop :=
  device_arena_ m' = device_arena_ m /\ (forall h, device_data m' h = device_data m h) /\ (forall h, h ∉ except -> resource_bytes m' h = resource_bytes m h).

Lemma take_run h m bytes : resource_bytes m h = Ok bytes -> exists m', take_resource_bytes h m = (Ok bytes, m') /\ kept [h] m m'.
Proof.
  intros Hb. unfold take_resource_bytes, mbind_, mget, mlift. rewrite Hb. eexists. split; [reflexivity|]. split; [done|]. split.
  - intros h'. unfold device_data. cbn [objects_]. destruct (decide (h' = h)) as [->|Hne]; [|by rewrite list_lookup_alter_ne].
    rewrite list_lookup_alter_eq. by destruct (objects_ m !! h).
  - intros h' Hh'. unfold resource_bytes. cbn [objects_]. rewrite list_lookup_alter_ne; [done|]. intros ->. apply Hh'. by left.
Qed.

Lemma kept_after e e' m m1 m2 : kept e m m1 -> kept e' m1 m2 -> kept (e ++ e') m m2.
Proof.
  intros (A1 & A2 & A3) (B1 & B2 & B3). split; [by rewrite B1|]. split; [intros h; by rewrite B2|].
  intros h Hh. apply not_elem_of_app in Hh as [He He']. by rewrite B3, A3.
Qed.

(** One of several resources of distinct names. *)
Lemma take_next r plan m0 m e h name : resource_bound r plan h name -> (forall h, h ∈ host_objects plan -> exists bytes, resource_bytes m0 h = Ok bytes) ->
  kept e m0 m -> (forall h', h' ∈ e -> exists n, resource_bound r plan h' n /\ n <> name) ->
  exists bytes m', take_resource_bytes h m = (Ok bytes, m') /\ resource_named r m0 name bytes /\ kept (e ++ [h]) m0 m'.
Proof.
  intros (x & Hx & Hn & Hin) Hall Hk He. destruct (Hall h Hin) as [bytes Hb].
  assert (Hnin : h ∉ e). { intros Hine. destruct (He _ Hine) as (n & (y & Hy & Hyn & _) & Hne). rewrite Hx in Hy. injection Hy as <-. congruence. }
  destruct (take_run h m bytes) as (m' & Hrun & Hk'); [by rewrite (proj2 (proj2 Hk))|]. exists bytes, m'. split; [done|].
  split; [by exists h, x|]. by eapply kept_after.
Qed.

#[local] Ltac distinct_names := intros h' Hh'; repeat (apply elem_of_cons in Hh' as [->|Hh']; [eexists; split; [eassumption|by_compute]|]); by apply not_elem_of_nil in Hh'.

Lemma take_frontend_run r plan m p : frontend_bound r plan p -> (forall h, h ∈ host_objects plan -> exists bytes, resource_bytes m h = Ok bytes) ->
  exists f m' e, take_frontend_resources p m = (Ok f, m') /\ kept e m m' /\
    resource_named r m (bytes_of "frontend/tokenizer.json") (r_tokenizer_json f) /\
    resource_named r m (bytes_of "frontend/tokenizer_config.json") (r_tokenizer_config_json f) /\
    resource_named r m (bytes_of "frontend/chat_template.jinja") (r_chat_template_jinja f) /\
    resource_named r m (bytes_of "frontend/generation_config.json") (r_generation_config_json f) /\
    resource_named r m (bytes_of "frontend/preprocessor_config.json") (r_preprocessor_config_json f) /\
    resource_named r m (bytes_of "frontend/video_preprocessor_config.json") (r_video_preprocessor_config_json f).
Proof.
  intros (B1 & B2 & B3 & B4 & B5 & B6) Hall. assert (K0 : kept [] m m) by done. unfold take_frontend_resources, mbind_.
  destruct (take_next _ _ _ _ _ _ _ B1 Hall K0) as (b1 & m1 & R1 & N1 & K1); [distinct_names|]. rewrite R1. cbn [app] in K1.
  destruct (take_next _ _ _ _ _ _ _ B2 Hall K1) as (b2 & m2 & R2 & N2 & K2); [distinct_names|]. rewrite R2. cbn [app] in K2.
  destruct (take_next _ _ _ _ _ _ _ B3 Hall K2) as (b3 & m3 & R3 & N3 & K3); [distinct_names|]. rewrite R3. cbn [app] in K3.
  destruct (take_next _ _ _ _ _ _ _ B4 Hall K3) as (b4 & m4 & R4 & N4 & K4); [distinct_names|]. rewrite R4. cbn [app] in K4.
  destruct (take_next _ _ _ _ _ _ _ B5 Hall K4) as (b5 & m5 & R5 & N5 & K5); [distinct_names|]. rewrite R5. cbn [app] in K5.
  destruct (take_next _ _ _ _ _ _ _ B6 Hall K5) as (b6 & m6 & R6 & N6 & K6); [distinct_names|]. rewrite R6.
  do 3 eexists. split; [reflexivity|]. split; [exact K6|]. by split_and!.
Qed.
