(* ===== verification/Model27.v ===== *)
(** * The 27B models: [targets/qwen3_6_27b/impl/load/bindings], [package]

    What an artifact of a 27B model must hold, by the profile of its weights, and the view of the model that is made
    of the loaded objects. *)
From Stdlib Require Import Strings.String.
From stdpp Require Import gmap.
From S2P Require Import ProgramState Preparation Prelude Tokenizer Tensor Artifact Materialize Weights.
#[local] Open Scope Z_scope.
#[local] Open Scope ninfer_scope.

(** ** Profiles *)

Inductive WeightsProfile : Set := Qwen36GroupwiseInt | Qwen38GroupwiseInt | Qwen36Nvfp4 | Qwen38Nvfp4.

Definition package_model_id : list Z := bytes_of "qwen3.6-27b".
Definition qwen3_8_model_id : list Z := bytes_of "qwen3.8-27b".

Definition resolve_weights (identity : ArtifactIdentity) : result WeightsProfile :=
  if bool_decide (model_id identity = package_model_id) && bool_decide (weights_id identity = bytes_of "groupwise-int") then Ok Qwen36GroupwiseInt
  else if bool_decide (model_id identity = qwen3_8_model_id) && bool_decide (weights_id identity = bytes_of "groupwise-int") then Ok Qwen38GroupwiseInt
  else if bool_decide (model_id identity = package_model_id) && bool_decide (weights_id identity = bytes_of "nvfp4") then Ok Qwen36Nvfp4
  else if bool_decide (model_id identity = qwen3_8_model_id) && bool_decide (weights_id identity = bytes_of "nvfp4") then Ok Qwen38Nvfp4
  else Err RuntimeError.

Definition kTextLayers : nat := 64.
Definition kFullAttentionLayers : nat := 16.
Definition kGdnLayers : nat := 48.

Definition is_full_layer (layer : nat) : bool := (3 <=? layer)%nat && ((layer - 3) mod 4 =? 0)%nat.
Definition is_early_attention_input (layer : nat) : bool := existsb (Nat.eqb layer) [3; 7; 11; 15; 19; 23]%nat.
Definition is_bf16_attention_output (layer : nat) : bool := existsb (Nat.eqb layer) [3; 7]%nat.
Definition is_bf16_gdn_output (layer : nat) : bool := (layer =? 4)%nat.

Definition endpoint_format (profile : WeightsProfile) : NumericFormat :=
  match profile with
  | Qwen36GroupwiseInt => Q6G64_F16S
  | Qwen38GroupwiseInt | Qwen36Nvfp4 => W8G32_F16S
  | Qwen38Nvfp4 => FP8_E4M3FN_ROW_BF16S
  end.

(** ** Plans *)

Record WeightPlan : Set := mkWeightPlan { wp_object : ObjectHandle; wp_format : NumericFormat; weight_bits : Z; input_bits : Z }.
Definition WeightPlan_default : WeightPlan := mkWeightPlan 0 Artifact.BF16 0 0.

Record MlpPlan : Set := mkMlpPlan { gate_up : WeightPlan; down : WeightPlan }.
Inductive AttentionProjectionPlan : Set :=
| SplitAttention (query_key gate_value : WeightPlan) | FusedAttention (query_key_gate_value : WeightPlan).
Record FullAttentionPlan : Set := mkFullAttentionPlan {
  fa_projection : AttentionProjectionPlan; fa_query_norm : ObjectHandle; fa_key_norm : ObjectHandle; fa_output : WeightPlan;
}.
Inductive GdnInputProjectionPlan : Set :=
| SplitGdnInput (query_key value_z : WeightPlan) | FusedGdnInput (query_key_value_z : WeightPlan).
Inductive GdnControlProjectionPlan : Set :=
| SplitGdnControl (a_projection b_projection : WeightPlan) | FusedGdnControl (a_b_projection : WeightPlan).
Record GdnPlan : Set := mkGdnPlan {
  gp_a_log : ObjectHandle; gp_dt_bias : ObjectHandle; gp_convolution : ObjectHandle; gp_control : GdnControlProjectionPlan;
  gp_input : GdnInputProjectionPlan; gp_norm : ObjectHandle; gp_output : WeightPlan;
}.
Definition FullAttentionPlan_default : FullAttentionPlan :=
  mkFullAttentionPlan (SplitAttention WeightPlan_default WeightPlan_default) 0 0 WeightPlan_default.
Definition GdnPlan_default : GdnPlan :=
  mkGdnPlan 0 0 0 (SplitGdnControl WeightPlan_default WeightPlan_default) (SplitGdnInput WeightPlan_default WeightPlan_default) 0 WeightPlan_default.

Record TextLayerPlan : Set := mkTextLayerPlan {
  tl_input_norm : ObjectHandle; tl_attention : FullAttentionPlan; tl_gdn : GdnPlan; is_full_attention : bool;
  tl_post_attention_norm : ObjectHandle; tl_mlp : MlpPlan;
}.
Record MtpPlan : Set := mkMtpPlan {
  mp_input_projection : ObjectHandle; mp_embedding_norm : ObjectHandle; mp_hidden_norm : ObjectHandle; mp_input_norm : ObjectHandle;
  mp_query_key_gate_value : ObjectHandle; mp_query_norm : ObjectHandle; mp_key_norm : ObjectHandle; mp_output : ObjectHandle;
  mp_post_attention_norm : ObjectHandle; mp_mlp : MlpPlan; mp_final_norm : ObjectHandle;
}.
Record BindingPlan : Set := mkBindingPlan {
  bp_frontend : FrontendResourcePlan; bp_features : StartupFeatures;
  bp_token_embedding : WeightPlan; text_layers : list TextLayerPlan; bp_final_norm : ObjectHandle; bp_output_head : WeightPlan;
  draft_head : ObjectHandle; draft_head_token_ids : ObjectHandle; bp_mtp : MtpPlan;
  vision_backbone : VisionBackbonePlan; vision_merger_input : VisionMergerInputPlan; vision_merger_fc2 : ObjectHandle;
  vision_merger_fc2_bias : ObjectHandle; vision_merger_norm : VisionMergerNormPlan;
}.
Record ArtifactLoadPlan : Set := mkLoadPlan { bindings : BindingPlan; lp_materialization : MaterializationPlan }.

(** ** Binding *)

Definition read_u32_le (bytes : list Z) (offset : Z) : result Z :=
  let size := Z.of_nat (length bytes) in
  do* throw_if ((offset >? size) || (size - offset <? 4)) ArtifactError;
  let value i := nth (Z.to_nat offset + i) bytes 0 in
  Ok (Z.lor (Z.lor (Z.lor (value 0%nat) (Z.shiftl (value 1%nat) 8)) (Z.shiftl (value 2%nat) 16)) (Z.shiftl (value 3%nat) 24)).

(** [std::isfinite], and [value <= 0.0F] of a number that is not a NaN, on the bits of a [float]. *)
Definition float_finite (bits : Z) : bool := negb (Z.land (Z.shiftr bits 23) 255 =? 255).
Definition float_not_positive (bits : Z) : bool := Z.testbit bits 31 || (Z.land bits (2 ^ 31 - 1) =? 0).
Definition require_positive_finite (bits : Z) : result unit := throw_if (negb (float_finite bits) || float_not_positive bits) ArtifactError.

Definition kDraftVocab : nat := Z.to_nat 131072.
Definition kTokenizerVocab : Z := 248077.

(** The loop of [validate_draft_ids], on the bytes that are left; [seen] has the ids that are marked. *)
Fixpoint draft_ids (n : nat) (bytes : list Z) (seen : gmap Z unit) : result unit :=
  match n, bytes with
  | O, _ => Ok tt
  | S n', b0 :: b1 :: b2 :: b3 :: rest =>
      let id := Z.lor (Z.lor (Z.lor b0 (Z.shiftl b1 8)) (Z.shiftl b2 16)) (Z.shiftl b3 24) in
      do* throw_if (id >=? kTokenizerVocab) ArtifactError;
      do* throw_if (is_some (seen !! id)) ArtifactError;
      draft_ids n' rest (<[id := tt]> seen)
  | _, _ => Err Abort_
  end.

Section Bind.
Context (reader : Reader).

Definition bind_weight (name : list Z) (format : NumericFormat) (shape : list Z) : M Binder WeightPlan :=
  do! mthrow_if (bool_decide (format = NVFP4)) LogicError;
  let! object := bind_device_tensor reader name format shape in
  mret_ (mkWeightPlan object format 0 0).

Definition bind_nvfp4_weight (name : list Z) (rows columns : Z) (input_divisor_name : list Z) : M Binder WeightPlan :=
  let shape := [u64 rows; u64 columns] in
  let! parent := require_tensor reader name NVFP4 BlockScaleK16M128x4V1 shape in
  do! materialize_on_device reader parent;
  let! input_divisor := bind_tensor reader input_divisor_name Artifact.FP32 [] ValidateOnly in
  let! geometry := mlift (block_scale_geometry NVFP4 shape) in
  let! weight := mlift (binder_payload reader parent) in
  let! weight_bits := mlift (read_u32_le (Artifact.span_data weight) (weight_divisor_offset geometry)) in
  let! input := mlift (binder_payload reader input_divisor) in
  let! input_bits := mlift (read_u32_le (Artifact.span_data input) 0) in
  do! mlift (require_positive_finite weight_bits);
  do! mlift (require_positive_finite input_bits);
  mret_ (mkWeightPlan parent NVFP4 weight_bits input_bits).

Definition validate_draft_ids (handle : ObjectHandle) : M Binder unit :=
  let! span := mlift (binder_payload reader handle) in
  mlift (draft_ids kDraftVocab (Artifact.span_data span) ∅).

Definition layer_prefix (layer : nat) : list Z := (bytes_of "text/layers/" ++ to_string (Z.of_nat layer) ++ bytes_of "/")%list.
#[local] Notation device name format shape := (bind_device_tensor reader name format shape) (only parsing).

(** The body of [bind_groupwise_text_layers]. *)
Definition bind_groupwise_layer (layer : nat) : M Binder TextLayerPlan :=
  let prefix := layer_prefix layer in
  let! input_norm := device (tensor_name prefix "input_norm") Artifact.BF16 [5120] in
  let! (attention, gdn) :=
    if is_full_layer layer then
      let! query_key := bind_weight (tensor_name prefix "attention/query_key") Q4G64_F16S [7168; 5120] in
      let! gate_value := bind_weight (tensor_name prefix "attention/gate_value") Q5G64_F16S [7168; 5120] in
      let! query_norm := device (tensor_name prefix "attention/query_norm") Artifact.BF16 [256] in
      let! key_norm := device (tensor_name prefix "attention/key_norm") Artifact.BF16 [256] in
      let! output := bind_weight (tensor_name prefix "attention/output") Q5G64_F16S [5120; 6144] in
      mret_ (mkFullAttentionPlan (SplitAttention query_key gate_value) query_norm key_norm output, GdnPlan_default)
    else
      let! a_log := device (tensor_name prefix "gdn/a_log") Artifact.FP32 [48] in
      let! dt_bias := device (tensor_name prefix "gdn/dt_bias") Artifact.FP32 [48] in
      let! convolution := device (tensor_name prefix "gdn/convolution") Artifact.BF16 [4; 10240] in
      let! a_projection := bind_weight (tensor_name prefix "gdn/a_projection") Artifact.BF16 [48; 5120] in
      let! b_projection := bind_weight (tensor_name prefix "gdn/b_projection") Artifact.BF16 [48; 5120] in
      let! query_key := bind_weight (tensor_name prefix "gdn/query_key") Q4G64_F16S [4096; 5120] in
      let! value_z := bind_weight (tensor_name prefix "gdn/value_z") Q5G64_F16S [12288; 5120] in
      let! norm := device (tensor_name prefix "gdn/norm") Artifact.BF16 [128] in
      let! output := bind_weight (tensor_name prefix "gdn/output") Q5G64_F16S [5120; 6144] in
      mret_ (FullAttentionPlan_default,
             mkGdnPlan a_log dt_bias convolution (SplitGdnControl a_projection b_projection) (SplitGdnInput query_key value_z) norm output) in
  let! post_attention_norm := device (tensor_name prefix "post_attention_norm") Artifact.BF16 [5120] in
  let! gate_up := bind_weight (tensor_name prefix "mlp/gate_up") Q4G64_F16S [34816; 5120] in
  let! down := bind_weight (tensor_name prefix "mlp/down") Q5G64_F16S [5120; 17408] in
  mret_ (mkTextLayerPlan input_norm attention gdn (is_full_layer layer) post_attention_norm (mkMlpPlan gate_up down)).

(** The body of [bind_nvfp4_text_layers]. *)
Definition bind_nvfp4_layer (layer : nat) : M Binder TextLayerPlan :=
  let prefix := layer_prefix layer in
  let! input_norm := device (tensor_name prefix "input_norm") Artifact.BF16 [5120] in
  let! (attention, gdn) :=
    if is_full_layer layer then
      let! input :=
        if is_early_attention_input layer then bind_weight (tensor_name prefix "attention/query_key_gate_value") Artifact.BF16 [14336; 5120]
        else bind_nvfp4_weight (tensor_name prefix "attention/query_key_gate_value") 14336 5120
               (tensor_name prefix "attention/input_projection/input_scale_divisor") in
      let! query_norm := device (tensor_name prefix "attention/query_norm") Artifact.BF16 [256] in
      let! key_norm := device (tensor_name prefix "attention/key_norm") Artifact.BF16 [256] in
      let! output :=
        if is_bf16_attention_output layer then bind_weight (tensor_name prefix "attention/output") Artifact.BF16 [5120; 6144]
        else bind_nvfp4_weight (tensor_name prefix "attention/output") 5120 6144
               (tensor_name prefix "attention/output_projection/input_scale_divisor") in
      mret_ (mkFullAttentionPlan (FusedAttention input) query_norm key_norm output, GdnPlan_default)
    else
      let! a_log := device (tensor_name prefix "gdn/a_log") Artifact.FP32 [48] in
      let! dt_bias := device (tensor_name prefix "gdn/dt_bias") Artifact.FP32 [48] in
      let! convolution := device (tensor_name prefix "gdn/convolution") Artifact.BF16 [4; 10240] in
      let! a_projection := bind_weight (tensor_name prefix "gdn/a_projection") Artifact.BF16 [48; 5120] in
      let! b_projection := bind_weight (tensor_name prefix "gdn/b_projection") Artifact.BF16 [48; 5120] in
      let! query_key_value_z := bind_nvfp4_weight (tensor_name prefix "gdn/query_key_value_z") 16384 5120
                                  (tensor_name prefix "gdn/input_projection/input_scale_divisor") in
      let! norm := device (tensor_name prefix "gdn/norm") Artifact.BF16 [128] in
      let! output :=
        if is_bf16_gdn_output layer then bind_weight (tensor_name prefix "gdn/output") Artifact.BF16 [5120; 6144]
        else bind_nvfp4_weight (tensor_name prefix "gdn/output") 5120 6144 (tensor_name prefix "gdn/output_projection/input_scale_divisor") in
      mret_ (FullAttentionPlan_default,
             mkGdnPlan a_log dt_bias convolution (SplitGdnControl a_projection b_projection) (FusedGdnInput query_key_value_z) norm output) in
  let! post_attention_norm := device (tensor_name prefix "post_attention_norm") Artifact.BF16 [5120] in
  let! gate_up := bind_nvfp4_weight (tensor_name prefix "mlp/gate_up") 34816 5120
                    (tensor_name prefix "mlp/gate_up_projection/input_scale_divisor") in
  let! down := bind_nvfp4_weight (tensor_name prefix "mlp/down") 5120 17408 (tensor_name prefix "mlp/down_projection/input_scale_divisor") in
  mret_ (mkTextLayerPlan input_norm attention gdn (is_full_layer layer) post_attention_norm (mkMlpPlan gate_up down)).

(** The body of [bind_qwen38_nvfp4_text_layers]. *)
Definition bind_qwen38_nvfp4_layer (layer : nat) : M Binder TextLayerPlan :=
  let prefix := layer_prefix layer in
  let! input_norm := device (tensor_name prefix "input_norm") Artifact.BF16 [5120] in
  let! (attention, gdn) :=
    if is_full_layer layer then
      let! input := bind_weight (tensor_name prefix "attention/query_key_gate_value") FP8_E4M3FN_ROW_BF16S [14336; 5120] in
      let! query_norm := device (tensor_name prefix "attention/query_norm") Artifact.BF16 [256] in
      let! key_norm := device (tensor_name prefix "attention/key_norm") Artifact.BF16 [256] in
      let! output := bind_weight (tensor_name prefix "attention/output") FP8_E4M3FN_ROW_BF16S [5120; 6144] in
      mret_ (mkFullAttentionPlan (FusedAttention input) query_norm key_norm output, GdnPlan_default)
    else
      let! a_log := device (tensor_name prefix "gdn/a_log") Artifact.FP32 [48] in
      let! dt_bias := device (tensor_name prefix "gdn/dt_bias") Artifact.FP32 [48] in
      let! convolution := device (tensor_name prefix "gdn/convolution") Artifact.BF16 [4; 10240] in
      let! a_b_projection := bind_weight (tensor_name prefix "gdn/a_b_projection") Artifact.BF16 [96; 5120] in
      let! query_key_value_z := bind_weight (tensor_name prefix "gdn/query_key_value_z") FP8_E4M3FN_ROW_BF16S [16384; 5120] in
      let! norm := device (tensor_name prefix "gdn/norm") Artifact.BF16 [128] in
      let! output := bind_weight (tensor_name prefix "gdn/output") FP8_E4M3FN_ROW_BF16S [5120; 6144] in
      mret_ (FullAttentionPlan_default,
             mkGdnPlan a_log dt_bias convolution (FusedGdnControl a_b_projection) (FusedGdnInput query_key_value_z) norm output) in
  let! post_attention_norm := device (tensor_name prefix "post_attention_norm") Artifact.BF16 [5120] in
  let! mlp :=
    if (layer <? 56)%nat then
      let! gate_up := bind_nvfp4_weight (tensor_name prefix "mlp/gate_up") 34816 5120
                        (tensor_name prefix "mlp/gate_up_projection/input_scale_divisor") in
      let! down := bind_nvfp4_weight (tensor_name prefix "mlp/down") 5120 17408
                     (tensor_name prefix "mlp/down_projection/input_scale_divisor") in
      mret_ (mkMlpPlan gate_up down)
    else
      let! gate_up := bind_weight (tensor_name prefix "mlp/gate_up") FP8_E4M3FN_ROW_BF16S [34816; 5120] in
      let! down := bind_weight (tensor_name prefix "mlp/down") FP8_E4M3FN_ROW_BF16S [5120; 17408] in
      mret_ (mkMlpPlan gate_up down) in
  mret_ (mkTextLayerPlan input_norm attention gdn (is_full_layer layer) post_attention_norm mlp).

Definition bind_layer (profile : WeightsProfile) : nat -> M Binder TextLayerPlan :=
  match profile with
  | Qwen36GroupwiseInt | Qwen38GroupwiseInt => bind_groupwise_layer
  | Qwen36Nvfp4 => bind_nvfp4_layer
  | Qwen38Nvfp4 => bind_qwen38_nvfp4_layer
  end.

(** The part of [bind_artifact] for the MTP layer. *)
Definition bind_mtp_layer (placement : TensorPlacement) : M Binder MtpPlan :=
  let bind name format shape := bind_tensor reader name format shape placement in
  let! input_projection := bind (bytes_of "mtp/input_projection") W8G32_F16S [5120; 10240] in
  let! embedding_norm := bind (bytes_of "mtp/embedding_norm") Artifact.BF16 [5120] in
  let! hidden_norm := bind (bytes_of "mtp/hidden_norm") Artifact.BF16 [5120] in
  let! input_norm := bind (bytes_of "mtp/layer/input_norm") Artifact.BF16 [5120] in
  let! query_key_gate_value := bind (bytes_of "mtp/layer/attention/query_key_gate_value") W8G32_F16S [14336; 5120] in
  let! query_norm := bind (bytes_of "mtp/layer/attention/query_norm") Artifact.BF16 [256] in
  let! key_norm := bind (bytes_of "mtp/layer/attention/key_norm") Artifact.BF16 [256] in
  let! output := bind (bytes_of "mtp/layer/attention/output") W8G32_F16S [5120; 6144] in
  let! post_attention_norm := bind (bytes_of "mtp/layer/post_attention_norm") Artifact.BF16 [5120] in
  let! gate_up := bind (bytes_of "mtp/layer/mlp/gate_up") W8G32_F16S [34816; 5120] in
  let! down := bind (bytes_of "mtp/layer/mlp/down") W8G32_F16S [5120; 17408] in
  let! final_norm := bind (bytes_of "mtp/final_norm") Artifact.BF16 [5120] in
  mret_ (mkMtpPlan input_projection embedding_norm hidden_norm input_norm query_key_gate_value query_norm key_norm output
           post_attention_norm (mkMlpPlan (mkWeightPlan gate_up W8G32_F16S 0 0) (mkWeightPlan down W8G32_F16S 0 0)) final_norm).

Definition placement_if (b : bool) : TensorPlacement := if b then Device_ else ValidateOnly.

Definition bind_artifact (profile : WeightsProfile) (features : StartupFeatures) : M Binder ArtifactLoadPlan :=
  let! frontend := bind_frontend_resources reader in
  let vocabulary_format := endpoint_format profile in
  let! token_embedding := bind_weight (bytes_of "text/token_embedding") vocabulary_format [248320; 5120] in
  let! layers := mmapM (bind_layer profile) (seq 0 kTextLayers) in
  let! final_norm := device (bytes_of "text/final_norm") Artifact.BF16 [5120] in
  let! output_head := bind_weight (bytes_of "text/output_head") vocabulary_format [248320; 5120] in
  let proposal_placement := placement_if (optimized_proposal features) in
  let! draft_head := bind_tensor reader (bytes_of "text/draft_head") Q4G64_F16S [131072; 5120] proposal_placement in
  let! draft_head_token_ids := bind_tensor reader (bytes_of "text/draft_head_token_ids") Artifact.I32 [131072] proposal_placement in
  do! validate_draft_ids draft_head_token_ids;
  let! mtp_plan := bind_mtp_layer (placement_if (mtp features)) in
  let vision_placement := placement_if (sf_vision features) in
  let! backbone := bind_vision_backbone reader vision_placement in
  let! merger_input := bind_vision_merger_input reader vision_placement in
  let! merger_fc2 := bind_tensor reader (bytes_of "vision/merger/fc2") W8G32_F16S [5120; 4608] vision_placement in
  let! merger_fc2_bias := bind_tensor reader (bytes_of "vision/merger/fc2_bias") Artifact.BF16 [5120] vision_placement in
  let! merger_norm := bind_vision_merger_norm reader vision_placement in
  let! plan := finish in
  mret_ (mkLoadPlan (mkBindingPlan frontend features token_embedding layers final_norm output_head draft_head draft_head_token_ids mtp_plan
                       backbone merger_input merger_fc2 merger_fc2_bias merger_norm) plan).
End Bind.

(** ** The loaded model *)

Record FullAttentionWeights : Set := mkFullAttentionWeights {
  fw_input_norm : Tensor; fw_projection : list Weight; fw_query_norm : Tensor; fw_key_norm : Tensor; fw_output : Weight;
  fw_post_attention_norm : Tensor; fw_gate_up : Weight; fw_down : Weight;
}.
Record GdnWeights : Set := mkGdnWeights {
  gw_input_norm : Tensor; gw_a_log : Tensor; gw_dt_bias : Tensor; gw_control : list Weight; gw_input : list Weight; gw_convolution : Tensor;
  gw_norm : Tensor; gw_output : Weight; gw_post_attention_norm : Tensor; gw_gate_up : Weight; gw_down : Weight;
}.
Record MtpWeights : Set := mkMtpWeights {
  mw_input_projection : Weight; mw_embedding_norm : Tensor; mw_hidden_norm : Tensor; mw_input_norm : Tensor;
  mw_packed : Weight; mw_query : Weight; mw_key : Weight; mw_output_gate : Weight; mw_value : Weight;
  mw_query_norm : Tensor; mw_key_norm : Tensor; mw_output : Weight; mw_post_attention_norm : Tensor; mw_gate_up : Weight; mw_down : Weight;
  mw_final_norm : Tensor;
}.
Record VisionWeights : Set := mkVisionWeights { vs_common : VisionCommonWeights; vs_merger_fc2 : Weight; vs_merger_fc2_bias : Tensor }.

(** The arrays of the layers hold those that are made so far. *)
Record ModelView : Set := mkModelView {
  mv_token_embedding : Weight; full_layers : list FullAttentionWeights; gdn_layers : list GdnWeights; mv_final_norm : Tensor;
  mv_output_head : Weight; mv_features : StartupFeatures; mv_proposal : option (Weight * Tensor); mv_mtp : option MtpWeights;
  mv_vision : option VisionWeights;
}.

(** [row_view] *)
Definition row_view (block : Weight) (row_begin row_count : Z) : result Weight :=
  do* throw_if ((row_begin <? 0) || (row_count <=? 0) || (row_begin + row_count >? w_n block) ||
                negb (match w_layout block with RowSplit => true | _ => false end)) LogicError;
  let groups := u64 (Z.quot (w_padded_shape block !!! 1%nat) (w_group block)) in
  let high_group := match w_qtype block with Q5G64 => 8 | Q6G64 => 16 | _ => 0 end in
  let low_row := u64 (groups * 32) in
  let high_row := u64 (groups * high_group) in
  let scale_row := u64 (groups * 2) in
  Ok (mkWeight (w_payload block) (w_payload_bytes block) (w_high_plane_bytes block) (w_qtype block) (w_group_size block)
        (<[0%nat := row_count]> (w_shape block)) (<[0%nat := row_count]> (w_padded_shape block)) (w_ndim block)
        (w_qdata block + u64 (row_begin * low_row)) (if high_group =? 0 then 0 else w_qhigh block + u64 (row_begin * high_row))
        (w_scales block + u64 (row_begin * scale_row)) row_count (w_k block) (w_group block) (w_layout block) (w_scale_dtype block)
        (w_scale_ne block) (w_scale_nb block) (weight_scale_divisor block) (input_scale_divisor block)).

Section Load.
Context (m : MaterializedArtifact).

(** [materialized_weight] of a plan. *)
Definition load_weight (plan : WeightPlan) (rows columns : Z) : result Weight :=
  if negb (bool_decide (wp_format plan = NVFP4)) then materialized_weight m (wp_object plan) (wp_format plan) rows columns
  else
    let* geometry := block_scale_geometry NVFP4 [u64 rows; u64 columns] in
    let* bytes := device_data m (wp_object plan) in
    Ok (mkWeight bytes (bg_encoded_bytes geometry) 0 NVFP4_ 16 [rows; columns; 1; 1] [rows; columns; 1; 1] 2 bytes 0
          (bytes + bg_scale_plane_offset geometry) rows columns 16 BlockScaleK16M128x4 Tensor.FP8_E4M3FN [1; 1; 1; 1] [0; 0; 0; 0]
          (weight_bits plan) (input_bits plan)).

Definition load_mlp (plan : MlpPlan) : result (Weight * Weight) :=
  let* up := load_weight (gate_up plan) 34816 5120 in
  let* dn := load_weight (down plan) 5120 17408 in
  Ok (up, dn).

(** The variants of the projections: their weights in order. *)
Definition load_attention_projection (plan : FullAttentionPlan) : result (list Weight) :=
  match fa_projection plan with
  | SplitAttention qk gv =>
      let* query_key := load_weight qk 7168 5120 in let* gate_value := load_weight gv 7168 5120 in Ok [query_key; gate_value]
  | FusedAttention p => let* w := load_weight p 14336 5120 in Ok [w]
  end.
Definition load_gdn_input_projection (plan : GdnPlan) : result (list Weight) :=
  match gp_input plan with
  | SplitGdnInput qk vz =>
      let* query_key := load_weight qk 4096 5120 in let* value_z := load_weight vz 12288 5120 in Ok [query_key; value_z]
  | FusedGdnInput p => let* w := load_weight p 16384 5120 in Ok [w]
  end.
Definition load_gdn_control_projection (plan : GdnPlan) : result (list Weight) :=
  match gp_control plan with
  | SplitGdnControl a b => let* a := load_weight a 48 5120 in let* b := load_weight b 48 5120 in Ok [a; b]
  | FusedGdnControl p => let* w := load_weight p 96 5120 in Ok [w]
  end.
#[local] Notation tensor handle format shape := (materialized_tensor m handle format shape) (only parsing).

Definition load_full_layer (source : TextLayerPlan) : result FullAttentionWeights :=
  let* input_norm := tensor (tl_input_norm source) Artifact.BF16 [5120] in
  let* projection := load_attention_projection (tl_attention source) in
  let* query_norm := tensor (fa_query_norm (tl_attention source)) Artifact.BF16 [256] in
  let* key_norm := tensor (fa_key_norm (tl_attention source)) Artifact.BF16 [256] in
  let* output := load_weight (fa_output (tl_attention source)) 5120 6144 in
  let* post_attention_norm := tensor (tl_post_attention_norm source) Artifact.BF16 [5120] in
  let* (up, dn) := load_mlp (tl_mlp source) in
  Ok (mkFullAttentionWeights input_norm projection query_norm key_norm output post_attention_norm up dn).

Definition load_gdn_layer (source : TextLayerPlan) : result GdnWeights :=
  let* input_norm := tensor (tl_input_norm source) Artifact.BF16 [5120] in
  let* a_log := tensor (gp_a_log (tl_gdn source)) Artifact.FP32 [48] in
  let* dt_bias := tensor (gp_dt_bias (tl_gdn source)) Artifact.FP32 [48] in
  let* convolution := tensor (gp_convolution (tl_gdn source)) Artifact.BF16 [10240; 4] in
  let* control := load_gdn_control_projection (tl_gdn source) in
  let* input := load_gdn_input_projection (tl_gdn source) in
  let* norm := tensor (gp_norm (tl_gdn source)) Artifact.BF16 [128] in
  let* output := load_weight (gp_output (tl_gdn source)) 5120 6144 in
  let* post_attention_norm := tensor (tl_post_attention_norm source) Artifact.BF16 [5120] in
  let* (up, dn) := load_mlp (tl_mlp source) in
  Ok (mkGdnWeights input_norm a_log dt_bias control input convolution norm output post_attention_norm up dn).

(** One turn of the loop over the layers: [.at(index++)], then the fields. *)
Definition load_layer (st : list FullAttentionWeights * list GdnWeights) (source : TextLayerPlan)
  : result (list FullAttentionWeights * list GdnWeights) :=
  let '(full, gdn) := st in
  if is_full_attention source then
    do* throw_if (kFullAttentionLayers <=? length full)%nat OutOfRange;
    let* layer := load_full_layer source in Ok (full ++ [layer], gdn)
  else
    do* throw_if (kGdnLayers <=? length gdn)%nat OutOfRange;
    let* layer := load_gdn_layer source in Ok (full, gdn ++ [layer]).

Definition load_mtp (plan : MtpPlan) : result MtpWeights :=
  let* input_projection := materialized_weight m (mp_input_projection plan) W8G32_F16S 5120 10240 in
  let* embedding_norm := tensor (mp_embedding_norm plan) Artifact.BF16 [5120] in
  let* hidden_norm := tensor (mp_hidden_norm plan) Artifact.BF16 [5120] in
  let* input_norm := tensor (mp_input_norm plan) Artifact.BF16 [5120] in
  let* packed := materialized_weight m (mp_query_key_gate_value plan) W8G32_F16S 14336 5120 in
  let* query := row_view packed 0 6144 in
  let* key := row_view packed 6144 1024 in
  let* output_gate := row_view packed 7168 6144 in
  let* value := row_view packed 13312 1024 in
  let* query_norm := tensor (mp_query_norm plan) Artifact.BF16 [256] in
  let* key_norm := tensor (mp_key_norm plan) Artifact.BF16 [256] in
  let* output := materialized_weight m (mp_output plan) W8G32_F16S 5120 6144 in
  let* post_attention_norm := tensor (mp_post_attention_norm plan) Artifact.BF16 [5120] in
  let* (up, dn) := load_mlp (mp_mlp plan) in
  let* final_norm := tensor (mp_final_norm plan) Artifact.BF16 [5120] in
  Ok (mkMtpWeights input_projection embedding_norm hidden_norm input_norm packed query key output_gate value query_norm key_norm output
        post_attention_norm up dn final_norm).

Definition load_vision (plan : BindingPlan) : result VisionWeights :=
  let* common := materialize_vision_common m (vision_backbone plan) (vision_merger_input plan) (vision_merger_norm plan) in
  let* fc2 := materialized_weight m (vision_merger_fc2 plan) W8G32_F16S 5120 4608 in
  let* fc2_bias := tensor (vision_merger_fc2_bias plan) Artifact.BF16 [5120] in
  Ok (mkVisionWeights common fc2 fc2_bias).

Definition load_proposal (plan : BindingPlan) : result (Weight * Tensor) :=
  let* head := materialized_weight m (draft_head plan) Q4G64_F16S 131072 5120 in
  let* token_ids := tensor (draft_head_token_ids plan) Artifact.I32 [131072] in
  Ok (head, token_ids).

(** [if (c) { emplace }] *)
Definition load_if {A} (c : bool) (load : result A) : result (option A) := if c then let* a := load in Ok (Some a) else Ok None.

(** [LoadedModelData::LoadedModelData], after the resources of the frontend. *)
Definition load_view (plan : BindingPlan) : result ModelView :=
  let* _ := device_arena m in
  let* token_embedding := load_weight (bp_token_embedding plan) 248320 5120 in
  let* (full, gdn) := rfoldl load_layer ([], []) (text_layers plan) in
  do* throw_if (negb (length full =? kFullAttentionLayers)%nat || negb (length gdn =? kGdnLayers)%nat) LogicError;
  let* final_norm := tensor (bp_final_norm plan) Artifact.BF16 [5120] in
  let* output_head := load_weight (bp_output_head plan) 248320 5120 in
  let* proposal := load_if (optimized_proposal (bp_features plan)) (load_proposal plan) in
  let* mtp_weights := load_if (mtp (bp_features plan)) (load_mtp (bp_mtp plan)) in
  let* vision := load_if (sf_vision (bp_features plan)) (load_vision plan) in
  Ok (mkModelView token_embedding full gdn final_norm output_head (bp_features plan) proposal mtp_weights vision).
End Load.

(** [LoadedModelData::LoadedModelData] *)
Definition load_model (plan : BindingPlan) : M MaterializedArtifact (FrontendResources * ModelView) :=
  let! frontend := take_frontend_resources (bp_frontend plan) in
  let! m := mget in
  let! view := mlift (load_view m plan) in
  mret_ (frontend, view).
