(* ===== verification/Model27Proofs.v ===== *)
(** * A 27B model that binds loads

    Whatever the artifact and the features, when binding accepts the artifact, the view of the model can be made of
    the loaded objects, and each of its tensors and weights lies in the object it was bound to. *)
From Stdlib Require Import Strings.String.
From stdpp Require Import gmap.
From S2P Require Import ProgramState Preparation Prelude Unicode UnicodeProofs Tokenizer Tensor Artifact ArtifactProofs Materialize Weights WeightsProofs Model27.
#[local] Open Scope Z_scope.
#[local] Open Scope ninfer_scope.

(** ** Binding *)

Section Bind.
Context (r : Reader).

Definition weight_bound (plan : MaterializationPlan) (w : WeightPlan) (rows columns : Z) : Prop :=
  bound r plan Device_ (wp_object w) (wp_format w) [rows; columns].
Definition device_bound (plan : MaterializationPlan) (h : nat) (format : NumericFormat) (shape : list Z) : Prop := bound r plan Device_ h format shape.

Lemma binds_device name format shape : binds (fun plan h => device_bound plan h format shape) (bind_device_tensor r name format shape).
Proof. apply binds_bind_tensor. Qed.

Lemma binds_weight name format rows columns : binds (fun plan w => weight_bound plan w rows columns) (bind_weight r name format [rows; columns]).
Proof.
  unfold bind_weight. eapply binds_bind; [apply binds_lift|]. intros ?. eapply binds_bind; [apply binds_device|]. intros h. apply binds_ret. intros plan Hb _. exact Hb.
Qed.

Lemma binds_nvfp4 name rows columns divisor : dimension rows -> dimension columns ->
  binds (fun plan w => weight_bound plan w rows columns) (bind_nvfp4_weight r name rows columns divisor).
Proof.
  intros [Hr Hr'] [Hc Hc']. unfold bind_nvfp4_weight. rewrite !u64_small by (unfold_ints; lia).
  eapply binds_bind; [apply binds_require_tensor|]. intros h. eapply binds_bind; [apply binds_materialize_on_device|]. intros ?.
  eapply binds_bind; [apply binds_bind_tensor|]. intros divisor_h. do 7 (eapply binds_bind; [apply binds_lift|intros ?]).
  apply binds_ret. intros plan. intros. by split.
Qed.

Definition attention_bound (plan : MaterializationPlan) (p : FullAttentionPlan) : Prop :=
  match fa_projection p with
  | SplitAttention qk gv => weight_bound plan qk 7168 5120 /\ weight_bound plan gv 7168 5120
  | FusedAttention w => weight_bound plan w 14336 5120
  end /\ device_bound plan (fa_query_norm p) Artifact.BF16 [256] /\ device_bound plan (fa_key_norm p) Artifact.BF16 [256] /\
  weight_bound plan (fa_output p) 5120 6144.
Definition gdn_bound (plan : MaterializationPlan) (p : GdnPlan) : Prop :=
  device_bound plan (gp_a_log p) Artifact.FP32 [48] /\ device_bound plan (gp_dt_bias p) Artifact.FP32 [48] /\
  device_bound plan (gp_convolution p) Artifact.BF16 [4; 10240] /\
  match gp_control p with
  | SplitGdnControl a b => weight_bound plan a 48 5120 /\ weight_bound plan b 48 5120
  | FusedGdnControl w => weight_bound plan w 96 5120
  end /\
  match gp_input p with
  | SplitGdnInput qk vz => weight_bound plan qk 4096 5120 /\ weight_bound plan vz 12288 5120
  | FusedGdnInput w => weight_bound plan w 16384 5120
  end /\ device_bound plan (gp_norm p) Artifact.BF16 [128] /\ weight_bound plan (gp_output p) 5120 6144.
Definition mlp_bound (plan : MaterializationPlan) (p : MlpPlan) : Prop := weight_bound plan (gate_up p) 34816 5120 /\ weight_bound plan (down p) 5120 17408.
Definition mixer_bound (layer : nat) (plan : MaterializationPlan) (p : FullAttentionPlan * GdnPlan) : Prop :=
  if is_full_layer layer then attention_bound plan p.1 else gdn_bound plan p.2.
Definition layer_bound (layer : nat) (plan : MaterializationPlan) (p : TextLayerPlan) : Prop :=
  is_full_attention p = is_full_layer layer /\ device_bound plan (tl_input_norm p) Artifact.BF16 [5120] /\
  mixer_bound layer plan (tl_attention p, tl_gdn p) /\ device_bound plan (tl_post_attention_norm p) Artifact.BF16 [5120] /\ mlp_bound plan (tl_mlp p).

Ltac bind_all := repeat (eapply binds_bind; [first [apply binds_weight|apply binds_nvfp4; in_dimension|apply binds_device|apply binds_bind_tensor]|intros ?]).
Ltac bound_all := apply binds_ret; intros plan; intros; by split_and!.

Lemma binds_groupwise_layer layer : binds (layer_bound layer) (bind_groupwise_layer r layer).
Proof.
  unfold bind_groupwise_layer. bind_all. apply (binds_bind (mixer_bound layer)).
  - unfold mixer_bound. destruct (is_full_layer layer); bind_all; bound_all.
  - intros [attention gdn]. bind_all. bound_all.
Qed.

Lemma binds_nvfp4_layer layer : binds (layer_bound layer) (bind_nvfp4_layer r layer).
Proof.
  unfold bind_nvfp4_layer. bind_all. apply (binds_bind (mixer_bound layer)).
  - unfold mixer_bound. destruct (is_full_layer layer); bind_all.
    + apply (binds_bind (fun plan w => weight_bound plan w 14336 5120)); [destruct (is_early_attention_input layer); [apply binds_weight|apply binds_nvfp4; in_dimension]|].
      intros input. bind_all. apply (binds_bind (fun plan w => weight_bound plan w 5120 6144)); [destruct (is_bf16_attention_output layer); [apply binds_weight|apply binds_nvfp4; in_dimension]|].
      intros output. bound_all.
    + apply (binds_bind (fun plan w => weight_bound plan w 5120 6144)); [destruct (is_bf16_gdn_output layer); [apply binds_weight|apply binds_nvfp4; in_dimension]|].
      intros output. bound_all.
  - intros [attention gdn]. bind_all. bound_all.
Qed.

Lemma binds_qwen38_layer layer : binds (layer_bound layer) (bind_qwen38_nvfp4_layer r layer).
Proof.
  unfold bind_qwen38_nvfp4_layer. bind_all. apply (binds_bind (mixer_bound layer)).
  - unfold mixer_bound. destruct (is_full_layer layer); bind_all; bound_all.
  - intros [attention gdn]. bind_all. apply (binds_bind mlp_bound).
    + destruct (layer <? 56)%nat; bind_all; bound_all.
    + intros mlp. bound_all.
Qed.

Lemma binds_layer profile layer : binds (layer_bound layer) (bind_layer r profile layer).
Proof. destruct profile; [apply binds_groupwise_layer..|apply binds_nvfp4_layer|apply binds_qwen38_layer]. Qed.

(** *** The whole model *)

Definition mtp_bound (placement : TensorPlacement) (plan : MaterializationPlan) (p : MtpPlan) : Prop :=
  let bound_m := bound r plan placement in
  bound_m (mp_input_projection p) W8G32_F16S [5120; 10240] /\ bound_m (mp_embedding_norm p) Artifact.BF16 [5120] /\
  bound_m (mp_hidden_norm p) Artifact.BF16 [5120] /\ bound_m (mp_input_norm p) Artifact.BF16 [5120] /\
  bound_m (mp_query_key_gate_value p) W8G32_F16S [14336; 5120] /\ bound_m (mp_query_norm p) Artifact.BF16 [256] /\
  bound_m (mp_key_norm p) Artifact.BF16 [256] /\ bound_m (mp_output p) W8G32_F16S [5120; 6144] /\
  bound_m (mp_post_attention_norm p) Artifact.BF16 [5120] /\
  (wp_format (gate_up (mp_mlp p)) = W8G32_F16S /\ wp_format (down (mp_mlp p)) = W8G32_F16S) /\
  bound_m (wp_object (gate_up (mp_mlp p))) W8G32_F16S [34816; 5120] /\ bound_m (wp_object (down (mp_mlp p))) W8G32_F16S [5120; 17408] /\
  bound_m (mp_final_norm p) Artifact.BF16 [5120].

Lemma binds_mtp placement : binds (mtp_bound placement) (bind_mtp_layer r placement).
Proof. unfold bind_mtp_layer. bind_all. bound_all. Qed.

Definition vision_bound (placement : TensorPlacement) (plan : MaterializationPlan) (p : BindingPlan) : Prop :=
  vision_backbone_bound r placement plan (vision_backbone p) /\ merger_input_bound r placement plan (vision_merger_input p) /\
  merger_norm_bound r placement plan (vision_merger_norm p) /\ bound r plan placement (vision_merger_fc2 p) W8G32_F16S [5120; 4608] /\
  bound r plan placement (vision_merger_fc2_bias p) Artifact.BF16 [5120].

Record artifact_bound (features : StartupFeatures) (plan : MaterializationPlan) (p : BindingPlan) : Prop := {
  ab_features : bp_features p = features;
  ab_frontend : frontend_bound r plan (bp_frontend p);
  ab_embedding : weight_bound plan (bp_token_embedding p) 248320 5120;
  ab_layers : Forall2 (fun layer => layer_bound layer plan) (seq 0 kTextLayers) (text_layers p);
  ab_final_norm : device_bound plan (bp_final_norm p) Artifact.BF16 [5120];
  ab_output_head : weight_bound plan (bp_output_head p) 248320 5120;
  ab_proposal : bound r plan (placement_if (optimized_proposal features)) (draft_head p) Q4G64_F16S [131072; 5120];
  ab_proposal_ids : bound r plan (placement_if (optimized_proposal features)) (draft_head_token_ids p) Artifact.I32 [131072];
  ab_mtp : mtp_bound (placement_if (mtp features)) plan (bp_mtp p);
  ab_vision : vision_bound (placement_if (sf_vision features)) plan p;
}.

(** A computation that ends with the plan of the binder. *)
Definition ends (Q : ArtifactLoadPlan -> Prop) (op : M Binder ArtifactLoadPlan) : Prop := forall b,
  wp op (fun lp _ => below b (lp_materialization lp) /\ Q lp) (fun _ _ => True) b.
Lemma ends_bind {A} (P : MaterializationPlan -> A -> Prop) (Q : ArtifactLoadPlan -> Prop) op (k : A -> M Binder ArtifactLoadPlan) :
  binds P op -> (forall a, ends (fun lp => P (lp_materialization lp) a -> Q lp) (k a)) -> ends Q (mbind_ op k).
Proof.
  intros Hop Hk b. apply wp_bind. eapply wp_mono; [apply Hop| |done]. intros a b1 H1. eapply wp_mono; [apply Hk| |done].
  intros lp b2 [Hb HQ]. destruct (H1 _ Hb) as [Hb0 HP]. auto.
Qed.
Lemma ends_finish Q p : (forall plan, Q (mkLoadPlan p plan)) -> ends Q (let! plan := finish in mret_ (mkLoadPlan p plan)).
Proof.
  intros HQ b. apply wp_bind, wp_bind, wp_get, wp_bind, wp_throw_if; [done|]. intros _. apply wp_bind, wp_throw_if; [done|]. intros _.
  apply wp_bind, wp_put, wp_ret, wp_ret. split; [by split|done].
Qed.

Hypothesis Hindex : indexes (entries r) (index r).

Lemma bind_artifact_bound profile features : ends (fun lp => artifact_bound features (lp_materialization lp) (bindings lp)) (bind_artifact r profile features).
Proof.
  unfold bind_artifact. eapply ends_bind; [by apply binds_frontend|intros frontend]. cbv zeta.
  eapply ends_bind; [apply binds_weight|intros token_embedding]. eapply ends_bind; [apply binds_map, binds_layer|intros layers].
  eapply ends_bind; [apply binds_device|intros final_norm]. eapply ends_bind; [apply binds_weight|intros output_head].
  eapply ends_bind; [apply binds_bind_tensor|intros head]. eapply ends_bind; [apply binds_bind_tensor|intros ids].
  apply (ends_bind (fun _ _ => True)).
  { unfold validate_draft_ids. eapply binds_bind; [apply binds_lift|intros ?]. eapply binds_mono; [apply binds_lift|done]. }
  intros _. eapply ends_bind; [apply binds_mtp|intros mtp_plan]. eapply ends_bind; [apply binds_vision_backbone|intros backbone].
  eapply ends_bind; [apply binds_merger_input|intros merger_input]. eapply ends_bind; [apply binds_bind_tensor|intros fc2].
  eapply ends_bind; [apply binds_bind_tensor|intros fc2_bias]. eapply ends_bind; [apply binds_merger_norm|intros merger_norm].
  apply ends_finish. intros plan. cbn. intros. split; try done.
Qed.
End Bind.

(** ** Loading *)

Section Load.
Context (r : Reader) (plan : MaterializationPlan) (m : MaterializedArtifact).
Hypothesis Hsized : Forall sized (entries r).
Hypothesis Hloaded : forall d, d ∈ device_objects plan -> exists address, device_data m (dm_object d) = Ok address.
#[local] Notation ok := (all_ok r plan m) (only parsing).
Let load_tensor_at := load_tensor_at r plan m Hsized Hloaded.
Let load_weight_at := load_weight_at r plan m Hsized Hloaded.

Lemma load_weight_plan w rows columns : weight_bound r plan w rows columns -> dimension rows -> dimension columns ->
  yields (weight_ok r plan m) (load_weight m w rows columns).
Proof.
  intros Hb Hr Hc. unfold load_weight. case_bool_decide as Hf; cbn [negb]; [|by apply load_weight_at].
  unfold weight_bound in Hb. rewrite Hf in Hb. unfold dimension in *. destruct (bound_view r plan m Hsized Hloaded _ _ _ Hb) as (a & n & Ha & Hv & Hn).
  cbn [storage_layout_for tensor_encoded_size] in Hn. apply rbind_Ok in Hn as (g & Hg & [= <-]). rewrite !u64_small by (unfold_ints; lia).
  rewrite Hg. cbn [rbind]. rewrite Ha. cbn [rbind]. apply yields_ret. apply block_scale_geometry_Ok in Hg as (_ & _ & _ & _ & _ & Hmax & Hfit & ->); [|lia..].
  cbn in Hv |- *. pose proof (Z.div_pos (rows * columns) 2 ltac:(lia) ltac:(lia)). pose proof (Z.div_pos (rows * columns) 16 ltac:(lia) ltac:(lia)).
  pose proof (align_Z_spec (rows * columns / 2) 256 ltac:(done)) as [Hal _]. split; [exact Hv|]. unfold planes. cbn. repeat split; lia.
Qed.

Ltac load_plan := eapply yields_bind; [first [eapply load_tensor_at; [eassumption|reflexivity]|eapply load_weight_at; [eassumption|done|in_dimension|in_dimension]
  |eapply load_weight_plan; [eassumption|in_dimension|in_dimension]]|intros ? ?].
Ltac load_plans := repeat load_plan.
Ltac all_loaded := apply yields_ret; split; cbn; repeat (constructor; [done|]); constructor.

Lemma load_mlp_ok p : mlp_bound r plan p -> yields (fun '(up, dn) => weight_ok r plan m up /\ weight_ok r plan m dn) (load_mlp m p).
Proof. intros [H1 H2]. unfold load_mlp. load_plans. by apply yields_ret. Qed.

Definition full_weights (l : FullAttentionWeights) : list Weight := [fw_output l; fw_gate_up l; fw_down l] ++ fw_projection l.
Definition full_tensors (l : FullAttentionWeights) : list Tensor := [fw_input_norm l; fw_query_norm l; fw_key_norm l; fw_post_attention_norm l].
Definition gdn_weights (l : GdnWeights) : list Weight := [gw_output l; gw_gate_up l; gw_down l] ++ gw_control l ++ gw_input l.
Definition gdn_tensors (l : GdnWeights) : list Tensor :=
  [gw_input_norm l; gw_a_log l; gw_dt_bias l; gw_convolution l; gw_norm l; gw_post_attention_norm l].

Lemma load_attention_ok p : attention_bound r plan p -> yields (Forall (weight_ok r plan m)) (load_attention_projection m p).
Proof.
  intros (Hp & _). unfold load_attention_projection. destruct (fa_projection p); [destruct Hp|]; load_plans; apply yields_ret; repeat (constructor; [done|]); constructor.
Qed.
Lemma load_gdn_input_ok p : gdn_bound r plan p -> yields (Forall (weight_ok r plan m)) (load_gdn_input_projection m p).
Proof.
  intros (_ & _ & _ & _ & Hp & _). unfold load_gdn_input_projection. destruct (gp_input p); [destruct Hp|]; load_plans; apply yields_ret; repeat (constructor; [done|]); constructor.
Qed.
Lemma load_gdn_control_ok p : gdn_bound r plan p -> yields (Forall (weight_ok r plan m)) (load_gdn_control_projection m p).
Proof.
  intros (_ & _ & _ & Hp & _). unfold load_gdn_control_projection. destruct (gp_control p); [destruct Hp|]; load_plans; apply yields_ret; repeat (constructor; [done|]); constructor.
Qed.

Lemma load_full_layer_ok layer p : is_full_layer layer = true -> layer_bound r layer plan p ->
  yields (fun l => ok (full_weights l) (full_tensors l)) (load_full_layer m p).
Proof.
  intros Hl (_ & H1 & H2 & H3 & H4). unfold mixer_bound in H2. rewrite Hl in H2. pose proof (load_attention_ok _ H2) as Hp. cbn in Hp, H2.
  destruct H2 as (_ & H5 & H6 & H7). unfold load_full_layer. load_plans. eapply yields_bind; [exact Hp|]. intros projection Hproj. load_plans.
  eapply yields_bind; [by apply load_mlp_ok|]. intros [up dn] [Hu Hd]. apply yields_ret. split; [apply Forall_app; split; [|done]|]; cbn; repeat (constructor; [done|]); constructor.
Qed.

Lemma load_gdn_layer_ok layer p : is_full_layer layer = false -> layer_bound r layer plan p ->
  yields (fun l => ok (gdn_weights l) (gdn_tensors l)) (load_gdn_layer m p).
Proof.
  intros Hl (_ & H1 & H2 & H3 & H4). unfold mixer_bound in H2. rewrite Hl in H2. cbn in H2. pose proof (load_gdn_input_ok _ H2) as Hi. pose proof (load_gdn_control_ok _ H2) as Hc.
  destruct H2 as (H5 & H6 & H7 & _ & _ & H8 & H9). unfold load_gdn_layer. load_plans. eapply yields_bind; [exact Hc|]. intros control Hcontrol.
  eapply yields_bind; [exact Hi|]. intros input Hinput. load_plans. eapply yields_bind; [by apply load_mlp_ok|]. intros [up dn] [Hu Hd].
  apply yields_ret. split; [apply Forall_app; split; [|by apply Forall_app]|]; cbn; repeat (constructor; [done|]); constructor.
Qed.

(** *** The layers *)

Definition layers_ok (full gdn : nat) (st : list FullAttentionWeights * list GdnWeights) : Prop :=
  length st.1 = full /\ length st.2 = gdn /\ Forall (fun l => ok (full_weights l) (full_tensors l)) st.1 /\
  Forall (fun l => ok (gdn_weights l) (gdn_tensors l)) st.2.
Definition full_count (layers : list nat) : nat := length (List.filter is_full_layer layers).

Lemma full_count_cons layer layers : full_count (layer :: layers) = if is_full_layer layer then S (full_count layers) else full_count layers.
Proof. unfold full_count. cbn. by destruct (is_full_layer layer). Qed.
Lemma full_count_bound layers : (full_count layers <= length layers)%nat.
Proof. induction layers as [|l ls IH]; [done|]. rewrite full_count_cons. cbn. destruct (is_full_layer l); lia. Qed.

Lemma load_layers_ok layers plans : Forall2 (fun layer => layer_bound r layer plan) layers plans -> forall full gdn st, layers_ok full gdn st ->
  (full + full_count layers <= kFullAttentionLayers)%nat -> (gdn + (length layers - full_count layers) <= kGdnLayers)%nat ->
  yields (layers_ok (full + full_count layers) (gdn + (length layers - full_count layers))) (rfoldl (load_layer m) st plans).
Proof.
  induction 1 as [|layer p layers plans Hp _ IH]; intros full gdn [f g] Hst Hf Hg.
  { apply yields_ret. cbn. unfold full_count. cbn. by rewrite !Nat.add_0_r. }
  destruct Hst as (H1 & H2 & H3 & H4). cbn in H1, H2, H3, H4. pose proof (full_count_bound layers) as Hb. rewrite full_count_cons in *. cbn [length] in Hg.
  cbn [rfoldl load_layer]. rewrite (proj1 Hp). destruct (is_full_layer layer) eqn:El.
  - rewrite (proj2 (Nat.leb_gt _ _)) by lia. cbn [throw_if rbind]. destruct (load_full_layer_ok layer p El Hp) as (l & -> & Hl). cbn [rbind length].
    replace (full + S (full_count layers))%nat with (S full + full_count layers)%nat by lia. cbn [Nat.sub]. apply IH; [|lia|lia].
    split; cbn; [rewrite length_app; cbn; lia|]. split; [done|]. split; [apply Forall_app; split; [done|by constructor]|done].
  - rewrite (proj2 (Nat.leb_gt _ _)) by lia. cbn [throw_if rbind]. destruct (load_gdn_layer_ok layer p El Hp) as (l & -> & Hl). cbn [rbind length].
    replace (gdn + (S (length layers) - full_count layers))%nat with (S gdn + (length layers - full_count layers))%nat by lia. apply IH; [|lia|lia].
    split; cbn; [done|]. split; [rewrite length_app; cbn; lia|]. split; [done|]. apply Forall_app; split; [done|by constructor].
Qed.

(** *** Row views *)

(** A row-split weight whose sizes are small enough to compute its views. *)
Definition splits_rows (w : Weight) : Prop := w_layout w = RowSplit /\ dimension (w_n w) /\
  1 <= Z.quot (w_padded_shape w !!! 1%nat) (w_group w) <= 2 ^ 24 /\ Z.quot (w_padded_shape w !!! 1%nat) (w_group w) = w_padded_shape w !!! 1%nat / w_group w.

Lemma row_view_ok w begin count : splits_rows w -> weight_ok r plan m w -> 0 <= begin -> 0 < count -> begin + count <= w_n w ->
  yields (weight_ok r plan m) (row_view w begin count).
Proof.
  intros (Hl & [Hn Hn'] & [Hg Hg'] & Hq) [Hv Hp] Hb Hc Hfit. unfold row_view. rewrite Hl, Z.gtb_ltb.
  rewrite (proj2 (Z.ltb_ge begin 0)), (proj2 (Z.leb_gt count 0)), (proj2 (Z.ltb_ge (w_n w) (begin + count))) by lia. cbn [orb negb throw_if rbind].
  set (groups := Z.quot _ _) in *. rewrite (u64_small groups) by (unfold_ints; lia).
  assert (Hmul : forall x, 0 <= x <= 32 -> u64 (begin * u64 (groups * x)) = begin * (groups * x) /\ 0 <= begin * (groups * x) /\
    begin * (groups * x) + count * groups * x <= w_n w * groups * x).
  { intros x Hx. assert (0 <= groups * x <= 2 ^ 24 * 32) by nia. rewrite (u64_small (groups * x)) by (unfold_ints; lia).
    assert (0 <= begin * (groups * x) <= 2 ^ 24 * (2 ^ 24 * 32)) by nia. rewrite u64_small by (unfold_ints; lia). split; [done|]. split; [lia|].
    nia. }
  set (h := match w_qtype w with Q5G64 => 8 | Q6G64 => 16 | _ => 0 end). assert (Hh : 0 <= h <= 32) by (unfold h; destruct (w_qtype w); lia).
  destruct (Hmul 32 ltac:(lia)) as (E32 & P32 & Q32), (Hmul h Hh) as (Eh & Ph & Qh), (Hmul 2 ltac:(lia)) as (E2 & P2 & Q2). rewrite E32, Eh, E2.
  apply yields_ret. split; [exact Hv|]. unfold planes in *. rewrite Hl in Hp. cbn [w_layout w_n w_padded_shape w_group w_qdata w_qhigh w_scales w_qtype w_payload w_payload_bytes] in *.
  rewrite list_lookup_total_insert_ne by done. fold h in Hp |- *. rewrite <- Hq in *. fold groups in Hp |- *.
  destruct (Z.eqb_spec h 0); cbn [app in_order] in *; repeat split; nia.
Qed.

(** *** The optional parts *)

Lemma packed_splits h w : materialized_weight m h W8G32_F16S 14336 5120 = Ok w -> splits_rows w /\ w_n w = 14336.
Proof.
  unfold materialized_weight, row_split_weight. cbn [storage_layout_for]. rewrite !bool_decide_eq_false_2 by done. cbn [throw_if rbind].
  destruct (row_split_geometry W8G32_F16S [u64 14336; u64 5120]) as [g|] eqn:Hg; vm_compute in Hg; [|done]. injection Hg as <-. cbn [rbind].
  destruct (device_data m h) as [a|]; [|done]. cbn [rbind]. intros [= <-]. split; [|done]. split; [done|]. split; [in_dimension|].
  split; [split; vm_compute; discriminate|reflexivity].
Qed.

Definition mtp_weights (w : MtpWeights) : list Weight :=
  [mw_input_projection w; mw_packed w; mw_query w; mw_key w; mw_output_gate w; mw_value w; mw_output w; mw_gate_up w; mw_down w].
Definition mtp_tensors (w : MtpWeights) : list Tensor :=
  [mw_embedding_norm w; mw_hidden_norm w; mw_input_norm w; mw_query_norm w; mw_key_norm w; mw_post_attention_norm w; mw_final_norm w].

Lemma load_mtp_ok p : mtp_bound r Device_ plan p -> yields (fun w => ok (mtp_weights w) (mtp_tensors w)) (load_mtp m p).
Proof.
  intros (H1 & H2 & H3 & H4 & H5 & H6 & H7 & H8 & H9 & [F1 F2] & H10 & H11 & H12). unfold load_mtp. do 4 load_plan.
  eapply (yields_bind (fun w => weight_ok r plan m w /\ splits_rows w /\ w_n w = 14336)).
  { destruct (load_weight_at _ _ 14336 5120 H5) as (w & Hw & Hok); [done|in_dimension|in_dimension|]. exists w. split; [done|]. split; [done|]. by eapply packed_splits. }
  intros packed (Hok & Hs & Hn). do 4 (eapply yields_bind; [apply row_view_ok; try done; rewrite ?Hn; lia|intros ? ?]). load_plans.
  eapply yields_bind; [apply load_mlp_ok; split; unfold weight_bound; rewrite ?F1, ?F2; done|]. intros [up dn] [Hu Hd]. load_plans. all_loaded.
Qed.

Lemma load_if_ok {A} (P : A -> Prop) (c : bool) (load : result A) : (c = true -> yields P load) -> yields (from_option P True) (load_if c load).
Proof.
  intros H. unfold load_if. destruct c; [|by apply yields_ret]. destruct (H eq_refl) as (a & -> & HP). by apply yields_ret.
Qed.

(** *** The view *)

Definition option_list {A B} (f : A -> list B) (o : option A) : list B := from_option f [] o.
Definition weights_of (v : ModelView) : list Weight :=
  [mv_token_embedding v; mv_output_head v] ++ concat (full_weights <$> full_layers v) ++ concat (gdn_weights <$> gdn_layers v) ++
  option_list (fun p => [p.1]) (mv_proposal v) ++ option_list mtp_weights (mv_mtp v) ++
  option_list (fun w => vs_merger_fc2 w :: vision_weights (vs_common w)) (mv_vision v).
Definition tensors_of (v : ModelView) : list Tensor :=
  [mv_final_norm v] ++ concat (full_tensors <$> full_layers v) ++ concat (gdn_tensors <$> gdn_layers v) ++
  option_list (fun p => [p.2]) (mv_proposal v) ++ option_list mtp_tensors (mv_mtp v) ++
  option_list (fun w => vs_merger_fc2_bias w :: vision_tensors (vs_common w)) (mv_vision v).

Lemma option_ok {A} (ws : A -> list Weight) (ts : A -> list Tensor) o : from_option (fun a => ok (ws a) (ts a)) True o -> ok (option_list ws o) (option_list ts o).
Proof. destruct o; [done|]. by split. Qed.

Definition complete_view (features : StartupFeatures) (v : ModelView) : Prop :=
  length (full_layers v) = kFullAttentionLayers /\ length (gdn_layers v) = kGdnLayers /\ is_some (mv_proposal v) = optimized_proposal features /\
  is_some (mv_mtp v) = mtp features /\ is_some (mv_vision v) = sf_vision features.

Lemma load_if_some {A} (c : bool) (load : result A) o : load_if c load = Ok o -> is_some o = c.
Proof. unfold load_if. destruct c; [|by intros [= <-]]. destruct load; [|done]. by intros [= <-]. Qed.

Lemma load_view_ok features p : artifact_bound r features plan p -> is_Some (device_arena_ m) ->
  yields (fun v => ok (weights_of v) (tensors_of v) /\ complete_view features v) (load_view m p).
Proof.
  intros [Hf _ H1 H2 H3 H4 H5 H6 H7 (V1 & V2 & V3 & V4 & V5)] [arena Harena]. unfold load_view, device_arena. rewrite Harena, Hf. cbn [rbind]. load_plans.
  pose proof (load_layers_ok _ _ H2 0 0 ([], []) ltac:(by split_and!) ltac:(vm_compute; lia) ltac:(vm_compute; lia)) as Hlayers.
  change (0 + full_count (seq 0 kTextLayers))%nat with kFullAttentionLayers in Hlayers. change (0 + (length (seq 0 kTextLayers) - full_count (seq 0 kTextLayers)))%nat with kGdnLayers in Hlayers.
  eapply yields_bind; [exact Hlayers|]. intros [full gdn] (L1 & L2 & L3 & L4). cbn [fst snd] in L1, L2, L3, L4. rewrite L1, L2. cbn [negb orb]. rewrite !Nat.eqb_refl. cbn [negb orb throw_if rbind].
  load_plans.
  eapply (yields_bind (fun o => from_option (fun p => ok [p.1] [p.2]) True o /\ is_some o = optimized_proposal features)).
  { assert (Hp : yields (from_option (fun p => ok [p.1] [p.2]) True) (load_if (optimized_proposal features) (load_proposal m p))).
    { apply load_if_ok. intros Hc. rewrite Hc in H5, H6. cbn in H5, H6. unfold load_proposal. load_plans. all_loaded. }
    destruct Hp as (o & Ho & Hok). exists o. split; [done|]. split; [done|by eapply load_if_some]. }
  intros proposal [P1 P2]. eapply (yields_bind (fun o => from_option (fun w => ok (mtp_weights w) (mtp_tensors w)) True o /\ is_some o = mtp features)).
  { assert (Hp : yields (from_option (fun w => ok (mtp_weights w) (mtp_tensors w)) True) (load_if (mtp features) (load_mtp m (bp_mtp p)))).
    { apply load_if_ok. intros Hc. rewrite Hc in H7. by apply load_mtp_ok. }
    destruct Hp as (o & Ho & Hok). exists o. split; [done|]. split; [done|by eapply load_if_some]. }
  intros mtp_w [M1 M2].
  eapply (yields_bind (fun o => from_option (fun w => ok (vs_merger_fc2 w :: vision_weights (vs_common w)) (vs_merger_fc2_bias w :: vision_tensors (vs_common w))) True o /\ is_some o = sf_vision features)).
  { assert (Hp : yields (from_option (fun w => ok (vs_merger_fc2 w :: vision_weights (vs_common w)) (vs_merger_fc2_bias w :: vision_tensors (vs_common w))) True)
      (load_if (sf_vision features) (load_vision m p))).
    { apply load_if_ok. intros Hc. rewrite Hc in V1, V2, V3, V4, V5. unfold load_vision. eapply yields_bind; [by apply (load_vision_common r plan m Hsized Hloaded)|].
      intros common [C1 C2]. load_plans. apply yields_ret. split; by constructor. }
    destruct Hp as (o & Ho & Hok). exists o. split; [done|]. split; [done|by eapply load_if_some]. }
  intros vision [W1 W2]. apply yields_ret. split; [|by split_and!]. unfold weights_of, tensors_of.
  cbn [mv_token_embedding mv_output_head mv_final_norm full_layers gdn_layers mv_proposal mv_mtp mv_vision].
  apply all_ok_app; [split; repeat (constructor; [done|]); constructor|]. apply all_ok_app; [by apply all_ok_concat|]. apply all_ok_app; [by apply all_ok_concat|].
  apply all_ok_app; [by apply option_ok|]. apply all_ok_app; by apply option_ok.
Qed.
End Load.

(** ** The model *)

Lemma view_kept r plan m m' a n : (forall h, device_data m' h = device_data m h) -> view_of r plan m' a n -> view_of r plan m a n.
Proof. intros Hk (d & t & Hd & Ht & Ha & Hn). exists d, t. by rewrite <- Hk. Qed.
Lemma all_ok_kept r plan m m' ws ts : (forall h, device_data m' h = device_data m h) -> all_ok r plan m' ws ts -> all_ok r plan m ws ts.
Proof.
  intros Hk [Hw Ht]. split; eapply Forall_impl; [exact Hw| |exact Ht|].
  - intros w [Hv Hp]. split; [by eapply view_kept|done].
  - intros t (n & Hn & Hv). exists n. split; [done|by eapply view_kept].
Qed.

(** The objects of the plan are loaded. *)
Definition loaded (plan : MaterializationPlan) (m : MaterializedArtifact) : Prop := is_Some (device_arena_ m) /\
  (forall d, d ∈ device_objects plan -> exists address, device_data m (dm_object d) = Ok address) /\
  (forall h, h ∈ host_objects plan -> exists bytes, resource_bytes m h = Ok bytes).

Definition named_resources (r : Reader) (m : MaterializedArtifact) (f : FrontendResources) : Prop :=
  resource_named r m (bytes_of "frontend/tokenizer.json") (r_tokenizer_json f) /\
  resource_named r m (bytes_of "frontend/tokenizer_config.json") (r_tokenizer_config_json f) /\
  resource_named r m (bytes_of "frontend/chat_template.jinja") (r_chat_template_jinja f) /\
  resource_named r m (bytes_of "frontend/generation_config.json") (r_generation_config_json f) /\
  resource_named r m (bytes_of "frontend/preprocessor_config.json") (r_preprocessor_config_json f) /\
  resource_named r m (bytes_of "frontend/video_preprocessor_config.json") (r_video_preprocessor_config_json f).

Definition model_of (r : Reader) (features : StartupFeatures) (plan : MaterializationPlan) (m : MaterializedArtifact)
    (loading : result (FrontendResources * ModelView) * MaterializedArtifact) : Prop :=
  exists frontend view m', loading = (Ok (frontend, view), m') /\ named_resources r m frontend /\
    all_ok r plan m (weights_of view) (tensors_of view) /\ complete_view features view.

(** C10: Binding a 27B model decides whether it loads: for every profile of weights and choice of features, when
    [bind_artifact] accepts the artifact and the objects of its plan are loaded, [load_model] succeeds.  The frontend
    gets the bytes of the six resources by their names; the view has 16 attention and 48 GDN layers, and the proposal
    head, the MTP layer and the vision tower exactly when the features ask for them; and each tensor and weight of the
    view has the address and the size of an object that the plan places, the planes of a weight (and the row views of
    the MTP projection) in order inside it. *)
Theorem model_loads r profile features b lp b' m : indexes (entries r) (index r) -> Forall sized (entries r) ->
  bind_artifact r profile features b = (Ok lp, b') -> loaded (lp_materialization lp) m ->
  model_of r features (lp_materialization lp) m (load_model (bindings lp) m).
Proof.
  intros Hi Hs Hb (Harena & Hd & Hh). assert (Hab : artifact_bound r features (lp_materialization lp) (bindings lp)).
  { pose proof (bind_artifact_bound r Hi profile features b) as Hw. unfold wp in Hw. rewrite Hb in Hw. apply Hw. }
  destruct (take_frontend_run r _ m _ (ab_frontend _ _ _ _ Hab) Hh) as (f & m1 & e & Hrun & (K1 & K2 & _) & Hnames).
  destruct (load_view_ok r (lp_materialization lp) m1 Hs) with features (bindings lp) as (view & Hview & Hok & Hc); [|done|by rewrite K1|].
  { intros d Hin. rewrite K2. by apply Hd. }
  exists f, view, m1. split; [|split; [done|split; [by eapply all_ok_kept|done]]]. unfold load_model, mbind_, mget, mlift. by rewrite Hrun, Hview.
Qed.

(** ** An artifact of the profile [Qwen36GroupwiseInt] *)
Module ModelSample.

Definition tensor_object (name : list Z) (format : NumericFormat) (shape : list Z) : ObjectDescriptor :=
  TensorObject (mkTensorDescriptor name shape format (storage_layout_for format) 0
    (match tensor_encoded_size (storage_layout_for format) format shape with Ok n => n | Err _ => 0 end)).
Definition named (name : string) (format : NumericFormat) (shape : list Z) : string * NumericFormat * list Z := (name, format, shape).
Definition objects_at (prefix : list Z) (l : list (string * NumericFormat * list Z)) : list ObjectDescriptor :=
  (fun '(name, format, shape) => tensor_object (tensor_name prefix name) format shape) <$> l.

Definition text_layer (layer : nat) : list ObjectDescriptor := objects_at (layer_prefix layer) ([
  named "input_norm" Artifact.BF16 [5120]; named "post_attention_norm" Artifact.BF16 [5120];
  named "mlp/gate_up" Q4G64_F16S [34816; 5120]; named "mlp/down" Q5G64_F16S [5120; 17408]] ++
  if is_full_layer layer then [
    named "attention/query_key" Q4G64_F16S [7168; 5120]; named "attention/gate_value" Q5G64_F16S [7168; 5120];
    named "attention/query_norm" Artifact.BF16 [256]; named "attention/key_norm" Artifact.BF16 [256]; named "attention/output" Q5G64_F16S [5120; 6144]]
  else [
    named "gdn/a_log" Artifact.FP32 [48]; named "gdn/dt_bias" Artifact.FP32 [48]; named "gdn/convolution" Artifact.BF16 [4; 10240];
    named "gdn/a_projection" Artifact.BF16 [48; 5120]; named "gdn/b_projection" Artifact.BF16 [48; 5120];
    named "gdn/query_key" Q4G64_F16S [4096; 5120]; named "gdn/value_z" Q5G64_F16S [12288; 5120]; named "gdn/norm" Artifact.BF16 [128];
    named "gdn/output" Q5G64_F16S [5120; 6144]]).
Definition vision_layer (layer : nat) : list ObjectDescriptor :=
  objects_at (bytes_of "vision/layers/" ++ to_string (Z.of_nat layer) ++ bytes_of "/") [
    named "attention/qkv" Q4G64_F16S [3456; 1152]; named "attention/qkv_bias" Artifact.BF16 [3456];
    named "attention/output" Q5G64_F16S [1152; 1152]; named "attention/output_bias" Artifact.BF16 [1152];
    named "mlp/fc1" Q4G64_F16S [4304; 1152]; named "mlp/fc1_bias" Artifact.BF16 [4304];
    named "mlp/fc2" Q5G64_F16S [1152; 4304]; named "mlp/fc2_bias" Artifact.BF16 [1152];
    named "norm1/weight" Artifact.BF16 [1152]; named "norm1/bias" Artifact.BF16 [1152];
    named "norm2/weight" Artifact.BF16 [1152]; named "norm2/bias" Artifact.BF16 [1152]].
Definition other_objects : list ObjectDescriptor :=
  objects_at (bytes_of "text/") [
    named "token_embedding" Q6G64_F16S [248320; 5120]; named "final_norm" Artifact.BF16 [5120]; named "output_head" Q6G64_F16S [248320; 5120];
    named "draft_head" Q4G64_F16S [131072; 5120]; named "draft_head_token_ids" Artifact.I32 [131072]] ++
  objects_at (bytes_of "mtp/") [
    named "input_projection" W8G32_F16S [5120; 10240]; named "embedding_norm" Artifact.BF16 [5120]; named "hidden_norm" Artifact.BF16 [5120];
    named "layer/input_norm" Artifact.BF16 [5120]; named "layer/attention/query_key_gate_value" W8G32_F16S [14336; 5120];
    named "layer/attention/query_norm" Artifact.BF16 [256]; named "layer/attention/key_norm" Artifact.BF16 [256];
    named "layer/attention/output" W8G32_F16S [5120; 6144]; named "layer/post_attention_norm" Artifact.BF16 [5120];
    named "layer/mlp/gate_up" W8G32_F16S [34816; 5120]; named "layer/mlp/down" W8G32_F16S [5120; 17408]; named "final_norm" Artifact.BF16 [5120]] ++
  objects_at (bytes_of "vision/") [
    named "patch_embedding" Q6G64_F16S [1152; 1536]; named "patch_embedding_bias" Artifact.BF16 [1152];
    named "position_embedding" Artifact.BF16 [2304; 1152]; named "merger/fc1" W8G32_F16S [4608; 4608]; named "merger/fc1_bias" Artifact.BF16 [4608];
    named "merger/fc2" W8G32_F16S [5120; 4608]; named "merger/fc2_bias" Artifact.BF16 [5120];
    named "merger/norm/weight" Artifact.BF16 [1152]; named "merger/norm/bias" Artifact.BF16 [1152]].
Definition frontend_objects : list ObjectDescriptor :=
  (fun name => ResourceObject (mkResourceDescriptor (bytes_of ("frontend/" ++ name)%string) RawBytesV1 0 1)) <$>
  ["tokenizer.json"; "tokenizer_config.json"; "chat_template.jinja"; "generation_config.json"; "preprocessor_config.json";
   "video_preprocessor_config.json"]%string.
Definition objects : list ObjectDescriptor :=
  frontend_objects ++ other_objects ++ (seq 0 kTextLayers ≫= text_layer) ++ (seq 0 vision_layers ≫= vision_layer).

(** The draft ids are 0, 1, 2 and so on; every payload starts at the same place. *)
Fixpoint ids_from (n : nat) (id : Z) : list Z :=
  match n with O => [] | S n' => Z.land id 255 :: Z.land (Z.shiftr id 8) 255 :: Z.land (Z.shiftr id 16) 255 :: 0 :: ids_from n' (id + 1) end.
Lemma id_bytes id : 0 <= id < 2 ^ 24 ->
  Z.lor (Z.lor (Z.lor (Z.land id 255) (Z.shiftl (Z.land (Z.shiftr id 8) 255) 8)) (Z.shiftl (Z.land (Z.shiftr id 16) 255) 16)) (Z.shiftl 0 24) = id.
Proof.
  intros Hid. apply Z.bits_inj'. intros n Hn. change 255 with (Z.ones 8).
  rewrite Z.shiftl_0_l, Z.lor_0_r, !Z.lor_spec, !Z.shiftl_spec, !Z.land_spec, !Z.testbit_ones by lia.
  destruct (Z.ltb_spec n 8).
  - rewrite (Z.testbit_neg_r _ (n - 8)), (Z.testbit_neg_r _ (n - 16)) by lia. rewrite (proj2 (Z.leb_le 0 n)) by lia. by rewrite !andb_true_r, !orb_false_r.
  - destruct (Z.ltb_spec (n - 8) 8).
    + rewrite (Z.testbit_neg_r _ (n - 16)), Z.shiftr_spec by lia. rewrite (proj2 (Z.leb_le 0 (n - 8))) by lia. rewrite !andb_false_r, andb_true_r, orb_false_r. cbn. f_equal. lia.
    + rewrite !Z.shiftr_spec by lia. rewrite (proj2 (Z.leb_le 0 (n - 16))) by lia. rewrite !andb_false_r. cbn [orb]. destruct (Z.ltb_spec (n - 16) 8).
      * rewrite andb_true_r. f_equal. lia.
      * rewrite andb_false_r. symmetry. apply Z.testbit_false; [lia|]. rewrite Z.div_small; [done|]. split; [lia|]. eapply Z.lt_le_trans; [apply Hid|]. apply Z.pow_le_mono_r; lia.
Qed.
Lemma ids_accepted n : forall id seen, 0 <= id -> id + Z.of_nat n <= kTokenizerVocab -> (forall i, id <= i -> seen !! i = None) -> draft_ids n (ids_from n id) seen = Ok tt.
Proof.
  induction n as [|n IH]; intros id seen H0 Hn Hs; [done|]. unfold kTokenizerVocab in *. cbn [ids_from draft_ids]. rewrite id_bytes by lia.
  unfold kTokenizerVocab. rewrite Z.geb_leb, (proj2 (Z.leb_gt _ _)) by lia. cbn [throw_if rbind]. rewrite Hs by lia. cbn [is_some throw_if rbind].
  apply IH; [lia|unfold kTokenizerVocab; lia|]. intros i Hi. rewrite lookup_insert_ne by lia. apply Hs. lia.
Qed.
Lemma ids_length n : forall id, length (ids_from n id) = (4 * n)%nat.
Proof. induction n as [|n IH]; intros id; [done|]. cbn [ids_from length]. rewrite IH. lia. Qed.

Definition index_of : gmap (list Z) nat := list_to_map (imap (fun i o => (object_name o, i)) objects).
Definition reader_of (file : list Z) : Reader := mkReader file (mkArtifactIdentity package_model_id (bytes_of "groupwise-int")) objects index_of 0.
Definition sample : Reader := reader_of (ids_from kDraftVocab 0).
Definition features : StartupFeatures := mkFeatures true Mtp OptimizedHead.
Definition artifact : MaterializedArtifact := mkMaterialized (Some (Layout.mkArena 4096 4096 0 0 true))
  ((fun o => match o with TensorObject _ => mkObject 4096 [] | ResourceObject _ => mkObject 0 [1] end) <$> objects) (mkLoadStats 0 0 0 0 0 0 0).

Lemma sample_indexed : indexes (entries sample) (index sample).
Proof.
  assert (H : forallb (fun p => bool_decide (index_of !! p.1 = Some p.2)) (imap (fun i o => (object_name o, i)) objects) = true) by (vm_compute; reflexivity).
  rewrite forallb_forall in H. intros name i. split.
  - intros Hi. apply elem_of_list_to_map_2, elem_of_lookup_imap in Hi as (j & o & [= -> ->] & Ho). by exists o.
  - intros (o & Ho & <-). assert (Hin : (object_name o, i) ∈ imap (fun i o => (object_name o, i)) objects) by (apply elem_of_lookup_imap; by exists i, o).
    by apply list_elem_of_In, H, bool_decide_eq_true in Hin.
Qed.
Lemma sample_sized : Forall sized (entries sample).
Proof.
  assert (H : forallb (fun o => match o with TensorObject t => match tensor_encoded_size (td_layout t) (td_format t) (td_shape t) with Ok n => n =? td_bytes t | Err _ => false end
    | ResourceObject _ => true end) objects = true) by (vm_compute; reflexivity).
  apply Forall_forall. intros o Ho. rewrite forallb_forall in H. specialize (H o (proj1 (list_elem_of_In _ _) Ho)). destruct o as [t|x]; [|done].
  unfold sized. destruct (tensor_encoded_size _ _ _) as [n|]; [|done]. by apply Z.eqb_eq in H as ->.
Qed.
Definition holds (plan : MaterializationPlan) : bool :=
  forallb (fun d => match device_data artifact (dm_object d) with Ok _ => true | Err _ => false end) (device_objects plan) &&
  forallb (fun h => match resource_bytes artifact h with Ok _ => true | Err _ => false end) (host_objects plan).
Lemma holds_loaded plan : holds plan = true -> loaded plan artifact.
Proof.
  intros H. apply andb_true_iff in H as [Hd Hh]. rewrite forallb_forall in Hd, Hh. split; [by eexists|]. split.
  - intros d Hin. specialize (Hd d (proj1 (list_elem_of_In _ _) Hin)). destruct (device_data _ _); [by eexists|done].
  - intros h Hin. specialize (Hh h (proj1 (list_elem_of_In _ _) Hin)). destruct (resource_bytes _ _); [by eexists|done].
Qed.
(** The draft ids are the tenth object. *)
Lemma sample_ids b : validate_draft_ids sample 10 b = (Ok tt, b).
Proof.
  assert (Hd : descriptor sample 10 = Ok (tensor_object (bytes_of "text/draft_head_token_ids") Artifact.I32 [131072])) by (vm_compute; reflexivity).
  unfold validate_draft_ids, binder_payload, mbind_, mlift. rewrite Hd. cbn [rbind].
  set (o := tensor_object _ _ _) in *. assert (Hn : object_bytes o = 4 * 131072) by (vm_compute; reflexivity). assert (Ho : object_offset o = 0) by reflexivity.
  unfold sample. assert (Hk : Z.of_nat kDraftVocab = 131072) by (unfold kDraftVocab; by rewrite Z2Nat.id). revert Hk. generalize kDraftVocab. intros n Hk.
  assert (Hp : payload (reader_of (ids_from n 0)) o = Ok (mkPayloadSpan 0 (ids_from n 0))).
  { unfold payload, file_bytes. rewrite Hn, Ho. unfold reader_of. cbn [payload_start rdr_file]. rewrite ids_length.
    replace (artifact_add 0 0) with (@Ok Z 0) by reflexivity. cbn [rbind]. replace (artifact_add 0 (4 * 131072)) with (@Ok Z (4 * 131072)) by reflexivity. cbn [rbind].
    rewrite Z.gtb_ltb, (proj2 (Z.ltb_ge _ _)) by lia. cbn [throw_if rbind]. rewrite drop_0, take_ge; [done|]. rewrite ids_length. lia. }
  rewrite Hp. cbn [rbind Artifact.span_data]. rewrite ids_accepted; [done|done|unfold kTokenizerVocab; lia|]. intros i _. apply lookup_empty.
Qed.

(** So the rest of the binding can be computed without the payload. *)
Lemma bind_ext {S A B} (op op' : M S A) (k k' : A -> M S B) s : (forall s, op s = op' s) -> (forall a s, k a s = k' a s) -> mbind_ op k s = mbind_ op' k' s.
Proof. intros Ho Hk. unfold mbind_. rewrite Ho. by destruct (op' s) as [[a|e] s']. Qed.
Definition binding_with (reader : Reader) : (nat -> M Binder unit) -> M Binder ArtifactLoadPlan :=
  ltac:(let t := eval unfold bind_artifact in (bind_artifact reader Qwen36GroupwiseInt features) in
        let t := eval pattern (validate_draft_ids reader) in t in match t with ?f _ => exact f end).
Lemma binding_ext reader validate b : (forall h b, validate_draft_ids reader h b = validate h b) ->
  bind_artifact reader Qwen36GroupwiseInt features b = binding_with reader validate b.
Proof.
  intros He. unfold binding_with, bind_artifact. cbv beta zeta. do 7 (apply bind_ext; [done|intros ? ?]). apply bind_ext; [apply He|done].
Qed.
Lemma binds_of file : (forall b, validate_draft_ids (reader_of file) 10 b = (Ok tt, b)) ->
  exists lp b', bind_artifact (reader_of file) Qwen36GroupwiseInt features (make_binder (reader_of file)) = (Ok lp, b') /\ holds (lp_materialization lp) = true.
Proof.
  intros Hv. rewrite (binding_ext _ (fun h => if (h =? 10)%nat then mret_ tt else validate_draft_ids (reader_of file) h)).
  2: { intros h b. by destruct (Nat.eqb_spec h 10) as [->|]. }
  match goal with |- exists lp b', ?t = _ /\ _ => assert (H : match t with (Ok lp, _) => holds (lp_materialization lp) | _ => false end = true) by (vm_compute; reflexivity);
    destruct t as [[lp|e] b'] end; [|done]. by exists lp, b'.
Qed.
Lemma sample_binds : exists lp b', bind_artifact sample Qwen36GroupwiseInt features (make_binder sample) = (Ok lp, b') /\ loaded (lp_materialization lp) artifact.
Proof. destruct (binds_of (ids_from kDraftVocab 0)) as (lp & b' & Hb & Hl); [apply sample_ids|]. exists lp, b'. split; [done|by apply holds_loaded]. Qed.

Lemma model_loads_witness : exists lp b', bind_artifact sample Qwen36GroupwiseInt features (make_binder sample) = (Ok lp, b') /\
  model_of sample features (lp_materialization lp) artifact (load_model (bindings lp) artifact).
Proof.
  destruct sample_binds as (lp & b' & Hb & Hl). exists lp, b'. split; [exact Hb|].
  exact (model_loads _ _ _ _ _ _ _ sample_indexed sample_sized Hb Hl).
Defined.
End ModelSample.
