(* ===== verification/RequestPlan.v ===== *)
(** * Request planning: [targets/qwen3_6/impl/runtime/request_plan_impl.h]

    The base plan of a request does not depend on a lane: the resources it may need, its output budget
    and its vision work.  The plan for a lane adds what can be reused of the lane's retained
    sequence. *)
From S2P Require Import Prelude Tensor Layout PagedKV PrefixIdentity VisionControl Admission Capacity Contract ProgramState.
#[local] Open Scope Z_scope.

(** ** Options *)

(** [ResolvedSamplingParameters]; a [float] is its bit pattern. *)
Record ResolvedSamplingParameters : Set := mkResolved {
  rs_temperature : Z; rs_top_k : Z; rs_top_p : Z; rs_min_p : Z; rs_presence_penalty : Z;
  rs_frequency_penalty : Z; rs_seed : Z;
}.

Record ResolvedExecutionOptions : Set := mkExecutionOptions {
  ro_sampling : ResolvedSamplingParameters; requested_output_tokens : Z; ro_allow_prefix_reuse : bool;
}.

(** [std::isfinite], and [<] of finite floats. *)
Definition f32_is_finite (x : Z) : bool := x mod 2147483648 <? 0x7f800000.
Definition f32_key (x : Z) : Z := if x <? 2147483648 then x else 2147483648 - x.
Definition f32_ltb (x y : Z) : bool := f32_key x <? f32_key y.
Definition f32_zero : Z := 0.
Definition f32_one : Z := 0x3f800000.

Definition validate_sampling (s : ResolvedSamplingParameters) : result unit :=
  do* throw_if (negb (f32_is_finite (rs_temperature s)) || negb (f32_is_finite (rs_top_p s)) ||
                negb (f32_is_finite (rs_min_p s)) || negb (f32_is_finite (rs_presence_penalty s)) ||
                negb (f32_is_finite (rs_frequency_penalty s))) InvalidArgument;
  do* throw_if (f32_ltb (rs_top_p s) f32_zero || f32_ltb f32_one (rs_top_p s)) InvalidArgument;
  throw_if (f32_ltb (rs_min_p s) f32_zero || f32_ltb f32_one (rs_min_p s)) InvalidArgument.

Definition translate_sampling (s : ResolvedSamplingParameters) : SamplingConfig :=
  mkSampling (rs_temperature s) (rs_top_k s) (rs_top_p s) (rs_min_p s) (rs_presence_penalty s)
    (rs_frequency_penalty s) (rs_seed s) false.

(** ** Sizes *)

(** [pages_for_tokens] of this file: at least one page. *)
Definition plan_pages_for_tokens (tokens : Z) : Z := u32 (1 + u32 (tokens - 1) / kPagedKVPageSize).

Definition projected_service_work (prompt_tokens effective_output_tokens reuse_base chunk splits : Z) : Z :=
  let suffix := u32 (prompt_tokens - reuse_base) in
  let prefill_units := if suffix =? 0 then 1 else u64 (1 + (suffix - 1) / chunk + splits) in
  let decode_units := if effective_output_tokens =? 0 then 0 else effective_output_tokens - 1 in
  u64 (prefill_units + decode_units).

Definition kPreparedVisionPatchFeatures : Z := 1536.
Definition kWorkspaceAlignment : Z := 256.

Section Planning.
Context `{CF : ProgramConfig, DV : Device}.

(** [VisionContext::output_transient_bytes] *)
Definition output_transient_bytes (merged_tokens : Z) : result Z :=
  do* throw_if ((merged_tokens =? 0) || (merged_tokens >? i32_max)) InvalidArgument;
  match add_tensor BF16 [vision_out_hidden; merged_tokens] kWorkspaceAlignment LayoutBuilder_init with
  | (Ok _, layout) => finish layout kWorkspaceAlignment
  | (Err e, _) => Err e
  end.

(** ** The base plan *)

(** The checks of the prompt at the head of [plan_request_base]. *)
Definition validate_prompt (prompt : PreparedPromptData) : result unit :=
  let size := Z.of_nat (length (token_ids prompt)) in
  do* throw_if (bool_decide (token_ids prompt = [])) InvalidArgument;
  do* throw_if (size >? capacity) InvalidArgument;
  do* throw_if (size >? u32_max) OverflowError;
  do* throw_if (existsb (fun id => (id <? 0) || (id >=? token_domain)) (token_ids prompt)) InvalidArgument;
  do* throw_if (negb (prompt_shape prompt)) InvalidArgument;
  do* throw_if (negb (bool_decide (has_media prompt = negb (bool_decide (media_payloads prompt = [])))) ||
                negb (length (media_payloads prompt) =? length (vision_items prompt))%nat) InvalidArgument;
  do* throw_if (existsb (fun '(payload, item) =>
          match payload with
          | None => true
          | Some elements => negb (elements =? u64 (patch_count item * kPreparedVisionPatchFeatures))
          end) (zip (media_payloads prompt) (vision_items prompt))) InvalidArgument;
  throw_if (has_media prompt && negb vision_enabled) InvalidArgument.

(** The consumers of an item in a prompt: first and one past the last column; with MTP the bridge also
    needs the column before. *)
Definition use_begin (with_mtp : bool) (item : VisionItemControl) : Z :=
  let first := match scatter_indices item with x :: _ => x | [] => 0 end in
  if with_mtp && negb (first =? 0) then first - 1 else first.
Definition use_end (item : VisionItemControl) : Z := List.last (scatter_indices item) 0 + 1.

(** One turn of the loop over the vision items: the largest merged count and the end of the last item. *)
Definition validate_vision_item (prompt_tokens : Z) (acc : Z * Z) (item : VisionItemControl) : result (Z * Z) :=
  let '(max_merged, previous_end) := acc in
  do* throw_if (bool_decide (scatter_indices item = [])) InvalidArgument;
  let begin := use_begin (bool_decide (speculative_backend = Mtp)) item in
  let end_ := use_end item in
  do* throw_if (begin <? previous_end) InvalidArgument;
  do* throw_if (end_ >? prompt_tokens) InvalidArgument;
  let* bytes := vision_workspace_bytes item in
  do* throw_if (bytes >? work_capacity) InvalidArgument;
  Ok (Z.max max_merged (merged_count item), end_).

Definition plan_vision (prompt : PreparedPromptData) (prompt_tokens : Z)
  : result (option (list VisionItemControl) * Z) :=
  if has_media prompt then
    let* items := build_vision_control prompt in
    let* (max_merged, _) := rfoldl (validate_vision_item prompt_tokens) (0, 0) items in
    let* bytes := output_transient_bytes max_merged in
    Ok (Some items, bytes)
  else Ok (None, 0).

Definition backend_entitlement (reserved_context_tokens : Z) : Z :=
  match speculative_backend with
  | Mtp => plan_pages_for_tokens (Z.min capacity (reserved_context_tokens + draft_window - 1))
  | DFlash => plan_pages_for_tokens reserved_context_tokens
  | NoSpeculation => 0
  end.

Definition splits_of (vision_count : nat) (capture : option RewriteCheckpointSpec) (prompt_tokens : Z) : Z :=
  Z.of_nat vision_count +
  match capture with Some c => if rs_frontier c <? prompt_tokens then 1 else 0 | None => 0 end.

Definition plan_request_base (prompt : PreparedPromptData) (options : ResolvedExecutionOptions)
  : result RequestBasePlan :=
  do* validate_prompt prompt;
  do* validate_sampling (ro_sampling options);
  let prompt_tokens := Z.of_nat (length (token_ids prompt)) in
  let capacity_output := u32 (capacity - prompt_tokens + 1) in
  let effective := Z.min (requested_output_tokens options) capacity_output in
  let limit := if requested_output_tokens options <=? capacity_output then OutputLimit else ContextCapacity in
  let reserved := u32 (prompt_tokens + (if effective =? 0 then 0 else effective - 1)) in
  let text_pages := plan_pages_for_tokens reserved in
  let backend_pages := backend_entitlement reserved in
  let* (control, transient) := plan_vision prompt prompt_tokens in
  do* match rewrite_checkpoint_spec (identity prompt) with
      | Some candidate =>
          throw_if ((rs_frontier candidate =? 0) || (rs_frontier candidate >? prompt_tokens)) InvalidArgument
      | None => Ok tt
      end;
  let checkpoint := rewrite_checkpoint_spec (identity prompt) in
  let splits := splits_of (match control with Some items => length items | None => 0%nat end) checkpoint prompt_tokens in
  Ok (mkBasePlan
        (mkPlanSummary prompt_tokens 0 effective limit 0 1 (mkResources 1 text_pages backend_pages)
           (projected_service_work prompt_tokens effective 0 prefill_chunk splits))
        (translate_sampling (ro_sampling options)) text_pages backend_pages control transient checkpoint
        (ro_allow_prefix_reuse options)).

(** ** The plan for a lane *)

(** What of a retained sequence the prompt may continue from. *)
Definition select_reuse (prompt : PreparedPromptData) (s : SequenceState) : ReusePath * Z :=
  let dflash_append_ready :=
    negb (bool_decide (speculative_backend = DFlash)) || (dflash_context_frontier s =? execution_frontier s) in
  if negb (execution_frontier s =? 0) && dflash_append_ready &&
     prefix_matches prompt (ledger s) (prefix_identity s) (execution_frontier s)
  then (AppendAtFrontier, execution_frontier s)
  else
    let c := rewrite_checkpoint s in
    if rc_valid c && negb (rc_frontier c =? 0) && (rc_frontier c <=? Z.of_nat (length (token_ids prompt))) &&
       prefix_matches prompt (ledger s) (prefix_identity s) (rc_frontier c)
    then (restore_path (rc_kind c), rc_frontier c)
    else (FullReset, 0).

(** With MTP the bridge needs a hidden state and the MTP pages up to the frontier. *)
Definition mtp_reuse_ready (s : SequenceState) (reuse : ReusePath) (base : Z) : bool :=
  (bool_decide (reuse = AppendAtFrontier) && tail_hidden_valid s && is_some mtp_cache &&
     ((base =? 0) || (mtp_kv_valid s >=? base - 1))) ||
  (is_rewrite_checkpoint_restore reuse && is_some mtp_cache && negb (base =? 0) && (mtp_kv_valid s >=? base - 1)).

Definition restrict_reuse (s : SequenceState) (r : ReusePath * Z) : ReusePath * Z :=
  let '(reuse, base) :=
    if bool_decide (speculative_backend = Mtp) && negb (bool_decide (r.1 = FullReset)) &&
       negb (mtp_reuse_ready s r.1 r.2)
    then (FullReset, 0) else r in
  if is_rewrite_checkpoint_restore reuse && bool_decide (speculative_backend = DFlash) &&
     (negb (is_some dflash_full) ||
      negb (match kv s with Some b => is_some (kv_backend b) | None => false end) ||
      (dflash_context_frontier s <? base))
  then (FullReset, 0) else (reuse, base).

Definition plan_reuse (prompt : PreparedPromptData) (allow : bool) (s : SequenceState) : ReusePath * Z :=
  restrict_reuse s
    (if allow && reusable (identity prompt) && retained s then select_reuse prompt s else (FullReset, 0)).

Definition plan_checkpoint (prompt : PreparedPromptData) (desired : option RewriteCheckpointSpec)
    (s : SequenceState) (reuse : ReusePath) (base : Z)
  : RewriteCheckpointAction * option RewriteCheckpointSpec :=
  match desired with
  | None => (Drop, None)
  | Some d =>
      let c := rewrite_checkpoint s in
      if negb (bool_decide (reuse = FullReset)) && rc_valid c && (rc_frontier c =? rs_frontier d) &&
         prefix_matches prompt (ledger s) (prefix_identity s) (rs_frontier d)
      then (if bool_decide (rc_kind c = rs_kind d) then KeepExisting else ReclassifyExisting, None)
      else if rs_frontier d >? base then (CaptureNew, Some d)
      else (DeferCapture, None)
  end.

Definition plan_mtp (reuse : ReusePath) (base prompt_tokens : Z) : bool * MtpBridgeMode :=
  if bool_decide (speculative_backend = Mtp) then
    match reuse with
    | FullReset => (true, NoBridge)
    | _ => (true, if base <? prompt_tokens then BeforeSuffix else AfterExactHit)
    end
  else (false, NoBridge).

(** The spans of the items that are not wholly before the reused prefix. *)
Definition vision_uses (prepare_mtp : bool) (base : Z) (items : list VisionItemControl) : list VisionUseSpan :=
  omap (fun '(index, item) =>
          if use_end item <=? base then None
          else Some (mkUse (use_begin prepare_mtp item) (use_end item) (Z.of_nat index)))
    (imap pair items).

Definition plan_request_for_lane (lane : nat) (prompt : PreparedPromptData) (base_plan : RequestBasePlan)
    (p : Program) : result RequestPlan :=
  do* throw_if (Z.of_nat lane >=? max_concurrency) OutOfRange;
  let request := requests p !!! lane in
  let s := sequences p !!! lane in
  do* throw_if (bool_decide (lifecycle request = Prefilling) || bool_decide (lifecycle request = Active) ||
                bool_decide (lifecycle request = Pending)) LogicError;
  let summary := bp_summary base_plan in
  let prompt_tokens := Contract.prompt_tokens summary in
  let '(reuse, base) := plan_reuse prompt (bp_allow_prefix_reuse base_plan) s in
  let '(action, capture) := plan_checkpoint prompt (bp_rewrite_checkpoint base_plan) s reuse base in
  let '(prepare_mtp, bridge) := plan_mtp reuse base prompt_tokens in
  let vision :=
    match bp_vision_control base_plan with
    | Some items =>
        match vision_uses prepare_mtp base items with
        | [] => None
        | uses => Some (mkVisionPlan items uses)
        end
    | None => None
    end in
  let splits := splits_of (match vision with Some v => length (vp_uses v) | None => 0%nat end) capture prompt_tokens in
  Ok (mkRequestPlan
        (mkPlanSummary prompt_tokens base (effective_output_tokens summary) (effective_limit_reason summary)
           (match vision with Some _ => bp_vision_transient_bytes base_plan | None => transient_bytes summary end)
           (match vision with Some _ => kWorkspaceAlignment | None => transient_alignment summary end)
           (admission summary)
           (projected_service_work prompt_tokens (effective_output_tokens summary) base prefill_chunk splits))
        reuse base bridge prepare_mtp vision action capture (bp_sampling base_plan)
        (bp_text_kv_page_entitlement base_plan) (bp_backend_kv_page_entitlement base_plan)).
End Planning.
