(* ===== verification/Program.v ===== *)
(** * The model program: [targets/qwen3_6/impl/runtime/program_impl.h]

    Prefill and decode rounds of the lanes.  Methods are computations on [Program]; a reference to a
    lane's sequence and request is its index.  GPU work is a [Command] or the prefill schedule of the
    class [Device]; [CUDA_CHECK] and [synchronize] may throw at any of them.  Out-of-range accesses and
    empty optionals are [Abort_], which no handler catches.

    Not modelled: timings, memory peaks, and the construction of the program and of its CUDA graphs
    (an initial state is described by [initial] of [ProgramTheorems]).  Frontiers are bounded by the capacity, so
    their sums are written without wrap-around; differences are not. *)
From S2P Require Import Prelude Tensor Layout PagedKV PrefixIdentity VisionControl Admission Capacity Contract ProgramState RequestPlan.
#[local] Open Scope Z_scope.

(** ** Helpers *)

(** [checked_i32] of this file. *)
Definition pg_checked_i32 (value : Z) : result Z := do* throw_if (value >? i32_max) OverflowError; Ok value.

Definition prompt_rope_position (prompt : PreparedPromptData) (token : Z) : result (list Z) :=
  let tokens := length (token_ids prompt) in
  do* throw_if ((token >=? Z.of_nat tokens) || negb (length (positions prompt) =? 3 * tokens)%nat) InvalidArgument;
  let n := Z.to_nat token in
  Ok [positions prompt !!! n; positions prompt !!! (tokens + n)%nat; positions prompt !!! (2 * tokens + n)%nat].

(** [LinearStateSlots] *)
Definition current_state_slot (lane : nat) (max_concurrency : Z) : result Z :=
  do* throw_if (Z.of_nat lane >=? max_concurrency) OutOfRange; Ok (Z.of_nat lane).
Definition rewrite_checkpoint_state_slot (lane : nat) (max_concurrency : Z) : result Z :=
  let* slot := current_state_slot lane max_concurrency in Ok (max_concurrency + slot).
Definition state_slot_count (max_concurrency : Z) : result Z :=
  do* throw_if ((max_concurrency =? 0) || (max_concurrency >? i32_max / 2)) InvalidArgument;
  Ok (2 * max_concurrency).

(** [PagedKVCache::execution_view]: the block table of an allocation of the pool. *)
Definition execution_view (pool id : Z) (st : store) : result Tensor :=
  match st_allocs st !! id with
  | None => Err Abort_
  | Some a =>
      do* throw_if (negb (bool_decide (pool_ a = Some pool))) InvalidArgument;
      match st_pools st !! pool with
      | None => Err Abort_
      | Some p => block_table (mkFocus p a (st_mem st))
      end
  end.

(** The graph profile of a batch, by its index. *)
Definition select_graph_profile (family : DecodeGraphFamily) (batch_size frontier : Z)
  : result (nat * DecodeGraphProfile) :=
  match list_find (fun p => gp_batch_size p = batch_size /\ min_execution_frontier p <= frontier <= max_execution_frontier p)
          (profiles family) with
  | Some found => Ok found
  | None => Err LogicError
  end.
Definition select_graph_topology (family : DecodeGraphFamily) (class : Z) : result (nat * DecodeGraphTopology) :=
  match list_find (fun t => topology_class t = class) (topologies family) with
  | Some found => Ok found
  | None => Err LogicError
  end.

(** [std::vector::resize] *)
Definition resize (n : Z) (l : list Z) : list Z :=
  take (Z.to_nat n) l ++ replicate (Z.to_nat n - length l) 0.

Section Program.
Context `{CF : ProgramConfig, DV : Device}.

(** The objects of a lane.  [sequences] and [requests] have [kMaximumConcurrency] elements. *)
Definition get_seq (lane : nat) : M Program SequenceState := mgets (fun p => sequences p !!! lane).
Definition get_req (lane : nat) : M Program RequestControl := mgets (fun p => requests p !!! lane).
Definition mod_seq (lane : nat) (f : SequenceState -> SequenceState) : M Program unit :=
  mmodify (fun p => set_sequences (<[lane := f (sequences p !!! lane)]> (sequences p)) p).
Definition mod_req (lane : nat) (f : RequestControl -> RequestControl) : M Program unit :=
  mmodify (fun p => set_requests (<[lane := f (requests p !!! lane)]> (requests p)) p).

Definition on_kv {A} (m : M store A) : M Program A := fun p =>
  let '(r, st) := m (pg_kv p) in (r, set_pg_kv st p).
Definition on_dev {A} (m : M dev A) : M Program A := fun p =>
  let '(r, d) := m (pg_dev p) in (r, set_pg_dev d p).
Definition on_identity (lane : nat) (m : M ResidentPrefixIdentity unit) : M Program unit := fun p =>
  let '(r, i) := m (prefix_identity (sequences p !!! lane)) in
  (r, set_sequences (<[lane := set_prefix_identity i (sequences p !!! lane)]> (sequences p)) p).

Definition issue (c : Command) : M Program unit := on_dev (enqueue c).
Definition set_device_i32 (cell : I32Cell) (value : Z) : M Program unit := issue (SetI32 cell value).
Definition sync : M Program unit := on_dev synchronize.
(** [try { device.synchronize(); } catch (...) {}] *)
Definition try_sync : M Program unit := mtry sync (fun _ => mret_ tt).

Definition lane_in_range (lane : nat) : bool := Z.of_nat lane <? max_concurrency.
Definition lane_busy (p : Program) (lane : nat) : bool :=
  let l := lifecycle (requests p !!! lane) in
  bool_decide (l = Prefilling) || bool_decide (l = Active) || bool_decide (l = Pending).

(** ** KV bundles *)

(** [backend_kv_cache]: the address of its pool. *)
Definition backend_kv_cache : option Z :=
  match speculative_backend with Mtp => mtp_cache | DFlash => dflash_full | NoSpeculation => None end.

Definition backend_kv_valid (s : SequenceState) : Z :=
  match speculative_backend with
  | Mtp => mtp_kv_valid s | DFlash => dflash_context_frontier s | NoSpeculation => 0
  end.

Definition alloc_at (st : store) (id : Z) : Alloc := default Alloc_default (st_allocs st !! id).
Definition bound_row_of (st : store) (id : Z) : Z := bound_row_ (alloc_at st id).

(** The allocation objects of a lane's bundle; the vector returned by [reserve_paged_kv_bundle] is
    moved into them. *)
Definition text_address (lane : nat) : Z := 2 * Z.of_nat lane.
Definition backend_address (lane : nat) : Z := 2 * Z.of_nat lane + 1.

(** [sequence.kv.reset()]: members are destroyed in reverse order. *)
Definition kv_reset (lane : nat) : M Program unit :=
  let! s := get_seq lane in
  match kv s with
  | None => mret_ tt
  | Some b =>
      do! match kv_backend b with Some id => on_kv (st_destroy id) | None => mret_ tt end;
      do! on_kv (st_destroy (kv_text b));
      mod_seq lane (set_kv None)
  end.

Definition reserve_sequence_kv (lane : nat) (text_pages backend_pages : Z) : M Program unit :=
  let! s := get_seq lane in
  do! mthrow_if (is_some (kv s)) LogicError;
  do! mthrow_if ((text_pages =? 0) || negb (bool_decide (backend_kv_cache = None <-> backend_pages = 0)))
        InvalidArgument;
  let text := (text_address lane, mkReservation (Some text_pool) text_pages) in
  match backend_kv_cache with
  | None =>
      do! on_kv (reserve_paged_kv_bundle [text]);
      mod_seq lane (set_kv (Some (mkBundle (text_address lane) None)))
  | Some pool =>
      do! on_kv (reserve_paged_kv_bundle [text; (backend_address lane, mkReservation (Some pool) backend_pages)]);
      mod_seq lane (set_kv (Some (mkBundle (text_address lane) (Some (backend_address lane)))))
  end.

Definition resize_sequence_kv_entitlement (lane : nat) (text_pages backend_pages : Z) : M Program unit :=
  let! s := get_seq lane in
  match kv s with
  | None => mthrow InvalidArgument
  | Some b =>
      do! mthrow_if ((text_pages =? 0) || negb (bool_decide (is_some (kv_backend b) = negb (backend_pages =? 0))))
            InvalidArgument;
      let! st := mgets pg_kv in
      let change id pages := mkResize (Some id) (mapped_page_count (alloc_at st id)) pages in
      on_kv (resize_paged_kv_bundle
               (change (kv_text b) text_pages ::
                match kv_backend b with Some id => [change id backend_pages] | None => [] end))
  end.

Definition bind_sequence_kv (lane : nat) : M Program unit :=
  let! s := get_seq lane in
  let! st := mgets pg_kv in
  match kv s with
  | None => mthrow LogicError
  | Some b =>
      do! mthrow_if ((bound_row_of st (kv_text b) >=? 0) ||
                     match kv_backend b with Some id => bound_row_of st id >=? 0 | None => false end) LogicError;
      let row := Z.of_nat lane in
      do! on_kv (st_bind_row (kv_text b) row);
      mtry
        (do! match kv_backend b with Some id => on_kv (st_bind_row id row) | None => mret_ tt end;
         let! st := mgets pg_kv in
         do! set_device_i32 CellTextKvTableRow (bound_row_of st (kv_text b));
         set_device_i32 CellBackendKvTableRow
           (match kv_backend b with Some id => bound_row_of st id | None => 0 end))
        (fun e =>
           let! st := mgets pg_kv in
           do! match kv_backend b with
               | Some id => mwhen (bound_row_of st id >=? 0) (on_kv (st_unbind_row id))
               | None => mret_ tt
               end;
           do! on_kv (st_unbind_row (kv_text b));
           mthrow e)
  end.

Definition unbind_sequence_kv (lane : nat) : M Program unit :=
  let! s := get_seq lane in
  match kv s with
  | None => mret_ tt
  | Some b =>
      do! match kv_backend b with Some id => on_kv (st_unbind_row id) | None => mret_ tt end;
      on_kv (st_unbind_row (kv_text b))
  end.

Definition st_materialize_tokens (id tokens : Z) : M store unit :=
  st_materialize_pages id (PagedKV.pages_for_tokens tokens).
Definition st_trim_tokens (id tokens : Z) : M store unit := st_trim_pages id (PagedKV.pages_for_tokens tokens).

Definition materialize_sequence_kv (lane : nat) (main_tokens backend_tokens : Z) : M Program unit :=
  let! s := get_seq lane in
  match kv s with
  | None => mthrow LogicError
  | Some b =>
      do! mthrow_if ((main_tokens >? capacity) || (backend_tokens >? capacity)) LogicError;
      do! mthrow_if (negb (backend_tokens =? 0) && negb (is_some (kv_backend b))) LogicError;
      let! st := mgets pg_kv in
      do! mwhen (main_tokens >? mapped_token_capacity (alloc_at st (kv_text b)))
            (on_kv (st_materialize_tokens (kv_text b) main_tokens));
      match kv_backend b with
      | Some id =>
          let! st := mgets pg_kv in
          mwhen (negb (backend_tokens =? 0) && (backend_tokens >? mapped_token_capacity (alloc_at st id)))
            (on_kv (st_materialize_tokens id backend_tokens))
      | None => mret_ tt
      end
  end.

Definition trim_sequence_kv (lane : nat) (main_tokens backend_tokens : Z) : M Program unit :=
  let! s := get_seq lane in
  match kv s with
  | None => mthrow LogicError
  | Some b =>
      do! mthrow_if ((main_tokens >? capacity) || (backend_tokens >? main_tokens)) LogicError;
      do! mthrow_if (negb (backend_tokens =? 0) && negb (is_some (kv_backend b))) LogicError;
      do! on_kv (st_trim_tokens (kv_text b) main_tokens);
      match kv_backend b with Some id => on_kv (st_trim_tokens id backend_tokens) | None => mret_ tt end
  end.

Definition release_sequence_growth_entitlement (lane : nat) : M Program unit :=
  let! s := get_seq lane in
  match kv s with
  | None => mret_ tt
  | Some b =>
      do! on_kv (st_cancel_unmapped_entitlement (kv_text b));
      match kv_backend b with Some id => on_kv (st_cancel_unmapped_entitlement id) | None => mret_ tt end
  end.

Definition text_kv_view (lane : nat) : M Program Tensor :=
  let! s := get_seq lane in
  let! st := mgets pg_kv in
  match kv s with
  | None => mthrow LogicError
  | Some b => mlift (execution_view text_pool (kv_text b) st)
  end.

(** [None] is the empty view. *)
Definition mtp_kv_view (lane : nat) : M Program (option Tensor) :=
  if negb (bool_decide (speculative_backend = Mtp)) then mret_ None else
  let! s := get_seq lane in
  let! st := mgets pg_kv in
  match mtp_cache, kv s ≫= kv_backend with
  | Some pool, Some id => let! view := mlift (execution_view pool id st) in mret_ (Some view)
  | _, _ => mthrow LogicError
  end.

(** ** Admission *)

Definition can_replace (pool : Pool) (old_pages new_pages : Z) : bool :=
  (old_pages <=? entitled_pages_ pool) && (new_pages <=? logical_page_capacity (spec_ pool)) &&
  (new_pages <=? u32 (page_group_count (spec_ pool) - u32 (entitled_pages_ pool - old_pages))).

Definition can_replace_reclaiming (pool : Pool) (old_pages reclaimable_pages new_pages : Z) : bool :=
  if (old_pages >? entitled_pages_ pool) || (reclaimable_pages >? u32 (entitled_pages_ pool - old_pages)) ||
     (new_pages >? logical_page_capacity (spec_ pool)) then false
  else new_pages <=? u32 (page_group_count (spec_ pool) -
                          u32 (u32 (entitled_pages_ pool - old_pages) - reclaimable_pages)).

(** The entitlements of a lane's bundle. *)
Definition text_entitlement (p : Program) (lane : nat) : Z :=
  match kv (sequences p !!! lane) with Some b => page_entitlement_ (alloc_at (pg_kv p) (kv_text b)) | None => 0 end.
Definition backend_entitlement_of (p : Program) (lane : nat) : Z :=
  match kv (sequences p !!! lane) ≫= kv_backend with
  | Some id => page_entitlement_ (alloc_at (pg_kv p) id) | None => 0
  end.

(** Run a test on a pool of the program. *)
Definition on_pool_of (p : Program) (q : Z) (f : Pool -> bool) : bool :=
  match st_pools (pg_kv p) !! q with Some pool => f pool | None => false end.

Definition can_admit_lane (p : Program) (lane : nat) (plan : RequestPlan) : bool :=
  if negb (lane_in_range lane) then false
  else if lane_busy p lane then false
  else if negb (on_pool_of p text_pool (fun pool =>
                  can_replace pool (text_entitlement p lane) (rp_text_kv_page_entitlement plan))) then false
  else match backend_kv_cache with
       | None => rp_backend_kv_page_entitlement plan =? 0
       | Some q => on_pool_of p q (fun pool =>
                     can_replace pool (backend_entitlement_of p lane) (rp_backend_kv_page_entitlement plan))
       end.

(** The loop over the other lanes: what evicting their retained sequences would give back. *)
Definition reclaimable (p : Program) (lane : nat) (entitlement : Program -> nat -> Z) : Z :=
  foldl (fun total other =>
           if (other =? lane)%nat || negb (retained (sequences p !!! other)) || negb (is_some (kv (sequences p !!! other)))
           then total else u32 (total + entitlement p other))
    0 (seq 0 (Z.to_nat max_concurrency)).

Definition can_admit_lane_after_retained_eviction (p : Program) (lane : nat) (plan : RequestPlan) : bool :=
  if negb (lane_in_range lane) then false
  else if lane_busy p lane then false
  else if negb (on_pool_of p text_pool (fun pool =>
                  can_replace_reclaiming pool (text_entitlement p lane) (reclaimable p lane text_entitlement)
                    (rp_text_kv_page_entitlement plan))) then false
  else match backend_kv_cache with
       | None => rp_backend_kv_page_entitlement plan =? 0
       | Some q => on_pool_of p q (fun pool =>
                     can_replace_reclaiming pool (backend_entitlement_of p lane)
                       (reclaimable p lane backend_entitlement_of) (rp_backend_kv_page_entitlement plan))
       end.

Definition admission_capacity (p : Program) : AdmissionResources :=
  let groups q := match st_pools (pg_kv p) !! q with Some pool => page_group_count (spec_ pool) | None => 0 end in
  mkResources max_concurrency (groups text_pool)
    (match backend_kv_cache with Some q => groups q | None => 0 end).

(** ** Clearing *)

Definition clear_sequence (s : SequenceState) : SequenceState :=
  mkSequence (kv s) 0 0 [] (mkIdentity [] ((fun _ => []) <$> positions_ (prefix_identity s)) []) (sq_rope_delta s) 0 0 0
    (mtp_drafts s) 0 false false no_checkpoint.

Definition clear_lane (lane : nat) : M Program unit :=
  do! mod_req lane (set_prefill None);
  do! kv_reset lane;
  do! mod_req lane (set_lifecycle Empty);
  do! mod_seq lane clear_sequence;
  mod_req lane (set_pending no_pending).

(** The lanes of a batch, as the handlers clear them. *)
Definition clear_lanes (lanes : list nat) : M Program unit :=
  miter (fun lane => mwhen (lane_in_range lane) (clear_lane lane)) lanes.

(** A [noexcept] method that returns nothing. *)
Definition noexcept (m : M Program unit) (p : Program) : Program := (m p).2.

Definition abort_lane (lane : nat) : Program -> Program :=
  noexcept (if negb (lane_in_range lane) then mret_ tt else clear_lane lane).

Definition has_retained_lane (p : Program) (lane : nat) : bool :=
  lane_in_range lane && retained (sequences p !!! lane).

Definition evict_retained_lane (lane : nat) : Program -> Program :=
  noexcept (let! p := mget in if negb (has_retained_lane p lane) then mret_ tt else clear_lane lane).

Definition ordered_reset (lane : nat) : M Program unit :=
  let! slot := mlift (current_state_slot lane max_concurrency) in
  do! issue (ZeroSlot slot);
  do! set_device_i32 CellPos 0;
  do! set_device_i32 CellRopePos 0;
  do! set_device_i32 CellRopeDelta 0;
  do! mwhen (bool_decide (speculative_backend = Mtp)) (set_device_i32 CellMtpPosition 0);
  do! mod_seq lane (set_text_kv_valid 0);
  do! mod_seq lane (set_mtp_kv_valid 0);
  mod_seq lane (set_dflash_context_frontier 0).

(** ** Starting a prefill *)

Definition install_sampling (lane : nat) (config : SamplingConfig) : M Program unit :=
  do! issue (ZeroTokenCounts lane);
  let f32_nonzero x := negb (x mod 2147483648 =? 0) in
  let penalties := f32_nonzero (presence_penalty config) || f32_nonzero (frequency_penalty config) in
  do! mod_req lane (set_speculative_stats
        (mkStats 0 0 0 0 (replicate (Z.to_nat draft_window) 0)));
  let host := mkSampling (temperature config) (top_k config) (top_p config) (min_p config)
                (presence_penalty config) (frequency_penalty config) (seed config) penalties in
  do! mod_req lane (set_sampling_host host);
  issue (WriteSampling lane host).

Definition copy_tail (lane : nat) (source : HiddenSource) : M Program unit :=
  do! issue (CopyTail lane source);
  mod_seq lane (set_tail_hidden_valid true).

Definition has_action (plan : RequestPlan) (a : RewriteCheckpointAction) : bool := bool_decide (rp_action plan = a).

(** The existing checkpoint is the one the prompt describes, up to its kind. *)
Definition checkpoint_kept (prompt : PreparedPromptData) (plan : RequestPlan) (s : SequenceState) (same_kind : bool) : bool :=
  match rewrite_checkpoint_spec (identity prompt) with
  | None => false
  | Some d =>
      let c := rewrite_checkpoint s in
      rc_valid c && Bool.eqb (bool_decide (rc_kind c = rs_kind d)) same_kind && (rc_frontier c =? rs_frontier d) &&
      negb (bool_decide (rp_reuse plan = FullReset)) &&
      prefix_matches prompt (ledger s) (prefix_identity s) (rc_frontier c)
  end.

(** The checks of the prompt against the plan. *)
Definition check_prompt (prompt : PreparedPromptData) (plan : RequestPlan) (transient : TransientRegion) : result unit :=
  let prompt_tokens := Z.of_nat (length (token_ids prompt)) in
  do* throw_if (negb (prompt_tokens =? Contract.prompt_tokens (rp_summary plan)) ||
                (is_some (rp_vision plan) && negb (has_media prompt))) InvalidArgument;
  do* match rewrite_checkpoint_spec (identity prompt) with
      | Some d => throw_if ((rs_frontier d =? 0) || (rs_frontier d >? prompt_tokens)) InvalidArgument
      | None => Ok tt
      end;
  let suffix_has_visual := existsb (fun type => negb (type =? 0))
                             (drop (Z.to_nat (rp_reuse_base plan)) (token_types prompt)) in
  do* throw_if (negb (Bool.eqb suffix_has_visual (is_some (rp_vision plan)))) InvalidArgument;
  throw_if (negb (transient_bytes (rp_summary plan) =? 0) &&
            ((tr_data transient =? 0) || (tr_size transient <? transient_bytes (rp_summary plan)) ||
             (tr_alignment transient <? transient_alignment (rp_summary plan)))) InvalidArgument.

(** The checks of the plan against the lane. *)
Definition check_reuse (prompt : PreparedPromptData) (plan : RequestPlan) (s : SequenceState) : result unit :=
  let prompt_tokens := Z.of_nat (length (token_ids prompt)) in
  let desired := rewrite_checkpoint_spec (identity prompt) in
  let c := rewrite_checkpoint s in
  do* throw_if (negb (bool_decide (rp_reuse plan = FullReset)) &&
                (negb (retained s) ||
                 negb (prefix_matches prompt (ledger s) (prefix_identity s) (rp_reuse_base plan)))) LogicError;
  do* throw_if (is_rewrite_checkpoint_restore (rp_reuse plan) &&
                (negb (rc_valid c) || negb (rc_frontier c =? rp_reuse_base plan) ||
                 negb (bool_decide (rp_reuse plan = restore_path (rc_kind c))))) LogicError;
  do* throw_if (has_action plan KeepExisting && negb (checkpoint_kept prompt plan s true)) LogicError;
  do* throw_if (has_action plan ReclassifyExisting && negb (checkpoint_kept prompt plan s false)) LogicError;
  do* throw_if (has_action plan CaptureNew &&
                match rp_capture plan, desired with
                | Some capture, Some d =>
                    negb (bool_decide (rs_kind capture = rs_kind d)) || negb (rs_frontier capture =? rs_frontier d) ||
                    (rs_frontier capture <=? rp_reuse_base plan) || (rs_frontier capture >? prompt_tokens)
                | _, _ => true
                end) LogicError;
  do* throw_if (has_action plan Drop && is_some desired) LogicError;
  throw_if (has_action plan DeferCapture &&
            match desired with
            | None => true
            | Some d => bool_decide (rp_reuse plan = FullReset) || (rs_frontier d >? rp_reuse_base plan)
            end) LogicError.

(** The branch of [FullReset]. *)
Definition reuse_nothing (lane : nat) (plan : RequestPlan) : M Program unit :=
  do! kv_reset lane;
  do! ordered_reset lane;
  do! mod_seq lane (set_ledger []);
  do! mod_seq lane (set_text_kv_valid 0);
  do! mod_seq lane (set_mtp_kv_valid 0);
  reserve_sequence_kv lane (rp_text_kv_page_entitlement plan) (rp_backend_kv_page_entitlement plan).

(** With MTP the pages past the bridge are dropped; [prepare_mtp] and the pages up to it are needed. *)
Definition rewind_mtp (lane : nat) (plan : RequestPlan) (base : Z) : M Program unit :=
  let! s := get_seq lane in
  let mtp_base := if base =? 0 then 0 else base - 1 in
  do! mthrow_if (negb (rp_prepare_mtp plan) || (mtp_kv_valid s <? mtp_base)) LogicError;
  mod_seq lane (set_mtp_kv_valid mtp_base).

(** The branch of [AppendAtFrontier]. *)
Definition reuse_append (lane : nat) (plan : RequestPlan) (base : Z) : M Program unit :=
  let! s := get_seq lane in
  do! mthrow_if (negb (is_some (kv s))) LogicError;
  do! mthrow_if (text_kv_valid s <? base) LogicError;
  do! match speculative_backend with
      | Mtp => rewind_mtp lane plan base
      | DFlash => mthrow_if (negb (dflash_context_frontier s =? base)) LogicError
      | NoSpeculation => mret_ tt
      end;
  let! s := get_seq lane in
  do! trim_sequence_kv lane base (backend_kv_valid s);
  do! resize_sequence_kv_entitlement lane (rp_text_kv_page_entitlement plan) (rp_backend_kv_page_entitlement plan);
  do! mod_seq lane (set_text_kv_valid base);
  mod_seq lane (fun s => set_ledger (resize base (ledger s)) s).

(** The branch of a rewrite checkpoint. *)
Definition reuse_checkpoint (lane : nat) (plan : RequestPlan) (base prompt_tokens : Z) : M Program unit :=
  let! s := get_seq lane in
  do! mthrow_if (negb (is_some (kv s)) || (text_kv_valid s <? base)) LogicError;
  do! mod_seq lane (set_text_kv_valid base);
  do! match speculative_backend with
      | Mtp => rewind_mtp lane plan base
      | DFlash =>
          do! mthrow_if (negb (is_some dflash_full) || negb (is_some (kv s ≫= kv_backend)) ||
                         (dflash_context_frontier s <? base)) LogicError;
          do! issue (RestoreDFlashCheckpoint lane);
          mod_seq lane (set_dflash_context_frontier base)
      | NoSpeculation => mret_ tt
      end;
  let! s := get_seq lane in
  do! trim_sequence_kv lane base (backend_kv_valid s);
  do! resize_sequence_kv_entitlement lane (rp_text_kv_page_entitlement plan) (rp_backend_kv_page_entitlement plan);
  let! source := mlift (rewrite_checkpoint_state_slot lane max_concurrency) in
  let! destination := mlift (current_state_slot lane max_concurrency) in
  do! issue (CopySlot source destination);
  do! mwhen (base =? prompt_tokens) (copy_tail lane (CheckpointHidden lane));
  mod_seq lane (fun s => set_ledger (resize base (ledger s)) s).

Definition reuse_prefix (lane : nat) (plan : RequestPlan) (base prompt_tokens : Z) : M Program unit :=
  match rp_reuse plan with
  | FullReset => reuse_nothing lane plan
  | AppendAtFrontier => reuse_append lane plan base
  | _ => reuse_checkpoint lane plan base prompt_tokens
  end.

(** [initial_mtp_extent] *)
Definition initial_mtp_extent_of (plan : RequestPlan) (prompt_tokens : Z) : Z :=
  if bool_decide (speculative_backend = Mtp) then
    let effective := effective_output_tokens (rp_summary plan) in
    let room := u32 (capacity - prompt_tokens) in
    Z.min (Z.min draft_window (if effective >? 1 then effective - 2 else 0)) (if room >? 0 then room - 1 else 0)
  else 0.

(** The payloads that the vision plan does not use are released. *)
Definition release_unused (prompt : PreparedPromptData) (vision : option VisionPrefillPlan) : result PreparedPromptData :=
  match vision with
  | Some v =>
      let n := Z.of_nat (length (media_payloads prompt)) in
      do* throw_if (existsb (fun use => item_index use >=? n) (vp_uses v)) LogicError;
      Ok (set_media_payloads prompt
            (imap (fun i payload => if existsb (fun use => item_index use =? Z.of_nat i) (vp_uses v) then payload else None)
               (media_payloads prompt)))
  | None => Ok (if has_media prompt then release_all_media_payloads prompt else prompt)
  end.

(** [VisionPrefillSession::VisionPrefillSession]: nothing is encoded yet. *)
Definition vision_session (v : VisionPrefillPlan) (transient : TransientRegion) : result (list Z) :=
  do* throw_if (bool_decide (vp_control v = []) || bool_decide (vp_uses v = [])) InvalidArgument;
  do* throw_if ((tr_data transient =? 0) || (tr_alignment transient <? kWorkspaceAlignment)) InvalidArgument;
  Ok [].

Definition update_checkpoint (lane : nat) (prompt : PreparedPromptData) (plan : RequestPlan) : M Program unit :=
  if has_action plan Drop || has_action plan CaptureNew then mod_seq lane (set_rewrite_checkpoint no_checkpoint)
  else if has_action plan ReclassifyExisting then
    let! d := mderef (rewrite_checkpoint_spec (identity prompt)) in
    mod_seq lane (fun s => let c := rewrite_checkpoint s in
      set_rewrite_checkpoint (mkCheckpoint (rc_valid c) (rs_kind d) (rc_frontier c)) s)
  else mret_ tt.

(** ** A step of prefill *)

Definition validate_licensed_tokens (tokens : list Z) : result unit :=
  throw_if (existsb (fun token => (token <? 0) || (token >=? token_domain)) tokens) RuntimeError.

(** [VisionPrefillSession::release_encoded_media_payloads] *)
Definition release_encoded (pf : Prefill) (encoded : list Z) : result Prefill :=
  let payloads := media_payloads (pf_prompt pf) in
  do* throw_if (existsb (fun i => i >=? Z.of_nat (length payloads)) encoded) Abort_;
  Ok (set_pf_vision (Some [])
        (set_pf_prompt (set_media_payloads (pf_prompt pf)
            (foldl (fun l i => <[Z.to_nat i := None]> l) payloads encoded)) pf)).

Definition begin_summary (pf : Prefill) : BeginSummary := mkBegin (pf_prompt_tokens pf) (pf_base pf).

(** The MTP bridge over the seam of a reused prefix. *)
Definition run_bridge (lane : nat) (pf : Prefill) (context : PrefillContext) : M Program Prefill :=
  if bool_decide (pf_mtp_bridge pf = BeforeSuffix) then
    do! mthrow_if (negb (pf_cursor pf =? pf_base pf) || (pf_base pf =? 0) || (pf_cursor pf >=? pf_prompt_tokens pf))
          LogicError;
    let previous := if is_rewrite_checkpoint_restore (pf_reuse pf) then CheckpointHidden lane else TailHidden lane in
    let! position := mlift (pg_checked_i32 (pf_base pf - 1)) in
    let! rope := mlift (prompt_rope_position (pf_prompt pf) (pf_base pf - 1)) in
    do! match pf_vision pf with
        | Some _ => issue (MtpBridgeMultimodal context previous position rope)
        | None =>
            let! token := mderef (token_ids (pf_prompt pf) !! Z.to_nat (pf_base pf)) in
            do! issue (WriteBridgeToken token);
            issue (MtpBridgeAndPropose context previous position rope false)
        end;
    do! mod_seq lane (set_mtp_kv_valid (pf_base pf));
    let pf := set_pf_mtp_bridge NoBridge pf in
    do! mod_req lane (set_prefill (Some pf));
    mret_ pf
  else mret_ pf.

(** One chunk of the prompt. *)
Definition run_chunk (lane : nat) (pf : Prefill) (context : PrefillContext) : M Program (Prefill * PrefillChunkResult) :=
  let nominal := Z.min prefill_chunk (pf_prompt_tokens pf - pf_cursor pf) in
  let final_candidate := pf_cursor pf + nominal =? pf_prompt_tokens pf in
  let capture := rs_frontier <$> pf_capture pf in
  let multimodal := is_some (pf_vision pf) in
  do! mthrow_if (multimodal && is_some dflash_full) LogicError;   (**r [prefill_multimodal_chunk] *)
  let! result := on_dev (prefill_chunk_schedule context (pf_prompt pf) multimodal nominal capture final_candidate) in
  do! mthrow_if ((processed_tokens result =? 0) || (processed_tokens result >? nominal)) LogicError;
  let! pf := match pf_vision pf with
             | Some pending => mlift (release_encoded pf (pending ++ encoded_items result))
             | None => mret_ pf
             end in
  let pf := set_pf_cursor (pf_cursor pf + processed_tokens result) pf in
  do! mod_req lane (set_prefill (Some pf));
  do! mod_seq lane (set_text_kv_valid (pf_cursor pf));
  do! mwhen (pf_prepare_mtp pf) (mod_seq lane (set_mtp_kv_valid (pf_cursor pf)));
  do! mwhen (bool_decide (speculative_backend = DFlash)) (mod_seq lane (set_dflash_context_frontier (pf_cursor pf)));
  mret_ (pf, result).

(** The whole prompt is reused: sample from the hidden state of its last token. *)
Definition run_zero_suffix (lane : nat) (pf : Prefill) (context : PrefillContext) : M Program Prefill :=
  let! s := get_seq lane in
  do! mthrow_if (negb (tail_hidden_valid s)) LogicError;
  let! position := mlift (pg_checked_i32 (pf_prompt_tokens pf)) in
  do! issue (SampleFromHidden context (TailHidden lane) position);
  do! set_device_i32 CellRopePos (position + sq_rope_delta s);
  if pf_prepare_mtp pf then
    do! mthrow_if (negb (bool_decide (pf_mtp_bridge pf = AfterExactHit))) LogicError;
    let! rope := mlift (prompt_rope_position (pf_prompt pf) (pf_prompt_tokens pf - 1)) in
    let! position := mlift (pg_checked_i32 (pf_prompt_tokens pf - 1)) in
    do! issue (MtpBridgeAndPropose context (TailHidden lane) position rope (negb (initial_mtp_extent pf =? 0)));
    do! mod_seq lane (set_mtp_kv_valid (pf_prompt_tokens pf));
    let pf := set_pf_mtp_bridge NoBridge pf in
    do! mod_req lane (set_prefill (Some pf));
    mret_ pf
  else mret_ pf.

(** The rewrite checkpoint that the prefill captured. *)
Definition install_checkpoint (lane : nat) (pf : Prefill) (prompt_tokens : Z) : M Program unit :=
  match pf_capture pf with
  | None => mret_ tt
  | Some capture =>
      let! s := get_seq lane in
      let frontier := rs_frontier capture in
      do! mthrow_if ((frontier =? 0) || (frontier >? prompt_tokens) || (text_kv_valid s <? frontier)) LogicError;
      do! mthrow_if (bool_decide (speculative_backend = Mtp) &&
                     (negb (pf_prepare_mtp pf) || (mtp_kv_valid s <? frontier - 1))) LogicError;
      do! mthrow_if (bool_decide (speculative_backend = DFlash) &&
                     (negb (is_some dflash_full) || negb (is_some (kv s ≫= kv_backend)) ||
                      (dflash_context_frontier s <? frontier))) LogicError;
      mod_seq lane (set_rewrite_checkpoint (mkCheckpoint true (rs_kind capture) frontier))
  end.

(** The prompt is consumed: license its first token. *)
Definition finish_prefill (lane : nat) (pf : Prefill) (processed : Z) : M Program PrefillStepResult :=
  do! issue CopyRoundToken;
  do! mwhen (pf_prepare_mtp pf && negb (initial_mtp_extent pf =? 0)) (issue (CopyDraftTokens (initial_mtp_extent pf)));
  do! sync;
  let! d := mgets pg_dev in
  let prompt_tokens := pf_prompt_tokens pf in
  let token := round_token d in
  do! mlift (validate_licensed_tokens [token]);
  let! s := get_seq lane in
  do! mthrow_if (negb (Z.of_nat (length (ledger s)) =? prompt_tokens)) LogicError;
  do! mod_seq lane (fun s => set_ledger (ledger s ++ [token]) s);
  do! on_identity lane (append_generated 1 (sq_rope_delta s));
  do! mod_seq lane (set_text_kv_valid prompt_tokens);
  do! (if pf_prepare_mtp pf then
         do! mthrow_if (negb (mtp_kv_valid s =? prompt_tokens)) LogicError;
         do! mod_seq lane (set_mtp_draft_count (initial_mtp_extent pf));
         let drafts := initial_drafts d <$> seq 0 (Z.to_nat (initial_mtp_extent pf)) in
         mod_seq lane (fun s => set_mtp_drafts (drafts ++ drop (length drafts) (mtp_drafts s)) s)
       else mthrow_if (bool_decide (speculative_backend = DFlash) &&
                       negb (dflash_context_frontier s =? prompt_tokens)) LogicError);
  do! mod_seq lane (set_tail_hidden_valid true);
  do! install_checkpoint lane pf prompt_tokens;
  do! mod_req lane (set_prefill None);
  do! mod_req lane (set_pending (mkPending Begin 0 0 prompt_tokens 1));
  do! mod_req lane (set_lifecycle Pending);
  mret_ (mkStepResult (begin_summary pf) [token] processed true).

Definition advance_prefill (lane : nat) : M Program PrefillStepResult :=
  let! r := get_req lane in
  match lifecycle r, prefill r with
  | Prefilling, Some pf =>
      mtry
        (let! text_view := text_kv_view lane in
         let! mtp_view := mtp_kv_view lane in
         let! current := mlift (current_state_slot lane max_concurrency) in
         let! checkpoint := mlift (rewrite_checkpoint_state_slot lane max_concurrency) in
         let context := mkPrefillContext lane text_view mtp_view (pf_cursor pf) current checkpoint (initial_mtp_extent pf) in
         let! pf := run_bridge lane pf context in
         if pf_cursor pf <? pf_prompt_tokens pf then
           let! (pf, result) := run_chunk lane pf context in
           if negb (finalized result) then
             do! mthrow_if (pf_cursor pf =? pf_prompt_tokens pf) LogicError;
             mret_ (mkStepResult (begin_summary pf) [] (processed_tokens result) false)
           else
             do! mthrow_if (negb (pf_cursor pf =? pf_prompt_tokens pf)) LogicError;
             do! copy_tail lane (PrefillHidden (processed_tokens result - 1));
             finish_prefill lane pf (processed_tokens result)
         else
           let! pf := run_zero_suffix lane pf context in
           finish_prefill lane pf 0)
        (fun e => do! try_sync; do! clear_lane lane; mthrow e)
  | _, _ => mthrow LogicError
  end.

Definition start_prefill_lane (lane : nat) (prompt : PreparedPromptData) (plan : RequestPlan) (transient : TransientRegion)
  : M Program PrefillStepResult :=
  do! mthrow_if (negb (lane_in_range lane)) OutOfRange;
  let! p := mget in
  do! mthrow_if (lane_busy p lane) LogicError;
  do! mlift (check_prompt prompt plan transient);
  do! mlift (check_reuse prompt plan (sequences p !!! lane));
  let prompt_tokens := Z.of_nat (length (token_ids prompt)) in
  let base := rp_reuse_base plan in
  let extent := initial_mtp_extent_of plan prompt_tokens in
  do! mod_req lane (set_lifecycle Empty);
  do! mod_seq lane (set_retained false);
  mtry
    (do! reuse_prefix lane plan base prompt_tokens;
     let! s := get_seq lane in
     do! trim_sequence_kv lane base (backend_kv_valid s);
     do! bind_sequence_kv lane;
     let backend_materialized :=
       match speculative_backend with
       | Mtp => Z.min capacity (prompt_tokens + (if extent =? 0 then 0 else extent - 1))
       | DFlash => prompt_tokens
       | NoSpeculation => 0
       end in
     do! materialize_sequence_kv lane prompt_tokens backend_materialized;
     do! install_sampling lane (rp_sampling plan);
     do! mod_seq lane (set_sq_rope_delta (rope_delta prompt));
     do! set_device_i32 CellRopeDelta (rope_delta prompt);
     do! update_checkpoint lane prompt plan;
     do! mod_req lane (set_pending no_pending);
     do! mod_seq lane (set_mtp_draft_count 0);
     do! mod_seq lane (fun s => set_tail_hidden_valid ((base =? prompt_tokens) && tail_hidden_valid s) s);
     do! mod_seq lane (set_ledger (token_ids prompt));
     do! on_identity lane (identity_assign prompt);
     do! (if bool_decide (speculative_backend = DFlash) then
            let! s := get_seq lane in
            let! st := mgets pg_kv in
            match dflash_full, kv s ≫= kv_backend with
            | Some _, Some id => issue (UploadDFlashLane lane (bound_row_of st id))
            | _, _ => mthrow LogicError
            end
          else mret_ tt);
     let! staged := mlift (release_unused prompt (rp_vision plan)) in
     let pf := mkPrefill staged (rp_vision plan) None transient (rp_capture plan) base base prompt_tokens extent
                 (rp_prepare_mtp plan) (rp_reuse plan) (rp_mtp_bridge plan) in
     do! mod_req lane (set_prefill (Some pf));
     do! match rp_vision plan with
         | Some v => let! session := mlift (vision_session v transient) in
                     mod_req lane (set_prefill (Some (set_pf_vision (Some session) pf)))
         | None => mret_ tt
         end;
     do! mod_req lane (set_lifecycle Prefilling);
     advance_prefill lane)
    (fun e => do! try_sync; do! clear_lane lane; mthrow e).

Definition advance_prefill_lane (lane : nat) : M Program PrefillStepResult :=
  do! mthrow_if (negb (lane_in_range lane)) OutOfRange;
  advance_prefill lane.
End Program.
