(* ===== verification/ProgramDecode.v ===== *)
(** * Decode rounds and their resolution: [targets/qwen3_6/impl/runtime/program_impl.h]

    A round produces candidate tokens for a batch of active lanes; the engine then resolves how many
    of them each lane keeps.  Ordinary rounds produce one token per lane; with MTP or DFlash a round
    verifies drafted tokens and its ledger and state are advanced when it is resolved. *)
From S2P Require Import Prelude Tensor Layout PagedKV PrefixIdentity VisionControl Admission Capacity Contract ProgramState RequestPlan Program.
#[local] Open Scope Z_scope.

Section Decode.
Context `{CF : ProgramConfig, DV : Device}.

(** ** Membership *)

Definition bound (p : Program) (id : option Z) : bool :=
  match id with Some id => bound_row_of (pg_kv p) id >=? 0 | None => false end.

(** The lane has a KV bundle whose text allocation is bound. *)
Definition text_ready (p : Program) (s : SequenceState) : bool := bound p (kv_text <$> kv s).
Definition backend_ready (p : Program) (s : SequenceState) : bool := bound p (kv s ≫= kv_backend).

(** The ledger is one token ahead of the execution frontier, and the identity agrees. *)
Definition ledger_ready (s : SequenceState) : bool :=
  (execution_frontier s <? capacity) && (ledger_frontier s =? execution_frontier s + 1) &&
  (Z.of_nat (length (ledger s)) =? ledger_frontier s) && (identity_size (prefix_identity s) =? ledger_frontier s).

Definition width : Z := draft_window + 1.

Definition ordinary_ready (p : Program) (s : SequenceState) : bool := text_ready p s && ledger_ready s.
Definition mtp_ready (p : Program) (s : SequenceState) : bool :=
  text_ready p s && backend_ready p s && ledger_ready s && (mtp_kv_valid s =? execution_frontier s) &&
  (mtp_draft_count s <=? draft_window).
Definition dflash_ready (p : Program) (s : SequenceState) : bool :=
  text_ready p s && backend_ready p s && ledger_ready s && (text_kv_valid s =? execution_frontier s) &&
  (dflash_context_frontier s <=? execution_frontier s) &&
  (execution_frontier s - dflash_context_frontier s <=? width).

(** The validation loop of a decode batch. *)
Fixpoint check_rows (ready : SequenceState -> bool) (p : Program) (seen : list nat) (rows : list (nat * Z)) : result unit :=
  match rows with
  | [] => Ok tt
  | (lane, budget) :: rows' =>
      do* throw_if (negb (lane_in_range lane) || bool_decide (lane ∈ seen)) InvalidArgument;
      let s := sequences p !!! lane in
      do* throw_if (negb (bool_decide (lifecycle (requests p !!! lane) = Active)) || (budget =? 0) || negb (ready s))
            LogicError;
      check_rows ready p (lane :: seen) rows'
  end.

Definition check_membership (lanes : list nat) (budgets : list Z) : result unit :=
  throw_if (bool_decide (lanes = []) || (Z.of_nat (length lanes) >? max_concurrency) ||
            negb (length budgets =? length lanes)%nat) InvalidArgument.

Definition maximum_frontier (p : Program) (lanes : list nat) : Z :=
  foldl (fun m lane => Z.max m (execution_frontier (sequences p !!! lane))) 0 lanes.

(** [install_graph_profile]: the topology class whose executable will be launched. *)
Definition install_graph_profile (name : FamilyName) (batch_size frontier : Z) : M Program (Z * DecodeGraphProfile) :=
  let! p := mget in
  let family := graph_family name p in
  let! (index, profile) := mlift (select_graph_profile family batch_size frontier) in
  let! (slot, topology) := mlift (select_graph_topology family (gp_topology_class profile)) in
  do! mwhen (negb (bool_decide (installed_profile topology = Some index)))
        (do! issue (UpdateGraph name (topology_class topology) index);
         mmodify (fun p => set_graph_family name
           (mkFamily (profiles (graph_family name p))
              (<[slot := mkTopology (topology_class topology) (Some index)]> (topologies (graph_family name p)))) p));
  mret_ (topology_class topology, profile).

(** [catch (...)] of a batch. *)
Definition fail_batch {A} (lanes : list nat) (e : exn) : M Program A :=
  do! try_sync; do! clear_lanes lanes; mthrow e.

(** ** Ordinary rounds *)

Definition ordinary_row (lane : nat) : M Program OrdinaryRow :=
  let! s := get_seq lane in
  let! r := get_req lane in
  let! st := mgets pg_kv in
  let frontier := execution_frontier s in
  let! token := mderef (last (ledger s)) in
  let! position := mlift (pg_checked_i32 frontier) in
  let! b := mderef (kv s) in
  do! materialize_sequence_kv lane (frontier + 1) 0;
  mret_ (mkOrdinaryRow token position (position + sq_rope_delta s) (bound_row_of st (kv_text b)) lane (sampling_host r)).

Definition finish_ordinary_row (d : dev) (row : nat * nat) : M Program unit :=
  let '(row, lane) := row in
  let! s := get_seq lane in
  let token := sampled_tokens d row in
  do! mlift (validate_licensed_tokens [token]);
  do! mod_seq lane (set_text_kv_valid (execution_frontier s + 1));
  do! mod_seq lane (set_tail_hidden_valid true);
  do! mod_seq lane (fun s => set_ledger (ledger s ++ [token]) s);
  do! on_identity lane (append_generated 1 (sq_rope_delta s));
  do! mod_req lane (set_pending (mkPending Ordinary (execution_frontier s) (ledger_frontier s) 0 1));
  mod_req lane (set_lifecycle Pending).

Definition decode_ordinary_batch (lanes : list nat) (budgets : list Z) : M Program BatchedGeneratedRound :=
  do! mthrow_if (negb (bool_decide (speculative_backend = NoSpeculation))) LogicError;
  do! mlift (check_membership lanes budgets);
  let! p := mget in
  do! mlift (check_rows (ordinary_ready p) p [] (zip lanes budgets));
  let frontier := maximum_frontier p lanes in
  mtry
    (let! (graph, envelope) :=
       if use_cuda_graph then
         let! (class, profile) := install_graph_profile OrdinaryGraphs (Z.of_nat (length lanes)) frontier in
         mret_ (Some class, (min_execution_frontier profile + 1, max_execution_frontier profile + 1))
       else mret_ (None, (frontier + 1, frontier + 1)) in
     let! rows := mmapM ordinary_row lanes in
     do! issue (OrdinaryDecodeBatch rows envelope graph);
     do! sync;
     let! d := mgets pg_dev in
     do! miter (finish_ordinary_row d) (imap pair lanes);
     mret_ (mkRound (sampled_tokens d <$> seq 0 (length lanes)) [] 1))
    (fail_batch lanes).

(** ** MTP rounds *)

(** At most one less than the remaining budget is drafted. *)
Definition max_by_budget (budget : Z) : Z := if budget >? 1 then budget - 1 else 0.

Definition mtp_extent (s : SequenceState) (budget : Z) : Z :=
  Z.min (Z.min (mtp_draft_count s) draft_window)
    (Z.min (max_by_budget budget) (u32 (capacity - execution_frontier s - 1))).

Definition mtp_row (row : nat * Z) : M Program MtpRow :=
  let '(lane, budget) := row in
  let! s := get_seq lane in
  let! r := get_req lane in
  let! st := mgets pg_kv in
  let frontier := execution_frontier s in
  let extent := mtp_extent s budget in
  let! anchor := mderef (last (ledger s)) in
  let! base := mlift (pg_checked_i32 frontier) in
  let! remaining := mlift (pg_checked_i32 budget) in
  let drafts := (fun j => if Z.of_nat j <? extent then mtp_drafts s !!! j else anchor) <$> seq 0 (Z.to_nat draft_window) in
  let! positions := mlift (rmapM (fun j => pg_checked_i32 (frontier + Z.min j extent)) (seqZ 0 width)) in
  let! b := mderef (kv s) in
  let! backend := mderef (kv_backend b) in
  do! materialize_sequence_kv lane (frontier + extent + 1) (Z.min capacity (frontier + extent + draft_window));
  mret_ (mkMtpRow anchor base remaining extent (extent + 1) drafts ((fun x => x + sq_rope_delta s) <$> positions)
           (bound_row_of st (kv_text b)) (bound_row_of st backend) lane (sq_rope_delta s) (sampling_host r)).

(** After a speculative round the host reads what it licensed. *)
Definition receive_egress : M Program SpeculativeEgress :=
  do! mmodify (fun p => set_host_egress (speculative_egress (pg_dev p)) p);
  mgets host_egress.

(** The statistics of a speculative row. *)
Definition count_speculation (extent accepted : Z) (stats : SpeculativeStats) : SpeculativeStats :=
  if extent =? 0 then
    mkStats (fallback_steps stats + 1) (rounds stats) (drafted_tokens stats) (accepted_drafts_ stats)
      (accepted_per_position stats)
  else
    mkStats (fallback_steps stats) (rounds stats + 1) (drafted_tokens stats + extent) (accepted_drafts_ stats + accepted)
      (imap (fun i n => if Z.of_nat i <? accepted then n + 1 else n) (accepted_per_position stats)).

(** The licensed tokens of a row. *)
Definition row_tokens (e : SpeculativeEgress) (row : nat) (count : Z) : list Z :=
  licensed_tokens e <$> seq (row * Z.to_nat width) (Z.to_nat count).

Definition speculative_round (e : SpeculativeEgress) (rows : nat) : BatchedGeneratedRound :=
  mkRound (licensed_tokens e <$> seq 0 (rows * Z.to_nat width)) (licensed_counts e <$> seq 0 rows) width.

(** The pending round of a speculative row. *)
Definition license_row (lane : nat) (extent accepted count : Z) : M Program unit :=
  let! s := get_seq lane in
  do! mod_req lane (fun r => set_speculative_stats (count_speculation extent accepted (speculative_stats r)) r);
  do! mod_req lane (set_pending (mkPending Speculative (execution_frontier s) (ledger_frontier s) 0 count));
  mod_req lane (set_lifecycle Pending).

Definition finish_mtp_row (e : SpeculativeEgress) (input : nat * (nat * Z * MtpRow)) : M Program unit :=
  let '(row, (lane, budget, ingress)) := input in
  let! s := get_seq lane in
  let count := licensed_counts e row in
  let accepted := accepted_drafts e row in
  let next := next_extents e row in
  do! mthrow_if ((count <=? 0) || (count >? width) || (accepted <? 0) || negb (accepted + 1 =? count) || (next <? 0) ||
                 (next >? draft_window) || (count >? budget) || (execution_frontier s + count >? capacity)) RuntimeError;
  do! mlift (validate_licensed_tokens (row_tokens e row count));
  license_row lane (mr_current_extent ingress) accepted count.

Definition decode_mtp_batch (lanes : list nat) (budgets : list Z) : M Program BatchedGeneratedRound :=
  do! mthrow_if (negb (bool_decide (speculative_backend = Mtp)) || negb (is_some mtp_cache)) LogicError;
  do! mlift (check_membership lanes budgets);
  let! p := mget in
  do! mlift (check_rows (mtp_ready p) p [] (zip lanes budgets));
  let frontier := maximum_frontier p lanes in
  mtry
    (let! (graph, envelope_frontier) :=
       if use_cuda_graph then
         let! (class, profile) := install_graph_profile MtpGraphs (Z.of_nat (length lanes)) frontier in
         mret_ (Some class, max_execution_frontier profile)
       else mret_ (None, frontier) in
     let! rows := mmapM mtp_row (zip lanes budgets) in
     do! issue (MtpDecodeBatch rows envelope_frontier graph);
     do! sync;
     let! e := receive_egress in
     do! miter (finish_mtp_row e) (imap pair (zip (zip lanes budgets) rows));
     mret_ (speculative_round e (length lanes)))
    (fail_batch lanes).

(** ** DFlash rounds *)

Definition dflash_extent (s : SequenceState) (budget : Z) : Z :=
  Z.min draft_window (Z.min (max_by_budget budget) (u32 (capacity - execution_frontier s - 1))).

Definition maximum_target_tokens (p : Program) (rows : list (nat * Z)) : Z :=
  foldl (fun m '(lane, budget) =>
           let s := sequences p !!! lane in Z.max m (execution_frontier s + dflash_extent s budget + 1)) 1 rows.

Definition dflash_row (row : nat * Z) : M Program DFlashRow :=
  let '(lane, budget) := row in
  let! s := get_seq lane in
  let! r := get_req lane in
  let! st := mgets pg_kv in
  let frontier := execution_frontier s in
  let extent := dflash_extent s budget in
  let! anchor := mderef (last (ledger s)) in
  let! execution := mlift (pg_checked_i32 frontier) in
  let! context := mlift (pg_checked_i32 (dflash_context_frontier s)) in
  let! b := mderef (kv s) in
  let! backend := mderef (kv_backend b) in
  do! materialize_sequence_kv lane (frontier + extent + 1) frontier;
  mret_ (mkDFlashRow anchor execution context extent (extent + 1) (bound_row_of st (kv_text b)) (bound_row_of st backend)
           lane (sampling_host r)).

Definition finish_dflash_row (e : SpeculativeEgress) (input : nat * (nat * Z * DFlashRow)) : M Program unit :=
  let '(row, (lane, budget, ingress)) := input in
  let! s := get_seq lane in
  let count := licensed_counts e row in
  let accepted := accepted_drafts e row in
  let extent := dr_proposal_extent ingress in
  do! mthrow_if ((count <=? 0) || (count >? width) || (accepted <? 0) || negb (accepted + 1 =? count) ||
                 (accepted >? extent) || (count >? budget) || (execution_frontier s + count >? capacity)) RuntimeError;
  do! mlift (validate_licensed_tokens (row_tokens e row count));
  do! mod_seq lane (set_dflash_context_frontier (execution_frontier s));
  license_row lane extent accepted count.

Definition decode_dflash_batch (lanes : list nat) (budgets : list Z) : M Program BatchedGeneratedRound :=
  do! mthrow_if (negb (bool_decide (speculative_backend = DFlash)) || negb (is_some dflash_full)) LogicError;
  do! mlift (check_membership lanes budgets);
  let! p := mget in
  do! mlift (check_rows (dflash_ready p) p [] (zip lanes budgets));
  let frontier := maximum_frontier p lanes in
  mtry
    (let! (graph, envelope_frontier, target) :=
       if use_cuda_graph then
         let! (class, profile) := install_graph_profile DFlashGraphs (Z.of_nat (length lanes)) frontier in
         mret_ (Some class, max_execution_frontier profile,
                Z.min capacity (max_execution_frontier profile + draft_window + 1))
       else mret_ (None, frontier, maximum_target_tokens p (zip lanes budgets)) in
     let! rows := mmapM dflash_row (zip lanes budgets) in
     do! issue (DFlashDecodeBatch rows envelope_frontier target graph);
     do! sync;
     let! e := receive_egress in
     do! miter (finish_dflash_row e) (imap pair (zip (zip lanes budgets) rows));
     mret_ (speculative_round e (length lanes)))
    (fail_batch lanes).

Definition decode_batch (lanes : list nat) (budgets : list Z) : M Program BatchedGeneratedRound :=
  match speculative_backend with
  | NoSpeculation => decode_ordinary_batch lanes budgets
  | Mtp => decode_mtp_batch lanes budgets
  | DFlash => decode_dflash_batch lanes budgets
  end.

(** ** Resolution *)

(** The end of a request: the sequence is retained, without room to grow. *)
Definition retire_lane (lane : nat) : M Program unit :=
  do! release_sequence_growth_entitlement lane;
  do! unbind_sequence_kv lane;
  mod_seq lane (set_retained true).

Definition resolve_non_speculative_pending (lane : nat) (accepted_tokens : Z) (terminal : bool) : M Program unit :=
  let! r := get_req lane in
  let c := pending r in
  do! mthrow_if (negb (bool_decide (lifecycle r = Pending))) LogicError;
  do! mthrow_if ((negb (bool_decide (pc_kind c = Begin)) && negb (bool_decide (pc_kind c = Ordinary))) ||
                 negb (produced c =? 1) || negb (accepted_tokens =? 1)) LogicError;
  do! match pc_kind c with
      | Begin =>
          do! mod_seq lane (set_execution_frontier (pc_prompt_tokens c));
          mod_seq lane (set_ledger_frontier (pc_prompt_tokens c + 1))
      | Ordinary =>
          do! mod_seq lane (set_execution_frontier (base_E c + produced c));
          mod_seq lane (set_ledger_frontier (base_S c + produced c))
      | _ => mthrow LogicError
      end;
  let! s := get_seq lane in
  do! mthrow_if (negb (ledger_frontier s =? execution_frontier s + 1) ||
                 negb (Z.of_nat (length (ledger s)) =? ledger_frontier s) ||
                 negb (identity_size (prefix_identity s) =? ledger_frontier s)) LogicError;
  do! trim_sequence_kv lane (text_kv_valid s) (backend_kv_valid s);
  do! mwhen terminal (do! mod_seq lane (set_mtp_draft_count 0); retire_lane lane);
  do! mod_req lane (set_lifecycle (if terminal then Complete else Active));
  mod_req lane (set_pending no_pending).

Definition resolve_prefill_lane (lane : nat) (terminal : bool) : M Program unit :=
  do! mthrow_if (negb (lane_in_range lane)) OutOfRange;
  let! r := get_req lane in
  do! mthrow_if (negb (bool_decide (pc_kind (pending r) = Begin))) LogicError;
  resolve_non_speculative_pending lane 1 terminal.

(** One row of a resolution. *)
Record ResolveRow : Set := mkResolve {
  rr_row : nat; rr_lane : nat; rr_accepted : Z; rr_terminal : bool; rr_cancelled : bool;
}.
Definition resolve_rows (lanes : list nat) (accepted : list Z) (terminal cancelled : list bool) : list ResolveRow :=
  imap (fun i '(lane, a, t, c) => mkResolve i lane a t c) (zip (zip (zip lanes accepted) terminal) cancelled).

Definition resolve_ordinary_row (row : ResolveRow) : M Program unit :=
  let lane := rr_lane row in
  let! r := get_req lane in
  do! mthrow_if (negb (lane_in_range lane) || negb (bool_decide (lifecycle r = Pending)) ||
                 negb (bool_decide (pc_kind (pending r) = Ordinary))) LogicError;
  if rr_cancelled row then clear_lane lane
  else resolve_non_speculative_pending lane (rr_accepted row) (rr_terminal row).

(** The lane is at the base of its pending round. *)
Definition at_base (s : SequenceState) (c : PendingCandidate) : bool :=
  (execution_frontier s =? base_E c) && (ledger_frontier s =? base_S c) &&
  (Z.of_nat (length (ledger s)) =? base_S c) && (identity_size (prefix_identity s) =? base_S c) &&
  (text_kv_valid s =? base_E c) &&
  match speculative_backend with
  | Mtp => mtp_kv_valid s =? base_E c
  | DFlash => dflash_context_frontier s =? base_E c
  | NoSpeculation => true
  end.

Definition committed_of (row : ResolveRow) : Z := if rr_cancelled row then 0 else rr_accepted row.

(** A row commits a nonempty prefix of what was produced, all of it unless the request ends. *)
Definition commit_valid (row : ResolveRow) (produced_ : Z) : bool :=
  if rr_cancelled row then rr_accepted row =? 0
  else negb (rr_accepted row =? 0) && (rr_accepted row <=? produced_) &&
       (rr_terminal row || (rr_accepted row =? produced_)).

Definition partial_terminal (row : ResolveRow) (produced_ : Z) : bool :=
  negb (rr_cancelled row) && rr_terminal row && (rr_accepted row <? produced_).

(** The validation of a speculative row: what is folded, and the selected hidden column. *)
Definition check_speculative_row (p : Program) (row : ResolveRow) : result ((Z * Z) * Z * bool) :=
  let lane := rr_lane row in
  let r := requests p !!! lane in
  let c := pending r in
  do* throw_if (negb (lane_in_range lane) || negb (bool_decide (lifecycle r = Pending)) ||
                negb (bool_decide (pc_kind c = Speculative))) LogicError;
  do* throw_if (negb (at_base (sequences p !!! lane) c)) LogicError;
  do* throw_if (negb (commit_valid row (produced c))) LogicError;
  let* slot := current_state_slot lane max_concurrency in
  let partial := partial_terminal row (produced c) in
  Ok ((slot, committed_of row), if partial then committed_of row - 1 else produced c - 1, partial).

(** A row (lane, start, count) of [enqueue_dflash_context_append]; [seen] are the lanes of the rows before it. *)
Definition append_row (seen : list nat) (row : nat * Z * Z) : M Program AppendRow :=
  let '(lane, start, count) := row in
  do! mthrow_if (negb (lane_in_range lane) || (count =? 0) || (count >? width) || bool_decide (lane ∈ seen)) LogicError;
  let! s := get_seq lane in
  let! st := mgets pg_kv in
  let end_ := start + count in
  match kv s with
  | Some (mkBundle text (Some backend)) =>
      do! mthrow_if ((bound_row_of st text <? 0) || (bound_row_of st backend <? 0) || (end_ >? capacity)) LogicError;
      let! context := mlift (pg_checked_i32 start) in
      let! execution := mlift (pg_checked_i32 end_) in
      do! materialize_sequence_kv lane (Z.max (text_kv_valid s) end_) end_;
      mret_ (mkAppendRow lane context execution (bound_row_of st backend))
  | _ => mthrow LogicError
  end.

Fixpoint append_rows (seen : list nat) (rows : list (nat * Z * Z)) : M Program (list AppendRow) :=
  match rows with
  | [] => mret_ []
  | row :: rows' =>
      let! out := append_row seen row in
      let! rest := append_rows (row.1.1 :: seen) rows' in
      mret_ (out :: rest)
  end.

Definition enqueue_dflash_context_append (rows : list (nat * Z * Z)) : M Program unit :=
  do! mthrow_if (negb (bool_decide (speculative_backend = DFlash)) || negb (is_some dflash_full) ||
                 bool_decide (rows = []) || (Z.of_nat (length rows) >? max_concurrency)) LogicError;
  let! out := append_rows [] rows in
  issue (DFlashAppendContext out (foldl (fun m '(_, _, count) => Z.min m count) width rows)
           (foldl (fun m '(_, _, count) => Z.max m count) 0 rows)).

(** The rows whose context is appended now: those that end. *)
Definition ending_rows (p : Program) (rows : list ResolveRow) : list (nat * Z * Z) :=
  omap (fun row => if negb (rr_cancelled row) && rr_terminal row
                   then Some (rr_lane row, base_E (pending (requests p !!! rr_lane row)), rr_accepted row)
                   else None) rows.

(** The drafts of the next round, step-major in the egress. *)
Definition next_round_drafts (e : SpeculativeEgress) (row : nat) (count : Z) (old : list Z) : list Z :=
  imap (fun step old => if Z.of_nat step <? count then next_drafts e (step * Z.to_nat max_concurrency + row)%nat else old) old.

Definition commit_row (e : SpeculativeEgress) (row : ResolveRow) : M Program unit :=
  let lane := rr_lane row in
  if rr_cancelled row then clear_lane lane else
  let! r := get_req lane in
  let! s := get_seq lane in
  let c := pending r in
  let committed := rr_accepted row in
  let frontier := base_E c + committed in
  do! mod_seq lane (fun s => set_ledger (ledger s ++ row_tokens e (rr_row row) committed) s);
  do! on_identity lane (append_generated (Z.to_nat committed) (sq_rope_delta s));
  do! mod_seq lane (set_execution_frontier frontier);
  do! mod_seq lane (set_ledger_frontier (base_S c + committed));
  do! mod_seq lane (set_text_kv_valid frontier);
  do! mod_seq lane (set_tail_hidden_valid true);
  do! (if bool_decide (speculative_backend = Mtp) then
         do! mod_seq lane (set_mtp_kv_valid frontier);
         if rr_terminal row then mod_seq lane (set_mtp_draft_count 0)
         else
           let next := u32 (next_extents e (rr_row row)) in
           do! mod_seq lane (set_mtp_draft_count next);
           mod_seq lane (fun s => set_mtp_drafts (next_round_drafts e (rr_row row) next (mtp_drafts s)) s)
       else mod_seq lane (set_dflash_context_frontier (if rr_terminal row then frontier else base_E c)));
  let! s := get_seq lane in
  do! trim_sequence_kv lane (text_kv_valid s) (backend_kv_valid s);
  do! (if rr_terminal row then
         do! retire_lane lane;
         mod_req lane (set_lifecycle Complete)
       else mod_req lane (set_lifecycle Active));
  mod_req lane (set_pending no_pending).

(** The device part of a speculative resolution. *)
Definition fold_batch (rows : list ResolveRow) (checked : list ((Z * Z) * Z * bool)) : M Program unit :=
  let! p := mget in
  do! issue (GdnReplayFold (checked.*1).*1);
  do! mwhen (existsb snd checked) (issue (SelectAcceptedHidden (checked.*1).*2));
  do! (if bool_decide (speculative_backend = DFlash) then
         match ending_rows p rows with
         | [] => mret_ tt
         | ending => enqueue_dflash_context_append ending
         end
       else mret_ tt);
  sync.

Definition resolve_pending_batch (lanes : list nat) (accepted : list Z) (terminal cancelled : list bool) : M Program unit :=
  do! mthrow_if (bool_decide (lanes = []) || (Z.of_nat (length lanes) >? max_concurrency) ||
                 negb (length accepted =? length lanes)%nat || negb (length terminal =? length lanes)%nat ||
                 negb (length cancelled =? length lanes)%nat) InvalidArgument;
  let rows := resolve_rows lanes accepted terminal cancelled in
  match speculative_backend with
  | NoSpeculation => miter resolve_ordinary_row rows
  | _ =>
      let! p := mget in
      let! checked := mlift (rmapM (check_speculative_row p) rows) in
      do! mtry (fold_batch rows checked) (fun e => do! try_sync; do! clear_lanes lanes; mthrow e);
      let! e := mgets host_egress in
      mtry (miter (commit_row e) rows) (fun e => do! clear_lanes lanes; mthrow e)
  end.
End Decode.
