(* ===== verification/ProgramLanes.v ===== *)
(** * Reasoning about one lane of the program

    An operation on a lane reads and writes the lane's sequence, its request, its two KV allocations
    and the device; [lwp] is the weakest precondition of such an operation in terms of the lane's view.
    It also says that the operation keeps the invariant of the KV store and leaves the other lanes
    alone. *)
From S2P Require Import Prelude Tensor Layout PagedKV PagedKVProofs PrefixIdentity VisionControl Admission Capacity Contract ProgramState RequestPlan Program ProgramDecode.
#[local] Open Scope Z_scope.

(** ** The store *)

(** The specifications of the pools do not change. *)
Definition same_specs (st st' : store) : Prop := forall q, spec_ <$> (st_pools st' !! q) = spec_ <$> (st_pools st !! q).
#[export] Instance same_specs_preorder : PreOrder same_specs.
Proof. split; [done|]. intros a b c H1 H2 q. by rewrite H2, H1. Qed.

(** A store operation keeps the invariant and the specifications. *)
Definition kv_safe {A} (m : M store A) : Prop :=
  forall st, store_inv st -> store_inv (m st).2 /\ same_specs st (m st).2.

Lemma kv_safe_bind {A B} (m : M store A) (k : A -> M store B) :
  kv_safe m -> (forall a, kv_safe (k a)) -> kv_safe (mbind_ m k).
Proof.
  intros Hm Hk st H. unfold mbind_. destruct (Hm st H) as [H1 H2].
  destruct (m st) as [[a|e] s1]; cbn in *; [|done]. destruct (Hk a s1 H1) as [H3 H4].
  split; [done|by etransitivity].
Qed.
Lemma kv_safe_ret {A} (a : A) : kv_safe (mret_ a). Proof. by intros st H. Qed.
Lemma kv_safe_lift {A} (r : result A) : kv_safe (mlift r). Proof. by intros st H. Qed.
Lemma kv_safe_get : kv_safe mget. Proof. by intros st H. Qed.
Lemma kv_safe_map {A B} (f : A -> M store B) l : Forall (fun x => kv_safe (f x)) l -> kv_safe (mmapM f l).
Proof.
  induction 1; cbn; [apply kv_safe_ret|]. repeat (apply kv_safe_bind; [done|intros ?]). apply kv_safe_ret.
Qed.

Lemma same_specs_insert st q p p' allocs mem : st_pools st !! q = Some p -> spec_ p' = spec_ p ->
  same_specs st (mkStore (<[q := p']> (st_pools st)) allocs mem).
Proof.
  intros Hq E q'. cbn. destruct (decide (q' = q)) as [->|]; [|by rewrite lookup_insert_ne].
  rewrite lookup_insert_eq, Hq. cbn. by rewrite E.
Qed.

Lemma kv_safe_on_alloc id (invalid : result unit) m : op_safe m -> kv_safe (on_alloc id invalid m).
Proof.
  intros Hm st Hst. split; [by apply on_alloc_safe|]. unfold on_alloc.
  destruct (st_allocs st !! id) as [a|] eqn:Ha; [|done]. destruct (pool_ a) as [q|] eqn:Hq; [|done].
  destruct (st_pools st !! q) as [p|] eqn:Hp; [|done].
  pose proof (store_focus _ _ _ _ _ Hst Ha Hq Hp) as Hf.
  destruct (m (mkFocus p a (st_mem st))) as [r f'] eqn:Hr. cbn.
  destruct (Hm _ _ _ _ Hf Hr) as (_ & [E1 _ _ _] & _). by eapply same_specs_insert.
Qed.

Lemma kv_safe_destroy id : kv_safe (st_destroy id).
Proof.
  intros st Hst. split; [by apply st_destroy_safe|]. unfold st_destroy, mbind_, mmodify, st_release, on_alloc.
  destruct (st_allocs st !! id) as [a|] eqn:Ha; [|done]. destruct (pool_ a) as [q|] eqn:Hq; [|done].
  destruct (st_pools st !! q) as [p|] eqn:Hp; [|done].
  destruct (release_spec _ _ (store_focus _ _ _ _ _ Hst Ha Hq Hp)) as (p' & Hr & _ & [E1 _ _ _]).
  rewrite Hr. cbn. by eapply same_specs_insert.
Qed.

Lemma kv_safe_reserve id q n : is_u32 n -> kv_safe (st_reserve id q n).
Proof.
  intros Hn st Hst. split; [by apply st_reserve_safe|]. unfold st_reserve, reserve, mbind_, mget, mthrow_if, mlift, mput, mret_.
  destruct (st_pools st !! q) as [p|] eqn:Hp; [|done]. destruct (st_allocs st !! id); [done|].
  destruct (can_reserve p n); cbn; by eapply same_specs_insert.
Qed.

(** A method of an allocation that succeeds. *)
Lemma on_alloc_run id (invalid : result unit) m st a q p f' :
  st_allocs st !! id = Some a -> pool_ a = Some q -> st_pools st !! q = Some p ->
  m (mkFocus p a (st_mem st)) = (Ok tt, f') ->
  on_alloc id invalid m st =
    (Ok tt, mkStore (<[q := f_pool f']> (st_pools st)) (<[id := f_alloc f']> (st_allocs st)) (f_mem f')).
Proof. intros Ha Hq Hp Hm. unfold on_alloc. by rewrite Ha, Hq, Hp, Hm. Qed.

(** The allocation [id] of [st] becomes [a']. *)
Record alloc_becomes (st : store) (id : Z) (a' : Alloc) (st' : store) : Prop := {
  ab_inv : store_inv st';
  ab_specs : same_specs st st';
  ab_allocs : st_allocs st' = <[id := a']> (st_allocs st);
}.

Section Alloc.
Context (st : store) (id q : Z) (a : Alloc) (p : Pool).
Context (Hst : store_inv st) (Ha : st_allocs st !! id = Some a) (Hq : pool_ a = Some q) (Hp : st_pools st !! q = Some p).

Lemma pool_facts : pool_core p (a :: allocs_in (delete id (st_allocs st)) q).
Proof. exact (pi_core _ _ _ (store_focus _ _ _ _ _ Hst Ha Hq Hp)). Qed.

Lemma alloc_facts : 0 <= mapped_page_count a <= page_entitlement_ a /\
  page_entitlement_ a <= logical_page_capacity (spec_ p) /\ -1 <= bound_row_ a < table_rows (spec_ p) /\
  logical_page_capacity (spec_ p) <= i32_max.
Proof.
  pose proof pool_facts as [[_ Hl _ _ _] _ _ _ _ _ Hall _ _ _]. apply Forall_cons in Hall as [[H1 H2 H3] _].
  unfold mapped_page_count in *. lia.
Qed.

Lemma becomes (invalid : result unit) m f' : op_safe m -> m (mkFocus p a (st_mem st)) = (Ok tt, f') ->
  exists st', on_alloc id invalid m st = (Ok tt, st') /\ alloc_becomes st id (f_alloc f') st'.
Proof.
  intros Hs Hm. pose proof (on_alloc_run id invalid m st a q p f' Ha Hq Hp Hm) as Hr. eexists. split; [exact Hr|].
  destruct (kv_safe_on_alloc id invalid m Hs st Hst) as [H1 H2]. rewrite Hr in H1, H2. by constructor.
Qed.

Lemma run_materialize pages : mapped_page_count a <= pages <= page_entitlement_ a ->
  exists st' acquired, st_materialize_pages id pages st = (Ok tt, st') /\
    alloc_becomes st id (with_pages a (page_ids_ a ++ acquired)) st' /\
    Z.of_nat (length (page_ids_ a ++ acquired)) = pages.
Proof.
  intros Hr. pose proof (store_focus _ _ _ _ _ Hst Ha Hq Hp) as Hf.
  destruct (materialize_pages_spec _ _ _ Hf Hr) as (f' & acq & Hm & _ & _ & E & Hlen).
  destruct (becomes (Err InvalidArgument) _ _ (materialize_pages_safe pages) Hm) as (st' & H1 & H2).
  exists st', acq. rewrite E in H2. split_and!; [done|done|].
  unfold mapped_page_count in Hlen. by rewrite E in Hlen.
Qed.

Lemma run_trim pages : 0 <= pages <= mapped_page_count a ->
  exists st', st_trim_pages id pages st = (Ok tt, st') /\
    alloc_becomes st id (with_pages a (take (Z.to_nat pages) (page_ids_ a))) st'.
Proof.
  intros Hr. assert (exists f', trim_pages pages (mkFocus p a (st_mem st)) = (Ok tt, f') /\
    f_alloc f' = with_pages a (take (Z.to_nat pages) (page_ids_ a))) as (f' & Hm & E).
  { unfold trim_pages, f_set_pool, f_set_alloc, mthrow_if, mbind_, mgets, mlift, mmodify, mret_. cbn.
    destruct (Z.gtb_spec pages (mapped_page_count a)); [lia|]. cbn.
    destruct (Z.eqb_spec pages (mapped_page_count a)) as [Heq|]; eexists; split; try reflexivity. cbn.
    unfold mapped_page_count in Heq. rewrite take_ge by lia. by destruct a. }
  destruct (becomes (Err LogicError) _ _ (trim_pages_safe pages ltac:(lia)) Hm) as (st' & H1 & H2).
  exists st'. by rewrite E in H2.
Qed.

Lemma run_trim_fail pages : mapped_page_count a < pages ->
  st_trim_pages id pages st = (Err InvalidArgument, st).
Proof.
  intros Hr. unfold st_trim_pages, on_alloc. rewrite Ha, Hq, Hp.
  unfold trim_pages, mthrow_if, mbind_, mgets, mlift. cbn. destruct (Z.gtb_spec pages (mapped_page_count a)); [|lia].
  cbn. rewrite !insert_id by done. by destruct st.
Qed.

Lemma run_materialize_fail pages : ~ mapped_page_count a <= pages <= page_entitlement_ a ->
  st_materialize_pages id pages st = (Err InvalidArgument, st).
Proof.
  intros Hr. unfold st_materialize_pages, on_alloc. rewrite Ha, Hq, Hp.
  unfold materialize_pages, mthrow_if, mbind_, mgets, mlift. cbn.
  destruct (Z.ltb_spec pages (mapped_page_count a)), (Z.gtb_spec pages (page_entitlement_ a)); try lia;
    cbn; rewrite !insert_id by done; by destruct st.
Qed.

Lemma run_cancel : exists st', st_cancel_unmapped_entitlement id st = (Ok tt, st') /\
  alloc_becomes st id (with_entitlement a (mapped_page_count a)) st'.
Proof.
  assert (exists f', cancel_unmapped_entitlement (mkFocus p a (st_mem st)) = (Ok tt, f') /\
    f_alloc f' = with_entitlement a (mapped_page_count a)) as (f' & Hm & E)
    by (unfold cancel_unmapped_entitlement, mbind_, mgets; cbn; eexists; split; reflexivity).
  destruct (becomes (Ok tt) _ _ cancel_unmapped_entitlement_safe Hm) as (st' & H1 & H2).
  exists st'. by rewrite E in H2.
Qed.

Lemma run_unbind : exists st', st_unbind_row id st = (Ok tt, st') /\ alloc_becomes st id (with_row a (-1)) st'.
Proof.
  destruct (unbind_row_spec _ _ (store_focus _ _ _ _ _ Hst Ha Hq Hp)) as (p' & Hm & _).
  by apply (becomes (Ok tt) _ _ unbind_row_safe Hm).
Qed.

Lemma run_bind row : bound_row_ a < 0 -> 0 <= row < table_rows (spec_ p) ->
  (forall id' a', st_allocs st !! id' = Some a' -> pool_ a' = Some q -> bound_row_ a' <> row) ->
  exists st', st_bind_row id row st = (Ok tt, st') /\ alloc_becomes st id (with_row a row) st'.
Proof.
  intros Hb Hr Hfree. pose proof pool_facts as [_ _ _ _ _ _ _ Hlen Hrows _].
  assert (Hu : row_in_use_ p !!! Z.to_nat row = false).
  { destruct (row_in_use_ p !!! Z.to_nat row) eqn:E; [|done]. exfalso.
    assert (row_in_use_ p !! Z.to_nat row = Some true) as E'.
    { rewrite <- E. apply list_lookup_lookup_total_lt. lia. }
    apply Hrows in E'; [|lia]. rewrite bound_rows_cons, decide_False in E' by lia.
    unfold bound_rows in E'. apply list_elem_of_filter in E' as [_ E'].
    apply list_elem_of_fmap in E' as (a' & -> & Hin). unfold allocs_in in Hin.
    apply list_elem_of_filter in Hin as [Hq' Hin]. apply list_elem_of_fmap in Hin as ([id' a2] & -> & Hin).
    apply elem_of_map_to_list, lookup_delete_Some in Hin as [_ Hin]. by apply (Hfree id' a2). }
  destruct (bind_row_spec _ _ row (store_focus _ _ _ _ _ Hst Ha Hq Hp) Hb Hr Hu) as (f' & Hm & _ & _ & E).
  destruct (becomes (Err LogicError) _ _ (bind_row_safe row) Hm) as (st' & H1 & H2). exists st'. by rewrite E in H2.
Qed.

Lemma run_destroy : exists st', st_destroy id st = (Ok tt, st') /\ store_inv st' /\ same_specs st st' /\
  st_allocs st' = delete id (st_allocs st).
Proof.
  destruct (release_spec _ _ (store_focus _ _ _ _ _ Hst Ha Hq Hp)) as (p' & Hr & _ & _).
  pose proof (on_alloc_run id (Ok tt) release st a q p _ Ha Hq Hp Hr) as Hrun. cbn in Hrun.
  destruct (kv_safe_destroy id st Hst) as [H1 H2].
  unfold st_destroy, st_release, mbind_, mmodify in *. rewrite Hrun in *. cbn in *.
  eexists. split_and!; [reflexivity|done|done|]. cbn. by rewrite delete_insert_eq.
Qed.
End Alloc.

(** ** Laws *)

(** What the startup code establishes about the configuration ([plan_sequence], the constructor). *)
Class ProgramConfigLaws `{CF : ProgramConfig} : Prop := {
  cl_capacity : 0 < capacity < i32_max;
  cl_concurrency : 0 < max_concurrency <= Z.of_nat kMaximumConcurrency;
  cl_chunk : 0 < prefill_chunk;
  cl_window : match speculative_backend with
              | NoSpeculation => draft_window = 0
              | Mtp => 0 < draft_window <= Z.of_nat kMtpDecodeMaximumDrafts
              | DFlash => 0 < draft_window <= 15
              end;
  cl_mtp : speculative_backend = Mtp -> is_some mtp_cache = true;
  cl_dflash : speculative_backend = DFlash <-> is_some dflash_full = true;
  cl_pools : backend_kv_cache <> Some text_pool;
}.

(** The device reports failures by exceptions; a chunk's counts are unsigned and the items a session
    encodes are items of the prompt. *)
Class DeviceLaws `{DV : Device} : Prop := {
  dl_enqueue : forall c d, (enqueue c d).1 <> Err Abort_;
  dl_synchronize : forall d, (synchronize d).1 <> Err Abort_;
  dl_chunk : forall context prompt multimodal nominal capture final d r d',
    prefill_chunk_schedule context prompt multimodal nominal capture final d = (r, d') ->
    match r with
    | Ok c => 0 <= processed_tokens c /\ Forall (fun i => 0 <= i < Z.of_nat (length (media_payloads prompt))) (encoded_items c)
    | Err e => e <> Abort_
    end;
}.

Section Lanes.
Context `{CF : ProgramConfig, DV : Device}.
Context `{CL : !ProgramConfigLaws, DL : !DeviceLaws}.

(** ** The invariant of the store *)

(** A pool made for sequences of [capacity] tokens and one table row per lane. *)
Definition pool_fits (P : Pool) : Prop :=
  logical_page_capacity (spec_ P) = PagedKV.pages_for_tokens capacity /\ table_rows (spec_ P) = max_concurrency.

Definition has_pool (st : store) (q : Z) : Prop := exists P, st_pools st !! q = Some P /\ pool_fits P.

(** Every allocation is a member of the bundle of a lane, and is bound to no row but the lane's. *)
Definition alloc_place (id : Z) (a : Alloc) : Prop := exists lane, (lane < kMaximumConcurrency)%nat /\
  (bound_row_ a = -1 \/ bound_row_ a = Z.of_nat lane) /\
  ((id = text_address lane /\ pool_ a = Some text_pool) \/
   (id = backend_address lane /\ exists q, backend_kv_cache = Some q /\ pool_ a = Some q)).

Record base_inv (p : Program) : Prop := {
  bi_store : store_inv (pg_kv p);
  bi_sequences : length (sequences p) = kMaximumConcurrency;
  bi_requests : length (requests p) = kMaximumConcurrency;
  bi_text : has_pool (pg_kv p) text_pool;
  bi_backend : forall q, backend_kv_cache = Some q -> has_pool (pg_kv p) q;
  bi_places : forall id a, st_allocs (pg_kv p) !! id = Some a -> alloc_place id a;
}.

(** ** The view of a lane *)

Record LaneView : Type := mkView {
  lv_seq : SequenceState; lv_req : RequestControl; lv_text : option Alloc; lv_backend : option Alloc;
}.

Definition view (p : Program) (lane : nat) : LaneView :=
  mkView (sequences p !!! lane) (requests p !!! lane)
    (st_allocs (pg_kv p) !! text_address lane) (st_allocs (pg_kv p) !! backend_address lane).

Definition with_seq (f : SequenceState -> SequenceState) (v : LaneView) : LaneView :=
  mkView (f (lv_seq v)) (lv_req v) (lv_text v) (lv_backend v).
Definition with_req (f : RequestControl -> RequestControl) (v : LaneView) : LaneView :=
  mkView (lv_seq v) (f (lv_req v)) (lv_text v) (lv_backend v).
Definition with_text (a : option Alloc) (v : LaneView) : LaneView := mkView (lv_seq v) (lv_req v) a (lv_backend v).
Definition with_backend (a : option Alloc) (v : LaneView) : LaneView := mkView (lv_seq v) (lv_req v) (lv_text v) a.

(** The allocations of the other lanes. *)
Definition others (st : store) (lane : nat) : gmap Z Alloc :=
  delete (backend_address lane) (delete (text_address lane) (st_allocs st)).

(** What an operation on a lane leaves alone. *)
Record frame (lane : nat) (p p' : Program) : Prop := {
  fm_base : base_inv p';
  fm_others : others (pg_kv p') lane = others (pg_kv p) lane;
  fm_specs : same_specs (pg_kv p) (pg_kv p');
  fm_sequences : forall l, l <> lane -> sequences p' !!! l = sequences p !!! l;
  fm_requests : forall l, l <> lane -> requests p' !!! l = requests p !!! l;
  fm_graphs : forall name, graph_family name p' = graph_family name p;
  fm_egress : host_egress p' = host_egress p;
}.

Lemma lane_frame_refl lane p : base_inv p -> frame lane p p.
Proof. by constructor. Qed.
Lemma lane_frame_trans lane p1 p2 p3 : frame lane p1 p2 -> frame lane p2 p3 -> frame lane p1 p3.
Proof.
  intros [A1 A2 A3 A4 A5 A6 A7] [B1 B2 B3 B4 B5 B6 B7]. constructor; [done|congruence|by etransitivity| | | |congruence].
  - intros l Hl. by rewrite B4, A4.
  - intros l Hl. by rewrite B5, A5.
  - intros name. by rewrite B6, A6.
Qed.

Lemma text_address_ne l l' : l <> l' -> text_address l <> text_address l'.
Proof. unfold text_address. lia. Qed.
Lemma backend_address_ne l l' : l <> l' -> backend_address l <> backend_address l'.
Proof. unfold backend_address. lia. Qed.
Lemma text_backend_ne l l' : text_address l <> backend_address l'.
Proof. unfold text_address, backend_address. lia. Qed.

(** The other lanes do not see the operation. *)
Lemma lane_frame_view lane p p' l : frame lane p p' -> l <> lane -> view p' l = view p l.
Proof.
  intros [_ Ho _ H1 H2 _ _] Hl. unfold view. rewrite H1, H2 by done.
  assert (forall id, id <> text_address lane -> id <> backend_address lane ->
    st_allocs (pg_kv p') !! id = st_allocs (pg_kv p) !! id) as Hlk.
  { intros id N1 N2. apply (f_equal (lookup id)) in Ho. unfold others in Ho. by rewrite !lookup_delete_ne in Ho. }
  rewrite !Hlk; [done|..].
  - apply not_eq_sym, text_backend_ne.
  - by apply backend_address_ne.
  - by apply text_address_ne.
  - apply text_backend_ne.
Qed.

(** ** Weakest preconditions of lane operations *)

Definition lwp {A} (lane : nat) (m : M Program A) (Q : A -> LaneView -> Prop) (E : exn -> LaneView -> Prop) (v : LaneView) : Prop :=
  forall p, base_inv p -> view p lane = v ->
    wp m (fun a p' => frame lane p p' /\ Q a (view p' lane)) (fun e p' => frame lane p p' /\ E e (view p' lane)) p.

Lemma lwp_elim {A} lane (m : M Program A) (Q : A -> LaneView -> Prop) (E : exn -> LaneView -> Prop) v p :
  lwp lane m Q E v -> base_inv p -> view p lane = v ->
  wp m (fun a p' => frame lane p p' /\ Q a (view p' lane)) (fun e p' => frame lane p p' /\ E e (view p' lane)) p.
Proof. intros H Hp Hv. exact (H p Hp Hv). Qed.

Section Rules.
Context (lane : nat) (Hlane : (lane < kMaximumConcurrency)%nat).
Implicit Types (E : exn -> LaneView -> Prop) (v : LaneView).

Lemma lwp_ret {A} (a : A) (Q : A -> LaneView -> Prop) E v : Q a v -> lwp lane (mret_ a) Q E v.
Proof. intros H p Hp <-. apply wp_ret. split; [by apply lane_frame_refl|done]. Qed.
Lemma lwp_throw {A} e (Q : A -> LaneView -> Prop) E v : E e v -> lwp lane (mthrow e) Q E v.
Proof. intros H p Hp <-. apply wp_throw. split; [by apply lane_frame_refl|done]. Qed.
Lemma lwp_bind {A B} (m : M Program A) (k : A -> M Program B) (Q : B -> LaneView -> Prop) E v :
  lwp lane m (fun a v' => lwp lane (k a) Q E v') E v -> lwp lane (mbind_ m k) Q E v.
Proof.
  intros H p Hp Hv. apply wp_bind. eapply wp_mono; [exact (H p Hp Hv)| |done]. cbn.
  intros a p1 [F1 H1]. eapply wp_mono; [exact (H1 p1 (fm_base _ _ _ F1) eq_refl)|..]; cbn.
  - intros b p2 [F2 H2]. split; [by eapply lane_frame_trans|done].
  - intros e p2 [F2 H2]. split; [by eapply lane_frame_trans|done].
Qed.
Lemma lwp_mono {A} (m : M Program A) (Q Q' : A -> LaneView -> Prop) E E' v :
  lwp lane m Q E v -> (forall a v', Q a v' -> Q' a v') -> (forall e v', E e v' -> E' e v') -> lwp lane m Q' E' v.
Proof.
  intros H HQ HE p Hp Hv. eapply wp_mono; [exact (H p Hp Hv)|..]; cbn; intros ? ? [? ?]; split; auto.
Qed.
Lemma lwp_throw_if (b : bool) e (Q : unit -> LaneView -> Prop) E v :
  (b = true -> E e v) -> (b = false -> Q tt v) -> lwp lane (mthrow_if b e) Q E v.
Proof. intros H1 H2. unfold mthrow_if, throw_if. destruct b; [by apply lwp_throw, H1|by apply lwp_ret, H2]. Qed.
Lemma lwp_lift {A} (r : result A) (Q : A -> LaneView -> Prop) E v :
  (forall a, r = Ok a -> Q a v) -> (forall e, r = Err e -> E e v) -> lwp lane (mlift r) Q E v.
Proof. intros H1 H2. destruct r; [by apply lwp_ret, H1|by apply lwp_throw, H2]. Qed.
Lemma lwp_deref {A} (o : option A) (Q : A -> LaneView -> Prop) E v :
  (forall a, o = Some a -> Q a v) -> (o = None -> E Abort_ v) -> lwp lane (mderef o) Q E v.
Proof. intros H1 H2. destruct o; [by apply lwp_ret, H1|by apply lwp_throw, H2]. Qed.
Lemma lwp_when (c : bool) m (Q : unit -> LaneView -> Prop) E v :
  (c = true -> lwp lane m Q E v) -> (c = false -> Q tt v) -> lwp lane (mwhen c m) Q E v.
Proof. intros H1 H2. unfold mwhen. destruct c; [by apply H1|by apply lwp_ret, H2]. Qed.
Lemma lwp_try {A} (m : M Program A) h (Q : A -> LaneView -> Prop) E v :
  lwp lane m Q (fun e v' => e <> Abort_ /\ lwp lane (h e) Q E v') v -> lwp lane (mtry m h) Q E v.
Proof.
  intros H p Hp Hv. apply wp_try. eapply wp_mono; [exact (H p Hp Hv)|done|]. cbn.
  intros e p1 [F1 [H1 H2]]. split; [done|]. intros _.
  eapply wp_mono; [exact (H2 p1 (fm_base _ _ _ F1) eq_refl)|..]; cbn.
  - intros b p2 [F2 H3]. split; [by eapply lane_frame_trans|done].
  - intros e2 p2 [F2 H3]. split; [by eapply lane_frame_trans|done].
Qed.

Lemma lwp_get_seq (Q : SequenceState -> LaneView -> Prop) E v : Q (lv_seq v) v -> lwp lane (get_seq lane) Q E v.
Proof. intros H p Hp <-. apply wp_gets. split; [by apply lane_frame_refl|done]. Qed.
Lemma lwp_get_req (Q : RequestControl -> LaneView -> Prop) E v : Q (lv_req v) v -> lwp lane (get_req lane) Q E v.
Proof. intros H p Hp <-. apply wp_gets. split; [by apply lane_frame_refl|done]. Qed.
Lemma lwp_get (Q : Program -> LaneView -> Prop) E v :
  (forall p, base_inv p -> view p lane = v -> Q p v) -> lwp lane mget Q E v.
Proof. intros H p Hp Hv. apply wp_get. rewrite Hv. split; [by apply lane_frame_refl|by apply H]. Qed.
Lemma lwp_gets {A} (f : Program -> A) (Q : A -> LaneView -> Prop) E v :
  (forall p, base_inv p -> view p lane = v -> Q (f p) v) -> lwp lane (mgets f) Q E v.
Proof. intros H p Hp Hv. apply wp_gets. rewrite Hv. split; [by apply lane_frame_refl|by apply H]. Qed.

Lemma base_set_sequences p s : base_inv p -> length s = kMaximumConcurrency -> base_inv (set_sequences s p).
Proof. intros [] ?. by constructor. Qed.
Lemma base_set_requests p s : base_inv p -> length s = kMaximumConcurrency -> base_inv (set_requests s p).
Proof. intros [] ?. by constructor. Qed.

Lemma lwp_mod_seq f (Q : unit -> LaneView -> Prop) E v : Q tt (with_seq f v) -> lwp lane (mod_seq lane f) Q E v.
Proof.
  intros H p Hp <-. apply wp_modify. pose proof (bi_sequences _ Hp) as Hl. split.
  - constructor; try done; cbn.
    + apply base_set_sequences; [done|]. by rewrite length_insert.
    + intros l Hne. by rewrite list_lookup_total_insert_ne by congruence.
  - unfold view. cbn. rewrite list_lookup_total_insert_eq by lia. exact H.
Qed.
Lemma lwp_mod_req f (Q : unit -> LaneView -> Prop) E v : Q tt (with_req f v) -> lwp lane (mod_req lane f) Q E v.
Proof.
  intros H p Hp <-. apply wp_modify. pose proof (bi_requests _ Hp) as Hl. split.
  - constructor; try done; cbn.
    + apply base_set_requests; [done|]. by rewrite length_insert.
    + intros l Hne. by rewrite list_lookup_total_insert_ne by congruence.
  - unfold view. cbn. rewrite list_lookup_total_insert_eq by lia. exact H.
Qed.

Lemma frame_dev p d : base_inv p -> frame lane p (set_pg_dev d p).
Proof. intros [A1 A2 A3 A4 A5 A6]. by constructor. Qed.

Lemma lwp_on_dev {A} (m : M dev A) (Q : A -> LaneView -> Prop) E v :
  (forall d a d', m d = (Ok a, d') -> Q a v) -> (forall d e d', m d = (Err e, d') -> E e v) -> lwp lane (on_dev m) Q E v.
Proof.
  intros H1 H2 p Hp <-. unfold wp, on_dev. destruct (m (pg_dev p)) as [[a|e] d'] eqn:Em.
  - split; [by apply frame_dev|]. by eapply H1.
  - split; [by apply frame_dev|]. by eapply H2.
Qed.

Lemma lwp_issue c (Q : unit -> LaneView -> Prop) E v :
  Q tt v -> (forall e, e <> Abort_ -> E e v) -> lwp lane (issue c) Q E v.
Proof.
  intros H1 H2. apply lwp_on_dev; [by intros ? [] ? _|]. intros d e d' He. apply H2. intros ->.
  pose proof (dl_enqueue c d) as H. by rewrite He in H.
Qed.
Lemma lwp_sync (Q : unit -> LaneView -> Prop) E v :
  Q tt v -> (forall e, e <> Abort_ -> E e v) -> lwp lane sync Q E v.
Proof.
  intros H1 H2. apply lwp_on_dev; [by intros ? [] ? _|]. intros d e d' He. apply H2. intros ->.
  pose proof (dl_synchronize d) as H. by rewrite He in H.
Qed.
Lemma lwp_try_sync (Q : unit -> LaneView -> Prop) E v : Q tt v -> lwp lane try_sync Q E v.
Proof. intros H. apply lwp_try, lwp_sync; [done|]. intros e He. split; [done|by apply lwp_ret]. Qed.

Lemma lwp_on_identity m (Q : unit -> LaneView -> Prop) E v :
  (forall i, m (prefix_identity (lv_seq v)) = (Ok tt, i) -> Q tt (with_seq (set_prefix_identity i) v)) ->
  (forall e i, m (prefix_identity (lv_seq v)) = (Err e, i) -> E e (with_seq (set_prefix_identity i) v)) ->
  lwp lane (on_identity lane m) Q E v.
Proof.
  intros H1 H2 p Hp Hv. unfold wp, on_identity.
  assert (Hs : prefix_identity (sequences p !!! lane) = prefix_identity (lv_seq v)) by by rewrite <- Hv.
  rewrite Hs. destruct (m (prefix_identity (lv_seq v))) as [r i] eqn:Em.
  assert (frame lane p (set_sequences (<[lane := set_prefix_identity i (sequences p !!! lane)]> (sequences p)) p) /\
    view (set_sequences (<[lane := set_prefix_identity i (sequences p !!! lane)]> (sequences p)) p) lane =
    with_seq (set_prefix_identity i) v) as [F Hview].
  { pose proof (lwp_mod_seq (set_prefix_identity i) (fun _ v' => v' = with_seq (set_prefix_identity i) v) (fun _ _ => False) v eq_refl p Hp Hv) as H.
    exact H. }
  destruct r as [[]|e]; (split; [done|]); rewrite Hview; [by apply H1|by apply H2].
Qed.

(** ** The allocations of the lane *)

Inductive Member : Set := TextKV | BackendKV.
Definition member_id (m : Member) : Z := match m with TextKV => text_address lane | BackendKV => backend_address lane end.
Definition member_pool (m : Member) : option Z := match m with TextKV => Some text_pool | BackendKV => backend_kv_cache end.
Definition member_of (v : LaneView) (m : Member) : option Alloc := match m with TextKV => lv_text v | BackendKV => lv_backend v end.
Definition set_member (m : Member) (a : option Alloc) (v : LaneView) : LaneView :=
  match m with TextKV => with_text a v | BackendKV => with_backend a v end.

Definition row_ok (a : Alloc) : Prop := bound_row_ a = -1 \/ bound_row_ a = Z.of_nat lane.

Lemma member_view p m : member_of (view p lane) m = st_allocs (pg_kv p) !! member_id m.
Proof. by destruct m. Qed.
Lemma member_id_inj m m' : member_id m = member_id m' -> m = m'.
Proof. clear Hlane. unfold member_id, text_address, backend_address. destruct m, m'; (done || lia). Qed.

Lemma member_has_pool p m q : base_inv p -> member_pool m = Some q -> has_pool (pg_kv p) q.
Proof. intros Hp. destruct m; cbn; [intros [= <-]; apply Hp|by apply Hp]. Qed.

Lemma member_place p m a : base_inv p -> member_of (view p lane) m = Some a ->
  row_ok a /\ exists q, member_pool m = Some q /\ pool_ a = Some q.
Proof.
  intros Hp Ha. rewrite member_view in Ha. destruct (bi_places _ Hp _ _ Ha) as (l & Hl & Hb & H).
  assert (l = lane) as ->.
  { unfold member_id, text_address, backend_address in H. destruct m, H as [[? _]|[? _]]; lia. }
  split; [done|]. destruct m, H as [[H1 H2]|[H1 H2]]; cbn in *; try (unfold text_address, backend_address in H1; lia); eauto.
Qed.

(** What the store invariant says about a member. *)
Record member_facts (m : Member) (a : Alloc) : Prop := {
  mf_pool : exists q, member_pool m = Some q /\ pool_ a = Some q;
  mf_mapped : 0 <= mapped_page_count a <= page_entitlement_ a;
  mf_entitled : page_entitlement_ a <= PagedKV.pages_for_tokens capacity;
  mf_row : row_ok a;
}.

Lemma base_member_facts p m a : base_inv p -> member_of (view p lane) m = Some a -> member_facts m a.
Proof.
  intros Hp Ha. destruct (member_place _ _ _ Hp Ha) as (Hb & q & Hm & Hq).
  destruct (member_has_pool _ _ _ Hp Hm) as (P & HP & Hf1 & Hf2). rewrite member_view in Ha.
  destruct (alloc_facts _ _ _ _ _ (bi_store _ Hp) Ha Hq HP) as (? & ? & _). constructor; eauto; lia.
Qed.

Lemma lwp_facts {A} (m : M Program A) (Q : A -> LaneView -> Prop) E v :
  ((forall mb a, member_of v mb = Some a -> member_facts mb a) -> lwp lane m Q E v) -> lwp lane m Q E v.
Proof. intros H p Hp <-. apply H; [|done|done]. intros mb a. by apply base_member_facts. Qed.

(** A change of the lane's own allocations. *)
Lemma frame_kv p st' : base_inv p -> store_inv st' -> same_specs (pg_kv p) st' ->
  others st' lane = others (pg_kv p) lane ->
  (forall m a, st_allocs st' !! member_id m = Some a -> row_ok a /\ exists q, member_pool m = Some q /\ pool_ a = Some q) ->
  frame lane p (set_pg_kv st' p).
Proof.
  intros Hp Hst Hsp Ho Hm.
  assert (Hpool : forall q, has_pool (pg_kv p) q -> has_pool st' q).
  { intros q (P & HP & Hf). specialize (Hsp q). rewrite HP in Hsp. cbn in Hsp.
    destruct (st_pools st' !! q) as [P'|] eqn:E'; cbn in Hsp; [|done]. injection Hsp as Hsp.
    exists P'. split; [done|]. unfold pool_fits. by rewrite Hsp. }
  constructor; try done. destruct Hp as [A1 A2 A3 A4 A5 A6].
  constructor; cbn; try done; [by apply Hpool|by intros q Hq; apply Hpool, A5|].
  intros id a Ha. destruct (decide (id = member_id TextKV)) as [->|N1].
  { destruct (Hm TextKV _ Ha) as (? & q & Hq1 & Hq2). cbn in Hq1. injection Hq1 as <-. exists lane. eauto 10. }
  destruct (decide (id = member_id BackendKV)) as [->|N2].
  { destruct (Hm BackendKV _ Ha) as (? & q & Hq1 & Hq2). exists lane. eauto 10. }
  apply (A6 id). apply (f_equal (lookup id)) in Ho. unfold others in Ho. cbn in N1, N2.
  by rewrite !lookup_delete_ne, Ha in Ho by done.
Qed.

Lemma others_insert st m a st' : st_allocs st' = <[member_id m := a]> (st_allocs st) -> others st' lane = others st lane.
Proof.
  intros E. unfold others. rewrite E. destruct m; cbn.
  - by rewrite delete_insert_eq.
  - rewrite delete_insert_ne by apply text_backend_ne. by rewrite delete_insert_eq.
Qed.
Lemma others_delete st m st' : st_allocs st' = delete (member_id m) (st_allocs st) -> others st' lane = others st lane.
Proof.
  intros E. unfold others. rewrite E. apply map_eq. intros id. rewrite !lookup_delete. destruct m; cbn; repeat case_decide; done.
Qed.

Lemma frame_becomes p m a st' : base_inv p -> alloc_becomes (pg_kv p) (member_id m) a st' -> row_ok a ->
  (exists q, member_pool m = Some q /\ pool_ a = Some q) ->
  frame lane p (set_pg_kv st' p) /\ view (set_pg_kv st' p) lane = set_member m (Some a) (view p lane).
Proof.
  intros Hp [H1 H2 H3] Hr Hq. split.
  - apply frame_kv; try done; [by eapply others_insert|]. intros m' a'. rewrite H3, lookup_insert.
    case_decide as E; [apply member_id_inj in E as <-; by intros [= <-]|].
    rewrite <- member_view. by apply member_place.
  - unfold view. cbn. rewrite H3, !lookup_insert. unfold member_id. destruct m; cbn; repeat case_decide; try done;
      unfold text_address, backend_address in *; lia.
Qed.

(** A method of a member that succeeds, or fails and changes nothing. *)
Lemma lwp_member m (op : M store unit) (Q : unit -> LaneView -> Prop) E v a :
  member_of v m = Some a ->
  (forall p q P, base_inv p -> view p lane = v -> member_pool m = Some q -> st_pools (pg_kv p) !! q = Some P -> pool_fits P ->
     pool_ a = Some q -> st_allocs (pg_kv p) !! member_id m = Some a ->
     (exists a' st', op (pg_kv p) = (Ok tt, st') /\ alloc_becomes (pg_kv p) (member_id m) a' st' /\
        pool_ a' = pool_ a /\ row_ok a' /\ Q tt (set_member m (Some a') v)) \/
     (exists e, op (pg_kv p) = (Err e, pg_kv p) /\ E e v)) ->
  lwp lane (on_kv op) Q E v.
Proof.
  intros Ha H p Hp Hv. subst v. destruct (member_place _ _ _ Hp Ha) as (_ & q & Hm & Hq).
  destruct (member_has_pool _ _ _ Hp Hm) as (P & HP & Hf).
  unfold wp, on_kv. destruct (H p q P) as [(a' & st' & Ho & Hb & Hq' & Hr & HQ)|(e & Ho & HE)]; try done.
  - by rewrite <- member_view.
  - rewrite Ho. destruct (frame_becomes _ _ _ _ Hp Hb Hr) as [F ->]; [|done]. exists q. by rewrite Hq'.
  - rewrite Ho. assert (set_pg_kv (pg_kv p) p = p) as -> by by destruct p. split; [by apply lane_frame_refl|done].
Qed.

Section MemberRules.
Context (m : Member) (a : Alloc) (v : LaneView) (Q : unit -> LaneView -> Prop) (E : exn -> LaneView -> Prop).
Context (Ha : member_of v m = Some a).

Lemma lwp_trim pages : 0 <= pages ->
  (pages <= mapped_page_count a -> Q tt (set_member m (Some (with_pages a (take (Z.to_nat pages) (page_ids_ a)))) v)) ->
  (mapped_page_count a < pages -> E InvalidArgument v) ->
  lwp lane (on_kv (st_trim_pages (member_id m) pages)) Q E v.
Proof.
  intros H0 H1 H2. eapply lwp_member; [exact Ha|]. intros p q P Hp Hv Hm HP Hf Hq Hl.
  pose proof (base_member_facts p m a Hp ltac:(by rewrite Hv)) as [_ _ _ Hr].
  destruct (decide (pages <= mapped_page_count a)) as [Hle|Hgt].
  - left. destruct (run_trim _ _ _ _ _ (bi_store _ Hp) Hl Hq HP pages (conj H0 Hle)) as (st' & ? & ?). eauto 10.
  - right. exists InvalidArgument. split; [|apply H2; lia]. apply (run_trim_fail _ _ _ _ _ (bi_store _ Hp) Hl Hq HP); lia.
Qed.

Lemma lwp_materialize pages :
  (mapped_page_count a <= pages <= page_entitlement_ a -> forall acquired,
     Z.of_nat (length (page_ids_ a ++ acquired)) = pages ->
     Q tt (set_member m (Some (with_pages a (page_ids_ a ++ acquired))) v)) ->
  (~ mapped_page_count a <= pages <= page_entitlement_ a -> E InvalidArgument v) ->
  lwp lane (on_kv (st_materialize_pages (member_id m) pages)) Q E v.
Proof.
  intros H1 H2. eapply lwp_member; [exact Ha|]. intros p q P Hp Hv Hm HP Hf Hq Hl.
  pose proof (base_member_facts p m a Hp ltac:(by rewrite Hv)) as [_ _ _ Hr].
  destruct (decide (mapped_page_count a <= pages <= page_entitlement_ a)) as [Hle|Hgt].
  - left. destruct (run_materialize _ _ _ _ _ (bi_store _ Hp) Hl Hq HP pages Hle) as (st' & acq & ? & ? & ?).
    eexists _, st'. split_and!; eauto.
  - right. exists InvalidArgument. split; [|by apply H2]. by apply (run_materialize_fail _ _ _ _ _ (bi_store _ Hp) Hl Hq HP).
Qed.

Lemma lwp_cancel : Q tt (set_member m (Some (with_entitlement a (mapped_page_count a))) v) ->
  lwp lane (on_kv (st_cancel_unmapped_entitlement (member_id m))) Q E v.
Proof.
  intros H1. eapply lwp_member; [exact Ha|]. intros p q P Hp Hv Hm HP Hf Hq Hl. left.
  pose proof (base_member_facts p m a Hp ltac:(by rewrite Hv)) as [_ _ _ Hr].
  destruct (run_cancel _ _ _ _ _ (bi_store _ Hp) Hl Hq HP) as (st' & ? & ?). eauto 10.
Qed.

Lemma lwp_unbind : Q tt (set_member m (Some (with_row a (-1))) v) ->
  lwp lane (on_kv (st_unbind_row (member_id m))) Q E v.
Proof.
  intros H1. eapply lwp_member; [exact Ha|]. intros p q P Hp Hv Hm HP Hf Hq Hl. left.
  destruct (run_unbind _ _ _ _ _ (bi_store _ Hp) Hl Hq HP) as (st' & ? & ?).
  eexists _, st'. split_and!; [done|done|done|by left|done].
Qed.

Lemma lwp_bind_row : lane_in_range lane = true -> bound_row_ a = -1 ->
  Q tt (set_member m (Some (with_row a (Z.of_nat lane))) v) ->
  lwp lane (on_kv (st_bind_row (member_id m) (Z.of_nat lane))) Q E v.
Proof.
  intros Hr Hb H1. eapply lwp_member; [exact Ha|]. intros p q P Hp Hv Hm HP [Hf1 Hf2] Hq Hl. left.
  destruct (run_bind _ _ _ _ _ (bi_store _ Hp) Hl Hq HP (Z.of_nat lane)) as (st' & ? & ?); [lia| | |].
  - unfold lane_in_range in Hr. lia.
  - intros id' a' Ha' Hq' Hb'. destruct (bi_places _ Hp _ _ Ha') as (l & _ & Hrow & Hid).
    assert (l = lane) as -> by lia. assert (id' = member_id m) as ->; [|rewrite Hl in Ha'; injection Ha' as <-; lia].
    pose proof cl_pools as Hne. destruct m; cbn in *; destruct Hid as [[-> ?]|[-> (q' & ? & ?)]]; congruence.
  - eexists _, st'. split_and!; [done|done|done|by right|done].
Qed.

Lemma lwp_destroy : Q tt (set_member m None v) -> lwp lane (on_kv (st_destroy (member_id m))) Q E v.
Proof.
  intros H1 p Hp Hv. subst v. destruct (member_place _ _ _ Hp Ha) as (_ & q & Hm & Hq).
  destruct (member_has_pool _ _ _ Hp Hm) as (P & HP & Hf). rewrite member_view in Ha.
  destruct (run_destroy _ _ _ _ _ (bi_store _ Hp) Ha Hq HP) as (st' & Hr & I1 & I2 & I3).
  unfold wp, on_kv. rewrite Hr. split.
  - apply frame_kv; try done; [by eapply others_delete|]. intros m' a'. rewrite I3.
    intros [_ Ha']%lookup_delete_Some. rewrite <- member_view in Ha'. by eapply member_place.
  - assert (view (set_pg_kv st' p) lane = set_member m None (view p lane)) as ->; [|done].
    unfold view. cbn. rewrite I3. destruct m; cbn.
    + by rewrite lookup_delete_eq, lookup_delete_ne by apply text_backend_ne.
    + by rewrite lookup_delete_eq, lookup_delete_ne by apply not_eq_sym, text_backend_ne.
Qed.
End MemberRules.
End Rules.
End Lanes.

(** Apply the rule of the next step of a lane operation. *)
Ltac lstep :=
  cbv zeta;
  lazymatch goal with
  | |- lwp _ (mbind_ _ _) _ _ _ => apply lwp_bind; lstep
  | |- lwp _ (mret_ _) _ _ _ => apply lwp_ret
  | |- lwp _ (mthrow _) _ _ _ => apply lwp_throw
  | |- lwp _ (mthrow_if _ _) _ _ _ => apply lwp_throw_if
  | |- lwp _ (mlift _) _ _ _ => apply lwp_lift
  | |- lwp _ (mderef _) _ _ _ => apply lwp_deref
  | |- lwp _ (mwhen _ _) _ _ _ => apply lwp_when
  | |- lwp _ (mtry _ _) _ _ _ => apply lwp_try
  | |- lwp _ (get_seq _) _ _ _ => apply lwp_get_seq
  | |- lwp _ (get_req _) _ _ _ => apply lwp_get_req
  | |- lwp _ (mod_seq _ _) _ _ _ => apply lwp_mod_seq; [assumption|]
  | |- lwp _ (mod_req _ _) _ _ _ => apply lwp_mod_req; [assumption|]
  | |- lwp _ (issue _) _ _ _ => apply lwp_issue
  | |- lwp _ (set_device_i32 _ _) _ _ _ => unfold set_device_i32; apply lwp_issue
  | |- lwp _ sync _ _ _ => apply lwp_sync
  | |- lwp _ try_sync _ _ _ => apply lwp_try_sync
  | |- lwp _ (on_identity _ _) _ _ _ => apply lwp_on_identity; [assumption| |]
  | |- lwp _ (mgets _) _ _ _ => apply lwp_gets
  | |- lwp _ mget _ _ _ => apply lwp_get
  | |- _ => idtac
  end.
