(* ===== verification/ProgramSample.v ===== *)
(** * A small program

    A configuration without speculation, a device that records its commands and always samples the same
    tokens, and the program before its first request.  They show that the hypotheses of the theorems
    about programs can hold. *)
From S2P Require Import Prelude Tensor Layout PagedKV PagedKVProofs PrefixIdentity VisionControl Admission Capacity Contract ProgramState RequestPlan Program ProgramDecode ProgramLanes.
#[local] Open Scope Z_scope.

#[local] Instance sample_config : ProgramConfig := {|
  capacity := 256; max_concurrency := 2; prefill_chunk := 2; draft_window := 0; speculative_backend := NoSpeculation;
  vision_enabled := true; use_cuda_graph := false; work_capacity := 4096; text_pool := 1; mtp_cache := None;
  dflash_full := None; vision_out_hidden := 8; vision_workspace_bytes := fun _ => Ok 64;
|}.

#[local] Instance sample_device : Device := {|
  dev := list Command;
  enqueue := fun c d => (Ok tt, c :: d);
  synchronize := fun d => (Ok tt, d);
  prefill_chunk_schedule := fun _ _ _ nominal _ final d => (Ok (mkChunk (Z.max 0 nominal) final []), d);
  round_token := fun _ => 7;
  initial_drafts := fun _ _ => 0;
  sampled_tokens := fun _ row => 8 + Z.of_nat row;
  speculative_egress := fun _ => mkEgress (fun _ => 0) (fun _ => 1) (fun _ => 0) (fun _ => 0) (fun _ => 0);
|}.

#[local] Instance sample_config_laws : ProgramConfigLaws.
Proof. by split; cbn; unfold_ints. Qed.
#[local] Instance sample_device_laws : DeviceLaws.
Proof.
  split; try done. intros * H. cbn in H. injection H as <- <-. cbn. split; [lia|done].
Qed.

Definition no_graphs : DecodeGraphFamily := mkFamily [] [].
Definition sample_program : Program :=
  mkProgram demo_store0 (replicate kMaximumConcurrency sequence_default) (replicate kMaximumConcurrency control_default)
    no_graphs no_graphs no_graphs (speculative_egress (Device := sample_device) []) [].

(** A prompt of text, and its plan for the lane 0. *)
Definition sample_text (tokens : list Z) (checkpoint : option RewriteCheckpointSpec) : PreparedPromptData :=
  mkPrompt tokens (replicate (length tokens) 0)
    (let n := Z.of_nat (length tokens) in seqZ 0 n ++ seqZ 0 n ++ seqZ 0 n) 0 [] [] (mkPromptIdentity true checkpoint) 0 0.
Definition sample_options : ResolvedExecutionOptions :=
  mkExecutionOptions (mkResolved 0 0 f32_one 0 0 0 0) 10 true.
Definition sample_prompt_text : PreparedPromptData := sample_text [5; 6; 4] (Some (mkCheckpointSpec TurnClosure 2)).
Definition sample_base_plan : RequestBasePlan :=
  match plan_request_base sample_prompt_text sample_options with
  | Ok b => b
  | Err _ => mkBasePlan (mkPlanSummary 0 0 0 OutputLimit 0 1 (mkResources 0 0 0) 0) sampling_default 0 0 None 0 None false
  end.
Definition sample_plan : RequestPlan :=
  match plan_request_for_lane 0 sample_prompt_text sample_base_plan sample_program with
  | Ok plan => plan
  | Err _ => mkRequestPlan (bp_summary sample_base_plan) FullReset 0 NoBridge false None Drop None sampling_default 0 0
  end.
