(* ===== verification/PlanProofs.v ===== *)
(** * Request plans: what a plan for a lane promises

    A plan that [plan_request_for_lane] makes passes every check that [start_prefill_lane] repeats, and
    reuses only a prefix of the prompt that the lane can resume from. *)
From S2P Require Import Prelude Tensor Layout PagedKV PrefixIdentity VisionControl Admission Capacity Contract ProgramState RequestPlan Program ProgramDecode ProgramLanes ProgramSample.
#[local] Open Scope Z_scope.

(** What preparation guarantees about a prompt: its fields are unsigned where the code's are, and its
    visual tokens are the ones of its vision items. *)
Record prepared (prompt : PreparedPromptData) : Prop := {
  pp_spans : Forall (fun item => spans_unsigned (token_spans item)) (vision_items prompt);
  pp_checkpoint : forall d, rewrite_checkpoint_spec (identity prompt) = Some d -> 0 <= rs_frontier d;
  pp_visual : forall i ty, token_types prompt !! i = Some ty -> ty <> 0 ->
    exists item, item ∈ vision_items prompt /\ Z.of_nat i ∈ span_indices (token_spans item);
}.

(** ** Vision *)

Lemma sorted_last (l : list Z) x : StronglySorted Z.lt l -> x ∈ l -> x <= List.last l 0.
Proof.
  destruct l as [|y l _] using rev_ind; [by intros _ ?%elem_of_nil|]. intros Hs [Hx|Hx%list_elem_of_singleton]%elem_of_app.
  - rewrite List.last_last. apply Z.lt_le_incl. eapply StronglySorted_app_1_elem_of; [exact Hs|done|by left].
  - rewrite List.last_last. lia.
Qed.

Lemma sorted_concat (ls : list (list Z)) l : StronglySorted Z.lt (concat ls) -> l ∈ ls -> StronglySorted Z.lt l.
Proof.
  intros Hs Hl. apply list_elem_of_split in Hl as (l1 & l2 & ->). rewrite concat_app in Hs. cbn in Hs.
  apply StronglySorted_app in Hs as (_ & _ & Hs). by apply StronglySorted_app in Hs as (_ & Hs & _).
Qed.

Section Plan.
Context `{CF : ProgramConfig, DV : Device}.

Lemma vision_uses_nil prepare base items : vision_uses prepare base items = [] <->
  Forall (fun item => use_end item <= base) items.
Proof.
  unfold vision_uses. rewrite Forall_forall. split.
  - intros H item Hi. apply list_elem_of_lookup in Hi as [j Hj].
    destruct (Z.leb_spec (use_end item) base) as [|Hgt]; [done|]. exfalso.
    assert (mkUse (use_begin prepare item) (use_end item) (Z.of_nat j) ∈ omap (fun '(index, item) =>
          if use_end item <=? base then None
          else Some (mkUse (use_begin prepare item) (use_end item) (Z.of_nat index))) (imap pair items)) as Hin.
    { apply list_elem_of_omap. exists (j, item). split.
      - apply list_elem_of_lookup. exists j. by rewrite list_lookup_imap, Hj.
      - destruct (Z.leb_spec (use_end item) base); [lia|done]. }
    rewrite H in Hin. by apply elem_of_nil in Hin.
  - intros H. destruct (omap _ _) as [|u us] eqn:E; [done|]. exfalso.
    assert (u ∈ omap (fun '(index, item) =>
          if use_end item <=? base then None
          else Some (mkUse (use_begin prepare item) (use_end item) (Z.of_nat index))) (imap pair items)) as Hin
      by (rewrite E; by left).
    apply list_elem_of_omap in Hin as ([j item] & Hin & Hf). apply list_elem_of_lookup in Hin as [k Hk].
    rewrite list_lookup_imap in Hk. destruct (items !! k) as [it|] eqn:Ek; [|done]. injection Hk as <- ->.
    destruct (Z.leb_spec (use_end item) base); [done|].
    specialize (H item ltac:(apply list_elem_of_lookup; eauto)). lia.
Qed.

(** The suffix of a prompt has visual tokens exactly when some item ends in it. *)
Lemma suffix_visual prompt items base : prepared prompt -> build_vision_control prompt = Ok items -> 0 <= base ->
  existsb (fun type => negb (type =? 0)) (drop (Z.to_nat base) (token_types prompt)) = true <->
  ~ Forall (fun item => use_end item <= base) items.
Proof.
  intros [P1 _ P3] H Hb. apply build_vision_control_Ok in H as [H1 H2]; [|done]. rewrite existsb_exists. split.
  - intros (ty & Hty & Hne) Hall. rewrite <- list_elem_of_In in Hty. apply list_elem_of_lookup in Hty as [j Hj].
    rewrite lookup_drop in Hj. bprop. destruct (P3 _ _ Hj Hne) as (item & Hi & Hin).
    apply list_elem_of_lookup in Hi as [k Hk]. destruct (Forall2_lookup_l _ _ _ _ _ H1 Hk) as (c & Hc & Hd).
    destruct Hd as (_ & _ & _ & _ & Hs & _). rewrite <- Hs in Hin.
    rewrite Forall_forall in Hall. specialize (Hall c ltac:(apply list_elem_of_lookup; eauto)).
    unfold use_end in Hall. eapply sorted_last in Hin; [lia|].
    eapply sorted_concat; [exact H2|]. apply list_elem_of_fmap. exists c. split; [done|apply list_elem_of_lookup; eauto].
  - intros Hn. apply not_Forall_Exists in Hn; [|intros; apply _]. apply Exists_exists in Hn as (c & Hc & Hgt).
    apply list_elem_of_lookup in Hc as [k Hk]. destruct (Forall2_lookup_r _ _ _ _ _ H1 Hk) as (item & Hi & Hd).
    destruct Hd as (_ & _ & _ & _ & _ & Hne & _ & Ht). unfold use_end in Hgt. cbn in Hgt.
    destruct (scatter_indices c) as [|y l _] eqn:El using rev_ind; [done|]. rewrite List.last_last in Hgt.
    apply Forall_app in Ht as [_ Ht]. apply Forall_cons in Ht as [[Hr Ht] _].
    exists (modality_value (modality item)). split; [|by destruct (modality item)].
    rewrite <- list_elem_of_In. apply list_elem_of_lookup. exists (Z.to_nat y - Z.to_nat base)%nat.
    rewrite lookup_drop. rewrite <- Ht. f_equal. cbn in Hgt. lia.
Qed.

(** ** Reuse *)

(** What the code may continue from: everything the lane has processed, or its rewrite checkpoint. *)
Inductive resumable (s : SequenceState) : ReusePath -> Z -> Prop :=
| resume_reset : resumable s FullReset 0
| resume_append :
    execution_frontier s <> 0 ->
    (speculative_backend = DFlash -> dflash_context_frontier s = execution_frontier s) ->
    (speculative_backend = Mtp -> tail_hidden_valid s = true /\ execution_frontier s - 1 <= mtp_kv_valid s) ->
    resumable s AppendAtFrontier (execution_frontier s)
| resume_checkpoint :
    rc_valid (rewrite_checkpoint s) = true -> rc_frontier (rewrite_checkpoint s) <> 0 ->
    (speculative_backend = Mtp -> rc_frontier (rewrite_checkpoint s) - 1 <= mtp_kv_valid s) ->
    (speculative_backend = DFlash -> is_some (kv s ≫= kv_backend) = true /\
       rc_frontier (rewrite_checkpoint s) <= dflash_context_frontier s) ->
    resumable s (restore_path (rc_kind (rewrite_checkpoint s))) (rc_frontier (rewrite_checkpoint s)).

Lemma restore_is_restore k : is_rewrite_checkpoint_restore (restore_path k) = true.
Proof. by destruct k. Qed.

Lemma restrict_reuse_cases s r : restrict_reuse s r = (FullReset, 0) \/
  (restrict_reuse s r = r /\
   (speculative_backend = Mtp -> r.1 = FullReset \/ mtp_reuse_ready s r.1 r.2 = true) /\
   (speculative_backend = DFlash -> is_rewrite_checkpoint_restore r.1 = true ->
      is_some (kv s ≫= kv_backend) = true /\ r.2 <= dflash_context_frontier s)).
Proof.
  unfold restrict_reuse. destruct r as [reuse base]. cbn [fst snd].
  case_if E1; [by left|].
  case_if E2; [by left|]. right. split_and!; [done| |].
  - intros Hm. rewrite Hm, bool_decide_eq_true_2 in E1 by done. cbn in E1.
    destruct (decide (reuse = FullReset)); [by left|right]. rewrite bool_decide_eq_false_2 in E1 by done.
    cbn in E1. by apply negb_false_iff in E1.
  - intros Hd Hr. rewrite Hr, Hd, bool_decide_eq_true_2 in E2 by done. cbn in E2. bprop.
    split; [|lia]. by destruct (kv s).
Qed.

Lemma plan_reuse_resumable prompt allow s reuse base : plan_reuse prompt allow s = (reuse, base) ->
  resumable s reuse base /\
  (reuse <> FullReset -> allow = true /\ reusable (identity prompt) = true /\ retained s = true /\
     prefix_matches prompt (ledger s) (prefix_identity s) base = true).
Proof.
  unfold plan_reuse. intros H. set (r := if allow && _ && _ then select_reuse prompt s else (FullReset, 0)) in H.
  destruct (restrict_reuse_cases s r) as [E|(E & Hm & Hd)]; rewrite E in H.
  { injection H as <- <-. split; [constructor|done]. }
  unfold r in *. clear r E. rewrite H in Hm, Hd. cbn [fst snd] in Hm, Hd.
  destruct (allow && reusable (identity prompt) && retained s) eqn:Ea.
  2: { injection H as <- <-. split; [constructor|done]. }
  unfold select_reuse in H. destruct (_ && prefix_matches _ _ _ (execution_frontier s)) eqn:E1.
  - injection H as <- <-. bprop. split; [|done]. constructor; [done| |].
    + intros Hdf. match goal with H : _ \/ _ |- _ => destruct H; bprop; [done|lia] end.
    + intros Hmt. destruct (Hm Hmt) as [|Hr]; [done|]. unfold mtp_reuse_ready in Hr. cbn in Hr.
      rewrite orb_false_r in Hr. bprop. split; [done|]. match goal with H : _ \/ _ |- _ => destruct H; bprop; lia end.
  - destruct (_ && prefix_matches _ _ _ (rc_frontier _)) eqn:E2.
    + injection H as <- <-. bprop. split; [|done]. constructor; [done|done| |].
      * intros Hmt. destruct (Hm Hmt) as [Hn|Hr]; [by destruct (rc_kind _)|].
        unfold mtp_reuse_ready in Hr. rewrite restore_is_restore in Hr. destruct (rc_kind _); cbn in Hr; bprop; lia.
      * intros Hdf. apply Hd; [done|]. apply restore_is_restore.
    + injection H as <- <-. split; [constructor|done].
Qed.

(** ** Plans *)

Record base_plan_ok (prompt : PreparedPromptData) (b : RequestBasePlan) : Prop := {
  bo_tokens : 0 < Z.of_nat (length (token_ids prompt)) <= capacity;
  bo_shape : prompt_shape prompt = true;
  bo_prompt_tokens : prompt_tokens (bp_summary b) = Z.of_nat (length (token_ids prompt));
  bo_vision : if has_media prompt then exists items, bp_vision_control b = Some items /\ build_vision_control prompt = Ok items
              else bp_vision_control b = None;
  bo_checkpoint : bp_rewrite_checkpoint b = rewrite_checkpoint_spec (identity prompt);
  bo_frontier : forall d, rewrite_checkpoint_spec (identity prompt) = Some d ->
    rs_frontier d <> 0 /\ rs_frontier d <= Z.of_nat (length (token_ids prompt));
  bo_entitlement : is_u32 (bp_text_kv_page_entitlement b) /\ is_u32 (bp_backend_kv_page_entitlement b);
  bo_transient : transient_bytes (bp_summary b) = 0;
}.

Lemma plan_pages_u32 n : is_u32 (plan_pages_for_tokens n).
Proof. unfold plan_pages_for_tokens. apply u32_range. Qed.

Lemma plan_request_base_ok prompt options b : plan_request_base prompt options = Ok b -> base_plan_ok prompt b.
Proof.
  unfold plan_request_base. cbv zeta. intros H. rinv. destruct v1 as [control transient]. rinv. subst b.
  unfold validate_prompt in Hv. rinv.
  constructor; cbn; try done.
  - destruct (token_ids prompt); [done|]. cbn in *. lia.
  - unfold plan_vision in Hv1. destruct (has_media prompt); rinv; [|congruence].
    destruct v10 as [? ?]. rinv. exists v9. split; [congruence|done].
  - intros d Hd. rewrite Hd in Hv2. rinv. done.
  - split; [apply plan_pages_u32|]. unfold backend_entitlement. destruct speculative_backend; [done|apply plan_pages_u32..].
Qed.

Record lane_plan (prompt : PreparedPromptData) (b : RequestBasePlan) (s : SequenceState) (plan : RequestPlan) : Prop := {
  lp_resumable : resumable s (rp_reuse plan) (rp_reuse_base plan);
  lp_reuse : rp_reuse plan <> FullReset -> retained s = true /\
    prefix_matches prompt (ledger s) (prefix_identity s) (rp_reuse_base plan) = true;
  lp_summary : prompt_tokens (rp_summary plan) = prompt_tokens (bp_summary b) /\
    effective_output_tokens (rp_summary plan) = effective_output_tokens (bp_summary b);
  lp_action : (rp_action plan, rp_capture plan) =
    plan_checkpoint prompt (bp_rewrite_checkpoint b) s (rp_reuse plan) (rp_reuse_base plan);
  lp_mtp : rp_prepare_mtp plan = bool_decide (speculative_backend = Mtp);
  lp_vision : rp_vision plan = None <-> match bp_vision_control b with
                                        | Some items => Forall (fun item => use_end item <= rp_reuse_base plan) items
                                        | None => True
                                        end;
  lp_transient : rp_vision plan = None -> transient_bytes (rp_summary plan) = transient_bytes (bp_summary b);
  lp_text : rp_text_kv_page_entitlement plan = bp_text_kv_page_entitlement b;
  lp_backend : rp_backend_kv_page_entitlement plan = bp_backend_kv_page_entitlement b;
}.

Lemma plan_request_for_lane_ok lane prompt b p plan : plan_request_for_lane lane prompt b p = Ok plan ->
  lane_plan prompt b (sequences p !!! lane) plan /\ lane_in_range lane = true /\ lane_busy p lane = false.
Proof.
  unfold plan_request_for_lane. cbv zeta. intros H. rinv.
  destruct (plan_reuse prompt (bp_allow_prefix_reuse b) (sequences p !!! lane)) as [reuse base] eqn:Hr.
  destruct (plan_checkpoint _ _ _ reuse base) as [action capture] eqn:Hc.
  destruct (plan_mtp reuse base _) as [prepare bridge] eqn:Hm. injection H as <-.
  apply plan_reuse_resumable in Hr as [R1 R2]. split; [|unfold lane_in_range, lane_busy; split; [lia|]].
  - constructor; cbn; try done.
    + intros Hn. destruct (R2 Hn) as (_ & _ & ? & ?). done.
    + unfold plan_mtp in Hm. case_bool_decide; destruct reuse; congruence.
    + destruct (bp_vision_control b) as [items|]; [|done]. rewrite <- (vision_uses_nil prepare).
      by destruct (vision_uses prepare base items).
    + intros Hn. destruct (match bp_vision_control b with Some _ => _ | None => _ end); done.
  - repeat (rewrite bool_decide_eq_false_2; [|done]). done.
Qed.

(** ** Acceptance *)

Lemma resumable_nonneg s reuse base : resumable s reuse base ->
  0 <= execution_frontier s -> 0 <= rc_frontier (rewrite_checkpoint s) -> 0 <= base.
Proof. by destruct 1. Qed.

Definition transient_fits (plan : RequestPlan) (transient : TransientRegion) : Prop :=
  transient_bytes (rp_summary plan) <> 0 ->
  tr_data transient <> 0 /\ transient_bytes (rp_summary plan) <= tr_size transient /\
  transient_alignment (rp_summary plan) <= tr_alignment transient.

Lemma plan_check_prompt prompt b s plan transient : prepared prompt -> base_plan_ok prompt b -> lane_plan prompt b s plan ->
  0 <= rp_reuse_base plan -> transient_fits plan transient -> check_prompt prompt plan transient = Ok tt.
Proof.
  intros Hp [B1 B2 B3 B4 B5 B6 _ B7] [L1 L2 [L3 _] L4 L5 L6 L7 _ _] Hbase Ht. unfold check_prompt. cbv zeta.
  rewrite L3, B3, Z.eqb_refl. cbn [negb orb].
  assert (Hvis : is_some (rp_vision plan) = true -> exists items, has_media prompt = true /\
    bp_vision_control b = Some items /\ build_vision_control prompt = Ok items).
  { intros H. destruct (has_media prompt); [destruct B4 as (items & ? & ?); by exists items|].
    rewrite B4 in L6. by rewrite (proj2 L6 I) in H. }
  assert (throw_if (is_some (rp_vision plan) && negb (has_media prompt)) InvalidArgument = Ok tt) as ->.
  { destruct (is_some (rp_vision plan)); [|done]. by destruct Hvis as (? & -> & _). }
  cbn. assert (match rewrite_checkpoint_spec (identity prompt) with
     | Some d => throw_if ((rs_frontier d =? 0) || (rs_frontier d >? Z.of_nat (length (token_ids prompt)))) InvalidArgument
     | None => Ok tt end = Ok tt) as ->.
  { destruct (rewrite_checkpoint_spec (identity prompt)) as [d|] eqn:Hd; [|done]. destruct (B6 d eq_refl).
    apply throw_if_Ok. lia. }
  cbn. assert (existsb (fun type => negb (type =? 0)) (drop (Z.to_nat (rp_reuse_base plan)) (token_types prompt)) =
    is_some (rp_vision plan)) as ->.
  { destruct (has_media prompt) eqn:Hm.
    - destruct B4 as (items & Hc & Hb). rewrite Hc in L6.
      pose proof (suffix_visual prompt items (rp_reuse_base plan) Hp Hb Hbase) as Hs.
      destruct (existsb _ _), (rp_vision plan) as [v|]; cbn; try done.
      + destruct (proj1 Hs eq_refl). by apply L6.
      + assert (false = true); [|done]. apply Hs. intros HF. by apply L6 in HF.
    - rewrite B4 in L6. rewrite (proj2 L6 I). cbn. apply not_true_iff_false.
      rewrite existsb_exists. intros (ty & Hty & Hne). rewrite <- list_elem_of_In in Hty.
      apply list_elem_of_lookup in Hty as [j Hj]. rewrite lookup_drop in Hj. bprop.
      destruct (pp_visual _ Hp _ _ Hj Hne) as (item & Hi & _). unfold has_media in Hm. bprop.
      rewrite Hm in Hi. by apply elem_of_nil in Hi. }
  rewrite Bool.eqb_reflx. cbn. apply throw_if_Ok.
  destruct (Z.eqb_spec (transient_bytes (rp_summary plan)) 0) as [|Hne]; [done|]. destruct (Ht Hne) as (? & ? & ?). cbn. lia.
Qed.

Lemma plan_check_reuse prompt b s plan : prepared prompt -> base_plan_ok prompt b -> lane_plan prompt b s plan ->
  0 <= rp_reuse_base plan -> check_reuse prompt plan s = Ok tt.
Proof.
  intros Hp [B1 B2 B3 B4 B5 B6 _ B7] [L1 L2 _ L4 _ _ _ _ _] Hbase. unfold check_reuse. cbv zeta.
  assert (throw_if (negb (bool_decide (rp_reuse plan = FullReset)) && (negb (retained s) ||
    negb (prefix_matches prompt (ledger s) (prefix_identity s) (rp_reuse_base plan)))) LogicError = Ok tt) as ->.
  { case_bool_decide as Hf; [done|]. destruct (L2 Hf) as [-> ->]. done. }
  cbn. assert (throw_if (is_rewrite_checkpoint_restore (rp_reuse plan) && (negb (rc_valid (rewrite_checkpoint s)) ||
    negb (rc_frontier (rewrite_checkpoint s) =? rp_reuse_base plan) ||
    negb (bool_decide (rp_reuse plan = restore_path (rc_kind (rewrite_checkpoint s)))))) LogicError = Ok tt) as ->.
  { inversion L1 as [E1 E2|? ? ? E1 E2|Hv ? ? ? E1 E2]; [done|done|]. rewrite restore_is_restore, Hv, Z.eqb_refl.
    by rewrite bool_decide_eq_true_2. }
  cbn. rewrite B5 in L4. unfold plan_checkpoint in L4. unfold has_action, checkpoint_kept.
  destruct (rewrite_checkpoint_spec (identity prompt)) as [d|] eqn:Hd.
  2: { injection L4 as -> ->. done. }
  destruct (B6 d eq_refl) as [F1 F2]. pose proof (pp_checkpoint _ Hp d Hd) as F3.
  destruct (_ && prefix_matches _ _ _ (rs_frontier d)) eqn:E1.
  - bprop. match goal with H : rc_frontier _ = _ |- _ => rewrite H end.
    match goal with H : rc_valid _ = _ |- _ => rewrite H end. match goal with H : prefix_matches _ _ _ (rs_frontier _) = _ |- _ => rewrite H end.
    rewrite (bool_decide_eq_false_2 (rp_reuse plan = FullReset)), Z.eqb_refl by done. injection L4 as -> ->.
    by destruct (bool_decide (rc_kind (rewrite_checkpoint s) = rs_kind d)).
  - destruct (Z.gtb_spec (rs_frontier d) (rp_reuse_base plan)); injection L4 as -> ->; bdec.
    + rewrite Z.eqb_refl. destruct (Z.leb_spec (rs_frontier d) (rp_reuse_base plan)); [lia|].
      destruct (Z.gtb_spec (rs_frontier d) (Z.of_nat (length (token_ids prompt)))); [lia|done].
    + destruct (decide (rp_reuse plan = FullReset)) as [Hf|Hf].
      * rewrite Hf in L1. inversion L1; subst; try (by destruct (rc_kind (rewrite_checkpoint s))). lia.
      * rewrite (bool_decide_eq_false_2 (rp_reuse plan = FullReset)) by done. destruct (Z.gtb_spec (rs_frontier d) (rp_reuse_base plan)); [lia|done].
Qed.

End Plan.

#[local] Existing Instances sample_config sample_device.

Lemma sample_prepared tokens checkpoint :
  match checkpoint with Some d => 0 <= rs_frontier d | None => True end -> prepared (sample_text tokens checkpoint).
Proof.
  intros Hc. constructor; cbn; [done| |].
  - intros d ->. done.
  - intros i ty Hi Hne. apply lookup_replicate in Hi as [-> _]. done.
Qed.

