(* ===== verification/PreparationProofs.v ===== *)
(** * Prepared prompts are accepted by the runtime

    What the processor prepares from media passes the checks of the request plan and gives the vision control
    of the runtime.  The media come from the cache: [media_wf] is what its builders promise. *)
From Stdlib Require Import Strings.String.
From stdpp Require Import gmap sorting.
From S2P Require Import Prelude Unicode Admission Capacity Contract Output Tokenizer TokenizerProofs PrefixIdentity ToolCalls Digest ChatTemplate MediaCache Processor PositionProofs Preparation VisionControl ProgramState RequestPlan.
#[local] Open Scope Z_scope.
#[local] Open Scope ninfer_scope.

(** ** The spans of a prompt *)

(** The media spans with their types, in the order of the tokens. *)
Fixpoint typed_spans (begin : nat) (runs : list (Z * nat)) : list (Z * TokenSpan) :=
  match runs with
  | [] => []
  | (t, n) :: runs' =>
      (if t =? 0 then [] else [(t, mkTokenSpan (Z.of_nat begin) (Z.of_nat n))]) ++ typed_spans (begin + n) runs'
  end.

(** Each span is in the prompt, after [b] and after the span before, and its tokens have its type. *)
Fixpoint chain (types : list Z) (b : Z) (spans : list (Z * TokenSpan)) : Prop :=
  match spans with
  | [] => True
  | (ty, s) :: spans' =>
      b <= ts_begin s /\ 0 < ts_count s /\ ts_begin s + ts_count s <= Z.of_nat (length types) /\
      Forall (fun t => t = ty) (take (Z.to_nat (ts_count s)) (drop (Z.to_nat (ts_begin s)) types)) /\
      chain types (ts_begin s + ts_count s) spans'
  end.

Lemma chain_weaken types b b' spans : b' <= b -> chain types b spans -> chain types b' spans.
Proof. destruct spans as [|[ty s] spans]; [done|]. cbn. intros Hb H. split; [lia|apply H]. Qed.

Definition flat (runs : list (Z * nat)) : list Z := concat ((fun r => replicate r.2 r.1) <$> runs).

Lemma runs_flat types : flat (runs_of types) = types.
Proof.
  induction types as [|t types IH]; [done|]. cbn [runs_of]. destruct (runs_of types) as [|[t' n] runs] eqn:E.
  - unfold flat in *. cbn in *. by rewrite <- IH.
  - destruct (Z.eqb_spec t' t) as [->|Hne]; unfold flat in *; cbn in *; by rewrite <- IH.
Qed.

Lemma typed_spans_chain runs : forall pre, Forall (fun r => (0 < r.2)%nat) runs ->
  chain (pre ++ flat runs) (Z.of_nat (length pre)) (typed_spans (length pre) runs).
Proof.
  induction runs as [|[t n] runs IH]; intros pre Hpos; [done|]. apply Forall_cons in Hpos as [Hn Hpos]. cbn in Hn.
  assert (Hflat : pre ++ flat ((t, n) :: runs) = (pre ++ replicate n t) ++ flat runs) by (by rewrite <- app_assoc).
  specialize (IH (pre ++ replicate n t) Hpos). rewrite <- Hflat, length_app, length_replicate in IH. cbn [typed_spans].
  assert (Hend : Z.of_nat (length pre) + Z.of_nat n = Z.of_nat (length pre + n)) by lia.
  destruct (t =? 0); cbn [app chain ts_begin ts_count].
  - eapply chain_weaken; [|exact IH]. lia.
  - split; [lia|]. split; [lia|]. split; [rewrite Hflat, !length_app, length_replicate; lia|]. rewrite !Nat2Z.id, Hend. split; [|exact IH].
    rewrite drop_app_length. unfold flat. cbn [fmap list_fmap concat fst snd]. rewrite take_app_le by (rewrite length_replicate; lia).
    rewrite take_ge by (rewrite length_replicate; lia). apply Forall_replicate. done.
Qed.

Lemma prompt_chain types : chain types 0 (typed_spans 0 (runs_of types)).
Proof. pose proof (typed_spans_chain (runs_of types) [] (runs_positive types)) as H. cbn [app length] in H. by rewrite runs_flat in H. Qed.

(** The runs of the media are in the order of the items. *)
Definition item_types (items : list VisionItem) : list Z :=
  concat ((fun i => replicate (span_count i) (modality_value (modality i))) <$> items).
Definition in_order (types : list Z) (items : list VisionItem) : Prop := (typed_spans 0 (runs_of types)).*1 = item_types items.

Definition spans_typed (ty : Z) (l : list (Z * TokenSpan)) : list TokenSpan := (filter (fun p => p.1 = ty) l).*2.

Lemma spans_typed_of ty runs : ty <> 0 -> forall begin, spans_of ty begin runs = spans_typed ty (typed_spans begin runs).
Proof.
  intros Hty. induction runs as [|[t n] runs IH]; intros begin; [done|]. cbn [spans_of typed_spans]. rewrite IH.
  unfold spans_typed. rewrite filter_app, fmap_app. f_equal. destruct (Z.eqb_spec t 0) as [->|H0].
  - by destruct (Z.eqb_spec 0 ty) as [<-|].
  - rewrite filter_cons. destruct (Z.eqb_spec t ty) as [->|Hne]; cbn.
    + by rewrite decide_True.
    + by rewrite decide_False.
Qed.

Lemma modality_value_pos m : modality_value m <> 0.
Proof. by destruct m. Qed.

(** With the spans of each modality distributed in order over its items, those of all are in order over all. *)
Lemma spans_distributed items : forall l : list (Z * TokenSpan),
  Forall (fun i => length (token_spans i) = span_count i) items -> l.*1 = item_types items ->
  (forall m, spans_in (items_of m items) = spans_typed (modality_value m) l) ->
  l = concat ((fun i => pair (modality_value (modality i)) <$> token_spans i) <$> items).
Proof.
  induction items as [|item items IH]; intros l Hlen Ht Hm.
  { cbn in Ht. by apply fmap_nil_inv in Ht. }
  apply Forall_cons in Hlen as [Hi Hlen]. unfold item_types in Ht. cbn [fmap list_fmap concat] in Ht. fold (item_types items) in Ht.
  apply fmap_app_inv in Ht as (l1 & l2 & H1 & H2 & ->). set (v := modality_value (modality item)) in *.
  assert (Hl1 : length l1 = length (token_spans item)) by (rewrite Hi, <- (length_fmap fst l1), <- H1; apply length_replicate).
  assert (Hall : Forall (fun p => p.1 = v) l1).
  { apply Forall_forall. intros p Hp. assert (Hin : p.1 ∈ l1.*1) by (by apply list_elem_of_fmap_2). rewrite <- H1 in Hin. by apply elem_of_replicate in Hin as [? _]. }
  assert (Hsplit : forall ty, spans_typed ty (l1 ++ l2) = (if bool_decide (ty = v) then l1.*2 else []) ++ spans_typed ty l2).
  { intros ty. unfold spans_typed. rewrite filter_app, fmap_app. f_equal. case_bool_decide as E.
    - subst ty. by rewrite filter_all.
    - rewrite filter_none; [done|]. eapply Forall_impl; [exact Hall|]. intros p Hp Hp'. congruence. }
  assert (Hitem : l1.*2 = token_spans item /\ forall m, spans_in (items_of m items) = spans_typed (modality_value m) l2).
  { pose proof (Hm (modality item)) as Hme. rewrite Hsplit, bool_decide_eq_true_2, items_of_cons_eq in Hme by done.
    change (spans_in (item :: items_of (modality item) items)) with (token_spans item ++ spans_in (items_of (modality item) items)) in Hme.
    apply app_inj_1 in Hme as [Hme1 Hme2]; [|rewrite length_fmap; lia]. split; [done|]. intros m.
    destruct (decide (m = modality item)) as [->|Hne]; [done|]. specialize (Hm m). rewrite items_of_cons_ne, Hsplit, bool_decide_eq_false_2 in Hm; [done| |done].
    unfold v. by destruct m, (modality item). }
  destruct Hitem as [Hs Hrest]. cbn [fmap list_fmap concat]. fold v. f_equal; [|by apply IH].
  rewrite <- Hs. clear -Hall. induction Hall as [|[a b] l1 Hp _ IH]; [done|]. cbn in *. subst a. by f_equal.
Qed.

(** ** The vision control *)

Definition spans_total (spans : list TokenSpan) : Z := foldr (fun s n => ts_count s + n) 0 spans.
Fixpoint spans_end (b : Z) (spans : list TokenSpan) : Z :=
  match spans with [] => b | s :: spans' => spans_end (ts_begin s + ts_count s) spans' end.

Lemma chain_app types ty spans l : forall b, chain types b ((pair ty <$> spans) ++ l) ->
  chain types b (pair ty <$> spans) /\ chain types (spans_end b spans) l.
Proof.
  induction spans as [|s spans IH]; intros b H; [done|]. cbn in *. destruct H as (H1 & H2 & H3 & H4 & H5). apply IH in H5 as [H5 H6]. done.
Qed.

Lemma control_spans_run types ty spans : forall scatter k b,
  chain types b (pair ty <$> spans) -> 0 <= b -> 0 <= k -> k + spans_total spans <= i32_max -> Z.of_nat (length types) <= i32_max ->
  control_spans types ty spans scatter k b = Ok (scatter ++ span_indices spans, k + spans_total spans).
Proof.
  induction spans as [|s spans IH]; intros scatter k b Hc Hb Hk Hsum Hlen; cbn [control_spans].
  { unfold span_indices. cbn. by rewrite app_nil_r, Z.add_0_r. }
  cbn [fmap list_fmap chain] in Hc. destruct Hc as (H1 & H2 & H3 & H4 & H5). cbn [spans_total foldr] in Hsum. fold (spans_total spans) in Hsum.
  assert (Htot : 0 <= spans_total spans).
  { clear -H5. revert H5. generalize (ts_begin s + ts_count s). induction spans as [|x spans IH]; intros c Hc; [done|].
    cbn in *. destruct Hc as (_ & ? & _ & _ & Hc). specialize (IH _ Hc). unfold spans_total in *. cbn. lia. }
  assert ((ts_count s =? 0) || (ts_begin s >? Z.of_nat (length types)) || (ts_count s >? Z.of_nat (length types) - ts_begin s) = false) as ->.
  { rewrite !Z.gtb_ltb. apply orb_false_iff. split; [apply orb_false_iff; split; [apply Z.eqb_neq; lia|apply Z.ltb_ge; lia]|apply Z.ltb_ge; lia]. }
  cbn [throw_if rbind]. assert ((ts_begin s <? b) = false) as -> by (apply Z.ltb_ge; lia). cbn [throw_if rbind].
  assert (forallb (fun value => value =? ty) (take (Z.to_nat (ts_count s)) (drop (Z.to_nat (ts_begin s)) types)) = true) as ->.
  { apply forallb_forall. intros x Hx. apply list_elem_of_In in Hx. rewrite Forall_forall in H4. apply Z.eqb_eq. by apply H4. }
  cbn [negb throw_if rbind].
  assert (rmapM vc_checked_i32 (seqZ (ts_begin s) (ts_count s)) = Ok (seqZ (ts_begin s) (ts_count s))) as ->.
  { apply rmapM_Forall2. apply Forall_Forall2_diag, Forall_forall. intros x Hx%elem_of_seqZ. apply vc_checked_i32_Ok. split; [lia|done]. }
  cbn [rbind]. rewrite u64_small by (unfold_ints; unfold i32_max in *; lia). rewrite IH; [|done|lia|lia|lia|done].
  unfold span_indices. cbn [fmap list_fmap concat spans_total foldr]. fold (spans_total spans). rewrite <- app_assoc. do 2 f_equal. lia.
Qed.

Lemma span_indices_length spans : Forall (fun s => 0 <= ts_count s) spans -> Z.of_nat (length (span_indices spans)) = spans_total spans.
Proof.
  induction 1 as [|s spans Hs _ IH]; [done|]. unfold span_indices, spans_total in *. cbn. rewrite length_app, length_seqZ. lia.
Qed.

Lemma chain_counts types ty spans b : chain types b (pair ty <$> spans) -> Forall (fun s => 0 < ts_count s) spans.
Proof. revert b. induction spans as [|s spans IH]; intros b H; [constructor|]. cbn in H. constructor; [apply H|]. by eapply IH, H. Qed.

Lemma span_indices_last types ty spans b d : chain types b (pair ty <$> spans) -> spans <> [] ->
  List.last (span_indices spans) d + 1 = spans_end b spans.
Proof.
  revert b d. induction spans as [|s spans IH]; intros b d Hc Hne; [done|]. cbn in Hc. destruct Hc as (_ & Hs & _ & _ & Hc).
  unfold span_indices. cbn [fmap list_fmap concat spans_end]. fold (span_indices spans). destruct spans as [|s' spans].
  - unfold span_indices. cbn. rewrite app_nil_r. replace (seqZ (ts_begin s) (ts_count s)) with (seqZ (ts_begin s) (ts_count s - 1) ++ [ts_begin s + (ts_count s - 1)]).
    { rewrite List.last_last. lia. }
    replace (ts_count s) with ((ts_count s - 1) + 1) at 3 by lia. by rewrite seqZ_app by lia.
  - rewrite <- (IH (ts_begin s + ts_count s) d Hc) by done.
    assert (Hx : span_indices (s' :: spans) <> []).
    { apply span_indices_nonempty; [|done]. by eapply chain_counts. }
    f_equal. revert Hx. generalize (span_indices (s' :: spans)) as k. intros k Hx.
    induction (seqZ (ts_begin s) (ts_count s)) as [|x l IHl]; [done|]. cbn. destruct (l ++ k) eqn:E; [by apply app_nil in E as [_ E]|done].
Qed.

Lemma spans_end_le types ty spans b : chain types b (pair ty <$> spans) -> b <= spans_end b spans.
Proof.
  revert b. induction spans as [|s spans IH]; intros b Hc; [cbn; lia|]. cbn in *. destruct Hc as (H1 & H2 & _ & _ & Hc). specialize (IH _ Hc). lia.
Qed.

Lemma patch_coordinates_length h w : 0 <= h -> 0 <= w -> h mod 2 = 0 -> w mod 2 = 0 ->
  Z.of_nat (length (patch_coordinates h w)) = h * w.
Proof.
  intros Hh Hw Eh Ew. unfold patch_coordinates, VisionControl.kMerge.
  assert (Hconst : forall (f : Z -> list (Z * Z)) l n, (forall x, length (f x) = n) -> length (concat (f <$> l)) = (length l * n)%nat).
  { intros f l n Hf. induction l as [|x l IH]; [done|]. cbn. rewrite length_app, IH, Hf. lia. }
  rewrite (Hconst _ _ (Z.to_nat (w / 2) * 4)%nat).
  - rewrite length_seqZ. pose proof (Z.div_mod h 2 ltac:(lia)). pose proof (Z.div_mod w 2 ltac:(lia)).
    pose proof (Z.div_pos h 2 ltac:(lia) ltac:(lia)). pose proof (Z.div_pos w 2 ltac:(lia) ltac:(lia)). nia.
  - intros y. rewrite (Hconst _ _ 4%nat); [by rewrite length_seqZ|]. intros x. done.
Qed.

Lemma control_segments_run steps h w cu coords : 0 <= h -> 0 <= w -> h mod 2 = 0 -> w mod 2 = 0 ->
  0 <= List.last cu 0 -> List.last cu 0 + Z.of_nat steps * (h * w) <= i32_max -> exists cu' coords',
  control_segments steps h w cu coords = Ok (cu', coords') /\ List.last cu' 0 = List.last cu 0 + Z.of_nat steps * (h * w) /\
  Z.of_nat (length coords') = Z.of_nat (length coords) + Z.of_nat steps * (h * w).
Proof.
  intros Hh Hw Eh Ew. revert cu coords. induction steps as [|steps IH]; intros cu coords Hlast Hmax; cbn [control_segments].
  { exists cu, coords. split; [done|]. lia. }
  assert (0 <= h * w) by nia. assert ((List.last cu 0 + h * w >? i32_max) = false) as -> by (rewrite Z.gtb_ltb; apply Z.ltb_ge; nia).
  cbn [throw_if rbind]. destruct (IH (cu ++ [List.last cu 0 + h * w]) (coords ++ patch_coordinates h w)) as (cu' & coords' & -> & H1 & H2).
  - rewrite List.last_last. lia.
  - rewrite List.last_last. nia.
  - exists cu', coords'. split; [done|]. rewrite List.last_last in H1. rewrite length_app, Nat2Z.inj_add, patch_coordinates_length in H2 by done. nia.
Qed.

(** *** The tokens of an item *)

Definition fills (s : TokenSpan) (g : Z * Z) : Prop := ts_count s = g.1 * g.2.

Lemma bind_fills runs : forall images frames b begin, bind_runs runs images frames = Some b ->
  Forall2 fills (spans_of 1 begin runs) images /\ Forall2 fills (spans_of 2 begin runs) frames.
Proof.
  induction runs as [|[t n] runs IH]; intros images frames b begin Hb; cbn [bind_runs spans_of] in *.
  { destruct images, frames; try done. }
  assert (Hcons : forall x r, cons x <$> r = Some b -> exists b', r = Some b') by (intros x [r|] Hr; [by exists r|done]).
  destruct (Z.eqb_spec t 0) as [->|H0]; [apply Hcons in Hb as [b' Hb]; by eapply IH|].
  destruct (Z.eqb_spec t 1) as [->|H1].
  { destruct images as [|g images]; [done|]. destruct (Z.eqb_spec (Z.of_nat n) (g.1 * g.2)) as [Hg|]; [|done].
    apply Hcons in Hb as [b' Hb]. destruct (IH _ _ _ (begin + n)%nat Hb) as [I1 I2]. split; [by constructor|done]. }
  destruct (Z.eqb_spec t 2) as [->|H2]; [|done].
  destruct frames as [|g frames]; [done|]. destruct (Z.eqb_spec (Z.of_nat n) (g.1 * g.2)) as [Hg|]; [|done].
  apply Hcons in Hb as [b' Hb]. destruct (IH _ _ _ (begin + n)%nat Hb) as [I1 I2]. split; [done|by constructor].
Qed.

Definition item_filled (i : VisionItem) : Prop := Forall (fun s => fills s (merged_grid i)) (token_spans i).

Lemma distributed_filled items :
  Forall (fun i => length (token_spans i) = span_count i) items ->
  Forall2 fills (spans_in items) (concat ((fun i => replicate (span_count i) (merged_grid i)) <$> items)) -> Forall item_filled items.
Proof.
  induction 1 as [|i items Hi _ IH]; intros H; [constructor|]. unfold spans_in in H. cbn [fmap list_fmap concat] in H.
  apply Forall2_app_inv in H as [H1 H2]; [|by rewrite length_replicate]. constructor; [|by apply IH].
  unfold item_filled. rewrite <- Hi in H1. clear -H1. induction (token_spans i) as [|s l IH]; [constructor|].
  inversion H1; subst. constructor; [done|by apply IH].
Qed.

Lemma same_merged a b : same_but_spans a b -> merged_grid b = merged_grid a /\ frame_count b = frame_count a /\ span_count b = span_count a /\
  modality b = modality a.
Proof.
  intros (Hm & Hg & _). unfold merged_grid, frame_count, span_count, frame_count. by rewrite Hm, Hg.
Qed.

Lemma same_items_of m items items' : Forall2 same_but_spans items items' -> Forall2 same_but_spans (items_of m items) (items_of m items').
Proof.
  induction 1 as [|a b items items' Hab _ IH]; [constructor|]. destruct (same_merged _ _ Hab) as (_ & _ & _ & Hm).
  destruct (decide (modality a = m)) as [E|E].
  - rewrite !items_of_cons_eq by congruence. by constructor.
  - rewrite !items_of_cons_ne by congruence. done.
Qed.

Lemma same_grids (f g : VisionItem -> list (Z * Z)) items items' : Forall2 same_but_spans items items' ->
  (forall a b, a ∈ items -> same_but_spans a b -> f a = g b) -> concat (f <$> items) = concat (g <$> items').
Proof.
  induction 1 as [|a b items items' Hab _ IH]; intros Hfg; [done|]. cbn. rewrite (Hfg a b) by (done || left). f_equal.
  apply IH. intros x y Hx. apply Hfg. by right.
Qed.

Lemma concat_singletons {A B} (f : A -> B) l : concat ((fun i => [f i]) <$> l) = f <$> l.
Proof. induction l as [|x l IH]; [done|]. cbn. by rewrite IH. Qed.

Lemma items_filled runs items items' b : Forall2 same_but_spans items items' ->
  bind_runs runs (merged_grid <$> items_of Image items) (frames_of (items_of Video items)) = Some b ->
  spans_in (items_of Image items') = spans_of 1 0 runs -> spans_in (items_of Video items') = spans_of 2 0 runs ->
  Forall (fun i => length (token_spans i) = span_count i) items' -> Forall item_filled items'.
Proof.
  intros Hsame Hb Hi Hv Hlen. destruct (bind_fills runs _ _ _ 0%nat Hb) as [F1 F2]. rewrite <- Hi in F1. rewrite <- Hv in F2.
  assert (Hlen' : forall m, Forall (fun i => length (token_spans i) = span_count i) (items_of m items')).
  { intros m. apply Forall_forall. intros i Hin. unfold items_of in Hin. apply list_elem_of_filter in Hin as [_ Hin]. rewrite Forall_forall in Hlen. by apply Hlen. }
  assert (Hmod : forall m i, i ∈ items_of m items -> modality i = m).
  { intros m i Hin. unfold items_of in Hin. by apply list_elem_of_filter in Hin as [? _]. }
  assert (F : forall m, Forall item_filled (items_of m items')).
  { intros m. apply distributed_filled; [done|]. pose proof (same_items_of m _ _ Hsame) as Hs. destruct m.
    - rewrite <- (same_grids (fun i => [merged_grid i]) (fun i => replicate (span_count i) (merged_grid i)) _ _ Hs).
      + by rewrite concat_singletons.
      + intros x y Hx Hxy. destruct (same_merged _ _ Hxy) as (-> & _ & -> & _). unfold span_count. by rewrite (Hmod _ _ Hx).
    - rewrite <- (same_grids (fun i => replicate (frame_count i) (merged_grid i)) (fun i => replicate (span_count i) (merged_grid i)) _ _ Hs); [done|].
      intros x y Hx Hxy. destruct (same_merged _ _ Hxy) as (-> & _ & -> & _). unfold span_count. by rewrite (Hmod _ _ Hx). }
  apply Forall_forall. intros i Hin. specialize (F (modality i)). rewrite Forall_forall in F. apply F.
  unfold items_of. by apply list_elem_of_filter.
Qed.

Lemma filled_total i : item_filled i -> spans_total (token_spans i) = Z.of_nat (length (token_spans i)) * ((merged_grid i).1 * (merged_grid i).2).
Proof.
  unfold item_filled, spans_total. induction 1 as [|s l Hs _ IH]; [done|]. cbn [foldr length].
  rewrite IH, Hs, Nat2Z.inj_succ, Z.mul_succ_l. lia.
Qed.

(** *** All items *)

(** What the control expects of an item. *)
Record item_wf (i : VisionItem) : Prop := {
  wf_temporal : 1 <= temporal (grid i);
  wf_image : modality i = Image -> temporal (grid i) = 1;
  wf_height : 0 < height (grid i) /\ height (grid i) mod 2 = 0;
  wf_width : 0 < width (grid i) /\ width (grid i) mod 2 = 0;
  wf_patches : patch_count i = temporal (grid i) * height (grid i) * width (grid i);
  wf_bounded : patch_count i <= i32_max;
  wf_spans : length (token_spans i) = span_count i;
  wf_filled : item_filled i;
}.

Lemma wf_tokens i : item_wf i -> spans_total (token_spans i) = patch_count i / 4.
Proof.
  intros [Ht Him [Hh Eh] [Hw Ew] Hp _ Hs Hf]. rewrite (filled_total i Hf), Hs, Hp. unfold merged_grid, Processor.kMerge. cbn [fst snd].
  assert (Hc : Z.of_nat (span_count i) = temporal (grid i)).
  { unfold span_count, frame_count. destruct (modality i); [by rewrite Him|lia]. }
  rewrite Hc. pose proof (Z.div_mod (height (grid i)) 2 ltac:(lia)) as D1. pose proof (Z.div_mod (width (grid i)) 2 ltac:(lia)) as D2.
  rewrite Eh in D1. rewrite Ew in D2. rewrite D1, D2 at 2. replace (temporal (grid i) * (2 * (height (grid i) / 2) + 0) * (2 * (width (grid i) / 2) + 0))
    with (temporal (grid i) * (height (grid i) / 2 * (width (grid i) / 2)) * 4) by lia. by rewrite Z.div_mul.
Qed.

(** The items one after the other: [cursor] patches before, and the spans in order after [b]. *)
Fixpoint items_chain (types : list Z) (b cursor : Z) (items : list VisionItem) : Prop :=
  match items with
  | [] => True
  | i :: items' => patch_begin i = cursor /\ chain types b (pair (modality_value (modality i)) <$> token_spans i) /\
      items_chain types (spans_end b (token_spans i)) (cursor + patch_count i) items'
  end.

Definition items_patches (items : list VisionItem) : Z := foldr (fun i n => patch_count i + n) 0 items.
Definition items_tokens (items : list VisionItem) : Z := foldr (fun i n => patch_count i / 4 + n) 0 items.

Lemma control_item_run prompt st item b :
  item_wf item -> patch_begin item = patch_cursor st -> chain (token_types prompt) b (pair (modality_value (modality item)) <$> token_spans item) ->
  Z.of_nat (length (token_types prompt)) <= i32_max -> 0 <= b ->
  (if token_cursor st =? 0 then 0
   else match last (cs_items st) with Some c => List.last (scatter_indices c) 0 + 1 | None => 0 end) <= b ->
  0 <= (if token_cursor st =? 0 then 0
   else match last (cs_items st) with Some c => List.last (scatter_indices c) 0 + 1 | None => 0 end) ->
  exists c, control_item prompt st item =
    Ok (mkControlState (cs_items st ++ [c]) (u64 (patch_cursor st + patch_count item)) (u64 (token_cursor st + patch_count item / 4))) /\
    scatter_indices c = span_indices (token_spans item).
Proof.
  intros Hwf Hbegin Hchain Hlen Hb Hnext Hnext0. pose proof (wf_tokens item Hwf) as Htok.
  destruct Hwf as [Ht Him [Hh Eh] [Hw Ew] Hp Hmax Hs Hf]. unfold control_item.
  set (next := if token_cursor st =? 0 then 0 else _) in *. unfold VisionControl.kMerge. cbv zeta.
  assert ((temporal (grid item) <=? 0) || (height (grid item) <=? 0) || (width (grid item) <=? 0) || negb (height (grid item) mod 2 =? 0) ||
    negb (width (grid item) mod 2 =? 0) = false) as ->.
  { rewrite Eh, Ew. cbn. rewrite !orb_false_r. repeat (apply orb_false_iff; split); apply Z.leb_gt; lia. }
  cbn [throw_if rbind]. assert (Hu : u64 (temporal (grid item) * height (grid item) * width (grid item)) = patch_count item).
  { rewrite <- Hp. apply u64_small. unfold_ints. unfold i32_max in Hmax. nia. }
  rewrite Hu, Hbegin, !Z.eqb_refl. cbn [negb orb throw_if rbind].
  assert (Hspans : match modality item with Video => temporal (grid item) | Image => 1 end = Z.of_nat (length (token_spans item))).
  { rewrite Hs. unfold span_count, frame_count. destruct (modality item); lia. }
  rewrite Hspans, Z.eqb_refl. cbn [negb throw_if rbind].
  assert (Hq : 0 <= patch_count item / 4 <= i32_max).
  { split; [apply Z.div_pos; nia|]. etransitivity; [apply Z.div_le_upper_bound; [lia|]; instantiate (1 := patch_count item); nia|done]. }
  rewrite (control_spans_run (token_types prompt) (modality_value (modality item)) (token_spans item) [] 0 next); [|by eapply chain_weaken|lia|lia|lia|lia].
  cbn [app rbind]. rewrite Z.add_0_l, Htok. change (2 * 2) with 4. rewrite Z.eqb_refl. cbn [negb throw_if rbind].
  destruct (control_segments_run (Z.to_nat (temporal (grid item))) (height (grid item)) (width (grid item)) [0] []) as (cu & coords & -> & Hcu & Hcoords);
    [lia|lia|done|done|cbn; lia|cbn; nia|]. cbn [rbind].
  assert (vc_checked_i32 (patch_count item) = Ok (patch_count item)) as -> by (by apply vc_checked_i32_Ok). cbn [rbind].
  cbn in Hcu, Hcoords. rewrite Z2Nat.id in Hcu, Hcoords by lia.
  assert (Z.of_nat (length coords) = patch_count item) as -> by nia. assert (List.last cu 0 = patch_count item) as -> by nia.
  rewrite span_indices_length, Htok, !Z.eqb_refl.
  2: { eapply Forall_impl; [by eapply chain_counts|]. cbn. lia. }
  cbn [negb orb throw_if rbind]. eexists. split; [done|]. done.
Qed.

Definition next_begin (st : ControlState) : Z :=
  if token_cursor st =? 0 then 0
  else match last (cs_items st) with Some c => List.last (scatter_indices c) 0 + 1 | None => 0 end.

Lemma wf_counts i b types : item_wf i -> chain types b (pair (modality_value (modality i)) <$> token_spans i) ->
  token_spans i <> [] /\ 0 < patch_count i / 4 /\ 0 <= patch_count i.
Proof.
  intros Hwf Hc. pose proof (wf_tokens i Hwf) as Ht. apply chain_counts in Hc. destruct Hwf as [H1 Him [Hh _] [Hw _] Hp _ Hs _].
  assert (Hne : token_spans i <> []).
  { intros E. rewrite E in Hs. unfold span_count, frame_count in Hs. cbn in Hs. destruct (modality i); lia. }
  split; [done|]. split; [|nia]. rewrite <- Ht. destruct (token_spans i) as [|s l]; [done|]. apply Forall_cons in Hc as [Hc Hl].
  unfold spans_total. cbn. enough (0 <= foldr (fun s n => ts_count s + n) 0 l) by lia. clear -Hl. induction Hl; cbn; lia.
Qed.

Lemma control_items_run prompt items : forall st b,
  Forall item_wf items -> items_chain (token_types prompt) b (patch_cursor st) items ->
  Z.of_nat (length (token_types prompt)) <= i32_max -> 0 <= b -> next_begin st <= b -> 0 <= next_begin st ->
  0 <= patch_cursor st -> 0 <= token_cursor st -> patch_cursor st + items_patches items <= i32_max ->
  token_cursor st + items_tokens items <= i32_max ->
  exists cs, rfoldl (control_item prompt) st items =
    Ok (mkControlState (cs_items st ++ cs) (patch_cursor st + items_patches items) (token_cursor st + items_tokens items)) /\
    length cs = length items.
Proof.
  induction items as [|item items IH]; intros st b Hwf Hc Hlen Hb Hn Hn0 Hp Ht Hsum Hsumt.
  { exists []. cbn. rewrite app_nil_r, !Z.add_0_r. by destruct st. }
  apply Forall_cons in Hwf as [Hi Hwf]. destruct Hc as (Hbegin & Hspans & Hc). cbn [rfoldl items_patches items_tokens foldr] in *.
  fold (items_patches items) (items_tokens items) in *. destruct (wf_counts item b _ Hi Hspans) as (Hne & Hq & Hpc).
  assert (Hrest : 0 <= items_patches items /\ 0 <= items_tokens items).
  { clear -Hwf Hc. revert Hwf Hc. generalize (spans_end b (token_spans item)) as c. generalize (patch_cursor st + patch_count item) as d.
    induction items as [|x items IH]; intros d c Hwf Hc; [done|]. apply Forall_cons in Hwf as [Hx Hwf]. destruct Hc as (_ & Hs & Hc).
    destruct (IH _ _ Hwf Hc). destruct (wf_counts x c _ Hx Hs) as (_ & ? & ?). unfold items_patches, items_tokens in *. cbn. lia. }
  destruct (control_item_run prompt st item b Hi Hbegin Hspans Hlen Hb Hn Hn0) as (c & -> & Hsc). cbn [rbind].
  rewrite !u64_small by (unfold_ints; unfold i32_max in *; lia).
  assert (Hnb : next_begin (mkControlState (cs_items st ++ [c]) (patch_cursor st + patch_count item) (token_cursor st + patch_count item / 4)) =
    spans_end b (token_spans item)).
  { unfold next_begin. cbn [token_cursor cs_items]. destruct (Z.eqb_spec (token_cursor st + patch_count item / 4) 0); [lia|].
    rewrite last_snoc, Hsc. by eapply span_indices_last. }
  pose proof (spans_end_le _ _ _ _ Hspans) as Hend.
  destruct (IH (mkControlState (cs_items st ++ [c]) (patch_cursor st + patch_count item) (token_cursor st + patch_count item / 4))
              (spans_end b (token_spans item)) Hwf) as (cs & -> & Hcs); cbn [patch_cursor token_cursor cs_items]; try done; try lia; try (rewrite Hnb; lia).
  exists (c :: cs). rewrite <- app_assoc. cbn [app length]. rewrite !Z.add_assoc. split; [done|]. lia.
Qed.

(** Items whose spans are those of the prompt in order form a chain. *)
Lemma items_chain_intro types items : forall b cursor,
  chain types b (concat ((fun i => pair (modality_value (modality i)) <$> token_spans i) <$> items)) ->
  (forall k i, items !! k = Some i -> patch_begin i = cursor + items_patches (take k items)) ->
  items_chain types b cursor items.
Proof.
  induction items as [|item items IH]; intros b cursor Hc Hp; [done|]. cbn [fmap list_fmap concat] in Hc. apply chain_app in Hc as [H1 H2].
  split; [by rewrite (Hp 0%nat item), Z.add_0_r|]. split; [done|]. apply IH; [done|]. intros k i Hk.
  rewrite (Hp (S k) i) by done. unfold items_patches. cbn. lia.
Qed.

(** ** The media *)

(** What a builder of the cache gives: an item with a grid of whole merged patches, a payload of all its patches. *)
Record media_wf (m : PreparedMedia) : Prop := {
  mw_temporal : 1 <= temporal (grid (media_item m)) <= i32_max;
  mw_image : modality (media_item m) = Image -> temporal (grid (media_item m)) = 1;
  mw_height : 0 < height (grid (media_item m)) <= i32_max /\ height (grid (media_item m)) mod 2 = 0;
  mw_width : 0 < width (grid (media_item m)) <= i32_max /\ width (grid (media_item m)) mod 2 = 0;
  mw_spans : token_spans (media_item m) = [];
  mw_payload : forall p, payload m = Some p -> 0 <= patch_elements p <= u64_max /\
    patch_elements p = temporal (grid (media_item m)) * height (grid (media_item m)) * width (grid (media_item m)) * kPatchFeatures;
}.
Definition outcome_wf (o : result (option PreparedMedia)) : Prop := forall m, o = Ok (Some m) -> media_wf m.

(** The items taken so far, with their payloads. *)
Record taken (options : ProcessorOptions) (st : MediaPhase) : Prop := {
  tk_items : Forall2 (fun i p => patch_elements p = patch_count i * kPatchFeatures /\ 1 <= temporal (grid i) <= i32_max /\
      (modality i = Image -> temporal (grid i) = 1) /\ 0 < height (grid i) <= i32_max /\ height (grid i) mod 2 = 0 /\
      0 < width (grid i) <= i32_max /\ width (grid i) mod 2 = 0 /\ token_spans i = [] /\
      patch_count i = temporal (grid i) * height (grid i) * width (grid i)) (mp_items st) (mp_payloads st);
  tk_cursor : mp_cursor st = items_patches (mp_items st);
  tk_raw : ps_raw_patches (mp_stats st) = items_patches (mp_items st);
  tk_tokens : ps_vision_tokens (mp_stats st) = items_tokens (mp_items st);
  tk_limit : items_patches (mp_items st) <= max_raw_patches options;
  tk_begins : forall k i, mp_items st !! k = Some i -> patch_begin i = items_patches (take k (mp_items st));
}.

Lemma media_mul_Ok a b c : 0 <= a -> 0 <= b -> checked_mul a b = Ok c -> c = a * b /\ 0 <= c <= u64_max.
Proof.
  intros Ha Hb H. unfold checked_mul in H. destruct (Z.eqb_spec a 0) as [->|Hne].
  - cbn in H. injection H as <-. unfold u64. rewrite Z.mod_0_l by lia. unfold u64_max. lia.
  - cbn [negb andb] in H. rewrite Z.gtb_ltb in H. destruct (Z.ltb_spec (u64_max / a) b) as [|Hle]; [done|]. cbn in H. injection H as <-.
    pose proof (Z.mul_div_le u64_max a ltac:(lia)). assert (a * b <= u64_max) by nia.
    rewrite u64_small by (unfold u64_max in *; unfold_ints; nia). split; [done|nia].
Qed.

Lemma claim_Ok options item stats s : 0 <= temporal (grid item) <= i32_max -> 0 <= height (grid item) <= i32_max -> 0 <= width (grid item) <= i32_max ->
  claim options item stats = (Ok tt, s) -> let n := temporal (grid item) * height (grid item) * width (grid item) in
  ps_raw_patches s = u64 (ps_raw_patches stats + n) /\ ps_vision_tokens s = u64 (ps_vision_tokens stats + n / 4) /\
  ps_raw_patches s <= max_raw_patches options /\ 0 <= n.
Proof.
  intros Ht Hh Hw Hc. unfold claim, add_budget in Hc. unfold i32_max in *. rewrite !u64_small in Hc by (unfold_ints; lia).
  minv. cbv zeta. unfold enforce_media_resource_limits in *. rinv. cbn [ps_raw_patches ps_vision_tokens] in *.
  change (Processor.kMerge * Processor.kMerge) with 4 in *.
  apply media_mul_Ok in Hm1 as [-> _]; [|lia|lia]. apply media_mul_Ok in Hm2 as [-> [Hn _]]; [|lia|nia].
  rewrite !Z.mul_assoc in *. done.
Qed.

Lemma items_patches_app a b : items_patches (a ++ b) = items_patches a + items_patches b.
Proof. unfold items_patches. induction a as [|x a IH]; cbn; [done|]. rewrite IH. lia. Qed.
Lemma items_tokens_app a b : items_tokens (a ++ b) = items_tokens a + items_tokens b.
Proof. unfold items_tokens. induction a as [|x a IH]; cbn; [done|]. rewrite IH. lia. Qed.

Lemma taken_nonneg options st : taken options st -> 0 <= items_patches (mp_items st) /\ 0 <= items_tokens (mp_items st) <= items_patches (mp_items st).
Proof.
  intros [H _ _ _ _ _]. unfold items_patches, items_tokens. induction H as [|i p items ps (_ & Ht & _ & Hh & _ & Hw & _ & _ & Hp) _ IH]; [done|].
  cbn [foldr]. assert (0 <= patch_count i) by nia. pose proof (Z.div_pos (patch_count i) 4 ltac:(lia) ltac:(lia)).
  pose proof (Z.mul_div_le (patch_count i) 4 ltac:(lia)). lia.
Qed.

Lemma take_media_ok options st o : max_raw_patches options <= i32_max -> outcome_wf o ->
  (mp_error st = None -> taken options st) -> mp_error (take_media options st o) = None -> taken options (take_media options st o).
Proof.
  intros Hmax Hwf Hst. unfold take_media. destruct (mp_error st) as [e|] eqn:Ee; [by rewrite Ee|]. specialize (Hst eq_refl).
  destruct o as [[m|]|e]; [|done|done]. cbn [mbind option_bind]. destruct (payload m) as [p|] eqn:Ep; [|done].
  destruct (negb (patch_elements p mod kPatchFeatures =? 0)); [done|].
  specialize (Hwf m eq_refl). destruct Hwf as [Ht Him [Hh Eh] [Hw Ew] Hs Hpl]. destruct (Hpl p Ep) as [Hpe Hpm].
  set (it := media_item m) in *. set (n := temporal (grid it) * height (grid it) * width (grid it)) in *.
  assert (Hcount : patch_elements p / kPatchFeatures = n) by (rewrite Hpm; by rewrite Z.div_mul).
  rewrite Hcount. set (item := place_item (mp_cursor st) n it).
  destruct (claim options item (mp_stats st)) as [[[]|e] stats] eqn:Ec; [|done]. intros _.
  apply claim_Ok in Ec; [|cbn; lia|cbn; lia|cbn; lia]. cbv zeta in Ec. change (grid item) with (grid it) in Ec. fold n in Ec.
  destruct Ec as (Er & Ev & Elim & Hn). destruct (taken_nonneg _ _ Hst) as [Hnn Htt]. destruct Hst as [H1 H2 H3 H4 H5 H6].
  assert (Hnmax : n * 1536 <= u64_max) by (unfold kPatchFeatures, kTemporal, kPatch in Hpm; lia).
  rewrite H3, u64_small in Er by (unfold u64_max, i32_max in *; unfold_ints; lia).
  pose proof (Z.div_pos n 4 Hn ltac:(lia)). pose proof (Z.mul_div_le n 4 ltac:(lia)).
  rewrite H4, u64_small in Ev by (unfold u64_max, i32_max in *; unfold_ints; lia).
  change (patch_count item) with n. split; cbn [mp_items mp_payloads mp_cursor mp_stats mp_error add_patch_bytes ps_raw_patches ps_vision_tokens].
  - apply Forall2_app; [done|]. constructor; [|constructor]. cbn. split_and!; try done; lia.
  - rewrite H2, items_patches_app, u64_small by (unfold u64_max, i32_max in *; unfold_ints; lia). unfold items_patches. cbn. lia.
  - rewrite Er, items_patches_app. unfold items_patches. cbn. lia.
  - rewrite Ev, items_tokens_app. unfold items_tokens. cbn. lia.
  - rewrite items_patches_app. unfold items_patches at 2. cbn. fold n. lia.
  - intros k i Hk. apply lookup_app_Some in Hk as [Hk|[Hk1 Hk2]].
    + rewrite take_app_le by (apply lookup_lt_Some in Hk; lia). by apply H6.
    + apply list_lookup_singleton_Some in Hk2 as [Hz <-]. replace k with (length (mp_items st)) by lia. rewrite take_app_length. cbn. exact H2.
Qed.

Lemma media_phase_ok options parts remaining outcome : max_raw_patches options <= i32_max -> 0 <= max_raw_patches options ->
  (forall i, outcome_wf (awaited (outcome i))) -> mp_error (media_phase options parts remaining outcome) = None ->
  taken options (media_phase options parts remaining outcome).
Proof.
  intros Hmax Hmax0 Hwf. unfold media_phase. set (stats := mkPreprocessStats _ _ _ _ _ _ _).
  destruct (begin_media (outcome <$> seq 0 (length parts))) as [pending error] eqn:Eb.
  assert (Hp : Forall outcome_wf pending).
  { revert pending error Eb. generalize (seq 0 (length parts)) as l. induction l as [|i l IH]; intros pending error Eb; cbn in Eb; [by injection Eb as <- <-|].
    destruct (begun (outcome i)) as [u|e]; [|by injection Eb as <- <-]. destruct (begin_media (outcome <$> l)) as [q e] eqn:Eq.
    injection Eb as <- <-. constructor; [apply Hwf|by eapply IH]. }
  assert (Hstart : mp_error (mkMediaPhase error 0 stats [] []) = None -> taken options (mkMediaPhase error 0 stats [] [])).
  { intros _. by split. }
  revert Hstart. generalize (mkMediaPhase error 0 stats [] []) as st. clear Eb. induction Hp as [|o pending Ho _ IH]; intros st Hst; [exact Hst|].
  cbn [foldl]. apply IH. intros He. by apply take_media_ok.
Qed.

(** ** The prompt *)

Lemma convert_vision_item_id i : convert_vision_item i = i.
Proof.
  destruct i as [m [t h w] pb pc d ts sp]. unfold convert_vision_item. cbn. f_equal; [by destruct m|].
  rewrite <- (list_fmap_id sp) at 2. apply list_fmap_ext. by intros _ [b c] _.
Qed.

Lemma convert_all (items : list VisionItem) : convert_vision_item <$> items = items.
Proof. rewrite <- (list_fmap_id items) at 2. apply list_fmap_ext. intros. apply convert_vision_item_id. Qed.

Lemma axis_major_length l : length (axis_major l) = (3 * length l)%nat.
Proof. unfold axis_major. rewrite !length_app, !length_fmap. lia. Qed.

Lemma same_patches items items' : Forall2 same_but_spans items items' -> forall k,
  items_patches (take k items') = items_patches (take k items) /\ items_tokens (take k items') = items_tokens (take k items).
Proof.
  induction 1 as [|a b items items' Hab _ IH]; intros k; [by destruct k|]. destruct k as [|k]; [done|]. cbn [take].
  unfold items_patches, items_tokens in *. cbn [foldr]. destruct (IH k) as [-> ->]. destruct Hab as (_ & _ & _ & -> & _). done.
Qed.

Lemma assign_keeps before out : assign_positions before = Ok out ->
  pi_input_ids out = pi_input_ids before /\ pi_token_types out = pi_token_types before /\
  pi_media_payloads out = pi_media_payloads before /\ pi_stats out = pi_stats before /\
  pi_rewrite_checkpoint out = pi_rewrite_checkpoint before.
Proof. unfold assign_positions. intros H. rinv. by subst out. Qed.

(** A processed input comes from a media phase without an error. *)
Lemma process_inv `{CharacterTables} `{OrderedJsonText} `{TimestampText} t semantics options messages render_options controls outcome out :
  process t semantics options messages render_options controls outcome = Ok out ->
  exists parts remaining before, let st := media_phase options parts remaining outcome in
    mp_error st = None /\ assign_positions before = Ok out /\ pi_vision_items before = mp_items st /\
    pi_token_types before = token_type <$> pi_input_ids before /\ pi_media_payloads before = mp_payloads st /\
    ps_raw_patches (pi_stats before) = ps_raw_patches (mp_stats st) /\ ps_vision_tokens (pi_stats before) = ps_vision_tokens (mp_stats st).
Proof.
  unfold process. intros Hp. rinv. destruct (mp_error (media_phase options v0 v2 outcome)) eqn:Ee; [done|]. rinv. subst out.
  exists v0, v2. eexists. cbv zeta. split; [done|]. split; [exact Hv11|]. done.
Qed.

Lemma taken_fresh options st : taken options st -> fresh_items (mp_items st).
Proof.
  intros [H _ _ _ _ _]. split.
  - induction H as [|i p items ps (_ & ? & _ & ? & _ & ? & _) _ IH]; constructor; [unfold item_ok; lia|done].
  - induction H as [|i p items ps (_ & _ & _ & _ & _ & _ & _ & ? & _) _ IH]; by constructor.
Qed.

(** The items of the media phase with the spans of their runs are what the control expects. *)
Lemma taken_wf options st items' : taken options st -> max_raw_patches options <= i32_max ->
  Forall2 same_but_spans (mp_items st) items' -> Forall (fun i => length (token_spans i) = span_count i) items' ->
  Forall item_filled items' -> Forall item_wf items'.
Proof.
  intros Htk Hmax Hsame Hlen Hfill. pose proof (taken_nonneg _ _ Htk) as [_ _]. destruct Htk as [Hi _ _ _ Hlim _].
  assert (Hbound : forall i, i ∈ mp_items st -> patch_count i <= i32_max).
  { intros i Hin. etransitivity; [|exact Hmax]. etransitivity; [|exact Hlim]. clear -Hi Hin. revert i Hin. unfold items_patches.
    assert (Hnn : Forall (fun i => 0 <= patch_count i) (mp_items st)).
    { apply Forall_forall. intros i Hin. apply list_elem_of_lookup in Hin as [k Hk]. destruct (Forall2_lookup_l _ _ _ _ _ Hi Hk) as (p & _ & _ & ? & _ & ? & _ & ? & _ & _ & ->). nia. }
    clear Hi. induction Hnn as [|x l Hx Hl IH]; intros i Hin; [by apply elem_of_nil in Hin|]. cbn.
    assert (0 <= foldr (fun i n => patch_count i + n) 0 l) by (clear -Hl; induction Hl; cbn; lia).
    apply elem_of_cons in Hin as [->|Hin]; [lia|]. specialize (IH _ Hin). lia. }
  apply Forall_lookup. intros k i Hk. destruct (Forall2_lookup_r _ _ _ _ _ Hsame Hk) as (j & Hj & Hm & Hg & _ & Hc & _).
  destruct (Forall2_lookup_l _ _ _ _ _ Hi Hj) as (p & _ & _ & Ht & Him & Hh & Eh & Hw & Ew & _ & Hp).
  rewrite Forall_lookup in Hlen, Hfill. pose proof (Hbound j ltac:(by eapply list_elem_of_lookup_2)).
  split; rewrite ?Hm, ?Hg, ?Hc; try done; try lia; [by apply (Hlen k)|by apply (Hfill k)].
Qed.

(** What the positions of the media phase's items leave: the items with their spans, over the whole prompt. *)
Lemma positioned_chain options st before out : taken options st -> max_raw_patches options <= i32_max ->
  pi_vision_items before = mp_items st -> length (pi_token_types before) = length (pi_input_ids before) ->
  assign_positions before = Ok out -> in_order (pi_token_types out) (pi_vision_items out) ->
  Forall2 same_but_spans (mp_items st) (pi_vision_items out) /\ Forall item_wf (pi_vision_items out) /\
  items_chain (pi_token_types out) 0 0 (pi_vision_items out) /\ length (pi_positions out) = (3 * length (pi_input_ids out))%nat.
Proof.
  intros Htk Hmax Hitems Hlen Ha Horder.
  pose proof (assign_positions_spec before Hlen ltac:(rewrite Hitems; by eapply taken_fresh)) as Hx. cbv zeta in Hx. rewrite Hitems in Hx.
  destruct (bind_runs _ _ _) as [b|] eqn:Eb; [|congruence]. destruct Hx as (items' & Hok & Hm & _ & Hsame & Hi & Hv & Hspans).
  rewrite Ha in Hok. injection Hok as ->. cbn [pi_vision_items pi_token_types pi_positions pi_input_ids] in *.
  pose proof (items_filled _ _ _ _ Hsame Eb Hi Hv Hspans) as Hfill.
  split; [done|]. split; [by eapply taken_wf|]. split; [|by rewrite axis_major_length, Hm]. apply items_chain_intro.
  - rewrite <- (spans_distributed items' (typed_spans 0 (runs_of (pi_token_types before)))); [apply prompt_chain|done|done|].
    intros m. rewrite <- spans_typed_of by apply modality_value_pos. by destruct m.
  - intros k i Hk. destruct (Forall2_lookup_r _ _ _ _ _ Hsame Hk) as (j & Hj & _ & _ & -> & _).
    rewrite (tk_begins _ _ Htk k j Hj). destruct (same_patches _ _ Hsame k) as [-> _]. done.
Qed.

(** The control of such items, with the totals of the statistics. *)
Lemma positioned_control options st before out : taken options st -> max_raw_patches options <= i32_max ->
  pi_vision_items before = mp_items st -> length (pi_token_types before) = length (pi_input_ids before) ->
  ps_raw_patches (pi_stats before) = ps_raw_patches (mp_stats st) -> ps_vision_tokens (pi_stats before) = ps_vision_tokens (mp_stats st) ->
  assign_positions before = Ok out -> in_order (pi_token_types out) (pi_vision_items out) -> Z.of_nat (length (pi_input_ids out)) <= i32_max ->
  exists controls, build_vision_control (media_prompt out) = Ok controls /\ length controls = length (pi_vision_items out).
Proof.
  intros Htk Hmax Hitems Hlen Hraw Htok Ha Horder Hn.
  destruct (positioned_chain options st before out Htk Hmax Hitems Hlen Ha Horder) as (Hsame & Hwf & Hchain & _).
  destruct (assign_keeps _ _ Ha) as (Eids & Etypes & _ & Estats & _).
  destruct (same_patches _ _ Hsame (length (mp_items st))) as [Ep Et]. rewrite firstn_all, take_ge in Ep, Et by (by rewrite (Forall2_length _ _ _ Hsame)).
  destruct (taken_nonneg _ _ Htk) as [Hnn Htn]. pose proof (tk_limit _ _ Htk) as Hlim. rewrite <- Etypes, <- Eids in Hlen.
  unfold build_vision_control, media_prompt. cbn [token_ids token_types vision_items raw_patches vision_tokens]. rewrite convert_all, Hlen, Nat.eqb_refl.
  cbn [negb throw_if rbind].
  destruct (control_items_run (media_prompt out) (pi_vision_items out) (mkControlState [] 0 0) 0 Hwf Hchain) as (cs & Hcs & Hlc);
    cbn [media_prompt token_types patch_cursor token_cursor next_begin Z.eqb]; try done; try lia; try (rewrite Hlen; lia).
  unfold media_prompt in Hcs. rewrite convert_all in Hcs. rewrite Hcs. cbn [rbind patch_cursor token_cursor cs_items app].
  rewrite !Z.add_0_l, Estats, Hraw, Htok, (tk_raw _ _ Htk), (tk_tokens _ _ Htk), Ep, Et, !Z.eqb_refl, Hlc, Nat.eqb_refl. cbn. eauto.
Qed.

Lemma taken_payloads options st items' : taken options st -> max_raw_patches options <= i32_max -> Forall2 same_but_spans (mp_items st) items' ->
  existsb (fun '(payload, item) => match payload with None => true | Some elements => negb (elements =? u64 (patch_count item * kPreparedVisionPatchFeatures)) end)
    (zip ((fun m => Some (patch_elements m)) <$> mp_payloads st) items') = false.
Proof.
  intros Htk Hmax Hsame. apply not_true_iff_false. intros Hx. apply existsb_exists in Hx as ([pl i] & Hin & Hne).
  apply list_elem_of_In, list_elem_of_lookup in Hin as [k Hk]. apply lookup_zip_with_Some in Hk as (pl' & i' & [= <- <-] & Hp & Hk).
  rewrite list_lookup_fmap in Hp. destruct (mp_payloads st !! k) as [p|] eqn:Ep; [|done]. injection Hp as <-.
  destruct (Forall2_lookup_r _ _ _ _ _ Hsame Hk) as (j & Hj & _ & _ & _ & Hc & _).
  destruct (Forall2_lookup_l _ _ _ _ _ (tk_items _ _ Htk) Hj) as (p' & Hp' & Hpe & Ht & _ & Hh & _ & Hw & _ & _ & Hcount).
  rewrite Ep in Hp'. injection Hp' as <-. apply negb_true_iff, Z.eqb_neq in Hne. apply Hne. rewrite Hc, Hpe.
  assert (0 <= patch_count j) by nia.
  assert (patch_count j <= i32_max).
  { etransitivity; [|exact Hmax]. etransitivity; [|exact (tk_limit _ _ Htk)]. rewrite <- (take_drop_middle _ _ _ Hj), items_patches_app.
    unfold items_patches at 2. cbn [foldr]. fold (items_patches (drop (S k) (mp_items st))).
    enough (0 <= items_patches (take k (mp_items st)) /\ 0 <= items_patches (drop (S k) (mp_items st))) by lia.
    assert (Hall : Forall (fun i => 0 <= patch_count i) (mp_items st)).
    { apply Forall_lookup. intros n x Hxx. destruct (Forall2_lookup_l _ _ _ _ _ (tk_items _ _ Htk) Hxx) as (q & _ & _ & ? & _ & ? & _ & ? & _ & _ & ->). nia. }
    assert (Hpos : forall l, Forall (fun i => 0 <= patch_count i) l -> 0 <= items_patches l) by (induction 1; unfold items_patches in *; cbn; lia).
    split; apply Hpos; [by apply Forall_take|by apply Forall_drop]. }
  change kPreparedVisionPatchFeatures with kPatchFeatures. change kPatchFeatures with 1536. symmetry. apply u64_small. unfold_ints. unfold i32_max in *. lia.
Qed.

(** The checks of the request plan. *)
Lemma media_prompt_valid `{ProgramConfig} options st out : taken options st -> max_raw_patches options <= i32_max ->
  Forall2 same_but_spans (mp_items st) (pi_vision_items out) -> pi_media_payloads out = mp_payloads st ->
  length (pi_token_types out) = length (pi_input_ids out) -> length (pi_positions out) = (3 * length (pi_input_ids out))%nat ->
  Z.of_nat (length (pi_input_ids out)) <= i32_max -> pi_input_ids out <> [] ->
  Z.of_nat (length (pi_input_ids out)) <= ProgramState.capacity -> Forall (fun id => 0 <= id < token_domain) (pi_input_ids out) ->
  vision_enabled = true -> validate_prompt (media_prompt out) = Ok tt.
Proof.
  intros Htk Hmax Hsame Hpay Hl Hpos Hlen Hne Hcap Hdom Hvision.
  assert (Hcount : length (mp_payloads st) = length (pi_vision_items out)).
  { rewrite <- (Forall2_length _ _ _ (tk_items _ _ Htk)). by apply Forall2_length in Hsame. }
  unfold validate_prompt, PrefixIdentity.has_media, prompt_shape, media_prompt. cbn [token_ids token_types positions media_payloads vision_items].
  rewrite convert_all, Hpay, Hl, Hpos, !Nat.eqb_refl, Hvision. cbn [andb negb].
  rewrite bool_decide_eq_false_2 by done. cbn [throw_if rbind].
  assert ((Z.of_nat (length (pi_input_ids out)) >? ProgramState.capacity) = false) as -> by (rewrite Z.gtb_ltb; by apply Z.ltb_ge).
  assert ((Z.of_nat (length (pi_input_ids out)) >? u32_max) = false) as -> by (rewrite Z.gtb_ltb; apply Z.ltb_ge; unfold i32_max in *; unfold_ints; lia).
  cbn [throw_if rbind].
  assert (existsb (fun id => (id <? 0) || (id >=? token_domain)) (pi_input_ids out) = false) as ->.
  { apply not_true_iff_false. intros Hx. apply existsb_exists in Hx as (id & Hin & Hid). rewrite Forall_forall in Hdom.
    apply list_elem_of_In, Hdom in Hin. apply orb_true_iff in Hid as [?%Z.ltb_lt|Hid]; [lia|]. rewrite Z.geb_leb in Hid. apply Z.leb_le in Hid. lia. }
  cbn [throw_if rbind]. rewrite length_fmap, Hcount, Nat.eqb_refl.
  assert (bool_decide (negb (bool_decide (pi_vision_items out = [])) = negb (bool_decide ((fun m => Some (patch_elements m)) <$> mp_payloads st = []))) = true) as ->.
  { apply bool_decide_eq_true. f_equal. apply bool_decide_ext. split; intros E.
    - rewrite E in Hcount. by destruct (mp_payloads st).
    - apply fmap_nil_inv in E. rewrite E in Hcount. by destruct (pi_vision_items out). }
  cbn [negb orb throw_if rbind]. rewrite taken_payloads with (options := options) by done. cbn. by rewrite andb_false_r.
Qed.


(** A user's message with an image of two merged patches, and a tokenizer of bytes. *)
Module Sample.
Import SampleTables.

#[local] Instance sample_json : OrderedJsonText := {| ordered_parse := fun _ => None; dump_string := fun s => s |}.
#[local] Instance sample_timestamps : TimestampText := fun _ => [].
#[local] Instance sample_config : ProgramConfig := {|
  capacity := 256; max_concurrency := 1; prefill_chunk := 2; draft_window := 0; speculative_backend := NoSpeculation;
  vision_enabled := true; use_cuda_graph := false; work_capacity := 4096; text_pool := 1; mtp_cache := None;
  dflash_full := None; vision_out_hidden := 8; vision_workspace_bytes := fun _ => Ok 64;
|}.

Definition sample_tokenizer : Tokenizer :=
  mkTokenizer [] [] (list_to_map ((fun b => (match byte_level_encode [b] with Ok s => s | Err _ => [] end, b)) <$> seqZ 1 127)) ∅ true
    [mkAdded kImageToken kImagePad false false false false true] (<[60 := [0%nat]]> ∅) [].
Definition sample_options : ProcessorOptions := mkProcessorOptions 1 64 1 64 1024 1024 1024 8 f64_600 64 16 kVideoFps 1 8.
Definition sample_messages : list Message :=
  [mkInputMessage User [TextPart (bytes_of "what"); MediaPart (mkMediaData Image [1; 2])] [] [] []].
Definition sample_render : ChatRenderOptions := mkRenderOptions true true None None false [].
Definition sample_controls : Controls := mkControls (Ok tt) (Ok tt) (Ok tt) (Ok tt) (Ok tt).
Definition sample_outcome (i : nat) : MediaOutcome :=
  mkOutcome (Ok tt) (Ok (Some (mkMedia (mkVisionItem Image (mkGrid 1 2 4) 0 0 [] [] []) (Some (mkPayload 1 12288))))).
Definition sample_processed : result ProcessedInput :=
  process sample_tokenizer ThinkingToggle sample_options sample_messages sample_render sample_controls sample_outcome.

Definition sample_output : ProcessedInput :=
  match sample_processed with Ok out => out | Err _ => mkProcessed [] [] [] 0 [] [] None no_stats end.
Lemma sample_processed_ok :
  process sample_tokenizer ThinkingToggle sample_options sample_messages sample_render sample_controls sample_outcome = Ok sample_output.
Proof. vm_compute. reflexivity. Qed.
Lemma sample_output_items : in_order (pi_token_types sample_output) (pi_vision_items sample_output) /\
  length (pi_vision_items sample_output) = 1%nat.
Proof. vm_compute. done. Qed.
Lemma sample_output_ids : pi_input_ids sample_output <> [] /\ Z.of_nat (length (pi_input_ids sample_output)) = 94 /\
  Forall (fun id => 0 <= id < token_domain) (pi_input_ids sample_output).
Proof.
  split; [vm_compute; discriminate|]. split; [vm_compute; reflexivity|].
  assert (H : forallb (fun id => (0 <=? id) && (id <? token_domain)) (pi_input_ids sample_output) = true) by (vm_compute; reflexivity).
  apply Forall_forall. intros id Hin. apply list_elem_of_In in Hin. apply forallb_forall with (x := id) in H; [|done]. lia.
Qed.
Lemma sample_outcome_wf i : outcome_wf (awaited (sample_outcome i)).
Proof. intros m [= <-]. split; cbn; unfold i32_max, u64_max; try done; try lia. intros p [= <-]. split; [cbn; lia|reflexivity]. Qed.

End Sample.
