(* ===== verification/Requests.v ===== *)
(** * Requests of the HTTP server: [src/serve/request.h], [openai_schema.cpp], [anthropic_schema.cpp]

    A decoded JSON body becomes a [GenerationRequest], which does not depend on the protocol.  Errors of the client
    are [ApiError]s; their texts are not modelled.  nlohmann's [parse] and [dump] are arguments.  ([dump] throws on a
    string that is not UTF-8; the strings of a body are UTF-8, being parsed by the same library.) *)
From Stdlib Require Import Strings.String.
From stdpp Require Import gmap.
From S2P Require Import Prelude Unicode Admission Capacity Contract Output Tokenizer ToolCalls ChatTemplate PrefixIdentity MediaCache Processor Preparation ResponseStore.
#[local] Open Scope Z_scope.
#[local] Open Scope ninfer_scope.

(** ** [request.h] *)

Inductive RequestedReasoningEffort : Set := EffortNone | EffortMinimal | EffortLow | EffortMedium | EffortHigh | EffortXHigh | EffortMax.
#[export] Instance RequestedReasoningEffort_eq_dec : EqDecision RequestedReasoningEffort.
Proof. solve_decision. Defined.

Definition parse_requested_reasoning_effort (value : list Z) : option RequestedReasoningEffort :=
  if bool_decide (value = bytes_of "none") then Some EffortNone
  else if bool_decide (value = bytes_of "minimal") then Some EffortMinimal
  else if bool_decide (value = bytes_of "low") then Some EffortLow
  else if bool_decide (value = bytes_of "medium") then Some EffortMedium
  else if bool_decide (value = bytes_of "high") then Some EffortHigh
  else if bool_decide (value = bytes_of "xhigh") then Some EffortXHigh
  else if bool_decide (value = bytes_of "max") then Some EffortMax
  else None.

Record ToolDefinition : Set := mkToolDefinition {
  td_name : list Z; td_description : list Z; parameters_json : list Z; definition_json : list Z; td_strict : bool;
}.

Inductive ToolChoiceMode : Set := ChoiceAuto | ChoiceNone | ChoiceRequired | ChoiceNamed.
#[export] Instance ToolChoiceMode_eq_dec : EqDecision ToolChoiceMode.
Proof. solve_decision. Defined.
Record ToolChoice : Set := mkToolChoice { choice_mode : ToolChoiceMode; choice_name : list Z }.

(** A [double] is its bit pattern. *)
Record SamplingParams : Set := mkSamplingParams {
  sp_temperature : option Z; sp_top_p : option Z; sp_top_k : option Z; sp_presence_penalty : option Z;
  sp_frequency_penalty : option Z; sp_seed : option Z; logit_bias : gmap Z Z; sp_n : Z;
}.
Definition SamplingParams_default : SamplingParams := mkSamplingParams None None None None None None ∅ 1.

Record GenerationRequest : Set := mkGenerationRequest {
  gr_model : list Z; gr_messages : list ChatTurn; gr_tools : list ToolDefinition; tool_name_max_length : Z; gr_tool_choice : ToolChoice;
  stop_strings : list (list Z); max_tokens : Z; max_tokens_set : bool; gr_stream : bool; include_usage : bool;
  gr_enable_thinking : option bool; gr_reasoning_effort : option RequestedReasoningEffort; gr_preserve_thinking : option bool;
  gr_sampling : SamplingParams;
}.

Definition uses_tools (r : GenerationRequest) : bool :=
  negb (bool_decide (gr_tools r = [])) && negb (bool_decide (choice_mode (gr_tool_choice r) = ChoiceNone)).
Definition is_medium (p : ContentPart) : bool := match cp_part_kind p with CkImage | CkVideo => true | _ => false end.
Definition media_item_count (r : GenerationRequest) : nat :=
  foldl (fun count message => foldl (fun count part => if is_medium part then S count else count) count (turn_content message)) 0%nat (gr_messages r).
Definition has_tool_history (r : GenerationRequest) : bool :=
  existsb (fun m => negb (bool_decide (turn_tool_calls m = [])) || bool_decide (turn_role m = Tool)) (gr_messages r).

Definition text_part (text : list Z) : ContentPart := mkContentPart CkText text (bytes_of "text") SourcePath [] [] [].
Definition media_part (kind : ContentKind) (type_ : list Z) (source : SourceKind) (value media_type : list Z) : ContentPart :=
  mkContentPart kind [] type_ source value media_type [].

(** ** Fields of JSON objects *)

Definition get_bool (obj : Json) (key : list Z) (fallback : bool) : result bool :=
  match json_field obj key with
  | None | Some JNull => Ok fallback
  | Some (JBool b) => Ok b
  | Some _ => Err ApiError
  end.
Definition get_number (obj : Json) (key : list Z) : result (option Z) :=
  match json_field obj key with
  | None | Some JNull => Ok None
  | Some value => match json_double value with Some d => Ok (Some d) | None => Err ApiError end
  end.
Definition get_int (obj : Json) (key : list Z) : result (option Z) :=
  match json_field obj key with
  | None | Some JNull => Ok None
  | Some (JUnsigned value) => do* throw_if (value >? i32_max) ApiError; Ok (Some value)
  | Some (JInteger value) => do* throw_if ((value <? i32_min) || (value >? i32_max)) ApiError; Ok (Some value)
  | Some _ => Err ApiError
  end.
Definition get_u64 (obj : Json) (key : list Z) : result (option Z) :=
  match json_field obj key with
  | None | Some JNull => Ok None
  | Some (JUnsigned value) => Ok (Some value)
  | Some (JInteger value) => do* throw_if (value <? 0) ApiError; Ok (Some value)
  | Some _ => Err ApiError
  end.

(** A field that must be a string, and one that may be missing or null. *)
Definition get_string (obj : Json) (key : list Z) : result (list Z) :=
  match json_field obj key with Some (JString s) => Ok s | _ => Err ApiError end.
Definition get_nonempty (obj : Json) (key : list Z) : result (list Z) :=
  let* s := get_string obj key in do* throw_if (bool_decide (s = [])) ApiError; Ok s.
Definition present (obj : Json) (key : list Z) : option Json :=
  match json_field obj key with None | Some JNull => None | Some value => Some value end.
Definition require_array (value : Json) : result (list Json) := match value with JArray items => Ok items | _ => Err ApiError end.

Definition require_function_name (max_length : nat) (obj : Json) : result (list Z) :=
  let* name := get_string obj (bytes_of "name") in
  do* throw_if (negb (valid_function_name name max_length)) ApiError; Ok name.

Definition has_tool_named (tools : list ToolDefinition) (name : list Z) : bool := existsb (fun tool => bool_decide (td_name tool = name)) tools.

(** The checks at the end of both [parse_tool_choice]. *)
Definition check_tool_choice (tools : list ToolDefinition) (choice : ToolChoice) : result ToolChoice :=
  do* throw_if (negb (bool_decide (choice_mode choice = ChoiceNone)) && bool_decide (tools = [])) ApiError;
  do* throw_if (bool_decide (choice_mode choice = ChoiceNamed) && negb (has_tool_named tools (choice_name choice))) ApiError;
  Ok choice.

(** The entries of [stop] and [stop_sequences]. *)
Fixpoint stop_entries (entries : list Json) : result (list (list Z)) :=
  match entries with
  | [] => Ok []
  | JString s :: entries' => let* rest := stop_entries entries' in Ok (if bool_decide (s = []) then rest else s :: rest)
  | _ :: _ => Err ApiError
  end.

Definition parse_max_tokens (default_max_tokens : Z) (value : option Z) : result (Z * bool) :=
  match value with
  | Some n => do* throw_if (n <=? 0) ApiError; Ok (n, true)
  | None => Ok (default_max_tokens, false)
  end.

(** [std::stoi]: white space, a sign and digits; the rest is ignored.  [None]: it throws. *)
Fixpoint leading_digits (s : list Z) (acc : option Z) : option Z :=
  match s with
  | c :: s' => if (48 <=? c) && (c <=? 57) then leading_digits s' (Some (default 0 acc * 10 + (c - 48))) else acc
  | [] => acc
  end.
Definition stoi (s : list Z) : option Z :=
  let value :=
    match strip_leading s with
    | 45 :: digits => Z.opp <$> leading_digits digits None
    | 43 :: digits => leading_digits digits None
    | digits => leading_digits digits None
    end in
  match value with Some v => if (v <? i32_min) || (v >? i32_max) then None else Some v | None => None end.

(** ** [openai_schema.cpp] *)

Section Parse.
Context (json_parse : list Z -> option Json) (json_dump : Json -> list Z).

Definition parse_message_role (role : list Z) : result ChatRole :=
  if bool_decide (role = bytes_of "system") then Ok System
  else if bool_decide (role = bytes_of "developer") then Ok Developer
  else if bool_decide (role = bytes_of "user") then Ok User
  else if bool_decide (role = bytes_of "assistant") then Ok Assistant
  else if bool_decide (role = bytes_of "tool") then Ok Tool
  else Err ApiError.

Definition parse_media_url (kind : ContentKind) (part : Json) (field : list Z) : result ContentPart :=
  let* url :=
    match json_field part field with
    | Some (JString url) => Ok url
    | Some (JObject items) => get_string (JObject items) (bytes_of "url")
    | _ => Err ApiError
    end in
  do* throw_if (bool_decide (url = [])) ApiError;
  if starts_with url (bytes_of "data:") then Ok (media_part kind field SourceData url [])
  else if starts_with url (bytes_of "http://") || starts_with url (bytes_of "https://") then Ok (media_part kind field SourceUrl url [])
  else Err ApiError.

Definition parse_content_part (part : Json) : result ContentPart :=
  let* type_ := get_string part (bytes_of "type") in
  if bool_decide (type_ = bytes_of "text") then let* text := get_string part (bytes_of "text") in Ok (text_part text)
  else if bool_decide (type_ = bytes_of "image_url") then parse_media_url CkImage part (bytes_of "image_url")
  else if bool_decide (type_ = bytes_of "video_url") then parse_media_url CkVideo part (bytes_of "video_url")
  else if bool_decide (type_ = bytes_of "input_audio") then Ok (mkContentPart CkInputAudio [] type_ SourcePath [] [] [])
  else Ok (mkContentPart CkUnsupported [] type_ SourcePath [] [] []).

Definition parse_content_parts (content : Json) : result (list ContentPart) :=
  match content with
  | JString s => Ok [text_part s]
  | JArray parts =>
      let* parts := rmapM parse_content_part parts in
      do* throw_if (bool_decide (parts = [])) ApiError; Ok parts
  | _ => Err ApiError
  end.

Definition parse_assistant_tool_call (call : Json) : result ToolCall :=
  let* id := get_nonempty call (bytes_of "id") in
  let* type_ := get_string call (bytes_of "type") in
  do* throw_if (negb (bool_decide (type_ = bytes_of "function"))) ApiError;
  match json_field call (bytes_of "function") with
  | Some (JObject items) =>
      let fn := JObject items in
      let* name := require_function_name 64 fn in
      let* arguments_json := get_string fn (bytes_of "arguments") in
      match json_parse arguments_json with
      | Some (JObject _) => Ok (mkToolCall id name arguments_json)
      | _ => Err ApiError
      end
  | _ => Err ApiError
  end.
Definition parse_assistant_tool_calls (item : Json) : result (list ToolCall) :=
  match present item (bytes_of "tool_calls") with
  | None => Ok []
  | Some calls =>
      let* calls := require_array calls in
      do* throw_if (bool_decide (calls = [])) ApiError;
      rmapM parse_assistant_tool_call calls
  end.

(** One turn of the loop of [parse_messages]. *)
Definition parse_message (item : Json) : result ChatTurn :=
  let* role := get_string item (bytes_of "role") in
  let* role := parse_message_role role in
  do* throw_if (is_some (present item (bytes_of "function_call"))) ApiError;
  match role with
  | Tool =>
      do* throw_if (is_some (present item (bytes_of "tool_calls"))) ApiError;
      let* tool_call_id := get_nonempty item (bytes_of "tool_call_id") in
      let* content := get_string item (bytes_of "content") in
      Ok (mkTurn Tool [text_part content] [] tool_call_id [])
  | _ =>
      do* throw_if (is_some (present item (bytes_of "tool_call_id"))) ApiError;
      match role with
      | Assistant =>
          let* calls := parse_assistant_tool_calls item in
          let* content :=
            match present item (bytes_of "content") with
            | Some content => parse_content_parts content
            | None => do* throw_if (bool_decide (calls = [])) ApiError; Ok []
            end in
          let* reasoning :=
            match present item (bytes_of "reasoning_content") with
            | Some (JString s) => Ok s
            | Some _ => Err ApiError
            | None => Ok []
            end in
          Ok (mkTurn Assistant content calls [] reasoning)
      | _ =>
          do* throw_if (is_some (present item (bytes_of "tool_calls"))) ApiError;
          match present item (bytes_of "content") with
          | Some content => let* content := parse_content_parts content in Ok (mkTurn role content [] [] [])
          | None => Err ApiError
          end
      end
  end.
Definition messages_of (body : Json) : result (list Json) :=
  match json_field body (bytes_of "messages") with
  | Some (JArray messages) => do* throw_if (bool_decide (messages = [])) ApiError; Ok messages
  | _ => Err ApiError
  end.
Definition parse_messages (body : Json) : result (list ChatTurn) :=
  let* messages := messages_of body in rmapM parse_message messages.

Definition empty_parameters : Json :=
  JObject [(bytes_of "properties", JObject []); (bytes_of "type", JString (bytes_of "object"))].

(** One turn of the loop of [parse_tools]; [normalized] is a copy of the item. *)
Definition parse_tool (item : Json) : result ToolDefinition :=
  let* type_ := get_string item (bytes_of "type") in
  do* throw_if (negb (bool_decide (type_ = bytes_of "function"))) ApiError;
  match item, json_field item (bytes_of "function") with
  | JObject normalized, Some (JObject fn) =>
      let* name := require_function_name 64 (JObject fn) in
      let* description :=
        match present (JObject fn) (bytes_of "description") with
        | Some (JString s) => Ok s
        | Some _ => Err ApiError
        | None => Ok []
        end in
      let fn := if is_some (present (JObject fn) (bytes_of "parameters")) then fn else object_set (bytes_of "parameters") empty_parameters fn in
      match json_field (JObject fn) (bytes_of "parameters") with
      | Some (JObject parameters) =>
          let* (strict, fn) :=
            match present (JObject fn) (bytes_of "strict") with
            | Some (JBool b) => Ok (b, fn)
            | Some _ => Err ApiError
            | None => Ok (false, object_set (bytes_of "strict") (JBool false) fn)
            end in
          Ok (mkToolDefinition name description (json_dump (JObject parameters))
                (json_dump (JObject (object_set (bytes_of "function") (JObject fn) normalized))) strict)
      | _ => Err ApiError
      end
  | _, _ => Err ApiError
  end.
Definition parse_tools (body : Json) : result (list ToolDefinition) :=
  match present body (bytes_of "tools") with
  | None => Ok []
  | Some tools => let* tools := require_array tools in rmapM parse_tool tools
  end.

Definition parse_tool_choice (body : Json) (tools : list ToolDefinition) : result ToolChoice :=
  match present body (bytes_of "tool_choice") with
  | None => Ok (mkToolChoice ChoiceAuto [])
  | Some choice =>
      let* choice :=
        match choice with
        | JString value =>
            if bool_decide (value = bytes_of "none") then Ok (mkToolChoice ChoiceNone [])
            else if bool_decide (value = bytes_of "auto") then Ok (mkToolChoice ChoiceAuto [])
            else if bool_decide (value = bytes_of "required") then Ok (mkToolChoice ChoiceRequired [])
            else Err ApiError
        | JObject _ =>
            let* type_ := get_string choice (bytes_of "type") in
            do* throw_if (negb (bool_decide (type_ = bytes_of "function"))) ApiError;
            match json_field choice (bytes_of "function") with
            | Some (JObject fn) => let* name := require_function_name 64 (JObject fn) in Ok (mkToolChoice ChoiceNamed name)
            | _ => Err ApiError
            end
        | _ => Err ApiError
        end in
      check_tool_choice tools choice
  end.

Definition parse_stop (body : Json) : result (list (list Z)) :=
  match present body (bytes_of "stop") with
  | None => Ok []
  | Some (JString s) => Ok (if bool_decide (s = []) then [] else [s])
  | Some (JArray entries) => stop_entries entries
  | Some _ => Err ApiError
  end.

(** [emplace]: a key that is there is kept. *)
Fixpoint parse_logit_bias (entries : list (list Z * Json)) (bias : gmap Z Z) : result (gmap Z Z) :=
  match entries with
  | [] => Ok bias
  | (key, value) :: entries' =>
      match json_double value, stoi key with
      | Some d, Some token => parse_logit_bias entries' (if is_some (bias !! token) then bias else <[token := d]> bias)
      | _, _ => Err ApiError
      end
  end.

Definition parse_sampling (body : Json) : result SamplingParams :=
  let* temperature := get_number body (bytes_of "temperature") in
  let* top_p := get_number body (bytes_of "top_p") in
  let* top_k := get_int body (bytes_of "top_k") in
  let* presence_penalty := get_number body (bytes_of "presence_penalty") in
  let* frequency_penalty := get_number body (bytes_of "frequency_penalty") in
  let* seed := get_u64 body (bytes_of "seed") in
  let* bias :=
    match present body (bytes_of "logit_bias") with
    | None => Ok ∅
    | Some (JObject entries) => parse_logit_bias entries ∅
    | Some _ => Err ApiError
    end in
  let* n := get_int body (bytes_of "n") in
  do* throw_if (match n with Some n => negb (n =? 1) | None => false end) ApiError;
  Ok (mkSamplingParams temperature top_p top_k presence_penalty frequency_penalty seed bias 1).

Definition reject_unsupported_features (body : Json) : result unit :=
  do* throw_if (is_some (present body (bytes_of "functions"))) ApiError;
  do* throw_if (is_some (present body (bytes_of "function_call"))) ApiError;
  match present body (bytes_of "response_format") with
  | None => Ok tt
  | Some fmt => let* type_ := get_string fmt (bytes_of "type") in throw_if (negb (bool_decide (type_ = bytes_of "text"))) ApiError
  end.

Definition optional_bool (obj : Json) (key : list Z) : result (option bool) :=
  match present obj key with
  | None => Ok None
  | Some (JBool b) => Ok (Some b)
  | Some _ => Err ApiError
  end.

Definition parse_openai_preserve_thinking (body : Json) : result (option bool) :=
  let* top_level := optional_bool body (bytes_of "preserve_thinking") in
  let* template_value :=
    match json_field body (bytes_of "chat_template_kwargs") with
    | None => Ok None
    | Some (JObject kwargs) =>
        do* throw_if (existsb (fun kv => negb (bool_decide (kv.1 = bytes_of "preserve_thinking")) &&
                                         match kv.2 with JNull => false | _ => true end) kwargs) ApiError;
        optional_bool (JObject kwargs) (bytes_of "preserve_thinking")
    | Some _ => Err ApiError
    end in
  do* throw_if (match top_level, template_value with Some a, Some b => negb (Bool.eqb a b) | _, _ => false end) ApiError;
  Ok (match template_value with Some v => Some v | None => top_level end).

Definition parse_openai_reasoning_effort (body : Json) : result (option RequestedReasoningEffort) :=
  match present body (bytes_of "reasoning_effort") with
  | None => Ok None
  | Some (JString value) => match parse_requested_reasoning_effort value with Some e => Ok (Some e) | None => Err ApiError end
  | Some _ => Err ApiError
  end.

Definition parse_chat_completion_request (body : Json) (default_max_tokens : Z) : result GenerationRequest :=
  do* throw_if (match body with JObject _ => false | _ => true end) ApiError;
  do* reject_unsupported_features body;
  let* model := get_nonempty body (bytes_of "model") in
  let* tools := parse_tools body in
  let* tool_choice := parse_tool_choice body tools in
  let* messages := parse_messages body in
  let* stops := parse_stop body in
  let* sampling := parse_sampling body in
  let* stream := get_bool body (bytes_of "stream") false in
  let* include_usage :=
    match json_field body (bytes_of "stream_options") with
    | Some (JObject items) => get_bool (JObject items) (bytes_of "include_usage") false
    | _ => Ok false
    end in
  let* enable_thinking := optional_bool body (bytes_of "enable_thinking") in
  let* effort := parse_openai_reasoning_effort body in
  let* preserve_thinking := parse_openai_preserve_thinking body in
  let* max_completion_tokens := get_int body (bytes_of "max_completion_tokens") in
  let* max_tokens := match max_completion_tokens with Some n => Ok (Some n) | None => get_int body (bytes_of "max_tokens") end in
  let* (max_tokens, max_tokens_set) := parse_max_tokens default_max_tokens max_tokens in
  Ok (mkGenerationRequest model messages tools 64 tool_choice stops max_tokens max_tokens_set stream include_usage enable_thinking effort
        preserve_thinking sampling).

(** ** [anthropic_schema.cpp] *)

Definition kMaxToolNameLength : nat := 128.

Definition append_text (acc piece : list Z) : list Z :=
  if bool_decide (piece = []) then acc else if bool_decide (acc = []) then piece else acc ++ [10] ++ piece.

Definition require_block_type (block : Json) : result (list Z) := get_string block (bytes_of "type").

Definition parse_image_source (block : Json) : result ContentPart :=
  match json_field block (bytes_of "source") with
  | Some (JObject items) =>
      let source := JObject items in
      let* type_ := get_string source (bytes_of "type") in
      if bool_decide (type_ = bytes_of "base64") then
        let* media_type := get_string source (bytes_of "media_type") in
        let* data := get_nonempty source (bytes_of "data") in
        Ok (media_part CkImage (bytes_of "image") SourceData (bytes_of "data:" ++ media_type ++ bytes_of ";base64," ++ data)%list media_type)
      else if bool_decide (type_ = bytes_of "url") then
        let* url := get_string source (bytes_of "url") in
        do* throw_if (negb (starts_with url (bytes_of "http://")) && negb (starts_with url (bytes_of "https://"))) ApiError;
        Ok (media_part CkImage (bytes_of "image") SourceUrl url [])
      else Err ApiError
  | _ => Err ApiError
  end.

(** One turn of the loop of [parse_tools]. *)
Definition parse_client_tool (item : Json) : result ToolDefinition :=
  match present item (bytes_of "input_schema") with
  | Some (JObject parameters) =>
      let* name := require_function_name kMaxToolNameLength item in
      let function := [(bytes_of "name", JString name)] in
      let* (description, function) :=
        match present item (bytes_of "description") with
        | None => Ok ([], function)
        | Some (JString s) => Ok (s, object_set (bytes_of "description") (JString s) function)
        | Some _ => Err ApiError
        end in
      let function := object_set (bytes_of "strict") (JBool false) (object_set (bytes_of "parameters") (JObject parameters) function) in
      Ok (mkToolDefinition name description (json_dump (JObject parameters))
            (json_dump (JObject [(bytes_of "function", JObject function); (bytes_of "type", JString (bytes_of "function"))])) false)
  | _ => Err ApiError
  end.
Definition parse_client_tools (body : Json) : result (list ToolDefinition) :=
  match present body (bytes_of "tools") with
  | None => Ok []
  | Some tools => let* tools := require_array tools in rmapM parse_client_tool tools
  end.

Definition parse_anthropic_tool_choice (body : Json) (tools : list ToolDefinition) : result ToolChoice :=
  match present body (bytes_of "tool_choice") with
  | None => Ok (mkToolChoice ChoiceAuto [])
  | Some choice =>
      let* type_ := get_string choice (bytes_of "type") in
      let* choice :=
        if bool_decide (type_ = bytes_of "auto") then Ok (mkToolChoice ChoiceAuto [])
        else if bool_decide (type_ = bytes_of "any") then Ok (mkToolChoice ChoiceRequired [])
        else if bool_decide (type_ = bytes_of "none") then Ok (mkToolChoice ChoiceNone [])
        else if bool_decide (type_ = bytes_of "tool") then
          let* name := require_function_name kMaxToolNameLength choice in Ok (mkToolChoice ChoiceNamed name)
        else Err ApiError in
      check_tool_choice tools choice
  end.

Definition flatten_system_value (value : Json) : result (list Z) :=
  match value with
  | JString s => Ok s
  | JArray blocks =>
      rfoldl (fun text block =>
        let* type_ := require_block_type block in
        do* throw_if (negb (bool_decide (type_ = bytes_of "text"))) ApiError;
        let* piece := get_string block (bytes_of "text") in Ok (append_text text piece)) [] blocks
  | _ => Err ApiError
  end.

Definition parse_system (body : Json) : result (list ChatTurn) :=
  match present body (bytes_of "system") with
  | None => Ok []
  | Some value => let* text := flatten_system_value value in Ok [mkTurn System [text_part text] [] [] []]
  end.

Definition parse_tool_use (block : Json) : result ToolCall :=
  let* id := get_nonempty block (bytes_of "id") in
  let* name := require_function_name kMaxToolNameLength block in
  match json_field block (bytes_of "input") with
  | Some (JObject input) => Ok (mkToolCall id name (json_dump (JObject input)))
  | _ => Err ApiError
  end.

Definition parse_tool_result_part (part : Json) : result ContentPart :=
  let* type_ := require_block_type part in
  if bool_decide (type_ = bytes_of "text") then let* text := get_string part (bytes_of "text") in Ok (text_part text)
  else if bool_decide (type_ = bytes_of "image") then parse_image_source part
  else Err ApiError.
Definition parse_tool_result_content (block : Json) : result (list ContentPart) :=
  match present block (bytes_of "content") with
  | None => Ok [text_part []]
  | Some (JString s) => Ok [text_part s]
  | Some (JArray parts) => rmapM parse_tool_result_part parts
  | Some _ => Err ApiError
  end.

(** The loop of [parse_assistant_content]: text, reasoning and calls so far. *)
Definition assistant_block (st : list Z * list Z * list ToolCall) (block : Json) : result (list Z * list Z * list ToolCall) :=
  let '(text, reasoning, calls) := st in
  let* type_ := require_block_type block in
  if bool_decide (type_ = bytes_of "text") then
    let* piece := get_string block (bytes_of "text") in Ok (append_text text piece, reasoning, calls)
  else if bool_decide (type_ = bytes_of "thinking") then
    match json_field block (bytes_of "thinking") with
    | Some (JString piece) => Ok (text, append_text reasoning piece, calls)
    | _ => Ok st
    end
  else if bool_decide (type_ = bytes_of "redacted_thinking") then Ok st
  else if bool_decide (type_ = bytes_of "tool_use") then
    let* call := parse_tool_use block in Ok (text, reasoning, calls ++ [call])
  else Err ApiError.
Definition parse_assistant_content (content : list Json) : result (list ChatTurn) :=
  let* (text, reasoning, calls) := rfoldl assistant_block ([], [], []) content in
  let parts := if bool_decide (text = []) then [] else [text_part text] in
  do* throw_if (bool_decide (parts = []) && bool_decide (calls = []) && bool_decide (reasoning = [])) ApiError;
  Ok [mkTurn Assistant parts calls [] reasoning].

(** The loop of [parse_user_content]: the turns so far and the content of [user_turn]. *)
Definition flush_user_turn (st : list ChatTurn * list ContentPart) : list ChatTurn * list ContentPart :=
  let '(out, user) := st in if bool_decide (user = []) then st else (out ++ [mkTurn User user [] [] []], []).
Definition user_block (st : list ChatTurn * list ContentPart) (block : Json) : result (list ChatTurn * list ContentPart) :=
  let* type_ := require_block_type block in
  if bool_decide (type_ = bytes_of "text") then
    let* text := get_string block (bytes_of "text") in Ok (st.1, st.2 ++ [text_part text])
  else if bool_decide (type_ = bytes_of "tool_result") then
    let* tool_use_id := get_nonempty block (bytes_of "tool_use_id") in
    let '(out, user) := flush_user_turn st in
    let* content := parse_tool_result_content block in
    Ok (out ++ [mkTurn Tool content [] tool_use_id []], user)
  else if bool_decide (type_ = bytes_of "image") then
    let* part := parse_image_source block in Ok (st.1, st.2 ++ [part])
  else Err ApiError.
Definition parse_user_content (content : list Json) : result (list ChatTurn) :=
  let* st := rfoldl user_block ([], []) content in Ok (flush_user_turn st).1.

(** The first loop of [parse_messages]. *)
Definition anthropic_role (item : Json) : result ChatRole :=
  let* role := get_string item (bytes_of "role") in
  let* role :=
    if bool_decide (role = bytes_of "user") then Ok User
    else if bool_decide (role = bytes_of "assistant") then Ok Assistant
    else if bool_decide (role = bytes_of "system") then Ok System
    else Err ApiError in
  do* throw_if (negb (is_some (present item (bytes_of "content")))) ApiError; Ok role.

(** The second loop: a section of system messages follows a user message and is final or precedes an assistant
    message.  [prev] is the role before; it is [System] inside of a section. *)
Fixpoint system_sections (prev : option ChatRole) (roles : list ChatRole) : result unit :=
  match roles with
  | [] => Ok tt
  | System :: roles' =>
      do* throw_if (match prev with Some User | Some System => false | _ => true end) ApiError;
      do* throw_if (match roles' with [] | System :: _ | Assistant :: _ => false | _ => true end) ApiError;
      system_sections (Some System) roles'
  | role :: roles' => system_sections (Some role) roles'
  end.

(** One turn of the third loop. *)
Definition anthropic_message (entry : Json * ChatRole) : result (list ChatTurn) :=
  let '(item, role) := entry in
  match json_field item (bytes_of "content") with
  | None => Err JsonException
  | Some content =>
      match role with
      | System => let* text := flatten_system_value content in Ok [mkTurn System [text_part text] [] [] []]
      | _ =>
          match content with
          | JString s => Ok [mkTurn role [text_part s] [] [] []]
          | JArray blocks => match role with Assistant => parse_assistant_content blocks | _ => parse_user_content blocks end
          | _ => Err ApiError
          end
      end
  end.
Definition parse_anthropic_messages (body : Json) : result (list ChatTurn) :=
  let* messages := messages_of body in
  let* roles := rmapM anthropic_role messages in
  do* system_sections None roles;
  let* turns := rmapM anthropic_message (zip messages roles) in Ok (concat turns).

Definition parse_stop_sequences (body : Json) : result (list (list Z)) :=
  match present body (bytes_of "stop_sequences") with
  | None => Ok []
  | Some stop => let* stop := require_array stop in stop_entries stop
  end.

Definition parse_thinking (body : Json) : result (option bool) :=
  match present body (bytes_of "thinking") with
  | None => Ok None
  | Some thinking => let* type_ := get_string thinking (bytes_of "type") in Ok (Some (negb (bool_decide (type_ = bytes_of "disabled"))))
  end.

Definition parse_output_config (body : Json) : result (option RequestedReasoningEffort) :=
  match present body (bytes_of "output_config") with
  | None => Ok None
  | Some (JObject config) =>
      do* throw_if (existsb (fun kv => negb (bool_decide (kv.1 = bytes_of "effort")) && match kv.2 with JNull => false | _ => true end) config) ApiError;
      match present (JObject config) (bytes_of "effort") with
      | None => Ok None
      | Some (JString value) =>
          match parse_requested_reasoning_effort value with
          | None | Some EffortNone | Some EffortMinimal => Err ApiError
          | Some e => Ok (Some e)
          end
      | Some _ => Err ApiError
      end
  | Some _ => Err ApiError
  end.

Definition parse_messages_request (body : Json) (default_max_tokens : Z) : result GenerationRequest :=
  do* throw_if (match body with JObject _ => false | _ => true end) ApiError;
  let* model := get_nonempty body (bytes_of "model") in
  let* tools := parse_client_tools body in
  let* tool_choice := parse_anthropic_tool_choice body tools in
  let* system := parse_system body in
  let* messages := parse_anthropic_messages body in
  let* stops := parse_stop_sequences body in
  let* temperature := get_number body (bytes_of "temperature") in
  let* top_p := get_number body (bytes_of "top_p") in
  let* top_k := get_int body (bytes_of "top_k") in
  let* enable_thinking := parse_thinking body in
  let* effort := parse_output_config body in
  let* preserve_thinking := optional_bool body (bytes_of "preserve_thinking") in
  let* stream := get_bool body (bytes_of "stream") false in
  let* max_tokens := get_int body (bytes_of "max_tokens") in
  let* (max_tokens, max_tokens_set) := parse_max_tokens default_max_tokens max_tokens in
  Ok (mkGenerationRequest model (system ++ messages) tools (Z.of_nat kMaxToolNameLength) tool_choice stops max_tokens max_tokens_set stream false
        enable_thinking effort preserve_thinking (mkSamplingParams temperature top_p top_k None None None ∅ 1)).
End Parse.
