(* ===== verification/RequestsProofs.v ===== *)
(** * What the server's parsers accept

    Whatever the JSON body, a parser of a protocol either gives a request with the properties the rest of the server
    relies on, or reports an error of the client; no other exception leaves it. *)
From Stdlib Require Import Strings.String.
From stdpp Require Import gmap.
From S2P Require Import Prelude Unicode Admission Capacity Contract Output Tokenizer ToolCalls ChatTemplate PrefixIdentity MediaCache Processor Preparation ResponseStore Requests.
#[local] Open Scope Z_scope.
#[local] Open Scope ninfer_scope.

(** ** Parsers *)

Definition parses {A} (P : A -> Prop) (m : result A) : Prop := match m with Ok a => P a | Err e => e = ApiError end.

Section Rules.
Context {A B : Type}.
Lemma parses_ret (P : A -> Prop) a : P a -> parses P (Ok a).
Proof. done. Qed.
Lemma parses_err (P : A -> Prop) : parses P (Err ApiError).
Proof. done. Qed.
Lemma parses_mono (P Q : A -> Prop) m : parses P m -> (forall a, P a -> Q a) -> parses Q m.
Proof. destruct m; cbn; auto. Qed.
Lemma parses_bind (P : A -> Prop) (Q : B -> Prop) m k : parses P m -> (forall a, P a -> parses Q (k a)) -> parses Q (rbind m k).
Proof. destruct m; cbn; auto. Qed.
Lemma parses_throw_if (Q : B -> Prop) b (m : result B) : (b = false -> parses Q m) -> parses Q (rbind (throw_if b ApiError) (fun _ => m)).
Proof. destruct b; [done|]. cbn. auto. Qed.
End Rules.
Section Loops.
Context {A B : Type}.
Lemma parses_map2 (P : A -> B -> Prop) (f : A -> result B) l : (forall a, parses (P a) (f a)) -> parses (Forall2 P l) (rmapM f l).
Proof.
  intros H. induction l as [|a l IH]; [constructor|]. cbn [rmapM]. eapply parses_bind; [apply H|]. intros b Hb. eapply parses_bind; [apply IH|].
  intros bs Hbs. by constructor.
Qed.
Lemma parses_map_in (P : B -> Prop) (f : A -> result B) l : Forall (fun a => parses P (f a)) l -> parses (Forall P) (rmapM f l).
Proof.
  induction 1 as [|a l Ha _ IH]; [constructor|]. cbn [rmapM]. eapply parses_bind; [apply Ha|]. intros b Hb. eapply parses_bind; [apply IH|].
  intros bs Hbs. by constructor.
Qed.
Lemma parses_map (P : B -> Prop) (f : A -> result B) l : (forall a, parses P (f a)) -> parses (Forall P) (rmapM f l).
Proof. intros H. apply parses_map_in, Forall_forall. auto. Qed.
Lemma parses_foldl (P : A -> Prop) (f : A -> B -> result A) l : forall a, P a -> (forall a b, P a -> parses P (f a b)) -> parses P (rfoldl f a l).
Proof. induction l as [|b l IH]; intros a Ha H; [done|]. cbn [rfoldl]. eapply parses_bind; [by apply H|]. intros a' Ha'. by apply IH. Qed.
End Loops.

(** Any outcome but another exception. *)
Notation parses_any m := (parses (fun _ => True) m).

Create HintDb parses.
#[export] Hint Resolve parses_err parses_map : parses.

Lemma get_string_parses obj key : parses_any (get_string obj key).
Proof. unfold get_string. destruct (json_field obj key) as [[]|]; done. Qed.
Lemma get_nonempty_parses obj key : parses (fun s => s <> []) (get_nonempty obj key).
Proof. unfold get_nonempty. eapply parses_bind; [apply get_string_parses|]. intros s _. apply parses_throw_if. by intros H%bool_decide_eq_false. Qed.
Lemma get_bool_parses obj key b : parses_any (get_bool obj key b).
Proof. unfold get_bool. destruct (json_field obj key) as [[]|]; done. Qed.
Lemma get_number_parses obj key : parses_any (get_number obj key).
Proof. unfold get_number. destruct (json_field obj key) as [[]|]; done. Qed.
Lemma get_int_parses obj key : parses (fun o => forall n, o = Some n -> n <= i32_max) (get_int obj key).
Proof.
  unfold get_int. destruct (json_field obj key) as [[]|]; try done.
  - apply parses_throw_if. intros [_ H]%orb_false_iff n [= <-]. rewrite Z.gtb_ltb in H. by apply Z.ltb_ge in H.
  - apply parses_throw_if. intros H n [= <-]. rewrite Z.gtb_ltb in H. by apply Z.ltb_ge in H.
Qed.
Lemma get_u64_parses obj key : parses_any (get_u64 obj key).
Proof. unfold get_u64. destruct (json_field obj key) as [[]|]; try done. by apply parses_throw_if. Qed.
Lemma optional_bool_parses obj key : parses_any (optional_bool obj key).
Proof. unfold optional_bool. destruct (present obj key) as [[]|]; done. Qed.
Lemma require_array_parses value : parses_any (require_array value).
Proof. by destruct value. Qed.
Lemma function_name_parses n obj : parses (fun name => valid_function_name name n = true) (require_function_name n obj).
Proof. unfold require_function_name. eapply parses_bind; [apply get_string_parses|]. intros s _. apply parses_throw_if. by intros H%negb_false_iff. Qed.
Lemma messages_of_parses body : parses (fun l => l <> []) (messages_of body).
Proof. unfold messages_of. destruct (json_field _ _) as [[]|]; try done. apply parses_throw_if. by intros H%bool_decide_eq_false. Qed.
Lemma stop_entries_parses l : parses (Forall (fun s => s <> [])) (stop_entries l).
Proof.
  induction l as [|[] l IH]; try done; [constructor|]. cbn [stop_entries]. eapply parses_bind; [apply IH|]. intros rest Hr. cbn. case_bool_decide; [done|by constructor].
Qed.
Lemma max_tokens_parses default value : 0 < default <= i32_max -> (forall n, value = Some n -> n <= i32_max) ->
  parses (fun p => 0 < p.1 <= i32_max) (parse_max_tokens default value).
Proof.
  intros Hd Hv. unfold parse_max_tokens. destruct value as [n|]; [|done]. apply parses_throw_if. intros H%Z.leb_gt. split; [done|by apply Hv].
Qed.
#[export] Hint Resolve get_string_parses get_nonempty_parses get_bool_parses get_number_parses get_int_parses get_u64_parses optional_bool_parses
  require_array_parses function_name_parses messages_of_parses stop_entries_parses : parses.

Definition choice_ok (tools : list ToolDefinition) (c : ToolChoice) : Prop :=
  (choice_mode c = ChoiceRequired -> tools <> []) /\ (choice_mode c = ChoiceNamed -> has_tool_named tools (choice_name c) = true).
Lemma check_tool_choice_parses tools c : parses (choice_ok tools) (check_tool_choice tools c).
Proof.
  unfold check_tool_choice. apply parses_throw_if. intros H1. apply parses_throw_if. intros H2. split.
  - intros E ->. rewrite E in H1. by destruct (bool_decide_reflect (@nil ToolDefinition = [])).
  - intros E. rewrite E in H2. rewrite bool_decide_true in H2 by done. by apply negb_false_iff in H2.
Qed.
#[export] Hint Resolve check_tool_choice_parses : parses.

(** One step of a parser: a check, a call of another parser, or a case of the value. *)
Ltac parse_step :=
  match goal with
  | |- parses _ (rbind (throw_if _ ApiError) _) => apply parses_throw_if; intros ?
  | |- parses _ (throw_if ?b ApiError) => destruct b; cbn [throw_if]
  | |- parses _ (rbind _ _) => eapply parses_bind; [by eauto with parses|intros ? ?; cbv beta in *]
  | |- parses _ (if ?b then _ else _) => destruct b eqn:?
  | |- parses _ (match ?x with _ => _ end) => destruct x eqn:?
  | |- parses _ (Err ApiError) => exact eq_refl
  | |- parses _ (Ok _) => apply parses_ret
  end.
Ltac parse_steps := repeat parse_step.

(** ** Requests *)

Section Requests.
Context (json_parse : list Z -> option Json) (json_dump : Json -> list Z).

(** The arguments of a call are the text of an object, which the chat template parses again. *)
Definition object_text (s : list Z) : Prop := exists items, json_parse s = Some (JObject items).

(** A call has an id and the name of a function; a medium has a source that is fetched or decoded. *)
Definition call_ok (n : nat) (c : ToolCall) : Prop := tc_id c <> [] /\ valid_function_name (tc_name c) n = true /\ object_text (arguments_json c).
Definition part_ok (p : ContentPart) : Prop :=
  match cp_part_kind p, source_kind p with
  | (CkImage | CkVideo), SourceData => starts_with (source_value p) (bytes_of "data:") = true
  | (CkImage | CkVideo), SourceUrl => starts_with (source_value p) (bytes_of "http://") || starts_with (source_value p) (bytes_of "https://") = true
  | (CkImage | CkVideo), _ => False
  | _, _ => source_value p = []
  end.

(** Only the turns of a tool answer a call; only those of the assistant call and reason; no turn is empty but the
    answer of a tool. *)
Record turn_ok (n : nat) (t : ChatTurn) : Prop := {
  to_answers : turn_role t = Tool <-> turn_tool_call_id t <> [];
  to_assistant : turn_role t <> Assistant -> turn_tool_calls t = [] /\ turn_reasoning t = [];
  to_calls : Forall (call_ok n) (turn_tool_calls t);
  to_parts : Forall part_ok (turn_content t);
  to_nonempty : turn_role t = Tool \/ turn_content t <> [] \/ turn_tool_calls t <> [] \/ turn_reasoning t <> [];
}.

Record request_ok (n : nat) (r : GenerationRequest) : Prop := {
  rq_model : gr_model r <> [];
  rq_turns : Forall (turn_ok n) (gr_messages r);
  rq_tools : Forall (fun t => valid_function_name (td_name t) n = true) (gr_tools r);
  rq_names : tool_name_max_length r = Z.of_nat n;
  rq_choice : choice_ok (gr_tools r) (gr_tool_choice r);
  rq_stops : Forall (fun s => s <> []) (stop_strings r);
  rq_max : 0 < max_tokens r <= i32_max;
  rq_one : sp_n (gr_sampling r) = 1;
}.

Lemma text_part_ok s : part_ok (text_part s).
Proof. done. Qed.
#[local] Hint Resolve text_part_ok : parses.
#[local] Hint Constructors Forall : parses.

(** *** OpenAI *)

Lemma message_role_parses s : parses_any (parse_message_role s).
Proof. unfold parse_message_role. by parse_steps. Qed.
Lemma media_url_parses kind part field : kind = CkImage \/ kind = CkVideo -> parses part_ok (parse_media_url kind part field).
Proof.
  intros Hk. unfold parse_media_url. eapply (parses_bind (fun _ => True)).
  { destruct (json_field part field) as [[]|]; try done. apply get_string_parses. }
  intros url _. parse_steps; destruct Hk as [-> | ->]; done.
Qed.
#[local] Hint Resolve message_role_parses media_url_parses : parses.
Lemma content_part_parses part : parses part_ok (parse_content_part part).
Proof. unfold parse_content_part. parse_steps; try done; auto with parses. Qed.
#[local] Hint Resolve content_part_parses : parses.
Lemma content_parts_parses content : parses (fun l => l <> [] /\ Forall part_ok l) (parse_content_parts content).
Proof. unfold parse_content_parts. parse_steps; [by auto with parses|]. split; [|done]. by eapply bool_decide_eq_false. Qed.
Lemma assistant_tool_call_parses call : parses (call_ok 64) (parse_assistant_tool_call json_parse call).
Proof. unfold parse_assistant_tool_call. parse_steps. split; [done|]. split; [done|]. by eexists. Qed.
#[local] Hint Resolve assistant_tool_call_parses content_parts_parses : parses.
Lemma assistant_tool_calls_parses item : parses (Forall (call_ok 64)) (parse_assistant_tool_calls json_parse item).
Proof. unfold parse_assistant_tool_calls. parse_steps; auto with parses. Qed.
#[local] Hint Resolve assistant_tool_calls_parses : parses.
Lemma plain_turn_ok n role parts : role <> Tool -> parts <> [] -> Forall part_ok parts -> turn_ok n (mkTurn role parts [] [] []).
Proof using Type. intros Hr Hp Hf. split; cbn; try done; auto. Qed.
Lemma tool_turn_ok n parts id : id <> [] -> Forall part_ok parts -> turn_ok n (mkTurn Tool parts [] id []).
Proof. intros Hi Hf. split; cbn; try done; auto. Qed.
Lemma message_parses item : parses (turn_ok 64) (parse_message json_parse item).
Proof.
  unfold parse_message. eapply parses_bind; [apply get_string_parses|intros s _]. eapply parses_bind; [apply message_role_parses|intros role _]. parse_step.
  assert (Hplain : role <> Tool -> parses (turn_ok 64) (do* throw_if (is_some (present item (bytes_of "tool_calls"))) ApiError;
    match present item (bytes_of "content") with
    | Some content => let* content := parse_content_parts content in Ok (mkTurn role content [] [] [])
    | None => Err ApiError
    end)).
  { intros Hr. parse_steps. apply plain_turn_ok; tauto. }
  destruct role; try (apply parses_throw_if; intros _; by apply Hplain).
  - parse_step. eapply parses_bind; [apply assistant_tool_calls_parses|intros calls Hc].
    eapply (parses_bind (fun parts => Forall part_ok parts /\ (calls <> [] \/ parts <> []))).
    { parse_steps; [|split; [constructor|left; by eapply bool_decide_eq_false]]. eapply parses_mono; [apply content_parts_parses|]. intros parts []. auto. }
    intros parts [Hf Hn]. eapply (parses_bind (fun _ => True)); [by parse_steps|]. intros reasoning _. apply parses_ret. split; cbn; try done. destruct Hn; auto.
  - parse_steps. by apply tool_turn_ok; auto with parses.
Qed.
#[local] Hint Resolve message_parses : parses.
Lemma messages_parses body : parses (fun l => l <> [] /\ Forall (turn_ok 64) l) (parse_messages json_parse body).
Proof.
  unfold parse_messages. eapply parses_bind; [apply messages_of_parses|]. intros l Hl. destruct l as [|x l]; [done|]. cbn [rmapM].
  eapply parses_bind; [apply message_parses|]. intros t Ht. eapply parses_bind; [by apply parses_map, message_parses|]. intros ts Hts. split; [done|by constructor].
Qed.
Lemma tool_parses item : parses (fun t => valid_function_name (td_name t) 64 = true) (parse_tool json_dump item).
Proof.
  unfold parse_tool. parse_step. parse_step. destruct item; try done. destruct (json_field _ _) as [[]|]; try done. parse_step.
  eapply (parses_bind (fun _ => True)); [by parse_steps|]. intros description _. cbv zeta. destruct (json_field _ _) as [[]|]; try done.
  eapply (parses_bind (fun _ => True)); [by parse_steps|]. by intros [strict fn] _.
Qed.
#[local] Hint Resolve tool_parses : parses.
Lemma tools_parses body : parses (Forall (fun t => valid_function_name (td_name t) 64 = true)) (parse_tools json_dump body).
Proof. unfold parse_tools. parse_steps; auto with parses. Qed.
Lemma tool_choice_parses body tools : parses (choice_ok tools) (parse_tool_choice body tools).
Proof.
  unfold parse_tool_choice. destruct (present body _) as [choice|]; [|by apply parses_ret]. eapply (parses_bind (fun _ => True)); [|intros; apply check_tool_choice_parses].
  by parse_steps.
Qed.
Lemma stop_parses body : parses (Forall (fun s => s <> [])) (parse_stop body).
Proof. unfold parse_stop. parse_steps; auto with parses; case_bool_decide; auto. Qed.
Lemma logit_bias_parses entries : forall bias, parses_any (parse_logit_bias entries bias).
Proof. induction entries as [|[key value] entries IH]; intros bias; cbn; [done|]. by parse_steps. Qed.
Lemma sampling_parses body : parses (fun s => sp_n s = 1) (parse_sampling body).
Proof.
  unfold parse_sampling. do 6 parse_step. eapply (parses_bind (fun _ => True)); [parse_steps; try done; apply logit_bias_parses|]. intros bias _. by parse_steps.
Qed.
Lemma unsupported_parses body : parses_any (reject_unsupported_features body).
Proof. unfold reject_unsupported_features. by parse_steps. Qed.
Lemma preserve_thinking_parses body : parses_any (parse_openai_preserve_thinking body).
Proof.
  unfold parse_openai_preserve_thinking. parse_step. eapply (parses_bind (fun _ => True)); [parse_steps; try done; apply optional_bool_parses|]. intros v _. by parse_steps.
Qed.
Lemma reasoning_effort_parses body : parses_any (parse_openai_reasoning_effort body).
Proof. unfold parse_openai_reasoning_effort. by parse_steps. Qed.
#[local] Hint Resolve messages_parses tools_parses tool_choice_parses stop_parses sampling_parses unsupported_parses preserve_thinking_parses
  reasoning_effort_parses : parses.

(** C20: Whatever the body of a chat completion request, parsing it gives a request with at least one turn or reports an
    error of the client; no other exception is thrown.  In the request the calls of the assistant have ids, names of
    functions and arguments that are objects, the answers of tools name the call they answer, media have a source,
    a required or named tool is there, no stop string is empty, and the limit of tokens is positive and an [int]. *)
Theorem chat_request_parsed body default_max_tokens : 0 < default_max_tokens <= i32_max ->
  parses (fun r => request_ok 64 r /\ gr_messages r <> []) (parse_chat_completion_request json_parse json_dump body default_max_tokens).
Proof.
  intros Hd. unfold parse_chat_completion_request. do 9 parse_step. eapply (parses_bind (fun _ => True)); [parse_steps; try done; apply get_bool_parses|]. intros usage _.
  do 3 parse_step. parse_step. eapply (parses_bind (fun o => forall n, o = Some n -> n <= i32_max)).
  { destruct (_ : option Z) as [n|] eqn:?; [|apply get_int_parses]. apply parses_ret. intros ? [= <-]. auto. }
  intros max Hmax. eapply parses_bind; [by apply max_tokens_parses|]. intros [n set] Hn. apply parses_ret. split; [split; cbn; tauto|tauto].
Qed.

(** *** Anthropic *)

(** What nlohmann writes for an object is read as an object. *)
Hypothesis Hdump : forall items, object_text (json_dump (JObject items)).

Lemma starts_with_app p s : starts_with (p ++ s) p = true.
Proof.
  unfold starts_with. rewrite (proj2 (Nat.leb_le _ _)) by (rewrite length_app; lia). rewrite take_app_le, firstn_all by lia. by rewrite bool_decide_true.
Qed.
Lemma image_source_parses block : parses part_ok (parse_image_source block).
Proof.
  unfold parse_image_source. destruct (json_field _ _) as [[]|]; try done. cbv zeta. parse_steps; [apply starts_with_app|].
  unfold part_ok. cbn [media_part cp_part_kind source_kind source_value]. match goal with H : negb _ && _ = false |- _ => apply andb_false_iff in H as [H%negb_false_iff|H%negb_false_iff]; rewrite H end; [done|by rewrite orb_true_r].
Qed.
#[local] Hint Resolve image_source_parses : parses.
Lemma client_tool_parses item : parses (fun t => valid_function_name (td_name t) 128 = true) (parse_client_tool json_dump item).
Proof.
  unfold parse_client_tool. destruct (present _ _) as [[]|]; try done. parse_step. eapply (parses_bind (fun _ => True)); [by parse_steps|]. by intros [] _.
Qed.
#[local] Hint Resolve client_tool_parses : parses.
Lemma client_tools_parses body : parses (Forall (fun t => valid_function_name (td_name t) 128 = true)) (parse_client_tools json_dump body).
Proof. unfold parse_client_tools. parse_steps; auto with parses. Qed.
Lemma anthropic_tool_choice_parses body tools : parses (choice_ok tools) (parse_anthropic_tool_choice body tools).
Proof.
  unfold parse_anthropic_tool_choice. destruct (present body _) as [choice|]; [|by apply parses_ret]. parse_step.
  eapply (parses_bind (fun _ => True)); [by parse_steps|]. intros; apply check_tool_choice_parses.
Qed.
Lemma system_value_parses value : parses_any (flatten_system_value value).
Proof.
  unfold flatten_system_value. destruct value; try done. apply parses_foldl; [done|]. intros text block _. unfold require_block_type. by parse_steps.
Qed.
#[local] Hint Resolve client_tools_parses anthropic_tool_choice_parses system_value_parses : parses.
Lemma system_parses body : parses (Forall (turn_ok 128)) (parse_system body).
Proof. unfold parse_system. parse_steps; constructor; [|constructor]. apply plain_turn_ok; auto with parses. Qed.
Lemma tool_use_parses block : parses (call_ok 128) (parse_tool_use json_dump block).
Proof. unfold parse_tool_use. parse_steps. split; [done|]. split; [done|]. apply Hdump. Qed.
Lemma tool_result_part_parses part : parses part_ok (parse_tool_result_part part).
Proof. unfold parse_tool_result_part, require_block_type. parse_steps; auto with parses. Qed.
#[local] Hint Resolve system_parses tool_use_parses tool_result_part_parses : parses.
Lemma tool_result_content_parses block : parses (Forall part_ok) (parse_tool_result_content block).
Proof. unfold parse_tool_result_content. parse_steps; auto with parses. Qed.
Lemma assistant_block_parses st block : Forall (call_ok 128) st.2 -> parses (fun st => Forall (call_ok 128) st.2) (assistant_block json_dump st block).
Proof.
  intros Hc. unfold assistant_block, require_block_type. destruct st as [[text reasoning] calls]. cbn in Hc. parse_steps; cbn; try done. apply Forall_app. split; [done|]. by constructor.
Qed.
Lemma assistant_content_parses content : parses (Forall (turn_ok 128)) (parse_assistant_content json_dump content).
Proof.
  unfold parse_assistant_content. eapply (parses_bind (fun st => Forall (call_ok 128) st.2)); [apply parses_foldl; [constructor|apply assistant_block_parses]|].
  intros [[text reasoning] calls] Hc. cbn in Hc. cbv zeta.
  assert (Hp : Forall part_ok (if bool_decide (text = []) then [] else [text_part text])) by (case_bool_decide; auto with parses).
  revert Hp. generalize (if bool_decide (text = []) then [] else [text_part text]). intros parts Hp. parse_step. apply parses_ret. constructor; [|constructor].
  split; cbn; try done.
  right. match goal with H : _ = false |- _ => apply andb_false_iff in H as [H|H]; [apply andb_false_iff in H as [H|H]|]; apply bool_decide_eq_false in H end; auto.
Qed.
Definition user_state_ok (st : list ChatTurn * list ContentPart) : Prop := Forall (turn_ok 128) st.1 /\ Forall part_ok st.2.
Lemma flush_ok st : user_state_ok st -> user_state_ok (flush_user_turn st).
Proof.
  destruct st as [out user]. intros [Ho Hu]. unfold flush_user_turn. case_bool_decide; [by split|]. split; cbn; [|constructor]. apply Forall_app. split; [done|].
  constructor; [|constructor]. by apply plain_turn_ok.
Qed.
#[local] Hint Resolve tool_result_content_parses assistant_content_parses : parses.
Lemma user_block_parses st block : user_state_ok st -> parses user_state_ok (user_block st block).
Proof.
  intros Hst. unfold user_block, require_block_type. pose proof (flush_ok st Hst) as Hf. destruct Hst as [Ho Hu]. parse_steps; cbn; destruct Hf; split; cbn; try done;
    apply Forall_app; (split; [done|]); repeat constructor; auto with parses.
Qed.
Lemma user_content_parses content : parses (Forall (turn_ok 128)) (parse_user_content content).
Proof.
  unfold parse_user_content. eapply (parses_bind user_state_ok); [apply parses_foldl; [by split|apply user_block_parses]|]. intros st Hst. apply (flush_ok st Hst).
Qed.
#[local] Hint Resolve user_content_parses : parses.

(** A system message comes after a user message, directly or after other system messages, and before one of the
    assistant or at the end. *)
Definition system_placed (roles : list ChatRole) : Prop := forall i, roles !! i = Some System ->
  (exists j, i = S j /\ (roles !! j = Some User \/ roles !! j = Some System)) /\
  (roles !! S i = None \/ roles !! S i = Some System \/ roles !! S i = Some Assistant).
Lemma sections_parses roles : forall prev, parses (fun _ => forall i, roles !! i = Some System ->
  ((i = 0%nat /\ (prev = Some User \/ prev = Some System)) \/ exists j, i = S j /\ (roles !! j = Some User \/ roles !! j = Some System)) /\
  (roles !! S i = None \/ roles !! S i = Some System \/ roles !! S i = Some Assistant)) (system_sections prev roles).
Proof.
  induction roles as [|role roles IH]; intros prev; [done|]. assert (Hrest : forall (m : result unit), (role = System -> (prev = Some User \/ prev = Some System) /\
    (roles !! 0%nat = None \/ roles !! 0%nat = Some System \/ roles !! 0%nat = Some Assistant)) -> m = system_sections (Some role) roles ->
    parses (fun _ => forall i, (role :: roles) !! i = Some System ->
      ((i = 0%nat /\ (prev = Some User \/ prev = Some System)) \/ exists j, i = S j /\ ((role :: roles) !! j = Some User \/ (role :: roles) !! j = Some System)) /\
      ((role :: roles) !! S i = None \/ (role :: roles) !! S i = Some System \/ (role :: roles) !! S i = Some Assistant)) m).
  { intros m Hr ->. eapply parses_mono; [apply IH|]. intros [] H [|i] Hi; cbn in Hi |- *.
    - injection Hi as ->. destruct (Hr eq_refl). auto.
    - destruct (H i Hi) as [[[-> Hp]|(j & -> & Hj)] Hn]; split; auto; right; eexists; (split; [reflexivity|]); [destruct Hp as [[= ->] | [= ->]]; auto|done]. }
  destruct role; try (apply Hrest; [done|done]). cbn [system_sections]. apply parses_throw_if. intros Hp. apply parses_throw_if. intros Hn. apply Hrest; [|done].
  intros _. clear -Hp Hn. split; [destruct prev as [[]|]; auto; done|]. destruct roles as [|[] ?]; auto; done.
Qed.

Lemma anthropic_role_parses item : parses (fun role => role <> Tool /\ is_Some (json_field item (bytes_of "content"))) (anthropic_role item).
Proof.
  unfold anthropic_role. parse_step. eapply (parses_bind (fun role => role <> Tool)); [by parse_steps|]. intros role Hr. apply parses_throw_if. intros Hc. apply parses_ret. split; [done|].
  unfold present in Hc. by destruct (json_field _ _).
Qed.
Lemma anthropic_message_parses item role : role <> Tool -> is_Some (json_field item (bytes_of "content")) ->
  parses (Forall (turn_ok 128)) (anthropic_message json_dump (item, role)).
Proof.
  intros Hr [content Hc]. unfold anthropic_message. rewrite Hc.
  assert (Hplain : forall s, Forall (turn_ok 128) [mkTurn role [text_part s] [] [] []]) by (intros s; constructor; [apply plain_turn_ok; auto with parses|constructor]).
  destruct role; try done; destruct content; try done; try (by apply parses_ret, Hplain); auto with parses;
    (eapply parses_bind; [apply system_value_parses|]; intros; apply Hplain).
Qed.
Lemma anthropic_messages_parses body : parses (fun turns => Forall (turn_ok 128) turns /\
  exists messages roles, messages_of body = Ok messages /\ rmapM anthropic_role messages = Ok roles /\ system_placed roles) (parse_anthropic_messages json_dump body).
Proof.
  unfold parse_anthropic_messages. destruct (messages_of body) as [messages|] eqn:Em; [|pose proof (messages_of_parses body) as H; by rewrite Em in H]. cbn [rbind].
  pose proof (parses_map2 _ _ messages anthropic_role_parses) as Hroles. destruct (rmapM anthropic_role messages) as [roles|] eqn:Er; [|done]. cbn in Hroles. cbn [rbind].
  eapply parses_bind; [apply sections_parses|]. intros [] Hs. eapply (parses_bind (Forall (Forall (turn_ok 128)))).
  - apply parses_map_in. clear -Hroles Hdump. induction Hroles as [|item role messages roles [Hr Hc] _ IH]; constructor; [by apply anthropic_message_parses|done].
  - intros turns Ht. apply parses_ret. split; [by apply Forall_concat|]. exists messages, roles. split; [done|]. split; [done|]. intros i Hi.
    destruct (Hs i Hi) as [[[_ [?|?]]|?] ?]; done.
Qed.
Lemma anthropic_stops_parses body : parses (Forall (fun s => s <> [])) (parse_stop_sequences body).
Proof. unfold parse_stop_sequences. parse_steps; auto with parses. Qed.
Lemma thinking_parses body : parses_any (parse_thinking body).
Proof. unfold parse_thinking. by parse_steps. Qed.
Lemma output_config_parses body : parses_any (parse_output_config body).
Proof. unfold parse_output_config. by parse_steps. Qed.
#[local] Hint Resolve anthropic_messages_parses anthropic_stops_parses thinking_parses output_config_parses : parses.

(** Whatever the body of an Anthropic messages request, parsing it gives a request or reports an error of the client;
    no other exception is thrown.  The request has the properties of one that was parsed from the other protocol, with
    the longer names of functions, its tool results being turns of their own; and each system message among the messages
    comes after a user message or another system message, and before one of the assistant or at the end. *)
Theorem messages_request_parsed body default_max_tokens : 0 < default_max_tokens <= i32_max ->
  parses (fun r => request_ok 128 r /\ exists messages roles, messages_of body = Ok messages /\ rmapM anthropic_role messages = Ok roles /\ system_placed roles)
    (parse_messages_request json_dump body default_max_tokens).
Proof.
  intros Hd. unfold parse_messages_request. do 15 parse_step. eapply parses_bind; [by apply max_tokens_parses|]. intros [n set] Hn. apply parses_ret.
  split; [|tauto]. split; cbn; try tauto. apply Forall_app. tauto.
Qed.
End Requests.

(** ** Sample bodies *)
Module RequestSample.

Definition parse (s : list Z) : option Json := if bool_decide (s = bytes_of "{}") then Some (JObject []) else None.
Definition dump (value : Json) : list Z := match value with JObject _ => bytes_of "{}" | _ => [] end.
Definition obj (l : list (string * Json)) : Json := JObject ((fun '(k, v) => (bytes_of k, v)) <$> l).
Definition entry (k : string) (v : Json) : string * Json := (k, v).
Definition str (s : string) : Json := JString (bytes_of s).

Definition call : Json := obj [entry "id" (str "c1"); entry "type" (str "function");
  entry "function" (obj [entry "name" (str "look"); entry "arguments" (str "{}")])].
Definition chat_body : Json := obj [
  entry "model" (str "m"); entry "stop" (JArray [str "END"; str ""]); entry "max_tokens" (JUnsigned 7);
  entry "tools" (JArray [obj [entry "type" (str "function"); entry "function" (obj [entry "name" (str "look")])]]);
  entry "tool_choice" (obj [entry "type" (str "function"); entry "function" (obj [entry "name" (str "look")])]);
  entry "messages" (JArray [
    obj [entry "role" (str "user"); entry "content" (JArray [
      obj [entry "type" (str "text"); entry "text" (str "hi")]; obj [entry "type" (str "image_url"); entry "image_url" (str "https://x")]])];
    obj [entry "role" (str "assistant"); entry "tool_calls" (JArray [call])];
    obj [entry "role" (str "tool"); entry "tool_call_id" (str "c1"); entry "content" (str "x")]])].
Lemma chat_request_parsed_witness : exists r, parse_chat_completion_request parse dump chat_body 8192 = Ok r /\ request_ok parse 64 r /\ length (gr_messages r) = 3%nat.
Proof.
  pose proof (chat_request_parsed parse dump chat_body 8192 ltac:(by_compute)) as H.
  assert (Hn : match parse_chat_completion_request parse dump chat_body 8192 with Ok r => length (gr_messages r) | Err _ => 0%nat end = 3%nat) by (vm_compute; reflexivity).
  destruct (parse_chat_completion_request parse dump chat_body 8192) as [r|]; [|done]. exists r. split; [done|]. split; [apply H|exact Hn].
Defined.

Definition messages_body : Json := obj [
  entry "model" (str "m"); entry "system" (str "s"); entry "max_tokens" (JInteger 9);
  entry "tools" (JArray [obj [entry "name" (str "look"); entry "input_schema" (obj [])]]);
  entry "tool_choice" (obj [entry "type" (str "any")]);
  entry "messages" (JArray [
    obj [entry "role" (str "user"); entry "content" (str "hi")];
    obj [entry "role" (str "system"); entry "content" (str "be brief")];
    obj [entry "role" (str "assistant"); entry "content" (JArray [
      obj [entry "type" (str "tool_use"); entry "id" (str "c1"); entry "name" (str "look"); entry "input" (obj [])]])];
    obj [entry "role" (str "user"); entry "content" (JArray [
      obj [entry "type" (str "text"); entry "text" (str "first")];
      obj [entry "type" (str "tool_result"); entry "tool_use_id" (str "c1"); entry "content" (str "x")];
      obj [entry "type" (str "text"); entry "text" (str "then")]])]])].
Lemma dump_object items : object_text parse (dump (JObject items)).
Proof. by exists []. Qed.
Lemma messages_request_parsed_witness : exists r, parse_messages_request dump messages_body 8192 = Ok r /\ request_ok parse 128 r /\ length (gr_messages r) = 7%nat.
Proof.
  pose proof (messages_request_parsed parse dump dump_object messages_body 8192 ltac:(by_compute)) as H.
  assert (Hn : match parse_messages_request dump messages_body 8192 with Ok r => length (gr_messages r) | Err _ => 0%nat end = 7%nat) by (vm_compute; reflexivity).
  destruct (parse_messages_request dump messages_body 8192) as [r|]; [|done]. exists r. split; [done|]. split; [apply H|exact Hn].
Defined.
End RequestSample.
