(* ===== verification/Serving.v ===== *)
(** * From a request of the server to the engine and back: [src/serve/translate.cpp], [generation_service.cpp]

    A [GenerationRequest] becomes a conversation and options of the engine, which resolves them over the defaults of
    the model ([src/runtime/contract/sampling.cpp]); what the engine publishes becomes what a client is sent.  The
    engine, the acquisition of media, clocks and random numbers are arguments. *)
From Stdlib Require Import Strings.String.
From stdpp Require Import gmap.
From S2P Require Import ProgramState RequestPlan Prelude Unicode Admission Capacity Contract Output Tokenizer ToolCalls ChatTemplate PrefixIdentity MediaCache Processor Preparation ResponseStore Requests.
#[local] Open Scope Z_scope.
#[local] Open Scope ninfer_scope.

(** ** Sampling *)

(** [static_cast<float>] of a [double], on bit patterns: rounding to nearest, ties to even. *)
Definition round_half_even (m shift : Z) : Z :=
  let q := Z.shiftr m shift in
  let r := m - Z.shiftl q shift in
  let half := Z.shiftl 1 (shift - 1) in
  if (r >? half) || ((r =? half) && Z.odd q) then q + 1 else q.
Definition f32_of_f64 (x : Z) : Z :=
  let sign := Z.shiftl (Z.shiftr x 63) 31 in
  let exponent := Z.land (Z.shiftr x 52) 2047 in
  let fraction := Z.land x (Z.ones 52) in
  if exponent =? 2047 then sign + (if fraction =? 0 then 0x7f800000 else 0x7fc00000 + Z.land (Z.shiftr fraction 29) (Z.ones 22))
  else
    let m := if exponent =? 0 then fraction else fraction + 2 ^ 52 in
    let unit_ := Z.max exponent 1 - 1075 in
    if m =? 0 then sign
    else
      let target := Z.max (Z.log2 m + unit_ - 23) (-149) in
      sign + Z.min 0x7f800000 (Z.shiftl (target + 149) 23 + round_half_even m (target - unit_)).

Definition f32_two : Z := 0x40000000.
Definition f32_minus_two : Z := 0xc0000000.

Record SamplingPreset : Set := mkPreset {
  sd_temperature : Z; sd_top_k : Z; sd_top_p : Z; sd_min_p : Z; sd_presence_penalty : Z; sd_frequency_penalty : Z;
}.
Inductive SamplingMode : Set := Thinking | NonThinking.
Record ModelSamplingDefaults : Set := mkSamplingDefaults { thinking : SamplingPreset; non_thinking : SamplingPreset }.
Definition for_mode (d : ModelSamplingDefaults) (mode : SamplingMode) : SamplingPreset :=
  match mode with Thinking => thinking d | NonThinking => non_thinking d end.

Definition kQwen3_6Defaults : ModelSamplingDefaults := mkSamplingDefaults
  (mkPreset 0x3f800000 20 0x3f733333 0 0 0) (mkPreset 0x3f333333 20 0x3f4ccccd 0 0x3fc00000 0).
Definition kQwen3_8Defaults : ModelSamplingDefaults := mkSamplingDefaults
  (mkPreset 0x3f800000 20 0x3f733333 0 0 0) (mkPreset 0x3f333333 20 0x3f4ccccd 0 0x3fc00000 0).
Definition kQwen3_6_35BA3BDefaults : ModelSamplingDefaults := mkSamplingDefaults
  (mkPreset 0x3f800000 20 0x3f733333 0 0x3fc00000 0) (mkPreset 0x3f333333 20 0x3f4ccccd 0 0x3fc00000 0).
Definition sampling_defaults_27b (model : list Z) : result ModelSamplingDefaults :=
  if bool_decide (model = bytes_of "qwen3.6-27b") then Ok kQwen3_6Defaults
  else if bool_decide (model = bytes_of "qwen3.8-27b") then Ok kQwen3_8Defaults
  else Err RuntimeError.
Definition sampling_defaults_35b (model : list Z) : result ModelSamplingDefaults :=
  if bool_decide (model = bytes_of "qwen3.6-35b-a3b") then Ok kQwen3_6_35BA3BDefaults else Err RuntimeError.

Record SamplingOverrides : Set := mkOverrides {
  so_temperature : option Z; so_top_k : option Z; so_top_p : option Z; so_min_p : option Z; so_presence_penalty : option Z;
  so_frequency_penalty : option Z; so_seed : option Z;
}.

(** [x < low || x > high] *)
Definition f32_outside (low high x : Z) : bool := f32_ltb x low || f32_ltb high x.

(** [validate] of [sampling.cpp]. *)
Definition validate_parameters (s : ResolvedSamplingParameters) : result unit :=
  do* throw_if (negb (f32_is_finite (rs_temperature s)) || negb (f32_is_finite (rs_top_p s)) || negb (f32_is_finite (rs_min_p s)) ||
                negb (f32_is_finite (rs_presence_penalty s)) || negb (f32_is_finite (rs_frequency_penalty s))) InvalidArgument;
  do* throw_if (f32_outside f32_zero f32_two (rs_temperature s)) InvalidArgument;
  do* throw_if (rs_top_k s <? 0) InvalidArgument;
  do* throw_if (f32_outside f32_zero f32_one (rs_top_p s)) InvalidArgument;
  do* throw_if (f32_outside f32_zero f32_one (rs_min_p s)) InvalidArgument;
  do* throw_if (f32_outside f32_minus_two f32_two (rs_presence_penalty s)) InvalidArgument;
  throw_if (f32_outside f32_minus_two f32_two (rs_frequency_penalty s)) InvalidArgument.

Definition resolve_sampling (defaults : ModelSamplingDefaults) (mode : SamplingMode) (overrides : SamplingOverrides)
  : result ResolvedSamplingParameters :=
  let preset := for_mode defaults mode in
  let resolved := mkResolved (default (sd_temperature preset) (so_temperature overrides)) (default (sd_top_k preset) (so_top_k overrides))
    (default (sd_top_p preset) (so_top_p overrides)) (default (sd_min_p preset) (so_min_p overrides))
    (default (sd_presence_penalty preset) (so_presence_penalty overrides)) (default (sd_frequency_penalty preset) (so_frequency_penalty overrides))
    (default 0 (so_seed overrides)) in
  do* validate_parameters resolved; Ok resolved.

(** ** [translate.cpp] *)

(** [ServeOptions]: what the translation reads. *)
Record ServeOptions : Set := mkServeOptions {
  sv_enable_thinking : bool; sv_preserve_thinking : bool; sv_allow_prefix_reuse : bool; sampling_overrides : SamplingOverrides; greedy : bool;
  sv_enable_vision : bool; max_request_bytes : Z;
}.

(** [if (request.x) { sampling.x = ...; }] *)
Definition override (requested server : option Z) : option Z := match requested with Some v => Some v | None => server end.
Definition finite_option (x : option Z) : bool := match x with Some v => f32_is_finite v | None => true end.
Definition outside_option (low high : Z) (x : option Z) : bool := match x with Some v => f32_outside low high v | None => false end.

(** [random]: the seed that is drawn when none is given. *)
Definition resolve_sampling_overrides (request : SamplingParams) (server : ServeOptions) (random : Z) : result SamplingOverrides :=
  let o := sampling_overrides server in
  let temperature := override (f32_of_f64 <$> sp_temperature request) (so_temperature o) in
  let top_p := override (f32_of_f64 <$> sp_top_p request) (so_top_p o) in
  let top_k := override (sp_top_k request) (so_top_k o) in
  let presence_penalty := override (f32_of_f64 <$> sp_presence_penalty request) (so_presence_penalty o) in
  let frequency_penalty := override (f32_of_f64 <$> sp_frequency_penalty request) (so_frequency_penalty o) in
  let seed := default random (override (sp_seed request) (so_seed o)) in
  do* throw_if (negb (finite_option temperature) || negb (finite_option top_p) || negb (finite_option (so_min_p o)) ||
                negb (finite_option presence_penalty) || negb (finite_option frequency_penalty)) ApiError;
  do* throw_if (outside_option f32_zero f32_two temperature) ApiError;
  do* throw_if (outside_option f32_zero f32_one top_p) ApiError;
  do* throw_if (match top_k with Some k => k <? 0 | None => false end) ApiError;
  do* throw_if (outside_option f32_zero f32_one (so_min_p o)) ApiError;
  do* throw_if (outside_option f32_minus_two f32_two presence_penalty) ApiError;
  do* throw_if (outside_option f32_minus_two f32_two frequency_penalty) ApiError;
  Ok (mkOverrides (if greedy server then Some f32_zero else temperature) top_k top_p (so_min_p o) presence_penalty frequency_penalty (Some seed)).

Fixpoint find_tool (tools : list ToolDefinition) (name : list Z) : option ToolDefinition :=
  match tools with
  | [] => None
  | tool :: tools' => if bool_decide (td_name tool = name) then Some tool else find_tool tools' name
  end.
Definition effective_tool_jsons (request : GenerationRequest) : list (list Z) :=
  if negb (uses_tools request) then []
  else if bool_decide (choice_mode (gr_tool_choice request) = ChoiceNamed) then
    match find_tool (gr_tools request) (choice_name (gr_tool_choice request)) with Some tool => [definition_json tool] | None => [] end
  else definition_json <$> gr_tools request.

Record ResolvedPromptSemantics : Set := mkSemantics {
  se_enable_thinking : bool; se_reasoning_effort : option ReasoningEffort; se_preserve_thinking : bool;
}.

(** [ReasoningEffortCapabilities::supports] *)
Definition supports (c : PromptCapabilities) (effort : ReasoningEffort) : bool :=
  match effort with Low => effort_low c | Medium => effort_medium c | XHigh => effort_xhigh c end.

Definition resolve_prompt_semantics (request : GenerationRequest) (server : ServeOptions) (c : PromptCapabilities) : result ResolvedPromptSemantics :=
  let preserve := default (sv_preserve_thinking server) (gr_preserve_thinking request) in
  match gr_reasoning_effort request with
  | None => Ok (mkSemantics (default (sv_enable_thinking server) (gr_enable_thinking request)) None preserve)
  | Some requested =>
      let enables_thinking := negb (bool_decide (requested = EffortNone)) in
      do* throw_if (match gr_enable_thinking request with Some b => negb (Bool.eqb b enables_thinking) | None => false end) ApiError;
      if bool_decide (requested = EffortNone) then
        do* throw_if (negb (can_enable_thinking c)) ApiError;
        Ok (mkSemantics enables_thinking None preserve)
      else
        let* effort :=
          match requested with
          | EffortLow => Ok Low | EffortMedium => Ok Medium | EffortXHigh => Ok XHigh
          | EffortMinimal | EffortHigh | EffortMax => Err ApiError
          | EffortNone => Err Abort_
          end in
        do* throw_if (negb (supports c effort)) ApiError;
        Ok (mkSemantics enables_thinking (Some effort) preserve)
  end.

Record PromptOptions : Set := mkPromptOptions {
  po_add_generation_prompt : bool; po_enable_thinking : bool; po_reasoning_effort : option ReasoningEffort; po_preserve_thinking : bool;
  po_add_vision_id : bool; po_tool_jsons : list (list Z);
}.
Record PromptInput : Set := mkPromptInput { pi_messages : list Message; pi_options : PromptOptions }.

Section Translate.
Context {S : Type} (acquire_media : option (ContentPart -> M S MediaData)).

(** The last part of a message is text. *)
Definition ends_in_text (parts : list MessagePart) : bool := match last parts with Some (TextPart _) => true | _ => false end.
Definition add_part (parts : list MessagePart) (part : ContentPart) : M S (list MessagePart) :=
  match cp_part_kind part with
  | CkText =>
      let newline := if ends_in_text parts && negb (bool_decide (cp_text part = [])) then [TextPart [10]] else [] in
      mret_ (parts ++ newline ++ [TextPart (cp_text part)])
  | CkImage | CkVideo =>
      match acquire_media with
      | None => mthrow LogicError
      | Some acquire => let! medium := acquire part in mret_ (parts ++ [MediaPart medium])
      end
  | _ => mthrow ApiError
  end.
Fixpoint add_parts (parts : list MessagePart) (content : list ContentPart) : M S (list MessagePart) :=
  match content with
  | [] => mret_ parts
  | part :: content' => let! parts := add_part parts part in add_parts parts content'
  end.
Definition to_message (turn : ChatTurn) : M S Message :=
  let! parts := add_parts [] (turn_content turn) in
  mret_ (mkInputMessage (turn_role turn) parts (turn_reasoning turn) (turn_tool_calls turn) (turn_tool_call_id turn)).
Definition to_prompt_input (request : GenerationRequest) (semantics : ResolvedPromptSemantics) : M S PromptInput :=
  let! messages := mmapM to_message (gr_messages request) in
  mret_ (mkPromptInput messages
    (mkPromptOptions true (se_enable_thinking semantics) (se_reasoning_effort semantics) (se_preserve_thinking semantics) false
       (effective_tool_jsons request))).
End Translate.

Record RequestOptions : Set := mkRequestOptions {
  op_sampling : SamplingOverrides; op_requested_output_tokens : Z; op_allow_prefix_reuse : bool; op_stop : StopPolicy;
  op_raw : bool; op_preserve_special_tokens : bool;
}.
Definition to_request_options (request : GenerationRequest) (server : ServeOptions) (random : Z) : result RequestOptions :=
  let* sampling := resolve_sampling_overrides (gr_sampling request) server random in
  Ok (mkRequestOptions sampling (u32 (max_tokens request)) (sv_allow_prefix_reuse server)
        (mkStopPolicy [] ((fun s => mkStopString s Content false) <$> filter (fun s => s <> []) (stop_strings request)) true false)
        false (uses_tools request || has_tool_history request)).

(** ** [generation_service.cpp] *)

Definition kMaximumPromptMediaBytes : Z := 256 * 2 ^ 20.
(** [Policy::max_bytes] *)
Definition policy_max_bytes : Z := 256 * 2 ^ 20.

(** [RequestCapacity]: the requests that are counted, and their most. *)
Record RequestCapacity : Set := mkRequestCapacity { active : Z; maximum : Z }.
Definition acquire_request_lifetime : M RequestCapacity unit :=
  let! c := mget in
  do! mthrow_if (active c >=? maximum c) ApiError;
  mput (mkRequestCapacity (active c + 1) (maximum c)).
(** [~RequestLifetime] *)
Definition release_request_lifetime : M RequestCapacity unit := mmodify (fun c => mkRequestCapacity (active c - 1) (maximum c)).

(** The handlers of [prepare]: errors of requests and invalid arguments become errors of the client. *)
Definition client_error (e : exn) : exn :=
  match e with ApiError | RequestError _ | InvalidArgument => ApiError | _ => e end.

(** What the service uses: [acquire_bytes] of at most as many bytes ([None]: it throws, and the client is told);
    the clock and the client ([check_preparation_control]); and the engine. *)
Class ServiceEnvironment : Type := {
  acquire_bytes : ContentPart -> Z -> option (list Z);
  still_wanted : nat -> result unit;
  engine_prompt : Type;
  engine_generation : Type;
  engine_prepare : PromptInput -> result engine_prompt;
  engine_submit : engine_prompt -> RequestOptions -> result engine_generation;
  prompt_capabilities : PromptCapabilities;
}.

Section Service.
Context `{ServiceEnvironment} (options : ServeOptions).

(** The state is [remaining_bytes]. *)
Definition acquire_media (part : ContentPart) : M Z MediaData :=
  let! remaining_bytes := mget in
  do! mthrow_if (remaining_bytes =? 0) ApiError;
  match acquire_bytes part (Z.min policy_max_bytes remaining_bytes) with
  | None => mthrow ApiError
  | Some bytes =>
      do! mput (u64 (remaining_bytes - Z.of_nat (length bytes)));
      mret_ (mkMediaData (match cp_part_kind part with CkImage => Image | _ => Video end) bytes)
  end.

Definition media_budget : Z := Z.min (max_request_bytes options) kMaximumPromptMediaBytes.

(** The [try] block of [prepare]. *)
Definition prepare_prompt (request : GenerationRequest) (semantics : ResolvedPromptSemantics) (request_options : RequestOptions)
  : result engine_generation :=
  let* input := (to_prompt_input (Some acquire_media) request semantics media_budget).1 in
  do* still_wanted 0;
  let* prompt := engine_prepare input in
  do* still_wanted 1;
  engine_submit prompt request_options.

Definition prepare (request : GenerationRequest) (random : Z) : M RequestCapacity engine_generation :=
  let! request_options := mlift (to_request_options request options random) in
  let! semantics := mlift (resolve_prompt_semantics request options prompt_capabilities) in
  do! mthrow_if (negb (media_item_count request =? 0)%nat && negb (sv_enable_vision options)) ApiError;
  do! acquire_request_lifetime;
  match prepare_prompt request semantics request_options with
  | Ok generation => mret_ generation
  | Err Abort_ => mthrow Abort_
  | Err e => do! release_request_lifetime; mthrow (client_error e)
  end.
End Service.

(** *** Streaming *)

(** [ServiceOutputSink]; the calls of [on_reasoning] and [on_content] so far, with their texts. *)
Record ServiceOutputSink : Set := mkSink { tool_filter_ : ToolCallStreamFilter; content_bytes_ : Z; sink_calls : list OutputDelta }.
Definition sink_init : ServiceOutputSink := mkSink filter_init 0 [].

Section Sink.
Context (filter_tool_calls has_reasoning has_content : bool).

Definition with_filter {A} (op : M ToolCallStreamFilter A) : M ServiceOutputSink A := fun s =>
  let '(r, f) := op (tool_filter_ s) in (r, mkSink f (content_bytes_ s) (sink_calls s)).

Definition publish_content (text : list Z) : M ServiceOutputSink unit :=
  if bool_decide (text = []) || negb has_content then mret_ tt
  else mmodify (fun s => mkSink (tool_filter_ s) (u64 (content_bytes_ s + Z.of_nat (length text))) (sink_calls s ++ [mkDelta Content text])).

Definition publish (delta : OutputDelta) : M ServiceOutputSink unit :=
  if bool_decide (od_text delta = []) then mret_ tt
  else match od_channel delta with
  | Reasoning =>
      mwhen has_reasoning (mmodify (fun s => mkSink (tool_filter_ s) (content_bytes_ s) (sink_calls s ++ [mkDelta Reasoning (od_text delta)])))
  | Content =>
      let! visible := if filter_tool_calls then with_filter (feed (od_text delta)) else mret_ (od_text delta) in
      publish_content visible
  end.

Definition sink_finish (is_tool_call_response : bool) : M ServiceOutputSink Z :=
  do! mwhen filter_tool_calls (let! tail := with_filter (finish is_tool_call_response) in publish_content tail);
  let! s := mget in mret_ (content_bytes_ s).
End Sink.

(** *** Outcomes *)

(** [GenerationResult]: what the service reads but for timings and the statistics of speculation. *)
Record GenerationResult : Set := mkGenerationResult {
  gn_prompt_tokens : Z; gn_generated_tokens : list Z; gn_content : list Z; gn_reasoning : list Z; gn_reasoning_tokens : Z;
  gn_finish_reason : FinishReason; gn_reused_prompt_tokens : Z;
}.
(** [GenerationOutcome], with [metrics.prefix_cache_hit_tokens]. *)
Record GenerationOutcome : Set := mkOutcome {
  out_text : list Z; out_reasoning : list Z; out_tool_calls : list ToolCall; out_prompt_tokens : Z; out_completion_tokens : Z;
  out_reasoning_tokens : Z; streamed_content_bytes : Z; out_finish_reason : FinishReason; prefix_cache_hit_tokens : Z;
}.

(** [static_cast<int>] of an unsigned number. *)
Definition as_int (x : Z) : Z := to_i32 (u32 x).

(** The outcome but for the bytes that were streamed, and whether the answer ends in tool calls. *)
Definition outcome_of `{JsonText} (tool_capable : bool) (max_name_length : nat) (random : nat -> Z) (r : GenerationResult)
  : result (GenerationOutcome * bool) :=
  let outcome text calls := mkOutcome text (gn_reasoning r) calls (as_int (gn_prompt_tokens r)) (as_int (Z.of_nat (length (gn_generated_tokens r))))
    (as_int (gn_reasoning_tokens r)) 0 (gn_finish_reason r) (gn_reused_prompt_tokens r) in
  if tool_capable then
    match parse_qwen_tool_call_output (gn_content r) max_name_length random with
    | None => Err Abort_
    | Some parsed =>
        Ok (outcome (ToolCalls.content parsed) (if is_tool_call_response parsed then tool_calls parsed else []), is_tool_call_response parsed)
    end
  else Ok (outcome (gn_content r) [], false).

Definition with_streamed (bytes : Z) (o : GenerationOutcome) : GenerationOutcome :=
  mkOutcome (out_text o) (out_reasoning o) (out_tool_calls o) (out_prompt_tokens o) (out_completion_tokens o) (out_reasoning_tokens o) bytes
    (out_finish_reason o) (prefix_cache_hit_tokens o).

(** [run] with a sink and without one, from what [wait] publishes and returns on. *)
Definition run `{JsonText} (tool_capable has_reasoning has_content : bool) (max_name_length : nat) (random : nat -> Z)
    (deltas : list OutputDelta) (r : GenerationResult) : M ServiceOutputSink GenerationOutcome :=
  do! miter (publish tool_capable has_reasoning has_content) deltas;
  let! (outcome, is_tool_call_response) := mlift (outcome_of tool_capable max_name_length random r) in
  let! streamed := sink_finish tool_capable has_content is_tool_call_response in
  mret_ (with_streamed streamed outcome).
Definition run_silent `{JsonText} (tool_capable : bool) (max_name_length : nat) (random : nat -> Z) (r : GenerationResult) : result GenerationOutcome :=
  let* (outcome, _) := outcome_of tool_capable max_name_length random r in Ok outcome.
