(* ===== verification/ServingProofs.v ===== *)
(** * The translation of requests, and what a client is sent

    Options that the server accepts are accepted by the engine and the planner; a conversation is translated part by
    part within the budget of media; preparation keeps the count of requests; and a client is streamed exactly the
    answer. *)
From Stdlib Require Import Strings.String.
From stdpp Require Import gmap.
From S2P Require Import ProgramState RequestPlan Prelude Unicode Admission Capacity Contract Output Tokenizer ToolCalls ToolCallsProofs ChatTemplate PrefixIdentity MediaCache Processor Preparation ResponseStore Requests Serving.
#[local] Open Scope Z_scope.
#[local] Open Scope ninfer_scope.

(** ** Sampling *)

Lemma outside_default low high p o : outside_option low high o = false -> f32_outside low high p = false -> f32_outside low high (default p o) = false.
Proof. by destruct o. Qed.
Lemma finite_default p o : finite_option o = true -> f32_is_finite p = true -> f32_is_finite (default p o) = true.
Proof. by destruct o. Qed.

(** The registered presets pass the checks that the overrides pass. *)
Definition preset_ok (p : SamplingPreset) : bool :=
  forallb f32_is_finite [sd_temperature p; sd_top_p p; sd_min_p p; sd_presence_penalty p; sd_frequency_penalty p] &&
  negb (f32_outside f32_zero f32_two (sd_temperature p)) && (0 <=? sd_top_k p) && negb (f32_outside f32_zero f32_one (sd_top_p p)) &&
  negb (f32_outside f32_zero f32_one (sd_min_p p)) && negb (f32_outside f32_minus_two f32_two (sd_presence_penalty p)) &&
  negb (f32_outside f32_minus_two f32_two (sd_frequency_penalty p)).

Definition registered (d : ModelSamplingDefaults) : Prop := exists model, sampling_defaults_27b model = Ok d \/ sampling_defaults_35b model = Ok d.
Lemma registered_ok d mode : registered d -> preset_ok (for_mode d mode) = true.
Proof.
  intros [model [H|H]]; unfold sampling_defaults_27b, sampling_defaults_35b in H; repeat case_bool_decide; try done; injection H as <-; by destruct mode.
Qed.

Lemma parameters_ok s :
  forallb f32_is_finite [rs_temperature s; rs_top_p s; rs_min_p s; rs_presence_penalty s; rs_frequency_penalty s] = true ->
  f32_outside f32_zero f32_two (rs_temperature s) = false -> (rs_top_k s <? 0) = false -> f32_outside f32_zero f32_one (rs_top_p s) = false ->
  f32_outside f32_zero f32_one (rs_min_p s) = false -> f32_outside f32_minus_two f32_two (rs_presence_penalty s) = false ->
  f32_outside f32_minus_two f32_two (rs_frequency_penalty s) = false -> validate_parameters s = Ok tt /\ validate_sampling s = Ok tt.
Proof.
  cbn [forallb]. rewrite !andb_true_iff. intros (F1 & F2 & F3 & F4 & F5 & _) H1 H2 H3 H4 H5 H6. unfold validate_parameters, validate_sampling.
  rewrite F1, F2, F3, F4, F5. cbn [negb orb throw_if rbind]. rewrite H1, H2, H3, H4, H5, H6. cbn [throw_if rbind]. unfold f32_outside in H3, H4. by rewrite H3, H4.
Qed.

(** C27: Whatever a client asks for and however the server is configured: the options are refused as an error of the
    client, or the engine resolves them over the defaults of every registered model and mode and the planner of requests
    accepts the result.  A greedy server has temperature 0.  Every stop string is not empty. *)
Theorem request_options_accepted request server random :
  match to_request_options request server random with
  | Err e => e = ApiError
  | Ok o => (forall d mode, registered d -> exists s, resolve_sampling d mode (op_sampling o) = Ok s /\ validate_sampling s = Ok tt /\
               (greedy server = true -> rs_temperature s = f32_zero)) /\ Forall (fun s => ss_text s <> []) (strings (op_stop o))
  end.
Proof.
  unfold to_request_options, resolve_sampling_overrides. set (t := override (f32_of_f64 <$> sp_temperature _) _). set (p := override (f32_of_f64 <$> sp_top_p _) _).
  set (k := override (sp_top_k _) _). set (pp := override (f32_of_f64 <$> sp_presence_penalty _) _). set (fp := override (f32_of_f64 <$> sp_frequency_penalty _) _).
  set (mp := so_min_p _). cbn zeta. destruct (negb (finite_option t) || _ || _ || _ || _) eqn:Hf; [done|]. destruct (outside_option f32_zero f32_two t) eqn:Ht; [done|].
  destruct (outside_option f32_zero f32_one p) eqn:Hp; [done|]. destruct (match k with Some k => k <? 0 | None => false end) eqn:Hk; [done|].
  destruct (outside_option f32_zero f32_one mp) eqn:Hm; [done|]. destruct (outside_option f32_minus_two f32_two pp) eqn:Hpp; [done|].
  destruct (outside_option f32_minus_two f32_two fp) eqn:Hfp; [done|]. cbn. split; [|apply Forall_fmap, Forall_forall; intros s Hs; by apply list_elem_of_filter in Hs as [? _]].
  intros d mode Hd. apply (registered_ok _ mode) in Hd. unfold resolve_sampling. set (pr := for_mode d mode) in *. unfold preset_ok in Hd. cbn in Hd.
  rewrite !andb_true_iff, !negb_true_iff in Hd. destruct Hd as ((((((F & D1) & D2) & D3) & D4) & D5) & D6). destruct F as (F1 & F2 & F3 & F4 & F5 & _).
  rewrite !orb_false_iff, !negb_false_iff in Hf. destruct Hf as ((((G1 & G2) & G3) & G4) & G5). cbn. set (t' := if greedy server then _ else t).
  assert (Ht' : finite_option t' = true /\ outside_option f32_zero f32_two t' = false) by (unfold t'; by destruct (greedy server)). destruct Ht' as [G1' Ht'].
  match goal with |- exists s, rbind (validate_parameters ?p) _ = _ /\ _ => destruct (parameters_ok p) as [H1 H2] end; cbn;
    try (by apply outside_default); [by rewrite !finite_default by done|destruct k; [done|]; apply Z.leb_le in D2; apply Z.ltb_ge; exact D2|].
  rewrite H1. eexists. split; [reflexivity|]. split; [exact H2|]. cbn. intros Hg. unfold t'. by rewrite Hg.
Qed.

(** ** Conversations *)

(** What is shown of a message: its bytes, and its media as [None]. *)
Definition shown_part (p : MessagePart) : list (option Z) := match p with TextPart t => Some <$> t | MediaPart _ => [None] end.
Definition shown (parts : list MessagePart) : list (option Z) := concat (shown_part <$> parts).
(** The same of the content of a turn: texts that follow each other are on lines of their own, unless they are empty. *)
Fixpoint reference (after_text : bool) (content : list ContentPart) : list (option Z) :=
  match content with
  | [] => []
  | p :: content' =>
      if is_medium p then None :: reference false content'
      else (if after_text && negb (bool_decide (cp_text p = [])) then [Some 10] else []) ++ (Some <$> cp_text p) ++ reference true content'
  end.
Lemma reference_cons after p content : reference after (p :: content) = reference after [p] ++ reference (negb (is_medium p)) content.
Proof. cbn [reference]. destruct (is_medium p); [done|]. by rewrite app_nil_r, <- app_assoc. Qed.
Definition part_modality (p : ContentPart) : PromptModality := match cp_part_kind p with CkImage => Image | _ => Video end.
Definition media_of (parts : list MessagePart) : list MediaData := concat (part_media <$> parts).
Definition media_bytes (media : list MediaData) : Z := foldr (fun m n => Z.of_nat (length (md_bytes m)) + n) 0 media.

Lemma media_bytes_app a b : media_bytes (a ++ b) = media_bytes a + media_bytes b.
Proof. unfold media_bytes. induction a as [|m a IH]; [done|]. cbn [foldr app]. rewrite IH. lia. Qed.
Lemma shown_app a b : shown (a ++ b) = shown a ++ shown b.
Proof. unfold shown. by rewrite fmap_app, concat_app. Qed.
Lemma media_of_app a b : media_of (a ++ b) = media_of a ++ media_of b.
Proof. unfold media_of. by rewrite fmap_app, concat_app. Qed.

Record turn_shown (t : ChatTurn) (m : Message) : Prop := {
  ts_role : msg_role m = turn_role t;
  ts_reasoning : msg_reasoning m = turn_reasoning t;
  ts_calls : msg_tool_calls m = turn_tool_calls t;
  ts_answers : msg_tool_call_id m = turn_tool_call_id t;
  ts_parts : shown (msg_parts m) = reference false (turn_content t);
  ts_media : md_kind <$> media_of (msg_parts m) = part_modality <$> filter is_medium (turn_content t);
}.

Section Acquire.
Context `{ServiceEnvironment}.
(** Acquisition keeps to the limit it is given. *)
Hypothesis Hlimit : forall part limit bytes, acquire_bytes part limit = Some bytes -> Z.of_nat (length bytes) <= limit.
#[local] Notation acquire := (Some acquire_media) (only parsing).
Definition budget_range (n : Z) : Prop := 0 <= n <= kMaximumPromptMediaBytes.

Lemma wp_acquire part n : budget_range n ->
  wp (acquire_media part) (fun m n' => md_kind m = part_modality part /\ budget_range n' /\ Z.of_nat (length (md_bytes m)) + n' = n) (fun e _ => e = ApiError) n.
Proof.
  intros [Hn Hn']. unfold acquire_media. apply wp_bind, wp_get, wp_bind, wp_throw_if; [done|]. intros Hz.
  destruct (acquire_bytes part _) as [bytes|] eqn:Eb; [|by apply wp_throw]. apply Hlimit in Eb. apply wp_bind, wp_put, wp_ret. cbn. unfold kMaximumPromptMediaBytes in *.
  rewrite u64_small by (unfold_ints; lia). split; [done|]. unfold budget_range, kMaximumPromptMediaBytes. lia.
Qed.

Definition parts_ok (parts : list MessagePart) (content : list ContentPart) (n : Z) (parts' : list MessagePart) (n' : Z) : Prop :=
  shown parts' = shown parts ++ reference (ends_in_text parts) content /\
  md_kind <$> media_of parts' = (md_kind <$> media_of parts) ++ (part_modality <$> filter is_medium content) /\
  media_bytes (media_of parts') + n' = media_bytes (media_of parts) + n.

Lemma wp_add_part parts part n : budget_range n ->
  wp (add_part acquire parts part) (fun parts' n' => budget_range n' /\ parts_ok parts [part] n parts' n' /\ ends_in_text parts' = negb (is_medium part)) (fun e _ => e = ApiError) n.
Proof.
  intros Hn. assert (Hmedia : is_medium part = true -> wp (let! medium := acquire_media part in mret_ (parts ++ [MediaPart medium]))
    (fun parts' n' => budget_range n' /\ parts_ok parts [part] n parts' n' /\ ends_in_text parts' = negb (is_medium part)) (fun e _ => e = ApiError) n).
  { intros Hm. apply wp_bind. eapply wp_mono; [by apply wp_acquire| |done]. intros m n' (Hk & Hn' & Hb). apply wp_ret. split; [done|]. rewrite Hm. split.
    - unfold parts_ok. rewrite shown_app, media_of_app, fmap_app, media_bytes_app. cbn [reference filter list_filter]. rewrite Hm, decide_True by done. cbn. rewrite Hk. split_and!; [done..|lia].
    - unfold ends_in_text. by rewrite last_snoc. }
  unfold add_part. destruct (cp_part_kind part) eqn:Ek; try (apply Hmedia; unfold is_medium; by rewrite Ek); try (by apply wp_throw). clear Hmedia. apply wp_ret.
  assert (Hm : is_medium part = false) by (unfold is_medium; by rewrite Ek). split; [done|]. rewrite Hm. split.
  - unfold parts_ok. rewrite !shown_app, !media_of_app, fmap_app, media_bytes_app. cbn [reference filter list_filter]. rewrite Hm, decide_False by auto.
    destruct (ends_in_text parts && negb (bool_decide (cp_text part = []))); cbn; rewrite ?app_nil_r; split_and!; try done; lia.
  - unfold ends_in_text. by rewrite app_assoc, last_snoc.
Qed.
Lemma wp_add_parts content : forall parts n, budget_range n ->
  wp (add_parts acquire parts content) (fun parts' n' => budget_range n' /\ parts_ok parts content n parts' n') (fun e _ => e = ApiError) n.
Proof.
  induction content as [|p content IH]; intros parts n Hn.
  - apply wp_ret. unfold parts_ok. cbn. rewrite !app_nil_r. by split_and!.
  - cbn [add_parts]. apply wp_bind. eapply wp_mono; [by apply wp_add_part| |done]. intros parts1 n1 (Hn1 & (S1 & K1 & B1) & E1).
    eapply wp_mono; [by apply IH| |done]. intros parts2 n2 (Hn2 & S2 & K2 & B2). split; [done|]. unfold parts_ok. rewrite S2, K2, S1, K1, E1.
    rewrite (reference_cons _ p content), <- !app_assoc, <- fmap_app, <- filter_app. by split_and!; [..|lia].
Qed.
Lemma wp_to_message t n : budget_range n ->
  wp (to_message acquire t) (fun m n' => budget_range n' /\ turn_shown t m /\ media_bytes (message_media m) + n' = n) (fun e _ => e = ApiError) n.
Proof.
  intros Hn. unfold to_message. apply wp_bind. eapply wp_mono; [by apply wp_add_parts| |done]. intros parts n' (Hn' & S1 & K1 & B1). apply wp_ret. split; [done|].
  split; [by split|]. exact B1.
Qed.
Lemma wp_to_messages turns : forall n, budget_range n ->
  wp (mmapM (to_message acquire) turns) (fun ms n' => budget_range n' /\ Forall2 turn_shown turns ms /\ media_bytes (concat (message_media <$> ms)) + n' = n) (fun e _ => e = ApiError) n.
Proof.
  induction turns as [|t turns IH]; intros n Hn; [by apply wp_ret|]. cbn [mmapM]. apply wp_bind. eapply wp_mono; [by apply wp_to_message| |done].
  intros m n1 (Hn1 & Ht & Hb). apply wp_bind. eapply wp_mono; [by apply IH| |done]. intros ms n2 (Hn2 & Hts & Hbs). apply wp_ret. split; [done|].
  split; [by constructor|]. cbn. rewrite media_bytes_app. lia.
Qed.

Context (options : ServeOptions).
Hypothesis Hbytes : 0 <= max_request_bytes options.

Lemma budget_in_range : budget_range (media_budget options).
Proof. unfold budget_range, media_budget, kMaximumPromptMediaBytes. lia. Qed.

Lemma wp_prompt_input request semantics : wp (to_prompt_input acquire request semantics)
  (fun input n => budget_range n /\ Forall2 turn_shown (gr_messages request) (pi_messages input) /\
     media_bytes (concat (message_media <$> pi_messages input)) + n = media_budget options) (fun e _ => e = ApiError) (media_budget options).
Proof.
  unfold to_prompt_input. apply wp_bind. eapply wp_mono; [apply wp_to_messages, budget_in_range| |done]. intros ms n H1. by apply wp_ret.
Qed.

(** C26: A conversation that is translated shows what the client sent: turn by turn the role, the reasoning, the calls and
    the call that is answered are the same, the texts of a turn that follow each other are put on lines of their own
    unless they are empty, and the media are in their places, in order and of the kind that was asked for.  All media
    together stay within the budget of a request.  Otherwise the client is told of an error of its own. *)
Theorem conversation_exact request semantics :
  match to_prompt_input acquire request semantics (media_budget options) with
  | (Ok input, _) => Forall2 turn_shown (gr_messages request) (pi_messages input) /\
      media_bytes (concat (message_media <$> pi_messages input)) <= media_budget options
  | (Err e, _) => e = ApiError
  end.
Proof.
  pose proof (wp_prompt_input request semantics) as H1. unfold wp in H1. destruct (to_prompt_input _ _ _ _) as [[input|e] n]; [|done].
  destruct H1 as ([Hn _] & Hs & Hb). split; [done|lia].
Qed.

(** *** Preparation *)

Lemma request_options_error request random e : to_request_options request options random = Err e -> e = ApiError.
Proof.
  unfold to_request_options, resolve_sampling_overrides. intros H1.
  repeat match type of H1 with context [throw_if ?b ApiError] => destruct b; [by injection H1|cbn [throw_if rbind] in H1] end. done.
Qed.
Lemma prompt_semantics_error request e : resolve_prompt_semantics request options prompt_capabilities = Err e -> e = ApiError.
Proof.
  unfold resolve_prompt_semantics. intros H1. destruct (gr_reasoning_effort request) as [requested|]; [|done].
  destruct (match gr_enable_thinking request with Some _ => _ | None => _ end); [by injection H1|]. cbn [throw_if rbind] in H1. case_bool_decide as Hr.
  - destruct (negb _); [by injection H1|done].
  - destruct requested; try done; cbn [rbind] in H1; try (by injection H1); destruct (negb _); (by injection H1) || done.
Qed.

(** The engine refuses with request errors and invalid arguments; a client that is gone or late is told so. *)
Hypothesis Hengine : forall e, (exists input, engine_prepare input = Err e) \/ (exists prompt o, engine_submit prompt o = Err e) \/ (exists k, still_wanted k = Err e) ->
  client_error e = ApiError.

Lemma prepare_prompt_error request semantics o e : prepare_prompt options request semantics o = Err e -> client_error e = ApiError.
Proof.
  unfold prepare_prompt. pose proof (wp_prompt_input request semantics) as Hw. unfold wp in Hw. intros H1. destruct (to_prompt_input _ _ _ _) as [[input|e'] n]; cbn [fst rbind] in H1.
  - destruct (still_wanted 0) as [[]|] eqn:E0; cbn [rbind] in H1; [|injection H1 as <-; eauto]. destruct (engine_prepare input) as [prompt|] eqn:Ep; cbn [rbind] in H1; [|injection H1 as <-; eauto].
    destruct (still_wanted 1) as [[]|] eqn:E1; cbn [rbind] in H1; [|injection H1 as <-; eauto]. apply Hengine. eauto.
  - injection H1 as <-. by rewrite Hw.
Qed.

(** A request that is prepared counts as one of the server's requests, of which there are never more than the lanes and
    the queue of the engine hold; one that is not leaves the count as it was, whatever step failed, and the client is
    told of an error of the protocol. *)
Theorem prepare_counted request random c : active c <= maximum c ->
  match prepare options request random c with
  | (Ok _, c') => active c' = active c + 1 /\ maximum c' = maximum c /\ active c' <= maximum c'
  | (Err e, c') => e = ApiError /\ c' = c
  end.
Proof.
  intros Hc. unfold prepare, mbind_, mlift. destruct (to_request_options _ _ _) as [o|e] eqn:Eo; [|by apply request_options_error in Eo].
  destruct (resolve_prompt_semantics _ _ _) as [semantics|e] eqn:Es; [|by apply prompt_semantics_error in Es].
  unfold mthrow_if, mlift. destruct (_ && _); cbn [throw_if]; [done|]. unfold acquire_request_lifetime, mbind_, mget, mthrow_if, mlift.
  destruct (Z.geb_spec (active c) (maximum c)); cbn [throw_if mput]; [done|].
  destruct (prepare_prompt _ _ _ _) as [g|e] eqn:Ep; [cbn; lia|]. apply prepare_prompt_error in Ep.
  destruct e; try done; cbn in *; try done; (split; [done|]); destruct c; cbn; f_equal; lia.
Qed.
End Acquire.

(** ** Streaming *)

(** The texts of a channel. *)
Definition channel_texts (c : OutputChannel) (deltas : list OutputDelta) : list (list Z) := od_text <$> filter (fun d => od_channel d = c) deltas.
Definition nonempty (texts : list (list Z)) : list (list Z) := filter (fun t => t <> []) texts.
Lemma nonempty_app a b : nonempty (a ++ b) = nonempty a ++ nonempty b.
Proof. apply filter_app. Qed.
Lemma concat_nonempty texts : concat (nonempty texts) = concat texts.
Proof. unfold nonempty. induction texts as [|t texts IH]; [done|]. rewrite filter_cons. case_decide as Ht; cbn; [by rewrite IH|]. subst t. exact IH. Qed.

(** The deltas that are shown, and the sink after it has shown these. *)
Definition shown_deltas (deltas : list OutputDelta) : list OutputDelta := filter (fun d => od_text d <> []) deltas.
Definition showing (s : ServiceOutputSink) (f : ToolCallStreamFilter) (deltas : list OutputDelta) : ServiceOutputSink :=
  mkSink f (foldl (fun n t => u64 (n + Z.of_nat (length t))) (content_bytes_ s) (channel_texts Content (shown_deltas deltas)))
    (sink_calls s ++ shown_deltas deltas).
Lemma channel_texts_app c a b : channel_texts c (a ++ b) = channel_texts c a ++ channel_texts c b.
Proof. unfold channel_texts. by rewrite filter_app, fmap_app. Qed.
Lemma channel_texts_cons c c' t deltas : channel_texts c (mkDelta c' t :: deltas) = (if decide (c' = c) then [t] else []) ++ channel_texts c deltas.
Proof. unfold channel_texts. rewrite filter_cons. cbn [od_channel]. by case_decide. Qed.
Lemma shown_deltas_cons c t deltas : shown_deltas (mkDelta c t :: deltas) = (if decide (t = []) then [] else [mkDelta c t]) ++ shown_deltas deltas.
Proof. unfold shown_deltas. rewrite filter_cons. cbn [od_text]. repeat case_decide; done. Qed.
Lemma shown_deltas_app a b : shown_deltas (a ++ b) = shown_deltas a ++ shown_deltas b.
Proof. apply filter_app. Qed.
Lemma channel_texts_shown c deltas : channel_texts c (shown_deltas deltas) = nonempty (channel_texts c deltas).
Proof.
  induction deltas as [|[c' t] deltas IH]; [done|]. rewrite shown_deltas_cons, channel_texts_cons. unfold nonempty in *. rewrite filter_app, <- IH.
  destruct (decide (t = [])) as [->|Ht]; destruct (decide (c' = c)) as [->|Hc]; cbn [app]; rewrite ?filter_cons, ?filter_nil; repeat case_decide; try done;
    rewrite channel_texts_cons; by case_decide.
Qed.
Lemma showing_app s f f' a b : showing (showing s f a) f' b = showing s f' (a ++ b).
Proof. unfold showing. cbn. by rewrite shown_deltas_app, channel_texts_app, foldl_app, app_assoc. Qed.
Lemma showing_none s : showing s (tool_filter_ s) [] = s.
Proof. destruct s. unfold showing. cbn. by rewrite !app_nil_r. Qed.

Lemma publish_content_shows text s : publish_content true text s = (Ok tt, showing s (tool_filter_ s) [mkDelta Content text]).
Proof.
  unfold publish_content, showing. rewrite orb_false_r, shown_deltas_cons. case_bool_decide as Ht; (case_decide as Hd; [|]); try done; cbn; rewrite ?app_nil_r; by destruct s.
Qed.
Lemma publish_empty fl hr hc c s : publish fl hr hc (mkDelta c []) s = (Ok tt, s).
Proof. done. Qed.
Lemma publish_reasoning fl t s : t <> [] -> publish fl true true (mkDelta Reasoning t) s = (Ok tt, showing s (tool_filter_ s) [mkDelta Reasoning t]).
Proof.
  intros Ht. unfold publish. cbn [od_text od_channel]. rewrite bool_decide_false by done. unfold mwhen, mmodify, showing. rewrite shown_deltas_cons, decide_False by done.
  done.
Qed.
Lemma publish_plain t s : t <> [] -> publish false true true (mkDelta Content t) s = (Ok tt, showing s (tool_filter_ s) [mkDelta Content t]).
Proof. intros Ht. unfold publish. cbn [od_text od_channel]. rewrite bool_decide_false by done. apply publish_content_shows. Qed.
Lemma publish_filtered t s v f : t <> [] -> feed t (tool_filter_ s) = (Ok v, f) -> publish true true true (mkDelta Content t) s = (Ok tt, showing s f [mkDelta Content v]).
Proof.
  intros Ht Hf. unfold publish. cbn [od_text od_channel]. rewrite bool_decide_false by done. unfold mbind_, with_filter. rewrite Hf. apply publish_content_shows.
Qed.

(** The deltas with the texts of the content channel that are not empty replaced by what is shown for them. *)
Fixpoint replaced (deltas : list OutputDelta) (shown : list (list Z)) : list OutputDelta :=
  match deltas with
  | [] => []
  | d :: deltas' =>
      if decide (od_text d = []) then replaced deltas' shown
      else match od_channel d with
      | Reasoning => d :: replaced deltas' shown
      | Content => match shown with v :: shown' => mkDelta Content v :: replaced deltas' shown' | [] => [] end
      end
  end.

(** The filter is fed the texts of the content channel that are not empty; without it they are shown as they are. *)
Lemma publish_shows deltas : forall s shown f, mmapM feed (nonempty (channel_texts Content deltas)) (tool_filter_ s) = (Ok shown, f) ->
  miter (publish true true true) deltas s = (Ok tt, showing s f (replaced deltas shown)) /\ channel_texts Content (replaced deltas shown) = shown /\
  channel_texts Reasoning (replaced deltas shown) = nonempty (channel_texts Reasoning deltas).
Proof.
  induction deltas as [|[c t] deltas IH]; intros s shown f Hf; [injection Hf as <- <-; cbn; by rewrite showing_none|].
  cbn [miter replaced od_text od_channel]. unfold mbind_ at 1. rewrite !channel_texts_cons in *. unfold nonempty in *. rewrite !filter_app in *.
  destruct (decide (t = [])) as [->|Ht]; [rewrite publish_empty; destruct c; by apply IH|].
  destruct c; cbn [decide] in *; rewrite ?decide_True, ?decide_False in * by done; rewrite ?filter_cons, ?filter_nil, ?decide_True in * by done.
  - cbn [app mmapM] in Hf. unfold mbind_, mret_ in Hf. destruct (feed t (tool_filter_ s)) as [[v|e] f1] eqn:Ev; [|done].
    destruct (mmapM feed _ f1) as [[vs|e] f2] eqn:Evs; [|done]. injection Hf as <- <-. rewrite (publish_filtered _ _ _ _ Ht Ev).
    destruct (IH (showing s f1 [mkDelta Content v]) vs f2 Evs) as (-> & H1 & H2). rewrite showing_app, !channel_texts_cons, H1, H2. done.
  - rewrite publish_reasoning by done. destruct (IH (showing s (tool_filter_ s) [mkDelta Reasoning t]) shown f Hf) as (-> & H1 & H2).
    rewrite showing_app, !channel_texts_cons, H1, H2. done.
Qed.
Lemma publish_shows_all deltas : forall s, miter (publish false true true) deltas s = (Ok tt, showing s (tool_filter_ s) (shown_deltas deltas)).
Proof.
  induction deltas as [|[c t] deltas IH]; intros s; [cbn; by rewrite showing_none|].
  cbn [miter]. unfold mbind_ at 1. rewrite shown_deltas_cons. destruct (decide (t = [])) as [->|Ht]; [rewrite publish_empty, IH; by destruct c|].
  destruct c; [rewrite publish_plain by done|rewrite publish_reasoning by done]; by rewrite IH, showing_app.
Qed.

(** Reasoning comes before content. *)
Fixpoint reasoning_first (deltas : list OutputDelta) : Prop :=
  match deltas with
  | [] => True
  | d :: deltas' => (od_channel d = Content -> Forall (fun d => od_channel d = Content) deltas') /\ reasoning_first deltas'
  end.
Lemma all_content_first deltas : Forall (fun d => od_channel d = Content) deltas -> reasoning_first deltas.
Proof. induction 1; cbn; auto. Qed.
Lemma reasoning_first_shown deltas : reasoning_first deltas -> reasoning_first (shown_deltas deltas).
Proof.
  induction deltas as [|[c t] deltas IH]; [done|]. intros [H1 H2]. rewrite shown_deltas_cons. case_decide; cbn; [auto|]. split; [|auto].
  intros Hc. specialize (H1 Hc).
  rewrite Forall_forall in H1. apply Forall_forall. intros d [_ Hd]%list_elem_of_filter. auto.
Qed.
Lemma replaced_content deltas : forall shown, Forall (fun d => od_channel d = Content) deltas -> Forall (fun d => od_channel d = Content) (replaced deltas shown).
Proof.
  induction deltas as [|[c t] deltas IH]; intros shown H; [done|]. apply Forall_cons in H as [Hc H]. cbn in Hc |- *. subst c. case_decide; [auto|].
  destruct shown; [done|]. constructor; auto.
Qed.
Lemma reasoning_first_replaced deltas : forall shown, reasoning_first deltas -> reasoning_first (replaced deltas shown).
Proof.
  induction deltas as [|[c t] deltas IH]; intros shown H; [done|]. destruct H as [H1 H2]. cbn [replaced od_text od_channel]. case_decide; [auto|]. destruct c.
  - destruct shown as [|v shown]; [done|]. split; [|by apply IH]. intros _. by apply replaced_content, H1.
  - split; [done|by apply IH].
Qed.
Lemma reasoning_first_app deltas tail : reasoning_first deltas -> Forall (fun d => od_channel d = Content) tail -> reasoning_first (deltas ++ tail).
Proof.
  intros H Ht. induction deltas as [|d deltas IH]; [by apply all_content_first|]. destruct H as [H1 H2]. cbn. split; [|auto]. intros Hd. apply Forall_app. auto.
Qed.

Lemma shown_bytes (texts : list (list Z)) : forall n, 0 <= n -> n + Z.of_nat (length (concat texts)) <= u64_max -> foldl (fun n t => u64 (n + Z.of_nat (length t))) n texts = n + Z.of_nat (length (concat texts)).
Proof.
  induction texts as [|t texts IH]; intros n Hn Hmax; cbn in *; [lia|]. rewrite length_app in *. rewrite u64_small by (unfold_ints; lia). rewrite IH by lia. lia.
Qed.

(** What the sink has sent, when it has shown these deltas and its texts of the content channel make up [text]. *)
Lemma showing_sent f deltas text : concat (channel_texts Content deltas) = text -> Z.of_nat (length text) <= u64_max ->
  let s := showing sink_init f deltas in
  sink_calls s = shown_deltas deltas /\ content_bytes_ s = Z.of_nat (length text).
Proof.
  intros <- Hlen. cbn [showing sink_calls content_bytes_ sink_init app]. rewrite channel_texts_shown. split; [done|]. rewrite <- (concat_nonempty (channel_texts Content deltas)) in Hlen |- *.
  rewrite shown_bytes; lia.
Qed.

Section Stream.
Context `{JsonText}.

Lemma content_shorter text max_name_length random r : parse_qwen_tool_call_output text max_name_length random = Some r ->
  (length (ToolCalls.content r) <= length text)%nat.
Proof.
  intros Hp. apply content_before_marker in Hp. destruct (is_tool_call_response r); [|by rewrite Hp]. destruct Hp as (m & _ & ->).
  destruct (rtrim_prefix (take m text)) as [k ->]. rewrite !length_take. lia.
Qed.

(** The parser always has a result. *)
Lemma outcome_exists tool_capable max_name_length random r : exists o verdict,
  outcome_of tool_capable max_name_length random r = Ok (o, verdict) /\ out_reasoning o = gn_reasoning r /\ out_finish_reason o = gn_finish_reason r /\
  match tool_capable with
  | false => out_text o = gn_content r /\ out_tool_calls o = []
  | true => exists p, parse_qwen_tool_call_output (gn_content r) max_name_length random = Some p /\ out_text o = ToolCalls.content p /\
      out_tool_calls o = if is_tool_call_response p then tool_calls p else []
  end.
Proof.
  unfold outcome_of. destruct tool_capable; [|by do 2 eexists].
  destruct (filter_shows (nonempty [gn_content r]) max_name_length random) as (p & shown & f & tail & f' & Hp & _). rewrite concat_nonempty in Hp. cbn [concat] in Hp.
  rewrite app_nil_r in Hp. rewrite Hp. do 2 eexists. split; [reflexivity|]. split; [done|]. split; [done|]. by exists p.
Qed.

(** What a run with a sink calls. *)
Lemma run_shows tool_capable max_name_length random deltas r : gn_content r = concat (channel_texts Content deltas) -> Z.of_nat (length (gn_content r)) <= u64_max ->
  exists o s verdict, outcome_of tool_capable max_name_length random r = Ok (o, verdict) /\
    run tool_capable true true max_name_length random deltas r sink_init = (Ok (with_streamed (Z.of_nat (length (out_text o))) o), s) /\
    concat (channel_texts Content (sink_calls s)) = out_text o /\
    channel_texts Reasoning (sink_calls s) = nonempty (channel_texts Reasoning deltas) /\
    Forall (fun d => od_text d <> []) (sink_calls s) /\ (reasoning_first deltas -> reasoning_first (sink_calls s)).
Proof.
  intros Hr Hlen. destruct (outcome_exists tool_capable max_name_length random r) as (o & verdict & Ho & _ & _ & Hk). exists o.
  assert (Hshown : forall l, Forall (fun d => od_text d <> []) (shown_deltas l)) by (intros l; apply Forall_forall; intros d Hd; by apply list_elem_of_filter in Hd as [? _]).
  unfold run. destruct tool_capable.
  - destruct (filter_shows (nonempty (channel_texts Content deltas)) max_name_length random) as (p & shown & f & tail & f' & Hp & Hf & Ht & Hs & _).
    rewrite concat_nonempty, <- Hr in Hp. destruct Hk as (p' & Hp' & Htext & _). rewrite Hp in Hp'. injection Hp' as <-.
    assert (verdict = is_tool_call_response p) as -> by (unfold outcome_of in Ho; rewrite Hp in Ho; congruence).
    destruct (publish_shows deltas sink_init shown f Hf) as (Hpub & Hc & Hre). unfold mbind_ at 1. rewrite Hpub. unfold mbind_ at 1, mlift. rewrite Ho.
    set (s1 := showing _ _ _). set (l := replaced deltas shown ++ [mkDelta Content tail]).
    assert (Hfin : sink_finish true true (is_tool_call_response p) s1 = (Ok (content_bytes_ (showing sink_init f' l)), showing sink_init f' l)).
    { unfold sink_finish, mwhen, with_filter, mbind_, mget, mret_. change (tool_filter_ s1) with f. rewrite Ht, publish_content_shows. unfold l. by rewrite <- (showing_app sink_init f f'). }
    assert (Hl : concat (channel_texts Content l) = out_text o).
    { unfold l. rewrite channel_texts_app, concat_app, Hc, Htext, <- Hs. f_equal. rewrite channel_texts_cons, decide_True by done. apply app_nil_r. }
    destruct (showing_sent f' l (out_text o) Hl) as (S1 & S2). { apply content_shorter in Hp. rewrite Htext. lia. }
    exists (showing sink_init f' l), (is_tool_call_response p). split; [done|]. unfold mbind_, mret_. rewrite Hfin, S1, S2, channel_texts_shown, concat_nonempty. split_and!; [done..| |by apply Hshown|].
    + rewrite channel_texts_shown. unfold l. rewrite channel_texts_app, Hre, nonempty_app, app_nil_r. unfold nonempty. by rewrite list_filter_filter_l by done.
    + intros Hd. apply reasoning_first_shown. unfold l. apply reasoning_first_app; [by apply reasoning_first_replaced|]. by repeat constructor.
  - destruct Hk as [Htext _]. unfold mbind_ at 1. rewrite publish_shows_all. unfold mbind_ at 1, mlift. rewrite Ho.
    assert (Hl : concat (channel_texts Content (shown_deltas deltas)) = out_text o) by (by rewrite channel_texts_shown, concat_nonempty, Htext, Hr).
    destruct (showing_sent filter_init (shown_deltas deltas) (out_text o) Hl) as (S1 & S2). { by rewrite Htext. }
    exists (showing sink_init filter_init (shown_deltas deltas)), verdict. split; [done|]. change (tool_filter_ sink_init) with filter_init. unfold sink_finish, mwhen, mbind_, mret_, mget.
    rewrite S1, S2, !channel_texts_shown, !concat_nonempty, Htext. split_and!; [done|congruence| |by apply Hshown|].
    + unfold nonempty. by rewrite list_filter_filter_l by done.
    + intros Hd. by apply reasoning_first_shown, reasoning_first_shown.
Qed.

(** C28: However the engine cuts an answer into deltas, a client that streams is sent exactly the answer: its content, which
    is what comes before the tool calls when the answer ends in tool calls and they may be made, and all of it otherwise;
    its reasoning, every byte of it; never an empty piece, nor reasoning after content when the engine gives none; and the
    bytes that are reported are those that were sent. *)
Theorem stream_exact tool_capable max_name_length random deltas r :
  gn_content r = concat (channel_texts Content deltas) -> Z.of_nat (length (gn_content r)) <= u64_max ->
  exists outcome s, run tool_capable true true max_name_length random deltas r sink_init = (Ok outcome, s) /\
    concat (channel_texts Content (sink_calls s)) = out_text outcome /\
    concat (channel_texts Reasoning (sink_calls s)) = concat (channel_texts Reasoning deltas) /\
    Forall (fun d => od_text d <> []) (sink_calls s) /\ (reasoning_first deltas -> reasoning_first (sink_calls s)) /\
    streamed_content_bytes outcome = Z.of_nat (length (out_text outcome)) /\
    match tool_capable with
    | false => out_text outcome = gn_content r /\ out_tool_calls outcome = []
    | true => exists p, parse_qwen_tool_call_output (gn_content r) max_name_length random = Some p /\ out_text outcome = ToolCalls.content p /\
        out_tool_calls outcome = if is_tool_call_response p then tool_calls p else []
    end.
Proof.
  intros Hr Hlen. destruct (run_shows tool_capable max_name_length random deltas r Hr Hlen) as (o & s & verdict & Ho & Hrun & H1 & H2 & H3 & H4).
  destruct (outcome_exists tool_capable max_name_length random r) as (o' & verdict' & Ho' & _ & _ & Hk). rewrite Ho in Ho'. injection Ho' as <- <-.
  exists (with_streamed (Z.of_nat (length (out_text o))) o), s. rewrite H2, concat_nonempty. by split_and!.
Qed.
End Stream.

(** ** A small server *)
Module ServingSample.

Definition no_overrides : SamplingOverrides := mkOverrides None None None None None None None.
Definition options : ServeOptions := mkServeOptions true false true no_overrides true true 4096.
Definition picture : ContentPart := media_part CkImage (bytes_of "image_url") SourceUrl (bytes_of "https://x") [].
Definition turn : ChatTurn := mkTurn User [text_part (bytes_of "a"); text_part (bytes_of "b"); picture] [] [] [].
Definition request : GenerationRequest := mkGenerationRequest (bytes_of "m") [turn] [] 64 (mkToolChoice ChoiceAuto []) [bytes_of "END"; []] 5 true true false
  None None None (mkSamplingParams (Some f64_half) None (Some 3) None None None ∅ 1).

#[local] Instance environment : ServiceEnvironment := {|
  acquire_bytes := fun _ limit => if limit <? 3 then None else Some [1; 2; 3];
  still_wanted := fun _ => Ok tt;
  engine_prompt := PromptInput;
  engine_generation := PromptInput;
  engine_prepare := fun input => if bool_decide (pi_messages input = []) then Err InvalidArgument else Ok input;
  engine_submit := fun input _ => Ok input;
  prompt_capabilities := capabilities ThinkingToggle;
|}.
Lemma environment_limit part limit bytes : acquire_bytes part limit = Some bytes -> Z.of_nat (length bytes) <= limit.
Proof. cbn. destruct (Z.ltb_spec limit 3); [done|]. intros [= <-]. cbn. lia. Qed.
Lemma environment_errors e : (exists input, engine_prepare input = Err e) \/ (exists prompt o, engine_submit prompt o = Err e) \/ (exists k, still_wanted k = Err e) ->
  client_error e = ApiError.
Proof. intros [[input H]|[(? & ? & H)|[? H]]]; try done. cbn in H. case_bool_decide; [|done]. by injection H as <-. Qed.

Lemma request_options_accepted_witness : exists o s, to_request_options request options 7 = Ok o /\ resolve_sampling kQwen3_6Defaults NonThinking (op_sampling o) = Ok s /\
  rs_temperature s = 0.
Proof.
  pose proof (request_options_accepted request options 7) as H. assert (Ho : is_ok (to_request_options request options 7) = true) by (vm_compute; reflexivity).
  destruct (to_request_options request options 7) as [o|]; [|done]. destruct H as [H _]. destruct (H kQwen3_6Defaults NonThinking) as (s & Hs & _ & Hg); [by exists (bytes_of "qwen3.6-27b"); left|].
  exists o, s. split; [done|]. split; [exact Hs|exact (Hg eq_refl)].
Defined.

Definition semantics : ResolvedPromptSemantics := mkSemantics true None false.
Lemma conversation_exact_witness : exists input n, to_prompt_input (Some acquire_media) request semantics (media_budget options) = (Ok input, n) /\
  Forall2 turn_shown [turn] (pi_messages input) /\ length (concat (msg_parts <$> pi_messages input)) = 4%nat.
Proof.
  pose proof (conversation_exact environment_limit options ltac:(by_compute) request semantics) as H.
  assert (Hn : match (to_prompt_input (Some acquire_media) request semantics (media_budget options)).1 with Ok input => length (concat (msg_parts <$> pi_messages input)) | Err _ => 0%nat end = 4%nat)
    by (vm_compute; reflexivity).
  destruct (to_prompt_input _ _ _ _) as [[input|] n]; [|done]. exists input, n. split; [done|]. split; [apply H|exact Hn].
Defined.

Lemma prepare_counted_witness : exists g c', prepare options request 7 (mkRequestCapacity 2 3) = (Ok g, c') /\ active c' = 3 /\ active c' <= maximum c'.
Proof.
  pose proof (prepare_counted environment_limit options ltac:(by_compute) environment_errors request 7 (mkRequestCapacity 2 3) ltac:(by_compute)) as H.
  assert (Ho : is_ok (prepare options request 7 (mkRequestCapacity 2 3)).1 = true) by (vm_compute; reflexivity).
  destruct (prepare _ _ _ _) as [[g|] c']; [|done]. exists g, c'. split; [done|]. destruct H as (H1 & _ & H2). split; [exact H1|exact H2].
Defined.

#[local] Instance json_text : JsonText := {| json_value := list Z; json_parse := fun _ => None; json_string := fun s => s;
  json_dump_object := fun items => concat (fst <$> items) |}.
Definition deltas : list OutputDelta := [mkDelta Reasoning [104]; mkDelta Content [65]; mkDelta Content []; mkDelta Content (bytes_of " <tool_")].
Definition answer : GenerationResult := mkGenerationResult 3 [1; 2] (65 :: bytes_of " <tool_") [104] 1 StopToken 0.
Lemma stream_exact_witness : exists outcome s, run true true true 64 (fun _ => 0) deltas answer sink_init = (Ok outcome, s) /\
  concat (channel_texts Content (sink_calls s)) = out_text outcome /\ reasoning_first (sink_calls s).
Proof.
  destruct (stream_exact true 64 (fun _ => 0) deltas answer ltac:(by_compute) ltac:(by_compute)) as (outcome & s & H1 & H2 & _ & _ & H3 & _). exists outcome, s. split; [exact H1|].
  split; [exact H2|apply H3]. by repeat (split; [first [done|intros; repeat constructor]|]).
Defined.
End ServingSample.
