(* ===== verification/Responses.v ===== *)
(** * The Responses API: [src/serve/responses_schema.cpp]

    Requests of the Responses protocol, the objects of their responses, and the events of a streamed response.  Errors
    of the client are [ApiError]s; their texts are not modelled.  nlohmann's [parse] and [dump] and the numbers that ids
    are made of are arguments.  JSON objects are ordered by key, as nlohmann orders them. *)
From Stdlib Require Import Strings.String.
From stdpp Require Import gmap.
From S2P Require Import ProgramState RequestPlan Prelude Unicode Admission Capacity Contract Output Tokenizer ToolCalls ChatTemplate PrefixIdentity MediaCache Processor Preparation ResponseStore Requests Serving.
#[local] Open Scope Z_scope.
#[local] Open Scope ninfer_scope.

(** ** JSON objects *)

(** [Json{{key, value}, ...}], and [object[key] = value]. *)
Definition json_object (fields : list (list Z * Json)) : Json :=
  JObject (foldl (fun items kv => object_set kv.1 kv.2 items) [] fields).
Definition set_field (key : list Z) (value : Json) (object : Json) : Json :=
  match object with JObject items => JObject (object_set key value items) | _ => object end.
Definition jstr (s : string) : Json := JString (bytes_of s).
Definition json_or_null (o : option (list Z)) : Json := match o with Some s => JString s | None => JNull end.

(** ** Numbers *)

Definition f64_is_finite (x : Z) : bool := f64_magnitude x <? 0x7ff0000000000000.
Definition f64_key (x : Z) : Z := if x <? 2 ^ 63 then x else 2 ^ 63 - x.
(** [x < low || x > high] *)
Definition f64_outside (low high x : Z) : bool := (f64_key x <? f64_key low) || (f64_key high <? f64_key x).
Definition f64_one : Z := 0x3ff0000000000000.

(** The [double] of a [float], on bit patterns. *)
Definition f64_of_f32 (x : Z) : Z :=
  let sign := Z.shiftl (Z.shiftr x 31) 63 in
  let exponent := Z.land (Z.shiftr x 23) 255 in
  let fraction := Z.land x (Z.ones 23) in
  if exponent =? 255 then sign + Z.shiftl 2047 52 + Z.shiftl fraction 29
  else if exponent =? 0 then
    if fraction =? 0 then sign
    else let k := Z.log2 fraction in sign + Z.shiftl (k + 874) 52 + (Z.shiftl fraction (52 - k) - 2 ^ 52)
  else sign + Z.shiftl (exponent + 896) 52 + Z.shiftl fraction 29.

(** ** Ids *)

Section Responses.
Context (json_parse : list Z -> option Json) (json_dump : Json -> list Z) (random : nat -> Z).

(** The state counts the random numbers that were drawn. *)
Definition random_id (prefix : list Z) : M nat (list Z) :=
  let! n := mget in
  do! mput (n + 2)%nat;
  mret_ (prefix ++ bytes_of "_" ++ hex16 (random n) ++ hex16 (random (n + 1)%nat)).
Definition new_response_id : M nat (list Z) := random_id (bytes_of "resp").
Definition new_response_item_id (prefix : list Z) : M nat (list Z) := random_id prefix.

(** ** Requests *)

(** [generation.preserve_thinking_semantic_change] is written to a log only and is not modelled. *)
Record ResponsesRequest : Type := mkResponsesRequest {
  generation : GenerationRequest; input_turns : list ChatTurn; rr_input_items : list Json;
  instructions : option (list Z); previous_response_id : option (list Z);
  metadata : Json; tools : list Json; tool_choice : Json; store : bool; stream : bool;
}.

Definition optional_number (object : Json) (key : list Z) : result (option Z) :=
  let* value := get_number object key in
  do* throw_if (match value with Some d => negb (f64_is_finite d) | None => false end) ApiError; Ok value.
Definition optional_int (object : Json) (key : list Z) : result (option Z) := get_int object key.

Definition item_id (item : Json) (prefix : list Z) : M nat (list Z) :=
  match present item (bytes_of "id") with
  | None => new_response_item_id prefix
  | Some (JString id) => do! mthrow_if (bool_decide (id = [])) ApiError; mret_ id
  | Some _ => mthrow ApiError
  end.

(** [part.contains(key) && is_string && !empty]: the end of [parse_image_source] and [parse_video_source]. *)
Definition input_url (kind : ContentKind) (type_ url : list Z) : result ContentPart :=
  if starts_with url (bytes_of "data:") then Ok (media_part kind type_ SourceData url [])
  else if starts_with url (bytes_of "http://") || starts_with url (bytes_of "https://") then Ok (media_part kind type_ SourceUrl url [])
  else Err ApiError.
Definition parse_input_image (part : Json) : result ContentPart :=
  do* throw_if (is_some (present part (bytes_of "file_id"))) ApiError;
  let* url := get_nonempty part (bytes_of "image_url") in
  do* match present part (bytes_of "detail") with
      | None => Ok tt
      | Some (JString detail) => throw_if (negb (bool_decide (detail = bytes_of "auto"))) ApiError
      | Some _ => Err ApiError
      end;
  input_url CkImage (bytes_of "input_image") url.
Definition parse_input_video (part : Json) : result ContentPart :=
  let* url := get_nonempty part (bytes_of "video_url") in input_url CkVideo (bytes_of "input_video") url.

(** [status], when it is there, must be ["completed"]. *)
Definition check_completed (item : Json) : result unit :=
  match present item (bytes_of "status") with
  | None => Ok tt
  | Some (JString status) => throw_if (negb (bool_decide (status = bytes_of "completed"))) ApiError
  | Some _ => Err ApiError
  end.

(** [append_text] *)
Definition wire_text (wire_type text : list Z) : ContentPart * Json :=
  (mkContentPart CkText text wire_type SourcePath [] [] [],
   let canonical := json_object [(bytes_of "type", JString wire_type); (bytes_of "text", JString text)] in
   if bool_decide (wire_type = bytes_of "output_text") then set_field (bytes_of "annotations") (JArray []) canonical else canonical).

(** One turn of the loop over the content of a message: the part and its canonical form. *)
Definition message_part (role : ChatRole) (value : Json) : result (ContentPart * Json) :=
  let* type_ := get_string value (bytes_of "type") in
  if bool_decide (type_ = bytes_of "input_text") || bool_decide (type_ = bytes_of "output_text") then
    let* text := get_string value (bytes_of "text") in
    do* throw_if (bool_decide (type_ = bytes_of "output_text") && negb (bool_decide (role = Assistant))) ApiError;
    Ok (wire_text type_ text)
  else if bool_decide (type_ = bytes_of "input_image") then
    do* throw_if (negb (bool_decide (role = User))) ApiError;
    let* part := parse_input_image value in
    Ok (part, json_object [(bytes_of "type", jstr "input_image"); (bytes_of "image_url", JString (source_value part)); (bytes_of "detail", jstr "auto")])
  else if bool_decide (type_ = bytes_of "input_video") then
    do* throw_if (negb (bool_decide (role = User))) ApiError;
    let* part := parse_input_video value in
    Ok (part, json_object [(bytes_of "type", jstr "input_video"); (bytes_of "video_url", JString (source_value part))])
  else Err ApiError.

Definition parse_item_role (role : list Z) : result ChatRole :=
  if bool_decide (role = bytes_of "user") then Ok User
  else if bool_decide (role = bytes_of "assistant") then Ok Assistant
  else if bool_decide (role = bytes_of "system") then Ok System
  else if bool_decide (role = bytes_of "developer") then Ok Developer
  else Err ApiError.

Definition parse_message_content (role : ChatRole) (item : Json) : result (list (ContentPart * Json)) :=
  match present item (bytes_of "content") with
  | Some (JString text) => Ok [wire_text (if bool_decide (role = Assistant) then bytes_of "output_text" else bytes_of "input_text") text]
  | Some (JArray values) =>
      let* parts := rmapM (message_part role) values in
      do* throw_if (bool_decide (parts = [])) ApiError; Ok parts
  | _ => Err ApiError
  end.
Definition parse_message_item (item : Json) : M nat (ChatTurn * Json) :=
  let! role := mlift (get_string item (bytes_of "role")) in
  let! parsed_role := mlift (parse_item_role role) in
  do! mthrow_if (is_some (present item (bytes_of "phase"))) ApiError;
  do! mlift (check_completed item);
  let! parts := mlift (parse_message_content parsed_role item) in
  let! id := item_id item (bytes_of "msg") in
  mret_ (mkTurn parsed_role parts.*1 [] [] [],
         json_object [(bytes_of "id", JString id); (bytes_of "type", jstr "message"); (bytes_of "role", JString role);
                      (bytes_of "content", JArray parts.*2)]).

Definition reasoning_part (part : Json) : result (list Z) :=
  let* type_ := get_string part (bytes_of "type") in
  do* throw_if (negb (bool_decide (type_ = bytes_of "reasoning_text"))) ApiError;
  get_string part (bytes_of "text").
Definition reasoning_text_part (text : list Z) : Json :=
  json_object [(bytes_of "type", jstr "reasoning_text"); (bytes_of "text", JString text)].
Definition parse_reasoning_item (item : Json) : M nat (list Z * Json) :=
  do! mthrow_if (is_some (present item (bytes_of "encrypted_content"))) ApiError;
  do! mlift (match present item (bytes_of "summary") with
             | None => Ok tt
             | Some (JArray summary) => throw_if (negb (bool_decide (summary = []))) ApiError
             | Some _ => Err ApiError
             end);
  let! content := mlift (match json_field item (bytes_of "content") with Some (JArray content) => Ok content | _ => Err ApiError end) in
  let! texts := mlift (rmapM reasoning_part content) in
  let! id := item_id item (bytes_of "rs") in
  mret_ (concat texts,
         json_object [(bytes_of "id", JString id); (bytes_of "type", jstr "reasoning"); (bytes_of "summary", JArray []);
                      (bytes_of "content", JArray (reasoning_text_part <$> texts))]).

Definition function_call_json (id status : list Z) (call : ToolCall) (arguments : list Z) : Json :=
  json_object [(bytes_of "id", JString id); (bytes_of "type", jstr "function_call"); (bytes_of "status", JString status);
               (bytes_of "call_id", JString (tc_id call)); (bytes_of "name", JString (tc_name call));
               (bytes_of "arguments", JString arguments)].
Definition parse_function_call_item (item : Json) : M nat (ToolCall * Json) :=
  let! call_id := mlift (get_nonempty item (bytes_of "call_id")) in
  let! name := mlift (require_function_name 64 item) in
  let! arguments := mlift (get_string item (bytes_of "arguments")) in
  do! mthrow_if (match json_parse arguments with Some (JObject _) => false | _ => true end) ApiError;
  do! mlift (check_completed item);
  let! id := item_id item (bytes_of "fc") in
  let call := mkToolCall call_id name arguments in
  mret_ (call, function_call_json id (bytes_of "completed") call arguments).

Definition parse_function_call_output_item (item : Json) : M nat (ChatTurn * Json) :=
  let! call_id := mlift (get_nonempty item (bytes_of "call_id")) in
  let! output := mlift (get_string item (bytes_of "output")) in
  do! mlift (check_completed item);
  let! id := item_id item (bytes_of "fco") in
  mret_ (mkTurn Tool [mkContentPart CkText output (bytes_of "input_text") SourcePath [] [] []] [] call_id [],
         json_object [(bytes_of "id", JString id); (bytes_of "type", jstr "function_call_output"); (bytes_of "status", jstr "completed");
                      (bytes_of "call_id", JString call_id); (bytes_of "output", JString output)]).

(** The loop of [parse_input]: the turns and items so far, the reasoning that waits for the assistant's next item,
    and the ids. *)
Record InputState : Type := mkInputState {
  is_turns : list ChatTurn; is_items : list Json; pending_reasoning : option (list Z); can_group_function_calls : bool; is_ids : list (list Z);
}.
Definition input_init : InputState := mkInputState [] [] None false [].

Definition item_type (item : Json) : result (list Z) :=
  match present item (bytes_of "type") with
  | Some (JString type_) => Ok type_
  | Some _ => Err ApiError
  | None => if is_some (json_field item (bytes_of "role")) then Ok (bytes_of "message") else Err ApiError
  end.

(** A turn without content that calls, at the end. *)
Definition calling_turn (turns : list ChatTurn) : option (list ChatTurn * ChatTurn) :=
  match last turns with
  | Some turn =>
      if bool_decide (turn_role turn = Assistant) && bool_decide (turn_content turn = []) && negb (bool_decide (turn_tool_calls turn = [])) then
        Some (take (length turns - 1) turns, turn)
      else None
  | None => None
  end.
Definition with_reasoning (turn : ChatTurn) (reasoning : option (list Z)) : ChatTurn :=
  mkTurn (turn_role turn) (turn_content turn) (turn_tool_calls turn) (turn_tool_call_id turn) (default [] reasoning).
Definition add_call (turn : ChatTurn) (call : ToolCall) : ChatTurn :=
  mkTurn (turn_role turn) (turn_content turn) (turn_tool_calls turn ++ [call]) (turn_tool_call_id turn) (turn_reasoning turn).

(** The turns, the waiting reasoning and whether calls may be grouped after an item; and the item's canonical form. *)
Definition input_item (st : InputState) (item : Json) : M nat (list ChatTurn * option (list Z) * bool * Json) :=
  do! mthrow_if (negb (is_object item)) ApiError;
  let! type_ := mlift (item_type item) in
  if bool_decide (type_ = bytes_of "message") then
    let! (turn, canonical) := parse_message_item item in
    do! mthrow_if (is_some (pending_reasoning st) && negb (bool_decide (turn_role turn = Assistant))) ApiError;
    mret_ (is_turns st ++ [with_reasoning turn (pending_reasoning st)], None, false, canonical)
  else if bool_decide (type_ = bytes_of "reasoning") then
    do! mthrow_if (is_some (pending_reasoning st)) ApiError;
    let! (text, canonical) := parse_reasoning_item item in
    mret_ (is_turns st, Some text, false, canonical)
  else if bool_decide (type_ = bytes_of "function_call") then
    let! (call, canonical) := parse_function_call_item item in
    let turns :=
      match (if can_group_function_calls st && negb (is_some (pending_reasoning st)) then calling_turn (is_turns st) else None) with
      | Some (before, turn) => before ++ [add_call turn call]
      | None => is_turns st ++ [mkTurn Assistant [] [call] [] (default [] (pending_reasoning st))]
      end in
    mret_ (turns, None, true, canonical)
  else if bool_decide (type_ = bytes_of "function_call_output") then
    do! mthrow_if (is_some (pending_reasoning st)) ApiError;
    let! (turn, canonical) := parse_function_call_output_item item in
    mret_ (is_turns st ++ [turn], None, false, canonical)
  else mthrow ApiError.

Definition canonical_id (canonical : Json) : M nat (list Z) :=
  match json_field canonical (bytes_of "id") with Some (JString id) => mret_ id | _ => mthrow JsonException end.

Fixpoint input_loop (st : InputState) (values : list Json) : M nat InputState :=
  match values with
  | [] => mret_ st
  | item :: values' =>
      let! (turns, pending, group, canonical) := input_item st item in
      let! id := canonical_id canonical in
      do! mthrow_if (bool_decide (id ∈ is_ids st)) ApiError;
      input_loop (mkInputState turns (is_items st ++ [canonical]) pending group (id :: is_ids st)) values'
  end.
Definition input_values (input : Json) : result (list Json) :=
  match input with
  | JString _ => Ok [json_object [(bytes_of "type", jstr "message"); (bytes_of "role", jstr "user"); (bytes_of "content", input)]]
  | JArray values => Ok values
  | _ => Err ApiError
  end.
Definition parse_input (input : Json) : M nat (list ChatTurn * list Json) :=
  let! values := mlift (input_values input) in
  do! mthrow_if (bool_decide (values = [])) ApiError;
  let! st := input_loop input_init values in
  do! mthrow_if (is_some (pending_reasoning st)) ApiError;
  mret_ (is_turns st, is_items st).

(** One turn of the loop of [parse_tools]: the tool and its canonical form. *)
Definition parse_response_tool (item : Json) : result (ToolDefinition * Json) :=
  let* type_ := get_string item (bytes_of "type") in
  do* throw_if (negb (bool_decide (type_ = bytes_of "function"))) ApiError;
  let* name := require_function_name 64 item in
  let* description :=
    match present item (bytes_of "description") with
    | None => Ok []
    | Some (JString s) => Ok s
    | Some _ => Err ApiError
    end in
  let* parameters :=
    match present item (bytes_of "parameters") with
    | None => Ok empty_parameters
    | Some (JObject items) => Ok (JObject items)
    | Some _ => Err ApiError
    end in
  do* match present item (bytes_of "strict") with
      | None => Ok tt
      | Some (JBool strict) => throw_if strict ApiError
      | Some _ => Err ApiError
      end;
  let function := json_object [(bytes_of "name", JString name); (bytes_of "parameters", parameters); (bytes_of "strict", JBool false)] in
  let described object := if bool_decide (description = []) then object else set_field (bytes_of "description") (JString description) object in
  Ok (mkToolDefinition name description (json_dump parameters)
        (json_dump (json_object [(bytes_of "type", jstr "function"); (bytes_of "function", described function)])) false,
      described (json_object [(bytes_of "type", jstr "function"); (bytes_of "name", JString name); (bytes_of "parameters", parameters);
                              (bytes_of "strict", JBool false)])).
Fixpoint response_tools (names : list (list Z)) (items : list Json) : result (list (ToolDefinition * Json)) :=
  match items with
  | [] => Ok []
  | item :: items' =>
      let* tool := parse_response_tool item in
      do* throw_if (bool_decide (td_name tool.1 ∈ names)) ApiError;
      let* rest := response_tools (td_name tool.1 :: names) items' in Ok (tool :: rest)
  end.
Definition parse_response_tools (body : Json) : result (list (ToolDefinition * Json)) :=
  match present body (bytes_of "tools") with
  | None => Ok []
  | Some tools => let* items := require_array tools in response_tools [] items
  end.

Definition parse_response_tool_choice (body : Json) : result (ToolChoice * Json) :=
  match present body (bytes_of "tool_choice") with
  | None => Ok (mkToolChoice ChoiceAuto [], jstr "auto")
  | Some (JString value) =>
      if bool_decide (value = bytes_of "auto") then Ok (mkToolChoice ChoiceAuto [], JString value)
      else if bool_decide (value = bytes_of "none") then Ok (mkToolChoice ChoiceNone [], JString value)
      else Err ApiError
  | Some _ => Err ApiError
  end.

Definition parse_reasoning (body : Json) : result (option RequestedReasoningEffort) :=
  match present body (bytes_of "reasoning") with
  | None => Ok None
  | Some (JObject items) =>
      do* throw_if (existsb (fun kv => negb (bool_decide (kv.1 = bytes_of "effort")) && match kv.2 with JNull => false | _ => true end) items) ApiError;
      match present (JObject items) (bytes_of "effort") with
      | None => Ok None
      | Some (JString value) => match parse_requested_reasoning_effort value with Some e => Ok (Some e) | None => Err ApiError end
      | Some _ => Err ApiError
      end
  | Some _ => Err ApiError
  end.

Definition validate_metadata (body : Json) : result Json :=
  match present body (bytes_of "metadata") with
  | None => Ok (JObject [])
  | Some (JObject items) =>
      do* throw_if (16 <? length items)%nat ApiError;
      do* throw_if (existsb (fun kv => (64 <? length kv.1)%nat || match kv.2 with JString s => (512 <? length s)%nat | _ => true end) items) ApiError;
      Ok (JObject items)
  | Some _ => Err ApiError
  end.

Definition allowed_parameters : list (list Z) := bytes_of <$> [
  "background"; "chat_template_kwargs"; "context_management"; "conversation"; "include"; "input"; "instructions"; "max_output_tokens";
  "max_tool_calls"; "metadata"; "model"; "moderation"; "parallel_tool_calls"; "previous_response_id"; "preserve_thinking"; "prompt";
  "prompt_cache_key"; "prompt_cache_options"; "prompt_cache_retention"; "reasoning"; "safety_identifier"; "service_tier"; "store"; "stream";
  "stream_options"; "temperature"; "text"; "tool_choice"; "tools"; "top_logprobs"; "top_p"; "truncation"; "user"]%string.
Definition unknown_parameter (allowed : list (list Z)) (body : Json) : bool :=
  match body with JObject items => existsb (fun kv => negb (bool_decide (kv.1 ∈ allowed))) items | _ => false end.
Definition reject_unknown_top_level (body : Json) : result unit := throw_if (unknown_parameter allowed_parameters body) ApiError.

Definition unsupported_parameters : list (list Z) := bytes_of <$> [
  "context_management"; "conversation"; "max_tool_calls"; "moderation"; "prompt"; "prompt_cache_key"; "prompt_cache_options";
  "prompt_cache_retention"; "safety_identifier"; "user"]%string.
(** A parameter that may have these values only. *)
Definition only_if (body : Json) (key : list Z) (supported : Json -> bool) : result unit :=
  match present body key with None => Ok tt | Some value => throw_if (negb (supported value)) ApiError end.
Definition text_format_supported (fmt : Json) : bool :=
  match fmt with
  | JObject items =>
      match json_find (bytes_of "type") items with Some (JString type_) => bool_decide (type_ = bytes_of "text") | _ => false end &&
      forallb (fun kv => bool_decide (kv.1 = bytes_of "type")) items
  | _ => false
  end.
Definition reject_server_managed_features (body : Json) : result unit :=
  do* throw_if (existsb (fun key => is_some (present body key)) unsupported_parameters) ApiError;
  do* only_if body (bytes_of "background") (fun v => match v with JBool b => negb b | _ => false end);
  do* only_if body (bytes_of "include") (fun v => match v with JArray items => bool_decide (items = []) | _ => false end);
  do* only_if body (bytes_of "parallel_tool_calls") (fun v => match v with JBool b => b | _ => false end);
  do* (let* value := optional_int body (bytes_of "top_logprobs") in
       throw_if (match value with Some n => negb (n =? 0) | None => is_some (present body (bytes_of "top_logprobs")) end) ApiError);
  do* only_if body (bytes_of "truncation") (fun v => match v with JString s => bool_decide (s = bytes_of "disabled") | _ => false end);
  do* only_if body (bytes_of "service_tier") (fun v =>
        match v with JString s => bool_decide (s = bytes_of "auto") || bool_decide (s = bytes_of "default") | _ => false end);
  do* only_if body (bytes_of "stream_options") (fun v =>
        match v with
        | JObject items => forallb (fun kv => bool_decide (kv.1 = bytes_of "include_obfuscation") && match kv.2 with JBool b => negb b | _ => false end) items
        | _ => false
        end);
  only_if body (bytes_of "text") (fun v =>
    match v with
    | JObject items =>
        forallb (fun kv => bool_decide (kv.1 = bytes_of "format") || match kv.2 with JNull => true | _ => false end) items &&
        match present (JObject items) (bytes_of "format") with None => true | Some fmt => text_format_supported fmt end
    | _ => false
    end).

(** A string that may be missing. *)
Definition optional_string (body : Json) (key : list Z) (allow_empty : bool) : result (option (list Z)) :=
  match present body key with
  | None => Ok None
  | Some (JString s) => do* throw_if (negb allow_empty && bool_decide (s = [])) ApiError; Ok (Some s)
  | Some _ => Err ApiError
  end.

Definition parse_request_impl (body : Json) (default_max_tokens : Z) : M nat ResponsesRequest :=
  do! mthrow_if (negb (is_object body)) ApiError;
  do! mlift (reject_unknown_top_level body);
  do! mlift (reject_server_managed_features body);
  let! model := mlift (get_nonempty body (bytes_of "model")) in
  let! input := mlift (match json_field body (bytes_of "input") with Some input => Ok input | None => Err ApiError end) in
  let! (turns, items) := parse_input input in
  mlift (
    let* instructions := optional_string body (bytes_of "instructions") true in
    let* previous_response_id := optional_string body (bytes_of "previous_response_id") false in
    let* store := get_bool body (bytes_of "store") true in
    let* stream := get_bool body (bytes_of "stream") false in
    let* metadata := validate_metadata body in
    let* tools := parse_response_tools body in
    let* (tool_choice, choice_json) := parse_response_tool_choice body in
    let* effort := parse_reasoning body in
    let* preserve_thinking := parse_openai_preserve_thinking body in
    let* temperature := optional_number body (bytes_of "temperature") in
    do* throw_if (match temperature with Some d => f64_outside 0 f64_two d | None => false end) ApiError;
    let* top_p := optional_number body (bytes_of "top_p") in
    do* throw_if (match top_p with Some d => f64_outside 0 f64_one d | None => false end) ApiError;
    let* max_output := optional_int body (bytes_of "max_output_tokens") in
    do* throw_if (match max_output with Some n => n <? 16 | None => false end) ApiError;
    Ok (mkResponsesRequest
      (mkGenerationRequest model turns tools.*1 64 tool_choice [] (default default_max_tokens max_output) (is_some max_output) stream false
         None effort preserve_thinking (mkSamplingParams temperature top_p None None None None ∅ 1))
      turns items instructions previous_response_id metadata tools.*2 choice_json store stream)).
Definition parse_responses_request (body : Json) (default_max_tokens : Z) : M nat ResponsesRequest :=
  parse_request_impl body default_max_tokens.

Definition parse_response_input_tokens_request (body : Json) (default_max_tokens : Z) : M nat ResponsesRequest :=
  do! mthrow_if (negb (is_object body)) ApiError;
  do! mthrow_if (unknown_parameter (bytes_of <$> ["model"; "input"; "chat_template_kwargs"; "preserve_thinking"]%string) body) ApiError;
  let! r := parse_request_impl body default_max_tokens in
  let g := generation r in
  mret_ (mkResponsesRequest
    (mkGenerationRequest (gr_model g) (gr_messages g) (gr_tools g) (tool_name_max_length g) (gr_tool_choice g) (stop_strings g) (max_tokens g)
       (max_tokens_set g) false (include_usage g) (gr_enable_thinking g) (gr_reasoning_effort g) (gr_preserve_thinking g) (gr_sampling g))
    (input_turns r) (rr_input_items r) (instructions r) (previous_response_id r) (metadata r) (tools r) (tool_choice r) false false).

(** ** Responses *)

Definition requested_reasoning_effort_name (effort : RequestedReasoningEffort) : list Z :=
  bytes_of match effort with
  | EffortNone => "none" | EffortMinimal => "minimal" | EffortLow => "low" | EffortMedium => "medium" | EffortHigh => "high"
  | EffortXHigh => "xhigh" | EffortMax => "max"
  end%string.

Definition response_status (reason : FinishReason) : list Z :=
  match reason with
  | OutputLimit | ContextCapacity => bytes_of "incomplete"
  | FR_Cancelled => bytes_of "cancelled"
  | FR_None | StopToken | FR_StopString => bytes_of "completed"
  end.

(** A [float] is its bit pattern. *)
Record ResponsesRuntimeValues : Set := mkRuntime { rv_temperature : Z; rv_top_p : Z; cached_input_tokens : Z }.
Record BuiltResponse : Type := mkBuilt { body : Json; output_items : list Json; output_history : list ChatTurn }.
Record ItemIds : Set := mkItemIds { reasoning_id : list Z; message_id : list Z; function_calls : list (list Z) }.

Definition response_common (id : list Z) (created_at : Z) (request : ResponsesRequest) (runtime : ResponsesRuntimeValues) : Json :=
  json_object [
    (bytes_of "id", JString id); (bytes_of "object", jstr "response"); (bytes_of "created_at", JInteger created_at);
    (bytes_of "background", JBool false); (bytes_of "instructions", json_or_null (instructions request));
    (bytes_of "max_output_tokens", JInteger (max_tokens (generation request))); (bytes_of "max_tool_calls", JNull);
    (bytes_of "metadata", metadata request); (bytes_of "model", JString (gr_model (generation request)));
    (bytes_of "parallel_tool_calls", JBool true);
    (bytes_of "previous_response_id", json_or_null (previous_response_id request));
    (bytes_of "reasoning", json_object [
      (bytes_of "effort", json_or_null (requested_reasoning_effort_name <$> gr_reasoning_effort (generation request)));
      (bytes_of "summary", JNull)]);
    (bytes_of "service_tier", jstr "default"); (bytes_of "store", JBool (store request));
    (bytes_of "temperature", JFloat (f64_of_f32 (rv_temperature runtime)));
    (bytes_of "text", json_object [(bytes_of "format", json_object [(bytes_of "type", jstr "text")])]);
    (bytes_of "tool_choice", tool_choice request); (bytes_of "tools", JArray (tools request)); (bytes_of "top_logprobs", JInteger 0);
    (bytes_of "top_p", JFloat (f64_of_f32 (rv_top_p runtime))); (bytes_of "truncation", jstr "disabled")].

(** The items of the output. *)
Definition output_text_part (text : list Z) : Json :=
  json_object [(bytes_of "type", jstr "output_text"); (bytes_of "annotations", JArray []); (bytes_of "text", JString text)].
Definition reasoning_item (id status : list Z) (content : list Json) : Json :=
  json_object [(bytes_of "id", JString id); (bytes_of "type", jstr "reasoning"); (bytes_of "status", JString status);
               (bytes_of "summary", JArray []); (bytes_of "content", JArray content)].
Definition message_item (id status : list Z) (content : list Json) : Json :=
  json_object [(bytes_of "id", JString id); (bytes_of "type", jstr "message"); (bytes_of "status", JString status);
               (bytes_of "role", jstr "assistant"); (bytes_of "content", JArray content)].

(** An id that is drawn when there is none yet. *)
Definition id_or_new (id prefix : list Z) : M nat (list Z) := if bool_decide (id = []) then new_response_item_id prefix else mret_ id.

(** The loop over the calls: [ids] are those of the calls that have one. *)
Fixpoint call_items (ids : list (list Z)) (calls : list ToolCall) : M nat (list Json) :=
  match calls with
  | [] => mret_ []
  | call :: calls' =>
      let! id := id_or_new (default [] (head ids)) (bytes_of "fc") in
      let! rest := call_items (tail ids) calls' in
      mret_ (function_call_json id (bytes_of "completed") call (arguments_json call) :: rest)
  end.

Definition item_status (outcome : GenerationOutcome) : list Z :=
  if bool_decide (response_status (out_finish_reason outcome) = bytes_of "completed") then bytes_of "completed" else bytes_of "incomplete".
Definition reasoning_status (outcome : GenerationOutcome) : list Z :=
  if negb (bool_decide (out_text outcome = [])) || negb (bool_decide (out_tool_calls outcome = [])) then bytes_of "completed" else item_status outcome.
Definition needs_message (outcome : GenerationOutcome) : bool :=
  negb (bool_decide (out_text outcome = [])) || bool_decide (out_tool_calls outcome = []).

Definition assistant_history (outcome : GenerationOutcome) : ChatTurn :=
  mkTurn Assistant
    (if bool_decide (out_text outcome = []) then [] else [mkContentPart CkText (out_text outcome) (bytes_of "output_text") SourcePath [] [] []])
    (out_tool_calls outcome) [] (out_reasoning outcome).

(** The [usage]; a sum that is no [int] is undefined behaviour, and prompt and output are within the context. *)
Definition response_usage (runtime : ResponsesRuntimeValues) (outcome : GenerationOutcome) : Json :=
  let observed := Z.max (cached_input_tokens runtime) (to_i32 (u32 (prefix_cache_hit_tokens outcome))) in
  json_object [
    (bytes_of "input_tokens", JInteger (out_prompt_tokens outcome));
    (bytes_of "input_tokens_details", json_object [(bytes_of "cached_tokens", JInteger (Z.min (Z.max observed 0) (out_prompt_tokens outcome)))]);
    (bytes_of "output_tokens", JInteger (out_completion_tokens outcome));
    (bytes_of "output_tokens_details", json_object [(bytes_of "reasoning_tokens", JInteger (out_reasoning_tokens outcome))]);
    (bytes_of "total_tokens", JInteger (out_prompt_tokens outcome + out_completion_tokens outcome))].

(** [now]: [completion_time_now()]. *)
Definition build_response (id : list Z) (created_at : Z) (request : ResponsesRequest) (runtime : ResponsesRuntimeValues)
    (outcome : GenerationOutcome) (ids : ItemIds) (now : Z) : M nat BuiltResponse :=
  let status := response_status (out_finish_reason outcome) in
  let! reasoning :=
    if bool_decide (out_reasoning outcome = []) then mret_ []
    else let! rid := id_or_new (reasoning_id ids) (bytes_of "rs") in
         mret_ [reasoning_item rid (reasoning_status outcome) [reasoning_text_part (out_reasoning outcome)]] in
  let! message :=
    if needs_message outcome then
      let! mid := id_or_new (message_id ids) (bytes_of "msg") in
      mret_ [message_item mid (item_status outcome) [output_text_part (out_text outcome)]]
    else mret_ [] in
  let! calls := call_items (function_calls ids) (out_tool_calls outcome) in
  let output := reasoning ++ message ++ calls in
  mret_ (mkBuilt
    (set_field (bytes_of "usage") (response_usage runtime outcome)
     (set_field (bytes_of "incomplete_details")
        (if bool_decide (status = bytes_of "incomplete") then json_object [(bytes_of "reason", jstr "max_output_tokens")] else JNull)
     (set_field (bytes_of "output") (JArray output)
     (set_field (bytes_of "error") JNull
     (set_field (bytes_of "completed_at") (JInteger now)
     (set_field (bytes_of "status") (JString status) (response_common id created_at request runtime)))))))
    output [assistant_history outcome]).
Definition make_response_object (id : list Z) (created_at : Z) (request : ResponsesRequest) (runtime : ResponsesRuntimeValues)
    (outcome : GenerationOutcome) (now : Z) : M nat BuiltResponse :=
  build_response id created_at request runtime outcome (mkItemIds [] [] []) now.

Definition make_response_input_tokens_body (input_tokens : Z) : list Z :=
  json_dump (json_object [(bytes_of "object", jstr "response.input_tokens"); (bytes_of "input_tokens", JInteger input_tokens)]).

(** ** Continuing a response *)

Definition with_generation (r : ResponsesRequest) (messages : list ChatTurn) (preserve_thinking : option bool) : ResponsesRequest :=
  let g := generation r in
  mkResponsesRequest
    (mkGenerationRequest (gr_model g) messages (gr_tools g) (tool_name_max_length g) (gr_tool_choice g) (stop_strings g) (max_tokens g)
       (max_tokens_set g) (gr_stream g) (include_usage g) (gr_enable_thinking g) (gr_reasoning_effort g) preserve_thinking (gr_sampling g))
    (input_turns r) (rr_input_items r) (instructions r) (previous_response_id r) (metadata r) (tools r) (tool_choice r) (store r) (stream r).
Definition inherit_responses_preserve_thinking (r : ResponsesRequest) (parent_value : bool) : ResponsesRequest :=
  match gr_preserve_thinking (generation r) with
  | Some _ => r
  | None => with_generation r (gr_messages (generation r)) (Some parent_value)
  end.
Definition instruction_turns (r : ResponsesRequest) : list ChatTurn :=
  match instructions r with
  | Some text => [mkTurn Developer [mkContentPart CkText text (bytes_of "input_text") SourcePath [] [] []] [] [] []]
  | None => []
  end.
Definition compose_responses_generation_messages (r : ResponsesRequest) (previous_context : list ChatTurn) : ResponsesRequest :=
  with_generation r (instruction_turns r ++ previous_context ++ input_turns r) (gr_preserve_thinking (generation r)).

(** ** The events of a streamed response *)

(** [ResponsesEventStream::Impl], without its constants. *)
Record Impl : Type := mkImpl {
  sequence : Z; next_output_index : Z; reasoning_index : Z; message_index : Z;
  started : bool; reasoning_started : bool; reasoning_done : bool; message_started : bool; message_done : bool; finish_built : bool; terminal_emitted : bool;
  reasoning_text : list Z; content_text : list Z; ids : ItemIds; rng : nat;
}.
Definition set_sequence (v : Z) (s : Impl) : Impl := mkImpl v (next_output_index s) (reasoning_index s) (message_index s) (started s) (reasoning_started s) (reasoning_done s) (message_started s) (message_done s) (finish_built s) (terminal_emitted s) (reasoning_text s) (content_text s) (ids s) (rng s).
Definition set_next_output_index (v : Z) (s : Impl) : Impl := mkImpl (sequence s) v (reasoning_index s) (message_index s) (started s) (reasoning_started s) (reasoning_done s) (message_started s) (message_done s) (finish_built s) (terminal_emitted s) (reasoning_text s) (content_text s) (ids s) (rng s).
Definition set_reasoning_index (v : Z) (s : Impl) : Impl := mkImpl (sequence s) (next_output_index s) v (message_index s) (started s) (reasoning_started s) (reasoning_done s) (message_started s) (message_done s) (finish_built s) (terminal_emitted s) (reasoning_text s) (content_text s) (ids s) (rng s).
Definition set_message_index (v : Z) (s : Impl) : Impl := mkImpl (sequence s) (next_output_index s) (reasoning_index s) v (started s) (reasoning_started s) (reasoning_done s) (message_started s) (message_done s) (finish_built s) (terminal_emitted s) (reasoning_text s) (content_text s) (ids s) (rng s).
Definition set_started (v : bool) (s : Impl) : Impl := mkImpl (sequence s) (next_output_index s) (reasoning_index s) (message_index s) v (reasoning_started s) (reasoning_done s) (message_started s) (message_done s) (finish_built s) (terminal_emitted s) (reasoning_text s) (content_text s) (ids s) (rng s).
Definition set_reasoning_started (v : bool) (s : Impl) : Impl := mkImpl (sequence s) (next_output_index s) (reasoning_index s) (message_index s) (started s) v (reasoning_done s) (message_started s) (message_done s) (finish_built s) (terminal_emitted s) (reasoning_text s) (content_text s) (ids s) (rng s).
Definition set_reasoning_done (v : bool) (s : Impl) : Impl := mkImpl (sequence s) (next_output_index s) (reasoning_index s) (message_index s) (started s) (reasoning_started s) v (message_started s) (message_done s) (finish_built s) (terminal_emitted s) (reasoning_text s) (content_text s) (ids s) (rng s).
Definition set_message_started (v : bool) (s : Impl) : Impl := mkImpl (sequence s) (next_output_index s) (reasoning_index s) (message_index s) (started s) (reasoning_started s) (reasoning_done s) v (message_done s) (finish_built s) (terminal_emitted s) (reasoning_text s) (content_text s) (ids s) (rng s).
Definition set_message_done (v : bool) (s : Impl) : Impl := mkImpl (sequence s) (next_output_index s) (reasoning_index s) (message_index s) (started s) (reasoning_started s) (reasoning_done s) (message_started s) v (finish_built s) (terminal_emitted s) (reasoning_text s) (content_text s) (ids s) (rng s).
Definition set_finish_built (v : bool) (s : Impl) : Impl := mkImpl (sequence s) (next_output_index s) (reasoning_index s) (message_index s) (started s) (reasoning_started s) (reasoning_done s) (message_started s) (message_done s) v (terminal_emitted s) (reasoning_text s) (content_text s) (ids s) (rng s).
Definition set_terminal_emitted (v : bool) (s : Impl) : Impl := mkImpl (sequence s) (next_output_index s) (reasoning_index s) (message_index s) (started s) (reasoning_started s) (reasoning_done s) (message_started s) (message_done s) (finish_built s) v (reasoning_text s) (content_text s) (ids s) (rng s).
Definition set_reasoning_text (v : list Z) (s : Impl) : Impl := mkImpl (sequence s) (next_output_index s) (reasoning_index s) (message_index s) (started s) (reasoning_started s) (reasoning_done s) (message_started s) (message_done s) (finish_built s) (terminal_emitted s) v (content_text s) (ids s) (rng s).
Definition set_content_text (v : list Z) (s : Impl) : Impl := mkImpl (sequence s) (next_output_index s) (reasoning_index s) (message_index s) (started s) (reasoning_started s) (reasoning_done s) (message_started s) (message_done s) (finish_built s) (terminal_emitted s) (reasoning_text s) v (ids s) (rng s).
Definition set_ids (v : ItemIds) (s : Impl) : Impl := mkImpl (sequence s) (next_output_index s) (reasoning_index s) (message_index s) (started s) (reasoning_started s) (reasoning_done s) (message_started s) (message_done s) (finish_built s) (terminal_emitted s) (reasoning_text s) (content_text s) v (rng s).
Definition set_rng (v : nat) (s : Impl) : Impl := mkImpl (sequence s) (next_output_index s) (reasoning_index s) (message_index s) (started s) (reasoning_started s) (reasoning_done s) (message_started s) (message_done s) (finish_built s) (terminal_emitted s) (reasoning_text s) (content_text s) (ids s) v.
Definition impl_init (n : nat) : Impl := mkImpl 0 0 (-1) (-1) false false false false false false false [] [] (mkItemIds [] [] []) n.

Definition sse (event : Json) : list Z :=
  (bytes_of "event: " ++ match json_field event (bytes_of "type") with Some (JString type_) => type_ | _ => [] end ++
   [newline] ++ bytes_of "data: " ++ json_dump event ++ [newline; newline])%list.

Definition draw {A} (m : M nat A) : M Impl A := fun s => let '(r, n) := m (rng s) in (r, set_rng n s).

(** The event, as it is sent. *)
Definition event (type_ : list Z) (fields : list (list Z * Json)) : M Impl (list Z) :=
  let! s := mget in
  do! mput (set_sequence (u64 (sequence s + 1)) s);
  mret_ (sse (set_field (bytes_of "sequence_number") (JUnsigned (sequence s)) (set_field (bytes_of "type") (JString type_) (json_object fields)))).

(** [next_output_index++] *)
Definition take_output_index : M Impl Z :=
  let! s := mget in do! mput (set_next_output_index (next_output_index s + 1) s); mret_ (next_output_index s).

Definition added_event (index : Z) (item : Json) : M Impl (list Z) :=
  event (bytes_of "response.output_item.added") [(bytes_of "output_index", JInteger index); (bytes_of "item", item)].
Definition done_event (index : Z) (item : Json) : M Impl (list Z) :=
  event (bytes_of "response.output_item.done") [(bytes_of "output_index", JInteger index); (bytes_of "item", item)].
(** An event of the only part of an item. *)
Definition part_event (type_ item_id : list Z) (index : Z) (fields : list (list Z * Json)) : M Impl (list Z) :=
  event type_ ([(bytes_of "item_id", JString item_id); (bytes_of "output_index", JInteger index); (bytes_of "content_index", JInteger 0)] ++ fields)%list.

Definition ensure_reasoning : M Impl (list (list Z)) :=
  let! s := mget in
  if reasoning_started s then mret_ [] else
  do! mmodify (set_reasoning_started true);
  let! id := draw (new_response_item_id (bytes_of "rs")) in
  do! mmodify (fun s => set_ids (mkItemIds id (message_id (ids s)) (function_calls (ids s))) s);
  let! index := take_output_index in
  do! mmodify (set_reasoning_index index);
  let! e1 := added_event index (reasoning_item id (bytes_of "in_progress") []) in
  let! e2 := part_event (bytes_of "response.content_part.added") id index [(bytes_of "part", reasoning_text_part [])] in
  mret_ [e1; e2].

Definition close_reasoning (final_text item_status : list Z) : M Impl (list (list Z)) :=
  let! s := mget in
  if negb (reasoning_started s) || reasoning_done s then mret_ [] else
  do! mmodify (set_reasoning_done true);
  do! mmodify (set_reasoning_text final_text);
  let id := reasoning_id (ids s) in
  let index := reasoning_index s in
  let part := reasoning_text_part final_text in
  let! e1 := part_event (bytes_of "response.reasoning_text.done") id index [(bytes_of "text", JString final_text)] in
  let! e2 := part_event (bytes_of "response.content_part.done") id index [(bytes_of "part", part)] in
  let! e3 := done_event index (reasoning_item id item_status [part]) in
  mret_ [e1; e2; e3].

Definition ensure_message : M Impl (list (list Z)) :=
  let! s := mget in
  if message_started s then mret_ [] else
  do! mmodify (set_message_started true);
  let! id := draw (new_response_item_id (bytes_of "msg")) in
  do! mmodify (fun s => set_ids (mkItemIds (reasoning_id (ids s)) id (function_calls (ids s))) s);
  let! index := take_output_index in
  do! mmodify (set_message_index index);
  let! e1 := added_event index (message_item id (bytes_of "in_progress") []) in
  let! e2 := part_event (bytes_of "response.content_part.added") id index [(bytes_of "part", output_text_part [])] in
  mret_ [e1; e2].

Definition close_message (final_text item_status : list Z) : M Impl (list (list Z)) :=
  let! s := mget in
  if negb (message_started s) || message_done s then mret_ [] else
  do! mmodify (set_message_done true);
  do! mmodify (set_content_text final_text);
  let id := message_id (ids s) in
  let index := message_index s in
  let part := output_text_part final_text in
  let! e1 := part_event (bytes_of "response.output_text.done") id index [(bytes_of "text", JString final_text); (bytes_of "logprobs", JArray [])] in
  let! e2 := part_event (bytes_of "response.content_part.done") id index [(bytes_of "part", part)] in
  let! e3 := done_event index (message_item id item_status [part]) in
  mret_ [e1; e2; e3].

(** The public operations. *)
Section Stream.
Context (response_id : list Z) (created_at : Z) (request : ResponsesRequest) (runtime : ResponsesRuntimeValues).

Definition in_progress_response : Json :=
  set_field (bytes_of "usage") JNull (set_field (bytes_of "output") (JArray []) (set_field (bytes_of "incomplete_details") JNull
  (set_field (bytes_of "error") JNull (set_field (bytes_of "completed_at") JNull (set_field (bytes_of "status") (jstr "in_progress")
    (response_common response_id created_at request runtime)))))).

Definition start : M Impl (list (list Z)) :=
  let! s := mget in
  do! mthrow_if (started s) LogicError;
  do! mmodify (set_started true);
  let! e1 := event (bytes_of "response.created") [(bytes_of "response", in_progress_response)] in
  let! e2 := event (bytes_of "response.in_progress") [(bytes_of "response", in_progress_response)] in
  mret_ [e1; e2].

Definition reasoning_delta_event (text : list Z) : M Impl (list Z) :=
  let! s := mget in
  part_event (bytes_of "response.reasoning_text.delta") (reasoning_id (ids s)) (reasoning_index s) [(bytes_of "delta", JString text)].
Definition output_text_delta_event (text : list Z) : M Impl (list Z) :=
  let! s := mget in
  part_event (bytes_of "response.output_text.delta") (message_id (ids s)) (message_index s)
    [(bytes_of "delta", JString text); (bytes_of "logprobs", JArray [])].

Definition reasoning_delta (text : list Z) : M Impl (list (list Z)) :=
  let! s := mget in
  do! mthrow_if (negb (started s) || finish_built s) LogicError;
  if bool_decide (text = []) then mret_ [] else
  let! events := ensure_reasoning in
  do! mmodify (fun s => set_reasoning_text (reasoning_text s ++ text) s);
  let! e := reasoning_delta_event text in
  mret_ (events ++ [e]).

Definition content_delta (text : list Z) : M Impl (list (list Z)) :=
  let! s := mget in
  do! mthrow_if (negb (started s) || finish_built s) LogicError;
  if bool_decide (text = []) then mret_ [] else
  let! events := close_reasoning (reasoning_text s) (bytes_of "completed") in
  let! added := ensure_message in
  do! mmodify (fun s => set_content_text (content_text s ++ text) s);
  let! e := output_text_delta_event text in
  mret_ (events ++ added ++ [e]).

(** The calls of [finish]. *)
Definition call_events (call : ToolCall) : M Impl (list (list Z)) :=
  let! id := draw (new_response_item_id (bytes_of "fc")) in
  do! mmodify (fun s => set_ids (mkItemIds (reasoning_id (ids s)) (message_id (ids s)) (function_calls (ids s) ++ [id])) s);
  let! index := take_output_index in
  let! added := added_event index (function_call_json id (bytes_of "in_progress") call []) in
  let item_fields := [(bytes_of "item_id", JString id); (bytes_of "output_index", JInteger index)] in
  let! delta :=
    if bool_decide (arguments_json call = []) then mret_ []
    else let! e := event (bytes_of "response.function_call_arguments.delta") (item_fields ++ [(bytes_of "delta", JString (arguments_json call))]) in
         mret_ [e] in
  let! arguments_done := event (bytes_of "response.function_call_arguments.done")
    (item_fields ++ [(bytes_of "name", JString (tc_name call)); (bytes_of "arguments", JString (arguments_json call))]) in
  let! item_done := done_event index (function_call_json id (bytes_of "completed") call (arguments_json call)) in
  mret_ ([added] ++ delta ++ [arguments_done; item_done]).

(** The content that was not streamed yet. *)
Definition content_suffix (text : list Z) : M Impl (list (list Z)) :=
  let! s := mget in
  if bool_decide (text = content_text s) then mret_ [] else
  do! mthrow_if (negb (starts_with text (content_text s))) LogicError;
  let suffix := drop (length (content_text s)) text in
  if bool_decide (suffix = []) then mret_ [] else
  do! mmodify (set_content_text (content_text s ++ suffix));
  let! e := output_text_delta_event suffix in mret_ [e].

(** The reasoning, when none was streamed. *)
Definition unstreamed_reasoning (reasoning : list Z) : M Impl (list (list Z)) :=
  let! s := mget in
  if bool_decide (reasoning = []) || reasoning_started s then mret_ [] else
  let! events := ensure_reasoning in
  do! mmodify (set_reasoning_text reasoning);
  let! e := reasoning_delta_event reasoning in
  mret_ (events ++ [e]).

(** [now]: [completion_time_now()]. *)
Definition stream_finish (outcome : GenerationOutcome) (now : Z) : M Impl (BuiltResponse * list (list Z)) :=
  let! s := mget in
  do! mthrow_if (negb (started s) || finish_built s) LogicError;
  do! mmodify (set_finish_built true);
  let! reasoning := unstreamed_reasoning (out_reasoning outcome) in
  let! reasoning_closed := close_reasoning (out_reasoning outcome) (reasoning_status outcome) in
  let! message :=
    if needs_message outcome then
      let! added := ensure_message in
      let! suffix := content_suffix (out_text outcome) in
      let! closed := close_message (out_text outcome) (item_status outcome) in
      mret_ (added ++ suffix ++ closed)
    else mret_ [] in
  let! calls := mmapM call_events (out_tool_calls outcome) in
  let! s := mget in
  let! response := draw (build_response response_id created_at request runtime outcome (ids s) now) in
  mret_ (response, reasoning ++ reasoning_closed ++ message ++ concat calls).

Definition terminal (response : BuiltResponse) : M Impl (list Z) :=
  let! s := mget in
  do! mthrow_if (negb (finish_built s) || terminal_emitted s) LogicError;
  do! mmodify (set_terminal_emitted true);
  let! status := mlift (match json_field (body response) (bytes_of "status") with Some (JString status) => Ok status | _ => Err JsonException end) in
  event (if bool_decide (status = bytes_of "completed") then bytes_of "response.completed"
         else if bool_decide (status = bytes_of "incomplete") then bytes_of "response.incomplete"
         else if bool_decide (status = bytes_of "cancelled") then bytes_of "response.cancelled"
         else bytes_of "response.failed")
    [(bytes_of "response", body response)].

(** [code], [message]: those of the error. *)
Definition failed (code message : list Z) (now : Z) : M Impl (list Z) :=
  let! s := mget in
  do! mthrow_if (negb (started s) || terminal_emitted s) LogicError;
  do! mmodify (set_terminal_emitted true);
  event (bytes_of "response.failed") [(bytes_of "response",
    set_field (bytes_of "error") (json_object [(bytes_of "code", if bool_decide (code = []) then JNull else JString code); (bytes_of "message", JString message)])
    (set_field (bytes_of "completed_at") (JInteger now) (set_field (bytes_of "status") (jstr "failed") in_progress_response)))].
End Stream.
End Responses.
