(* ===== verification/ResponsesProofs.v ===== *)
(** * Requests of the Responses API

    Whatever its body, a request is parsed to a well-formed one or refused as an error of the client.  The items of its
    input can be sent again, and so can the output of a response: they stand for the same turns. *)
From Stdlib Require Import Strings.String.
From stdpp Require Import gmap.
From S2P Require Import ProgramState RequestPlan Prelude Unicode Admission Capacity Contract Output Tokenizer ToolCalls ChatTemplate PrefixIdentity MediaCache Processor Preparation ResponseStore Requests RequestsProofs Serving Responses.
#[local] Open Scope Z_scope.
#[local] Open Scope ninfer_scope.

(** ** Parsers that draw ids *)

Definition draws {A} (P : A -> Prop) (m : M nat A) : Prop := forall n, parses P (m n).1.
Section Rules.
Context {A B : Type}.
Lemma draws_ret (P : A -> Prop) a : P a -> draws P (mret_ a).
Proof. by intros H n. Qed.
Lemma draws_throw (P : A -> Prop) : draws P (mthrow ApiError).
Proof. by intros n. Qed.
Lemma draws_lift (P : A -> Prop) r : parses P r -> draws P (mlift r).
Proof. by intros H n. Qed.
Lemma draws_bind (P : A -> Prop) (Q : B -> Prop) m k : draws P m -> (forall a, P a -> draws Q (k a)) -> draws Q (mbind_ m k).
Proof. intros Hm Hk n. specialize (Hm n). unfold mbind_. destruct (m n) as [[a|e] n']; cbn in *; [by apply Hk|done]. Qed.
Lemma draws_throw_if (Q : B -> Prop) b (m : M nat B) : (b = false -> draws Q m) -> draws Q (mbind_ (mthrow_if b ApiError) (fun _ => m)).
Proof. intros H n. destruct b; [done|]. by apply H. Qed.
Lemma draws_mono (P Q : A -> Prop) m : draws P m -> (forall a, P a -> Q a) -> draws Q m.
Proof. intros H HPQ n. eapply parses_mono; [apply H|auto]. Qed.
End Rules.
Notation draws_any m := (draws (fun _ => True) m).

Create HintDb draws.
Ltac draw_step :=
  match goal with
  | |- draws _ (mbind_ (mthrow_if _ ApiError) _) => apply draws_throw_if; intros ?
  | |- draws _ (mbind_ (mlift _) _) => eapply draws_bind; [apply draws_lift; by eauto with parses|intros ? ?; cbv beta in *]
  | |- draws _ (mbind_ _ _) => eapply draws_bind; [by eauto with draws|intros ? ?; cbv beta in *]
  | |- draws _ (if ?b then _ else _) => destruct b eqn:?
  | |- draws _ (match ?x with _ => _ end) => destruct x eqn:?
  | |- draws _ (mthrow ApiError) => apply draws_throw
  | |- draws _ (mret_ _) => apply draws_ret
  | |- draws _ (mlift _) => apply draws_lift
  end.
Ltac draw_steps := repeat draw_step.

(** ** Fields of objects *)

Lemma find_set k k' v items : json_find k (object_set k' v items) = if decide (k' = k) then Some v else json_find k items.
Proof.
  induction items as [|[k0 v0] items IH]; cbn [object_set json_find]; [repeat case_bool_decide; repeat case_decide; done|].
  case_bool_decide as H1; [subst k0; cbn [json_find]; repeat case_bool_decide; repeat case_decide; done|].
  destruct (bytes_ltb k' k0); cbn [json_find]; [repeat case_bool_decide; repeat case_decide; naive_solver|].
  rewrite IH. repeat case_bool_decide; repeat case_decide; naive_solver.
Qed.
Lemma set_object k v o : is_object (set_field k v o) = is_object o.
Proof. by destruct o. Qed.
Lemma field_set k k' v o : is_object o = true -> json_field (set_field k' v o) k = if decide (k' = k) then Some v else json_field o k.
Proof. destruct o; try done. intros _. apply find_set. Qed.

(** The field of an object that is written out. *)
Ltac field_eq := vm_compute; reflexivity.

Lemma random_id_nonempty random prefix : draws (fun id => id <> []) (random_id random prefix).
Proof. intros n. cbn. intros [_ H]%app_nil. done. Qed.
Lemma item_id_draws random item prefix : draws (fun id => id <> []) (item_id random item prefix).
Proof.
  unfold item_id, new_response_item_id. draw_steps; try apply random_id_nonempty. by eapply bool_decide_eq_false.
Qed.
#[export] Hint Resolve random_id_nonempty item_id_draws : draws.

(** The id of an item. *)
Definition item_has_id (item : Json) (id : list Z) : Prop := json_field item (bytes_of "id") = Some (JString id) /\ id <> [].

(** An item that has an id draws none. *)
Lemma item_id_given random item prefix id n : item_has_id item id -> item_id random item prefix n = (Ok id, n).
Proof. intros [H Hn]. unfold item_id, present. rewrite H. unfold mthrow_if, mlift, mbind_. by rewrite bool_decide_false. Qed.

Section Parsing.
Context (json_parse : list Z -> option Json) (json_dump : Json -> list Z) (random : nat -> Z).

(** ** Well-formed requests *)

Notation call_ok := (call_ok json_parse 64).
Notation turn_ok := (turn_ok json_parse 64).

Lemma input_url_parses kind type_ url : kind = CkImage \/ kind = CkVideo -> parses part_ok (input_url kind type_ url).
Proof. intros Hk. unfold input_url. parse_steps; destruct Hk as [-> | ->]; done. Qed.
Lemma input_image_parses part : parses part_ok (parse_input_image part).
Proof.
  unfold parse_input_image. parse_step. parse_step. eapply (parses_bind (fun _ => True)); [by parse_steps|]. intros _ _. apply input_url_parses. auto.
Qed.
Lemma input_video_parses part : parses part_ok (parse_input_video part).
Proof. unfold parse_input_video. parse_step. apply input_url_parses. auto. Qed.
Lemma check_completed_parses item : parses_any (check_completed item).
Proof. unfold check_completed. by parse_steps. Qed.
#[local] Hint Resolve input_image_parses input_video_parses check_completed_parses : parses.
Lemma message_part_parses role value : parses (fun p => part_ok p.1) (message_part role value).
Proof. unfold message_part. by parse_steps. Qed.
Lemma item_role_parses role : parses (fun r => r <> Tool) (parse_item_role role).
Proof. unfold parse_item_role. by parse_steps. Qed.
Lemma message_content_parses role item : parses (fun parts => parts <> [] /\ Forall (fun p => part_ok p.1) parts) (parse_message_content role item).
Proof.
  unfold parse_message_content. destruct (present item _) as [[| | | | |s|values|]|]; try done; cbn; [split; [done|]; by repeat constructor|].
  eapply parses_bind; [apply parses_map, message_part_parses|]. intros parts Hp. parse_steps. split; [by eapply bool_decide_eq_false|done].
Qed.
#[local] Hint Resolve message_part_parses item_role_parses message_content_parses : parses.

(** What the items' parsers give: the turn, and a canonical form with an id. *)
Definition has_some_id (item : Json) : Prop := exists id, item_has_id item id.

Lemma message_item_draws item : draws (fun r => turn_ok r.1 /\ turn_role r.1 <> Tool /\ turn_reasoning r.1 = [] /\ turn_tool_calls r.1 = [] /\
  turn_content r.1 <> [] /\ has_some_id r.2) (parse_message_item random item).
Proof using Type.
  clear json_dump.
  unfold parse_message_item. do 6 draw_step. draw_step. cbn [fst snd]. assert (Hparts : a2.*1 <> [] /\ Forall part_ok a2.*1).
  { destruct H3 as [Hn Hf]. split; [by destruct a2|]. by apply Forall_fmap. }
  split; [by apply plain_turn_ok; tauto|]. cbn. split_and!; try tauto. exists a3. split; [field_eq|done].
Qed.
Lemma reasoning_part_parses part : parses_any (reasoning_part part).
Proof. unfold reasoning_part. parse_steps. apply get_string_parses. Qed.
#[local] Hint Resolve reasoning_part_parses : parses.
Lemma reasoning_item_draws item : draws (fun r => has_some_id r.2) (parse_reasoning_item random item).
Proof.
  unfold parse_reasoning_item. draw_step. eapply (draws_bind (fun _ => True)); [draw_steps; by parse_steps|]. intros _ _.
  eapply (draws_bind (fun _ => True)); [draw_steps; by parse_steps|]. intros content _. draw_step. draw_step. draw_step. cbn. exists a0. split; [field_eq|done].
Qed.
Lemma function_call_item_draws item : draws (fun r => call_ok r.1 /\ has_some_id r.2) (parse_function_call_item json_parse random item).
Proof.
  unfold parse_function_call_item. do 6 draw_step. draw_step. cbn [fst snd]. split.
  - split; [done|]. split; [done|]. cbn. destruct (json_parse a1) as [[]|] eqn:E; try done. by eexists.
  - exists a3. split; [field_eq|done].
Qed.
Lemma function_call_output_item_draws item : draws (fun r => turn_ok r.1 /\ has_some_id r.2) (parse_function_call_output_item random item).
Proof.
  unfold parse_function_call_output_item. do 4 draw_step. draw_step. cbn [fst snd]. split; [|exists a2; split; [field_eq|done]].
  apply tool_turn_ok; [done|]. by repeat constructor.
Qed.
#[local] Hint Resolve message_item_draws reasoning_item_draws function_call_item_draws function_call_output_item_draws : draws.

Lemma item_type_parses item : parses_any (item_type item).
Proof. unfold item_type. by parse_steps. Qed.
#[local] Hint Resolve item_type_parses : parses.

(** The state of the loop: its turns are well-formed, and there is one unless only reasoning was read; the items have
    distinct ids. *)
Record input_ok (st : InputState) : Prop := {
  io_turns : Forall turn_ok (is_turns st);
  io_some : is_items st = [] \/ is_turns st <> [] \/ is_Some (pending_reasoning st);
  io_ids : Forall2 item_has_id (reverse (is_items st)) (is_ids st);
  io_distinct : NoDup (is_ids st);
}.

Lemma with_reasoning_ok turn reasoning : turn_ok turn -> turn_role turn <> Tool -> turn_reasoning turn = [] -> turn_content turn <> [] ->
  (is_some reasoning = true -> turn_role turn = Assistant) -> turn_ok (with_reasoning turn reasoning).
Proof.
  intros [T1 T2 T3 T4 T5] Hr Hre Hc Ha. split; cbn; auto. intros Hna. split; [by apply T2|]. destruct reasoning; [|done]. by destruct Hna; apply Ha.
Qed.
Lemma calling_turn_spec turns before turn : calling_turn turns = Some (before, turn) ->
  turns = before ++ [turn] /\ turn_role turn = Assistant /\ turn_content turn = [] /\ turn_tool_calls turn <> [].
Proof.
  unfold calling_turn. destruct (last turns) as [t|] eqn:E; [|done]. apply last_Some in E as [l ->].
  repeat case_bool_decide; cbn; try done. intros [= <- <-]. rewrite length_app. cbn. rewrite Nat.add_sub, take_app_length. done.
Qed.
Lemma add_call_ok turn call : turn_ok turn -> turn_role turn = Assistant -> call_ok call -> turn_ok (add_call turn call).
Proof.
  intros [T1 T2 T3 T4 T5] Ha Hc. split; cbn; auto; [by rewrite Ha| |].
  - apply Forall_app. auto.
  - right. right. left. by intros [_ ?]%app_nil.
Qed.
Lemma new_call_ok call reasoning : call_ok call -> turn_ok (mkTurn Assistant [] [call] [] reasoning).
Proof. intros Hc. split; cbn; [done|done|by apply Forall_singleton|constructor|]. right. right. by left. Qed.

Lemma input_item_draws st item : input_ok st ->
  draws (fun r => Forall turn_ok r.1.1.1 /\ (r.1.1.1 <> [] \/ is_Some r.1.1.2) /\ has_some_id r.2) (input_item json_parse random st item).
Proof using Type.
  clear json_dump.
  intros [I1 I2 _ _]. unfold input_item. draw_step. draw_step. draw_step; [|draw_step; [|draw_step; [|draw_step; [|draw_step]]]].
  - eapply draws_bind; [apply message_item_draws|]. intros [turn canonical] (Ht & H1 & H2 & H3 & H4 & H5). cbn in *. draw_steps. cbn. split_and!; [|left; by intros [_ ?]%app_nil|done].
    apply Forall_app. split; [done|]. apply Forall_singleton, with_reasoning_ok; try done. intros Hs. rewrite Hs in *. by destruct (bool_decide_reflect (turn_role turn = Assistant)).
  - draw_step. eapply draws_bind; [apply reasoning_item_draws|]. intros [text canonical] Hid. draw_steps. cbn. split_and!; [done|by right; eexists|done].
  - eapply draws_bind; [apply function_call_item_draws|]. intros [call canonical] [Hc Hid]. apply draws_ret. cbn. split_and!; [| |done].
    + match goal with |- context [match ?x with Some _ => _ | None => _ end] => destruct x as [[before turn]|] eqn:E end; [|apply Forall_app; split; [done|]; by apply Forall_singleton, new_call_ok].
      destruct (_ && _); [|done]. apply calling_turn_spec in E as (E & Ha & _). rewrite E in I1. apply Forall_app in I1 as [I1 It]. inversion It; subst.
      apply Forall_app. split; [done|]. by apply Forall_singleton, add_call_ok.
    + left. match goal with |- context [match ?x with Some _ => _ | None => _ end] => destruct x as [[]|] end; by intros [_ ?]%app_nil.
  - draw_step. eapply draws_bind; [apply function_call_output_item_draws|]. intros [turn canonical] [Ht Hid]. draw_steps. cbn. split_and!; [|left; by intros [_ ?]%app_nil|done].
    apply Forall_app. by rewrite Forall_singleton.
Qed.

Lemma input_loop_draws values : forall st, input_ok st ->
  draws (fun st' => input_ok st' /\ length (is_items st') = (length (is_items st) + length values)%nat) (input_loop json_parse random st values).
Proof using Type.
  clear json_dump.
  induction values as [|item values IH]; intros st Hst; cbn [input_loop]; [apply draws_ret; split; [done|cbn; lia]|].
  eapply draws_bind; [by apply input_item_draws|]. intros [[[turns pending] group] canonical] (Ht & Hs & id & Hid & Hn). cbn [fst snd] in Ht, Hs, Hid.
  eapply (draws_bind (fun i => i = id)); [by intros n; unfold canonical_id; rewrite Hid|]. intros ? ->. draw_step. case_bool_decide as Hin; [done|].
  destruct Hst as [_ _ I3 I4]. eapply draws_mono; [apply IH|].
  - split; cbn [is_turns is_items is_ids pending_reasoning]; [done|tauto| |by constructor]. rewrite reverse_snoc. by constructor.
  - intros st' [Hok Hlen]. split; [done|]. cbn in Hlen |- *. rewrite length_app in Hlen. cbn in Hlen. lia.
Qed.

(** The items have ids that are not empty, and no two the same. *)
Definition distinct_ids (items : list Json) : Prop := exists ids, Forall2 item_has_id items ids /\ NoDup ids.

Lemma input_values_parses input : parses_any (input_values input).
Proof. by destruct input. Qed.
#[local] Hint Resolve input_values_parses : parses.
Lemma parse_input_draws input : draws (fun r => Forall turn_ok r.1 /\ r.1 <> [] /\ distinct_ids r.2) (parse_input json_parse random input).
Proof using Type.
  clear json_dump.
  unfold parse_input. draw_step. draw_step. eapply draws_bind; [apply input_loop_draws; split; cbn; try done; [by left|constructor]|].
  intros st [[I1 I2 I3 I4] Hlen]. draw_step. apply draws_ret. cbn. case_bool_decide as Hv; [done|]. split; [done|]. split.
  - destruct I2 as [E|[E|[x E]]]; [|done|by rewrite E in *]. rewrite E in Hlen. by destruct a.
  - exists (reverse (is_ids st)). split; [|by rewrite reverse_Permutation]. rewrite <- (reverse_involutive (is_items st)). by apply Forall2_reverse.
Qed.
#[local] Hint Resolve parse_input_draws : draws.

Lemma response_tool_parses item : parses (fun t => valid_function_name (td_name t.1) 64 = true) (parse_response_tool json_dump item).
Proof.
  unfold parse_response_tool. do 3 parse_step. eapply (parses_bind (fun _ => True)); [by parse_steps|]. intros description _.
  eapply (parses_bind (fun _ => True)); [by parse_steps|]. intros parameters _. eapply (parses_bind (fun _ => True)); [by parse_steps|]. by intros _ _.
Qed.
Lemma response_tools_parses items : forall names, parses (fun l => Forall (fun t => valid_function_name (td_name t.1) 64 = true) l /\
  NoDup ((fun t => td_name t.1) <$> l) /\ forall t, t ∈ l -> td_name t.1 ∉ names) (response_tools json_dump names items).
Proof.
  induction items as [|item items IH]; intros names; cbn [response_tools]; [cbn; split; [done|]; split; [constructor|]; by intros t ?%not_elem_of_nil|].
  eapply parses_bind; [apply response_tool_parses|]. intros tool Ht. parse_step. case_bool_decide as Hin; [done|]. eapply parses_bind; [apply IH|].
  intros rest (H1 & H2 & H3). cbn. split; [by constructor|]. split.
  - constructor; [|done]. intros (t & Ht' & Hr)%list_elem_of_fmap. apply (H3 t Hr). rewrite <- Ht'. by left.
  - intros t [->|Hr]%elem_of_cons; [done|]. specialize (H3 t Hr). set_solver.
Qed.
Lemma response_tools_of_parses body : parses (fun l => Forall (fun t => valid_function_name (td_name t.1) 64 = true) l /\ NoDup ((fun t => td_name t.1) <$> l))
  (parse_response_tools json_dump body).
Proof.
  unfold parse_response_tools. destruct (present body _); [|cbn; split; constructor]. parse_step. eapply parses_mono; [apply response_tools_parses|]. by intros l (? & ? & _).
Qed.
Lemma response_tool_choice_parses body : parses (fun c => choice_mode c.1 = ChoiceAuto \/ choice_mode c.1 = ChoiceNone) (parse_response_tool_choice body).
Proof. unfold parse_response_tool_choice. parse_steps; cbn; auto. Qed.
Lemma reasoning_parses body : parses_any (parse_reasoning body).
Proof. unfold parse_reasoning. by parse_steps. Qed.
Lemma metadata_parses body : parses_any (validate_metadata body).
Proof. unfold validate_metadata. by parse_steps. Qed.
Lemma only_if_parses body key supported : parses_any (only_if body key supported).
Proof. unfold only_if. by parse_steps. Qed.
#[local] Hint Resolve only_if_parses : parses.
Lemma server_managed_parses body : parses_any (reject_server_managed_features body).
Proof.
  unfold reject_server_managed_features. do 4 parse_step. eapply (parses_bind (fun _ => True)); [eapply parses_bind; [apply get_int_parses|]; intros; by parse_steps|].
  intros _ _. do 3 parse_step. apply only_if_parses.
Qed.
Lemma unknown_parses body : parses_any (reject_unknown_top_level body).
Proof. unfold reject_unknown_top_level. by parse_steps. Qed.
Lemma optional_string_parses body key b : parses (fun s => b = false -> s <> Some []) (optional_string body key b).
Proof.
  unfold optional_string. destruct (present body key) as [[| | | | |s| |]|]; try done. parse_step. intros -> [= ->]. done.
Qed.
Lemma optional_number_parses body key : parses_any (optional_number body key).
Proof. unfold optional_number. parse_step. by parse_step. Qed.
Lemma optional_int_parses body key : parses (fun o => forall n, o = Some n -> n <= i32_max) (optional_int body key).
Proof. apply get_int_parses. Qed.
#[local] Hint Resolve response_tools_of_parses response_tool_choice_parses reasoning_parses metadata_parses server_managed_parses unknown_parses
  optional_string_parses optional_number_parses optional_int_parses preserve_thinking_parses : parses.

Record responses_ok (r : ResponsesRequest) : Prop := {
  ro_request : request_ok json_parse 64 (generation r);
  ro_turns : gr_messages (generation r) = input_turns r /\ input_turns r <> [];
  ro_items : distinct_ids (rr_input_items r);
  ro_tools : NoDup (td_name <$> gr_tools (generation r));
  ro_previous : previous_response_id r <> Some [];
  ro_max : max_tokens_set (generation r) = true -> 16 <= max_tokens (generation r);
}.

Lemma responses_request_draws body default_max_tokens : 0 < default_max_tokens <= i32_max ->
  draws responses_ok (parse_responses_request json_parse json_dump random body default_max_tokens).
Proof.
  intros Hd. unfold parse_responses_request, parse_request_impl. do 4 draw_step. eapply (draws_bind (fun _ => True)); [draw_steps; by parse_steps|]. intros input _.
  eapply draws_bind; [apply parse_input_draws|]. intros [turns items] (Ht & Hn & Hids). cbn [fst snd] in Ht, Hn, Hids. apply draws_lift.
  do 7 parse_step. destruct a8 as [choice choice_json]. do 3 parse_step. do 5 parse_step. apply parses_ret.
  assert (Hmax : forall m, a12 = Some m -> 16 <= m <= i32_max).
  { intros m ->. apply Z.ltb_ge in H17. auto. }
  destruct H8 as [Htools Hnames]. split; cbn; [|done|done|by rewrite <- list_fmap_compose|by apply H4|].
  - split; cbn; [done|done|by apply Forall_fmap|done| |constructor| |done].
    + cbn in H9. destruct H9 as [E|E]; split; rewrite E; done.
    + destruct a12 as [m|]; cbn; [|done]. specialize (Hmax m eq_refl). lia.
  - destruct a12 as [m|]; cbn; [|done]. intros _. by apply Hmax.
Qed.

(** C24: Whatever the body of a request of the Responses API, parsing it gives a request or reports an error of the client; no
    other exception is thrown.  The conversation of the request is its input: at least one turn, the calls of the
    assistant with ids, names of functions and objects as arguments, reasoning only with the assistant, media with a
    source.  The items of the input have ids, no two the same; the tools have names, no two the same; and a limit of
    tokens that was asked for is 16 or more. *)
Theorem responses_request_parsed body default_max_tokens n : 0 < default_max_tokens <= i32_max ->
  parses responses_ok (parse_responses_request json_parse json_dump random body default_max_tokens n).1.
Proof. intros Hd. by apply responses_request_draws. Qed.

(** ** Sending items again *)

(** The canonical form is an item of this type, on which the parser gives what it gave, and draws no id. *)
Definition replays {A} (type_ : string) (m : Json -> M nat (A * Json)) (item : Json) : Prop :=
  forall n v canonical n', m item n = (Ok (v, canonical), n') ->
  (is_object canonical = true /\ item_type canonical = Ok (bytes_of type_)) /\ forall k, m canonical k = (Ok (v, canonical), k).

Lemma wire_text_replays role type_ text : type_ = bytes_of "input_text" \/ type_ = bytes_of "output_text" ->
  (type_ = bytes_of "output_text" -> role = Assistant) -> message_part role (wire_text type_ text).2 = Ok (wire_text type_ text).
Proof.
  intros Ht Hr. assert (H : get_string (wire_text type_ text).2 (bytes_of "type") = Ok type_ /\ get_string (wire_text type_ text).2 (bytes_of "text") = Ok text).
  { destruct Ht as [-> | ->]; split; field_eq. }
  destruct H as [H1 H2]. unfold message_part. rewrite H1, H2. cbn [rbind]. destruct Ht as [-> | ->]; [done|]. by rewrite (Hr eq_refl).
Qed.
Lemma input_url_value kind type_ url p : input_url kind type_ url = Ok p -> source_value p = url.
Proof. unfold input_url. destruct (starts_with _ _); [by intros [= <-]|]. destruct (_ || _); [by intros [= <-]|done]. Qed.
Lemma image_part_replays p value url : get_nonempty value (bytes_of "image_url") = Ok url -> input_url CkImage (bytes_of "input_image") url = Ok p ->
  message_part User (json_object [(bytes_of "type", jstr "input_image"); (bytes_of "image_url", JString (source_value p)); (bytes_of "detail", jstr "auto")]) =
  Ok (p, json_object [(bytes_of "type", jstr "input_image"); (bytes_of "image_url", JString (source_value p)); (bytes_of "detail", jstr "auto")]).
Proof.
  intros Hu Hp. apply input_url_value in Hp as Hv. rewrite Hv. unfold get_nonempty in Hu. apply rbind_Ok in Hu as (u & _ & Hu). apply rbind_Ok in Hu as ([] & Hn & [= ->]).
  apply throw_if_Ok, bool_decide_eq_false in Hn. set (c := json_object _).
  assert (H : get_string c (bytes_of "type") = Ok (bytes_of "input_image") /\ parse_input_image c = Ok p).
  { split; [field_eq|]. unfold parse_input_image. change (present c (bytes_of "file_id")) with (@None Json). change (present c (bytes_of "detail")) with (Some (jstr "auto")).
    unfold get_nonempty. change (get_string c (bytes_of "image_url")) with (Ok url). cbn [is_some throw_if rbind]. rewrite bool_decide_false by done. exact Hp. }
  destruct H as [H1 H2]. unfold message_part. rewrite H1. cbn [rbind]. rewrite H2. cbn [rbind]. by rewrite Hv.
Qed.
Lemma video_part_replays p value url : get_nonempty value (bytes_of "video_url") = Ok url -> input_url CkVideo (bytes_of "input_video") url = Ok p ->
  message_part User (json_object [(bytes_of "type", jstr "input_video"); (bytes_of "video_url", JString (source_value p))]) =
  Ok (p, json_object [(bytes_of "type", jstr "input_video"); (bytes_of "video_url", JString (source_value p))]).
Proof.
  intros Hu Hp. apply input_url_value in Hp as Hv. rewrite Hv. unfold get_nonempty in Hu. apply rbind_Ok in Hu as (u & _ & Hu). apply rbind_Ok in Hu as ([] & Hn & [= ->]).
  apply throw_if_Ok, bool_decide_eq_false in Hn. set (c := json_object _).
  assert (H : get_string c (bytes_of "type") = Ok (bytes_of "input_video") /\ parse_input_video c = Ok p).
  { split; [field_eq|]. unfold parse_input_video, get_nonempty. change (get_string c (bytes_of "video_url")) with (Ok url). cbn [throw_if rbind].
    rewrite bool_decide_false by done. exact Hp. }
  destruct H as [H1 H2]. unfold message_part. rewrite H1. cbn [rbind]. rewrite H2. cbn [rbind]. by rewrite Hv.
Qed.
Lemma message_part_replays role value p c : message_part role value = Ok (p, c) -> message_part role c = Ok (p, c).
Proof.
  intros H. unfold message_part in H. apply rbind_Ok in H as (type_ & _ & H). destruct (bool_decide (type_ = bytes_of "input_text") || _) eqn:Ht.
  { apply rbind_Ok in H as (text & _ & H). apply rbind_Ok in H as ([] & Hr & H). apply throw_if_Ok in Hr.
    assert (Hw : wire_text type_ text = (p, c)) by exact (f_equal (fun r => match r with Ok x => x | Err _ => (p, c) end) H). change c with (p, c).2 at 1. rewrite <- Hw. apply wire_text_replays.
    - by apply orb_true_iff in Ht as [Ht%bool_decide_eq_true|Ht%bool_decide_eq_true]; auto.
    - intros ->. rewrite bool_decide_true in Hr by done. cbn in Hr. apply negb_false_iff in Hr. by apply bool_decide_eq_true in Hr. }
  destruct (bool_decide_reflect (type_ = bytes_of "input_image")) as [_|_].
  { apply rbind_Ok in H as ([] & Hr & H). apply throw_if_Ok, negb_false_iff, bool_decide_eq_true in Hr as ->. apply rbind_Ok in H as (q & Hq & [= -> <-]).
    unfold parse_input_image in Hq. apply rbind_Ok in Hq as ([] & _ & Hq). apply rbind_Ok in Hq as (url & Hu & Hq). apply rbind_Ok in Hq as ([] & _ & Hq). by eapply image_part_replays. }
  destruct (bool_decide_reflect (type_ = bytes_of "input_video")) as [_|_]; [|done].
  apply rbind_Ok in H as ([] & Hr & H). apply throw_if_Ok, negb_false_iff, bool_decide_eq_true in Hr as ->. apply rbind_Ok in H as (q & Hq & [= -> <-]).
  unfold parse_input_video in Hq. apply rbind_Ok in Hq as (url & Hu & Hq). by eapply video_part_replays.
Qed.
Lemma message_parts_replay role values : forall parts, rmapM (message_part role) values = Ok parts -> rmapM (message_part role) parts.*2 = Ok parts.
Proof.
  induction values as [|v values IH]; intros parts H; cbn [rmapM] in H; [by injection H as <-|].
  apply rbind_Ok in H as ([p c] & Hp & H). apply rbind_Ok in H as (rest & Hrest & [= <-]). cbn [fmap list_fmap snd rmapM].
  rewrite (message_part_replays _ _ _ _ Hp). cbn [rbind]. by rewrite (IH _ Hrest).
Qed.
Lemma message_content_replays role item parts : parse_message_content role item = Ok parts -> rmapM (message_part role) parts.*2 = Ok parts /\ parts <> [].
Proof.
  unfold parse_message_content. destruct (present item _) as [[| | | | |text|values|]|]; try done.
  - intros [= <-]. split; [|done]. cbn [fmap list_fmap rmapM]. rewrite wire_text_replays; [done| |]; case_bool_decide; auto. done.
  - intros H. apply rbind_Ok in H as (ps & Hps & H). apply rbind_Ok in H as ([] & Hn & [= <-]). apply throw_if_Ok, bool_decide_eq_false in Hn. split; [by eapply message_parts_replay|done].
Qed.

(** Inversion of the runs of these parsers, which leaves their results alone. *)
Lemma ret_pair {S A B} (a v : A) (b w : B) (s s' : S) : mret_ (a, b) s = (Ok (v, w), s') -> v = a /\ w = b.
Proof. by intros [= -> -> _]. Qed.
Lemma lift_Ok {S A} (r : result A) (a : A) (s s' : S) : mlift r s = (Ok a, s') -> r = Ok a.
Proof. by intros [= -> _]. Qed.

Lemma check_completed_ok item : present item (bytes_of "status") = None \/ present item (bytes_of "status") = Some (jstr "completed") -> check_completed item = Ok tt.
Proof. unfold check_completed. by intros [-> | ->]. Qed.

Lemma given_id item id prefix k : json_field item (bytes_of "id") = Some (JString id) -> id <> [] -> item_id random item prefix k = (Ok id, k).
Proof. intros H Hn. by apply item_id_given. Qed.
Lemma drawn_id item prefix n id n' : item_id random item prefix n = (Ok id, n') -> id <> [].
Proof. intros H. pose proof (item_id_draws random item prefix n) as Hd. by rewrite H in Hd. Qed.

Lemma message_item_replays item : replays "message" (parse_message_item random) item.
Proof.
  intros n v c n' H. unfold parse_message_item in H. apply mbind_Ok in H as (role & s1 & Hrole%lift_Ok & H). apply mbind_Ok in H as (r & s2 & Hr%lift_Ok & H).
  do 2 apply mbind_Ok in H as (? & ? & _ & H). apply mbind_Ok in H as (parts & s3 & Hparts%lift_Ok & H). apply mbind_Ok in H as (id & s4 & Hid%drawn_id & H).
  apply ret_pair in H as [-> Hc]. split; [rewrite Hc; split; field_eq|]. intros k. apply message_content_replays in Hparts as [Hparts Hne].
  assert (Hf : get_string c (bytes_of "role") = Ok role /\ present c (bytes_of "phase") = None /\ present c (bytes_of "status") = None /\
    present c (bytes_of "content") = Some (JArray parts.*2) /\ json_field c (bytes_of "id") = Some (JString id)) by (rewrite Hc; split_and!; field_eq).
  destruct Hf as (F1 & F2 & F3 & F4 & F5). unfold parse_message_item, mbind_, mthrow_if, mlift. rewrite F1, Hr, F2, check_completed_ok by auto.
  unfold parse_message_content. rewrite F4, Hparts. cbn [rbind is_some throw_if mlift]. rewrite bool_decide_false by done. cbn [rbind throw_if].
  rewrite (given_id _ _ _ _ F5 Hid). unfold mret_. by rewrite Hc.
Qed.
Lemma reasoning_parts_replay texts : rmapM reasoning_part (reasoning_text_part <$> texts) = Ok texts.
Proof.
  induction texts as [|t texts IH]; [done|]. cbn [fmap list_fmap rmapM].
  assert (H : reasoning_part (reasoning_text_part t) = Ok t) by field_eq. rewrite H. cbn [rbind]. change (list_fmap _ _ reasoning_text_part texts) with (reasoning_text_part <$> texts). by rewrite IH.
Qed.
Lemma reasoning_item_replays item : replays "reasoning" (parse_reasoning_item random) item.
Proof.
  intros n v c n' H. unfold parse_reasoning_item in H. do 2 apply mbind_Ok in H as (? & ? & _ & H). apply mbind_Ok in H as (content & s1 & _ & H).
  apply mbind_Ok in H as (texts & s2 & _ & H). apply mbind_Ok in H as (id & s4 & Hid%drawn_id & H). apply ret_pair in H as [-> Hc]. split; [rewrite Hc; split; field_eq|]. intros k.
  assert (Hf : present c (bytes_of "encrypted_content") = None /\ present c (bytes_of "summary") = Some (JArray []) /\
    json_field c (bytes_of "content") = Some (JArray (reasoning_text_part <$> texts)) /\ json_field c (bytes_of "id") = Some (JString id)) by (rewrite Hc; split_and!; field_eq).
  destruct Hf as (F1 & F2 & F3 & F4). unfold parse_reasoning_item, mbind_, mthrow_if, mlift. rewrite F1, F2, F3, reasoning_parts_replay. cbn [is_some throw_if mlift].
  rewrite bool_decide_true by done. cbn [negb throw_if]. rewrite (given_id _ _ _ _ F4 Hid). unfold mret_. by rewrite Hc.
Qed.
Lemma get_nonempty_Ok item key s : get_nonempty item key = Ok s -> s <> [].
Proof. intros H. pose proof (get_nonempty_parses item key) as Hp. by rewrite H in Hp. Qed.
Lemma get_nonempty_string item key s : get_string item key = Ok s -> s <> [] -> get_nonempty item key = Ok s.
Proof. intros H Hn. unfold get_nonempty. rewrite H. cbn [rbind]. by rewrite bool_decide_false. Qed.
Lemma function_name_replays item c name : require_function_name 64 item = Ok name -> get_string c (bytes_of "name") = Ok name -> require_function_name 64 c = Ok name.
Proof. intros H Hc. pose proof (function_name_parses 64 item) as Hp. rewrite H in Hp. cbn in Hp. unfold require_function_name. rewrite Hc. cbn [rbind]. by rewrite Hp. Qed.
Lemma function_call_item_replays item : replays "function_call" (parse_function_call_item json_parse random) item.
Proof.
  intros n v c n' H. unfold parse_function_call_item in H. apply mbind_Ok in H as (call_id & s1 & Hcall%lift_Ok & H). apply mbind_Ok in H as (name & s2 & Hname%lift_Ok & H).
  apply mbind_Ok in H as (arguments & s3 & _ & H). apply mbind_Ok in H as ([] & s4 & Hargs%lift_Ok & H). apply mbind_Ok in H as (? & ? & _ & H).
  apply mbind_Ok in H as (id & s5 & Hid%drawn_id & H). cbv zeta in H. apply ret_pair in H as [-> Hc]. split; [rewrite Hc; split; field_eq|]. intros k.
  assert (Hf : get_string c (bytes_of "call_id") = Ok call_id /\ get_string c (bytes_of "name") = Ok name /\ get_string c (bytes_of "arguments") = Ok arguments /\
    present c (bytes_of "status") = Some (jstr "completed") /\ json_field c (bytes_of "id") = Some (JString id)) by (rewrite Hc; split_and!; field_eq).
  destruct Hf as (F1 & F2 & F3 & F4 & F5). unfold parse_function_call_item, mbind_, mthrow_if, mlift.
  rewrite (get_nonempty_string _ _ _ F1) by (by eapply get_nonempty_Ok). rewrite (function_name_replays _ _ _ Hname F2), F3, Hargs, check_completed_ok by auto.
  cbv iota beta. rewrite (given_id _ _ _ _ F5 Hid). unfold mret_. by rewrite Hc.
Qed.
Lemma function_call_output_item_replays item : replays "function_call_output" (parse_function_call_output_item random) item.
Proof.
  intros n v c n' H. unfold parse_function_call_output_item in H. apply mbind_Ok in H as (call_id & s1 & Hcall%lift_Ok & H). apply mbind_Ok in H as (output & s2 & _ & H).
  apply mbind_Ok in H as (? & ? & _ & H). apply mbind_Ok in H as (id & s5 & Hid%drawn_id & H). apply ret_pair in H as [-> Hc]. split; [rewrite Hc; split; field_eq|]. intros k.
  assert (Hf : get_string c (bytes_of "call_id") = Ok call_id /\ get_string c (bytes_of "output") = Ok output /\
    present c (bytes_of "status") = Some (jstr "completed") /\ json_field c (bytes_of "id") = Some (JString id)) by (rewrite Hc; split_and!; field_eq).
  destruct Hf as (F1 & F2 & F3 & F4). unfold parse_function_call_output_item, mbind_, mlift.
  rewrite (get_nonempty_string _ _ _ F1) by (by eapply get_nonempty_Ok). rewrite F2, check_completed_ok by auto. cbv iota beta. rewrite (given_id _ _ _ _ F4 Hid). unfold mret_. by rewrite Hc.
Qed.

Lemma replays_item {A} (type_ : string) (m : Json -> M nat (A * Json)) item n v c n' : replays type_ m item -> m item n = (Ok (v, c), n') ->
  is_object c = true /\ item_type c = Ok (bytes_of type_) /\ forall k, m c k = (Ok (v, c), k).
Proof. intros H Hm. by destruct (H _ _ _ _ Hm) as [[??]?]. Qed.

Lemma input_item_replays st item n turns pending group c n' : input_item json_parse random st item n = (Ok (turns, pending, group, c), n') ->
  forall k, input_item json_parse random st c k = (Ok (turns, pending, group, c), k).
Proof.
  intros H k. unfold input_item in H. apply mbind_Ok in H as ([] & s1 & _ & H). apply mbind_Ok in H as (type_ & s2 & _ & H).
  destruct (bool_decide (type_ = bytes_of "message")); [|destruct (bool_decide (type_ = bytes_of "reasoning")); [|destruct (bool_decide (type_ = bytes_of "function_call"));
    [|destruct (bool_decide (type_ = bytes_of "function_call_output")); [|done]]]].
  - apply mbind_Ok in H as ([turn canonical] & s3 & Hm & H). apply mbind_Ok in H as ([] & s4 & Hp%lift_Ok & H). apply ret_pair in H as [[= -> -> ->] ->].
    apply (replays_item "message") in Hm as (H1 & H2 & H3); [|apply message_item_replays]. unfold input_item, mbind_, mthrow_if, mlift. rewrite H1, H2. cbn [negb throw_if].
    cbv iota beta. change (bool_decide (bytes_of "message" = bytes_of "message")) with true. cbv iota beta. rewrite H3. cbv iota beta. by rewrite Hp.
  - apply mbind_Ok in H as ([] & s4 & Hp%lift_Ok & H). apply mbind_Ok in H as ([text canonical] & s3 & Hm & H). apply ret_pair in H as [[= -> -> ->] ->].
    apply (replays_item "reasoning") in Hm as (H1 & H2 & H3); [|apply reasoning_item_replays]. unfold input_item, mbind_, mthrow_if, mlift. rewrite H1, H2. cbn [negb throw_if].
    cbv iota beta. change (bool_decide (bytes_of "reasoning" = _)) with false at 1. change (bool_decide (bytes_of "reasoning" = bytes_of "reasoning")) with true.
    cbv iota beta. rewrite Hp. cbv iota beta. by rewrite H3.
  - apply mbind_Ok in H as ([call canonical] & s3 & Hm & H). apply ret_pair in H as [[= -> -> ->] ->].
    apply (replays_item "function_call") in Hm as (H1 & H2 & H3); [|apply function_call_item_replays]. unfold input_item, mbind_, mthrow_if, mlift. rewrite H1, H2. cbn [negb throw_if].
    cbv iota beta. change (bool_decide (bytes_of "function_call" = bytes_of "message")) with false. change (bool_decide (bytes_of "function_call" = bytes_of "reasoning")) with false.
    change (bool_decide (bytes_of "function_call" = bytes_of "function_call")) with true. cbv iota beta. by rewrite H3.
  - apply mbind_Ok in H as ([] & s4 & Hp%lift_Ok & H). apply mbind_Ok in H as ([turn canonical] & s3 & Hm & H). apply ret_pair in H as [[= -> -> ->] ->].
    apply (replays_item "function_call_output") in Hm as (H1 & H2 & H3); [|apply function_call_output_item_replays]. unfold input_item, mbind_, mthrow_if, mlift.
    rewrite H1, H2. cbn [negb throw_if]. cbv iota beta. change (bool_decide (bytes_of "function_call_output" = bytes_of "message")) with false.
    change (bool_decide (bytes_of "function_call_output" = bytes_of "reasoning")) with false. change (bool_decide (bytes_of "function_call_output" = bytes_of "function_call")) with false.
    change (bool_decide (bytes_of "function_call_output" = bytes_of "function_call_output")) with true. cbv iota beta. rewrite Hp. cbv iota beta. by rewrite H3.
Qed.

Lemma input_loop_replays values : forall st n st' n', input_loop json_parse random st values n = (Ok st', n') ->
  exists items, is_items st' = is_items st ++ items /\ forall k, input_loop json_parse random st items k = (Ok st', k).
Proof.
  induction values as [|item values IH]; intros st n st' n' H; cbn [input_loop] in H; [injection H as <- _; exists []; by rewrite app_nil_r|].
  apply mbind_Ok in H as ([[[turns pending] group] canonical] & s1 & Hitem & H). apply mbind_Ok in H as (id & s2 & Hid & H). apply mbind_Ok in H as ([] & s3 & Hd%lift_Ok & H).
  apply IH in H as (items & Hi & Hr). exists (canonical :: items). cbn [is_items] in Hi. rewrite <- app_assoc in Hi. split; [done|]. intros k. cbn [input_loop].
  unfold mbind_. rewrite (input_item_replays _ _ _ _ _ _ _ _ Hitem). assert (Hc : canonical_id canonical k = (Ok id, k)).
  { unfold canonical_id in *. destruct (json_field canonical (bytes_of "id")) as [[]|]; try done. unfold mret_ in *. congruence. }
  rewrite Hc. unfold mthrow_if, mlift. rewrite Hd. by rewrite Hr.
Qed.

(** The items of an input, which the server gives back under the response's id, can be sent as the input of another
    request: they stand for the same turns, are their own canonical forms, and keep their ids. *)
Theorem input_items_replayed input n turns items n' : parse_input json_parse random input n = (Ok (turns, items), n') ->
  forall k, parse_input json_parse random (JArray items) k = (Ok (turns, items), k).
Proof.
  intros H k. unfold parse_input in H. apply mbind_Ok in H as (values & s1 & Hv%lift_Ok & H). apply mbind_Ok in H as ([] & s2 & Hn%lift_Ok & H).
  apply mbind_Ok in H as (st & s3 & Hloop & H). apply mbind_Ok in H as ([] & s4 & Hp%lift_Ok & H). apply ret_pair in H as [-> Hi].
  pose proof (input_loop_draws values input_init) as Hd. destruct (input_loop_replays _ _ _ _ _ Hloop) as (items' & Hi' & Hr). cbn [input_init is_items app] in Hi'.
  assert (Hlen : length items = length values).
  { assert (Hok : input_ok input_init) by (split; cbn; [constructor|by left|constructor|constructor]). specialize (Hd Hok s2). rewrite Hloop in Hd. destruct Hd as [_ Hd]. by rewrite <- Hi in Hd. }
  unfold parse_input, mbind_, mthrow_if, mlift. cbn [input_values]. rewrite Hi' in Hi. subst items'. apply throw_if_Ok, bool_decide_eq_false in Hn.
  rewrite bool_decide_false by (intros ->; by destruct values). cbn [throw_if]. rewrite Hr. cbv iota beta. rewrite Hp. unfold mret_. by rewrite Hi'.
Qed.

(** ** Sending an output again *)

Lemma input_loop_step st item values turns pending group c id k : input_item json_parse random st item k = (Ok (turns, pending, group, c), k) ->
  json_field c (bytes_of "id") = Some (JString id) -> id ∉ is_ids st ->
  input_loop json_parse random st (item :: values) k =
  input_loop json_parse random (mkInputState turns (is_items st ++ [c]) pending group (id :: is_ids st)) values k.
Proof.
  intros H Hid Hn. cbn [input_loop]. unfold mbind_ at 1. rewrite H. unfold canonical_id, mthrow_if. rewrite Hid. unfold mbind_, mret_, mlift. by rewrite bool_decide_false.
Qed.

(** The items of an output are read as what they show. *)
Lemma reasoning_item_read st id status text k : id <> [] -> pending_reasoning st = None -> exists c,
  input_item json_parse random st (reasoning_item id status [reasoning_text_part text]) k = (Ok (is_turns st, Some text, false, c), k) /\
  json_field c (bytes_of "id") = Some (JString id).
Proof.
  intros Hid Hp. set (item := reasoning_item _ _ _).
  assert (Hf : is_object item = true /\ item_type item = Ok (bytes_of "reasoning") /\ present item (bytes_of "encrypted_content") = None /\
    present item (bytes_of "summary") = Some (JArray []) /\ json_field item (bytes_of "content") = Some (JArray (reasoning_text_part <$> [text])) /\
    json_field item (bytes_of "id") = Some (JString id)) by (split_and!; field_eq).
  destruct Hf as (F1 & F2 & F3 & F4 & F5 & F6). unfold input_item, mbind_, mthrow_if, mlift. rewrite F1, F2, Hp. cbn [negb throw_if is_some]. cbv iota beta.
  change (bool_decide (bytes_of "reasoning" = bytes_of "message")) with false. change (bool_decide (bytes_of "reasoning" = bytes_of "reasoning")) with true. cbv iota beta.
  unfold parse_reasoning_item, mbind_, mthrow_if, mlift. rewrite F3, F4, F5, reasoning_parts_replay. cbn [is_some throw_if]. rewrite bool_decide_true by done. cbn [negb throw_if].
  rewrite (given_id _ _ _ _ F6 Hid). unfold mret_. cbn [concat]. rewrite app_nil_r. eexists. split; [reflexivity|]. field_eq.
Qed.
Definition text_turn (text reasoning : list Z) : ChatTurn :=
  mkTurn Assistant [mkContentPart CkText text (bytes_of "output_text") SourcePath [] [] []] [] [] reasoning.
Lemma message_item_read st id text k : id <> [] -> exists c,
  input_item json_parse random st (message_item id (bytes_of "completed") [output_text_part text]) k =
    (Ok (is_turns st ++ [text_turn text (default [] (pending_reasoning st))], None, false, c), k) /\
  json_field c (bytes_of "id") = Some (JString id).
Proof.
  intros Hid. set (item := message_item _ _ _).
  assert (Hf : is_object item = true /\ item_type item = Ok (bytes_of "message") /\ get_string item (bytes_of "role") = Ok (bytes_of "assistant") /\
    present item (bytes_of "phase") = None /\ present item (bytes_of "status") = Some (jstr "completed") /\
    present item (bytes_of "content") = Some (JArray [(wire_text (bytes_of "output_text") text).2]) /\ json_field item (bytes_of "id") = Some (JString id)) by (split_and!; field_eq).
  destruct Hf as (F1 & F2 & F3 & F4 & F5 & F6 & F7). unfold input_item, mbind_, mthrow_if, mlift. rewrite F1, F2. cbn [negb throw_if is_some]. cbv iota beta.
  change (bool_decide (bytes_of "message" = bytes_of "message")) with true. cbv iota beta.
  unfold parse_message_item, mbind_, mthrow_if, mlift. rewrite F3, F4, check_completed_ok by auto. change (parse_item_role (bytes_of "assistant")) with (Ok Assistant).
  unfold parse_message_content. rewrite F6. cbn [rmapM is_some throw_if]. rewrite wire_text_replays by auto. cbn [rbind]. rewrite bool_decide_false by done. cbn [throw_if rbind].
  rewrite (given_id _ _ _ _ F7 Hid). unfold mret_. cbn [turn_role]. rewrite (bool_decide_true (Assistant = Assistant)) by done. rewrite andb_false_r. cbn [throw_if].
  eexists. split; [reflexivity|]. field_eq.
Qed.
Lemma function_call_read st id call k : id <> [] -> call_ok call -> exists c,
  input_item json_parse random st (function_call_json id (bytes_of "completed") call (arguments_json call)) k =
    (Ok (match (if can_group_function_calls st && negb (is_some (pending_reasoning st)) then calling_turn (is_turns st) else None) with
         | Some (before, turn) => before ++ [add_call turn call]
         | None => is_turns st ++ [mkTurn Assistant [] [call] [] (default [] (pending_reasoning st))]
         end, None, true, c), k) /\
  json_field c (bytes_of "id") = Some (JString id).
Proof.
  intros Hid (Hc1 & Hc2 & items & Hc3). set (item := function_call_json _ _ _ _).
  assert (Hf : is_object item = true /\ item_type item = Ok (bytes_of "function_call") /\ get_string item (bytes_of "call_id") = Ok (tc_id call) /\
    get_string item (bytes_of "name") = Ok (tc_name call) /\ get_string item (bytes_of "arguments") = Ok (arguments_json call) /\
    present item (bytes_of "status") = Some (jstr "completed") /\ json_field item (bytes_of "id") = Some (JString id)) by (split_and!; field_eq).
  destruct Hf as (F1 & F2 & F3 & F4 & F5 & F6 & F7). unfold input_item, mbind_, mthrow_if, mlift. rewrite F1, F2. cbn [negb throw_if]. cbv iota beta.
  change (bool_decide (bytes_of "function_call" = bytes_of "message")) with false. change (bool_decide (bytes_of "function_call" = bytes_of "reasoning")) with false.
  change (bool_decide (bytes_of "function_call" = bytes_of "function_call")) with true. cbv iota beta.
  unfold parse_function_call_item, require_function_name, mbind_, mthrow_if, mlift. rewrite (get_nonempty_string _ _ _ F3 Hc1), F4, F5, check_completed_ok by auto. cbn [rbind].
  rewrite Hc2, Hc3. cbn [negb throw_if rbind]. rewrite (given_id _ _ _ _ F7 Hid). unfold mret_. destruct call. eexists. split; [reflexivity|]. field_eq.
Qed.

Definition call_item (call : ToolCall) (item : Json) : Prop :=
  exists id, item = function_call_json id (bytes_of "completed") call (arguments_json call).
(** The ids of the items of an output. *)
Lemma has_id_inv item id id' : json_field item (bytes_of "id") = Some (JString id) -> item_has_id item id' -> id' = id /\ id <> [].
Proof. intros E [H Hn]. rewrite E in H. injection H as ->. done. Qed.
Lemma call_item_id call id id' : item_has_id (function_call_json id (bytes_of "completed") call (arguments_json call)) id' -> id' = id /\ id <> [].
Proof. apply has_id_inv. field_eq. Qed.
Lemma message_item_id id status content id' : item_has_id (message_item id status content) id' -> id' = id /\ id <> [].
Proof. apply has_id_inv. field_eq. Qed.
Lemma reasoning_item_id id status content id' : item_has_id (reasoning_item id status content) id' -> id' = id /\ id <> [].
Proof. apply has_id_inv. field_eq. Qed.
Lemma calling_turn_last before t : turn_role t = Assistant -> turn_content t = [] -> turn_tool_calls t <> [] -> calling_turn (before ++ [t]) = Some (before, t).
Proof.
  intros H1 H2 H3. unfold calling_turn. rewrite last_snoc, !bool_decide_true by done. rewrite bool_decide_false by done. cbn [andb negb].
  rewrite length_app. cbn [length]. by rewrite Nat.add_sub, take_app_length.
Qed.

(** Calls that follow a call are grouped with it. *)
Lemma calls_read calls : forall items ids st before t k, Forall call_ok calls -> Forall2 call_item calls items -> Forall2 item_has_id items ids -> NoDup ids ->
  (forall id, id ∈ ids -> id ∉ is_ids st) -> is_turns st = before ++ [t] -> turn_role t = Assistant -> turn_content t = [] -> turn_tool_calls t <> [] ->
  can_group_function_calls st = true -> pending_reasoning st = None ->
  exists st', input_loop json_parse random st items k = (Ok st', k) /\ pending_reasoning st' = None /\
    is_turns st' = before ++ [mkTurn Assistant [] (turn_tool_calls t ++ calls) (turn_tool_call_id t) (turn_reasoning t)].
Proof.
  induction calls as [|call calls IH]; intros items ids st before t k Hok Hi Hids Hn Hd Ht Ha Hc Htc Hg Hp.
  - inversion Hi; subst. exists st. split; [done|]. split; [done|]. rewrite app_nil_r, Ht. destruct t; cbn in *; by subst.
  - inversion Hi as [|? item ? items' (id & Hitem) Hi']; subst. inversion Hids as [|? id' ? ids' Hid Hids']; subst. apply call_item_id in Hid as [-> Hid].
    apply Forall_cons in Hok as [Hcall Hok]. apply NoDup_cons in Hn as [Hnin Hn].
    destruct (function_call_read st id call k Hid Hcall) as (c & Hread & Hcid). rewrite Hg, Hp in Hread. cbn [andb negb is_some] in Hread.
    rewrite Ht, calling_turn_last in Hread by done. rewrite (input_loop_step _ _ _ _ _ _ _ _ _ Hread Hcid) by (apply Hd; by left).
    destruct (IH items' ids' (mkInputState (before ++ [add_call t call]) (is_items st ++ [c]) None true (id :: is_ids st)) before (add_call t call) k) as (st' & H1 & H2 & H3); try done.
    + intros i Hin. cbn. apply not_elem_of_cons. split; [by intros ->|]. apply Hd. by right.
    + cbn. by intros [_ ?]%app_nil.
    + exists st'. split; [done|]. split; [done|]. rewrite H3. cbn. by rewrite <- app_assoc.
Qed.
Lemma first_call_read calls items ids st k : calls <> [] -> Forall call_ok calls -> Forall2 call_item calls items -> Forall2 item_has_id items ids -> NoDup ids ->
  (forall id, id ∈ ids -> id ∉ is_ids st) -> can_group_function_calls st = false ->
  exists st', input_loop json_parse random st items k = (Ok st', k) /\ pending_reasoning st' = None /\
    is_turns st' = is_turns st ++ [mkTurn Assistant [] calls [] (default [] (pending_reasoning st))].
Proof.
  intros Hne Hok Hi Hids Hn Hd Hg. destruct calls as [|call calls]; [done|].
  inversion Hi as [|? item ? items' (id & Hitem) Hi']; subst. inversion Hids as [|? id' ? ids' Hid Hids']; subst. apply call_item_id in Hid as [-> Hid].
  apply Forall_cons in Hok as [Hcall Hok]. apply NoDup_cons in Hn as [Hnin Hn].
  destruct (function_call_read st id call k Hid Hcall) as (c & Hread & Hcid). rewrite Hg in Hread. cbn [andb] in Hread.
  rewrite (input_loop_step _ _ _ _ _ _ _ _ _ Hread Hcid) by (apply Hd; by left).
  set (first := mkTurn Assistant [] [call] [] (default [] (pending_reasoning st))) in *.
  destruct (calls_read calls items' ids' (mkInputState (is_turns st ++ [first]) (is_items st ++ [c]) None true (id :: is_ids st)) (is_turns st) first k)
    as (st' & H1 & H2 & H3); try done.
  - intros i Hin. cbn. apply not_elem_of_cons. split; [by intros ->|]. apply Hd. by right.
  - exists st'. split; [exact H1|]. by split.
Qed.

Lemma call_items_spec calls : forall ids n items n', call_items random ids calls n = (Ok items, n') -> Forall2 call_item calls items.
Proof.
  induction calls as [|call calls IH]; intros ids n items n' H; cbn [call_items] in H; [injection H as <- _; constructor|].
  apply mbind_Ok in H as (id & s1 & _ & H). apply mbind_Ok in H as (rest & s2 & Hrest & H). injection H as <- _. constructor; [by exists id|by eapply IH].
Qed.
(** The output: the items of the reasoning, the message and the calls. *)
Lemma build_response_spec id created request runtime outcome ids now n built n' :
  build_response random id created request runtime outcome ids now n = (Ok built, n') ->
  exists rid mid calls,
    output_items built = (if bool_decide (out_reasoning outcome = []) then [] else [reasoning_item rid (reasoning_status outcome) [reasoning_text_part (out_reasoning outcome)]]) ++
      (if needs_message outcome then [message_item mid (item_status outcome) [output_text_part (out_text outcome)]] else []) ++ calls /\
    Forall2 call_item (out_tool_calls outcome) calls /\ output_history built = [assistant_history outcome] /\
    json_field (body built) (bytes_of "output") = Some (JArray (output_items built)).
Proof.
  intros H. unfold build_response in H. apply mbind_Ok in H as (reasoning & s1 & Hr & H). apply mbind_Ok in H as (message & s2 & Hm & H).
  apply mbind_Ok in H as (calls & s3 & Hc & H). cbv zeta in H. unfold mret_ in H. injection H as <- _. cbn [output_items output_history body].
  assert (Hr' : exists rid, reasoning = if bool_decide (out_reasoning outcome = []) then [] else [reasoning_item rid (reasoning_status outcome) [reasoning_text_part (out_reasoning outcome)]]).
  { destruct (bool_decide _); [injection Hr as <- _; by exists []|]. apply mbind_Ok in Hr as (rid & s4 & _ & Hr). injection Hr as <- _. by exists rid. }
  assert (Hm' : exists mid, message = if needs_message outcome then [message_item mid (item_status outcome) [output_text_part (out_text outcome)]] else []).
  { destruct (needs_message outcome); [|injection Hm as <- _; by exists []]. apply mbind_Ok in Hm as (mid & s4 & _ & Hm). injection Hm as <- _. by exists mid. }
  destruct Hr' as [rid ->], Hm' as [mid ->]. exists rid, mid, calls. split_and!; [done|by eapply call_items_spec|done|].
  reflexivity.
Qed.

(** The turns that an output is read as: text and calls are turns of their own. *)
Definition replayed_turns (outcome : GenerationOutcome) : list ChatTurn :=
  let text := text_turn (out_text outcome) (out_reasoning outcome) in
  if bool_decide (out_tool_calls outcome = []) then [text]
  else if bool_decide (out_text outcome = []) then [mkTurn Assistant [] (out_tool_calls outcome) [] (out_reasoning outcome)]
  else [text; mkTurn Assistant [] (out_tool_calls outcome) [] []].

Lemma distinct_split items ids a b : Forall2 item_has_id items ids -> items = a ++ b -> exists i j, ids = i ++ j /\ Forall2 item_has_id a i /\ Forall2 item_has_id b j.
Proof. intros H ->. apply Forall2_app_inv_l in H as (i & j & H1 & H2 & ->). by exists i, j. Qed.

(** The message and the calls, when this reasoning waits. *)
Lemma output_tail_read outcome mid calls ids st k : response_status (out_finish_reason outcome) = bytes_of "completed" -> Forall call_ok (out_tool_calls outcome) ->
  Forall2 call_item (out_tool_calls outcome) calls ->
  Forall2 item_has_id ((if needs_message outcome then [message_item mid (item_status outcome) [output_text_part (out_text outcome)]] else []) ++ calls) ids -> NoDup ids ->
  (forall id, id ∈ ids -> id ∉ is_ids st) -> is_turns st = [] -> can_group_function_calls st = false -> default [] (pending_reasoning st) = out_reasoning outcome ->
  exists st', input_loop json_parse random st ((if needs_message outcome then [message_item mid (item_status outcome) [output_text_part (out_text outcome)]] else []) ++ calls) k
      = (Ok st', k) /\ pending_reasoning st' = None /\ is_turns st' = replayed_turns outcome.
Proof.
  intros Hs Hok Hc Hids Hn Hd Ht Hg Hp. unfold item_status, replayed_turns in *. rewrite Hs in *. rewrite bool_decide_true in * by done. rewrite <- Hp.
  destruct (bool_decide_reflect (out_tool_calls outcome = [])) as [E|E].
  - unfold needs_message in *. rewrite (bool_decide_true (out_tool_calls outcome = [])), orb_true_r in * by done. rewrite E in Hc. inversion Hc; subst calls. cbn [app] in *.
    inversion Hids as [|? id ? ids' Hid Hnil]; subst. apply message_item_id in Hid as [Em Hne].
    subst id. destruct (message_item_read st mid (out_text outcome) k Hne) as (c & Hread & Hcid). rewrite (input_loop_step _ _ _ _ _ _ _ _ _ Hread Hcid) by (apply Hd; by left).
    eexists. split; [reflexivity|]. cbn [pending_reasoning is_turns]. by rewrite Ht.
  - destruct (bool_decide_reflect (out_text outcome = [])) as [Et|Et].
    + assert (Hm : needs_message outcome = false) by (unfold needs_message; rewrite Et; by rewrite bool_decide_true, bool_decide_false). rewrite Hm in *. cbn [app] in *.
      destruct (first_call_read (out_tool_calls outcome) calls ids st k) as (st' & H1 & H2 & H3); try done. exists st'. split; [done|]. split; [done|]. by rewrite H3, Ht.
    + assert (Hm : needs_message outcome = true) by (unfold needs_message; by rewrite (bool_decide_false (out_text outcome = []))). rewrite Hm in *. cbn [app] in *.
      inversion Hids as [|? id ? ids' Hid Hids']; subst. apply message_item_id in Hid as [Em Hne].
      subst id. apply NoDup_cons in Hn as [Hnin Hn]. destruct (message_item_read st mid (out_text outcome) k Hne) as (c & Hread & Hcid).
      rewrite (input_loop_step _ _ _ _ _ _ _ _ _ Hread Hcid) by (apply Hd; by left).
      destruct (first_call_read (out_tool_calls outcome) calls ids' (mkInputState (is_turns st ++ [text_turn (out_text outcome) (default [] (pending_reasoning st))]) (is_items st ++ [c])
        None false (mid :: is_ids st)) k) as (st' & H1 & H2 & H3); try done.
      * cbn [is_ids]. intros i Hin. apply not_elem_of_cons. split; [by intros ->|]. apply Hd. by right.
      * exists st'. split; [exact H1|]. split; [done|]. rewrite H3. cbn [is_turns pending_reasoning default]. by rewrite Ht.
Qed.

End Parsing.

(** ** Samples *)
Module ResponsesSample.
Import RequestSample.

Definition draw (n : nat) : Z := Z.of_nat n.
Definition item_input : Json := JArray [
  obj [entry "role" (str "user"); entry "content" (JArray [
    obj [entry "type" (str "input_text"); entry "text" (str "hi")]; obj [entry "type" (str "input_image"); entry "image_url" (str "https://x")]])];
  obj [entry "type" (str "reasoning"); entry "content" (JArray [obj [entry "type" (str "reasoning_text"); entry "text" (str "hm")]])];
  obj [entry "type" (str "function_call"); entry "call_id" (str "c1"); entry "name" (str "look"); entry "arguments" (str "{}")];
  obj [entry "type" (str "function_call"); entry "call_id" (str "c2"); entry "name" (str "look"); entry "arguments" (str "{}"); entry "id" (str "f")];
  obj [entry "type" (str "function_call_output"); entry "call_id" (str "c1"); entry "output" (str "x")]].
Definition response_request : Json := obj [entry "model" (str "m"); entry "input" item_input; entry "max_output_tokens" (JUnsigned 16);
  entry "tools" (JArray [obj [entry "type" (str "function"); entry "name" (str "look")]])].

Lemma responses_request_parsed_witness : exists r, (parse_responses_request parse dump draw response_request 8192 0%nat).1 = Ok r /\ responses_ok parse r /\
  length (input_turns r) = 3%nat /\ length (rr_input_items r) = 5%nat.
Proof.
  pose proof (responses_request_parsed parse dump draw response_request 8192 0%nat ltac:(by_compute)) as H.
  assert (Hn : match (parse_responses_request parse dump draw response_request 8192 0%nat).1 with Ok r => (length (input_turns r), length (rr_input_items r)) | Err _ => (0, 0)%nat end
    = (3, 5)%nat) by (vm_compute; reflexivity).
  destruct (parse_responses_request parse dump draw response_request 8192 0%nat).1 as [r|]; [|done]. exists r. split; [done|]. split; [exact H|]. by injection Hn as -> ->.
Defined.

Lemma input_items_replayed_witness : exists turns items n', parse_input parse draw item_input 0%nat = (Ok (turns, items), n') /\
  parse_input parse draw (JArray items) 7%nat = (Ok (turns, items), 7%nat).
Proof.
  assert (Ho : is_ok (parse_input parse draw item_input 0%nat).1 = true) by (vm_compute; reflexivity).
  destruct (parse_input parse draw item_input 0%nat) as [[[turns items]|] n'] eqn:E; [|done]. exists turns, items, n'. split; [done|].
  exact (input_items_replayed parse draw item_input 0%nat turns items n' E 7%nat).
Defined.

Definition sample_outcome : GenerationOutcome :=
  mkOutcome [] (bytes_of "hm") [mkToolCall (bytes_of "c1") (bytes_of "look") (bytes_of "{}"); mkToolCall (bytes_of "c2") (bytes_of "look") (bytes_of "{}")] 5 3 1 0 StopToken 0.
Definition sample_request : ResponsesRequest := mkResponsesRequest
  (mkGenerationRequest (bytes_of "m") [] [] 64 (mkToolChoice ChoiceAuto []) [] 16 true false false None None None SamplingParams_default)
  [] [] None None (JObject []) [] (JString (bytes_of "auto")) true false.
Definition sample_build : result BuiltResponse * nat := build_response draw (bytes_of "resp_1") 9 sample_request (mkRuntime 0 0 0) sample_outcome (mkItemIds [] [] []) 10 4%nat.
Definition item_ids (items : list Json) : list (list Z) := (fun item => match json_field item (bytes_of "id") with Some (JString s) => s | _ => [] end) <$> items.

End ResponsesSample.
