(* ===== verification/ResponsesHttp.v ===== *)
(** * The endpoints of the Responses API: [src/serve/responses_http.cpp]

    The handlers over the store of responses: continuing a response, the response of a request that does not stream, the
    stream of one that does, and the resources under a response's id.  The connection, what the engine gives, the ids and
    the time are arguments. *)
From Stdlib Require Import Strings.String.
From stdpp Require Import gmap.
From S2P Require Import ProgramState RequestPlan Prelude Unicode Admission Capacity Contract Output Tokenizer ToolCalls ChatTemplate PrefixIdentity MediaCache Processor Preparation ResponseStore Requests Serving Responses.
#[local] Open Scope Z_scope.
#[local] Open Scope ninfer_scope.

(** A reply: a body, which is sent as its dump, or an error. *)
Inductive Reply : Type := Body (value : Json) | ErrorBody (e : exn).

(** What [prepare] gives to the handlers. *)
Record PreparedRequest : Set := mkPrepared {
  pr_sampling : ResolvedSamplingParameters; tool_capable : bool; pr_tool_name_max_length : nat; pr_preserve_thinking : bool;
}.
Definition prepared_request (g : GenerationRequest) (semantics : ResolvedPromptSemantics) (sampling : ResolvedSamplingParameters) : PreparedRequest :=
  mkPrepared sampling (uses_tools g || has_tool_history g) (Z.to_nat (tool_name_max_length g)) (se_preserve_thinking semantics).

(** The server's state: its store and the count of random numbers. *)
Record Server : Type := mkServer { response_store_ : ResponseStore; server_rng : nat }.
Definition on_store {A} (m : M ResponseStore A) : M Server A := fun s =>
  let '(r, store) := m (response_store_ s) in (r, mkServer store (server_rng s)).
Definition on_rng {A} (m : M nat A) : M Server A := fun s =>
  let '(r, n) := m (server_rng s) in (r, mkServer (response_store_ s) n).

(** [std::from_chars] of a whole string that is an [int]. *)
Definition parse_int (value : list Z) : option Z :=
  let number digits := if forallb is_digit digits then leading_digits digits None else None in
  match (match value with 45 :: digits => Z.opp <$> number digits | _ => number value end) with
  | Some n => if (n <? i32_min) || (n >? i32_max) then None else Some n
  | None => None
  end.

Section Http.
Context `{JsonText, Sizes} (json_parse : list Z -> option Json) (json_dump : Json -> list Z) (random : nat -> Z) (public_model_id : list Z) (default_max_tokens : Z).

Definition validate_model (requested : list Z) : result unit := throw_if (negb (bool_decide (requested = public_model_id))) ApiError.
Definition parse_json_body (text : list Z) : result Json := match json_parse text with Some body => Ok body | None => Err ApiError end.

(** [address]: those of the two new nodes. *)
Definition terminal_context (address : Z * Z) (previous : ResponseContext) (request : ResponsesRequest) (response : BuiltResponse) : ResponseContext :=
  append_response_context address.2 (append_response_context address.1 previous (input_turns request)) (output_history response).

Definition runtime_values (prepared : PreparedRequest) (outcome : option GenerationOutcome) : ResponsesRuntimeValues :=
  mkRuntime (rs_temperature (pr_sampling prepared)) (rs_top_p (pr_sampling prepared))
    match outcome with Some o => to_i32 (u32 (prefix_cache_hit_tokens o)) | None => 0 end.

(** ** [handle_responses] *)

(** The first block: the request with the conversation it continues. *)
Definition begin_response (text : list Z) : M Server (ResponsesRequest * ResponseContext) :=
  let! body := mlift (parse_json_body text) in
  let! request := on_rng (parse_responses_request json_parse json_dump random body default_max_tokens) in
  do! mlift (validate_model (gr_model (generation request)));
  let! (request, previous_context) :=
    match previous_response_id request with
    | None => mret_ (request, NoContext)
    | Some id =>
        let! previous := on_store (get id) in
        match previous with
        | None => mthrow ApiError
        | Some previous => mret_ (inherit_responses_preserve_thinking request (sr_preserve_thinking previous), context previous)
        end
    end in
  mret_ (compose_responses_generation_messages request (flatten_response_context previous_context), previous_context).

(** What is stored under a response's id. *)
Definition stored_response (id : list Z) (address : Z * Z) (request : ResponsesRequest) (previous : ResponseContext) (prepared : PreparedRequest)
    (response : BuiltResponse) : StoredResponse :=
  mkResponse id (Responses.body response) (rr_input_items request) (terminal_context address previous request response) (pr_preserve_thinking prepared).

(** The block of a request that does not stream; [answer] is what [wait] returns or throws. *)
Definition respond (id : list Z) (created now : Z) (address : Z * Z) (request : ResponsesRequest) (previous : ResponseContext)
    (prepared : PreparedRequest) (call_random : nat -> Z) (answer : result GenerationResult) : M Server Json :=
  let! outcome := mlift (let* answer := answer in run_silent (tool_capable prepared) (pr_tool_name_max_length prepared) call_random answer) in
  let! response := on_rng (make_response_object random id created request (runtime_values prepared (Some outcome)) outcome now) in
  do! mwhen (store request) (on_store (put (stored_response id address request previous prepared response)));
  mret_ (Responses.body response).

(** *** The stream *)

(** The encoder, what was written, and the store. *)
Record StreamState : Type := mkStream { encoder : Impl; written : list (list Z); attempts : nat; cancelled : bool; stream_store : ResponseStore }.
Definition encode {A} (m : M Impl A) : M StreamState A := fun s =>
  let '(r, e) := m (encoder s) in (r, mkStream e (written s) (attempts s) (cancelled s) (stream_store s)).
Definition stream_put (r : StoredResponse) : M StreamState unit := fun s =>
  let '(x, store) := put r (stream_store s) in (x, mkStream (encoder s) (written s) (attempts s) (cancelled s) store).

Section Stream.
(** [connected n]: the [n]-th write succeeds. *)
Context (connected : nat -> bool).

Definition write_stream_item (item : list Z) : M StreamState unit :=
  let! s := mget in
  if cancelled s || negb (connected (attempts s)) then
    do! mput (mkStream (encoder s) (written s) (S (attempts s)) true (stream_store s)); mthrow ClientDisconnected
  else mput (mkStream (encoder s) (written s ++ [item]) (S (attempts s)) (cancelled s) (stream_store s)).
Definition write_stream_items (items : list (list Z)) : M StreamState unit := miter write_stream_item items.

(** The callbacks [on_reasoning] and [on_content]. *)
Definition write_delta (delta : OutputDelta) : M StreamState unit :=
  let! items := encode match od_channel delta with
                       | Reasoning => reasoning_delta json_dump random (od_text delta)
                       | Content => content_delta json_dump random (od_text delta)
                       end in
  write_stream_items items.

(** The calls of the callbacks when the engine publishes these deltas and [wait] then returns or throws; and the
    outcome.  A callback that throws ends the run. *)
Definition run_calls (prepared : PreparedRequest) (call_random : nat -> Z) (deltas : list OutputDelta) (answer : result GenerationResult)
  : list OutputDelta * result GenerationOutcome :=
  match answer with
  | Ok r =>
      let '(outcome, s) := run (tool_capable prepared) true true (pr_tool_name_max_length prepared) call_random deltas r sink_init in
      (sink_calls s, outcome)
  | Err e =>
      let '(published, s) := miter (publish (tool_capable prepared) true true) deltas sink_init in
      (sink_calls s, let* _ := published in Err e)
  end.

(** The [try] block of the content provider. *)
Definition stream_body (id : list Z) (created now : Z) (address : Z * Z) (request : ResponsesRequest) (previous : ResponseContext)
    (prepared : PreparedRequest) (call_random : nat -> Z) (deltas : list OutputDelta) (answer : result GenerationResult) : M StreamState unit :=
  let runtime := runtime_values prepared None in
  let! items := encode (start json_dump id created request runtime) in
  do! write_stream_items items;
  let (calls, outcome) := run_calls prepared call_random deltas answer in
  do! miter write_delta calls;
  let! outcome := mlift outcome in
  let! (response, events_before_terminal) := encode (stream_finish json_dump random id created request runtime outcome now) in
  do! mwhen (store request) (stream_put (stored_response id address request previous prepared response));
  do! write_stream_items events_before_terminal;
  let! item := encode (terminal json_dump response) in
  write_stream_item item.

(** The handlers; the value is what the provider returns.  [message e], [code e]: those of the error. *)
Definition stream_response (code message : exn -> list Z) (id : list Z) (created now : Z) (address : Z * Z) (request : ResponsesRequest)
    (previous : ResponseContext) (prepared : PreparedRequest) (call_random : nat -> Z) (deltas : list OutputDelta) (answer : result GenerationResult)
  : M StreamState bool :=
  mtry (do! stream_body id created now address request previous prepared call_random deltas answer; mret_ true)
    (fun e =>
       if bool_decide (e = ClientDisconnected) then mret_ false
       else fun s =>
         match (let! item := encode (failed json_dump id created request (runtime_values prepared None) (code e) (message e) now) in
                write_stream_item item) s with
         | (Ok _, s') => (Ok true, s')
         | (Err ClientDisconnected, s') => (Ok false, s')
         | (Err e', s') => (Err e', s')
         end).
End Stream.

(** ** The resources of a response *)

(** [std::find_if] of an item with this id; the [id]s are strings. *)
Definition has_id (id : list Z) (item : Json) : bool :=
  match json_field item (bytes_of "id") with Some (JString s) => bool_decide (s = id) | _ => false end.

Definition parse_limit (limit : option (list Z)) : result Z :=
  match limit with
  | None => Ok 20
  | Some value =>
      match parse_int value with
      | Some n => do* throw_if ((n <? 1) || (n >? 100)) ApiError; Ok n
      | None => Err ApiError
      end
  end.

(** The query: the parameters that were given. *)
Record PageQuery : Set := mkQuery { q_include : option (list Z); q_limit : option (list Z); q_order : option (list Z); q_after : option (list Z) }.

Definition id_of (item : Json) : result Json := match json_field item (bytes_of "id") with Some id => Ok id | None => Err JsonException end.
Definition paginated_input_items (q : PageQuery) (stored_items : list Json) : result Json :=
  do* throw_if (match q_include q with Some s => negb (bool_decide (s = [])) | None => false end) ApiError;
  let* limit := parse_limit (q_limit q) in
  let order := default (bytes_of "desc") (q_order q) in
  do* throw_if (negb (bool_decide (order = bytes_of "asc")) && negb (bool_decide (order = bytes_of "desc"))) ApiError;
  let ordered := if bool_decide (order = bytes_of "desc") then reverse stored_items else stored_items in
  let* begin :=
    match q_after q with
    | None => Ok 0%nat
    | Some after => match list_find (fun item => has_id after item = true) ordered with Some (i, _) => Ok (i + 1)%nat | None => Err ApiError end
    end in
  let end_ := Nat.min (length ordered) (begin + Z.to_nat limit) in
  let data := take (end_ - begin) (drop begin ordered) in
  let* first_id := match head data with Some item => id_of item | None => Ok JNull end in
  let* last_id := match last data with Some item => id_of item | None => Ok JNull end in
  Ok (json_object [(bytes_of "object", jstr "list"); (bytes_of "data", JArray data); (bytes_of "first_id", first_id); (bytes_of "last_id", last_id);
                   (bytes_of "has_more", JBool (end_ <? length ordered)%nat)]).

Definition handle_response_get (id : list Z) : M Server Reply :=
  let! stored := on_store (get id) in
  mret_ match stored with None => ErrorBody ApiError | Some stored => Body (response stored) end.
Definition handle_response_delete (id : list Z) : M Server Reply :=
  let! erased := on_store (erase id) in
  mret_ (if negb erased then ErrorBody ApiError
         else Body (json_object [(bytes_of "id", JString id); (bytes_of "object", jstr "response.deleted"); (bytes_of "deleted", JBool true)])).
Definition handle_response_input_items (id : list Z) (q : PageQuery) : M Server Reply :=
  let! stored := on_store (get id) in
  match stored with
  | None => mret_ (ErrorBody ApiError)
  | Some stored =>
      match paginated_input_items q (input_items stored) with
      | Ok page => mret_ (Body page)
      | Err ApiError => mret_ (ErrorBody ApiError)
      | Err e => mthrow e
      end
  end.
Definition handle_response_cancel (id : list Z) : M Server Reply :=
  let! _ := on_store (get id) in mret_ (ErrorBody ApiError).
Definition handle_response_compact : M Server Reply := mret_ (ErrorBody ApiError).
End Http.
