(* ===== verification/ResponsesHttpProofs.v ===== *)
(** * The endpoints of the Responses API

    A response can be continued: the conversation of the request that names it is the one it answered, its answer, and
    the new input.  The items of its input can be listed page by page. *)
From Stdlib Require Import Strings.String.
From stdpp Require Import gmap.
From S2P Require Import ProgramState RequestPlan Prelude Unicode Admission Capacity Contract Output Tokenizer ToolCalls ChatTemplate PrefixIdentity MediaCache Processor Preparation ResponseStore ResponseStoreProofs Requests RequestsProofs Serving ServingProofs Responses ResponsesProofs ResponsesHttp.
#[local] Open Scope Z_scope.
#[local] Open Scope ninfer_scope.

(** ** What the store keeps *)

Section Keeps.
Context `{Sizes}.

Lemma victim_other id lru v : NoDup lru -> choose_victim id lru = Ok v -> v <> id.
Proof.
  intros Hn. unfold choose_victim. destruct (last lru) as [w|] eqn:Hw; [|done]. case_bool_decide as Hid; [|congruence].
  destruct (lru !! (length lru - 2)%nat) as [x|] eqn:Hx; [|done]. destruct (Nat.eqb_spec (length lru) 1) as [|Hl]; [done|]. intros [= <-] ->. subst w. rewrite last_lookup in Hw.
  assert (Heq : pred (length lru) = (length lru - 2)%nat) by (by eapply NoDup_lookup). apply lookup_lt_Some in Hw. lia.
Qed.
Lemma evict_keeps id r fuel : forall s s', NoDup (lru_ s) -> records_ s !! id = Some r -> evict fuel id s = (Ok tt, s') -> records_ s' !! id = Some r.
Proof.
  induction fuel as [|fuel IH]; intros s s' Hn Hr He; [by injection He as <-|]. cbn [evict] in He. unfold mbind_ at 1, mget at 1 in He.
  destruct (over_limits s); cbn [negb] in He; [|by injection He as <-]. unfold mbind_ at 1, mlift in He. destruct (choose_victim id (lru_ s)) as [v|] eqn:Hv; [|done].
  pose proof (victim_other _ _ _ Hn Hv) as Hne. unfold mbind_, erase_locked, update_bytes, mmodify in He. eapply IH; [| |exact He].
  - destruct (records_ s !! v); cbn; [by apply NoDup_filter|done].
  - destruct (records_ s !! v); cbn; [by rewrite lookup_delete_ne|done].
Qed.
Lemma put_keeps r s s' : NoDup (lru_ s) -> (forall id, id ∈ lru_ s <-> is_Some (records_ s !! id)) -> put r s = (Ok tt, s') -> records_ s' !! sr_id r = Some r.
Proof.
  intros Hn Hd. rewrite put_eq. destruct (_ || _); [done|]. destruct (_ >? _); [done|]. destruct (records_ s !! sr_id r) eqn:Hold; [done|]. cbn [is_some].
  apply evict_keeps; [|apply lookup_insert_eq]. cbn. apply NoDup_cons. split; [|done]. intros Hin%Hd. rewrite Hold in Hin. by destruct Hin.
Qed.
Lemma get_known id r s : records_ s !! id = Some r -> get id s = (Ok (Some r), set_records (records_ s) (id :: remove_id id (lru_ s)) s).
Proof. intros Hr. unfold get, mbind_, mget. rewrite Hr. reflexivity. Qed.
End Keeps.

(** ** Continuing a response *)

Section Continue.
Context `{JsonText, Sizes} (json_parse : list Z -> option Json) (json_dump : Json -> list Z) (random : nat -> Z) (public_model_id : list Z) (default_max_tokens : Z).

(** The conversation of a request, without its instructions. *)
Definition dialogue (request : ResponsesRequest) : list ChatTurn := drop (length (instruction_turns request)) (gr_messages (generation request)).

(** What a request continues. *)
Definition continued (request : ResponsesRequest) (s : ResponseStore) : result (ResponsesRequest * ResponseContext) :=
  match previous_response_id request with
  | None => Ok (request, NoContext)
  | Some id =>
      match records_ s !! id with
      | None => Err ApiError
      | Some r => Ok (inherit_responses_preserve_thinking request (sr_preserve_thinking r), context r)
      end
  end.
#[local] Abbreviation begin_ := (begin_response json_parse json_dump random public_model_id default_max_tokens).
#[local] Abbreviation parse_ := (parse_responses_request json_parse json_dump random).
Lemma begin_parsed text s body r0 n : parse_json_body json_parse text = Ok body -> parse_ body default_max_tokens (server_rng s) = (Ok r0, n) ->
  gr_model (generation r0) = public_model_id ->
  (begin_ text s).1 = (let* (r, c) := continued r0 (response_store_ s) in Ok (compose_responses_generation_messages r (flatten_response_context c), c)).
Proof.
  intros H1 H2 H3. unfold begin_response, validate_model, continued. unfold mbind_ at 1, mlift at 1. rewrite H1. unfold mbind_ at 1, on_rng. rewrite H2. unfold mbind_ at 1, mlift at 1.
  rewrite H3, bool_decide_true by done. cbn [negb throw_if]. unfold mbind_ at 1. destruct (previous_response_id r0) as [id|]; [|done].
  unfold mbind_, on_store. cbn [response_store_]. destruct (records_ (response_store_ s) !! id) as [r|] eqn:Hr; [by rewrite (get_known _ _ _ Hr)|].
  unfold get, mbind_, mget, mret_. by rewrite Hr.
Qed.
Lemma begin_inv text s request previous s' : begin_ text s = (Ok (request, previous), s') -> exists body r0 r n,
  parse_json_body json_parse text = Ok body /\ parse_ body default_max_tokens (server_rng s) = (Ok r0, n) /\ gr_model (generation r0) = public_model_id /\
  continued r0 (response_store_ s) = Ok (r, previous) /\ request = compose_responses_generation_messages r (flatten_response_context previous) /\
  records_ (response_store_ s') = records_ (response_store_ s) /\ (consistent (response_store_ s) -> consistent (response_store_ s')).
Proof.
  intros Hb. assert (Hb1 : (begin_ text s).1 = Ok (request, previous)) by (by rewrite Hb). pose proof Hb as Hs. unfold begin_response in Hs.
  apply mbind_Ok in Hs as (body & s1 & H1 & Hs). injection H1 as H1 <-. apply mbind_Ok in Hs as (r0 & s2 & H2 & Hs). unfold on_rng in H2.
  destruct (parse_ body default_max_tokens (server_rng s)) as [[r1|] n] eqn:Hp; [|done]. injection H2 as <- <-.
  apply mbind_Ok in Hs as ([] & s3 & H3 & Hs). unfold validate_model, mlift in H3. injection H3 as H3 <-. apply throw_if_Ok, negb_false_iff, bool_decide_eq_true in H3.
  rewrite (begin_parsed _ _ _ _ _ H1 Hp H3) in Hb1. destruct (continued r1 (response_store_ s)) as [[r c]|] eqn:Hc; [|done]. cbn [rbind] in Hb1. injection Hb1 as <- ->.
  exists body, r1, r, n. split_and!; try done.
  - apply mbind_Ok in Hs as ([r2 c2] & s4 & H4 & Hs). unfold mret_ in Hs. assert (s' = s4) as -> by congruence. clear -H4. destruct (previous_response_id r1) as [id|]; [|by injection H4 as <- <- <-].
    apply mbind_Ok in H4 as (o & s5 & H5 & H4). unfold on_store in H5. cbn [response_store_] in H5. unfold get, mbind_, mget, mret_ in H5.
    destruct (records_ (response_store_ s) !! id); [|by injection H5 as <- <-]. injection H5 as <- <-. by injection H4 as <- <- <-.
  - intros Hcons. apply mbind_Ok in Hs as ([r2 c2] & s4 & H4 & Hs). unfold mret_ in Hs. assert (s' = s4) as -> by congruence. clear -H4 Hcons. destruct (previous_response_id r1) as [id|]; [|by injection H4 as <- <- <-].
    destruct (get_consistent id (response_store_ s) Hcons) as (Hg & _).
    apply mbind_Ok in H4 as (o & s5 & H5 & H4). unfold on_store in H5. cbn [response_store_] in H5. destruct (get id (response_store_ s)) as [[o'|] st]; [|done]. injection H5 as <- <-.
    destruct o'; [|done]. by injection H4 as <- <- <-.
Qed.

Lemma inherit_fields r v : input_turns (inherit_responses_preserve_thinking r v) = input_turns r /\ instructions (inherit_responses_preserve_thinking r v) = instructions r /\
  gr_preserve_thinking (generation (inherit_responses_preserve_thinking r v)) = Some (default v (gr_preserve_thinking (generation r))).
Proof. unfold inherit_responses_preserve_thinking. by destruct (gr_preserve_thinking (generation r)) eqn:E. Qed.
Lemma instruction_turns_eq r r' : instructions r = instructions r' -> instruction_turns r = instruction_turns r'.
Proof. unfold instruction_turns. by intros ->. Qed.
Lemma dialogue_composed r turns : dialogue (compose_responses_generation_messages r turns) = turns ++ input_turns r.
Proof. unfold dialogue, compose_responses_generation_messages. cbn [generation gr_messages with_generation]. by rewrite drop_app_length. Qed.

(** What a response that was sent and is to be stored leaves. *)
Lemma respond_stored id created now address request previous prepared call_random answer s sent s1 : consistent (response_store_ s) -> store request = true ->
  respond random id created now address request previous prepared call_random answer s = (Ok sent, s1) ->
  exists outcome stored, (let* answer := answer in run_silent (tool_capable prepared) (pr_tool_name_max_length prepared) call_random answer) = Ok outcome /\
    records_ (response_store_ s1) !! id = Some stored /\ response stored = sent /\ sr_preserve_thinking stored = pr_preserve_thinking prepared /\
    flatten_response_context (context stored) = flatten_response_context previous ++ input_turns request ++ [assistant_history outcome].
Proof.
  intros Hc Hst Hr. unfold respond in Hr. apply mbind_Ok in Hr as (outcome & s2 & H1 & Hr). injection H1 as H1 <-. apply mbind_Ok in Hr as (built & s3 & H2 & Hr).
  unfold on_rng in H2. destruct (make_response_object _ _ _ _ _ _ _ _) as [[built'|] n] eqn:Hb; [|done]. injection H2 as -> <-. rewrite Hst in Hr. cbn [mwhen] in Hr.
  apply mbind_Ok in Hr as ([] & s4 & H3 & Hr). unfold on_store in H3. cbn [response_store_ server_rng] in H3. set (stored := stored_response id address request previous prepared built) in *.
  destruct (put stored (response_store_ s)) as [[[]|] st] eqn:Hput; [|done]. injection H3 as <-. injection Hr as <- <-. exists outcome, stored. split; [done|].
  split; [by apply put_keeps in Hput; [|apply Hc..]|]. split; [done|]. split; [done|].
  assert (Hh : output_history built = [assistant_history outcome]).
  { unfold make_response_object, build_response in Hb. apply mbind_Ok in Hb as (a & n1 & _ & Hb). apply mbind_Ok in Hb as (m & n2 & _ & Hb). apply mbind_Ok in Hb as (c & n3 & _ & Hb).
    unfold mret_ in Hb. assert (Hf : forall a b n n', (Ok a, n) = (Ok b, n') :> result BuiltResponse * nat -> a = b) by congruence. by apply Hf in Hb as <-. }
  unfold stored, stored_response, terminal_context. cbn [context]. by rewrite !flatten_append, Hh, <- app_assoc.
Qed.

(** C22: A response that was sent and is to be stored can be continued as long as the store has it.  A well-formed request for the
    served model that names it is accepted; its conversation is its own instructions, the dialogue that was answered without
    the instructions of that request, the answer with its reasoning and calls, and its own input; what was said about keeping
    the thinking of earlier turns holds on unless it says otherwise.  A client that asks for the response is given what was sent. *)
Theorem conversation_continued text s0 request previous s id created now address prepared call_random answer sent s1 s2 text2 body2 r2 n2 :
  consistent (response_store_ s0) -> begin_ text s0 = (Ok (request, previous), s) -> store request = true ->
  respond random id created now address request previous prepared call_random answer s = (Ok sent, s1) ->
  records_ (response_store_ s2) !! id = records_ (response_store_ s1) !! id ->
  parse_json_body json_parse text2 = Ok body2 -> parse_ body2 default_max_tokens (server_rng s2) = (Ok r2, n2) -> gr_model (generation r2) = public_model_id ->
  previous_response_id r2 = Some id ->
  exists outcome request2 previous2, (let* answer := answer in run_silent (tool_capable prepared) (pr_tool_name_max_length prepared) call_random answer) = Ok outcome /\
    (begin_ text2 s2).1 = Ok (request2, previous2) /\
    gr_messages (generation request2) = instruction_turns r2 ++ dialogue request ++ [assistant_history outcome] ++ input_turns r2 /\
    dialogue request = flatten_response_context previous ++ input_turns request /\
    gr_preserve_thinking (generation request2) = Some (default (pr_preserve_thinking prepared) (gr_preserve_thinking (generation r2))) /\
    (handle_response_get id s2).1 = Ok (Body sent).
Proof.
  intros Hc Hb Hst Hr Hkeep Hbody Hparse Hmodel Hprev. apply begin_inv in Hb as (body & r0 & r & n & _ & _ & _ & _ & -> & _ & Hc').
  apply respond_stored in Hr as (outcome & stored & Ho & Hs & Hsent & Hthink & Hflat); [|by apply Hc'|done].
  assert (Hd : dialogue (compose_responses_generation_messages r (flatten_response_context previous)) = flatten_response_context previous ++ input_turns r) by apply dialogue_composed.
  rewrite (begin_parsed _ _ _ _ _ Hbody Hparse Hmodel). unfold continued. rewrite Hprev, Hkeep, Hs. cbn [rbind]. exists outcome, (compose_responses_generation_messages
    (inherit_responses_preserve_thinking r2 (sr_preserve_thinking stored)) (flatten_response_context (context stored))), (context stored).
  destruct (inherit_fields r2 (sr_preserve_thinking stored)) as (I1 & I2 & I3). split_and!; [done|done| |exact Hd| |].
  - cbn [compose_responses_generation_messages generation gr_messages with_generation]. by rewrite (instruction_turns_eq _ _ I2), I1, Hflat, Hd, <- !app_assoc.
  - cbn [compose_responses_generation_messages generation gr_preserve_thinking with_generation]. by rewrite I3, Hthink.
  - unfold handle_response_get, mbind_, on_store. rewrite (get_known _ stored) by (by rewrite Hkeep). cbn [fst mret_]. by rewrite Hsent.
Qed.
End Continue.

(** ** Listing the items of an input *)

Section Pages.
Context `{Sizes}.

(** The items of a page, and the id after which the next page begins. *)
Definition page_items (page : Json) : list Json := match json_field page (bytes_of "data") with Some (JArray items) => items | _ => [] end.
Definition next_after (page : Json) : option (list Z) :=
  match json_field page (bytes_of "has_more"), json_field page (bytes_of "last_id") with Some (JBool true), Some (JString id) => Some id | _, _ => None end.
(** A client that asks for page after page. *)
Fixpoint read_pages (fuel : nat) (id : list Z) (limit order after : option (list Z)) : M Server (list (list Json)) :=
  match fuel with
  | O => mthrow RuntimeError
  | S fuel' =>
      let! reply := handle_response_input_items id (mkQuery None limit order after) in
      match reply with
      | ErrorBody e => mthrow e
      | Body page =>
          match next_after page with
          | None => mret_ [page_items page]
          | Some last => let! rest := read_pages fuel' id limit order (Some last) in mret_ (page_items page :: rest)
          end
      end
  end.

Definition ordered_items (order : option (list Z)) (items : list Json) : list Json :=
  if bool_decide (default (bytes_of "desc") order = bytes_of "desc") then reverse items else items.
Definition known_order (order : option (list Z)) : Prop := match order with None => True | Some o => o = bytes_of "asc" \/ o = bytes_of "desc" end.

Lemma distinct_reverse items : distinct_ids items -> distinct_ids (reverse items).
Proof. intros (ids & Hf & Hn). exists (reverse ids). split; [by apply Forall2_reverse|by rewrite reverse_Permutation]. Qed.
Lemma distinct_ordered order items : distinct_ids items -> distinct_ids (ordered_items order items).
Proof. intros Hd. unfold ordered_items. case_bool_decide; [by apply distinct_reverse|done]. Qed.
Lemma has_id_spec id item : item_has_id item id -> forall id', has_id id' item = true <-> id' = id.
Proof. intros [H1 _] id'. unfold has_id. rewrite H1, bool_decide_eq_true. naive_solver. Qed.
Lemma find_item l k item id : distinct_ids l -> l !! k = Some item -> item_has_id item id -> list_find (fun item => has_id id item = true) l = Some (k, item).
Proof.
  intros (ids & Hf & Hn) Hk Hid. apply list_find_Some. split; [done|]. split; [by apply (has_id_spec id item Hid)|]. intros j y Hj Hlt Hy.
  destruct (Forall2_lookup_l _ _ _ _ _ Hf Hk) as (id1 & Hi & H1). destruct (Forall2_lookup_l _ _ _ _ _ Hf Hj) as (id2 & Hi2 & H2).
  apply (has_id_spec id2 y H2) in Hy. assert (id1 = id) by (destruct Hid, H1; congruence). assert (k = j) by (eapply NoDup_lookup; [exact Hn|exact Hi|]; congruence). lia.
Qed.
Lemma limit_positive limit n : parse_limit limit = Ok n -> 1 <= n <= 100.
Proof.
  unfold parse_limit. destruct limit as [v|]; [|intros [= <-]; lia]. destruct (parse_int v) as [x|]; [|done]. intros ([] & Hn%throw_if_Ok & [= <-])%rbind_Ok.
  apply orb_false_iff in Hn as [H1%Z.ltb_ge H2]. rewrite Z.gtb_ltb in H2. apply Z.ltb_ge in H2. lia.
Qed.

(** The page that begins at [k]. *)
Definition page_at (n k : nat) (l : list Json) : list Json := take n (drop k l).
Lemma page_spec items limit order after n k : distinct_ids items -> parse_limit limit = Ok n -> known_order order ->
  match after with
  | None => k = 0%nat
  | Some id => exists j item, k = S j /\ ordered_items order items !! j = Some item /\ item_has_id item id
  end ->
  exists page, paginated_input_items (mkQuery None limit order after) items = Ok page /\ page_items page = page_at (Z.to_nat n) k (ordered_items order items) /\
    if (k + Z.to_nat n <? length (ordered_items order items))%nat
    then exists item id, next_after page = Some id /\ ordered_items order items !! (k + Z.to_nat n - 1)%nat = Some item /\ item_has_id item id
    else next_after page = None.
Proof.
  set (l := ordered_items order items). intros Hd Hn Ho Hk. pose proof (limit_positive _ _ Hn) as Hpos. assert (Hdl : distinct_ids l) by (by apply distinct_ordered).
  assert (Hids : forall x, x ∈ l -> exists id, item_has_id x id).
  { destruct Hdl as (ids & Hf & _). intros x [i Hi]%list_elem_of_lookup. destruct (Forall2_lookup_l _ _ _ _ _ Hf Hi) as (id & _ & Hid). by exists id. }
  assert (Hid_of : forall x, x ∈ l -> exists id, item_has_id x id /\ id_of x = Ok (JString id)).
  { intros x Hx. destruct (Hids x Hx) as [id [H1 H2]]. exists id. split; [by split|]. unfold id_of. by rewrite H1. }
  assert (Hbegin : match after with None => Ok 0%nat | Some after => match list_find (fun item => has_id after item = true) l with Some (i, _) => Ok (i + 1)%nat | None => Err ApiError end end = Ok k).
  { destruct after as [id|]; [|by rewrite Hk]. destruct Hk as (j & item & -> & Hj & Hid). rewrite (find_item l j item id Hdl Hj Hid). f_equal. lia. }
  assert (Hdata : take (Nat.min (length l) (k + Z.to_nat n) - k) (drop k l) = page_at (Z.to_nat n) k l).
  { unfold page_at. destruct (Nat.min_spec (length l) (k + Z.to_nat n)) as [[H1 ->]|[H1 ->]]; [|f_equal; lia]. rewrite !take_ge; [done|rewrite length_drop; lia..]. }
  assert (Hin : forall x, x ∈ page_at (Z.to_nat n) k l -> x ∈ l) by (intros x Hx; rewrite <- (take_drop k l); apply elem_of_app; right; rewrite <- (take_drop (Z.to_nat n) (drop k l)); apply elem_of_app; by left).
  unfold paginated_input_items. cbn [q_include q_limit q_order q_after throw_if rbind]. rewrite Hn. cbn [rbind].
  replace (negb (bool_decide (default (bytes_of "desc") order = bytes_of "asc")) && negb (bool_decide (default (bytes_of "desc") order = bytes_of "desc"))) with false.
  2: { destruct order as [o|]; [|done]. by destruct Ho as [->| ->]. }
  cbn [throw_if rbind]. fold (ordered_items order items). fold l. rewrite Hbegin. cbn [rbind]. rewrite Hdata. set (data := page_at (Z.to_nat n) k l) in *.
  assert (Hfirst : exists f, match head data with Some item => id_of item | None => Ok JNull end = Ok f).
  { destruct (head data) as [x|] eqn:Hx; [|by eexists]. destruct (Hid_of x) as (id & _ & ->); [|by eexists]. apply Hin. destruct data; [done|]. injection Hx as ->. by left. }
  destruct Hfirst as [f ->]. cbn [rbind]. destruct (last data) as [x|] eqn:Hx.
  - destruct (Hid_of x) as (id & Hid & ->); [apply Hin; by apply last_Some_elem_of|]. cbn [rbind]. eexists. split; [reflexivity|]. split; [field_eq|].
    destruct (Nat.ltb_spec (Nat.min (length l) (k + Z.to_nat n)) (length l)); destruct (Nat.ltb_spec (k + Z.to_nat n) (length l)); try lia; [|field_eq].
    exists x, id. split; [field_eq|]. split; [|done]. rewrite last_lookup in Hx. unfold data, page_at in Hx. rewrite length_take, length_drop in Hx.
    apply lookup_take_Some in Hx as [Hx _]. rewrite lookup_drop in Hx. rewrite <- Hx. f_equal. lia.
  - cbn [rbind]. eexists. split; [reflexivity|]. split; [field_eq|]. assert (Hnil : data = []) by (destruct data; [done|by rewrite last_cons in Hx; destruct (last data)]).
    assert (Hlen : length data = 0%nat) by (by rewrite Hnil). unfold data, page_at in Hlen. rewrite length_take, length_drop in Hlen.
    destruct (Nat.ltb_spec (Nat.min (length l) (k + Z.to_nat n)) (length l)); destruct (Nat.ltb_spec (k + Z.to_nat n) (length l)); try lia. field_eq.
Qed.

Lemma page_rest n k l : page_at n k l ++ drop (k + n) l = drop k l.
Proof. unfold page_at. by rewrite <- drop_drop, take_drop. Qed.
Lemma read_pages_from stored limit order n id : distinct_ids (input_items stored) -> parse_limit limit = Ok n -> known_order order ->
  forall fuel s after k, records_ (response_store_ s) !! id = Some stored ->
  match after with
  | None => k = 0%nat
  | Some last => exists j item, k = S j /\ ordered_items order (input_items stored) !! j = Some item /\ item_has_id item last
  end ->
  (length (ordered_items order (input_items stored)) < k + fuel)%nat ->
  exists pages s', read_pages fuel id limit order after s = (Ok pages, s') /\ concat pages = drop k (ordered_items order (input_items stored)) /\
    Forall (fun page => (length page <= Z.to_nat n)%nat) pages.
Proof.
  intros Hd Hn Ho. set (l := ordered_items order (input_items stored)). induction fuel as [|fuel IH]; intros s after k Hs Hk Hlen.
  { exfalso. destruct after as [last|]; [|subst k; lia]. destruct Hk as (j & item & -> & Hj & _). apply lookup_lt_Some in Hj. lia. }
  pose proof (limit_positive _ _ Hn) as Hpos. destruct (page_spec (input_items stored) limit order after n k Hd Hn Ho Hk) as (page & Hp & Hitems & Hnext). fold l in Hitems, Hnext.
  assert (Hpage : Forall (fun p => (length p <= Z.to_nat n)%nat) [page_items page]) by (constructor; [rewrite Hitems; unfold page_at; rewrite length_take; lia|constructor]).
  assert (Hreply : exists s1, handle_response_input_items id (mkQuery None limit order after) s = (Ok (Body page), s1) /\ records_ (response_store_ s1) = records_ (response_store_ s)).
  { unfold handle_response_input_items, mbind_, on_store. rewrite (get_known _ _ _ Hs), Hp. by eexists. }
  destruct Hreply as (s1 & Hreply & Hrec). cbn [read_pages]. unfold mbind_ at 1. rewrite Hreply. destruct (Nat.ltb_spec (k + Z.to_nat n) (length l)) as [Hlt|Hge].
  - destruct Hnext as (item & last & -> & Hlast & Hid).
    destruct (IH s1 (Some last) (k + Z.to_nat n)%nat) as (pages & s' & Hrun & Hpages & Hall); [by rewrite Hrec|exists (k + Z.to_nat n - 1)%nat, item; split; [lia|done]|lia|].
    unfold mbind_. rewrite Hrun. do 2 eexists. split; [reflexivity|]. cbn [concat]. rewrite Hitems, Hpages. split; [apply page_rest|]. rewrite Hitems in Hpage. apply Forall_cons in Hpage as [Hpage _]. by constructor.
  - rewrite Hnext. do 2 eexists. split; [reflexivity|]. cbn [concat]. rewrite app_nil_r, Hitems. split; [|by rewrite Hitems in Hpage]. rewrite <- (page_rest (Z.to_nat n) k l).
    rewrite (drop_ge l (k + Z.to_nat n)) by lia. by rewrite app_nil_r.
Qed.

(** C23: A client that asks for the items of a stored input page after page, each after the last item it was given, is given every
    item once, in the order it asked for, in pages within its limit, and comes to an end: one request per item and one more is
    enough. *)
Theorem input_items_listed stored limit order n id s : records_ (response_store_ s) !! id = Some stored -> distinct_ids (input_items stored) ->
  parse_limit limit = Ok n -> known_order order ->
  exists pages s', read_pages (S (length (input_items stored))) id limit order None s = (Ok pages, s') /\
    concat pages = ordered_items order (input_items stored) /\ Forall (fun page => (length page <= Z.to_nat n)%nat) pages.
Proof.
  intros Hs Hd Hn Ho. apply (read_pages_from stored limit order n id Hd Hn Ho _ s None 0); [done|done|]. unfold ordered_items. case_bool_decide; rewrite ?length_reverse; lia.
Qed.
End Pages.

(** ** A small server *)
Module HttpSample.
Import RequestSample ResponsesSample ServingSample.

#[local] Instance json_text : JsonText := {| json_value := list Z; ToolCalls.json_parse := fun _ => None; json_string := fun s => s;
  json_dump_object := fun items => concat (fst <$> items) |}.
#[local] Instance sizes : Sizes := {| sizeof_ChatTurn := 8; sizeof_ContentPart := 8; sizeof_ToolCall := 8; sizeof_ResponseContextNode := 8;
  sizeof_StoredResponse := 8; sizeof_json := 8; response_dump := fun _ => [123; 125] |}.
Definition second_request : Json := obj [entry "model" (str "m"); entry "input" (str "and"); entry "instructions" (str "be brief");
  entry "previous_response_id" (str "resp_1")].
Definition bodies (s : list Z) : option Json := match s with [1] => Some response_request | [2] => Some second_request | _ => parse s end.
Definition empty_server : Server := mkServer (mkStore 2 10000 ∅ [] 0) 0.
Definition prepared : PreparedRequest := mkPrepared (RequestPlan.mkResolved 0 20 0 0 0 0 1) true 64 true.
#[local] Abbreviation begin_ := (begin_response bodies dump draw (bytes_of "m") 8192).
#[local] Abbreviation respond_ request previous := (respond draw (bytes_of "resp_1") 9 10 (1, 2) request previous prepared (fun _ => 0) (Ok answer)).
Lemma empty_consistent : consistent (response_store_ empty_server).
Proof.
  split; cbn; [by apply NoDup_nil| |done|by vm_compute|lia]. intros id. rewrite lookup_empty. split; [by intros ?%elem_of_nil|by intros [? ?]].
Qed.

Lemma conversation_continued_witness : exists request previous s sent s1 request2 previous2 outcome, begin_ [1] empty_server = (Ok (request, previous), s) /\
  respond_ request previous s = (Ok sent, s1) /\ (begin_ [2] s1).1 = Ok (request2, previous2) /\
  gr_messages (generation request2) = mkTurn Developer [mkContentPart CkText (bytes_of "be brief") (bytes_of "input_text") SourcePath [] [] []] [] [] [] ::
    dialogue request ++ [assistant_history outcome] ++ [mkTurn User [mkContentPart CkText (bytes_of "and") (bytes_of "input_text") SourcePath [] [] []] [] [] []].
Proof.
  assert (Hn : match begin_ [1] empty_server with
    | (Ok (request, previous), s) => (store request, match respond_ request previous s with
        | (Ok sent, s1) => match parse_responses_request bodies dump draw second_request 8192 (server_rng s1) with
            | (Ok r2, _) => (gr_model (generation r2), previous_response_id r2, instruction_turns r2, input_turns r2) | _ => ([], None, [], []) end
        | _ => ([], None, [], []) end)
    | _ => (false, ([], None, [], [])) end = (true, (bytes_of "m", Some (bytes_of "resp_1"),
      [mkTurn Developer [mkContentPart CkText (bytes_of "be brief") (bytes_of "input_text") SourcePath [] [] []] [] [] []],
      [mkTurn User [mkContentPart CkText (bytes_of "and") (bytes_of "input_text") SourcePath [] [] []] [] [] []]))) by (vm_compute; reflexivity).
  destruct (begin_ [1] empty_server) as [[[request previous]|] s] eqn:E1; [|done]. destruct (respond_ request previous s) as [[sent|] s1] eqn:E2; [|done].
  destruct (parse_responses_request bodies dump draw second_request 8192 (server_rng s1)) as [[r2|] n2] eqn:E3; [|done]. injection Hn as Hst Hm Hp Hi Ht.
  destruct (conversation_continued bodies dump draw (bytes_of "m") 8192 [1] empty_server request previous s (bytes_of "resp_1") 9 10 (1, 2) prepared (fun _ => 0) (Ok answer) sent s1 s1 [2]
    second_request r2 n2 empty_consistent E1 Hst E2 eq_refl eq_refl E3 Hm Hp) as (outcome & request2 & previous2 & _ & H1 & H2 & _).
  exists request, previous, s, sent, s1, request2, previous2, outcome. split; [done|]. split; [done|]. split; [exact H1|]. by rewrite H2, Hi, Ht.
Defined.

Definition listed (n : nat) : Json := json_object [(bytes_of "id", JString [Z.of_nat n])].
Definition stored_items : StoredResponse := mkResponse [9] (JObject []) (listed <$> [1; 2; 3; 4; 5]%nat) NoContext false.
Definition items_server : Server := mkServer (mkStore 2 1000 {[ [9] := stored_items ]} [[9]] 0) 0.
Lemma input_items_listed_witness : exists pages s', read_pages 6 [9] (Some [50]) (Some (bytes_of "asc")) None items_server = (Ok pages, s') /\
  concat pages = listed <$> [1; 2; 3; 4; 5]%nat.
Proof.
  destruct (input_items_listed stored_items (Some [50]) (Some (bytes_of "asc")) 2 [9] items_server) as (pages & s' & H1 & H2 & _); [| |by_compute|by left|].
  - apply lookup_singleton_eq.
  - exists ((fun n => [Z.of_nat n]) <$> [1; 2; 3; 4; 5]%nat). split; [repeat constructor; by vm_compute|]. apply (bool_decide_eq_true_1 _). by vm_compute.
  - exists pages, s'. split; [exact H1|exact H2].
Defined.
End HttpSample.
