(* ===== verification/ResponsesClient.v ===== *)
(** * What the client of a streamed response reads

    A client follows the events of the Responses API: it knows the items that were added, the text that each has so far,
    and how far each is.  [reads] says which event a client in a state takes next; the events that the server writes are
    taken one by one, whatever the engine answers and whenever the connection ends, and the items that the client has at
    the end are the output of the response. *)
From Stdlib Require Import Strings.String.
From stdpp Require Import gmap.
From S2P Require Import ProgramState RequestPlan Prelude Unicode Admission Capacity Contract Output Tokenizer ToolCalls ChatTemplate PrefixIdentity MediaCache Processor Preparation ResponseStore Requests RequestsProofs Serving ServingProofs Responses ResponsesProofs ResponsesHttp.
#[local] Open Scope Z_scope.
#[local] Open Scope ninfer_scope.

(** ** The client *)

Definition string_field (object : Json) (key : string) : option (list Z) :=
  match json_field object (bytes_of key) with Some (JString s) => Some s | _ => None end.

(** How far an item is: added, its part added, its text complete, its part complete, complete. *)
Inductive Stage : Set := ItemAdded | PartAdded | TextDone | PartDone | ItemDone.
Record ClientItem : Type := mkItem { ci_item : Json; ci_text : list Z; ci_stage : Stage }.
Inductive Phase : Type := Waiting | Created | Open | Closed (response : Json).
(** The response's id, the events that were read, and the items. *)
Record Client : Type := mkClient { cl_id : list Z; cl_next : Z; cl_phase : Phase; cl_items : list ClientItem }.
Definition client_init (id : list Z) : Client := mkClient id 0 Waiting [].

(** The type of the text of an item. *)
Definition text_type (item : Json) : option (list Z) :=
  match string_field item "type" with
  | Some t => if bool_decide (t = bytes_of "reasoning") then Some (bytes_of "reasoning_text") else if bool_decide (t = bytes_of "message") then Some (bytes_of "output_text") else None
  | None => None
  end.
Definition is_call (item : Json) : Prop := string_field item "type" = Some (bytes_of "function_call").

(** An event of this type, with the next number. *)
Definition headed (c : Client) (e : Json) (type_ : list Z) : Prop :=
  string_field e "type" = Some type_ /\ json_field e (bytes_of "sequence_number") = Some (JUnsigned (u64 (cl_next c))).
(** An event of an item that was added. *)
Definition concerns (c : Client) (e : Json) (i : nat) (it : ClientItem) : Prop :=
  cl_phase c = Open /\ json_field e (bytes_of "output_index") = Some (JInteger (Z.of_nat i)) /\ cl_items c !! i = Some it.
Definition of_item (e : Json) (it : ClientItem) : Prop := string_field e "item_id" = string_field (ci_item it) "id".
Definition of_part (e : Json) (it : ClientItem) : Prop := of_item e it /\ json_field e (bytes_of "content_index") = Some (JInteger 0).
(** A part of this type with this text. *)
Definition part_of (part : Json) (type_ text : list Z) : Prop := string_field part "type" = Some type_ /\ string_field part "text" = Some text.
Definition same_field (key : string) (a b : Json) : Prop := string_field a key = string_field b key.

Definition next (c : Client) (phase : Phase) (items : list ClientItem) : Client := mkClient (cl_id c) (cl_next c + 1) phase items.
Definition progress (c : Client) (i : nat) (item : Json) (text : list Z) (stage : Stage) : Client :=
  next c Open (<[i := mkItem item text stage]> (cl_items c)).

Inductive reads : Client -> Json -> Client -> Prop :=
| read_created c e r : headed c e (bytes_of "response.created") -> cl_phase c = Waiting ->
    json_field e (bytes_of "response") = Some r -> string_field r "id" = Some (cl_id c) -> string_field r "status" = Some (bytes_of "in_progress") ->
    reads c e (next c Created [])
| read_in_progress c e r : headed c e (bytes_of "response.in_progress") -> cl_phase c = Created ->
    json_field e (bytes_of "response") = Some r -> string_field r "id" = Some (cl_id c) -> string_field r "status" = Some (bytes_of "in_progress") ->
    reads c e (next c Open [])
| read_item_added c e item id : headed c e (bytes_of "response.output_item.added") -> cl_phase c = Open ->
    json_field e (bytes_of "output_index") = Some (JInteger (Z.of_nat (length (cl_items c)))) -> json_field e (bytes_of "item") = Some item ->
    item_has_id item id -> string_field item "status" = Some (bytes_of "in_progress") ->
    reads c e (next c Open (cl_items c ++ [mkItem item [] ItemAdded]))
| read_part_added c e i it part t : headed c e (bytes_of "response.content_part.added") -> concerns c e i it -> of_part e it -> ci_stage it = ItemAdded ->
    text_type (ci_item it) = Some t -> json_field e (bytes_of "part") = Some part -> part_of part t [] ->
    reads c e (progress c i (ci_item it) [] PartAdded)
| read_delta c e i it t delta : headed c e (bytes_of "response." ++ t ++ bytes_of ".delta") -> concerns c e i it -> of_part e it -> ci_stage it = PartAdded ->
    text_type (ci_item it) = Some t -> string_field e "delta" = Some delta -> delta <> [] ->
    reads c e (progress c i (ci_item it) (ci_text it ++ delta) PartAdded)
| read_text_done c e i it t : headed c e (bytes_of "response." ++ t ++ bytes_of ".done") -> concerns c e i it -> of_part e it -> ci_stage it = PartAdded ->
    text_type (ci_item it) = Some t -> string_field e "text" = Some (ci_text it) ->
    reads c e (progress c i (ci_item it) (ci_text it) TextDone)
| read_part_done c e i it part t : headed c e (bytes_of "response.content_part.done") -> concerns c e i it -> of_part e it -> ci_stage it = TextDone ->
    text_type (ci_item it) = Some t -> json_field e (bytes_of "part") = Some part -> part_of part t (ci_text it) ->
    reads c e (progress c i (ci_item it) (ci_text it) PartDone)
| read_item_done c e i it item part t : headed c e (bytes_of "response.output_item.done") -> concerns c e i it -> ci_stage it = PartDone ->
    text_type (ci_item it) = Some t -> json_field e (bytes_of "item") = Some item -> same_field "id" item (ci_item it) -> same_field "type" item (ci_item it) ->
    json_field item (bytes_of "content") = Some (JArray [part]) -> part_of part t (ci_text it) ->
    reads c e (progress c i item (ci_text it) ItemDone)
| read_arguments_delta c e i it delta : headed c e (bytes_of "response.function_call_arguments.delta") -> concerns c e i it -> of_item e it -> ci_stage it = ItemAdded ->
    is_call (ci_item it) -> string_field e "delta" = Some delta -> delta <> [] ->
    reads c e (progress c i (ci_item it) (ci_text it ++ delta) ItemAdded)
| read_arguments_done c e i it : headed c e (bytes_of "response.function_call_arguments.done") -> concerns c e i it -> of_item e it -> ci_stage it = ItemAdded ->
    is_call (ci_item it) -> same_field "name" e (ci_item it) -> string_field e "arguments" = Some (ci_text it) ->
    reads c e (progress c i (ci_item it) (ci_text it) TextDone)
| read_call_done c e i it item : headed c e (bytes_of "response.output_item.done") -> concerns c e i it -> ci_stage it = TextDone ->
    is_call (ci_item it) -> json_field e (bytes_of "item") = Some item -> same_field "id" item (ci_item it) -> same_field "type" item (ci_item it) ->
    same_field "call_id" item (ci_item it) -> same_field "name" item (ci_item it) -> string_field item "arguments" = Some (ci_text it) ->
    reads c e (progress c i item (ci_text it) ItemDone)
| read_terminal c e r status : headed c e (bytes_of "response." ++ status) -> cl_phase c = Open -> json_field e (bytes_of "response") = Some r ->
    string_field r "id" = Some (cl_id c) -> string_field r "status" = Some status -> Forall (fun it => ci_stage it = ItemDone) (cl_items c) ->
    json_field r (bytes_of "output") = Some (JArray (ci_item <$> cl_items c)) ->
    reads c e (next c (Closed r) (cl_items c))
(** A failure may come at any time; events that were not written are counted. *)
| read_failed c e r k : string_field e "type" = Some (bytes_of "response.failed") -> cl_phase c = Open -> cl_next c <= k ->
    json_field e (bytes_of "sequence_number") = Some (JUnsigned (u64 k)) -> json_field e (bytes_of "response") = Some r ->
    string_field r "id" = Some (cl_id c) -> string_field r "status" = Some (bytes_of "failed") ->
    reads c e (mkClient (cl_id c) (k + 1) (Closed r) (cl_items c)).

Inductive reads_all : Client -> list Json -> Client -> Prop :=
| reads_nil c : reads_all c [] c
| reads_cons c e c' es c'' : reads c e c' -> reads_all c' es c'' -> reads_all c (e :: es) c''.
#[export] Hint Constructors reads_all : core.
Lemma reads_all_app c es c' es' c'' : reads_all c es c' -> reads_all c' es' c'' -> reads_all c (es ++ es') c''.
Proof. induction 1; [done|]. intros H'. econstructor; [done|auto]. Qed.
Lemma reads_prefix c es es' c' : reads_all c (es ++ es') c' -> exists c1, reads_all c es c1.
Proof. revert c. induction es as [|e es IH]; intros c H; [by exists c|]. inversion H; subst. edestruct IH as [c1 Hc1]; [done|]. exists c1. by econstructor. Qed.

(** ** Events *)

Definition event_json (number : Z) (type_ : list Z) (fields : list (list Z * Json)) : Json :=
  set_field (bytes_of "sequence_number") (JUnsigned number) (set_field (bytes_of "type") (JString type_) (json_object fields)).
Lemma event_eq dump type_ fields s : event dump type_ fields s = (Ok (sse dump (event_json (sequence s) type_ fields)), set_sequence (u64 (sequence s + 1)) s).
Proof. done. Qed.
Definition item_event (number : Z) (type_ : string) (index : Z) (item : Json) : Json :=
  event_json number (bytes_of type_) [(bytes_of "output_index", JInteger index); (bytes_of "item", item)].
Definition part_event_json (number : Z) (type_ : string) (id : list Z) (index : Z) (fields : list (list Z * Json)) : Json :=
  event_json number (bytes_of type_) ([(bytes_of "item_id", JString id); (bytes_of "output_index", JInteger index); (bytes_of "content_index", JInteger 0)] ++ fields).

Lemma event_headed c n type_ fields : n = u64 (cl_next c) -> headed c (event_json n type_ fields) type_.
Proof.
  intros ->. unfold headed, string_field, event_json. rewrite !field_set by (by rewrite ?set_object). rewrite decide_False by done. by rewrite !decide_True.
Qed.
Lemma event_field n type_ fields k : k <> bytes_of "type" -> k <> bytes_of "sequence_number" -> json_field (event_json n type_ fields) k = json_field (json_object fields) k.
Proof. intros H1 H2. unfold event_json. rewrite !field_set by (by rewrite ?set_object). by rewrite !decide_False. Qed.
Lemma event_string n type_ fields k : bytes_of k <> bytes_of "type" -> bytes_of k <> bytes_of "sequence_number" -> string_field (event_json n type_ fields) k = string_field (json_object fields) k.
Proof. intros H1 H2. unfold string_field. by rewrite event_field. Qed.

Lemma u64_succ x : u64 (u64 x + 1) = u64 (x + 1).
Proof. unfold u64. rewrite Zplus_mod_idemp_l. done. Qed.

(** *** Text items: reasoning and messages *)

Section TextItems.
Context (b : bool).
Definition kind_text : list Z := if b then bytes_of "reasoning_text" else bytes_of "output_text".
Definition kind_item (id status : list Z) (content : list Json) : Json := if b then reasoning_item id status content else message_item id status content.
Definition kind_part (text : list Z) : Json := if b then reasoning_text_part text else output_text_part text.
Definition kind_logprobs : list (list Z * Json) := if b then [] else [(bytes_of "logprobs", JArray [])].
Definition delta_type : string := if b then "response.reasoning_text.delta" else "response.output_text.delta".
Definition done_type : string := if b then "response.reasoning_text.done" else "response.output_text.done".

(** [n]: the number of the first event. *)
Definition opened_events (n : Z) (id : list Z) (index : Z) : list Json :=
  [item_event (u64 n) "response.output_item.added" index (kind_item id (bytes_of "in_progress") []);
   part_event_json (u64 (n + 1)) "response.content_part.added" id index [(bytes_of "part", kind_part [])]].
Definition delta_event (n : Z) (id : list Z) (index : Z) (text : list Z) : Json :=
  part_event_json (u64 n) delta_type id index ((bytes_of "delta", JString text) :: kind_logprobs).
Definition closed_events (n : Z) (id : list Z) (index : Z) (text status : list Z) : list Json :=
  [part_event_json (u64 n) done_type id index ((bytes_of "text", JString text) :: kind_logprobs);
   part_event_json (u64 (n + 1)) "response.content_part.done" id index [(bytes_of "part", kind_part text)];
   item_event (u64 (n + 1 + 1)) "response.output_item.done" index (kind_item id status [kind_part text])].

Lemma kind_text_type id status content : text_type (kind_item id status content) = Some kind_text.
Proof. unfold kind_item, kind_text. destruct b; field_eq. Qed.
Lemma kind_id id status content : string_field (kind_item id status content) "id" = Some id.
Proof. unfold kind_item. destruct b; field_eq. Qed.
Lemma kind_type id status content : string_field (kind_item id status content) "type" = Some (if b then bytes_of "reasoning" else bytes_of "message").
Proof. unfold kind_item. destruct b; field_eq. Qed.
Lemma kind_status id status content : string_field (kind_item id status content) "status" = Some status.
Proof. unfold kind_item. destruct b; field_eq. Qed.
Lemma kind_content id status content : json_field (kind_item id status content) (bytes_of "content") = Some (JArray content).
Proof. unfold kind_item. destruct b; field_eq. Qed.
Lemma kind_part_of text : part_of (kind_part text) kind_text text.
Proof. unfold kind_part, kind_text. destruct b; split; field_eq. Qed.


(** The fields of the events. *)
Lemma item_event_fields n type_ index item : json_field (item_event n type_ index item) (bytes_of "output_index") = Some (JInteger index) /\
  json_field (item_event n type_ index item) (bytes_of "item") = Some item.
Proof. unfold item_event. split; (rewrite event_field by done; field_eq). Qed.
Lemma part_event_fields n type_ id index k v more : k <> bytes_of "item_id" -> k <> bytes_of "output_index" -> k <> bytes_of "content_index" ->
  k <> bytes_of "type" -> k <> bytes_of "sequence_number" -> more = [] \/ more = [(bytes_of "logprobs", JArray [])] /\ k <> bytes_of "logprobs" ->
  let e := part_event_json n type_ id index ((k, v) :: more) in
  string_field e "item_id" = Some id /\ json_field e (bytes_of "output_index") = Some (JInteger index) /\ json_field e (bytes_of "content_index") = Some (JInteger 0) /\
  json_field e k = Some v.
Proof.
  intros H1 H2 H3 H4 H5 H6. cbv zeta. unfold part_event_json, string_field. repeat (rewrite event_field; [|done|done]). unfold json_object. cbn [app].
  destruct H6 as [->|[-> H6]]; cbn [foldl json_field fst snd]; rewrite !find_set; split_and!; repeat (case_decide; try done).
Qed.

Lemma in_progress_reads c n id : cl_phase c = Open -> id <> [] -> n = cl_next c ->
  reads_all c (opened_events n id (Z.of_nat (length (cl_items c))))
    (mkClient (cl_id c) (cl_next c + 2) Open (cl_items c ++ [mkItem (kind_item id (bytes_of "in_progress") []) [] PartAdded])).
Proof.
  intros Hp Hid ->. set (item := kind_item id (bytes_of "in_progress") []). set (c1 := next c Open (cl_items c ++ [mkItem item [] ItemAdded])).
  destruct (item_event_fields (u64 (cl_next c)) "response.output_item.added" (Z.of_nat (length (cl_items c))) item) as [F1 F2].
  destruct (part_event_fields (u64 (cl_next c + 1)) "response.content_part.added" id (Z.of_nat (length (cl_items c))) (bytes_of "part") (kind_part []) [])
    as (G1 & G2 & G3 & G4); [done..|by left|].
  assert (R1 : reads c (item_event (u64 (cl_next c)) "response.output_item.added" (Z.of_nat (length (cl_items c))) item) c1).
  { apply (read_item_added _ _ item id); [by apply event_headed|done|done|done| |apply kind_status]. split; [|done].
    pose proof (kind_id id (bytes_of "in_progress") []) as Hk. unfold string_field in Hk. fold item in Hk. destruct (json_field item (bytes_of "id")) as [[]|]; congruence. }
  assert (R2 : reads c1 (part_event_json (u64 (cl_next c + 1)) "response.content_part.added" id (Z.of_nat (length (cl_items c))) [(bytes_of "part", kind_part [])])
      (progress c1 (length (cl_items c)) item [] PartAdded)).
  { apply (read_part_added _ _ _ (mkItem item [] ItemAdded) (kind_part []) kind_text); [by apply event_headed| | |done|apply kind_text_type|done|apply kind_part_of].
    - split; [done|]. split; [done|]. cbn. by rewrite lookup_app_r, Nat.sub_diag.
    - split; [|done]. unfold of_item. rewrite G1. symmetry. apply kind_id. }
  unfold opened_events. fold item. econstructor; [exact R1|]. econstructor; [exact R2|]. unfold progress, next, c1. cbn [cl_id cl_next cl_items next].
  rewrite insert_app_r_alt, Nat.sub_diag by done. cbn. replace (cl_next c + 1 + 1) with (cl_next c + 2) by lia. constructor.
Qed.

Lemma delta_reads c n i id text delta : cl_phase c = Open -> cl_items c !! i = Some (mkItem (kind_item id (bytes_of "in_progress") []) text PartAdded) -> delta <> [] ->
  n = cl_next c -> reads c (delta_event n id (Z.of_nat i) delta) (progress c i (kind_item id (bytes_of "in_progress") []) (text ++ delta) PartAdded).
Proof.
  intros Hp Hi Hd ->. unfold delta_event.
  destruct (part_event_fields (u64 (cl_next c)) delta_type id (Z.of_nat i) (bytes_of "delta") (JString delta) kind_logprobs) as (G1 & G2 & G3 & G4); [done..| |].
  { unfold kind_logprobs. destruct b; [by left|by right]. }
  apply (read_delta _ _ _ (mkItem (kind_item id (bytes_of "in_progress") []) text PartAdded) kind_text); [|done| |done|apply kind_text_type| |done].
  - replace (bytes_of "response." ++ kind_text ++ bytes_of ".delta") with (bytes_of delta_type); [by apply event_headed|].
    unfold delta_type, kind_text. by destruct b.
  - split; [|done]. unfold of_item. rewrite G1. symmetry. apply kind_id.
  - unfold string_field. by rewrite G4.
Qed.

Lemma closed_reads c n i id text status : cl_phase c = Open -> cl_items c !! i = Some (mkItem (kind_item id (bytes_of "in_progress") []) text PartAdded) ->
  n = cl_next c ->
  reads_all c (closed_events n id (Z.of_nat i) text status)
    (mkClient (cl_id c) (cl_next c + 3) Open (<[i := mkItem (kind_item id status [kind_part text]) text ItemDone]> (cl_items c))).
Proof.
  intros Hp Hi ->. set (item := kind_item id (bytes_of "in_progress") []). set (done_item := kind_item id status [kind_part text]).
  assert (Hlt : (i < length (cl_items c))%nat) by (by eapply lookup_lt_Some).
  set (c1 := progress c i item text TextDone). set (c2 := progress c1 i item text PartDone).
  destruct (part_event_fields (u64 (cl_next c)) done_type id (Z.of_nat i) (bytes_of "text") (JString text) kind_logprobs) as (G1 & G2 & G3 & G4); [done..| |].
  { unfold kind_logprobs. destruct b; [by left|by right]. }
  destruct (part_event_fields (u64 (cl_next c + 1)) "response.content_part.done" id (Z.of_nat i) (bytes_of "part") (kind_part text) []) as (K1 & K2 & K3 & K4); [done..|by left|].
  destruct (item_event_fields (u64 (cl_next c + 1 + 1)) "response.output_item.done" (Z.of_nat i) done_item) as [F1 F2].
  assert (R1 : reads c (part_event_json (u64 (cl_next c)) done_type id (Z.of_nat i) ((bytes_of "text", JString text) :: kind_logprobs)) c1).
  { apply (read_text_done _ _ _ (mkItem item text PartAdded) kind_text); [|done| |done|apply kind_text_type| ].
    - replace (bytes_of "response." ++ kind_text ++ bytes_of ".done") with (bytes_of done_type); [by apply event_headed|]. unfold done_type, kind_text. by destruct b.
    - split; [|done]. unfold of_item. rewrite G1. symmetry. apply kind_id.
    - unfold string_field. by rewrite G4. }
  assert (L1 : cl_items c1 !! i = Some (mkItem item text TextDone)) by (cbn; by apply list_lookup_insert_eq).
  assert (R2 : reads c1 (part_event_json (u64 (cl_next c + 1)) "response.content_part.done" id (Z.of_nat i) [(bytes_of "part", kind_part text)]) c2).
  { apply (read_part_done _ _ _ (mkItem item text TextDone) (kind_part text) kind_text); [by apply event_headed|done| |done|apply kind_text_type|done|apply kind_part_of].
    split; [|done]. unfold of_item. rewrite K1. symmetry. apply kind_id. }
  assert (L2 : cl_items c2 !! i = Some (mkItem item text PartDone)) by (cbn; apply list_lookup_insert_eq; by rewrite length_insert).
  assert (R3 : reads c2 (item_event (u64 (cl_next c + 1 + 1)) "response.output_item.done" (Z.of_nat i) done_item) (progress c2 i done_item text ItemDone)).
  { apply (read_item_done _ _ _ (mkItem item text PartDone) done_item (kind_part text) kind_text); [apply event_headed|done|done|apply kind_text_type|done| | |apply kind_content|apply kind_part_of].
    - done.
    - unfold same_field, done_item, item. cbn [ci_item]. by rewrite !kind_id.
    - unfold same_field, done_item, item. cbn [ci_item]. by rewrite !kind_type. }
  unfold closed_events. econstructor; [exact R1|]. econstructor; [exact R2|]. econstructor; [exact R3|]. unfold c2, c1, progress, next. cbn.
  rewrite !list_insert_insert_eq. replace (cl_next c + 1 + 1 + 1) with (cl_next c + 3) by lia. constructor.
Qed.
End TextItems.

(** *** Calls *)

Definition arguments_events (n : Z) (id : list Z) (index : Z) (arguments : list Z) : list Json :=
  if bool_decide (arguments = []) then []
  else [event_json (u64 n) (bytes_of "response.function_call_arguments.delta")
          [(bytes_of "item_id", JString id); (bytes_of "output_index", JInteger index); (bytes_of "delta", JString arguments)]].
Definition call_done_events (n : Z) (id : list Z) (index : Z) (call : ToolCall) : list Json :=
  [event_json (u64 n) (bytes_of "response.function_call_arguments.done")
     [(bytes_of "item_id", JString id); (bytes_of "output_index", JInteger index); (bytes_of "name", JString (tc_name call));
      (bytes_of "arguments", JString (arguments_json call))];
   item_event (u64 (n + 1)) "response.output_item.done" index (function_call_json id (bytes_of "completed") call (arguments_json call))].

Lemma call_fields id status call arguments : let item := function_call_json id status call arguments in
  json_field item (bytes_of "id") = Some (JString id) /\ string_field item "type" = Some (bytes_of "function_call") /\ string_field item "status" = Some status /\
  string_field item "call_id" = Some (tc_id call) /\ string_field item "name" = Some (tc_name call) /\ string_field item "arguments" = Some arguments.
Proof. cbv zeta. split_and!; field_eq. Qed.

Lemma call_added_reads c id call : cl_phase c = Open -> id <> [] ->
  reads c (item_event (u64 (cl_next c)) "response.output_item.added" (Z.of_nat (length (cl_items c))) (function_call_json id (bytes_of "in_progress") call []))
    (next c Open (cl_items c ++ [mkItem (function_call_json id (bytes_of "in_progress") call []) [] ItemAdded])).
Proof.
  intros Hp Hid. set (item := function_call_json _ _ _ _). destruct (call_fields id (bytes_of "in_progress") call []) as (F1 & _ & F3 & _).
  destruct (item_event_fields (u64 (cl_next c)) "response.output_item.added" (Z.of_nat (length (cl_items c))) item) as [G1 G2].
  by apply (read_item_added _ _ item id); [apply event_headed|..].
Qed.
Lemma arguments_reads c i id call : cl_phase c = Open -> cl_items c !! i = Some (mkItem (function_call_json id (bytes_of "in_progress") call []) [] ItemAdded) ->
  reads_all c (arguments_events (cl_next c) id (Z.of_nat i) (arguments_json call))
    (mkClient (cl_id c) (cl_next c + Z.of_nat (length (arguments_events (cl_next c) id (Z.of_nat i) (arguments_json call)))) Open
       (<[i := mkItem (function_call_json id (bytes_of "in_progress") call []) (arguments_json call) ItemAdded]> (cl_items c))).
Proof.
  intros Hp Hi. set (item := function_call_json _ _ _ _) in *. destruct (call_fields id (bytes_of "in_progress") call []) as (F1 & F2 & _). fold item in F1, F2.
  unfold arguments_events. case_bool_decide as Ha.
  - rewrite Ha, list_insert_id by done. cbn [length]. rewrite Z.add_0_r. destruct c; cbn in *; subst. constructor.
  - econstructor; [|constructor]. apply (read_arguments_delta _ _ i (mkItem item [] ItemAdded) (arguments_json call)); [by apply event_headed| | |done|done| |done].
    + split; [done|]. split; [rewrite event_field by done; field_eq|done].
    + unfold of_item, string_field. rewrite event_field by done. cbn [ci_item]. rewrite F1. field_eq.
    + unfold string_field. rewrite event_field by done. field_eq.
Qed.
Lemma call_done_reads c i id call : cl_phase c = Open ->
  cl_items c !! i = Some (mkItem (function_call_json id (bytes_of "in_progress") call []) (arguments_json call) ItemAdded) ->
  reads_all c (call_done_events (cl_next c) id (Z.of_nat i) call)
    (mkClient (cl_id c) (cl_next c + 2) Open (<[i := mkItem (function_call_json id (bytes_of "completed") call (arguments_json call)) (arguments_json call) ItemDone]> (cl_items c))).
Proof.
  intros Hp Hi. set (item := function_call_json id (bytes_of "in_progress") call []) in *. set (last := function_call_json id (bytes_of "completed") call (arguments_json call)).
  destruct (call_fields id (bytes_of "in_progress") call []) as (F1 & F2 & F3 & F4 & F5 & F6). destruct (call_fields id (bytes_of "completed") call (arguments_json call)) as (K1 & K2 & K3 & K4 & K5 & K6).
  fold item in F1, F2, F3, F4, F5, F6. fold last in K1, K2, K3, K4, K5, K6. assert (Hlt : (i < length (cl_items c))%nat) by (by eapply lookup_lt_Some).
  set (c1 := progress c i item (arguments_json call) TextDone). assert (L1 : cl_items c1 !! i = Some (mkItem item (arguments_json call) TextDone)) by (cbn; by apply list_lookup_insert_eq).
  destruct (item_event_fields (u64 (cl_next c + 1)) "response.output_item.done" (Z.of_nat i) last) as [G1 G2].
  unfold call_done_events. fold last. econstructor; [|econstructor; [|constructor]].
  - apply (read_arguments_done _ _ i (mkItem item (arguments_json call) ItemAdded)); [by apply event_headed| | |done|done| |].
    + split; [done|]. split; [rewrite event_field by done; field_eq|done].
    + unfold of_item, string_field. rewrite event_field by done. cbn [ci_item]. rewrite F1. field_eq.
    + unfold same_field. cbn [ci_item]. rewrite F5. unfold string_field. rewrite event_field by done. field_eq.
    + unfold string_field. rewrite event_field by done. field_eq.
  - replace (mkClient _ _ _ _) with (progress c1 i last (arguments_json call) ItemDone).
    + apply (read_call_done _ _ i (mkItem item (arguments_json call) TextDone)); [by apply event_headed|done|done|done|done| | | | |done]; unfold same_field; cbn [ci_item]; [|congruence..].
      unfold string_field. by rewrite K1, F1.
    + unfold progress, next, c1. cbn. rewrite list_insert_insert_eq. f_equal. lia.
Qed.

(** *** The response *)

Section Response.
Context (id : list Z) (created : Z) (request : ResponsesRequest) (runtime : ResponsesRuntimeValues).

Definition started_events : list Json :=
  [event_json (u64 0) (bytes_of "response.created") [(bytes_of "response", in_progress_response id created request runtime)];
   event_json (u64 (0 + 1)) (bytes_of "response.in_progress") [(bytes_of "response", in_progress_response id created request runtime)]].

Lemma common_object : is_object (response_common id created request runtime) = true.
Proof. done. Qed.
Lemma common_id : json_field (response_common id created request runtime) (bytes_of "id") = Some (JString id).
Proof. reflexivity. Qed.
Lemma in_progress_fields : is_object (in_progress_response id created request runtime) = true /\
  string_field (in_progress_response id created request runtime) "id" = Some id /\
  string_field (in_progress_response id created request runtime) "status" = Some (bytes_of "in_progress").
Proof.
  split; [done|]. unfold in_progress_response, string_field. rewrite !field_set by (by rewrite ?set_object). rewrite common_id. split; repeat (case_decide; try done).
Qed.
Lemma response_field n type_ r : json_field (event_json n type_ [(bytes_of "response", r)]) (bytes_of "response") = Some r.
Proof. rewrite event_field by done. field_eq. Qed.

Lemma started_reads : reads_all (client_init id) started_events (mkClient id 2 Open []).
Proof.
  destruct in_progress_fields as (_ & F1 & F2). econstructor; [eapply read_created; [by apply event_headed|done|apply response_field|done|done]|].
  econstructor; [eapply read_in_progress; [by apply event_headed|done|apply response_field|done|done]|]. constructor.
Qed.

Lemma failed_reads c n code message now : cl_id c = id -> cl_phase c = Open -> cl_next c <= n ->
  exists r, reads c (event_json (u64 n) (bytes_of "response.failed") [(bytes_of "response",
    set_field (bytes_of "error") (json_object [(bytes_of "code", if bool_decide (code = []) then JNull else JString code); (bytes_of "message", JString message)])
    (set_field (bytes_of "completed_at") (JInteger now) (set_field (bytes_of "status") (jstr "failed") (in_progress_response id created request runtime))))])
  (mkClient id (n + 1) (Closed r) (cl_items c)) /\ string_field r "status" = Some (bytes_of "failed").
Proof.
  intros Hc Hp Hn. set (r := set_field (bytes_of "error") _ _). exists r. rewrite <- Hc. destruct in_progress_fields as (F0 & F1 & F2).
  assert (H : string_field r "id" = Some id /\ string_field r "status" = Some (bytes_of "failed")).
  { unfold r, string_field in *. rewrite !field_set by (by rewrite ?set_object). split; repeat (case_decide; try done). }
  destruct H as [H1 H2]. split; [|done]. apply read_failed; [|done|done| |apply response_field|congruence|done].
  - apply (event_headed (mkClient [] n Open [])). done.
  - apply (event_headed (mkClient [] n Open []) (u64 n) (bytes_of "response.failed")). done.
Qed.
End Response.
