(* ===== verification/ResponsesStream.v ===== *)
(** * The stream of a response: its encoder and its connection

    What the encoder of [Responses] sends is read by the client of [ResponsesClient]: first operation by operation, for an
    encoder that has streamed some reasoning and some content, then for the handler of [ResponsesHttp], which writes to a
    connection that may end. *)
From Stdlib Require Import Strings.String.
From stdpp Require Import gmap.
From S2P Require Import ProgramState RequestPlan Prelude Unicode Admission Capacity Contract Output Tokenizer ToolCalls ToolCallsProofs ChatTemplate PrefixIdentity MediaCache Processor Preparation ResponseStore ResponseStoreProofs Requests RequestsProofs Serving ServingProofs Responses ResponsesProofs ResponsesHttp ResponsesClient.
#[local] Open Scope Z_scope.
#[local] Open Scope ninfer_scope.

(** ** The encoder *)

(** The result of a computation on an encoder that is written out. *)
Ltac run_impl :=
  cbv beta iota zeta delta [mbind_ mget mput mmodify mret_ mlift mthrow_if throw_if draw event take_output_index added_event done_event part_event
    negb orb andb
    set_sequence set_next_output_index set_reasoning_index set_message_index set_started set_reasoning_started set_reasoning_done set_message_started
    set_message_done set_finish_built set_terminal_emitted set_reasoning_text set_content_text set_ids set_rng
    sequence next_output_index reasoning_index message_index started reasoning_started reasoning_done message_started message_done finish_built
    terminal_emitted reasoning_text content_text ids rng reasoning_id message_id function_calls].

Section Encoder.
Context (json_dump : Json -> list Z) (random : nat -> Z).
Implicit Types (q noi ri mi : Z) (rs rd ms md fb te : bool) (rt ct : list Z) (given : ItemIds).

Lemma new_id prefix n : exists id n', id <> [] /\ new_response_item_id random prefix n = (Ok id, n').
Proof. eexists _, _. split; [|reflexivity]. intros [_ H]%app_nil. done. Qed.

Lemma ensure_reasoning_fresh q noi ri mi rd ms md fb te rt ct given n : exists rid n', rid <> [] /\
  ensure_reasoning json_dump random (mkImpl (u64 q) noi ri mi true false rd ms md fb te rt ct given n) =
  (Ok (sse json_dump <$> opened_events true q rid noi),
   mkImpl (u64 (q + 1 + 1)) (noi + 1) noi mi true true rd ms md fb te rt ct (mkItemIds rid (message_id given) (function_calls given)) n').
Proof.
  destruct (new_id (bytes_of "rs") n) as (rid & n' & Hr & Hd). exists rid, n'. split; [done|]. unfold ensure_reasoning. run_impl. rewrite Hd. run_impl.
  rewrite !u64_succ. reflexivity.
Qed.
Lemma ensure_message_fresh q noi ri mi rs rd md fb te rt ct given n : exists mid n', mid <> [] /\
  ensure_message json_dump random (mkImpl (u64 q) noi ri mi true rs rd false md fb te rt ct given n) =
  (Ok (sse json_dump <$> opened_events false q mid noi),
   mkImpl (u64 (q + 1 + 1)) (noi + 1) ri noi true rs rd true md fb te rt ct (mkItemIds (reasoning_id given) mid (function_calls given)) n').
Proof.
  destruct (new_id (bytes_of "msg") n) as (mid & n' & Hr & Hd). exists mid, n'. split; [done|]. unfold ensure_message. run_impl. rewrite Hd. run_impl.
  rewrite !u64_succ. reflexivity.
Qed.
Lemma close_reasoning_open q noi ri mi ms md fb te rt ct given n text status :
  close_reasoning json_dump text status (mkImpl (u64 q) noi ri mi true true false ms md fb te rt ct given n) =
  (Ok (sse json_dump <$> closed_events true q (reasoning_id given) ri text status),
   mkImpl (u64 (q + 1 + 1 + 1)) noi ri mi true true true ms md fb te text ct given n).
Proof. unfold close_reasoning. run_impl. rewrite !u64_succ. reflexivity. Qed.
Lemma close_message_open q noi ri mi rs rd fb te rt ct given n text status :
  close_message json_dump text status (mkImpl (u64 q) noi ri mi true rs rd true false fb te rt ct given n) =
  (Ok (sse json_dump <$> closed_events false q (message_id given) mi text status),
   mkImpl (u64 (q + 1 + 1 + 1)) noi ri mi true rs rd true true fb te rt text given n).
Proof. unfold close_message. run_impl. rewrite !u64_succ. reflexivity. Qed.
Lemma reasoning_delta_event_eq q noi ri mi rs rd ms md fb te rt ct given n text :
  reasoning_delta_event json_dump text (mkImpl (u64 q) noi ri mi true rs rd ms md fb te rt ct given n) =
  (Ok (sse json_dump (delta_event true q (reasoning_id given) ri text)), mkImpl (u64 (q + 1)) noi ri mi true rs rd ms md fb te rt ct given n).
Proof. unfold reasoning_delta_event. run_impl. rewrite !u64_succ. reflexivity. Qed.
Lemma output_text_delta_event_eq q noi ri mi rs rd ms md fb te rt ct given n text :
  output_text_delta_event json_dump text (mkImpl (u64 q) noi ri mi true rs rd ms md fb te rt ct given n) =
  (Ok (sse json_dump (delta_event false q (message_id given) mi text)), mkImpl (u64 (q + 1)) noi ri mi true rs rd ms md fb te rt ct given n).
Proof. unfold output_text_delta_event. run_impl. rewrite !u64_succ. reflexivity. Qed.

(** *** While the answer is streamed *)

Definition open_item (b : bool) (id text : list Z) : ClientItem := mkItem (kind_item b id (bytes_of "in_progress") []) text PartAdded.
Definition closed_item (b : bool) (id text status : list Z) : ClientItem := mkItem (kind_item b id status [kind_part b text]) text ItemDone.

(** An encoder that has sent [q] events, for this reasoning, this content and these items. *)
Inductive streaming (q : Z) : Impl -> list Z -> list Z -> list ClientItem -> Prop :=
| streaming_none n : streaming q (mkImpl (u64 q) 0 (-1) (-1) true false false false false false false [] [] (mkItemIds [] [] []) n) [] [] []
| streaming_reasoning rid r n : rid <> [] -> r <> [] ->
    streaming q (mkImpl (u64 q) 1 0 (-1) true true false false false false false r [] (mkItemIds rid [] []) n) r [] [open_item true rid r]
| streaming_content mid c n : mid <> [] -> c <> [] ->
    streaming q (mkImpl (u64 q) 1 (-1) 0 true false false true false false false [] c (mkItemIds [] mid []) n) [] c [open_item false mid c]
| streaming_both rid mid r c n : rid <> [] -> mid <> [] -> r <> [] -> c <> [] ->
    streaming q (mkImpl (u64 q) 2 0 1 true true true true false false false r c (mkItemIds rid mid []) n) r c
      [closed_item true rid r (bytes_of "completed"); open_item false mid c].

(** What an operation of the encoder sends is read. *)
Definition sends (id : list Z) (m : M Impl (list (list Z))) (s : Impl) (q : Z) (items : list ClientItem) (after : Z -> Impl -> list ClientItem -> Prop) : Prop :=
  exists es q' s' items', m s = (Ok (sse json_dump <$> es), s') /\ reads_all (mkClient id q Open items) es (mkClient id q' Open items') /\ after q' s' items'.

Lemma app_nonempty (r text : list Z) : text <> [] -> r ++ text <> [].
Proof. intros H [_ Ht]%app_nil. done. Qed.

Lemma reads_all_to c es c1 c2 : reads_all c es c1 -> c1 = c2 -> reads_all c es c2.
Proof. by intros H <-. Qed.
Lemma client_eq id q q' ph items : q = q' -> mkClient id q ph items = mkClient id q' ph items.
Proof. by intros ->. Qed.

Lemma opened_reads id b q iid items : iid <> [] ->
  reads_all (mkClient id q Open items) (opened_events b q iid (Z.of_nat (length items))) (mkClient id (q + 1 + 1) Open (items ++ [open_item b iid []])).
Proof.
  intros Hi. eapply reads_all_to; [by apply (in_progress_reads b (mkClient id q Open items) q iid)|]. cbn [cl_id cl_next cl_items]. by apply client_eq; lia.
Qed.
Lemma delta_reads' id b q iid items text delta : delta <> [] ->
  reads_all (mkClient id q Open (items ++ [open_item b iid text])) [delta_event b q iid (Z.of_nat (length items)) delta]
    (mkClient id (q + 1) Open (items ++ [open_item b iid (text ++ delta)])).
Proof.
  intros Hd. econstructor; [|constructor]. set (c := mkClient _ _ _ _). replace (mkClient _ _ _ _) with (progress c (length items) (kind_item b iid (bytes_of "in_progress") []) (text ++ delta) PartAdded).
  - apply delta_reads; [done| |done|done]. cbn. by rewrite lookup_app_r, Nat.sub_diag.
  - unfold progress, next, c. cbn. by rewrite insert_app_r_alt, Nat.sub_diag.
Qed.
Lemma closed_reads' id b q iid items text status :
  reads_all (mkClient id q Open (items ++ [open_item b iid text])) (closed_events b q iid (Z.of_nat (length items)) text status)
    (mkClient id (q + 1 + 1 + 1) Open (items ++ [closed_item b iid text status])).
Proof.
  eapply reads_all_to; [apply closed_reads; [done| |done]; cbn; by rewrite lookup_app_r, Nat.sub_diag|].
  cbn [cl_id cl_next cl_items]. rewrite insert_app_r_alt, Nat.sub_diag by done. cbn. by apply client_eq; lia.
Qed.

Lemma reasoning_delta_sends id q s r items text : streaming q s r [] items -> text <> [] ->
  sends id (reasoning_delta json_dump random text) s q items (fun q' s' items' => streaming q' s' (r ++ text) [] items').
Proof.
  intros Hs Ht. inversion Hs; subst; [| |done|done]; unfold sends, reasoning_delta.
  - destruct (ensure_reasoning_fresh q 0 (-1) (-1) false false false false false [] [] (mkItemIds [] [] []) n) as (rid & n' & Hr & He).
    eexists (opened_events true q rid 0 ++ [delta_event true (q + 1 + 1) rid 0 text]), _, _, _. split; [|split].
    + unfold mbind_ at 1 2 3 4. run_impl. rewrite bool_decide_false by done. rewrite He. run_impl. rewrite reasoning_delta_event_eq, fmap_app. reflexivity.
    + eapply reads_all_app; [by apply (opened_reads id true q rid [])|]. by apply (delta_reads' id true _ rid []).
    + by apply streaming_reasoning.
  - eexists [delta_event true q rid 0 text], _, _, _. split; [|split].
    + unfold ensure_reasoning. run_impl. rewrite bool_decide_false by done. rewrite reasoning_delta_event_eq. reflexivity.
    + by apply (delta_reads' id true _ rid []).
    + apply streaming_reasoning; [done|by apply app_nonempty].
Qed.
Lemma content_delta_sends id q s r c items text : streaming q s r c items -> text <> [] ->
  sends id (content_delta json_dump random text) s q items (fun q' s' items' => streaming q' s' r (c ++ text) items').
Proof.
  intros Hs Ht. inversion Hs; subst; unfold sends, content_delta.
  - destruct (ensure_message_fresh q 0 (-1) (-1) false false false false false [] [] (mkItemIds [] [] []) n) as (mid & n' & Hm & He).
    eexists (opened_events false q mid 0 ++ [delta_event false (q + 1 + 1) mid 0 text]), _, _, _. split; [|split].
    + unfold close_reasoning. run_impl. rewrite bool_decide_false by done. rewrite He. run_impl. rewrite output_text_delta_event_eq, fmap_app. reflexivity.
    + eapply reads_all_app; [by apply (opened_reads id false q mid [])|]. by apply (delta_reads' id false _ mid []).
    + by apply streaming_content.
  - destruct (ensure_message_fresh (q + 1 + 1 + 1) 1 0 (-1) true true false false false r [] (mkItemIds rid [] []) n) as (mid & n' & Hm & He).
    eexists (closed_events true q rid 0 r (bytes_of "completed") ++ opened_events false (q + 1 + 1 + 1) mid 1 ++ [delta_event false (q + 1 + 1 + 1 + 1 + 1) mid 1 text]), _, _, _.
    split; [|split].
    + unfold mbind_ at 1 2 3 4 5. run_impl. rewrite bool_decide_false by done. rewrite close_reasoning_open. run_impl. rewrite He. run_impl. rewrite output_text_delta_event_eq, !fmap_app. reflexivity.
    + eapply reads_all_app; [by apply (closed_reads' id true q rid [])|]. eapply reads_all_app; [by apply (opened_reads id false _ mid [closed_item true rid r (bytes_of "completed")])|].
      by apply (delta_reads' id false _ mid [closed_item true rid r (bytes_of "completed")]).
    + by apply streaming_both.
  - eexists [delta_event false q mid 0 text], _, _, _. split; [|split].
    + unfold close_reasoning, ensure_message. run_impl. rewrite bool_decide_false by done. rewrite output_text_delta_event_eq. reflexivity.
    + by apply (delta_reads' id false _ mid []).
    + apply streaming_content; [done|by apply app_nonempty].
  - eexists [delta_event false q mid 1 text], _, _, _. split; [|split].
    + unfold close_reasoning, ensure_message. run_impl. rewrite bool_decide_false by done. rewrite output_text_delta_event_eq. reflexivity.
    + by apply (delta_reads' id false _ mid [closed_item true rid r (bytes_of "completed")]).
    + apply streaming_both; [done..|by apply app_nonempty].
Qed.

(** *** When the answer is complete *)

Definition call_item (cid : list Z) (call : ToolCall) : Json := function_call_json cid (bytes_of "completed") call (arguments_json call).
Definition done_call (cid : list Z) (call : ToolCall) : ClientItem := mkItem (call_item cid call) (arguments_json call) ItemDone.

(** The events of a call. *)
Definition call_all_events (q : Z) (cid : list Z) (index : Z) (call : ToolCall) : list Json :=
  item_event (u64 q) "response.output_item.added" index (function_call_json cid (bytes_of "in_progress") call []) ::
  arguments_events (q + 1) cid index (arguments_json call) ++
  call_done_events (q + 1 + Z.of_nat (length (arguments_events (q + 1) cid index (arguments_json call)))) cid index call.
Lemma call_events_eq call q noi ri mi rs rd ms md fb te rt ct given n : exists cid n', cid <> [] /\
  let k := Z.of_nat (length (arguments_events (q + 1) cid noi (arguments_json call))) in
  call_events json_dump random call (mkImpl (u64 q) noi ri mi true rs rd ms md fb te rt ct given n) =
  (Ok (sse json_dump <$> call_all_events q cid noi call),
   mkImpl (u64 (q + 1 + k + 1 + 1)) (noi + 1) ri mi true rs rd ms md fb te rt ct
     (mkItemIds (reasoning_id given) (message_id given) (function_calls given ++ [cid])) n').
Proof.
  destruct (new_id (bytes_of "fc") n) as (cid & n' & Hr & Hd). exists cid, n'. split; [done|]. unfold call_events, call_all_events, arguments_events. run_impl.
  rewrite Hd. run_impl. case_bool_decide as Ha; cbn [length app]; run_impl; rewrite ?Z.add_0_r, !u64_succ; reflexivity.
Qed.
Lemma call_all_reads id q cid items call : cid <> [] ->
  reads_all (mkClient id q Open items) (call_all_events q cid (Z.of_nat (length items)) call)
    (mkClient id (q + 1 + Z.of_nat (length (arguments_events (q + 1) cid (Z.of_nat (length items)) (arguments_json call))) + 1 + 1) Open (items ++ [done_call cid call])).
Proof.
  intros Hc. unfold call_all_events. set (item := function_call_json cid (bytes_of "in_progress") call []). econstructor; [by apply (call_added_reads (mkClient id q Open items))|].
  unfold next. cbn [cl_id cl_next cl_items].
  eapply reads_all_app; [apply (arguments_reads (mkClient id (q + 1) Open (items ++ [mkItem item [] ItemAdded])) (length items) cid call); [done|]|]; cbn [cl_id cl_next cl_items].
  { by rewrite lookup_app_r, Nat.sub_diag. }
  rewrite insert_app_r_alt, Nat.sub_diag by done. cbn [insert list_insert].
  eapply reads_all_to; [apply call_done_reads; [done|]|]; cbn [cl_id cl_next cl_items]; [by rewrite lookup_app_r, Nat.sub_diag|].
  rewrite insert_app_r_alt, Nat.sub_diag by done. cbn [insert list_insert]. by apply client_eq; lia.
Qed.

Lemma calls_sent id calls : forall q items ri mi rs rd ms md fb te rt ct given n, exists cids es ess q' n',
  mmapM (call_events json_dump random) calls (mkImpl (u64 q) (Z.of_nat (length items)) ri mi true rs rd ms md fb te rt ct given n) =
  (Ok ess, mkImpl (u64 q') (Z.of_nat (length items + length calls)) ri mi true rs rd ms md fb te rt ct
     (mkItemIds (reasoning_id given) (message_id given) (function_calls given ++ cids)) n') /\
  concat ess = sse json_dump <$> es /\ Forall (fun cid => cid <> []) cids /\ length cids = length calls /\
  reads_all (mkClient id q Open items) es (mkClient id q' Open (items ++ zip_with done_call cids calls)).
Proof.
  induction calls as [|call calls IH]; intros.
  - exists [], [], [], q, n. cbn [mmapM length concat zip_with fmap list_fmap]. rewrite Nat.add_0_r, !app_nil_r. destruct given. by split_and!.
  - destruct (call_events_eq call q (Z.of_nat (length items)) ri mi rs rd ms md fb te rt ct given n) as (cid & n1 & Hc & He). cbv zeta in He.
    set (given1 := mkItemIds (reasoning_id given) (message_id given) (function_calls given ++ [cid])) in He.
    edestruct (IH (q + 1 + Z.of_nat (length (arguments_events (q + 1) cid (Z.of_nat (length items)) (arguments_json call))) + 1 + 1) (items ++ [done_call cid call])
      ri mi rs rd ms md fb te rt ct given1 n1) as (cids & es & ess & q' & n' & H1 & H2 & H3 & H4 & H5).
    exists (cid :: cids), (call_all_events q cid (Z.of_nat (length items)) call ++ es), ((sse json_dump <$> call_all_events q cid (Z.of_nat (length items)) call) :: ess), q', n'.
    split_and!.
    + cbn [mmapM]. unfold mbind_ at 1. rewrite He. unfold mbind_ at 1.
      replace (Z.of_nat (length items) + 1) with (Z.of_nat (length (items ++ [done_call cid call]))) by (rewrite length_app; cbn; lia). rewrite H1. unfold mret_, given1.
      cbn [reasoning_id message_id function_calls]. rewrite <- app_assoc, length_app. cbn [length app]. by rewrite <- Nat.add_assoc.
    + cbn [concat]. by rewrite H2, fmap_app.
    + by constructor.
    + cbn. by rewrite H4.
    + eapply reads_all_app; [by apply call_all_reads|]. cbn [zip_with]. rewrite <- app_assoc in H5. exact H5.
Qed.

(** The items of the output, when all ids are given. *)
Lemma call_items_given cids : forall calls n, Forall (fun cid => cid <> []) cids -> length cids = length calls ->
  call_items random cids calls n = (Ok (zip_with call_item cids calls), n).
Proof.
  induction cids as [|cid cids IH]; intros [|call calls] n Hc Hl; try done. apply Forall_cons in Hc as [Hc Hcs]. cbn [call_items head tail default]. unfold mbind_, id_or_new.
  change (default [] (Some cid)) with cid. rewrite bool_decide_false by done. unfold mret_ at 1. rewrite IH by (done || by injection Hl). done.
Qed.
Lemma id_given id prefix n : id <> [] -> id_or_new random id prefix n = (Ok id, n).
Proof. intros H. unfold id_or_new. by rewrite bool_decide_false. Qed.

Section Finish.
Context (id : list Z) (created : Z) (request : ResponsesRequest) (runtime : ResponsesRuntimeValues) (outcome : GenerationOutcome) (now : Z).

(** The texts of the output. *)
Definition text_outputs (rid mid : list Z) : list Json :=
  (if bool_decide (out_reasoning outcome = []) then [] else [reasoning_item rid (reasoning_status outcome) [reasoning_text_part (out_reasoning outcome)]]) ++
  (if needs_message outcome then [message_item mid (item_status outcome) [output_text_part (out_text outcome)]] else []).
Definition ids_for (rid mid : list Z) : Prop := (out_reasoning outcome <> [] -> rid <> []) /\ (needs_message outcome = true -> mid <> []).

(** A response that is made of this outcome without drawing ids. *)
Definition built (response : BuiltResponse) : Prop :=
  exists given n, build_response random id created request runtime outcome given now n = (Ok response, n).
Lemma build_given rid mid cids n : ids_for rid mid -> Forall (fun cid => cid <> []) cids -> length cids = length (out_tool_calls outcome) ->
  exists response, build_response random id created request runtime outcome (mkItemIds rid mid cids) now n = (Ok response, n) /\
    output_items response = text_outputs rid mid ++ zip_with call_item cids (out_tool_calls outcome).
Proof.
  intros [H1 H2] Hc Hl. unfold build_response, text_outputs. cbn [reasoning_id message_id function_calls]. unfold mbind_.
  case_bool_decide as Hr; (destruct (needs_message outcome) eqn:Hm; [specialize (H2 eq_refl)|]); unfold mret_; rewrite ?id_given by auto; rewrite ?id_given by auto;
    rewrite (call_items_given cids) by done; eexists; (split; [reflexivity|]); reflexivity.
Qed.
Lemma built_fields response : built response -> string_field (body response) "id" = Some id /\
  string_field (body response) "status" = Some (response_status (out_finish_reason outcome)) /\
  json_field (body response) (bytes_of "output") = Some (JArray (output_items response)).
Proof.
  intros (given & n & H). unfold build_response in H. apply mbind_Ok in H as (r & n1 & _ & H). apply mbind_Ok in H as (m & n2 & _ & H). apply mbind_Ok in H as (c & n3 & _ & H).
  unfold mret_ in H. assert (Hf : forall a b n n', (Ok a, n) = (Ok b, n') :> result BuiltResponse * nat -> a = b) by congruence. apply Hf in H as <-. cbn [Responses.body output_items].
  unfold string_field. rewrite !field_set by (by rewrite ?set_object). rewrite common_id. split_and!; repeat (case_decide; try done).
Qed.

(** The encoder has sent all but the last event. *)
Definition complete (response : BuiltResponse) (q : Z) (s : Impl) (items : list ClientItem) : Prop :=
  sequence s = u64 q /\ started s = true /\ finish_built s = true /\ terminal_emitted s = false /\ built response /\
  Forall (fun it => ci_stage it = ItemDone) items /\ ci_item <$> items = output_items response.

(** The last part of [finish]. *)
Definition finish_tail (k : list (list Z) -> list (list Z)) : M Impl (BuiltResponse * list (list Z)) :=
  let! calls := mmapM (call_events json_dump random) (out_tool_calls outcome) in
  let! s := mget in
  let! response := draw (build_response random id created request runtime outcome (ids s) now) in
  mret_ (response, k (concat calls)).
Lemma done_calls_items cids calls : ci_item <$> zip_with done_call cids calls = zip_with call_item cids calls.
Proof. revert calls. induction cids as [|cid cids IH]; intros [|call calls]; try done. cbn. f_equal. apply IH. Qed.
Lemma done_calls_done cids calls : Forall (fun it => ci_stage it = ItemDone) (zip_with done_call cids calls).
Proof. revert calls. induction cids as [|cid cids IH]; intros [|call calls]; cbn; constructor; done. Qed.
Lemma finish_tail_sends k q items ri mi rs rd ms md rt ct rid mid n :
  ci_item <$> items = text_outputs rid mid -> Forall (fun it => ci_stage it = ItemDone) items -> ids_for rid mid ->
  exists response es q' s' items', finish_tail k (mkImpl (u64 q) (Z.of_nat (length items)) ri mi true rs rd ms md true false rt ct (mkItemIds rid mid []) n) =
    (Ok (response, k (sse json_dump <$> es)), s') /\ reads_all (mkClient id q Open items) es (mkClient id q' Open items') /\ complete response q' s' items'.
Proof.
  intros Hi Hd Hids. destruct (calls_sent id (out_tool_calls outcome) q items ri mi rs rd ms md true false rt ct (mkItemIds rid mid []) n)
    as (cids & es & ess & q' & n' & H1 & H2 & H3 & H4 & H5). cbn [reasoning_id message_id function_calls app] in H1.
  destruct (build_given rid mid cids n' Hids H3 H4) as (response & Hb & Ho). unfold finish_tail, mbind_, mget, draw, mret_. rewrite H1. cbn [ids rng]. rewrite Hb, H2.
  do 5 eexists. split; [reflexivity|]. split; [exact H5|]. split_and!; try reflexivity; [by exists (mkItemIds rid mid cids), n'| |].
  - apply Forall_app. split; [done|]. apply done_calls_done.
  - by rewrite fmap_app, done_calls_items, Hi, Ho.
Qed.

Lemma needs_message_iff : needs_message outcome = true <-> out_text outcome <> [] \/ out_tool_calls outcome = [].
Proof. unfold needs_message. rewrite orb_true_iff, negb_true_iff, bool_decide_eq_false, bool_decide_eq_true. done. Qed.
Lemma reasoning_completed : out_text outcome <> [] -> reasoning_status outcome = bytes_of "completed".
Proof. intros H. unfold reasoning_status. by rewrite bool_decide_false. Qed.
Lemma text_outputs_none rid mid : out_reasoning outcome = [] -> needs_message outcome = false -> text_outputs rid mid = [].
Proof. intros H1 H2. unfold text_outputs. by rewrite bool_decide_true, H2. Qed.
Lemma text_outputs_reasoning rid mid : out_reasoning outcome <> [] -> needs_message outcome = false ->
  text_outputs rid mid = [reasoning_item rid (reasoning_status outcome) [reasoning_text_part (out_reasoning outcome)]].
Proof. intros H1 H2. unfold text_outputs. by rewrite bool_decide_false, H2. Qed.
Lemma text_outputs_message rid mid : out_reasoning outcome = [] -> needs_message outcome = true ->
  text_outputs rid mid = [message_item mid (item_status outcome) [output_text_part (out_text outcome)]].
Proof. intros H1 H2. unfold text_outputs. by rewrite bool_decide_true, H2. Qed.
Lemma text_outputs_both rid mid : out_reasoning outcome <> [] -> needs_message outcome = true ->
  text_outputs rid mid = [reasoning_item rid (reasoning_status outcome) [reasoning_text_part (out_reasoning outcome)];
                          message_item mid (item_status outcome) [output_text_part (out_text outcome)]].
Proof. intros H1 H2. unfold text_outputs. by rewrite bool_decide_false, H2. Qed.

(** What the operation sends before the calls, and the rest. *)
Lemma sent_then es1 q1 items1 k q items s0 :
  reads_all (mkClient id q Open items) es1 (mkClient id q1 Open items1) ->
  (exists response es q' s' items', finish_tail k s0 = (Ok (response, k (sse json_dump <$> es)), s') /\
     reads_all (mkClient id q1 Open items1) es (mkClient id q' Open items') /\ complete response q' s' items') ->
  (forall l, k (sse json_dump <$> l) = sse json_dump <$> (es1 ++ l)) ->
  exists response es q' s' items', finish_tail k s0 = (Ok (response, sse json_dump <$> es), s') /\
    reads_all (mkClient id q Open items) es (mkClient id q' Open items') /\ complete response q' s' items'.
Proof.
  intros H1 (response & es & q' & s' & items' & H2 & H3 & H4) Hk. rewrite Hk in H2. do 5 eexists. split; [exact H2|]. split; [|exact H4]. by eapply reads_all_app.
Qed.

(** The parts of [finish]. *)
Definition message_part : M Impl (list (list Z)) :=
  if needs_message outcome then
    let! added := ensure_message json_dump random in
    let! suffix := content_suffix json_dump (out_text outcome) in
    let! closed := close_message json_dump (out_text outcome) (item_status outcome) in
    mret_ (added ++ suffix ++ closed)
  else mret_ [].
Lemma stream_finish_parts s : stream_finish json_dump random id created request runtime outcome now s =
  (let! s := mget in
   do! mthrow_if (negb (started s) || finish_built s) LogicError;
   do! mmodify (set_finish_built true);
   let! a := unstreamed_reasoning json_dump random (out_reasoning outcome) in
   let! b := close_reasoning json_dump (out_reasoning outcome) (reasoning_status outcome) in
   let! m := message_part in
   finish_tail (fun l => a ++ b ++ m ++ l)) s.
Proof. reflexivity. Qed.
Lemma message_part_none s : needs_message outcome = false -> message_part s = (Ok [], s).
Proof. intros H. unfold message_part. by rewrite H. Qed.
Lemma message_part_fresh q noi ri mi rs rd rt given n : needs_message outcome = true -> out_text outcome = [] -> exists mid n', mid <> [] /\
  message_part (mkImpl (u64 q) noi ri mi true rs rd false false true false rt [] given n) =
  (Ok (sse json_dump <$> opened_events false q mid noi ++ closed_events false (q + 1 + 1) mid noi [] (item_status outcome)),
   mkImpl (u64 (q + 1 + 1 + 1 + 1 + 1)) (noi + 1) ri noi true rs rd true true true false rt [] (mkItemIds (reasoning_id given) mid (function_calls given)) n').
Proof.
  intros Hn Ht. destruct (ensure_message_fresh q noi ri mi rs rd false true false rt [] given n) as (mid & n' & Hm & He). exists mid, n'. split; [done|].
  unfold message_part, content_suffix. rewrite Hn, Ht. run_impl. rewrite He. run_impl. rewrite bool_decide_true by done. rewrite close_message_open. run_impl. by rewrite fmap_app.
Qed.
Lemma message_part_open q noi ri mi rs rd rt given n : needs_message outcome = true ->
  message_part (mkImpl (u64 q) noi ri mi true rs rd true false true false rt (out_text outcome) given n) =
  (Ok (sse json_dump <$> closed_events false q (message_id given) mi (out_text outcome) (item_status outcome)),
   mkImpl (u64 (q + 1 + 1 + 1)) noi ri mi true rs rd true true true false rt (out_text outcome) given n).
Proof.
  intros Hn. unfold message_part, content_suffix, ensure_message. rewrite Hn. run_impl. rewrite bool_decide_true by done. rewrite close_message_open. done.
Qed.

(** What [finish] does before the calls: it sends [es], which leads to these items. *)
Definition texts_sent (q : Z) (s : Impl) (items : list ClientItem) : Prop :=
  exists es k q' items' ri mi rs rd ms md rt ct rid mid n,
    stream_finish json_dump random id created request runtime outcome now s =
      finish_tail k (mkImpl (u64 q') (Z.of_nat (length items')) ri mi true rs rd ms md true false rt ct (mkItemIds rid mid []) n) /\
    (forall l, k (sse json_dump <$> l) = sse json_dump <$> (es ++ l)) /\
    reads_all (mkClient id q Open items) es (mkClient id q' Open items') /\
    ci_item <$> items' = text_outputs rid mid /\ Forall (fun it => ci_stage it = ItemDone) items' /\ ids_for rid mid.
Lemma fmap_two (a b l : list Json) : (sse json_dump <$> a) ++ (sse json_dump <$> b) ++ (sse json_dump <$> l) = sse json_dump <$> ((a ++ b) ++ l).
Proof. by rewrite !fmap_app, app_assoc. Qed.

Lemma texts_sent_intro es k q q' s items items' ri mi rs rd ms md rt ct rid mid n :
  (let! s := mget in
   do! mthrow_if (negb (started s) || finish_built s) LogicError;
   do! mmodify (set_finish_built true);
   let! a := unstreamed_reasoning json_dump random (out_reasoning outcome) in
   let! b := close_reasoning json_dump (out_reasoning outcome) (reasoning_status outcome) in
   let! m := message_part in
   finish_tail (fun l => a ++ b ++ m ++ l)) s =
      finish_tail k (mkImpl (u64 q') (Z.of_nat (length items')) ri mi true rs rd ms md true false rt ct (mkItemIds rid mid []) n) ->
  (forall l, k (sse json_dump <$> l) = sse json_dump <$> (es ++ l)) ->
  reads_all (mkClient id q Open items) es (mkClient id q' Open items') ->
  ci_item <$> items' = text_outputs rid mid -> Forall (fun it => ci_stage it = ItemDone) items' -> ids_for rid mid ->
  texts_sent q s items.
Proof. intros H1 H2 H3 H4 H5 H6. exists es, k, q', items', ri, mi, rs, rd, ms, md, rt, ct, rid, mid, n. rewrite stream_finish_parts. by split_and!. Qed.

Lemma finish_none q n : out_reasoning outcome = [] -> out_text outcome = [] ->
  texts_sent q (mkImpl (u64 q) 0 (-1) (-1) true false false false false false false [] [] (mkItemIds [] [] []) n) [].
Proof.
  intros Hr Hc. destruct (needs_message outcome) eqn:Hn.
  - destruct (message_part_fresh q 0 (-1) (-1) false false [] (mkItemIds [] [] []) n Hn Hc) as (mid & n' & Hm & He).
    eapply (texts_sent_intro (opened_events false q mid 0 ++ closed_events false (q + 1 + 1) mid 0 [] (item_status outcome)) _ q (q + 1 + 1 + 1 + 1 + 1) _ _
      [closed_item false mid [] (item_status outcome)]).
    + unfold unstreamed_reasoning, close_reasoning. rewrite Hr. run_impl. rewrite bool_decide_true by done. run_impl. rewrite He. reflexivity.
    + intros l. cbn beta. by rewrite fmap_app.
    + eapply reads_all_app; [by apply (opened_reads id false q mid [])|]. apply (closed_reads' id false _ mid []).
    + rewrite text_outputs_message by done. by rewrite Hc.
    + by repeat constructor.
    + by split; rewrite ?Hr.
  - eapply (texts_sent_intro [] _ q q _ _ []).
    + unfold unstreamed_reasoning, close_reasoning. rewrite Hr. run_impl. rewrite bool_decide_true by done. run_impl. rewrite message_part_none by done. reflexivity.
    + done.
    + constructor.
    + by rewrite text_outputs_none.
    + constructor.
    + split; [by rewrite Hr|by rewrite Hn].
Qed.
Lemma finish_reasoning q rid n : rid <> [] -> out_reasoning outcome <> [] -> out_text outcome = [] ->
  texts_sent q (mkImpl (u64 q) 1 0 (-1) true true false false false false false (out_reasoning outcome) [] (mkItemIds rid [] []) n) [open_item true rid (out_reasoning outcome)].
Proof.
  intros Hrid Hr Hc. pose (closed := closed_item true rid (out_reasoning outcome) (reasoning_status outcome)).
  pose (closing := closed_events true q rid 0 (out_reasoning outcome) (reasoning_status outcome)). destruct (needs_message outcome) eqn:Hn.
  - destruct (message_part_fresh (q + 1 + 1 + 1) 1 0 (-1) true true (out_reasoning outcome) (mkItemIds rid [] []) n Hn Hc) as (mid & n' & Hm & He).
    eapply (texts_sent_intro (closing ++ opened_events false (q + 1 + 1 + 1) mid 1 ++ closed_events false (q + 1 + 1 + 1 + 1 + 1) mid 1 [] (item_status outcome))
      _ q (q + 1 + 1 + 1 + 1 + 1 + 1 + 1 + 1) _ _ [closed; closed_item false mid [] (item_status outcome)]).
    + unfold unstreamed_reasoning. run_impl. rewrite bool_decide_false by done. rewrite close_reasoning_open. run_impl. rewrite He. reflexivity.
    + intros l. cbn beta. by rewrite !fmap_app, <- !app_assoc.
    + eapply reads_all_app; [by apply (closed_reads' id true q rid [])|]. eapply reads_all_app; [by apply (opened_reads id false _ mid [closed])|].
      apply (closed_reads' id false _ mid [closed]).
    + rewrite text_outputs_both by done. by rewrite Hc.
    + by repeat constructor.
    + done.
  - eapply (texts_sent_intro closing _ q (q + 1 + 1 + 1) _ _ [closed]).
    + unfold unstreamed_reasoning. run_impl. rewrite bool_decide_false by done. rewrite close_reasoning_open. run_impl. rewrite message_part_none by done. reflexivity.
    + intros l. cbn beta. by rewrite !fmap_app.
    + apply (closed_reads' id true q rid []).
    + by rewrite text_outputs_reasoning.
    + by repeat constructor.
    + split; [done|by rewrite Hn].
Qed.
Lemma finish_content q mid n : mid <> [] -> out_reasoning outcome = [] -> out_text outcome <> [] ->
  texts_sent q (mkImpl (u64 q) 1 (-1) 0 true false false true false false false [] (out_text outcome) (mkItemIds [] mid []) n) [open_item false mid (out_text outcome)].
Proof.
  intros Hmid Hr Hc. assert (Hn : needs_message outcome = true) by (apply needs_message_iff; by left).
  eapply (texts_sent_intro (closed_events false q mid 0 (out_text outcome) (item_status outcome)) _ q (q + 1 + 1 + 1) _ _ [closed_item false mid (out_text outcome) (item_status outcome)]).
  - unfold unstreamed_reasoning, close_reasoning. rewrite Hr. run_impl. rewrite bool_decide_true by done. run_impl. rewrite message_part_open by done. reflexivity.
  - intros l. cbn beta. by rewrite !fmap_app.
  - apply (closed_reads' id false q mid []).
  - by rewrite text_outputs_message.
  - by repeat constructor.
  - by split; rewrite ?Hr.
Qed.
Lemma finish_both q rid mid n : rid <> [] -> mid <> [] -> out_reasoning outcome <> [] -> out_text outcome <> [] ->
  texts_sent q (mkImpl (u64 q) 2 0 1 true true true true false false false (out_reasoning outcome) (out_text outcome) (mkItemIds rid mid []) n)
    [closed_item true rid (out_reasoning outcome) (bytes_of "completed"); open_item false mid (out_text outcome)].
Proof.
  intros Hrid Hmid Hr Hc. assert (Hn : needs_message outcome = true) by (apply needs_message_iff; by left).
  pose (closed := closed_item true rid (out_reasoning outcome) (bytes_of "completed")).
  eapply (texts_sent_intro (closed_events false q mid 1 (out_text outcome) (item_status outcome)) _ q (q + 1 + 1 + 1) _ _ [closed; closed_item false mid (out_text outcome) (item_status outcome)]).
  - unfold unstreamed_reasoning, close_reasoning. run_impl. rewrite bool_decide_false by done. run_impl. rewrite message_part_open by done. reflexivity.
  - intros l. cbn beta. by rewrite !fmap_app.
  - apply (closed_reads' id false q mid [closed]).
  - rewrite text_outputs_both by done. by rewrite reasoning_completed.
  - by repeat constructor.
  - done.
Qed.

Lemma stream_finish_sends q s items : streaming q s (out_reasoning outcome) (out_text outcome) items ->
  exists response es q' s' items', stream_finish json_dump random id created request runtime outcome now s = (Ok (response, sse json_dump <$> es), s') /\
    reads_all (mkClient id q Open items) es (mkClient id q' Open items') /\ complete response q' s' items'.
Proof.
  intros Hs. assert (Ht : texts_sent q s items).
  { inversion Hs; subst; [by apply finish_none|by apply finish_reasoning|by apply finish_content|by apply finish_both]. }
  destruct Ht as (es & k & q' & items' & ri & mi & rs & rd & ms & md & rt & ct & rid & mid & n & -> & Hk & Hread & Hi & Hd & Hids).
  eapply sent_then; [exact Hread|by apply finish_tail_sends|exact Hk].
Qed.

Lemma terminal_sends response q s items : complete response q s items -> exists e s', terminal json_dump response s = (Ok (sse json_dump e), s') /\
  reads (mkClient id q Open items) e (mkClient id (q + 1) (Closed (body response)) items).
Proof.
  intros (Hq & Hst & Hf & Ht & Hb & Hd & Hi). destruct (built_fields _ Hb) as (F1 & F2 & F3). unfold terminal, mbind_ at 1, mget, mthrow_if, mlift, throw_if. rewrite Hf, Ht.
  unfold mbind_ at 1, mmodify, mbind_ at 1. unfold mbind_ at 1.
  assert (Hs : json_field (body response) (bytes_of "status") = Some (JString (response_status (out_finish_reason outcome)))).
  { unfold string_field in F2. destruct (json_field (body response) (bytes_of "status")) as [[]|]; congruence. }
  rewrite Hs. cbv beta iota. set (type_ := if bool_decide _ then _ else _). rewrite event_eq. cbn [sequence set_terminal_emitted]. rewrite Hq. do 2 eexists. split; [reflexivity|].
  apply (read_terminal (mkClient id q Open items) _ (body response) (response_status (out_finish_reason outcome))); [|done|apply response_field|done|done|done|].
  - replace type_ with (bytes_of "response." ++ response_status (out_finish_reason outcome)); [by apply event_headed|]. unfold type_. by destruct (out_finish_reason outcome).
  - cbn [cl_items]. by rewrite Hi.
Qed.
End Finish.
End Encoder.

(** ** The stream *)

Section Streams.
Context `{JsonText, Sizes} (json_dump : Json -> list Z) (random : nat -> Z) (connected : nat -> bool).

(** What the engine gives at the end is what it published. *)
Definition published (deltas : list OutputDelta) (r : GenerationResult) : Prop :=
  gn_content r = concat (channel_texts Content deltas) /\ gn_reasoning r = concat (channel_texts Reasoning deltas) /\ Z.of_nat (length (gn_content r)) <= u64_max.

Lemma publish_calls tool_capable deltas : exists s, miter (publish tool_capable true true) deltas sink_init = (Ok tt, s) /\
  Forall (fun d => od_text d <> []) (sink_calls s) /\ (reasoning_first deltas -> reasoning_first (sink_calls s)).
Proof.
  assert (Hshown : forall l, Forall (fun d => od_text d <> []) (shown_deltas l)) by (intros l; apply Forall_forall; intros d Hd; by apply list_elem_of_filter in Hd as [? _]).
  destruct tool_capable.
  - destruct (filter_shows (nonempty (channel_texts Content deltas)) 0 (fun _ => 0)) as (p & shown & f & tail & f' & _ & Hf & _).
    destruct (publish_shows deltas sink_init shown f Hf) as (Hp & _). eexists. split; [exact Hp|]. split; [apply Hshown|]. intros Hd. by apply reasoning_first_shown, reasoning_first_replaced.
  - eexists. split; [apply publish_shows_all|]. split; [apply Hshown|]. intros Hd. by apply reasoning_first_shown, reasoning_first_shown.
Qed.
Lemma run_calls_shown prepared call_random deltas answer : reasoning_first deltas -> (forall r, answer = Ok r -> published deltas r) ->
  let '(calls, outcome) := run_calls prepared call_random deltas answer in
  Forall (fun d => od_text d <> []) calls /\ reasoning_first calls /\
  match answer with
  | Ok _ => exists o, outcome = Ok o /\ out_text o = concat (channel_texts Content calls) /\ out_reasoning o = concat (channel_texts Reasoning calls)
  | Err e => outcome = Err e
  end.
Proof.
  intros Hd Ha. unfold run_calls. destruct answer as [r|e].
  - destruct (Ha r eq_refl) as (Hc & Hr & Hl). destruct (run_shows (tool_capable prepared) (pr_tool_name_max_length prepared) call_random deltas r Hc Hl)
      as (o & s & verdict & Ho & Hrun & H1 & H2 & H3 & H4). rewrite Hrun. split; [done|]. split; [auto|]. eexists. split; [reflexivity|]. cbn [out_text out_reasoning with_streamed].
    split; [done|]. rewrite H2, concat_nonempty, <- Hr.
    destruct (outcome_exists (tool_capable prepared) (pr_tool_name_max_length prepared) call_random r) as (o' & v' & Ho' & Hr' & _). rewrite Ho in Ho'. by injection Ho' as <- <-.
  - destruct (publish_calls (tool_capable prepared) deltas) as (s & Hp & H1 & H2). rewrite Hp. by auto.
Qed.

(** *** What was written *)

Definition shows (id : list Z) (s : StreamState) (c : Client) : Prop := exists events, written s = sse json_dump <$> events /\ reads_all (client_init id) events c.
(** The connection ended; what was written is still readable. *)
Definition disconnected (id : list Z) (e : exn) (s : StreamState) : Prop := e = ClientDisconnected /\ (exists k, connected k = false) /\ exists c, shows id s c.

Lemma write_item id e c c' s : cancelled s = false -> shows id s c -> reads c e c' ->
  wp (write_stream_item connected (sse json_dump e)) (fun _ s' => shows id s' c' /\ cancelled s' = false /\ encoder s' = encoder s /\ stream_store s' = stream_store s)
    (disconnected id) s.
Proof.
  intros Hc (events & Hw & Hr) He. unfold write_stream_item. apply wp_bind, wp_get. rewrite Hc. cbn [orb]. destruct (connected (attempts s)) eqn:Hk; cbn [negb].
  - apply wp_put. split_and!; [|done..]. exists (events ++ [e]). cbn [written]. rewrite Hw, fmap_app. split; [done|]. eapply reads_all_app; [exact Hr|]. econstructor; [exact He|constructor].
  - apply wp_bind, wp_put, wp_throw. split; [done|]. split; [by eexists|]. exists c, events. done.
Qed.
Lemma write_items id es : forall c c' s, cancelled s = false -> shows id s c -> reads_all c es c' ->
  wp (write_stream_items connected (sse json_dump <$> es)) (fun _ s' => shows id s' c' /\ cancelled s' = false /\ encoder s' = encoder s /\ stream_store s' = stream_store s)
    (disconnected id) s.
Proof.
  induction es as [|e es IH]; intros c c' s Hc Hs Hr; inversion Hr; subst; cbn [write_stream_items miter fmap list_fmap]; [by apply wp_ret|]. apply wp_bind.
  eapply wp_mono; [by eapply write_item|intros _ s1 (L1 & L2 & L3 & L4)|done]. eapply wp_mono; [by eapply IH|intros _ s2 (K1 & K2 & K3 & K4)|done]. split_and!; congruence || done.
Qed.
Lemma wp_encode {A} (m : M Impl A) a e (Q : A -> StreamState -> Prop) E s : m (encoder s) = (Ok a, e) ->
  Q a (mkStream e (written s) (attempts s) (cancelled s) (stream_store s)) -> wp (encode m) Q E s.
Proof. intros Hm HQ. unfold wp, encode. by rewrite Hm. Qed.

Lemma wp_bind_inv {S A B} (m : M S A) (k : A -> M S B) Q E s : wp (mbind_ m k) Q E s -> wp m (fun a s' => wp (k a) Q E s') E s.
Proof. unfold wp, mbind_. by destruct (m s) as [[a|e] s']. Qed.
(** While the answer is streamed. *)
Record sending (id : list Z) (store : ResponseStore) (r c : list Z) (s : StreamState) : Prop := {
  sending_on : cancelled s = false;
  sending_store : stream_store s = store;
  sending_read : exists q items, streaming q (encoder s) r c items /\ shows id s (mkClient id q Open items);
}.
Lemma write_sent id store (m : M Impl (list (list Z))) s q items r c : cancelled s = false -> stream_store s = store -> shows id s (mkClient id q Open items) ->
  sends json_dump id m (encoder s) q items (fun q' e items' => streaming q' e r c items') ->
  wp (let! es := encode m in write_stream_items connected es) (fun _ => sending id store r c) (disconnected id) s.
Proof.
  intros Hc Hst Hs (es & q' & e & items' & Hm & Hr & Ha). apply wp_bind. eapply wp_encode; [exact Hm|].
  eapply wp_mono; [eapply (write_items id es _ (mkClient id q' Open items')); [exact Hc|exact Hs|exact Hr]|intros _ s' (K1 & K2 & K3 & K4)|done].
  cbn [encoder stream_store] in K3, K4. constructor; [done|congruence|]. exists q', items'. by rewrite K3.
Qed.
Lemma write_delta_sent id store r c d s : sending id store r c s -> od_text d <> [] -> (od_channel d = Reasoning -> c = []) ->
  wp (write_delta json_dump random connected d) (fun _ => match od_channel d with Reasoning => sending id store (r ++ od_text d) c | Content => sending id store r (c ++ od_text d) end)
    (disconnected id) s.
Proof.
  intros [Hon Hst (q & items & Hq & Hs)] Ht Hc. unfold write_delta. destruct (od_channel d).
  - eapply write_sent; [done|done|exact Hs|by apply content_delta_sends].
  - rewrite (Hc eq_refl) in *. eapply write_sent; [done|done|exact Hs|by apply reasoning_delta_sends].
Qed.
Lemma write_deltas_sent id store calls : forall r c s, sending id store r c s -> Forall (fun d => od_text d <> []) calls -> reasoning_first calls ->
  (c <> [] -> Forall (fun d => od_channel d = Content) calls) ->
  wp (miter (write_delta json_dump random connected) calls)
    (fun _ => sending id store (r ++ concat (channel_texts Reasoning calls)) (c ++ concat (channel_texts Content calls))) (disconnected id) s.
Proof.
  induction calls as [|[ch t] calls IH]; intros r c s Hs Ht Hf Hc; [cbn; rewrite !app_nil_r; by apply wp_ret|].
  apply Forall_cons in Ht as [Ht Hts]. destruct Hf as [Hf Hfs]. cbn [od_text od_channel] in *. cbn [miter]. apply wp_bind. rewrite !channel_texts_cons, !concat_app.
  eapply wp_mono; [apply write_delta_sent; [exact Hs|done|]|intros [] s' Hs'; cbv beta in Hs'|done]; cbn [od_text od_channel] in *.
  - intros ->. destruct (decide (c = [])); [done|]. exfalso. specialize (Hc ltac:(done)). by apply Forall_cons in Hc as [? _].
  - destruct ch; repeat case_decide; try done; cbn [concat app]; rewrite ?app_nil_r.
    + rewrite app_assoc. apply IH; [done..|]. intros _. by apply Hf.
    + rewrite app_assoc. apply IH; [done..|]. intros Hne. specialize (Hc Hne). by apply Forall_cons in Hc as [? _].
Qed.

Lemma reads_next c e c' : reads c e c' -> cl_next c <= cl_next c' /\ cl_id c' = cl_id c.
Proof. destruct 1; unfold progress, next; cbn; split; try done; lia. Qed.
Lemma reads_all_next c es c' : reads_all c es c' -> cl_next c <= cl_next c'.
Proof. induction 1 as [|c e c1 es c2 Hr _ IH]; [done|]. apply reads_next in Hr as [Hr _]. lia. Qed.
Lemma put_errors r s e s' : put r s = (Err e, s') -> e <> ClientDisconnected /\ e <> Abort_.
Proof.
  rewrite put_eq. do 3 (case_match; [by intros [= <-]|]). generalize (S (S (length (lru_ s)))) (inserted r s). intros fuel. induction fuel as [|fuel IH]; intros s0; [done|]. cbn [evict].
  unfold mbind_, mget, mlift, mret_. case_match; [done|]. destruct (choose_victim (sr_id r) (lru_ s0)) as [v|e'] eqn:Hv; [apply IH|]. intros [= <- _]. unfold choose_victim in Hv.
  repeat (case_match; try done); by injection Hv as <-.
Qed.

Section Body.
Context (id : list Z) (created now : Z) (address : Z * Z) (request : ResponsesRequest) (previous : ResponseContext) (prepared : PreparedRequest)
  (call_random : nat -> Z) (deltas : list OutputDelta) (answer : result GenerationResult) (store0 : ResponseStore).
Let runtime := runtime_values prepared None.
Let record_of (response : BuiltResponse) := stored_response id address request previous prepared response.

(** The response was kept, when it was to be kept. *)
Definition kept_response (response : BuiltResponse) (store' : ResponseStore) : Prop :=
  if store request then put (record_of response) store0 = (Ok tt, store') else store' = store0.
(** The client has the response that the store has, with every item of its output. *)
Definition delivered (c : Client) (store' : ResponseStore) : Prop :=
  exists outcome response, (run_calls prepared call_random deltas answer).2 = Ok outcome /\ built random id created request runtime outcome now response /\
    kept_response response store' /\ cl_phase c = Closed (body response) /\ ci_item <$> cl_items c = output_items response /\ Forall (fun it => ci_stage it = ItemDone) (cl_items c).
(** Why a response fails. *)
Definition failure (e : exn) : Prop :=
  answer = Err e \/ store request = true /\ exists outcome response, (run_calls prepared call_random deltas answer).2 = Ok outcome /\
    built random id created request runtime outcome now response /\ (put (record_of response) store0).1 = Err e.
(** A failure can be sent. *)
Definition failable (s : StreamState) : Prop := cancelled s = false /\ exists q k items, shows id s (mkClient id q Open items) /\ q <= k /\
  sequence (encoder s) = u64 k /\ started (encoder s) = true /\ terminal_emitted (encoder s) = false.

Lemma streaming_failable s q r c items : cancelled s = false -> streaming q (encoder s) r c items -> shows id s (mkClient id q Open items) -> failable s.
Proof. intros Hc Hq Hs. split; [done|]. exists q, q, items. split; [done|]. split; [lia|]. by inversion Hq. Qed.

Lemma start_sent n : wp (let! items := encode (start json_dump id created request runtime) in write_stream_items connected items)
  (fun _ => sending id store0 [] []) (disconnected id) (mkStream (impl_init n) [] 0 false store0).
Proof.
  apply wp_bind. eapply (wp_encode _ (sse json_dump <$> started_events id created request runtime)); [reflexivity|].
  eapply wp_mono; [eapply (write_items id _ _ (mkClient id 2 Open [])); [done| |apply started_reads]|intros [] s (K1 & K2 & K3 & K4)|done].
  - exists []. split; [done|]. constructor.
  - constructor; [done|done|]. exists 2, []. rewrite K3. split; [apply streaming_none|done].
Qed.

(** The end of a stream, once the engine has given its answer. *)
Definition last_part (outcome : GenerationOutcome) : M StreamState unit :=
  let! (response, events_before_terminal) := encode (stream_finish json_dump random id created request runtime outcome now) in
  do! mwhen (store request) (stream_put (record_of response));
  do! write_stream_items connected events_before_terminal;
  let! item := encode (terminal json_dump response) in
  write_stream_item connected item.
Lemma last_part_sent outcome s : (run_calls prepared call_random deltas answer).2 = Ok outcome -> sending id store0 (out_reasoning outcome) (out_text outcome) s ->
  wp (last_part outcome) (fun _ s' => exists c, shows id s' c /\ delivered c (stream_store s'))
    (fun e s' => disconnected id e s' \/ failable s' /\ e <> ClientDisconnected /\ e <> Abort_ /\ failure e) s.
Proof.
  intros Ho [Hon Hst (q & items & Hq & Hs)]. unfold last_part.
  destruct (stream_finish_sends json_dump random id created request runtime outcome now q (encoder s) items Hq) as (response & es & q' & e & items' & Hf & Hr & Hc).
  apply wp_bind. eapply wp_encode; [exact Hf|]. apply wp_bind. set (s1 := mkStream _ _ _ _ _). assert (Hb : built random id created request runtime outcome now response) by apply Hc.
  eapply (wp_mono _ (fun _ s2 => cancelled s2 = false /\ encoder s2 = e /\ shows id s2 (mkClient id q Open items) /\ kept_response response (stream_store s2))); [|intros [] s2 (L1 & L2 & L3 & L4)|intros ? ? HE; exact HE].
  { unfold kept_response. destruct (store request) eqn:Hstore; cbn [mwhen]; [|by apply wp_ret]. unfold wp, stream_put. cbn [s1 stream_store]. rewrite Hst.
    destruct (put (record_of response) store0) as [[[]|e'] store'] eqn:Hput; [done|]. right. destruct (put_errors _ _ _ _ Hput) as [P1 P2].
    split; [|split_and!; [done..|right; split; [done|]; exists outcome, response; by rewrite Hput]]. split; [done|]. exists q, q', items. destruct Hc as (C1 & C2 & C3 & C4 & _).
    split; [exact Hs|]. split; [by apply reads_all_next in Hr|]. done. }
  apply wp_bind. eapply wp_mono; [eapply (write_items id es _ _ s2 L1 L3 Hr)|intros [] s3 (K1 & K2 & K3 & K4)|by left].
  destruct (terminal_sends json_dump random id created request runtime outcome now response q' e items' Hc) as (te & e2 & Ht & Htr).
  apply wp_bind. eapply wp_encode; [rewrite K3, L2; exact Ht|]. eapply wp_mono; [eapply (write_item id te); [done|exact K1|exact Htr]|intros [] s4 (J1 & J2 & J3 & J4)|by left].
  cbn [stream_store] in J4. eexists. split; [exact J1|]. exists outcome, response. cbn [cl_phase cl_items]. destruct Hc as (_ & _ & _ & _ & _ & C1 & C2). split_and!; try done. by rewrite J4, K4.
Qed.

Lemma stream_body_sent n : reasoning_first deltas -> (forall r, answer = Ok r -> published deltas r) ->
  answer <> Err ClientDisconnected -> answer <> Err Abort_ ->
  wp (stream_body json_dump random connected id created now address request previous prepared call_random deltas answer)
    (fun _ s' => exists c, shows id s' c /\ delivered c (stream_store s'))
    (fun e s' => disconnected id e s' \/ failable s' /\ e <> ClientDisconnected /\ e <> Abort_ /\ failure e) (mkStream (impl_init n) [] 0 false store0).
Proof.
  intros Hd Ha H1 H2. pose proof (run_calls_shown prepared call_random deltas answer Hd Ha) as Hrun. pose proof last_part_sent as Hlast. unfold last_part in Hlast.
  unfold stream_body. destruct (run_calls prepared call_random deltas answer) as [calls outcome] eqn:Hcalls. destruct Hrun as (Hne & Hrf & Hout).
  apply wp_bind. eapply wp_mono; [exact (wp_bind_inv _ _ _ _ _ (start_sent n))|intros items s1 Hstart|by left]. cbv beta in Hstart.
  apply wp_bind. eapply wp_mono; [exact Hstart|intros [] s2 Hs2|by left].
  apply wp_bind. eapply wp_mono; [by apply (write_deltas_sent id store0 calls [] [] s2)|intros [] s3 Hs3|by left]. cbn [app] in Hs3.
  apply wp_bind, wp_lift; [intros o Ho|intros e He].
  - destruct answer as [r|e]; [|congruence]. destruct Hout as (o' & Ho' & Htext & Hre). rewrite Ho in Ho'. injection Ho' as <-. apply Hlast; [exact Ho|]. by rewrite Htext, Hre.
  - destruct answer as [r|e'] eqn:Hans; [destruct Hout as (? & ? & _); congruence|]. rewrite He in Hout. injection Hout as ->. right. destruct Hs3 as [Hon Hst (q & items' & Hq & Hs)].
    split; [by eapply streaming_failable|]. split; [congruence|]. split; [congruence|]. left. exact Hans.
Qed.

(** How a stream ends for the client. *)
Definition followed (verdict : result bool) (c : Client) (store' : ResponseStore) : Prop :=
  match verdict with
  | Ok true => delivered c store' \/ (exists b e, cl_phase c = Closed b /\ string_field b "status" = Some (bytes_of "failed") /\ failure e)
  | Ok false => exists k, connected k = false
  | Err _ => False
  end.

End Body.
End Streams.

(** ** A small stream *)
Module StreamSample.
Import ResponsesSample ServingSample.

#[local] Instance json_text : JsonText := {| json_value := list Z; json_parse := fun _ => None; json_string := fun s => s;
  json_dump_object := fun items => concat (fst <$> items) |}.
#[local] Instance sizes : Sizes := {| sizeof_ChatTurn := 8; sizeof_ContentPart := 8; sizeof_ToolCall := 8; sizeof_ResponseContextNode := 8;
  sizeof_StoredResponse := 8; sizeof_json := 8; response_dump := fun _ => [123; 125] |}.
Definition prepared : PreparedRequest := mkPrepared (RequestPlan.mkResolved 0 20 0 0 0 0 1) true 64 false.
#[local] Abbreviation run_sample connected :=
  (stream_response (fun _ => [123; 125]) draw connected (fun _ => []) (fun _ => []) (bytes_of "resp_1") 9 10 (1, 2) sample_request NoContext prepared
    (fun _ => 0) deltas (Ok answer) (mkStream (impl_init 0) [] 0 false (mkStore 2 1000 ∅ [] 0))).

End StreamSample.
