(* ===== verification/ProgramBundle.v ===== *)
(** * The KV bundle of a lane

    The operations of the program on a lane's KV bundle, in terms of the pages mapped, the pages
    entitled to and the block-table row of its two allocations ([kv_is]). *)
From S2P Require Import Prelude Tensor Layout PagedKV PagedKVProofs PrefixIdentity VisionControl Admission Capacity Contract ProgramState RequestPlan Program ProgramDecode ProgramLanes.
#[local] Open Scope Z_scope.

(** ** Results that are not [std::abort] *)

Definition clean {A} (r : result A) : Prop := r <> Err Abort_.
Lemma clean_Ok {A} (a : A) : clean (Ok a). Proof. done. Qed.
Lemma clean_bind {A B} (r : result A) (k : A -> result B) : clean r -> (forall a, r = Ok a -> clean (k a)) -> clean (rbind r k).
Proof. unfold clean. destruct r as [a|e]; cbn; [intros _ H; by apply H|congruence]. Qed.
Lemma clean_throw_if (b : bool) e : e <> Abort_ -> clean (throw_if b e).
Proof. unfold clean, throw_if. destruct b; congruence. Qed.
Lemma clean_err {A} (r : result A) e : clean r -> r = Err e -> e <> Abort_.
Proof. unfold clean. congruence. Qed.
Create HintDb clean discriminated.
#[export] Hint Resolve clean_Ok : clean.
Ltac clean_tac :=
  repeat first
    [ apply clean_Ok | solve [eauto with clean] | (apply clean_throw_if; discriminate)
    | (apply clean_bind; [|intros ? ?]) | case_match | progress (intros; simplify_eq) | discriminate ].

Lemma checked_mul_i64_clean a b : clean (checked_mul_i64 a b).
Proof. unfold checked_mul_i64. clean_tac. Qed.
#[export] Hint Resolve checked_mul_i64_clean : clean.
Lemma normalize_shape_clean shape : clean (normalize_shape shape).
Proof.
  unfold normalize_shape. assert (clean (check_dims shape)) by (induction shape; cbn; clean_tac). clean_tac.
Qed.
Lemma shape_numel_from_clean shape total : clean (shape_numel_from total shape).
Proof. revert total; induction shape; intros total; cbn; clean_tac. Qed.
Lemma strides_from_clean dims stride : clean (strides_from stride dims).
Proof. revert stride; induction dims; intros stride; cbn; clean_tac. Qed.
Lemma is_contiguous_from_clean dims i expected : clean (is_contiguous_from i expected dims).
Proof.
  revert i expected; induction dims as [|[n b] dims IH]; intros i expected; cbn; [clean_tac|].
  repeat case_match; try done; try apply IH.
  pose proof (checked_mul_i64_clean expected n). congruence.
Qed.
#[export] Hint Resolve normalize_shape_clean shape_numel_from_clean strides_from_clean is_contiguous_from_clean : clean.
Lemma block_table_row_clean p row : clean (block_table_row p row).
Proof.
  unfold block_table_row, slice, Tensor.view, is_contiguous, make_tensor, set_contiguous_strides, numel, shape_numel.
  clean_tac.
Qed.

(** ** Bundles of the store *)

Lemma kv_safe_throw {A} e : kv_safe (mthrow e : M store A). Proof. by intros st H. Qed.

Lemma validate_distinct_clean seen rs : clean (validate_distinct_pools seen rs).
Proof. revert seen; induction rs; intros seen; cbn; clean_tac. Qed.

Lemma riter_clean {A} (f : A -> result unit) l : Forall (fun x => clean (f x)) l -> clean (riter f l).
Proof. induction 1; cbn; [done|]. by apply clean_bind. Qed.

Lemma riter_err {A} (f : A -> result unit) l e : riter f l = Err e -> exists x, x ∈ l /\ f x = Err e.
Proof.
  induction l as [|x l IH]; cbn; [done|]. destruct (f x) as [[]|e'] eqn:Ex; cbn.
  - intros (y & Hy & Hf)%IH. exists y. split; [by right|done].
  - intros [= ->]. exists x. split; [by left|done].
Qed.

(** A reservation succeeds, or fails and changes nothing; it fails only for a wrong bundle or for want
    of pages. *)
Lemma reserve_bundle_run rs st : store_inv st -> NoDup rs.*1 ->
  Forall (fun r => st_allocs st !! r.1 = None) rs ->
  Forall (fun r => is_u32 (rv_entitlement r.2) /\ exists q P, rv_pool r.2 = Some q /\ st_pools st !! q = Some P) rs ->
  (exists st', reserve_paged_kv_bundle rs st = (Ok tt, st') /\ store_inv st' /\ same_specs st st' /\
     (forall r, r ∈ rs -> st_allocs st' !! r.1 = Some (mkAlloc (rv_pool r.2) [] (rv_entitlement r.2) (-1))) /\
     (forall id, id ∉ rs.*1 -> st_allocs st' !! id = st_allocs st !! id)) \/
  (exists e, reserve_paged_kv_bundle rs st = (Err e, st) /\ e <> Abort_ /\
     (validate_distinct_pools [] rs.*2 = Err e \/ e = BadAlloc /\ exists r, r ∈ rs /\ check_reservation st r.2 = Err BadAlloc)).
Proof.
  intros Hst Hid Hfree Hpools.
  assert (Hsafe : kv_safe (reserve_paged_kv_bundle rs)).
  { apply kv_safe_bind; [apply kv_safe_lift|intros _]. apply kv_safe_bind; [apply kv_safe_get|intros s].
    apply kv_safe_bind; [apply kv_safe_lift|intros _]. apply kv_safe_bind; [|intros; apply kv_safe_ret].
    apply kv_safe_map. eapply Forall_impl; [exact Hpools|]. intros [id r] [Hr _]. by apply kv_safe_reserve. }
  destruct (Hsafe st Hst) as [S1 S2]. destruct (reserve_paged_kv_bundle rs st) as [r st'] eqn:H. cbn in S1, S2.
  unfold reserve_paged_kv_bundle, mbind_ at 1, mlift in H.
  destruct (validate_distinct_pools [] rs.*2) as [[]|e] eqn:Hv.
  2: { injection H as <- <-. right. exists e. split_and!; [done| |by left].
       by eapply clean_err, Hv; apply validate_distinct_clean. }
  unfold mbind_ at 1, mget in H. unfold mbind_ at 1 in H.
  destruct (riter (check_reservation st) rs.*2) as [[]|e] eqn:Hc.
  2: { injection H as <- <-. right. exists e. apply riter_err in Hc as (r & Hr & Hc).
       apply list_elem_of_fmap in Hr as (x & -> & Hx).
       rewrite Forall_forall in Hpools. destruct (Hpools _ Hx) as (_ & q & P & Hq & HP).
       assert (e = BadAlloc) as ->; [|by eauto 10].
       unfold check_reservation in Hc. rewrite Hq in Hc. cbn in Hc. rewrite HP in Hc.
       unfold throw_if in Hc. destruct (negb _); congruence. }
  apply validate_distinct_Ok in Hv as (qs & Hqs & Hnd & _). apply riter_Ok in Hc.
  assert (Hps : rv_pool <$> rs.*2 = Some <$> qs)
    by (clear -Hqs; induction Hqs as [|? ? ? ? [? ?] _ IH]; cbn; congruence).
  destruct (reserve_all st rs st) as (us & st1 & Hm & Hall & Hoth); [|rewrite Hps; by apply NoDup_fmap_2; [intros ? ? [= ->]|]|done|done|].
  - rewrite Forall_fmap in Hc. apply Forall_forall. intros x Hx. rewrite Forall_forall in Hc, Hpools.
    destruct (Hpools _ Hx) as (_ & q & P & Hq & _). exists q. split_and!; [done..|by apply Hc].
  - unfold mbind_ in H. rewrite Hm in H. injection H as <- <-. left. exists st1. split_and!; try done. by apply Forall_forall.
Qed.

Lemma validate_resizes_clean st seen cs :
  Forall (fun c => exists id a q p, rz_allocation c = Some id /\ st_allocs st !! id = Some a /\ pool_ a = Some q /\
    st_pools st !! q = Some p) cs -> clean (validate_resizes st seen cs).
Proof.
  intros H. revert seen; induction H as [|c cs (id & a & q & p & H1 & H2 & H3 & H4) _ IH]; intros seen; cbn; [done|].
  rewrite H1, H2, H3, H4. clean_tac.
Qed.

Lemma resize_bundle_run cs st : store_inv st ->
  Forall (fun c => is_u32 (rz_mapped_pages c) /\ is_u32 (rz_entitlement c) /\
    exists id a q p, rz_allocation c = Some id /\ st_allocs st !! id = Some a /\ pool_ a = Some q /\ st_pools st !! q = Some p) cs ->
  (exists st', resize_paged_kv_bundle cs st = (Ok tt, st') /\ store_inv st' /\ same_specs st st' /\
     (forall c id a, c ∈ cs -> rz_allocation c = Some id -> st_allocs st !! id = Some a ->
        rz_mapped_pages c <= mapped_page_count a /\
        st_allocs st' !! id = Some (resized a (rz_mapped_pages c) (rz_entitlement c))) /\
     (forall id, Some id ∉ rz_allocation <$> cs -> st_allocs st' !! id = st_allocs st !! id)) \/
  (exists e, resize_paged_kv_bundle cs st = (Err e, st) /\ e <> Abort_).
Proof.
  intros Hst Hcs.
  assert (Hsafe : kv_safe (resize_paged_kv_bundle cs)).
  { apply kv_safe_bind; [apply kv_safe_get|intros s]. apply kv_safe_bind; [apply kv_safe_lift|intros _].
    apply kv_safe_bind; [|intros; apply kv_safe_ret]. apply kv_safe_map. eapply Forall_impl; [exact Hcs|].
    intros c ([? ?] & [? ?] & _). apply kv_safe_bind; [|intros []]; apply kv_safe_on_alloc.
    - by apply trim_pages_safe.
    - by apply set_page_entitlement_safe. }
  destruct (Hsafe st Hst) as [S1 S2]. destruct (resize_paged_kv_bundle cs st) as [r st'] eqn:H. cbn in S1, S2.
  unfold resize_paged_kv_bundle, mbind_ at 1, mget, mlift in H. unfold mbind_ at 1 in H.
  destruct (validate_resizes st [] cs) as [[]|e] eqn:Hv.
  2: { injection H as <- <-. right. exists e. split; [done|]. eapply clean_err, Hv. apply validate_resizes_clean.
       eapply Forall_impl; [exact Hcs|]. by intros c (_ & _ & H). }
  destruct (resize_all st [] cs st Hv) as (us & st1 & Hm & Hres & Hoth); [|done|].
  - eapply Forall_impl; [exact Hcs|]. intros c ([? ?] & _). done.
  - unfold mbind_ in H. rewrite Hm in H. injection H as <- <-. left. exists st1. split_and!; try done.
    intros c id a Hc Hid Ha. split; [|by eapply Hres]. apply validate_resizes_Ok in Hv.
    rewrite Forall_forall in Hv. destruct (Hv _ Hc) as (id' & a' & q & p & ? & ? & _ & _ & ? & _). by simplify_eq.
Qed.

Section Bundle.
Context `{CF : ProgramConfig, DV : Device}.
Context `{CL : !ProgramConfigLaws, DL : !DeviceLaws}.
Context (lane : nat) (Hlane : (lane < kMaximumConcurrency)%nat).
Implicit Types (E : exn -> LaneView -> Prop) (v : LaneView).

(** ** Operations of the store on both allocations *)

Definition store_view (st : store) (v : LaneView) : LaneView :=
  mkView (lv_seq v) (lv_req v) (st_allocs st !! text_address lane) (st_allocs st !! backend_address lane).

(** What a store operation on the lane's bundle may do. *)
Record lane_store (st st' : store) : Prop := {
  ls_inv : store_inv st';
  ls_specs : same_specs st st';
  ls_others : others st' lane = others st lane;
  ls_members : forall m a, st_allocs st' !! member_id lane m = Some a ->
    row_ok lane a /\ exists q, member_pool m = Some q /\ pool_ a = Some q;
}.

Lemma lwp_store (op : M store unit) (Q : unit -> LaneView -> Prop) E v :
  (forall p, base_inv p -> view p lane = v ->
     (exists st', op (pg_kv p) = (Ok tt, st') /\ lane_store (pg_kv p) st' /\ Q tt (store_view st' v)) \/
     (exists e, op (pg_kv p) = (Err e, pg_kv p) /\ E e v)) ->
  lwp lane (on_kv op) Q E v.
Proof.
  intros H p Hp Hv. unfold wp, on_kv. destruct (H p Hp Hv) as [(st' & Ho & Hs & HQ)|(e & Ho & HE)]; rewrite Ho.
  - destruct Hs as [S1 S2 S3 S4]. split; [by apply frame_kv|]. subst v. exact HQ.
  - assert (set_pg_kv (pg_kv p) p = p) as -> by by destruct p. subst v. split; [by apply lane_frame_refl|done].
Qed.

(** ** The state of a bundle *)

(** An allocation with so many mapped pages, such an entitlement and table row. *)
Definition alloc_is (o : option Alloc) (mapped entitled row : Z) : Prop :=
  exists a, o = Some a /\ mapped_page_count a = mapped /\ page_entitlement_ a = entitled /\ bound_row_ a = row.

Definition bundle_of : SequenceKVBundle :=
  mkBundle (text_address lane) (match backend_kv_cache with Some _ => Some (backend_address lane) | None => None end).

Record kv_is (v : LaneView) (mt et mb eb row : Z) : Prop := {
  ki_kv : kv (lv_seq v) = Some bundle_of;
  ki_text : alloc_is (lv_text v) mt et row;
  ki_backend : match backend_kv_cache with
               | Some _ => alloc_is (lv_backend v) mb eb row
               | None => lv_backend v = None /\ mb = 0 /\ eb = 0
               end;
}.

Definition no_kv (v : LaneView) : Prop := kv (lv_seq v) = None /\ lv_text v = None /\ lv_backend v = None.
Definition has_kv (v : LaneView) : Prop := exists mt et mb eb row, kv_is v mt et mb eb row.
Definition kv_ok (v : LaneView) : Prop := no_kv v \/ has_kv v.

(** The host's part of the view does not change. *)
Definition same_host (v v' : LaneView) : Prop := lv_seq v' = lv_seq v /\ lv_req v' = lv_req v.

Lemma kv_is_ok v mt et mb eb row : kv_is v mt et mb eb row -> kv_ok v.
Proof. intros H. right. by exists mt, et, mb, eb, row. Qed.
Lemma kv_is_host v v' mt et mb eb row : kv_is v mt et mb eb row -> kv (lv_seq v') = kv (lv_seq v) ->
  lv_text v' = lv_text v -> lv_backend v' = lv_backend v -> kv_is v' mt et mb eb row.
Proof. intros [H1 H2 H3] E1 E2 E3. constructor; by rewrite ?E1, ?E2, ?E3. Qed.

Lemma bundle_backend : kv_backend bundle_of = match backend_kv_cache with Some _ => Some (backend_address lane) | None => None end.
Proof. done. Qed.

(** Bounds of a bundle in a good state. *)
Record kv_bounds (mt et mb eb row : Z) : Prop := {
  kb_text : 0 <= mt <= et;
  kb_text_max : et <= PagedKV.pages_for_tokens capacity;
  kb_backend : 0 <= mb <= eb;
  kb_backend_max : eb <= PagedKV.pages_for_tokens capacity;
  kb_row : row = -1 \/ row = Z.of_nat lane;
}.

Lemma pages_capacity_nonneg : 0 <= PagedKV.pages_for_tokens capacity.
Proof.
  pose proof cl_capacity. unfold PagedKV.pages_for_tokens, kPagedKVPageSize. case_match; [lia|].
  assert (0 <= (capacity - 1) / 64) by (apply Z.div_pos; lia). lia.
Qed.

Lemma lwp_kv_bounds {A} (m : M Program A) (Q : A -> LaneView -> Prop) E v mt et mb eb row :
  kv_is v mt et mb eb row -> (kv_bounds mt et mb eb row -> lwp lane m Q E v) -> lwp lane m Q E v.
Proof.
  intros [_ (a & Ha & <- & <- & <-) Hb] H. apply lwp_facts; [done|]. intros Hf. apply H.
  destruct (Hf TextKV a Ha) as [_ F1 F2 F3]. pose proof pages_capacity_nonneg.
  destruct backend_kv_cache as [q|].
  - destruct Hb as (b & Hb & <- & <- & Hr). destruct (Hf BackendKV b Hb) as [_ G1 G2 G3]. constructor; [lia..|exact F3].
  - destruct Hb as (_ & -> & ->). constructor; [lia..|exact F3].
Qed.

(** ** Sizes *)

Lemma pages_nonneg n : 0 <= n -> 0 <= PagedKV.pages_for_tokens n.
Proof.
  clear lane Hlane.
  intros H. unfold PagedKV.pages_for_tokens, kPagedKVPageSize. case_match; [lia|].
  assert (0 <= (n - 1) / 64) by (apply Z.div_pos; lia). lia.
Qed.
Lemma pages_zero : PagedKV.pages_for_tokens 0 = 0.
Proof. done. Qed.
Lemma pages_mono n m : 0 <= n <= m -> PagedKV.pages_for_tokens n <= PagedKV.pages_for_tokens m.
Proof.
  clear lane Hlane.
  intros H. unfold PagedKV.pages_for_tokens, kPagedKVPageSize.
  destruct (Z.eqb_spec n 0), (Z.eqb_spec m 0); try lia.
  - assert (0 <= (m - 1) / 64) by (apply Z.div_pos; lia). lia.
  - assert ((n - 1) / 64 <= (m - 1) / 64) by (apply Z.div_le_mono; lia). lia.
Qed.
Lemma pages_gt n pages : 0 <= n -> 0 <= pages -> n > pages * 64 <-> pages < PagedKV.pages_for_tokens n.
Proof.
  clear lane Hlane.
  intros Hn Hp. unfold PagedKV.pages_for_tokens, kPagedKVPageSize. destruct (Z.eqb_spec n 0); [lia|].
  pose proof (Z.div_mod (n - 1) 64 ltac:(lia)). pose proof (Z.mod_pos_bound (n - 1) 64 ltac:(lia)). lia.
Qed.
Lemma mapped_tokens a : 0 <= mapped_page_count a <= PagedKV.pages_for_tokens capacity ->
  mapped_token_capacity a = mapped_page_count a * 64.
Proof.
  intros H. pose proof cl_capacity. unfold mapped_token_capacity, kPagedKVPageSize. apply u32_small.
  unfold PagedKV.pages_for_tokens, kPagedKVPageSize in H. destruct (Z.eqb_spec capacity 0); [lia|].
  pose proof (Z.div_mod (capacity - 1) 64 ltac:(lia)). pose proof (Z.mod_pos_bound (capacity - 1) 64 ltac:(lia)).
  unfold_ints. lia.
Qed.

(** ** Members of the bundle *)

Lemma member_kv v mt et mb eb row : kv_is v mt et mb eb row ->
  alloc_is (member_of v TextKV) mt et row /\
  (kv_backend bundle_of = Some (backend_address lane) -> alloc_is (member_of v BackendKV) mb eb row).
Proof. intros [_ H1 H2]. split; [done|]. rewrite bundle_backend. by destruct backend_kv_cache. Qed.

(** One member changes. *)
Lemma kv_is_text v a mt et mb eb row : kv_is v mt et mb eb row -> bound_row_ a = row ->
  kv_is (set_member TextKV (Some a) v) (mapped_page_count a) (page_entitlement_ a) mb eb row.
Proof. intros [H1 H2 H3] Hr. constructor; [done| |done]. by exists a. Qed.
Lemma kv_is_backend v a mt et mb eb row q : kv_is v mt et mb eb row -> bound_row_ a = row -> backend_kv_cache = Some q ->
  kv_is (set_member BackendKV (Some a) v) mt et (mapped_page_count a) (page_entitlement_ a) row.
Proof. intros [H1 H2 H3] Hr Hq. constructor; [done|done|]. rewrite Hq. by exists a. Qed.
Lemma same_host_refl v : same_host v v. Proof. done. Qed.
Lemma same_host_trans v1 v2 v3 : same_host v1 v2 -> same_host v2 v3 -> same_host v1 v3.
Proof. intros [H1 H2] [H3 H4]. split; congruence. Qed.
Lemma same_host_member m a v : same_host v (set_member m a v).
Proof. by destruct m. Qed.

(** ** Destruction and reservation *)

Lemma lwp_kv_reset (Q : unit -> LaneView -> Prop) E v : kv_ok v ->
  Q tt (mkView (set_kv None (lv_seq v)) (lv_req v) None None) -> lwp lane (kv_reset lane) Q E v.
Proof.
  intros Hv HQ. unfold kv_reset. apply lwp_bind, lwp_get_seq.
  destruct Hv as [(H1 & H2 & H3)|(mt & et & mb & eb & row & [H1 H2 H3])]; rewrite H1.
  - apply lwp_ret. destruct v as [[]]; cbn in *; by subst.
  - destruct H2 as (a & Ha & _). rewrite bundle_backend. apply lwp_bind.
    assert (Hfin : forall v', lv_seq v' = lv_seq v -> lv_req v' = lv_req v -> lv_text v' = lv_text v -> lv_backend v' = None ->
      lwp lane (do! on_kv (st_destroy (kv_text bundle_of)); mod_seq lane (set_kv None)) Q E v').
    { intros v' E1 E2 E3 E4. apply lwp_bind. change (kv_text bundle_of) with (member_id lane TextKV).
      eapply lwp_destroy; [done|cbn; by rewrite E3|]. apply lwp_mod_seq; [done|]. cbn.
      unfold with_seq, with_text. cbn. by rewrite E1, E2, E4. }
    destruct backend_kv_cache as [q|].
    + destruct H3 as (b & Hb & _). change (backend_address lane) with (member_id lane BackendKV).
      eapply lwp_destroy; [done|exact Hb|]. apply Hfin; done.
    + destruct H3 as (Hb & _). apply lwp_ret. by apply Hfin.
Qed.

Lemma others_same st st' : (forall id, id <> text_address lane -> id <> backend_address lane ->
  st_allocs st' !! id = st_allocs st !! id) -> others st' lane = others st lane.
Proof.
  intros H. unfold others. apply map_eq. intros id. rewrite !lookup_delete. repeat case_decide; auto.
Qed.

Lemma bundle_cases P : (backend_kv_cache = None -> P) -> (forall q, backend_kv_cache = Some q -> P) -> P.
Proof. destruct backend_kv_cache; eauto. Qed.

Lemma lwp_reserve_bundle rs (Q : unit -> LaneView -> Prop) E v :
  NoDup rs.*1 ->
  Forall (fun r => is_u32 (rv_entitlement r.2) /\ exists m, r.1 = member_id lane m /\ rv_pool r.2 = member_pool m /\
    is_Some (member_pool m) /\ member_of v m = None) rs ->
  (forall st', (forall r, r ∈ rs -> st_allocs st' !! r.1 = Some (mkAlloc (rv_pool r.2) [] (rv_entitlement r.2) (-1))) ->
     (forall m, member_id lane m ∉ rs.*1 -> st_allocs st' !! member_id lane m = member_of v m) -> Q tt (store_view st' v)) ->
  (forall e, e <> Abort_ -> E e v) -> lwp lane (on_kv (reserve_paged_kv_bundle rs)) Q E v.
Proof.
  intros Hnd Hrs HQ HE. apply lwp_store. intros p Hp Hv.
  assert (Hpools : Forall (fun r => is_u32 (rv_entitlement r.2) /\
    exists q P, rv_pool r.2 = Some q /\ st_pools (pg_kv p) !! q = Some P) rs).
  { eapply Forall_impl; [exact Hrs|]. intros r (H1 & m & _ & H3 & [q Hq] & _). split; [done|].
    destruct (member_has_pool p m q Hp Hq) as (P & HP & _). exists q, P. by rewrite H3, Hq. }
  destruct (reserve_bundle_run rs (pg_kv p) (bi_store _ Hp) Hnd) as [(st' & Hr & I1 & I2 & I3 & I4)|(e & Hr & He)]; [|exact Hpools| |].
  - eapply Forall_impl; [exact Hrs|]. intros r (_ & m & H1 & _ & _ & H4). by rewrite H1, <- member_view, Hv.
  - left. exists st'. split; [done|].
    assert (Hmem : forall m, member_id lane m ∉ rs.*1 -> st_allocs st' !! member_id lane m = member_of v m).
    { intros m Hm. by rewrite I4, <- member_view, Hv. }
    split; [|by apply HQ]. constructor; [done|done| |].
    + apply others_same. intros id N1 N2. apply I4. intros (r & -> & Hr2)%list_elem_of_fmap.
      rewrite Forall_forall in Hrs. destruct (Hrs _ Hr2) as (_ & [|] & H1 & _); cbn in H1; congruence.
    + intros m a Ha. destruct (decide (member_id lane m ∈ rs.*1)) as [Hin|Hn].
      * apply list_elem_of_fmap in Hin as (r & Hm & Hr2). rewrite Hm, (I3 r Hr2) in Ha. injection Ha as <-.
        rewrite Forall_forall in Hrs. destruct (Hrs _ Hr2) as (_ & m' & H1 & H2 & [q Hq] & _).
        assert (m' = m) as -> by (apply (member_id_inj lane); congruence). split; [by left|]. exists q. cbn. by rewrite H2.
      * rewrite (Hmem m Hn), <- Hv in Ha. by eapply member_place.
  - right. exists e. split; [done|by apply HE, He].
Qed.

Lemma lwp_reserve text_pages backend_pages (Q : unit -> LaneView -> Prop) E v :
  no_kv v -> is_u32 text_pages -> is_u32 backend_pages ->
  (forall v', lv_seq v' = set_kv (Some bundle_of) (lv_seq v) -> lv_req v' = lv_req v ->
     kv_is v' 0 text_pages 0 backend_pages (-1) -> Q tt v') ->
  (forall e, e <> Abort_ -> E e v) ->
  lwp lane (reserve_sequence_kv lane text_pages backend_pages) Q E v.
Proof.
  intros (H1 & H2 & H3) Ht Hb HQ HE. unfold reserve_sequence_kv. lstep. rewrite H1. cbn. lstep; [done|intros _].
  lstep; [by intros _; apply HE|]. rewrite orb_false_iff, negb_false_iff, bool_decide_eq_true, Z.eqb_neq.
  intros [Hne Hiff]. unfold bundle_of in *. destruct backend_kv_cache as [q|] eqn:Hq.
  - lstep. apply lwp_reserve_bundle.
    + cbn. apply NoDup_cons. rewrite list_elem_of_singleton. split; [apply text_backend_ne|apply NoDup_singleton].
    + apply Forall_cons. split; [|apply Forall_singleton].
      * split; [done|]. exists TextKV. by split_and!.
      * split; [done|]. exists BackendKV. cbn. rewrite Hq. by split_and!.
    + intros st' Hin _. lstep. apply HQ; [done..|]. constructor; cbn; [unfold bundle_of; by rewrite Hq| |rewrite Hq].
      * eexists. split; [exact (Hin _ ltac:(by left))|done].
      * eexists. split; [exact (Hin _ ltac:(by right; left))|done].
    + done.
  - assert (backend_pages = 0) as -> by tauto. lstep. apply lwp_reserve_bundle.
    + apply NoDup_singleton.
    + apply Forall_singleton. split; [done|]. exists TextKV. by split_and!.
    + intros st' Hin Hout. lstep. apply HQ; [done..|]. constructor; cbn; [unfold bundle_of; by rewrite Hq| |rewrite Hq].
      * eexists. split; [exact (Hin _ ltac:(by left))|done].
      * split_and!; [|done..]. rewrite <- H3. apply (Hout BackendKV). intros Hin2%list_elem_of_singleton.
        symmetry in Hin2. by apply text_backend_ne in Hin2.
    + done.
Qed.

(** ** Entitlements and rows *)

Lemma alloc_at_text p v mt et mb eb row : view p lane = v -> kv_is v mt et mb eb row ->
  exists a, st_allocs (pg_kv p) !! text_address lane = Some a /\ alloc_at (pg_kv p) (text_address lane) = a /\
    lv_text v = Some a /\ mapped_page_count a = mt /\ page_entitlement_ a = et /\ bound_row_ a = row.
Proof.
  intros <- [_ (a & Ha & H) _]. exists a. unfold alloc_at. cbn in Ha. by rewrite Ha.
Qed.
Lemma alloc_at_backend p v mt et mb eb row q : view p lane = v -> kv_is v mt et mb eb row -> backend_kv_cache = Some q ->
  exists a, st_allocs (pg_kv p) !! backend_address lane = Some a /\ alloc_at (pg_kv p) (backend_address lane) = a /\
    lv_backend v = Some a /\ mapped_page_count a = mb /\ page_entitlement_ a = eb /\ bound_row_ a = row.
Proof.
  intros <- [_ _ Hb] Hq. rewrite Hq in Hb. destruct Hb as (a & Ha & H). exists a. unfold alloc_at. cbn in Ha. by rewrite Ha.
Qed.

Lemma bound_rows_of p v mt et mb eb row : view p lane = v -> kv_is v mt et mb eb row ->
  bound_row_of (pg_kv p) (kv_text bundle_of) = row /\
  (forall id, kv_backend bundle_of = Some id -> bound_row_of (pg_kv p) id = row).
Proof.
  intros Hv H. unfold bound_row_of. split.
  - destruct (alloc_at_text _ _ _ _ _ _ _ Hv H) as (a & _ & E1 & _ & _ & _ & E2). change (kv_text bundle_of) with (text_address lane).
    by rewrite E1.
  - intros id. rewrite bundle_backend. destruct backend_kv_cache as [q|] eqn:Hq; [|done]. intros [= <-].
    destruct (alloc_at_backend _ _ _ _ _ _ _ _ Hv H Hq) as (a & _ & E1 & _ & _ & _ & E2). by rewrite E1.
Qed.

Lemma resized_same a n : resized a (mapped_page_count a) n = with_entitlement a n.
Proof. unfold resized, mapped_page_count. rewrite take_ge by lia. by destruct a. Qed.

Lemma lwp_resize_bundle cs (Q : unit -> LaneView -> Prop) E v :
  Forall (fun c => is_u32 (rz_entitlement c) /\ exists m a, rz_allocation c = Some (member_id lane m) /\
    member_of v m = Some a /\ rz_mapped_pages c = mapped_page_count a) cs ->
  (forall st', (forall c m a, c ∈ cs -> rz_allocation c = Some (member_id lane m) -> member_of v m = Some a ->
      st_allocs st' !! member_id lane m = Some (with_entitlement a (rz_entitlement c))) ->
     (forall m, Some (member_id lane m) ∉ rz_allocation <$> cs -> st_allocs st' !! member_id lane m = member_of v m) ->
     Q tt (store_view st' v)) ->
  (forall e, e <> Abort_ -> E e v) -> lwp lane (on_kv (resize_paged_kv_bundle cs)) Q E v.
Proof.
  intros Hcs HQ HE. apply lwp_facts; [done|]. intros Hf. apply lwp_store. intros p Hp Hv. rewrite Forall_forall in Hcs.
  assert (Hpools : forall m a, member_of v m = Some a -> exists q P, st_allocs (pg_kv p) !! member_id lane m = Some a /\
     pool_ a = Some q /\ member_pool m = Some q /\ st_pools (pg_kv p) !! q = Some P).
  { intros m a Ha. destruct (Hf m a Ha) as [(q & Hm & Hq) _ _ _]. destruct (member_has_pool p m q Hp Hm) as (P & HP & _).
    exists q, P. by rewrite <- member_view, Hv. }
  assert (Hu : is_u32 (PagedKV.pages_for_tokens capacity)).
  { pose proof cl_capacity as Hc. pose proof pages_capacity_nonneg. unfold PagedKV.pages_for_tokens, kPagedKVPageSize in *.
    unfold_ints. destruct (Z.eqb_spec capacity 0); [lia|].
    assert ((capacity - 1) / 64 <= capacity - 1) by (apply Z.div_le_upper_bound; lia). lia. }
  destruct (resize_bundle_run cs (pg_kv p) (bi_store _ Hp)) as [(st' & Hr & I1 & I2 & I3 & I4)|(e & Hr & He)].
  - apply Forall_forall. intros c Hc. destruct (Hcs c Hc) as (Hn & m & a & H1 & H2 & H3).
    destruct (Hf m a H2) as [_ F1 F2 _]. destruct (Hpools m a H2) as (q & P & ? & ? & _ & ?).
    split_and!; [rewrite H3; unfold_ints; lia|done|]. by exists (member_id lane m), a, q, P.
  - left. exists st'. split; [done|].
    assert (Hres : forall c m a, c ∈ cs -> rz_allocation c = Some (member_id lane m) -> member_of v m = Some a ->
      st_allocs st' !! member_id lane m = Some (with_entitlement a (rz_entitlement c))).
    { intros c m a Hc Hid Ha. destruct (Hpools m a Ha) as (q & P & HA & _). destruct (I3 c _ a Hc Hid HA) as [_ ->].
      destruct (Hcs c Hc) as (_ & m' & a' & H1 & H2 & H3). rewrite Hid in H1. injection H1 as H1.
      apply member_id_inj in H1 as <-. rewrite H2 in Ha. injection Ha as ->. by rewrite H3, resized_same. }
    assert (Hoth : forall m, Some (member_id lane m) ∉ rz_allocation <$> cs -> st_allocs st' !! member_id lane m = member_of v m).
    { intros m Hm. by rewrite I4, <- member_view, Hv. }
    split; [|by apply HQ]. constructor; [done|done| |].
    + apply others_same. intros id N1 N2. apply I4. intros (c & Hid & Hc)%list_elem_of_fmap.
      destruct (Hcs c Hc) as (_ & [|] & _ & H1 & _); cbn in H1; congruence.
    + intros m a Ha. destruct (decide (Some (member_id lane m) ∈ rz_allocation <$> cs)) as [Hin|Hn].
      * apply list_elem_of_fmap in Hin as (c & Hm & Hc). destruct (Hcs c Hc) as (_ & m' & a' & H1 & H2 & _).
        assert (m' = m) as -> by (apply (member_id_inj lane); congruence).
        rewrite (Hres c m a' Hc H1 H2) in Ha. injection Ha as <-.
        destruct (Hf m a' H2) as [(q & Hm1 & Hq) _ _ Hrow]. eauto.
      * rewrite (Hoth m Hn), <- Hv in Ha. by eapply member_place.
  - right. exists e. split; [done|by apply HE].
Qed.

Lemma lwp_resize text_pages backend_pages (Q : unit -> LaneView -> Prop) E v mt et mb eb row :
  kv_is v mt et mb eb row -> is_u32 text_pages -> is_u32 backend_pages ->
  (forall v', same_host v v' -> kv_is v' mt text_pages mb backend_pages row -> Q tt v') ->
  (forall e, e <> Abort_ -> E e v) ->
  lwp lane (resize_sequence_kv_entitlement lane text_pages backend_pages) Q E v.
Proof.
  intros Hk Ht Hb HQ HE. unfold resize_sequence_kv_entitlement. lstep. rewrite (ki_kv _ _ _ _ _ _ Hk).
  lstep; [by intros _; apply HE|]. rewrite orb_false_iff, negb_false_iff, bool_decide_eq_true, Z.eqb_neq. intros [Hne Hiff].
  lstep. intros p Hp Hv. change (kv_text bundle_of) with (text_address lane).
  destruct (alloc_at_text _ _ _ _ _ _ _ Hv Hk) as (a & _ & -> & Ha & E1 & E2 & E3).
  rewrite bundle_backend in *. destruct backend_kv_cache as [q|] eqn:Hq.
  - destruct (alloc_at_backend _ _ _ _ _ _ _ _ Hv Hk Hq) as (b & _ & -> & Hbk & F1 & F2 & F3).
    apply lwp_resize_bundle; [| |done].
    + apply Forall_cons. split; [|apply Forall_singleton].
      * split; [done|]. by exists TextKV, a.
      * split; [done|]. by exists BackendKV, b.
    + intros st' Hin _. apply HQ; [done|]. constructor; cbn; [exact (ki_kv _ _ _ _ _ _ Hk)| |rewrite Hq].
      * eexists. split; [exact (Hin _ TextKV a ltac:(by left) eq_refl Ha)|done].
      * eexists. split; [exact (Hin _ BackendKV b ltac:(by right; left) eq_refl Hbk)|done].
  - apply lwp_resize_bundle; [| |done].
    + apply Forall_singleton. split; [done|]. by exists TextKV, a.
    + intros st' Hin Hout. apply HQ; [done|]. pose proof (ki_backend _ _ _ _ _ _ Hk) as Hb0. rewrite Hq in Hb0.
      destruct Hb0 as (Hb0 & -> & ->). cbn in Hiff.
      assert (backend_pages = 0) as ->.
      { symmetry in Hiff. apply negb_false_iff in Hiff. lia. }
      constructor; cbn; [exact (ki_kv _ _ _ _ _ _ Hk)| |rewrite Hq].
      * eexists. split; [exact (Hin _ TextKV a ltac:(by left) eq_refl Ha)|done].
      * split_and!; [|done..]. rewrite <- Hb0. apply (Hout BackendKV). intros Hin2%list_elem_of_singleton.
        injection Hin2 as Hin2. symmetry in Hin2. by apply text_backend_ne in Hin2.
Qed.

(** The rows of the members are unbound. *)
Lemma lwp_unbind_members {A} (k : M Program A) (Q : A -> LaneView -> Prop) E v mt et mb eb row : kv_is v mt et mb eb row ->
  (forall v', same_host v v' -> kv_is v' mt et mb eb (-1) -> lwp lane k Q E v') ->
  lwp lane (do! match kv_backend bundle_of with Some id => on_kv (st_unbind_row id) | None => mret_ tt end;
            do! on_kv (st_unbind_row (kv_text bundle_of)); k) Q E v.
Proof.
  intros Hk HQ. rewrite bundle_backend. change (kv_text bundle_of) with (member_id lane TextKV).
  destruct Hk as [H1 (a & Ha & E1 & E2 & E3) H3]. apply lwp_bind.
  destruct backend_kv_cache as [q|] eqn:Hq.
  - destruct H3 as (b & Hb & F1 & F2 & F3). change (backend_address lane) with (member_id lane BackendKV).
    eapply lwp_unbind; [done|exact Hb|]. apply lwp_bind. eapply lwp_unbind; [done|exact Ha|].
    apply HQ; [done|]. constructor; cbn; [done|by eexists|rewrite Hq; by eexists].
  - apply lwp_ret, lwp_bind. eapply lwp_unbind; [done|exact Ha|].
    apply HQ; [done|]. constructor; cbn; [done|by eexists|by rewrite Hq].
Qed.

Lemma lwp_unbind_sequence (Q : unit -> LaneView -> Prop) E v mt et mb eb row : kv_is v mt et mb eb row ->
  (forall v', same_host v v' -> kv_is v' mt et mb eb (-1) -> Q tt v') -> lwp lane (unbind_sequence_kv lane) Q E v.
Proof.
  intros Hk HQ. unfold unbind_sequence_kv. lstep. rewrite (ki_kv _ _ _ _ _ _ Hk).
  pose proof (lwp_unbind_members (mret_ tt) Q E v _ _ _ _ _ Hk (fun v' H1 H2 => lwp_ret _ _ _ _ _ (HQ v' H1 H2))) as H.
  intros p Hp Hv. specialize (H p Hp Hv). unfold wp, mbind_ in *. 
  destruct (match kv_backend bundle_of with Some id => on_kv (st_unbind_row id) | None => mret_ tt end p) as [[[]|e] p1]; [|done].
  by destruct (on_kv (st_unbind_row (kv_text bundle_of)) p1) as [[[]|e] p2].
Qed.

Lemma lwp_bind_sequence (Q : unit -> LaneView -> Prop) E v mt et mb eb row :
  kv_is v mt et mb eb row -> lane_in_range lane = true ->
  (row = -1 -> forall v', same_host v v' -> kv_is v' mt et mb eb (Z.of_nat lane) -> Q tt v') ->
  (forall e v', e <> Abort_ -> same_host v v' -> kv_is v' mt et mb eb row -> E e v') ->
  lwp lane (bind_sequence_kv lane) Q E v.
Proof.
  intros Hk Hr HQ HE. eapply (lwp_kv_bounds _ _ _ _ _ _ _ _ _ Hk). intros [_ _ _ _ Hrow].
  unfold bind_sequence_kv. lstep. lstep. intros p Hp Hv. rewrite (ki_kv _ _ _ _ _ _ Hk).
  destruct (bound_rows_of p _ _ _ _ _ _ Hv Hk) as [-> Hb].
  lstep; [intros _; by apply HE|]. intros [H1 _]%orb_false_iff. rewrite Z.geb_leb, Z.leb_gt in H1.
  assert (row = -1) as -> by lia. clear p Hp Hv Hb H1 Hrow. specialize (HQ eq_refl).
  assert (Htail : forall v', same_host v v' -> kv_is v' mt et mb eb (Z.of_nat lane) ->
    lwp lane (let! st := mgets pg_kv in
         do! set_device_i32 CellTextKvTableRow (bound_row_of st (kv_text bundle_of));
         set_device_i32 CellBackendKvTableRow
           (match kv_backend bundle_of with Some id => bound_row_of st id | None => 0 end))
      Q (fun e v' => e <> Abort_ /\ lwp lane
           (let! st := mgets pg_kv in
           do! match kv_backend bundle_of with
               | Some id => mwhen (bound_row_of st id >=? 0) (on_kv (st_unbind_row id))
               | None => mret_ tt
               end;
           do! on_kv (st_unbind_row (kv_text bundle_of));
           mthrow e) Q E v') v').
  { intros v' Hh Hk'. lstep. intros p Hp Hv.
    assert (Herr : forall e, e <> Abort_ -> e <> Abort_ /\ lwp lane
           (let! st := mgets pg_kv in
           do! match kv_backend bundle_of with
               | Some id => mwhen (bound_row_of st id >=? 0) (on_kv (st_unbind_row id))
               | None => mret_ tt
               end;
           do! on_kv (st_unbind_row (kv_text bundle_of));
           mthrow e) Q E v').
    { intros e He. split; [done|]. lstep. intros p' Hp' Hv'. destruct (bound_rows_of p' _ _ _ _ _ _ Hv' Hk') as [_ Hb].
      pose proof (lwp_unbind_members (mthrow e) Q E v' _ _ _ _ _ Hk'
        (fun v2 G1 G2 => lwp_throw _ _ _ _ _ (HE e v2 He (same_host_trans _ _ _ Hh G1) G2))) as H.
      destruct (kv_backend bundle_of) as [id|]; [|exact H]. rewrite (Hb id eq_refl).
      destruct (Z.geb_spec (Z.of_nat lane) 0); [exact H|lia]. }
    unfold set_device_i32. lstep; [|by intros; apply Herr]. lstep; [|by intros; apply Herr]. by apply HQ. }
  destruct Hk as [H1 (a & Ha & E1 & E2 & E3) H3]. apply lwp_bind.
  change (kv_text bundle_of) with (member_id lane TextKV). eapply lwp_bind_row; [done..|]. rewrite bundle_backend in *.
  lstep. apply lwp_bind. destruct backend_kv_cache as [q|] eqn:Hq.
  - destruct H3 as (b & Hb & F1 & F2 & F3). change (backend_address lane) with (member_id lane BackendKV).
    eapply lwp_bind_row; [done|exact Hb|done|done|]. apply Htail; [done|].
    constructor; cbn; [done|by eexists|rewrite Hq; by eexists].
  - apply lwp_ret. apply Htail; [done|]. constructor; cbn; [done|by eexists|by rewrite Hq].
Qed.

(** ** Pages *)

Lemma with_pages_mapped a ids : mapped_page_count (with_pages a ids) = Z.of_nat (length ids).
Proof. done. Qed.

(** The pages mapped after materializing [tokens]. *)
Definition grown (mapped tokens : Z) : Z := Z.max mapped (PagedKV.pages_for_tokens tokens).

Lemma lwp_grow m tokens (Q : unit -> LaneView -> Prop) E v mapped entitled row :
  alloc_is (member_of v m) mapped entitled row -> 0 <= tokens ->
  (PagedKV.pages_for_tokens tokens <= entitled -> forall a, mapped_page_count a = grown mapped tokens ->
     page_entitlement_ a = entitled -> bound_row_ a = row -> Q tt (set_member m (Some a) v)) ->
  (~ PagedKV.pages_for_tokens tokens <= entitled -> E InvalidArgument v) ->
  forall p, view p lane = v ->
  lwp lane (mwhen (tokens >? mapped_token_capacity (alloc_at (pg_kv p) (member_id lane m)))
              (on_kv (st_materialize_tokens (member_id lane m) tokens))) Q E v.
Proof.
  intros (a & Ha & E1 & E2 & E3) Ht HQ HE p Hv. apply lwp_facts; [done|]. intros Hf.
  destruct (Hf m a Ha) as [_ F1 F2 F3]. unfold alloc_at.
  rewrite <- member_view, Hv, Ha. cbn. rewrite mapped_tokens by lia.
  pose proof (pages_gt tokens (mapped_page_count a) Ht ltac:(lia)) as Hgt. unfold grown in *.
  destruct (Z.gtb_spec tokens (mapped_page_count a * 64)).
  - unfold st_materialize_tokens. eapply lwp_materialize; [done|exact Ha| |].
    + intros Hr acq Hlen. apply HQ; [lia| |done..]. rewrite with_pages_mapped. lia.
    + intros Hn. apply HE. lia.
  - assert (set_member m (Some a) v = v) as Hsame.
    { destruct v, m; cbn in *; unfold with_text, with_backend; cbn; congruence. }
    apply lwp_ret. rewrite <- Hsame. apply HQ; lia.
Qed.

(** A failure leaves a good bundle; there is none if the tokens are within the capacity and the entitlements. *)
Definition may_materialize (main backend et eb : Z) : Prop :=
  main <= capacity /\ backend <= capacity /\ (backend = 0 \/ is_Some backend_kv_cache) /\
  PagedKV.pages_for_tokens main <= et /\ PagedKV.pages_for_tokens backend <= eb.

Lemma lwp_materialize_sequence main backend (Q : unit -> LaneView -> Prop) E v mt et mb eb row :
  kv_is v mt et mb eb row -> 0 <= main -> 0 <= backend ->
  (may_materialize main backend et eb -> forall v', same_host v v' ->
     kv_is v' (grown mt main) et (grown mb backend) eb row -> Q tt v') ->
  (~ may_materialize main backend et eb -> forall e v' mt' mb', e <> Abort_ -> same_host v v' -> kv_is v' mt' et mb' eb row -> E e v') ->
  lwp lane (materialize_sequence_kv lane main backend) Q E v.
Proof.
  intros Hk Hm Hb HQ HE. eapply (lwp_kv_bounds _ _ _ _ _ _ _ _ _ Hk). intros Hbounds.
  assert (Hfail : ~ may_materialize main backend et eb -> forall e, e <> Abort_ -> E e v)
    by (intros Hn e He; by eapply HE).
  unfold materialize_sequence_kv. lstep. rewrite (ki_kv _ _ _ _ _ _ Hk). lstep.
  { intros Hb1. bprop. apply Hfail; [|done]. unfold may_materialize. destruct Hb1; bprop; lia. }
  intros [C1 C2]%orb_false_iff. bprop. rewrite bundle_backend. lstep.
  { intros [C3 C4]%andb_true_iff. bprop. apply Hfail; [|done]. unfold may_materialize.
    intros (_ & _ & [->|[q Hq]] & _); [done|]. by rewrite Hq in C4. }
  intros C3. assert (Hhas : backend = 0 \/ is_Some backend_kv_cache).
  { apply andb_false_iff in C3 as [C3|C3]; bprop; [by left|right]. by destruct backend_kv_cache. }
  clear C3. assert (Hmay : PagedKV.pages_for_tokens main <= et -> PagedKV.pages_for_tokens backend <= eb ->
    may_materialize main backend et eb) by (unfold may_materialize; tauto).
  destruct (member_kv _ _ _ _ _ _ Hk) as [Htext _].
  lstep. intros p Hp Hv. apply lwp_bind. change (kv_text bundle_of) with (member_id lane TextKV).
  eapply lwp_grow; [exact Htext|done| | |exact Hv]; cycle 1.
  { intros Hn. apply Hfail; [|done]. unfold may_materialize. tauto. }
  intros Hpt a G1 G2 G3. pose proof (kv_is_text _ a _ _ _ _ _ Hk G3) as Hk1. rewrite G1, G2 in Hk1.
  pose proof (same_host_member TextKV (Some a) v) as Hh1.
  set (v1 := set_member TextKV (Some a) v) in *. clearbody v1. clear p Hp Hv a G1 G2 G3 Htext.
  destruct backend_kv_cache as [q|] eqn:Hq.
  - lstep. intros p Hp Hv. change (backend_address lane) with (member_id lane BackendKV).
    destruct (member_kv _ _ _ _ _ _ Hk1) as [_ Hback]. rewrite bundle_backend, Hq in Hback. specialize (Hback eq_refl).
    assert (Hgo : lwp lane (mwhen (backend >? mapped_token_capacity (alloc_at (pg_kv p) (member_id lane BackendKV)))
              (on_kv (st_materialize_tokens (member_id lane BackendKV) backend))) Q E v1).
    { eapply lwp_grow; [exact Hback|done| | |exact Hv].
      - intros Hpb b G1 G2 G3. pose proof (kv_is_backend _ b _ _ _ _ _ q Hk1 G3 Hq) as Hk2. rewrite G1, G2 in Hk2.
        eapply HQ; [by apply Hmay|eapply same_host_trans, same_host_member; exact Hh1|exact Hk2].
      - intros Hn. eapply HE; [|done|exact Hh1|exact Hk1]. unfold may_materialize. tauto. }
    destruct (Z.eqb_spec backend 0) as [->|]; [|exact Hgo]. cbn. apply lwp_ret.
    assert (Hg0 : grown mb 0 = mb) by (unfold grown; rewrite pages_zero; pose proof (kb_backend _ _ _ _ _ Hbounds); lia).
    rewrite Hg0 in HQ. apply HQ; [|done|done]. apply Hmay; [done|].
    rewrite pages_zero. pose proof (kb_backend _ _ _ _ _ Hbounds). lia.
  - destruct Hhas as [->|[? ?]]; [|done]. apply lwp_ret.
    assert (Hg0 : grown mb 0 = mb) by (unfold grown; rewrite pages_zero; pose proof (kb_backend _ _ _ _ _ Hbounds); lia).
    rewrite Hg0 in HQ. apply HQ; [|done|done]. apply Hmay; [done|].
    rewrite pages_zero. pose proof (kb_backend _ _ _ _ _ Hbounds). lia.
Qed.

(** Trimming cuts both members to the given numbers of tokens. *)
Definition may_trim (main backend mt mb : Z) : Prop :=
  main <= capacity /\ backend <= main /\ (backend = 0 \/ is_Some backend_kv_cache) /\
  PagedKV.pages_for_tokens main <= mt /\ PagedKV.pages_for_tokens backend <= mb.

Lemma lwp_cut m tokens (Q : unit -> LaneView -> Prop) E v mapped entitled row :
  alloc_is (member_of v m) mapped entitled row -> 0 <= tokens ->
  (PagedKV.pages_for_tokens tokens <= mapped -> forall a, mapped_page_count a = PagedKV.pages_for_tokens tokens ->
     page_entitlement_ a = entitled -> bound_row_ a = row -> Q tt (set_member m (Some a) v)) ->
  (~ PagedKV.pages_for_tokens tokens <= mapped -> E InvalidArgument v) ->
  lwp lane (on_kv (st_trim_tokens (member_id lane m) tokens)) Q E v.
Proof.
  intros (a & Ha & E1 & E2 & E3) Ht HQ HE. unfold st_trim_tokens. pose proof (pages_nonneg tokens Ht).
  eapply lwp_trim; [done|exact Ha|done| |].
  - intros Hle. apply HQ; [lia| |done..]. rewrite with_pages_mapped, length_take. unfold mapped_page_count in *. lia.
  - intros Hlt. apply HE. lia.
Qed.

Lemma lwp_trim_sequence main backend (Q : unit -> LaneView -> Prop) E v mt et mb eb row :
  kv_is v mt et mb eb row -> 0 <= main -> 0 <= backend ->
  (may_trim main backend mt mb -> forall v', same_host v v' ->
     kv_is v' (PagedKV.pages_for_tokens main) et (PagedKV.pages_for_tokens backend) eb row -> Q tt v') ->
  (~ may_trim main backend mt mb -> forall e v' mt' mb', e <> Abort_ -> same_host v v' -> kv_is v' mt' et mb' eb row -> E e v') ->
  lwp lane (trim_sequence_kv lane main backend) Q E v.
Proof.
  intros Hk Hm Hb HQ HE. eapply (lwp_kv_bounds _ _ _ _ _ _ _ _ _ Hk). intros Hbounds.
  assert (Hfail : ~ may_trim main backend mt mb -> forall e, e <> Abort_ -> E e v)
    by (intros Hn e He; by eapply HE).
  unfold trim_sequence_kv. lstep. rewrite (ki_kv _ _ _ _ _ _ Hk). lstep.
  { intros Hb1. bprop. apply Hfail; [|done]. unfold may_trim. destruct Hb1; bprop; lia. }
  intros [C1 C2]%orb_false_iff. bprop. rewrite bundle_backend. lstep.
  { intros [C3 C4]%andb_true_iff. bprop. apply Hfail; [|done]. unfold may_trim.
    intros (_ & _ & [->|[q Hq]] & _); [done|]. by rewrite Hq in C4. }
  intros C3. assert (Hhas : backend = 0 \/ is_Some backend_kv_cache).
  { apply andb_false_iff in C3 as [C3|C3]; bprop; [by left|right]. by destruct backend_kv_cache. }
  clear C3. assert (Hmay : PagedKV.pages_for_tokens main <= mt -> PagedKV.pages_for_tokens backend <= mb ->
    may_trim main backend mt mb) by (unfold may_trim; tauto).
  destruct (member_kv _ _ _ _ _ _ Hk) as [Htext _].
  apply lwp_bind. change (kv_text bundle_of) with (member_id lane TextKV).
  eapply lwp_cut; [exact Htext|done| |]; cycle 1.
  { intros Hn. apply Hfail; [|done]. unfold may_trim. tauto. }
  intros Hpt a G1 G2 G3. pose proof (kv_is_text _ a _ _ _ _ _ Hk G3) as Hk1. rewrite G1, G2 in Hk1.
  pose proof (same_host_member TextKV (Some a) v) as Hh1.
  set (v1 := set_member TextKV (Some a) v) in *. clearbody v1. clear a G1 G2 G3 Htext.
  destruct backend_kv_cache as [q|] eqn:Hq.
  - change (backend_address lane) with (member_id lane BackendKV).
    destruct (member_kv _ _ _ _ _ _ Hk1) as [_ Hback]. rewrite bundle_backend, Hq in Hback. specialize (Hback eq_refl).
    eapply lwp_cut; [exact Hback|done| |].
    + intros Hpb b G1 G2 G3. pose proof (kv_is_backend _ b _ _ _ _ _ q Hk1 G3 Hq) as Hk2. rewrite G1, G2 in Hk2.
      eapply HQ; [by apply Hmay|eapply same_host_trans, same_host_member; exact Hh1|exact Hk2].
    + intros Hn. eapply HE; [|done|exact Hh1|exact Hk1]. unfold may_trim. tauto.
  - destruct Hhas as [->|[? ?]]; [|done]. apply lwp_ret.
    pose proof (ki_backend _ _ _ _ _ _ Hk1) as H0. rewrite Hq in H0. destruct H0 as (_ & -> & ->).
    by apply HQ; [apply Hmay|..].
Qed.

Lemma lwp_release_growth (Q : unit -> LaneView -> Prop) E v mt et mb eb row :
  kv_is v mt et mb eb row -> (forall v', same_host v v' -> kv_is v' mt mt mb mb row -> Q tt v') ->
  lwp lane (release_sequence_growth_entitlement lane) Q E v.
Proof.
  intros Hk HQ. unfold release_sequence_growth_entitlement. lstep. rewrite (ki_kv _ _ _ _ _ _ Hk), bundle_backend.
  change (kv_text bundle_of) with (member_id lane TextKV). destruct Hk as [H1 (a & Ha & E1 & E2 & E3) H3].
  apply lwp_bind. eapply lwp_cancel; [done|exact Ha|]. destruct backend_kv_cache as [q|] eqn:Hq.
  - destruct H3 as (b & Hb & F1 & F2 & F3). change (backend_address lane) with (member_id lane BackendKV).
    eapply lwp_cancel; [done|exact Hb|]. apply HQ; [done|].
    constructor; cbn; [done|by eexists|rewrite Hq; by eexists].
  - destruct H3 as (Hb & -> & ->). apply lwp_ret, HQ; [done|]. constructor; cbn; [done|by eexists|by rewrite Hq].
Qed.

(** ** Clearing *)

Definition cleared_view (v : LaneView) : LaneView :=
  mkView (clear_sequence (set_kv None (lv_seq v)))
    (set_pending no_pending (set_lifecycle Empty (set_prefill None (lv_req v)))) None None.

Lemma lwp_clear (Q : unit -> LaneView -> Prop) E v :
  kv_ok v -> Q tt (cleared_view v) -> lwp lane (clear_lane lane) Q E v.
Proof.
  intros Hk HQ. unfold clear_lane. lstep. apply lwp_bind, lwp_kv_reset.
  { destruct Hk as [Hk|(mt & et & mb & eb & row & Hk)]; [by left|right]. exists mt, et, mb, eb, row. by eapply kv_is_host. }
  lstep. lstep. lstep. exact HQ.
Qed.

(** The handlers of a failed operation: the device is awaited and the lane cleared. *)
Lemma lwp_fail {A} e (Q : A -> LaneView -> Prop) E v : kv_ok v -> E e (cleared_view v) ->
  lwp lane (do! try_sync; do! clear_lane lane; mthrow e) Q E v.
Proof. intros Hk HE. lstep. apply lwp_bind, lwp_clear; [done|]. by apply lwp_throw. Qed.

(** ** Views *)

Lemma lwp_execution_view m q (Q : Tensor -> LaneView -> Prop) E v mapped entitled row :
  alloc_is (member_of v m) mapped entitled row -> member_pool m = Some q ->
  (forall t, Q t v) -> (forall e, e <> Abort_ -> E e v) ->
  forall p, base_inv p -> view p lane = v -> lwp lane (mlift (execution_view q (member_id lane m) (pg_kv p))) Q E v.
Proof.
  intros (a & Ha & _) Hq HQ HE p Hp Hv. lstep; [by intros|]. intros e He. apply HE. eapply clean_err, He.
  destruct (member_has_pool p m q Hp Hq) as (P & HP & _).
  unfold execution_view. rewrite <- member_view, Hv, Ha. apply clean_bind; [by apply clean_throw_if|intros _ _].
  rewrite HP. unfold block_table. apply clean_bind; [by apply clean_throw_if|intros _ _]. apply block_table_row_clean.
Qed.

Lemma lwp_text_kv_view (Q : Tensor -> LaneView -> Prop) E v mt et mb eb row :
  kv_is v mt et mb eb row -> (forall t, Q t v) -> (forall e, e <> Abort_ -> E e v) ->
  lwp lane (text_kv_view lane) Q E v.
Proof.
  intros Hk HQ HE. unfold text_kv_view. lstep. lstep. intros p Hp Hv. rewrite (ki_kv _ _ _ _ _ _ Hk).
  by eapply (lwp_execution_view TextKV); [exact (ki_text _ _ _ _ _ _ Hk)|..].
Qed.

Lemma lwp_mtp_kv_view (Q : option Tensor -> LaneView -> Prop) E v mt et mb eb row :
  kv_is v mt et mb eb row -> (forall t, Q t v) -> (forall e, e <> Abort_ -> E e v) ->
  lwp lane (mtp_kv_view lane) Q E v.
Proof.
  intros Hk HQ HE. unfold mtp_kv_view. destruct (decide (speculative_backend = Mtp)) as [Hm|Hm].
  2: { rewrite bool_decide_eq_false_2 by done. cbn. by apply lwp_ret. }
  rewrite bool_decide_eq_true_2 by done. cbn. lstep. lstep. intros p Hp Hv. rewrite (ki_kv _ _ _ _ _ _ Hk). cbn.
  assert (Hb : backend_kv_cache = mtp_cache) by (unfold backend_kv_cache; by rewrite Hm).
  pose proof (ki_backend _ _ _ _ _ _ Hk) as Hk2. destruct backend_kv_cache as [q|] eqn:Hq; rewrite <- Hb.
  - apply lwp_bind. eapply (lwp_execution_view BackendKV); [exact Hk2|exact Hq|..]; [|done|exact Hp|exact Hv].
    intros t. by apply lwp_ret.
  - by apply lwp_throw, HE.
Qed.
End Bundle.

(** From here on the rules are used, not the definition. *)
#[global] Opaque lwp.
