(* ===== verification/ProgramInvariant.v ===== *)
(** * The lanes of the program: what each stage of a request's life means

    [lane_ok] says what the sequence, the KV bundle and the request of a lane look like in each stage of
    its life cycle.  The files after this one show that every operation keeps it. *)
From S2P Require Import Prelude Tensor Layout PagedKV PagedKVProofs PrefixIdentity VisionControl Admission Capacity Contract ProgramState RequestPlan Program ProgramDecode ProgramLanes ProgramBundle.
#[local] Open Scope Z_scope.

Section Invariant.
Context `{CF : ProgramConfig, DV : Device}.
Context `{CL : !ProgramConfigLaws, DL : !DeviceLaws}.
Context (lane : nat).

Abbreviation pages := PagedKV.pages_for_tokens.

(** The rewrite checkpoint of a lane lies in the tokens it has processed. *)
Definition checkpoint_ok (s : SequenceState) (n : Z) : Prop :=
  rc_valid (rewrite_checkpoint s) = true -> 0 < rc_frontier (rewrite_checkpoint s) <= n.

(** The mapped pages hold the tokens that the sequence says are in its caches. *)
Definition covers (s : SequenceState) (mt mb : Z) : Prop :=
  pages (text_kv_valid s) <= mt /\ pages (backend_kv_valid s) <= mb.

(** The backend's cache follows the execution frontier: MTP exactly, DFlash within one round. *)
Definition backend_at (s : SequenceState) (frontier : Z) : Prop :=
  match speculative_backend with
  | NoSpeculation => True
  | Mtp => mtp_kv_valid s = frontier
  | DFlash => 0 <= dflash_context_frontier s <= frontier /\ frontier - dflash_context_frontier s <= width
  end.
Definition backend_exact (s : SequenceState) (frontier : Z) : Prop :=
  match speculative_backend with
  | NoSpeculation => True | Mtp => mtp_kv_valid s = frontier | DFlash => dflash_context_frontier s = frontier
  end.

(** A sequence between rounds: [E] tokens executed and one token ahead. *)
Record at_rest (s : SequenceState) (E : Z) : Prop := {
  ar_frontier : execution_frontier s = E;
  ar_range : 0 < E <= capacity;
  ar_ledger_frontier : ledger_frontier s = E + 1;
  ar_ledger : Z.of_nat (length (ledger s)) = E + 1;
  ar_identity : identity_size (prefix_identity s) = E + 1;
  ar_wf : identity_wf (prefix_identity s);
  ar_text : text_kv_valid s = E;
  ar_backend : backend_at s E;
  ar_drafts : 0 <= mtp_draft_count s;
  ar_tail : tail_hidden_valid s = true;
  ar_checkpoint : checkpoint_ok s E;
}.

(** A free lane. *)
Record empty_lane (v : LaneView) : Prop := {
  em_lifecycle : lifecycle (lv_req v) = Empty;
  em_kv : no_kv v;
  em_retained : retained (lv_seq v) = false;
  em_prefill : prefill (lv_req v) = None;
  em_pending : pending (lv_req v) = no_pending;
  em_ledger : ledger (lv_seq v) = [];
  em_frontiers : execution_frontier (lv_seq v) = 0 /\ ledger_frontier (lv_seq v) = 0 /\ text_kv_valid (lv_seq v) = 0;
  em_identity : identity_size (prefix_identity (lv_seq v)) = 0;
  em_wf : identity_wf (prefix_identity (lv_seq v));
  em_checkpoint : rc_valid (rewrite_checkpoint (lv_seq v)) = false;
}.

(** A lane whose prompt is being processed. *)
Record prefilling (v : LaneView) (pf : Prefill) (mt et mb eb : Z) : Prop := {
  pl_lifecycle : lifecycle (lv_req v) = Prefilling;
  pl_prefill : prefill (lv_req v) = Some pf;
  pl_pending : pending (lv_req v) = no_pending;
  pl_kv : kv_is lane v mt et mb eb (Z.of_nat lane);
  pl_tokens : pf_prompt_tokens pf = Z.of_nat (length (token_ids (pf_prompt pf)));
  pl_ledger : ledger (lv_seq v) = token_ids (pf_prompt pf);
  pl_identity : identity_size (prefix_identity (lv_seq v)) = pf_prompt_tokens pf;
  pl_wf : identity_wf (prefix_identity (lv_seq v));
  pl_range : 0 < pf_prompt_tokens pf <= capacity;
  pl_cursor : 0 <= pf_base pf <= pf_cursor pf /\ pf_cursor pf <= pf_prompt_tokens pf;
  pl_text : text_kv_valid (lv_seq v) = pf_cursor pf;
  pl_backend : match speculative_backend with
               | NoSpeculation => True
               | Mtp => 0 <= mtp_kv_valid (lv_seq v) <= pf_cursor pf
               | DFlash => dflash_context_frontier (lv_seq v) = pf_cursor pf
               end;
  pl_pages : pages (pf_prompt_tokens pf) <= mt /\ (speculative_backend <> NoSpeculation -> pages (pf_prompt_tokens pf) <= mb);
  pl_mtp : pf_prepare_mtp pf = bool_decide (speculative_backend = Mtp);
  pl_extent : 0 <= initial_mtp_extent pf <= draft_window;
  pl_drafts : mtp_draft_count (lv_seq v) = 0;
  pl_checkpoint : checkpoint_ok (lv_seq v) (pf_prompt_tokens pf);
  pl_retained : retained (lv_seq v) = false;
  pl_capture : match pf_capture pf with Some c => 0 <= rs_frontier c | None => True end;
  pl_vision : pf_vision pf = None \/ pf_vision pf = Some [];
}.

(** The first token of a request is licensed. *)
Record begun (v : LaneView) (P mt et mb eb : Z) : Prop := {
  bg_lifecycle : lifecycle (lv_req v) = Pending;
  bg_pending : pending (lv_req v) = mkPending Begin 0 0 P 1;
  bg_prefill : prefill (lv_req v) = None;
  bg_kv : kv_is lane v mt et mb eb (Z.of_nat lane);
  bg_range : 0 < P <= capacity;
  bg_ledger : Z.of_nat (length (ledger (lv_seq v))) = P + 1;
  bg_identity : identity_size (prefix_identity (lv_seq v)) = P + 1;
  bg_wf : identity_wf (prefix_identity (lv_seq v));
  bg_text : text_kv_valid (lv_seq v) = P;
  bg_backend : backend_exact (lv_seq v) P;
  bg_drafts : 0 <= mtp_draft_count (lv_seq v) <= draft_window;
  bg_tail : tail_hidden_valid (lv_seq v) = true;
  bg_checkpoint : checkpoint_ok (lv_seq v) P;
  bg_pages : covers (lv_seq v) mt mb;
  bg_retained : retained (lv_seq v) = false;
}.

(** A lane ready for the next round. *)
Record active (v : LaneView) (E mt et mb eb : Z) : Prop := {
  ac_lifecycle : lifecycle (lv_req v) = Active;
  ac_pending : pending (lv_req v) = no_pending;
  ac_prefill : prefill (lv_req v) = None;
  ac_kv : kv_is lane v mt et mb eb (Z.of_nat lane);
  ac_rest : at_rest (lv_seq v) E;
  ac_pages : covers (lv_seq v) mt mb;
  ac_retained : retained (lv_seq v) = false;
}.

(** The token of an ordinary round is licensed: it is in the ledger. *)
Record ordinary_pending (v : LaneView) (E mt et mb eb : Z) : Prop := {
  op_lifecycle : lifecycle (lv_req v) = Pending;
  op_pending : pending (lv_req v) = mkPending Ordinary E (E + 1) 0 1;
  op_prefill : prefill (lv_req v) = None;
  op_backend : speculative_backend = NoSpeculation;
  op_kv : kv_is lane v mt et mb eb (Z.of_nat lane);
  op_range : 0 < E /\ E + 1 <= capacity;
  op_frontiers : execution_frontier (lv_seq v) = E /\ ledger_frontier (lv_seq v) = E + 1;
  op_ledger : Z.of_nat (length (ledger (lv_seq v))) = E + 2;
  op_identity : identity_size (prefix_identity (lv_seq v)) = E + 2;
  op_wf : identity_wf (prefix_identity (lv_seq v));
  op_text : text_kv_valid (lv_seq v) = E + 1;
  op_drafts : 0 <= mtp_draft_count (lv_seq v);
  op_tail : tail_hidden_valid (lv_seq v) = true;
  op_checkpoint : checkpoint_ok (lv_seq v) E;
  op_pages : pages (E + 1) <= mt;
  op_retained : retained (lv_seq v) = false;
}.

(** The tokens of a speculative round are licensed: [n] of them, not yet in the ledger. *)
Record speculative_pending (v : LaneView) (E n mt et mb eb : Z) : Prop := {
  sp_lifecycle : lifecycle (lv_req v) = Pending;
  sp_pending : pending (lv_req v) = mkPending Speculative E (E + 1) 0 n;
  sp_prefill : prefill (lv_req v) = None;
  sp_backend : speculative_backend <> NoSpeculation;
  sp_kv : kv_is lane v mt et mb eb (Z.of_nat lane);
  sp_rest : at_rest (lv_seq v) E;
  sp_exact : backend_exact (lv_seq v) E;
  sp_pages : covers (lv_seq v) mt mb;
  sp_count : 0 < n <= width /\ E + n <= capacity;
  sp_retained : retained (lv_seq v) = false;
}.

(** The request has ended and its sequence is kept for a later one. *)
Record complete (v : LaneView) (E mt mb : Z) : Prop := {
  co_lifecycle : lifecycle (lv_req v) = Complete;
  co_pending : pending (lv_req v) = no_pending;
  co_prefill : prefill (lv_req v) = None;
  co_kv : kv_is lane v mt mt mb mb (-1);
  co_rest : at_rest (lv_seq v) E;
  co_exact : backend_exact (lv_seq v) E;
  co_pages : covers (lv_seq v) mt mb;
  co_retained : retained (lv_seq v) = true;
}.

Definition lane_ok (v : LaneView) : Prop :=
  match lifecycle (lv_req v) with
  | Empty => empty_lane v
  | Prefilling => exists pf mt et mb eb, prefilling v pf mt et mb eb
  | Active => exists E mt et mb eb, active v E mt et mb eb
  | Pending => exists mt et mb eb,
      (exists P, begun v P mt et mb eb) \/ (exists E, ordinary_pending v E mt et mb eb) \/
      (exists E n, speculative_pending v E n mt et mb eb)
  | Complete => exists E mt mb, complete v E mt mb
  end.

(** What every handler needs to clear a lane. *)
Definition clearable (v : LaneView) : Prop := kv_ok lane v /\ identity_wf (prefix_identity (lv_seq v)).

Lemma lane_ok_clearable v : lane_ok v -> clearable v.
Proof.
  unfold lane_ok, clearable. destruct (lifecycle (lv_req v)).
  - intros H. split; [left|]; apply H.
  - intros (pf & mt & et & mb & eb & H). split; [by eapply kv_is_ok, pl_kv|apply H].
  - intros (E & mt & et & mb & eb & H). split; [by eapply kv_is_ok, ac_kv|apply H].
  - intros (mt & et & mb & eb & [(P & H)|[(E & H)|(E & n & H)]]).
    + split; [by eapply kv_is_ok, bg_kv|apply H].
    + split; [by eapply kv_is_ok, op_kv|apply H].
    + split; [by eapply kv_is_ok, sp_kv|apply H].
  - intros (E & mt & mb & H). split; [by eapply kv_is_ok, co_kv|apply H].
Qed.

Lemma cleared_empty v : clearable v -> empty_lane (cleared_view v).
Proof.
  intros [_ [H1 H2]]. constructor; try done. constructor; cbn; [by rewrite length_fmap|].
  apply Forall_fmap. by eapply Forall_impl; [exact H2|].
Qed.
Lemma empty_lane_ok v : empty_lane v -> lane_ok v.
Proof. intros H. unfold lane_ok. by rewrite (em_lifecycle _ H). Qed.
Lemma empty_clearable v : empty_lane v -> clearable v.
Proof. intros H. split; [left|]; apply H. Qed.
End Invariant.
