(* ===== verification/ProgramPrefill.v ===== *)
(** * Prefill keeps the lanes' invariant

    [advance_prefill] and [start_prefill_lane] on a lane in a good state. *)
From S2P Require Import Prelude Tensor Layout PagedKV PagedKVProofs PrefixIdentity VisionControl Admission Capacity Contract ProgramState RequestPlan Program ProgramDecode ProgramLanes PlanProofs ProgramBundle ProgramInvariant.
#[local] Open Scope Z_scope.

(** ** Appending to the identity *)

Lemma append_generated_run count rope_delta i : exists r n,
  append_generated count rope_delta i = (r, appended i (identity_size i) rope_delta n) /\
  (r = Ok tt /\ n = count \/ r = Err OverflowError).
Proof.
  unfold append_generated, mbind_, mgets, mthrow_if, mlift, throw_if. destruct (Z.of_nat count >? u64_max - identity_size i).
  - exists (Err OverflowError), 0%nat. rewrite appended_0. auto.
  - destruct (append_from_spec (identity_size i) count rope_delta i) as (n & _ & -> & _).
    destruct (Nat.eqb_spec n count); eauto 10.
Qed.

Section Prefill.
Context `{CF : ProgramConfig, DV : Device}.
Context `{CL : !ProgramConfigLaws, DL : !DeviceLaws}.
Context (lane : nat) (Hlane : (lane < kMaximumConcurrency)%nat).
Implicit Types (E : exn -> LaneView -> Prop) (v : LaneView).
Abbreviation pages := PagedKV.pages_for_tokens.

Lemma lwp_append_generated count rope_delta (Q : unit -> LaneView -> Prop) E v :
  identity_wf (prefix_identity (lv_seq v)) ->
  (forall i, identity_wf i -> identity_size i = identity_size (prefix_identity (lv_seq v)) + Z.of_nat count ->
     Q tt (with_seq (set_prefix_identity i) v)) ->
  (forall i, identity_wf i -> E OverflowError (with_seq (set_prefix_identity i) v)) ->
  lwp lane (on_identity lane (append_generated count rope_delta)) Q E v.
Proof.
  intros Hw HQ HE. destruct (append_generated_run count rope_delta (prefix_identity (lv_seq v))) as (r & n & Hr & Hc).
  apply lwp_on_identity; [done|..]; intros *; rewrite Hr; intros [= -> <-].
  - destruct Hc as [[_ ->]|]; [|done]. apply HQ; [by apply appended_wf|by apply appended_size].
  - destruct Hc as [[? _]|[= ->]]; [done|]. apply HE. by apply appended_wf.
Qed.

(** A failure of the body of a handler that clears the lane. *)
Lemma lwp_guarded {A} (m : M Program A) (Q : A -> LaneView -> Prop) v :
  lwp lane m Q (fun e v' => e <> Abort_ /\ clearable lane v') v ->
  lwp lane (mtry m (fun e => do! try_sync; do! clear_lane lane; mthrow e)) Q (fun e v' => e <> Abort_ /\ empty_lane v') v.
Proof.
  intros H. apply lwp_try. eapply lwp_mono; [exact H|done|]. intros e v' [He Hc]. split; [done|].
  apply lwp_fail; [done|apply Hc|]. split; [done|by eapply cleared_empty].
Qed.

Lemma clear_of v mt et mb eb row : kv_is lane v mt et mb eb row -> identity_wf (prefix_identity (lv_seq v)) -> clearable lane v.
Proof. intros H1 H2. split; [by eapply kv_is_ok|done]. Qed.

(** ** A step of prefill *)

Definition Ec : exn -> LaneView -> Prop := fun e v' => e <> Abort_ /\ clearable lane v'.

Lemma prefilling_clearable v pf mt et mb eb : prefilling lane v pf mt et mb eb -> clearable lane v.
Proof. intros H. eapply clear_of; apply H. Qed.

Record same_prefill (pf pf' : Prefill) : Prop := {
  sf_base : pf_base pf' = pf_base pf;
  sf_tokens : pf_prompt_tokens pf' = pf_prompt_tokens pf;
  sf_ids : token_ids (pf_prompt pf') = token_ids (pf_prompt pf);
  sf_capture : pf_capture pf' = pf_capture pf;
}.

Lemma lwp_run_bridge pf context (Q : Prefill -> LaneView -> Prop) v mt et mb eb :
  prefilling lane v pf mt et mb eb ->
  (forall pf' v', prefilling lane v' pf' mt et mb eb -> same_prefill pf pf' -> pf_cursor pf' = pf_cursor pf -> Q pf' v') ->
  lwp lane (run_bridge lane pf context) Q Ec v.
Proof.
  intros Hp HQ. pose proof (prefilling_clearable _ _ _ _ _ _ Hp) as Hc.
  assert (HE : forall e, e <> Abort_ -> Ec e v) by done. unfold run_bridge. case_match eqn:Hbridge; [|by apply lwp_ret, HQ].
  lstep; [intros _; by apply HE|]. intros Hg. bprop. apply lwp_bind, lwp_lift; [intros position _|].
  2: { intros e He. apply HE. eapply clean_err, He. unfold pg_checked_i32. clean_tac. }
  apply lwp_bind, lwp_lift; [intros rope _|].
  2: { intros e He. apply HE. eapply clean_err, He. unfold prompt_rope_position. clean_tac. }
  assert (Hrest : lwp lane (do! mod_seq lane (set_mtp_kv_valid (pf_base pf));
    let pf := set_pf_mtp_bridge NoBridge pf in do! mod_req lane (set_prefill (Some pf)); mret_ pf) Q Ec v).
  { lstep. lstep. lstep. apply HQ; [|done..]. destruct Hp. constructor; cbn; try done. 
    - by eapply kv_is_host.
    - destruct speculative_backend; try done. lia. }
  apply lwp_bind. destruct (pf_vision pf).
  - apply lwp_issue; [exact Hrest|done].
  - lstep; [intros token _|intros Hn]. 
    + lstep; [|done]. lstep; [exact Hrest|done].
    + exfalso. apply lookup_ge_None in Hn. destruct Hp. lia.
Qed.

Lemma release_encoded_run pf encoded : Forall (fun i => 0 <= i < Z.of_nat (length (media_payloads (pf_prompt pf)))) encoded ->
  exists l, release_encoded pf encoded = Ok (set_pf_vision (Some []) (set_pf_prompt (set_media_payloads (pf_prompt pf) l) pf)).
Proof.
  intros H. unfold release_encoded. assert (existsb (fun i => i >=? Z.of_nat (length (media_payloads (pf_prompt pf)))) encoded = false) as ->.
  { apply not_true_iff_false. rewrite existsb_exists. intros (i & Hi & Hge).
    rewrite Forall_forall in H. rewrite <- list_elem_of_In in Hi. specialize (H i Hi). bprop. lia. }
  by eexists.
Qed.

Lemma lwp_run_chunk pf context (Q : Prefill * PrefillChunkResult -> LaneView -> Prop) v mt et mb eb :
  prefilling lane v pf mt et mb eb -> pf_cursor pf < pf_prompt_tokens pf ->
  (forall pf' result v', prefilling lane v' pf' mt et mb eb -> same_prefill pf pf' ->
     pf_cursor pf' = pf_cursor pf + processed_tokens result -> 0 < processed_tokens result -> Q (pf', result) v') ->
  lwp lane (run_chunk lane pf context) Q Ec v.
Proof.
  intros Hp Hlt HQ. pose proof (prefilling_clearable _ _ _ _ _ _ Hp) as Hc.
  assert (HE : forall e, e <> Abort_ -> Ec e v) by done. unfold run_chunk. cbv zeta.
  lstep; [intros _; by apply HE|]. intros Hm. apply lwp_bind, lwp_on_dev.
  2: { intros d e d' Hd. apply HE. pose proof (dl_chunk _ _ _ _ _ _ _ _ _ Hd) as H. exact H. }
  intros d result d' Hd. pose proof (dl_chunk _ _ _ _ _ _ _ _ _ Hd) as [Hpos Henc]. clear d d' Hd.
  lstep; [intros _; by apply HE|]. intros Hprog. bprop.
  assert (Hrest : forall pf2, same_prefill pf pf2 -> pf_cursor pf2 = pf_cursor pf -> pf_prepare_mtp pf2 = pf_prepare_mtp pf ->
    initial_mtp_extent pf2 = initial_mtp_extent pf -> (pf_vision pf2 = None \/ pf_vision pf2 = Some []) ->
    lwp lane (let pf := set_pf_cursor (pf_cursor pf2 + processed_tokens result) pf2 in
      do! mod_req lane (set_prefill (Some pf));
      do! mod_seq lane (set_text_kv_valid (pf_cursor pf));
      do! mwhen (pf_prepare_mtp pf) (mod_seq lane (set_mtp_kv_valid (pf_cursor pf)));
      do! mwhen (bool_decide (speculative_backend = DFlash)) (mod_seq lane (set_dflash_context_frontier (pf_cursor pf)));
      mret_ (pf, result)) Q Ec v).
  { intros pf2 [S1 S2 S3 S4] Hcur Hprep Hext Hvis. lstep. lstep.
    set (pf' := set_pf_cursor _ pf2).
    assert (Hgo : forall v', (exists m c, lv_seq v' = set_dflash_context_frontier c (set_mtp_kv_valid m
          (set_text_kv_valid (pf_cursor pf') (lv_seq v))) /\
        match speculative_backend with NoSpeculation => True | Mtp => m = pf_cursor pf' | DFlash => c = pf_cursor pf' end) ->
      lv_req v' = set_prefill (Some pf') (lv_req v) -> lv_text v' = lv_text v -> lv_backend v' = lv_backend v ->
      Q (pf', result) v').
    { intros v' (m & c & E1 & Emc) E2 E3 E4. apply HQ; [|by constructor|cbn; lia|lia]. destruct Hp.
      constructor; rewrite ?E1, ?E2; cbn; try done; try congruence; try lia.
      - eapply kv_is_host; [done|by rewrite E1|done|done].
      - destruct speculative_backend; [done| |]; cbn in Emc; lia.
      - by rewrite S2.
      - by rewrite S4. }
    pose proof (pl_mtp _ _ _ _ _ _ _ Hp) as Hmtp. rewrite <- Hprep in Hmtp.
    unfold mwhen. cbn [pf_prepare_mtp set_pf_cursor pf']. rewrite Hmtp.
    case_bool_decide as H1; [|case_bool_decide as H2].
    - lstep. rewrite bool_decide_eq_false_2 by congruence. lstep. lstep. apply Hgo; [|done..].
      exists (pf_cursor pf'), (dflash_context_frontier (lv_seq v)). split; [by destruct v as [[]]|by rewrite H1].
    - lstep. lstep. lstep. apply Hgo; [|done..].
      exists (mtp_kv_valid (lv_seq v)), (pf_cursor pf'). split; [by destruct v as [[]]|by rewrite H2].
    - lstep. lstep. lstep. apply Hgo; [|done..].
      exists (mtp_kv_valid (lv_seq v)), (dflash_context_frontier (lv_seq v)). split; [by destruct v as [[]]|by destruct speculative_backend]. }
  apply lwp_bind. destruct (pf_vision pf) as [pending|] eqn:Hv; [|by apply lwp_ret, Hrest; auto].
  destruct (pl_vision _ _ _ _ _ _ _ Hp) as [Hn|Hn]; [congruence|]. assert (pending = []) as -> by congruence.
  destruct (release_encoded_run pf (encoded_items result) Henc) as (l & Hr). cbn [app]. rewrite Hr.
  lstep; [|done]. intros pf2 [= <-]. apply Hrest; [by constructor|done..|by right].
Qed.

Lemma pg_checked_clean x : clean (pg_checked_i32 x).
Proof. unfold pg_checked_i32. clean_tac. Qed.
Lemma rope_clean prompt x : clean (prompt_rope_position prompt x).
Proof. unfold prompt_rope_position. clean_tac. Qed.

Lemma lwp_run_zero_suffix pf context (Q : Prefill -> LaneView -> Prop) v mt et mb eb :
  prefilling lane v pf mt et mb eb -> pf_cursor pf = pf_prompt_tokens pf ->
  (forall pf' v', prefilling lane v' pf' mt et mb eb -> same_prefill pf pf' -> pf_cursor pf' = pf_cursor pf -> Q pf' v') ->
  lwp lane (run_zero_suffix lane pf context) Q Ec v.
Proof.
  intros Hp Hcur HQ. pose proof (prefilling_clearable _ _ _ _ _ _ Hp) as Hc.
  assert (HE : forall e, e <> Abort_ -> Ec e v) by done. unfold run_zero_suffix. lstep.
  lstep; [intros _; by apply HE|]. intros _. lstep; [intros position _|intros e He; apply HE; by eapply clean_err, He; apply pg_checked_clean].
  lstep; [|done]. lstep; [|done]. destruct (pf_prepare_mtp pf) eqn:Hprep; [|by apply lwp_ret, HQ].
  lstep; [intros _; by apply HE|]. intros _.
  lstep; [intros rope _|intros e He; apply HE; by eapply clean_err, He; apply rope_clean].
  lstep; [intros position' _|intros e He; apply HE; by eapply clean_err, He; apply pg_checked_clean].
  lstep; [|done]. lstep. lstep. lstep. apply HQ; [|done..]. destruct Hp. constructor; cbn; try done.
  - by eapply kv_is_host.
  - destruct speculative_backend; try done. lia.
Qed.

(** ** The end of a prefill *)

Lemma lwp_install_checkpoint pf P (Q : unit -> LaneView -> Prop) v :
  clearable lane v -> match pf_capture pf with Some c => 0 <= rs_frontier c | None => True end ->
  checkpoint_ok (lv_seq v) P ->
  (forall c, checkpoint_ok (set_rewrite_checkpoint c (lv_seq v)) P -> Q tt (with_seq (set_rewrite_checkpoint c) v)) ->
  lwp lane (install_checkpoint lane pf P) Q Ec v.
Proof.
  intros Hc Hcap Hck HQ. assert (HE : forall e, e <> Abort_ -> Ec e v) by done. unfold install_checkpoint.
  destruct (pf_capture pf) as [capture|].
  - lstep. lstep; [intros _; by apply HE|]. intros H. bprop. lstep; [intros _; by apply HE|]. intros _.
    lstep; [intros _; by apply HE|]. intros _. lstep. apply HQ. intros _. cbn. lia.
  - lstep. specialize (HQ (rewrite_checkpoint (lv_seq v))).
    assert (Hid : with_seq (set_rewrite_checkpoint (rewrite_checkpoint (lv_seq v))) v = v) by by destruct v as [[]].
    rewrite Hid in HQ. by apply HQ.
Qed.

Lemma licensed_clean tokens : clean (validate_licensed_tokens tokens).
Proof. unfold validate_licensed_tokens. by apply clean_throw_if. Qed.

Lemma lwp_finish_prefill pf processed (Q : PrefillStepResult -> LaneView -> Prop) v mt et mb eb :
  prefilling lane v pf mt et mb eb -> pf_cursor pf = pf_prompt_tokens pf ->
  (forall token v', begun lane v' (pf_prompt_tokens pf) mt et mb eb -> ledger (lv_seq v') = token_ids (pf_prompt pf) ++ [token] ->
     Q (mkStepResult (begin_summary pf) [token] processed true) v') ->
  lwp lane (finish_prefill lane pf processed) Q Ec v.
Proof.
  intros Hp Hcur HQ. pose proof (prefilling_clearable _ _ _ _ _ _ Hp) as Hc.
  assert (HE : forall e, e <> Abort_ -> Ec e v) by done.
  eapply lwp_kv_bounds; [exact Hlane|exact (pl_kv _ _ _ _ _ _ _ Hp)|]. intros Hbounds. unfold finish_prefill.
  lstep; [|done]. apply lwp_bind.
  assert (Hrest : lwp lane (do! sync;
    let! d := mgets pg_dev in
    let prompt_tokens := pf_prompt_tokens pf in
    let token := round_token d in
    do! mlift (validate_licensed_tokens [token]);
    let! s := get_seq lane in
    do! mthrow_if (negb (Z.of_nat (length (ledger s)) =? prompt_tokens)) LogicError;
    do! mod_seq lane (fun s => set_ledger (ledger s ++ [token]) s);
    do! on_identity lane (append_generated 1 (sq_rope_delta s));
    do! mod_seq lane (set_text_kv_valid prompt_tokens);
    do! (if pf_prepare_mtp pf then
           do! mthrow_if (negb (mtp_kv_valid s =? prompt_tokens)) LogicError;
           do! mod_seq lane (set_mtp_draft_count (initial_mtp_extent pf));
           let drafts := initial_drafts d <$> seq 0 (Z.to_nat (initial_mtp_extent pf)) in
           mod_seq lane (fun s => set_mtp_drafts (drafts ++ drop (length drafts) (mtp_drafts s)) s)
         else mthrow_if (bool_decide (speculative_backend = DFlash) &&
                         negb (dflash_context_frontier s =? prompt_tokens)) LogicError);
    do! mod_seq lane (set_tail_hidden_valid true);
    do! install_checkpoint lane pf prompt_tokens;
    do! mod_req lane (set_prefill None);
    do! mod_req lane (set_pending (mkPending Begin 0 0 prompt_tokens 1));
    do! mod_req lane (set_lifecycle Pending);
    mret_ (mkStepResult (begin_summary pf) [token] processed true)) Q Ec v).
  { apply lwp_bind, lwp_sync; [|done]. lstep. intros p _ _. set (d := pg_dev p). clearbody d. cbv zeta.
    lstep; [intros [] _|intros e He; apply HE; by eapply clean_err, He; apply licensed_clean].
    lstep. lstep; [intros _; by apply HE|]. intros Hlen. bprop. lstep. apply lwp_bind, lwp_append_generated; cbn.
    { apply Hp. }
    2: { intros i Hi. split; [done|]. eapply clear_of; [eapply kv_is_host; [exact (pl_kv _ _ _ _ _ _ _ Hp)|done..]|exact Hi]. }
    intros i Hi Hsize. lstep. apply lwp_bind.
    set (v1 := with_seq (set_text_kv_valid _) _).
    assert (Hfin : forall v', (exists n drafts, lv_seq v' = set_mtp_draft_count n (set_mtp_drafts drafts (lv_seq v1)) /\ 0 <= n <= draft_window) ->
      lv_req v' = lv_req v1 -> lv_text v' = lv_text v1 -> lv_backend v' = lv_backend v1 -> backend_exact (lv_seq v) (pf_prompt_tokens pf) ->
      lwp lane (do! mod_seq lane (set_tail_hidden_valid true);
        do! install_checkpoint lane pf (pf_prompt_tokens pf);
        do! mod_req lane (set_prefill None);
        do! mod_req lane (set_pending (mkPending Begin 0 0 (pf_prompt_tokens pf) 1));
        do! mod_req lane (set_lifecycle Pending);
        mret_ (mkStepResult (begin_summary pf) [round_token d] processed true)) Q Ec v').
    { intros v' (n & drafts & E1 & Hn) E2 E3 E4 Hex. lstep. apply lwp_bind, lwp_install_checkpoint; cbn.
      - eapply clear_of; [|cbn; by rewrite E1].
        eapply kv_is_host; [exact (pl_kv _ _ _ _ _ _ _ Hp)|cbn; by rewrite E1|cbn; by rewrite E3|cbn; by rewrite E4].
      - apply Hp.
      - intros Hv. cbn in *. rewrite E1 in *. by apply (pl_checkpoint _ _ _ _ _ _ _ Hp).
      - intros c Hck. cbn in Hck. lstep. lstep. lstep. lstep. apply HQ.
        + destruct Hp. constructor; cbn; rewrite ?E1; try done; cbn.
          * eapply kv_is_host; [done|cbn; by rewrite E1|cbn; by rewrite E3|cbn; by rewrite E4].
          * rewrite length_app. cbn. lia.
          * rewrite Hsize. lia.
          * unfold covers, backend_kv_valid, backend_exact in *. cbn. destruct Hbounds as [_ _ ? _ _], pl_pages as [? Hpb].
            split; [done|]. destruct speculative_backend; cbn; [lia|rewrite Hex; by apply Hpb..].
        + cbn. rewrite E1. cbn. by rewrite (pl_ledger _ _ _ _ _ _ _ Hp). }
    pose proof (pl_mtp _ _ _ _ _ _ _ Hp) as Hmtp. pose proof (pl_extent _ _ _ _ _ _ _ Hp) as Hext.
    assert (HE1 : forall e, e <> Abort_ -> Ec e v1).
    { intros e He. split; [done|]. eapply clear_of; [eapply kv_is_host; [exact (pl_kv _ _ _ _ _ _ _ Hp)|done..]|exact Hi]. }
    rewrite Hmtp. case_bool_decide as H1.
    - lstep; [intros _; by apply HE1|]. intros Hm. bprop. lstep. lstep. apply Hfin; [|done..|].
      + eexists _, _. split; [|exact Hext]. by destruct v as [[]].
      + unfold backend_exact. by rewrite H1.
    - lstep; [intros _; by apply HE1|]. intros Hd. apply Hfin; [|done..|].
      + exists (mtp_draft_count (lv_seq v1)), (mtp_drafts (lv_seq v1)). split; [by destruct v as [[]]|].
        cbn. rewrite (pl_drafts _ _ _ _ _ _ _ Hp). lia.
      + unfold backend_exact. destruct speculative_backend; [done..|]. rewrite bool_decide_eq_true_2 in Hd by done.
        cbn in Hd. bprop. done. }
  apply lwp_when; [intros _|intros _; exact Hrest]. apply lwp_issue; [exact Hrest|done].
Qed.

(** ** [advance_prefill] *)

Lemma slot_clean n : clean (current_state_slot lane n).
Proof. unfold current_state_slot. clean_tac. Qed.
Lemma checkpoint_slot_clean n : clean (rewrite_checkpoint_state_slot lane n).
Proof. unfold rewrite_checkpoint_state_slot. apply clean_bind; [apply slot_clean|done]. Qed.

(** A step of prefill makes progress, and at the end of the prompt licenses its first token; a failure
    clears the lane. *)
Definition stepped (pf : Prefill) (mt et mb eb : Z) (r : PrefillStepResult) (v' : LaneView) : Prop :=
  if Contract.complete r then begun lane v' (pf_prompt_tokens pf) mt et mb eb /\ 
    exists token, st_round r = [token] /\ ledger (lv_seq v') = token_ids (pf_prompt pf) ++ [token]
  else st_round r = [] /\ exists pf', prefilling lane v' pf' mt et mb eb /\ same_prefill pf pf' /\
    pf_cursor pf < pf_cursor pf' < pf_prompt_tokens pf.

Lemma same_prefill_trans p1 p2 p3 : same_prefill p1 p2 -> same_prefill p2 p3 -> same_prefill p1 p3.
Proof. intros [] []. constructor; congruence. Qed.

Lemma lwp_advance v pf mt et mb eb : prefilling lane v pf mt et mb eb ->
  lwp lane (advance_prefill lane) (stepped pf mt et mb eb) (fun e v' => e <> Abort_ /\ empty_lane v') v.
Proof.
  intros Hp. unfold advance_prefill. lstep. rewrite (pl_lifecycle _ _ _ _ _ _ _ Hp), (pl_prefill _ _ _ _ _ _ _ Hp).
  apply lwp_guarded. fold Ec. pose proof (prefilling_clearable _ _ _ _ _ _ Hp) as Hc.
  assert (HE : forall e, e <> Abort_ -> Ec e v) by done.
  apply lwp_bind. eapply lwp_text_kv_view; [exact (pl_kv _ _ _ _ _ _ _ Hp)| |done]. intros text_view.
  apply lwp_bind. eapply lwp_mtp_kv_view; [exact (pl_kv _ _ _ _ _ _ _ Hp)| |done]. intros mtp_view.
  lstep; [intros current _|intros e He; apply HE; by eapply clean_err, He; apply slot_clean].
  lstep; [intros checkpoint _|intros e He; apply HE; by eapply clean_err, He; apply checkpoint_slot_clean].
  cbv zeta. apply lwp_bind. eapply lwp_run_bridge; [exact Hp|]. intros pf1 v1 Hp1 Hs1 Hc1.
  pose proof (sf_tokens _ _ Hs1) as Ht1. pose proof (prefilling_clearable _ _ _ _ _ _ Hp1) as Hcl1.
  assert (Hdone : forall pf2 v2 processed, prefilling lane v2 pf2 mt et mb eb -> same_prefill pf pf2 ->
    pf_cursor pf2 = pf_prompt_tokens pf2 ->
    lwp lane (finish_prefill lane pf2 processed) (stepped pf mt et mb eb) Ec v2).
  { intros pf2 v2 processed Hp2 Hs2 Hcur. eapply lwp_finish_prefill; [exact Hp2|done|]. intros token v3 H3 Hl3.
    unfold stepped. cbn. rewrite <- (sf_tokens _ _ Hs2), <- (sf_ids _ _ Hs2). eauto. }
  destruct (Z.ltb_spec (pf_cursor pf1) (pf_prompt_tokens pf1)) as [Hlt|Hge].
  - apply lwp_bind. eapply lwp_run_chunk; [exact Hp1|done|]. intros pf2 result v2 Hp2 Hs2 Hc2 Hpos.
    pose proof (sf_tokens _ _ Hs2) as Ht2. pose proof (prefilling_clearable _ _ _ _ _ _ Hp2) as Hcl2.
    pose proof (pl_cursor _ _ _ _ _ _ _ Hp2). pose proof (same_prefill_trans _ _ _ Hs1 Hs2) as Hs.
    destruct (finalized result); cbn [negb].
    + lstep; [done|]. intros Hcur. bprop. unfold copy_tail. apply lwp_bind, lwp_bind, lwp_issue; [|done]. lstep.
      apply Hdone; [|done|done]. destruct Hp2. constructor; try done. by eapply kv_is_host.
    + lstep; [done|]. intros Hcur. bprop. apply lwp_ret. unfold stepped. cbn. split; [done|]. exists pf2.
      split_and!; [done|done|lia|lia].
  - pose proof (pl_cursor _ _ _ _ _ _ _ Hp1). apply lwp_bind.
    eapply lwp_run_zero_suffix; [exact Hp1|lia|]. intros pf2 v2 Hp2 Hs2 Hc2. pose proof (sf_tokens _ _ Hs2).
    apply Hdone; [done|by eapply same_prefill_trans|lia].
Qed.

(** ** Reuse of the retained sequence *)

Lemma start_clearable v f : clearable lane v -> kv (f (lv_seq v)) = kv (lv_seq v) ->
  prefix_identity (f (lv_seq v)) = prefix_identity (lv_seq v) -> clearable lane (with_seq f v).
Proof.
  intros [[(H1 & H2 & H3)|(mt & et & mb & eb & row & Hk)] Hw] E1 E2; split; cbn; rewrite ?E2; try done.
  - left. unfold no_kv. cbn. by rewrite E1.
  - right. exists mt, et, mb, eb, row. by eapply kv_is_host.
Qed.

(** The sequence is at the base of the plan. *)
Record reused (v v' : LaneView) (base mt et mb eb row : Z) : Prop := {
  ru_kv : kv_is lane v' mt et mb eb row;
  ru_text : text_kv_valid (lv_seq v') = base;
  ru_backend : match speculative_backend with
               | NoSpeculation => True
               | Mtp => 0 <= mtp_kv_valid (lv_seq v') <= base
               | DFlash => dflash_context_frontier (lv_seq v') = base
               end;
  ru_checkpoint : rewrite_checkpoint (lv_seq v') = rewrite_checkpoint (lv_seq v);
  ru_identity : prefix_identity (lv_seq v') = prefix_identity (lv_seq v);
  ru_retained : retained (lv_seq v') = retained (lv_seq v);
  ru_request : lv_req v' = lv_req v;
}.

Lemma lwp_ordered_reset (Q : unit -> LaneView -> Prop) v : clearable lane v ->
  Q tt (with_seq (set_dflash_context_frontier 0) (with_seq (set_mtp_kv_valid 0) (with_seq (set_text_kv_valid 0) v))) ->
  lwp lane (ordered_reset lane) Q Ec v.
Proof.
  intros Hc HQ. unfold ordered_reset. assert (HE : forall e, e <> Abort_ -> Ec e v) by done.
  lstep; [intros slot _|intros e He; apply HE; by eapply clean_err, He; apply slot_clean].
  lstep; [|done]. lstep; [|done]. lstep; [|done]. lstep; [|done].
  apply lwp_bind, lwp_when; intros _; [unfold set_device_i32; apply lwp_issue; [|done]|]; lstep; lstep; lstep; exact HQ.
Qed.

Lemma lwp_reuse_nothing plan (Q : unit -> LaneView -> Prop) v :
  clearable lane v -> is_u32 (rp_text_kv_page_entitlement plan) -> is_u32 (rp_backend_kv_page_entitlement plan) ->
  (forall v', reused v v' 0 0 (rp_text_kv_page_entitlement plan) 0 (rp_backend_kv_page_entitlement plan) (-1) -> Q tt v') ->
  lwp lane (reuse_nothing lane plan) Q Ec v.
Proof.
  intros [Hk Hw] H1 H2 HQ. unfold reuse_nothing. apply lwp_bind, lwp_kv_reset; [done|done|].
  set (v1 := mkView (set_kv None (lv_seq v)) (lv_req v) None None).
  assert (Hc1 : clearable lane v1) by (split; [by left|done]).
  apply lwp_bind, lwp_ordered_reset; [done|]. lstep. lstep. lstep. apply lwp_reserve; [done|done|done|done| |].
  - intros v' E1 E2 Hk'. apply HQ. constructor; rewrite ?E1, ?E2; try done.
    cbn. destruct speculative_backend; [done|lia|done].
  - intros e He. split; [done|]. split; [by left|done].
Qed.

Lemma lwp_rewind_mtp plan base (Q : unit -> LaneView -> Prop) v : clearable lane v -> 0 <= base ->
  (forall m, 0 <= m <= base -> Q tt (with_seq (set_mtp_kv_valid m) v)) -> lwp lane (rewind_mtp lane plan base) Q Ec v.
Proof.
  intros Hc Hb HQ. unfold rewind_mtp. lstep. cbv zeta. lstep; [intros _; by split|]. intros _. lstep. apply HQ.
  destruct (Z.eqb_spec base 0); lia.
Qed.

(** Trim to the base, and take the entitlements of the plan. *)
Lemma lwp_trim_and_resize {A} plan base (k : M Program A) (Q : A -> LaneView -> Prop) v mt et mb eb row :
  kv_is lane v mt et mb eb row -> identity_wf (prefix_identity (lv_seq v)) -> 0 <= base -> 0 <= backend_kv_valid (lv_seq v) ->
  is_u32 (rp_text_kv_page_entitlement plan) -> is_u32 (rp_backend_kv_page_entitlement plan) ->
  (forall v', same_host v v' -> kv_is lane v' (pages base) (rp_text_kv_page_entitlement plan)
     (pages (backend_kv_valid (lv_seq v))) (rp_backend_kv_page_entitlement plan) row -> lwp lane k Q Ec v') ->
  lwp lane (let! s := get_seq lane in
    do! trim_sequence_kv lane base (backend_kv_valid s);
    do! resize_sequence_kv_entitlement lane (rp_text_kv_page_entitlement plan) (rp_backend_kv_page_entitlement plan); k) Q Ec v.
Proof.
  intros Hk Hw Hb Hv H1 H2 HQ. lstep. apply lwp_bind. eapply lwp_trim_sequence; [done|exact Hk|done|done| |].
  - intros _ v1 [E1 E1'] Hk1. apply lwp_bind. eapply lwp_resize; [done|exact Hk1|done|done| |].
    + intros v2 [E2 E2'] Hk2. apply HQ; [split; congruence|done].
    + intros e He. split; [done|]. eapply clear_of; [exact Hk1|by rewrite E1].
  - intros _ e v1 mt' mb' He [E1 _] Hk1. split; [done|]. eapply clear_of; [exact Hk1|by rewrite E1].
Qed.

Lemma kv_ok_some v : kv_ok lane v -> is_some (kv (lv_seq v)) = true -> has_kv lane v.
Proof. intros [(H & _)|H]; [by rewrite H|done]. Qed.

Lemma lwp_reuse_append plan base (Q : unit -> LaneView -> Prop) v :
  clearable lane v -> 0 <= base ->
  is_u32 (rp_text_kv_page_entitlement plan) -> is_u32 (rp_backend_kv_page_entitlement plan) ->
  (forall v' mt mb row, reused v v' base mt (rp_text_kv_page_entitlement plan) mb (rp_backend_kv_page_entitlement plan) row -> Q tt v') ->
  lwp lane (reuse_append lane plan base) Q Ec v.
Proof.
  intros Hc Hb H1 H2 HQ. assert (HE : forall e, e <> Abort_ -> Ec e v) by done. unfold reuse_append. lstep.
  lstep; [intros _; by apply HE|]. intros Hs. bprop. destruct (kv_ok_some _ (proj1 Hc) Hs) as (mt & et & mb & eb & row & Hk).
  lstep; [intros _; by apply HE|]. intros _. apply lwp_bind.
  assert (Hrest : forall v1, (exists m, lv_seq v1 = set_mtp_kv_valid m (lv_seq v) /\
      match speculative_backend with
      | NoSpeculation => True | Mtp => 0 <= m <= base | DFlash => dflash_context_frontier (lv_seq v) = base end) ->
    lv_req v1 = lv_req v -> lv_text v1 = lv_text v -> lv_backend v1 = lv_backend v ->
    lwp lane (let! s := get_seq lane in
      do! trim_sequence_kv lane base (backend_kv_valid s);
      do! resize_sequence_kv_entitlement lane (rp_text_kv_page_entitlement plan) (rp_backend_kv_page_entitlement plan);
      do! mod_seq lane (set_text_kv_valid base);
      mod_seq lane (fun s => set_ledger (resize base (ledger s)) s)) Q Ec v1).
  { intros v1 (m & E1 & Hm) E2 E3 E4. eapply lwp_trim_and_resize; [|rewrite E1; apply Hc|done| |done|done|].
    - eapply kv_is_host; [exact Hk|by rewrite E1|done|done].
    - rewrite E1. unfold backend_kv_valid. cbn. destruct speculative_backend; lia.
    - intros v2 [F1 F2] Hk2. lstep. lstep. eapply HQ. constructor; cbn.
      + by eapply kv_is_host.
      + done.
      + rewrite F1, E1. cbn. destruct speculative_backend; done.
      + by rewrite F1, E1.
      + by rewrite F1, E1.
      + by rewrite F1, E1.
      + by rewrite F2. }
  destruct speculative_backend eqn:Hsb.
  - apply lwp_ret, Hrest; [|done..]. exists (mtp_kv_valid (lv_seq v)). split; [by destruct v as [[]]|done].
  - apply lwp_rewind_mtp; [done|done|]. intros m Hm. apply Hrest; [|done..]. by exists m.
  - lstep; [intros _; by apply HE|]. intros Hd. bprop. apply Hrest; [|done..].
    exists (mtp_kv_valid (lv_seq v)). split; [by destruct v as [[]]|done].
Qed.

Lemma lwp_copy_tail source (Q : unit -> LaneView -> Prop) v : clearable lane v ->
  Q tt (with_seq (set_tail_hidden_valid true) v) -> lwp lane (copy_tail lane source) Q Ec v.
Proof. intros Hc HQ. unfold copy_tail. lstep; [|by intros; split]. lstep. exact HQ. Qed.

Lemma lwp_reuse_checkpoint plan base prompt_tokens (Q : unit -> LaneView -> Prop) v :
  clearable lane v -> 0 <= base ->
  is_u32 (rp_text_kv_page_entitlement plan) -> is_u32 (rp_backend_kv_page_entitlement plan) ->
  (forall v' mt mb row, reused v v' base mt (rp_text_kv_page_entitlement plan) mb (rp_backend_kv_page_entitlement plan) row -> Q tt v') ->
  lwp lane (reuse_checkpoint lane plan base prompt_tokens) Q Ec v.
Proof.
  intros Hc Hb H1 H2 HQ. unfold reuse_checkpoint. lstep.
  lstep; [intros _; by split|]. intros Hs. bprop.
  match goal with H : is_some (kv _) = true |- _ => destruct (kv_ok_some _ (proj1 Hc) H) as (mt & et & mb & eb & row & Hk) end.
  lstep. apply lwp_bind.
  assert (Hc1 : clearable lane (with_seq (set_text_kv_valid base) v)) by by apply start_clearable.
  assert (Hfin : forall v2, reused v v2 base (pages base) (rp_text_kv_page_entitlement plan)
      (pages (backend_kv_valid (lv_seq v2))) (rp_backend_kv_page_entitlement plan) row ->
    lwp lane (mod_seq lane (fun s => set_ledger (resize base (ledger s)) s)) Q Ec v2).
  { intros v2 []. lstep. eapply HQ. constructor; cbn; try done. by eapply kv_is_host. }
  assert (Hrest : forall v1, (exists m c, lv_seq v1 = set_dflash_context_frontier c (set_mtp_kv_valid m (set_text_kv_valid base (lv_seq v))) /\
      match speculative_backend with
      | NoSpeculation => True | Mtp => 0 <= m <= base | DFlash => c = base end) ->
    lv_req v1 = lv_req v -> lv_text v1 = lv_text v -> lv_backend v1 = lv_backend v ->
    lwp lane (let! s := get_seq lane in
      do! trim_sequence_kv lane base (backend_kv_valid s);
      do! resize_sequence_kv_entitlement lane (rp_text_kv_page_entitlement plan) (rp_backend_kv_page_entitlement plan);
      let! source := mlift (rewrite_checkpoint_state_slot lane max_concurrency) in
      let! destination := mlift (current_state_slot lane max_concurrency) in
      do! issue (CopySlot source destination);
      do! mwhen (base =? prompt_tokens) (copy_tail lane (CheckpointHidden lane));
      mod_seq lane (fun s => set_ledger (resize base (ledger s)) s)) Q Ec v1).
  { intros v1 (m & c & E1 & Hm) E2 E3 E4. eapply lwp_trim_and_resize; [|rewrite E1; apply Hc|done| |done|done|].
    - eapply kv_is_host; [exact Hk|by rewrite E1|done|done].
    - rewrite E1. unfold backend_kv_valid. cbn. destruct speculative_backend; lia.
    - intros v2 [F1 F2] Hk2.
      assert (Hr2 : reused v v2 base (pages base) (rp_text_kv_page_entitlement plan)
        (pages (backend_kv_valid (lv_seq v2))) (rp_backend_kv_page_entitlement plan) row).
      { constructor; rewrite ?F2, ?F1, ?E1; cbn; try done; by rewrite <- E1. }
      assert (Hc2 : clearable lane v2). { eapply clear_of; [exact Hk2|]. rewrite F1, E1. apply Hc. }
      lstep; [intros ? _|intros e He; split; [by eapply clean_err, He; apply checkpoint_slot_clean|done]].
      lstep; [intros ? _|intros e He; split; [by eapply clean_err, He; apply slot_clean|done]].
      lstep; [|by intros; split]. apply lwp_bind, lwp_when; intros _; [|by apply Hfin].
      apply lwp_copy_tail; [done|]. apply Hfin. destruct Hr2. constructor; cbn; try done. by eapply kv_is_host. }
  destruct speculative_backend eqn:Hsb.
  - apply lwp_ret, Hrest; [|done..]. exists (mtp_kv_valid (lv_seq v)), (dflash_context_frontier (lv_seq v)). split; [by destruct v as [[]]|done].
  - apply lwp_rewind_mtp; [done|done|]. intros m Hm. apply Hrest; [|done..].
    exists m, (dflash_context_frontier (lv_seq v)). split; [by destruct v as [[]]|done].
  - lstep; [intros _; by split|]. intros _. lstep; [|by intros; split]. lstep. apply Hrest; [|done..].
    exists (mtp_kv_valid (lv_seq v)), base. split; [by destruct v as [[]]|done].
Qed.

Lemma lwp_reuse_prefix plan base prompt_tokens (Q : unit -> LaneView -> Prop) v :
  clearable lane v -> 0 <= base -> (rp_reuse plan = FullReset -> base = 0) ->
  is_u32 (rp_text_kv_page_entitlement plan) -> is_u32 (rp_backend_kv_page_entitlement plan) ->
  (forall v' mt mb row, reused v v' base mt (rp_text_kv_page_entitlement plan) mb (rp_backend_kv_page_entitlement plan) row -> Q tt v') ->
  lwp lane (reuse_prefix lane plan base prompt_tokens) Q Ec v.
Proof.
  intros Hc Hb Hf H1 H2 HQ. unfold reuse_prefix. destruct (rp_reuse plan).
  - apply lwp_reuse_nothing; [done..|]. intros v' Hv'. rewrite Hf in HQ by done. by eapply HQ.
  - by apply lwp_reuse_append.
  - by apply lwp_reuse_checkpoint.
  - by apply lwp_reuse_checkpoint.
Qed.

(** ** Starting *)

(** A lane that can take a request: its sequence, if any, was retained. *)
Record free_lane (v : LaneView) : Prop := {
  fl_clearable : clearable lane v;
  fl_frontier : 0 <= execution_frontier (lv_seq v);
  fl_checkpoint : checkpoint_ok (lv_seq v) (execution_frontier (lv_seq v));
}.

Lemma free_lane_ok v : lane_ok lane v ->
  lifecycle (lv_req v) = Empty \/ lifecycle (lv_req v) = Complete -> free_lane v.
Proof.
  intros H Hl. pose proof (lane_ok_clearable _ _ H) as Hc. unfold lane_ok in H. destruct Hl as [Hl|Hl]; rewrite Hl in H.
  - constructor; [done|by rewrite (proj1 (em_frontiers _ H))|]. intros Hv. by rewrite (em_checkpoint _ H) in Hv.
  - destruct H as (E & mt & mb & H). pose proof (co_rest _ _ _ _ _ H) as Hr. pose proof (ar_range _ _ Hr).
    constructor; rewrite ?(ar_frontier _ _ Hr); [done|lia|by apply Hr].
Qed.

Lemma resumable_base s reuse base : resumable s reuse base -> 0 <= execution_frontier s ->
  checkpoint_ok s (execution_frontier s) -> 0 <= base /\ (reuse = FullReset -> base = 0).
Proof.
  intros H He Hc. destruct H as [| |Hv ? _ _]; [done|done|]. specialize (Hc Hv). split; [lia|].
  by destruct (rc_kind (rewrite_checkpoint s)).
Qed.

Lemma resumable_checkpoint s reuse base n : resumable s reuse base -> reuse <> FullReset -> base <= n ->
  checkpoint_ok s (execution_frontier s) -> checkpoint_ok s n.
Proof. intros H Hf Hn Hc Hv. specialize (Hc Hv). destruct H; [done|lia|lia]. Qed.

Lemma kept_not_reset prompt plan s k : checkpoint_kept prompt plan s k = true ->
  rp_reuse plan <> FullReset /\ exists d, rewrite_checkpoint_spec (identity prompt) = Some d.
Proof. unfold checkpoint_kept. destruct (rewrite_checkpoint_spec _) as [d|]; [|done]. intros H. bprop. eauto. Qed.

(** The checkpoint that is kept by the plan lies in the prompt. *)
Lemma check_reuse_keeps prompt plan s : check_reuse prompt plan s = Ok tt ->
  match rp_action plan with
  | Drop | CaptureNew => True
  | ReclassifyExisting => rp_reuse plan <> FullReset /\ exists d, rewrite_checkpoint_spec (identity prompt) = Some d
  | KeepExisting | DeferCapture => rp_reuse plan <> FullReset
  end.
Proof.
  unfold check_reuse, has_action. cbv zeta. intros H. rinv. destruct (rp_action plan); try done.
  - destruct Hv1 as [Hx|Hx]; [by rewrite bool_decide_eq_true_2 in Hx|]. bprop. by eapply kept_not_reset.
  - destruct Hv2 as [Hx|Hx]; [by rewrite bool_decide_eq_true_2 in Hx|]. bprop. by eapply kept_not_reset.
  - destruct H as [Hx|Hx]; [by rewrite bool_decide_eq_true_2 in Hx|]. destruct (rewrite_checkpoint_spec _); [|done]. by bprop.
Qed.

Lemma lwp_update_checkpoint prompt plan P (Q : unit -> LaneView -> Prop) E s v :
  check_reuse prompt plan s = Ok tt -> resumable s (rp_reuse plan) (rp_reuse_base plan) -> rp_reuse_base plan <= P ->
  checkpoint_ok s (execution_frontier s) -> rewrite_checkpoint (lv_seq v) = rewrite_checkpoint s ->
  (forall c, checkpoint_ok (set_rewrite_checkpoint c (lv_seq v)) P -> Q tt (with_seq (set_rewrite_checkpoint c) v)) ->
  lwp lane (update_checkpoint lane prompt plan) Q E v.
Proof.
  intros Hchk%check_reuse_keeps Hr Hb Hc Hs HQ.
  assert (Hkeep : rp_reuse plan <> FullReset -> checkpoint_ok s P) by (intros; by eapply resumable_checkpoint).
  assert (Hsame : checkpoint_ok s P -> Q tt v).
  { intros H. specialize (HQ (rewrite_checkpoint (lv_seq v))).
    assert (with_seq (set_rewrite_checkpoint (rewrite_checkpoint (lv_seq v))) v = v) as Hid by by destruct v as [[]].
    rewrite Hid in HQ. apply HQ. unfold checkpoint_ok. cbn. by rewrite Hs. }
  unfold update_checkpoint, has_action. destruct (rp_action plan); repeat bdec; cbn [orb].
  - lstep. by apply HQ.
  - lstep. by apply Hsame, Hkeep.
  - destruct Hchk as [Hf [d Hd]]. lstep; [intros d' _|congruence]. lstep. apply HQ.
    unfold checkpoint_ok. cbn. rewrite Hs. by apply Hkeep.
  - lstep. by apply HQ.
  - lstep. by apply Hsame, Hkeep.
Qed.

Lemma clearable_host v v' : clearable lane v -> kv (lv_seq v') = kv (lv_seq v) ->
  prefix_identity (lv_seq v') = prefix_identity (lv_seq v) -> lv_text v' = lv_text v -> lv_backend v' = lv_backend v ->
  clearable lane v'.
Proof.
  intros [[(H1 & H2 & H3)|(mt & et & mb & eb & row & Hk)] Hw] E1 E2 E3 E4; split; rewrite ?E2; try done.
  - left. unfold no_kv. by rewrite E1, E3, E4.
  - right. exists mt, et, mb, eb, row. by eapply kv_is_host.
Qed.

Lemma lwp_install_sampling config (Q : unit -> LaneView -> Prop) v : clearable lane v ->
  (forall h stats, Q tt (with_req (set_sampling_host h) (with_req (set_speculative_stats stats) v))) ->
  lwp lane (install_sampling lane config) Q Ec v.
Proof. intros Hc HQ. unfold install_sampling. lstep; [|by intros; split]. lstep. lstep. lstep; [apply HQ|]. intros. split; [done|by eapply clearable_host]. Qed.

Lemma release_unused_ok prompt vision : match release_unused prompt vision with
  | Ok staged => token_ids staged = token_ids prompt | Err e => e <> Abort_ end.
Proof. unfold release_unused. destruct vision; [|by destruct (has_media prompt)]. unfold throw_if. by destruct (existsb _ _). Qed.

Lemma vision_session_ok plan transient : match vision_session plan transient with Ok l => l = [] | Err e => e <> Abort_ end.
Proof. unfold vision_session, throw_if. by do 2 destruct (_ || _). Qed.

Lemma initial_extent_range plan P : 0 <= initial_mtp_extent_of plan P <= draft_window.
Proof.
  assert (0 <= draft_window) by (pose proof cl_window; destruct speculative_backend; lia).
  unfold initial_mtp_extent_of. case_bool_decide; [|lia]. pose proof (u32_range (capacity - P)) as Hu.
  set (r := u32 (capacity - P)) in *. clearbody r. unfold is_u32 in Hu.
  destruct (Z.gtb_spec (effective_output_tokens (rp_summary plan)) 1), (Z.gtb_spec r 0); lia.
Qed.

Lemma lwp_mono_clear {A} (m : M Program A) (Q : A -> LaneView -> Prop) v :
  lwp lane m Q (fun e v' => e <> Abort_ /\ empty_lane v') v -> lwp lane m Q Ec v.
Proof. intros H. eapply lwp_mono; [exact H|done|]. intros e v' [He Hv]. split; [done|by apply empty_clearable]. Qed.

(** The prefill that a plan describes. *)
Record follows (prompt : PreparedPromptData) (plan : RequestPlan) (pf : Prefill) : Prop := {
  fo_tokens : pf_prompt_tokens pf = Z.of_nat (length (token_ids prompt));
  fo_ids : token_ids (pf_prompt pf) = token_ids prompt;
  fo_base : pf_base pf = rp_reuse_base plan;
  fo_cursor : pf_cursor pf = rp_reuse_base plan;
}.

(** What the request, the plan and the lane satisfy when a prefill is started. *)
Record startable (prompt : PreparedPromptData) (plan : RequestPlan) (v : LaneView) : Prop := {
  sa_free : free_lane v;
  sa_tokens : 0 < Z.of_nat (length (token_ids prompt)) <= capacity;
  sa_resumable : resumable (lv_seq v) (rp_reuse plan) (rp_reuse_base plan);
  sa_mtp : rp_prepare_mtp plan = bool_decide (speculative_backend = Mtp);
  sa_text : is_u32 (rp_text_kv_page_entitlement plan);
  sa_backend : is_u32 (rp_backend_kv_page_entitlement plan);
  sa_capture : match rp_capture plan with Some c => 0 <= rs_frontier c | None => True end;
}.

Lemma prefix_matches_count prompt tokens i n : prefix_matches prompt tokens i n = true -> n <= Z.of_nat (length (token_ids prompt)).
Proof. unfold prefix_matches. destruct (_ || _) eqn:H; [done|]. intros _. bprop. lia. Qed.

Lemma check_reuse_base prompt plan s : check_reuse prompt plan s = Ok tt -> resumable s (rp_reuse plan) (rp_reuse_base plan) ->
  rp_reuse_base plan <= Z.of_nat (length (token_ids prompt)).
Proof.
  unfold check_reuse. cbv zeta. intros H Hr. rinv. destruct Hv as [Hf|Hf].
  - bprop. inversion Hr; [lia|congruence|]. destruct (rc_kind (rewrite_checkpoint s)); cbn in *; congruence.
  - bprop. match goal with H : prefix_matches _ _ _ _ = true |- _ => by apply prefix_matches_count in H end.
Qed.

Lemma lwp_assign prompt (Q : unit -> LaneView -> Prop) E v : 
  (forall i, identity_wf i -> identity_size i = Z.of_nat (length (token_ids prompt)) -> Q tt (with_seq (set_prefix_identity i) v)) ->
  E InvalidArgument v -> lwp lane (on_identity lane (identity_assign prompt)) Q E v.
Proof.
  intros HQ HE. apply lwp_on_identity; [done|..].
  - intros i [Hs ->]%identity_assign_Ok. apply HQ; [by apply identity_assign_wf|]. apply prompt_shape_spec in Hs as [Hl _].
    unfold identity_size. cbn. lia.
  - intros e i. unfold identity_assign, mbind_, mthrow_if, mlift, throw_if. destruct (prompt_shape prompt); cbn; [done|].
    intros [= <- <-]. by destruct v as [[]].
Qed.

(** After the first step of the prefill. *)
Definition started (prompt : PreparedPromptData) (plan : RequestPlan) (r : PrefillStepResult) (v' : LaneView) : Prop :=
  exists pf mt mb, follows prompt plan pf /\
    stepped pf mt (rp_text_kv_page_entitlement plan) mb (rp_backend_kv_page_entitlement plan) r v'.

(** The last part of [start_prefill_lane]: the prefill object is made and its first step is taken. *)
Definition enter_prefill (prompt : PreparedPromptData) (plan : RequestPlan) (transient : TransientRegion) (extent : Z)
  : M Program PrefillStepResult :=
  let base := rp_reuse_base plan in
  let! staged := mlift (release_unused prompt (rp_vision plan)) in
  let pf := mkPrefill staged (rp_vision plan) None transient (rp_capture plan) base base (Z.of_nat (length (token_ids prompt)))
              extent (rp_prepare_mtp plan) (rp_reuse plan) (rp_mtp_bridge plan) in
  do! mod_req lane (set_prefill (Some pf));
  do! match rp_vision plan with
      | Some v => let! session := mlift (vision_session v transient) in
                  mod_req lane (set_prefill (Some (set_pf_vision (Some session) pf)))
      | None => mret_ tt
      end;
  do! mod_req lane (set_lifecycle Prefilling);
  advance_prefill lane.

(** The lane before the prefill object is made. *)
Record entering (prompt : PreparedPromptData) (plan : RequestPlan) (v : LaneView) (mt mb : Z) : Prop := {
  en_pending : pending (lv_req v) = no_pending;
  en_kv : kv_is lane v mt (rp_text_kv_page_entitlement plan) mb (rp_backend_kv_page_entitlement plan) (Z.of_nat lane);
  en_ledger : ledger (lv_seq v) = token_ids prompt;
  en_identity : identity_size (prefix_identity (lv_seq v)) = Z.of_nat (length (token_ids prompt));
  en_wf : identity_wf (prefix_identity (lv_seq v));
  en_text : text_kv_valid (lv_seq v) = rp_reuse_base plan;
  en_backend : match speculative_backend with
               | NoSpeculation => True
               | Mtp => 0 <= mtp_kv_valid (lv_seq v) <= rp_reuse_base plan
               | DFlash => dflash_context_frontier (lv_seq v) = rp_reuse_base plan
               end;
  en_pages : pages (Z.of_nat (length (token_ids prompt))) <= mt /\
    (speculative_backend <> NoSpeculation -> pages (Z.of_nat (length (token_ids prompt))) <= mb);
  en_drafts : mtp_draft_count (lv_seq v) = 0;
  en_checkpoint : checkpoint_ok (lv_seq v) (Z.of_nat (length (token_ids prompt)));
  en_retained : retained (lv_seq v) = false;
}.

Lemma lwp_enter prompt plan transient extent v0 v mt mb : startable prompt plan v0 ->
  0 <= rp_reuse_base plan <= Z.of_nat (length (token_ids prompt)) -> 0 <= extent <= draft_window ->
  entering prompt plan v mt mb -> lwp lane (enter_prefill prompt plan transient extent) (started prompt plan) Ec v.
Proof.
  intros Hs Hb He Hv. unfold enter_prefill.
  assert (Hc : clearable lane v) by (eapply clear_of; apply Hv).
  lstep; [intros staged Hst|intros e Hr; pose proof (release_unused_ok prompt (rp_vision plan)) as H; rewrite Hr in H; by split].
  pose proof (release_unused_ok prompt (rp_vision plan)) as Hids. rewrite Hst in Hids.
  lstep. set (pf := mkPrefill _ _ _ _ _ _ _ _ _ _ _ _). apply lwp_bind.
  assert (Hgo : forall pf' v', (pf' = pf \/ pf' = set_pf_vision (Some []) pf) ->
    v' = with_req (set_prefill (Some pf')) v ->
    lwp lane (do! mod_req lane (set_lifecycle Prefilling); advance_prefill lane) (started prompt plan) Ec v').
  { intros pf' v' Hpf ->. lstep. apply lwp_mono_clear.
    assert (Hfo : follows prompt plan pf') by (by destruct Hpf as [-> | ->]).
    eapply lwp_mono; [eapply (lwp_advance _ pf')|intros r v'' Hr; by exists pf', mt, mb|done].
    destruct Hs, Hv, Hfo as [F1 F2 F3 F4].
    constructor; cbn; rewrite ?F1, ?F2, ?F3, ?F4; try done; try lia.
    - by eapply kv_is_host.
    - by destruct Hpf as [-> | ->].
    - by destruct Hpf as [-> | ->].
    - by destruct Hpf as [-> | ->].
    - destruct Hpf as [-> | ->]; auto. }
  destruct (rp_vision plan) as [vp|] eqn:Hvp.
  - lstep; [intros session Hse|intros e Hr; pose proof (vision_session_ok vp transient) as H; rewrite Hr in H; split; [done|by eapply clearable_host]].
    pose proof (vision_session_ok vp transient) as Hnil. rewrite Hse in Hnil. subst session. lstep.
    eapply Hgo; [by right|done].
  - lstep. eapply Hgo; [by left|done].
Qed.

Lemma check_prompt_clean prompt plan transient : clean (check_prompt prompt plan transient).
Proof. unfold check_prompt. clean_tac. Qed.
Lemma check_reuse_clean prompt plan s : clean (check_reuse prompt plan s).
Proof. unfold check_reuse. clean_tac. Qed.

Lemma lwp_upload_dflash {A} (k : M Program A) (Q : A -> LaneView -> Prop) v : clearable lane v -> lwp lane k Q Ec v ->
  lwp lane (do! (if bool_decide (speculative_backend = DFlash) then
      let! s := get_seq lane in
      let! st := mgets pg_kv in
      match dflash_full, kv s ≫= kv_backend with
      | Some _, Some id => issue (UploadDFlashLane lane (bound_row_of st id))
      | _, _ => mthrow LogicError
      end
    else mret_ tt); k) Q Ec v.
Proof.
  intros Hc Hk. apply lwp_bind. case_bool_decide; [|by lstep]. lstep. lstep. intros p _ _.
  destruct dflash_full as [x|], (kv (lv_seq v) ≫= kv_backend) as [y|]; try (lstep; by split). lstep; [done|by intros; split].
Qed.

(** [backend_materialized] of the start of a prefill. *)
Lemma backend_materialized_range extent P : 0 <= extent -> 0 < P <= capacity ->
  0 <= match speculative_backend with
       | Mtp => Z.min capacity (P + (if extent =? 0 then 0 else extent - 1))
       | DFlash => P | NoSpeculation => 0 end /\
  (speculative_backend <> NoSpeculation -> P <=
     match speculative_backend with
     | Mtp => Z.min capacity (P + (if extent =? 0 then 0 else extent - 1))
     | DFlash => P | NoSpeculation => 0 end).
Proof. intros. destruct speculative_backend; try (by split); try lia. destruct (Z.eqb_spec extent 0); lia. Qed.

Lemma lwp_start prompt plan transient v : startable prompt plan v -> lane_in_range lane = true ->
  lwp lane (start_prefill_lane lane prompt plan transient) (started prompt plan)
    (fun e v' => e <> Abort_ /\ (v' = v \/ empty_lane v')) v.
Proof.
  intros Hs Hr. unfold start_prefill_lane. rewrite Hr. lstep; [done|intros _]. lstep. intros p Hp Hv.
  lstep; [by auto|intros _]. lstep; [intros [] _|intros e He; split; [eapply clean_err, He; apply check_prompt_clean|by left]].
  assert (Hseq : sequences p !!! lane = lv_seq v) by by rewrite <- Hv. rewrite Hseq.
  lstep; [intros [] Hreuse|intros e He; split; [eapply clean_err, He; apply check_reuse_clean|by left]].
  pose proof Hs as [[Hc Hf Hck] HP Hres Hmtp Hu1 Hu2 Hcap].
  pose proof (check_reuse_base _ _ _ Hreuse Hres) as Hbase. destruct (resumable_base _ _ _ Hres Hf Hck) as [Hb0 Hbf].
  set (P := Z.of_nat (length (token_ids prompt))) in *. set (base := rp_reuse_base plan) in *.
  pose proof (initial_extent_range plan P) as Hext. set (extent := initial_mtp_extent_of plan P) in *.
  lstep. lstep. eapply lwp_mono; [apply lwp_guarded|done|by intros e v' [? ?]; auto]. fold Ec.
  set (v0 := with_seq _ _). assert (Hc0 : clearable lane v0) by by eapply clearable_host.
  apply lwp_bind, lwp_reuse_prefix; [done..|]. intros v1 mt mb row Hr1. lstep.
  assert (0 <= backend_kv_valid (lv_seq v1)).
  { pose proof (ru_backend _ _ _ _ _ _ _ _ Hr1). unfold backend_kv_valid. destruct speculative_backend; lia. }
  pose proof (ru_identity _ _ _ _ _ _ _ _ Hr1) as Hid1.
  assert (Hclear : forall v' mt' et' mb' eb' row', same_host v1 v' -> kv_is lane v' mt' et' mb' eb' row' -> clearable lane v').
  { intros v' * [E1 _] Hk. eapply clear_of; [exact Hk|]. rewrite E1, Hid1. apply Hc0. }
  apply lwp_bind. eapply lwp_trim_sequence; [done|exact (ru_kv _ _ _ _ _ _ _ _ Hr1)|done|done| |].
  2: { intros _ e v' mt' mb' He Hh Hk. split; [done|by eapply Hclear]. }
  intros _ v2 Hh2 Hk2. apply lwp_bind. eapply lwp_bind_sequence; [done|exact Hk2|done| |].
  2: { intros e v' He Hh Hk. split; [done|]. eapply Hclear; [|exact Hk]. by eapply same_host_trans. }
  intros _ v3 Hh3 Hk3. pose proof (same_host_trans _ _ _ Hh2 Hh3) as Hh13. cbv zeta. 
  destruct (backend_materialized_range extent P ltac:(lia) HP) as [Hbm1 Hbm2]. set (bm := match speculative_backend with Mtp => _ | _ => _ end) in *.
  apply lwp_bind. eapply lwp_materialize_sequence; [done|exact Hk3|lia|done| |].
  2: { intros _ e v' mt' mb' He Hh Hk. split; [done|]. eapply Hclear; [|exact Hk]. by eapply same_host_trans. }
  intros _ v4 Hh4 Hk4. pose proof (same_host_trans _ _ _ Hh13 Hh4) as [Es Eq].
  assert (Hc4 : clearable lane v4) by by eapply Hclear.
  apply lwp_bind, lwp_install_sampling; [done|]. intros host stats. lstep. lstep; [|intros; split; [done|by eapply clearable_host]].
  apply lwp_bind. eapply lwp_update_checkpoint; [exact Hreuse|exact Hres|exact Hbase|exact Hck| |].
  { cbn. rewrite Es. by rewrite (ru_checkpoint _ _ _ _ _ _ _ _ Hr1). }
  intros c Hck'. cbn in Hck'. lstep. lstep. lstep. lstep. apply lwp_bind, lwp_assign.
  2: { split; [done|by eapply clearable_host]. }
  intros i Hi Hisz. set (v5 := with_seq (set_prefix_identity i) _).
  assert (Hent : entering prompt plan v5 (grown (pages base) P) (grown (pages (backend_kv_valid (lv_seq v1))) bm)).
  { destruct Hr1 as [R1 R2 R3 R4 R5 R6 R7]. constructor; cbn; rewrite ?Es; try done.
    - by eapply kv_is_host.
    - unfold grown. fold P. clearbody bm. split; [lia|]. intros Hne. specialize (Hbm2 Hne).
      pose proof (pages_mono P bm ltac:(lia)). lia. }
  assert (Hc5 : clearable lane v5) by (eapply clear_of; apply Hent).
  apply lwp_upload_dflash; [done|]. exact (lwp_enter prompt plan transient extent v v5 _ _ Hs (conj Hb0 Hbase) Hext Hent).
Qed.
End Prefill.
