(* ===== verification/ProgramRounds.v ===== *)
(** * Rounds keep the lanes' invariant

    The lane operations of a decode round and of its resolution, on a lane in a good state. *)
From S2P Require Import Prelude Tensor Layout PagedKV PagedKVProofs PrefixIdentity VisionControl Admission Capacity Contract ProgramState RequestPlan Program ProgramDecode ProgramLanes ProgramBundle ProgramInvariant ProgramPrefill.
#[local] Open Scope Z_scope.

Section Rounds.
Context `{CF : ProgramConfig, DV : Device}.
Context `{CL : !ProgramConfigLaws, DL : !DeviceLaws}.
Context (lane : nat) (Hlane : (lane < kMaximumConcurrency)%nat).
Implicit Types v : LaneView.
Abbreviation pages := PagedKV.pages_for_tokens.

Lemma width_pos : 0 < width.
Proof. clear lane Hlane. unfold width. pose proof cl_window. destruct speculative_backend; lia. Qed.

Lemma backend_cache_some : speculative_backend <> NoSpeculation -> is_Some backend_kv_cache.
Proof.
  unfold backend_kv_cache. pose proof cl_mtp as H1. pose proof cl_dflash as H2. destruct speculative_backend; [done|..]; intros _.
  - specialize (H1 eq_refl). destruct mtp_cache; [by eexists|done].
  - pose proof (proj1 H2 eq_refl) as H3. destruct dflash_full; [by eexists|done].
Qed.

Lemma backend_at_exact s n : 0 <= n -> backend_exact s n -> backend_at s n.
Proof. unfold backend_exact, backend_at. pose proof width_pos. destruct speculative_backend; lia. Qed.

(** ** Between rounds *)

(** A round of a lane is over: the request goes on, or has ended and its sequence is retained. *)
Definition settled (terminal : bool) (v : LaneView) : Prop :=
  if terminal then exists E mt mb, complete lane v E mt mb else exists E mt et mb eb, active lane v E mt et mb eb.

(** The state of a lane whose round is about to be settled: [E] tokens are executed. *)
Record settling (v : LaneView) (E mt et mb eb : Z) : Prop := {
  se_prefill : prefill (lv_req v) = None;
  se_kv : kv_is lane v mt et mb eb (Z.of_nat lane);
  se_rest : at_rest (lv_seq v) E;
  se_retained : retained (lv_seq v) = false;
}.

Lemma settling_backend v E mt et mb eb : settling v E mt et mb eb ->
  0 <= backend_kv_valid (lv_seq v) <= E /\ (backend_kv_valid (lv_seq v) = 0 \/ is_Some backend_kv_cache).
Proof.
  intros H. pose proof (ar_range _ _ (se_rest _ _ _ _ _ _ H)) as HE.
  pose proof (ar_backend _ _ (se_rest _ _ _ _ _ _ H)) as Hb. pose proof backend_cache_some as Hs.
  unfold backend_at, backend_kv_valid in *. destruct speculative_backend; (split; [lia|auto; right; by apply Hs]).
Qed.

Lemma lwp_retire (Q : unit -> LaneView -> Prop) E0 v mt et mb eb row : kv_is lane v mt et mb eb row ->
  (forall v', lv_seq v' = set_retained true (lv_seq v) -> lv_req v' = lv_req v -> kv_is lane v' mt mt mb mb (-1) -> Q tt v') ->
  lwp lane (retire_lane lane) Q E0 v.
Proof.
  intros Hk HQ. unfold retire_lane. apply lwp_bind. eapply lwp_release_growth; [done|exact Hk|]. intros v1 [E1 F1] Hk1.
  apply lwp_bind. eapply lwp_unbind_sequence; [done|exact Hk1|]. intros v2 [E2 F2] Hk2. lstep. apply HQ; cbn.
  - by rewrite E2, E1.
  - by rewrite F2, F1.
  - by eapply kv_is_host.
Qed.

Lemma settled_active v E mt et mb eb lc : settling v E mt et mb eb -> covers (lv_seq v) mt mb -> lc = Active ->
  settled false (with_req (set_pending no_pending) (with_req (set_lifecycle lc) v)).
Proof.
  intros [] Hc ->. exists E, mt, et, mb, eb. constructor; cbn; try done. by eapply kv_is_host.
Qed.

Lemma settled_complete v E mt et mb eb f v' : settling v E mt et mb eb -> covers (lv_seq v) mt mb -> backend_exact (lv_seq v) E ->
  lv_seq v' = set_retained true (f (lv_seq v)) -> (f = id \/ f = set_mtp_draft_count 0) -> lv_req v' = lv_req v ->
  kv_is lane v' mt mt mb mb (-1) ->
  settled true (with_req (set_pending no_pending) (with_req (set_lifecycle Complete) v')).
Proof.
  intros [Hpf _ [] _] Hc Hex E1 Hf E2 Hk. exists E, mt, mb. destruct Hf as [-> | ->]; constructor; cbn; rewrite ?E1, ?E2; try done;
    try (by eapply kv_is_host); by constructor.
Qed.

(** The pages past the frontiers are given back. *)
Lemma lwp_settle_trim (Q : unit -> LaneView -> Prop) v E mt et mb eb : settling v E mt et mb eb ->
  (forall v', same_host v v' -> settling v' E (pages E) et (pages (backend_kv_valid (lv_seq v))) eb -> Q tt v') ->
  lwp lane (trim_sequence_kv lane (text_kv_valid (lv_seq v)) (backend_kv_valid (lv_seq v))) Q
    (fun e v' => ~ covers (lv_seq v) mt mb /\ Ec lane e v') v.
Proof.
  intros Hs HQ. destruct (settling_backend _ _ _ _ _ _ Hs) as [Hb Hn]. pose proof Hs as [H1 Hk Hr H3].
  pose proof (ar_range _ _ Hr) as HE0. pose proof (ar_text _ _ Hr) as Ht. rewrite Ht.
  eapply lwp_trim_sequence; [done|exact Hk|lia|lia| |].
  - intros _ v' [E1 E2] Hk'. apply HQ; [done|]. constructor; rewrite ?E1, ?E2; try done.
  - intros Hnot e v' mt' mb' He [E1 E2] Hk'. split.
    + intros [C1 C2]. apply Hnot. rewrite Ht in C1. split_and!; try lia. done.
    + split; [done|]. eapply clear_of; [exact Hk'|]. rewrite E1. apply Hr.
Qed.

(** ** Resolution of the first token and of ordinary rounds *)

Lemma lwp_resolve_tail terminal v E mt et mb eb (E0 : exn -> LaneView -> Prop) (Q : unit -> LaneView -> Prop) : 
  settling v E mt et mb eb -> covers (lv_seq v) mt mb -> backend_exact (lv_seq v) E ->
  (forall v', settled terminal v' -> ledger (lv_seq v') = ledger (lv_seq v) -> Q tt v') ->
  lwp lane (let! s := get_seq lane in
    do! mthrow_if (negb (ledger_frontier s =? execution_frontier s + 1) ||
                   negb (Z.of_nat (length (ledger s)) =? ledger_frontier s) ||
                   negb (identity_size (prefix_identity s) =? ledger_frontier s)) LogicError;
    do! trim_sequence_kv lane (text_kv_valid s) (backend_kv_valid s);
    do! mwhen terminal (do! mod_seq lane (set_mtp_draft_count 0); retire_lane lane);
    do! mod_req lane (set_lifecycle (if terminal then Complete else Active));
    mod_req lane (set_pending no_pending)) Q E0 v.
Proof.
  intros Hs Hc Hex HQ. pose proof (se_rest _ _ _ _ _ _ Hs) as [R1 _ R2 R3 R4 _ R5 _ _ _ _].
  lstep. lstep; [intros H; exfalso; rewrite R1, R2, R3, R4, !Z.eqb_refl in H; done|intros _].
  apply lwp_bind. eapply lwp_mono; [eapply (lwp_settle_trim (fun _ v1 => _)); [exact Hs|]|intros [] v1 H; exact H|by intros e v' [? _]].
  intros v1 [E1 F1] Hs1. assert (Hc1 : covers (lv_seq v1) (pages E) (pages (backend_kv_valid (lv_seq v)))).
  { unfold covers. rewrite E1, R5. lia. }
  pose proof (se_kv _ _ _ _ _ _ Hs1) as Hk1. apply lwp_bind, lwp_when; intros ->.
  - lstep. eapply lwp_retire; [eapply kv_is_host; [exact Hk1|done..]|]. intros v2 E2 F2 Hk2. lstep. lstep. apply HQ.
    + eapply settled_complete; [exact Hs1|done|by rewrite E1|exact E2|by right|exact F2|exact Hk2].
    + cbn. rewrite E2. cbn. by rewrite E1.
  - lstep. lstep. apply HQ; [by eapply settled_active|]. cbn. by rewrite E1.
Qed.

Lemma begun_settling v P mt et mb eb : begun lane v P mt et mb eb ->
  settling (with_seq (set_ledger_frontier (P + 1)) (with_seq (set_execution_frontier P) v)) P mt et mb eb.
Proof.
  intros []. constructor; cbn; try done; [by eapply kv_is_host|]. constructor; cbn; try done; try lia.
  apply backend_at_exact; [lia|done].
Qed.

Lemma ordinary_settling v E mt et mb eb : ordinary_pending lane v E mt et mb eb ->
  settling (with_seq (set_ledger_frontier (E + 1 + 1)) (with_seq (set_execution_frontier (E + 1)) v)) (E + 1) mt et mb eb.
Proof.
  intros []. constructor; cbn; try done; [by eapply kv_is_host|]. constructor; cbn; try done; try lia.
  - unfold backend_at. by rewrite op_backend.
  - intros Hv. specialize (op_checkpoint Hv). cbn in *. lia.
Qed.

Lemma lwp_resolve_one accepted terminal v : lane_ok lane v ->
  lwp lane (resolve_non_speculative_pending lane accepted terminal)
    (fun _ v' => settled terminal v' /\ ledger (lv_seq v') = ledger (lv_seq v) /\
       accepted = 1 /\ produced (pending (lv_req v)) = 1) (fun e v' => e <> Abort_ /\ v' = v) v.
Proof.
  intros Hok. unfold resolve_non_speculative_pending. lstep. lstep; [by intros _|]. rewrite negb_false_iff, bool_decide_eq_true.
  intros Hl. unfold lane_ok in Hok. rewrite Hl in Hok. lstep; [by intros _|]. intros Hg.
  assert (accepted = 1 /\ produced (pending (lv_req v)) = 1) as Hone by (clear -Hg; bprop; lia). destruct Hone as [Hone Hone2].
  destruct Hok as (mt & et & mb & eb & [(P & H)|[(E & H)|(E & n & H)]]).
  - rewrite (bg_pending _ _ _ _ _ _ _ H). cbn. lstep. lstep.
    eapply lwp_resolve_tail; [by apply begun_settling|apply H|apply H|]. intros v' H1 H2. by split_and!.
  - rewrite (op_pending _ _ _ _ _ _ _ H). cbn. lstep. lstep.
    eapply lwp_resolve_tail; [by apply ordinary_settling| | |intros v' H1 H2; by split_and!].
    + destruct H. unfold covers, backend_kv_valid. cbn. rewrite op_text, op_backend. split; [done|].
      destruct op_kv as [_ _ Hb]. destruct (backend_kv_cache) eqn:Hq; [|destruct Hb as (_ & -> & _); done].
      unfold backend_kv_cache in Hq. by rewrite op_backend in Hq.
    + unfold backend_exact. by rewrite (op_backend _ _ _ _ _ _ _ H).
  - exfalso. rewrite (sp_pending _ _ _ _ _ _ _ _ H) in Hg. done.
Qed.

(** ** The commit of a speculative round *)

(** The sequence of a lane after it has committed [a] tokens, its backend aside. *)
Definition committed_seq (tokens : list Z) (i : ResidentPrefixIdentity) (E a : Z) (s : SequenceState) : SequenceState :=
  set_tail_hidden_valid true (set_text_kv_valid (E + a) (set_ledger_frontier (E + 1 + a) (set_execution_frontier (E + a)
    (set_prefix_identity i (set_ledger (ledger s ++ tokens) s))))).

(** How [commit_row] leaves the backend. *)
Definition backend_committed (terminal : bool) (E a : Z) (s s' : SequenceState) : Prop :=
  exists m c n drafts, s' = set_mtp_drafts drafts (set_mtp_draft_count n (set_dflash_context_frontier c (set_mtp_kv_valid m s))) /\
    0 <= n /\
    match speculative_backend with
    | NoSpeculation => True | Mtp => m = E + a | DFlash => c = (if terminal then E + a else E)
    end.

Lemma commit_settling v E n mt et mb eb a tokens i terminal s' : speculative_pending lane v E n mt et mb eb ->
  0 < a <= n -> Z.of_nat (length tokens) = a -> identity_wf i -> identity_size i = E + 1 + a ->
  backend_committed terminal E a (committed_seq tokens i E a (lv_seq v)) s' ->
  settling (mkView s' (lv_req v) (lv_text v) (lv_backend v)) (E + a) mt et mb eb /\
  (terminal = true -> backend_exact s' (E + a)).
Proof.
  intros H Ha Ht Hw Hi (m & c & n' & drafts & -> & Hn & Hb). pose proof (sp_count _ _ _ _ _ _ _ _ H).
  pose proof (sp_rest _ _ _ _ _ _ _ _ H) as [R1 R2 R3 R4 R5 R6 R7 R8 R9 R10 R11]. split.
  - constructor; cbn; try apply H.
    + eapply kv_is_host; [exact (sp_kv _ _ _ _ _ _ _ _ H)|done..].
    + constructor; cbn; try done; try lia.
      * rewrite length_app. lia.
      * unfold backend_at. cbn. destruct speculative_backend; [done..|]. subst c. destruct terminal; lia.
      * intros Hv. specialize (R11 Hv). cbn in *. lia.
  - intros ->. unfold backend_exact. cbn. by destruct speculative_backend.
Qed.

Lemma licensed_row_length e row a : 0 <= a -> Z.of_nat (length (row_tokens e row a)) = a.
Proof. intros H. unfold row_tokens. rewrite length_fmap, length_seq. lia. Qed.

(** A row's pending tokens are committed, or its lane is emptied. *)
Definition committed (e : SpeculativeEgress) (row : ResolveRow) (v v' : LaneView) : Prop :=
  if rr_cancelled row then empty_lane v'
  else settled (rr_terminal row) v' /\ ledger (lv_seq v') = ledger (lv_seq v) ++ row_tokens e (rr_row row) (rr_accepted row).

Lemma lwp_commit_end terminal v E mt et mb eb (Q : unit -> LaneView -> Prop) :
  settling v E mt et mb eb -> (terminal = true -> backend_exact (lv_seq v) E) ->
  (forall v', settled terminal v' -> ledger (lv_seq v') = ledger (lv_seq v) -> Q tt v') ->
  lwp lane (let! s := get_seq lane in
    do! trim_sequence_kv lane (text_kv_valid s) (backend_kv_valid s);
    do! (if terminal then
           do! retire_lane lane;
           mod_req lane (set_lifecycle Complete)
         else mod_req lane (set_lifecycle Active));
    mod_req lane (set_pending no_pending)) Q (Ec lane) v.
Proof.
  intros Hs Hex HQ. lstep. apply lwp_bind.
  eapply lwp_mono; [eapply (lwp_settle_trim (fun _ v1 => _)); [exact Hs|]|intros [] v1 H; exact H|by intros e v' [_ ?]].
  intros v1 [E1 F1] Hs1. pose proof (ar_text _ _ (se_rest _ _ _ _ _ _ Hs)) as Ht.
  assert (Hc1 : covers (lv_seq v1) (pages E) (pages (backend_kv_valid (lv_seq v)))).
  { unfold covers. rewrite E1, Ht. lia. }
  pose proof (se_kv _ _ _ _ _ _ Hs1) as Hk1. apply lwp_bind. destruct terminal.
  - apply lwp_bind. eapply lwp_retire; [exact Hk1|]. intros v2 E2 F2 Hk2. lstep. lstep. apply HQ.
    + eapply (settled_complete _ _ _ _ _ _ id); [exact Hs1|done|rewrite E1; by apply Hex|exact E2|by left|exact F2|exact Hk2].
    + cbn. rewrite E2. cbn. by rewrite E1.
  - lstep. lstep. apply HQ; [by eapply settled_active|]. cbn. by rewrite E1.
Qed.

Lemma lwp_commit e row v E n mt et mb eb : rr_lane row = lane -> speculative_pending lane v E n mt et mb eb ->
  commit_valid row n = true -> 0 <= rr_accepted row -> lwp lane (commit_row e row) (fun _ v' => committed e row v v') (Ec lane) v.
Proof.
  intros Hrow H Hv Hpos. unfold commit_row, committed, commit_valid in *. rewrite Hrow.
  pose proof (sp_kv _ _ _ _ _ _ _ _ H) as Hk. pose proof (sp_rest _ _ _ _ _ _ _ _ H) as [R1 R2 R3 R4 R5 R6 R7 R8 R9 R10 R11].
  destruct (rr_cancelled row).
  { apply lwp_clear; [done|by eapply kv_is_ok|]. apply (cleared_empty lane). by eapply clear_of. }
  set (a := rr_accepted row) in *. assert (Ha : 0 < a <= n).
  { pose proof (sp_count _ _ _ _ _ _ _ _ H). bprop; lia. }
  lstep. lstep. rewrite (sp_pending _ _ _ _ _ _ _ _ H). cbn [base_E base_S]. lstep.
  apply lwp_bind, lwp_append_generated; [done|done| |].
  2: { intros i Hi. split; [done|]. eapply clear_of; [|exact Hi]. by eapply kv_is_host. }
  intros i Hi Hsize. cbn in Hsize. rewrite R5 in Hsize.
  lstep. lstep. lstep. lstep. apply lwp_bind.
  assert (Hgo : forall v2, backend_committed (rr_terminal row) E a (committed_seq (row_tokens e (rr_row row) a) i E a (lv_seq v)) (lv_seq v2) ->
    lv_req v2 = lv_req v -> lv_text v2 = lv_text v -> lv_backend v2 = lv_backend v ->
    lwp lane (let! s := get_seq lane in
      do! trim_sequence_kv lane (text_kv_valid s) (backend_kv_valid s);
      do! (if rr_terminal row then
             do! retire_lane lane;
             mod_req lane (set_lifecycle Complete)
           else mod_req lane (set_lifecycle Active));
      mod_req lane (set_pending no_pending))
      (fun _ v' => settled (rr_terminal row) v' /\ ledger (lv_seq v') = ledger (lv_seq v) ++ row_tokens e (rr_row row) a) (Ec lane) v2).
  { intros v2 Hb E2 E3 E4.
    assert (identity_size i = E + 1 + a) as Hsize' by lia. pose proof (licensed_row_length e (rr_row row) a ltac:(lia)) as Hlen.
    destruct (commit_settling _ _ _ _ _ _ _ _ _ _ _ _ H Ha Hlen Hi Hsize' Hb) as [Hs Hex].
    rewrite <- E2, <- E3, <- E4 in Hs. replace (mkView _ _ _ _) with v2 in Hs by by destruct v2.
    eapply lwp_commit_end; [exact Hs|exact Hex|]. intros v' H1 H2. split; [done|]. rewrite H2.
    by destruct Hb as (? & ? & ? & ? & -> & _). }
  case_bool_decide as Hm.
  - lstep. destruct (rr_terminal row) eqn:Hterm; lstep; [|lstep]; apply Hgo; try done.
    + exists (E + a), (dflash_context_frontier (lv_seq v)), 0, (mtp_drafts (lv_seq v)). split; [by destruct v as [[]]|]. by rewrite Hm.
    + exists (E + a), (dflash_context_frontier (lv_seq v)), (u32 (next_extents e (rr_row row))),
        (next_round_drafts e (rr_row row) (u32 (next_extents e (rr_row row))) (mtp_drafts (lv_seq v))). split; [by destruct v as [[]]|]. rewrite Hm. split; [apply u32_range|done].
  - lstep. apply Hgo; try done.
    exists (mtp_kv_valid (lv_seq v)), (if rr_terminal row then E + a else E), (mtp_draft_count (lv_seq v)), (mtp_drafts (lv_seq v)).
    split; [by destruct v as [[]]|]. by destruct speculative_backend.
Qed.

(** ** The rows of a decode batch *)

(** The lane is active with [E] tokens, and has pages for [main] and [backend] tokens. *)
Definition roomy (E main backend : Z) (v v' : LaneView) : Prop :=
  same_host v v' /\ exists mt et mb eb, active lane v' E mt et mb eb /\ pages main <= mt /\ pages backend <= mb.

Lemma active_clearable v E mt et mb eb : active lane v E mt et mb eb -> clearable lane v.
Proof. intros H. eapply clear_of; [apply H|]. apply (ar_wf _ _ (ac_rest _ _ _ _ _ _ _ H)). Qed.

Lemma lwp_materialize_active main backend v E mt et mb eb (Q : unit -> LaneView -> Prop) :
  active lane v E mt et mb eb -> 0 <= main -> 0 <= backend ->
  (forall v', roomy E main backend v v' -> Q tt v') -> lwp lane (materialize_sequence_kv lane main backend) Q (Ec lane) v.
Proof.
  intros H Hm Hb HQ. pose proof (ac_kv _ _ _ _ _ _ _ H) as Hk.
  eapply lwp_materialize_sequence; [done|exact Hk|done|done| |].
  - intros _ v' [E1 E2] Hk'. apply HQ. split; [done|]. exists (grown mt main), et, (grown mb backend), eb.
    unfold grown in *. split; [|lia]. destruct H as [H1 H2 H3 H4 H5 [H6 H7] H8].
    constructor; rewrite ?E1, ?E2; try done. unfold covers. lia.
  - intros _ e v' mt' mb' He [E1 E2] Hk'. split; [done|]. eapply clear_of; [exact Hk'|]. rewrite E1.
    apply (ar_wf _ _ (ac_rest _ _ _ _ _ _ _ H)).
Qed.

Lemma checked_i32_E {A} x (k : Z -> M Program A) (Q : A -> LaneView -> Prop) v : clearable lane v ->
  (forall y, lwp lane (k y) Q (Ec lane) v) -> lwp lane (let! y := mlift (pg_checked_i32 x) in k y) Q (Ec lane) v.
Proof.
  intros Hc H. lstep; [intros y _; apply H|]. intros e He. split; [by eapply clean_err, He; apply pg_checked_clean|done].
Qed.

Lemma ledger_last v E mt et mb eb : active lane v E mt et mb eb -> last (ledger (lv_seq v)) <> None.
Proof.
  intros H Hn. apply last_None in Hn. pose proof (ar_ledger _ _ (ac_rest _ _ _ _ _ _ _ H)) as Hl.
  pose proof (ar_range _ _ (ac_rest _ _ _ _ _ _ _ H)). rewrite Hn in Hl. cbn in Hl. lia.
Qed.

Lemma lwp_ordinary_row v E mt et mb eb : active lane v E mt et mb eb ->
  lwp lane (ordinary_row lane) (fun _ v' => roomy E (E + 1) 0 v v') (Ec lane) v.
Proof.
  intros H. pose proof (active_clearable _ _ _ _ _ _ H) as Hc. pose proof (ac_rest _ _ _ _ _ _ _ H) as Hr.
  pose proof (ar_range _ _ Hr). unfold ordinary_row. lstep. lstep. lstep. intros p Hp Hv. rewrite (ar_frontier _ _ Hr).
  lstep; [intros token _|intros Hn; by eapply ledger_last in Hn]. apply checked_i32_E; [done|]. intros position.
  rewrite (ki_kv _ _ _ _ _ _ _ (ac_kv _ _ _ _ _ _ _ H)). lstep; [intros b _|done].
  apply lwp_bind. eapply lwp_materialize_active; [exact H|lia|lia|]. intros v' Hv'. by lstep.
Qed.

Lemma mtp_extent_range s budget n : execution_frontier s = n -> 0 <= mtp_draft_count s ->
  0 <= mtp_extent s budget.
Proof.
  intros Hn Hd. unfold mtp_extent, max_by_budget. pose proof width_pos. unfold width in *.
  pose proof (u32_range (capacity - execution_frontier s - 1)) as [Hu _]. destruct (Z.gtb_spec budget 1); lia.
Qed.

Lemma dflash_extent_range s budget : 0 <= dflash_extent s budget.
Proof.
  unfold dflash_extent, max_by_budget. pose proof width_pos. unfold width in *.
  pose proof (u32_range (capacity - execution_frontier s - 1)) as [Hu _]. destruct (Z.gtb_spec budget 1); lia.
Qed.

Lemma rmapM_checked_clean {A} (f : A -> Z) l : clean (rmapM (fun x => pg_checked_i32 (f x)) l).
Proof. induction l as [|x l IH]; cbn; [done|]. apply clean_bind; [apply pg_checked_clean|]. intros y _. by apply clean_bind. Qed.

Lemma lwp_mtp_row v E mt et mb eb budget : active lane v E mt et mb eb -> speculative_backend = Mtp ->
  lwp lane (mtp_row (lane, budget)) (fun _ v' => roomy E E E v v') (Ec lane) v.
Proof.
  intros H Hm. pose proof (active_clearable _ _ _ _ _ _ H) as Hc. pose proof (ac_rest _ _ _ _ _ _ _ H) as Hr.
  pose proof (ar_range _ _ Hr). unfold mtp_row. lstep. lstep. lstep. intros p Hp Hv.
  pose proof (mtp_extent_range _ budget _ (ar_frontier _ _ Hr) (ar_drafts _ _ Hr)) as Hx. rewrite (ar_frontier _ _ Hr).
  lstep; [intros token _|intros Hn; by eapply ledger_last in Hn].
  apply checked_i32_E; [done|]. intros base. apply checked_i32_E; [done|]. intros remaining.
  lstep; [intros positions _|intros e He; split; [eapply clean_err, He; apply rmapM_checked_clean|done]].
  rewrite (ki_kv _ _ _ _ _ _ _ (ac_kv _ _ _ _ _ _ _ H)). lstep; [intros b [= <-]|done].
  rewrite bundle_backend. destruct (backend_cache_some ltac:(congruence)) as [q Hq]. rewrite Hq. lstep; [intros backend _|done].
  pose proof width_pos. unfold width in *. apply lwp_bind.
  eapply lwp_materialize_active; [exact H|lia|lia|]. intros v' [Hh (mt' & et' & mb' & eb' & Ha & Hp1 & Hp2)]. lstep.
  split; [done|]. exists mt', et', mb', eb'. split; [done|].
  split; (etransitivity; [|eassumption]); apply pages_mono; lia.
Qed.

Lemma lwp_dflash_row v E mt et mb eb budget : active lane v E mt et mb eb -> speculative_backend = DFlash ->
  lwp lane (dflash_row (lane, budget)) (fun _ v' => roomy E E E v v') (Ec lane) v.
Proof.
  intros H Hm. pose proof (active_clearable _ _ _ _ _ _ H) as Hc. pose proof (ac_rest _ _ _ _ _ _ _ H) as Hr.
  pose proof (ar_range _ _ Hr). unfold dflash_row. lstep. lstep. lstep. intros p Hp Hv.
  pose proof (dflash_extent_range (lv_seq v) budget) as Hx. rewrite (ar_frontier _ _ Hr).
  lstep; [intros token _|intros Hn; by eapply ledger_last in Hn].
  apply checked_i32_E; [done|]. intros execution. apply checked_i32_E; [done|]. intros context.
  rewrite (ki_kv _ _ _ _ _ _ _ (ac_kv _ _ _ _ _ _ _ H)). lstep; [intros b [= <-]|done].
  rewrite bundle_backend. destruct (backend_cache_some ltac:(congruence)) as [q Hq]. rewrite Hq. lstep; [intros backend _|done].
  apply lwp_bind. eapply lwp_materialize_active; [exact H|lia|lia|]. intros v' [Hh (mt' & et' & mb' & eb' & Ha & Hp1 & Hp2)]. lstep.
  split; [done|]. exists mt', et', mb', eb'. split; [done|].
  split; [|done]. etransitivity; [|exact Hp1]. apply pages_mono; lia.
Qed.

(** ** Licensing *)

Lemma licensed_E {A} tokens (k : M Program A) (Q : A -> LaneView -> Prop) v : clearable lane v ->
  lwp lane k Q (Ec lane) v -> lwp lane (do! mlift (validate_licensed_tokens tokens); k) Q (Ec lane) v.
Proof.
  intros Hc H. lstep; [by intros []|]. intros e He. split; [eapply clean_err, He; apply licensed_clean|done].
Qed.

Lemma lwp_finish_ordinary d row v v0 E : roomy E (E + 1) 0 v0 v -> E + 1 <= capacity -> speculative_backend = NoSpeculation ->
  lwp lane (finish_ordinary_row d (row, lane))
    (fun _ v' => (exists mt et mb eb, ordinary_pending lane v' E mt et mb eb) /\
                 ledger (lv_seq v') = ledger (lv_seq v0) ++ [sampled_tokens d row]) (Ec lane) v.
Proof.
  intros [[Es Eq] (mt & et & mb & eb & H & Hp & _)] Hcap Hn. pose proof (active_clearable _ _ _ _ _ _ H) as Hc.
  unfold finish_ordinary_row. lstep. apply licensed_E; [done|]. lstep. lstep. lstep.
  pose proof (ac_rest _ _ _ _ _ _ _ H) as [R1 R2 R3 R4 R5 R6 R7 R8 R9 R10 R11].
  apply lwp_bind, lwp_append_generated; [done|done| |].
  2: { intros i Hi. split; [done|]. eapply clear_of; [|exact Hi]. eapply kv_is_host; [exact (ac_kv _ _ _ _ _ _ _ H)|done..]. }
  intros i Hi Hsize. cbn in Hsize. lstep. lstep. split; [|cbn; by rewrite Es].
  exists mt, et, mb, eb. destruct H. constructor; cbn; try done; try lia.
  - by rewrite R1, R3.
  - by eapply kv_is_host.
  - rewrite length_app. cbn. lia.
Qed.

Lemma lwp_license extent accepted count v E mt et mb eb (Q : unit -> LaneView -> Prop) :
  active lane v E mt et mb eb -> backend_exact (lv_seq v) E -> speculative_backend <> NoSpeculation ->
  0 < count <= width -> E + count <= capacity ->
  (forall v', speculative_pending lane v' E count mt et mb eb -> lv_seq v' = lv_seq v -> Q tt v') ->
  lwp lane (license_row lane extent accepted count) Q (Ec lane) v.
Proof.
  intros H Hex Hs Hc1 Hc2 HQ. unfold license_row. lstep. lstep. lstep. lstep. apply HQ; [|done].
  pose proof (ac_rest _ _ _ _ _ _ _ H) as Hr. destruct H.
  constructor; cbn; rewrite ?(ar_frontier _ _ Hr), ?(ar_ledger_frontier _ _ Hr); try done. by eapply kv_is_host.
Qed.

(** The speculative round of a lane is licensed: its tokens are not in the ledger yet. *)
Definition licensed (count : Z) (s : SequenceState) (v' : LaneView) : Prop :=
  (exists E mt et mb eb, speculative_pending lane v' E count mt et mb eb) /\ ledger (lv_seq v') = ledger s.

Lemma lwp_finish_mtp e row budget ingress v v0 E : roomy E E E v0 v -> speculative_backend = Mtp -> mtp_kv_valid (lv_seq v0) = E ->
  lwp lane (finish_mtp_row e (row, (lane, budget, ingress))) (fun _ v' => licensed (licensed_counts e row) (lv_seq v0) v') (Ec lane) v.
Proof.
  intros [[Es Eq] (mt & et & mb & eb & H & _ & _)] Hm Hex. pose proof (active_clearable _ _ _ _ _ _ H) as Hc.
  unfold finish_mtp_row. lstep. lstep; [by intros _|]. intros Hg. bprop. apply licensed_E; [done|].
  pose proof (ar_frontier _ _ (ac_rest _ _ _ _ _ _ _ H)).
  eapply lwp_license; [exact H|unfold backend_exact; by rewrite Hm, Es|congruence|lia|lia|].
  intros v' Hv' E1. split; [eauto 10|]. by rewrite E1, Es.
Qed.

Lemma lwp_finish_dflash e row budget ingress v v0 E : roomy E E E v0 v -> speculative_backend = DFlash ->
  lwp lane (finish_dflash_row e (row, (lane, budget, ingress))) (fun _ v' => licensed (licensed_counts e row) (lv_seq v0) v') (Ec lane) v.
Proof.
  intros [[Es Eq] (mt & et & mb & eb & H & Hp1 & Hp2)] Hm. pose proof (active_clearable _ _ _ _ _ _ H) as Hc.
  unfold finish_dflash_row. lstep. lstep; [by intros _|]. intros Hg. bprop. apply licensed_E; [done|]. lstep.
  pose proof (ac_rest _ _ _ _ _ _ _ H) as Hr. pose proof (ar_frontier _ _ Hr) as Hf. pose proof width_pos.
  eapply (lwp_license _ _ _ _ E mt et mb eb); [|cbn; unfold backend_exact; by rewrite Hm|congruence|lia|lia|].
  - destruct Hr as [R1 R2 R3 R4 R5 R6 R7 R8 R9 R10 R11]. destruct H as [A1 A2 A3 A4 A5 A6 A7]. constructor; cbn; try done.
    + by eapply kv_is_host.
    + constructor; cbn; try done. unfold backend_at. rewrite Hm. cbn. lia.
    + destruct A6. unfold covers, backend_kv_valid in *. rewrite Hm. cbn. rewrite Hf. done.
  - intros v' Hv' E1. split; [eauto 10|]. rewrite E1. cbn. by rewrite Es.
Qed.

(** ** The context of a round that ends *)

Lemma speculative_clearable v E n mt et mb eb : speculative_pending lane v E n mt et mb eb -> clearable lane v.
Proof. intros H. eapply clear_of; [apply H|]. apply (ar_wf _ _ (sp_rest _ _ _ _ _ _ _ _ H)). Qed.

Lemma lwp_append_row seen start count v E n mt et mb eb (Q : AppendRow -> LaneView -> Prop) :
  speculative_pending lane v E n mt et mb eb -> 0 <= start -> 0 <= count ->
  (forall r v' mt' mb', speculative_pending lane v' E n mt' et mb' eb -> same_host v v' -> Q r v') ->
  lwp lane (append_row seen (lane, start, count)) Q (Ec lane) v.
Proof.
  intros H Hs Hn HQ. pose proof (speculative_clearable _ _ _ _ _ _ _ H) as Hc. pose proof (sp_kv _ _ _ _ _ _ _ _ H) as Hk.
  unfold append_row. lstep; [by intros _|]. intros _. lstep. lstep. intros p Hp Hv. rewrite (ki_kv _ _ _ _ _ _ _ Hk).
  unfold bundle_of. destruct (backend_cache_some (sp_backend _ _ _ _ _ _ _ _ H)) as [q Hq]. rewrite Hq. lstep; [by intros _|]. intros _.
  apply checked_i32_E; [done|]. intros context. apply checked_i32_E; [done|]. intros execution.
  apply lwp_bind. eapply lwp_materialize_sequence; [done|exact Hk|lia|lia| |].
  - intros _ v' [E1 E2] Hk'. lstep. eapply HQ; [|by split]. destruct H as [H1 H2 H3 H4 _ H5 H6 [H7 H8] H9 H10].
    constructor; rewrite ?E1, ?E2; try done. unfold covers, grown. lia.
  - intros _ e v' mt' mb' He [E1 E2] Hk'. split; [done|]. eapply clear_of; [exact Hk'|]. rewrite E1.
    apply (ar_wf _ _ (sp_rest _ _ _ _ _ _ _ _ H)).
Qed.
End Rounds.
