(* ===== verification/ProgramBatches.v ===== *)
(** * Batches of lanes

    Operations on several lanes, as sequences of lane operations on distinct lanes: what one of them does
    to its lane is not disturbed by the others. *)
From S2P Require Import Prelude Tensor Layout PagedKV PagedKVProofs PrefixIdentity VisionControl Admission Capacity Contract ProgramState RequestPlan Program ProgramDecode ProgramLanes PlanProofs ProgramBundle ProgramInvariant ProgramPrefill ProgramRounds.
#[local] Open Scope Z_scope.

Section Batches.
Context `{CF : ProgramConfig, DV : Device}.
Context `{CL : !ProgramConfigLaws, DL : !DeviceLaws}.

(** ** Frames of several lanes *)

(** The program is well formed and the lanes outside [lanes] are as they were. *)
Record kept (lanes : list nat) (p p' : Program) : Prop := {
  kp_base : base_inv p';
  kp_views : forall l, l ∉ lanes -> view p' l = view p l;
}.

Lemma kept_refl lanes p : base_inv p -> kept lanes p p.
Proof. by constructor. Qed.
Lemma kept_trans lanes p1 p2 p3 : kept lanes p1 p2 -> kept lanes p2 p3 -> kept lanes p1 p3.
Proof. intros [A1 A2] [B1 B2]. constructor; [done|]. intros l Hl. by rewrite B2, A2. Qed.
Lemma kept_mono ls ls' p p' : ls ⊆ ls' -> kept ls p p' -> kept ls' p p'.
Proof. intros Hs [H1 H2]. constructor; [done|]. intros l Hl. apply H2. set_solver. Qed.
Lemma kept_frame lane p p' : frame lane p p' -> kept [lane] p p'.
Proof.
  intros H. constructor; [apply H|]. intros l Hl. eapply lane_frame_view; [exact H|]. set_solver.
Qed.

(** A lane operation, seen from the program. *)
Lemma wp_lane {A} lane (m : M Program A) (Q : A -> LaneView -> Prop) (E : exn -> LaneView -> Prop) p :
  base_inv p -> lwp lane m Q E (view p lane) ->
  wp m (fun a p' => kept [lane] p p' /\ Q a (view p' lane)) (fun e p' => kept [lane] p p' /\ E e (view p' lane)) p.
Proof.
  intros Hp H. eapply wp_mono; [exact (lwp_elim _ _ _ _ _ _ H Hp eq_refl)|..]; cbn;
    intros ? p' [F ?]; (split; [by apply kept_frame|done]).
Qed.

(** Steps that no lane sees. *)
Definition unseen (p p' : Program) : Prop := kept [] p p'.

Lemma unseen_of p p' : base_inv p -> pg_kv p' = pg_kv p -> sequences p' = sequences p -> requests p' = requests p -> unseen p p'.
Proof.
  intros [B1 B2 B3 B4 B5 B6] E1 E2 E3. constructor; [constructor; rewrite ?E1, ?E2, ?E3; done|].
  intros l _. unfold view. by rewrite E1, E2, E3.
Qed.

Lemma wp_dev {A} (m : M dev A) (Q : A -> Program -> Prop) E p : base_inv p -> (forall d, (m d).1 <> Err Abort_) ->
  (forall a p', unseen p p' -> Q a p') -> (forall e p', e <> Abort_ -> unseen p p' -> E e p') -> wp (on_dev m) Q E p.
Proof.
  intros Hp Hm HQ HE. unfold wp, on_dev. specialize (Hm (pg_dev p)). destruct (m (pg_dev p)) as [[a|e] d].
  - apply HQ. by apply unseen_of.
  - apply HE; [|by apply unseen_of]. cbn in Hm. congruence.
Qed.
Lemma wp_issue c (Q : unit -> Program -> Prop) E p : base_inv p ->
  (forall p', unseen p p' -> Q tt p') -> (forall e p', e <> Abort_ -> unseen p p' -> E e p') -> wp (issue c) Q E p.
Proof. intros Hp HQ. apply wp_dev; [done|apply dl_enqueue|]. by intros []. Qed.
Lemma wp_sync (Q : unit -> Program -> Prop) E p : base_inv p ->
  (forall p', unseen p p' -> Q tt p') -> (forall e p', e <> Abort_ -> unseen p p' -> E e p') -> wp sync Q E p.
Proof. intros Hp HQ. apply wp_dev; [done|apply dl_synchronize|]. by intros []. Qed.
Lemma wp_try_sync (Q : unit -> Program -> Prop) E p : base_inv p -> (forall p', unseen p p' -> Q tt p') -> wp try_sync Q E p.
Proof.
  intros Hp HQ. apply wp_try, wp_sync; [done|done|]. intros e p' He Hu. split; [done|]. intros _. by apply wp_ret, HQ.
Qed.

Lemma wp_install_graph name size frontier (Q : Z * DecodeGraphProfile -> Program -> Prop) E p : base_inv p ->
  (forall r p', unseen p p' -> Q r p') -> (forall e p', e <> Abort_ -> unseen p p' -> E e p') ->
  wp (install_graph_profile name size frontier) Q E p.
Proof.
  intros Hp HQ HE. assert (Hu : unseen p p) by by apply kept_refl. unfold install_graph_profile. apply wp_bind, wp_get, wp_bind, wp_lift.
  2: { intros e He. apply HE; [|done]. unfold select_graph_profile in He. destruct (list_find _ _); congruence. }
  intros [index profile] _. apply wp_bind, wp_lift.
  2: { intros e He. apply HE; [|done]. unfold select_graph_topology in He. destruct (list_find _ _); congruence. }
  intros [slot topology] _. apply wp_bind, wp_when; intros _; [|by apply wp_ret, HQ].
  apply wp_bind, wp_issue; [done| |done]. intros p1 Hu1. apply wp_modify, wp_ret, HQ.
  eapply kept_trans; [exact Hu1|]. apply unseen_of; [apply Hu1|by destruct name..].
Qed.

(** ** A batch of rows of distinct lanes *)

Section Rows.
(** [Safe] is what a failure in the middle of the batch leaves of its lanes. *)
Context (Safe : nat -> LaneView -> Prop).
Context {X : Type} (lane_of : X -> nat) (Pre Post : X -> LaneView -> Prop) (rows : list X) (p0 : Program).
Context (Hdistinct : NoDup (lane_of <$> rows)).
Context (Hpre : forall x v, x ∈ rows -> Pre x v -> Safe (lane_of x) v).
Context (Hpost : forall x v, x ∈ rows -> Post x v -> Safe (lane_of x) v).

(** The rows before [todo] are done. *)
Record progress (todo : list X) (p : Program) : Prop := {
  pr_kept : kept (lane_of <$> rows) p0 p;
  pr_todo : exists before, rows = before ++ todo /\ (forall x, x ∈ before -> Post x (view p (lane_of x))) /\
              (forall x, x ∈ todo -> Pre x (view p (lane_of x)));
}.

(** A failure. *)
Definition broken (e : exn) (p : Program) : Prop :=
  e <> Abort_ /\ kept (lane_of <$> rows) p0 p /\ forall l, l ∈ lane_of <$> rows -> Safe l (view p l).

Lemma progress_start p : kept (lane_of <$> rows) p0 p -> (forall x, x ∈ rows -> Pre x (view p (lane_of x))) -> progress rows p.
Proof. intros H1 H2. constructor; [done|]. exists []. split_and!; [done| |done]. intros x Hx. by apply elem_of_nil in Hx. Qed.
Lemma progress_end p : progress [] p -> kept (lane_of <$> rows) p0 p /\ forall x, x ∈ rows -> Post x (view p (lane_of x)).
Proof. intros [H1 (l & Hr & H2 & _)]. rewrite app_nil_r in Hr. subst l. by split. Qed.

Lemma wp_progress {A} x todo (m : M Program A) p : progress (x :: todo) p ->
  (Pre x (view p (lane_of x)) -> lwp (lane_of x) m (fun _ v' => Post x v') (fun e v' => e <> Abort_ /\ Safe (lane_of x) v') (view p (lane_of x))) ->
  wp m (fun _ p' => progress todo p') broken p.
Proof.
  intros [Hk (before & Hr & H2 & H3)] Hm. specialize (Hm (H3 x ltac:(by left))).
  rewrite Hr, fmap_app, fmap_cons in Hdistinct. apply NoDup_app in Hdistinct as (_ & D1 & [D2 D3]%NoDup_cons).
  assert (Hother : forall p', kept [lane_of x] p p' -> forall y, (y ∈ before \/ y ∈ todo) -> view p' (lane_of y) = view p (lane_of y)).
  { intros p' Hp' y Hy. apply (kp_views _ _ _ Hp'). intros [E|?%elem_of_nil]%elem_of_cons; [|done]. destruct Hy as [Hy|Hy].
    - apply (D1 (lane_of y)); [by apply list_elem_of_fmap_2|]. rewrite E. by left.
    - apply D2. rewrite <- E. by apply list_elem_of_fmap_2. }
  assert (Hx : lane_of x ∈ lane_of <$> rows) by (rewrite Hr; apply list_elem_of_fmap_2, elem_of_app; right; by left).
  assert (Hkept : forall p', kept [lane_of x] p p' -> kept (lane_of <$> rows) p0 p').
  { intros p' Hp'. eapply kept_trans; [exact Hk|]. eapply kept_mono, Hp'. set_solver. }
  eapply wp_mono; [apply (wp_lane _ _ _ _ _ (kp_base _ _ _ Hk) Hm)|..]; cbn.
  - intros _ p' [Hp' HQ]. constructor; [by apply Hkept|]. exists (before ++ [x]). split; [by rewrite <- app_assoc|]. split.
    + intros y [Hy|Hy%list_elem_of_singleton]%elem_of_app; [|by subst]. rewrite (Hother _ Hp') by auto. auto.
    + intros y Hy. rewrite (Hother _ Hp') by auto. apply H3. by right.
  - intros e p' [Hp' [He Hc]]. split; [done|split; [by apply Hkept|]]. intros l (y & -> & Hy)%list_elem_of_fmap.
    pose proof Hy as Hy'. rewrite Hr in Hy. apply elem_of_app in Hy as [Hy|[->|Hy]%elem_of_cons]; [|done|].
    + rewrite (Hother _ Hp') by auto. by apply Hpost, H2.
    + rewrite (Hother _ Hp') by auto. apply Hpre, H3; [done|by right].
Qed.

Lemma wp_batch_iter (f : X -> M Program unit) p : progress rows p ->
  (forall x v, x ∈ rows -> Pre x v -> lwp (lane_of x) (f x) (fun _ v' => Post x v') (fun e v' => e <> Abort_ /\ Safe (lane_of x) v') v) ->
  wp (miter f rows) (fun _ p' => progress [] p') broken p.
Proof.
  intros Hp Hf. apply (wp_iter (fun todo => progress todo)); [|done]. intros x todo p' Hp'.
  apply (wp_progress x); [done|]. apply Hf. destruct Hp' as [_ (before & -> & _)]. apply elem_of_app. right. by left.
Qed.

Lemma wp_batch_map {A} (f : X -> M Program A) p : progress rows p ->
  (forall x v, x ∈ rows -> Pre x v -> lwp (lane_of x) (f x) (fun _ v' => Post x v') (fun e v' => e <> Abort_ /\ Safe (lane_of x) v') v) ->
  wp (mmapM f rows) (fun out p' => progress [] p' /\ length out = length rows) broken p.
Proof.
  intros Hp Hf. eapply wp_mono; [apply (wp_map (fun todo out p' => progress todo p' /\ (length out + length todo)%nat = length rows))| |done].
  - intros x todo out p' [Hp' Hl]. eapply wp_mono; [apply (wp_progress x todo _ _ Hp')| |done].
    + apply Hf. destruct Hp' as [_ (before & -> & _)]. apply elem_of_app. right. by left.
    + intros y p2 Hp2. split; [done|]. rewrite length_app. cbn in *. lia.
  - by split.
  - cbn. intros out p' [H1 H2]. split; [done|]. lia.
Qed.
End Rows.

(** ** Clearing a batch *)

Lemma in_range_max lane : lane_in_range lane = true -> (lane < kMaximumConcurrency)%nat.
Proof. unfold lane_in_range. pose proof cl_concurrency. lia. Qed.

Lemma wp_clear_lanes lanes (Q : unit -> Program -> Prop) E p : base_inv p ->
  (forall l, l ∈ lanes -> lane_in_range l = true /\ clearable l (view p l)) ->
  (forall p', kept lanes p p' -> (forall l, l ∈ lanes -> empty_lane (view p' l)) -> Q tt p') -> wp (clear_lanes lanes) Q E p.
Proof.
  intros Hp Hl HQ. unfold clear_lanes. eapply wp_mono; [apply (wp_iter (fun todo p' => kept lanes p p' /\
    (forall l, l ∈ lanes -> clearable l (view p' l)) /\ exists before, lanes = before ++ todo /\
    forall l, l ∈ before -> empty_lane (view p' l)))| |done].
  - intros lane todo p1 (Hk & Hc & before & Hb & He).
    assert (Hin : lane ∈ lanes) by (rewrite Hb; apply elem_of_app; right; by left).
    destruct (Hl _ Hin) as [Hr _]. rewrite Hr. apply wp_when; [intros _|done].
    eapply wp_mono; [eapply (wp_lane lane _ (fun _ v' => empty_lane v') (fun _ _ => False)); [apply Hk|]| |by intros ? ? [_ []]].
    + apply lwp_clear; [by apply in_range_max|by apply Hc|]. apply (cleared_empty lane). by apply Hc.
    + cbn. intros _ p2 [Hk2 He2]. split_and!.
      * eapply kept_trans; [exact Hk|]. eapply kept_mono, Hk2. set_solver.
      * intros l Hin'. destruct (decide (l = lane)) as [->|Hne]; [by apply empty_clearable|].
        rewrite (kp_views _ _ _ Hk2) by set_solver. by apply Hc.
      * exists (before ++ [lane]). split; [by rewrite Hb, <- app_assoc|]. intros l Hin'.
        destruct (decide (l = lane)) as [->|Hne]; [done|]. rewrite (kp_views _ _ _ Hk2) by set_solver. apply He. set_solver.
  - split_and!; [by apply kept_refl|intros l Hin; by apply Hl|]. exists []. split; [done|]. set_solver.
  - cbn. intros [] p' (Hk & _ & before & Hb & He). rewrite app_nil_r in Hb. subst before. by apply HQ.
Qed.

(** What a batch operation leaves behind when it fails. *)
Definition emptied (lanes : list nat) (p0 : Program) (e : exn) (p : Program) : Prop :=
  e <> Abort_ /\ kept lanes p0 p /\ forall l, l ∈ lanes -> empty_lane (view p l).

Definition breaks (lanes : list nat) (p0 : Program) (e : exn) (p : Program) : Prop :=
  e <> Abort_ /\ kept lanes p0 p /\ forall l, l ∈ lanes -> clearable l (view p l).

Lemma wp_clear_throw {A} (sync_first : bool) lanes (Q : A -> Program -> Prop) p0 p e : (forall l, l ∈ lanes -> lane_in_range l = true) ->
  breaks lanes p0 e p ->
  wp (do! (if sync_first then try_sync else mret_ tt); do! clear_lanes lanes; mthrow e) Q (emptied lanes p0) p.
Proof.
  intros Hr (He & Hk & Hc). apply wp_bind.
  assert (Hrest : forall p1, unseen p p1 -> wp (do! clear_lanes lanes; mthrow e) Q (emptied lanes p0) p1).
  { intros p1 Hu. apply wp_bind, wp_clear_lanes; [apply Hu| |].
    - intros l Hl. rewrite (kp_views _ _ _ Hu) by set_solver. auto.
    - intros p2 Hk2 He2. apply wp_throw. split; [done|]. split; [|done].
      eapply kept_trans; [exact Hk|]. eapply kept_trans; [eapply kept_mono, Hu; set_solver|exact Hk2]. }
  destruct sync_first; [apply wp_try_sync; [apply Hk|exact Hrest]|]. apply wp_ret, Hrest, kept_refl, Hk.
Qed.

Lemma wp_guard {A} (m : M Program A) lanes (Q : A -> Program -> Prop) p0 p : (forall l, l ∈ lanes -> lane_in_range l = true) ->
  wp m Q (breaks lanes p0) p -> wp (mtry m (fail_batch lanes)) Q (emptied lanes p0) p.
Proof.
  intros Hr H. apply wp_try. eapply wp_mono; [exact H|done|]. intros e p1 Hb. split.
  - intros ->. by destruct Hb.
  - intros _. exact (wp_clear_throw true _ _ _ _ _ Hr Hb).
Qed.

(** ** Operations that do not write the egress *)

Definition pres {A} (m : M Program A) : Prop := forall p, host_egress (m p).2 = host_egress p.

Lemma pres_ret {A} (a : A) : pres (mret_ a). Proof. done. Qed.
Lemma pres_throw {A} e : pres (mthrow e : M Program A). Proof. done. Qed.
Lemma pres_bind {A B} (m : M Program A) (k : A -> M Program B) : pres m -> (forall a, pres (k a)) -> pres (mbind_ m k).
Proof.
  intros H1 H2 p. unfold mbind_. specialize (H1 p). destruct (m p) as [[a|e] p1]; cbn in *; [by rewrite H2|done].
Qed.
Lemma pres_lift {A} (r : result A) : pres (mlift r). Proof. done. Qed.
Lemma pres_throw_if b e : pres (mthrow_if b e). Proof. done. Qed.
Lemma pres_get : pres mget. Proof. done. Qed.
Lemma pres_gets {A} (f : Program -> A) : pres (mgets f). Proof. done. Qed.
Lemma pres_deref {A} (o : option A) : pres (mderef o). Proof. by destruct o. Qed.
Lemma pres_when (c : bool) m : pres m -> pres (mwhen c m). Proof. by destruct c. Qed.
Lemma pres_mod_seq lane f : pres (mod_seq lane f). Proof. done. Qed.
Lemma pres_mod_req lane f : pres (mod_req lane f). Proof. done. Qed.
Lemma pres_on_kv {A} (m : M store A) : pres (on_kv m). Proof. intros p. unfold on_kv. by destruct (m (pg_kv p)). Qed.
Lemma pres_on_dev {A} (m : M dev A) : pres (on_dev m). Proof. intros p. unfold on_dev. by destruct (m (pg_dev p)). Qed.
Lemma pres_on_identity lane m : pres (on_identity lane m).
Proof. intros p. unfold on_identity. by destruct (m _). Qed.
Lemma pres_iter {A} (f : A -> M Program unit) l : (forall x, pres (f x)) -> pres (miter f l).
Proof. intros H. induction l; cbn; [done|]. by apply pres_bind. Qed.

Create HintDb pres discriminated.
#[local] Hint Resolve pres_ret pres_throw pres_lift pres_throw_if pres_get pres_gets pres_deref pres_mod_seq pres_mod_req
  pres_on_kv pres_on_dev pres_on_identity : pres.
Ltac pres_tac :=
  repeat first [ solve [eauto with pres] | apply pres_when | (apply pres_bind; [|intros ?]) | case_match ].

Lemma pres_materialize lane main backend : pres (materialize_sequence_kv lane main backend).
Proof. unfold materialize_sequence_kv. pres_tac. Qed.
Lemma pres_append rows seen : pres (append_rows seen rows).
Proof.
  revert seen. induction rows as [|[[lane start] count] rows IH]; intros seen; cbn; [done|].
  pose proof pres_materialize. pres_tac.
Qed.
Lemma pres_issue c : pres (issue c). Proof. apply pres_on_dev. Qed.
Lemma pres_sync : pres sync. Proof. apply pres_on_dev. Qed.
#[local] Hint Resolve pres_append pres_issue pres_sync : pres.
Lemma pres_fold rows checked : pres (fold_batch rows checked).
Proof. unfold fold_batch, enqueue_dflash_context_append. pres_tac. Qed.
Lemma pres_finish_ordinary d row : pres (finish_ordinary_row d row).
Proof. destruct row. unfold finish_ordinary_row. pres_tac. Qed.
Lemma pres_finish_mtp e row : pres (finish_mtp_row e row).
Proof. destruct row as [? [[? ?] ?]]. unfold finish_mtp_row, license_row. pres_tac. Qed.
Lemma pres_finish_dflash e row : pres (finish_dflash_row e row).
Proof. destruct row as [? [[? ?] ?]]. unfold finish_dflash_row, license_row. pres_tac. Qed.

Lemma wp_pres {A} (m : M Program A) (Q : A -> Program -> Prop) (E : exn -> Program -> Prop) p :
  pres m -> wp m Q E p -> wp m (fun a p' => Q a p' /\ host_egress p' = host_egress p) E p.
Proof. intros H. unfold wp. specialize (H p). destruct (m p) as [[a|e] p']; done. Qed.
(** ** Decode batches *)

(** The invariant of the program. *)
Record lanes_ok (p : Program) : Prop := {
  lo_base : base_inv p;
  lo_lanes : forall lane, (lane < kMaximumConcurrency)%nat -> lane_ok lane (view p lane);
}.

Lemma kept_lanes_ok lanes p p' : lanes_ok p -> kept lanes p p' ->
  (forall l, l ∈ lanes -> (l < kMaximumConcurrency)%nat -> lane_ok l (view p' l)) -> lanes_ok p'.
Proof.
  intros [H1 H2] Hk Hl. constructor; [apply Hk|]. intros l Hlt. destruct (decide (l ∈ lanes)); [by apply Hl|].
  rewrite (kp_views _ _ _ Hk) by done. by apply H2.
Qed.

Lemma check_rows_Ok ready p rows seen : check_rows ready p seen rows = Ok tt ->
  NoDup rows.*1 /\ (forall l, l ∈ seen -> l ∉ rows.*1) /\
  forall lane budget, (lane, budget) ∈ rows -> lane_in_range lane = true /\ lifecycle (requests p !!! lane) = Active /\
    ready (sequences p !!! lane) = true.
Proof.
  revert seen. induction rows as [|[lane budget] rows IH]; intros seen H; cbn in *.
  - split; [constructor|]. split; [intros l _ ?%elem_of_nil|intros l b ?%elem_of_nil]; done.
  - rinv. destruct (IH _ H) as (I1 & I2 & I3). split_and!.
    + apply NoDup_cons. split; [|done]. apply I2. by left.
    + intros l Hl [->|Hr]%elem_of_cons; [done|]. apply (I2 l); [by right|done].
    + intros l b [[= -> ->]|Hr]%elem_of_cons; [done|by eapply I3].
Qed.

Lemma batch_zip_lanes (lanes : list nat) (budgets : list Z) : length budgets = length lanes -> (zip lanes budgets).*1 = lanes.
Proof. intros H. apply fst_zip. lia. Qed.

Lemma check_membership_Ok lanes budgets : check_membership lanes budgets = Ok tt -> length budgets = length lanes /\ lanes <> [].
Proof. unfold check_membership. intros H. rinv. split; [by apply Nat.eqb_eq|done]. Qed.

Lemma check_membership_clean lanes budgets : clean (check_membership lanes budgets).
Proof. unfold check_membership. clean_tac. Qed.
Lemma check_rows_clean ready p seen rows : clean (check_rows ready p seen rows).
Proof. revert seen. induction rows as [|[lane budget] rows IH]; intros seen; cbn; [done|]. apply clean_bind; [by apply clean_throw_if|intros _ _]. apply clean_bind; [by apply clean_throw_if|auto]. Qed.

(** A lane of the batch as it was before the round. *)
Lemma batch_lane p lane : lanes_ok p -> lane_in_range lane = true -> lifecycle (requests p !!! lane) = Active ->
  exists E mt et mb eb, active lane (view p lane) E mt et mb eb.
Proof.
  intros Hok Hr Hl. pose proof (lo_lanes _ Hok _ (in_range_max _ Hr)) as H. unfold lane_ok in H.
  change (requests p !!! lane) with (lv_req (view p lane)) in Hl. by rewrite Hl in H.
Qed.

Lemma roomy_clearable lane E main backend v v' : roomy lane E main backend v v' -> clearable lane v'.
Proof. intros [_ (mt & et & mb & eb & H & _)]. by eapply active_clearable. Qed.

Lemma breaks_of {X} (lane_of : X -> nat) rows p0 e p : broken clearable lane_of rows p0 e p -> breaks (lane_of <$> rows) p0 e p.
Proof. done. Qed.

Lemma imap_pair_snd {A} (l : list A) : (imap pair l).*2 = l.
Proof. rewrite fmap_imap. rewrite <- (list_fmap_id l) at 2. rewrite <- (imap_const id l). by apply imap_ext. Qed.

Lemma imap_pair_elem {A} (l : list A) i x : (i, x) ∈ imap pair l <-> l !! i = Some x.
Proof.
  rewrite list_elem_of_lookup. setoid_rewrite list_lookup_imap_Some. split.
  - by intros (j & y & Hy & [= -> ->]).
  - intros H. by exists i, x.
Qed.

(** An operation fails before it changes any lane, or its lanes are emptied. *)
Definition contained (lanes : list nat) (p : Program) (e : exn) (p' : Program) : Prop :=
  e <> Abort_ /\ (unseen p p' \/ emptied lanes p e p').

Lemma emptied_contained lanes p e p' : emptied lanes p e p' -> contained lanes p e p'.
Proof. intros H. split; [apply H|by right]. Qed.

(** The shape of a round: the rows are prepared, the device runs, and its results are installed. *)
Lemma wp_round {X Y A D R} (lane_of : X -> nat) (lane_of' : Y -> nat) (rows : list X) (f : X -> M Program A)
    (command : list A -> Command) (read : M Program D) (rows' : list A -> list Y) (g : D -> Y -> M Program unit) (out : D -> R)
    (Mid : nat -> LaneView -> Prop) (Done : D -> Y -> LaneView -> Prop) (Read : D -> SpeculativeEgress -> Prop) lanes p p1 :
  lane_of <$> rows = lanes -> NoDup lanes -> unseen p p1 ->
  (forall l, l ∈ lanes -> clearable l (view p l)) -> (forall l v, l ∈ lanes -> Mid l v -> clearable l v) ->
  (forall l, length l = length rows -> lane_of' <$> rows' l = lanes) ->
  (forall d y v, Done d y v -> clearable (lane_of' y) v) ->
  (forall x, x ∈ rows -> lwp (lane_of x) (f x) (fun _ v' => Mid (lane_of x) v') (Ec (lane_of x)) (view p (lane_of x))) ->
  (forall p2, base_inv p2 -> wp read (fun d p3 => unseen p2 p3 /\ Read d (host_egress p3)) (fun _ _ => False) p2) ->
  (forall d y, pres (g d y)) ->
  (forall d y v, lane_of' y ∈ lanes -> Mid (lane_of' y) v -> lwp (lane_of' y) (g d y) (fun _ v' => Done d y v') (Ec (lane_of' y)) v) ->
  wp (let! l := mmapM f rows in
      do! issue (command l);
      do! sync;
      let! d := read in
      do! miter (g d) (rows' l);
      mret_ (out d))
    (fun r p' => kept lanes p p' /\ exists d l, length l = length rows /\ r = out d /\ Read d (host_egress p') /\
       forall y, y ∈ rows' l -> Done d y (view p' (lane_of' y)))
    (breaks lanes p) p1.
Proof.
  intros Hlanes Hd Hu Hcl Hmid Hrows' Hdone Hf Hread Hpres Hg. subst lanes. apply wp_bind.
  eapply wp_mono; [apply (wp_batch_map clearable lane_of (fun x v => v = view p (lane_of x)) (fun x => Mid (lane_of x)) rows p); try done| |done].
  { intros x v Hx ->. by apply Hcl, list_elem_of_fmap_2. }
  { intros x v Hx. by apply Hmid, list_elem_of_fmap_2. }
  { apply progress_start; [eapply kept_mono, Hu; set_solver|]. intros x _. apply (kp_views _ _ _ Hu). set_solver. }
  { intros x v Hx ->. by apply Hf. }
  cbn. intros l p2 [Hp2 Hlen]. apply progress_end in Hp2 as [Hk2 Hr2].
  assert (Hmid2 : forall i, i ∈ lane_of <$> rows -> Mid i (view p2 i)) by (intros i (x & -> & Hx)%list_elem_of_fmap; by apply Hr2).
  assert (Hbr : forall e p', e <> Abort_ -> unseen p2 p' -> breaks (lane_of <$> rows) p e p').
  { intros e p' He Hu'. split; [done|]. split; [eapply kept_trans; [exact Hk2|]; eapply kept_mono, Hu'; set_solver|].
    intros i Hi. rewrite (kp_views _ _ _ Hu') by set_solver. by apply Hmid, Hmid2. }
  apply wp_bind, wp_issue; [apply Hk2| |done]. intros p3 Hu3. apply wp_bind, wp_sync; [apply Hu3| |].
  2: { intros e p' He Hu'. apply Hbr; [done|]. by eapply kept_trans. }
  intros p4 Hu4. assert (unseen p2 p4) as Hu24 by by eapply kept_trans. apply wp_bind.
  eapply wp_mono; [apply Hread, Hu24| |done]. intros d p5 [Hu5 Hrd]. assert (unseen p2 p5) as Hu25 by by eapply kept_trans.
  specialize (Hrows' l Hlen). apply wp_bind.
  assert (Hin : forall y, y ∈ rows' l -> lane_of' y ∈ lane_of <$> rows) by (intros y Hy; rewrite <- Hrows'; by apply list_elem_of_fmap_2).
  eapply wp_mono; [apply wp_pres; [by apply pres_iter|];
    apply (wp_batch_iter clearable lane_of' (fun y => Mid (lane_of' y)) (Done d) (rows' l) p)|..].
  - by rewrite Hrows'.
  - intros y v Hy. by apply Hmid, Hin.
  - intros y v _. apply Hdone.
  - apply progress_start; rewrite ?Hrows'; [eapply kept_trans; [exact Hk2|]; eapply kept_mono, Hu25; set_solver|].
    intros y Hy. rewrite (kp_views _ _ _ Hu25) by set_solver. by apply Hmid2, Hin.
  - intros y v Hy. by apply Hg, Hin.
  - cbn. intros [] p6 [Hp6 Heg]. apply progress_end in Hp6 as [Hk6 Hr6]. rewrite Hrows' in Hk6. apply wp_ret.
    split; [done|]. exists d, l. by rewrite Heg.
  - intros e p' H. apply breaks_of in H. by rewrite Hrows' in H.
Qed.

(** The tokens that a round produced for a row. *)
Definition round_count (round : BatchedGeneratedRound) (i : nat) : option Z :=
  match row_counts round with [] => Some 1 | counts => counts !! i end.

(** A lane after a round: its tokens are pending; those of an ordinary round are already in the ledger. *)
Record decoded_lane (p : Program) (round : BatchedGeneratedRound) (i l : nat) (v' : LaneView) : Prop := {
  dl_ok : lane_ok l v';
  dl_lifecycle : lifecycle (lv_req v') = Pending;
  dl_count : round_count round i = Some (produced (pending (lv_req v')));
  dl_ledger : match speculative_backend with
              | NoSpeculation => row_stride round = 1 /\ row_counts round = [] /\ exists token, rd_tokens round !! i = Some token /\
                                   ledger (lv_seq v') = ledger (sequences p !!! l) ++ [token]
              | _ => ledger (lv_seq v') = ledger (sequences p !!! l)
              end;
}.

Definition decoded (p : Program) (lanes : list nat) (round : BatchedGeneratedRound) (p' : Program) : Prop :=
  kept lanes p p' /\ NoDup lanes /\ (speculative_backend <> NoSpeculation -> round = speculative_round (host_egress p') (length lanes)) /\
  forall i l, lanes !! i = Some l -> decoded_lane p round i l (view p' l).

Definition ordinary_done (p : Program) (d : dev) (row : nat * nat) (v' : LaneView) : Prop :=
  (exists mt et mb eb E, ordinary_pending row.2 v' E mt et mb eb) /\
  ledger (lv_seq v') = ledger (sequences p !!! row.2) ++ [sampled_tokens d row.1].

Lemma ordinary_done_lane p d i l lanes v' : speculative_backend = NoSpeculation -> lanes !! i = Some l ->
  ordinary_done p d (i, l) v' -> decoded_lane p (mkRound (sampled_tokens d <$> seq 0 (length lanes)) [] 1) i l v'.
Proof.
  intros Hn Hi [(mt & et & mb & eb & E & H) Hl]. constructor.
  - unfold lane_ok. rewrite (op_lifecycle _ _ _ _ _ _ _ H). exists mt, et, mb, eb. right. left. by exists E.
  - apply H.
  - by rewrite (op_pending _ _ _ _ _ _ _ H).
  - rewrite Hn. split; [done|]. split; [done|]. exists (sampled_tokens d i). split; [|done]. cbn. rewrite list_lookup_fmap.
    rewrite lookup_seq_lt; [done|]. by eapply lookup_lt_Some.
Qed.

Lemma licensed_lane p e i l lanes v' : speculative_backend <> NoSpeculation -> lanes !! i = Some l ->
  licensed l (licensed_counts e i) (sequences p !!! l) v' -> decoded_lane p (speculative_round e (length lanes)) i l v'.
Proof.
  intros Hn Hi [(E & mt & et & mb & eb & H) Hl]. constructor.
  - unfold lane_ok. rewrite (sp_lifecycle _ _ _ _ _ _ _ _ H). exists mt, et, mb, eb. right. right. by exists E, (licensed_counts e i).
  - apply H.
  - rewrite (sp_pending _ _ _ _ _ _ _ _ H). unfold round_count, speculative_round. cbn [row_counts produced].
    pose proof (lookup_lt_Some _ _ _ Hi). destruct (licensed_counts e <$> seq 0 (length lanes)) as [|x xs] eqn:Hs.
    + apply (f_equal length) in Hs. rewrite length_fmap, length_seq in Hs. cbn in Hs. lia.
    + rewrite <- Hs, list_lookup_fmap, lookup_seq_lt by done. done.
  - destruct speculative_backend; done.
Qed.

(** The lanes of a batch that passed its checks. *)
Lemma checked_lanes ready p lanes budgets : lanes_ok p -> length budgets = length lanes ->
  check_rows ready p [] (zip lanes budgets) = Ok tt ->
  NoDup lanes /\ forall l, l ∈ lanes -> lane_in_range l = true /\ ready (sequences p !!! l) = true /\
    exists mt et mb eb, active l (view p l) (execution_frontier (sequences p !!! l)) mt et mb eb.
Proof.
  intros Hok Hlen H. destruct (check_rows_Ok _ _ _ _ H) as (Hd & _ & Hr). rewrite batch_zip_lanes in Hd by done.
  split; [done|]. intros l Hl. rewrite <- (batch_zip_lanes lanes budgets Hlen) in Hl. apply list_elem_of_fmap in Hl as ([l' b] & -> & Hin).
  destruct (Hr _ _ Hin) as (H1 & H2 & H3). split; [done|]. split; [done|].
  destruct (batch_lane _ _ Hok H1 H2) as (E & mt & et & mb & eb & Ha).
  pose proof (ar_frontier _ _ (ac_rest _ _ _ _ _ _ _ Ha)) as Hf. cbn in *. rewrite Hf. eauto 10.
Qed.

Lemma graph_choice {R} name size frontier (pick : Z * DecodeGraphProfile -> M Program R) (other : R) (Q : R -> Program -> Prop) E p :
  base_inv p -> (forall r p', exists x, pick r p' = (Ok x, p')) ->
  (forall r p', unseen p p' -> Q r p') -> (forall e p', e <> Abort_ -> unseen p p' -> E e p') ->
  wp (if use_cuda_graph then mbind_ (install_graph_profile name size frontier) pick else mret_ other) Q E p.
Proof.
  intros Hp Hk HQ HE. destruct use_cuda_graph; [|by apply wp_ret, HQ, kept_refl].
  apply wp_bind, wp_install_graph; [done| |done]. intros r p' Hu. destruct (Hk r p') as [x Hx].
  eapply wp_Ok; [exact Hx|by apply HQ].
Qed.

Lemma unseen_breaks p lanes e p' : (forall l, l ∈ lanes -> clearable l (view p l)) -> e <> Abort_ -> unseen p p' -> breaks lanes p e p'.
Proof.
  intros Hc He Hu. split; [done|]. split; [eapply kept_mono, Hu; set_solver|]. intros l Hl.
  rewrite (kp_views _ _ _ Hu) by set_solver. by apply Hc.
Qed.

(** The next check of an operation on a batch. *)
Ltac guard_step :=
  lazymatch goal with
  | |- wp (mbind_ (mthrow_if _ _) _) _ _ _ => apply wp_bind, wp_throw_if; [intros _; split; [done|left; by apply kept_refl, lo_base]|]
  | |- wp (mbind_ (mlift _) _) _ _ _ => apply wp_bind, wp_lift; [intros [] |intros ? He; split;
      [eapply clean_err, He; auto using check_membership_clean, check_rows_clean|left; by apply kept_refl, lo_base]]
  | |- wp (mbind_ mget _) _ _ _ => apply wp_bind, wp_get
  end.

Lemma wp_decode_ordinary lanes budgets p : lanes_ok p ->
  wp (decode_ordinary_batch lanes budgets) (decoded p lanes) (contained lanes p) p.
Proof.
  intros Hok. unfold decode_ordinary_batch. guard_step. intros Hn. bprop. guard_step. intros [Hlen _]%check_membership_Ok.
  guard_step. guard_step. intros Hrows. destruct (checked_lanes _ _ _ _ Hok Hlen Hrows) as [Hd Hl].
  assert (Hcl : forall l, l ∈ lanes -> clearable l (view p l)) by (intros l Hin; destruct (Hl l Hin) as (_ & _ & ? & ? & ? & ? & H); by eapply active_clearable).
  eapply wp_mono; [apply (wp_guard _ lanes (decoded p lanes) p p); [intros l Hin; by apply Hl|]|done|by apply emptied_contained].
  apply wp_bind, graph_choice; [apply Hok|intros [? ?] ?; by eexists| |intros; by apply unseen_breaks].
  intros [graph envelope] p1 Hu1.
  eapply wp_mono; [eapply (wp_round (fun l => l) snd lanes ordinary_row (fun rows => OrdinaryDecodeBatch rows envelope graph)
    (mgets pg_dev) (fun _ => imap pair lanes) finish_ordinary_row (fun d => mkRound (sampled_tokens d <$> seq 0 (length lanes)) [] 1)
    (fun l v => exists E, roomy l E (E + 1) 0 (view p l) v /\ E + 1 <= capacity) (ordinary_done p) (fun _ _ => True) lanes p p1)|..].
  - apply list_fmap_id.
  - done.
  - done.
  - done.
  - intros l v _ (E & H & _). by eapply roomy_clearable.
  - intros _ _. apply imap_pair_snd.
  - intros d [i l] v [(? & ? & ? & ? & ? & H) _]. eapply clear_of; apply H.
  - intros l Hin. destruct (Hl l Hin) as (Hr & Hready & mt & et & mb & eb & Ha).
    eapply lwp_mono; [eapply lwp_ordinary_row; [by apply in_range_max|exact Ha]| |done]. intros ? v' Hv'. eexists. split; [exact Hv'|].
    unfold ordinary_ready, ledger_ready in Hready. bprop. lia.
  - intros p2 Hp2. apply wp_gets. by split; [apply kept_refl|].
  - intros d y. apply pres_finish_ordinary.
  - intros d [i l] v Hin (E & Hroom & Hc). destruct (Hl l Hin) as (Hr & _).
    eapply lwp_mono; [eapply lwp_finish_ordinary; [by apply in_range_max|exact Hroom|done|done]| |done].
    cbn. intros _ v' [(mt & et & mb & eb & H1) H2]. split; [eauto 10|exact H2].
  - intros r p' (Hk & d & _ & _ & -> & _ & Hdone). split; [done|]. split; [done|]. split; [done|]. intros i l Hi.
    eapply ordinary_done_lane; [done|done|]. apply (Hdone (i, l)). by apply imap_pair_elem.
  - done.
Qed.

Lemma wp_receive p : base_inv p -> wp receive_egress (fun e p' => unseen p p' /\ e = host_egress p') (fun _ _ => False) p.
Proof. intros Hp. unfold receive_egress. apply wp_bind, wp_modify, wp_gets. by split; [apply unseen_of|]. Qed.

(** A speculative round on the checked lanes of a batch. *)
Lemma wp_speculative {A} (f : nat * Z -> M Program A) (command : list A -> Command)
    (g : SpeculativeEgress -> nat * (nat * Z * A) -> M Program unit) lanes budgets p p1 :
  let frontier l := execution_frontier (sequences p !!! l) in
  speculative_backend <> NoSpeculation -> NoDup lanes -> length budgets = length lanes -> unseen p p1 ->
  (forall l, l ∈ lanes -> clearable l (view p l)) ->
  (forall l b, l ∈ lanes -> lwp l (f (l, b)) (fun _ v' => roomy l (frontier l) (frontier l) (frontier l) (view p l) v') (Ec l) (view p l)) ->
  (forall e y, pres (g e y)) ->
  (forall e i l b a v, l ∈ lanes -> roomy l (frontier l) (frontier l) (frontier l) (view p l) v ->
     lwp l (g e (i, (l, b, a))) (fun _ v' => licensed l (licensed_counts e i) (sequences p !!! l) v') (Ec l) v) ->
  wp (let! rows := mmapM f (zip lanes budgets) in
      do! issue (command rows);
      do! sync;
      let! e := receive_egress in
      do! miter (g e) (imap pair (zip (zip lanes budgets) rows));
      mret_ (speculative_round e (length lanes))) (decoded p lanes) (breaks lanes p) p1.
Proof.
  intros frontier Hn Hd Hlen Hu Hcl Hf Hpres Hg. assert (Hz : (zip lanes budgets).*1 = lanes) by by apply batch_zip_lanes.
  assert (Hrows : forall out : list A, length out = length (zip lanes budgets) ->
    (fun y : nat * (nat * Z * A) => y.2.1.1) <$> imap pair (zip (zip lanes budgets) out) = lanes).
  { intros out Ho. transitivity (((imap pair (zip (zip lanes budgets) out)).*2).*1.*1); [by rewrite <- !list_fmap_compose|].
    by rewrite imap_pair_snd, fst_zip, Hz by lia. }
  eapply wp_mono; [eapply (wp_round fst (fun y : nat * (nat * Z * A) => y.2.1.1) (zip lanes budgets) f command receive_egress
    (fun out => imap pair (zip (zip lanes budgets) out)) g (fun e => speculative_round e (length lanes))
    (fun l v => roomy l (frontier l) (frontier l) (frontier l) (view p l) v)
    (fun e y v' => licensed y.2.1.1 (licensed_counts e y.1) (sequences p !!! y.2.1.1) v') (fun e e' => e = e') lanes p p1)|..]; try done.
  - intros l v _. by apply roomy_clearable.
  - intros e y v [(? & ? & ? & ? & ? & H) _]. by eapply speculative_clearable.
  - intros [l b] Hx. apply Hf. rewrite <- Hz. by apply (list_elem_of_fmap_2 fst) in Hx.
  - apply wp_receive.
  - intros e [i [[l b] a]] v Hl Hr. by apply Hg.
  - intros r p' (Hk & e & out & Ho & -> & -> & Hdone). split; [done|]. split; [done|]. split; [done|]. intros i l Hi. eapply licensed_lane; [done|done|].
    assert (exists b a, zip (zip lanes budgets) out !! i = Some ((l, b), a)) as (b & a & Hy).
    { pose proof (lookup_lt_Some _ _ _ Hi) as Hlt. rewrite length_zip in Ho.
      destruct (lookup_lt_is_Some_2 budgets i ltac:(lia)) as [b Hb]. destruct (lookup_lt_is_Some_2 out i ltac:(lia)) as [a Ha].
      exists b, a. apply lookup_zip_Some. split; [|done]. by apply lookup_zip_Some. }
    apply (Hdone (i, ((l, b), a))). by apply imap_pair_elem.
Qed.

Lemma wp_decode_mtp lanes budgets p : lanes_ok p ->
  wp (decode_mtp_batch lanes budgets) (decoded p lanes) (contained lanes p) p.
Proof.
  intros Hok. unfold decode_mtp_batch. guard_step. intros Hm. bprop. guard_step. intros [Hlen _]%check_membership_Ok.
  guard_step. guard_step. intros Hrows. destruct (checked_lanes _ _ _ _ Hok Hlen Hrows) as [Hd Hl].
  assert (Hcl : forall l, l ∈ lanes -> clearable l (view p l)) by (intros l Hin; destruct (Hl l Hin) as (_ & _ & ? & ? & ? & ? & H1); by eapply active_clearable).
  eapply wp_mono; [apply (wp_guard _ lanes (decoded p lanes) p p); [intros l Hin; by apply Hl|]|done|by apply emptied_contained].
  apply wp_bind, graph_choice; [apply Hok|intros [? ?] ?; by eexists| |intros; by apply unseen_breaks].
  intros [graph envelope] p1 Hu1. apply (wp_speculative mtp_row (fun rows => MtpDecodeBatch rows envelope graph) finish_mtp_row);
    [congruence|done..| |intros e y; apply pres_finish_mtp|].
  - intros l b Hin. destruct (Hl l Hin) as (Hr & Hready & mt & et & mb & eb & Ha). eapply lwp_mtp_row; [by apply in_range_max|exact Ha|done].
  - intros e i l b a v Hin Hroom. destruct (Hl l Hin) as (Hr & Hready & _).
    eapply lwp_finish_mtp with (v0 := view p l); [by apply in_range_max|exact Hroom|done|]. unfold mtp_ready in Hready. cbn. by bprop.
Qed.

Lemma wp_decode_dflash lanes budgets p : lanes_ok p ->
  wp (decode_dflash_batch lanes budgets) (decoded p lanes) (contained lanes p) p.
Proof.
  intros Hok. unfold decode_dflash_batch. guard_step. intros Hm. bprop. guard_step. intros [Hlen _]%check_membership_Ok.
  guard_step. guard_step. intros Hrows. destruct (checked_lanes _ _ _ _ Hok Hlen Hrows) as [Hd Hl].
  assert (Hcl : forall l, l ∈ lanes -> clearable l (view p l)) by (intros l Hin; destruct (Hl l Hin) as (_ & _ & ? & ? & ? & ? & H1); by eapply active_clearable).
  eapply wp_mono; [apply (wp_guard _ lanes (decoded p lanes) p p); [intros l Hin; by apply Hl|]|done|by apply emptied_contained].
  apply wp_bind, graph_choice; [apply Hok|intros [? ?] ?; by eexists| |intros; by apply unseen_breaks].
  intros [[graph envelope] target] p1 Hu1. apply (wp_speculative dflash_row (fun rows => DFlashDecodeBatch rows envelope target graph) finish_dflash_row);
    [congruence|done..| |intros e y; apply pres_finish_dflash|].
  - intros l b Hin. destruct (Hl l Hin) as (Hr & Hready & mt & et & mb & eb & Ha). eapply lwp_dflash_row; [by apply in_range_max|exact Ha|done].
  - intros e i l b a v Hin Hroom. destruct (Hl l Hin) as (Hr & Hready & _).
    eapply lwp_finish_dflash with (v0 := view p l); [by apply in_range_max|exact Hroom|done].
Qed.

Lemma wp_decode lanes budgets p : lanes_ok p -> wp (decode_batch lanes budgets) (decoded p lanes) (contained lanes p) p.
Proof.
  intros Hok. unfold decode_batch. destruct speculative_backend; [by apply wp_decode_ordinary|by apply wp_decode_mtp|by apply wp_decode_dflash].
Qed.
End Batches.
