(* ===== verification/ProgramResolve.v ===== *)
(** * Resolving a batch

    The engine says how many of the pending tokens of each lane are kept and which requests end; the
    lanes' ledgers and frontiers are advanced accordingly. *)
From S2P Require Import Prelude Tensor Layout PagedKV PagedKVProofs PrefixIdentity VisionControl Admission Capacity Contract ProgramState RequestPlan Program ProgramDecode ProgramLanes PlanProofs ProgramBundle ProgramInvariant ProgramPrefill ProgramRounds ProgramBatches.
#[local] Open Scope Z_scope.

Section Resolve.
Context `{CF : ProgramConfig, DV : Device}.
Context `{CL : !ProgramConfigLaws, DL : !DeviceLaws}.


(** ** The rows of a resolution *)

Lemma resolve_rows_lanes lanes accepted terminal cancelled :
  length accepted = length lanes -> length terminal = length lanes -> length cancelled = length lanes ->
  rr_lane <$> resolve_rows lanes accepted terminal cancelled = lanes.
Proof.
  intros H1 H2 H3. unfold resolve_rows. rewrite fmap_imap. transitivity ((((zip (zip (zip lanes accepted) terminal) cancelled).*1).*1).*1).
  - rewrite <- !list_fmap_compose. rewrite <- (imap_const _ (zip _ _)). apply imap_ext. by intros i [[[l a] t] c] _.
  - rewrite !fst_zip; [done|..]; rewrite ?length_zip; lia.
Qed.

Lemma resolve_rows_lookup lanes accepted terminal cancelled i row :
  resolve_rows lanes accepted terminal cancelled !! i = Some row ->
  lanes !! i = Some (rr_lane row) /\ accepted !! i = Some (rr_accepted row) /\ terminal !! i = Some (rr_terminal row) /\
  cancelled !! i = Some (rr_cancelled row) /\ rr_row row = i.
Proof.
  unfold resolve_rows. rewrite list_lookup_imap. intros (x & H & ->)%fmap_Some. destruct x as [[[l a] t] c]. cbn.
  apply lookup_zip_Some in H as [H H4]. apply lookup_zip_Some in H as [H H3]. by apply lookup_zip_Some in H as [H1 H2].
Qed.

(** A row is resolved: [tokens] of it were committed to the ledger now. *)
Definition resolved (p : Program) (tokens : ResolveRow -> list Z) (row : ResolveRow) (v' : LaneView) : Prop :=
  if rr_cancelled row then empty_lane v'
  else settled (rr_lane row) (rr_terminal row) v' /\ ledger (lv_seq v') = ledger (sequences p !!! rr_lane row) ++ tokens row /\
       0 < rr_accepted row <= produced (pending (requests p !!! rr_lane row)) /\ rr_accepted row <= width.

Lemma settled_ok lane terminal v : settled lane terminal v -> lane_ok lane v.
Proof.
  unfold settled, lane_ok. destruct terminal.
  - intros (E & mt & mb & H). rewrite (co_lifecycle _ _ _ _ _ H). by exists E, mt, mb.
  - intros (E & mt & et & mb & eb & H). rewrite (ac_lifecycle _ _ _ _ _ _ _ H). by exists E, mt, et, mb, eb.
Qed.
Lemma resolved_ok p tokens row v' : resolved p tokens row v' -> lane_ok (rr_lane row) v'.
Proof. unfold resolved. destruct (rr_cancelled row); [apply empty_lane_ok|intros [H _]; by eapply settled_ok]. Qed.

(** ** Ordinary rounds *)

Definition safe_ok (l : nat) (v : LaneView) : Prop := (l < kMaximumConcurrency)%nat -> lane_ok l v.

Lemma lwp_resolve_row p row : lanes_ok p ->
  lwp (rr_lane row) (resolve_ordinary_row row) (fun _ v' => resolved p (fun _ => []) row v')
    (fun e v' => e <> Abort_ /\ safe_ok (rr_lane row) v') (view p (rr_lane row)).
Proof.
  intros Hok. unfold resolve_ordinary_row. lstep. lstep.
  { intros _. split; [done|]. intros Hr. by apply Hok. }
  intros Hg. apply orb_false_iff in Hg as [[Hr%negb_false_iff _]%orb_false_iff _].
  pose proof (in_range_max _ Hr) as Hlt. pose proof (lo_lanes _ Hok _ Hlt) as Hlane. unfold resolved. destruct (rr_cancelled row).
  - apply lwp_clear; [done|by apply lane_ok_clearable|]. apply (cleared_empty (rr_lane row)). by apply lane_ok_clearable.
  - eapply lwp_mono; [apply lwp_resolve_one; done|..]; cbn.
    + intros _ v' (H1 & H2 & H3 & H4). split; [done|]. pose proof width_pos. rewrite app_nil_r. split; [done|]. cbn in H4. lia.
    + intros e v' [He ->]. split; [done|by intros _].
Qed.

(** A failure in the middle of an ordinary resolution leaves the lanes before it resolved and the others as they were. *)
Definition interrupted (lanes : list nat) (p : Program) (e : exn) (p' : Program) : Prop :=
  e <> Abort_ /\ kept lanes p p' /\ lanes_ok p'.

Lemma wp_resolve_ordinary rows p : lanes_ok p -> NoDup (rr_lane <$> rows) ->
  wp (miter resolve_ordinary_row rows)
    (fun _ p' => kept (rr_lane <$> rows) p p' /\ forall row, row ∈ rows -> resolved p (fun _ => []) row (view p' (rr_lane row)))
    (interrupted (rr_lane <$> rows) p) p.
Proof.
  intros Hok Hd. eapply wp_mono; [apply (wp_batch_iter safe_ok rr_lane (fun row v => v = view p (rr_lane row))
    (resolved p (fun _ => [])) rows p)|..]; try done.
  - intros row v _ -> Hr. by apply Hok.
  - intros row v _ H Hr. by eapply resolved_ok.
  - apply progress_start; [by apply kept_refl, Hok|done].
  - intros row v _ ->. by apply lwp_resolve_row.
  - intros [] p' Hp'. by apply progress_end in Hp'.
  - intros e p' (He & Hk & Hsafe). split; [done|split; [done|]]. eapply kept_lanes_ok; [done|exact Hk|].
    intros l Hl Hlt. by apply Hsafe.
Qed.

(** ** Speculative rounds *)

(** The rows that pass [check_speculative_row]. *)
Definition row_checked (p : Program) (row : ResolveRow) : Prop :=
  lane_in_range (rr_lane row) = true /\ commit_valid row (produced (pending (requests p !!! rr_lane row))) = true /\
  exists E n mt et mb eb, speculative_pending (rr_lane row) (view p (rr_lane row)) E n mt et mb eb.

Lemma check_speculative_row_Ok p row r : lanes_ok p -> check_speculative_row p row = Ok r -> row_checked p row.
Proof.
  intros Hok. unfold check_speculative_row. cbv zeta. intros H. rinv. split; [done|]. split; [done|].
  assert (Hl : lane_ok (rr_lane row) (view p (rr_lane row))) by by apply Hok, in_range_max.
  unfold lane_ok in Hl. change (requests p !!! rr_lane row) with (lv_req (view p (rr_lane row))) in *.
  match goal with H : lifecycle _ = Pending |- _ => rewrite H in Hl end.
  destruct Hl as (mt & et & mb & eb & [(P & Hb)|[(E & Ho)|(E & n & Hs)]]).
  - exfalso. pose proof (bg_pending _ _ _ _ _ _ _ Hb) as Hp.
    match goal with H : pc_kind _ = Speculative |- _ => by rewrite Hp in H end.
  - exfalso. pose proof (op_pending _ _ _ _ _ _ _ Ho) as Hp.
    match goal with H : pc_kind _ = Speculative |- _ => by rewrite Hp in H end.
  - by exists E, n, mt, et, mb, eb.
Qed.

Lemma check_speculative_row_clean p row : clean (check_speculative_row p row).
Proof.
  pose proof slot_clean. unfold check_speculative_row. clean_tac.
Qed.

Lemma rmapM_Ok_inv {A B} (f : A -> result B) l out x : rmapM f l = Ok out -> x ∈ l -> exists y, f x = Ok y.
Proof.
  revert out. induction l as [|a l IH]; intros out H Hx; [by apply elem_of_nil in Hx|]. cbn in H. rinv.
  apply elem_of_cons in Hx as [->|Hx]; [eauto|by eapply IH].
Qed.
Lemma rmapM_clean_all {A B} (f : A -> result B) l : (forall x, clean (f x)) -> clean (rmapM f l).
Proof. intros H. induction l; cbn; [done|]. apply clean_bind; [done|]. intros ? _. by apply clean_bind. Qed.

(** A lane of the batch between the checks and the commit: more pages may be mapped. *)
Definition still_pending (p : Program) (l : nat) (v : LaneView) : Prop :=
  same_host (view p l) v /\ exists E n mt et mb eb, speculative_pending l v E n mt et mb eb.

Lemma still_clearable p l v : still_pending p l v -> clearable l v.
Proof. intros [_ (E & n & mt & et & mb & eb & H)]. by eapply speculative_clearable. Qed.

Lemma checked_pending p row : row_checked p row -> still_pending p (rr_lane row) (view p (rr_lane row)).
Proof. intros (_ & _ & H). by split. Qed.

Lemma wp_append_rows p rows seen todo p1 : let lane_of := fun r : nat * Z * Z => r.1.1 in
  NoDup (lane_of <$> rows) -> (forall r, r ∈ rows -> (lane_of r < kMaximumConcurrency)%nat /\ 0 <= r.1.2 /\ 0 <= r.2) ->
  progress lane_of (fun r => still_pending p (lane_of r)) (fun r => still_pending p (lane_of r)) rows p todo p1 ->
  wp (append_rows seen todo)
    (fun _ p' => kept (lane_of <$> rows) p p' /\ forall r, r ∈ rows -> still_pending p (lane_of r) (view p' (lane_of r)))
    (broken clearable lane_of rows p) p1.
Proof.
  intros lane_of Hd Hr. revert seen p1. induction todo as [|x todo IH]; intros seen p1 Hp; cbn [append_rows].
  - apply wp_ret. by apply progress_end in Hp.
  - assert (Hx : x ∈ rows) by (destruct Hp as [_ (before & -> & _)]; apply elem_of_app; right; by left).
    apply wp_bind. eapply wp_mono; [eapply (wp_progress clearable lane_of _ _ rows p Hd); [..|exact Hp|]| |done].
    + intros r v _. apply still_clearable.
    + intros r v _. apply still_clearable.
    + intros [Hh (E & n & mt & et & mb & eb & H)]. destruct (Hr _ Hx) as (Hlt & H1 & H2). destruct x as [[l start] count].
      eapply lwp_append_row; [exact Hlt|exact H|done|done|]. intros r v' mt' mb' H' Hh'.
      split; [by eapply same_host_trans|]. by exists E, n, mt', et, mb', eb.
    + cbn. intros out p2 Hp2. apply wp_bind. eapply wp_mono; [by apply IH| |done]. intros rest p3 H3. by apply wp_ret.
Qed.

Lemma ending_rows_sublist p rows : (fun r : nat * Z * Z => r.1.1) <$> ending_rows p rows `sublist_of` rr_lane <$> rows.
Proof.
  induction rows as [|row rows IH]; cbn; [done|]. destruct (negb (rr_cancelled row) && rr_terminal row); cbn.
  - by apply sublist_skip.
  - by apply sublist_cons.
Qed.
Lemma ending_rows_elem p rows r : r ∈ ending_rows p rows -> exists row, row ∈ rows /\
  r = (rr_lane row, base_E (pending (requests p !!! rr_lane row)), rr_accepted row).
Proof.
  intros (row & Hrow & H)%list_elem_of_omap. exists row. split; [done|]. destruct (_ && _); congruence.
Qed.

Section Fold.
Context (p : Program) (rows : list ResolveRow).
Context (Hd : NoDup (rr_lane <$> rows)).
Context (Hrows : forall row, row ∈ rows -> row_checked p row /\ 0 <= rr_accepted row).
Context (Hspec : speculative_backend <> NoSpeculation).

(** The lanes of the batch before the commit. *)
Record uncommitted (p' : Program) : Prop := {
  un_kept : kept (rr_lane <$> rows) p p';
  un_pending : forall row, row ∈ rows -> still_pending p (rr_lane row) (view p' (rr_lane row));
}.

Lemma uncommitted_breaks e p' : e <> Abort_ -> uncommitted p' -> breaks (rr_lane <$> rows) p e p'.
Proof.
  intros He [H1 H2]. split; [done|split; [done|]]. intros l (row & -> & Hr)%list_elem_of_fmap.
  by eapply still_clearable, H2.
Qed.
Lemma uncommitted_unseen p1 p2 : uncommitted p1 -> unseen p1 p2 -> uncommitted p2.
Proof.
  intros [H1 H2] Hu. constructor.
  - eapply kept_trans; [exact H1|]. eapply kept_mono, Hu. set_solver.
  - intros row Hr. rewrite (kp_views _ _ _ Hu) by set_solver. by apply H2.
Qed.

Lemma wp_uncommitted_issue c p1 : uncommitted p1 -> wp (issue c) (fun _ => uncommitted) (breaks (rr_lane <$> rows) p) p1.
Proof.
  intros H. apply wp_issue; [apply H|intros p2; by apply uncommitted_unseen|].
  intros e p2 He Hu. apply uncommitted_breaks; [done|by eapply uncommitted_unseen].
Qed.

Lemma wp_append_context p1 : uncommitted p1 ->
  wp (enqueue_dflash_context_append (ending_rows p rows)) (fun _ => uncommitted) (breaks (rr_lane <$> rows) p) p1.
Proof.
  intros H. unfold enqueue_dflash_context_append. apply wp_bind, wp_throw_if; [intros _; by apply uncommitted_breaks|intros _].
  set (ends := ending_rows p rows). set (lane_of := fun r : nat * Z * Z => r.1.1).
  assert (Hsub : lane_of <$> ends ⊆ rr_lane <$> rows) by apply sublist_subseteq, ending_rows_sublist.
  assert (Hback : forall p2, kept (lane_of <$> ends) p1 p2 -> (forall r, r ∈ ends -> still_pending p1 (lane_of r) (view p2 (lane_of r))) ->
    uncommitted p2).
  { intros p2 Hk Hs. constructor; [eapply kept_trans; [apply H|by eapply kept_mono]|]. intros row Hr.
    destruct (decide (rr_lane row ∈ lane_of <$> ends)) as [Hin|Hout].
    - apply list_elem_of_fmap in Hin as (r & -> & Hin). destruct (Hs _ Hin) as [Hh Hp]. split; [|done].
      eapply same_host_trans, Hh. pose proof (list_elem_of_fmap_2 lane_of _ _ Hin) as Hin2.
      apply Hsub, list_elem_of_fmap in Hin2 as (row' & -> & Hr'). apply (un_pending _ H _ Hr').
    - rewrite (kp_views _ _ _ Hk) by done. by apply H. }
  apply wp_bind. eapply wp_mono; [eapply (wp_append_rows p1 ends)|..].
  - eapply sublist_NoDup; [exact Hd|]. apply ending_rows_sublist.
  - intros r (row & Hr & ->)%ending_rows_elem. destruct (Hrows _ Hr) as [(Hin & _ & E & n & mt & et & mb & eb & Hsp) Ha].
    cbn. split; [by apply in_range_max|]. split; [|done].
    pose proof (sp_pending _ _ _ _ _ _ _ _ Hsp) as Hp. cbn in Hp. rewrite Hp. cbn.
    pose proof (ar_range _ _ (sp_rest _ _ _ _ _ _ _ _ Hsp)). lia.
  - apply progress_start; [apply kept_refl, (kp_base _ _ _ (un_kept _ H))|]. intros r Hr.
    pose proof (list_elem_of_fmap_2 lane_of _ _ Hr) as Hin. apply Hsub, list_elem_of_fmap in Hin as (row & Hl & Hrow).
    change (r.1.1) with (lane_of r). rewrite Hl. destruct (un_pending _ H _ Hrow) as [_ Hp]. by split.
  - cbn. intros out p2 [Hk Hs]. apply wp_uncommitted_issue. by apply Hback.
  - intros e p2 (He & Hk & Hc). split; [done|]. split; [eapply kept_trans; [apply H|by eapply kept_mono]|].
    intros l Hl. destruct (decide (l ∈ lane_of <$> ends)) as [Hin|Hout]; [by apply Hc|].
    rewrite (kp_views _ _ _ Hk) by done. apply list_elem_of_fmap in Hl as (row & -> & Hr).
    by eapply still_clearable, (un_pending _ H).
Qed.

Lemma wp_fold checked : base_inv p -> wp (fold_batch rows checked) (fun _ => uncommitted) (breaks (rr_lane <$> rows) p) p.
Proof.
  intros Hp. assert (H0 : uncommitted p).
  { constructor; [by apply kept_refl|]. intros row Hr. by apply checked_pending, Hrows. }
  unfold fold_batch. apply wp_bind, wp_get, wp_bind. eapply wp_mono; [by apply wp_uncommitted_issue| |done]. intros [] p1 H1. apply wp_bind.
  assert (Hrest : forall p2, uncommitted p2 -> wp (do! (if bool_decide (speculative_backend = DFlash) then
         match ending_rows p rows with
         | [] => mret_ tt
         | ending => enqueue_dflash_context_append ending
         end
       else mret_ tt);
    sync) (fun _ => uncommitted) (breaks (rr_lane <$> rows) p) p2).
  { intros p2 H2. apply wp_bind. eapply (wp_mono _ (fun _ => uncommitted)); [| |done].
    - case_bool_decide; [|by apply wp_ret]. pose proof (wp_append_context p2 H2) as H3.
      by destruct (ending_rows p rows); [apply wp_ret|].
    - intros [] p3 H3. apply wp_sync; [apply H3|intros p4; by apply uncommitted_unseen|].
      intros e p4 He Hu. apply uncommitted_breaks; [done|by eapply uncommitted_unseen]. }
  apply wp_when; intros _; [|by apply Hrest]. eapply wp_mono; [by apply wp_uncommitted_issue| |done]. intros [] p2. apply Hrest.
Qed.

Lemma wp_commit_rows e p1 : uncommitted p1 ->
  wp (miter (commit_row e) rows)
    (fun _ p' => kept (rr_lane <$> rows) p p' /\
       forall row, row ∈ rows -> resolved p (fun row => row_tokens e (rr_row row) (rr_accepted row)) row (view p' (rr_lane row)))
    (breaks (rr_lane <$> rows) p) p1.
Proof.
  intros H. eapply wp_mono; [apply (wp_batch_iter clearable rr_lane (fun row => still_pending p (rr_lane row))
    (resolved p (fun row => row_tokens e (rr_row row) (rr_accepted row))) rows p)|..]; try done.
  - intros row v _. apply still_clearable.
  - intros row v _ Hr. by eapply lane_ok_clearable, resolved_ok.
  - apply progress_start; apply H.
  - intros row v Hr [Hh (E & n & mt & et & mb & eb & Hs)]. destruct (Hrows _ Hr) as [(Hin & Hv & _) Ha].
    assert (Hn : produced (pending (requests p !!! rr_lane row)) = n).
    { pose proof (sp_pending _ _ _ _ _ _ _ _ Hs) as Hp. destruct Hh as [_ E2]. cbn in E2. rewrite <- E2, Hp. done. }
    rewrite Hn in Hv. eapply lwp_mono; [eapply lwp_commit; [by apply in_range_max|done|exact Hs|done|done]| |done].
    intros ? v'. unfold committed, resolved, commit_valid in *. destruct Hh as [E1 _]. cbn in E1. rewrite E1, Hn.
    pose proof (sp_count _ _ _ _ _ _ _ _ Hs). destruct (rr_cancelled row); [done|]. intros [H1 H2]. split; [done|]. split; [done|]. bprop; lia.
  - intros [] p' Hp'. by apply progress_end in Hp'.
Qed.
End Fold.

(** ** [resolve_pending_batch] *)

(** The tokens that a row commits now: those of an ordinary round are in the ledger already. *)
Definition commit_tokens (e : SpeculativeEgress) (row : ResolveRow) : list Z :=
  match speculative_backend with NoSpeculation => [] | _ => row_tokens e (rr_row row) (rr_accepted row) end.

(** A failed resolution did nothing, was interrupted between lanes, or emptied its lanes. *)
Definition resolve_failed (lanes : list nat) (p : Program) (e : exn) (p' : Program) : Prop :=
  if bool_decide (speculative_backend = NoSpeculation) then interrupted lanes p e p' else contained lanes p e p'.

Lemma wp_resolve_batch lanes accepted terminal cancelled p : lanes_ok p -> NoDup lanes -> Forall (Z.le 0) accepted ->
  wp (resolve_pending_batch lanes accepted terminal cancelled)
    (fun _ p' => kept lanes p p' /\ length accepted = length lanes /\ length terminal = length lanes /\ length cancelled = length lanes /\
       forall row, row ∈ resolve_rows lanes accepted terminal cancelled -> resolved p (commit_tokens (host_egress p)) row (view p' (rr_lane row)))
    (resolve_failed lanes p) p.
Proof.
  intros Hok Hd Ha. unfold resolve_pending_batch, resolve_failed, commit_tokens. apply wp_bind, wp_throw_if.
  { intros _. case_bool_decide; (split; [done|]).
    - split; [by apply kept_refl, Hok|done].
    - left. by apply kept_refl, Hok. }
  intros Hg. bprop. rewrite !Nat.eqb_eq in *. cbv zeta. set (rows := resolve_rows lanes accepted terminal cancelled).
  assert (Hl : rr_lane <$> rows = lanes) by by apply resolve_rows_lanes. rewrite <- Hl in Hd.
  assert (Hspec : speculative_backend <> NoSpeculation ->
    wp (let! p := mget in
        let! checked := mlift (rmapM (check_speculative_row p) rows) in
        do! mtry (fold_batch rows checked) (fun e => do! try_sync; do! clear_lanes lanes; mthrow e);
        let! e := mgets host_egress in
        mtry (miter (commit_row e) rows) (fun e => do! clear_lanes lanes; mthrow e))
      (fun _ p' => kept lanes p p' /\ forall row, row ∈ rows ->
         resolved p (fun row => row_tokens (host_egress p) (rr_row row) (rr_accepted row)) row (view p' (rr_lane row)))
      (contained lanes p) p).
  { intros Hn. apply wp_bind, wp_get, wp_bind, wp_lift.
    2: { intros e He. split; [eapply clean_err, He; apply rmapM_clean_all, check_speculative_row_clean|left; by apply kept_refl, Hok]. }
    intros checked Hch. assert (Hrows : forall row, row ∈ rows -> row_checked p row /\ 0 <= rr_accepted row).
    { intros row Hr. split.
      - destruct (rmapM_Ok_inv _ _ _ _ Hch Hr) as [y Hy]. by eapply check_speculative_row_Ok.
      - apply list_elem_of_lookup in Hr as [i Hi]. apply resolve_rows_lookup in Hi as (_ & Hi & _).
        by eapply Forall_lookup_1 in Ha. }
    assert (Hin : forall l, l ∈ lanes -> lane_in_range l = true).
    { intros l Hlin. rewrite <- Hl in Hlin. apply list_elem_of_fmap in Hlin as (row & -> & Hr). by apply Hrows. }
    pose proof (wp_fold p rows Hd Hrows Hn checked (lo_base _ Hok)) as Hf. rewrite Hl in Hf.
    apply wp_bind. eapply wp_mono; [eapply (wp_guard _ lanes _ p p Hin), wp_pres; [apply pres_fold|exact Hf]|..].
    - intros [] p1 [Hun Heg]. apply wp_bind, wp_gets. apply wp_try. rewrite Heg.
      pose proof (wp_commit_rows p rows Hd Hrows (host_egress p) p1 Hun) as Hc. rewrite Hl in Hc.
      eapply wp_mono; [exact Hc|done|]. intros e p2 Hb. split; [intros ->; by destruct Hb|intros _].
      eapply wp_mono; [exact (wp_clear_throw false lanes (fun _ _ => False) p p2 e Hin Hb)|done|by apply emptied_contained].
    - by apply emptied_contained. }
  destruct speculative_backend eqn:Hb.
  - eapply wp_mono; [apply wp_resolve_ordinary; [done|exact Hd]|..]; rewrite ?Hl.
    + intros [] p' [Hk Hr]. by split_and!.
    + intros e p' Hi. by bdec.
  - eapply wp_mono; [by apply Hspec|..]; [intros [] p' [Hk Hr]; by split_and!|intros e p' He; by bdec].
  - eapply wp_mono; [by apply Hspec|..]; [intros [] p' [Hk Hr]; by split_and!|intros e p' He; by bdec].
Qed.
End Resolve.
