(* ===== verification/ProgramTheorems.v ===== *)
(** * The operations of the program: what they keep, how they fail, and what a round commits *)
From S2P Require Import Prelude Tensor Layout PagedKV PagedKVProofs PrefixIdentity VisionControl Admission Capacity Contract ProgramState RequestPlan Program ProgramDecode ProgramLanes ProgramSample PlanProofs ProgramBundle ProgramInvariant ProgramPrefill ProgramRounds ProgramBatches ProgramResolve.
#[local] Open Scope Z_scope.

Section Theorems.
Context `{CF : ProgramConfig, DV : Device}.
Context `{CL : !ProgramConfigLaws, DL : !DeviceLaws}.

(** ** Operations *)

(** What the engine asks of the program. *)
Inductive Operation :=
| OpStart (lane : nat) (prompt : PreparedPromptData) (plan : RequestPlan) (transient : TransientRegion)
| OpAdvance (lane : nat)
| OpDecode (lanes : list nat) (budgets : list Z)
| OpResolvePrefill (lane : nat) (terminal : bool)
| OpResolve (lanes : list nat) (accepted : list Z) (terminal cancelled : list bool)
| OpAbort (lane : nat)
| OpEvict (lane : nat).

Definition perform (op : Operation) : M Program unit :=
  match op with
  | OpStart lane prompt plan transient => let! _ := start_prefill_lane lane prompt plan transient in mret_ tt
  | OpAdvance lane => let! _ := advance_prefill_lane lane in mret_ tt
  | OpDecode lanes budgets => let! _ := decode_batch lanes budgets in mret_ tt
  | OpResolvePrefill lane terminal => resolve_prefill_lane lane terminal
  | OpResolve lanes accepted terminal cancelled => resolve_pending_batch lanes accepted terminal cancelled
  | OpAbort lane => mmodify (abort_lane lane)
  | OpEvict lane => mmodify (evict_retained_lane lane)
  end.

Definition lanes_of (op : Operation) : list nat :=
  match op with
  | OpStart lane _ _ _ | OpAdvance lane | OpResolvePrefill lane _ | OpAbort lane | OpEvict lane => [lane]
  | OpDecode lanes _ | OpResolve lanes _ _ _ => lanes
  end.

(** A prefill is started with the plan made for its prompt and lane; a resolution names distinct lanes, and
    its counts are unsigned. *)
Definition admissible (op : Operation) (p : Program) : Prop :=
  match op with
  | OpStart lane prompt plan _ => prepared prompt /\ exists options b,
      plan_request_base prompt options = Ok b /\ plan_request_for_lane lane prompt b p = Ok plan
  | OpResolve lanes accepted _ _ => NoDup lanes /\ Forall (Z.le 0) accepted
  | _ => True
  end.

(** ** Single lanes *)

Lemma lane_max p lane : lane_in_range lane = true -> lanes_ok p -> lane_ok lane (view p lane).
Proof. intros Hr Hok. by apply Hok, in_range_max. Qed.

Lemma kept_same lane p p' : kept [lane] p p' -> view p' lane = view p lane -> unseen p p'.
Proof.
  intros Hk Hv. constructor; [apply Hk|]. intros l _. destruct (decide (l = lane)) as [->|Hne]; [done|].
  apply (kp_views _ _ _ Hk). set_solver.
Qed.
Lemma emptied_lane lane p e p' : e <> Abort_ -> kept [lane] p p' -> empty_lane (view p' lane) -> emptied [lane] p e p'.
Proof. intros He Hk H. split; [done|split; [done|]]. by intros l ->%list_elem_of_singleton. Qed.

Lemma planned_startable lane prompt options b plan p : lanes_ok p -> prepared prompt -> plan_request_base prompt options = Ok b ->
  plan_request_for_lane lane prompt b p = Ok plan -> startable lane prompt plan (view p lane) /\ lane_in_range lane = true.
Proof.
  intros Hok Hp Hb Hplan. apply plan_request_base_ok in Hb as [B1 B2 B3 B4 B5 B6 [B7 B8] B9].
  apply plan_request_for_lane_ok in Hplan as ([L1 L2 L3 L4 L5 L6 L7 L8 L9] & Hr & Hbusy). split; [|done].
  constructor; try done; [|by rewrite L8|by rewrite L9|].
  - apply free_lane_ok; [by apply in_range_max|by apply lane_max|]. unfold lane_busy in Hbusy. cbn. bprop.
    destruct (lifecycle (requests p !!! lane)); (done || auto).
  - unfold plan_checkpoint in L4. rewrite B5 in L4. destruct (rewrite_checkpoint_spec (identity prompt)) as [d|] eqn:Hd.
    + assert (0 <= rs_frontier d) by by eapply (pp_checkpoint _ Hp).
      destruct (_ && _); [injection L4 as _ ->; done|]. destruct (_ >? _); by injection L4 as _ ->.
    + by injection L4 as _ ->.
Qed.

Lemma wp_start lane prompt options b plan transient p : lanes_ok p -> prepared prompt -> plan_request_base prompt options = Ok b ->
  plan_request_for_lane lane prompt b p = Ok plan ->
  wp (start_prefill_lane lane prompt plan transient)
    (fun r p' => kept [lane] p p' /\ started lane prompt plan r (view p' lane)) (contained [lane] p) p.
Proof.
  intros Hok Hp Hb Hplan. destruct (planned_startable _ _ _ _ _ _ Hok Hp Hb Hplan) as [Hs Hr].
  eapply wp_mono; [apply wp_lane; [apply Hok|]; by apply lwp_start; [apply in_range_max|..]|done|].
  cbn. intros e p' (Hk & He & [Hv|Hv]); (split; [done|]); [left; by eapply kept_same|right; by apply emptied_lane].
Qed.

Lemma stepped_ok lane pf mt et mb eb r v : stepped lane pf mt et mb eb r v -> lane_ok lane v.
Proof.
  unfold stepped, lane_ok. destruct (Contract.complete r).
  - intros [H _]. rewrite (bg_lifecycle _ _ _ _ _ _ _ H). exists mt, et, mb, eb. left. eauto.
  - intros (_ & pf' & H & _). rewrite (pl_lifecycle _ _ _ _ _ _ _ H). by exists pf', mt, et, mb, eb.
Qed.

Lemma wp_advance lane p : lanes_ok p ->
  wp (advance_prefill_lane lane) (fun r p' => kept [lane] p p' /\ lane_ok lane (view p' lane)) (contained [lane] p) p.
Proof.
  intros Hok. unfold advance_prefill_lane.
  apply wp_bind, wp_throw_if; [intros _; split; [done|left; by apply kept_refl, lo_base]|]. intros Hr. bprop.
  destruct (decide (lifecycle (requests p !!! lane) = Prefilling)) as [Hl|Hl].
  - pose proof (lane_max _ _ ltac:(done) Hok) as H. unfold lane_ok in H. change (requests p !!! lane) with (lv_req (view p lane)) in Hl.
    rewrite Hl in H. destruct H as (pf & mt & et & mb & eb & H).
    eapply wp_mono; [apply wp_lane; [apply Hok|]; eapply lwp_advance; [by apply in_range_max|exact H]|..]; cbn.
    + intros r p' [Hk Hs]. split; [done|by eapply stepped_ok].
    + intros e p' (Hk & He & Hv). split; [done|]. right. by apply emptied_lane.
  - unfold advance_prefill. apply wp_bind, wp_gets. destruct (lifecycle (requests p !!! lane)) eqn:E; try done;
      (apply wp_throw; split; [done|left; by apply kept_refl, lo_base]).
Qed.

Lemma wp_resolve_prefill lane terminal p : lanes_ok p ->
  wp (resolve_prefill_lane lane terminal)
    (fun _ p' => kept [lane] p p' /\ settled lane terminal (view p' lane) /\ ledger (sequences p' !!! lane) = ledger (sequences p !!! lane))
    (fun e p' => e <> Abort_ /\ unseen p p') p.
Proof.
  intros Hok. unfold resolve_prefill_lane. assert (Hu : unseen p p) by apply kept_refl, Hok.
  apply wp_bind, wp_throw_if; [by intros _|]. intros Hr. bprop. apply wp_bind, wp_gets.
  apply wp_bind, wp_throw_if; [by intros _|]. intros _.
  eapply wp_mono; [apply wp_lane; [apply Hok|]; apply lwp_resolve_one; [by apply in_range_max|by apply lane_max]|..]; cbn.
  - intros _ p' (Hk & H1 & H2 & _). done.
  - intros e p' (Hk & He & Hv). split; [done|by eapply kept_same].
Qed.

Lemma clear_lane_runs lane p : lanes_ok p -> lane_in_range lane = true ->
  kept [lane] p (noexcept (clear_lane lane) p) /\ empty_lane (view (noexcept (clear_lane lane) p) lane).
Proof.
  intros Hok Hr. pose proof (lane_ok_clearable _ _ (lane_max _ _ Hr Hok)) as Hc.
  assert (H : wp (clear_lane lane) (fun _ p' => kept [lane] p p' /\ empty_lane (view p' lane)) (fun _ p' => kept [lane] p p' /\ False) p).
  { apply (wp_lane lane _ (fun _ v' => empty_lane v') (fun _ _ => False)); [apply Hok|].
    apply lwp_clear; [by apply in_range_max|apply Hc|by apply (cleared_empty lane)]. }
  unfold wp, noexcept in *. destruct (clear_lane lane p) as [[[]|e] p']; [done|by destruct H].
Qed.

(** ** All operations *)

Lemma unseen_ok p p' : lanes_ok p -> unseen p p' -> lanes_ok p'.
Proof. intros Hok Hu. eapply kept_lanes_ok; [done|exact Hu|]. by intros l ?%elem_of_nil. Qed.
Lemma contained_ok lanes p e p' : lanes_ok p -> contained lanes p e p' -> lanes_ok p'.
Proof.
  intros Hok [_ [Hu|(_ & Hk & He)]]; [by eapply unseen_ok|]. eapply kept_lanes_ok; [done|exact Hk|].
  intros l Hl _. by apply empty_lane_ok, He.
Qed.
Lemma contained_kept lanes p e p' : contained lanes p e p' -> kept lanes p p'.
Proof. intros [_ [Hu|(_ & Hk & He)]]; [|done]. eapply kept_mono, Hu. set_solver. Qed.

(** How an operation may fail: no lane has changed, or its lanes are empty, or, when ordinary rounds were
    resolved, the lanes before the failure are resolved. *)
Definition failed (op : Operation) (p : Program) (e : exn) (p' : Program) : Prop :=
  e <> Abort_ /\
  (unseen p p' \/ (forall l, l ∈ lanes_of op -> empty_lane (view p' l)) \/
   speculative_backend = NoSpeculation /\ exists lanes accepted terminal cancelled, op = OpResolve lanes accepted terminal cancelled).

Definition outcome (op : Operation) (p : Program) (p' : Program) : Prop := kept (lanes_of op) p p' /\ lanes_ok p'.

Lemma contained_failed op p e p' : lanes_ok p -> contained (lanes_of op) p e p' -> outcome op p p' /\ failed op p e p'.
Proof.
  intros Hok Hc. split; [split; [by eapply contained_kept|by eapply contained_ok]|]. destruct Hc as [He [Hu|(_ & _ & Hl)]]; split; auto.
Qed.

Lemma single_ok lane p p' : lanes_ok p -> kept [lane] p p' -> lane_ok lane (view p' lane) -> kept [lane] p p' /\ lanes_ok p'.
Proof. intros Hok Hk Hl. split; [done|]. eapply kept_lanes_ok; [done|exact Hk|]. by intros l ->%list_elem_of_singleton. Qed.

Lemma wp_ignore {A} (m : M Program A) (Q : unit -> Program -> Prop) E p : wp m (fun _ => Q tt) E p -> wp (let! _ := m in mret_ tt) Q E p.
Proof. intros H. apply wp_bind. eapply wp_mono; [exact H| |done]. intros ? p' HQ. by apply wp_ret. Qed.

Lemma wp_perform op p : lanes_ok p -> admissible op p ->
  wp (perform op) (fun _ p' => outcome op p p') (fun e p' => outcome op p p' /\ failed op p e p') p.
Proof.
  intros Hok Ha. destruct op as [lane prompt plan transient|lane|lanes budgets|lane terminal|lanes accepted terminal cancelled|lane|lane]; cbn [perform].
  - destruct Ha as (Hp & options & b & Hb & Hplan). apply wp_ignore.
    eapply wp_mono; [by eapply wp_start|..]; [|by intros; apply contained_failed].
    intros r p' [Hk (pf & mt & mb & _ & Hs)]. apply single_ok; [done..|by eapply stepped_ok].
  - apply wp_ignore. eapply wp_mono; [by apply wp_advance|..]; [|by intros; apply contained_failed].
    intros r p' [Hk Hs]. by apply single_ok.
  - apply wp_ignore. eapply wp_mono; [by apply wp_decode|..]; [|by intros; apply contained_failed].
    intros r p' (Hk & _ & _ & Hd). split; [done|]. eapply kept_lanes_ok; [done|exact Hk|]. intros l Hl _.
    apply list_elem_of_lookup in Hl as [i Hi]. apply (dl_ok _ _ _ _ _ (Hd i l Hi)).
  - eapply wp_mono; [by apply wp_resolve_prefill|..].
    + intros _ p' (Hk & Hs & _). apply single_ok; [done..|by eapply settled_ok].
    + intros e p' [He Hu]. apply contained_failed; [done|]. split; [done|by left].
  - destruct Ha as [Hd Hacc]. eapply wp_mono; [by apply wp_resolve_batch|..].
    + intros _ p' (Hk & L1 & L2 & L3 & Hr). split; [done|]. eapply kept_lanes_ok; [done|exact Hk|]. intros l Hl _.
      rewrite <- (resolve_rows_lanes lanes accepted terminal cancelled) in Hl by done.
      apply list_elem_of_fmap in Hl as (row & -> & Hrow). by eapply resolved_ok, Hr.
    + unfold resolve_failed. intros e p' He. destruct (decide (speculative_backend = NoSpeculation)) as [Hn|Hn].
      * rewrite bool_decide_eq_true_2 in He by done. destruct He as (He & Hk & Hok'). split; [by split|]. split; [done|].
        right. right. split; [done|]. by exists lanes, accepted, terminal, cancelled.
      * rewrite bool_decide_eq_false_2 in He by done. by apply contained_failed.
  - apply wp_modify. unfold abort_lane. destruct (lane_in_range lane) eqn:Hr; cbn.
    + destruct (clear_lane_runs lane p Hok Hr) as [Hk He]. apply single_ok; [done..|by apply empty_lane_ok].
    + split; [by apply kept_refl, Hok|done].
  - apply wp_modify. unfold evict_retained_lane, noexcept. change (mbind_ mget ?k p) with (k p p). cbv beta.
    destruct (has_retained_lane p lane) eqn:Hr; cbn.
    + unfold has_retained_lane in Hr. bprop. destruct (clear_lane_runs lane p Hok ltac:(done)) as [Hk He].
      apply single_ok; [done..|by apply empty_lane_ok].
    + split; [by apply kept_refl, Hok|done].
Qed.

(** ** Reachable programs *)

(** Before the first request. *)
Record initial (p : Program) : Prop := {
  in_kv : kv_initial (pg_kv p);
  in_text : has_pool (pg_kv p) text_pool;
  in_backend : forall q, backend_kv_cache = Some q -> has_pool (pg_kv p) q;
  in_sequences : sequences p = replicate kMaximumConcurrency sequence_default;
  in_requests : requests p = replicate kMaximumConcurrency control_default;
}.

Definition program_step (p p' : Program) : Prop := exists op, admissible op p /\ p' = (perform op p).2.
Definition reachable (p0 p : Program) : Prop := initial p0 /\ rtc program_step p0 p.

Lemma initial_ok p : initial p -> lanes_ok p.
Proof.
  intros [H1 H3 H4 H5 H6]. pose proof (proj1 H1) as H2. constructor.
  - constructor; rewrite ?H5, ?H6, ?H2; try done; try (by apply kv_initial_inv); by rewrite length_replicate.
  - intros lane Hl. assert (Hv : view p lane = mkView sequence_default control_default None None).
    { unfold view. rewrite H5, H6, H2, !lookup_empty. rewrite !lookup_total_replicate_2 by done. done. }
    rewrite Hv. unfold lane_ok. cbn. constructor; try done. constructor; cbn; [done|]. repeat constructor.
Qed.

Lemma step_ok p p' : lanes_ok p -> program_step p p' -> lanes_ok p'.
Proof.
  intros Hok (op & Ha & ->). pose proof (wp_perform op p Hok Ha) as H. unfold wp in H.
  destruct (perform op p) as [[[]|e] p']; cbn; [apply H|apply H].
Qed.

(** ** Prefill ends *)

(** Step a prefill until its first token; [false] when the fuel is used up first. *)
Fixpoint prefill_loop (fuel : nat) (lane : nat) : M Program bool :=
  match fuel with
  | O => mret_ false
  | S fuel' => let! r := advance_prefill_lane lane in if Contract.complete r then mret_ true else prefill_loop fuel' lane
  end.

Lemma lwp_prefill_loop fuel lane v pf mt et mb eb : lane_in_range lane = true -> prefilling lane v pf mt et mb eb ->
  pf_prompt_tokens pf - pf_cursor pf <= Z.of_nat fuel -> (0 < fuel)%nat ->
  lwp lane (prefill_loop fuel lane)
    (fun done_ v' => done_ = true /\ begun lane v' (pf_prompt_tokens pf) mt et mb eb /\
       exists token, ledger (lv_seq v') = token_ids (pf_prompt pf) ++ [token])
    (fun e v' => e <> Abort_ /\ empty_lane v') v.
Proof.
  intros Hr. revert v pf. induction fuel as [|fuel IH]; intros v pf Hp Hf Hpos; [lia|]. cbn [prefill_loop].
  apply lwp_bind. unfold advance_prefill_lane. rewrite Hr. lstep; [done|intros _].
  eapply lwp_mono; [eapply lwp_advance; [by apply in_range_max|exact Hp]| |done]. intros r v' Hs. unfold stepped in Hs.
  destruct (Contract.complete r).
  - apply lwp_ret. destruct Hs as (H & token & _ & Hl). eauto 10.
  - destruct Hs as (_ & pf' & H & [S1 S2 S3 S4] & Hc). rewrite <- S2, <- S3. apply IH; [done|lia|lia].
Qed.

(** ** What a round commits *)

(** The tokens of a row of a round. *)
Definition round_row (round : BatchedGeneratedRound) (i : nat) : list Z :=
  drop (i * Z.to_nat (row_stride round)) (rd_tokens round).

Lemma take_seq_row {A} (f : nat -> A) i n w a : (i < n)%nat -> (a <= w)%nat ->
  take a (drop (i * w) (f <$> seq 0 (n * w))) = f <$> seq (i * w) a.
Proof.
  intros Hi Ha. rewrite <- fmap_drop, <- fmap_take. f_equal. apply list_eq. intros j.
  destruct (decide (j < a)%nat) as [Hj|Hj].
  - rewrite lookup_take_lt, lookup_drop, !lookup_seq_lt by nia. done.
  - rewrite lookup_take_ge by lia. symmetry. apply lookup_seq_ge. lia.
Qed.

Lemma committed_row lanes accepted terminal cancelled i lane : lanes !! i = Some lane -> cancelled !! i = Some false ->
  length accepted = length lanes -> length terminal = length lanes ->
  exists a t, accepted !! i = Some a /\ mkResolve i lane a t false ∈ resolve_rows lanes accepted terminal cancelled.
Proof.
  intros Hl Hc H1 H2. pose proof (lookup_lt_Some _ _ _ Hl). destruct (lookup_lt_is_Some_2 accepted i ltac:(lia)) as [a Ha].
  destruct (lookup_lt_is_Some_2 terminal i ltac:(lia)) as [t Ht]. exists a, t. split; [done|].
  apply list_elem_of_lookup. exists i. unfold resolve_rows. rewrite list_lookup_imap.
  assert (zip (zip (zip lanes accepted) terminal) cancelled !! i = Some (((lane, a), t), false)) as ->; [|done].
  apply lookup_zip_Some. split; [|done]. apply lookup_zip_Some. split; [|done]. by apply lookup_zip_Some.
Qed.

(** The tokens that a row commits, as the round showed them. *)
Lemma committed_tokens p lanes round p1 i lane a t : decoded p lanes round p1 -> lanes !! i = Some lane ->
  0 < a <= produced (pending (requests p1 !!! lane)) -> a <= width ->
  round_count round i = Some (produced (pending (requests p1 !!! lane))) /\
  (speculative_backend = NoSpeculation ->
     ledger (sequences p1 !!! lane) = ledger (sequences p !!! lane) ++ take (Z.to_nat a) (round_row round i)) /\
  (speculative_backend <> NoSpeculation -> ledger (sequences p1 !!! lane) = ledger (sequences p !!! lane) /\
     row_tokens (host_egress p1) (rr_row (mkResolve i lane a t false)) a = take (Z.to_nat a) (round_row round i)).
Proof.
  intros (_ & _ & Hround & Hdec) Hi Ha Hw. destruct (Hdec i lane Hi) as [_ _ H3 H4]. cbn in H3. split; [done|]. split.
  - intros Hn. rewrite Hn in H4. destruct H4 as (Hstride & Hcounts & token & Htok & Hl). cbn in Hl. rewrite Hl.
    unfold round_count in H3. rewrite Hcounts in H3. injection H3 as H3. assert (a = 1) as -> by lia.
    unfold round_row. rewrite Hstride.
    replace (i * Z.to_nat 1)%nat with i by lia. by erewrite drop_S.
  - intros Hn. rewrite (Hround Hn). unfold round_row, speculative_round. cbn [rd_tokens row_stride].
    pose proof (lookup_lt_Some _ _ _ Hi). rewrite take_seq_row by lia. split; [|done]. by destruct speculative_backend.
Qed.

(** C5: Every program that the operations can reach from the program before its first request is well
    formed: each lane's sequence, KV bundle and request are in the state that the stage of its life cycle
    describes. *)
Theorem lanes_invariant p0 p : reachable p0 p -> lanes_ok p.
Proof.
  intros [H0 H]. apply initial_ok in H0. induction H as [p|p1 p2 p3 Hs _ IH]; [done|]. apply IH. by eapply step_ok.
Qed.



(** C6: What a batch keeps of a round is what the round showed: when a decoded batch is resolved, the ledger
    of a lane that is not cancelled grows by the first accepted tokens of its row, of which there is at
    least one and no more than the row has. *)
Theorem round_committed lanes budgets accepted terminal cancelled p round p1 p2 i lane :
  lanes_ok p -> Forall (Z.le 0) accepted -> decode_batch lanes budgets p = (Ok round, p1) ->
  resolve_pending_batch lanes accepted terminal cancelled p1 = (Ok tt, p2) ->
  lanes !! i = Some lane -> cancelled !! i = Some false ->
  exists a n, accepted !! i = Some a /\ round_count round i = Some n /\ 0 < a <= n /\
    ledger (sequences p2 !!! lane) = ledger (sequences p !!! lane) ++ take (Z.to_nat a) (round_row round i).
Proof.
  intros Hok Ha Hdec Hres Hl Hc. pose proof (wp_elim _ _ _ _ _ _ (wp_decode lanes budgets p Hok) Hdec) as Hd. cbv beta in Hd.
  pose proof (wp_elim _ _ _ _ _ _ (wp_perform (OpDecode lanes budgets) p Hok I)
    ltac:(unfold perform, mbind_; rewrite Hdec; reflexivity)) as [_ Hok1].
  pose proof (proj1 (proj2 Hd)) as Hdist.
  pose proof (wp_elim _ _ _ _ _ _ (wp_resolve_batch lanes accepted terminal cancelled p1 Hok1 Hdist Ha) Hres) as (_ & L1 & L2 & L3 & Hr).
  destruct (committed_row _ _ _ _ _ _ Hl Hc L1 L2) as (a & t & Hai & Hin). destruct (Hr _ Hin) as (_ & Hlg & Hpos & Hw). cbn in Hlg, Hpos, Hw.
  destruct (committed_tokens p lanes round p1 i lane a t Hd Hl Hpos Hw) as (Hn & H1 & H2).
  exists a, (produced (pending (requests p1 !!! lane))). split_and!; [done|done|lia|lia|]. rewrite Hlg. unfold commit_tokens.
  destruct (decide (speculative_backend = NoSpeculation)) as [Hs|Hs].
  - rewrite Hs, app_nil_r. by apply H1.
  - destruct (H2 Hs) as [-> Ht]. rewrite <- Ht. by destruct speculative_backend.
Qed.
End Theorems.

(** ** The sample program *)

#[local] Existing Instances sample_config sample_device sample_config_laws sample_device_laws.

Lemma sample_initial : initial sample_program.
Proof.
  constructor; [exact demo_initial| |done|done..].
  eexists. split; [by vm_compute|]. split; by vm_compute.
Qed.

Definition sample_start : Operation := OpStart 0 sample_prompt_text sample_plan (mkTransient 0 0 0).
Lemma sample_admissible : admissible sample_start sample_program.
Proof.
  split; [by apply sample_prepared|]. exists sample_options, sample_base_plan.
  split; vm_compute; reflexivity.
Qed.

(** The program after some operations. *)
Definition after (ops : list Operation) : Program := foldl (fun p op => (perform op p).2) sample_program ops.
Definition sample_prefilled : Program := after [sample_start].
Definition sample_active : Program := after [sample_start; OpAdvance 0; OpResolvePrefill 0 false].

Lemma sample_reaches ops p : reachable sample_program p ->
  (fix go ops p := match ops with [] => True | op :: ops' => admissible op p /\ go ops' (perform op p).2 end) ops p ->
  reachable sample_program (foldl (fun p op => (perform op p).2) p ops).
Proof.
  revert p. induction ops as [|op ops IH]; intros p H; [done|]. intros [Ha Hr]. apply IH; [|done].
  destruct H as [H0 H]. split; [done|]. eapply rtc_r; [exact H|]. by exists op.
Qed.
Lemma sample_start_reached : reachable sample_program sample_program.
Proof. split; [exact sample_initial|apply rtc_refl]. Qed.

Lemma lanes_invariant_witness :
  reachable sample_program sample_active /\ lifecycle (requests sample_active !!! 0%nat) = Active /\ lanes_ok sample_active.
Proof.
  assert (H : reachable sample_program sample_active).
  { apply (sample_reaches [sample_start; OpAdvance 0; OpResolvePrefill 0 false]); [exact sample_start_reached|].
    split; [exact sample_admissible|done]. }
  split; [exact H|]. split; [vm_compute; reflexivity|]. exact (lanes_invariant _ _ H).
Defined.

Lemma after_ok ops op : lanes_ok (after ops) -> admissible op (after ops) -> lanes_ok (after (ops ++ [op])).
Proof. intros Hok Ha. unfold after. rewrite foldl_app. cbn. eapply step_ok; [exact Hok|]. by exists op. Qed.
Lemma sample_prefilled_ok : lanes_ok (after [sample_start]).
Proof. apply (after_ok [] sample_start); [by apply initial_ok, sample_initial|exact sample_admissible]. Qed.
Lemma sample_active_ok : lanes_ok sample_active.
Proof.
  unfold sample_active.
  apply (after_ok [sample_start; OpAdvance 0] (OpResolvePrefill 0 false)); [|exact I].
  apply (after_ok [sample_start] (OpAdvance 0)); [exact sample_prefilled_ok|exact I].
Qed.



Definition sample_decoded : Program := (decode_batch [0%nat] [3] sample_active).2.
Definition sample_round : BatchedGeneratedRound :=
  match (decode_batch [0%nat] [3] sample_active).1 with Ok round => round | Err _ => mkRound [] [] 1 end.
Definition sample_resolved : Program := (resolve_pending_batch [0%nat] [1] [true] [false] sample_decoded).2.

Lemma round_committed_witness :
  ledger (sequences sample_resolved !!! 0%nat) = ledger (sequences sample_active !!! 0%nat) ++ take 1 (round_row sample_round 0) /\
  round_row sample_round 0 = [8] /\ lifecycle (requests sample_resolved !!! 0%nat) = Complete.
Proof.
  split; [|split; vm_compute; reflexivity].
  destruct (round_committed [0%nat] [3] [1] [true] [false] sample_active sample_round sample_decoded sample_resolved 0 0) as (a & n & Ha & _ & _ & H).
  - exact sample_active_ok.
  - by repeat constructor.
  - vm_compute; reflexivity.
  - vm_compute; reflexivity.
  - reflexivity.
  - reflexivity.
  - injection Ha as <-. exact H.
Defined.
