(* ===== verification/Executor.v ===== *)
(** * The concurrent executor: [runtime/engine/concurrent_executor.h]

    One worker thread owns the lanes of the target; client threads submit requests, cancel them
    and collect their results.  Requests are shared objects ([ex_requests], by id); the queue and
    the slots hold ids.  Every method is a computation on the executor's state; what other threads
    and the clock do while the worker runs is the [Environment].

    Not modelled: locks and condition variables (the critical sections of the worker run between
    the client operations), timings and speculation statistics. *)
From S2P Require Import Prelude Admission Capacity Contract.
#[local] Open Scope Z_scope.

Section Executor.
Context `{TG : Target, OS : OutputSession, EV : Environment}.

(** ** State *)

Record GenerationResult : Type := mkResult {
  generated_token_ids : list Z;
  result_content : list Z;
  result_reasoning : list Z;
  result_finish_reason : FinishReason;
  result_reused_prompt_tokens : Z;
}.

Record Request : Type := mkRequest {
  prompt : option tg_prompt;
  output : os_state;
  options : tg_options;
  deadline : Z;
  first_token : option Z;
  budget : option GenerationBudget;
  begin_ : option BeginSummary;
  generated : list Z;
  generated_reserve : Z;               (**r [generated.reserve] *)
  content : list Z;
  reasoning : list Z;
  lane : option nat;
  cancelled : bool;
  decode_ready : bool;
  base_plan : option tg_base_plan;
  lane_plans : list (option tg_plan);
  req_plan_versions : list Z;
  admission_resources : AdmissionResources;
  remaining_service_work : Z;
  rq_epoch : Z;
  rq_class : BackfillClass;
  events : list OutputDelta;
  rq_result : option GenerationResult;
  error : option exn;
  done : bool;
  consumer_released : bool;
  capacity_released : bool;
}.

Record RuntimeStats : Set := mkStats {
  computed_prefill_tokens : Z; committed_decode_tokens : Z;
  decode_rounds : Z; decode_row_rounds : Z;
  running_requests : Z; prefilling_requests : Z; decode_ready_requests : Z; waiting_requests : Z;
}.

Record Exec : Type := mkExec {
  program : tg_state;
  request_memory : RequestMemory;
  max_concurrency : nat;
  max_outstanding : Z;
  pending_timeout : Z;
  admission_capacity : AdmissionResources;
  ex_requests : gmap Z Request;
  pending : list Z;
  outstanding : Z;
  in_flight : Z;                       (**r submissions between their two critical sections *)
  next_request_id : Z;
  slots : list (option Z);
  prefill_lane : option nat;
  lane_plan_versions : list Z;
  protection : option AdmissionProtection;
  next_protection_epoch : Z;
  cumulative_stats : RuntimeStats;
  published_stats : RuntimeStats;
  stopping : bool;
  failed : bool;
  worker_done : bool;
  previous_unit_was_decode : bool;
  tick : nat;
}.

(** Field updates. *)
Definition set_prompt v (x : Request) : Request :=
  mkRequest v (output x) (options x) (deadline x) (first_token x) (budget x) (begin_ x)
    (generated x) (generated_reserve x) (content x) (reasoning x) (lane x) (cancelled x)
    (decode_ready x) (base_plan x) (lane_plans x) (req_plan_versions x) (admission_resources x)
    (remaining_service_work x) (rq_epoch x) (rq_class x) (events x) (rq_result x) (error x)
    (done x) (consumer_released x) (capacity_released x).
Definition set_output v (x : Request) : Request :=
  mkRequest (prompt x) v (options x) (deadline x) (first_token x) (budget x) (begin_ x)
    (generated x) (generated_reserve x) (content x) (reasoning x) (lane x) (cancelled x)
    (decode_ready x) (base_plan x) (lane_plans x) (req_plan_versions x) (admission_resources x)
    (remaining_service_work x) (rq_epoch x) (rq_class x) (events x) (rq_result x) (error x)
    (done x) (consumer_released x) (capacity_released x).
Definition set_first_token v (x : Request) : Request :=
  mkRequest (prompt x) (output x) (options x) (deadline x) v (budget x) (begin_ x) (generated x)
    (generated_reserve x) (content x) (reasoning x) (lane x) (cancelled x) (decode_ready x)
    (base_plan x) (lane_plans x) (req_plan_versions x) (admission_resources x)
    (remaining_service_work x) (rq_epoch x) (rq_class x) (events x) (rq_result x) (error x)
    (done x) (consumer_released x) (capacity_released x).
Definition set_budget v (x : Request) : Request :=
  mkRequest (prompt x) (output x) (options x) (deadline x) (first_token x) v (begin_ x)
    (generated x) (generated_reserve x) (content x) (reasoning x) (lane x) (cancelled x)
    (decode_ready x) (base_plan x) (lane_plans x) (req_plan_versions x) (admission_resources x)
    (remaining_service_work x) (rq_epoch x) (rq_class x) (events x) (rq_result x) (error x)
    (done x) (consumer_released x) (capacity_released x).
Definition set_begin v (x : Request) : Request :=
  mkRequest (prompt x) (output x) (options x) (deadline x) (first_token x) (budget x) v
    (generated x) (generated_reserve x) (content x) (reasoning x) (lane x) (cancelled x)
    (decode_ready x) (base_plan x) (lane_plans x) (req_plan_versions x) (admission_resources x)
    (remaining_service_work x) (rq_epoch x) (rq_class x) (events x) (rq_result x) (error x)
    (done x) (consumer_released x) (capacity_released x).
Definition set_generated v (x : Request) : Request :=
  mkRequest (prompt x) (output x) (options x) (deadline x) (first_token x) (budget x) (begin_ x)
    v (generated_reserve x) (content x) (reasoning x) (lane x) (cancelled x) (decode_ready x)
    (base_plan x) (lane_plans x) (req_plan_versions x) (admission_resources x)
    (remaining_service_work x) (rq_epoch x) (rq_class x) (events x) (rq_result x) (error x)
    (done x) (consumer_released x) (capacity_released x).
Definition set_generated_reserve v (x : Request) : Request :=
  mkRequest (prompt x) (output x) (options x) (deadline x) (first_token x) (budget x) (begin_ x)
    (generated x) v (content x) (reasoning x) (lane x) (cancelled x) (decode_ready x)
    (base_plan x) (lane_plans x) (req_plan_versions x) (admission_resources x)
    (remaining_service_work x) (rq_epoch x) (rq_class x) (events x) (rq_result x) (error x)
    (done x) (consumer_released x) (capacity_released x).
Definition set_content v (x : Request) : Request :=
  mkRequest (prompt x) (output x) (options x) (deadline x) (first_token x) (budget x) (begin_ x)
    (generated x) (generated_reserve x) v (reasoning x) (lane x) (cancelled x) (decode_ready x)
    (base_plan x) (lane_plans x) (req_plan_versions x) (admission_resources x)
    (remaining_service_work x) (rq_epoch x) (rq_class x) (events x) (rq_result x) (error x)
    (done x) (consumer_released x) (capacity_released x).
Definition set_reasoning v (x : Request) : Request :=
  mkRequest (prompt x) (output x) (options x) (deadline x) (first_token x) (budget x) (begin_ x)
    (generated x) (generated_reserve x) (content x) v (lane x) (cancelled x) (decode_ready x)
    (base_plan x) (lane_plans x) (req_plan_versions x) (admission_resources x)
    (remaining_service_work x) (rq_epoch x) (rq_class x) (events x) (rq_result x) (error x)
    (done x) (consumer_released x) (capacity_released x).
Definition set_lane v (x : Request) : Request :=
  mkRequest (prompt x) (output x) (options x) (deadline x) (first_token x) (budget x) (begin_ x)
    (generated x) (generated_reserve x) (content x) (reasoning x) v (cancelled x)
    (decode_ready x) (base_plan x) (lane_plans x) (req_plan_versions x) (admission_resources x)
    (remaining_service_work x) (rq_epoch x) (rq_class x) (events x) (rq_result x) (error x)
    (done x) (consumer_released x) (capacity_released x).
Definition set_cancelled v (x : Request) : Request :=
  mkRequest (prompt x) (output x) (options x) (deadline x) (first_token x) (budget x) (begin_ x)
    (generated x) (generated_reserve x) (content x) (reasoning x) (lane x) v (decode_ready x)
    (base_plan x) (lane_plans x) (req_plan_versions x) (admission_resources x)
    (remaining_service_work x) (rq_epoch x) (rq_class x) (events x) (rq_result x) (error x)
    (done x) (consumer_released x) (capacity_released x).
Definition set_decode_ready v (x : Request) : Request :=
  mkRequest (prompt x) (output x) (options x) (deadline x) (first_token x) (budget x) (begin_ x)
    (generated x) (generated_reserve x) (content x) (reasoning x) (lane x) (cancelled x) v
    (base_plan x) (lane_plans x) (req_plan_versions x) (admission_resources x)
    (remaining_service_work x) (rq_epoch x) (rq_class x) (events x) (rq_result x) (error x)
    (done x) (consumer_released x) (capacity_released x).
Definition set_base_plan v (x : Request) : Request :=
  mkRequest (prompt x) (output x) (options x) (deadline x) (first_token x) (budget x) (begin_ x)
    (generated x) (generated_reserve x) (content x) (reasoning x) (lane x) (cancelled x)
    (decode_ready x) v (lane_plans x) (req_plan_versions x) (admission_resources x)
    (remaining_service_work x) (rq_epoch x) (rq_class x) (events x) (rq_result x) (error x)
    (done x) (consumer_released x) (capacity_released x).
Definition set_lane_plans v (x : Request) : Request :=
  mkRequest (prompt x) (output x) (options x) (deadline x) (first_token x) (budget x) (begin_ x)
    (generated x) (generated_reserve x) (content x) (reasoning x) (lane x) (cancelled x)
    (decode_ready x) (base_plan x) v (req_plan_versions x) (admission_resources x)
    (remaining_service_work x) (rq_epoch x) (rq_class x) (events x) (rq_result x) (error x)
    (done x) (consumer_released x) (capacity_released x).
Definition set_req_plan_versions v (x : Request) : Request :=
  mkRequest (prompt x) (output x) (options x) (deadline x) (first_token x) (budget x) (begin_ x)
    (generated x) (generated_reserve x) (content x) (reasoning x) (lane x) (cancelled x)
    (decode_ready x) (base_plan x) (lane_plans x) v (admission_resources x)
    (remaining_service_work x) (rq_epoch x) (rq_class x) (events x) (rq_result x) (error x)
    (done x) (consumer_released x) (capacity_released x).
Definition set_admission_resources v (x : Request) : Request :=
  mkRequest (prompt x) (output x) (options x) (deadline x) (first_token x) (budget x) (begin_ x)
    (generated x) (generated_reserve x) (content x) (reasoning x) (lane x) (cancelled x)
    (decode_ready x) (base_plan x) (lane_plans x) (req_plan_versions x) v
    (remaining_service_work x) (rq_epoch x) (rq_class x) (events x) (rq_result x) (error x)
    (done x) (consumer_released x) (capacity_released x).
Definition set_remaining_service_work v (x : Request) : Request :=
  mkRequest (prompt x) (output x) (options x) (deadline x) (first_token x) (budget x) (begin_ x)
    (generated x) (generated_reserve x) (content x) (reasoning x) (lane x) (cancelled x)
    (decode_ready x) (base_plan x) (lane_plans x) (req_plan_versions x) (admission_resources x)
    v (rq_epoch x) (rq_class x) (events x) (rq_result x) (error x) (done x)
    (consumer_released x) (capacity_released x).
Definition set_rq_epoch v (x : Request) : Request :=
  mkRequest (prompt x) (output x) (options x) (deadline x) (first_token x) (budget x) (begin_ x)
    (generated x) (generated_reserve x) (content x) (reasoning x) (lane x) (cancelled x)
    (decode_ready x) (base_plan x) (lane_plans x) (req_plan_versions x) (admission_resources x)
    (remaining_service_work x) v (rq_class x) (events x) (rq_result x) (error x) (done x)
    (consumer_released x) (capacity_released x).
Definition set_rq_class v (x : Request) : Request :=
  mkRequest (prompt x) (output x) (options x) (deadline x) (first_token x) (budget x) (begin_ x)
    (generated x) (generated_reserve x) (content x) (reasoning x) (lane x) (cancelled x)
    (decode_ready x) (base_plan x) (lane_plans x) (req_plan_versions x) (admission_resources x)
    (remaining_service_work x) (rq_epoch x) v (events x) (rq_result x) (error x) (done x)
    (consumer_released x) (capacity_released x).
Definition set_events v (x : Request) : Request :=
  mkRequest (prompt x) (output x) (options x) (deadline x) (first_token x) (budget x) (begin_ x)
    (generated x) (generated_reserve x) (content x) (reasoning x) (lane x) (cancelled x)
    (decode_ready x) (base_plan x) (lane_plans x) (req_plan_versions x) (admission_resources x)
    (remaining_service_work x) (rq_epoch x) (rq_class x) v (rq_result x) (error x) (done x)
    (consumer_released x) (capacity_released x).
Definition set_rq_result v (x : Request) : Request :=
  mkRequest (prompt x) (output x) (options x) (deadline x) (first_token x) (budget x) (begin_ x)
    (generated x) (generated_reserve x) (content x) (reasoning x) (lane x) (cancelled x)
    (decode_ready x) (base_plan x) (lane_plans x) (req_plan_versions x) (admission_resources x)
    (remaining_service_work x) (rq_epoch x) (rq_class x) (events x) v (error x) (done x)
    (consumer_released x) (capacity_released x).
Definition set_error v (x : Request) : Request :=
  mkRequest (prompt x) (output x) (options x) (deadline x) (first_token x) (budget x) (begin_ x)
    (generated x) (generated_reserve x) (content x) (reasoning x) (lane x) (cancelled x)
    (decode_ready x) (base_plan x) (lane_plans x) (req_plan_versions x) (admission_resources x)
    (remaining_service_work x) (rq_epoch x) (rq_class x) (events x) (rq_result x) v (done x)
    (consumer_released x) (capacity_released x).
Definition set_done v (x : Request) : Request :=
  mkRequest (prompt x) (output x) (options x) (deadline x) (first_token x) (budget x) (begin_ x)
    (generated x) (generated_reserve x) (content x) (reasoning x) (lane x) (cancelled x)
    (decode_ready x) (base_plan x) (lane_plans x) (req_plan_versions x) (admission_resources x)
    (remaining_service_work x) (rq_epoch x) (rq_class x) (events x) (rq_result x) (error x) v
    (consumer_released x) (capacity_released x).
Definition set_consumer_released v (x : Request) : Request :=
  mkRequest (prompt x) (output x) (options x) (deadline x) (first_token x) (budget x) (begin_ x)
    (generated x) (generated_reserve x) (content x) (reasoning x) (lane x) (cancelled x)
    (decode_ready x) (base_plan x) (lane_plans x) (req_plan_versions x) (admission_resources x)
    (remaining_service_work x) (rq_epoch x) (rq_class x) (events x) (rq_result x) (error x)
    (done x) v (capacity_released x).
Definition set_capacity_released v (x : Request) : Request :=
  mkRequest (prompt x) (output x) (options x) (deadline x) (first_token x) (budget x) (begin_ x)
    (generated x) (generated_reserve x) (content x) (reasoning x) (lane x) (cancelled x)
    (decode_ready x) (base_plan x) (lane_plans x) (req_plan_versions x) (admission_resources x)
    (remaining_service_work x) (rq_epoch x) (rq_class x) (events x) (rq_result x) (error x)
    (done x) (consumer_released x) v.

Definition ex_set_program v (x : Exec) : Exec :=
  mkExec v (request_memory x) (max_concurrency x) (max_outstanding x) (pending_timeout x)
    (admission_capacity x) (ex_requests x) (pending x) (outstanding x) (in_flight x)
    (next_request_id x) (slots x) (prefill_lane x) (lane_plan_versions x) (protection x)
    (next_protection_epoch x) (cumulative_stats x) (published_stats x) (stopping x) (failed x)
    (worker_done x) (previous_unit_was_decode x) (tick x).
Definition ex_set_request_memory v (x : Exec) : Exec :=
  mkExec (program x) v (max_concurrency x) (max_outstanding x) (pending_timeout x)
    (admission_capacity x) (ex_requests x) (pending x) (outstanding x) (in_flight x)
    (next_request_id x) (slots x) (prefill_lane x) (lane_plan_versions x) (protection x)
    (next_protection_epoch x) (cumulative_stats x) (published_stats x) (stopping x) (failed x)
    (worker_done x) (previous_unit_was_decode x) (tick x).
Definition ex_set_ex_requests v (x : Exec) : Exec :=
  mkExec (program x) (request_memory x) (max_concurrency x) (max_outstanding x)
    (pending_timeout x) (admission_capacity x) v (pending x) (outstanding x) (in_flight x)
    (next_request_id x) (slots x) (prefill_lane x) (lane_plan_versions x) (protection x)
    (next_protection_epoch x) (cumulative_stats x) (published_stats x) (stopping x) (failed x)
    (worker_done x) (previous_unit_was_decode x) (tick x).
Definition ex_set_pending v (x : Exec) : Exec :=
  mkExec (program x) (request_memory x) (max_concurrency x) (max_outstanding x)
    (pending_timeout x) (admission_capacity x) (ex_requests x) v (outstanding x) (in_flight x)
    (next_request_id x) (slots x) (prefill_lane x) (lane_plan_versions x) (protection x)
    (next_protection_epoch x) (cumulative_stats x) (published_stats x) (stopping x) (failed x)
    (worker_done x) (previous_unit_was_decode x) (tick x).
Definition ex_set_outstanding v (x : Exec) : Exec :=
  mkExec (program x) (request_memory x) (max_concurrency x) (max_outstanding x)
    (pending_timeout x) (admission_capacity x) (ex_requests x) (pending x) v (in_flight x)
    (next_request_id x) (slots x) (prefill_lane x) (lane_plan_versions x) (protection x)
    (next_protection_epoch x) (cumulative_stats x) (published_stats x) (stopping x) (failed x)
    (worker_done x) (previous_unit_was_decode x) (tick x).
Definition ex_set_in_flight v (x : Exec) : Exec :=
  mkExec (program x) (request_memory x) (max_concurrency x) (max_outstanding x)
    (pending_timeout x) (admission_capacity x) (ex_requests x) (pending x) (outstanding x) v
    (next_request_id x) (slots x) (prefill_lane x) (lane_plan_versions x) (protection x)
    (next_protection_epoch x) (cumulative_stats x) (published_stats x) (stopping x) (failed x)
    (worker_done x) (previous_unit_was_decode x) (tick x).
Definition ex_set_next_request_id v (x : Exec) : Exec :=
  mkExec (program x) (request_memory x) (max_concurrency x) (max_outstanding x)
    (pending_timeout x) (admission_capacity x) (ex_requests x) (pending x) (outstanding x)
    (in_flight x) v (slots x) (prefill_lane x) (lane_plan_versions x) (protection x)
    (next_protection_epoch x) (cumulative_stats x) (published_stats x) (stopping x) (failed x)
    (worker_done x) (previous_unit_was_decode x) (tick x).
Definition ex_set_slots v (x : Exec) : Exec :=
  mkExec (program x) (request_memory x) (max_concurrency x) (max_outstanding x)
    (pending_timeout x) (admission_capacity x) (ex_requests x) (pending x) (outstanding x)
    (in_flight x) (next_request_id x) v (prefill_lane x) (lane_plan_versions x) (protection x)
    (next_protection_epoch x) (cumulative_stats x) (published_stats x) (stopping x) (failed x)
    (worker_done x) (previous_unit_was_decode x) (tick x).
Definition ex_set_prefill_lane v (x : Exec) : Exec :=
  mkExec (program x) (request_memory x) (max_concurrency x) (max_outstanding x)
    (pending_timeout x) (admission_capacity x) (ex_requests x) (pending x) (outstanding x)
    (in_flight x) (next_request_id x) (slots x) v (lane_plan_versions x) (protection x)
    (next_protection_epoch x) (cumulative_stats x) (published_stats x) (stopping x) (failed x)
    (worker_done x) (previous_unit_was_decode x) (tick x).
Definition ex_set_lane_plan_versions v (x : Exec) : Exec :=
  mkExec (program x) (request_memory x) (max_concurrency x) (max_outstanding x)
    (pending_timeout x) (admission_capacity x) (ex_requests x) (pending x) (outstanding x)
    (in_flight x) (next_request_id x) (slots x) (prefill_lane x) v (protection x)
    (next_protection_epoch x) (cumulative_stats x) (published_stats x) (stopping x) (failed x)
    (worker_done x) (previous_unit_was_decode x) (tick x).
Definition ex_set_protection v (x : Exec) : Exec :=
  mkExec (program x) (request_memory x) (max_concurrency x) (max_outstanding x)
    (pending_timeout x) (admission_capacity x) (ex_requests x) (pending x) (outstanding x)
    (in_flight x) (next_request_id x) (slots x) (prefill_lane x) (lane_plan_versions x) v
    (next_protection_epoch x) (cumulative_stats x) (published_stats x) (stopping x) (failed x)
    (worker_done x) (previous_unit_was_decode x) (tick x).
Definition ex_set_next_protection_epoch v (x : Exec) : Exec :=
  mkExec (program x) (request_memory x) (max_concurrency x) (max_outstanding x)
    (pending_timeout x) (admission_capacity x) (ex_requests x) (pending x) (outstanding x)
    (in_flight x) (next_request_id x) (slots x) (prefill_lane x) (lane_plan_versions x)
    (protection x) v (cumulative_stats x) (published_stats x) (stopping x) (failed x)
    (worker_done x) (previous_unit_was_decode x) (tick x).
Definition ex_set_cumulative_stats v (x : Exec) : Exec :=
  mkExec (program x) (request_memory x) (max_concurrency x) (max_outstanding x)
    (pending_timeout x) (admission_capacity x) (ex_requests x) (pending x) (outstanding x)
    (in_flight x) (next_request_id x) (slots x) (prefill_lane x) (lane_plan_versions x)
    (protection x) (next_protection_epoch x) v (published_stats x) (stopping x) (failed x)
    (worker_done x) (previous_unit_was_decode x) (tick x).
Definition ex_set_published_stats v (x : Exec) : Exec :=
  mkExec (program x) (request_memory x) (max_concurrency x) (max_outstanding x)
    (pending_timeout x) (admission_capacity x) (ex_requests x) (pending x) (outstanding x)
    (in_flight x) (next_request_id x) (slots x) (prefill_lane x) (lane_plan_versions x)
    (protection x) (next_protection_epoch x) (cumulative_stats x) v (stopping x) (failed x)
    (worker_done x) (previous_unit_was_decode x) (tick x).
Definition ex_set_stopping v (x : Exec) : Exec :=
  mkExec (program x) (request_memory x) (max_concurrency x) (max_outstanding x)
    (pending_timeout x) (admission_capacity x) (ex_requests x) (pending x) (outstanding x)
    (in_flight x) (next_request_id x) (slots x) (prefill_lane x) (lane_plan_versions x)
    (protection x) (next_protection_epoch x) (cumulative_stats x) (published_stats x) v
    (failed x) (worker_done x) (previous_unit_was_decode x) (tick x).
Definition ex_set_failed v (x : Exec) : Exec :=
  mkExec (program x) (request_memory x) (max_concurrency x) (max_outstanding x)
    (pending_timeout x) (admission_capacity x) (ex_requests x) (pending x) (outstanding x)
    (in_flight x) (next_request_id x) (slots x) (prefill_lane x) (lane_plan_versions x)
    (protection x) (next_protection_epoch x) (cumulative_stats x) (published_stats x)
    (stopping x) v (worker_done x) (previous_unit_was_decode x) (tick x).
Definition ex_set_worker_done v (x : Exec) : Exec :=
  mkExec (program x) (request_memory x) (max_concurrency x) (max_outstanding x)
    (pending_timeout x) (admission_capacity x) (ex_requests x) (pending x) (outstanding x)
    (in_flight x) (next_request_id x) (slots x) (prefill_lane x) (lane_plan_versions x)
    (protection x) (next_protection_epoch x) (cumulative_stats x) (published_stats x)
    (stopping x) (failed x) v (previous_unit_was_decode x) (tick x).
Definition ex_set_previous_unit_was_decode v (x : Exec) : Exec :=
  mkExec (program x) (request_memory x) (max_concurrency x) (max_outstanding x)
    (pending_timeout x) (admission_capacity x) (ex_requests x) (pending x) (outstanding x)
    (in_flight x) (next_request_id x) (slots x) (prefill_lane x) (lane_plan_versions x)
    (protection x) (next_protection_epoch x) (cumulative_stats x) (published_stats x)
    (stopping x) (failed x) (worker_done x) v (tick x).
Definition ex_set_tick v (x : Exec) : Exec :=
  mkExec (program x) (request_memory x) (max_concurrency x) (max_outstanding x)
    (pending_timeout x) (admission_capacity x) (ex_requests x) (pending x) (outstanding x)
    (in_flight x) (next_request_id x) (slots x) (prefill_lane x) (lane_plan_versions x)
    (protection x) (next_protection_epoch x) (cumulative_stats x) (published_stats x)
    (stopping x) (failed x) (worker_done x) (previous_unit_was_decode x) v.

(** ** Access *)

Definition now_ : M Exec Z := fun s => (Ok (env_now (tick s)), ex_set_tick (S (tick s)) s).

Definition get_req (id : Z) : M Exec Request := fun s =>
  match ex_requests s !! id with Some r => (Ok r, s) | None => (Err Abort_, s) end.
Definition mod_req (id : Z) (f : Request -> Request) : M Exec unit :=
  let! r := get_req id in mmodify (fun s => ex_set_ex_requests (<[id := f r]> (ex_requests s)) s).

(** [request->cancelled.load()]: what this or another thread stored. *)
Definition load_cancelled (id : Z) : M Exec bool :=
  let! t := mgets tick in
  do! mmodify (ex_set_tick (S t));
  let! r := get_req id in
  let c := cancelled r || env_cancelled t id in
  do! mod_req id (set_cancelled c);
  mret_ c.

Definition on_program {A} (m : M tg_state A) : M Exec A := fun s =>
  let '(r, p) := m (program s) in (r, ex_set_program p s).
Definition on_output {A} (id : Z) (m : M os_state A) : M Exec A := fun s =>
  match ex_requests s !! id with
  | Some r => let '(x, o) := m (output r) in
              (x, ex_set_ex_requests (<[id := set_output o r]> (ex_requests s)) s)
  | None => (Err Abort_, s)
  end.
Definition abort_program_lane (l : nat) : M Exec unit :=
  mmodify (fun s => ex_set_program (abort_lane l (program s)) s).
Definition memory_deactivate : M Exec unit :=
  mmodify (fun s => ex_set_request_memory (rm_deactivate (request_memory s)) s).
Definition memory_activate (bytes alignment : Z) : M Exec unit := fun s =>
  let '(r, m) := rm_activate bytes alignment (request_memory s) in (r, ex_set_request_memory m s).

Definition slot_at (s : Exec) (l : nat) : option Z := default None (slots s !! l).
(** The lanes [0 .. max_concurrency_ - 1]. *)
Definition lanes_of (s : Exec) : list nat := seq 0 (max_concurrency s).
Definition set_slot (l : nat) (v : option Z) : M Exec unit :=
  mmodify (fun s => ex_set_slots (<[l := v]> (slots s)) s).
Definition is_prefill_lane (l : nat) (s : Exec) : bool := bool_decide (prefill_lane s = Some l).

(** ** Statistics *)

Definition count_lanes (s : Exec) (f : Request -> bool) : Z :=
  Z.of_nat (length (List.filter (fun l => match slot_at s l ≫= fun id => ex_requests s !! id with
                                          | Some r => f r | None => false end) (lanes_of s))).

(** [publish_runtime_stats] *)
Definition publish_runtime_stats : M Exec unit := mmodify (fun s =>
  let c := cumulative_stats s in
  ex_set_published_stats
    (mkStats (computed_prefill_tokens c) (committed_decode_tokens c) (decode_rounds c)
       (decode_row_rounds c) (count_lanes s (fun _ => true))
       (if is_some (prefill_lane s) then 1 else 0) (count_lanes s decode_ready)
       (Z.of_nat (length (pending s)))) s).

Definition add_prefill_tokens (n : Z) : M Exec unit := mmodify (fun s =>
  let c := cumulative_stats s in
  ex_set_cumulative_stats
    (mkStats (u64 (computed_prefill_tokens c + n)) (committed_decode_tokens c) (decode_rounds c)
       (decode_row_rounds c) (running_requests c) (prefilling_requests c) (decode_ready_requests c)
       (waiting_requests c)) s).
Definition add_decode_stats (rows committed : Z) : M Exec unit := mmodify (fun s =>
  let c := cumulative_stats s in
  ex_set_cumulative_stats
    (mkStats (computed_prefill_tokens c) (u64 (committed_decode_tokens c + committed))
       (u64 (decode_rounds c + 1)) (u64 (decode_row_rounds c + rows)) (running_requests c)
       (prefilling_requests c) (decode_ready_requests c) (waiting_requests c)) s).

(** ** Completion *)

(** [append_output] *)
Definition append_delta (r : Request) (d : OutputDelta) : Request :=
  set_events (events r ++ [d])
    match od_channel d with
    | Reasoning => set_reasoning (reasoning r ++ od_text d) r
    | Content => set_content (content r ++ od_text d) r
    end.
Definition append_output (id : Z) (out : list OutputDelta) : M Exec unit :=
  match out with
  | [] => mret_ tt
  | _ => mod_req id (fun r => foldl append_delta r out)
  end.

(** [release_reserved_capacity] *)
Definition release_reserved_capacity : M Exec unit := mmodify (fun s =>
  if outstanding s =? 0 then s else ex_set_outstanding (outstanding s - 1) s).

(** [release_consumer] *)
Definition release_consumer (id : Z) : M Exec unit :=
  let! r := get_req id in
  do! mod_req id (set_consumer_released true);
  if done r && negb (capacity_released r) then
    do! mod_req id (set_capacity_released true);
    release_reserved_capacity
  else mret_ tt.

(** [abandon_request] *)
Definition abandon_request (id : Z) : M Exec unit :=
  do! mod_req id (set_cancelled true);
  release_consumer id.

(** [mark_completed] *)
Definition mark_completed (id : Z) : M Exec bool :=
  let! r := get_req id in
  if consumer_released r && negb (capacity_released r) then
    do! mod_req id (set_capacity_released true);
    mret_ true
  else mret_ false.

(** [release_planning_state] *)
Definition release_planning_state (id : Z) : M Exec unit :=
  mod_req id (fun r => set_lane_plans (replicate kMaximumConcurrency None) (set_base_plan None r)).

(** [complete_error] *)
Definition complete_error (id : Z) (e : exn) : M Exec unit :=
  do! release_planning_state id;
  do! mod_req id (set_prompt None);
  let! r := get_req id in
  if done r then mret_ tt else
  do! mod_req id (fun r => set_done true (set_error (Some e) r));
  let! release := mark_completed id in
  mwhen release release_reserved_capacity.

(** [complete_success] *)
Definition complete_success (id : Z) (reason : FinishReason) : M Exec unit :=
  do! release_planning_state id;
  do! mod_req id (set_prompt None);
  let! r := get_req id in
  let result := mkResult (generated r) (content r) (reasoning r) reason
                  (match begin_ r with Some b => reused_prompt_tokens b | None => 0 end) in
  do! mod_req id (fun r => set_reasoning [] (set_content [] (set_generated [] r)));
  if done r then mret_ tt else
  do! mod_req id (fun r => set_done true (set_rq_result (Some result) r));
  let! release := mark_completed id in
  mwhen release release_reserved_capacity.

Definition commit_preview_of (id : Z) : M Exec (list OutputDelta) :=
  on_output id commit_preview.

(** [complete_cancelled] *)
Definition complete_cancelled (id : Z) : M Exec unit :=
  let! _ := on_output id (preview_terminal FR_Cancelled) in
  let! out := commit_preview_of id in
  do! append_output id out;
  complete_success id FR_Cancelled.

(** ** Rounds *)

(** [consume_service_work] *)
Definition consume_service_work (id work : Z) : M Exec unit :=
  let! r := get_req id in
  do! mthrow_if ((work =? 0) || (work >? remaining_service_work r)) LogicError;
  mod_req id (set_remaining_service_work (remaining_service_work r - work)).

Definition budget_of (id : Z) : M Exec GenerationBudget :=
  let! r := get_req id in mderef (budget r).
(** [request->budget->commit(tokens)] *)
Definition commit_budget (id tokens : Z) : M Exec unit :=
  let! b := budget_of id in
  let! b' := mlift (budget_commit tokens b) in
  mod_req id (set_budget (Some b')).

(** [resolve_round]; its [cancel_at_boundary] branch is unused by its only caller. *)
Definition resolve_round (id token : Z) (cancel_at_boundary : bool) : M Exec bool :=
  let! r0 := get_req id in
  let! l := mderef (lane r0) in
  if cancel_at_boundary then
    let! _ := on_output id (preview_terminal FR_Cancelled) in
    do! abort_program_lane l;
    let! out := commit_preview_of id in
    do! append_output id out;
    do! complete_success id FR_Cancelled;
    mret_ true
  else
    let! b := budget_of id in
    let! decision := on_output id (preview [token] (remaining_ b) (limit_reason_ b)) in
    do! mthrow_if (negb (accepted_tokens decision =? 1)) LogicError;
    do! mod_req id (fun r => set_generated (generated r ++ [token]) r);
    do! on_program (resolve_prefill_lane l (finished decision));
    do! commit_budget id 1;
    let! published := commit_preview_of id in
    let! r := get_req id in
    do! mwhen (negb (is_some (first_token r)))
          (let! t := now_ in mod_req id (set_first_token (Some t)));
    do! append_output id published;
    if finished decision then
      do! complete_success id (finish_reason decision); mret_ true
    else mret_ false.

(** [invalidate_lane_plans], [remove_completed_slot] *)
Definition invalidate_lane_plans (l : nat) : M Exec unit := mmodify (fun s =>
  ex_set_lane_plan_versions (<[l := u64 (lane_plan_versions s !!! l + 1)]> (lane_plan_versions s)) s).
Definition remove_completed_slot (l : nat) : M Exec unit :=
  do! set_slot l None;
  invalidate_lane_plans l.

(** [if (prefill_lane_ && *prefill_lane_ == lane) { deactivate; reset }] *)
Definition end_prefill (l : nat) : M Exec unit :=
  let! s := mget in
  mwhen (is_prefill_lane l s)
    (do! memory_deactivate; mmodify (ex_set_prefill_lane None)).

(** [snapshot_cancellations] *)
Definition snapshot_cancellations : M Exec (list bool) :=
  let! s := mget in
  mmapM (fun l => match slot_at s l with Some id => load_cancelled id | None => mret_ false end)
    (lanes_of s).

(** [cancel_active_requests] *)
Definition cancel_active_lane (lc : nat * bool) : M Exec bool :=
  let '(l, c) := lc in
  let! s := mget in
  match slot_at s l with
  | None => mret_ false
  | Some id =>
      if negb c then mret_ false else
      do! abort_program_lane l;
      do! end_prefill l;
      do! complete_cancelled id;
      do! remove_completed_slot l;
      mret_ true
  end.
Definition cancel_active_requests (cancelled_at_boundary : list bool) : M Exec unit :=
  let! s := mget in
  let! changed := mmapM cancel_active_lane (zip (lanes_of s) cancelled_at_boundary) in
  mwhen (existsb (fun c => c) changed) publish_runtime_stats.

(** The loop of [expire_pending_requests]: the cancelled, the expired and the kept requests. *)
Fixpoint expire_scan (now : Z) (ids : list Z) : M Exec (list Z * list Z * list Z) :=
  match ids with
  | [] => mret_ ([], [], [])
  | id :: ids' =>
      let! c := load_cancelled id in
      let! r := get_req id in
      let! rest := expire_scan now ids' in
      let '(cs, es, ks) := rest in
      mret_ (if c then (id :: cs, es, ks)
             else if now >=? deadline r then (cs, id :: es, ks) else (cs, es, id :: ks))
  end.

(** [expire_pending_requests] *)
Definition expire_pending_requests : M Exec bool :=
  let! now := now_ in
  let! ids := mgets pending in
  let! scan := expire_scan now ids in
  let '(cs, es, ks) := scan in
  do! mmodify (ex_set_pending ks);
  do! mmodify (fun s => match protection s with
                        | Some p => if existsb (Z.eqb (head_request_id p)) (cs ++ es)
                                    then ex_set_protection None s else s
                        | None => s
                        end);
  do! miter complete_cancelled cs;
  do! miter (fun id => complete_error id (RequestError QueueTimeout)) es;
  do! mwhen (negb (bool_decide (cs = []) && bool_decide (es = []))) publish_runtime_stats;
  mret_ (negb (bool_decide (ks = []))).

(** [build_round_membership]: the decode-ready lanes and their remaining budgets. *)
Definition build_round_membership : M Exec (list (nat * Z)) :=
  let! s := mget in
  let! rows := mmapM (fun l =>
    match slot_at s l with
    | None => mret_ []
    | Some id =>
        let! r := get_req id in
        if negb (decode_ready r) then mret_ [] else
        match budget r with
        | None => mthrow LogicError
        | Some b => mret_ [(l, remaining_ b)]
        end
    end) (lanes_of s) in
  mret_ (concat rows).

(** [active_admission_set] *)
Definition active_admission_set : M Exec (list ActiveAdmissionSnapshot) :=
  let! s := mget in
  let! rows := mmapM (fun l =>
    match slot_at s l with
    | None => mret_ []
    | Some id =>
        let! r := get_req id in
        do! mthrow_if ((active_lanes (admission_resources r) =? 0) || (remaining_service_work r =? 0))
              LogicError;
        mret_ [mkSnapshot id (admission_resources r) (remaining_service_work r) (rq_epoch r) (rq_class r)]
    end) (lanes_of s) in
  mret_ (concat rows).

(** ** Prefill *)

(** [resolve_prefill_step] *)
Definition resolve_prefill_step (id : Z) (step : PrefillStepResult) (cancel_at_boundary : bool)
  : M Exec unit :=
  do! add_prefill_tokens (processed_prompt_tokens step);
  do! consume_service_work id 1;
  let! r := get_req id in
  if cancel_at_boundary then
    match lane r with
    | None => mthrow LogicError
    | Some l =>
        do! end_prefill l;
        do! abort_program_lane l;
        do! complete_cancelled id;
        remove_completed_slot l
    end
  else if negb (complete step) then mret_ tt else
  match lane r with
  | None => mthrow LogicError
  | Some l =>
      do! end_prefill l;
      do! mod_req id (set_begin (Some (st_summary step)));
      match st_round step with
      | [token] =>
          let! completed := resolve_round id token false in
          if completed then remove_completed_slot l
          else mod_req id (set_decode_ready true)
      | _ => mthrow LogicError
      end
  end.

(** [run_prefill_step] *)
Definition run_prefill_step : M Exec unit :=
  let! s := mget in
  match prefill_lane s with
  | None => mthrow LogicError
  | Some l =>
      match slot_at s l with
      | None => mthrow LogicError
      | Some id =>
          let! r := get_req id in
          do! mthrow_if (decode_ready r) LogicError;
          let! step := on_program (advance_prefill_lane l) in
          let! cancel_at_boundary := load_cancelled id in
          do! resolve_prefill_step id step cancel_at_boundary;
          publish_runtime_stats
      end
  end.

(** ** Admission *)

Inductive AdmissionProgress : Set := AP_None | ControlProgress | RanGpuUnit.
Record LaneChoice : Set := mkChoice { ch_lane : nat; evict_retained : bool }.

(** [erase_pending] *)
Fixpoint erase_first (id : Z) (l : list Z) : list Z :=
  match l with
  | [] => []
  | x :: l' => if x =? id then l' else x :: erase_first id l'
  end.
Definition erase_pending (id : Z) : M Exec bool :=
  let! ids := mgets pending in
  if existsb (Z.eqb id) ids then
    do! mmodify (fun s => ex_set_pending (erase_first id (pending s)) s); mret_ true
  else mret_ false.

(** [clear_protection_if_head] *)
Definition clear_protection_if_head (id : Z) : M Exec unit := mmodify (fun s =>
  match protection s with
  | Some p => if head_request_id p =? id then ex_set_protection None s else s
  | None => s
  end).

(** [ensure_base_plan] *)
Definition ensure_base_plan (id : Z) : M Exec unit :=
  let! r := get_req id in
  do! match base_plan r with
      | Some _ => mret_ tt
      | None =>
          let! p := mderef (prompt r) in
          let! plan := on_program (plan_request_base p (options r)) in
          mod_req id (set_base_plan (Some plan))
      end;
  let! r := get_req id in
  let! plan := mderef (base_plan r) in
  let summary := base_summary plan in
  mthrow_if (negb (active_lanes (admission summary) =? 1) || (service_work_quanta summary =? 0))
    LogicError.

(** [ensure_lane_plan] *)
Definition ensure_lane_plan (id : Z) (l : nat) : M Exec unit :=
  let! s := mget in
  if is_some (slot_at s l) then mret_ tt else
  let! r := get_req id in
  let current := lane_plan_versions s !!! l in
  if (req_plan_versions r !!! l =? current) && is_some (default None (lane_plans r !! l))
  then mret_ tt else
  do! mod_req id (fun r => set_lane_plans (<[l := None]> (lane_plans r)) r);
  let! p := mderef (prompt r) in
  let! base := mderef (base_plan r) in
  let! plan := on_program (plan_request_for_lane l p base) in
  mod_req id (fun r => set_req_plan_versions (<[l := current]> (req_plan_versions r))
                         (set_lane_plans (<[l := Some plan]> (lane_plans r)) r)).

Definition lane_plan_of (id : Z) (l : nat) : M Exec tg_plan :=
  let! r := get_req id in mderef (default None (lane_plans r !! l)).

(** One loop of [find_admission_lane]: [can] is the target's test, [evict] what is recorded. *)
Fixpoint find_lane (can : tg_state -> nat -> tg_plan -> bool) (evict : bool) (id : Z) (ls : list nat)
    (selected : option LaneChoice) (selected_reuse : Z) : M Exec (option LaneChoice * Z) :=
  match ls with
  | [] => mret_ (selected, selected_reuse)
  | l :: ls' =>
      let! s := mget in
      if is_some (slot_at s l) then find_lane can evict id ls' selected selected_reuse else
      do! ensure_lane_plan id l;
      let! plan := lane_plan_of id l in
      let reuse := reusable_prompt_tokens (plan_summary plan) in
      let! p := mgets program in
      if can p l plan && (negb (is_some selected) || (reuse >? selected_reuse))
      then find_lane can evict id ls' (Some (mkChoice l evict)) reuse
      else find_lane can evict id ls' selected selected_reuse
  end.

(** [find_admission_lane] *)
Definition find_admission_lane (id : Z) : M Exec (option LaneChoice) :=
  let! s := mget in
  let! first := find_lane can_admit_lane false id (lanes_of s) None 0 in
  match first with
  | (Some choice, _) => mret_ (Some choice)
  | (None, reuse) =>
      let! second := find_lane can_admit_lane_after_retained_eviction true id (lanes_of s) None reuse in
      mret_ second.1
  end.

(** [remove_pending_error] *)
Definition remove_pending_error (id : Z) (e : exn) : M Exec AdmissionProgress :=
  let! erased := erase_pending id in
  if negb erased then mret_ AP_None else
  do! clear_protection_if_head id;
  do! complete_error id e;
  do! publish_runtime_stats;
  mret_ ControlProgress.

(** The eviction loop of [admit_planned_request]. *)
Fixpoint evict_lanes (l : nat) (plan : tg_plan) (ls : list nat) : M Exec unit :=
  match ls with
  | [] => mret_ tt
  | retained :: ls' =>
      let! s := mget in
      if can_admit_lane (program s) l plan then mret_ tt else
      do! mwhen (negb (retained =? l)%nat && negb (is_some (slot_at s retained)) &&
                 has_retained_lane (program s) retained)
            (do! mmodify (fun s => ex_set_program (evict_retained_lane retained (program s)) s);
             invalidate_lane_plans retained);
      evict_lanes l plan ls'
  end.

(** The [try] block of [admit_planned_request] up to the target call, the target call and what
    follows it. *)
Definition admit_prepare (id : Z) (l : nat) (summary : RequestPlanSummary) (cls : BackfillClass)
    (epoch : Z) : M Exec TransientRegion :=
  let! b := mlift (budget_create (effective_output_tokens summary) (effective_limit_reason summary)) in
  do! mod_req id (fun r =>
        set_rq_class cls (set_rq_epoch epoch
          (set_remaining_service_work (service_work_quanta summary)
            (set_admission_resources (admission summary)
              (set_lane (Some l)
                (set_generated_reserve (effective_output_tokens summary) (set_budget (Some b) r)))))));
  do! set_slot l (Some id);
  do! invalidate_lane_plans l;
  let! transient :=
    if reusable_prompt_tokens summary <? prompt_tokens summary then
      do! memory_activate (transient_bytes summary) (transient_alignment summary);
      do! mmodify (ex_set_prefill_lane (Some l));
      mgets (fun s => rm_region (request_memory s))
    else mret_ (mkTransient 0 0 1) in
  do! publish_runtime_stats;
  mret_ transient.

Definition admit_start (id : Z) (l : nat) (plan : tg_plan) (transient : TransientRegion) : M Exec unit :=
  let! r := get_req id in
  let! p := mderef (prompt r) in
  do! mod_req id (set_prompt None);
  let! first := on_program (start_prefill_lane l p plan transient) in
  let! s := mget in
  do! mthrow_if (negb (complete first) && negb (is_prefill_lane l s)) LogicError;
  let! cancel_at_boundary := load_cancelled id in
  do! resolve_prefill_step id first cancel_at_boundary;
  publish_runtime_stats.

(** The [catch] block of [admit_planned_request]. *)
Definition admit_failed {A} (id : Z) (l : nat) (target_started : bool) (e : exn) : M Exec A :=
  do! mwhen target_started (abort_program_lane l);
  do! end_prefill l;
  do! set_slot l None;
  do! invalidate_lane_plans l;
  do! complete_error id e;
  mthrow e.

(** The charge of a temporal backfill. *)
Definition charge_temporal (cls : BackfillClass) (epoch work : Z) : M Exec unit :=
  if bool_decide (cls = BF_Temporal) then
    let! s := mget in
    match protection s with
    | Some p =>
        do! mthrow_if (negb (Admission.epoch_id p =? epoch) || (work >? temporal_credit p)) LogicError;
        mmodify (ex_set_protection
          (Some (mkProtection (Admission.epoch_id p) (head_request_id p) (head_resources p)
                   (incumbent_ids p) (donor_ids p) (temporal_credit p - work) (phase p))))
    | None => mthrow LogicError
    end
  else mret_ tt.

(** [admit_planned_request] *)
Definition admit_planned_request (id : Z) (choice : LaneChoice) (cls : BackfillClass) (epoch : Z)
  : M Exec AdmissionProgress :=
  let! r0 := get_req id in
  let! t := now_ in
  if t >=? deadline r0 then remove_pending_error id (RequestError QueueTimeout) else
  let! c := load_cancelled id in
  if c then
    let! erased := erase_pending id in
    if negb erased then mret_ AP_None else
    do! clear_protection_if_head id;
    do! complete_cancelled id;
    do! publish_runtime_stats;
    mret_ ControlProgress
  else
  let l := ch_lane choice in
  let! r := get_req id in
  match default None (lane_plans r !! l) with
  | None => mthrow LogicError
  | Some plan =>
      do! mwhen (evict_retained choice)
            (let! s := mget in
             do! evict_lanes l plan (lanes_of s);
             let! s := mget in
             mthrow_if (negb (can_admit_lane (program s) l plan)) LogicError);
      do! mod_req id (fun r => set_lane_plans (<[l := None]> (lane_plans r)) r);
      let! erased := erase_pending id in
      if negb erased then mret_ AP_None else
      do! release_planning_state id;
      let summary := plan_summary plan in
      do! charge_temporal cls epoch (service_work_quanta summary);
      do! clear_protection_if_head id;
      let! transient := mtry (admit_prepare id l summary cls epoch) (admit_failed id l false) in
      do! mtry (admit_start id l plan transient) (admit_failed id l true);
      mret_ RanGpuUnit
  end.

(** [if (!admission_resources_fit(...)) { remove with ContextLengthExceeded }]; the checks common to
    the head and the candidates of [try_admit_one]: the lane to use, or [None] when the request was
    removed with an error. *)
Definition plan_pending (id : Z) : M Exec (option (RequestPlanSummary * option LaneChoice)) :=
  let remove (e : exn) := (let! _ := remove_pending_error id e in mret_ None) in
  let! ok := mtry (do! ensure_base_plan id; mret_ true)
                  (fun e => let! _ := remove e in mret_ false) in
  if negb ok then mret_ None else
  let! r := get_req id in
  let! base := mderef (base_plan r) in
  let summary := base_summary base in
  let! s := mget in
  if negb (admission_resources_fit (admission summary) (admission_capacity s))
  then remove (RequestError ContextLengthExceeded)
  else
    let! found := mtry (let! c := find_admission_lane id in mret_ (Some c))
                       (fun e => let! _ := remove e in mret_ None) in
    match found with
    | None => mret_ None
    | Some choice => mret_ (Some (summary, choice))
    end.

(** The loop over the other queued requests: [inl] when one was admitted (the result of
    [try_admit_one]), otherwise whether any was removed. *)
Fixpoint try_backfill (active : list ActiveAdmissionSnapshot) (frontier_distance : Z)
    (ids : list Z) (control : bool) : M Exec (AdmissionProgress + bool) :=
  match ids with
  | [] => mret_ (inr control)
  | id :: ids' =>
      let! c := load_cancelled id in
      if c then
        let! erased := erase_pending id in
        do! mwhen erased (do! complete_cancelled id; publish_runtime_stats);
        try_backfill active frontier_distance ids' (control || erased)
      else
      let! r := get_req id in
      let! t := now_ in
      if t >=? deadline r then
        let! _ := remove_pending_error id (RequestError QueueTimeout) in
        try_backfill active frontier_distance ids' true
      else
      let! planned := plan_pending id in
      match planned with
      | None => try_backfill active frontier_distance ids' true
      | Some (_, None) => try_backfill active frontier_distance ids' control
      | Some (_, Some choice) =>
          let! plan := lane_plan_of id (ch_lane choice) in
          let summary := plan_summary plan in
          let! s := mget in
          let! p := mderef (protection s) in
          let cls :=
            if persistent_backfill_is_safe p active (admission summary) (admission_capacity s)
            then BF_Persistent
            else if (service_work_quanta summary <=? frontier_distance) &&
                    (service_work_quanta summary <=? temporal_credit p)
                 then BF_Temporal else BF_None in
          match cls with
          | BF_None => try_backfill active frontier_distance ids' control
          | _ => let! progress := admit_planned_request id choice cls (Admission.epoch_id p) in
                 mret_ (inl progress)
          end
      end
  end.

Definition control_result (control : bool) : AdmissionProgress :=
  if control then ControlProgress else AP_None.

(** The [if (!protection_)] and [Drain] steps of [try_admit_one]. *)
Definition ensure_protection (head : Z) (head_resources : AdmissionResources)
    (active : list ActiveAdmissionSnapshot) : M Exec AdmissionProtection :=
  let! s := mget in
  do! match protection s with
      | Some _ => mret_ tt
      | None =>
          do! mmodify (ex_set_next_protection_epoch (u64 (next_protection_epoch s + 1)));
          let! p := mlift (make_admission_protection (next_protection_epoch s) head head_resources active
                             (admission_capacity s)) in
          mmodify (ex_set_protection (Some p))
      end;
  let! s := mget in
  let! p := mderef (protection s) in
  if protected_head_safe_without_temporal p active (admission_capacity s) then
    let p' := mkProtection (Admission.epoch_id p) (head_request_id p) (Admission.head_resources p)
                (incumbent_ids p) (donor_ids p) (temporal_credit p) Drain in
    do! mmodify (ex_set_protection (Some p')); mret_ p'
  else mret_ p.

(** [try_admit_one]; every [continue] of its loop has removed a request, so the fuel
    [S (length pending)] is enough. *)
Fixpoint try_admit_loop (fuel : nat) (control : bool) : M Exec (option AdmissionProgress) :=
  match fuel with
  | O => mret_ None
  | S fuel' =>
      let! queued := mgets pending in
      match queued with
      | [] => do! mmodify (ex_set_protection None); mret_ (Some (control_result control))
      | head :: others =>
          do! mmodify (fun s => match protection s with
                                | Some p => if head_request_id p =? head then s
                                            else ex_set_protection None s
                                | None => s
                                end);
          let! c := load_cancelled head in
          if c then
            let! erased := erase_pending head in
            do! mwhen erased (do! clear_protection_if_head head; do! complete_cancelled head;
                              publish_runtime_stats);
            try_admit_loop fuel' (control || erased)
          else
          let! r := get_req head in
          let! t := now_ in
          if t >=? deadline r then
            let! _ := remove_pending_error head (RequestError QueueTimeout) in
            try_admit_loop fuel' true
          else
          let! planned := plan_pending head in
          match planned with
          | None => try_admit_loop fuel' true
          | Some (_, Some choice) =>
              let! progress := admit_planned_request head choice BF_None 0 in mret_ (Some progress)
          | Some (summary, None) =>
              let! active := active_admission_set in
              do! mthrow_if (bool_decide (active = [])) LogicError;
              let! p := ensure_protection head (admission summary) active in
              if bool_decide (phase p = Drain) then mret_ (Some (control_result control)) else
              let distance := protection_frontier_distance p active in
              let! found := try_backfill active distance others control in
              mret_ (Some (match found with inl progress => progress | inr c => control_result c end))
          end
      end
  end.
Definition try_admit_one : M Exec (option AdmissionProgress) :=
  let! ids := mgets pending in try_admit_loop (S (length ids)) false.

(** ** Decode *)

(** One row of the first loop of [run_decode_round]: the accepted count, whether the row is
    terminal, and the finish reason. *)
Definition decode_row (round : BatchedGeneratedRound) (row : nat * (nat * bool))
  : M Exec (Z * bool * FinishReason) :=
  let '(i, (l, was_cancelled)) := row in
  let! s := mget in
  let! id := mderef (slot_at s l) in
  let count := match row_counts round with [] => 1 | cs => u32 (cs !!! i) end in
  do! mthrow_if ((count =? 0) || (count >? row_stride round)) LogicError;
  let row_tokens := take (Z.to_nat count) (drop (i * Z.to_nat (row_stride round)) (rd_tokens round)) in
  if was_cancelled : bool then
    let! _ := on_output id (preview_terminal FR_Cancelled) in
    mret_ (0, true, FR_Cancelled)
  else
    let! b := budget_of id in
    let! decision := on_output id (preview row_tokens (remaining_ b) (limit_reason_ b)) in
    let accepted := accepted_tokens decision in
    do! mthrow_if ((accepted =? 0) || (accepted >? count) ||
                   (negb (finished decision) && negb (accepted =? count))) LogicError;
    mret_ (accepted, finished decision, finish_reason decision).

(** One row of the second loop. *)
Definition commit_row (round : BatchedGeneratedRound)
    (row : nat * (nat * bool) * (Z * bool * FinishReason)) : M Exec unit :=
  let '((i, (l, was_cancelled)), ((accepted, terminal), reason)) := row in
  let! s := mget in
  let! id := mderef (slot_at s l) in
  do! mwhen (negb was_cancelled)
    (let row_tokens := take (Z.to_nat accepted) (drop (i * Z.to_nat (row_stride round)) (rd_tokens round)) in
     do! mod_req id (fun r => set_generated (generated r ++ row_tokens) r);
     do! commit_budget id accepted;
     consume_service_work id accepted);
  let! published := commit_preview_of id in
  let! r := get_req id in
  do! mwhen (negb (is_some (first_token r)) && negb (accepted =? 0))
    (let! t := now_ in mod_req id (set_first_token (Some t)));
  do! append_output id published;
  mwhen terminal (do! complete_success id reason; remove_completed_slot l).

(** [run_decode_round] *)
Definition run_decode_round (membership : list (nat * Z)) : M Exec unit :=
  let lanes := membership.*1 in
  let! round := on_program (decode_batch lanes membership.*2) in
  let! s := mget in
  let! was_cancelled := mmapM (fun l => let! id := mderef (slot_at s l) in load_cancelled id) lanes in
  do! mthrow_if ((row_stride round =? 0) ||
                 (negb (bool_decide (row_counts round = [])) &&
                  negb (length (row_counts round) =? length lanes)%nat) ||
                 (Z.of_nat (length (rd_tokens round)) <? row_stride round * Z.of_nat (length lanes)))
    LogicError;
  let rows := zip (seq 0 (length lanes)) (zip lanes was_cancelled) in
  let! decisions := mmapM (decode_row round) rows in
  do! on_program (resolve_pending_batch lanes ((fun d => d.1.1) <$> decisions)
                    ((fun d => d.1.2) <$> decisions) was_cancelled);
  do! miter (commit_row round) (zip rows decisions);
  do! add_decode_stats (Z.of_nat (length lanes))
        (foldr (fun d n => (if (d.1 : bool) then 0 else d.2.1.1) + n) 0 (zip was_cancelled decisions));
  publish_runtime_stats.

(** ** The worker *)

(** [fail_all] *)
Definition fail_lane (e : exn) (l : nat) : M Exec unit :=
  let! s := mget in
  match slot_at s l with
  | None => mret_ tt
  | Some id =>
      do! abort_program_lane l;
      do! complete_error id e;
      set_slot l None
  end.
Definition fail_all (e : exn) : M Exec unit :=
  do! mmodify (ex_set_failed true);
  let! ids := mgets pending in
  do! mmodify (ex_set_pending []);
  let! s := mget in
  do! mwhen (is_some (prefill_lane s)) (do! memory_deactivate; mmodify (ex_set_prefill_lane None));
  do! mmodify (ex_set_protection None);
  do! miter (fail_lane e) (lanes_of s);
  do! miter (fun id => complete_error id e) ids;
  publish_runtime_stats.

(** The [try] block of one iteration of [worker_loop]. *)
Definition worker_unit : M Exec unit :=
  let! have_pending := expire_pending_requests in
  let! cancelled_at_boundary := snapshot_cancellations in
  do! cancel_active_requests cancelled_at_boundary;
  let! membership := build_round_membership in
  let decode := (do! run_decode_round membership; mmodify (ex_set_previous_unit_was_decode true)) in
  let! s := mget in
  let idle := bool_decide (membership = []) in
  if is_some (prefill_lane s) then
    if negb idle && negb (previous_unit_was_decode s) then decode
    else do! run_prefill_step; mmodify (ex_set_previous_unit_was_decode false)
  else
  let! progress :=
    if have_pending && (idle || previous_unit_was_decode s) then
      let! p := try_admit_one in mderef p
    else mret_ AP_None in
  match progress with
  | RanGpuUnit => mmodify (ex_set_previous_unit_was_decode false)
  | _ => mwhen (negb idle) decode
  end.

(** One iteration of [worker_loop], once it need not wait. *)
Definition worker_iteration : M Exec unit :=
  let! s := mget in
  if worker_done s then mret_ tt else
  if stopping s then
    do! fail_all (RequestError Unavailable); mmodify (ex_set_worker_done true)
  else
    mtry worker_unit (fun e => do! fail_all e; mmodify (ex_set_worker_done true)).

(** ** The clients *)

(** The first critical section of [submit]; the id of the new request. *)
Definition submit_reserve (pending_deadline : option Z) : M Exec (Z * Z) :=
  let! submitted := now_ in
  let! s := mget in
  let limit := match pending_deadline with Some d => d | None => submitted + pending_timeout s end in
  do! mthrow_if (submitted >=? limit) (RequestError QueueTimeout);
  do! mthrow_if (stopping s || failed s) (RequestError Unavailable);
  do! mthrow_if (outstanding s >=? max_outstanding s) (RequestError Overloaded);
  do! mmodify (fun s => ex_set_in_flight (in_flight s + 1)
                 (ex_set_next_request_id (next_request_id s + 1) (ex_set_outstanding (outstanding s + 1) s)));
  mret_ (next_request_id s, limit).

(** The session could not be made: the reserved capacity is given back. *)
Definition submit_failed : M Exec unit :=
  do! mmodify (fun s => ex_set_in_flight (in_flight s - 1) s);
  release_reserved_capacity.

Definition new_request (p : tg_prompt) (o : os_state) (opts : tg_options) (limit : Z) : Request :=
  mkRequest (Some p) o opts limit None None None [] 0 [] [] None false false None
    (replicate kMaximumConcurrency None) (replicate kMaximumConcurrency 0) (mkResources 0 0 0) 0 0 BF_None
    [] None None false false false.

(** The second critical section of [submit]. *)
Definition submit_push (id : Z) (r : Request) : M Exec unit :=
  let! s := mget in
  do! mmodify (fun s => ex_set_in_flight (in_flight s - 1) s);
  if stopping s || failed s then
    do! mmodify (fun s => ex_set_outstanding (outstanding s - 1) s);
    mthrow (RequestError Unavailable)
  else
    mmodify (fun s => ex_set_pending (pending s ++ [id])
               (ex_set_ex_requests (<[id := r]> (ex_requests s)) s)).

(** [wait_for_request] takes the published events and sees whether the request is done. *)
Definition take_events (id : Z) : M Exec (list OutputDelta * bool) :=
  let! r := get_req id in
  do! mod_req id (set_events []);
  mret_ (events r, done r).

(** One pass of the loop of [wait_for_request]: [publish] is the sink, which may throw; [requested] is
    the answer of the cancellation view, which may throw; [caller_error] is what they threw before.
    The loop goes on until the request is done; its guard then releases the consumer. *)
Definition cancel_request (id : Z) : M Exec unit := mod_req id (set_cancelled true).
Fixpoint first_error (publish : OutputDelta -> option exn) (evs : list OutputDelta) : option exn :=
  match evs with
  | [] => None
  | d :: evs' => match publish d with Some e => Some e | None => first_error publish evs' end
  end.
Definition publish_events (id : Z) (publish : OutputDelta -> option exn) (evs : list OutputDelta)
    (caller_error : option exn) : M Exec (option exn) :=
  match caller_error, first_error publish evs with
  | None, Some e => do! cancel_request id; mret_ (Some e)
  | _, _ => mret_ caller_error
  end.
Definition check_cancellation (id : Z) (requested : result bool) (caller_error : option exn)
  : M Exec (option exn) :=
  match caller_error, requested with
  | None, Ok c => do! mwhen c (cancel_request id); mret_ None
  | None, Err e => do! cancel_request id; mret_ (Some e)
  | _, _ => mret_ caller_error
  end.
Definition wait_iteration (id : Z) (publish : OutputDelta -> option exn) (requested : result bool)
    (caller_error : option exn) : M Exec (option exn * option (result GenerationResult)) :=
  let! taken := take_events id in
  let '(evs, is_done) := taken in
  let! caller_error := publish_events id publish evs caller_error in
  let! caller_error := check_cancellation id requested caller_error in
  if negb is_done then mret_ (caller_error, None) else
  let! r := get_req id in
  do! release_consumer id;
  match caller_error, error r, rq_result r with
  | Some e, _, _ => mret_ (caller_error, Some (Err e))
  | None, Some e, _ => mret_ (None, Some (Err e))
  | None, None, Some res => mret_ (None, Some (Ok res))
  | None, None, None => mret_ (None, Some (Ok (mkResult [] [] [] FR_None 0)))
  end.

(** [~ConcurrentExecutor] *)
Definition stop_executor : M Exec unit := mmodify (ex_set_stopping true).

(** [ConcurrentExecutor::ConcurrentExecutor] *)
Definition create_executor (p : tg_state) (memory : RequestMemory) (max_conc max_pending timeout : Z)
    (capacity : AdmissionResources) : result Exec :=
  do* throw_if ((max_conc =? 0) || (max_conc >? Z.of_nat kMaximumConcurrency) || (max_pending =? 0) ||
                (timeout <=? 0)) InvalidArgument;
  do* throw_if (negb (active_lanes capacity =? max_conc) || (main_kv_pages capacity =? 0)) LogicError;
  let stats := mkStats 0 0 0 0 0 0 0 0 in
  Ok (mkExec p memory (Z.to_nat max_conc) (max_conc + max_pending) timeout capacity ∅ [] 0 0 1
        (replicate kMaximumConcurrency None) None (replicate kMaximumConcurrency 0) None 1 stats stats
        false false false false 0).

End Executor.
