(* ===== verification/ExecutorProofs.v ===== *)
(** * Correctness of the concurrent executor

    No accepted request is ever lost: it is queued, or it owns exactly one lane, or it is done;
    every unit of reserved capacity is given back exactly once; and when the worker stops, by
    shutdown or by an exception anywhere in a unit of work, every request has been completed.

    The proofs look at the executor through a [View] that forgets planning state and statistics;
    most methods do not change it at all ([quiet]). *)
From S2P Require Import Prelude Admission Capacity Contract Executor.
#[local] Open Scope Z_scope.

Section ExecutorProofs.
Context `{TG : Target, OS : OutputSession, EV : Environment}.
Context `{TL : !TargetLaws, OL : !OutputSessionLaws}.

(** ** The view *)

Record Core : Type := mkCore {
  c_done : bool; c_lane : option nat; c_consumer : bool; c_released : bool;
  c_budget : option GenerationBudget; c_generated : list Z; c_reserve : Z; c_ready : bool;
  c_output : os_state;
}.

Definition core (r : Request) : Core :=
  mkCore (done r) (lane r) (consumer_released r) (capacity_released r) (budget r) (generated r)
    (generated_reserve r) (decode_ready r) (output r).

Record View : Type := mkView {
  v_reqs : gmap Z Core; v_pending : list Z; v_outstanding : Z; v_in_flight : Z; v_next : Z;
  v_slots : list (option Z); v_prefill : option nat; v_memory : Z;
  v_protection : option AdmissionProtection;
  v_max : nat; v_max_outstanding : Z; v_closed : bool; v_worker_done : bool;
}.

Definition view (s : Exec) : View :=
  mkView (core <$> ex_requests s) (pending s) (outstanding s) (in_flight s) (next_request_id s)
    (slots s) (prefill_lane s) (active_bytes (request_memory s)) (protection s) (max_concurrency s)
    (max_outstanding s) (stopping s || failed s) (worker_done s).

(** ** Triples *)

(** [m], started in a state whose view satisfies [P], ends with a value and a view in [Q], or with
    an exception and a view in [E] ([std::abort] ends the process). *)
Definition hoare {A} (P : View -> Prop) (m : M Exec A) (Q : A -> View -> Prop) (E : View -> Prop) : Prop :=
  forall s, P (view s) ->
    match m s with
    | (Ok a, s') => Q a (view s')
    | (Err e, s') => e = Abort_ \/ E (view s')
    end.

Definition quiet {A} (m : M Exec A) : Prop := forall s, view (m s).2 = view s.

Lemma hoare_bind {A B} P (m : M Exec A) R (k : A -> M Exec B) Q E :
  hoare P m R E -> (forall a, hoare (R a) (k a) Q E) -> hoare P (mbind_ m k) Q E.
Proof.
  intros Hm Hk s Hs. specialize (Hm s Hs). unfold mbind_.
  destruct (m s) as [[a|e] s1]; [by apply Hk|done].
Qed.

Lemma hoare_conseq {A} (P P' : View -> Prop) (m : M Exec A) (Q Q' : A -> View -> Prop) (E E' : View -> Prop) :
  hoare P m Q E -> (forall v, P' v -> P v) -> (forall a v, Q a v -> Q' a v) -> (forall v, E v -> E' v) ->
  hoare P' m Q' E'.
Proof.
  intros Hm HP HQ HE s Hs. specialize (Hm s (HP _ Hs)). destruct (m s) as [[a|e] s1]; [by apply HQ|].
  destruct Hm; [by left|right; by apply HE].
Qed.

Lemma hoare_quiet {A} P (m : M Exec A) (E : View -> Prop) :
  quiet m -> (forall v, P v -> E v) -> hoare P m (fun _ => P) E.
Proof.
  intros Hm HE s Hs. specialize (Hm s). destruct (m s) as [[a|e] s1]; cbn in Hm; rewrite Hm; auto.
Qed.

Lemma hoare_ret {A} (P : View -> Prop) (a : A) Q E : (forall v, P v -> Q a v) -> hoare P (mret_ a) Q E.
Proof. intros H s Hs. by apply H. Qed.

Lemma hoare_throw {A} (P : View -> Prop) e (Q : A -> View -> Prop) (E : View -> Prop) :
  (forall v, P v -> E v) -> hoare P (mthrow e) Q E.
Proof. intros H s Hs. right. by apply H. Qed.

Lemma hoare_when (P : View -> Prop) (c : bool) m (Q : unit -> View -> Prop) E :
  (c = true -> hoare P m Q E) -> (c = false -> forall v, P v -> Q tt v) -> hoare P (mwhen c m) Q E.
Proof. intros H1 H2. unfold mwhen. destruct c; [by apply H1|by apply hoare_ret, H2]. Qed.

(** A quiet computation under [try]. *)
Lemma hoare_try_quiet {A} P (m : M Exec A) h Q E :
  quiet m -> (forall a, hoare P (mret_ a) Q E) -> (forall e, hoare P (h e) Q E) -> hoare P (mtry m h) Q E.
Proof.
  intros Hm Ha Hh s Hs. unfold mtry. specialize (Hm s). destruct (m s) as [[a|e] s1]; cbn in Hm.
  - apply (Ha a s1). by rewrite Hm.
  - rewrite <- Hm in Hs. destruct e; try (by apply Hh). by left.
Qed.

(** ** Quiet methods *)

Lemma quiet_bind {A B} (m : M Exec A) (k : A -> M Exec B) :
  quiet m -> (forall a, quiet (k a)) -> quiet (mbind_ m k).
Proof.
  intros Hm Hk s. unfold mbind_. specialize (Hm s). destruct (m s) as [[a|e] s1]; cbn in *; [|done].
  by rewrite Hk.
Qed.
Lemma quiet_ret {A} (a : A) : quiet (mret_ a). Proof. done. Qed.
Lemma quiet_throw {A} e : quiet (mthrow e : M Exec A). Proof. done. Qed.
Lemma quiet_throw_if b e : quiet (mthrow_if b e). Proof. done. Qed.
Lemma quiet_lift {A} (r : result A) : quiet (mlift r). Proof. done. Qed.
Lemma quiet_deref {A} (o : option A) : quiet (mderef o). Proof. by destruct o. Qed.
Lemma quiet_get : quiet mget. Proof. done. Qed.
Lemma quiet_gets {A} (f : Exec -> A) : quiet (mgets f). Proof. done. Qed.
Lemma quiet_modify f : (forall s, view (f s) = view s) -> quiet (mmodify f). Proof. done. Qed.
Lemma quiet_when c m : quiet m -> quiet (mwhen c m). Proof. by destruct c. Qed.
Lemma quiet_map {A B} (f : A -> M Exec B) l : (forall x, quiet (f x)) -> quiet (mmapM f l).
Proof. intros Hf. induction l as [|x l IH]; cbn; [done|]. repeat (apply quiet_bind; [done|intros ?]). done. Qed.
Lemma quiet_get_req id : quiet (get_req id).
Proof. intros s. unfold get_req. by destruct (ex_requests s !! id). Qed.
Lemma quiet_now : quiet now_. Proof. done. Qed.
Lemma quiet_program {A} (m : M tg_state A) : quiet (on_program m).
Proof. intros s. unfold on_program. by destruct (m (program s)). Qed.

Lemma quiet_mod_req id f : (forall r, core (f r) = core r) -> quiet (mod_req id f).
Proof.
  intros Hf s. unfold mod_req, mbind_, get_req, mmodify.
  destruct (ex_requests s !! id) as [r|] eqn:Hr; [|done]. unfold view; cbn. f_equal.
  rewrite fmap_insert, Hf. apply insert_id. by rewrite lookup_fmap, Hr.
Qed.

Lemma quiet_load_cancelled id : quiet (load_cancelled id).
Proof.
  unfold load_cancelled. apply quiet_bind; [done|intros t]. apply quiet_bind; [by apply quiet_modify|intros _].
  apply quiet_bind; [apply quiet_get_req|intros r]. apply quiet_bind; [by apply quiet_mod_req|intros _]. done.
Qed.

Lemma core_append_delta r d : core (append_delta r d) = core r.
Proof. unfold append_delta. by destruct (od_channel d). Qed.
Lemma quiet_append_output id out : quiet (append_output id out).
Proof.
  unfold append_output. destruct out as [|d out]; [done|]. apply quiet_mod_req. intros r.
  generalize (d :: out) as l. intros l. revert r; induction l as [|x l IH]; intros r; cbn; [done|].
  by rewrite IH, core_append_delta.
Qed.

Ltac quiet_step :=
  first
  [ apply quiet_ret | apply quiet_throw | apply quiet_throw_if | apply quiet_lift | apply quiet_deref
  | apply quiet_get | apply quiet_gets | apply quiet_get_req | apply quiet_now | apply quiet_program
  | apply quiet_load_cancelled | apply quiet_append_output
  | apply quiet_mod_req; intros ?; reflexivity
  | apply quiet_modify; intros ?; reflexivity
  | apply quiet_when | apply quiet_map; intros ?
  | apply quiet_bind; [|intros ?]
  | case_match ].
Ltac quiet_tac := repeat quiet_step.

Lemma quiet_publish : quiet publish_runtime_stats. Proof. unfold publish_runtime_stats. quiet_tac. Qed.
Lemma quiet_prefill_stats n : quiet (add_prefill_tokens n). Proof. unfold add_prefill_tokens. quiet_tac. Qed.
Lemma quiet_decode_stats n m : quiet (add_decode_stats n m). Proof. unfold add_decode_stats. quiet_tac. Qed.
Lemma quiet_abort l : quiet (abort_program_lane l). Proof. unfold abort_program_lane. quiet_tac. Qed.
Lemma quiet_invalidate l : quiet (invalidate_lane_plans l).
Proof. unfold invalidate_lane_plans. quiet_tac. Qed.
Lemma quiet_release_planning id : quiet (release_planning_state id).
Proof. unfold release_planning_state. quiet_tac. Qed.
Lemma quiet_service id w : quiet (consume_service_work id w).
Proof. unfold consume_service_work. quiet_tac. Qed.
Lemma quiet_snapshot : quiet snapshot_cancellations. Proof. unfold snapshot_cancellations. quiet_tac. Qed.
Lemma quiet_membership : quiet build_round_membership. Proof. unfold build_round_membership. quiet_tac. Qed.
Lemma quiet_active_set : quiet active_admission_set. Proof. unfold active_admission_set. quiet_tac. Qed.
Lemma quiet_base_plan id : quiet (ensure_base_plan id). Proof. unfold ensure_base_plan. quiet_tac. Qed.
Lemma quiet_lane_plan id l : quiet (ensure_lane_plan id l). Proof. unfold ensure_lane_plan. quiet_tac. Qed.
Lemma quiet_lane_plan_of id l : quiet (lane_plan_of id l). Proof. unfold lane_plan_of. quiet_tac. Qed.

Lemma quiet_find_lane can ev id ls sel reuse : quiet (find_lane can ev id ls sel reuse).
Proof.
  revert sel reuse. induction ls as [|l ls IH]; intros sel reuse; cbn; [done|].
  apply quiet_bind; [done|intros s]. case_match; [apply IH|].
  apply quiet_bind; [apply quiet_lane_plan|intros _]. apply quiet_bind; [apply quiet_lane_plan_of|intros p].
  apply quiet_bind; [done|intros t]. case_match; apply IH.
Qed.
Lemma quiet_find_admission id : quiet (find_admission_lane id).
Proof.
  unfold find_admission_lane. apply quiet_bind; [done|intros s].
  apply quiet_bind; [apply quiet_find_lane|intros [[c|] n]]; [done|].
  apply quiet_bind; [apply quiet_find_lane|intros ?]. done.
Qed.
Lemma quiet_evict l plan ls : quiet (evict_lanes l plan ls).
Proof.
  induction ls as [|x ls IH]; cbn; [done|]. apply quiet_bind; [done|intros s]. case_match; [done|].
  apply quiet_bind; [|done]. apply quiet_when. apply quiet_bind; [by apply quiet_modify|intros _].
  apply quiet_invalidate.
Qed.

Lemma quiet_expire_scan now ids : quiet (expire_scan now ids).
Proof.
  induction ids as [|id ids IH]; cbn; [done|]. apply quiet_bind; [apply quiet_load_cancelled|intros c].
  apply quiet_bind; [apply quiet_get_req|intros r]. apply quiet_bind; [done|intros [[cs es] ks]]. done.
Qed.

(** ** The invariant *)

(** The requests whose capacity is still reserved. *)
Definition unreleased (m : gmap Z Core) : Z :=
  Z.of_nat (length (List.filter (fun c => negb (c_released c)) (map_to_list m).*2)).

(** A request that has not been given a lane yet. *)
Definition fresh (c : Core) : Prop := os_ready (c_output c) /\ c_ready c = false /\ c_generated c = [].

(** What holds whenever control can leave a method, by return or by exception. *)
Record W (v : View) : Prop := {
  w_nodup : NoDup (v_pending v);
  w_pending : forall id, id ∈ v_pending v -> exists c, v_reqs v !! id = Some c /\
                c_done c = false /\ c_lane c = None /\ fresh c;
  w_slots : forall l id, v_slots v !! l = Some (Some id) -> (l < v_max v)%nat /\
              exists c, v_reqs v !! id = Some c /\ c_done c = false /\ c_lane c = Some l;
  w_live : forall id c, v_reqs v !! id = Some c -> c_done c = false ->
             id ∈ v_pending v \/ exists l, v_slots v !! l = Some (Some id);
  w_released : forall id c, v_reqs v !! id = Some c -> c_released c = c_done c && c_consumer c;
  w_outstanding : v_outstanding v = v_in_flight v + unreleased (v_reqs v);
  w_bound : 0 <= v_in_flight v /\ v_outstanding v <= v_max_outstanding v;
  w_lanes : length (v_slots v) = kMaximumConcurrency /\ (v_max v <= kMaximumConcurrency)%nat;
  w_ids : forall id, is_Some (v_reqs v !! id) -> id < v_next v;
}.

(** The counts a request keeps while it decodes: what it generated and what its budget still
    allows make up what was reserved for it. *)
Definition budget_ok (c : Core) : Prop :=
  exists b, c_budget c = Some b /\ 0 <= remaining_ b /\
    Z.of_nat (length (c_generated c)) + remaining_ b = c_reserve c.

(** What holds besides between two units of work; [x] is a lane in the middle of one. *)
Record R (x : option nat) (v : View) : Prop := {
  r_prefill : forall l, v_prefill v = Some l -> x <> Some l /\ exists id c,
                v_slots v !! l = Some (Some id) /\ v_reqs v !! id = Some c /\ c_ready c = false;
  r_ready : forall l id c, v_slots v !! l = Some (Some id) -> v_reqs v !! id = Some c ->
              x <> Some l -> c_ready c = false -> v_prefill v = Some l;
  r_budget : forall l id c, v_slots v !! l = Some (Some id) -> v_reqs v !! id = Some c ->
               x <> Some l -> budget_ok c;
  r_memory : v_prefill v = None -> v_memory v = 0;
  r_running : v_worker_done v = false;
}.
Definition S_ (v : View) : Prop := W v /\ R None v.

Definition flag (c : Core) : Z := if c_released c then 0 else 1.

Lemma unreleased_fresh m id c : m !! id = None -> unreleased (<[id := c]> m) = unreleased m + flag c.
Proof.
  intros H. unfold unreleased.
  assert (Hp : (map_to_list (<[id := c]> m)).*2 ≡ₚ c :: (map_to_list m).*2)
    by (rewrite map_to_list_insert by done; done).
  assert (Hl : forall l l' : list Core, l ≡ₚ l' ->
    length (List.filter (fun c => negb (c_released c)) l) =
    length (List.filter (fun c => negb (c_released c)) l')).
  { induction 1; cbn; repeat case_match; cbn; lia. }
  rewrite (Hl _ _ Hp). cbn. unfold flag. destruct (c_released c); cbn; lia.
Qed.

Lemma unreleased_insert m id c c0 :
  m !! id = Some c0 -> unreleased (<[id := c]> m) = unreleased m - flag c0 + flag c.
Proof.
  intros H. rewrite <- insert_delete_eq, unreleased_fresh by apply lookup_delete_eq.
  rewrite <- (insert_delete_id m id c0 H) at 2.
  rewrite unreleased_fresh by apply lookup_delete_eq. lia.
Qed.

Definition with_reqs (v : View) (m : gmap Z Core) : View :=
  mkView m (v_pending v) (v_outstanding v) (v_in_flight v) (v_next v) (v_slots v) (v_prefill v)
    (v_memory v) (v_protection v) (v_max v) (v_max_outstanding v) (v_closed v) (v_worker_done v).
Definition with_slot (v : View) (l : nat) (o : option Z) : View :=
  mkView (v_reqs v) (v_pending v) (v_outstanding v) (v_in_flight v) (v_next v) (<[l := o]> (v_slots v))
    (v_prefill v) (v_memory v) (v_protection v) (v_max v) (v_max_outstanding v) (v_closed v)
    (v_worker_done v).
Definition with_pending (v : View) (ids : list Z) : View :=
  mkView (v_reqs v) ids (v_outstanding v) (v_in_flight v) (v_next v) (v_slots v) (v_prefill v)
    (v_memory v) (v_protection v) (v_max v) (v_max_outstanding v) (v_closed v) (v_worker_done v).
Definition with_outstanding (v : View) (n : Z) : View :=
  mkView (v_reqs v) (v_pending v) n (v_in_flight v) (v_next v) (v_slots v) (v_prefill v)
    (v_memory v) (v_protection v) (v_max v) (v_max_outstanding v) (v_closed v) (v_worker_done v).
Definition with_prefill (v : View) (p : option nat) (mem : Z) : View :=
  mkView (v_reqs v) (v_pending v) (v_outstanding v) (v_in_flight v) (v_next v) (v_slots v) p mem
    (v_protection v) (v_max v) (v_max_outstanding v) (v_closed v) (v_worker_done v).
Definition with_protection (v : View) (p : option AdmissionProtection) : View :=
  mkView (v_reqs v) (v_pending v) (v_outstanding v) (v_in_flight v) (v_next v) (v_slots v)
    (v_prefill v) (v_memory v) p (v_max v) (v_max_outstanding v) (v_closed v) (v_worker_done v).

(** Progress of one request that changes neither its place nor its completion. *)
Definition same_place (c c' : Core) : Prop :=
  c_done c' = c_done c /\ c_lane c' = c_lane c /\ c_consumer c' = c_consumer c /\
  c_released c' = c_released c.

Lemma W_update v id c c' :
  W v -> v_reqs v !! id = Some c -> same_place c c' -> (id ∈ v_pending v -> fresh c -> fresh c') ->
  W (with_reqs v (<[id := c']> (v_reqs v))).
Proof.
  intros [H1 H2 H3 H4 H5 H6 H7 H8 H9] Hc (E1 & E2 & E3 & E4) Ho. constructor; cbn; try done.
  - intros i Hi. destruct (H2 i Hi) as (c0 & Hc0 & Hd & Hl & Hr).
    destruct (decide (i = id)) as [->|Hne]; [|exists c0; by rewrite lookup_insert_ne].
    rewrite lookup_insert_eq. simplify_eq. exists c'. rewrite E1, E2. by split_and!; try apply Ho.
  - intros l i Hi. destruct (H3 l i Hi) as (Hl & c0 & Hc0 & Hd & Hla). split; [done|].
    destruct (decide (i = id)) as [->|Hne]; [|exists c0; by rewrite lookup_insert_ne].
    rewrite lookup_insert_eq. simplify_eq. exists c'. by rewrite E1, E2.
  - intros i c0. destruct (decide (i = id)) as [->|Hne];
      [rewrite lookup_insert_eq; intros [= <-]; rewrite E1; by apply H4|rewrite lookup_insert_ne by done; apply H4].
  - intros i c0. destruct (decide (i = id)) as [->|Hne];
      [rewrite lookup_insert_eq; intros [= <-]; rewrite E1, E3, E4; by eapply H5|rewrite lookup_insert_ne by done; apply H5].
  - rewrite (unreleased_insert _ _ _ _ Hc). unfold flag. rewrite E4. lia.
  - intros i. destruct (decide (i = id)) as [->|Hne];
      [intros _; apply H9; eauto|rewrite lookup_insert_ne by done; apply H9].
Qed.

(** The core of a request that has just been completed. *)
Definition finished_core (c : Core) (gen : list Z) : Core :=
  mkCore true (c_lane c) (c_consumer c) (c_consumer c) (c_budget c) gen (c_reserve c) (c_ready c)
    (c_output c).
(** Completing a request gives its capacity back when its consumer is gone. *)
Definition finish_view (v : View) (id : Z) (c : Core) (gen : list Z) : View :=
  with_outstanding (with_reqs v (<[id := finished_core c gen]> (v_reqs v)))
    (if c_consumer c then (if v_outstanding v =? 0 then 0 else v_outstanding v - 1) else v_outstanding v).

Lemma W_unreleased v id c :
  W v -> v_reqs v !! id = Some c -> c_done c = false -> c_released c = false /\ 1 <= v_outstanding v.
Proof.
  intros Hw Hc Hd. pose proof (w_released _ Hw _ _ Hc) as Hr. rewrite Hd in Hr. split; [done|].
  rewrite (w_outstanding _ Hw). pose proof (w_bound _ Hw).
  pose proof (unreleased_insert (v_reqs v) id (finished_core c []) c Hc) as Hu.
  assert (forall m, 0 <= unreleased m) as Hpos by (intros; unfold unreleased; lia).
  pose proof (Hpos (<[id := finished_core c []]> (v_reqs v))). unfold flag in Hu. rewrite Hr in Hu.
  cbn in Hu. destruct (c_consumer c); [lia|].
  assert (unreleased (<[id := mkCore true (c_lane c) (c_consumer c) true (c_budget c) [] (c_reserve c) (c_ready c) (c_output c)]> (v_reqs v)) = unreleased (v_reqs v) - 1).
  { rewrite (unreleased_insert _ _ _ _ Hc). unfold flag. rewrite Hr. cbn. lia. }
  pose proof (Hpos (<[id := mkCore true (c_lane c) (c_consumer c) true (c_budget c) [] (c_reserve c) (c_ready c) (c_output c)]> (v_reqs v))).
  lia.
Qed.

Lemma finish_accounting v id c gen :
  W v -> v_reqs v !! id = Some c -> c_done c = false ->
  let v' := finish_view v id c gen in
  v_outstanding v' = v_in_flight v' + unreleased (v_reqs v') /\ v_outstanding v' <= v_outstanding v /\
  (forall i c', v_reqs v' !! i = Some c' -> c_released c' = c_done c' && c_consumer c') /\
  (forall i, is_Some (v_reqs v' !! i) -> i < v_next v).
Proof.
  intros Hw Hc Hd v'. destruct (W_unreleased _ _ _ Hw Hc Hd) as [Hr Ho]. subst v'. cbn.
  rewrite (unreleased_insert _ _ _ _ Hc). pose proof (w_outstanding _ Hw). unfold flag. rewrite Hr. cbn.
  destruct (Z.eqb_spec (v_outstanding v) 0); [lia|].
  split; [destruct (c_consumer c); lia|]. split; [destruct (c_consumer c); lia|]. split.
  - intros i c'. destruct (decide (i = id)) as [->|Hne].
    + rewrite lookup_insert_eq. by intros [= <-].
    + rewrite lookup_insert_ne by done. apply (w_released _ Hw).
  - intros i. destruct (decide (i = id)) as [->|Hne]; [intros _; apply (w_ids _ Hw); eauto|].
    rewrite lookup_insert_ne by done. apply (w_ids _ Hw).
Qed.

Lemma W_slot_core v l id c :
  W v -> v_slots v !! l = Some (Some id) -> v_reqs v !! id = Some c -> c_done c = false /\ c_lane c = Some l.
Proof. intros Hw Hs Hc. destruct (w_slots _ Hw _ _ Hs) as (_ & c0 & Hc0 & Hd & Hl). by simplify_eq. Qed.

Lemma W_slot_not_pending v l id : W v -> v_slots v !! l = Some (Some id) -> id ∉ v_pending v.
Proof.
  intros Hw Hs Hin. destruct (w_pending _ Hw _ Hin) as (c & Hc & _ & Hl & _).
  destruct (W_slot_core _ _ _ _ Hw Hs Hc) as [_ Hl']. congruence.
Qed.

Lemma W_slot_inj v l l' id :
  W v -> v_slots v !! l = Some (Some id) -> v_slots v !! l' = Some (Some id) -> l = l'.
Proof.
  intros Hw H1 H2. destruct (w_slots _ Hw _ _ H1) as (_ & c & Hc & _ & Hl).
  destruct (W_slot_core _ _ _ _ Hw H2 Hc) as [_ Hl']. congruence.
Qed.

Lemma slot_insert (ss : list (option Z)) l l' o :
  (l < length ss)%nat -> <[l := o]> ss !! l' = if decide (l' = l) then Some o else ss !! l'.
Proof.
  intros Hl. case_decide; subst; [by apply list_lookup_insert_eq|by rewrite list_lookup_insert_ne].
Qed.

(** A request in a lane is completed and leaves the lane. *)
Lemma W_finish_slot v l id c gen :
  W v -> v_slots v !! l = Some (Some id) -> v_reqs v !! id = Some c ->
  W (with_slot (finish_view v id c gen) l None).
Proof.
  intros Hw Hs Hc. pose proof (W_slot_core _ _ _ _ Hw Hs Hc) as [Hd Hl].
  pose proof (W_slot_not_pending _ _ _ Hw Hs) as Hnp. pose proof (lookup_lt_Some _ _ _ Hs) as Hlen.
  destruct (finish_accounting v id c gen Hw Hc Hd) as (A1 & A2 & A3 & A4).
  pose proof Hw as [H1 H2 H3 H4 H5 H6 H7 H8 H9]. constructor; cbn in *; try done.
  - intros i Hi. destruct (H2 i Hi) as (c0 & ?). exists c0. by rewrite lookup_insert_ne by congruence.
  - intros l' i. rewrite slot_insert by done. case_decide; [done|]. intros Hi.
    destruct (H3 l' i Hi) as (Hlt & c0 & Hc0 & ?). split; [done|]. exists c0.
    rewrite lookup_insert_ne; [done|]. intros ->. by pose proof (W_slot_inj _ _ _ _ Hw Hs Hi).
  - intros i c0. destruct (decide (i = id)) as [->|Hne].
    + rewrite lookup_insert_eq. by intros [= <-].
    + rewrite lookup_insert_ne by done. intros Hc0 Hd0. destruct (H4 i c0 Hc0 Hd0) as [?|[l' Hl']]; [by left|].
      right. exists l'. rewrite slot_insert by done. case_decide; [congruence|done].
  - split; [lia|]. lia.
  - by rewrite length_insert.
Qed.

Lemma erase_first_spec id ids :
  NoDup ids -> id ∈ ids -> NoDup (erase_first id ids) /\ (forall i, i ∈ erase_first id ids <-> i ∈ ids /\ i <> id).
Proof.
  induction 1 as [|x ids Hx Hnd IH]; intros Hin; [by apply elem_of_nil in Hin|]. cbn.
  destruct (Z.eqb_spec x id) as [->|Hne].
  - split; [done|]. intros i. rewrite elem_of_cons. split; [|by intros [[->|?] ?]].
    intros Hi. split; [by right|]. by intros ->.
  - apply elem_of_cons in Hin as [->|Hin]; [done|]. destruct (IH Hin) as [IH1 IH2]. split.
    + constructor; [|done]. rewrite IH2. naive_solver.
    + intros i. rewrite !elem_of_cons, IH2. naive_solver.
Qed.

(** A queued request is completed and leaves the queue. *)
Lemma W_finish_pending v ids id c gen :
  W v -> id ∈ v_pending v -> v_reqs v !! id = Some c ->
  NoDup ids -> (forall i, i ∈ ids <-> i ∈ v_pending v /\ i <> id) ->
  W (finish_view (with_pending v ids) id c gen).
Proof.
  intros Hw Hin Hc Hnd Hids. destruct (w_pending _ Hw _ Hin) as (c1 & Hc1 & Hd & Hl & _). simplify_eq.
  destruct (finish_accounting v id c gen Hw Hc Hd) as (A1 & A2 & A3 & A4).
  pose proof Hw as [H1 H2 H3 H4 H5 H6 H7 H8 H9]. constructor; cbn in *; try done.
  - intros i [Hi Hne]%Hids. destruct (H2 i Hi) as (c0 & ?). exists c0. by rewrite lookup_insert_ne.
  - intros l i Hi. destruct (H3 l i Hi) as (Hlt & c0 & Hc0 & Hd0 & Hl0). split; [done|]. exists c0.
    rewrite lookup_insert_ne; [done|]. intros ->. congruence.
  - intros i c0. destruct (decide (i = id)) as [->|Hne].
    + rewrite lookup_insert_eq. by intros [= <-].
    + rewrite lookup_insert_ne by done. intros Hc0 Hd0.
      destruct (H4 i c0 Hc0 Hd0) as [?|?]; [left; by apply Hids|by right].
  - lia.
Qed.

(** ** Completion methods *)

Lemma view_lookup s id r : ex_requests s !! id = Some r -> v_reqs (view s) !! id = Some (core r).
Proof. intros H. cbn. by rewrite lookup_fmap, H. Qed.
Lemma view_lookup_inv s id c :
  v_reqs (view s) !! id = Some c -> exists r, ex_requests s !! id = Some r /\ core r = c.
Proof. cbn. rewrite lookup_fmap. destruct (ex_requests s !! id) as [r|]; [|done]. intros [= <-]; eauto. Qed.

Lemma mod_req_run s id f r :
  ex_requests s !! id = Some r ->
  exists s', mod_req id f s = (Ok tt, s') /\ ex_requests s' !! id = Some (f r) /\
    view s' = with_reqs (view s) (<[id := core (f r)]> (v_reqs (view s))).
Proof.
  intros H. unfold mod_req, mbind_, get_req, mmodify. rewrite H. eexists; split; [reflexivity|].
  split; [cbn; apply lookup_insert_eq|]. unfold view, with_reqs; cbn. by rewrite fmap_insert.
Qed.

Lemma with_reqs_eq v id c : v_reqs v !! id = Some c -> with_reqs v (<[id := c]> (v_reqs v)) = v.
Proof. intros H. unfold with_reqs. rewrite insert_id by done. by destruct v. Qed.

(** The common tail of the completion methods. *)
Lemma finish_tail_run s id f r :
  ex_requests s !! id = Some r -> done r = false -> capacity_released r = false ->
  core (f r) = mkCore true (lane r) (consumer_released r) false (budget r) (generated (f r))
                 (generated_reserve r) (decode_ready r) (output r) ->
  exists s', (do! mod_req id f; let! release := mark_completed id in mwhen release release_reserved_capacity) s
    = (Ok tt, s') /\ view s' = finish_view (view s) id (core r) (generated (f r)).
Proof.
  intros Hr Hd Hrel Hf. destruct (mod_req_run s id f r Hr) as (s1 & E1 & L1 & V1).
  unfold mbind_ at 1. rewrite E1. unfold mbind_ at 1, mark_completed, mbind_ at 1, get_req at 1. rewrite L1.
  assert (Hc : consumer_released (f r) = consumer_released r) by by apply (f_equal c_consumer) in Hf.
  assert (Hre : capacity_released (f r) = false) by by apply (f_equal c_released) in Hf.
  rewrite Hc, Hre. destruct (consumer_released r) eqn:Hcons; cbn [andb negb].
  - destruct (mod_req_run s1 id (set_capacity_released true) (f r) L1) as (s2 & E2 & L2 & V2).
    unfold mbind_ at 1. rewrite E2. cbn [mret_ mwhen]. unfold mwhen, release_reserved_capacity, mmodify.
    eexists; split; [reflexivity|]. rewrite V1 in V2. cbn in V2. rewrite insert_insert_eq in V2.
    assert (Hout : outstanding s2 = outstanding s) by by apply (f_equal v_outstanding) in V2.
    assert (Hcore : core (set_capacity_released true (f r)) = finished_core (core r) (generated (f r))).
    { unfold core in Hf |- *. injection Hf. intros. unfold finished_core; cbn. rewrite Hcons. congruence. }
    rewrite Hcore in V2. unfold finish_view. cbn [c_consumer core]. rewrite Hcons.
    destruct (Z.eqb_spec (outstanding s2) 0) as [Ez|Ez].
    + rewrite V2. unfold with_outstanding, with_reqs; cbn. rewrite <- Hout, Ez. done.
    + change (view (ex_set_outstanding (outstanding s2 - 1) s2)) with
        (with_outstanding (view s2) (outstanding s2 - 1)). rewrite V2. unfold with_outstanding, with_reqs; cbn.
      rewrite <- Hout. destruct (Z.eqb_spec (outstanding s2) 0); [done|]. done.
  - unfold mret_, mwhen. eexists; split; [reflexivity|]. rewrite V1. unfold finish_view.
    cbn [c_consumer core]. rewrite Hcons. unfold finished_core; cbn. rewrite Hcons, Hf. by rewrite <- Hcons.
Qed.

Lemma mod_req_quiet_run id f s s' :
  mod_req id f s = (Ok tt, s') -> (forall r, core (f r) = core r) -> view s' = view s.
Proof. intros H Hf. pose proof (quiet_mod_req id f Hf s) as Hq. by rewrite H in Hq. Qed.

(** [complete_error] and [complete_success] never throw, and complete a request that is not done. *)
Lemma complete_error_run s id c e :
  v_reqs (view s) !! id = Some c -> c_done c = false -> c_released c = false ->
  exists s', complete_error id e s = (Ok tt, s') /\ view s' = finish_view (view s) id c (c_generated c).
Proof.
  intros (r & Hr & <-)%view_lookup_inv Hd Hrel. unfold complete_error.
  destruct (mod_req_run s id (fun r => set_lane_plans (replicate kMaximumConcurrency None) (set_base_plan None r)) r Hr)
    as (s1 & E1 & L1 & V1).
  unfold mbind_ at 1, release_planning_state. rewrite E1.
  destruct (mod_req_run s1 id (set_prompt None) _ L1) as (s2 & E2 & L2 & V2).
  unfold mbind_ at 1. rewrite E2. unfold mbind_ at 1, get_req. rewrite L2.
  change (done (set_prompt None (set_lane_plans (replicate kMaximumConcurrency None) (set_base_plan None r))))
    with (done r). cbn in Hd. rewrite Hd.
  assert (Hv : view s2 = view s).
  { by rewrite (mod_req_quiet_run _ _ _ _ E2), (mod_req_quiet_run _ _ _ _ E1). }
  cbn in Hrel. unshelve edestruct (finish_tail_run s2 id (fun r => set_done true (set_error (Some e) r)) _ L2 Hd Hrel)
    as (s3 & E3 & V3); [unfold core; cbn; by rewrite Hrel|]. exists s3. split; [exact E3|]. rewrite V3, Hv. done.
Qed.

Lemma complete_success_run s id c reason :
  v_reqs (view s) !! id = Some c -> c_done c = false -> c_released c = false ->
  exists s', complete_success id reason s = (Ok tt, s') /\ view s' = finish_view (view s) id c [].
Proof.
  intros (r & Hr & <-)%view_lookup_inv Hd Hrel. unfold complete_success.
  destruct (mod_req_run s id (fun r => set_lane_plans (replicate kMaximumConcurrency None) (set_base_plan None r)) r Hr)
    as (s1 & E1 & L1 & V1).
  unfold mbind_ at 1, release_planning_state. rewrite E1.
  destruct (mod_req_run s1 id (set_prompt None) _ L1) as (s2 & E2 & L2 & V2).
  unfold mbind_ at 1. rewrite E2. unfold mbind_ at 1, get_req. rewrite L2.
  destruct (mod_req_run s2 id (fun r => set_reasoning [] (set_content [] (set_generated [] r))) _ L2)
    as (s3 & E3 & L3 & V3).
  unfold mbind_ at 1. rewrite E3. cbn in Hd. match goal with |- context [if done ?x then _ else _] =>
    change (done x) with (done r) end. rewrite Hd.
  match goal with |- context [set_rq_result (Some ?x)] => set (res := x) end.
  cbn in Hrel. unshelve edestruct (finish_tail_run s3 id (fun r => set_done true (set_rq_result (Some res) r)) _ L3 Hd Hrel)
    as (s4 & E4 & V4); [unfold core; cbn; by rewrite Hrel|]. exists s4. split; [exact E4|].
  assert (Hv : view s2 = view s).
  { by rewrite (mod_req_quiet_run _ _ _ _ E2), (mod_req_quiet_run _ _ _ _ E1). }
  rewrite Hv in V3. rewrite V4, V3. unfold finish_view, with_reqs, with_outstanding.
  cbn [v_reqs v_outstanding v_pending v_in_flight v_next v_slots v_prefill v_memory v_protection v_max
       v_max_outstanding v_closed v_worker_done]. by rewrite insert_insert_eq.
Qed.

Lemma complete_error_done s id c e :
  v_reqs (view s) !! id = Some c -> c_done c = true ->
  exists s', complete_error id e s = (Ok tt, s') /\ view s' = view s.
Proof.
  intros (r & Hr & <-)%view_lookup_inv Hd. unfold complete_error.
  destruct (mod_req_run s id (fun r => set_lane_plans (replicate kMaximumConcurrency None) (set_base_plan None r)) r Hr)
    as (s1 & E1 & L1 & V1).
  unfold mbind_ at 1, release_planning_state. rewrite E1.
  destruct (mod_req_run s1 id (set_prompt None) _ L1) as (s2 & E2 & L2 & V2).
  unfold mbind_ at 1. rewrite E2. unfold mbind_ at 1, get_req. rewrite L2.
  match goal with |- context [if done ?x then _ else _] => change (done x) with (done r) end.
  cbn in Hd. rewrite Hd. eexists; split; [reflexivity|].
  by rewrite (mod_req_quiet_run _ _ _ _ E2), (mod_req_quiet_run _ _ _ _ E1).
Qed.

(** The session's part of a cancellation changes only the session. *)
Definition set_core_output (c : Core) (o : os_state) : Core :=
  mkCore (c_done c) (c_lane c) (c_consumer c) (c_released c) (c_budget c) (c_generated c) (c_reserve c)
    (c_ready c) o.

Lemma on_output_run {A} (s : Exec) id c (m : M os_state A) :
  v_reqs (view s) !! id = Some c ->
  exists s', on_output id m s = ((m (c_output c)).1, s') /\
    view s' = with_reqs (view s) (<[id := set_core_output c (m (c_output c)).2]> (v_reqs (view s))).
Proof.
  intros (r & Hr & <-)%view_lookup_inv. unfold on_output. rewrite Hr. cbn.
  destruct (m (output r)) as [x o] eqn:Hm. cbn. eexists; split; [reflexivity|].
  unfold view, with_reqs; cbn. by rewrite fmap_insert.
Qed.

(** ** Requests between the queue and a lane *)

(** The requests [ids] were taken from the queue and have no lane yet. *)
Definition Limbo (ids : list Z) (v : View) : Prop := W (with_pending v (ids ++ v_pending v)).

Lemma W_perm v ids ids' : ids ≡ₚ ids' -> W (with_pending v ids) -> W (with_pending v ids').
Proof.
  intros Hp [H1 H2 H3 H4 H5 H6 H7 H8 H9]. constructor; cbn in *; try done.
  - by rewrite <- Hp.
  - intros i Hi. apply H2. by rewrite Hp.
  - intros i c Hc Hd. rewrite <- Hp. by eapply H4.
Qed.

Lemma with_pending_id v : with_pending v (v_pending v) = v. Proof. by destruct v. Qed.
Lemma Limbo_nil v : Limbo [] v -> W v.
Proof. unfold Limbo; cbn. by rewrite with_pending_id. Qed.

Lemma Limbo_take v ids ks : W v -> v_pending v ≡ₚ ids ++ ks -> Limbo ids (with_pending v ks).
Proof. intros Hw Hp. unfold Limbo; cbn. rewrite <- (with_pending_id v) in Hw. by eapply W_perm in Hw. Qed.

Lemma Limbo_core id ids v :
  Limbo (id :: ids) v -> exists c, v_reqs v !! id = Some c /\ c_done c = false /\ c_lane c = None /\ fresh c /\
    c_released c = false.
Proof.
  intros Hl. destruct (w_pending _ Hl id) as (c & Hc & Hd & Hla & Hf); [cbn; left|]. cbn in Hc.
  exists c. split_and!; try done. apply (W_unreleased _ id c Hl Hc Hd).
Qed.

Lemma Limbo_not_slot id ids v l : Limbo (id :: ids) v -> v_slots v !! l <> Some (Some id).
Proof.
  intros Hl Hs. apply (W_slot_not_pending _ l id Hl Hs). cbn. left.
Qed.

(** A request in limbo is completed. *)
Lemma Limbo_finish id ids v c gen :
  Limbo (id :: ids) v -> v_reqs v !! id = Some c -> Limbo ids (finish_view v id c gen).
Proof.
  intros Hl Hc. pose proof (w_nodup _ Hl) as Hnd. cbn in Hnd. apply NoDup_cons in Hnd as [Hni Hnd].
  apply (W_finish_pending _ (ids ++ v_pending v) id c gen Hl); cbn; [by left|done|done|].
  intros i. rewrite elem_of_cons. split; [intros Hi; split; [by right|by intros ->]|].
  by intros [[->|?] ?].
Qed.

Lemma Limbo_update id ids v c c' :
  Limbo (id :: ids) v -> v_reqs v !! id = Some c -> same_place c c' -> fresh c' ->
  Limbo (id :: ids) (with_reqs v (<[id := c']> (v_reqs v))).
Proof. intros Hl Hc Hp Hf. by apply (W_update _ id c c' Hl Hc Hp). Qed.

(** A request in limbo gets a free lane. *)
Definition admit_core (c : Core) (l : nat) (b : GenerationBudget) (reserve : Z) : Core :=
  mkCore (c_done c) (Some l) (c_consumer c) (c_released c) (Some b) (c_generated c) reserve (c_ready c)
    (c_output c).
Lemma W_admit id v c l b n :
  Limbo [id] v -> v_reqs v !! id = Some c -> v_slots v !! l = Some None -> (l < v_max v)%nat ->
  W (with_slot (with_reqs v (<[id := admit_core c l b n]> (v_reqs v))) l (Some id)).
Proof.
  intros Hl Hc Hs Hlt. destruct (Limbo_core _ _ _ Hl) as (c1 & Hc1 & Hd & Hla & _ & Hrel). simplify_eq.
  pose proof (Limbo_not_slot _ _ _ l Hl) as _. pose proof (lookup_lt_Some _ _ _ Hs) as Hlen.
  assert (Hns : forall l', v_slots v !! l' <> Some (Some id)) by (intros l'; by eapply Limbo_not_slot).
  destruct Hl as [H1 H2 H3 H4 H5 H6 H7 H8 H9]. cbn in *. apply NoDup_cons in H1 as [Hni Hnd].
  constructor; cbn; try done.
  - intros i Hi. assert (i <> id) by by intros ->. destruct (H2 i) as (c0 & ?); [by right|]. exists c0.
    by rewrite lookup_insert_ne.
  - intros l' i. rewrite slot_insert by done. case_decide as El.
    + intros [= <-]. subst. split; [done|]. rewrite lookup_insert_eq. by eexists.
    + intros Hi. destruct (H3 l' i Hi) as (? & c0 & ?). split; [done|]. exists c0.
      rewrite lookup_insert_ne; [done|]. intros ->. by eapply Hns.
  - intros i c0. destruct (decide (i = id)) as [->|Hne].
    + intros _ _. right. exists l. rewrite slot_insert by done. by case_decide.
    + rewrite lookup_insert_ne by done. intros Hc0 Hd0. destruct (H4 i c0 Hc0 Hd0) as [Hi|[l' Hl']].
      * left. by apply elem_of_cons in Hi as [->|?].
      * right. exists l'. rewrite slot_insert by done. case_decide; [congruence|done].
  - intros i c0. destruct (decide (i = id)) as [->|Hne].
    + rewrite lookup_insert_eq. intros [= <-]. cbn. by rewrite Hd.
    + rewrite lookup_insert_ne by done. apply H5.
  - rewrite (unreleased_insert _ _ _ _ Hc). unfold flag; cbn. lia.
  - by rewrite length_insert.
  - intros i. destruct (decide (i = id)) as [->|Hne]; [intros _; apply H9; eauto|].
    rewrite lookup_insert_ne by done. apply H9.
Qed.

(** ** The rest of the invariant *)

Lemma R_pending x v ks : R x v -> R x (with_pending v ks). Proof. by intros [H1 H2 H3 H4 H5]; constructor. Qed.
Lemma R_protection x v p : R x v -> R x (with_protection v p).
Proof. by intros [H1 H2 H3 H4 H5]; constructor. Qed.
Lemma W_protection v p : W v -> W (with_protection v p).
Proof. by intros [H1 H2 H3 H4 H5 H6 H7 H8 H9]; constructor. Qed.
Lemma W_prefill v p m : W v -> W (with_prefill v p m).
Proof. by intros [H1 H2 H3 H4 H5 H6 H7 H8 H9]; constructor. Qed.

Lemma R_update x v id c c' n :
  R x v -> v_reqs v !! id = Some c -> c_ready c' = c_ready c -> (budget_ok c -> budget_ok c') ->
  R x (with_outstanding (with_reqs v (<[id := c']> (v_reqs v))) n).
Proof.
  intros [H1 H2 H3 H4 H5] Hc Hr Hb. constructor; cbn; [| | |done|done].
  - intros l Hl. destruct (H1 l Hl) as (Hx & i & c0 & Hs & Hc0 & Hr0). split; [done|].
    destruct (decide (i = id)) as [->|Hne]; [|exists i, c0; by rewrite lookup_insert_ne].
    exists id, c'. rewrite lookup_insert_eq. simplify_eq. by rewrite Hr.
  - intros l i c0 Hs. destruct (decide (i = id)) as [->|Hne].
    + rewrite lookup_insert_eq. intros [= <-]. rewrite Hr. by eapply H2.
    + rewrite lookup_insert_ne by done. by eapply H2.
  - intros l i c0 Hs. destruct (decide (i = id)) as [->|Hne].
    + rewrite lookup_insert_eq. intros [= <-] Hx. apply Hb. by eapply H3.
    + rewrite lookup_insert_ne by done. by eapply H3.
Qed.

(** Facts that do not depend on the requests outside the lanes. *)
Definition off_stable (F : View -> Prop) : Prop := forall v id c' n,
  F v -> (forall l, v_slots v !! l <> Some (Some id)) ->
  F (with_outstanding (with_reqs v (<[id := c']> (v_reqs v))) n).

Lemma R_off x : off_stable (R x).
Proof.
  intros v id c' n [H1 H2 H3 H4 H5] Hoff. constructor; cbn; [| | |done|done].
  - intros l Hl. destruct (H1 l Hl) as (Hx & i & c0 & Hs & Hc0 & Hr0). split; [done|].
    exists i, c0. rewrite lookup_insert_ne; [done|]. intros ->. by eapply Hoff.
  - intros l i c0 Hs. rewrite lookup_insert_ne by (intros ->; by eapply Hoff). by eapply H2.
  - intros l i c0 Hs. rewrite lookup_insert_ne by (intros ->; by eapply Hoff). by eapply H3.
Qed.

(** The lane in the middle of a unit may change its request. *)
Lemma R_update_open v l id c' n :
  W v -> R (Some l) v -> v_slots v !! l = Some (Some id) ->
  R (Some l) (with_outstanding (with_reqs v (<[id := c']> (v_reqs v))) n).
Proof.
  intros Hw [H1 H2 H3 H4 H5] Hl.
  assert (Hoff : forall l' i, Some l <> Some l' -> v_slots v !! l' = Some (Some i) -> id <> i).
  { intros l' i Hne Hs ->. by pose proof (W_slot_inj _ _ _ _ Hw Hl Hs) as ->. }
  constructor; cbn; [| | |done|done].
  - intros l' Hl'. destruct (H1 l' Hl') as (Hx & i & c0 & Hs & Hc0 & Hr0). split; [done|].
    exists i, c0. rewrite lookup_insert_ne; [done|]. by eapply Hoff.
  - intros l' i c0 Hs Hc0 Hx. rewrite lookup_insert_ne in Hc0 by by eapply Hoff. by eapply H2.
  - intros l' i c0 Hs Hc0 Hx. rewrite lookup_insert_ne in Hc0 by by eapply Hoff. by eapply H3.
Qed.

Lemma R_open l v : R None v -> v_prefill v <> Some l -> R (Some l) v.
Proof.
  intros [H1 H2 H3 H4 H5] Hp. constructor; [| | |done|done].
  - intros l' Hl'. split; [congruence|]. by apply H1.
  - intros l' i c Hs Hc _. by eapply H2.
  - intros l' i c Hs Hc _. by eapply H3.
Qed.

Lemma R_end_prefill l v : R None v -> v_prefill v = Some l -> R (Some l) (with_prefill v None 0).
Proof.
  intros [H1 H2 H3 H4 H5] Hp. constructor; cbn; [done| | |done|done].
  - intros l' i c Hs Hc Hne Hr. pose proof (H2 l' i c Hs Hc ltac:(done) Hr). congruence.
  - intros l' i c Hs Hc Hne. by eapply H3.
Qed.

Lemma R_close l v id c :
  R (Some l) v -> v_slots v !! l = Some (Some id) -> v_reqs v !! id = Some c ->
  c_ready c = true -> budget_ok c -> R None v.
Proof.
  intros [H1 H2 H3 H4 H5] Hs Hc Hr Hb. constructor; [| | |done|done].
  - intros l' Hl'. split; [done|]. by apply H1.
  - intros l' i c0 Hs0 Hc0 _ Hr0. destruct (decide (l' = l)) as [->|]; [simplify_eq; congruence|].
    apply (H2 l' i c0); first [done|congruence].
  - intros l' i c0 Hs0 Hc0 _. destruct (decide (l' = l)) as [->|]; [by simplify_eq|].
    apply (H3 l' i c0); first [done|congruence].
Qed.

Lemma R_clear_slot l v : (l < length (v_slots v))%nat -> R (Some l) v -> R None (with_slot v l None).
Proof.
  intros Hlen [H1 H2 H3 H4 H5]. constructor; cbn; [| | |done|done].
  - intros l' Hl'. destruct (H1 l' Hl') as (Hne & i & c & ?). split; [done|]. exists i, c.
    rewrite slot_insert by done. case_decide; [congruence|done].
  - intros l' i c0. rewrite slot_insert by done. case_decide; [done|]. intros Hs Hc _. apply (H2 l' i c0); first [done|congruence].
  - intros l' i c0. rewrite slot_insert by done. case_decide; [done|]. intros Hs Hc _. apply (H3 l' i c0); first [done|congruence].
Qed.

Lemma S_finish_slot v l id c gen :
  W v -> R (Some l) v -> v_slots v !! l = Some (Some id) -> v_reqs v !! id = Some c ->
  S_ (with_slot (finish_view v id c gen) l None).
Proof.
  intros Hw Hr Hs Hc. split; [by apply W_finish_slot|]. apply R_clear_slot.
  - cbn. by eapply lookup_lt_Some.
  - by apply R_update_open.
Qed.

Lemma S_finish_limbo id ids v c gen F :
  off_stable F -> Limbo (id :: ids) v -> F v -> v_reqs v !! id = Some c ->
  Limbo ids (finish_view v id c gen) /\ F (finish_view v id c gen).
Proof.
  intros HF Hl Hr Hc. split; [by apply Limbo_finish|]. apply HF; [done|].
  intros l. by apply (Limbo_not_slot _ _ _ l Hl).
Qed.

(** ** More rules *)

Lemma hoare_bind_quiet {A B} P (m : M Exec A) (k : A -> M Exec B) Q (E : View -> Prop) :
  quiet m -> (forall v, P v -> E v) -> (forall a, hoare P (k a) Q E) -> hoare P (mbind_ m k) Q E.
Proof. intros Hm HE Hk. eapply hoare_bind; [by apply hoare_quiet|done]. Qed.

(** [m] does not throw. *)
Definition runs {A} (P : View -> Prop) (m : M Exec A) (Q : A -> View -> Prop) : Prop :=
  forall s, P (view s) -> exists a s', m s = (Ok a, s') /\ Q a (view s').

Lemma hoare_run {A} (P : View -> Prop) (m : M Exec A) (Q : A -> View -> Prop) E : runs P m Q -> hoare P m Q E.
Proof. intros H s Hs. destruct (H s Hs) as (a & s' & -> & HQ). done. Qed.

Lemma hoare_bind_get {B} P (k : Exec -> M Exec B) Q E :
  (forall s, P (view s) -> hoare (fun v => v = view s) (k s) Q E) -> hoare P (mbind_ mget k) Q E.
Proof. intros H s Hs. by apply (H s Hs s). Qed.

Lemma hoare_bind_req {B} P id (k : Request -> M Exec B) Q E :
  (forall r, hoare (fun v => P v /\ v_reqs v !! id = Some (core r)) (k r) Q E) ->
  hoare P (mbind_ (get_req id) k) Q E.
Proof.
  intros H s Hs. unfold mbind_, get_req. destruct (ex_requests s !! id) as [r|] eqn:Hr; [|by left].
  apply (H r s). split; [done|]. by apply view_lookup.
Qed.

Lemma hoare_mod (P : View -> Prop) id f (Q : unit -> View -> Prop) E :
  (forall v r, P v -> v_reqs v !! id = Some (core r) ->
     Q tt (with_reqs v (<[id := core (f r)]> (v_reqs v)))) -> hoare P (mod_req id f) Q E.
Proof.
  intros H s Hs. destruct (ex_requests s !! id) as [r|] eqn:Hr.
  - destruct (mod_req_run s id f r Hr) as (s' & -> & _ & ->). apply H; [done|]. by apply view_lookup.
  - unfold mod_req, mbind_, get_req. rewrite Hr. by left.
Qed.

Lemma hoare_modify (P : View -> Prop) f (Q : unit -> View -> Prop) E :
  (forall s, P (view s) -> Q tt (view (f s))) -> hoare P (mmodify f) Q E.
Proof. intros H s Hs. by apply H. Qed.

Lemma hoare_output {A} (P : View -> Prop) id (m : M os_state A) (Q : A -> View -> Prop) (E : View -> Prop) :
  (forall v c, P v -> v_reqs v !! id = Some c ->
     let v' := with_reqs v (<[id := set_core_output c (m (c_output c)).2]> (v_reqs v)) in
     match (m (c_output c)).1 with Ok a => Q a v' | Err _ => E v' end) ->
  hoare P (on_output id m) Q E.
Proof.
  intros H s Hs. destruct (ex_requests s !! id) as [r|] eqn:Hr; [|unfold on_output; rewrite Hr; by left].
  pose proof (view_lookup _ _ _ Hr) as Hv. specialize (H (view s) (core r) Hs Hv). cbv zeta in H.
  destruct (on_output_run s id (core r) m Hv) as (s' & -> & ->).
  destruct (m (c_output (core r))).1; [done|by right].
Qed.

Lemma hoare_map {A B} (P : View -> Prop) (f : A -> M Exec B) l E :
  (forall x, x ∈ l -> hoare P (f x) (fun _ => P) E) -> hoare P (mmapM f l) (fun _ => P) E.
Proof.
  induction l as [|x l IH]; intros Hf; cbn; [by apply hoare_ret|].
  eapply hoare_bind; [apply Hf; by left|intros y]. eapply hoare_bind.
  - apply IH. intros z Hz. apply Hf. by right.
  - intros ys. by apply hoare_ret.
Qed.

Lemma hoare_iter {A} (I : list A -> View -> Prop) (f : A -> M Exec unit) E :
  (forall x l, hoare (I (x :: l)) (f x) (fun _ => I l) E) ->
  forall l, hoare (I l) (miter f l) (fun _ => I []) E.
Proof.
  intros Hf l. induction l as [|x l IH]; cbn; [by apply hoare_ret|].
  eapply hoare_bind; [apply Hf|by intros []].
Qed.

Lemma runs_bind {A B} P (m : M Exec A) R (k : A -> M Exec B) Q :
  runs P m R -> (forall a, runs (R a) (k a) Q) -> runs P (mbind_ m k) Q.
Proof.
  intros Hm Hk s Hs. destruct (Hm s Hs) as (a & s1 & E & HR). unfold mbind_. rewrite E. by apply Hk.
Qed.

Lemma runs_ret {A} (P : View -> Prop) (a : A) (Q : A -> View -> Prop) : (forall v, P v -> Q a v) -> runs P (mret_ a) Q.
Proof. intros H s Hs. exists a, s. split; [done|by apply H]. Qed.

Lemma runs_modify (P : View -> Prop) f (Q : unit -> View -> Prop) :
  (forall s, P (view s) -> Q tt (view (f s))) -> runs P (mmodify f) Q.
Proof. intros H s Hs. exists tt, (f s). split; [done|by apply H]. Qed.

Lemma runs_pre {A} (P P' : View -> Prop) (m : M Exec A) Q :
  runs P m Q -> (forall v, P' v -> P v) -> runs P' m Q.
Proof. intros Hm HP s Hs. by apply Hm, HP. Qed.

Lemma runs_bind_get {B} P (k : Exec -> M Exec B) Q :
  (forall s, P (view s) -> runs (fun v => v = view s) (k s) Q) -> runs P (mbind_ mget k) Q.
Proof. intros H s Hs. by apply (H s Hs s). Qed.

Lemma runs_bind_gets {A B} P (f : Exec -> A) (k : A -> M Exec B) Q :
  (forall s, P (view s) -> runs (fun v => v = view s) (k (f s)) Q) -> runs P (mbind_ (mgets f) k) Q.
Proof. intros H s Hs. by apply (H s Hs s). Qed.

Lemma runs_iter {A} (I : list A -> View -> Prop) (f : A -> M Exec unit) :
  (forall x l, runs (I (x :: l)) (f x) (fun _ => I l)) -> forall l, runs (I l) (miter f l) (fun _ => I []).
Proof.
  intros Hf l. induction l as [|x l IH]; cbn; [by apply runs_ret|]. eapply runs_bind; [apply Hf|by intros []].
Qed.

Lemma hoare_pre {A} (P P' : View -> Prop) (m : M Exec A) Q E :
  hoare P m Q E -> (forall v, P' v -> P v) -> hoare P' m Q E.
Proof. intros Hm HP s Hs. by apply Hm, HP. Qed.

Lemma hoare_throw_if (P : View -> Prop) b e (E : View -> Prop) :
  (forall v, P v -> E v) -> hoare P (mthrow_if b e) (fun _ v => P v /\ b = false) E.
Proof. intros HE s Hs. destruct b; cbn; [right; by apply HE|done]. Qed.

(** ** Completing requests *)

(** Request [id] is in lane [l]; [Open]: in the middle of a unit; [Completed]: about to leave it. *)
Definition Held (l : nat) (id : Z) (v : View) : Prop := W v /\ v_slots v !! l = Some (Some id).
Definition Open (l : nat) (id : Z) (v : View) : Prop := Held l id v /\ R (Some l) v.
Definition Completed (l : nat) (v : View) : Prop := S_ (with_slot v l None).

Lemma Held_core l id v : Held l id v -> exists c, v_reqs v !! id = Some c /\ c_done c = false /\
  c_lane c = Some l /\ c_released c = false.
Proof.
  intros [Hw Hs]. destruct (w_slots _ Hw _ _ Hs) as (_ & c & Hc & Hd & Hl). exists c. split_and!; try done.
  apply (W_unreleased _ id c Hw Hc Hd).
Qed.

Lemma Held_update l id v c c' :
  Held l id v -> v_reqs v !! id = Some c -> same_place c c' ->
  Held l id (with_reqs v (<[id := c']> (v_reqs v))).
Proof.
  intros [Hw Hs] Hc Hp. split; [|done]. apply (W_update v id c c' Hw Hc Hp). intros Hin.
  by pose proof (W_slot_not_pending _ _ _ Hw Hs).
Qed.

Lemma Open_update l id v c c' :
  Open l id v -> v_reqs v !! id = Some c -> same_place c c' ->
  Open l id (with_reqs v (<[id := c']> (v_reqs v))).
Proof.
  intros [Hh Hr] Hc Hp. split; [by eapply Held_update|]. destruct Hh as [Hw Hs].
  by apply (R_update_open v l id c' (v_outstanding v)).
Qed.

Lemma complete_success_hoare l id reason E :
  hoare (Open l id) (complete_success id reason) (fun _ => Completed l) E.
Proof.
  apply hoare_run. intros s [Hh Hr]. destruct (Held_core _ _ _ Hh) as (c & Hc & Hd & _ & Hrel).
  destruct (complete_success_run s id c reason Hc Hd Hrel) as (s' & E1 & V1). exists tt, s'. split; [done|].
  rewrite V1. destruct Hh as [Hw Hs]. by apply (S_finish_slot (view s) l id c []).
Qed.

Lemma remove_slot_hoare l E : hoare (Completed l) (remove_completed_slot l) (fun _ => S_) E.
Proof. apply hoare_run. intros s Hs. exists tt. eexists. split; [reflexivity|]. exact Hs. Qed.

Lemma output_open {A} l id (m : M os_state A) :
  hoare (Open l id) (on_output id m) (fun _ => Open l id) (Held l id).
Proof.
  apply hoare_output. intros v c Ho Hc v'.
  assert (Open l id v') as Ho' by by apply (Open_update l id v c).
  clearbody v'. destruct (m (c_output c)).1; [done|apply Ho'].
Qed.

Lemma complete_cancelled_hoare l id :
  hoare (Open l id) (complete_cancelled id) (fun _ => Completed l) (Held l id).
Proof.
  unfold complete_cancelled. eapply hoare_bind; [apply output_open|intros ?].
  eapply hoare_bind; [apply output_open|intros out].
  apply hoare_bind_quiet; [apply quiet_append_output|by intros v []|intros ?].
  apply complete_success_hoare.
Qed.

Lemma end_prefill_hoare l id (B : gmap Z Core -> Prop) E :
  hoare (fun v => (Held l id v /\ (R None v \/ R (Some l) v)) /\ B (v_reqs v)) (end_prefill l)
    (fun _ v => Open l id v /\ B (v_reqs v)) E.
Proof.
  apply hoare_run. intros s [[[Hw Hs] Hr] HB]. unfold end_prefill, mbind_ at 1, mget, mwhen, is_prefill_lane.
  case_bool_decide as Hp; (eexists; eexists; split; [reflexivity|]; split; [|done]).
  - destruct Hr as [Hr|Hr]; [|by destruct (r_prefill _ _ Hr l Hp)]. cbn.
    split; [split; [by apply (W_prefill (view s) None 0)|done]|]. by apply (R_end_prefill l (view s)).
  - split; [done|]. destruct Hr; [by apply R_open|done].
Qed.

(** Requests in limbo complete without fail. *)
Lemma S_finish_output id ids v c o F :
  off_stable F -> Limbo (id :: ids) v -> F v -> v_reqs v !! id = Some c ->
  Limbo ids (finish_view v id (set_core_output c o) []) /\ F (finish_view v id (set_core_output c o) []).
Proof.
  intros HF Hl Hr Hc. split.
  - pose proof (Limbo_finish _ _ _ _ [] Hl Hc) as Hf. unfold Limbo in Hf.
    apply (W_update _ id (finished_core c []) (finished_core (set_core_output c o) [])) in Hf.
    + unfold Limbo. cbn in Hf |- *. by rewrite insert_insert_eq in Hf.
    + cbn. apply lookup_insert_eq.
    + done.
    + cbn. pose proof (w_nodup _ Hl) as Hnd. cbn in Hnd. by apply NoDup_cons in Hnd as [? _].
  - apply HF; [done|]. intros l. by apply (Limbo_not_slot _ _ _ l Hl).
Qed.
Lemma complete_cancelled_limbo id ids F E :
  off_stable F ->
  hoare (fun v => Limbo (id :: ids) v /\ F v) (complete_cancelled id) (fun _ v => Limbo ids v /\ F v) E.
Proof.
  intros HF. apply hoare_run. intros s [Hl Hr]. destruct (Limbo_core _ _ _ Hl) as (c & Hc & Hd & Hla & Hf & Hrel).
  destruct Hf as (Ho & Hfr). destruct (os_cancel _ Ho) as (d & o1 & out & o2 & P1 & P2).
  destruct (on_output_run s id c (preview_terminal FR_Cancelled) Hc) as (s1 & E1 & V1). rewrite P1 in E1, V1.
  cbn [fst snd] in E1, V1. assert (C1 : v_reqs (view s1) !! id = Some (set_core_output c o1))
    by (rewrite V1; cbn; apply lookup_insert_eq).
  destruct (on_output_run s1 id _ commit_preview C1) as (s2 & E2 & V2). cbn [set_core_output c_output] in E2, V2.
  rewrite P2 in E2, V2. cbn [fst snd] in E2, V2. rewrite V1 in V2. cbn in V2. rewrite insert_insert_eq in V2.
  unfold complete_cancelled, commit_preview_of, mbind_ at 1. rewrite E1. unfold mbind_ at 1. rewrite E2.
  unfold mbind_ at 1. pose proof (quiet_append_output id out s2) as Hq.
  assert (exists s3, append_output id out s2 = (Ok tt, s3)) as [s3 E3].
  { unfold append_output. destruct out; [by eexists|]. destruct (view_lookup_inv s2 id (set_core_output c o2)) as (r & Hr2 & _).
    - rewrite V2; cbn. apply lookup_insert_eq.
    - destruct (mod_req_run s2 id (fun r => foldl append_delta r (o :: out)) r Hr2) as (? & -> & _). by eexists. }
  rewrite E3 in Hq |- *. cbn in Hq. rewrite V2 in Hq.
  destruct (complete_success_run s3 id (set_core_output c o2) FR_Cancelled) as (s4 & E4 & V4); try done.
  { rewrite Hq; cbn. apply lookup_insert_eq. }
  exists tt, s4. split; [done|]. rewrite V4, Hq. unfold finish_view, with_reqs, with_outstanding; cbn.
  rewrite insert_insert_eq. by apply (S_finish_output id ids (view s) c o2 F).
Qed.

Lemma complete_error_limbo id ids e F :
  off_stable F ->
  runs (fun v => Limbo (id :: ids) v /\ F v) (complete_error id e) (fun _ v => Limbo ids v /\ F v).
Proof.
  intros HF s [Hl Hr]. destruct (Limbo_core _ _ _ Hl) as (c & Hc & Hd & Hla & Hf & Hrel).
  destruct (complete_error_run s id c e Hc Hd Hrel) as (s' & E1 & V1). exists tt, s'. split; [done|].
  rewrite V1. by apply S_finish_limbo.
Qed.

(** ** Units of work *)

Lemma slot_at_view s l id : slot_at s l = Some id -> v_slots (view s) !! l = Some (Some id).
Proof. unfold slot_at. cbn. by destruct (slots s !! l) as [[?|]|]; naive_solver. Qed.

Lemma S_held s l id : S_ (view s) -> slot_at s l = Some id -> Held l id (view s) /\ R None (view s).
Proof. intros [Hw Hr] Hs%slot_at_view. done. Qed.

Lemma cancel_lane_hoare lc : hoare S_ (cancel_active_lane lc) (fun _ => S_) W.
Proof.
  destruct lc as [l c]. unfold cancel_active_lane. apply hoare_bind_get. intros s Hs.
  destruct (slot_at s l) as [id|] eqn:Hl; [|by apply hoare_ret; intros ? ->].
  destruct c; cbn [negb]; [|by apply hoare_ret; intros ? ->].
  destruct (S_held _ _ _ Hs Hl) as [Hh Hr].
  apply (hoare_pre (fun v => (Held l id v /\ (R None v \/ R (Some l) v)) /\ True)); [|intros v ->; by auto].
  apply hoare_bind_quiet; [apply quiet_abort|by intros v [[[? _] _] _]|intros ?].
  eapply hoare_bind; [apply (end_prefill_hoare l id (fun _ => True))|intros ?].
  eapply hoare_bind; [eapply hoare_conseq; [apply complete_cancelled_hoare|by intros v []|done|by intros v []]|intros ?].
  eapply hoare_bind; [apply remove_slot_hoare|intros ?]. by apply hoare_ret.
Qed.

Lemma cancel_active_hoare cs : hoare S_ (cancel_active_requests cs) (fun _ => S_) W.
Proof.
  unfold cancel_active_requests. apply hoare_bind_get. intros s Hs.
  apply (hoare_pre S_); [|by intros v ->]. eapply hoare_bind.
  - apply hoare_map. intros x _. apply cancel_lane_hoare.
  - intros ?. apply hoare_quiet; [apply quiet_when, quiet_publish|by intros v []].
Qed.

(** [expire_scan] splits the queue. *)
Lemma expire_scan_perm now ids s cs es ks s' :
  expire_scan now ids s = (Ok (cs, es, ks), s') -> ids ≡ₚ cs ++ es ++ ks.
Proof.
  revert s cs es ks s'. induction ids as [|id ids IH]; intros s cs es ks s' H; cbn in H.
  - by injection H as <- <- <- _.
  - apply mbind_Ok in H as (c & s1 & _ & H). apply mbind_Ok in H as (r & s2 & _ & H).
    apply mbind_Ok in H as ([[cs1 es1] ks1] & s3 & H3 & H). apply IH in H3. injection H as H _.
    repeat case_match; injection H as <- <- <-; rewrite H3; solve_Permutation.
Qed.

Lemma expire_scan_hoare now ids :
  hoare (fun v => S_ v /\ v_pending v = ids) (expire_scan now ids)
    (fun r v => S_ v /\ v_pending v ≡ₚ (r.1.1 ++ r.1.2) ++ r.2) W.
Proof.
  intros s [Hs Hp]. pose proof (quiet_expire_scan now ids s) as Hq.
  destruct (expire_scan now ids s) as [[[[cs es] ks]|e] s2] eqn:Hscan; cbn in Hq; rewrite Hq; [|by right; apply Hs].
  apply expire_scan_perm in Hscan. split; [done|]. by rewrite Hp, Hscan, <- app_assoc.
Qed.

Lemma hoare_bind_gets {A B} P (f : Exec -> A) (k : A -> M Exec B) Q E :
  (forall s, P (view s) -> hoare (fun v => v = view s) (k (f s)) Q E) -> hoare P (mbind_ (mgets f) k) Q E.
Proof. intros H s Hs. by apply (H s Hs s). Qed.

Lemma cancel_all_hoare cs es F E :
  off_stable F ->
  hoare (fun v => Limbo (cs ++ es) v /\ F v) (miter complete_cancelled cs) (fun _ v => Limbo es v /\ F v) E.
Proof.
  intros HF. apply (hoare_iter (fun cs v => Limbo (cs ++ es) v /\ F v)). intros x l.
  by apply complete_cancelled_limbo.
Qed.

Lemma error_all_runs es e F :
  off_stable F ->
  runs (fun v => Limbo es v /\ F v) (miter (fun id => complete_error id e) es) (fun _ v => Limbo [] v /\ F v).
Proof.
  intros HF. apply (runs_iter (fun es v => Limbo es v /\ F v)). intros x l. by apply complete_error_limbo.
Qed.

Lemma Limbo_protection ids v p : Limbo ids v -> Limbo ids (with_protection v p).
Proof. intros Hl. by apply (W_protection (with_pending v (ids ++ v_pending v))). Qed.

Lemma expire_hoare : hoare S_ expire_pending_requests (fun _ => S_) W.
Proof.
  unfold expire_pending_requests. apply hoare_bind_quiet; [done|by intros v []|intros now].
  apply hoare_bind_gets. intros s Hs.
  eapply hoare_bind; [eapply hoare_pre; [apply expire_scan_hoare|intros v ->; done]|intros [[cs es] ks]].
  cbn [fst snd]. eapply hoare_bind with (R := fun _ v => Limbo (cs ++ es) v /\ R None v).
  { apply hoare_modify. intros s1 [[Hw Hr] Hp]. split; [by apply (Limbo_take (view s1))|by apply (R_pending _ (view s1) ks)]. }
  intros ?. eapply hoare_bind with (R := fun _ v => Limbo (cs ++ es) v /\ R None v).
  { apply hoare_modify. intros s1 [Hl Hr]. repeat case_match; try done.
    split; [by apply (Limbo_protection _ (view s1))|by apply (R_protection _ (view s1))]. }
  intros ?. eapply hoare_bind; [apply cancel_all_hoare, R_off|intros ?].
  eapply hoare_bind; [apply hoare_run, error_all_runs, R_off|intros ?].
  apply (hoare_pre S_); [|intros v [Hl%Limbo_nil ?]; by split].
  apply hoare_bind_quiet; [apply quiet_when, quiet_publish|by intros v []|intros ?]. by apply hoare_ret.
Qed.

(** ** Decode rounds *)

(** The requests in the lanes [ls] are decoding. *)
Definition ReadyIn (ls : list nat) (v : View) : Prop := forall l id c,
  l ∈ ls -> v_slots v !! l = Some (Some id) -> v_reqs v !! id = Some c -> c_ready c = true.
Definition D (ls : list nat) (v : View) : Prop := S_ v /\ ReadyIn ls v.

Lemma ReadyIn_update ls v id c c' n :
  ReadyIn ls v -> v_reqs v !! id = Some c -> c_ready c' = c_ready c ->
  ReadyIn ls (with_outstanding (with_reqs v (<[id := c']> (v_reqs v))) n).
Proof.
  intros H Hc Hr l i c0 Hl Hs. cbn in *. destruct (decide (i = id)) as [->|Hne].
  - rewrite lookup_insert_eq. intros [= <-]. rewrite Hr. by eapply H.
  - rewrite lookup_insert_ne by done. by eapply H.
Qed.

Lemma ReadyIn_clear ls v l : ReadyIn ls v -> ReadyIn ls (with_slot v l None).
Proof.
  intros H l' i c Hl Hs Hc. cbn in Hs, Hc. destruct (decide (l' = l)) as [->|Hne].
  - destruct (decide (l < length (v_slots v))%nat).
    + by rewrite list_lookup_insert_eq in Hs.
    + rewrite list_insert_ge in Hs by lia. by eapply H.
  - rewrite list_lookup_insert_ne in Hs by done. by eapply H.
Qed.

Lemma hoare_map_value {A B} (P : View -> Prop) (T : A -> B -> Prop) (f : A -> M Exec B) l E :
  (forall x, hoare P (f x) (fun y v => P v /\ T x y) E) ->
  hoare P (mmapM f l) (fun ys v => P v /\ Forall2 T l ys) E.
Proof.
  intros Hf. induction l as [|x l IH]; cbn; [apply hoare_ret; intros v Hv; by split|].
  eapply hoare_bind; [apply Hf|intros y]. intros s [Hs Ht]. revert s Hs.
  change (hoare P (let! ys := mmapM f l in mret_ (y :: ys)) (fun ys v => P v /\ Forall2 T (x :: l) ys) E).
  eapply hoare_bind; [apply IH|intros ys]. apply hoare_ret. intros v [Hv Hf2]. split; [done|by constructor].
Qed.

Lemma hoare_bind_deref {A B} P (o : option A) (k : A -> M Exec B) Q E :
  (forall a, o = Some a -> hoare P (k a) Q E) -> hoare P (mbind_ (mderef o) k) Q E.
Proof. intros H. destruct o as [a|]; [by apply (H a)|]. intros s _. by left. Qed.

Lemma hoare_bind_throw_if {B} (P : View -> Prop) b e (k : M Exec B) Q (E : View -> Prop) :
  (forall v, P v -> E v) -> (b = false -> hoare P k Q E) -> hoare P (do! mthrow_if b e; k) Q E.
Proof. intros HE H. destruct b; [|by apply H]. intros s Hs. right. by apply HE. Qed.

Lemma membership_hoare : hoare S_ build_round_membership (fun rows => D rows.*1) W.
Proof.
  unfold build_round_membership. apply hoare_bind_get. intros s Hs.
  eapply hoare_bind.
  - apply (hoare_map_value (fun v => v = view s) (fun _ (rows : list (nat * Z)) => ReadyIn rows.*1 (view s))).
    intros l. destruct (slot_at s l) as [id|] eqn:Hl.
    2:{ apply hoare_ret. intros v ->. split; [done|]. intros l' i c Hin. by apply elem_of_nil in Hin. }
    apply hoare_bind_req. intros r. destruct (decode_ready r) eqn:Hd; cbn [negb].
    + destruct (budget r) as [b|]; [|by apply hoare_throw; intros v [-> _]; apply Hs].
      apply hoare_ret. intros v [-> Hr]. split; [done|]. intros l' i c Hin%list_elem_of_singleton Hsl Hc.
      subst l'. apply slot_at_view in Hl. assert (i = id) as -> by (cbn in *; congruence).
      rewrite Hc in Hr. by injection Hr as ->.
    + apply hoare_ret. intros v [-> _]. split; [done|]. intros l' i c Hin. by apply elem_of_nil in Hin.
  - intros rows. apply hoare_ret. intros v [-> HF]. split; [done|].
    intros l i c [[l1 n] [-> Hin]]%list_elem_of_fmap.
    apply list_elem_of_In, in_concat in Hin as (row & Hrow%list_elem_of_In & Hin%list_elem_of_In).
    apply list_elem_of_lookup in Hrow as [k Hk]. destruct (Forall2_lookup_r _ _ _ _ _ HF Hk) as (x & _ & Hx).
    apply Hx. apply list_elem_of_fmap. by exists (l1, n).
Qed.

Lemma D_output {A} ls l id (m : M os_state A) (T : A -> Prop) :
  (forall o a o', m o = (Ok a, o') -> T a) ->
  hoare (fun v => D ls v /\ v_slots v !! l = Some (Some id)) (on_output id m)
    (fun a v => (D ls v /\ v_slots v !! l = Some (Some id)) /\ T a) W.
Proof.
  intros HT. apply hoare_output. intros v c [[[Hw Hr] Hd] Hs] Hc v'.
  assert (W v') as Hw'.
  { by destruct (Held_update l id v c (set_core_output c (m (c_output c)).2) (conj Hw Hs) Hc). }
  assert (D ls v').
  { split; [split; [done|]|].
    - by apply (R_update None v id c _ (v_outstanding v)).
    - by apply (ReadyIn_update ls v id c _ (v_outstanding v)). }
  assert (v_slots v' !! l = Some (Some id)) by done. clearbody v'.
  destruct (m (c_output c)) as [[a|e] o'] eqn:Hm; cbn; [|done]. split; [done|]. by eapply HT.
Qed.

(** What the first loop of a decode round decides about a row. *)
Definition row_decided (stride : Z) (row : nat * (nat * bool)) (d : Z * bool * FinishReason) : Prop :=
  if row.2.2 then d.1 = (0, true) else 0 < d.1.1 <= stride.

Lemma decode_row_hoare ls round row :
  hoare (D ls) (decode_row round row) (fun d v => D ls v /\ row_decided (row_stride round) row d) W.
Proof.
  destruct row as [i [l wc]]. unfold decode_row. apply hoare_bind_get. intros s Hs.
  apply hoare_bind_deref. intros id Hl.
  apply (hoare_pre (fun v => D ls v /\ v_slots v !! l = Some (Some id)));
    [|intros v ->; split; [done|by apply slot_at_view]].
  set (count := match row_counts round with [] => 1 | cs => u32 (cs !!! i) end).
  apply hoare_bind_throw_if; [by intros v [[[] _] _]|intros Hcount]. destruct wc.
  - eapply hoare_bind; [eapply hoare_pre; [by apply (D_output ls l id _ (fun _ => True))|by intros v ?]|intros ?].
    apply hoare_ret. by intros v [[? _] _].
  - apply hoare_bind_quiet; [unfold budget_of; quiet_tac|by intros v [[[] _] _]|intros b].
    eapply hoare_bind; [apply (D_output ls l id _ (fun d => 0 <= accepted_tokens d)); intros o d o'; apply os_count|intros d].
    apply hoare_bind_throw_if; [by intros v [[[[] _] _] _]|intros Hd].
    apply hoare_ret. intros v [[HD _] Hn]. split; [done|]. cbn. bprop. lia.
Qed.

(** ** Committing a row *)

(** Request [id] decodes in lane [l], its budget in order. *)
Definition Decoding (ls : list nat) (l : nat) (id : Z) (v : View) : Prop :=
  (Open l id v /\ ReadyIn (l :: ls) v) /\ exists c, v_reqs v !! id = Some c /\ budget_ok c.

Lemma D_decoding ls l id v :
  D (l :: ls) v -> v_slots v !! l = Some (Some id) -> Decoding ls l id v.
Proof.
  intros [[Hw Hr] Hd] Hs. destruct (Held_core l id v (conj Hw Hs)) as (c & Hc & _).
  assert (Hrc : c_ready c = true) by (eapply (Hd l id c); [by left|done|done]).
  split; [split; [split; [done|]|done]|].
  - apply R_open; [done|]. intros Hp. destruct (r_prefill _ _ Hr l Hp) as (_ & i & c0 & Hs0 & Hc0 & Hf).
    congruence.
  - exists c. split_and!; try done. by eapply (r_budget _ _ Hr).
Qed.

Lemma Decoding_D ls l id v : Decoding ls l id v -> D ls v.
Proof.
  intros [[[[Hw Hs] Hr] Hd] (c & Hc & Hb)]. split; [split; [done|]|].
  - apply (R_close l v id c Hr Hs Hc); [|done]. by eapply (Hd l id c); [left|..].
  - intros l' i c0 Hin. apply Hd. by right.
Qed.

Lemma ReadyIn_open_update ls l id v c c' :
  Open l id v /\ ReadyIn ls v -> v_reqs v !! id = Some c -> same_place c c' -> c_ready c' = c_ready c ->
  Open l id (with_reqs v (<[id := c']> (v_reqs v))) /\ ReadyIn ls (with_reqs v (<[id := c']> (v_reqs v))).
Proof.
  intros [Ho Hd] Hc Hp Hr. split; [by eapply Open_update|].
  by apply (ReadyIn_update ls v id c c' (v_outstanding v)).
Qed.

Lemma output_open_ready {A} ls l id (m : M os_state A) (b : Core -> Prop) :
  (forall c o, b c -> b (set_core_output c o)) ->
  hoare (fun v => (Open l id v /\ ReadyIn ls v) /\ exists c, v_reqs v !! id = Some c /\ b c) (on_output id m)
    (fun _ v => (Open l id v /\ ReadyIn ls v) /\ exists c, v_reqs v !! id = Some c /\ b c) (Held l id).
Proof.
  intros Hb. apply hoare_output. intros v c [Ho (c1 & Hc1 & Hbc)] Hc v'.
  assert (c1 = c) as -> by congruence.
  assert ((Open l id v' /\ ReadyIn ls v') /\ exists c, v_reqs v' !! id = Some c /\ b c) as Ho'.
  { split; [by eapply ReadyIn_open_update|]. eexists. split; [apply lookup_insert_eq|by apply Hb]. }
  clearbody v'. destruct (m (c_output c)).1; [done|apply Ho'].
Qed.

Lemma complete_success_ready ls l id reason E :
  hoare (fun v => Open l id v /\ ReadyIn ls v) (complete_success id reason)
    (fun _ v => Completed l v /\ ReadyIn ls (with_slot v l None)) E.
Proof.
  intros s [Ho Hd]. pose proof (complete_success_hoare l id reason E s Ho) as H.
  destruct Ho as [Hh _]. destruct (Held_core _ _ _ Hh) as (c & Hc & Hdn & _ & Hrel).
  destruct (complete_success_run s id c reason Hc Hdn Hrel) as (s' & E1 & V1). rewrite E1 in H |- *.
  split; [done|]. apply ReadyIn_clear. rewrite V1. by apply (ReadyIn_update ls (view s) id c).
Qed.

(** [n] tokens are generated and not yet taken from the budget. *)
Definition budget_due (n : Z) (c : Core) : Prop := exists b, c_budget c = Some b /\
  Z.of_nat (length (c_generated c)) - n + remaining_ b = c_reserve c.

Lemma commit_budget_hoare ls l id n :
  hoare (fun v => (Open l id v /\ ReadyIn ls v) /\ exists c, v_reqs v !! id = Some c /\ budget_due n c)
    (commit_budget id n)
    (fun _ v => (Open l id v /\ ReadyIn ls v) /\ exists c, v_reqs v !! id = Some c /\ budget_ok c) (Held l id).
Proof.
  unfold commit_budget, budget_of. intros s [Ho (c & Hc & b & Hb & Hg)].
  apply view_lookup_inv in Hc as Hr. destruct Hr as (r & Hr & <-). cbn in Hb.
  unfold mbind_ at 1, mbind_ at 1, get_req at 1. rewrite Hr, Hb. cbn [mderef mret_].
  unfold mbind_ at 1, mlift, budget_commit. destruct (n >? remaining_ b) eqn:Hgt; cbn [throw_if rbind]; [by left|].
  destruct (mod_req_run s id (set_budget (Some (mkBudget (remaining_ b - n) (limit_reason_ b)))) r Hr)
    as (s' & -> & _ & ->). split; [by eapply ReadyIn_open_update|].
  eexists. split; [apply lookup_insert_eq|]. eexists. split; [reflexivity|]. cbn in *. bprop. lia.
Qed.
Lemma row_tokens_length (round : BatchedGeneratedRound) i n acc :
  (i < n)%nat -> row_stride round * Z.of_nat n <= Z.of_nat (length (rd_tokens round)) ->
  0 < acc <= row_stride round ->
  Z.of_nat (length (take (Z.to_nat acc) (drop (i * Z.to_nat (row_stride round)) (rd_tokens round)))) = acc.
Proof. intros Hi Hn Ha. rewrite length_take, length_drop. nia. Qed.

Lemma commit_row_hoare round n ls i l wc d :
  (i < n)%nat -> row_stride round * Z.of_nat n <= Z.of_nat (length (rd_tokens round)) ->
  row_decided (row_stride round) (i, (l, wc)) d ->
  hoare (D (l :: ls)) (commit_row round ((i, (l, wc)), d)) (fun _ => D ls) W.
Proof.
  intros Hi Hn Hd. destruct d as [[acc term] reason]. unfold commit_row.
  apply hoare_bind_get. intros s Hs. apply hoare_bind_deref. intros id Hl%slot_at_view.
  pose proof (D_decoding _ _ _ _ Hs Hl) as Hdec.
  assert (HHW : forall v, Held l id v -> W v) by by intros v [? _].
  assert (HPW : forall v, Decoding ls l id v -> W v) by by intros v [[[[? _] _] _] _].
  apply (hoare_pre (Decoding ls l id)); [|by intros v ->]. clear Hs Hl Hdec s.
  eapply hoare_bind with (R := fun _ => Decoding ls l id).
  { apply hoare_when; [|done]. intros Hwc. destruct wc; [done|]. cbn in Hd.
    eapply hoare_bind with (R := fun _ v => (Open l id v /\ ReadyIn (l :: ls) v) /\
      exists c, v_reqs v !! id = Some c /\ budget_due acc c).
    { apply hoare_mod. intros v r [Hv (c & Hc & b & Hb & Hb0 & Hbr)] Hr0. assert (c = core r) as -> by congruence.
      split; [by eapply ReadyIn_open_update|]. eexists. split; [apply lookup_insert_eq|].
      exists b. cbn in *. rewrite length_app. pose proof (row_tokens_length round i n acc Hi Hn Hd).
      split; [done|]. lia. }
    intros ?. eapply hoare_bind with (R := fun _ => Decoding ls l id);
      [eapply hoare_conseq; [apply (commit_budget_hoare (l :: ls) l)|done..]|intros ?].
    apply hoare_quiet; [apply quiet_service|done]. }
  intros ?. eapply hoare_bind with (R := fun _ => Decoding ls l id).
  { eapply hoare_conseq; [apply (output_open_ready (l :: ls) l id _ budget_ok)|done..]. intros c o. done. }
  intros published. apply hoare_bind_quiet; [quiet_tac|done|intros r].
  apply hoare_bind_quiet; [quiet_tac|done|intros ?].
  apply hoare_bind_quiet; [quiet_tac|done|intros ?].
  apply hoare_when; [intros ->|intros _; apply Decoding_D].
  eapply hoare_bind; [eapply hoare_pre; [apply (complete_success_ready ls l)|]|intros ?].
  - intros v [[Ho Hr] _]. split; [done|]. intros l' i' c' Hin. apply Hr. by right.
  - apply hoare_run. intros s [Hs Hr]. exists tt. eexists. split; [reflexivity|]. by split.
Qed.

(** What the second loop of a round of [n] rows is given. *)
Definition row_ok (round : BatchedGeneratedRound) (n : nat)
    (x : nat * (nat * bool) * (Z * bool * FinishReason)) : Prop :=
  (x.1.1 < n)%nat /\ row_decided (row_stride round) x.1 x.2.
Definition row_lane (x : nat * (nat * bool) * (Z * bool * FinishReason)) : nat := x.1.2.1.

Lemma hoare_pure {A} (phi : Prop) P (m : M Exec A) Q E :
  (phi -> hoare P m Q E) -> hoare (fun v => P v /\ phi) m Q E.
Proof. intros H s [Hs Hp]. by apply H. Qed.

Lemma commit_rows_hoare round n rows :
  row_stride round * Z.of_nat n <= Z.of_nat (length (rd_tokens round)) ->
  Forall (row_ok round n) rows ->
  hoare (D (row_lane <$> rows)) (miter (commit_row round) rows) (fun _ => S_) W.
Proof.
  intros Hn HF. eapply hoare_conseq.
  - apply (hoare_iter (fun rest v => D (row_lane <$> rest) v /\ Forall (row_ok round n) rest)).
    intros [[i [l wc]] d] rest s [Hs Hf]. apply Forall_cons in Hf as [[Hi Hd] Hf].
    pose proof (commit_row_hoare round n _ i l wc d Hi Hn Hd s Hs) as H.
    destruct (commit_row round ((i, (l, wc)), d) s) as [[[]|e] s']; [by split|exact H].
  - intros v Hv. by split.
  - by intros ? v [[? _] _].
  - done.
Qed.

Lemma zip_lanes (lanes : list nat) (wcs : list bool) (ds : list (Z * bool * FinishReason)) k :
  length wcs = length lanes -> length ds = length lanes ->
  row_lane <$> zip (zip (seq k (length lanes)) (zip lanes wcs)) ds = lanes.
Proof.
  revert wcs ds k. induction lanes as [|l lanes IH]; intros [|w wcs] [|d ds] k; intros; simplify_eq/=; [done|].
  f_equal. apply IH; lia.
Qed.

(** [run_decode_round]: every row is resolved, and the lanes that did not finish go on. *)
Lemma decode_round_hoare membership :
  hoare (D membership.*1) (run_decode_round membership) (fun _ => S_) W.
Proof.
  assert (HDW : forall ls v, D ls v -> W v) by by intros ls v [[? _] _].
  unfold run_decode_round. apply hoare_bind_quiet; [quiet_tac|apply HDW|intros round].
  apply hoare_bind_get. intros s Hs. apply (hoare_pre (D membership.*1)); [|by intros v ->]. clear Hs.
  set (lanes := membership.*1) in *.
  eapply hoare_bind with (R := fun wcs v => D lanes v /\ Forall2 (fun _ _ => True) lanes wcs).
  { apply hoare_map_value. intros l. eapply hoare_conseq;
      [apply (hoare_quiet (D lanes)); [quiet_tac|apply HDW]|done|by intros ? v Hv; split|done]. }
  intros wcs. apply hoare_bind_throw_if; [intros v Hv; eapply HDW, Hv|intros Hlen].
  apply hoare_pure. intros Hw%Forall2_length.
  eapply hoare_bind; [apply hoare_map_value; intros row; apply decode_row_hoare|intros ds].
  set (rows := zip (seq 0 (length lanes)) (zip lanes wcs)).
  apply hoare_pure. intros Hds.
  apply hoare_bind_quiet; [quiet_tac|apply HDW|intros ?].
  eapply hoare_bind with (R := fun _ => S_).
  - eapply hoare_pre; [apply (commit_rows_hoare round (length lanes))|].
    + bprop. lia.
    + apply Forall_forall. intros [row d] Hin. unfold row_ok; cbn.
      apply list_elem_of_lookup in Hin as [k Hk].
      apply lookup_zip_with_Some in Hk as (row0 & d0 & [= <- <-] & Hk1 & Hk2).
      split; [|by eapply (Forall2_lookup_lr _ _ _ _ _ _ Hds)].
      subst rows. destruct row as [i lw].
      apply lookup_zip_with_Some in Hk1 as (j & y & [= -> ->] & Hj%lookup_seq & _). cbn. lia.
    + intros v. subst rows. rewrite zip_lanes; [done|done|].
      apply Forall2_length in Hds. rewrite <- Hds. rewrite !length_zip_with, length_seq. lia.
  - intros ?. apply hoare_quiet; [quiet_tac; unfold add_decode_stats, publish_runtime_stats; quiet_tac|by intros v []].
Qed.

(** ** Prefill steps *)

Lemma hoare_know {A} (phi : Prop) (P : View -> Prop) (m : M Exec A) Q E :
  (forall v, P v -> phi) -> (phi -> hoare P m Q E) -> hoare P m Q E.
Proof. intros HP H s Hs. by apply H; [eapply HP|]. Qed.

(** Request [id] is in the middle of a unit in lane [l], with [b] true of it. *)
Definition OpenWith (b : Core -> Prop) (l : nat) (id : Z) (v : View) : Prop :=
  Open l id v /\ exists c, v_reqs v !! id = Some c /\ b c.

Lemma OpenWith_ready b l id v :
  OpenWith b l id v <-> (Open l id v /\ ReadyIn [] v) /\ exists c, v_reqs v !! id = Some c /\ b c.
Proof.
  split; [intros [H1 H2]|intros [[H1 _] H2]; by split]. split; [split; [done|]|done].
  by intros ? ? ? ?%elem_of_nil.
Qed.

Lemma resolve_round_hoare l id token :
  hoare (OpenWith budget_ok l id) (resolve_round id token false)
    (fun completed v => if completed : bool then Completed l v else OpenWith budget_ok l id v) (Held l id).
Proof.
  assert (HH : forall b v, OpenWith b l id v -> Held l id v) by by intros b v [[? _] _].
  unfold resolve_round. apply hoare_bind_quiet; [quiet_tac|apply HH|intros r0].
  apply hoare_bind_deref. intros l' _. apply hoare_bind_quiet; [unfold budget_of; quiet_tac|apply HH|intros b].
  eapply hoare_bind with (R := fun _ => OpenWith budget_ok l id).
  { eapply hoare_conseq; [apply (output_open_ready [] l id _ budget_ok); by intros|..|done];
      [intros v|intros ? v]; apply OpenWith_ready. }
  intros d. apply hoare_bind_throw_if; [apply HH|intros _].
  eapply hoare_bind with (R := fun _ => OpenWith (budget_due 1) l id).
  { apply hoare_mod. intros v r [Ho (c & Hc & b' & Hb & Hb0 & Hbr)] Hr. assert (c = core r) as -> by congruence.
    split; [by eapply Open_update|]. eexists. split; [apply lookup_insert_eq|]. exists b'. cbn in *.
    rewrite length_app. cbn. split; [done|]. lia. }
  intros ?. apply hoare_bind_quiet; [quiet_tac|apply HH|intros ?].
  eapply hoare_bind with (R := fun _ => OpenWith budget_ok l id).
  { eapply hoare_conseq; [apply (commit_budget_hoare [] l id 1)|..|done];
      [intros v|intros ? v]; apply OpenWith_ready. }
  intros ?. eapply hoare_bind with (R := fun _ => OpenWith budget_ok l id).
  { eapply hoare_conseq; [apply (output_open_ready [] l id _ budget_ok); by intros|..|done];
      [intros v|intros ? v]; apply OpenWith_ready. }
  intros out. apply hoare_bind_quiet; [quiet_tac|apply HH|intros r].
  apply hoare_bind_quiet; [quiet_tac|apply HH|intros ?].
  apply hoare_bind_quiet; [quiet_tac|apply HH|intros ?].
  destruct (finished d); [|by apply hoare_ret].
  eapply hoare_bind; [eapply hoare_pre; [apply (complete_success_hoare l)|by intros v []]|intros ?].
  by apply hoare_ret.
Qed.

(** What a prefill step starts from: only an incomplete step leaves the lane prefilling. *)
Definition Step (l : nat) (id : Z) (goes_on : bool) (v : View) : Prop :=
  (Held l id v /\ (R None v \/ R (Some l) v)) /\
  (exists c, v_reqs v !! id = Some c /\ budget_ok c) /\ (goes_on = true -> R None v).

Lemma resolve_prefill_step_hoare l id step cancel :
  hoare (Step l id (negb cancel && negb (complete step))) (resolve_prefill_step id step cancel)
    (fun _ => S_) (Held l id).
Proof.
  set (P := Step l id _). assert (HH : forall v, P v -> Held l id v) by by intros v [[? _] _].
  unfold resolve_prefill_step. apply hoare_bind_quiet; [apply quiet_prefill_stats|apply HH|intros ?].
  apply hoare_bind_quiet; [apply quiet_service|apply HH|intros ?].
  apply hoare_bind_req. intros r. apply (hoare_know (lane r = Some l)).
  { intros v [HP Hr]. destruct (Held_core _ _ _ (HH _ HP)) as (c & Hc & _ & Hla & _).
    rewrite Hc in Hr. by injection Hr as ->. }
  intros Hl. rewrite Hl. apply (hoare_pre P); [|by intros v []]. subst P. destruct cancel; cbn [negb andb].
  - eapply hoare_bind; [eapply hoare_pre; [apply (end_prefill_hoare l id (fun _ => True))|by intros v [? _]]|intros ?].
    apply hoare_bind_quiet; [apply quiet_abort|by intros v [[? _] _]|intros ?].
    eapply hoare_bind; [eapply hoare_pre; [apply complete_cancelled_hoare|by intros v []]|intros ?].
    apply remove_slot_hoare.
  - destruct (complete step); cbn [negb].
    2:{ apply hoare_ret. intros v (([Hw _] & _) & _ & HR). split; [done|by apply HR]. }
    eapply hoare_bind with (R := fun _ => OpenWith budget_ok l id).
    { eapply hoare_conseq; [apply (end_prefill_hoare l id (fun m => exists c, m !! id = Some c /\ budget_ok c))|..|done].
      - by intros v (? & ? & _).
      - done. }
    intros ?. assert (HO : forall v, OpenWith budget_ok l id v -> Held l id v) by by intros v [[? _] _].
    apply hoare_bind_quiet; [quiet_tac|apply HO|intros ?].
    destruct (st_round step) as [|token [|]]; [by apply hoare_throw| |by apply hoare_throw].
    eapply hoare_bind; [apply resolve_round_hoare|intros []]; [apply remove_slot_hoare|].
    apply hoare_mod. intros v r0 [Ho (c & Hc & Hb)] Hr0. assert (c = core r0) as -> by congruence.
    pose proof (Open_update l id v _ (core (set_decode_ready true r0)) Ho Hc ltac:(done)) as [[Hw Hs] HR].
    split; [done|]. by eapply (R_close l); [..|apply lookup_insert_eq| |].
Qed.

Lemma prefill_step_hoare : hoare S_ run_prefill_step (fun _ => S_) W.
Proof.
  unfold run_prefill_step. apply hoare_bind_get. intros s Hs.
  destruct (prefill_lane s) as [l|] eqn:Hp; [|by apply hoare_throw; intros v ->; apply Hs].
  destruct (slot_at s l) as [id|] eqn:Hl; [|by apply hoare_throw; intros v ->; apply Hs].
  destruct (S_held _ _ _ Hs Hl) as [Hh Hr].
  destruct (Held_core _ _ _ Hh) as (c & Hc & _).
  assert (Hb : budget_ok c) by (eapply (r_budget _ _ Hr l); [apply Hh|done..]).
  apply (hoare_pre (Step l id true)).
  2:{ intros v ->. split_and!; [done|by left|by exists c|done]. }
  assert (HW : forall g v, Step l id g v -> W v) by by intros g v [[[? _] _] _].
  apply hoare_bind_quiet; [quiet_tac|apply HW|intros r].
  apply hoare_bind_throw_if; [apply HW|intros _].
  apply hoare_bind_quiet; [quiet_tac|apply HW|intros step].
  apply hoare_bind_quiet; [quiet_tac|apply HW|intros cancel].
  eapply hoare_bind with (R := fun _ => S_).
  - eapply hoare_conseq; [apply (resolve_prefill_step_hoare l)| |done|by intros v []].
    intros v (H1 & H2 & H3). split_and!; [apply H1..|done|intros _; by apply H3].
  - intros ?. apply hoare_quiet; [apply quiet_publish|by intros v []].
Qed.

(** ** Admission *)

(** Between admissions no lane prefills; [n] requests are queued, among them [ids]; [G] is what is
    known of the lanes. *)
Definition Idle (G : list (option Z) -> nat -> Prop) (n : nat) (ids : list Z) (v : View) : Prop :=
  R None v /\ v_prefill v = None /\ length (v_pending v) = n /\ (forall id, id ∈ ids -> id ∈ v_pending v) /\
  G (v_slots v) (v_max v).
Definition Adm G (n : nat) (ids : list Z) (v : View) : Prop := W v /\ Idle G n ids v.
Definition Any (ss : list (option Z)) (m : nat) : Prop := True.
Definition Free (l : nat) (ss : list (option Z)) (m : nat) : Prop := ss !! l = Some None /\ (l < m)%nat.

Lemma Idle_off G n ids : off_stable (Idle G n ids).
Proof. intros v id c' m (H1 & H2 & H3) Hoff. split; [by apply R_off|done]. Qed.
Lemma Adm_S G n ids v : Adm G n ids v -> S_ v /\ v_prefill v = None.
Proof. intros [Hw (Hr & Hp & _)]. done. Qed.

Lemma hoare_try {A} P (m : M Exec A) h Q E' E :
  hoare P m Q E' -> (forall e, hoare E' (h e) Q E) -> hoare P (mtry m h) Q E.
Proof.
  intros Hm Hh s Hs. unfold mtry. specialize (Hm s Hs). destruct (m s) as [[a|e] s1]; [done|].
  destruct e; try (destruct Hm as [?|?]; [done|by apply Hh]). by left.
Qed.

Lemma length_erase_first id ids : id ∈ ids -> S (length (erase_first id ids)) = length ids.
Proof.
  induction ids as [|x ids IH]; intros Hin; [by apply elem_of_nil in Hin|]. cbn.
  destruct (Z.eqb_spec x id); [done|]. apply elem_of_cons in Hin as [->|Hin]; [done|]. cbn. by rewrite IH.
Qed.

Lemma erase_perm id ids : id ∈ ids -> ids ≡ₚ id :: erase_first id ids.
Proof.
  induction ids as [|x ids IH]; intros Hin; [by apply elem_of_nil in Hin|]. cbn.
  destruct (Z.eqb_spec x id) as [->|?]; [done|]. apply elem_of_cons in Hin as [->|Hin]; [done|].
  rewrite (IH Hin) at 1. constructor.
Qed.

Lemma erase_pending_hoare G n id ids E :
  id ∉ ids -> hoare (Adm G (S n) (id :: ids)) (erase_pending id)
    (fun b v => (Limbo [id] v /\ Idle G n ids v) /\ b = true) E.
Proof.
  intros Hni. apply hoare_run. intros s [Hw (Hr & Hp & Hn & Hin & HG)]. unfold erase_pending, mbind_ at 1, mgets.
  assert (Hid : id ∈ pending s) by (apply Hin; left).
  assert (existsb (Z.eqb id) (pending s) = true) as ->.
  { apply existsb_exists. exists id. split; [by apply list_elem_of_In|apply Z.eqb_refl]. }
  eexists. eexists. split; [reflexivity|]. split; [|done]. split.
  - apply (Limbo_take (view s) [id]); [done|]. by apply erase_perm.
  - split_and!; [by apply (R_pending _ (view s))|done| | |done].
    + cbn in *. apply length_erase_first in Hid. lia.
    + intros i Hi. cbn. apply (erase_first_spec id (pending s)); [apply (w_nodup _ Hw)|done|].
      split; [apply Hin; by right|by intros ->].
Qed.

Lemma clear_protection_hoare G n id0 id ids E :
  hoare (fun v => Limbo [id] v /\ Idle G n ids v) (clear_protection_if_head id0)
    (fun _ v => Limbo [id] v /\ Idle G n ids v) E.
Proof.
  apply hoare_modify. intros s H. repeat case_match; try done. destruct H as (HL & HR & HI).
  split; [by apply (Limbo_protection _ (view s))|]. split; [|done]. by apply (R_protection _ (view s)).
Qed.

(** Removing a queued request with an error. *)
Lemma remove_pending_hoare G n id ids e E :
  id ∉ ids -> (forall v, W v -> E v) ->
  hoare (Adm G (S n) (id :: ids)) (remove_pending_error id e)
    (fun p v => Adm G n ids v /\ p = ControlProgress) E.
Proof.
  intros Hni HE. unfold remove_pending_error. eapply hoare_bind; [by apply erase_pending_hoare|intros b].
  apply hoare_pure. intros ->. cbn [negb].
  eapply hoare_bind; [apply clear_protection_hoare|intros ?].
  eapply hoare_bind; [apply hoare_run, complete_error_limbo, Idle_off|intros ?].
  apply (hoare_pre (Adm G n ids)); [|by intros v [H%Limbo_nil ?]].
  apply hoare_bind_quiet; [apply quiet_publish|intros v [? _]; by apply HE|intros ?]. by apply hoare_ret.
Qed.

(** A cancelled request leaves the queue. *)
Lemma cancel_pending_hoare G n id ids (E : View -> Prop) :
  (forall v, W v -> E v) ->
  hoare (fun v => Limbo [id] v /\ Idle G n ids v) (do! complete_cancelled id; publish_runtime_stats)
    (fun _ => Adm G n ids) E.
Proof.
  intros HE. eapply hoare_bind; [apply complete_cancelled_limbo, Idle_off|intros ?].
  apply (hoare_pre (Adm G n ids)); [|by intros v [H%Limbo_nil ?]].
  apply hoare_quiet; [apply quiet_publish|intros v [? _]; by apply HE].
Qed.

(** ** Starting a request *)

(** Request [id] was given lane [l], which prefills if it must. *)
Definition Admitted_ (l : nat) (id : Z) (v : View) : Prop :=
  Held l id v /\ (exists c, v_reqs v !! id = Some c /\ budget_ok c) /\
  (v_prefill v = Some l /\ R None v \/ R (Some l) v).
(** Where an exception may leave it. *)
Definition Failing (l : nat) (id : Z) (v : View) : Prop :=
  Held l id v \/ Limbo [id] v /\ v_slots v !! l = Some None.

Lemma R_admit v id c' l :
  Limbo [id] v -> R None v -> v_prefill v = None -> v_slots v !! l = Some None ->
  R (Some l) (with_slot (with_reqs v (<[id := c']> (v_reqs v))) l (Some id)).
Proof.
  intros Hl [H1 H2 H3 H4 H5] Hp Hs. pose proof (lookup_lt_Some _ _ _ Hs) as Hlen.
  assert (Hoff : forall l', v_slots v !! l' <> Some (Some id)) by (intros l'; by eapply Limbo_not_slot).
  constructor; cbn; [congruence| | |done|done].
  - intros l' i c0. rewrite slot_insert by done. case_decide; [congruence|]. intros Hi.
    rewrite lookup_insert_ne by (intros ->; by eapply Hoff). intros Hc0 _. by eapply H2.
  - intros l' i c0. rewrite slot_insert by done. case_decide; [congruence|]. intros Hi.
    rewrite lookup_insert_ne by (intros ->; by eapply Hoff). intros Hc0 _. by eapply H3.
Qed.

(** The lane starts to prefill. *)
Lemma R_start l v id c m :
  R (Some l) v -> v_slots v !! l = Some (Some id) -> v_reqs v !! id = Some c -> c_ready c = false ->
  budget_ok c -> v_prefill v = None -> R None (with_prefill v (Some l) m).
Proof.
  intros [H1 H2 H3 H4 H5] Hs Hc Hr Hb Hp. constructor; cbn; [| | |done|done].
  - intros l' [= <-]. split; [done|]. by exists id, c.
  - intros l' i c0 Hi Hc0 _ Hr0. destruct (decide (l' = l)) as [->|Hne]; [done|].
    pose proof (H2 l' i c0 Hi Hc0 ltac:(congruence) Hr0). congruence.
  - intros l' i c0 Hi Hc0 _. destruct (decide (l' = l)) as [->|Hne]; [by simplify_eq|].
    apply (H3 l' i c0 Hi Hc0). congruence.
Qed.

(** Request [id] was just put in lane [l]. *)
Definition Placed (l : nat) (id : Z) (v : View) : Prop :=
  Held l id v /\ (exists c, v_reqs v !! id = Some c /\ c_ready c = false /\ budget_ok c) /\
  R (Some l) v /\ v_prefill v = None.

Lemma hoare_bind_lift {A B} (P : View -> Prop) (r : result A) (k : A -> M Exec B) Q (E : View -> Prop) :
  (forall v, P v -> E v) -> (forall a, r = Ok a -> hoare P (k a) Q E) -> hoare P (mbind_ (mlift r) k) Q E.
Proof.
  intros HE Hk s Hs. unfold mbind_, mlift. destruct r as [a|e]; [by apply Hk|right; by apply HE].
Qed.

Lemma place_hoare n ids id l b reserve f (k : M Exec TransientRegion) Q E :
  remaining_ b = reserve -> 0 <= reserve ->
  (forall r, core (f r) = admit_core (core r) l b reserve) ->
  hoare (Placed l id) k Q E ->
  hoare (fun v => Limbo [id] v /\ Idle (Free l) n ids v) (do! mod_req id f; do! set_slot l (Some id); k) Q E.
Proof.
  intros Hb Hpos Hf Hk. eapply hoare_bind with (R := fun _ v => exists v0 c, (Limbo [id] v0 /\ Idle (Free l) n ids v0) /\
    v_reqs v0 !! id = Some c /\ v = with_reqs v0 (<[id := admit_core c l b reserve]> (v_reqs v0))).
  { apply hoare_mod. intros v r Hv Hr. exists v, (core r). by rewrite Hf. }
  intros ?. eapply hoare_bind; [|intros ?; exact Hk]. apply hoare_modify.
  intros s (v0 & c & [HL (HR & Hp & _ & _ & Hs & Hlt)] & Hc & Hv).
  change (view (ex_set_slots (<[l := Some id]> (slots s)) s)) with (with_slot (view s) l (Some id)). rewrite Hv.
  destruct (Limbo_core _ _ _ HL) as (c1 & Hc1 & _ & _ & (_ & Hrd & Hg) & _). simplify_eq.
  pose proof (lookup_lt_Some _ _ _ Hs) as Hlen. split_and!.
  - split; [by apply W_admit|]. cbn. by apply list_lookup_insert_eq.
  - eexists. split; [cbn; apply lookup_insert_eq|]. split; [done|]. exists b. cbn. rewrite Hg. cbn. split; [done|]. lia.
  - by apply R_admit.
  - done.
Qed.

Lemma Held_prefill l id v p m : Held l id (with_prefill v p m) <-> Held l id v.
Proof. split; intros [[H1 H2 H3 H4 H5 H6 H7 H8 H9] Hs]; by split; [constructor|]. Qed.

(** The memory is active, the lane not yet prefilling. *)
Definition Activated (l : nat) (id : Z) (v : View) : Prop := Placed l id (with_prefill v None 0) /\ v_prefill v = None.

Lemma Activated_failing l id v : Activated l id v -> Failing l id v.
Proof. intros [[H%Held_prefill _] _]. by left. Qed.

Lemma activate_hoare bytes al l id :
  hoare (Placed l id) (memory_activate bytes al) (fun _ => Activated l id) (Failing l id).
Proof.
  intros s Hs. unfold memory_activate. destruct (rm_activate bytes al (request_memory s)) as [x m].
  assert (HA : Activated l id (view (ex_set_request_memory m s))).
  { destruct Hs as (Hh & Hc & HR & Hp). split; [|done]. split_and!; [|done| |done].
    - by apply (Held_prefill l id (view s) None 0).
    - destruct HR as [H1 H2 H3 H4 H5]. constructor; cbn in *; try done. intros l' i c Hi Hc' Hne Hr.
      pose proof (H2 l' i c Hi Hc' Hne Hr). congruence. }
  destruct x as [[]|e]; [done|]. right. by apply Activated_failing.
Qed.

(** [admit_prepare] gives the lane, and the memory of the prefill. *)
Lemma admit_prepare_hoare n ids id l plan cls epoch :
  hoare (fun v => Limbo [id] v /\ Idle (Free l) n ids v) (admit_prepare id l (plan_summary plan) cls epoch)
    (fun _ => Admitted_ l id) (Failing l id).
Proof.
  unfold admit_prepare. apply hoare_bind_lift.
  { intros v (HL & _ & _ & _ & _ & Hs & _). by right. }
  intros b Hb. apply rbind_Ok in Hb as ([] & _ & [= <-]).
  apply (place_hoare n ids id l
    (mkBudget (effective_output_tokens (plan_summary plan)) (effective_limit_reason (plan_summary plan)))
    (effective_output_tokens (plan_summary plan))); [done|by apply tg_count|done|].
  assert (HF : forall v, Placed l id v -> Failing l id v) by by intros v [? _]; left.
  apply hoare_bind_quiet; [apply quiet_invalidate|done|intros ?].
  eapply hoare_bind with (R := fun _ => Admitted_ l id).
  2:{ intros t. apply hoare_bind_quiet; [apply quiet_publish|by intros v [? _]; left|intros ?]. by apply hoare_ret. }
  destruct (_ <? _).
  - eapply hoare_bind; [apply activate_hoare|intros ?].
    eapply hoare_bind with (R := fun _ => Admitted_ l id); [|intros ?; apply hoare_quiet; [done|by intros v [? _]; left]].
    apply hoare_modify. intros s [(Hh & (c & Hc & Hrd & Hb) & HR & _) Hp]. apply Held_prefill in Hh.
    split_and!; [by apply (Held_prefill l id (view s) (Some l) (active_bytes (request_memory s)))|by exists c|left].
    split; [done|]. destruct Hh as [_ Hsl].
    by apply (R_start l (with_prefill (view s) None 0) id c (active_bytes (request_memory s))).
  - apply hoare_ret. intros v (Hh & (c & Hc & Hrd & Hb) & HR & Hp). split_and!; [done|by exists c|by right].
Qed.


(** The handler gives the lane back and completes the request. *)
Lemma hoare_bind_skip {B} P f (k : M Exec B) Q E :
  (forall s, view (f s) = view s) -> hoare P k Q E -> hoare P (do! mmodify f; k) Q E.
Proof. intros Hf Hk s Hs. unfold mbind_, mmodify. apply Hk. by rewrite Hf. Qed.

Lemma Limbo_prefill ids v p m : Limbo ids v -> Limbo ids (with_prefill v p m).
Proof. intros H. by apply (W_prefill (with_pending v (ids ++ v_pending v)) p m). Qed.

Definition Gone (l : nat) (id : Z) (v : View) : Prop :=
  (exists v0, Held l id v0 /\ v = with_slot v0 l None) \/ Limbo [id] v.

Lemma complete_gone_hoare l id e E : hoare (Gone l id) (complete_error id e) (fun _ => W) E.
Proof.
  apply hoare_run. intros s [(v0 & Hh & Hv)|HL].
  - destruct (Held_core _ _ _ Hh) as (c & Hc & Hd & _ & Hrel).
    destruct (complete_error_run s id c e) as (s' & E1 & V1); [by rewrite Hv|done|done|].
    exists tt, s'. split; [done|]. rewrite V1, Hv. destruct Hh as [Hw Hs].
    by apply (W_finish_slot v0 l id c (c_generated c)).
  - destruct (Limbo_core _ _ _ HL) as (c & Hc & Hd & _ & _ & Hrel).
    destruct (complete_error_run s id c e Hc Hd Hrel) as (s' & E1 & V1). exists tt, s'. split; [done|].
    rewrite V1. apply Limbo_nil. by apply Limbo_finish.
Qed.

Lemma admit_failed_hoare {A} l id started e (Q : A -> View -> Prop) :
  hoare (Failing l id) (admit_failed id l started e) Q W.
Proof.
  unfold admit_failed. eapply hoare_bind with (R := fun _ => Failing l id).
  { destruct started; [by apply hoare_modify|by apply hoare_ret]. }
  intros ?. eapply hoare_bind with (R := fun _ => Failing l id).
  { apply hoare_run. intros s Hs. unfold end_prefill, mbind_ at 1, mget, mwhen.
    destruct (is_prefill_lane l s); (eexists; eexists; split; [reflexivity|]); [|done].
    change (Failing l id (with_prefill (view s) None 0)).
    destruct Hs as [Hs|[Hs ?]]; [left; by apply Held_prefill|right; split; [by apply Limbo_prefill|done]]. }
  intros ?. eapply hoare_bind with (R := fun _ => Gone l id).
  { apply hoare_modify. intros s [Hs|[Hs Hl]]; [left; by exists (view s)|right].
    change (Limbo [id] (with_slot (view s) l None)).
    assert (with_slot (view s) l None = view s) as ->; [|done]. unfold with_slot. by rewrite list_insert_id. }
  intros ?. apply hoare_bind_skip; [done|].
  eapply hoare_bind; [apply complete_gone_hoare|intros ?]. by apply hoare_throw.
Qed.

Lemma admit_start_hoare l id plan t :
  hoare (Admitted_ l id) (admit_start id l plan t) (fun _ => S_) (Failing l id).
Proof.
  assert (HF : forall v, Admitted_ l id v -> Failing l id v) by by intros v [? _]; left.
  unfold admit_start. apply hoare_bind_quiet; [quiet_tac|done|intros r].
  apply hoare_bind_deref. intros p _. apply hoare_bind_quiet; [quiet_tac|done|intros ?].
  apply hoare_bind_quiet; [quiet_tac|done|intros first]. apply hoare_bind_get. intros s Hs.
  apply hoare_bind_throw_if; [intros v ->; by apply HF|intros Hb].
  apply (hoare_pre (Step l id (negb (complete first)))).
  2:{ intros v ->. destruct Hs as (Hh & Hc & HR). split_and!; [done|naive_solver|done|].
      intros Hn. rewrite Hn in Hb. cbn in Hb. unfold is_prefill_lane in Hb. case_bool_decide as Hp; [|done].
      destruct HR as [[_ HR]|HR]; [done|]. by destruct (r_prefill _ _ HR l Hp). }
  assert (HW : forall g v, Step l id g v -> Failing l id v) by by intros g v [[? _] _]; left.
  apply hoare_bind_quiet; [quiet_tac|apply HW|intros cancel].
  eapply hoare_bind with (R := fun _ => S_).
  - eapply hoare_conseq; [apply (resolve_prefill_step_hoare l)| |done|by left].
    intros v (H1 & H2 & H3). split_and!; [apply H1..|done|]. destruct cancel; [done|apply H3].
  - intros ?. apply hoare_run. intros s' Hs'. eexists. eexists. by split.
Qed.

(** [admit_planned_request]: the request starts, or is removed. *)
Definition charge_ok (cls : BackfillClass) (epoch : Z) (plan : tg_plan) (p : option AdmissionProtection) : Prop :=
  cls = BF_Temporal -> exists pr, p = Some pr /\ Admission.epoch_id pr = epoch /\
    service_work_quanta (plan_summary plan) <= temporal_credit pr.
Definition Progressed (p : AdmissionProgress) (v : View) : Prop := S_ v /\ (p = RanGpuUnit \/ v_prefill v = None).

Lemma charge_hoare G n ids id cls epoch plan E :
  hoare (fun v => (Limbo [id] v /\ Idle G n ids v) /\ charge_ok cls epoch plan (v_protection v))
    (charge_temporal cls epoch (service_work_quanta (plan_summary plan)))
    (fun _ v => Limbo [id] v /\ Idle G n ids v) E.
Proof.
  apply hoare_run. intros s [(HL & HR & HI) Hc]. unfold charge_temporal. case_bool_decide as Hcls.
  - destruct (Hc Hcls) as (pr & Hp & He & Hw). cbn in Hp. unfold mbind_ at 1, mget. rewrite Hp.
    assert (negb (Admission.epoch_id pr =? epoch) || (service_work_quanta (plan_summary plan) >? temporal_credit pr) = false)
      as -> by (bprop; lia).
    eexists. eexists. split; [reflexivity|]. split; [by apply (Limbo_protection _ (view s))|].
    split; [by apply (R_protection _ (view s))|done].
  - eexists. eexists. split; [reflexivity|]. done.
Qed.

Lemma load_cancelled_run s id r :
  ex_requests s !! id = Some r -> exists c s', load_cancelled id s = (Ok c, s') /\ view s' = view s /\
    ex_requests s' !! id = Some (set_cancelled c r).
Proof.
  intros Hr. pose proof (quiet_load_cancelled id s) as Hq. set (c := cancelled r || env_cancelled (tick s) id).
  set (s' := ex_set_ex_requests (<[id := set_cancelled c r]> (ex_requests s)) (ex_set_tick (S (tick s)) s)).
  assert (E : load_cancelled id s = (Ok c, s')).
  { unfold load_cancelled, mod_req, mbind_, mgets, mmodify, get_req. cbn [ex_requests ex_set_tick].
    rewrite Hr. cbn [ex_requests ex_set_tick]. by rewrite Hr. }
  exists c, s'. rewrite E in Hq. split_and!; [done|done|apply lookup_insert_eq].
Qed.

Lemma hoare_at {A} P (m : M Exec A) Q (E : View -> Prop) s :
  hoare P m Q E -> P (view s) ->
  match m s with (Ok p, s') => Q p (view s') | (Err e, s') => e = Abort_ \/ E (view s') end.
Proof. intros H. apply H. Qed.

(** The part of [admit_planned_request] that follows its checks. *)
Lemma admit_plan_hoare n id ids l evict cls epoch plan :
  id ∉ ids ->
  hoare (fun v => Adm (Free l) (S n) (id :: ids) v /\ charge_ok cls epoch plan (v_protection v))
   (do! mwhen evict
          (let! s := mget in
           do! evict_lanes l plan (lanes_of s);
           let! s := mget in
           mthrow_if (negb (can_admit_lane (program s) l plan)) LogicError);
    do! mod_req id (fun r => set_lane_plans (<[l := None]> (lane_plans r)) r);
    let! erased := erase_pending id in
    if negb erased then mret_ AP_None else
    do! release_planning_state id;
    let summary := plan_summary plan in
    do! charge_temporal cls epoch (service_work_quanta summary);
    do! clear_protection_if_head id;
    let! transient := mtry (admit_prepare id l summary cls epoch) (admit_failed id l false) in
    do! mtry (admit_start id l plan transient) (admit_failed id l true);
    mret_ RanGpuUnit) Progressed W.
Proof.
  intros Hni. apply hoare_bind_quiet; [apply quiet_when; quiet_tac; apply quiet_evict|by intros v [[? _] _]|intros ?].
  apply hoare_bind_quiet; [quiet_tac|by intros v [[? _] _]|intros ?].
  eapply hoare_bind with (R := fun b v => ((Limbo [id] v /\ Idle (Free l) n ids v) /\
    charge_ok cls epoch plan (v_protection v)) /\ b = true).
  { intros s [Hs Hc]. pose proof (erase_pending_hoare (Free l) n id ids W Hni s Hs) as H.
    destruct (erase_pending id s) as [[b|e] s'] eqn:He; [|exact H]. destruct H as [H ->]. split; [split; [done|]|done].
    unfold erase_pending, mbind_, mgets, mmodify, mret_ in He. case_match; [|done]. injection He as <-. exact Hc. }
  intros b. apply hoare_pure. intros ->. cbn [negb].
  eapply hoare_bind with (R := fun _ v => (Limbo [id] v /\ Idle (Free l) n ids v) /\
    charge_ok cls epoch plan (v_protection v)).
  { apply hoare_run. intros s [[HL HI] Hc]. destruct (Limbo_core _ _ _ HL) as (c & Hr & _).
    destruct (view_lookup_inv _ _ _ Hr) as (r & Hr' & _).
    pose proof (quiet_release_planning id s) as Hq. unfold release_planning_state in *.
    match goal with |- context [mod_req id ?f] => destruct (mod_req_run s id f r Hr') as (s' & E1 & _ & _) end.
    rewrite E1 in Hq |- *. cbn in Hq. exists tt, s'. by rewrite Hq. }
  intros ?. eapply hoare_bind; [apply charge_hoare|intros ?].
  eapply hoare_bind; [apply clear_protection_hoare|intros ?].
  eapply hoare_bind; [eapply hoare_try; [apply (admit_prepare_hoare n ids)|intros e; apply admit_failed_hoare]|intros t].
  eapply hoare_bind; [eapply hoare_try; [apply admit_start_hoare|intros e; apply admit_failed_hoare]|intros ?].
  apply hoare_ret. intros v Hv. split; [done|by left].
Qed.

Lemma admit_planned_hoare n id ids choice cls epoch s :
  id ∉ ids -> Adm (Free (ch_lane choice)) (S n) (id :: ids) (view s) ->
  (forall r plan, ex_requests s !! id = Some r -> lane_plans r !! ch_lane choice = Some (Some plan) ->
     charge_ok cls epoch plan (protection s)) ->
  match admit_planned_request id choice cls epoch s with
  | (Ok p, s') => Progressed p (view s')
  | (Err e, s') => e = Abort_ \/ W (view s')
  end.
Proof.
  intros Hni HA Hcharge. set (l := ch_lane choice) in *.
  assert (Hin : id ∈ pending s) by (destruct HA as [_ (_ & _ & _ & H & _)]; apply H; left).
  destruct (w_pending _ (proj1 HA) id Hin) as (c & Hc & _). destruct (view_lookup_inv _ _ _ Hc) as (r & Hr & _).
  unfold admit_planned_request. unfold mbind_ at 1, get_req at 1. rewrite Hr. unfold mbind_ at 1, now_.
  set (s1 := ex_set_tick (S (tick s)) s). assert (HA1 : Adm (Free l) (S n) (id :: ids) (view s1)) by done.
  assert (Hr1 : ex_requests s1 !! id = Some r) by done. change (protection s) with (protection s1) in Hcharge.
  specialize (Hcharge r). assert (Hch : forall plan, lane_plans r !! l = Some (Some plan) ->
    charge_ok cls epoch plan (v_protection (view s1))) by (intros p; by apply Hcharge).
  clear Hcharge. clearbody s1. clear HA Hc Hr Hin c.
  assert (HP : forall p v, Adm (Free l) n ids v /\ p = ControlProgress -> Progressed p v).
  { intros p v [[Hs Hp]%Adm_S ->]. by split; [|right]. }
  destruct (_ >=? _).
  { refine (hoare_at _ _ Progressed W _ _ HA1).
    eapply hoare_conseq; [by apply (remove_pending_hoare (Free l) n id ids)|done|apply HP|done]. }
  destruct (load_cancelled_run s1 id r Hr1) as (b & s2 & E2 & V2 & L2). unfold mbind_ at 1. rewrite E2.
  rewrite <- V2 in HA1. destruct b.
  - refine (hoare_at _ _ Progressed W _ _ HA1). eapply hoare_bind; [by apply erase_pending_hoare|intros b].
    apply hoare_pure. intros ->. cbn [negb]. eapply hoare_bind; [apply clear_protection_hoare|intros ?].
    eapply hoare_bind; [apply complete_cancelled_limbo, Idle_off|intros ?].
    apply (hoare_pre (Adm (Free l) n ids)); [|by intros v [H%Limbo_nil ?]].
    apply hoare_bind_quiet; [apply quiet_publish|by intros v []|intros ?]. apply hoare_ret. intros v Hv.
    by apply HP.
  - unfold mbind_ at 1, get_req at 1. rewrite L2. cbn [set_cancelled lane_plans]. fold l.
    destruct (lane_plans r !! l) as [[plan|]|] eqn:Hpl; 
      [|change (LogicError = Abort_ \/ W (view s2)); right; apply HA1..].
    refine (hoare_at _ _ Progressed W _ (admit_plan_hoare n id ids l _ cls epoch plan Hni) _).
    split; [done|]. rewrite V2. by apply Hch.
Qed.

(** ** Planning *)

Definition choice_free (o : option LaneChoice) (v : View) : Prop :=
  match o with Some ch => Free (ch_lane ch) (v_slots v) (v_max v) | None => True end.

Lemma hoare_frozen {A} (P : View -> Prop) (m : M Exec A) (Q : A -> View -> Prop) E :
  (forall v0, P v0 -> hoare (fun v => v = v0) m Q E) -> hoare P m Q E.
Proof. intros H s Hs. by apply (H (view s) Hs s). Qed.

Lemma find_lane_hoare can ev id v0 ls sel reuse :
  W v0 -> (forall l, l ∈ ls -> (l < v_max v0)%nat) -> choice_free sel v0 ->
  hoare (fun v => v = v0) (find_lane can ev id ls sel reuse) (fun r v => v = v0 /\ choice_free r.1 v0)
    (fun v => v = v0).
Proof.
  intros Hw. revert sel reuse. induction ls as [|l ls IH]; intros sel reuse Hls Hsel; cbn [find_lane].
  - apply hoare_ret. by intros v ->.
  - assert (Hls' : forall l', l' ∈ ls -> (l' < v_max v0)%nat) by (intros l' Hl'; apply Hls; by right).
    apply hoare_bind_get. intros s Hs. apply (hoare_pre (fun v => v = v0)); [|by intros v ->].
    destruct (is_some (slot_at s l)) eqn:Hl; [by apply IH|].
    apply hoare_bind_quiet; [apply quiet_lane_plan|done|intros ?].
    apply hoare_bind_quiet; [apply quiet_lane_plan_of|done|intros plan].
    apply hoare_bind_quiet; [quiet_tac|done|intros p].
    destruct (_ && _); apply IH; try done. cbn. subst v0. split; [|apply Hls; by left].
    assert (Hlen : (l < length (slots s))%nat).
    { destruct (w_lanes _ Hw) as [H1 H2]. cbn in *. assert ((l < max_concurrency s)%nat) by (apply Hls; by left). lia. }
    unfold slot_at in Hl. cbn. destruct (lookup_lt_is_Some_2 _ _ Hlen) as [o Ho]. rewrite Ho in Hl |- *.
    by destruct o.
Qed.

Lemma find_admission_hoare (P : View -> Prop) id :
  (forall v, P v -> W v) ->
  hoare P (find_admission_lane id) (fun c v => P v /\ choice_free c v) P.
Proof.
  intros HW. apply hoare_frozen. intros v0 HP. unfold find_admission_lane. apply hoare_bind_get. intros s Hs.
  apply (hoare_pre (fun v => v = v0)); [|by intros v ->].
  assert (Hls : forall l, l ∈ lanes_of s -> (l < v_max v0)%nat).
  { intros l Hl%elem_of_seq. subst v0. cbn. lia. }
  assert (HE : forall A (m : M Exec A) Q, hoare (fun v => v = v0) m Q (fun v => v = v0) -> hoare (fun v => v = v0) m Q P).
  { intros A m Q H. eapply hoare_conseq; [exact H|done..|by intros v ->]. }
  eapply hoare_bind; [apply HE, find_lane_hoare; by auto|intros [[c|] reuse]].
  - apply hoare_ret. intros v [-> Hc]. done.
  - apply hoare_pure. intros _. eapply hoare_bind; [apply HE, find_lane_hoare; by auto|intros [c r]].
    apply hoare_ret. by intros v [-> Hc].
Qed.

(** [plan_pending]: the request is planned, or removed. *)
Lemma plan_pending_hoare n id ids :
  id ∉ ids ->
  hoare (Adm Any (S n) (id :: ids)) (plan_pending id)
    (fun r v => match r with
                | None => Adm Any n ids v
                | Some (_, c) => Adm Any (S n) (id :: ids) v /\ choice_free c v
                end) W.
Proof.
  intros Hni. assert (HW : forall v, Adm Any (S n) (id :: ids) v -> W v) by by intros v [? _].
  assert (Hrm : forall e B (b : B) (Q : B -> View -> Prop), (forall v, Adm Any n ids v -> Q b v) ->
    hoare (Adm Any (S n) (id :: ids)) (let! _ := remove_pending_error id e in mret_ b) Q W).
  { intros e B b Q HQ. eapply hoare_bind; [by apply (remove_pending_hoare Any n id ids)|intros p].
    apply hoare_ret. intros v []. by apply HQ. }
  unfold plan_pending.
  eapply hoare_bind with (R := fun ok v => if ok : bool then Adm Any (S n) (id :: ids) v else Adm Any n ids v).
  { eapply hoare_try with (E' := Adm Any (S n) (id :: ids)); [|intros e; eapply hoare_bind with (R := fun _ => Adm Any n ids); [by apply Hrm|intros ?; by apply hoare_ret]].
    apply hoare_bind_quiet; [apply quiet_base_plan|done|intros ?]. by apply hoare_ret. }
  intros [|]; cbn [negb]; [|by apply hoare_ret].
  apply hoare_bind_quiet; [quiet_tac|apply HW|intros r].
  apply hoare_bind_deref. intros base _. apply hoare_bind_get. intros s Hs.
  apply (hoare_pre (Adm Any (S n) (id :: ids))); [|by intros v ->].
  destruct (negb _); [by apply Hrm|].
  eapply hoare_bind with (R := fun found v => match found with
    | Some c => Adm Any (S n) (id :: ids) v /\ choice_free c v | None => Adm Any n ids v end).
  { eapply hoare_try with (E' := Adm Any (S n) (id :: ids)); [|intros e; eapply hoare_bind with (R := fun _ => Adm Any n ids); [by apply Hrm|intros ?; by apply hoare_ret]].
    eapply hoare_bind; [by apply find_admission_hoare|intros c]. by apply hoare_ret. }
  intros [c|]; by apply hoare_ret.
Qed.

Lemma Adm_free n ids l v : Adm Any n ids v -> Free l (v_slots v) (v_max v) -> Adm (Free l) n ids v.
Proof. intros [Hw (H1 & H2 & H3 & H4 & _)] Hf. by split. Qed.

Lemma lane_plan_of_run id l s :
  lane_plan_of id l s = (Err Abort_, s) \/ exists r plan, ex_requests s !! id = Some r /\
    lane_plans r !! l = Some (Some plan) /\ lane_plan_of id l s = (Ok plan, s).
Proof.
  unfold lane_plan_of, mbind_, get_req. destruct (ex_requests s !! id) as [r|]; [|by left].
  destruct (lane_plans r !! l) as [[plan|]|] eqn:Hl; rewrite ?Hl; [right|by left..]. by exists r, plan.
Qed.

(** The candidates behind a protected head. *)
Lemma try_backfill_hoare active distance ids n control :
  NoDup ids ->
  hoare (Adm Any n ids) (try_backfill active distance ids control)
    (fun r v => match r with inl p => Progressed p v | inr _ => exists m, Adm Any m [] v end) W.
Proof.
  intros Hnd. revert n control. induction Hnd as [|id ids Hni Hnd IH]; intros n control; cbn [try_backfill].
  - apply hoare_ret. intros v Hv. by exists n.
  - assert (HW : forall n v, Adm Any n (id :: ids) v -> W v) by by intros ? v [? _].
    assert (Hn : forall v, Adm Any n (id :: ids) v -> exists m, n = S m).
    { intros v [_ (_ & _ & Hl & Hin & _)]. destruct n as [|m]; [|by exists m].
      apply nil_length_inv in Hl. specialize (Hin id ltac:(left)). rewrite Hl in Hin. by apply elem_of_nil in Hin. }
    apply (hoare_know _ _ _ _ _ Hn). intros [m ->]. clear Hn.
    assert (Hskip : forall c, hoare (Adm Any (S m) (id :: ids)) (try_backfill active distance ids c)
      (fun r v => match r with inl p => Progressed p v | inr _ => exists m, Adm Any m [] v end) W).
    { intros c. eapply hoare_pre; [apply IH|]. intros v [Hw (H1 & H2 & H3 & H4 & H5)]. split; [done|].
      split_and!; try done. intros i Hi. apply H4. by right. }
    apply hoare_bind_quiet; [quiet_tac|apply HW|intros c]. destruct c.
    { eapply hoare_bind; [by apply erase_pending_hoare|intros b]. apply hoare_pure. intros ->. cbn [mwhen].
      eapply hoare_bind; [by apply cancel_pending_hoare|intros ?]. apply IH. }
    apply hoare_bind_quiet; [quiet_tac|apply HW|intros r].
    apply hoare_bind_quiet; [quiet_tac|apply HW|intros t]. destruct (_ >=? _).
    { eapply hoare_bind; [by apply (remove_pending_hoare Any m id ids)|intros p].
      eapply hoare_pre; [apply IH|]. by intros v []. }
    eapply hoare_bind; [by apply plan_pending_hoare|intros [[summary [choice|]]|]]; [|eapply hoare_pre; [apply Hskip|by intros v []]|apply IH].
    intros s [HA Hf]. destruct (lane_plan_of_run id (ch_lane choice) s) as [E|(r1 & plan & Hr1 & Hpl & E)];
      unfold mbind_ at 1; rewrite E; [by left|].
    unfold mbind_ at 1, mget. unfold mbind_ at 1. destruct (protection s) as [p|] eqn:Hp; [|by left].
    unfold mderef, mret_ at 1.
    set (cls := if persistent_backfill_is_safe _ _ _ _ then _ else _).
    assert (Hcls : cls = BF_Temporal -> service_work_quanta (plan_summary plan) <= temporal_credit p).
    { subst cls. destruct (persistent_backfill_is_safe _ _ _ _); [done|]. destruct (_ && _) eqn:Hb; [|done]. intros _.
      bprop. lia. }
    assert (HA' := admit_planned_hoare m id ids choice cls (Admission.epoch_id p) s Hni (Adm_free _ _ _ _ HA Hf)).
    assert (Hadm : match (let! progress := admit_planned_request id choice cls (Admission.epoch_id p) in
                          mret_ (@inl _ bool progress)) s with
                   | (Ok r, s') => match r with inl p => Progressed p (view s') | inr _ => exists m, Adm Any m [] (view s') end
                   | (Err e, s') => e = Abort_ \/ W (view s') end).
    { unfold mbind_. destruct (admit_planned_request id choice cls (Admission.epoch_id p) s) as [[q|e] s'];
        apply HA'; intros r2 plan2 Hr2 Hpl2 Ht; simplify_eq; exists p; by auto. }
    clear HA'. clearbody cls. destruct cls; [by apply (Hskip control s)|exact Hadm..].
Qed.

Lemma Adm_protection G n ids v p : Adm G n ids v -> Adm G n ids (with_protection v p).
Proof.
  intros [Hw (Hr & Hp & H)]. split; [by apply W_protection|]. split; [by apply R_protection|done].
Qed.

Lemma ensure_protection_hoare n ids head resources active :
  hoare (Adm Any n ids) (ensure_protection head resources active) (fun _ => Adm Any n ids) W.
Proof.
  assert (HW : forall v, Adm Any n ids v -> W v) by by intros v [? _].
  unfold ensure_protection. apply hoare_bind_get. intros s Hs.
  eapply hoare_bind with (R := fun _ => Adm Any n ids).
  { apply (hoare_pre (Adm Any n ids)); [|by intros v ->].
    destruct (protection s); [by apply hoare_ret|].
    apply hoare_bind_quiet; [quiet_tac|done|intros ?]. apply hoare_bind_lift; [done|intros p _].
    apply hoare_modify. intros s1 Hs1. by apply (Adm_protection Any n ids (view s1)). }
  intros ?. apply hoare_bind_get. intros s1 Hs1. apply (hoare_pre (Adm Any n ids)); [|by intros v ->].
  apply hoare_bind_deref. intros p _. destruct (protected_head_safe_without_temporal _ _ _).
  - eapply hoare_bind with (R := fun _ => Adm Any n ids); [|intros ?; by apply hoare_ret].
    apply hoare_modify. intros s2 Hs2. by apply (Adm_protection Any n ids (view s2)).
  - by apply hoare_ret.
Qed.

(** Every pass of the loop that goes on has removed a request from the queue. *)
Lemma try_admit_loop_hoare fuel n control :
  (n < fuel)%nat ->
  hoare (Adm Any n []) (try_admit_loop fuel control) (fun r v => exists p, r = Some p /\ Progressed p v) W.
Proof.
  revert n control. induction fuel as [|fuel IH]; intros n control Hn; [lia|]. cbn [try_admit_loop].
  assert (Hdone : forall m ids c v, Adm Any m ids v ->
    exists p, Some (control_result c) = Some p /\ Progressed p v).
  { intros m is0 c v [Hs Hp]%Adm_S. eexists. split; [done|]. split; [done|by right]. }
  apply hoare_bind_gets. intros s Hs. destruct (pending s) as [|head others] eqn:Hq.
  { eapply hoare_bind with (R := fun _ => Adm Any n []).
    - apply hoare_modify. intros s1 Hs1. rewrite <- Hs1 in Hs. by apply (Adm_protection Any n [] (view s1)).
    - intros ?. apply hoare_ret. by apply Hdone. }
  assert (Hlen : n = S (length others)).
  { destruct Hs as [_ (_ & _ & Hl & _)]. cbn in Hl. by rewrite Hq in Hl. }
  set (m := length others) in *. subst n.
  assert (Hnd : (head ∉ others) /\ NoDup others).
  { pose proof (w_nodup _ (proj1 Hs)) as H. cbn in H. rewrite Hq in H. by apply NoDup_cons in H. }
  destruct Hnd as [Hni Hnd].
  assert (HA : Adm Any (S m) (head :: others) (view s)).
  { destruct Hs as [Hw (H1 & H2 & H3 & H4 & H5)]. split; [done|]. split_and!; try done. intros i Hi. cbn. by rewrite Hq. }
  apply (hoare_pre (Adm Any (S m) (head :: others))); [|by intros v ->]. clear Hs HA Hq s.
  assert (HW : forall v, Adm Any (S m) (head :: others) v -> W v) by by intros v [? _].
  assert (Hgo : forall v, Adm Any m others v -> Adm Any m [] v).
  { intros v [Hw (H1 & H2 & H3 & H4 & H5)]. split; [done|]. split_and!; try done. by intros i ?%elem_of_nil. }
  eapply hoare_bind with (R := fun _ => Adm Any (S m) (head :: others)).
  { apply hoare_modify. intros s Hs. repeat case_match; try done.
    by apply (Adm_protection Any (S m) (head :: others) (view s)). }
  intros ?. apply hoare_bind_quiet; [quiet_tac|done|intros c]. destruct c.
  { eapply hoare_bind; [by apply erase_pending_hoare|intros b]. apply hoare_pure. intros ->. cbn [mwhen].
    eapply hoare_bind with (R := fun _ => Adm Any m others).
    - eapply hoare_bind; [apply clear_protection_hoare|intros ?]. by apply cancel_pending_hoare.
    - intros ?. eapply hoare_pre; [apply (IH m); lia|done]. }
  apply hoare_bind_quiet; [quiet_tac|done|intros r].
  apply hoare_bind_quiet; [quiet_tac|done|intros t]. destruct (_ >=? _).
  { eapply hoare_bind; [by apply (remove_pending_hoare Any m head others)|intros p].
    eapply hoare_pre; [apply (IH m); lia|]. intros v []. by apply Hgo. }
  eapply hoare_bind; [by apply plan_pending_hoare|intros [[summary [choice|]]|]].
  - intros s [HA Hf]. assert (HA' := admit_planned_hoare m head others choice BF_None 0 s Hni (Adm_free _ _ _ _ HA Hf)).
    unfold mbind_ at 1. destruct (admit_planned_request head choice BF_None 0 s) as [[q|e] s'].
    + exists q. split; [done|]. by apply HA'.
    + by apply HA'.
  - apply (hoare_pre (Adm Any (S m) (head :: others))); [|by intros v []].
    apply hoare_bind_quiet; [apply quiet_active_set|done|intros active].
    apply hoare_bind_throw_if; [done|intros _].
    eapply hoare_bind; [apply ensure_protection_hoare|intros p].
    destruct (bool_decide (phase p = Drain)); [by apply hoare_ret, Hdone|].
    eapply hoare_bind.
    + eapply hoare_pre; [apply (try_backfill_hoare _ _ others (S m)); done|].
      intros v [Hw (H1 & H2 & H3 & H4 & H5)]. split; [done|]. split_and!; try done. intros i Hi. apply H4. by right.
    + intros [q|c]; apply hoare_ret; [intros v Hv; by exists q|]. intros v [k Hv]. by eapply Hdone.
  - eapply hoare_pre; [apply (IH m); lia|done].
Qed.

Lemma try_admit_one_hoare :
  hoare (fun v => S_ v /\ v_prefill v = None) try_admit_one (fun r v => exists p, r = Some p /\ Progressed p v) W.
Proof.
  unfold try_admit_one. apply hoare_bind_gets. intros s [[Hw Hr] Hp].
  eapply hoare_pre; [apply (try_admit_loop_hoare _ (length (pending s))); lia|]. intros v ->.
  split; [done|]. split_and!; try done. by intros i ?%elem_of_nil.
Qed.

(** ** The worker *)

Lemma ReadyIn_idle ls v : S_ v -> v_prefill v = None -> ReadyIn ls v.
Proof.
  intros [_ Hr] Hp l id c _ Hs Hc. destruct (c_ready c) eqn:Hrd; [done|].
  pose proof (r_ready _ _ Hr l id c Hs Hc ltac:(done) Hrd). congruence.
Qed.

#[local] Instance AdmissionProgress_eq_dec : EqDecision AdmissionProgress.
Proof. solve_decision. Defined.

Lemma worker_unit_hoare : hoare S_ worker_unit (fun _ => S_) W.
Proof.
  assert (HW : forall v, S_ v -> W v) by by intros v [].
  unfold worker_unit. eapply hoare_bind; [apply expire_hoare|intros have].
  apply hoare_bind_quiet; [apply quiet_snapshot|done|intros cs].
  eapply hoare_bind; [apply cancel_active_hoare|intros ?].
  eapply hoare_bind; [apply membership_hoare|intros membership].
  apply hoare_bind_get. intros s HD. assert (HS : S_ (view s)) by apply HD.
  assert (Hdec : hoare (D membership.*1)
    (do! run_decode_round membership; mmodify (ex_set_previous_unit_was_decode true)) (fun _ => S_) W).
  { eapply hoare_bind; [apply decode_round_hoare|intros ?]. apply hoare_quiet; [quiet_tac|done]. }
  destruct (prefill_lane s) as [l|] eqn:Hp; cbn [is_some].
  - destruct (_ && _); [eapply hoare_pre; [apply Hdec|by intros v ->]|].
    eapply hoare_bind; [eapply hoare_pre; [apply prefill_step_hoare|by intros v ->]|intros ?].
    apply hoare_quiet; [quiet_tac|done].
  - eapply hoare_bind with (R := Progressed).
    { destruct (_ && _).
      - eapply hoare_bind; [eapply hoare_pre; [apply try_admit_one_hoare|by intros v ->]|intros r].
        intros s1 (p & -> & Hpr). exact Hpr.
      - apply hoare_ret. intros v ->. split; [done|by right]. }
    intros p. assert (Hrest : hoare (Progressed p) (mwhen (negb (bool_decide (membership = [])))
      (do! run_decode_round membership; mmodify (ex_set_previous_unit_was_decode true))) (fun _ => S_) W \/ p = RanGpuUnit).
    { destruct (decide (p = RanGpuUnit)) as [->|Hne]; [by right|left].
      apply hoare_when; [intros _|by intros _ v []].
      eapply hoare_pre; [apply Hdec|]. intros v [Hv [?|Hpn]]; [done|]. split; [done|by apply ReadyIn_idle]. }
    destruct p; [destruct Hrest as [H|?]; [exact H|done]..|].
    apply (hoare_pre S_); [|by intros v []]. apply hoare_quiet; [quiet_tac|done].
Qed.

(** ** Stopping *)

(** No request is queued or in a lane. *)
Definition Drained (v : View) : Prop := v_pending v = [] /\ (forall l id, v_slots v !! l <> Some (Some id)).

(** The worker is failing: the requests [ids] of the queue and those of [lanes] remain. *)
Definition FailingAll (ids : list Z) (lanes : list nat) (v : View) : Prop :=
  Limbo ids v /\ v_pending v = [] /\ v_closed v = true /\
  (forall k id, v_slots v !! k = Some (Some id) -> k ∈ lanes).

Lemma fail_lane_runs ids e l rest :
  runs (FailingAll ids (l :: rest)) (fail_lane e l) (fun _ => FailingAll ids rest).
Proof.
  intros s (HL & Hp & Hcl & Hs). unfold fail_lane, mbind_ at 1, mget.
  destruct (slot_at s l) as [id|] eqn:Hl.
  - apply slot_at_view in Hl. destruct (Held_core l id (with_pending (view s) (ids ++ v_pending (view s))) (conj HL Hl))
      as (c & Hc & Hd & _ & Hrel).
    unfold abort_program_lane, mbind_ at 1, mmodify at 1. set (s1 := ex_set_program _ s).
    destruct (complete_error_run s1 id c e Hc Hd Hrel) as (s2 & E2 & V2). unfold mbind_ at 1. rewrite E2.
    eexists. eexists. split; [reflexivity|]. change (view (ex_set_slots (<[l := None]> (slots s2)) s2)) with
      (with_slot (view s2) l None). rewrite V2. change (view s1) with (view s).
    split; [|split; [done|split; [done|]]].
    + by apply (W_finish_slot (with_pending (view s) (ids ++ v_pending (view s))) l id c (c_generated c) HL Hl).
    + intros k i Hk. cbn in Hk. rewrite slot_insert in Hk by (by eapply lookup_lt_Some). case_decide; [done|].
      apply Hs in Hk. by apply elem_of_cons in Hk as [->|?].
  - eexists. eexists. split; [reflexivity|]. do 3 (split; [done|]). intros k i Hk.
    pose proof (Hs k i Hk) as Hin. apply elem_of_cons in Hin as [->|?]; [|done].
    unfold slot_at in Hl. cbn in Hk. by rewrite Hk in Hl.
Qed.

(** [fail_all] completes every request, whatever state an exception left the executor in. *)
Lemma fail_all_runs e : runs W (fail_all e) (fun _ v => W v /\ Drained v /\ v_closed v = true).
Proof.
  unfold fail_all. eapply runs_bind with (R := fun _ v => W v /\ v_closed v = true).
  { apply runs_modify. intros s Hw. split; [|cbn; apply orb_true_r]. by destruct Hw; constructor. }
  intros ?. apply runs_bind_gets. intros s [Hw Hcl].
  eapply runs_bind with (R := fun _ => FailingAll (pending s) (lanes_of s)).
  { apply runs_modify. intros s1 Hv. rewrite <- Hv in Hw, Hcl.
    assert (Hp : pending s = v_pending (view s1)) by by rewrite Hv.
    assert (Hm : lanes_of s = seq 0 (v_max (view s1))) by by rewrite Hv. rewrite Hp, Hm. clear Hv Hp Hm.
    split; [|split; [done|split; [done|]]].
    - apply (Limbo_take (view s1) _ []); [done|]. by rewrite app_nil_r.
    - intros k id Hk. destruct (w_slots _ Hw k id Hk) as [Hlt _]. apply elem_of_seq. cbn in *. lia. }
  intros ?. apply runs_bind_get. intros s1 Hs1.
  apply (runs_pre (FailingAll (pending s) (lanes_of s1))).
  2:{ intros v ->. destruct Hs1 as (H1 & H2 & H3 & _). do 3 (split; [done|]). intros k id Hk.
      destruct (w_slots _ H1 k id Hk) as [Hlt _]. apply elem_of_seq. cbn in *. lia. }
  clear Hs1 Hw Hcl.
  eapply runs_bind with (R := fun _ => FailingAll (pending s) (lanes_of s1)).
  { unfold mwhen. destruct (is_some _); [|by apply runs_ret]. eapply runs_bind with (R := fun _ => FailingAll (pending s) (lanes_of s1));
      [|intros ?]; apply runs_modify; intros s2 (H1 & H2); (split; [|done]).
    - by apply (Limbo_prefill _ (view s2) (prefill_lane s2) 0).
    - by apply (Limbo_prefill _ (view s2) None (active_bytes (request_memory s2))). }
  intros ?. eapply runs_bind with (R := fun _ => FailingAll (pending s) (lanes_of s1)).
  { apply runs_modify. intros s2 (H1 & H2). split; [|done]. by apply (Limbo_protection _ (view s2) None). }
  intros ?. eapply runs_bind with (R := fun _ => FailingAll (pending s) []).
  { apply (runs_iter (fun rest v => FailingAll (pending s) rest v)). intros l rest. apply fail_lane_runs. }
  intros ?. eapply runs_bind.
  { eapply runs_pre; [apply (error_all_runs _ _ (fun v => Drained v /\ v_closed v = true))|].
    - by intros v id c' n [H1 H2].
    - intros v (H1 & H2 & H3 & H4). split; [done|]. split; [|done]. split; [done|].
      intros l id Hl. apply H4 in Hl. by apply elem_of_nil in Hl. }
  intros ? s2 [HL%Limbo_nil HD]. eexists. eexists. by split.
Qed.

(** What holds between two iterations of the worker: between two units while it runs; once it has
    ended, nothing is left to be done. *)
Definition Inv (v : View) : Prop :=
  W v /\ (R None v \/ v_worker_done v = true /\ Drained v /\ v_closed v = true).

Lemma shutdown_runs e :
  runs W (do! fail_all e; mmodify (ex_set_worker_done true)) (fun _ v => Inv v /\ v_worker_done v = true).
Proof.
  eapply runs_bind; [apply fail_all_runs|intros ?]. apply runs_modify. intros s (Hw & Hd & Hc).
  split; [|done]. split; [by destruct Hw; constructor|]. right. by destruct Hd.
Qed.

Lemma shutdown_hoare e E :
  hoare W (do! fail_all e; mmodify (ex_set_worker_done true)) (fun _ => Inv) E.
Proof.
  eapply hoare_conseq; [apply hoare_run, shutdown_runs|done|by intros ? v []|done].
Qed.

Lemma worker_iteration_hoare : hoare Inv worker_iteration (fun _ => Inv) (fun _ => False).
Proof.
  unfold worker_iteration. apply hoare_bind_get. intros s [Hw HI].
  destruct (worker_done s) eqn:Hd; [by apply hoare_ret; intros v ->|].
  assert (HR : R None (view s)) by (destruct HI as [?|[Hd' _]]; [done|by cbn in Hd'; rewrite Hd in Hd']).
  destruct (stopping s).
  - eapply hoare_pre; [apply shutdown_hoare|by intros v ->].
  - eapply hoare_pre; [|by intros v ->; apply (conj Hw HR : S_ (view s))].
    eapply hoare_try; [|intros e; apply shutdown_hoare].
    eapply hoare_conseq; [apply worker_unit_hoare|done| |done]. intros ? v [Hw' HR']. by split; [|left].
Qed.

(** ** The clients *)

Lemma unreleased_flag m id c : m !! id = Some c -> flag c <= unreleased m.
Proof.
  intros Hc. set (c' := mkCore true None true true None [] 0 false (c_output c)).
  pose proof (unreleased_insert m id c' c Hc) as Hu'. change (flag c') with 0 in Hu'.
  assert (0 <= unreleased (<[id:=c']> m)) by (unfold unreleased; lia). lia.
Qed.

Lemma W_reaccount v id c c' n :
  W v -> v_reqs v !! id = Some c -> c_done c' = c_done c -> c_lane c' = c_lane c -> (fresh c -> fresh c') ->
  c_released c' = c_done c' && c_consumer c' -> n = v_outstanding v - flag c + flag c' -> flag c' <= flag c ->
  W (with_outstanding (with_reqs v (<[id := c']> (v_reqs v))) n).
Proof.
  intros [H1 H2 H3 H4 H5 H6 H7 H8 H9] Hc E1 E2 Hf Hrel Hn Hle. constructor; cbn; try done.
  - intros i Hi. destruct (H2 i Hi) as (c0 & Hc0 & Hd & Hl & Hfr).
    destruct (decide (i = id)) as [->|Hne]; [|exists c0; by rewrite lookup_insert_ne].
    rewrite lookup_insert_eq. simplify_eq. exists c'. rewrite E1, E2. split_and!; try done; by apply Hf.
  - intros l i Hi. destruct (H3 l i Hi) as (Hl & c0 & Hc0 & Hd & Hla). split; [done|].
    destruct (decide (i = id)) as [->|Hne]; [|exists c0; by rewrite lookup_insert_ne].
    rewrite lookup_insert_eq. simplify_eq. exists c'. by rewrite E1, E2.
  - intros i c0. destruct (decide (i = id)) as [->|Hne];
      [rewrite lookup_insert_eq; intros [= <-]; rewrite E1; by apply H4|rewrite lookup_insert_ne by done; apply H4].
  - intros i c0. destruct (decide (i = id)) as [->|Hne];
      [rewrite lookup_insert_eq; by intros [= <-]|rewrite lookup_insert_ne by done; apply H5].
  - rewrite (unreleased_insert _ _ _ _ Hc). lia.
  - lia.
  - intros i. destruct (decide (i = id)) as [->|Hne];
      [intros _; apply H9; eauto|rewrite lookup_insert_ne by done; apply H9].
Qed.

Lemma Inv_reaccount v id c c' n :
  Inv v -> v_reqs v !! id = Some c -> c_done c' = c_done c -> c_lane c' = c_lane c -> (fresh c -> fresh c') ->
  c_released c' = c_done c' && c_consumer c' -> n = v_outstanding v - flag c + flag c' -> flag c' <= flag c ->
  c_ready c' = c_ready c -> (budget_ok c -> budget_ok c') ->
  Inv (with_outstanding (with_reqs v (<[id := c']> (v_reqs v))) n).
Proof.
  intros [Hw HI] Hc ????????. split; [by eapply W_reaccount|].
  destruct HI as [HR|HD]; [left; by eapply R_update|right; done].
Qed.

Lemma release_consumer_hoare id E : hoare Inv (release_consumer id) (fun _ => Inv) E.
Proof.
  intros s HI. unfold release_consumer, mbind_ at 1, get_req at 1.
  destruct (ex_requests s !! id) as [r|] eqn:Hr; [|by left].
  pose proof (view_lookup _ _ _ Hr) as Hc. pose proof (w_released _ (proj1 HI) _ _ Hc) as Hrel. cbn in Hrel.
  pose proof (w_outstanding _ (proj1 HI)) as Hout. pose proof (w_bound _ (proj1 HI)) as Hb.
  pose proof (unreleased_flag _ _ _ Hc) as Hun.
  destruct (mod_req_run s id (set_consumer_released true) r Hr) as (s1 & E1 & L1 & V1).
  unfold mbind_ at 1. rewrite E1. destruct (done r && negb (capacity_released r)) eqn:Hb1.
  - apply andb_true_iff in Hb1 as [Hd Hcr%negb_true_iff]. destruct (mod_req_run s1 id (set_capacity_released true) _ L1) as (s2 & E2 & L2 & V2).
    unfold mbind_ at 1. rewrite E2. unfold release_reserved_capacity, mmodify.
    rewrite V1 in V2. cbn [v_reqs with_reqs] in V2. rewrite insert_insert_eq in V2.
    set (c' := core (set_capacity_released true (set_consumer_released true r))) in *.
    assert (Ho : outstanding s2 = outstanding s) by by apply (f_equal v_outstanding) in V2.
    assert (Hfl : flag (core r) = 1) by (unfold flag; cbn; by rewrite Hcr).
    assert (HI' : Inv (with_outstanding (with_reqs (view s) (<[id := c']> (v_reqs (view s)))) (outstanding s - 1))).
    { apply (Inv_reaccount (view s) id (core r)); try done; cbn; try (by rewrite Hd); rewrite Hfl; cbn; lia. }
    cbn in Hout, Hb. destruct (Z.eqb_spec (outstanding s2) 0) as [Hz|Hz]; [cbn in Hun; lia|].
    change (Inv (with_outstanding (view s2) (outstanding s2 - 1))). rewrite V2, Ho. exact HI'.
  - unfold mret_. rewrite V1.
    assert (Hfl : flag (core (set_consumer_released true r)) = flag (core r)) by done.
    apply (Inv_reaccount (view s) id (core r) _ (v_outstanding (view s))); try done; [|lia..].
    cbn. destruct (done r) eqn:Hd; cbn in *; [|done]. by destruct (capacity_released r).
Qed.

Lemma abandon_hoare id E : (forall v, Inv v -> E v) -> hoare Inv (abandon_request id) (fun _ => Inv) E.
Proof.
  intros HE. unfold abandon_request. apply hoare_bind_quiet; [quiet_tac|done|intros ?].
  apply release_consumer_hoare.
Qed.

Lemma take_events_hoare id : hoare Inv (take_events id) (fun _ => Inv) Inv.
Proof. apply hoare_quiet; [unfold take_events; quiet_tac|done]. Qed.

Lemma wait_hoare id publish requested err :
  hoare Inv (wait_iteration id publish requested err) (fun _ => Inv) Inv.
Proof.
  unfold wait_iteration. eapply hoare_bind; [apply take_events_hoare|intros [evs d]].
  apply hoare_bind_quiet; [unfold publish_events, cancel_request; quiet_tac|done|intros e1].
  apply hoare_bind_quiet; [unfold check_cancellation, cancel_request; quiet_tac|done|intros e2].
  destruct d; cbn [negb]; [|by apply hoare_ret].
  apply hoare_bind_quiet; [quiet_tac|done|intros r].
  eapply hoare_bind; [apply release_consumer_hoare|intros ?]. repeat case_match; by apply hoare_ret.
Qed.

Definition with_counts (v : View) (o f n : Z) : View :=
  mkView (v_reqs v) (v_pending v) o f n (v_slots v) (v_prefill v) (v_memory v) (v_protection v) (v_max v)
    (v_max_outstanding v) (v_closed v) (v_worker_done v).

Lemma Inv_counts v o f n :
  Inv v -> o - f = v_outstanding v - v_in_flight v -> 0 <= f -> o <= v_max_outstanding v -> v_next v <= n ->
  Inv (with_counts v o f n).
Proof.
  intros [[H1 H2 H3 H4 H5 H6 H7 H8 H9] HI] Ho Hf Hm Hn. split.
  - constructor; cbn; try done; [lia|]. intros id Hid. specialize (H9 id Hid). lia.
  - destruct HI as [[R1 R2 R3 R4 R5]|HD]; [left; by constructor|by right].
Qed.

Lemma submit_reserve_hoare d : hoare Inv (submit_reserve d) (fun _ => Inv) Inv.
Proof.
  unfold submit_reserve. apply hoare_bind_quiet; [quiet_tac|done|intros t]. apply hoare_bind_get. intros s HI.
  apply hoare_bind_throw_if; [by intros v ->|intros _]. apply hoare_bind_throw_if; [by intros v ->|intros _].
  apply hoare_bind_throw_if; [by intros v ->|intros Hmax].
  eapply hoare_bind with (R := fun _ => Inv); [|intros ?; by apply hoare_ret].
  apply hoare_modify. intros s1 Hv.
  change (Inv (with_counts (view s1) (outstanding s1 + 1) (in_flight s1 + 1) (next_request_id s1 + 1))).
  assert (outstanding s1 = outstanding s) by by apply (f_equal v_outstanding) in Hv.
  assert (max_outstanding s1 = max_outstanding s) by by apply (f_equal v_max_outstanding) in Hv.
  rewrite Hv. pose proof (w_bound _ (proj1 HI)). assert (next_request_id s1 = next_request_id s) by by apply (f_equal v_next) in Hv.
  assert (in_flight s1 = in_flight s) by by apply (f_equal v_in_flight) in Hv. bprop.
  apply Inv_counts; [done|cbn in *; lia..].
Qed.

Lemma submit_failed_hoare E :
  hoare (fun v => Inv v /\ 0 < v_in_flight v) submit_failed (fun _ => Inv) E.
Proof.
  apply hoare_run. intros s [HI Hf]. unfold submit_failed, mbind_, mmodify, release_reserved_capacity. cbn.
  pose proof (w_outstanding _ (proj1 HI)) as Hout. pose proof (w_bound _ (proj1 HI)) as Hb.
  assert (0 <= unreleased (v_reqs (view s))) by (unfold unreleased; lia). cbn in Hout, Hb, Hf.
  eexists. eexists. split; [reflexivity|].
  destruct (Z.eqb_spec (outstanding (ex_set_in_flight (in_flight s - 1) s)) 0) as [Hz|_]; [cbn in *; lia|].
  change (Inv (with_counts (view s) (outstanding s - 1) (in_flight s - 1) (next_request_id s))).
  apply Inv_counts; [done|cbn; lia..].
Qed.

Lemma W_push v id c :
  W v -> 0 < v_in_flight v -> id < v_next v -> v_reqs v !! id = None ->
  c_done c = false -> c_lane c = None -> c_consumer c = false -> c_released c = false -> fresh c ->
  W (mkView (<[id := c]> (v_reqs v)) (v_pending v ++ [id]) (v_outstanding v) (v_in_flight v - 1) (v_next v)
       (v_slots v) (v_prefill v) (v_memory v) (v_protection v) (v_max v) (v_max_outstanding v) (v_closed v)
       (v_worker_done v)).
Proof.
  intros [H1 H2 H3 H4 H5 H6 H7 H8 H9] Hf Hid Hn Hd Hl Hc Hr Hfr.
  assert (Hne : forall i c0, v_reqs v !! i = Some c0 -> i <> id) by (intros i c0 Hi ->; congruence).
  constructor; cbn; try done.
  - apply NoDup_app. split; [done|]. split; [|apply NoDup_singleton]. intros i Hi ->%list_elem_of_singleton.
    destruct (H2 id Hi) as (c0 & Hc0 & _). congruence.
  - intros i [Hi| ->%list_elem_of_singleton]%elem_of_app.
    + destruct (H2 i Hi) as (c0 & Hc0 & ?). exists c0. rewrite lookup_insert_ne; [done|]. intros <-. by eapply Hne.
    + exists c. by rewrite lookup_insert_eq.
  - intros l i Hi. destruct (H3 l i Hi) as (? & c0 & Hc0 & ?). split; [done|]. exists c0.
    rewrite lookup_insert_ne; [done|]. intros <-. by eapply Hne.
  - intros i c0. destruct (decide (i = id)) as [->|Hi].
    + intros _ _. left. apply elem_of_app. right. by left.
    + rewrite lookup_insert_ne by done. intros Hc0 Hd0. destruct (H4 i c0 Hc0 Hd0); [left; apply elem_of_app; by left|by right].
  - intros i c0. destruct (decide (i = id)) as [->|Hi].
    + rewrite lookup_insert_eq. intros [= <-]. by rewrite Hd, Hr.
    + rewrite lookup_insert_ne by done. apply H5.
  - rewrite unreleased_fresh by done. unfold flag. rewrite Hr. lia.
  - lia.
  - intros i. destruct (decide (i = id)) as [->|Hi]; [done|]. rewrite lookup_insert_ne by done. apply H9.
Qed.

Lemma submit_push_hoare id p o opts limit :
  os_ready o ->
  hoare (fun v => Inv v /\ 0 < v_in_flight v /\ id < v_next v /\ v_reqs v !! id = None)
    (submit_push id (new_request p o opts limit)) (fun _ => Inv) Inv.
Proof.
  intros Ho s (HI & Hf & Hid & Hn). unfold submit_push, mbind_ at 1, mget. unfold mbind_ at 1, mmodify at 1.
  destruct (stopping s || failed s) eqn:Hcl.
  - unfold mbind_, mmodify, mthrow. right.
    change (Inv (with_counts (view s) (outstanding s - 1) (in_flight s - 1) (next_request_id s))).
    pose proof (w_bound _ (proj1 HI)). apply Inv_counts; [done|cbn in *; lia..].
  - unfold mmodify.
    match goal with |- Inv (view ?x) => assert (view x = mkView (<[id := core (new_request p o opts limit)]> (v_reqs (view s)))
      (v_pending (view s) ++ [id]) (v_outstanding (view s)) (v_in_flight (view s) - 1) (v_next (view s))
       (v_slots (view s)) (v_prefill (view s)) (v_memory (view s)) (v_protection (view s)) (v_max (view s))
       (v_max_outstanding (view s)) (v_closed (view s)) (v_worker_done (view s))) as -> end.
    { unfold view; cbn. by rewrite fmap_insert. }
    split; [apply W_push; [apply HI|done..|by split_and!]|].
    destruct HI as [Hw [HR|(_ & _ & Hc)]]; [left|cbn in Hc; congruence].
    assert (Hns : forall l, v_slots (view s) !! l <> Some (Some id)).
    { intros l Hl. destruct (w_slots _ Hw l id Hl) as (_ & c & Hc & _). congruence. }
    pose proof (R_off None (view s) id (core (new_request p o opts limit)) (outstanding s) HR Hns) as [R1 R2 R3 R4 R5].
    by constructor.
Qed.

(** ** Reachable states *)

(** What happens to the executor: the worker iterates, and the clients submit, collect and cancel. *)
Inductive exec_step (s : Exec) : Exec -> Prop :=
| step_worker s' : worker_iteration s = (Ok tt, s') -> exec_step s s'
| step_reserve d x s' : submit_reserve d s = (x, s') -> x <> Err Abort_ -> exec_step s s'
| step_submit_failed s' : 0 < in_flight s -> submit_failed s = (Ok tt, s') -> exec_step s s'
| step_push id p o opts limit x s' :
    0 < in_flight s -> id < next_request_id s -> ex_requests s !! id = None -> os_ready o ->
    submit_push id (new_request p o opts limit) s = (x, s') -> x <> Err Abort_ -> exec_step s s'
| step_release id s' : release_consumer id s = (Ok tt, s') -> exec_step s s'
| step_abandon id s' : abandon_request id s = (Ok tt, s') -> exec_step s s'
| step_wait id publish requested err x s' :
    wait_iteration id publish requested err s = (Ok x, s') -> exec_step s s'
| step_stop s' : stop_executor s = (Ok tt, s') -> exec_step s s'.

Inductive exec_reachable : Exec -> Prop :=
| reach_create p memory max_conc max_pending timeout capacity s :
    0 <= max_conc -> 0 <= max_pending -> active_bytes memory = 0 ->
    create_executor p memory max_conc max_pending timeout capacity = Ok s -> exec_reachable s
| reach_step s s' : exec_reachable s -> exec_step s s' -> exec_reachable s'.

Lemma Inv_create p memory max_conc max_pending timeout capacity s :
  0 <= max_conc -> 0 <= max_pending -> active_bytes memory = 0 ->
  create_executor p memory max_conc max_pending timeout capacity = Ok s -> Inv (view s).
Proof.
  intros H1 H2 Hm H. unfold create_executor in H. apply rbind_Ok in H as ([] & Hb & H). apply rbind_Ok in H as ([] & _ & [= <-]).
  apply throw_if_Ok in Hb. bprop.
  assert (Hr : forall l id, replicate kMaximumConcurrency (@None Z) !! l <> Some (Some id))
    by (intros l id [? _]%lookup_replicate; done).
  split; [|left]; constructor; cbn [view v_pending v_reqs v_slots v_max v_outstanding v_in_flight v_max_outstanding v_next
    v_prefill v_memory v_worker_done pending ex_requests slots max_concurrency outstanding in_flight max_outstanding
    next_request_id prefill_lane request_memory worker_done]; try done.
  - apply NoDup_nil_2.
  - by intros id ?%elem_of_nil.
  - intros l id Hl. by destruct (Hr l id).
  - lia.
  - split; [done|]. unfold kMaximumConcurrency in *. lia.
  - intros id [x Hx]. by rewrite fmap_empty, lookup_empty in Hx.
Qed.

Lemma reachable_inv s : exec_reachable s -> Inv (view s).
Proof.
  induction 1 as [p memory mc mp t cap s H1 H2 H3 H4|s s' _ HI Hstep]; [by apply (Inv_create p memory mc mp t cap)|].
  assert (Hh : forall A P (m : M Exec A) (x : result A), hoare P m (fun _ => Inv) Inv -> P (view s) ->
    m s = (x, s') -> x <> Err Abort_ -> Inv (view s')).
  { intros A P m x Hm HP E Hx. specialize (Hm s HP). rewrite E in Hm. destruct x as [|e]; [done|]. destruct Hm; congruence. }
  destruct Hstep as [s' E|d x s' E Hx|s' Hf E|id p o opts limit x s' Hf Hid Hn Ho E Hx|id s' E|id s' E|id pub req err x s' E|s' E].
  - eapply (Hh _ Inv); [|done|exact E|done]. eapply hoare_conseq; [apply worker_iteration_hoare|done..].
  - by eapply (Hh _ Inv); [apply submit_reserve_hoare|..].
  - by eapply Hh; [apply submit_failed_hoare| |exact E|].
  - eapply Hh; [by apply (submit_push_hoare id)| |exact E|done]. split_and!; try done. cbn. by rewrite lookup_fmap, Hn.
  - by eapply Hh; [apply release_consumer_hoare| |exact E|].
  - by eapply Hh; [apply abandon_hoare| |exact E|].
  - by eapply Hh; [apply wait_hoare| |exact E|].
  - injection E as <-. destruct HI as [Hw HI]. split; [by destruct Hw; constructor|].
    destruct HI as [[R1 R2 R3 R4 R5]|(? & ? & ?)]; [left; by constructor|right; by split_and!].
Qed.

End ExecutorProofs.
