(* ===== verification/ExecutorTheorems.v ===== *)
(** * What the concurrent executor guarantees

    The theorems about every reachable state of the executor, whatever the target, the sessions and
    the other threads do; and a small target on which a whole run of it is evaluated. *)
From S2P Require Import Prelude Admission Capacity Contract Executor ExecutorProofs.
#[local] Open Scope Z_scope.

Section Theorems.
Context `{TG : Target, OS : OutputSession, EV : Environment}.
Context `{TL : !TargetLaws, OL : !OutputSessionLaws}.

Lemma core_lookup s id r : ex_requests s !! id = Some r -> v_reqs (view s) !! id = Some (core r).
Proof. apply view_lookup. Qed.

Lemma running s : exec_reachable s -> worker_done s = false -> R None (view s).
Proof.
  intros Hr Hd. destruct (reachable_inv s Hr) as [_ [HR|[Hd' _]]]; [done|]. cbn in Hd'. congruence.
Qed.

(** C1: no accepted request is ever lost or served twice: one that is not done is queued, with no lane,
    or is in exactly one lane, its own, and not queued. *)
Theorem executor_requests_placed s id r :
  exec_reachable s -> ex_requests s !! id = Some r -> done r = false ->
  (id ∈ pending s /\ lane r = None /\ forall l, slots s !! l <> Some (Some id)) \/
  (exists l, lane r = Some l /\ (l < max_concurrency s)%nat /\ ~ id ∈ pending s /\
     forall l', slots s !! l' = Some (Some id) <-> l' = l).
Proof.
  intros Hs Hr%core_lookup Hd. destruct (reachable_inv s Hs) as [Hw _].
  destruct (w_live _ Hw _ _ Hr Hd) as [Hp|[l Hl]].
  - left. destruct (w_pending _ Hw _ Hp) as (c & Hc & _ & Hla & _). simplify_eq. split_and!; try done.
    intros l Hl. by apply (W_slot_not_pending _ _ _ Hw Hl).
  - right. destruct (w_slots _ Hw _ _ Hl) as (Hlt & c & Hc & _ & Hla). simplify_eq. exists l. split_and!; try done.
    + by apply (W_slot_not_pending _ _ _ Hw Hl).
    + intros l'. split; [intros Hl'; by eapply W_slot_inj|by intros ->].
Qed.

(** The requests whose capacity is held: not done, or not yet collected. *)
Definition holding (m : gmap Z Request) : Z :=
  Z.of_nat (length (List.filter (fun r => negb (done r && consumer_released r)) (map_to_list m).*2)).

Lemma holding_unreleased s : W (view s) -> unreleased (v_reqs (view s)) = holding (ex_requests s).
Proof.
  intros Hw. unfold unreleased, holding. f_equal. pose proof (w_released _ Hw) as Hrel. cbn [view v_reqs] in *.
  assert (Hl : forall l l' : list Core, l ≡ₚ l' ->
    length (List.filter (fun c => negb (c_released c)) l) = length (List.filter (fun c => negb (c_released c)) l')).
  { induction 1; cbn; repeat case_match; cbn; lia. }
  rewrite (Hl _ (core <$> (map_to_list (ex_requests s)).*2)).
  - assert (HF : Forall (fun r => capacity_released r = done r && consumer_released r) (map_to_list (ex_requests s)).*2).
    { apply Forall_forall. intros r [[id r'] [-> Hin%elem_of_map_to_list]]%list_elem_of_fmap.
      apply (Hrel id (core r')). by rewrite lookup_fmap, Hin. }
    induction HF as [|r l Hr _ IH]; cbn; [done|]. rewrite Hr. case_match; cbn; lia.
  - rewrite map_to_list_fmap. rewrite <- !list_fmap_compose. by apply Permutation_refl'.
Qed.

(** C3: the capacity accounting is exact: what is counted as outstanding is one per submission in
    progress and one per request that is not done or not yet collected; it never exceeds the bound
    given at construction. *)
Theorem executor_capacity_exact s :
  exec_reachable s ->
  outstanding s = in_flight s + holding (ex_requests s) /\ 0 <= in_flight s /\ outstanding s <= max_outstanding s.
Proof.
  intros Hs. destruct (reachable_inv s Hs) as [Hw _]. rewrite <- holding_unreleased by done.
  pose proof (w_bound _ Hw). split; [apply (w_outstanding _ Hw)|done].
Qed.

(** C2: once the worker has ended, by shutdown or by a failure anywhere in its work, every request is
    done, nothing is queued or in a lane, and the executor accepts no more. *)
Theorem executor_shutdown_completes s :
  exec_reachable s -> worker_done s = true ->
  (forall id r, ex_requests s !! id = Some r -> done r = true) /\ pending s = [] /\
  (forall l id, slots s !! l <> Some (Some id)) /\ stopping s || failed s = true.
Proof.
  intros Hs Hd. destruct (reachable_inv s Hs) as [Hw [HR|(_ & [Hp Hsl] & Hc)]].
  { pose proof (r_running _ _ HR) as H. cbn in H. congruence. }
  split; [|done]. intros id r Hr%core_lookup. destruct (done r) eqn:Hdr; [done|].
  destruct (w_live _ Hw _ _ Hr Hdr) as [Hin|[l Hl]].
  - rewrite Hp in Hin. by apply elem_of_nil in Hin.
  - by apply Hsl in Hl.
Qed.

(** C4: while the worker runs, between two units of work: a request in a lane has generated exactly
    what it took from its budget; it is still prefilling if and only if its lane is the prefilling
    one; and the memory for prefills is in use only when some lane prefills. *)
Theorem executor_lanes_consistent s :
  exec_reachable s -> worker_done s = false ->
  (forall l id r, slots s !! l = Some (Some id) -> ex_requests s !! id = Some r ->
     (exists b, budget r = Some b /\ 0 <= remaining_ b /\
        Z.of_nat (length (generated r)) + remaining_ b = generated_reserve r) /\
     (decode_ready r = false <-> prefill_lane s = Some l)) /\
  (forall l, prefill_lane s = Some l -> exists id, slots s !! l = Some (Some id)) /\
  (prefill_lane s = None -> active_bytes (request_memory s) = 0).
Proof.
  intros Hs Hd. pose proof (running s Hs Hd) as HR. split_and!.
  - intros l id r Hl Hr%core_lookup. split; [by apply (r_budget _ _ HR l id (core r) Hl Hr)|]. split.
    + intros Hrd. by apply (r_ready _ _ HR l id (core r) Hl Hr).
    + intros Hp. destruct (r_prefill _ _ HR l Hp) as (_ & i & c & Hi & Hc & Hrd). cbn in Hi. simplify_eq. done.
  - intros l Hl. destruct (r_prefill _ _ HR l Hl) as (_ & i & c & Hi & _). by exists i.
  - apply (r_memory _ _ HR).
Qed.

(** the admission loop ends: when no lane prefills, [try_admit_one] never runs out of the fuel
    the model gives it, one more than the length of the queue. *)
Theorem try_admit_one_terminates s s' :
  exec_reachable s -> worker_done s = false -> prefill_lane s = None -> try_admit_one s <> (Ok None, s').
Proof.
  intros Hs Hd Hp E. pose proof (try_admit_one_hoare s) as H. rewrite E in H.
  destruct H as (p & Hp' & _); [|done]. split; [|done]. split; [apply (reachable_inv s Hs)|by apply running].
Qed.

(** no exception of the target, of a session or of the executor's own checks escapes the worker:
    an iteration ends normally, or the process has aborted. *)
Theorem worker_iteration_contains s x s' :
  exec_reachable s -> worker_iteration s = (x, s') -> x = Ok tt \/ x = Err Abort_.
Proof.
  intros Hs E. pose proof (worker_iteration_hoare s (reachable_inv s Hs)) as H. rewrite E in H.
  destruct x as [[]|e]; [by left|]. destruct H as [->|[]]. by right.
Qed.

(** stopping ends: after [~ConcurrentExecutor] has asked for it, the next iteration of the worker
    returns and is its last. *)
Theorem executor_stop_terminates s :
  exec_reachable s -> stopping s = true ->
  exists s', worker_iteration s = (Ok tt, s') /\ worker_done s' = true.
Proof.
  intros Hs Hst. unfold worker_iteration, mbind_ at 1, mget. destruct (worker_done s) eqn:Hd; [by exists s|].
  rewrite Hst. destruct (shutdown_runs (RequestError Unavailable) s (proj1 (reachable_inv s Hs))) as ([] & s' & E & _ & Hw).
  by exists s'.
Qed.

End Theorems.

(** ** A run *)

Module Sample.

Definition plan : RequestPlanSummary := mkPlanSummary 2 0 3 OutputLimit 512 256 (mkResources 1 2 0) 6.

(** A target that prefills in two steps and then generates 7, 8, 8, ... *)
#[export] Instance target : Target := {
  tg_state := nat; tg_prompt := list Z; tg_options := unit; tg_base_plan := RequestPlanSummary;
  tg_plan := RequestPlanSummary; base_summary := fun p => p; plan_summary := fun p => 
    mkPlanSummary (prompt_tokens p) (reusable_prompt_tokens p) (Z.max 0 (effective_output_tokens p))
      (effective_limit_reason p) (transient_bytes p) (transient_alignment p) (admission p) (service_work_quanta p);
  plan_request_base := fun _ _ => mret_ plan;
  plan_request_for_lane := fun _ _ b => mret_ b;
  can_admit_lane := fun _ _ _ => true;
  can_admit_lane_after_retained_eviction := fun _ _ _ => true;
  has_retained_lane := fun _ _ => false;
  evict_retained_lane := fun _ n => n;
  start_prefill_lane := fun _ _ _ _ => mret_ (mkStepResult (mkBegin 2 0) [] 1 false);
  advance_prefill_lane := fun _ => mret_ (mkStepResult (mkBegin 2 0) [7] 1 true);
  decode_batch := fun lanes _ => mret_ (mkRound (replicate (length lanes) 8) [] 1);
  resolve_prefill_lane := fun _ _ => mret_ tt;
  resolve_pending_batch := fun _ _ _ _ => mret_ tt;
  abort_lane := fun _ n => n;
}.
#[export] Instance target_laws : TargetLaws.
Proof. constructor. intros p. cbn. lia. Qed.

(** Sessions that accept every token and spell it as its byte. *)
#[export] Instance session : OutputSession := {
  os_state := list Z;
  preview := fun tokens budget limit =>
    let n := Z.min budget (Z.of_nat (length tokens)) in
    do! mput (take (Z.to_nat n) tokens);
    mret_ (mkDecision (Z.max 0 n) (if n =? budget then limit else FR_None));
  preview_terminal := fun reason => do! mput []; mret_ (mkDecision 0 reason);
  commit_preview := let! bytes := mget in do! mput []; mret_ [mkDelta Content bytes];
}.
#[export] Instance session_laws : OutputSessionLaws.
Proof.
  refine {| os_ready := fun _ => True |}.
  - intros tokens budget limit o d o' [= <- <-]. cbn. lia.
  - intros o _. by eexists _, _, _, _.
Defined.

#[export] Instance environment : Environment := {
  env_now := Z.of_nat; env_cancelled := fun _ _ => false;
}.

Definition st0 : @tg_state target := 0%nat.
Definition p0 : @tg_prompt target := [5; 6].
Definition o0 : @os_state session := [].
Definition t0 : @tg_options target := tt.

Definition start : result Exec :=
  create_executor st0 (mkRM (Some (4096, 4096)) 0 1 0) 1 1 1000 (mkResources 1 4 0).
Definition run {A} (m : M Exec A) (s : Exec) : Exec := (m s).2.
Definition dummy : Exec :=
  mkExec st0 (mkRM None 0 1 0) 0 0 0 (mkResources 0 0 0) ∅ [] 0 0 0 [] None [] None 0
    (mkStats 0 0 0 0 0 0 0 0) (mkStats 0 0 0 0 0 0 0 0) false false false false 0.

Definition s0 : Exec := match start with Ok s => s | Err _ => dummy end.
Definition s1 : Exec := run (submit_reserve None) s0.
Definition s2 : Exec := run (submit_push 1 (new_request p0 o0 t0 1000)) s1.
Definition s3 : Exec := run worker_iteration s2.
Definition s4 : Exec := run worker_iteration s3.
Definition s5 : Exec := run worker_iteration s4.
Definition s6 : Exec := run worker_iteration s5.
Definition s7 : Exec := run stop_executor s4.
Definition s8 : Exec := run worker_iteration s7.

Lemma run_ok {A} (m : M Exec A) s a : (m s).1 = a -> m s = (a, run m s).
Proof. intros <-. unfold run. by destruct (m s). Qed.

Lemma worker_reachable s : exec_reachable s -> (worker_iteration s).1 = Ok tt -> exec_reachable (run worker_iteration s).
Proof. intros Hs E. eapply reach_step; [exact Hs|]. by apply step_worker, run_ok. Qed.

Lemma s2_reachable : exec_reachable s2.
Proof.
  eapply reach_step; [eapply reach_step; [eapply (reach_create st0 (mkRM (Some (4096, 4096)) 0 1 0) 1 1 1000
    (mkResources 1 4 0) s0); done|]|].
  - eapply (step_reserve s0 None (Ok (1, 1000)) s1); [|done]. apply run_ok. vm_compute. reflexivity.
  - apply (step_push s1 1 p0 o0 t0 1000 (Ok tt)); try done.
Qed.

Lemma s3_reachable : exec_reachable s3. Proof. apply worker_reachable; [apply s2_reachable|by vm_compute]. Qed.
Lemma s4_reachable : exec_reachable s4. Proof. apply worker_reachable; [apply s3_reachable|by vm_compute]. Qed.
Lemma s5_reachable : exec_reachable s5. Proof. apply worker_reachable; [apply s4_reachable|by vm_compute]. Qed.
Lemma s6_reachable : exec_reachable s6. Proof. apply worker_reachable; [apply s5_reachable|by vm_compute]. Qed.
Lemma s7_reachable : exec_reachable s7.
Proof. eapply reach_step; [apply s4_reachable|]. by apply step_stop. Qed.
Lemma s8_reachable : exec_reachable s8. Proof. apply worker_reachable; [apply s7_reachable|by vm_compute]. Qed.

(** The request is served: 3 tokens, as planned. *)
Definition outcome (s : Exec) : option (list Z * list Z * FinishReason) :=
  match ex_requests s !! 1 with
  | Some r => match rq_result r with
              | Some g => Some (generated_token_ids g, result_content g, result_finish_reason g)
              | None => None
              end
  | None => None
  end.
Example served : outcome s6 = Some ([7; 8; 8], [7; 8; 8], OutputLimit) /\ slots s6 = replicate 8 None.
Proof. split; vm_compute; reflexivity. Qed.


Lemma executor_requests_placed_witness : exists r, ex_requests s4 !! 1 = Some r /\
  ((1 ∈ pending s4 /\ lane r = None /\ forall l, slots s4 !! l <> Some (Some 1)) \/
   (exists l, lane r = Some l /\ (l < max_concurrency s4)%nat /\ ~ 1 ∈ pending s4 /\
     forall l', slots s4 !! l' = Some (Some 1) <-> l' = l)).
Proof.
  destruct (ex_requests s4 !! 1) as [r|] eqn:E; [|by vm_compute in E]. exists r. split; [done|].
  apply (executor_requests_placed s4 1 r s4_reachable E).
  apply (f_equal (fun o => default true (done <$> o))) in E. cbn in E. rewrite <- E. vm_compute. reflexivity.
Defined.

Lemma executor_capacity_exact_witness : holding (ex_requests s4) = 1 /\
  outstanding s4 = in_flight s4 + holding (ex_requests s4) /\ 0 <= in_flight s4 /\ outstanding s4 <= max_outstanding s4.
Proof. split; [vm_compute; reflexivity|]. apply (executor_capacity_exact s4 s4_reachable). Defined.

Lemma executor_shutdown_completes_witness : is_Some (ex_requests s8 !! 1) /\
  (forall id r, ex_requests s8 !! id = Some r -> done r = true) /\ pending s8 = [] /\
  (forall l id, slots s8 !! l <> Some (Some id)) /\ stopping s8 || failed s8 = true.
Proof.
  split; [vm_compute; by eexists|]. apply (executor_shutdown_completes s8 s8_reachable). vm_compute. reflexivity.
Defined.

Lemma executor_lanes_consistent_witness : slots s4 !! 0%nat = Some (Some 1) /\
  (forall l id r, slots s4 !! l = Some (Some id) -> ex_requests s4 !! id = Some r ->
     (exists b, budget r = Some b /\ 0 <= remaining_ b /\
        Z.of_nat (length (generated r)) + remaining_ b = generated_reserve r) /\
     (decode_ready r = false <-> prefill_lane s4 = Some l)) /\
  (forall l, prefill_lane s4 = Some l -> exists id, slots s4 !! l = Some (Some id)) /\
  (prefill_lane s4 = None -> active_bytes (request_memory s4) = 0).
Proof.
  split; [vm_compute; reflexivity|]. apply (executor_lanes_consistent s4 s4_reachable). vm_compute. reflexivity.
Defined.

Lemma try_admit_one_terminates_witness : (try_admit_one s2).1 <> Ok None.
Proof.
  intros E. apply (try_admit_one_terminates s2 (try_admit_one s2).2 s2_reachable);
    [vm_compute; reflexivity..|]. rewrite <- E. by destruct (try_admit_one s2).
Defined.

Lemma worker_iteration_contains_witness : (worker_iteration s3).1 = Ok tt \/ (worker_iteration s3).1 = Err Abort_.
Proof. apply (worker_iteration_contains s3 _ (worker_iteration s3).2 s3_reachable). by destruct (worker_iteration s3). Defined.

Lemma executor_stop_terminates_witness :
  exists s', worker_iteration s7 = (Ok tt, s') /\ worker_done s' = true.
Proof. apply (executor_stop_terminates s7 s7_reachable). vm_compute. reflexivity. Defined.

End Sample.
